(* ===== verification/_CoqProject ===== *)
-Q . S2P
Prelude.v
Bytes.v
Rlp.v
RlpStream.v
RlpFields.v
Keccak.v
Sha3C.v
DataSizes.v
Vapash.v
Instruction.v
VMOpt.v
VM.v
VMSafety.v
VMEquiv.v
VMSim.v
VMArith.v
VMProps.v
VMStatic.v
VMMemory.v
MemoryDB.v
OverlayDB.v
TrieCommon.v
TrieDB.v
TrieSpec.v
TrieRefine.v
TrieHash.v
TrieCommit.v
TrieProps.v
Account.v
State.v
StateProps.v
Crypto.v
Transaction.v
BlockHeader.v
HeaderProps.v
Seal.v
SealProps.v
Receipt.v
Precompiled.v
Executive.v
ExecProps.v
TxProps.v
TxQueue.v
TxQueueProps.v
BlockChain.v
ChainStore.v
ChainTree.v
ChainBlooms.v
ChainIndex.v
ChainProps.v
ChainSamples.v
ChainHistory.v
Block.v
BlockImport.v
BlockReads.v
BlockUncles.v
BlockEnact.v
BlockSamples.v
BlockProps.v
