(* ===== verification/Prelude.v ===== *)
(** * A verification development for cpp-vapory

    cpp-vapory is a C++ client of an Ethereum-like chain.  This library models
    the parts that decide what a block, a transaction or a piece of state means:
    the codec, the hash functions, the tries and their stores, the cached
    account state, the virtual machine, the execution of transactions, the
    proof-of-work function and the seal engine; the two components that keep
    what arrives, the queue of transactions and the block chain; and the blocks that
    are made from the one and imported into the other.  It proves that they do what
    they are for.  Definitions are translated from the
    sources, keep their names and can be evaluated.

    ** The program and the files

    The layers, from the bottom up; each is written against the ones above it
    in this list.

    - libdevcore, data.  [Bytes] models vector_ref.h, CommonData.h/.cpp and
      FixedHash.h (views, hex, big-endian integers, nibbles, fixed-size hashes).
      [Rlp] models the reader [class RLP] of RLP.h/.cpp with its index cache and
      iterators, together with the abstract data it denotes ([Item], [encode]);
      [RlpStream] the writer [class RLPStream].
    - Hash functions.  [Keccak] models SHA3.cpp; [Sha3C] the C copy in
      libvapash/sha3.c.
    - libvapash, the proof of work.  [DataSizes] holds the tables of
      data_sizes.h, [Vapash] the functions of internal.c and fnv.h.
    - libvvm, the virtual machine.  [Instruction] holds the instruction table
      and the gas schedules (Instruction.h/.cpp, VMConfig.h,
      libvapcore/VVMSchedule.h), [VMOpt] the preparation of code (VMOpt.cpp),
      [VM] the interpreter (VM.h/.cpp, VMCalls.cpp) against the interface
      [ExtVMFace].  [VMSafety], [VMEquiv], [VMSim], [VMArith], [VMStatic] and
      [VMMemory] hold the proof layers, [VMProps] the main theorems.
    - libdevcore, tries.  [MemoryDB] and [OverlayDB] model the node stores, the
      first file also the interface [NodeDB] with [NodeDBLaws] that the tries
      are written against; [TrieCommon] models the packed keys of
      TrieCommon.h/.cpp, [TrieDB] the class template [GenericTrieDB] and its
      hashed and fat variants, [TrieHash] the direct computation of roots of
      TrieHash.cpp.  [TrieSpec] is the abstract tree, [TrieRefine] the proof
      that the code implements it, [TrieCommit] that a root
      determines the trie, [TrieProps] the theorems about
      sequences of operations.
    - libvapcore, messages.  [RlpFields] holds what a parser of records needs of
      the reader, [Crypto] the signatures of libdevcrypto/Common.cpp over the
      elliptic-curve library, [Transaction] the class [TransactionBase],
      [BlockHeader] the class [BlockHeader] with its theorems in [HeaderProps].
    - The seal engine.  [Seal] models ChainOperationParams.h/.cpp, SealEngine.cpp
      and libvapashseal/Vapash.cpp and VapashAux.cpp, [SealProps] proves the
      theorems about them.
    - libvapory, the state.  [Account] models Account.h/.cpp, [State] the class
      [State] of State.h/.cpp (cache, change log, storage, code, commit) over
      the tries, [StateProps] the theorems about it.
    - Executing.  [Receipt] models LogEntry, TransactionReceipt and LogFilter,
      [Precompiled] the precompiled contracts, [Executive] the classes
      [Executive] and [ExtVM] and [State::execute], which join the interpreter to
      the state: [ExtVM_face] is an [ExtVMFace].  [ExecProps] proves that it meets
      [ExtVMLaws] at every depth of calls, [TxProps] the theorems about
      transactions.
    - The queue of transactions.  [TxQueue] models TransactionQueue.h/.cpp: the
      multiset of current transactions with its two indices, the future ones, what
      is known and dropped, and a turn of the verifying threads; [TxQueueProps]
      holds the theorems.
    - The block chain.  [BlockChain] models BlockChain.h/.cpp, BlockDetails.h/.cpp
      and LastBlockHashes over two LevelDB databases with the caches in front of
      them.  [ChainStore] and [ChainTree] hold the records and the tree of blocks
      they describe, [ChainBlooms] and [ChainIndex] the index of blooms,
      [ChainProps] the invariant and what every operation does to it,
      [ChainHistory] the theorems about histories of insertions, queries,
      collections of garbage and restarts, [ChainSamples] the chains on which the
      theorems are tried.
    - Blocks.  [Block] models the class [Block]: synchronising with the chain,
      executing, enacting, rewards and sealing, on a site of block, chain and cache
      of code sizes.  [BlockImport] models [BlockChain::import], which enacts a
      block and inserts it, and the filling of a block from the queue.
      [BlockReads] shows that enacting leaves the chain alone, [BlockUncles] what
      uncles are accepted and found, [BlockEnact] what is known of a block that was
      enacted; [BlockProps] holds the theorems, [BlockSamples] the blocks they are
      tried on.

    ** How code becomes definitions

    Unsigned integers are [Z] with their wrap-around written out ([wrap]); bytes
    are [Z] below 256 and a byte string is a list of them; a hash is the list
    of its bytes.  Code that may throw returns [result]; code that changes a
    state and may throw is in the monad [M] of this file (or, in [State], in one
    of its own), which keeps the state on an exception.  Undefined behaviour of
    the C++ or C code (an access outside an object, a failed assertion, a
    division by zero) is an error value of its own that no source statement
    throws, so that a theorem which excludes it is a safety theorem.  A loop
    that is not structurally recursive has fuel; that the fuel is enough is part
    of the theorems.  The programs of [TrieDB] are trees of store events
    ([prog]), run over any [NodeDB].

    ** What the theorems show

    - Codec: decoding inverts encoding, a byte string that decodes is the
      encoding of what it decodes to, indexing with the cache is plain indexing,
      strict integers are the canonical ones, and every well-bracketed use of
      the stream writes the encoding of the tree it describes.  Three theorems
      state where the reader misbehaves.
    - Hashes: the in-place permutation is Keccak-f of FIPS 202, written down on its
      own in [Keccak], and [sha3] is the sponge over that.
    - Proof of work: no access of the light client leaves its arrays, the light
      and the full computation agree, and the quick check accepts what the full
      one does.
    - Virtual machine: every run ends within the gas it is given and without an
      access outside an object; the optimiser does not change any result; jumps
      land on jump destinations; before Constantinople static calls change nothing
      but through calls that are static too; exact behaviour of stack checks, memory growth, its
      price and of the arithmetic instructions.
    - Stores and tries: what every lookup gives after an overlay is committed; after any
      sequence of inserts and removals the trie reads as the map built by the
      same sequence and its root is the one [hash256] computes from that map;
      earlier roots stay readable.
    - State: rolling back to a savepoint restores every getter, for operations used
      as [op_pre] says, completed or not; the cache stays coherent with the trie
      below it under the same conditions; a transfer moves the balance and
      conserves the sum.
    - Transactions and headers: what is serialised is parsed back, what is parsed
      is serialised to the same bytes, a signature binds every field that is
      executed, the recovered sender is the signer; the memoised hashes of a header
      are never stale; what [verify] accepts, with a parent and without; and a
      verified header determines the body of its block.
    - Seal engine: the caches of seeds and light datasets are invisible; the child
      that the engine makes passes its own checks, while its gas limit stays below
      the maximum; the difficulty is bounded and falls with time.
    - Executing: the tree of calls of a transaction ends, within its gas, without
      an access outside an object; a plain transfer costs its base gas, and only
      sender, receiver and author see it; a log filter finds exactly what it is
      asked for, but for the read past the topics of an entry; paying for MODEXP is
      enough to get it.  Two theorems show what BLOCKHASH does to the running
      transaction after the Constantinople fork.
    - Queue: whatever is imported, dropped, sent to the future and back, its sets
      and indices agree and no iterator dangles, as long as senders can be
      recovered; an import updates one slot of the map from sender and nonce to
      transactions.  One theorem shows the crash with unrecoverable senders.
    - Block chain: through any history the head has the greatest total difficulty,
      the records are those of the inserted blocks, and numbers name the ancestors of
      the head; an insertion returns or ends the process on a refused write; the
      search by blooms misses nothing above genesis; a restart finds the chain.
      Two theorems show where the numbers go wrong: after a switch to a shorter
      branch, and after a refused write of the head.
    - Blocks: an import that fails a check leaves the chain as it was, and one that
      does not has checked receipts, gas, bloom, uncles and, unless it repeats the
      parent's, the state root; the uncles that sealing picks are accepted by
      enacting; rewards are paid as the formula says and nothing else changes;
      committing to a seal can be undone.  Three theorems show where blocks with
      numbers above the head go wrong and when the filling of a block spins.

    ** Bounds, fuel and hypotheses

    - VM: code is at most 458752 bytes, because [optimize] keeps an offset into
      the constant pool in 16 bits; the interpreter's fuel is twice the gas plus
      two, enough because each step but the first two is paid for or ends the
      run.  [exp256] takes at most 256 iterations, one for each bit.
    - RLP: fuel is the number of bytes, since each item takes at least one.
    - Tries: an operation recurs at most four times for each nibble of its key
      plus five ([op_fuel]); keys have less than 2^28 nibbles, so that lengths in
      headers do not wrap.  [hash256] recurs once for each nibble.
    - State: [rollback] takes one turn for each entry of the log and the cache
      eviction loop one for each entry of the cache.
    - [collision_free] says that the nodes a sequence of operations writes have
      different hashes: that sha3 is collision-free on that finite set.  It is a
      hypothesis of the trie theorems and is checked in their witnesses by
      evaluation.
    - LevelDB is not under the sources: it is a parameter with its documented
      behaviour ([LevelDBLaws]).  What the interpreter needs of its environment is
      the class [ExtVMFace] with [ExtVMLaws]; [World] in [VMProps] is a small
      instance, [ExtVM_face] in [Executive] the one of the program.
    - Transactions have less than 2^63 bytes of data, headers less than 2^31;
      [Secp256k1Laws] states what the elliptic-curve library documents, and the
      library [Toy] of [Transaction] meets it.
    - [verifySeal_spec] assumes that the tabulated epochs have different seeds,
      that memory can be allocated and that no full dataset is loaded;
      [child_accepted] that the gas limit of the parent is at least three times the
      bound divisor and a step up from it not above the maximum.
    - Executing takes 1025 levels of calls, as the interpreter refuses to call
      deeper than 1024, and for each level two steps per unit of gas and two more.
      The theorems on termination are about blocks before 256 blocks after the
      Constantinople fork, since the call of the blockhash contract that later
      blocks make does not deepen the tree of calls; 256 last hashes are given.  A
      process that ends for code over 458752 bytes is a result of its own
      ([LongCode]), as is an access out of bounds ([OutOfBounds]), which is
      excluded.
    - Queue: the two limits add up to less than 2^32 - 1, so that their sum does not
      wrap.  Where a new transaction lands among equal ones of the multiset depends
      on the shape of the tree of the library: the queue carries a list of choices
      and the theorems hold for each.
    - Chain: block numbers are below 2^28, as the names of chunks of blooms collide
      from there on; inserted blocks have records and receipts that can be read.
      Writes may be refused; the code then ends the process ([Exit]), and
      the theorems say so.  Histories may ask for numbers above the head: these
      numbers are the set [A], and the statement on numbers leaves them out.
    - Blocks: the theorems on uncles are about trees in which the uncles of every
      block can be read, no header is empty, and blocks are younger than their
      parents.  The loop that fills a block has fuel, since it need not end before
      its deadline; no theorem claims that it does.

    ** Not modelled

    - The file and memory mapping code of libvapash (operating-system I/O), and
      everything about sockets, threads, RPC, the user interface and key files.
    - EIP-615 and EIP-616, which the default build configures out, tracing, and
      the adapters to other virtual machines.
    - The trie's iterators and debugging scans; enumeration of accounts and
      storage; printing and JSON.
    - The cryptographic libraries and what only wraps them.
    - The locks, condition variables and threads of the queue and the chain; of the
      chain also statistics, the rebuilding of its databases and their files.
    - What BLOCKHASH loads into the caches of the chain while a block is executed.
    - The queue of blocks, synchronisation with peers, the client and mining. *)

From stdpp Require Import base list numbers option.
From Stdlib Require Import ZArith Lia.

Open Scope Z_scope.

(** ** Errors as values *)

(** The outcome of code that may throw: [Ok a] for a normal return, [Err e]
    for an exception [e]. *)
Inductive result (E A : Type) : Type :=
| Ok (a : A)
| Err (e : E).
Arguments Ok {E A} a.
Arguments Err {E A} e.

Definition result_bind {E A B} (m : result E A) (f : A -> result E B) : result E B :=
  match m with
  | Ok a => f a
  | Err e => Err e
  end.

Declare Scope result_scope.
Delimit Scope result_scope with result.
Notation "'let!' x := m 'in' k" := (result_bind m (fun x => k))
  (at level 10, x pattern, m at level 100, k at level 200,
   format "'[v' 'let!'  x  :=  m  'in' '/' k ']'") : result_scope.
Notation "'guard!' b 'throw' e 'in' k" := (if (b : bool) then Err e else k)
  (at level 10, b at level 100, e at level 100, k at level 200,
   format "'[v' 'guard!'  b  'throw'  e  'in' '/' k ']'") : result_scope.
Open Scope result_scope.

(** [throws_only P m]: if [m] throws, what it throws satisfies [P]. *)
Definition throws_only {E A} (P : E -> Prop) (m : result E A) : Prop :=
  match m with
  | Ok _ => True
  | Err e => P e
  end.

Lemma throws_only_bind {E A B} (P : E -> Prop) (m : result E A) (f : A -> result E B) :
  throws_only P m -> (forall a, m = Ok a -> throws_only P (f a)) ->
  throws_only P (result_bind m f).
Proof. destruct m; simpl; auto. Qed.

Lemma result_bind_Ok {E A B} (m : result E A) (f : A -> result E B) b :
  result_bind m f = Ok b -> exists a, m = Ok a /\ f a = Ok b.
Proof. destruct m; simpl; [eauto | discriminate]. Qed.

Lemma result_bind_assoc {E A B C} (m : result E A) (f : A -> result E B) (g : B -> result E C) :
  result_bind (result_bind m f) g = result_bind m (fun a => result_bind (f a) g).
Proof. by destruct m. Qed.

(** ** Stateful code that may throw *)

(** Code that updates a state [S] and may throw [E]. The state is returned on
    an exception too: what was written before a throw stays written. *)
Definition M (S E A : Type) : Type := S -> result E A * S.

Definition mret {S E A} (a : A) : M S E A := fun s => (Ok a, s).
Definition mthrow {S E A} (e : E) : M S E A := fun s => (Err e, s).
Definition mget {S E A} (f : S -> A) : M S E A := fun s => (Ok (f s), s).
Definition mput {S E} (f : S -> S) : M S E unit := fun s => (Ok tt, f s).
Definition mlift {S E A} (m : result E A) : M S E A := fun s => (m, s).
Definition mbind {S E A B} (m : M S E A) (f : A -> M S E B) : M S E B := fun s =>
  match m s with
  | (Ok a, s') => f a s'
  | (Err e, s') => (Err e, s')
  end.

Notation "'do!' x := m 'in' k" := (mbind m (fun x => k))
  (at level 10, x pattern, m at level 100, k at level 200,
   format "'[v' 'do!'  x  :=  m  'in' '/' k ']'") : result_scope.
Notation "'exec!' m 'in' k" := (mbind m (fun _ => k))
  (at level 10, m at level 100, k at level 200,
   format "'[v' 'exec!'  m  'in' '/' k ']'") : result_scope.

Lemma mbind_Ok {S E A B} (m : M S E A) (f : A -> M S E B) s a s' :
  m s = (Ok a, s') -> mbind m f s = f a s'.
Proof. unfold mbind. by intros ->. Qed.

Lemma mbind_Err {S E A B} (m : M S E A) (f : A -> M S E B) s e s' :
  m s = (Err e, s') -> mbind m f s = (Err e, s').
Proof. unfold mbind. by intros ->. Qed.

(** ** Fixed-width integers *)

(** [wrap w z]: the value of an unsigned [w]-bit integer that is assigned [z]. *)
Definition wrap (w z : Z) : Z := z mod 2 ^ w.

(** [uint_ok w z]: [z] is a value an unsigned [w]-bit integer can hold. *)
Definition uint_ok (w z : Z) : Prop := 0 <= z < 2 ^ w.

(** The length of a [std::vector] or [std::string], as a [size_t]. *)
Abbreviation zlen l := (Z.of_nat (length l)).

(** Indexing by an integer; [None] out of range. *)
Definition zat {A} (l : list A) (i : Z) : option A :=
  if i <? 0 then None else l !! Z.to_nat i.

(** Prefix and suffix at an integer position. *)
Definition ztake {A} (n : Z) (l : list A) : list A := take (Z.to_nat n) l.
Definition zdrop {A} (n : Z) (l : list A) : list A := drop (Z.to_nat n) l.

Lemma wrap_range w z : 0 <= w -> uint_ok w (wrap w z).
Proof. intros. apply Z.mod_pos_bound. apply Z.pow_pos_nonneg; lia. Qed.

Lemma wrap_small w z : uint_ok w z -> wrap w z = z.
Proof. apply Z.mod_small. Qed.

Lemma wrap_wrap w z : wrap w (wrap w z) = wrap w z.
Proof. unfold wrap. apply Z.mod_mod_divide. apply Z.divide_refl. Qed.

Lemma zat_Some {A} (l : list A) i x : zat l i = Some x -> 0 <= i < zlen l.
Proof.
  unfold zat. destruct (Z.ltb_spec i 0); [discriminate|].
  intros Hl%lookup_lt_Some. lia.
Qed.

Lemma zat_app_l {A} (l k : list A) i : i < zlen l -> zat (l ++ k) i = zat l i.
Proof.
  intros. unfold zat. destruct (Z.ltb_spec i 0); [done|].
  apply lookup_app_l. lia.
Qed.

Lemma zat_app_r {A} (l k : list A) i :
  zlen l <= i -> zat (l ++ k) i = zat k (i - zlen l).
Proof.
  intros. unfold zat.
  destruct (Z.ltb_spec i 0), (Z.ltb_spec (i - zlen l) 0); try lia.
  rewrite lookup_app_r by lia. f_equal. lia.
Qed.

Lemma zlen_app {A} (l k : list A) : zlen (l ++ k) = zlen l + zlen k.
Proof. rewrite length_app. lia. Qed.

Lemma zlen_cons {A} (x : A) l : zlen (x :: l) = zlen l + 1.
Proof. simpl. lia. Qed.

Lemma zlen_ztake {A} n (l : list A) : 0 <= n <= zlen l -> zlen (ztake n l) = n.
Proof. intros. unfold ztake. rewrite length_take. lia. Qed.

Lemma zlen_zdrop {A} n (l : list A) : 0 <= n <= zlen l -> zlen (zdrop n l) = zlen l - n.
Proof. intros. unfold zdrop. rewrite length_drop. lia. Qed.

Lemma ztake_app {A} (l k : list A) n : n = zlen l -> ztake n (l ++ k) = l.
Proof. intros ->. unfold ztake. rewrite Nat2Z.id. by rewrite take_app_length. Qed.

Lemma zdrop_app {A} (l k : list A) n : n = zlen l -> zdrop n (l ++ k) = k.
Proof. intros ->. unfold zdrop. rewrite Nat2Z.id. by rewrite drop_app_length. Qed.

Lemma ztake_all {A} (l : list A) n : zlen l <= n -> ztake n l = l.
Proof. intros. unfold ztake. apply take_ge. lia. Qed.

Lemma zdrop_0 {A} (l : list A) : zdrop 0 l = l.
Proof. done. Qed.

Lemma zdrop_all {A} (l : list A) n : zlen l <= n -> zdrop n l = [].
Proof. intros. unfold zdrop. apply drop_ge. lia. Qed.

(** A boolean property of the integers in [0, k), by evaluation. *)
Lemma Z_forall_below (f : Z -> bool) (k : nat) :
  forallb f (map Z.of_nat (seq 0 k)) = true -> forall z, 0 <= z < Z.of_nat k -> f z = true.
Proof.
  rewrite forallb_forall. intros H z Hz. apply H. apply in_map_iff.
  exists (Z.to_nat z). rewrite Z2Nat.id by lia. split; [done|]. apply in_seq. lia.
Qed.

(** ** Bytes *)

(** A byte is an integer in [0, 256); [bytes] is [std::vector<byte>] and also
    [std::string], whose elements are bytes. *)
Abbreviation bytes := (list Z).

Definition is_byte (b : Z) : Prop := 0 <= b < 256.
Definition bytes_ok (bs : bytes) : Prop := Forall is_byte bs.

Lemma bytes_ok_app l k : bytes_ok (l ++ k) <-> bytes_ok l /\ bytes_ok k.
Proof. apply Forall_app. Qed.

Lemma bytes_ok_zat bs i b : bytes_ok bs -> zat bs i = Some b -> is_byte b.
Proof.
  unfold zat, bytes_ok. rewrite Forall_lookup. destruct (i <? 0); [done|]. eauto.
Qed.

Lemma bytes_ok_ztake n bs : bytes_ok bs -> bytes_ok (ztake n bs).
Proof. apply Forall_take. Qed.

Lemma bytes_ok_zdrop n bs : bytes_ok bs -> bytes_ok (zdrop n bs).
Proof. apply Forall_drop. Qed.

(** ** Automation *)

(** [vlib]: the facts the components share about lengths, prefixes and byte
    ranges. *)
Create HintDb vlib.
Create Rewrite HintDb vlib.
#[export] Hint Resolve wrap_range bytes_ok_ztake bytes_ok_zdrop : vlib.
#[export] Hint Rewrite @zlen_app @zlen_cons : vlib.

(** Turn the boolean comparisons in the goal and the hypotheses into
    propositions, case by case. *)
Ltac zbool_step :=
  match goal with
  | |- context [Z.eqb ?a ?b] => destruct (Z.eqb_spec a b)
  | |- context [Z.ltb ?a ?b] => destruct (Z.ltb_spec a b)
  | |- context [Z.leb ?a ?b] => destruct (Z.leb_spec a b)
  | H : context [Z.eqb ?a ?b] |- _ => destruct (Z.eqb_spec a b)
  | H : context [Z.ltb ?a ?b] |- _ => destruct (Z.ltb_spec a b)
  | H : context [Z.leb ?a ?b] |- _ => destruct (Z.leb_spec a b)
  end.
Ltac zbool := repeat (zbool_step; try lia; simpl in *).

(** Split a chain of [result_bind]s in a hypothesis that says it returned. *)
Ltac inv_bind H :=
  let a := fresh "a" in
  let Ha := fresh "Ha" in
  apply result_bind_Ok in H; destruct H as (a & Ha & H).
