(* ===== verification/Bytes.v ===== *)
(** * Byte strings and fixed-size hashes (libdevcore)

    - [VectorRef]: the views of [libdevcore/vector_ref.h] the codecs use.
    - [CommonData]: the conversions of [libdevcore/CommonData.h] and
      [CommonData.cpp] between integers, bytes, nibbles and hex strings.
    - [FixedHash]: the fixed-size hashes of [libdevcore/FixedHash.h].

    Characters are bytes; integers are [Z] with their width written out. *)

From stdpp Require Import base list numbers option.
From Stdlib Require Import ZArith Lia.
From S2P Require Import Prelude.

(** ** Views (vector_ref.h) *)
Module VectorRef.

(** [~size_t(0)]. *)
Definition npos : Z := 2 ^ 64 - 1.

(** [cropped(_begin, _count)]: an empty view when the range is out of bounds. *)
Definition cropped (d : bytes) (_begin _count : Z) : bytes :=
  let m_count := zlen d in
  if (_begin <=? m_count) && (_count <=? m_count) && (_begin + _count <=? m_count)
  then ztake (if _count =? npos then m_count - _begin else _count) (zdrop _begin d)
  else [].

(** [cropped(_begin)]. *)
Definition cropped_from (d : bytes) (_begin : Z) : bytes :=
  if _begin <=? zlen d then zdrop _begin d else [].

(** [copyTo(_t)]: the contents of [_t] afterwards. *)
Definition copyTo (d _t : bytes) : bytes :=
  let n := Z.min (zlen _t) (zlen d) in
  ztake n d ++ zdrop n _t.

(** [populate(_t)]: the contents of [_t] afterwards. *)
Definition populate (d _t : bytes) : bytes :=
  let t1 := copyTo d _t in
  let n := Z.max (zlen _t) (zlen d) - zlen d in
  ztake (zlen d) t1 ++ replicate (Z.to_nat n) 0.

Lemma cropped_spec d b n :
  0 <= b -> 0 <= n -> b + n <= zlen d -> zlen d < npos ->
  cropped d b n = ztake n (zdrop b d).
Proof. intros. unfold cropped. zbool; done. Qed.

Lemma cropped_out d b n : 0 <= b -> 0 <= n -> zlen d < b + n -> cropped d b n = [].
Proof. intros. unfold cropped. zbool; try done. Qed.

Lemma cropped_from_0 d : cropped_from d 0 = d.
Proof. unfold cropped_from. destruct (Z.leb_spec 0 (zlen d)); [done|lia]. Qed.

(** The documented "extend the view to the end of the data" for a count of
    [~size_t(0)] never happens: the bounds check rejects that count first. *)
Lemma cropped_npos_empty d b : 0 <= b -> zlen d < npos -> cropped d b npos = [].
Proof. intros. apply cropped_out; unfold npos in *; lia. Qed.

Lemma copyTo_length d _t : length (copyTo d _t) = length _t.
Proof.
  unfold copyTo, ztake, zdrop. rewrite length_app, length_take, length_drop. lia.
Qed.

Lemma populate_length d _t : length (populate d _t) = length _t.
Proof.
  unfold populate, ztake. rewrite length_app, length_take, length_replicate, copyTo_length. lia.
Qed.

End VectorRef.

(** ** Conversions (CommonData.h, CommonData.cpp) *)
Module CommonData.

(** *** Big-endian integers *)

(** [fromBigEndian<T>] for an unsigned [w]-bit [T]. *)
Definition fromBigEndian (w : Z) (_bytes : bytes) : Z :=
  fold_left (fun ret i => wrap w (Z.lor (Z.shiftl ret 8) i)) _bytes 0.

(** [fromBigEndian<bigint>]. *)
Definition fromBigEndian_bigint (_bytes : bytes) : Z :=
  fold_left (fun ret i => Z.lor (Z.shiftl ret 8) i) _bytes 0.

(** [toBigEndian(_val, o_out)] for an [o_out] of [n] bytes: written from the
    last byte to the first. *)
Fixpoint toBigEndian_loop (n : nat) (_val : Z) (acc : bytes) : bytes :=
  match n with
  | O => acc
  | S n' => toBigEndian_loop n' (Z.shiftr _val 8) (Z.land _val 255 :: acc)
  end.
Definition toBigEndian (n : nat) (_val : Z) : bytes := toBigEndian_loop n _val [].

(** [bytesRequired]: the loop [for (; _i != 0; ++i, _i >>= 8)]. One iteration
    per byte of the argument, so its bit length is fuel enough. *)
Fixpoint bytesRequired_loop (fuel : nat) (_i i : Z) : Z :=
  match fuel with
  | O => i
  | S f => if _i =? 0 then i else bytesRequired_loop f (Z.shiftr _i 8) (i + 1)
  end.
Definition bytesRequired (_i : Z) : Z :=
  bytesRequired_loop (S (Z.to_nat (Z.log2 _i))) _i 0.

(** [toCompactBigEndian(_val, _min)]. *)
Definition toCompactBigEndian (_val _min : Z) : bytes :=
  toBigEndian (Z.to_nat (Z.max _min (bytesRequired _val))) _val.

(** The [byte] overload of [toCompactBigEndian]. *)
Definition toCompactBigEndian_byte (_val _min : Z) : bytes :=
  if negb (_min =? 0) || negb (_val =? 0) then [_val] else [].

(** *** Nibbles and prefixes *)

Definition asNibbles (_s : bytes) : bytes := List.flat_map (fun i => [i / 16; i mod 16]) _s.

(** [commonPrefix]: the loop that compares until a difference or the end. *)
Fixpoint commonPrefix (_t _u : bytes) : Z :=
  match _t, _u with
  | a :: t, b :: u => if a =? b then 1 + commonPrefix t u else 0
  | _, _ => 0
  end.

Definition trimFront (_t : bytes) (_elements : Z) : bytes := zdrop _elements _t.
Definition pushFront (_t : bytes) (_e : Z) : bytes := _e :: _t.

(** *** Hex strings *)

(** [hexdigits]. *)
Definition hexdigits : bytes :=
  [48; 49; 50; 51; 52; 53; 54; 55; 56; 57; 97; 98; 99; 100; 101; 102].

Definition hexdigit (n : Z) : Z := default 0 (zat hexdigits n).

Definition toHex (_data _prefix : bytes) : bytes :=
  _prefix ++
  List.flat_map (fun b => [hexdigit (Z.land (Z.shiftr b 4) 15); hexdigit (Z.land b 15)]) _data.

Definition fromHexChar (_i : Z) : Z :=
  if (48 <=? _i) && (_i <=? 57) then _i - 48
  else if (97 <=? _i) && (_i <=? 102) then _i - 97 + 10
  else if (65 <=? _i) && (_i <=? 70) then _i - 65 + 10
  else -1.

(** ["0x"] *)
Definition hexPrefix : bytes := [48; 120].

Definition isHex (_s : bytes) : bool :=
  let it := if bool_decide (take 2 _s = hexPrefix) then drop 2 _s else _s in
  forallb (fun c => negb (fromHexChar c =? -1)) it.

Inductive WhenError := DontThrow | Throw.
Inductive hex_exn := BadHexCharacter.

(** What [fromHex] does at a bad character: throw, or return no bytes at all. *)
Definition badHex (_throw : WhenError) : result hex_exn bytes :=
  match _throw with Throw => Err BadHexCharacter | DontThrow => Ok [] end.

(** The loop over pairs of characters. *)
Fixpoint fromHex_loop (_s : bytes) (_throw : WhenError) (ret : bytes) : result hex_exn bytes :=
  match _s with
  | c :: c' :: s' =>
      let h := fromHexChar c in
      let l := fromHexChar c' in
      if negb (h =? -1) && negb (l =? -1)
      then fromHex_loop s' _throw (ret ++ [wrap 8 (h * 16 + l)])
      else badHex _throw
  | _ => Ok ret
  end.

Definition fromHex (_s : bytes) (_throw : WhenError) : result hex_exn bytes :=
  let s := if bool_decide (take 2 _s = hexPrefix) then drop 2 _s else _s in
  if negb (zlen _s mod 2 =? 0) then
    match s with
    | c :: s' =>
        let h := fromHexChar c in
        if negb (h =? -1) then fromHex_loop s' _throw [h] else badHex _throw
    | [] => badHex _throw
    end
  else fromHex_loop s _throw [].

(** *** Lemmas *)

(** The number a big-endian byte string denotes. *)
Fixpoint be_val (bs : bytes) : Z :=
  match bs with
  | [] => 0
  | b :: bs' => b * 256 ^ zlen bs' + be_val bs'
  end.

Lemma be_val_zeros n : be_val (replicate n 0) = 0.
Proof. induction n as [|n IH]; [done|]. cbn [replicate be_val]. rewrite IH. lia. Qed.
Lemma be_val_app l k : be_val (l ++ k) = be_val l * 256 ^ zlen k + be_val k.
Proof.
  induction l as [|b l IH]; simpl; [lia|].
  rewrite IH, length_app, Nat2Z.inj_add, Z.pow_add_r by lia. lia.
Qed.

Lemma be_val_range bs : bytes_ok bs -> 0 <= be_val bs < 256 ^ zlen bs.
Proof.
  induction 1 as [|b bs Hb _ IH]; [simpl; lia|].
  cbn [be_val]. rewrite zlen_cons, Z.pow_add_r by lia. unfold is_byte in Hb. nia.
Qed.

Lemma land_shiftl_byte r b : is_byte b -> Z.land (Z.shiftl r 8) b = 0.
Proof.
  intros Hb. unfold is_byte in Hb. apply Z.bits_inj'; intros n Hn.
  rewrite Z.land_spec, Z.bits_0, Z.shiftl_spec by lia.
  destruct (Z.ltb_spec n 8).
  - by rewrite Z.testbit_neg_r by lia.
  - rewrite <- (Z.mod_small b (2 ^ 8)) by lia.
    by rewrite Z.mod_pow2_bits_high, andb_false_r by lia.
Qed.

Lemma lor_shiftl_byte r b : is_byte b -> Z.lor (Z.shiftl r 8) b = r * 256 + b.
Proof.
  intros Hb. pose proof (land_shiftl_byte r b Hb) as Hl.
  rewrite <- Z.lxor_lor, <- Z.add_nocarry_lxor by done.
  by rewrite Z.shiftl_mul_pow2 by lia.
Qed.

Lemma fold_bigint bs r :
  bytes_ok bs ->
  fold_left (fun ret i => Z.lor (Z.shiftl ret 8) i) bs r = r * 256 ^ zlen bs + be_val bs.
Proof.
  intros Hbs. revert r. induction Hbs as [|b bs Hb _ IH]; intros r; [simpl; lia|].
  cbn [fold_left be_val]. rewrite IH, lor_shiftl_byte, zlen_cons, Z.pow_add_r by (done || lia). lia.
Qed.

Lemma fromBigEndian_bigint_spec bs : bytes_ok bs -> fromBigEndian_bigint bs = be_val bs.
Proof. intros. unfold fromBigEndian_bigint. by rewrite fold_bigint. Qed.

Lemma fold_wrap w bs r :
  0 <= w -> bytes_ok bs ->
  wrap w (fold_left (fun ret i => wrap w (Z.lor (Z.shiftl ret 8) i)) bs r) =
  wrap w (r * 256 ^ zlen bs + be_val bs).
Proof.
  intros Hw Hbs. revert r. induction Hbs as [|b bs Hb _ IH]; intros r.
  { simpl. f_equal. lia. }
  cbn [fold_left be_val]. rewrite IH, lor_shiftl_byte, zlen_cons, Z.pow_add_r by (done || lia).
  unfold wrap. rewrite <- Zplus_mod_idemp_l, Zmult_mod_idemp_l, Zplus_mod_idemp_l. f_equal. lia.
Qed.

(** A [w]-bit [fromBigEndian] is the denoted number modulo [2^w]. *)
Lemma fromBigEndian_spec w bs :
  0 <= w -> bytes_ok bs -> fromBigEndian w bs = wrap w (be_val bs).
Proof.
  intros Hw Hbs. unfold fromBigEndian.
  pose proof (fold_wrap w bs 0 Hw Hbs) as Hf. rewrite Z.mul_0_l, Z.add_0_l in Hf.
  rewrite <- Hf. symmetry. apply wrap_small. clear Hf Hbs.
  destruct bs as [|bs b _] using rev_ind; simpl.
  - split; [lia|]. apply Z.pow_pos_nonneg; lia.
  - rewrite fold_left_app. simpl. by apply wrap_range.
Qed.

Lemma toBigEndian_loop_app n v acc :
  toBigEndian_loop n v acc = toBigEndian_loop n v [] ++ acc.
Proof.
  revert v acc. induction n as [|n IH]; intros v acc; [done|]. cbn [toBigEndian_loop].
  rewrite IH, (IH _ [_]). by rewrite <- app_assoc.
Qed.

Lemma toBigEndian_S n v :
  toBigEndian (S n) v = toBigEndian n (v / 256) ++ [v mod 256].
Proof.
  unfold toBigEndian. cbn [toBigEndian_loop].
  rewrite toBigEndian_loop_app, Z.shiftr_div_pow2 by lia.
  change 255 with (Z.ones 8). by rewrite Z.land_ones by lia.
Qed.

Lemma toBigEndian_length n v : length (toBigEndian n v) = n.
Proof.
  revert v. induction n as [|n IH]; intros v; [done|].
  rewrite toBigEndian_S, length_app, IH. simpl. lia.
Qed.

Lemma toBigEndian_ok n v : bytes_ok (toBigEndian n v).
Proof.
  revert v. induction n as [|n IH]; intros v; [constructor|].
  rewrite toBigEndian_S. apply bytes_ok_app. split; [done|].
  repeat constructor; unfold is_byte; pose proof (Z.mod_pos_bound v 256); lia.
Qed.

Lemma be_val_toBigEndian n v : 0 <= v -> be_val (toBigEndian n v) = v mod 256 ^ Z.of_nat n.
Proof.
  revert v. induction n as [|n IH]; intros v Hv; [simpl; by rewrite Z.mod_1_r|].
  rewrite toBigEndian_S, be_val_app, IH by (apply Z.div_pos; lia). simpl be_val.
  rewrite Nat2Z.inj_succ, Z.pow_succ_r by lia.
  assert (0 < 256 ^ Z.of_nat n) by (apply Z.pow_pos_nonneg; lia).
  rewrite Z.rem_mul_r by lia. simpl. lia.
Qed.

Lemma be_val_inj l k :
  bytes_ok l -> bytes_ok k -> length l = length k -> be_val l = be_val k -> l = k.
Proof.
  intros Hl. revert k. induction Hl as [|b l Hb Hl IH]; intros k Hk Hlen Hv.
  { by destruct k. }
  destruct k as [|c k]; [done|]. inversion Hk as [|? ? Hc Hk']; subst.
  cbn [be_val] in Hv. injection Hlen as Hlen.
  pose proof (be_val_range l Hl). pose proof (be_val_range k Hk').
  rewrite Hlen in *. assert (b = c) by nia. subst. f_equal. apply IH; auto. nia.
Qed.

Lemma toBigEndian_be_val bs : bytes_ok bs -> toBigEndian (length bs) (be_val bs) = bs.
Proof.
  intros Hbs. pose proof (be_val_range bs Hbs).
  apply be_val_inj; auto using toBigEndian_ok, toBigEndian_length.
  rewrite be_val_toBigEndian by lia. by apply Z.mod_small.
Qed.

Lemma bytesRequired_loop_spec fuel v i :
  0 <= v -> (v = 0 \/ Z.log2 v < Z.of_nat fuel) ->
  bytesRequired_loop fuel v i = i + (if v =? 0 then 0 else Z.log2 v / 8 + 1).
Proof.
  revert v i. induction fuel as [|f IH]; intros v i Hv Hf.
  { simpl. destruct Hf as [->|Hf]; [simpl; lia|]. pose proof (Z.log2_nonneg v). lia. }
  cbn [bytesRequired_loop]. destruct (Z.eqb_spec v 0) as [->|Hnz]; [lia|].
  pose proof (Z.log2_nonneg v). assert (0 <= Z.shiftr v 8) by (by apply Z.shiftr_nonneg).
  rewrite IH; [|done|].
  - destruct (Z.eqb_spec (Z.shiftr v 8) 0) as [Hs|Hs].
    + apply Z.shiftr_eq_0_iff in Hs. destruct Hs as [|[_ Hs]]; [done|].
      rewrite (Z.div_small (Z.log2 v)) by lia. lia.
    + assert (8 <= Z.log2 v).
      { destruct (Z.le_gt_cases 8 (Z.log2 v)); [done|]. exfalso. apply Hs, Z.shiftr_eq_0; lia. }
      rewrite Z.log2_shiftr, Z.max_r by lia.
      replace (Z.log2 v - 8) with (Z.log2 v + (-1) * 8) by lia. rewrite Z.div_add by lia. lia.
  - destruct (Z.eq_dec (Z.shiftr v 8) 0) as [|Hs]; [by left|right].
    assert (8 <= Z.log2 v).
    { destruct (Z.le_gt_cases 8 (Z.log2 v)); [done|]. exfalso. apply Hs, Z.shiftr_eq_0; lia. }
    rewrite Z.log2_shiftr by lia. lia.
Qed.

(** [bytesRequired] is the number of base-256 digits. *)
Lemma bytesRequired_spec v :
  0 <= v -> bytesRequired v = if v =? 0 then 0 else Z.log2 v / 8 + 1.
Proof.
  intros Hv. unfold bytesRequired. rewrite bytesRequired_loop_spec; [lia|done|].
  right. pose proof (Z.log2_nonneg v). lia.
Qed.

Lemma bytesRequired_bound v :
  0 <= v -> v < 256 ^ bytesRequired v /\ 0 <= bytesRequired v.
Proof.
  intros Hv. rewrite bytesRequired_spec by done.
  destruct (Z.eqb_spec v 0) as [->|]; [simpl; lia|].
  pose proof (Z.log2_nonneg v). pose proof (Z.log2_spec v ltac:(lia)) as [_ Hs].
  split; [|pose proof (Z.div_pos (Z.log2 v) 8); lia].
  change 256 with (2 ^ 8). rewrite <- Z.pow_mul_r; [|lia|pose proof (Z.div_pos (Z.log2 v) 8); lia].
  eapply Z.lt_le_trans; [exact Hs|]. apply Z.pow_le_mono_r; [lia|].
  pose proof (Z.div_mod (Z.log2 v) 8). pose proof (Z.mod_pos_bound (Z.log2 v) 8). lia.
Qed.

Lemma bytesRequired_lower v : 0 < v -> 256 ^ (bytesRequired v - 1) <= v.
Proof.
  intros Hv. rewrite bytesRequired_spec by lia.
  destruct (Z.eqb_spec v 0); [lia|].
  pose proof (Z.log2_nonneg v). pose proof (Z.log2_spec v ltac:(lia)) as [Hs _].
  replace (Z.log2 v / 8 + 1 - 1) with (Z.log2 v / 8) by lia.
  change 256 with (2 ^ 8). rewrite <- Z.pow_mul_r; [|lia|pose proof (Z.div_pos (Z.log2 v) 8); lia].
  eapply Z.le_trans; [|exact Hs]. apply Z.pow_le_mono_r; [lia|].
  pose proof (Z.mul_div_le (Z.log2 v) 8). lia.
Qed.

Lemma bytesRequired_le v n : 0 <= v < 256 ^ n -> 0 <= n -> bytesRequired v <= n.
Proof.
  intros Hv Hn. destruct (Z.eq_dec v 0) as [->|]; [done|].
  pose proof (bytesRequired_lower v ltac:(lia)) as Hl.
  destruct (Z.le_gt_cases (bytesRequired v) n) as [|Hgt]; [done|].
  assert (256 ^ n <= 256 ^ (bytesRequired v - 1)) by (apply Z.pow_le_mono_r; lia). lia.
Qed.

(** The compact form of a number denotes it, in the fewest bytes. *)
Lemma be_val_toCompactBigEndian v m :
  0 <= v -> 0 <= m -> be_val (toCompactBigEndian v m) = v.
Proof.
  intros Hv Hm. unfold toCompactBigEndian.
  pose proof (bytesRequired_bound v Hv) as [Hb Hp].
  rewrite be_val_toBigEndian, Z2Nat.id, Z.mod_small; try lia.
  split; [done|]. eapply Z.lt_le_trans; [exact Hb|]. apply Z.pow_le_mono_r; lia.
Qed.

Lemma toCompactBigEndian_ok v m : bytes_ok (toCompactBigEndian v m).
Proof. apply toBigEndian_ok. Qed.

Lemma toCompactBigEndian_length v :
  0 <= v -> zlen (toCompactBigEndian v 0) = bytesRequired v.
Proof.
  intros Hv. unfold toCompactBigEndian. rewrite toBigEndian_length.
  pose proof (bytesRequired_bound v Hv). lia.
Qed.

(** The compact form of a positive number has no leading zero byte. *)
Lemma toCompactBigEndian_head v :
  0 < v -> exists b bs, toCompactBigEndian v 0 = b :: bs /\ b <> 0.
Proof.
  intros Hv. pose proof (toCompactBigEndian_length v ltac:(lia)) as Hlen.
  pose proof (be_val_toCompactBigEndian v 0 ltac:(lia) ltac:(lia)) as Hval.
  pose proof (toCompactBigEndian_ok v 0) as Hok.
  pose proof (bytesRequired_lower v Hv) as Hlow.
  destruct (toCompactBigEndian v 0) as [|b bs]; [simpl in Hval; lia|].
  exists b, bs. split; [done|]. intros ->. inversion Hok; subst.
  pose proof (be_val_range bs ltac:(done)). cbn [be_val] in Hlow, Hlen.
  rewrite <- Hlen, zlen_cons in Hlow. replace (zlen bs + 1 - 1) with (zlen bs) in Hlow by lia. lia.
Qed.

(** *** Nibbles *)

Lemma asNibbles_length s : zlen (asNibbles s) = 2 * zlen s.
Proof. unfold asNibbles. induction s as [|b s IH]; [done|]. cbn [List.flat_map app length] in *. lia. Qed.

Lemma asNibbles_range s : bytes_ok s -> Forall (fun n => 0 <= n < 16) (asNibbles s).
Proof.
  induction 1 as [|b s Hb _ IH]; [constructor|]. unfold is_byte in Hb.
  cbn. repeat constructor; [apply Z.div_pos; lia|apply Z.div_lt_upper_bound; lia| | |done];
  pose proof (Z.mod_pos_bound b 16); lia.
Qed.

Lemma asNibbles_inj s t : asNibbles s = asNibbles t -> s = t.
Proof.
  revert t. induction s as [|b s IH]; intros [|c t] H; cbn in H; try done.
  injection H as H1 H2 H3. f_equal; [|by apply IH].
  rewrite (Z.div_mod b 16), (Z.div_mod c 16) by lia. lia.
Qed.

Lemma commonPrefix_range t u : 0 <= commonPrefix t u <= Z.min (zlen t) (zlen u).
Proof.
  revert u. induction t as [|a t IH]; intros [|b u]; simpl; try lia.
  zbool. specialize (IH u). lia.
Qed.

(** [commonPrefix] is the longest prefix the two share. *)
Lemma commonPrefix_spec t u :
  ztake (commonPrefix t u) t = ztake (commonPrefix t u) u /\
  (forall a b, zat t (commonPrefix t u) = Some a -> zat u (commonPrefix t u) = Some b -> a <> b).
Proof.
  revert u. induction t as [|a t IH]; intros [|b u]; simpl; try done.
  destruct (Z.eqb_spec a b) as [->|Hne].
  - specialize (IH u) as [IH1 IH2]. pose proof (commonPrefix_range t u) as Hr.
    unfold ztake, zat in *. replace (Z.to_nat (1 + commonPrefix t u)) with
      (S (Z.to_nat (commonPrefix t u))) by lia.
    destruct (Z.ltb_spec (1 + commonPrefix t u) 0); [lia|].
    destruct (Z.ltb_spec (commonPrefix t u) 0); [lia|].
    split; [simpl; by f_equal|]. intros x y. simpl. apply IH2.
  - split; [done|]. intros x y Hx Hy. by injection Hx as <-; injection Hy as <-.
Qed.

(** *** Hex *)

Lemma fromHexChar_hexdigit n : 0 <= n < 16 -> fromHexChar (hexdigit n) = n.
Proof.
  intros Hn. apply Z.eqb_eq.
  by apply (Z_forall_below (fun n => fromHexChar (hexdigit n) =? n) 16).
Qed.

Lemma hexdigit_not_x n : 0 <= n < 16 -> hexdigit n <> 120.
Proof. intros Hn Hx. pose proof (fromHexChar_hexdigit n Hn) as H. rewrite Hx in H. cbn in H. lia. Qed.

Lemma byte_nibbles b :
  is_byte b ->
  0 <= Z.land (Z.shiftr b 4) 15 < 16 /\ 0 <= Z.land b 15 < 16 /\
  Z.land (Z.shiftr b 4) 15 * 16 + Z.land b 15 = b.
Proof.
  unfold is_byte. intros Hb. change 15 with (Z.ones 4).
  rewrite !Z.land_ones, Z.shiftr_div_pow2 by lia.
  change (2 ^ 4) with 16. rewrite (Z.mod_small (b / 16)).
  - pose proof (Z.mod_pos_bound b 16). pose proof (Z.div_mod b 16).
    assert (b / 16 < 16) by (apply Z.div_lt_upper_bound; lia).
    pose proof (Z.div_pos b 16). lia.
  - split; [apply Z.div_pos; lia|apply Z.div_lt_upper_bound; lia].
Qed.

Abbreviation hexbody bs :=
  (List.flat_map (fun b => [hexdigit (Z.land (Z.shiftr b 4) 15); hexdigit (Z.land b 15)]) bs).

Lemma fromHex_loop_body bs th ret :
  bytes_ok bs -> fromHex_loop (hexbody bs) th ret = Ok (ret ++ bs).
Proof.
  intros Hbs. revert ret. induction Hbs as [|b bs Hb _ IH]; intros ret.
  { simpl. by rewrite app_nil_r. }
  pose proof (byte_nibbles b Hb) as (H1 & H2 & H3). cbn.
  rewrite !fromHexChar_hexdigit by done. zbool. cbn in IH. rewrite IH, H3.
  rewrite wrap_small by (unfold uint_ok, is_byte in *; lia). by rewrite <- app_assoc.
Qed.

Lemma hexbody_length bs : zlen (hexbody bs) mod 2 = 0.
Proof.
  assert (zlen (hexbody bs) = 2 * zlen bs) as ->
    by (induction bs as [|b bs IH]; [done|]; cbn [List.flat_map app length] in *; lia).
  rewrite Z.mul_comm. apply Z.mod_mul. lia.
Qed.

Lemma hexbody_no_prefix bs : bytes_ok bs -> take 2 (hexbody bs) <> hexPrefix.
Proof.
  intros [|b bs' Hb Hbs]; [done|]. cbn. intros [= _ Hx].
  pose proof (byte_nibbles b Hb) as (_ & H2 & _). by apply (hexdigit_not_x _ H2).
Qed.

(** [fromHex] reads back the bytes that [toHex] prints, with or without the
    prefix [0x], whatever is asked for on bad characters. *)
Theorem fromHex_toHex bs th :
  bytes_ok bs ->
  fromHex (toHex bs []) th = Ok bs /\ fromHex (toHex bs hexPrefix) th = Ok bs.
Proof.
  intros Hbs. unfold fromHex, toHex. split.
  - rewrite app_nil_l, bool_decide_eq_false_2, hexbody_length, Z.eqb_refl
      by (by apply hexbody_no_prefix).
    cbn [negb]. by rewrite fromHex_loop_body.
  - rewrite bool_decide_eq_true_2 by done. unfold hexPrefix. cbn [app drop length].
    rewrite !Nat2Z.inj_succ. replace (Z.succ (Z.succ (zlen (hexbody bs)))) with
      (zlen (hexbody bs) + 1 * 2) by lia.
    rewrite Z.mod_add, hexbody_length, Z.eqb_refl by lia. cbn [negb]. rewrite drop_0. by rewrite fromHex_loop_body.
Qed.

Lemma fromHex_toHex_witness :
  fromHex (toHex [0; 18; 255] []) Throw = Ok [0; 18; 255] /\ fromHex (toHex [0; 18; 255] hexPrefix) Throw = Ok [0; 18; 255].
Proof. apply (fromHex_toHex [0; 18; 255] Throw). repeat constructor; unfold is_byte; lia. Defined.

Lemma isHex_toHex bs : bytes_ok bs -> isHex (toHex bs []) = true.
Proof.
  intros Hbs. unfold isHex, toHex. rewrite app_nil_l.
  rewrite bool_decide_eq_false_2 by (by apply hexbody_no_prefix).
  induction Hbs as [|b bs Hb _ IH]; [done|]. cbn in *. rewrite IH.
  pose proof (byte_nibbles b Hb) as (H1 & H2 & _).
  rewrite !fromHexChar_hexdigit by done. zbool; done.
Qed.

End CommonData.

(** ** Fixed-size hashes (FixedHash.h)

    A [FixedHash<N>] is its array of [N] bytes. *)
Module FixedHash.
Import CommonData.

Inductive ConstructFromHashType := AlignLeft | AlignRight | FailIfDifferent.

Definition zero (N : nat) : bytes := replicate N 0.

(** Bytes [i < c] copied from the left or from the right into a zero hash. *)
Definition align (N : nat) (_b : bytes) (_t : ConstructFromHashType) : bytes :=
  let c := Nat.min (length _b) N in
  match _t with
  | AlignRight => replicate (N - c) 0 ++ drop (length _b - c) _b
  | _ => take c _b ++ replicate (N - c) 0
  end.

(** Construction from another hash. *)
Definition of_hash (N : nat) (_h : bytes) (_t : ConstructFromHashType) : bytes := align N _h _t.

(** Construction from a byte array. *)
Definition of_bytes (N : nat) (_b : bytes) (_t : ConstructFromHashType) : bytes :=
  if bool_decide (length _b = N) then _b
  else match _t with FailIfDifferent => zero N | _ => align N _b _t end.

(** Construction from, and conversion to, the arithmetic type. *)
Definition of_arith (N : nat) (_arith : Z) : bytes := toBigEndian N _arith.
Definition to_arith (N : nat) (h : bytes) : Z := fromBigEndian (8 * Z.of_nat N) h.

Definition to_bool (h : bytes) : bool := existsb (fun b => negb (b =? 0)) h.

Fixpoint ltb (a c : bytes) : bool :=
  match a, c with
  | x :: a', y :: c' => if x <? y then true else if y <? x then false else ltb a' c'
  | _, _ => false
  end.

Definition xor_eq (a c : bytes) : bytes := zip_with Z.lxor a c.
Definition or_eq (a c : bytes) : bytes := zip_with Z.lor a c.
Definition and_eq (a c : bytes) : bytes := zip_with Z.land a c.
Definition compl (a : bytes) : bytes := map (fun b => wrap 8 (Z.lnot b)) a.
Definition contains (a c : bytes) : bool := bool_decide (and_eq a c = c).

(** [SecureFixedHash::operator|=] and [operator&=] as written: both forward to
    the base class's [operator^=]. *)
Definition secure_or_eq (a c : bytes) : bytes := xor_eq a c.
Definition secure_and_eq (a c : bytes) : bytes := xor_eq a c.

(** [operator++], from the last byte: [for (i = size; i > 0 && !++m_data[--i]; )]. *)
Fixpoint incr_rev (r : bytes) : bytes :=
  match r with
  | [] => []
  | b :: r' => let b' := wrap 8 (b + 1) in if b' =? 0 then b' :: incr_rev r' else b' :: r'
  end.
Definition incr (h : bytes) : bytes := rev (incr_rev (rev h)).

(** The inner loop of [firstBitSet] on a non-zero byte [d]; eight shifts reach
    its top bit. *)
Fixpoint firstBitSet_byte (fuel : nat) (d ret : Z) : Z :=
  match fuel with
  | O => ret
  | S f => if negb (Z.land d 128 =? 0) then ret else firstBitSet_byte f (wrap 8 (Z.shiftl d 1)) (ret + 1)
  end.
Fixpoint firstBitSet_loop (h : bytes) (ret : Z) : Z :=
  match h with
  | [] => ret
  | d :: h' => if negb (d =? 0) then firstBitSet_byte 8 d ret else firstBitSet_loop h' (ret + 8)
  end.
Definition firstBitSet (h : bytes) : Z := firstBitSet_loop h 0.

(** *** Lemmas *)

Lemma of_arith_length N v : length (of_arith N v) = N.
Proof. apply toBigEndian_length. Qed.

Lemma pow_256_bits n : 256 ^ Z.of_nat n = 2 ^ (8 * Z.of_nat n).
Proof. change 256 with (2 ^ 8). rewrite <- Z.pow_mul_r by lia. done. Qed.

(** Converting to the arithmetic type and back. *)
Lemma to_of_arith N v : uint_ok (8 * Z.of_nat N) v -> to_arith N (of_arith N v) = v.
Proof.
  intros [H0 H1]. unfold to_arith, of_arith.
  rewrite fromBigEndian_spec, be_val_toBigEndian, pow_256_bits by (auto using toBigEndian_ok; lia).
  rewrite Z.mod_small by done. by apply wrap_small.
Qed.

Lemma to_arith_be_val N h : length h = N -> bytes_ok h -> to_arith N h = be_val h.
Proof.
  intros HN Hh. unfold to_arith. rewrite fromBigEndian_spec by (done || lia).
  apply wrap_small. pose proof (be_val_range h Hh). unfold uint_ok.
  rewrite <- pow_256_bits, <- HN. done.
Qed.

Lemma of_to_arith N h : length h = N -> bytes_ok h -> of_arith N (to_arith N h) = h.
Proof.
  intros HN Hh. rewrite to_arith_be_val by done. unfold of_arith. rewrite <- HN.
  by apply toBigEndian_be_val.
Qed.

(** [operator<] is the numeric order. *)
Lemma ltb_spec a c :
  bytes_ok a -> bytes_ok c -> length a = length c -> ltb a c = (be_val a <? be_val c).
Proof.
  intros Ha. revert c. induction Ha as [|x a Hx Ha IH]; intros c Hc Hl.
  { destruct c; done. }
  destruct c as [|y c]; [done|]. inversion Hc as [|? ? Hy Hc']; subst. injection Hl as Hl.
  cbn [ltb be_val]. pose proof (be_val_range a Ha). pose proof (be_val_range c Hc').
  rewrite Hl in *. unfold is_byte in *.
  destruct (Z.ltb_spec x y); [symmetry; apply Z.ltb_lt; nia|].
  destruct (Z.ltb_spec y x); [symmetry; apply Z.ltb_ge; nia|].
  rewrite IH by done. assert (x = y) as -> by lia. zbool; done.
Qed.

Lemma incr_rev_length r : length (incr_rev r) = length r.
Proof. induction r as [|b r IH]; simpl; [done|]. destruct (_ =? 0); simpl; lia. Qed.

(** [FixedHash::operator++] adds one to the hash as a big-endian number, modulo
    its size: the carry runs to the first byte. *)
Theorem incr_spec h :
  bytes_ok h -> be_val (incr h) = (be_val h + 1) mod 256 ^ zlen h.
Proof.
  intros Hh. unfold incr. rewrite <- (rev_involutive h). rewrite rev_involutive.
  assert (Hr : bytes_ok (rev h)) by (by apply Forall_rev).
  generalize dependent (rev h). clear h Hh. intros r Hr.
  rewrite length_rev. induction Hr as [|b r Hb Hr IH]; [by rewrite Z.mod_1_r|].
  assert (Hrr : bytes_ok (rev r)) by (by apply Forall_rev).
  pose proof (be_val_range (rev r) Hrr) as Hv. rewrite length_rev in Hv.
  unfold is_byte in Hb. cbn [incr_rev rev length].
  rewrite Nat2Z.inj_succ, Z.pow_succ_r by lia.
  assert (Hp : 0 < 256 ^ zlen r) by (apply Z.pow_pos_nonneg; lia).
  unfold wrap. destruct (Z.eqb_spec ((b + 1) mod 2 ^ 8) 0) as [He|He].
  - assert (b = 255) as -> by (destruct (Z.eq_dec b 255); [done|]; rewrite Z.mod_small in He; lia).
    cbn [rev]. rewrite !be_val_app, IH, He. cbn. rewrite <- Z.mul_mod_distr_r by lia.
    change (256 ^ Z.of_nat 1) with 256. change (256 ^ Z.of_nat 0) with 1.
    rewrite (Z.mul_comm 256), !Z.add_0_r. f_equal. lia.
  - rewrite Z.mod_small by (destruct (Z.eq_dec b 255); [subst; done|lia]). cbn [rev].
    rewrite !be_val_app. cbn [be_val length].
    change (256 ^ Z.of_nat 1) with 256. change (256 ^ Z.of_nat 0) with 1.
    rewrite Z.mod_small; [lia|].
    destruct (Z.eq_dec b 255); [subst; done|]. lia.
Qed.

Lemma incr_spec_witness : be_val (incr [1; 255; 255]) = (be_val [1; 255; 255] + 1) mod 256 ^ 3.
Proof. apply (incr_spec [1; 255; 255]). repeat constructor; unfold is_byte; lia. Defined.

Lemma firstBitSet_byte_spec d ret : 0 < d < 256 -> firstBitSet_byte 8 d ret = ret + (7 - Z.log2 d).
Proof.
  intros Hd.
  assert (Hz : firstBitSet_byte 8 d 0 = 7 - Z.log2 d).
  { apply Z.eqb_eq.
    pose proof (Z_forall_below (fun d => (d =? 0) || (firstBitSet_byte 8 d 0 =? 7 - Z.log2 d)) 256
      ltac:(vm_compute; reflexivity) d ltac:(lia)) as H.
    cbn beta in H. destruct (Z.eqb_spec d 0); [lia|]. exact H. }
  assert (Hs : forall f x r, firstBitSet_byte f x r = r + firstBitSet_byte f x 0).
  { induction f as [|f IH]; intros x r; cbn [firstBitSet_byte]; [lia|].
    destruct (negb _); [lia|]. rewrite (IH _ (r + 1)), (IH _ (0 + 1)). lia. }
  rewrite Hs, Hz. done.
Qed.

(** [firstBitSet] counts the leading zero bits. *)
Lemma firstBitSet_spec h :
  bytes_ok h ->
  firstBitSet h = if be_val h =? 0 then 8 * zlen h else 8 * zlen h - 1 - Z.log2 (be_val h).
Proof.
  intros Hh. unfold firstBitSet.
  enough (forall ret, firstBitSet_loop h ret =
    ret + (if be_val h =? 0 then 8 * zlen h else 8 * zlen h - 1 - Z.log2 (be_val h))) as ->
    by lia.
  induction Hh as [|d h Hd Hh IH]; intros ret; [simpl; lia|].
  cbn [firstBitSet_loop be_val]. rewrite zlen_cons. pose proof (be_val_range h Hh) as Hv.
  unfold is_byte in Hd. destruct (Z.eqb_spec d 0) as [->|Hnz]; cbn [negb].
  { rewrite IH, Z.mul_0_l, Z.add_0_l. destruct (_ =? 0); lia. }
  rewrite firstBitSet_byte_spec by lia.
  assert (Hp : 0 < 256 ^ zlen h) by (apply Z.pow_pos_nonneg; lia).
  destruct (Z.eqb_spec (d * 256 ^ zlen h + be_val h) 0); [nia|].
  enough (Z.log2 (d * 256 ^ zlen h + be_val h) = Z.log2 d + 8 * zlen h) by lia.
  rewrite pow_256_bits in *. apply Z.log2_unique; [pose proof (Z.log2_nonneg d); lia|].
  pose proof (Z.log2_spec d ltac:(lia)) as [Hl Hu]. pose proof (Z.log2_nonneg d).
  rewrite <- Z.add_succ_l, !Z.pow_add_r by lia. nia.
Qed.

End FixedHash.
