(* ===== verification/Rlp.v ===== *)
(** * RLP decoding (libdevcore/RLP.h, RLP.cpp)

    The class [RLP] is a view [m_data] on a byte string, here the byte string
    itself; its operations are functions of it that may throw.  An access of
    [vector_ref::operator[]] out of range trips that operator's assertion, here
    the exception [AssertFailure].  The only mutable part, the list-indexing
    cache of [operator[]], is passed explicitly and survives an exception.

    [Item] and [encode] are the abstract specification: the tree of strings and
    lists that a byte string denotes. *)

From stdpp Require Import base list numbers option.
From Stdlib Require Import ZArith Lia.
From S2P Require Import Prelude Bytes.
Import VectorRef CommonData.

Module RLP.

(** ** Constants and errors *)

Definition c_rlpMaxLengthBytes : Z := 8.
Definition c_rlpDataImmLenStart : Z := 0x80.
Definition c_rlpListStart : Z := 0xc0.
Definition c_rlpDataImmLenCount : Z := c_rlpListStart - c_rlpDataImmLenStart - c_rlpMaxLengthBytes.
Definition c_rlpDataIndLenZero : Z := c_rlpDataImmLenStart + c_rlpDataImmLenCount - 1.
Definition c_rlpListImmLenCount : Z := 256 - c_rlpListStart - c_rlpMaxLengthBytes.
Definition c_rlpListIndLenZero : Z := c_rlpListStart + c_rlpListImmLenCount - 1.

(** The exceptions of the source; and [AssertFailure], a tripped [assert],
    [BadRead], a read through a null view, and [NoFuel], a loop that has not
    ended within the fuel it was given. *)
Inductive exn :=
| BadRLP | OversizeRLP | UndersizeRLP | BadCast | RLPException
| AssertFailure | BadRead | NoFuel.

#[export] Instance exn_eq_dec : EqDecision exn.
Proof. solve_decision. Defined.

(** Conversion flags. *)
Definition AllowNonCanon : Z := 1.
Definition ThrowOnFail : Z := 4.
Definition FailIfTooBig : Z := 8.
Definition FailIfTooSmall : Z := 16.
Definition Strict : Z := Z.lor ThrowOnFail FailIfTooBig.
Definition VeryStrict : Z := Z.lor (Z.lor ThrowOnFail FailIfTooBig) FailIfTooSmall.
Definition LaissezFaire : Z := AllowNonCanon.

Definition has (_flags f : Z) : bool := negb (Z.land _flags f =? 0).

(** [vector_ref::operator[]]. *)
Definition ref_at (d : bytes) (i : Z) : result exn Z :=
  match zat d i with Some b => Ok b | None => Err AssertFailure end.

(** ** Predicates on the prefix byte *)

Definition isNull (m_data : bytes) : bool := zlen m_data =? 0.

Definition isEmpty (m_data : bytes) : bool :=
  match m_data with
  | [] => false
  | n :: _ => (n =? c_rlpDataImmLenStart) || (n =? c_rlpListStart)
  end.

Definition isData (m_data : bytes) : bool :=
  match m_data with [] => false | n :: _ => n <? c_rlpListStart end.

Definition isList (m_data : bytes) : bool :=
  match m_data with [] => false | n :: _ => c_rlpListStart <=? n end.

Definition isSingleByte (m_data : bytes) : bool :=
  match m_data with [] => false | n :: _ => n <? c_rlpDataImmLenStart end.

(** ** Lengths *)

Definition requireGood (m_data : bytes) : result exn unit :=
  if isNull m_data then Err BadRLP else
  let! n := ref_at m_data 0 in
  if negb (n =? c_rlpDataImmLenStart + 1) then Ok tt else
  if zlen m_data <? 2 then Err BadRLP else
  let! n1 := ref_at m_data 1 in
  if n1 <? c_rlpDataImmLenStart then Err BadRLP else Ok tt.

Definition isInt (m_data : bytes) : result exn bool :=
  if isNull m_data then Ok false else
  let! _ := requireGood m_data in
  let! n := ref_at m_data 0 in
  if n <? c_rlpDataImmLenStart then Ok (negb (n =? 0))
  else if n =? c_rlpDataImmLenStart then Ok true
  else if n <=? c_rlpDataIndLenZero then
    if zlen m_data <=? 1 then Err BadRLP else
    let! n1 := ref_at m_data 1 in Ok (negb (n1 =? 0))
  else if n <? c_rlpListStart then
    if zlen m_data <=? 1 + n - c_rlpDataIndLenZero then Err BadRLP else
    let! b := ref_at m_data (1 + n - c_rlpDataIndLenZero) in Ok (negb (b =? 0))
  else Ok false.

(** [for (i = 0; i < lengthSize; ++i) ret = (ret << 8) | m_data[i + 1]], a
    [size_t]. *)
Fixpoint length_loop (m_data : bytes) (n : nat) (i ret : Z) : result exn Z :=
  match n with
  | O => Ok ret
  | S n' =>
      let! b := ref_at m_data (i + 1) in
      length_loop m_data n' (i + 1) (wrap 64 (Z.lor (Z.shiftl ret 8) b))
  end.

(** The branches of [length] for a length given in [lengthSize] bytes after the
    prefix, which differ only in the limit; they end with the common overflow
    check. *)
Definition long_length (m_data : bytes) (lengthSize limit : Z) : result exn Z :=
  if zlen m_data <=? lengthSize then Err BadRLP else
  let! n1 := ref_at m_data 1 in
  if (1 <? zlen m_data) && (n1 =? 0) then Err BadRLP else
  if 8 <? lengthSize then Err UndersizeRLP else
  if n1 =? 0 then Err BadRLP else
  let! ret := length_loop m_data (Z.to_nat lengthSize) 0 0 in
  if ret <? limit then Err BadRLP else
  if 2 ^ 64 - 1 - 0x100 <=? ret then Err UndersizeRLP else Ok ret.

Definition length (m_data : bytes) : result exn Z :=
  if isNull m_data then Ok 0 else
  let! _ := requireGood m_data in
  let! n := ref_at m_data 0 in
  if n <? c_rlpDataImmLenStart then Ok 1
  else if n <=? c_rlpDataIndLenZero then Ok (n - c_rlpDataImmLenStart)
  else if n <? c_rlpListStart then
    long_length m_data (n - c_rlpDataIndLenZero)
      (c_rlpListStart - c_rlpDataImmLenStart - c_rlpMaxLengthBytes)
  else if n <=? c_rlpListIndLenZero then Ok (n - c_rlpListStart)
  else
    long_length m_data (n - c_rlpListIndLenZero) (0x100 - c_rlpListStart - c_rlpMaxLengthBytes).

Definition lengthSize (m_data : bytes) : Z :=
  match m_data with
  | [] => 0
  | n :: _ =>
      if isData m_data && (c_rlpDataIndLenZero <? n) then n - c_rlpDataIndLenZero
      else if isList m_data && (c_rlpListIndLenZero <? n) then n - c_rlpListIndLenZero
      else 0
  end.

Definition payloadOffset (m_data : bytes) : Z :=
  if isSingleByte m_data then 0 else 1 + lengthSize m_data.

Definition actualSize (m_data : bytes) : result exn Z :=
  if isNull m_data then Ok 0
  else if isSingleByte m_data then Ok 1
  else if isData m_data || isList m_data then
    let! l := length m_data in Ok (payloadOffset m_data + l)
  else Ok 0.

Definition payload (m_data : bytes) : result exn bytes :=
  let! l := length m_data in
  if zlen m_data <? l then Err BadRLP else
  Ok (cropped m_data (payloadOffset m_data) l).

(** The constructor [RLP(bytesConstRef _d, Strictness _s)]: the view it keeps. *)
Definition make (_d : bytes) (_s : Z) : result exn bytes :=
  let! m1 :=
    (if has _s FailIfTooBig then
       let! a := actualSize _d in
       if a <? zlen _d then
         if has _s ThrowOnFail then Err OversizeRLP else Ok []
       else Ok _d
     else Ok _d) in
  if has _s FailIfTooSmall then
    let! a := actualSize m1 in
    if zlen _d <? a then
      if has _s ThrowOnFail then Err UndersizeRLP else Ok []
    else Ok m1
  else Ok m1.

Definition sizeAsEncoded (_data : bytes) : result exn Z :=
  let! r := make _data (Z.lor ThrowOnFail FailIfTooSmall) in actualSize r.

(** ** Items of a list *)

(** The loop of [items]; every item has at least one byte, so the length of the
    payload is fuel enough. *)
Fixpoint items_loop (fuel : nat) (d : bytes) (i : Z) : result exn Z :=
  match d with
  | [] => Ok i
  | _ =>
    match fuel with
    | O => Err NoFuel
    | S f =>
        let! n := sizeAsEncoded d in
        items_loop f (cropped_from d n) (i + 1)
    end
  end.

Definition items (m_data : bytes) : result exn Z :=
  if isList m_data then
    let! d := payload m_data in items_loop (List.length d) d 0
  else Ok 0.

Definition itemCount (m_data : bytes) : result exn Z :=
  if isList m_data then items m_data else Ok 0.

Definition itemCountStrict (m_data : bytes) : result exn Z :=
  if isList m_data then items m_data else Err BadCast.

Definition size (m_data : bytes) : result exn Z :=
  if isData m_data then length m_data else Ok 0.

Definition sizeStrict (m_data : bytes) : result exn Z :=
  if isData m_data then length m_data else Err BadCast.

(** The list-indexing cache of [operator[]]. *)
Record cache := {
  m_lastIndex : Z;
  m_lastEnd : Z;
  m_lastItem : bytes
}.
Definition cache_init : cache := {| m_lastIndex := 2 ^ 64 - 1; m_lastEnd := 0; m_lastItem := [] |}.

(** The [for] loop of [operator[]]; the cache is returned also when it throws. *)
Fixpoint index_loop (fuel : nat) (m_data : bytes) (_i : Z) (c : cache) : result exn unit * cache :=
  if (m_lastIndex c <? _i) && negb (zlen (m_lastItem c) =? 0) then
    match fuel with
    | O => (Err NoFuel, c)
    | S f =>
        match payload m_data with
        | Err e => (Err e, c)
        | Ok p =>
            let rest := cropped_from p (m_lastEnd c) in
            match sizeAsEncoded rest with
            | Err e => (Err e, {| m_lastIndex := m_lastIndex c; m_lastEnd := m_lastEnd c; m_lastItem := rest |})
            | Ok n =>
                let it := cropped rest 0 n in
                index_loop f m_data _i
                  {| m_lastIndex := m_lastIndex c + 1;
                     m_lastEnd := m_lastEnd c + zlen it;
                     m_lastItem := it |}
            end
        end
    end
  else (Ok tt, c).

(** The first [if] of [operator[]]. *)
Definition index_reset (m_data : bytes) (_i : Z) (c : cache) : result exn unit * cache :=
  if _i <? m_lastIndex c then
    match payload m_data with
    | Err e => (Err e, c)
    | Ok p =>
        match sizeAsEncoded p with
        | Err e => (Err e, c)
        | Ok n => (Ok tt, {| m_lastIndex := 0; m_lastEnd := n; m_lastItem := cropped p 0 n |})
        end
    end
  else (Ok tt, c).

(** [operator[](_i)]. *)
Definition index (m_data : bytes) (_i : Z) (c : cache) : result exn bytes * cache :=
  match index_reset m_data _i c with
  | (Err e, c1) => (Err e, c1)
  | (Ok _, c1) =>
      match index_loop (S (List.length m_data)) m_data _i c1 with
      | (Err e, c2) => (Err e, c2)
      | (Ok _, c2) => (make (m_lastItem c2) (Z.lor ThrowOnFail FailIfTooSmall), c2)
      end
  end.

(** [operator[]] on a freshly constructed object. *)
Definition nth (m_data : bytes) (_i : Z) : result exn bytes := fst (index m_data _i cache_init).

(** ** Iteration *)

(** [RLP::iterator] over a parent with data [d]: [m_currentItem] is a pointer
    into [d] (its offset) and a count, or the null view [None]. *)
Record iterator := {
  m_remaining : Z;
  m_currentItem : option (Z * Z)
}.

#[export] Instance iterator_eq_dec : EqDecision iterator.
Proof. solve_decision. Defined.

Definition it_bytes (d : bytes) (it : iterator) : bytes :=
  match m_currentItem it with
  | None => []
  | Some (off, n) => ztake n (zdrop off d)
  end.

(** [iterator(_parent, _begin)]. The payload is the null view when it does not
    fit in the data; [sizeAsEncoded] throws unless its result fits in [pl]. *)
Definition it_make (d : bytes) (_begin : bool) : result exn iterator :=
  if _begin && isList d then
    let! l := length d in
    let! pl := payload d in
    let! n := sizeAsEncoded pl in
    Ok {| m_remaining := zlen pl - n;
          m_currentItem := if payloadOffset d + l <=? zlen d
                           then Some (payloadOffset d, n) else None |}
  else Ok {| m_remaining := 0; m_currentItem := Some (zlen d, 0) |}.

(** [operator++]: [m_currentItem.next()] is the null view itself when null. *)
Definition it_next (d : bytes) (it : iterator) : result exn iterator :=
  let next_off := match m_currentItem it with Some (off, n) => Some (off + n) | None => None end in
  if negb (m_remaining it =? 0) then
    match next_off with
    | None => Ok it
    | Some off =>
        let! n := sizeAsEncoded (ztake (m_remaining it) (zdrop off d)) in
        Ok {| m_remaining := m_remaining it - Z.min (m_remaining it) n;
              m_currentItem := Some (off, n) |}
    end
  else
    Ok {| m_remaining := 0;
          m_currentItem := match next_off with Some off => Some (off, 0) | None => None end |}.

(** [operator==] on iterators compares pointer and count only. *)
Definition it_eqb (a b : iterator) : bool := bool_decide (m_currentItem a = m_currentItem b).

(** A range-[for] over the items of [d] that collects [f] of each. *)
Fixpoint for_loop {A} (fuel : nat) (d : bytes) (f : bytes -> result exn A)
    (it it_end : iterator) (ret : list A) : result exn (list A) :=
  if it_eqb it it_end then Ok ret else
  match fuel with
  | O => Err NoFuel
  | S n =>
      let! r := make (it_bytes d it) VeryStrict in
      let! a := f r in
      let! it' := it_next d it in
      for_loop n d f it' it_end (ret ++ [a])
  end.

Definition for_each {A} (fuel : nat) (d : bytes) (f : bytes -> result exn A) : result exn (list A) :=
  let! b := it_make d true in
  let! e := it_make d false in
  for_loop fuel d f b e [].

(** ** Conversions *)

Definition toList_fuel (fuel : nat) (m_data : bytes) (_flags : Z) : result exn (list bytes) :=
  if negb (isList m_data) then
    if has _flags ThrowOnFail then Err BadCast else Ok []
  else for_each fuel m_data (fun i => Ok i).

Definition toList (m_data : bytes) (_flags : Z) : result exn (list bytes) :=
  toList_fuel (List.length m_data) m_data _flags.

(** [toVector<T>], for an element conversion [convert]. *)
Definition toVector {A} (convert : bytes -> Z -> result exn A) (m_data : bytes) (_flags : Z)
    : result exn (list A) :=
  if isList m_data then
    let! _ := itemCount m_data in
    for_each (List.length m_data) m_data (fun i => convert i _flags)
  else if has _flags ThrowOnFail then Err BadCast else Ok [].

(** [toPair<T, U>]; [dflt] is the default-constructed pair. *)
Definition toPair {A B} (convA : bytes -> Z -> result exn A) (convB : bytes -> Z -> result exn B)
    (dflt : A * B) (m_data : bytes) (_flags : Z) : result exn (A * B) :=
  let! n := itemCountStrict m_data in
  if negb (n =? 2) then
    if has _flags ThrowOnFail then Err BadCast else Ok dflt
  else
    let '(r0, c0) := index m_data 0 cache_init in
    let! i0 := r0 in
    let! a := convA i0 _flags in
    let! i1 := fst (index m_data 1 c0) in
    let! b := convB i1 _flags in
    Ok (a, b).

(** [bytes(payload().data(), payload().data() + length())]. *)
Definition toBytes (m_data : bytes) (_flags : Z) : result exn bytes :=
  if negb (isData m_data) then
    if has _flags ThrowOnFail then Err BadCast else Ok []
  else
    let! p := payload m_data in
    let! l := length m_data in
    if zlen p <? l then Err BadRead else Ok p.

Definition toString (m_data : bytes) (_flags : Z) : result exn bytes :=
  if negb (isData m_data) then
    if has _flags ThrowOnFail then Err BadCast else Ok []
  else
    let! p := payload m_data in
    let! l := length m_data in
    Ok (cropped p 0 l).

(** [toInt<T>] for an unsigned [w]-bit [T] ([w] a multiple of 8). *)
Definition toInt (w : Z) (m_data : bytes) (_flags : Z) : result exn Z :=
  let! _ := requireGood m_data in
  let! i := isInt m_data in
  if (negb i && negb (has _flags AllowNonCanon)) || isList m_data || isNull m_data then
    if has _flags ThrowOnFail then Err BadCast else Ok 0
  else
    let! p := payload m_data in
    if (w / 8 <? zlen p) && has _flags FailIfTooBig then
      if has _flags ThrowOnFail then Err BadCast else Ok 0
    else Ok (fromBigEndian w p).

(** [toHash<FixedHash<N>>]. *)
Definition toHash (N : nat) (m_data : bytes) (_flags : Z) : result exn bytes :=
  let! _ := requireGood m_data in
  let! p := payload m_data in
  let l := zlen p in
  if negb (isData m_data)
     || ((Z.of_nat N <? l) && has _flags FailIfTooBig)
     || ((l <? Z.of_nat N) && has _flags FailIfTooSmall) then
    if has _flags ThrowOnFail then Err BadCast else Ok (FixedHash.zero N)
  else
    let s := Nat.min N (List.length p) in
    Ok (replicate (N - s) 0 ++ take s p).

(** Reading a whole tree with the operations above: the recursive descent of
    [streamOut] without its depth limit. *)
#[warnings="-register-all"]
Inductive Item :=
| Str (s : bytes)
| Lst (l : list Item).

Fixpoint read (fuel : nat) (m_data : bytes) : result exn Item :=
  match fuel with
  | O => Err NoFuel
  | S f =>
      if isList m_data then
        let! l := for_each (List.length m_data) m_data (read f) in Ok (Lst l)
      else
        let! s := toBytes m_data Strict in Ok (Str s)
  end.

(** [RLP(_d)] followed by reading everything; the fuel bounds the depth. *)
Definition decode (_d : bytes) : result exn Item :=
  let! r := make _d VeryStrict in read (S (List.length r)) r.

(** ** The specification: encodings of trees *)

(** The prefix of a payload of [n] bytes. *)
Definition header (imm ind n : Z) : bytes :=
  if n <? 56 then [imm + n]
  else let c := toCompactBigEndian n 0 in (ind + zlen c) :: c.

Definition encode_str (s : bytes) : bytes :=
  match s with
  | [b] => if b <? 0x80 then [b] else header 0x80 0xb7 1 ++ [b]
  | _ => header 0x80 0xb7 (zlen s) ++ s
  end.

Fixpoint encode (t : Item) : bytes :=
  match t with
  | Str s => encode_str s
  | Lst l => let body := concat (map encode l) in header 0xc0 0xf7 (zlen body) ++ body
  end.

(** Lengths an RLP string may have for the decoder ([RLP::length]'s last check). *)
Definition maxLength : Z := 2 ^ 64 - 1 - 0x100.

Fixpoint item_ok (t : Item) : Prop :=
  match t with
  | Str s => bytes_ok s
  | Lst l => fold_right (fun t P => item_ok t /\ P) True l
  end.

Definition encodable (t : Item) : Prop := item_ok t /\ zlen (encode t) < maxLength.

(** Induction over trees. *)
Fixpoint Item_rect' (P : Item -> Prop)
    (HS : forall s, P (Str s)) (HL : forall l, Forall P l -> P (Lst l)) (t : Item) : P t :=
  match t with
  | Str s => HS s
  | Lst l => HL l ((fix go (l : list Item) : Forall P l :=
      match l with
      | [] => Forall_nil_2 _
      | t :: l' => Forall_cons_2 _ _ _ (Item_rect' P HS HL t) (go l')
      end) l)
  end.

Lemma item_ok_Lst l : item_ok (Lst l) <-> Forall item_ok l.
Proof.
  simpl. induction l as [|t l IH]; simpl; [done|]. by rewrite IH, Forall_cons_iff.
Qed.

(** ** Prefixes: decoding what the specification writes *)

Lemma ref_at_app_l d k i : i < zlen d -> ref_at (d ++ k) i = ref_at d i.
Proof. intros. unfold ref_at. by rewrite zat_app_l. Qed.

Lemma length_loop_spec pre bs rest i ret :
  zlen pre = i + 1 -> 0 <= i ->
  length_loop (pre ++ bs ++ rest) (List.length bs) i ret =
  Ok (fold_left (fun r b => wrap 64 (Z.lor (Z.shiftl r 8) b)) bs ret).
Proof.
  revert pre i ret. induction bs as [|b bs IH]; intros pre i ret Hp Hi; [done|].
  cbn [length_loop List.length fold_left].
  assert (ref_at (pre ++ (b :: bs) ++ rest) (i + 1) = Ok b) as ->.
  { unfold ref_at. rewrite zat_app_r by lia. by rewrite Hp, Z.sub_diag. }
  cbn [result_bind app]. rewrite <- (IH (pre ++ [b]) (i + 1)).
  - by rewrite <- app_assoc.
  - rewrite zlen_app. cbn. lia.
  - lia.
Qed.

Lemma header_ok imm ind n :
  0 <= imm -> imm + 56 <= 256 -> 0 <= ind -> ind + 8 < 256 -> 0 <= n < 2 ^ 64 ->
  bytes_ok (header imm ind n).
Proof.
  intros. unfold header. destruct (Z.ltb_spec n 56).
  - repeat constructor; unfold is_byte; lia.
  - constructor; [|apply toCompactBigEndian_ok].
    rewrite toCompactBigEndian_length by lia. unfold is_byte.
    pose proof (bytesRequired_bound n ltac:(lia)).
    pose proof (bytesRequired_le n 8 ltac:(change (256 ^ 8) with (2 ^ 64); lia) ltac:(lia)). lia.
Qed.

(** Replace the constants of the source by their values. *)
Ltac rlp_consts :=
  change c_rlpMaxLengthBytes with 8 in *;
  change c_rlpDataImmLenStart with 128 in *;
  change c_rlpListStart with 192 in *;
  change c_rlpDataImmLenCount with 56 in *;
  change c_rlpDataIndLenZero with 183 in *;
  change c_rlpListImmLenCount with 56 in *;
  change c_rlpListIndLenZero with 247 in *.

Lemma ref_at_0 b d : ref_at (b :: d) 0 = Ok b.
Proof. done. Qed.

Lemma compact_small n :
  56 <= n < maxLength ->
  1 <= zlen (toCompactBigEndian n 0) <= 8 /\
  fold_left (fun r b => wrap 64 (Z.lor (Z.shiftl r 8) b)) (toCompactBigEndian n 0) 0 = n.
Proof.
  intros Hn. unfold maxLength in Hn. rewrite toCompactBigEndian_length by lia.
  pose proof (bytesRequired_le n 8 ltac:(change (256 ^ 8) with (2 ^ 64); lia) ltac:(lia)).
  pose proof (bytesRequired_bound n ltac:(lia)) as [Hb Hp].
  split.
  - split; [|done]. destruct (Z.eq_dec (bytesRequired n) 0) as [H0|]; [|lia].
    rewrite H0 in Hb. simpl in Hb. lia.
  - change (fromBigEndian 64 (toCompactBigEndian n 0) = n).
    rewrite fromBigEndian_spec, be_val_toCompactBigEndian by (auto using toCompactBigEndian_ok; lia).
    apply wrap_small. unfold uint_ok. lia.
Qed.

(** A long length, as the specification writes it, is read back. *)
Lemma long_length_spec b n rest :
  56 <= n < maxLength ->
  long_length (b :: toCompactBigEndian n 0 ++ rest) (zlen (toCompactBigEndian n 0)) 56 = Ok n.
Proof.
  intros Hn. pose proof (compact_small n Hn) as [Hl Hv].
  destruct (toCompactBigEndian_head n ltac:(lia)) as (c & cs & Hc & Hnz).
  unfold long_length.
  assert (zlen (b :: toCompactBigEndian n 0 ++ rest) = 1 + zlen (toCompactBigEndian n 0) + zlen rest) as ->
    by (rewrite zlen_cons, zlen_app; lia).
  destruct (Z.leb_spec (1 + zlen (toCompactBigEndian n 0) + zlen rest) (zlen (toCompactBigEndian n 0))); [lia|].
  assert (ref_at (b :: toCompactBigEndian n 0 ++ rest) 1 = Ok c) as -> by (by rewrite Hc).
  cbn [result_bind]. destruct (Z.eqb_spec c 0); [done|]. rewrite andb_false_r.
  destruct (Z.ltb_spec 8 (zlen (toCompactBigEndian n 0))); [lia|].
  rewrite Nat2Z.id.
  pose proof (length_loop_spec [b] (toCompactBigEndian n 0) rest 0 0 eq_refl ltac:(lia)) as HL.
  cbn [app] in HL. rewrite HL. cbn [result_bind]. rewrite Hv. unfold maxLength in Hn. zbool. done.
Qed.

(** The value of [length] on a non-empty string with an acceptable prefix. *)
Lemma length_cons n d :
  (n = 129 -> exists b r, d = b :: r /\ 128 <= b) ->
  length (n :: d) =
    if n <? 128 then Ok 1
    else if n <=? 183 then Ok (n - 128)
    else if n <? 192 then long_length (n :: d) (n - 183) 56
    else if n <=? 247 then Ok (n - 192)
    else long_length (n :: d) (n - 247) 56.
Proof.
  intros Hn. unfold length, isNull, requireGood. rlp_consts. rewrite zlen_cons.
  destruct (Z.eqb_spec (zlen d + 1) 0); [lia|]. rewrite ref_at_0. cbn [result_bind].
  change (128 + 1) with 129.
  destruct (Z.eqb_spec n 129) as [->|]; cbn [negb result_bind]; [|done].
  destruct (Hn eq_refl) as (b & r & -> & Hb). rewrite zlen_cons.
  destruct (Z.ltb_spec (zlen r + 1 + 1) 2); [lia|].
  change (ref_at (129 :: b :: r) 1) with (@Ok exn Z b). cbn [result_bind].
  destruct (Z.ltb_spec b 128); [lia|]. done.
Qed.

Lemma length_header_list n rest :
  0 <= n < maxLength -> length (header 0xc0 0xf7 n ++ rest) = Ok n.
Proof.
  intros Hn. unfold header. destruct (Z.ltb_spec n 56); cbn [app].
  - rewrite length_cons by lia. zbool. f_equal. lia.
  - pose proof (compact_small n ltac:(lia)) as [Hl _].
    rewrite length_cons by lia. zbool.
    replace (247 + zlen (toCompactBigEndian n 0) - 247) with (zlen (toCompactBigEndian n 0)) by lia.
    apply long_length_spec. lia.
Qed.

(** [rest] may follow a string's prefix for [n] bytes: a single byte below
    [0x80] has no prefix. *)
Definition canonical_data (n : Z) (rest : bytes) : Prop :=
  n = 1 -> exists b r, rest = b :: r /\ 128 <= b.

Lemma length_header_data n rest :
  0 <= n < maxLength -> canonical_data n rest -> length (header 0x80 0xb7 n ++ rest) = Ok n.
Proof.
  intros Hn Hc. unfold header. destruct (Z.ltb_spec n 56); cbn [app].
  - rewrite length_cons by (intros; apply Hc; lia). zbool. f_equal. lia.
  - pose proof (compact_small n ltac:(lia)) as [Hl _].
    rewrite length_cons by lia. zbool.
    replace (183 + zlen (toCompactBigEndian n 0) - 183) with (zlen (toCompactBigEndian n 0)) by lia.
    apply long_length_spec. lia.
Qed.

Lemma header_prefix imm ind n :
  0 <= n < maxLength ->
  exists b bs, header imm ind n = b :: bs /\
  (n < 56 /\ b = imm + n /\ bs = [] \/ 56 <= n /\ ind < b <= ind + 8 /\ zlen bs = b - ind).
Proof.
  intros Hn. unfold header. destruct (Z.ltb_spec n 56); [eauto 10|].
  pose proof (compact_small n ltac:(lia)) as [Hl _].
  do 2 eexists. split; [done|]. right. lia.
Qed.

(** The class of an encoding and where its payload starts. *)
Lemma prefix_header_list n rest :
  0 <= n < maxLength ->
  isList (header 0xc0 0xf7 n ++ rest) = true /\ isData (header 0xc0 0xf7 n ++ rest) = false /\
  isSingleByte (header 0xc0 0xf7 n ++ rest) = false /\
  payloadOffset (header 0xc0 0xf7 n ++ rest) = zlen (header 0xc0 0xf7 n).
Proof.
  intros Hn. destruct (header_prefix 0xc0 0xf7 n Hn) as (b & bs & -> & Hb).
  cbn [app]. unfold payloadOffset, isList, isData, isSingleByte, lengthSize, isData, isList.
  rlp_consts. rewrite zlen_cons.
  destruct Hb as [(?&->&->)|(?&?&?)]; zbool; done || lia.
Qed.

Lemma prefix_header_data n rest :
  0 <= n < maxLength ->
  isData (header 0x80 0xb7 n ++ rest) = true /\ isList (header 0x80 0xb7 n ++ rest) = false /\
  isSingleByte (header 0x80 0xb7 n ++ rest) = false /\
  payloadOffset (header 0x80 0xb7 n ++ rest) = zlen (header 0x80 0xb7 n).
Proof.
  intros Hn. destruct (header_prefix 0x80 0xb7 n Hn) as (b & bs & -> & Hb).
  cbn [app]. unfold payloadOffset, isList, isData, isSingleByte, lengthSize, isData, isList.
  rlp_consts. rewrite zlen_cons.
  destruct Hb as [(?&->&->)|(?&?&?)]; zbool; done || lia.
Qed.

(** ** Encodings as views

    [view d off body]: the prefix of [d] announces the payload [body] at offset
    [off], and [d] holds all of it; what follows is not looked at. *)
Record view (d : bytes) (lst : bool) (off : Z) (body : bytes) : Prop := {
  view_isList : isList d = lst;
  view_isData : isData d = negb lst;
  view_length : length d = Ok (zlen body);
  view_offset : payloadOffset d = off;
  view_single : isSingleByte d = true -> off = 0 /\ zlen body = 1;
  view_pos : 0 < off + zlen body;
  view_off_nonneg : 0 <= off;
  view_fits : off + zlen body <= zlen d;
  view_body : ztake (zlen body) (zdrop off d) = body
}.

Definition is_lst (t : Item) : bool := match t with Lst _ => true | Str _ => false end.

(** The payload of a tree. *)
Definition content (t : Item) : bytes :=
  match t with Str s => s | Lst l => concat (map encode l) end.

Lemma take_drop_mid (p b r : bytes) : ztake (zlen b) (zdrop (zlen p) (p ++ b ++ r)) = b.
Proof. by rewrite zdrop_app, ztake_app. Qed.

Lemma view_header_data s rest :
  zlen s < maxLength -> canonical_data (zlen s) (s ++ rest) ->
  view (header 0x80 0xb7 (zlen s) ++ s ++ rest) false (zlen (header 0x80 0xb7 (zlen s))) s.
Proof.
  intros Hs Hc. pose proof (prefix_header_data (zlen s) (s ++ rest) ltac:(lia)) as (H1 & H2 & H3 & H4).
  destruct (header_prefix 0x80 0xb7 (zlen s) ltac:(lia)) as (b & bs & Hh & _).
  split; try done; try lia.
  - by apply length_header_data; [lia|].
  - by rewrite H3.
  - rewrite Hh, zlen_cons. lia.
  - rewrite !zlen_app. lia.
  - apply take_drop_mid.
Qed.

Lemma view_header_list body rest :
  zlen body < maxLength ->
  view (header 0xc0 0xf7 (zlen body) ++ body ++ rest) true (zlen (header 0xc0 0xf7 (zlen body))) body.
Proof.
  intros Hs. pose proof (prefix_header_list (zlen body) (body ++ rest) ltac:(lia)) as (H1 & H2 & H3 & H4).
  destruct (header_prefix 0xc0 0xf7 (zlen body) ltac:(lia)) as (b & bs & Hh & _).
  split; try done; try lia.
  - apply length_header_list; lia.
  - by rewrite H3.
  - rewrite Hh, zlen_cons. lia.
  - rewrite !zlen_app. lia.
  - apply take_drop_mid.
Qed.

Lemma view_single_byte b rest :
  is_byte b -> b < 128 -> view (b :: rest) false 0 [b].
Proof.
  intros Hb Hlt. unfold is_byte in Hb.
  split; try (unfold isList, isData, payloadOffset, isSingleByte; rlp_consts; zbool; done).
  - rewrite length_cons by lia. zbool. done.
  - rewrite zlen_cons. cbn. lia.
Qed.

Lemma encode_str_cases s :
  (exists b, s = [b] /\ b < 128 /\ encode_str s = [b]) \/
  (encode_str s = header 0x80 0xb7 (zlen s) ++ s /\ forall rest, canonical_data (zlen s) (s ++ rest)).
Proof.
  unfold canonical_data. destruct s as [|b [|c s]].
  - right. split; [done|]. simpl. lia.
  - cbn [encode_str]. destruct (Z.ltb_spec b 128); [left; eauto|right].
    split; [done|]. intros rest _. exists b, rest. done.
  - right. split; [done|]. intros rest. rewrite !zlen_cons. lia.
Qed.

(** Every encoding, whatever follows it, is seen by the decoder as the view on
    the content of the tree. *)
Lemma view_encode t rest :
  encodable t ->
  view (encode t ++ rest) (is_lst t) (zlen (encode t) - zlen (content t)) (content t).
Proof.
  intros [Hok Hlen]. destruct t as [s|l]; cbn [encode content is_lst item_ok] in *.
  - destruct (encode_str_cases s) as [(b & -> & Hb & ->)|[He Hc]].
    + apply view_single_byte; [by inversion Hok|done].
    + rewrite He in *. rewrite zlen_app in *. rewrite <- app_assoc.
      replace (zlen (header 128 183 (zlen s)) + zlen s - zlen s)
        with (zlen (header 128 183 (zlen s))) by lia.
      apply view_header_data; [lia|done].
  - rewrite zlen_app in *. rewrite <- app_assoc.
    set (body := concat (map encode l)) in *.
    replace (zlen (header 192 247 (zlen body)) + zlen body - zlen body)
      with (zlen (header 192 247 (zlen body))) by lia.
    apply view_header_list. lia.
Qed.

(** The constructor at the two sets of flags the class itself uses. *)
Lemma make_small d :
  make d (Z.lor ThrowOnFail FailIfTooSmall) =
  let! a := actualSize d in if zlen d <? a then Err UndersizeRLP else Ok d.
Proof. done. Qed.

Lemma make_strict d :
  make d VeryStrict =
  let! a := actualSize d in
  if a <? zlen d then Err OversizeRLP else if zlen d <? a then Err UndersizeRLP else Ok d.
Proof.
  unfold make. change (has VeryStrict FailIfTooBig) with true.
  change (has VeryStrict ThrowOnFail) with true. change (has VeryStrict FailIfTooSmall) with true.
  cbv iota. destruct (actualSize d) as [a|e] eqn:E; [|done]. cbn [result_bind].
  destruct (a <? zlen d); [done|]. cbn [result_bind]. by rewrite E.
Qed.

Section WithView.
Context {d : bytes} {lst : bool} {off : Z} {body : bytes} (V : view d lst off body).

Lemma view_nonempty : isNull d = false.
Proof.
  unfold isNull. pose proof (view_pos _ _ _ _ V). pose proof (view_fits _ _ _ _ V). by zbool.
Qed.

Lemma view_actualSize : actualSize d = Ok (off + zlen body).
Proof.
  unfold actualSize. rewrite view_nonempty.
  destruct (isSingleByte d) eqn:Hs.
  - pose proof (view_single _ _ _ _ V Hs) as [-> ->]. done.
  - rewrite (view_isData _ _ _ _ V), (view_isList _ _ _ _ V).
    assert (negb lst || lst = true) as -> by (by destruct lst).
    rewrite (view_length _ _ _ _ V), (view_offset _ _ _ _ V). done.
Qed.

Lemma view_payload : zlen d < npos -> payload d = Ok body.
Proof.
  intros Hd. unfold payload. rewrite (view_length _ _ _ _ V). cbn [result_bind].
  pose proof (view_fits _ _ _ _ V). pose proof (view_off_nonneg _ _ _ _ V).
  destruct (Z.ltb_spec (zlen d) (zlen body)); [lia|].
  rewrite (view_offset _ _ _ _ V), cropped_spec by lia.
  by rewrite (view_body _ _ _ _ V).
Qed.

(** Construction succeeds unless a strictness flag rejects trailing bytes. *)
Lemma view_make_small : make d (Z.lor ThrowOnFail FailIfTooSmall) = Ok d.
Proof.
  rewrite make_small. rewrite view_actualSize. cbn [result_bind].
  pose proof (view_fits _ _ _ _ V). by zbool.
Qed.

Lemma view_make_strict : zlen d = off + zlen body -> make d VeryStrict = Ok d.
Proof.
  intros Hd. rewrite make_strict, view_actualSize. cbn [result_bind].
  by rewrite <- Hd, Z.ltb_irrefl.
Qed.

Lemma view_sizeAsEncoded : sizeAsEncoded d = Ok (off + zlen body).
Proof. unfold sizeAsEncoded. rewrite view_make_small. apply view_actualSize. Qed.

End WithView.

Section WithEncoding.
Context {t : Item} (Ht : encodable t) (rest : bytes).

Let V := view_encode t rest Ht.

Lemma encode_actualSize : actualSize (encode t ++ rest) = Ok (zlen (encode t)).
Proof. rewrite (view_actualSize V). f_equal. lia. Qed.

Lemma encode_sizeAsEncoded : sizeAsEncoded (encode t ++ rest) = Ok (zlen (encode t)).
Proof. rewrite (view_sizeAsEncoded V). f_equal. lia. Qed.

End WithEncoding.

Lemma encode_nonempty t : encodable t -> 0 < zlen (encode t).
Proof. intros Ht. pose proof (view_pos _ _ _ _ (view_encode t [] Ht)). lia. Qed.

Lemma encode_make t : encodable t -> make (encode t) VeryStrict = Ok (encode t).
Proof.
  intros Ht. pose proof (view_encode t [] Ht) as V. rewrite app_nil_r in V.
  apply (view_make_strict V). lia.
Qed.

Lemma encode_make_small t : encodable t -> make (encode t) (Z.lor ThrowOnFail FailIfTooSmall) = Ok (encode t).
Proof.
  intros Ht. pose proof (view_encode t [] Ht) as V. rewrite app_nil_r in V. apply (view_make_small V).
Qed.

(** A list all of whose items can be encoded. *)
Lemma encodable_Lst l :
  encodable (Lst l) ->
  Forall encodable l /\ zlen (concat (map encode l)) < maxLength.
Proof.
  intros [Hok Hlen]. apply item_ok_Lst in Hok. cbn [encode] in Hlen. rewrite zlen_app in Hlen.
  assert (Hb : zlen (concat (map encode l)) < maxLength) by lia. clear Hlen. split; [|done].
  induction Hok as [|t l Ht _ IH]; [constructor|]. cbn [map concat] in Hb. rewrite zlen_app in Hb.
  constructor; [split; [done|lia]|]. apply IH. lia.
Qed.

(** ** Items of an encoded list *)

(** Bytes that the decoder takes for one item, whatever follows them. *)
Record segment (s : bytes) : Prop := {
  seg_pos : 0 < zlen s;
  seg_size : forall rest, sizeAsEncoded (s ++ rest) = Ok (zlen s)
}.

Lemma segment_make_small s : segment s -> make s (Z.lor ThrowOnFail FailIfTooSmall) = Ok s.
Proof.
  intros [_ Hs]. specialize (Hs []). rewrite app_nil_r in Hs. unfold sizeAsEncoded in Hs.
  rewrite make_small in *. destruct (actualSize s) as [a|]; [|done]. cbn [result_bind] in *.
  by destruct (_ <? _).
Qed.

Lemma segment_encode t : encodable t -> segment (encode t).
Proof. intros Ht. split; [by apply encode_nonempty|]. intros. by apply encode_sizeAsEncoded. Qed.

Lemma segments_encode l : Forall encodable l -> Forall segment (map encode l).
Proof. induction 1; cbn; constructor; auto using segment_encode. Qed.

Lemma segments_length l : Forall segment l -> (List.length l <= List.length (concat l))%nat.
Proof.
  induction 1 as [|s l Hs _ IH]; [done|]. cbn [concat List.length]. rewrite length_app.
  pose proof (seg_pos s Hs). lia.
Qed.

Lemma items_loop_segments segs fuel i :
  Forall segment segs -> (List.length segs <= fuel)%nat -> items_loop fuel (concat segs) i = Ok (i + zlen segs).
Proof.
  intros HF. revert fuel i. induction HF as [|s l Hs HF IH]; intros fuel i Hf.
  { destruct fuel; simpl; f_equal; lia. }
  cbn [concat]. pose proof (seg_pos s Hs) as Hp. destruct fuel as [|f]; [simpl in Hf; lia|].
  pose proof (seg_size s Hs (concat l)) as Hz.
  assert (Hc : cropped_from (s ++ concat l) (zlen s) = concat l).
  { unfold cropped_from. rewrite zlen_app. zbool. by rewrite zdrop_app. }
  destruct (s ++ concat l) as [|b bs] eqn:E.
  { apply (f_equal List.length) in E. rewrite length_app in E. simpl in E. lia. }
  cbn [items_loop]. rewrite Hz. cbn [result_bind]. rewrite Hc, IH by (simpl in Hf; lia).
  rewrite zlen_cons. f_equal. lia.
Qed.

Lemma concat_encode_length l :
  Forall encodable l -> (List.length l <= List.length (concat (map encode l)))%nat.
Proof. intros Hl. pose proof (segments_length _ (segments_encode l Hl)) as H. by rewrite length_map in H. Qed.

Lemma maxLength_npos : maxLength < npos.
Proof. done. Qed.

Lemma encode_payload t : encodable t -> payload (encode t) = Ok (content t).
Proof.
  intros Ht. pose proof (view_encode t [] Ht) as V. rewrite app_nil_r in V.
  apply (view_payload V). destruct Ht. pose proof maxLength_npos. lia.
Qed.

Lemma encode_isList t : encodable t -> isList (encode t) = is_lst t.
Proof.
  intros Ht. pose proof (view_encode t [] Ht) as V. rewrite app_nil_r in V.
  apply (view_isList _ _ _ _ V).
Qed.

Lemma encode_isData t : encodable t -> isData (encode t) = negb (is_lst t).
Proof.
  intros Ht. pose proof (view_encode t [] Ht) as V. rewrite app_nil_r in V.
  apply (view_isData _ _ _ _ V).
Qed.

Lemma encode_length t : encodable t -> length (encode t) = Ok (zlen (content t)).
Proof.
  intros Ht. pose proof (view_encode t [] Ht) as V. rewrite app_nil_r in V.
  apply (view_length _ _ _ _ V).
Qed.

Lemma encode_items l : encodable (Lst l) -> items (encode (Lst l)) = Ok (zlen l).
Proof.
  intros Ht. unfold items. rewrite encode_isList, encode_payload by done. cbn [is_lst result_bind content].
  destruct (encodable_Lst l Ht) as [Hl _].
  rewrite items_loop_segments; [by rewrite length_map|by apply segments_encode|].
  rewrite length_map. by apply concat_encode_length.
Qed.

(** ** Indexing with the cache *)

(** What [operator[]] of a list with these items must return: the item, the null
    RLP past the end. *)
Definition seg_at (l : list bytes) (k : nat) : bytes :=
  match l !! k with Some s => s | None => [] end.
Definition item_at (l : list Item) (k : nat) : bytes :=
  match l !! k with Some t => encode t | None => [] end.

Lemma seg_at_encode l k : seg_at (map encode l) k = item_at l k.
Proof. unfold seg_at, item_at. rewrite list_lookup_fmap. by destruct (l !! k). Qed.

(** The cache holds position [k]. *)
Definition cache_at (l : list bytes) (k : nat) (c : cache) : Prop :=
  (k <= List.length l)%nat /\ m_lastIndex c = Z.of_nat k /\
  m_lastEnd c = zlen (concat (take (S k) l)) /\ m_lastItem c = seg_at l k.

(** The cache is as constructed, or holds some position. *)
Definition cache_ok (l : list bytes) (c : cache) : Prop :=
  m_lastIndex c = 2 ^ 64 - 1 \/ exists k, cache_at l k c.

Section Indexing.
Context (d : bytes) (l : list bytes).
Hypothesis Hl : Forall segment l.
Hypothesis Hd : payload d = Ok (concat l).
Hypothesis Hn : zlen (concat l) < npos.
Hypothesis Hlen : zlen (concat l) <= zlen d.

Lemma seg_split k s : l !! k = Some s -> concat l = concat (take k l) ++ s ++ concat (drop (S k) l).
Proof. intros Hk. rewrite <- (take_drop_middle l k s Hk) at 1. by rewrite concat_app. Qed.

Lemma segment_at k s : l !! k = Some s -> segment s.
Proof. intros Hk. rewrite Forall_lookup in Hl. eauto. Qed.

Lemma cropped_prefix (p r : bytes) : zlen (p ++ r) < npos -> cropped (p ++ r) 0 (zlen p) = p.
Proof.
  intros Hp. rewrite zlen_app in Hp. rewrite cropped_spec by (rewrite ?zlen_app; lia).
  by rewrite zdrop_0, ztake_app.
Qed.

(** The rest of the payload after [k] items, the size of its first item and
    that item. *)
Lemma rest_at k :
  (k <= List.length l)%nat ->
  let rest := cropped_from (concat l) (zlen (concat (take k l))) in
  sizeAsEncoded rest = Ok (zlen (seg_at l k)) /\ cropped rest 0 (zlen (seg_at l k)) = seg_at l k.
Proof.
  intros Hk rest. unfold seg_at. destruct (l !! k) as [s|] eqn:E.
  - pose proof (seg_split k s E) as Hs.
    assert (rest = s ++ concat (drop (S k) l)) as ->.
    { unfold rest. rewrite Hs. unfold cropped_from. rewrite zlen_app. zbool. by rewrite zdrop_app. }
    rewrite Hs, zlen_app in Hn. split; [apply (seg_size _ (segment_at k s E))|].
    apply cropped_prefix. lia.
  - apply lookup_ge_None in E.
    assert (rest = []) as ->.
    { unfold rest. rewrite take_ge by lia. unfold cropped_from. zbool. by rewrite zdrop_all. }
    done.
Qed.

Lemma take_S_concat k :
  zlen (concat (take (S k) l)) = zlen (concat (take k l)) + zlen (seg_at l k).
Proof.
  unfold seg_at. destruct (l !! k) as [s|] eqn:E.
  - rewrite (take_S_r _ _ _ E), concat_app, zlen_app. cbn. by rewrite app_nil_r.
  - apply lookup_ge_None in E. rewrite !take_ge by lia. cbn. lia.
Qed.

Lemma index_loop_spec fuel i k c :
  0 <= i -> cache_at l k c -> (List.length l - k < fuel)%nat ->
  exists c', index_loop fuel d i c = (Ok tt, c') /\
    (cache_at l (if Z.of_nat k <? i then Nat.min (Z.to_nat i) (List.length l) else k) c').
Proof.
  intros Hi. revert k c. induction fuel as [|f IH]; intros k c Hc Hf; [lia|].
  destruct Hc as (Hk & H1 & H2 & H3). cbn [index_loop]. rewrite H1, H3.
  destruct (Z.ltb_spec (Z.of_nat k) i) as [Hlt|]; cbn [andb]; [|by exists c].
  destruct (Z.eqb_spec (zlen (seg_at l k)) 0) as [He|He]; cbn [negb].
  { exists c. split; [done|]. assert (List.length l = k) as Hlk.
    { unfold seg_at in He. destruct (l !! k) as [s|] eqn:E; [|apply lookup_ge_None in E; lia].
      pose proof (seg_pos s (segment_at k s E)). cbn in He. lia. }
    rewrite Nat.min_r by lia. rewrite Hlk. by repeat split. }
  rewrite Hd, H2.
  assert (k < List.length l)%nat.
  { destruct (Nat.eq_dec k (List.length l)) as [->|]; [|lia].
    exfalso. apply He. unfold seg_at. by rewrite lookup_ge_None_2. }
  destruct (rest_at (S k) ltac:(lia)) as [Hs Hr]. rewrite Hs, Hr.
  destruct (IH (S k) {| m_lastIndex := Z.of_nat k + 1;
     m_lastEnd := zlen (concat (take (S k) l)) + zlen (seg_at l (S k));
     m_lastItem := seg_at l (S k) |}) as (c' & Hc' & Hat); [|lia|].
  { repeat split; cbn [m_lastIndex m_lastEnd]; [lia|lia|]. by rewrite (take_S_concat (S k)). }
  exists c'. rewrite Hc'. split; [done|].
  destruct (Z.ltb_spec (Z.of_nat (S k)) i); [done|]. by replace (Nat.min (Z.to_nat i) (List.length l)) with (S k) by lia.
Qed.

Lemma index_reset_spec i c :
  0 <= i < 2 ^ 64 - 1 -> cache_ok l c ->
  exists k c', index_reset d i c = (Ok tt, c') /\ cache_at l k c' /\ Z.of_nat k <= i.
Proof.
  intros Hi Hc. unfold index_reset. destruct (Z.ltb_spec i (m_lastIndex c)) as [Hlt|Hge].
  - rewrite Hd. destruct (rest_at 0 ltac:(lia)) as [Hs Hr].
    change (zlen (concat (take 0 l))) with 0 in Hs, Hr.
    rewrite cropped_from_0 in Hs, Hr. rewrite Hs, Hr.
    exists 0%nat. eexists. split; [done|]. split; [|lia].
    repeat split; cbn [m_lastEnd]; [lia|]. by rewrite take_S_concat.
  - destruct Hc as [Hc|(k & Hk)]; [lia|]. exists k, c. split; [done|]. split; [done|].
    destruct Hk as (_ & Hk & _). lia.
Qed.

(** [operator[]] on data whose payload is a sequence of items, whatever the cache
    holds. *)
Lemma index_segments i c :
  0 <= i < 2 ^ 64 - 1 -> cache_ok l c ->
  exists c', index d i c = (Ok (seg_at l (Z.to_nat i)), c') /\ cache_ok l c'.
Proof.
  intros Hi Hc. destruct (index_reset_spec i c Hi Hc) as (k & c1 & H1 & Hk & Hle).
  unfold index. rewrite H1.
  destruct (index_loop_spec (S (List.length d)) i k c1 ltac:(lia) Hk) as (c2 & H2 & Hat).
  { pose proof (segments_length l Hl). lia. }
  rewrite H2. exists c2. split; [|right; eauto].
  assert (m_lastItem c2 = seg_at l (Z.to_nat i)) as ->.
  { destruct Hat as (_ & _ & _ & ->). destruct (Z.ltb_spec (Z.of_nat k) i).
    - destruct (Nat.min_spec (Z.to_nat i) (List.length l)) as [[? ->]|[? ->]]; [done|].
      unfold seg_at. by rewrite !lookup_ge_None_2 by lia.
    - by replace (Z.to_nat i) with k by lia. }
  f_equal. unfold seg_at. destruct (l !! Z.to_nat i) as [s|] eqn:E; [|done].
  apply segment_make_small. by eapply segment_at.
Qed.

End Indexing.

Lemma cache_init_ok l : cache_ok l cache_init.
Proof. by left. Qed.

(** [operator[]] on an encoded list. *)
Lemma index_spec l i c :
  encodable (Lst l) -> 0 <= i < 2 ^ 64 - 1 -> cache_ok (map encode l) c ->
  exists c', index (encode (Lst l)) i c = (Ok (item_at l (Z.to_nat i)), c') /\ cache_ok (map encode l) c'.
Proof.
  intros Hl Hi Hc. destruct (encodable_Lst l Hl) as [HF Hb]. pose proof maxLength_npos.
  rewrite <- seg_at_encode. apply index_segments; [by apply segments_encode|by apply encode_payload|lia| |done|done].
  cbn [encode]. rewrite zlen_app. lia.
Qed.

(** ** Iteration over an encoded list *)

(** An iterator over [d] that is about to visit the encodings of [l], which the
    bytes [junk] separate from the end of [d]. *)
Definition iterates (d : bytes) (l : list Item) (junk : bytes) (it : iterator) : Prop :=
  exists off,
    m_currentItem it = Some (off, zlen (item_at l 0)) /\
    m_remaining it = zlen (concat (map encode (drop 1 l))) /\
    0 <= off /\ zdrop off d = concat (map encode l) ++ junk /\
    off + zlen (concat (map encode l)) + zlen junk = zlen d.

Lemma it_bytes_spec d l junk it : iterates d l junk it -> it_bytes d it = item_at l 0.
Proof.
  intros (off & H1 & _ & _ & H2 & _). unfold it_bytes. rewrite H1, H2.
  destruct l as [|t l]; [done|]. change (item_at (t :: l) 0) with (encode t).
  cbn [map concat]. rewrite <- app_assoc. apply ztake_app. done.
Qed.

Lemma it_next_spec d t l junk it :
  Forall encodable (t :: l) -> iterates d (t :: l) junk it ->
  exists it', it_next d it = Ok it' /\ iterates d l junk it'.
Proof.
  intros HF (off & H1 & H2 & H3 & H4 & H5).
  inversion HF as [|? ? Ht Hl]; subst.
  change (item_at (t :: l) 0) with (encode t) in H1. change (drop 1 (t :: l)) with l in H2.
  cbn [map concat] in H4, H5. rewrite zlen_app in H5. rewrite <- app_assoc in H4.
  assert (Hd : zdrop (off + zlen (encode t)) d = concat (map encode l) ++ junk).
  { unfold zdrop in *. rewrite Z2Nat.inj_add, Nat2Z.id, <- drop_drop, H4 by lia.
    by rewrite drop_app_length. }
  unfold it_next. rewrite H1, H2. destruct l as [|t' l].
  - eexists. split; [done|]. exists (off + zlen (encode t)). cbn in *. repeat split; try done; lia.
  - inversion Hl as [|? ? Ht' Hl']; subst. pose proof (encode_nonempty t' Ht').
    assert (zlen (concat (map encode (t' :: l))) <> 0) as Hnz
      by (cbn [map concat]; rewrite zlen_app; lia).
    destruct (Z.eqb_spec (zlen (concat (map encode (t' :: l)))) 0); [done|]. cbn [negb].
    rewrite Hd, ztake_app by done. cbn [map concat].
    rewrite encode_sizeAsEncoded by done. cbn [result_bind]. eexists. split; [done|].
    exists (off + zlen (encode t)). cbn [m_currentItem m_remaining].
    change (drop 1 (t' :: l)) with l. rewrite zlen_app.
    cbn [map concat] in H5. rewrite zlen_app in H5. cbn [map concat]. rewrite ?zlen_app. rewrite <- ?app_assoc.
    repeat split; try done; try lia; by rewrite Hd; cbn [map concat]; rewrite app_assoc.
Qed.

(** Without junk, the end iterator is reached exactly when nothing is left. *)
Lemma it_end_spec d l it :
  Forall encodable l -> iterates d l [] it ->
  it_eqb it {| m_remaining := 0; m_currentItem := Some (zlen d, 0) |} = bool_decide (l = []).
Proof.
  intros HF (off & H1 & _ & _ & _ & H5). unfold it_eqb. rewrite H1. cbn [m_currentItem].
  apply bool_decide_ext. destruct l as [|t l].
  - cbn in *. split; [done|]. intros _. repeat f_equal. lia.
  - split; [|done]. intros [= _ He]. inversion HF; subst.
    pose proof (encode_nonempty t ltac:(done)). cbn in He. lia.
Qed.

(** What a range-[for] collects: [f] of the encodings, in order. *)
Fixpoint collect {A} (f : bytes -> result exn A) (l : list Item) : result exn (list A) :=
  match l with
  | [] => Ok []
  | t :: l' =>
      let! a := f (encode t) in
      let! r := collect f l' in
      Ok (a :: r)
  end.

Lemma for_loop_spec {A} d (f : bytes -> result exn A) l fuel it ret :
  Forall encodable l -> iterates d l [] it -> (List.length l <= fuel)%nat ->
  for_loop fuel d f it {| m_remaining := 0; m_currentItem := Some (zlen d, 0) |} ret =
  let! r := collect f l in Ok (ret ++ r).
Proof.
  revert fuel it ret. induction l as [|t l IH]; intros fuel it ret HF Hit Hf.
  - destruct fuel; cbn [for_loop]; rewrite (it_end_spec _ _ _ HF Hit); cbn; by rewrite app_nil_r.
  - destruct fuel as [|n]; [simpl in Hf; lia|]. cbn [for_loop].
    rewrite (it_end_spec _ _ _ HF Hit), (it_bytes_spec _ _ _ _ Hit).
    change (item_at (t :: l) 0) with (encode t).
    inversion HF as [|? ? Ht Hl]; subst. rewrite encode_make by done. cbn [bool_decide result_bind].
    destruct (it_next_spec d t l [] it HF Hit) as (it' & -> & Hit').
    cbn [collect]. destruct (f (encode t)) as [a|e]; [|done]. cbn [result_bind].
    rewrite IH; [|done|done|simpl in Hf; lia].
    destruct (collect f l); [|done]. cbn. by rewrite <- app_assoc.
Qed.

Lemma it_make_begin l junk :
  encodable (Lst l) -> zlen (encode (Lst l) ++ junk) < npos ->
  exists it, it_make (encode (Lst l) ++ junk) true = Ok it /\
    iterates (encode (Lst l) ++ junk) l junk it.
Proof.
  intros Hl Hn. destruct (encodable_Lst l Hl) as [HF _].
  pose proof (view_encode (Lst l) junk Hl) as V. cbn [is_lst content] in V.
  unfold it_make. rewrite (view_isList _ _ _ _ V), (view_length _ _ _ _ V). cbn [andb result_bind].
  rewrite (view_payload V Hn). cbn [result_bind].
  assert (Hs : sizeAsEncoded (concat (map encode l)) = Ok (zlen (item_at l 0))).
  { destruct l as [|t l]; [done|]. inversion HF; subst. cbn [map concat]. by apply encode_sizeAsEncoded. }
  rewrite Hs. cbn [result_bind]. rewrite (view_offset _ _ _ _ V).
  set (body := concat (map encode l)) in *.
  eexists. split; [done|]. pose proof (view_fits _ _ _ _ V). pose proof (view_off_nonneg _ _ _ _ V).
  rewrite zlen_app in *.
  destruct (Z.leb_spec (zlen (encode (Lst l)) - zlen body + zlen body)
    (zlen (encode (Lst l)) + zlen junk)); [|lia].
  exists (zlen (encode (Lst l)) - zlen body). cbn [m_currentItem m_remaining].
  rewrite zlen_app. fold body. repeat split; try lia.
  - unfold body. destruct l as [|t l']; [done|].
    change (item_at (t :: l') 0) with (encode t). change (drop 1 (t :: l')) with l'.
    cbn [map concat]. rewrite zlen_app. lia.
  - cbn [encode]. fold body. rewrite <- app_assoc. apply zdrop_app. rewrite zlen_app. lia.
Qed.

(** A range-[for] over an encoded list terminates and visits every item once,
    in order. *)
Lemma for_each_encode {A} (f : bytes -> result exn A) l :
  encodable (Lst l) ->
  for_each (List.length (encode (Lst l))) (encode (Lst l)) f = collect f l.
Proof.
  intros Hl. destruct (encodable_Lst l Hl) as [HF _].
  destruct (it_make_begin l [] Hl) as (it & Hb & Hit).
  { rewrite app_nil_r. destruct Hl. pose proof maxLength_npos. lia. }
  rewrite app_nil_r in Hb, Hit. unfold for_each. rewrite Hb.
  cbn [result_bind]. change (it_make (encode (Lst l)) false) with
    (Ok (E:=exn) {| m_remaining := 0; m_currentItem := Some (zlen (encode (Lst l)), 0) |}).
  cbn [result_bind]. rewrite for_loop_spec with (l := l); [|done|done|].
  - destruct (collect f l); done.
  - pose proof (concat_encode_length l HF). cbn [encode]. rewrite length_app. lia.
Qed.

Lemma collect_Ok l : collect (fun i => Ok i) l = Ok (map encode l).
Proof. induction l as [|t l IH]; [done|]. cbn. by rewrite IH. Qed.

(** ** Reading trees back *)

Fixpoint depth (t : Item) : nat :=
  match t with
  | Str _ => 1
  | Lst l => S (fold_right (fun t n => Nat.max (depth t) n) 0%nat l)
  end.

Lemma toBytes_encode s fl : encodable (Str s) -> toBytes (encode (Str s)) fl = Ok s.
Proof.
  intros Hs. unfold toBytes. rewrite encode_isData, encode_payload, encode_length by done.
  cbn [is_lst negb result_bind content]. by rewrite Z.ltb_irrefl.
Qed.

Lemma read_encode t fuel : encodable t -> (depth t <= fuel)%nat -> read fuel (encode t) = Ok t.
Proof.
  revert fuel. induction t as [s|l IH] using Item_rect'; intros fuel Ht Hf;
    (destruct fuel as [|f]; [simpl in Hf; lia|]); cbn [read]; rewrite encode_isList by done; cbn [is_lst].
  - by rewrite toBytes_encode.
  - rewrite for_each_encode by done. destruct (encodable_Lst l Ht) as [HF _].
    enough (collect (read f) l = Ok l) as -> by done.
    assert (Hd : (fold_right (fun t n => Nat.max (depth t) n) 0%nat l <= f)%nat) by (simpl in Hf; lia).
    clear Ht Hf. induction IH as [|t l Hi _ IHl]; [done|]. inversion HF; subst. cbn [fold_right] in Hd.
    cbn [collect]. rewrite Hi by (done || lia). cbn [result_bind]. rewrite IHl by (done || lia). done.
Qed.

Lemma depth_encode t : encodable t -> (depth t <= List.length (encode t))%nat.
Proof.
  induction t as [s|l IH] using Item_rect'; intros Ht; pose proof (encode_nonempty _ Ht) as Hp.
  - simpl in *. lia.
  - destruct (encodable_Lst l Ht) as [HF _].
    assert (fold_right (fun t n => Nat.max (depth t) n) 0 l <= List.length (concat (map encode l)))%nat.
    { clear Ht Hp. induction IH as [|t l Hi _ IHl]; [done|]. inversion HF; subst.
      cbn [fold_right map concat]. rewrite length_app. specialize (Hi ltac:(done)).
      specialize (IHl ltac:(done)). lia. }
    cbn [depth encode]. rewrite length_app.
    assert (0 < List.length (header 192 247 (zlen (concat (map encode l)))))%nat; [|lia].
    unfold header. destruct (_ <? _); simpl; lia.
Qed.

(** ** Canonicity: what the decoder accepts *)

(** Different trees have different encodings. *)
Lemma encode_inj t t' : encodable t -> encodable t' -> encode t = encode t' -> t = t'.
Proof.
  intros Ht Ht' E. set (n := Nat.max (depth t) (depth t')).
  pose proof (read_encode t n Ht ltac:(lia)) as H. rewrite E, read_encode in H; [congruence|done|lia].
Qed.

Lemma compact_unique bs :
  bytes_ok bs -> (forall b r, bs = b :: r -> b <> 0) -> toCompactBigEndian (be_val bs) 0 = bs.
Proof.
  intros Hbs Hnz. pose proof (be_val_range bs Hbs) as Hr.
  unfold toCompactBigEndian. destruct bs as [|b r]; [done|].
  specialize (Hnz b r eq_refl). inversion Hbs as [|? ? Hb Hr']; subst.
  pose proof (be_val_range r Hr') as Hrr. unfold is_byte in Hb.
  assert (Hv : 0 < be_val (b :: r)) by (cbn [be_val]; nia).
  assert (bytesRequired (be_val (b :: r)) = zlen (b :: r)) as ->.
  { apply Z.le_antisymm; [apply bytesRequired_le; lia|].
    pose proof (bytesRequired_bound (be_val (b :: r)) ltac:(lia)) as [Hu Hp].
    destruct (Z.le_gt_cases (zlen (b :: r)) (bytesRequired (be_val (b :: r)))) as [|Hgt]; [done|].
    assert (256 ^ bytesRequired (be_val (b :: r)) <= 256 ^ zlen r).
    { apply Z.pow_le_mono_r; [lia|]. rewrite zlen_cons in Hgt. lia. }
    cbn [be_val] in *. nia. }
  rewrite Z.max_r by lia. rewrite Nat2Z.id. by apply toBigEndian_be_val.
Qed.

(** A long length the decoder accepts is the one the specification writes. *)
Lemma long_length_inv b d ls l :
  bytes_ok d -> 1 <= ls -> long_length (b :: d) ls 56 = Ok l ->
  56 <= l < maxLength /\ ls = zlen (toCompactBigEndian l 0) /\
  exists rest, d = toCompactBigEndian l 0 ++ rest.
Proof.
  intros Hd Hls. unfold long_length. rewrite zlen_cons.
  destruct (Z.leb_spec (zlen d + 1) ls); [done|].
  destruct d as [|c d']; [cbn in *; lia|].
  change (ref_at (b :: c :: d') 1) with (@Ok exn Z c). cbn [result_bind].
  destruct (Z.eqb_spec c 0) as [->|Hc].
  { destruct (1 <? _); cbn; destruct (8 <? ls); done. }
  rewrite andb_false_r. destruct (Z.ltb_spec 8 ls); [done|].
  set (bs := ztake ls (c :: d')). set (rest := zdrop ls (c :: d')).
  assert (Hsplit : c :: d' = bs ++ rest) by (symmetry; apply take_drop).
  assert (Hbs : zlen bs = ls) by (apply zlen_ztake; lia).
  assert (Hok : bytes_ok bs) by (by apply bytes_ok_ztake).
  rewrite Hsplit. replace (Z.to_nat ls) with (List.length bs) by lia.
  pose proof (length_loop_spec [b] bs rest 0 0 eq_refl ltac:(lia)) as HL. cbn [app] in HL.
  rewrite HL. cbn [result_bind]. fold (fromBigEndian 64 bs). rewrite fromBigEndian_spec by (done || lia).
  rewrite wrap_small; cycle 1.
  { pose proof (be_val_range bs Hok). unfold uint_ok. change (2 ^ 64) with (256 ^ 8).
    assert (256 ^ zlen bs <= 256 ^ 8) by (apply Z.pow_le_mono_r; lia). lia. }
  destruct (Z.ltb_spec (be_val bs) 56); [done|]. unfold maxLength.
  destruct (Z.leb_spec (2 ^ 64 - 1 - 256) (be_val bs)); [done|]. intros [= <-].
  rewrite compact_unique; [|done|].
  - split; [lia|]. split; [done|]. by exists rest.
  - intros x r Hx. rewrite Hx in Hsplit. injection Hsplit as <- _. done.
Qed.

Lemma isNull_cons b d : isNull (b :: d) = false.
Proof. unfold isNull. rewrite zlen_cons. by zbool. Qed.

(** When [length] returns, the prefix was canonical for a single byte. *)
Lemma length_canonical n d l :
  length (n :: d) = Ok l -> n = 129 -> exists b r, d = b :: r /\ 128 <= b.
Proof.
  intros H ->. unfold length, requireGood in H. rewrite isNull_cons, ref_at_0 in H. rlp_consts.
  cbn [result_bind] in H. change (negb (129 =? 128 + 1)) with false in H. cbv iota in H.
  rewrite zlen_cons in H. destruct (Z.ltb_spec (zlen d + 1) 2); [done|].
  destruct d as [|b r]; [cbn in *; lia|].
  change (ref_at (129 :: b :: r) 1) with (@Ok exn Z b) in H. cbn [result_bind] in H.
  destruct (Z.ltb_spec b 128); [done|]. eauto.
Qed.

Lemma length_inv_list d l :
  bytes_ok d -> isList d = true -> length d = Ok l ->
  0 <= l < maxLength /\ exists rest, d = header 0xc0 0xf7 l ++ rest.
Proof.
  intros Hd Hlst Hl. destruct d as [|n d]; [done|].
  unfold isList in Hlst. rlp_consts. apply Z.leb_le in Hlst.
  inversion Hd as [|? ? Hn Hd']; subst. unfold is_byte in Hn.
  rewrite length_cons in Hl by lia. unfold maxLength, header.
  destruct (Z.ltb_spec n 128); [lia|]. destruct (Z.leb_spec n 183); [lia|].
  destruct (Z.ltb_spec n 192); [lia|]. destruct (Z.leb_spec n 247).
  - injection Hl as <-. split; [lia|]. exists d. zbool. f_equal. lia.
  - apply long_length_inv in Hl as (Hr & Hls & rest & ->); [|done|lia].
    unfold maxLength in Hr. split; [lia|]. exists rest. zbool. f_equal. lia.
Qed.

Lemma length_inv_data d l :
  bytes_ok d -> isData d = true -> length d = Ok l ->
  0 <= l < maxLength /\
  ((exists b rest, d = b :: rest /\ l = 1 /\ 0 <= b < 128) \/
   isSingleByte d = false /\ exists rest, d = header 0x80 0xb7 l ++ rest /\ canonical_data l rest).
Proof.
  intros Hd Hdat Hl. destruct d as [|n d]; [done|].
  unfold isData in Hdat. unfold isSingleByte. rlp_consts. apply Z.ltb_lt in Hdat.
  inversion Hd as [|? ? Hn Hd']; subst. unfold is_byte in Hn.
  pose proof (length_canonical n d l Hl) as Hc.
  rewrite length_cons in Hl by done. unfold maxLength, header, canonical_data.
  destruct (Z.ltb_spec n 128).
  { injection Hl as <-. split; [lia|]. left. exists n, d. split; [done|]. lia. }
  destruct (Z.leb_spec n 183).
  - injection Hl as <-. split; [lia|]. right. split; [done|]. exists d. zbool.
    split; [f_equal; lia|]. intros. apply Hc. lia.
  - destruct (Z.ltb_spec n 192); [|lia].
    apply long_length_inv in Hl as (Hr & Hls & rest & ->); [|done|lia].
    unfold maxLength in Hr. split; [lia|]. right. split; [done|]. exists rest. zbool.
    split; [f_equal; lia|]. lia.
Qed.

Lemma isData_not_isList d : isData d = negb (isNull d) && negb (isList d).
Proof.
  destruct d as [|n d]; [done|]. rewrite isNull_cons. unfold isData, isList. rlp_consts. by zbool.
Qed.

(** A string that passes the strict constructor is exactly one view. *)
Lemma make_strict_inv d d' :
  bytes_ok d -> make d VeryStrict = Ok d' ->
  d' = d /\ (d = [] \/ exists lst off body, view d lst off body /\ zlen d = off + zlen body /\
    (lst = true -> d = header 0xc0 0xf7 (zlen body) ++ body) /\
    (lst = false -> encode_str body = d)).
Proof.
  intros Hd. rewrite make_strict. destruct (actualSize d) as [a|] eqn:Ha; [|done].
  cbn [result_bind]. destruct (Z.ltb_spec a (zlen d)); [done|].
  destruct (Z.ltb_spec (zlen d) a); [done|]. intros [= <-]. split; [done|].
  assert (a = zlen d) as -> by lia. destruct d as [|n d]; [by left|right].
  unfold actualSize in Ha. rewrite isNull_cons, isData_not_isList, isNull_cons in Ha.
  assert (Hl : exists l, length (n :: d) = Ok l).
  { destruct (isSingleByte (n :: d)) eqn:Hs.
    - unfold isSingleByte in Hs. rlp_consts. rewrite length_cons; [rewrite Hs; eauto|].
      apply Z.ltb_lt in Hs. lia.
    - destruct (negb false && negb (isList (n :: d)) || isList (n :: d)) eqn:E;
        [|by destruct (isList (n :: d))].
      apply result_bind_Ok in Ha. destruct Ha as (l & Hl & _). eauto. }
  destruct Hl as (l & Hl). rewrite Hl in Ha. cbn [result_bind] in Ha.
  destruct (isList (n :: d)) eqn:Hlst.
  - destruct (length_inv_list _ _ Hd Hlst Hl) as (Hr & rest & Hrest).
    pose proof (prefix_header_list l rest Hr) as (P1 & P2 & P3 & P4). rewrite <- Hrest in P1, P2, P3, P4.
    rewrite P3, P4 in Ha. cbn [negb andb orb] in Ha. injection Ha as Ha.
    assert (zlen rest = l) as <-
      by (apply (f_equal (fun x => zlen x)) in Hrest; rewrite zlen_app, zlen_cons in Hrest; lia).
    exists true, (zlen (header 0xc0 0xf7 (zlen rest))), rest.
    pose proof (view_header_list rest [] ltac:(lia)) as V. rewrite app_nil_r, <- Hrest in V.
    split; [done|]. rewrite Hrest at 1. rewrite zlen_app. done.
  - assert (Hdat : isData (n :: d) = true) by (by rewrite isData_not_isList, isNull_cons, Hlst).
    destruct (length_inv_data _ _ Hd Hdat Hl) as (Hr & [(b & rest & E & -> & Hb)|(Hs & rest & Hrest & Hc)]).
    + injection E as -> ->. assert (isSingleByte (b :: rest) = true) as Hs
        by (unfold isSingleByte; rlp_consts; by zbool).
      rewrite Hs in Ha. injection Ha as Ha. destruct rest; [|cbn in Ha; lia].
      exists false, 0, [b]. split; [apply view_single_byte; [unfold is_byte|]; lia|].
      split; [done|]. split; [done|]. intros _. cbn. by zbool.
    + pose proof (prefix_header_data l rest Hr) as (P1 & P2 & P3 & P4). rewrite <- Hrest in P1, P2, P3, P4.
      rewrite P3, P4 in Ha. cbn [negb andb orb] in Ha. injection Ha as Ha.
      assert (zlen rest = l) as <-
      by (apply (f_equal (fun x => zlen x)) in Hrest; rewrite zlen_app, zlen_cons in Hrest; lia).
      exists false, (zlen (header 0x80 0xb7 (zlen rest))), rest.
      pose proof (view_header_data rest [] ltac:(lia)) as V. rewrite app_nil_r in V.
      specialize (V Hc). rewrite <- Hrest in V.
      split; [done|]. split; [rewrite Hrest at 1; rewrite zlen_app; done|]. split; [done|]. intros _.
      rewrite Hrest. destruct (encode_str_cases rest) as [(b & -> & Hb & _)|[-> _]]; [|done].
      destruct (Hc eq_refl) as (b' & r' & [= <- <-] & Hb'). lia.
Qed.

(** ** The decoder on arbitrary bytes *)

(** The exceptions the source itself throws. *)
Definition source_exn (e : exn) : Prop :=
  e = BadRLP \/ e = OversizeRLP \/ e = UndersizeRLP \/ e = BadCast.

Lemma ref_at_in d i : 0 <= i < zlen d -> exists b, ref_at d i = Ok b.
Proof.
  intros Hi. unfold ref_at, zat. destruct (Z.ltb_spec i 0); [lia|].
  destruct (d !! Z.to_nat i) as [b|] eqn:E; [by exists b|]. apply lookup_ge_None in E. lia.
Qed.

Ltac in_source := first [done | by left | by right; left | by right; right; left | by right; right; right].

Lemma requireGood_source d : throws_only source_exn (requireGood d).
Proof.
  unfold requireGood, isNull. destruct (Z.eqb_spec (zlen d) 0); [in_source|].
  destruct (ref_at_in d 0 ltac:(lia)) as (b & ->). cbn [result_bind].
  destruct (negb _); [done|]. destruct (Z.ltb_spec (zlen d) 2); [in_source|].
  destruct (ref_at_in d 1 ltac:(lia)) as (c & ->). cbn [result_bind]. destruct (_ <? _); in_source.
Qed.

Lemma length_loop_in d n i ret :
  0 <= i -> i + Z.of_nat n < zlen d -> exists v, length_loop d n i ret = Ok v.
Proof.
  revert i ret. induction n as [|n IH]; intros i ret Hi Hn; [by exists ret|].
  cbn [length_loop]. destruct (ref_at_in d (i + 1) ltac:(lia)) as (b & ->). cbn [result_bind].
  apply IH; lia.
Qed.

Lemma long_length_source d ls lim : 1 <= ls -> throws_only source_exn (long_length d ls lim).
Proof.
  intros Hls. unfold long_length. destruct (Z.leb_spec (zlen d) ls); [in_source|].
  destruct (ref_at_in d 1 ltac:(lia)) as (c & ->). cbn [result_bind].
  destruct (_ && _); [in_source|]. destruct (8 <? ls); [in_source|].
  destruct (c =? 0); [in_source|].
  destruct (length_loop_in d (Z.to_nat ls) 0 0 ltac:(lia) ltac:(lia)) as (v & ->). cbn [result_bind].
  destruct (_ <? _); [in_source|]. destruct (_ <=? _); in_source.
Qed.

Lemma length_source d : throws_only source_exn (length d).
Proof.
  unfold length, isNull. destruct (Z.eqb_spec (zlen d) 0); [done|].
  apply throws_only_bind; [apply requireGood_source|]. intros _ _.
  destruct (ref_at_in d 0 ltac:(lia)) as (n0 & ->). cbn [result_bind]. rlp_consts.
  destruct (_ <? _); [done|]. destruct (Z.leb_spec n0 183); [done|].
  destruct (_ <? _); [apply long_length_source; lia|].
  destruct (Z.leb_spec n0 247); [done|]. apply long_length_source; lia.
Qed.

Lemma actualSize_source d : throws_only source_exn (actualSize d).
Proof.
  unfold actualSize. destruct (isNull d); [done|]. destruct (isSingleByte d); [done|].
  destruct (_ || _); [|done]. apply throws_only_bind; [apply length_source|done].
Qed.

Lemma payload_source d : throws_only source_exn (payload d).
Proof.
  unfold payload. apply throws_only_bind; [apply length_source|]. intros. destruct (_ <? _); in_source.
Qed.

Lemma make_small_source d : throws_only source_exn (make d (Z.lor ThrowOnFail FailIfTooSmall)).
Proof.
  rewrite make_small. apply throws_only_bind; [apply actualSize_source|].
  intros. destruct (_ <? _); in_source.
Qed.

Lemma make_strict_source d : throws_only source_exn (make d VeryStrict).
Proof.
  rewrite make_strict. apply throws_only_bind; [apply actualSize_source|].
  intros. destruct (_ <? _); [in_source|]. destruct (_ <? _); in_source.
Qed.

Lemma sizeAsEncoded_source d : throws_only source_exn (sizeAsEncoded d).
Proof.
  apply throws_only_bind; [apply make_small_source|]. intros. apply actualSize_source.
Qed.

Lemma length_nonneg d l : bytes_ok d -> length d = Ok l -> 0 <= l.
Proof.
  intros Hd Hl. destruct d as [|n d]; [by injection Hl as <-|].
  destruct (isList (n :: d)) eqn:E.
  - apply (length_inv_list _ _ Hd E Hl).
  - apply (length_inv_data _ _ Hd); [|done]. by rewrite isData_not_isList, isNull_cons, E.
Qed.

Lemma payloadOffset_pos d : isSingleByte d = false -> d <> [] -> 1 <= payloadOffset d.
Proof.
  intros Hs Hd. unfold payloadOffset. rewrite Hs. unfold lengthSize. destruct d as [|n d]; [done|].
  destruct (isData (n :: d) && (c_rlpDataIndLenZero <? n)) eqn:E1.
  { apply andb_true_iff in E1 as [_ ?%Z.ltb_lt]. lia. }
  destruct (isList (n :: d) && (c_rlpListIndLenZero <? n)) eqn:E2; [|lia].
  apply andb_true_iff in E2 as [_ ?%Z.ltb_lt]. lia.
Qed.

(** The size the decoder finds for the first item fits in the bytes, and is not
    zero unless there are none. *)
Lemma sizeAsEncoded_range d n :
  bytes_ok d -> sizeAsEncoded d = Ok n -> 0 <= n <= zlen d /\ (d <> [] -> 1 <= n).
Proof.
  intros Hd. unfold sizeAsEncoded. rewrite make_small, result_bind_assoc.
  destruct (actualSize d) as [a|] eqn:Ha; [|done]. cbn [result_bind].
  destruct (Z.ltb_spec (zlen d) a); [done|]. cbn [result_bind]. rewrite Ha. intros [= <-].
  enough (0 <= a /\ (d <> [] -> 1 <= a)) as [Ha0 Ha1] by (split; [lia|done]).
  unfold actualSize in Ha. destruct d as [|b d]; [injection Ha as <-; split; [lia|done]|].
  rewrite isNull_cons in Ha. destruct (isSingleByte (b :: d)) eqn:Hs;
    [injection Ha as <-; split; intros; lia|].
  rewrite isData_not_isList, isNull_cons in Ha.
  destruct (isList (b :: d)); cbn [negb andb orb] in Ha;
    apply result_bind_Ok in Ha as (l & Hl & [= <-]);
    pose proof (length_nonneg _ _ Hd Hl); pose proof (payloadOffset_pos _ Hs ltac:(done)); split; intros; lia.
Qed.

(** An iterator over the tail of [d] that starts at [off]. *)
Definition scanning (d : bytes) (it : iterator) (off : Z) : Prop :=
  exists n, m_currentItem it = Some (off, n) /\ m_remaining it = zlen d - off - n /\
    0 <= off /\ 0 <= n /\ off + n <= zlen d /\ (off < zlen d -> 1 <= n).

Lemma it_next_scanning d it off :
  bytes_ok d -> scanning d it off ->
  match it_next d it with
  | Ok it' => exists n, m_currentItem it = Some (off, n) /\ scanning d it' (off + n)
  | Err e => source_exn e
  end.
Proof.
  intros Hd (n & H1 & H2 & H3 & H4 & H5 & H6). unfold it_next. rewrite H1, H2.
  destruct (Z.eqb_spec (zlen d - off - n) 0); cbn [negb].
  - exists n. split; [done|]. exists 0. cbn. repeat split; lia.
  - assert (Htail : ztake (zlen d - off - n) (zdrop (off + n) d) = zdrop (off + n) d).
    { apply ztake_all. rewrite zlen_zdrop; lia. }
    rewrite Htail. pose proof (sizeAsEncoded_source (zdrop (off + n) d)) as Hsrc.
    destruct (sizeAsEncoded (zdrop (off + n) d)) as [m|e] eqn:Hs; [|done]. cbn [result_bind].
    apply sizeAsEncoded_range in Hs as [Hm Hm1]; [|by apply bytes_ok_zdrop].
    rewrite zlen_zdrop in Hm by lia.
    assert (zdrop (off + n) d <> []).
    { intros Hn. apply (f_equal (fun x => zlen x)) in Hn. rewrite zlen_zdrop in Hn by lia. cbn in Hn. lia. }
    exists n. split; [done|]. exists m. cbn [m_currentItem m_remaining]. specialize (Hm1 ltac:(done)).
    repeat split; lia.
Qed.

Section Reading.
(** [f] reads what passes the strict constructor, and is right when it returns. *)
Context (bound : Z) (f : bytes -> result exn Item).
Hypothesis f_spec : forall r,
  bytes_ok r -> make r VeryStrict = Ok r -> zlen r < bound ->
  match f r with Ok a => encode a = r /\ item_ok a | Err e => source_exn e end.

Lemma for_loop_scanning d fuel it off ret :
  bytes_ok d -> scanning d it off -> zlen d - off < bound -> zlen d - off <= Z.of_nat fuel ->
  match for_loop fuel d f it {| m_remaining := 0; m_currentItem := Some (zlen d, 0) |} ret with
  | Ok res => exists l, res = ret ++ l /\ concat (map encode l) = zdrop off d /\ Forall item_ok l
  | Err e => source_exn e
  end.
Proof.
  intros Hd. revert it off ret.
  induction fuel as [|fuel IH]; intros it off ret Hit Hb Hf; cbn [for_loop];
    destruct (it_eqb it _) eqn:Hend.
  1, 3: unfold it_eqb in Hend; apply bool_decide_eq_true in Hend; destruct Hit as (n & Hc & _);
    rewrite Hc in Hend; injection Hend as -> ->; exists [];
    rewrite app_nil_r, zdrop_all by lia; done.
  { destruct Hit as (n & Hc & _ & H3 & H4 & H5 & _). unfold it_eqb in Hend.
    apply bool_decide_eq_false in Hend. rewrite Hc in Hend. exfalso. apply Hend. cbn. repeat f_equal; lia. }
  pose proof (it_next_scanning d it off Hd Hit) as Hnext.
  destruct Hit as (n & Hc & Hrem & H3 & H4 & H5 & H6).
  unfold it_bytes. rewrite Hc. set (r := ztake n (zdrop off d)).
  assert (Hr : bytes_ok r) by (by apply bytes_ok_ztake, bytes_ok_zdrop).
  assert (Hrl : zlen r = n) by (apply zlen_ztake; rewrite zlen_zdrop; lia).
  pose proof (make_strict_source r) as Hms. destruct (make r VeryStrict) as [r'|e] eqn:Hm; [|done].
  destruct (make_strict_inv r r' Hr Hm) as [-> _]. cbn [result_bind].
  pose proof (f_spec r Hr Hm ltac:(lia)) as Hfr. destruct (f r) as [a|e]; [|done]. cbn [result_bind].
  destruct (it_next d it) as [it'|e]; [|done]. cbn [result_bind].
  destruct Hnext as (n' & Hc' & Hit'). rewrite Hc in Hc'. injection Hc' as <-.
  destruct (Z.eq_dec n 0) as [Hn0|].
  { exfalso. unfold it_eqb in Hend. apply bool_decide_eq_false in Hend. apply Hend. rewrite Hc. cbn.
    repeat f_equal; lia. }
  specialize (IH it' (off + n) (ret ++ [a]) Hit' ltac:(lia) ltac:(lia)).
  destruct (for_loop _ _ _ _ _ _) as [res|e]; [|done]. destruct IH as (l & -> & Hcat & Hok).
  exists (a :: l). rewrite <- app_assoc. split; [done|]. destruct Hfr as [Ha Hai].
  split; [|by constructor]. cbn [map concat]. rewrite Ha, Hcat. unfold r, ztake, zdrop.
  rewrite Z2Nat.inj_add, <- drop_drop by lia. apply take_drop.
Qed.

Lemma for_each_view d off body :
  bytes_ok d -> view d true off body -> zlen d = off + zlen body -> zlen d < npos ->
  zlen body < bound ->
  match for_each (List.length d) d f with
  | Ok l => concat (map encode l) = body /\ Forall item_ok l
  | Err e => source_exn e
  end.
Proof.
  intros Hd V Hlen Hn Hb. unfold for_each, it_make. rewrite (view_isList _ _ _ _ V). cbn [andb].
  rewrite (view_length _ _ _ _ V). cbn [result_bind]. rewrite (view_payload V Hn). cbn [result_bind].
  pose proof (view_off_nonneg _ _ _ _ V) as Hoff.
  assert (Hbody : body = zdrop off d).
  { pose proof (view_body _ _ _ _ V) as H. rewrite ztake_all in H; [done|]. rewrite zlen_zdrop; lia. }
  assert (Hbok : bytes_ok body) by (rewrite Hbody; by apply bytes_ok_zdrop).
  pose proof (sizeAsEncoded_source body) as Hsrc.
  destruct (sizeAsEncoded body) as [n|e] eqn:Hs; [|done]. cbn [result_bind].
  apply sizeAsEncoded_range in Hs as [Hs1 Hs2]; [|done]. rewrite (view_offset _ _ _ _ V).
  destruct (Z.leb_spec (off + zlen body) (zlen d)); [|lia].
  match goal with |- context [for_loop _ _ _ ?it _ _] =>
    pose proof (for_loop_scanning d (List.length d) it off [] Hd) as HL end.
  destruct (for_loop _ _ _ _ _ _) as [res|e].
  - destruct HL as (l & -> & Hc & Hok); [|lia|lia|by rewrite Hbody].
    exists n. cbn. repeat split; try lia. intros. apply Hs2. intros ->. cbn in *. lia.
  - apply HL; [|lia|lia]. exists n. cbn. repeat split; try lia. intros. apply Hs2. intros ->. cbn in *. lia.
Qed.

End Reading.

(** [read] on what passes the strict constructor: it returns the tree whose
    encoding was read, or throws one of the source's exceptions. *)
Lemma read_spec fuel d :
  bytes_ok d -> make d VeryStrict = Ok d -> zlen d < npos -> zlen d < Z.of_nat fuel ->
  match read fuel d with Ok t => encode t = d /\ item_ok t | Err e => source_exn e end.
Proof.
  revert d. induction fuel as [|f IH]; intros d Hd Hm Hn Hf; [lia|]. cbn [read].
  destruct (make_strict_inv d d Hd Hm) as [_ [->|(lst & off & body & V & Hlen & Hlst & Hdat)]].
  { cbn. in_source. }
  rewrite (view_isList _ _ _ _ V). pose proof (view_off_nonneg _ _ _ _ V).
  destruct lst.
  - specialize (Hlst eq_refl).
    assert (Hoff : 1 <= off).
    { apply (f_equal (fun x => zlen x)) in Hlst. rewrite zlen_app in Hlst.
      assert (1 <= zlen (header 192 247 (zlen body))); [|lia].
      unfold header. destruct (_ <? _); [done|]. rewrite zlen_cons. lia. }
    pose proof (for_each_view (zlen d) (read f)) as HF.
    specialize (HF ltac:(intros r Hr Hmr Hrl; apply IH; auto; lia) d off body Hd V Hlen Hn ltac:(lia)).
    destruct (for_each _ _ _) as [l|e]; [|done]. cbn [result_bind]. destruct HF as [Hc Hok].
    split; [|by apply item_ok_Lst]. cbn [encode]. by rewrite Hc.
  - unfold toBytes. rewrite (view_isData _ _ _ _ V). cbn [negb].
    rewrite (view_payload V Hn), (view_length _ _ _ _ V). cbn [result_bind].
    rewrite Z.ltb_irrefl. cbn [result_bind encode]. split; [by apply Hdat|]. cbn.
    rewrite <- (view_body _ _ _ _ V). by apply bytes_ok_ztake, bytes_ok_zdrop.
Qed.

(** ** Integers and hashes *)

Lemma requireGood_encode t : encodable t -> requireGood (encode t) = Ok tt.
Proof.
  intros Ht. pose proof (encode_length t Ht) as Hl. unfold length in Hl.
  pose proof (encode_nonempty t Ht) as Hp. unfold isNull in Hl.
  destruct (Z.eqb_spec (zlen (encode t)) 0); [lia|].
  apply result_bind_Ok in Hl as (u & -> & _). by destruct u.
Qed.

(** The canonical form of an integer has no leading zero byte. *)
Definition canonical_int (s : bytes) : bool :=
  match s with [] => true | b :: _ => negb (b =? 0) end.

Lemma isInt_header n s :
  s <> [] -> zlen s = n -> 0 < n < maxLength -> canonical_data n s ->
  isInt (header 0x80 0xb7 n ++ s) = Ok (canonical_int s).
Proof.
  intros Hs Hlen Hn Hc. destruct s as [|b r]; [done|]. cbn [canonical_int].
  assert (Hg : requireGood (header 128 183 n ++ b :: r) = Ok tt).
  { pose proof (length_header_data n (b :: r) ltac:(lia) Hc) as H. unfold length in H.
    destruct (isNull _) eqn:E; [injection H as H; lia|].
    apply result_bind_Ok in H as (u & -> & _). by destruct u. }
  unfold isInt. destruct (isNull _) eqn:E.
  { unfold isNull in E. apply Z.eqb_eq in E. rewrite zlen_app, zlen_cons in E. lia. }
  rewrite Hg. cbn [result_bind]. rlp_consts. unfold header. destruct (Z.ltb_spec n 56).
  - cbn [app]. rewrite ref_at_0. cbn [result_bind]. rewrite zlen_cons.
    destruct (Z.ltb_spec (128 + n) 128); [lia|]. destruct (Z.eqb_spec (128 + n) 128); [lia|].
    destruct (Z.leb_spec (128 + n) 183); [|lia].
    destruct (Z.leb_spec (zlen (b :: r) + 1) 1); [lia|]. done.
  - pose proof (compact_small n ltac:(lia)) as [Hl _]. set (c := toCompactBigEndian n 0) in *.
    cbn [app]. rewrite ref_at_0. cbn [result_bind].
    destruct (Z.ltb_spec (183 + zlen c) 128); [lia|]. destruct (Z.eqb_spec (183 + zlen c) 128); [lia|].
    destruct (Z.leb_spec (183 + zlen c) 183); [lia|]. destruct (Z.ltb_spec (183 + zlen c) 192); [|lia].
    rewrite zlen_cons, zlen_app.
    destruct (Z.leb_spec (zlen c + zlen (b :: r) + 1) (1 + (183 + zlen c) - 183));
      [rewrite zlen_cons in *; lia|].
    unfold ref_at. replace (1 + (183 + zlen c) - 183) with (1 + zlen c) by lia.
    pose proof (zat_app_r ((183 + zlen c) :: c) (b :: r) (1 + zlen c)) as Hz.
    rewrite zlen_cons in Hz. specialize (Hz ltac:(lia)). cbn [app] in Hz. rewrite Hz.
    replace (1 + zlen c - (zlen c + 1)) with 0 by lia. done.
Qed.

Lemma isInt_encode s : encodable (Str s) -> isInt (encode (Str s)) = Ok (canonical_int s).
Proof.
  intros Hs. destruct Hs as [Hok Hlen]. cbn [encode item_ok] in *.
  destruct (encode_str_cases s) as [(b & -> & Hb & ->)|[He Hc]].
  - inversion Hok as [|? ? Hbb _]; subst. unfold is_byte in Hbb. cbn [canonical_int].
    unfold isInt, requireGood. rewrite isNull_cons, ref_at_0. cbn [result_bind]. rlp_consts.
    change (128 + 1) with 129. destruct (Z.eqb_spec b 129); [lia|]. cbn [negb result_bind].
    destruct (Z.ltb_spec b 128); [done|lia].
  - rewrite He in *. rewrite zlen_app in Hlen. destruct s as [|b s]; [done|].
    apply isInt_header; [done|done|rewrite zlen_cons in *; lia|].
    specialize (Hc []). by rewrite app_nil_r in Hc.
Qed.

Lemma toInt_encode w s :
  0 <= w -> encodable (Str s) ->
  toInt w (encode (Str s)) Strict =
  if negb (canonical_int s) || (w / 8 <? zlen s) then Err BadCast else Ok (wrap w (be_val s)).
Proof.
  intros Hw Hs. unfold toInt. rewrite requireGood_encode, isInt_encode by done. cbn [result_bind].
  rewrite encode_isList by done. cbn [is_lst].
  change (has Strict AllowNonCanon) with false. change (has Strict ThrowOnFail) with true.
  change (has Strict FailIfTooBig) with true. cbn [negb]. rewrite andb_true_r, orb_false_r.
  assert (isNull (encode (Str s)) = false) as ->.
  { unfold isNull. pose proof (encode_nonempty _ Hs). by zbool. }
  rewrite orb_false_r. destruct (canonical_int s) eqn:E; cbn [negb orb]; [|done].
  rewrite encode_payload by done. cbn [result_bind content]. rewrite andb_true_r.
  destruct (w / 8 <? zlen s); [done|].
  rewrite fromBigEndian_spec; [done|done|]. by destruct Hs.
Qed.

Lemma pow_256_div w : 0 <= w -> w mod 8 = 0 -> 256 ^ (w / 8) = 2 ^ w.
Proof.
  intros Hw Hw8. pose proof (Z.div_mod w 8 ltac:(lia)) as Hdiv. rewrite Hw8 in Hdiv.
  change 256 with (2 ^ 8). rewrite <- Z.pow_mul_r; [f_equal; lia|lia|]. apply Z.div_pos; lia.
Qed.

(** Strict conversion takes the canonical strings that fit. *)
Lemma toInt_canonical w s :
  0 < w -> w mod 8 = 0 -> encodable (Str s) ->
  toInt w (encode (Str s)) Strict =
    (if canonical_int s && (zlen s <=? w / 8) then Ok (be_val s) else Err BadCast).
Proof.
  intros Hw Hw8 Hs. rewrite toInt_encode by (done || lia).
  assert (Hok : bytes_ok s) by (by destruct Hs). pose proof (be_val_range s Hok) as Hr.
  destruct (canonical_int s); [|done]. cbn [negb orb andb].
  destruct (Z.ltb_spec (w / 8) (zlen s)), (Z.leb_spec (zlen s) (w / 8)); try lia; [done|].
  f_equal. apply wrap_small. unfold uint_ok. rewrite <- pow_256_div by (done || lia).
  assert (256 ^ zlen s <= 256 ^ (w / 8)) by (apply Z.pow_le_mono_r; lia). lia.
Qed.

(** The shortest bytes of a number are read back. *)
Lemma toInt_compact w v :
  0 < w -> w mod 8 = 0 -> encodable (Str (toCompactBigEndian v 0)) -> uint_ok w v ->
  toInt w (encode (Str (toCompactBigEndian v 0))) Strict = Ok v.
Proof.
  intros Hw Hw8 Hs [Hv0 Hv1]. rewrite toInt_canonical by done.
  rewrite toCompactBigEndian_length, be_val_toCompactBigEndian by lia.
  assert (canonical_int (toCompactBigEndian v 0) = true) as ->.
  { destruct (Z.eq_dec v 0) as [->|]; [done|].
    destruct (toCompactBigEndian_head v ltac:(lia)) as (b & bs & -> & Hb). cbn. by zbool. }
  pose proof (bytesRequired_le v (w / 8) ltac:(rewrite pow_256_div by (done || lia); lia) ltac:(apply Z.div_pos; lia)).
  cbn [andb]. destruct (Z.leb_spec (bytesRequired v) (w / 8)); [done|lia].
Qed.

Lemma toHash_encode N s :
  encodable (Str s) ->
  toHash N (encode (Str s)) VeryStrict = if bool_decide (List.length s = N) then Ok s else Err BadCast.
Proof.
  intros Hs. unfold toHash. rewrite requireGood_encode, encode_payload, encode_isData by done.
  cbn [result_bind content is_lst negb orb].
  change (has VeryStrict ThrowOnFail) with true. change (has VeryStrict FailIfTooBig) with true.
  change (has VeryStrict FailIfTooSmall) with true. rewrite !andb_true_r.
  case_bool_decide as Hc.
  - destruct (Z.ltb_spec (Z.of_nat N) (zlen s)); [lia|].
    destruct (Z.ltb_spec (zlen s) (Z.of_nat N)); [lia|]. cbn [orb].
    rewrite <- Hc, Nat.min_id, Nat.sub_diag, take_ge by lia. done.
  - destruct (Z.ltb_spec (Z.of_nat N) (zlen s)); [done|].
    destruct (Z.ltb_spec (zlen s) (Z.of_nat N)); [done|]. lia.
Qed.

(** ** Endless iteration *)

Lemma for_loop_stuck {A} d (f : bytes -> result exn A) fuel it off ret :
  m_currentItem it = Some (off, 0) -> m_remaining it = 0 -> off <> zlen d ->
  (forall r, exists a, f r = Ok a) ->
  for_loop fuel d f it {| m_remaining := 0; m_currentItem := Some (zlen d, 0) |} ret = Err NoFuel.
Proof.
  intros Hc Hr Ho Hf. revert it off ret Hc Hr Ho.
  induction fuel as [|n IH]; intros it off ret Hc Hr Ho; cbn [for_loop];
    (assert (it_eqb it {| m_remaining := 0; m_currentItem := Some (zlen d, 0) |} = false) as ->
      by (unfold it_eqb; apply bool_decide_eq_false; rewrite Hc; cbn; congruence)); [done|].
  unfold it_bytes. rewrite Hc. change (ztake 0 (zdrop off d)) with (@nil Z).
  change (make [] VeryStrict) with (@Ok exn bytes []). cbn [result_bind].
  destruct (Hf []) as (a & ->). cbn [result_bind].
  unfold it_next. rewrite Hc, Hr. cbn [Z.eqb negb result_bind].
  apply IH with (off := off + 0); cbn; [done|done|lia].
Qed.

Lemma for_loop_junk {A} d (f : bytes -> result exn A) l junk fuel it ret :
  Forall encodable l -> iterates d l junk it -> junk <> [] -> (forall r, exists a, f r = Ok a) ->
  for_loop fuel d f it {| m_remaining := 0; m_currentItem := Some (zlen d, 0) |} ret = Err NoFuel.
Proof.
  intros HF Hit Hj Hf. assert (0 < zlen junk) by (destruct junk; [done|rewrite zlen_cons; lia]).
  revert fuel it ret Hit. induction HF as [|t l Ht HF IH]; intros fuel it ret Hit.
  - destruct Hit as (off & H1 & H2 & _ & _ & H5). eapply for_loop_stuck; eauto. cbn in H5. lia.
  - destruct fuel as [|n].
    + cbn [for_loop]. destruct (it_eqb it _) eqn:E; [|done].
      unfold it_eqb in E. apply bool_decide_eq_true in E. destruct Hit as (off & H1 & _ & _ & _ & H5).
      rewrite H1 in E. injection E as _ E. pose proof (encode_nonempty t Ht). cbn in E. lia.
    + cbn [for_loop]. destruct (it_eqb it _) eqn:E.
      { unfold it_eqb in E. apply bool_decide_eq_true in E. destruct Hit as (off & H1 & _ & _ & _ & H5).
        rewrite H1 in E. injection E as _ E. pose proof (encode_nonempty t Ht). cbn in E. lia. }
      rewrite (it_bytes_spec _ _ _ _ Hit). change (item_at (t :: l) 0) with (encode t).
      rewrite encode_make by done. cbn [result_bind]. destruct (Hf (encode t)) as (a & ->). cbn [result_bind].
      destruct (it_next_spec d t l junk it ltac:(by constructor) Hit) as (it' & -> & Hit'). by apply IH.
Qed.

(** ** Properties *)

(** Accesses [d[i]] for the indices [ixs] in order, on one object. *)
Fixpoint index_seq (d : bytes) (ixs : list Z) (c : cache) : list (result exn bytes) :=
  match ixs with
  | [] => []
  | i :: ixs' => let '(r, c') := index d i c in r :: index_seq d ixs' c'
  end.

(** C10: reading the encoding of a tree gives the tree back, for every tree of
    strings and lists whose encoding the decoder's length limit admits. *)
Theorem decode_encode (t : Item) : encodable t -> decode (encode t) = Ok t.
Proof.
  intros Ht. unfold decode. rewrite encode_make by done. cbn [result_bind].
  apply read_encode; [done|]. pose proof (depth_encode t Ht). lia.
Qed.

Lemma decode_encode_witness :
  decode (encode (Lst [Str [0x63; 0x61; 0x74]; Lst []; Str [0x80]; Str (replicate 60 7)])) =
  Ok (Lst [Str [0x63; 0x61; 0x74]; Lst []; Str [0x80]; Str (replicate 60 7)]).
Proof.
  apply decode_encode. split; [|vm_compute; reflexivity].
  cbn. unfold bytes_ok, is_byte. repeat split; repeat constructor; lia.
Defined.

(** C11: on any bytes at all, the decoder terminates and either throws one of the
    exceptions of the source (no assertion trips, nothing is read through a null
    view), or returns a tree whose encoding is exactly those bytes: it accepts
    canonical encodings only. *)
Theorem decode_canonical (d : bytes) :
  bytes_ok d -> zlen d < npos ->
  match decode d with
  | Ok t => encode t = d /\ item_ok t
  | Err e => source_exn e
  end.
Proof.
  intros Hd Hn. unfold decode. pose proof (make_strict_source d) as Hs.
  destruct (make d VeryStrict) as [d'|e] eqn:Hm; [|done].
  destruct (make_strict_inv d d' Hd Hm) as [-> _]. cbn [result_bind].
  apply read_spec; [done|done|done|lia].
Qed.

Lemma decode_canonical_witness :
  decode [0xc3; 0x81; 0x05; 0x80] = Err BadRLP /\
  match decode [0xc2; 0x05; 0x80] with
  | Ok t => encode t = [0xc2; 0x05; 0x80] /\ item_ok t
  | Err e => source_exn e
  end.
Proof.
  split; [reflexivity|]. apply decode_canonical; [|vm_compute; reflexivity].
  unfold bytes_ok, is_byte. repeat constructor; lia.
Defined.

(** Indexing the items of an encoded list in any order, through the shared
    position cache, always gives the item asked for, and the null RLP past the
    end of the list. *)
Theorem index_seq_spec (l : list Item) (ixs : list Z) :
  encodable (Lst l) -> Forall (fun i => 0 <= i < 2 ^ 64 - 1) ixs ->
  index_seq (encode (Lst l)) ixs cache_init = map (fun i => Ok (item_at l (Z.to_nat i))) ixs.
Proof.
  intros Hl His. generalize (cache_init_ok (map encode l)). generalize cache_init.
  induction His as [|i ixs Hi _ IH]; intros c Hc; [done|]. cbn [index_seq map].
  destruct (index_spec l i c Hl Hi Hc) as (c' & -> & Hc'). by rewrite IH.
Qed.

Lemma index_seq_spec_witness :
  index_seq (encode (Lst [Str [1]; Str [2; 3]; Lst []])) [2; 0; 1; 7; 1] cache_init =
  [Ok [0xc0]; Ok [1]; Ok [0x82; 2; 3]; Ok []; Ok [0x82; 2; 3]].
Proof.
  apply (index_seq_spec [Str [1]; Str [2; 3]; Lst []] [2; 0; 1; 7; 1]).
  - split; [|vm_compute; reflexivity].
    cbn. unfold bytes_ok, is_byte. repeat split; repeat constructor; lia.
  - repeat constructor; lia.
Defined.

(** converting an encoded list collects the encodings of its items in order,
    and [itemCount] is their number. *)
Theorem toList_encode (l : list Item) (_flags : Z) :
  encodable (Lst l) ->
  toList (encode (Lst l)) _flags = Ok (map encode l) /\ itemCount (encode (Lst l)) = Ok (zlen l).
Proof.
  intros Hl. unfold toList, toList_fuel, itemCount. rewrite encode_isList by done.
  cbn [is_lst negb]. rewrite for_each_encode by done. by rewrite collect_Ok, encode_items.
Qed.

Lemma toList_encode_witness :
  toList (encode (Lst [Str [1]; Lst [Str []]])) Strict = Ok [[1]; [0xc1; 0x80]] /\
  itemCount (encode (Lst [Str [1]; Lst [Str []]])) = Ok 2.
Proof.
  apply (toList_encode [Str [1]; Lst [Str []]] Strict). split; [|vm_compute; reflexivity].
  cbn. unfold bytes_ok, is_byte. repeat split; repeat constructor; lia.
Defined.

(** strict conversion of an encoded string to a [w]-bit integer rejects
    leading zeros and strings longer than the type, and is otherwise the
    big-endian value; so the canonical form of every [w]-bit integer is read
    back. *)
Theorem toInt_strict (w : Z) (s : bytes) :
  0 < w -> w mod 8 = 0 -> encodable (Str s) ->
  toInt w (encode (Str s)) Strict =
    (if canonical_int s && (zlen s <=? w / 8) then Ok (be_val s) else Err BadCast) /\
  (forall v, s = toCompactBigEndian v 0 -> uint_ok w v -> toInt w (encode (Str s)) Strict = Ok v).
Proof. intros Hw Hw8 Hs. split; [by apply toInt_canonical|]. intros v -> Hv. by apply toInt_compact. Qed.

Lemma toInt_strict_witness :
  toInt 16 (encode (Str [0x12; 0x34])) Strict = Ok 0x1234 /\
  toInt 16 (encode (Str [0; 0x34])) Strict = Err BadCast.
Proof.
  split.
  - apply (proj1 (toInt_strict 16 [0x12; 0x34] ltac:(lia) ltac:(reflexivity)
      ltac:(split; [unfold item_ok, bytes_ok, is_byte; repeat constructor; lia|vm_compute; reflexivity]))).
  - apply (proj1 (toInt_strict 16 [0; 0x34] ltac:(lia) ltac:(reflexivity)
      ltac:(split; [unfold item_ok, bytes_ok, is_byte; repeat constructor; lia|vm_compute; reflexivity]))).
Defined.

(** the position cache of [operator[]] is not exception safe: a list whose
    second item is malformed serves its first item on a fresh object, but once
    an access to the second item has thrown, the first access throws too. *)
Theorem index_after_exception :
  exists d c, make d VeryStrict = Ok d /\ fst (index d 0 cache_init) = Ok [1] /\
    index d 1 cache_init = (Err BadRLP, c) /\ fst (index d 0 c) = Err BadRLP.
Proof.
  exists [0xc2; 1; 0xb8], {| m_lastIndex := 0; m_lastEnd := 1; m_lastItem := [0xb8] |}.
  vm_compute. auto.
Qed.

(** A range-[for] over a list that is followed by other bytes (an object
    constructed without [FailIfTooBig]) never ends: the position after the last
    item is not the end of the data, and advancing does not move it. *)
Theorem iteration_endless (l : list Item) (junk : bytes) (fuel : nat) (_flags : Z) :
  encodable (Lst l) -> junk <> [] -> zlen (encode (Lst l) ++ junk) < npos ->
  make (encode (Lst l) ++ junk) LaissezFaire = Ok (encode (Lst l) ++ junk) /\
  toList_fuel fuel (encode (Lst l) ++ junk) _flags = Err NoFuel.
Proof.
  intros Hl Hj Hn. split; [done|]. unfold toList_fuel.
  rewrite (view_isList _ _ _ _ (view_encode (Lst l) junk Hl)). cbn [is_lst negb].
  destruct (it_make_begin l junk Hl Hn) as (it & Hb & Hit). unfold for_each. rewrite Hb.
  cbn [result_bind]. change (it_make (encode (Lst l) ++ junk) false) with
    (Ok (E:=exn) {| m_remaining := 0; m_currentItem := Some (zlen (encode (Lst l) ++ junk), 0) |}).
  cbn [result_bind]. apply for_loop_junk with (l := l) (junk := junk); eauto.
  apply (encodable_Lst l Hl).
Qed.

Lemma iteration_endless_witness :
  make ([0xc1; 5] ++ [0]) LaissezFaire = Ok ([0xc1; 5] ++ [0]) /\
  toList_fuel 1000 ([0xc1; 5] ++ [0]) Strict = Err NoFuel.
Proof.
  apply (iteration_endless [Str [5]] [0] 1000 Strict); [|done|vm_compute; reflexivity].
  split; [|vm_compute; reflexivity]. cbn. unfold bytes_ok, is_byte. repeat split; repeat constructor; lia.
Defined.

End RLP.
