(* ===== verification/RlpStream.v ===== *)
(** * RlpStream: the RLP encoder (libdevcore/RLP.h and RLP.cpp, [RLPStream])

    The stream keeps its output bytes and a stack of open lists; each append
    closes the lists that are complete, moving their content to make room for
    the list header. The theorems relate any well-bracketed use of the stream to
    the encoding function of [Rlp]. *)

From stdpp Require Import base list numbers option.
From Stdlib Require Import ZArith Lia.
From S2P Require Import Prelude.
From S2P Require Import Bytes.
From S2P Require Import Rlp.
Import VectorRef CommonData RLP.

Module RLPStream.

(** The places that throw [RLPException], by their comment. *)
Inductive stream_exn :=
| ItemCountTooLarge | ItemCountTooLargeForRLP | NumberTooLarge | CountTooLarge
| ListStackNotEmpty.

(** [m_listStack.back()] is the head of [m_listStack]: the number of items the
    innermost open list still expects, and where its content starts. *)
Record stream := { m_out : bytes; m_listStack : list (Z * Z) }.

Abbreviation Str_M A := (M stream stream_exn A).

(** [RLPStream()]. *)
Definition empty : stream := {| m_out := []; m_listStack := [] |}.

Definition set_out (o : bytes) (s : stream) : stream :=
  {| m_out := o; m_listStack := m_listStack s |}.
Definition set_stack (k : list (Z * Z)) (s : stream) : stream :=
  {| m_out := m_out s; m_listStack := k |}.

Definition push_back (b : Z) : Str_M unit := mput (fun s => set_out (m_out s ++ [b]) s).

(** [for (; _i; _i >>= 8) *(b--) = (byte)_i]: [b] is an index into the output.
    One iteration per byte, so [1 + log2 _i] iterations are more than enough. *)
Fixpoint writeBack (fuel : nat) (o : bytes) (b _i : Z) : bytes :=
  match fuel with
  | O => o
  | S f => if _i =? 0 then o
           else writeBack f (<[Z.to_nat b := _i mod 256]> o) (b - 1) (Z.shiftr _i 8)
  end.
Definition write_fuel (_i : Z) : nat := S (Z.to_nat (Z.log2 _i)).

(** [pushInt]. *)
Definition pushInt (_i _br : Z) : Str_M unit :=
  mput (fun s =>
    let o := m_out s ++ replicate (Z.to_nat _br) 0 in
    set_out (writeBack (write_fuel _i) o (zlen o - 1) _i) s).

(** [pushCount]. *)
Definition pushCount (_count _base : Z) : Str_M unit :=
  let br := bytesRequired _count in
  if 0xff <? br + _base then mthrow CountTooLarge else
  exec! push_back (wrap 8 (br + _base)) in
  pushInt _count br.

(** The body of the [else] of [noteAppended]: the list that started at [p] is
    complete; move its content and write the header. The stack is popped
    already. *)
Definition closeList (p : Z) : Str_M unit := fun st =>
  let o := m_out st in
  let s := wrap 64 (zlen o - p) in
  let brs := bytesRequired s in
  let encodeSize := if s <? c_rlpListImmLenCount then 1 else 1 + brs in
  let o1 := o ++ replicate (Z.to_nat encodeSize) 0 in
  let o2 := ztake (p + encodeSize) o1 ++ zdrop p o in
  if s <? c_rlpListImmLenCount then
    (Ok tt, set_out (<[Z.to_nat p := wrap 8 (c_rlpListStart + s)]> o2) st)
  else if c_rlpListIndLenZero + brs <=? 0xff then
    (Ok tt, set_out (writeBack (write_fuel s)
                       (<[Z.to_nat p := wrap 8 (c_rlpListIndLenZero + brs)]> o2) (p + brs) s) st)
  else (Err ItemCountTooLargeForRLP, set_out o2 st).

(** The [while] of [noteAppended]: at most one iteration per open list. *)
Fixpoint noteAppended_loop (stack : list (Z * Z)) (_itemCount : Z) : Str_M unit :=
  match stack with
  | [] => mret tt
  | (first, second) :: rest =>
      if first <? _itemCount then mthrow ItemCountTooLarge else
      exec! mput (set_stack ((first - _itemCount, second) :: rest)) in
      if negb (first - _itemCount =? 0) then mret tt else
      exec! mput (set_stack rest) in
      exec! closeList second in
      noteAppended_loop rest 1
  end.

Definition noteAppended (_itemCount : Z) : Str_M unit :=
  if _itemCount =? 0 then mret tt else
  fun st => noteAppended_loop (m_listStack st) _itemCount st.

Definition appendRaw (_s : bytes) (_itemCount : Z) : Str_M unit :=
  exec! mput (fun st => set_out (m_out st ++ _s) st) in
  noteAppended _itemCount.

(** [appendList(bytesConstRef)]. *)
Definition appendList_bytes (_rlp : bytes) : Str_M unit :=
  exec! (if zlen _rlp <? c_rlpListImmLenCount
       then push_back (wrap 8 (zlen _rlp + c_rlpListStart))
       else pushCount (zlen _rlp) c_rlpListIndLenZero) in
  appendRaw _rlp 1.

(** [appendList(size_t)]. *)
Definition appendList (_items : Z) : Str_M unit :=
  if negb (_items =? 0)
  then mput (fun st => set_stack ((_items, zlen (m_out st)) :: m_listStack st) st)
  else appendList_bytes [].

(** The loop of [append] that skips leading zeros. *)
Fixpoint skipZeros (d : bytes) : bytes :=
  match d with
  | b :: d' => if b =? 0 then skipZeros d' else d
  | [] => []
  end.

(** [append(bytesConstRef, bool)]. *)
Definition append (_s : bytes) (_compact : bool) : Str_M unit :=
  let d := if _compact then skipZeros _s else _s in
  let s := zlen d in
  exec! (if (s =? 1) && (default 0 (zat d 0) <? c_rlpDataImmLenStart)
       then push_back (default 0 (zat d 0))
       else
         exec! (if s <? c_rlpDataImmLenCount
              then push_back (wrap 8 (s + c_rlpDataImmLenStart))
              else pushCount s c_rlpDataIndLenZero) in
         appendRaw d 0) in
  noteAppended 1.

(** [append(bigint)]; every caller passes a non-negative number. *)
Definition append_bigint (_i : Z) : Str_M unit :=
  exec! (if _i =? 0 then push_back c_rlpDataImmLenStart
       else if _i <? c_rlpDataImmLenStart then push_back (wrap 8 _i)
       else
         let br := wrap 32 (bytesRequired _i) in
         exec! (if br <? c_rlpDataImmLenCount
              then push_back (wrap 8 (br + c_rlpDataImmLenStart))
              else
                let brbr := bytesRequired br in
                if 0xff <? c_rlpDataIndLenZero + brbr then mthrow NumberTooLarge else
                exec! push_back (wrap 8 (c_rlpDataIndLenZero + brbr)) in
                pushInt br brbr) in
         pushInt _i br) in
  noteAppended 1.

(** [append(FixedHash<N>, bool, bool)]. *)
Definition append_hash (_s : bytes) (_compact _allOrNothing : bool) : Str_M unit :=
  if _allOrNothing && negb (FixedHash.to_bool _s) then append [] false else append _s _compact.

(** [append(RLP const&, size_t)]. *)
Definition append_rlp (_rlp : bytes) (_itemCount : Z) : Str_M unit := appendRaw _rlp _itemCount.

(** The range-[for] of the container overloads. *)
Definition append_each {A} (app : A -> Str_M unit) : list A -> Str_M unit :=
  fix each _s :=
    match _s with
    | [] => mret tt
    | i :: s' => exec! app i in each s'
    end.

(** [appendVector], and [append] of [std::array], [std::set] and
    [std::unordered_set], whose elements are visited in the order of [_s]. *)
Definition appendVector {A} (app : A -> Str_M unit) (_s : list A) : Str_M unit :=
  exec! appendList (zlen _s) in append_each app _s.

(** [append(std::pair)]. *)
Definition append_pair {A B} (appA : A -> Str_M unit) (appB : B -> Str_M unit) (_s : A * B) : Str_M unit :=
  exec! appendList 2 in exec! appA (fst _s) in appB (snd _s).

Definition clear : Str_M unit := mput (fun _ => empty).

(** [out] and [invalidate]. *)
Definition out (s : stream) : result stream_exn bytes :=
  match m_listStack s with [] => Ok (m_out s) | _ => Err ListStackNotEmpty end.

(** ** Lemmas *)

Lemma bytesRequired_div v : 0 < v -> bytesRequired (v / 256) = bytesRequired v - 1.
Proof.
  intros Hv. rewrite !bytesRequired_spec by (try apply Z.div_pos; lia).
  change 256 with (2 ^ 8). rewrite <- Z.shiftr_div_pow2 by lia.
  destruct (Z.eqb_spec v 0); [lia|].
  destruct (Z.eqb_spec (Z.shiftr v 8) 0) as [E|E].
  - apply Z.shiftr_eq_0_iff in E. destruct E as [|[_ E]]; [lia|].
    rewrite (Z.div_small (Z.log2 v) 8); [lia|]. pose proof (Z.log2_nonneg v). lia.
  - assert (8 <= Z.log2 v).
    { apply Z.nlt_ge. intros Hl. apply E. apply Z.shiftr_eq_0; lia. }
    rewrite Z.log2_shiftr by lia. rewrite Z.max_r by lia.
    replace (Z.log2 v - 8) with (Z.log2 v + (-1) * 8) by lia.
    rewrite Z.div_add by lia. lia.
Qed.

Lemma bytesRequired_pos v : 0 < v -> 1 <= bytesRequired v.
Proof.
  intros Hv. destruct (bytesRequired_bound v ltac:(lia)) as [H1 H2].
  destruct (Z.eq_dec (bytesRequired v) 0) as [E|]; [|lia]. rewrite E in H1. cbn in H1. lia.
Qed.

Lemma insert_at {A} (p : list A) x y r i :
  i = zlen p -> <[Z.to_nat i := y]> (p ++ x :: r) = p ++ y :: r.
Proof.
  intros ->. rewrite Nat2Z.id. rewrite insert_app_r_alt by lia.
  rewrite Nat.sub_diag. done.
Qed.

(** Writing backwards fills a hole of the right size with the big-endian bytes. *)
Lemma writeBack_spec fuel v pre hole post :
  0 <= v -> (v = 0 \/ Z.log2 v < Z.of_nat fuel) -> zlen hole = bytesRequired v ->
  writeBack fuel (pre ++ hole ++ post) (zlen pre + zlen hole - 1) v =
  pre ++ toCompactBigEndian v 0 ++ post.
Proof.
  revert v hole post. induction fuel as [|fuel IH]; intros v hole post Hv Hf Hh; cbn [writeBack].
  - destruct Hf as [->|Hf]; [|pose proof (Z.log2_nonneg v); lia].
    change (bytesRequired 0) with 0 in Hh. destruct hole; [done|cbn in Hh; lia].
  - destruct (Z.eqb_spec v 0) as [->|Hv0].
    { change (bytesRequired 0) with 0 in Hh. destruct hole; [done|cbn in Hh; lia]. }
    pose proof (bytesRequired_pos v ltac:(lia)).
    destruct (exists_last (l := hole)) as (hole' & h & ->); [intros ->; change (0 = bytesRequired v) in Hh; lia|].
    rewrite zlen_app in Hh |- *. cbn [List.length] in Hh |- *. rename hole' into hole.
    replace (pre ++ (hole ++ [h]) ++ post) with ((pre ++ hole) ++ h :: post) by (by rewrite <- !app_assoc).
    rewrite insert_at by (rewrite zlen_app; lia).
    rewrite <- app_assoc.
    replace (zlen pre + (zlen hole + Z.of_nat 1) - 1 - 1) with (zlen pre + zlen hole - 1) by lia.
    rewrite Z.shiftr_div_pow2 by lia. change (2 ^ 8) with 256.
    rewrite IH.
    + unfold toCompactBigEndian. rewrite !Z.max_r by (apply bytesRequired_bound; try apply Z.div_pos; lia).
      rewrite bytesRequired_div by lia.
      replace (Z.to_nat (bytesRequired v)) with (S (Z.to_nat (bytesRequired v - 1))) by lia.
      rewrite toBigEndian_S. by rewrite <- app_assoc.
    + apply Z.div_pos; lia.
    + destruct (Z.lt_ge_cases v 256); [left; apply Z.div_small; lia|right].
      pose proof (Z.log2_le_mono 256 v ltac:(lia)). change (Z.log2 256) with 8 in *.
      change 256 with (2 ^ 8). rewrite <- Z.shiftr_div_pow2, Z.log2_shiftr by lia. lia.
    + rewrite bytesRequired_div by lia. lia.
Qed.

Lemma write_fuel_ok v : 0 <= v -> v = 0 \/ Z.log2 v < Z.of_nat (write_fuel v).
Proof. intros. right. unfold write_fuel. pose proof (Z.log2_nonneg v). lia. Qed.

Lemma pushInt_spec v st :
  0 <= v ->
  pushInt v (bytesRequired v) st = (Ok tt, set_out (m_out st ++ toCompactBigEndian v 0) st).
Proof.
  intros Hv. unfold pushInt, mput. do 3 f_equal.
  pose proof (proj2 (bytesRequired_bound v Hv)).
  pose proof (writeBack_spec (write_fuel v) v (m_out st) (replicate (Z.to_nat (bytesRequired v)) 0) []
    Hv (write_fuel_ok v Hv)) as W.
  rewrite length_replicate, !app_nil_r in W. rewrite <- W by lia. f_equal.
  rewrite zlen_app, length_replicate. lia.
Qed.

Lemma wrap8_small v : 0 <= v < 256 -> wrap 8 v = v.
Proof. intros. apply wrap_small. unfold uint_ok. lia. Qed.

Lemma bytesRequired_64 n : 0 <= n < 2 ^ 64 -> bytesRequired n <= 8.
Proof. intros. apply bytesRequired_le; [change (256 ^ 8) with (2 ^ 64)|]; lia. Qed.

Lemma pushCount_spec n base st :
  0 <= base <= 0xf7 -> 0 <= n < 2 ^ 64 ->
  pushCount n base st =
  (Ok tt, set_out (m_out st ++ (base + zlen (toCompactBigEndian n 0)) :: toCompactBigEndian n 0) st).
Proof.
  intros Hb Hn. pose proof (bytesRequired_64 n Hn). pose proof (bytesRequired_bound n ltac:(lia)).
  unfold pushCount. destruct (Z.ltb_spec 0xff (bytesRequired n + base)); [lia|].
  unfold push_back. erewrite mbind_Ok by reflexivity. rewrite pushInt_spec by lia.
  rewrite wrap8_small by lia. rewrite toCompactBigEndian_length by lia. cbn [m_out set_out].
  rewrite <- app_assoc. cbn [app]. by rewrite (Z.add_comm _ base).
Qed.

(** What [append] and [appendList(bytes)] push in front of [n] bytes. *)
Lemma push_header_spec imm ind n st :
  0 <= imm <= 0xc0 -> 0 <= ind <= 0xf7 -> 0 <= n < 2 ^ 64 ->
  (if n <? 56 then push_back (wrap 8 (n + imm)) else pushCount n ind) st =
  (Ok tt, set_out (m_out st ++ header imm ind n) st).
Proof.
  intros Hi Hd Hn. unfold header. destruct (Z.ltb_spec n 56).
  - unfold push_back, mput. rewrite wrap8_small by lia. by rewrite Z.add_comm.
  - by apply pushCount_spec.
Qed.

Lemma closeList_spec pre body st :
  m_out st = pre ++ body -> zlen body < 2 ^ 64 ->
  closeList (zlen pre) st = (Ok tt, set_out (pre ++ header 0xc0 0xf7 (zlen body) ++ body) st).
Proof.
  intros Ho Hb. unfold closeList. rewrite Ho, zlen_app.
  replace (zlen pre + zlen body - zlen pre) with (zlen body) by lia.
  rewrite (wrap_small 64) by (unfold uint_ok; lia).
  change c_rlpListImmLenCount with 56. change c_rlpListIndLenZero with 0xf7. change c_rlpListStart with 0xc0.
  pose proof (bytesRequired_64 (zlen body) ltac:(lia)).
  pose proof (proj2 (bytesRequired_bound (zlen body) ltac:(lia))).
  set (es := if zlen body <? 56 then 1 else 1 + bytesRequired (zlen body)).
  assert (1 <= es) by (unfold es; destruct (_ <? 56); lia).
  assert (exists x r, ztake (zlen pre + es) ((pre ++ body) ++ replicate (Z.to_nat es) 0) = pre ++ x :: r
            /\ zlen r = es - 1) as (x & r & Ht & Hr).
  { rewrite <- app_assoc. unfold ztake. rewrite take_app_ge by lia.
    destruct (take (Z.to_nat (zlen pre + es) - List.length pre) (body ++ replicate (Z.to_nat es) 0)) as [|x r] eqn:E;
      apply (f_equal List.length) in E; rewrite length_take, length_app, length_replicate in E; cbn [List.length] in E; [lia|].
    exists x, r. split; [done|lia]. }
  rewrite Ht. rewrite zdrop_app by done. rewrite <- app_assoc. cbn [app].
  rewrite insert_at by done. unfold header. unfold es in Hr. clear es Ht H1.
  revert Hr. destruct (Z.ltb_spec (zlen body) 56); intros Hr.
  - rewrite wrap8_small by lia. destruct r; [|cbn in Hr; lia]. done.
  - destruct (Z.leb_spec (0xf7 + bytesRequired (zlen body)) 0xff); [|lia].
    rewrite wrap8_small by lia. do 3 f_equal.
    pose proof (writeBack_spec (write_fuel (zlen body)) (zlen body)
      (pre ++ [0xf7 + bytesRequired (zlen body)]) r body ltac:(lia) (write_fuel_ok (zlen body) ltac:(lia)) ltac:(lia)) as W.
    rewrite <- !app_assoc in W. cbn [app] in W. rewrite toCompactBigEndian_length by lia. cbn [app].
    rewrite zlen_app in W. cbn [List.length] in W. rewrite <- W. f_equal; [by apply insert_at|lia].
Qed.

Lemma set_out_eta st : set_out (m_out st) st = st.
Proof. by destruct st. Qed.

(** [append] writes the encoding of the string, then counts one item. *)
Lemma append_spec s c st :
  zlen s < 2 ^ 64 ->
  append s c st = noteAppended 1 (set_out (m_out st ++ encode_str (if c then skipZeros s else s)) st).
Proof.
  intros Hs. unfold append.
  assert (zlen (if c then skipZeros s else s) < 2 ^ 64) as Hd.
  { destruct c; [|done]. clear -Hs. induction s as [|b s IH]; cbn [skipZeros] in *; [done|].
    destruct (b =? 0); [|done]. apply IH. rewrite zlen_cons in Hs. lia. }
  revert Hd. generalize (if c then skipZeros s else s) as d. intros d Hd.
  change c_rlpDataImmLenStart with 0x80. change c_rlpDataImmLenCount with 56. change c_rlpDataIndLenZero with 0xb7.
  destruct ((zlen d =? 1) && (default 0 (zat d 0) <? 0x80)) eqn:E.
  - apply andb_prop in E as [E1 E2]. apply Z.eqb_eq in E1.
    destruct d as [|b [|? ?]]; [cbn in E1; lia| |rewrite !zlen_cons in E1; lia].
    change ((b <? 0x80) = true) in E2. unfold encode_str. rewrite E2. done.
  - assert (encode_str d = header 0x80 0xb7 (zlen d) ++ d) as ->.
    { unfold encode_str. destruct d as [|b [|]]; try done.
      change ((b <? 0x80) = false) in E. by rewrite E. }
    erewrite mbind_Ok; [reflexivity|]. erewrite mbind_Ok by (apply push_header_spec; lia).
    unfold appendRaw. erewrite mbind_Ok by reflexivity. cbn. by rewrite <- app_assoc.
Qed.

(** [append(bigint)] is [append] of the shortest big-endian bytes. *)
Lemma append_bigint_spec i st :
  0 <= i -> bytesRequired i < 2 ^ 32 ->
  append_bigint i st = noteAppended 1 (set_out (m_out st ++ encode_str (toCompactBigEndian i 0)) st).
Proof.
  intros Hi Hb. unfold append_bigint. pose proof (toCompactBigEndian_length i Hi) as Hl.
  change c_rlpDataImmLenStart with 0x80. change c_rlpDataImmLenCount with 56. change c_rlpDataIndLenZero with 0xb7.
  destruct (Z.eqb_spec i 0) as [->|Hi0]; [done|].
  pose proof (bytesRequired_pos i ltac:(lia)) as Hp.
  destruct (Z.ltb_spec i 0x80).
  - assert (toCompactBigEndian i 0 = [i]) as ->.
    { pose proof (bytesRequired_le i 1 ltac:(lia) ltac:(lia)).
      apply be_val_inj; [apply toCompactBigEndian_ok|repeat constructor; lia|cbn [List.length]; lia|].
      rewrite be_val_toCompactBigEndian by lia. cbn. lia. }
    unfold push_back. erewrite mbind_Ok by reflexivity. rewrite wrap8_small by lia. cbn [encode_str].
    destruct (Z.ltb_spec i 0x80); [done|lia].
  - rewrite (wrap_small 32) by (unfold uint_ok; lia).
    assert (encode_str (toCompactBigEndian i 0)
      = header 0x80 0xb7 (bytesRequired i) ++ toCompactBigEndian i 0) as ->.
    { rewrite <- Hl. unfold encode_str. destruct (toCompactBigEndian i 0) as [|b [|]] eqn:E; try done.
      pose proof (be_val_toCompactBigEndian i 0 Hi ltac:(lia)) as Hv. rewrite E in Hv. cbn in Hv.
      destruct (Z.ltb_spec b 0x80); [lia|done]. }
    erewrite mbind_Ok; [reflexivity|].
    pose proof (push_header_spec 0x80 0xb7 (bytesRequired i) st ltac:(lia) ltac:(lia) ltac:(lia)) as HP.
    unfold pushCount in HP.
    assert ((if bytesRequired i <? 56 then push_back (wrap 8 (bytesRequired i + 128))
             else if 255 <? 183 + bytesRequired (bytesRequired i) then mthrow NumberTooLarge
             else exec! push_back (wrap 8 (183 + bytesRequired (bytesRequired i))) in
                  pushInt (bytesRequired i) (bytesRequired (bytesRequired i))) st
            = (Ok tt, set_out (m_out st ++ header 0x80 0xb7 (bytesRequired i)) st)) as HQ.
    { rewrite <- HP. destruct (bytesRequired i <? 56); [done|].
      rewrite (Z.add_comm 183). pose proof (bytesRequired_64 (bytesRequired i) ltac:(lia)).
      destruct (Z.ltb_spec 255 (bytesRequired (bytesRequired i) + 183)); [lia|done]. }
    erewrite mbind_Ok by exact HQ. rewrite pushInt_spec by lia. cbn. by rewrite <- app_assoc.
Qed.

Lemma appendList_bytes_spec body st :
  zlen body < 2 ^ 64 ->
  appendList_bytes body st =
  noteAppended 1 (set_out (m_out st ++ header 0xc0 0xf7 (zlen body) ++ body) st).
Proof.
  intros Hb. unfold appendList_bytes.
  change c_rlpListImmLenCount with 56. change c_rlpListIndLenZero with 0xf7. change c_rlpListStart with 0xc0.
  erewrite mbind_Ok by (apply push_header_spec; lia).
  unfold appendRaw. erewrite mbind_Ok by reflexivity. cbn. by rewrite <- app_assoc.
Qed.

(** ** Scripts: well-bracketed uses of the stream *)

(** How a client builds its output: strings, integers and hashes, items encoded
    beforehand, a list encoded beforehand, and a list opened with the number of
    its items and then filled. *)
#[warnings="-register-all"]
Inductive script :=
| SBytes (s : bytes) (compact : bool)
| SInt (i : Z)
| SHash (h : bytes) (compact allOrNothing : bool)
| SRaw (l : list Item)
| SListBytes (l : list Item)
| SList (l : list script).

(** The items a script stands for. *)
Fixpoint items_of (sc : script) : list Item :=
  match sc with
  | SBytes s c => [Str (if c then skipZeros s else s)]
  | SInt i => [Str (toCompactBigEndian i 0)]
  | SHash h c a =>
      [Str (if a && negb (FixedHash.to_bool h) then [] else if c then skipZeros h else h)]
  | SRaw l => l
  | SListBytes l => [Lst l]
  | SList l => [Lst (concat (map items_of l))]
  end.

(** The calls a script makes. *)
Fixpoint run (sc : script) : Str_M unit :=
  match sc with
  | SBytes s c => append s c
  | SInt i => append_bigint i
  | SHash h c a => append_hash h c a
  | SRaw l => append_rlp (concat (map encode l)) (zlen l)
  | SListBytes l => appendList_bytes (concat (map encode l))
  | SList l =>
      exec! appendList (zlen (concat (map items_of l))) in
      append_each run l
  end.

(** Arguments a caller may pass: lengths that fit a [size_t], and integers whose
    byte count fits an [unsigned]. *)
Fixpoint script_ok (sc : script) : Prop :=
  match sc with
  | SBytes s _ => zlen s < 2 ^ 64
  | SInt i => 0 <= i /\ bytesRequired i < 2 ^ 32
  | SHash h _ _ => zlen h < 2 ^ 64
  | SList l => (fix all l := match l with [] => True | i :: l' => script_ok i /\ all l' end) l
  | _ => True
  end.

Fixpoint script_rect' (P : script -> Prop)
  (HB : forall s c, P (SBytes s c)) (HI : forall i, P (SInt i)) (HH : forall h c a, P (SHash h c a))
  (HR : forall l, P (SRaw l)) (HLB : forall l, P (SListBytes l))
  (HL : forall l, Forall P l -> P (SList l)) (sc : script) : P sc :=
  match sc with
  | SBytes s c => HB s c
  | SInt i => HI i
  | SHash h c a => HH h c a
  | SRaw l => HR l
  | SListBytes l => HLB l
  | SList l =>
      HL l ((fix go l : Forall P l :=
               match l with
               | [] => Forall_nil_2 P
               | i :: l' => Forall_cons_2 P i l' (script_rect' P HB HI HH HR HLB HL i) (go l')
               end) l)
  end.

Lemma run_SList l :
  run (SList l) = (exec! appendList (zlen (concat (map items_of l))) in append_each run l).
Proof. done. Qed.

Lemma script_ok_SList l : script_ok (SList l) <-> Forall script_ok l.
Proof.
  cbn [script_ok]. induction l as [|i l IH]; [split; constructor|].
  rewrite Forall_cons_iff, <- IH. done.
Qed.

Abbreviation encs l := (concat (map encode l)).

(** What running [sc] amounts to: its items' encodings at the end of the output,
    and as many items counted. *)
Definition runs_as_encoding (sc : script) : Prop :=
  forall st, run sc st =
    noteAppended (zlen (items_of sc)) (set_out (m_out st ++ encs (items_of sc)) st).

Lemma noteAppended_top k n p stk o :
  0 < k < n ->
  noteAppended k {| m_out := o; m_listStack := (n, p) :: stk |} =
  (Ok tt, {| m_out := o; m_listStack := (n - k, p) :: stk |}).
Proof.
  intros Hk. unfold noteAppended. destruct (Z.eqb_spec k 0); [lia|]. cbn.
  destruct (Z.ltb_spec n k); [lia|]. unfold mbind, mput. cbn.
  destruct (Z.eqb_spec (n - k) 0); [lia|done].
Qed.

Lemma noteAppended_close k pre body stk :
  0 < k -> zlen body < 2 ^ 64 ->
  noteAppended k {| m_out := pre ++ body; m_listStack := (k, zlen pre) :: stk |} =
  noteAppended 1 {| m_out := pre ++ header 0xc0 0xf7 (zlen body) ++ body; m_listStack := stk |}.
Proof.
  intros Hk Hb. unfold noteAppended. destruct (Z.eqb_spec k 0); [lia|].
  cbn [m_listStack noteAppended_loop Z.eqb]. destruct (Z.ltb_spec k k); [lia|].
  unfold mput. erewrite mbind_Ok by reflexivity. rewrite Z.sub_diag. cbn [Z.eqb negb].
  erewrite mbind_Ok by reflexivity. erewrite mbind_Ok by (by apply closeList_spec). done.
Qed.

Lemma append_each_nothing l st :
  Forall runs_as_encoding l -> concat (map items_of l) = [] -> append_each run l st = (Ok tt, st).
Proof.
  induction 1 as [|i l Hi _ IH]; [done|]. cbn [map concat append_each]. intros [E1 E2]%app_eq_nil.
  erewrite mbind_Ok; [by apply IH|]. rewrite Hi, E1. cbn. rewrite app_nil_r. by destruct st.
Qed.

(** Filling the innermost open list closes it. *)
Lemma append_each_fill l pre body stk :
  Forall runs_as_encoding l -> concat (map items_of l) <> [] ->
  zlen (body ++ encs (concat (map items_of l))) < 2 ^ 64 ->
  append_each run l
    {| m_out := pre ++ body; m_listStack := (zlen (concat (map items_of l)), zlen pre) :: stk |} =
  noteAppended 1
    {| m_out := pre ++ header 0xc0 0xf7 (zlen (body ++ encs (concat (map items_of l))))
                 ++ body ++ encs (concat (map items_of l));
       m_listStack := stk |}.
Proof.
  intros Hl. revert body. induction Hl as [|i l Hi Hl IH]; intros body Hne Hs; [done|].
  cbn [append_each map concat] in *. rewrite map_app, concat_app in *.
  unfold mbind. rewrite Hi. unfold set_out. cbn [m_out m_listStack]. rewrite <- app_assoc.
  destruct (items_of i) as [|t ts] eqn:Ei.
  - cbn [app map concat List.length noteAppended Z.of_nat Z.eqb mret] in *. rewrite app_nil_r. by apply IH.
  - rewrite <- Ei in *. assert (0 < zlen (items_of i)) by (rewrite Ei, zlen_cons; lia).
    destruct (concat (map items_of l)) as [|u us] eqn:El.
    + rewrite app_nil_r. cbn [map concat] in *. rewrite app_nil_r in *.
      rewrite noteAppended_close by done.
      destruct (noteAppended 1 _) as [[[]|e] s'] eqn:En; [|done]. by apply append_each_nothing.
    + rewrite <- El in *. assert (0 < zlen (concat (map items_of l))) by (rewrite El, zlen_cons; lia).
      rewrite noteAppended_top by (rewrite zlen_app; lia).
      replace (zlen (items_of i ++ concat (map items_of l)) - zlen (items_of i))
        with (zlen (concat (map items_of l))) by (rewrite zlen_app; lia).
      rewrite IH; [by rewrite <- !app_assoc| |by rewrite <- app_assoc].
      rewrite El. done.
Qed.

Lemma encodable_Str_length s : encodable (Str s) -> zlen s < 2 ^ 64.
Proof.
  intros [_ H]. unfold maxLength in H. cbn [encode] in H.
  assert (zlen s <= zlen (encode_str s)); [|lia].
  unfold encode_str. destruct s as [|b [|]]; try destruct (b <? 128); rewrite ?zlen_app; lia.
Qed.

Lemma Forall_concat_encodable l :
  Forall encodable (concat (map items_of l)) -> Forall (fun sc => Forall encodable (items_of sc)) l.
Proof.
  induction l as [|i l IH]; [constructor|]. cbn. rewrite Forall_app. intros [H1 H2].
  constructor; auto.
Qed.

Lemma run_spec sc : script_ok sc -> Forall encodable (items_of sc) -> runs_as_encoding sc.
Proof.
  induction sc as [s c|i|h c a|l|l|l IH] using script_rect'; intros Hok Hen st;
    cbn [items_of map concat List.length]; rewrite ?app_nil_r.
  - by apply append_spec.
  - destruct Hok. by apply append_bigint_spec.
  - cbn [run]. unfold append_hash. destruct (a && _); by rewrite append_spec.
  - done.
  - apply Forall_cons_iff in Hen as [Hen _]. apply encodable_Lst in Hen as [_ Hb].
    unfold maxLength in Hb. apply appendList_bytes_spec. lia.
  - change (Forall encodable [Lst (concat (map items_of l))]) in Hen.
    apply Forall_cons_iff in Hen as [Hen _]. apply encodable_Lst in Hen as [He Hb]. unfold maxLength in Hb.
    apply script_ok_SList in Hok.
    assert (Forall runs_as_encoding l) as Hr.
    { apply Forall_concat_encodable in He. clear -IH Hok He.
      induction IH as [|i l Hi _ IHl]; [constructor|].
      apply Forall_cons_iff in Hok as []. apply Forall_cons_iff in He as []. constructor; auto. }
    rewrite run_SList. destruct (decide (concat (map items_of l) = [])) as [E|E].
    + rewrite E in *. change (appendList (zlen (@nil Item))) with (appendList_bytes []). unfold mbind.
      rewrite appendList_bytes_spec by (cbn; lia).
      change (noteAppended (Z.of_nat 1)) with (noteAppended 1). cbn [map concat encode app].
      destruct (noteAppended 1 _) as [[[]|e] s'] eqn:En; [|done]. by apply append_each_nothing.
    + unfold appendList.
      destruct (Z.eqb_spec (zlen (concat (map items_of l))) 0) as [E0|_];
        [by destruct (concat (map items_of l)); [|rewrite zlen_cons in E0; lia]|].
      cbn [negb]. unfold mput. erewrite mbind_Ok by reflexivity.
      pose proof (append_each_fill l (m_out st) [] (m_listStack st) Hr) as HF.
      rewrite app_nil_r in HF. cbn [app] in HF. unfold set_stack.
      rewrite HF; [done|done|lia].
Qed.

(** ** Properties *)

(** C35: whatever mix of appends a client uses to build one item - strings,
    integers, hashes, fragments and lists encoded beforehand, and lists opened
    with their item count at any nesting - the finished stream hands out exactly
    the item's encoding, and the decoder reads the item back from it. *)
Theorem stream_roundtrip (sc : script) (t : Item) :
  script_ok sc -> items_of sc = [t] -> encodable t ->
  let '(r, st) := run sc empty in
  r = Ok tt /\ out st = Ok (encode t) /\ decode (encode t) = Ok t.
Proof.
  intros Hok Hi Ht. rewrite run_spec by (rewrite ?Hi; auto). rewrite Hi.
  cbn [map concat]. rewrite app_nil_r. cbn. repeat split.
  unfold decode. rewrite encode_make by done. cbn [result_bind].
  apply read_encode; [done|]. pose proof (depth_encode t Ht). lia.
Qed.

Lemma stream_roundtrip_witness :
  let sc := SList [SInt 1024; SList [SBytes [0; 0; 9] true; SRaw [Str [1]; Lst []]]; SHash [0; 0] false true] in
  let t := Lst [Str [4; 0]; Lst [Str [9]; Str [1]; Lst []]; Str []] in
  let '(r, st) := run sc empty in
  r = Ok tt /\ out st = Ok (encode t) /\ decode (encode t) = Ok t.
Proof.
  intros sc t. apply (stream_roundtrip sc t).
  - cbn. repeat split; lia.
  - vm_compute. reflexivity.
  - split; [|vm_compute; reflexivity].
    cbn. unfold bytes_ok, is_byte. repeat split; repeat constructor; lia.
Defined.

(** the stream never hands out a half-built list. While the innermost open
    list expects [n] items: counting fewer leaves the list open and [out]
    throws; appending a fragment of more than [n] items throws, without
    completing any list, though the fragment's bytes stay in the output. *)
Theorem stream_open_list (o frag : bytes) (n k p : Z) (stk : list (Z * Z)) :
  0 < k -> k <> n ->
  let st := {| m_out := o; m_listStack := (n, p) :: stk |} in
  let '(r, st') := append_rlp frag k st in
  r = (if k <? n then Ok tt else Err ItemCountTooLarge) /\
  m_out st' = o ++ frag /\
  m_listStack st' = (if k <? n then n - k else n, p) :: stk /\
  out st' = Err ListStackNotEmpty.
Proof.
  intros Hk Hn. cbn zeta. unfold append_rlp, appendRaw, mput. erewrite mbind_Ok by reflexivity.
  unfold set_out. cbn [m_out m_listStack]. destruct (Z.ltb_spec k n).
  - rewrite noteAppended_top by lia. done.
  - unfold noteAppended. destruct (Z.eqb_spec k 0); [lia|]. cbn.
    destruct (Z.ltb_spec n k); [done|lia].
Qed.

Lemma stream_open_list_witness :
  let st := {| m_out := [7]; m_listStack := [(2, 1)] |} in
  let '(r, st') := append_rlp [1; 2; 3] 3 st in
  r = Err ItemCountTooLarge /\ m_out st' = [7; 1; 2; 3] /\ m_listStack st' = [(2, 1)] /\
  out st' = Err ListStackNotEmpty.
Proof. apply (stream_open_list [7] [1; 2; 3] 2 3 1 []); lia. Defined.

End RLPStream.
