(* ===== verification/RlpFields.v ===== *)
(** * RlpFields: records as RLP lists

    Transactions and block headers are lists with one item per field, read with
    [operator[]] and the strict conversions.  The lemmas here go both ways: an
    encoded list serves its fields, and data that converts is the encoding of
    the values it converted to. *)

From stdpp Require Import base list numbers option.
From Stdlib Require Import ZArith Lia.
From S2P Require Import Prelude Bytes Rlp RlpStream.
Import VectorRef CommonData RLP RLPStream.

Module RlpFields.

(** Bytes that are one item: a list around any payload, or a string. *)
Inductive one_item : bytes -> Prop :=
| one_list body : zlen body < maxLength -> one_item (header 0xc0 0xf7 (zlen body) ++ body)
| one_str x : bytes_ok x -> zlen x < maxLength -> one_item (encode_str x).

Lemma one_item_view s rest :
  one_item s -> exists lst off body, view (s ++ rest) lst off body /\ off + zlen body = zlen s.
Proof.
  intros [body Hb|x Hok Hx].
  - rewrite <- app_assoc. do 3 eexists. split; [by apply view_header_list|]. rewrite zlen_app. lia.
  - destruct (encode_str_cases x) as [(b & -> & Hb & ->)|[-> Hc]].
    + do 3 eexists. split; [apply view_single_byte; [by inversion Hok|done]|]. done.
    + rewrite <- app_assoc. do 3 eexists. split; [by apply view_header_data|]. rewrite zlen_app. lia.
Qed.

Lemma one_item_segment s : one_item s -> segment s.
Proof.
  intros Hs. split.
  - destruct (one_item_view s [] Hs) as (lst & off & body & V & He). pose proof (view_pos _ _ _ _ V). lia.
  - intros rest. destruct (one_item_view s rest Hs) as (lst & off & body & V & He).
    rewrite (view_sizeAsEncoded V). by f_equal.
Qed.

Lemma split_at {A} (r : list A) l : 0 <= l <= zlen r -> exists a b, r = a ++ b /\ zlen a = l.
Proof.
  intros Hl. exists (take (Z.to_nat l) r), (drop (Z.to_nat l) r). split; [by rewrite take_drop|].
  rewrite length_take. lia.
Qed.

(** What [sizeAsEncoded] measures is one item. *)
Lemma sizeAsEncoded_inv d n :
  bytes_ok d -> d <> [] -> sizeAsEncoded d = Ok n ->
  exists s rest, d = s ++ rest /\ zlen s = n /\ one_item s.
Proof.
  intros Hd Hne Hs. pose proof (sizeAsEncoded_range d n Hd Hs) as [Hn _].
  unfold sizeAsEncoded in Hs. rewrite make_small, result_bind_assoc in Hs.
  destruct (actualSize d) as [a|] eqn:Ha; [|done]. cbn [result_bind] in Hs.
  destruct (zlen d <? a); [done|]. cbn [result_bind] in Hs. rewrite Ha in Hs. injection Hs as ->.
  destruct d as [|b d]; [done|]. clear Hne. unfold actualSize in Ha.
  rewrite isNull_cons, isData_not_isList, isNull_cons in Ha.
  destruct (isSingleByte (b :: d)) eqn:Hsb.
  { injection Ha as <-. exists [b], d. split; [done|]. split; [done|].
    unfold isSingleByte in Hsb. change c_rlpDataImmLenStart with 128 in Hsb.
    assert (encode_str [b] = [b]) as <- by (cbn; by rewrite Hsb).
    constructor; [|done]. inversion Hd; subst. constructor; [done|constructor]. }
  destruct (isList (b :: d)) eqn:Hl; cbn [negb andb orb] in Ha;
    apply result_bind_Ok in Ha as (l & Hlen & [= <-]).
  - destruct (length_inv_list _ _ Hd Hl Hlen) as (Hr & rest & Hrest).
    pose proof (prefix_header_list l rest Hr) as (_ & _ & _ & P4). rewrite Hrest in Hn, Hd |- *.
    rewrite P4, zlen_app in Hn. rewrite P4. apply Forall_app in Hd as [_ Hd].
    destruct (split_at rest l ltac:(lia)) as (u & v & -> & <-). apply Forall_app in Hd as [Hu _].
    eexists _, v. rewrite app_assoc. split; [done|]. split; [by rewrite zlen_app|]. constructor. lia.
  - assert (Hdat : isData (b :: d) = true) by (by rewrite isData_not_isList, isNull_cons, Hl).
    destruct (length_inv_data _ _ Hd Hdat Hlen) as (Hr & [(b' & rest & E & _ & Hb)|(_ & rest & Hrest & Hc)]).
    { injection E as <- <-. unfold isSingleByte in Hsb. change c_rlpDataImmLenStart with 128 in Hsb.
      apply Z.ltb_ge in Hsb. lia. }
    pose proof (prefix_header_data l rest Hr) as (_ & _ & _ & P4). rewrite Hrest in Hd, Hn |- *.
    rewrite P4, zlen_app in Hn. rewrite P4. apply Forall_app in Hd as [_ Hd].
    destruct (split_at rest l ltac:(lia)) as (u & v & -> & <-). apply Forall_app in Hd as [Hu _].
    assert (encode_str u = header 0x80 0xb7 (zlen u) ++ u) as He.
    { destruct (encode_str_cases u) as [(x & -> & Hx & _)|[-> _]]; [|done].
      destruct (Hc eq_refl) as (b' & r' & [= <- <-] & Hb'). lia. }
    exists (encode_str u), v. rewrite He, app_assoc. split; [done|]. split; [by rewrite zlen_app|].
    rewrite <- He. by constructor; [|lia].
Qed.

(** ** The items of a list *)

Lemma items_loop_inv fuel d i n :
  bytes_ok d -> items_loop fuel d i = Ok n ->
  exists segs, d = concat segs /\ Forall one_item segs /\ n = i + zlen segs.
Proof.
  revert d i. induction fuel as [|fuel IH]; intros d i Hd; destruct d as [|b d]; cbn [items_loop].
  1, 3: intros [= <-]; exists []; split; [done|]; split; [constructor|cbn; lia].
  { done. }
  intros H. apply result_bind_Ok in H as (k & Hk & H).
  destruct (sizeAsEncoded_inv _ _ Hd ltac:(done) Hk) as (s & rest & E & Hs & Hone).
  rewrite E in Hd, H. apply Forall_app in Hd as [_ Hd].
  assert (cropped_from (s ++ rest) k = rest) as Hc.
  { unfold cropped_from. rewrite zlen_app. zbool. rewrite <- Hs. by rewrite zdrop_app. }
  rewrite Hc in H. destruct (IH rest (i + 1) Hd H) as (segs & -> & HF & ->).
  exists (s :: segs). split; [done|]. split; [by constructor|]. rewrite zlen_cons. lia.
Qed.

(** Data whose items can be counted is a list of items. *)
Lemma itemCount_inv d n :
  bytes_ok d -> zlen d < maxLength -> make d VeryStrict = Ok d -> isList d = true -> itemCount d = Ok n ->
  exists segs, d = header 0xc0 0xf7 (zlen (concat segs)) ++ concat segs /\ Forall one_item segs /\
    n = zlen segs /\ payload d = Ok (concat segs).
Proof.
  intros Hd Hlen Hm Hl Hn. unfold itemCount, items in Hn. rewrite Hl in Hn.
  apply result_bind_Ok in Hn as (p & Hp & Hn).
  destruct (make_strict_inv d d Hd Hm) as [_ [->|(lst & off & body & V & Hlb & Hlst & _)]]; [done|].
  rewrite (view_isList _ _ _ _ V) in Hl. specialize (Hlst Hl).
  rewrite (view_payload V) in Hp by (pose proof maxLength_npos; lia). injection Hp as <-.
  assert (bytes_ok body) as Hb by (rewrite Hlst in Hd; by apply Forall_app in Hd as [_ ?]).
  destruct (items_loop_inv _ _ _ _ Hb Hn) as (segs & -> & HF & ->).
  exists segs. split; [done|]. split; [done|]. split; [lia|].
  apply (view_payload V). pose proof maxLength_npos. lia.
Qed.

(** ** Fields that convert *)

Lemma one_str_encodable x : bytes_ok x -> zlen (encode_str x) < maxLength -> encodable (Str x).
Proof. done. Qed.

(** An item that is data is the encoding of its bytes. *)
Lemma one_item_data s :
  one_item s -> zlen s < maxLength -> isData s = true -> exists x, s = encode (Str x) /\ encodable (Str x).
Proof.
  intros [body Hb|x Hok Hx] Hlen Hd.
  - pose proof (prefix_header_list (zlen body) body ltac:(lia)) as (_ & P & _). congruence.
  - by exists x.
Qed.

(** What [operator[]] serves: the null RLP or an item. *)
Definition field_ok (s : bytes) : Prop := s = [] \/ one_item s /\ zlen s < maxLength.

Lemma toInt_isData w s v : toInt w s Strict = Ok v -> isData s = true.
Proof.
  unfold toInt. destruct (requireGood s); [|done]. cbn [result_bind].
  destruct (isInt s); [|done]. cbn [result_bind]. rewrite isData_not_isList.
  destruct (isList s), (isNull s); rewrite ?orb_true_r; try done.
Qed.

Lemma toHash_isData N s h : toHash N s VeryStrict = Ok h -> isData s = true.
Proof.
  unfold toHash. destruct (requireGood s); [|done]. cbn [result_bind].
  destruct (payload s); [|done]. cbn [result_bind]. by destruct (isData s).
Qed.

Lemma field_data s :
  field_ok s -> isData s = true -> exists x, s = encode (Str x) /\ encodable (Str x).
Proof. intros [->|[Hs Hl]] Hd; [done|]. by apply one_item_data. Qed.

(** An integer that is read strictly is there in its shortest form. *)
Lemma toInt_inv w s v :
  0 < w -> w mod 8 = 0 -> field_ok s -> toInt w s Strict = Ok v ->
  s = encode (Str (toCompactBigEndian v 0)) /\ uint_ok w v.
Proof.
  intros Hw Hw8 Hs Hv. destruct (field_data s Hs (toInt_isData _ _ _ Hv)) as (x & -> & Hx).
  rewrite toInt_canonical in Hv by done. destruct (canonical_int x) eqn:Hc; [|done]. cbn [andb] in Hv.
  destruct (Z.leb_spec (zlen x) (w / 8)); [|done]. injection Hv as <-.
  assert (Hok : bytes_ok x) by (by destruct Hx). pose proof (be_val_range x Hok) as Hr. split.
  - rewrite compact_unique; [done|done|]. intros b r ->. cbn in Hc. by intros ->.
  - unfold uint_ok. rewrite <- pow_256_div by (done || lia).
    assert (256 ^ zlen x <= 256 ^ (w / 8)) by (apply Z.pow_le_mono_r; lia). lia.
Qed.

Lemma toHash_inv N s h :
  field_ok s -> toHash N s VeryStrict = Ok h -> s = encode (Str h) /\ List.length h = N /\ bytes_ok h.
Proof.
  intros Hs Hh. destruct (field_data s Hs (toHash_isData _ _ _ Hh)) as (x & -> & Hx).
  rewrite toHash_encode in Hh by done. case_bool_decide; [|done]. injection Hh as <-.
  split; [done|]. split; [done|]. by destruct Hx.
Qed.

Lemma toBytes_inv s fl b :
  field_ok s -> isData s = true -> toBytes s fl = Ok b -> s = encode (Str b) /\ bytes_ok b.
Proof.
  intros Hs Hd Hb. destruct (field_data s Hs Hd) as (x & -> & Hx). rewrite toBytes_encode in Hb by done.
  injection Hb as <-. split; [done|]. by destruct Hx.
Qed.

Lemma seg_at_length segs k : zlen (seg_at segs k) <= zlen (concat segs).
Proof.
  unfold seg_at. destruct (segs !! k) as [s|] eqn:E; [|cbn; lia]. rewrite (seg_split segs k s E), !zlen_app. lia.
Qed.

Lemma encode_str_ge x : zlen x <= zlen (encode_str x).
Proof. unfold encode_str. destruct x as [|b [|]]; try destruct (b <? 128); rewrite ?zlen_app; lia. Qed.

Lemma seg_at_field segs k : Forall one_item segs -> zlen (concat segs) < maxLength -> field_ok (seg_at segs k).
Proof.
  intros HF Hl. unfold seg_at. destruct (segs !! k) as [s|] eqn:E; [|by left]. right.
  split; [rewrite Forall_lookup in HF; eauto|].
  rewrite (seg_split segs k s E), !zlen_app in Hl. lia.
Qed.

(** ** Encoded items *)

Lemma header_bytes_ok imm ind n :
  0 <= n < maxLength -> imm = 0x80 /\ ind = 0xb7 \/ imm = 0xc0 /\ ind = 0xf7 -> bytes_ok (header imm ind n).
Proof.
  intros Hn Hi. unfold header. destruct (Z.ltb_spec n 56).
  - constructor; [unfold is_byte; lia|constructor].
  - pose proof (compact_small n ltac:(lia)) as [Hl _]. constructor; [unfold is_byte; lia|apply toCompactBigEndian_ok].
Qed.

Lemma encode_bytes_ok t : encodable t -> bytes_ok (encode t).
Proof.
  induction t as [x|l IH] using Item_rect'; intros Ht.
  - destruct Ht as [Hx Hl]. cbn [encode item_ok] in *.
    destruct (encode_str_cases x) as [(b & -> & _ & ->)|[E _]]; [done|]. rewrite E in *. rewrite zlen_app in Hl.
    apply Forall_app. split; [apply header_bytes_ok; [lia|by left]|done].
  - destruct (encodable_Lst l Ht) as [HF Hs]. cbn [encode]. apply Forall_app. split; [apply header_bytes_ok; [lia|by right]|].
    clear Ht Hs. induction HF as [|t l Ht HF IHl]; [constructor|]. inversion IH; subst. cbn [map concat].
    apply Forall_app. split; [by apply H1|by apply IHl].
Qed.

Lemma nth_encode l i t :
  encodable (Lst l) -> l !! Z.to_nat i = Some t -> 0 <= i -> nth (encode (Lst l)) i = Ok (encode t).
Proof.
  intros Hl Ht Hi. unfold nth.
  assert (i < 2 ^ 64 - 1).
  { apply lookup_lt_Some in Ht. destruct (encodable_Lst l Hl) as [HF Hs]. pose proof (concat_encode_length l HF).
    unfold maxLength in Hs. lia. }
  destruct (index_spec l i cache_init Hl ltac:(lia) (cache_init_ok _)) as (c & -> & _). cbn [fst].
  unfold item_at. by rewrite Ht.
Qed.

Lemma itemCount_encode l : encodable (Lst l) -> itemCount (encode (Lst l)) = Ok (zlen l).
Proof. intros Hl. unfold itemCount. rewrite encode_isList by done. by apply encode_items. Qed.

Lemma isEmpty_Str s : encodable (Str s) -> isEmpty (encode (Str s)) = bool_decide (s = []).
Proof.
  intros [Hok Hlen]. cbn [encode] in *. destruct (encode_str_cases s) as [(b & -> & Hb & ->)|[E Hc]].
  - inversion Hok as [|? ? Hbb]; subst. unfold is_byte in Hbb. rewrite bool_decide_false by done. cbn [isEmpty].
    change c_rlpDataImmLenStart with 0x80. change c_rlpListStart with 0xc0. by zbool.
  - rewrite E. destruct s as [|b s]; [done|]. rewrite bool_decide_false by done.
    destruct (header_prefix 0x80 0xb7 (zlen (b :: s))) as (c & bs & -> & Hcase).
    { rewrite E, zlen_app in Hlen. rewrite zlen_cons in *. unfold maxLength in *. lia. }
    cbn [isEmpty app]. change c_rlpDataImmLenStart with 0x80. change c_rlpListStart with 0xc0.
    rewrite zlen_cons in Hcase. zbool; lia.
Qed.

Lemma isEmpty_Lst l : encodable (Lst l) -> l <> [] -> isEmpty (encode (Lst l)) = false.
Proof.
  intros Hl Hne. destruct (encodable_Lst l Hl) as [HF Hs].
  assert (0 < zlen (concat (map encode l))).
  { destruct l as [|t l]; [done|]. inversion HF as [|? ? Ht]; subst. pose proof (encode_nonempty t Ht).
    cbn [map concat]. rewrite zlen_app. lia. }
  cbn [encode]. destruct (header_prefix 0xc0 0xf7 (zlen (concat (map encode l))) ltac:(lia)) as (c & bs & -> & Hcase).
  cbn [isEmpty app]. change c_rlpDataImmLenStart with 0x80. change c_rlpListStart with 0xc0. zbool; lia.
Qed.

Lemma toHash_Strict s :
  encodable (Str s) -> List.length s = 32%nat -> toHash 32 (encode (Str s)) Strict = Ok s.
Proof.
  intros Hs Hl. unfold toHash. rewrite requireGood_encode, encode_payload, encode_isData by done.
  cbn [result_bind content is_lst negb orb]. rewrite Hl. change (Z.of_nat 32 <? Z.of_nat 32) with false. cbn [andb orb].
  rewrite Nat.min_id, take_ge by lia. by rewrite Nat.sub_diag.
Qed.

Lemma toString_encode s fl : encodable (Str s) -> toString (encode (Str s)) fl = Ok s.
Proof.
  intros Hs. unfold toString. rewrite encode_isData, encode_payload, encode_length by done.
  cbn [is_lst negb result_bind content]. f_equal. pose proof (encodable_Str_length s Hs).
  unfold cropped. rewrite Z.add_0_l, Z.leb_refl. destruct (Z.leb_spec 0 (zlen s)); [|lia]. cbn [andb].
  rewrite zdrop_0. destruct (Z.eqb_spec (zlen s) npos); rewrite ztake_all; (done || lia).
Qed.


(** An integer as an item. *)
Abbreviation int_item v := (Str (toCompactBigEndian v 0)).

Lemma encode_str_length x : zlen (encode_str x) <= zlen x + 9 \/ 2 ^ 64 <= zlen x.
Proof.
  destruct (Z.lt_ge_cases (zlen x) (2 ^ 64)) as [Hx|]; [left|by right].
  destruct (encode_str_cases x) as [(b & -> & _ & ->)|[-> _]]; [cbn; lia|].
  rewrite zlen_app. unfold header. destruct (_ <? _); [cbn; lia|]. rewrite zlen_cons.
  rewrite toCompactBigEndian_length by lia. pose proof (bytesRequired_64 (zlen x) ltac:(lia)). lia.
Qed.

Lemma int_item_length w v : uint_ok w v -> 0 <= w <= 256 -> zlen (encode (int_item v)) <= 41.
Proof.
  intros [Hv Hw] Hr. destruct (encode_str_length (toCompactBigEndian v 0)) as [H|H];
    rewrite toCompactBigEndian_length in H by done;
    (assert (2 ^ w <= 2 ^ 256) by (apply Z.pow_le_mono_r; lia));
    pose proof (bytesRequired_le v 32 ltac:(change (256 ^ 32) with (2 ^ 256); lia) ltac:(lia)); cbn [encode]; lia.
Qed.

Lemma int_item_inj a b : 0 <= a -> 0 <= b -> int_item a = int_item b -> a = b.
Proof.
  intros Ha Hb [= E]. apply (f_equal be_val) in E. by rewrite !be_val_toCompactBigEndian in E by lia.
Qed.

Lemma toInt_item w v : 0 < w <= 256 -> w mod 8 = 0 -> uint_ok w v -> toInt w (encode (int_item v)) Strict = Ok v.
Proof.
  intros Hw Hw8 Hv. apply toInt_compact; [lia|done| |done]. split; [apply toCompactBigEndian_ok|].
  pose proof (int_item_length w v Hv ltac:(lia)). unfold maxLength. lia.
Qed.

(** ** Reading fields *)

(** The payload of [d] is the sequence of items [segs]. *)
Record has_items (d : bytes) (segs : list bytes) : Prop := {
  hi_one : Forall one_item segs;
  hi_payload : payload d = Ok (concat segs);
  hi_len : zlen (concat segs) <= zlen d;
  hi_max : zlen d < maxLength
}.

Lemma has_segments d segs : has_items d segs -> Forall segment segs.
Proof. intros H. eapply List.Forall_impl; [|apply (hi_one d segs H)]. apply one_item_segment. Qed.
Lemma has_npos d segs : has_items d segs -> zlen (concat segs) < npos.
Proof. intros [_ _ H1 H2]. pose proof maxLength_npos. lia. Qed.
Lemma has_field d segs k : has_items d segs -> field_ok (seg_at segs k).
Proof. intros [H1 _ H2 H3]. apply seg_at_field; [done|lia]. Qed.

Lemma one_item_encode t : encodable t -> one_item (encode t).
Proof.
  intros Ht. destruct t as [x|l].
  - destruct Ht as [Hok Hl]. constructor; [done|]. cbn [encode] in Hl. unfold encode_str in Hl.
    destruct x as [|b [|]]; rewrite ?zlen_app in Hl; [done|unfold maxLength; cbn; lia|lia].
  - apply encodable_Lst in Ht as [_ Hb]. by constructor.
Qed.

Lemma has_items_encode l : encodable (Lst l) -> has_items (encode (Lst l)) (map encode l).
Proof.
  intros Hl. destruct (encodable_Lst l Hl) as [HF Hb]. split.
  - apply List.Forall_map. eapply List.Forall_impl; [|exact HF]. apply one_item_encode.
  - by apply encode_payload.
  - cbn [encode]. rewrite zlen_app. lia.
  - by destruct Hl.
Qed.

(** Data whose items can be counted has them. *)
Lemma has_items_inv d n :
  bytes_ok d -> zlen d < maxLength -> make d VeryStrict = Ok d -> isList d = true -> itemCount d = Ok n ->
  exists segs, has_items d segs /\ n = zlen segs /\ d = header 0xc0 0xf7 (zlen (concat segs)) ++ concat segs.
Proof.
  intros Hd Hlen Hm Hl Hn. destruct (itemCount_inv d n Hd Hlen Hm Hl Hn) as (segs & E & HF & -> & Hp).
  exists segs. split; [|done]. split; [done|done| |done]. rewrite E, zlen_app. lia.
Qed.

(** The list around a sequence of items. *)
Definition enclist (segs : list bytes) : bytes := header 0xc0 0xf7 (zlen (concat segs)) ++ concat segs.

Lemma enclist_size segs : zlen (concat segs) < 2 ^ 64 -> zlen (enclist segs) <= zlen (concat segs) + 9.
Proof.
  intros Hs. unfold enclist. rewrite zlen_app. unfold header. destruct (_ <? _); [cbn [List.length]; lia|].
  rewrite zlen_cons, toCompactBigEndian_length by lia. pose proof (bytesRequired_64 (zlen (concat segs)) ltac:(lia)). lia.
Qed.

Lemma enclist_ok segs :
  Forall one_item segs -> zlen (enclist segs) < maxLength ->
  has_items (enclist segs) segs /\ make (enclist segs) VeryStrict = Ok (enclist segs) /\ isList (enclist segs) = true.
Proof.
  intros HF Hl. unfold enclist in *. rewrite zlen_app in Hl.
  pose proof (view_header_list (concat segs) [] ltac:(lia)) as V. rewrite app_nil_r in V. split; [split|split].
  - done.
  - apply (view_payload V). pose proof maxLength_npos. rewrite zlen_app. lia.
  - rewrite zlen_app. lia.
  - rewrite zlen_app. lia.
  - apply (view_make_strict V). by rewrite zlen_app.
  - apply (view_isList _ _ _ _ V).
Qed.

Lemma itemCount_has d segs : has_items d segs -> isList d = true -> itemCount d = Ok (zlen segs).
Proof.
  intros Hd Hl. unfold itemCount, items. rewrite Hl, (hi_payload d segs Hd). cbn [result_bind].
  pose proof (has_segments d segs Hd) as HF. rewrite items_loop_segments; [done|done|by apply segments_length].
Qed.

(** The two forms of an empty item. *)
Lemma isEmpty_inv s : field_ok s -> isEmpty s = true -> s = encode (Str []) \/ s = encode (Lst []).
Proof.
  intros [->|[Hs Hl]] He; [done|]. destruct Hs as [body Hb|x Hok Hx].
  - right. destruct body as [|b body]; [done|].
    destruct (header_prefix 0xc0 0xf7 (zlen (b :: body)) ltac:(lia)) as (c & bs & E & Hcase). rewrite E in He.
    cbn [isEmpty app] in He. change c_rlpDataImmLenStart with 0x80 in He. change c_rlpListStart with 0xc0 in He.
    rewrite zlen_cons in Hcase. apply orb_true_iff in He as [He|He]; apply Z.eqb_eq in He; lia.
  - left. change (encode_str x) with (encode (Str x)) in *. rewrite isEmpty_Str in He by done.
    apply bool_decide_eq_true in He. by subst.
Qed.

(** Code that reads items of one [RLP] object, which keeps the position cache,
    and converts them; [inj] makes an exception of the codec one of the
    client's. *)
Section Reader.
Context {E : Type} (inj : exn -> E).

Definition relabel {A} (r : result exn A) : result E A :=
  match r with Ok a => Ok a | Err e => Err (inj e) end.
Definition item (d : bytes) (i : Z) : M cache E bytes := fun c =>
  let '(r, c') := index d i c in (relabel r, c').
Definition conv {A} (r : result exn A) : M cache E A := mlift (relabel r).

(** Reading from an object with the items [segs], whatever its cache holds, ends
    in [Q]. *)
Definition reads {A} (segs : list bytes) (m : M cache E A) (Q : result E A -> Prop) : Prop :=
  forall c, cache_ok segs c -> exists r c', m c = (r, c') /\ cache_ok segs c' /\ Q r.

Lemma reads_fresh {A} segs (m : M cache E A) Q : reads segs m Q -> Q (fst (m cache_init)).
Proof. intros H. destruct (H cache_init (cache_init_ok segs)) as (r & c' & -> & _ & HQ). done. Qed.

Lemma reads_lift {A} segs (r : result E A) Q : Q r -> reads segs (mlift r) Q.
Proof. intros H c Hc. by exists r, c. Qed.

Lemma reads_conv {A B} segs (r : result exn A) (k : A -> M cache E B) Q :
  (forall a, r = Ok a -> reads segs (k a) Q) -> (forall e, r = Err e -> Q (Err (inj e))) ->
  reads segs (mbind (conv r) k) Q.
Proof. intros H H' c Hc. unfold mbind, conv, mlift. destruct r as [a|e]; cbn; [by apply H|]. exists (Err (inj e)), c. auto. Qed.

Lemma reads_item {B} d segs i (k : bytes -> M cache E B) Q :
  has_items d segs -> 0 <= i < 2 ^ 64 - 1 ->
  reads segs (k (seg_at segs (Z.to_nat i))) Q -> reads segs (mbind (item d i) k) Q.
Proof.
  intros Hd Hi H c Hc. destruct (index_segments d segs (has_segments d segs Hd) (hi_payload d segs Hd)
    (has_npos d segs Hd) (hi_len d segs Hd) i c Hi Hc) as (c' & Hx & Hc').
  unfold mbind, item. rewrite Hx. cbn. by apply H.
Qed.

Lemma reads_mono {A} segs (m : M cache E A) (Q Q' : result E A -> Prop) :
  reads segs m Q -> (forall r, Q r -> Q' r) -> reads segs m Q'.
Proof. intros H HQ c Hc. destruct (H c Hc) as (r & c' & H1 & H2 & H3). exists r, c'. auto. Qed.

Lemma reads_bind {A B} segs (m : M cache E A) (k : A -> M cache E B) Q :
  reads segs m (fun r => match r with Ok a => reads segs (k a) Q | Err e => Q (Err e) end) ->
  reads segs (mbind m k) Q.
Proof.
  intros H c Hc. destruct (H c Hc) as (r & c' & H1 & H2 & H3). unfold mbind. rewrite H1.
  destruct r as [a|e]; [by apply H3|eauto].
Qed.

(** A field that is there and converts. *)
Lemma reads_field {A B} d segs i s (f : bytes -> result exn A) a (k : A -> M cache E B) Q :
  has_items d segs -> 0 <= i < 2 ^ 64 - 1 -> seg_at segs (Z.to_nat i) = s -> f s = Ok a ->
  reads segs (k a) Q -> reads segs (mbind (item d i) (fun x => mbind (conv (f x)) k)) Q.
Proof.
  intros Hd Hi Hs Hf HQ. apply reads_item; [done|done|]. rewrite Hs. apply reads_conv; rewrite Hf; [by intros ? [= <-]|done].
Qed.

(** If [m] returns, then [P]. *)
Definition ends {A} (m : M cache E A) (P : Prop) : Prop := forall c a c', m c = (Ok a, c') -> P.

Lemma ends_bind {A B} (m : M cache E A) (k : A -> M cache E B) P :
  (forall a, ends (k a) P) -> ends (mbind m k) P.
Proof.
  intros H c b c' Hb. unfold mbind in Hb. destruct (m c) as [[a|e] c1]; [|done]. by apply (H a) in Hb.
Qed.
Lemma ends_conv {A B} (r : result exn A) (k : A -> M cache E B) P :
  (forall a, r = Ok a -> ends (k a) P) -> ends (mbind (conv r) k) P.
Proof.
  intros H c b c' Hb. unfold mbind, conv, mlift in Hb. destruct r as [a|e]; [|done]. cbn in Hb. by apply (H a) in Hb.
Qed.
Lemma ends_throw {A} (e : E) P : ends (A := A) (mthrow e) P.
Proof. by intros c a c'. Qed.

End Reader.

(** ** Writing fields *)

(** An operation that appends the bytes [s] as one item. *)
Definition emits (op : Str_M unit) (s : bytes) : Prop :=
  forall st, op st = noteAppended 1 (set_out (m_out st ++ s) st).

Lemma emits_raw s : emits (appendRaw s 1) s.
Proof. done. Qed.
Lemma emits_str s : zlen s < 2 ^ 64 -> emits (append s false) (encode (Str s)).
Proof. intros Hs st. by rewrite append_spec. Qed.
Lemma emits_hash s : zlen s < 2 ^ 64 -> emits (append_hash s false false) (encode (Str s)).
Proof. intros Hs st. unfold append_hash. cbn [andb]. by apply emits_str. Qed.
Lemma emits_int w v : uint_ok w v -> 0 <= w <= 256 -> emits (append_bigint v) (encode (Str (toCompactBigEndian v 0))).
Proof.
  intros [Hv Hw] Hr st. apply append_bigint_spec; [done|].
  assert (2 ^ w <= 2 ^ 256) by (apply Z.pow_le_mono_r; lia).
  pose proof (bytesRequired_le v 32 ltac:(change (256 ^ 32) with (2 ^ 256); lia) ltac:(lia)). lia.
Qed.

(** The stream [RLPStream(n)] after the items [l], which are [n] at most. *)
Definition filled (n : nat) (l : list bytes) : stream :=
  if (List.length l <? n)%nat
  then {| m_out := concat l; m_listStack := [(Z.of_nat n - zlen l, 0)] |}
  else {| m_out := header 0xc0 0xf7 (zlen (concat l)) ++ concat l; m_listStack := [] |}.

Lemma filled_open n : (0 < n)%nat -> appendList (Z.of_nat n) empty = (Ok tt, filled n []).
Proof.
  intros Hn. unfold appendList. destruct (Z.eqb_spec (Z.of_nat n) 0); [lia|]. unfold filled.
  destruct n; [lia|]. cbn. by rewrite Z.sub_0_r.
Qed.

Lemma filled_append n l op s :
  emits op s -> (List.length l < n)%nat -> zlen (concat (l ++ [s])) < 2 ^ 64 ->
  op (filled n l) = (Ok tt, filled n (l ++ [s])).
Proof.
  intros Hop Hl Hs. rewrite Hop. unfold filled. rewrite length_app. cbn [List.length].
  rewrite concat_app in *. cbn [concat] in *. rewrite app_nil_r in *.
  destruct (Nat.ltb_spec (List.length l) n); [|lia]. unfold set_out. cbn [m_out m_listStack].
  destruct (Nat.ltb_spec (List.length l + 1) n).
  - rewrite noteAppended_top by lia. by replace (Z.of_nat n - zlen l - 1) with (Z.of_nat n - Z.of_nat (List.length l + 1)) by lia.
  - assert (Z.of_nat n - zlen l = 1) as -> by lia.
    pose proof (noteAppended_close 1 [] (concat l ++ s) [] ltac:(lia) Hs) as Hn.
    cbn [app] in Hn. change (zlen (@nil Z)) with 0 in Hn. rewrite Hn. done.
Qed.

Lemma filled_out n l : List.length l = n -> out (filled n l) = Ok (header 0xc0 0xf7 (zlen (concat l)) ++ concat l).
Proof. intros <-. unfold filled. by rewrite Nat.ltb_irrefl. Qed.

Lemma append_each_filled n segs l :
  (List.length l + List.length segs <= n)%nat -> zlen (concat (l ++ segs)) < 2 ^ 64 ->
  append_each (fun s => appendRaw s 1) segs (filled n l) = (Ok tt, filled n (l ++ segs)).
Proof.
  revert l. induction segs as [|s segs IH]; intros l Hn Hs; [by rewrite app_nil_r|]. cbn [append_each List.length] in *.
  rewrite concat_app in Hs. cbn [concat] in Hs. rewrite !zlen_app in Hs.
  erewrite mbind_Ok; [|apply filled_append; [apply emits_raw|lia|]].
  - rewrite IH; [by rewrite <- app_assoc|rewrite length_app; cbn; lia|].
    rewrite !concat_app, !zlen_app. cbn [concat]. rewrite app_nil_r. lia.
  - rewrite concat_app, zlen_app. cbn [concat]. rewrite app_nil_r. lia.
Qed.

(** Stream operations in code with exceptions of its own. *)
Definition lift_stream {E A} (inj : stream_exn -> E) (op : Str_M A) : M stream E A := fun s =>
  match op s with (Ok a, s') => (Ok a, s') | (Err e, s') => (Err (inj e), s') end.

Lemma lift_append {E B} (inj : stream_exn -> E) n l op s (k : unit -> M stream E B) :
  emits op s -> (List.length l < n)%nat -> zlen (concat (l ++ [s])) < 2 ^ 64 ->
  mbind (lift_stream inj op) k (filled n l) = k tt (filled n (l ++ [s])).
Proof. intros H1 H2 H3. unfold mbind, lift_stream. by rewrite (filled_append n l op s). Qed.

(** Appending one after another. *)
Definition run_ops {E} (inj : stream_exn -> E) (ops : list (Str_M unit)) (k : M stream E unit) : M stream E unit :=
  foldr (fun op k => mbind (lift_stream inj op) (fun _ => k)) k ops.

Lemma run_ops_filled {E} (inj : stream_exn -> E) n ops items l k :
  Forall2 emits ops items -> (List.length l + List.length items <= n)%nat ->
  zlen (concat (l ++ items)) < 2 ^ 64 ->
  run_ops inj ops k (filled n l) = k (filled n (l ++ items)).
Proof.
  intros HF. revert l. induction HF as [|op i ops items Hop _ IH]; intros l Hn Hs; [by rewrite app_nil_r|].
  cbn [run_ops foldr List.length] in *. rewrite concat_app in Hs. cbn [concat] in Hs. rewrite !zlen_app in Hs.
  rewrite (lift_append inj n l op i); [|done|lia|].
  - fold (run_ops inj ops k). rewrite IH; [by rewrite <- app_assoc|rewrite length_app; cbn; lia|].
    rewrite !concat_app, !zlen_app. cbn [concat]. rewrite app_nil_r. lia.
  - rewrite concat_app, zlen_app. cbn [concat]. rewrite app_nil_r. lia.
Qed.

Lemma lift_open {E B} (inj : stream_exn -> E) n (k : unit -> M stream E B) :
  (0 < n)%nat -> mbind (lift_stream inj (appendList (Z.of_nat n))) k empty = k tt (filled n []).
Proof. intros Hn. unfold mbind, lift_stream. by rewrite filled_open. Qed.

End RlpFields.
