(* ===== verification/Keccak.v ===== *)
(** * Keccak: the hash function (libdevcore/SHA3.cpp)

    The permutation and the sponge as the code runs them, in place on a byte
    array, and the reference definitions of FIPS 202 they are proved equal to:
    the five step mappings on a 5x5 array of lanes, the round constants from
    their shift register, and absorption of the padded message block by block.  The
    reference uses neither the permutation nor the [xorin] of the code. *)

From stdpp Require Import base list numbers option.
From Stdlib Require Import ZArith Lia.
From S2P Require Import Prelude.
From S2P Require Import Bytes.
Import CommonData.

Module Keccak.

(** ** The code *)

Definition rho : list Z :=
  [1; 3; 6; 10; 15; 21; 28; 36; 45; 55; 2; 14; 27; 41; 56; 8; 25; 43; 62; 18; 39; 61; 20; 44].
Definition pi : list nat :=
  [10; 7; 11; 17; 18; 3; 5; 16; 8; 21; 24; 4; 15; 23; 19; 13; 12; 2; 20; 14; 22; 9; 6; 1]%nat.
Definition RC : list Z :=
  [1; 0x8082; 0x800000000000808a; 0x8000000080008000;
   0x808b; 0x80000001; 0x8000000080008081; 0x8000000000008009;
   0x8a; 0x88; 0x80008009; 0x8000000a;
   0x8000808b; 0x800000000000008b; 0x8000000000008089; 0x8000000000008003;
   0x8000000000008002; 0x8000000000000080; 0x800a; 0x800000008000000a;
   0x8000000080008081; 0x8000000000008080; 0x80000001; 0x8000000080008008].

(** [rol] on [uint64_t]. *)
Definition rol (x s : Z) : Z := Z.lor (wrap 64 (Z.shiftl x s)) (Z.shiftr x (64 - s)).

(** [a[i] ^= v]. *)
Definition xor_at (a : list Z) (i : nat) (v : Z) : list Z := <[i := Z.lxor (a !!! i) v]> a.

(** [FOR5(v, s, e)]: [e] with [v = 0, s, ..., 4s]. *)
Definition FOR5 {A} (s : nat) (e : nat -> A -> A) (a : A) : A :=
  fold_left (fun a v => e (v * s)%nat a) [0; 1; 2; 3; 4]%nat a.

(** The locals of [keccakf]: the lanes [a] and the scratch array [b]. *)
Definition theta_b (a : list Z) (b : list Z) : list Z :=
  FOR5 1 (fun x b =>
    FOR5 5 (fun y b => xor_at b x (a !!! (x + y)%nat)) (<[x := 0]> b)) b.
Definition theta (b : list Z) (a : list Z) : list Z :=
  FOR5 1 (fun x a =>
    FOR5 5 (fun y a =>
      xor_at a (y + x) (Z.lxor (b !!! ((x + 4) mod 5)%nat) (rol (b !!! ((x + 1) mod 5)%nat) 1))) a) a.

(** The rotation chain: [t] holds the lane to be moved next. *)
Definition rhopi (ab : list Z * list Z) : list Z * list Z :=
  fst (fold_left (fun '((a, b), t) x =>
         let b := <[0%nat := a !!! (pi !!! x)]> b in
         let a := <[pi !!! x := rol t (rho !!! x)]> a in
         ((a, b), b !!! 0%nat))
       (seq 0 24) (ab, fst ab !!! 1%nat)).

Definition chi_row (y : nat) (ab : list Z * list Z) : list Z * list Z :=
  let '(a, b) := ab in
  let b := FOR5 1 (fun x b => <[x := a !!! (y + x)%nat]> b) b in
  let a := FOR5 1 (fun x a =>
    <[(y + x)%nat := Z.lxor (b !!! x)
        (Z.land (wrap 64 (Z.lnot (b !!! ((x + 1) mod 5)%nat))) (b !!! ((x + 2) mod 5)%nat))]> a) a in
  (a, b).
Definition chi (ab : list Z * list Z) : list Z * list Z := FOR5 5 chi_row ab.

(** One iteration of the loop of [keccakf] on [(a, b)]. *)
Definition round (ab : list Z * list Z) (rc : Z) : list Z * list Z :=
  let '(a, b) := ab in
  let b := theta_b a b in
  let a := theta b a in
  let '(a, b) := chi (rhopi (a, b)) in
  (xor_at a 0 rc, b).

Definition keccakf_lanes (a : list Z) : list Z :=
  fst (fold_left round RC (a, replicate 5 0)).

(** The byte array seen as 25 little-endian [uint64_t]. *)
Definition le_word (bs : bytes) : Z := be_val (rev bs).
Definition lanes_of (s : bytes) : list Z :=
  map (fun i => le_word (take 8 (drop (8 * i) s))) (seq 0 25).
Definition bytes_of (a : list Z) : bytes := List.flat_map (fun l => rev (toBigEndian 8 l)) a.
Definition keccakf (s : bytes) : bytes := bytes_of (keccakf_lanes (lanes_of s)).

(** [xorin(dst, src, len)], with [len] the length of [src]. *)
Fixpoint xorin (dst src : bytes) : bytes :=
  match dst, src with
  | d :: dst', s :: src' => Z.lxor d s :: xorin dst' src'
  | _, _ => dst
  end.

Definition Plen : nat := 200.

(** [foldP(in, inlen, xorin)]: the state and the input that is left. One
    iteration consumes [rate > 0] bytes, so the input length is fuel enough. *)
Fixpoint absorb (fuel rate : nat) (a input : bytes) : bytes * bytes :=
  match fuel with
  | O => (a, input)
  | S f => if (rate <=? List.length input)%nat
           then absorb f rate (keccakf (xorin a (take rate input))) (drop rate input)
           else (a, input)
  end.

(** [foldP(out, outlen, setout); setout(a, out, outlen)]. *)
Fixpoint squeeze (fuel rate : nat) (a : bytes) (outlen : nat) : bytes :=
  match fuel with
  | O => []
  | S f => if (rate <=? outlen)%nat
           then take rate a ++ squeeze f rate (keccakf a) (outlen - rate)
           else take outlen a
  end.

(** [hash]: [None] for the [return -1] on a rate that is too large. *)
Definition hash (outlen : nat) (input : bytes) (rate : nat) (delim : Z) : option bytes :=
  if (Plen <=? rate)%nat then None else
  let '(a, rest) := absorb (S (List.length input)) rate (replicate Plen 0) input in
  let a := xor_at a (List.length rest) delim in
  let a := xor_at a (rate - 1) 0x80 in
  let a := keccakf (xorin a rest) in
  Some (squeeze (S outlen) rate a outlen).

(** [sha3_256], and [sha3] with an output of [n] bytes and of 32 bytes. *)
Definition sha3_256 (outlen : nat) (input : bytes) : option bytes :=
  if (32 <? outlen)%nat then None else hash outlen input (200 - 256 / 4) 0x01.
Definition sha3_into (n : nat) (_input : bytes) : option bytes :=
  if negb (Nat.eqb n 32) then None else sha3_256 32 _input.
Definition sha3 (_input : bytes) : bytes := default (replicate 32 0) (sha3_into 32 _input).

(** ** The reference: FIPS 202, section 3 *)

(** Rotation of a lane by [r]: the low [64 - r] bits move up, the others to the bottom. *)
Definition spec_rot (x r : Z) : Z := Z.lor (x mod 2 ^ (64 - r) * 2 ^ r) (x / 2 ^ (64 - r)).
(** The lane at [(x, y)] of a state array is element [5y + x]. *)
Definition lane (A : list Z) (x y : nat) : Z := A !!! (5 * (y mod 5) + x mod 5)%nat.
Definition array (f : nat -> nat -> Z) : list Z :=
  map (fun i => f (i mod 5) (i / 5))%nat (seq 0 25).

Definition spec_theta (A : list Z) : list Z :=
  let C x := Z.lxor (Z.lxor (Z.lxor (Z.lxor (lane A x 0) (lane A x 1)) (lane A x 2)) (lane A x 3)) (lane A x 4) in
  let D x := Z.lxor (C (x + 4)%nat) (spec_rot (C (x + 1)%nat) 1) in
  array (fun x y => Z.lxor (lane A x y) (D x)).

(** The offset of lane [(x, y)]: [(t+1)(t+2)/2] at the [t]-th lane of the walk
    [(x, y) -> (y, 2x + 3y)] from [(1, 0)], and [0] at [(0, 0)]. *)
Fixpoint spec_offset (n t : nat) (p q : nat) (x y : nat) : Z :=
  match n with
  | O => 0
  | S n' => if (Nat.eqb p x && Nat.eqb q y)%bool then Z.of_nat ((t + 1) * (t + 2) / 2) mod 64
            else spec_offset n' (S t) q ((2 * p + 3 * q) mod 5) x y
  end.
Definition spec_rho (A : list Z) : list Z :=
  array (fun x y => let r := spec_offset 24 0 1 0 x y in
                    if r =? 0 then lane A x y else spec_rot (lane A x y) r).

Definition spec_pi (A : list Z) : list Z := array (fun x y => lane A (x + 3 * y) x).

Definition spec_chi (A : list Z) : list Z :=
  array (fun x y => Z.lxor (lane A x y) (Z.land (wrap 64 (Z.lnot (lane A (x + 1) y))) (lane A (x + 2) y))).

(** The round constants: bit [2^j - 1] of the [i]-th is the output at [j + 7i] of
    the shift register [R] (algorithm 5). *)
Definition spec_lfsr (R : list bool) : list bool :=
  match R with
  | [r0; r1; r2; r3; r4; r5; r6; r7] => [r7; r0; r1; r2; xorb r3 r7; xorb r4 r7; xorb r5 r7; r6]
  | _ => R
  end.
Definition spec_rc (t : nat) : bool :=
  nth 0 (Nat.iter (t mod 255) spec_lfsr [true; false; false; false; false; false; false; false]) false.
Definition spec_RC (i : nat) : Z :=
  fold_left (fun r j => if spec_rc (j + 7 * i) then Z.setbit r (2 ^ Z.of_nat j - 1) else r) (seq 0 7) 0.

Definition spec_round (A : list Z) (i : nat) : list Z :=
  let A := spec_chi (spec_pi (spec_rho (spec_theta A))) in
  array (fun x y => if (Nat.eqb x 0 && Nat.eqb y 0)%bool then Z.lxor (lane A x y) (spec_RC i) else lane A x y).

Definition spec_keccakf (A : list Z) : list Z := fold_left spec_round (seq 0 24) A.

(** Padding: the domain bits and the first and last bit of [pad10*1]. *)
Definition spec_pad (rate : nat) (delim : Z) (m : bytes) : bytes :=
  let q := (rate - List.length m mod rate)%nat in
  m ++ (if Nat.eqb q 1 then [Z.lxor delim 0x80] else delim :: replicate (q - 2) 0 ++ [0x80]).

(** The permutation on the bytes of the state, and a block added to the state. *)
Definition spec_permute (s : bytes) : bytes := bytes_of (spec_keccakf (lanes_of s)).
Definition spec_xor (a m : bytes) : bytes := zip_with Z.lxor a (m ++ replicate (List.length a - List.length m) 0).
(** Absorbing the first [n] blocks of [m]. *)
Fixpoint spec_absorb (n rate : nat) (a m : bytes) : bytes :=
  match n with
  | O => a
  | S n' => spec_absorb n' rate (spec_permute (spec_xor a (take rate m))) (drop rate m)
  end.
Definition spec_sponge (outlen rate : nat) (delim : Z) (m : bytes) : bytes :=
  let p := spec_pad rate delim m in
  take outlen (spec_absorb (List.length p / rate) rate (replicate Plen 0) p).

(** ** Lemmas *)

Lemma rol_spec x s : 0 <= s <= 64 -> rol x s = spec_rot x s.
Proof.
  intros Hs. unfold rol, spec_rot, wrap. rewrite Z.shiftl_mul_pow2, Z.shiftr_div_pow2 by lia. f_equal.
  replace (2 ^ 64) with (2 ^ (64 - s) * 2 ^ s) by (rewrite <- Z.pow_add_r by lia; f_equal; lia).
  apply Z.mul_mod_distr_r; apply Z.pow_nonzero; lia.
Qed.

(** The four step mappings of the code, on the 25 lanes of the state. *)
Lemma round_steps (a b : list Z) (rc : Z) :
  List.length a = 25%nat -> List.length b = 5%nat ->
  let A := spec_chi (spec_pi (spec_rho (spec_theta a))) in
  fst (round (a, b) rc) = <[0%nat := Z.lxor (A !!! 0%nat) rc]> A /\
  List.length (fst (round (a, b) rc)) = 25%nat /\ List.length (snd (round (a, b) rc)) = 5%nat.
Proof.
  intros Ha Hb.
  do 25 (destruct a as [|? a]; [discriminate Ha|]). destruct a; [|discriminate Ha].
  do 5 (destruct b as [|? b]; [discriminate Hb|]). destruct b; [|discriminate Hb].
  clear. cbv -[Z.lxor Z.lor Z.land Z.lnot wrap rol spec_rot]. rewrite !rol_spec by lia. repeat split; reflexivity.
Qed.
Lemma RC_spec : RC = map spec_RC (seq 0 24).
Proof. vm_compute. reflexivity. Qed.

Lemma array_iota A v :
  List.length A = 25%nat ->
  <[0%nat := Z.lxor (A !!! 0%nat) v]> A =
  array (fun x y => if (Nat.eqb x 0 && Nat.eqb y 0)%bool then Z.lxor (lane A x y) v else lane A x y).
Proof.
  intros HA. do 25 (destruct A as [|? A]; [discriminate HA|]). destruct A; [|discriminate HA].
  cbv -[Z.lxor]. reflexivity.
Qed.

Lemma array_length f : List.length (array f) = 25%nat.
Proof. done. Qed.

Lemma round_spec a b i :
  List.length a = 25%nat -> List.length b = 5%nat ->
  fst (round (a, b) (spec_RC i)) = spec_round a i /\
  List.length (fst (round (a, b) (spec_RC i))) = 25%nat /\
  List.length (snd (round (a, b) (spec_RC i))) = 5%nat.
Proof.
  intros Ha Hb. destruct (round_steps a b (spec_RC i) Ha Hb) as (E & L1 & L2).
  split; [|exact (conj L1 L2)]. rewrite E. apply array_iota. apply array_length.
Qed.

(** Folding two functions that keep a relation between their states. *)
Lemma fold_left_rel {A B I J} (R : A -> B -> Prop) (f : A -> I -> A) (g : B -> J -> B) (h : J -> I) l a b :
  (forall a b j, R a b -> R (f a (h j)) (g b j)) -> R a b ->
  R (fold_left f (map h l) a) (fold_left g l b).
Proof. intros H. revert a b. induction l as [|j l IH]; intros a b Hab; [exact Hab|]. cbn. auto. Qed.

Definition round_rel (ab : list Z * list Z) (A : list Z) : Prop :=
  fst ab = A /\ List.length (fst ab) = 25%nat /\ List.length (snd ab) = 5%nat.

Lemma rounds_spec l a b :
  List.length a = 25%nat -> List.length b = 5%nat ->
  round_rel (fold_left round (map spec_RC l) (a, b)) (fold_left spec_round l a).
Proof.
  intros Ha Hb. apply (fold_left_rel round_rel round spec_round spec_RC); [|split; [reflexivity|exact (conj Ha Hb)]].
  intros [a' b'] A j (E & L1 & L2). cbn [fst snd] in *. subst A. exact (round_spec a' b' j L1 L2).
Qed.

Lemma keccakf_lanes_length a : List.length a = 25%nat -> List.length (keccakf_lanes a) = 25%nat.
Proof. intros Ha. unfold keccakf_lanes. rewrite RC_spec.
  apply (rounds_spec (seq 0 24) a (replicate 5 0) Ha (length_replicate _ _)). Qed.

Lemma bytes_of_length a : List.length (bytes_of a) = (8 * List.length a)%nat.
Proof.
  unfold bytes_of. induction a as [|x a IH]; [done|]. cbn [List.flat_map List.length].
  rewrite length_app, length_rev, toBigEndian_length, IH. lia.
Qed.

Lemma bytes_of_ok a : bytes_ok (bytes_of a).
Proof.
  unfold bytes_of. induction a as [|x a IH]; [constructor|]. cbn [List.flat_map].
  apply bytes_ok_app. split; [|done]. apply Forall_rev, toBigEndian_ok.
Qed.

Lemma keccakf_length s : List.length (keccakf s) = Plen.
Proof.
  unfold keccakf. rewrite bytes_of_length, keccakf_lanes_length; [done|].
  unfold lanes_of. by rewrite length_map, length_seq.
Qed.

Lemma keccakf_ok s : bytes_ok (keccakf s).
Proof. apply bytes_of_ok. Qed.

Lemma xorin_lookup a m i :
  xorin a m !! i = match a !! i, m !! i with
                   | Some x, Some y => Some (Z.lxor x y)
                   | r, _ => r
                   end.
Proof.
  revert m i. induction a as [|x a IH]; intros [|y m] [|i]; cbn [xorin]; try done.
  - cbn. by destruct (a !! i).
  - exact (IH m i).
Qed.

Lemma xor_at_lookup a k v i :
  xor_at a k v !! i = if decide (i = k) then (fun x => Z.lxor x v) <$> a !! i else a !! i.
Proof.
  unfold xor_at. case_decide as E.
  - subst. destruct (a !! k) as [x|] eqn:Ea.
    + rewrite list_lookup_insert_eq by (by eapply lookup_lt_Some).
      cbn. by rewrite (list_lookup_total_correct _ _ _ Ea).
    + rewrite list_insert_ge by (by apply lookup_ge_None). done.
  - by rewrite list_lookup_insert_ne.
Qed.

(** The last block: the two pad bytes and the rest of the input, xored in
    separately, are the padded block. *)
Lemma xorin_last a rest rate delim :
  (0 < rate <= List.length a)%nat -> (List.length rest < rate)%nat ->
  xorin (xor_at (xor_at a (List.length rest) delim) (rate - 1) 0x80) rest =
  xorin a (spec_pad rate delim rest).
Proof.
  intros Hr Hl. unfold spec_pad. rewrite Nat.mod_small by done.
  set (n := List.length rest). apply list_eq. intros i.
  rewrite !xorin_lookup, !xor_at_lookup.
  destruct (decide (i < n)%nat) as [Hi|Hi].
  { rewrite (lookup_app_l rest) by done. rewrite (decide_False (P := i = n)) by lia.
    destruct (decide (i = rate - 1)%nat); [lia|done]. }
  rewrite lookup_app_r by (unfold n in *; lia).
  assert (rest !! i = None) as -> by (apply lookup_ge_None; unfold n in *; lia).
  fold n. destruct (a !! i) as [x|] eqn:Ex.
  2: { destruct (decide (i = n)), (decide (i = rate - 1)%nat); done. }
  destruct (Nat.eqb_spec (rate - n) 1) as [E1|E1].
  - destruct (decide (i = n)) as [->|Hn].
    + rewrite (decide_True (P := n = (rate - 1)%nat)) by lia. rewrite Nat.sub_diag. cbn. by rewrite Z.lxor_assoc.
    + rewrite decide_False by lia. rewrite lookup_cons_ne_0 by lia. done.
  - destruct (decide (i = n)) as [->|Hn].
    + rewrite decide_False by lia. by rewrite Nat.sub_diag.
    + rewrite lookup_cons_ne_0 by lia. destruct (decide (i = rate - 1)%nat) as [->|Hr1].
      * rewrite lookup_app_r, length_replicate by (rewrite length_replicate; lia).
        replace (pred (rate - 1 - n) - (rate - n - 2))%nat with 0%nat by lia. done.
      * destruct (decide (i < rate)%nat).
        -- rewrite lookup_app_l by (rewrite length_replicate; lia).
           rewrite lookup_replicate_2 by lia. by rewrite Z.lxor_0_r.
        -- rewrite lookup_app_r, length_replicate by (rewrite length_replicate; lia).
           rewrite lookup_ge_None_2; [done|]. cbn. lia.
Qed.

Lemma spec_pad_drop rate delim m :
  (0 < rate <= List.length m)%nat ->
  spec_pad rate delim m = take rate m ++ spec_pad rate delim (drop rate m).
Proof.
  intros H. unfold spec_pad. rewrite app_assoc, take_drop, length_drop. do 2 f_equal.
  all: assert (List.length m mod rate = (List.length m - rate) mod rate)%nat as ->; [|done].
  all: replace (List.length m) with (List.length m - rate + 1 * rate)%nat at 1 by lia.
  all: apply Nat.Div0.mod_add.
Qed.

Lemma spec_pad_length_small rate delim m :
  (List.length m < rate)%nat -> List.length (spec_pad rate delim m) = rate.
Proof.
  intros H. unfold spec_pad. rewrite length_app, Nat.mod_small by done.
  destruct (Nat.eqb_spec (rate - List.length m) 1); cbn [List.length]; rewrite ?length_app, ?length_replicate; cbn [List.length]; lia.
Qed.

(** Absorbing blocks with the permutation of the code. *)
Fixpoint absorbed (n rate : nat) (a m : bytes) : bytes :=
  match n with
  | O => a
  | S n' => absorbed n' rate (keccakf (xorin a (take rate m))) (drop rate m)
  end.
Lemma xorin_spec a m : (List.length m <= List.length a)%nat -> xorin a m = spec_xor a m.
Proof.
  unfold spec_xor. revert m. induction a as [|x a IH]; intros [|y m] Hl; cbn in Hl |- *; [done|lia| |].
  - f_equal; [by rewrite Z.lxor_0_r|]. pose proof (IH [] ltac:(cbn; lia)) as E. cbn in E. rewrite Nat.sub_0_r in E. rewrite <- E. by destruct a.
  - f_equal. apply IH. lia.
Qed.
Lemma keccakf_spec s : keccakf s = spec_permute s.
Proof.
  unfold keccakf, spec_permute, keccakf_lanes, spec_keccakf. f_equal. rewrite RC_spec.
  apply (rounds_spec (seq 0 24) (lanes_of s) (replicate 5 0)); [unfold lanes_of; by rewrite length_map, length_seq|apply length_replicate].
Qed.
Lemma absorbed_spec n rate a m : (rate <= Plen)%nat -> List.length a = Plen -> spec_absorb n rate a m = absorbed n rate a m.
Proof.
  intros Hr. revert a m. induction n as [|n IH]; intros a m Ha; [done|]. cbn [spec_absorb absorbed].
  rewrite <- xorin_spec, <- keccakf_spec by (rewrite length_take; lia). apply IH, keccakf_length.
Qed.

(** The absorb loop and the last block, against absorbing the padded message. *)
Lemma absorb_spec rate delim fuel a m :
  (0 < rate <= Plen)%nat -> List.length a = Plen -> (List.length m < fuel)%nat ->
  let '(a', rest) := absorb fuel rate a m in
  keccakf (xorin (xor_at (xor_at a' (List.length rest) delim) (rate - 1) 0x80) rest) =
  absorbed (List.length (spec_pad rate delim m) / rate) rate a (spec_pad rate delim m).
Proof.
  intros Hr. revert a m. induction fuel as [|f IH]; intros a m Ha Hf; [lia|]. cbn [absorb].
  destruct (Nat.leb_spec rate (List.length m)) as [Hm|Hm].
  - specialize (IH (keccakf (xorin a (take rate m))) (drop rate m) (keccakf_length _)
      ltac:(rewrite length_drop; lia)).
    destruct (absorb f rate _ _) as [a' rest]. rewrite IH.
    rewrite (spec_pad_drop rate delim m) by lia.
    assert (List.length (take rate m) = rate) as Ht by (rewrite length_take; lia).
    rewrite length_app, Ht.
    replace (rate + List.length (spec_pad rate delim (drop rate m)))%nat
      with (List.length (spec_pad rate delim (drop rate m)) + 1 * rate)%nat by lia.
    rewrite Nat.div_add by lia. rewrite Nat.add_1_r. cbn [absorbed].
    by rewrite take_app_length', drop_app_length' by done.
  - rewrite xorin_last by (rewrite ?Ha; lia).
    rewrite (spec_pad_length_small rate delim m Hm), Nat.div_same by lia. cbn [absorbed].
    by rewrite take_ge by (rewrite spec_pad_length_small; lia).
Qed.

Lemma absorbed_ok n rate a m :
  List.length (absorbed (S n) rate a m) = Plen /\ bytes_ok (absorbed (S n) rate a m).
Proof.
  revert a m. induction n as [|n IH]; intros a m.
  - split; [apply keccakf_length|apply keccakf_ok].
  - cbn [absorbed]. apply (IH (keccakf (xorin a (take rate m)))).
Qed.

(** The sponge of any rate, for an output shorter than the rate. *)
Lemma hash_sponge outlen rate delim m :
  (outlen < rate < Plen)%nat -> hash outlen m rate delim = Some (spec_sponge outlen rate delim m).
Proof.
  intros Hr. unfold hash. destruct (Nat.leb_spec Plen rate); [lia|].
  pose proof (absorb_spec rate delim (S (List.length m)) (replicate Plen 0) m
    ltac:(lia) (length_replicate _ _) ltac:(lia)) as Ha.
  destruct (absorb _ _ _ _) as [a rest]. rewrite Ha. unfold spec_sponge. rewrite absorbed_spec by (rewrite ?length_replicate; lia). cbn [squeeze].
  by destruct (Nat.leb_spec rate outlen); [lia|].
Qed.

Lemma spec_pad_length rate delim m : (0 < rate)%nat -> (rate <= List.length (spec_pad rate delim m))%nat.
Proof.
  intros Hr. unfold spec_pad. rewrite length_app. pose proof (Nat.mod_upper_bound (List.length m) rate ltac:(lia)).
  pose proof (Nat.Div0.mod_le (List.length m) rate).
  destruct (Nat.eqb_spec (rate - List.length m mod rate) 1);
    cbn [List.length]; rewrite ?length_app, ?length_replicate; cbn [List.length]; lia.
Qed.

Lemma spec_sponge_ok outlen rate delim m :
  (outlen < rate < Plen)%nat ->
  List.length (spec_sponge outlen rate delim m) = outlen /\ bytes_ok (spec_sponge outlen rate delim m).
Proof.
  intros Hr. unfold spec_sponge. cbn zeta. set (p := spec_pad rate delim m).
  pose proof (spec_pad_length rate delim m ltac:(lia)) as Hp. fold p in Hp.
  pose proof (Nat.div_str_pos (List.length p) rate ltac:(lia)) as Hd.
  destruct (List.length p / rate)%nat as [|n]; [lia|].
  rewrite absorbed_spec by (rewrite ?length_replicate; lia). destruct (absorbed_ok n rate (replicate Plen 0) p) as [Hl Hk].
  rewrite length_take, Hl. split; [lia|]. by apply Forall_take.
Qed.

Lemma sha3_spec _input :
  sha3_into 32 _input = Some (sha3 _input) /\ sha3 _input = spec_sponge 32 136 1 _input.
Proof.
  assert (Hr : (32 < 136 < Plen)%nat) by (unfold Plen; lia).
  assert (sha3_into 32 _input = Some (spec_sponge 32 136 1 _input)) as E by exact (hash_sponge 32 136 1 _input Hr).
  assert (sha3 _input = spec_sponge 32 136 1 _input) as E' by (unfold sha3; rewrite E; reflexivity).
  by rewrite E'.
Qed.

Lemma sha3_hash _input : List.length (sha3 _input) = 32%nat /\ bytes_ok (sha3 _input).
Proof.
  rewrite (proj2 (sha3_spec _input)).
  assert (Hr : (32 < 136 < Plen)%nat) by (unfold Plen; lia). exact (spec_sponge_ok 32 136 1 _input Hr).
Qed.

(** ** Properties *)

(** the in-place permutation is the FIPS 202 permutation Keccak-f[1600]:
    theta, the rotation chain that runs rho and pi together, chi through the
    scratch row and iota with the tabulated constants compute the five step
    mappings of the standard, over all 24 rounds. *)
Theorem keccakf_refines (a : list Z) :
  List.length a = 25%nat -> keccakf_lanes a = spec_keccakf a.
Proof.
  intros Ha. unfold keccakf_lanes, spec_keccakf. rewrite RC_spec.
  apply (rounds_spec (seq 0 24) a (replicate 5 0) Ha (length_replicate _ _)).
Qed.

Lemma keccakf_refines_witness :
  keccakf_lanes (replicate 25 1) = spec_keccakf (replicate 25 1).
Proof. apply keccakf_refines. reflexivity. Defined.

(** C39: [sha3] of any message is the Keccak sponge of the standard, with the rate 136, on
    the padded message, truncated to 32 bytes.  The reference shares nothing with the
    code but the order of bytes in lanes: its permutation is the 24 rounds of the five
    step mappings, with offsets and round constants computed as the standard does, and
    its sponge adds the blocks of the message padded by [pad10*1].  It never fails, and
    the result is 32 bytes. *)
Theorem sha3_sponge (_input : bytes) :
  sha3_into 32 _input = Some (sha3 _input) /\
  sha3 _input = spec_sponge 32 136 1 _input /\
  List.length (sha3 _input) = 32%nat /\ bytes_ok (sha3 _input).
Proof. destruct (sha3_spec _input) as [H1 H2]. split; [exact H1|]. split; [exact H2|]. exact (sha3_hash _input). Qed.

End Keccak.
