(* ===== verification/Sha3C.v ===== *)
(** * Sha3C: the hash functions of the proof of work (libvapash/sha3.c, sha3.h)

    The C copy of the Keccak code that libvapash carries, with the two output
    sizes it uses, transcribed from its own source, and that it computes the
    sponges of the reference in [Keccak]. *)

From stdpp Require Import base list numbers option.
From Stdlib Require Import ZArith Lia.
From S2P Require Import Prelude.
From S2P Require Import Bytes.
From S2P Require Import Keccak.
Import CommonData.

Module Sha3C.

(** ** The permutation *)

Definition rho : list Z :=
  [1; 3; 6; 10; 15; 21;
   28; 36; 45; 55; 2; 14;
   27; 41; 56; 8; 25; 43;
   62; 18; 39; 61; 20; 44].
Definition pi : list nat :=
  [10; 7; 11; 17; 18; 3;
   5; 16; 8; 21; 24; 4;
   15; 23; 19; 13; 12; 2;
   20; 14; 22; 9; 6; 1]%nat.
Definition RC : list Z :=
  [1; 0x8082; 0x800000000000808a; 0x8000000080008000;
   0x808b; 0x80000001; 0x8000000080008081; 0x8000000000008009;
   0x8a; 0x88; 0x80008009; 0x8000000a;
   0x8000808b; 0x800000000000008b; 0x8000000000008089; 0x8000000000008003;
   0x8000000000008002; 0x8000000000000080; 0x800a; 0x800000008000000a;
   0x8000000080008081; 0x8000000000008080; 0x80000001; 0x8000000080008008].

Definition rol (x s : Z) : Z := Z.lor (wrap 64 (Z.shiftl x s)) (Z.shiftr x (64 - s)).

(** [FOR5(v, s, e)]: [e] with [v = 0, s, ..., 4s]. *)
Definition FOR5 {A} (s : nat) (e : nat -> A -> A) (a : A) : A :=
  fold_left (fun a v => e (v * s)%nat a) [0; 1; 2; 3; 4]%nat a.

(** The steps of the loop of [keccakf] on the lanes [a] and the scratch array
    [b]. *)
Definition theta_b (a b : list Z) : list Z :=
  FOR5 1 (fun x b =>
    FOR5 5 (fun y b => <[x := Z.lxor (b !!! x) (a !!! (x + y)%nat)]> b) (<[x := 0]> b)) b.
Definition theta (b a : list Z) : list Z :=
  FOR5 1 (fun x a =>
    FOR5 5 (fun y a =>
      <[(y + x)%nat := Z.lxor (a !!! (y + x)%nat)
          (Z.lxor (b !!! ((x + 4) mod 5)%nat) (rol (b !!! ((x + 1) mod 5)%nat) 1))]> a) a) a.
Definition rhopi (ab : list Z * list Z) : list Z * list Z :=
  fst (fold_left (fun '((a, b), t) x =>
         let b := <[0%nat := a !!! (pi !!! x)]> b in
         let a := <[pi !!! x := rol t (rho !!! x)]> a in
         ((a, b), b !!! 0%nat)) (seq 0 24) (ab, fst ab !!! 1%nat)).
Definition chi_row (y : nat) (ab : list Z * list Z) : list Z * list Z :=
  let '(a, b) := ab in
  let b := FOR5 1 (fun x b => <[x := a !!! (y + x)%nat]> b) b in
  let a := FOR5 1 (fun x a =>
    <[(y + x)%nat := Z.lxor (b !!! x)
        (Z.land (wrap 64 (Z.lnot (b !!! ((x + 1) mod 5)%nat))) (b !!! ((x + 2) mod 5)%nat))]> a) a in
  (a, b).
Definition keccakf_body (ab : list Z * list Z) (rc : Z) : list Z * list Z :=
  let '(a, b) := ab in
  let b := theta_b a b in
  let a := theta b a in
  let '(a, b) := FOR5 5 chi_row (rhopi (a, b)) in
  (<[0%nat := Z.lxor (a !!! 0%nat) rc]> a, b).

(** [keccakf] on the byte array, 25 little-endian [uint64_t]. *)
Definition keccakf (state : bytes) : bytes :=
  let a := map (fun i => be_val (rev (take 8 (drop (8 * i) state)))) (seq 0 25) in
  List.flat_map (fun l => rev (toBigEndian 8 l)) (fst (fold_left keccakf_body RC (a, replicate 5 0))).

(** ** The sponge *)

(** [xorin(dst, src, len)], with [len] the length of [src]. *)
Fixpoint xorin (dst src : bytes) : bytes :=
  match dst, src with
  | d :: dst', s :: src' => Z.lxor d s :: xorin dst' src'
  | _, _ => dst
  end.

Definition Plen : nat := 200.

(** [foldP(in, inlen, xorin)]; an iteration consumes [rate] bytes. *)
Fixpoint foldP_xorin (fuel rate : nat) (a input : bytes) : bytes * bytes :=
  match fuel with
  | O => (a, input)
  | S f => if (rate <=? List.length input)%nat
           then foldP_xorin f rate (keccakf (xorin a (take rate input))) (drop rate input)
           else (a, input)
  end.

(** [foldP(out, outlen, setout); setout(a, out, outlen)]: what is written. *)
Fixpoint foldP_setout (fuel rate : nat) (a : bytes) (outlen : nat) : bytes :=
  match fuel with
  | O => []
  | S f => if (rate <=? outlen)%nat
           then take rate a ++ foldP_setout f rate (keccakf a) (outlen - rate)
           else take outlen a
  end.

(** [hash]; [None] for [return -1]. The input is absorbed before anything is
    written, so [out] and [in] may overlap. *)
Definition hash (outlen : nat) (input : bytes) (rate : nat) (delim : Z) : option bytes :=
  if (Plen <=? rate)%nat then None else
  let '(a, rest) := foldP_xorin (S (List.length input)) rate (replicate Plen 0) input in
  let a := <[List.length rest := Z.lxor (a !!! List.length rest) delim]> a in
  let a := <[(rate - 1)%nat := Z.lxor (a !!! (rate - 1)%nat) 0x80]> a in
  let a := keccakf (xorin a rest) in
  Some (foldP_setout (S outlen) rate a outlen).

(** [defsha3(bits)]. *)
Definition sha3 (bits outlen : nat) (input : bytes) : option bytes :=
  if (bits / 8 <? outlen)%nat then None else hash outlen input (200 - bits / 4) 0x01.

(** [SHA3_256] and [SHA3_512] ignore the return code; the output is then what it
    was, here taken to be zeros. *)
Definition SHA3_256 (data : bytes) : bytes := default (replicate 32 0) (sha3 256 32 data).
Definition SHA3_512 (data : bytes) : bytes := default (replicate 64 0) (sha3 512 64 data).

(** ** The two copies of the code agree *)

Lemma theta_b_eq a b : theta_b a b = Keccak.theta_b a b.
Proof. unfold theta_b, Keccak.theta_b, FOR5, Keccak.FOR5, Keccak.xor_at. reflexivity. Qed.
Lemma theta_eq b a : theta b a = Keccak.theta b a.
Proof. unfold theta, Keccak.theta, FOR5, Keccak.FOR5, Keccak.xor_at. reflexivity. Qed.
Lemma rhopi_eq ab : rhopi ab = Keccak.rhopi ab.
Proof. unfold rhopi, Keccak.rhopi. reflexivity. Qed.
Lemma chi_row_eq y ab : chi_row y ab = Keccak.chi_row y ab.
Proof. unfold chi_row, Keccak.chi_row, FOR5, Keccak.FOR5, Keccak.xor_at. reflexivity. Qed.

Lemma fold_ext {A B} (f g : A -> B -> A) l a : (forall a b, f a b = g a b) -> fold_left f l a = fold_left g l a.
Proof. intros H. revert a. induction l as [|b l IH]; intros a; [reflexivity|]. cbn [fold_left]. rewrite H. apply IH. Qed.

Lemma chi_eq ab : FOR5 5 chi_row ab = Keccak.chi ab.
Proof. unfold FOR5, Keccak.chi, Keccak.FOR5. apply fold_ext. intros a y. apply chi_row_eq. Qed.

Lemma body_eq ab rc : keccakf_body ab rc = Keccak.round ab rc.
Proof.
  destruct ab as [a b]. unfold keccakf_body, Keccak.round, Keccak.xor_at. rewrite theta_b_eq, theta_eq, rhopi_eq, chi_eq.
  reflexivity.
Qed.

Lemma keccakf_eq s : keccakf s = Keccak.keccakf s.
Proof.
  unfold keccakf, Keccak.keccakf, Keccak.bytes_of, Keccak.keccakf_lanes, Keccak.lanes_of, Keccak.le_word.
  change RC with Keccak.RC. rewrite (fold_ext keccakf_body Keccak.round) by apply body_eq. reflexivity.
Qed.

#[local] Opaque keccakf Keccak.keccakf.

Lemma xorin_eq d s : xorin d s = Keccak.xorin d s.
Proof. revert s. induction d as [|x d IH]; intros [|y s]; [done..|]. cbn. by rewrite IH. Qed.

Lemma absorb_eq fuel rate a i : foldP_xorin fuel rate a i = Keccak.absorb fuel rate a i.
Proof.
  revert a i. induction fuel as [|f IH]; intros a i; [reflexivity|]. cbn [foldP_xorin Keccak.absorb].
  destruct (_ <=? _)%nat; [|reflexivity]. rewrite keccakf_eq, xorin_eq. apply IH.
Qed.

Lemma squeeze_eq fuel rate a n : foldP_setout fuel rate a n = Keccak.squeeze fuel rate a n.
Proof.
  revert a n. induction fuel as [|f IH]; intros a n; [reflexivity|]. cbn [foldP_setout Keccak.squeeze].
  destruct (_ <=? _)%nat; [|reflexivity]. rewrite keccakf_eq, IH. reflexivity.
Qed.

(** The hash of libvapash is the hash of libdevcore. *)
Lemma hash_eq outlen i rate delim : hash outlen i rate delim = Keccak.hash outlen i rate delim.
Proof.
  unfold hash, Keccak.hash, Keccak.xor_at. change Plen with Keccak.Plen. destruct (_ <=? _)%nat; [reflexivity|].
  rewrite absorb_eq. destruct (Keccak.absorb _ _ _ _) as [a rest]. rewrite squeeze_eq, keccakf_eq, xorin_eq. reflexivity.
Qed.

(** Both functions, as sponges. *)
Lemma SHA3_512_sponge d :
  SHA3_512 d = Keccak.spec_sponge 64 72 1 d /\ List.length (SHA3_512 d) = 64%nat /\ bytes_ok (SHA3_512 d).
Proof.
  assert (Hr : (64 < 72 < Keccak.Plen)%nat) by (unfold Keccak.Plen; lia).
  assert (SHA3_512 d = Keccak.spec_sponge 64 72 1 d) as ->.
  { change (SHA3_512 d) with (default (replicate 64 0) (hash 64 d 72 1)). rewrite hash_eq, Keccak.hash_sponge by exact Hr. reflexivity. }
  split; [reflexivity|]. exact (Keccak.spec_sponge_ok 64 72 1 d Hr).
Qed.

Lemma SHA3_256_sponge d :
  SHA3_256 d = Keccak.spec_sponge 32 136 1 d /\ List.length (SHA3_256 d) = 32%nat /\ bytes_ok (SHA3_256 d).
Proof.
  assert (Hr : (32 < 136 < Keccak.Plen)%nat) by (unfold Keccak.Plen; lia).
  assert (SHA3_256 d = Keccak.spec_sponge 32 136 1 d) as ->.
  { change (SHA3_256 d) with (default (replicate 32 0) (hash 32 d 136 1)). rewrite hash_eq, Keccak.hash_sponge by exact Hr. reflexivity. }
  split; [reflexivity|]. exact (Keccak.spec_sponge_ok 32 136 1 d Hr).
Qed.

End Sha3C.
