(* ===== verification/Vapash.v ===== *)
(** * Vapash: the proof-of-work function (libvapash/internal.c, internal.h, fnv.h)

    The cache, the items of the dataset, the hash that reads it, and the checks of
    a block's nonce. A [node] is 16 words; on a little-endian machine, the one
    modelled, the macros of endian.h do nothing and the bytes of a node are those
    of its words, least significant first. An access outside an array, a division
    by zero, a dereference of a null pointer or a loop without end is a [fault]. *)

From stdpp Require Import base list numbers option.
From Stdlib Require Import ZArith Lia.
From S2P Require Import Prelude.
From S2P Require Import Bytes.
From S2P Require Import Sha3C.
From S2P Require Import DataSizes.
Import CommonData Sha3C DataSizes.

Module Vapash.

(** ** Constants (vapash.h, internal.h, fnv.h) *)

Definition VAPASH_EPOCH_LENGTH : Z := 30000.
Definition VAPASH_DATASET_PARENTS : nat := 256.
Definition VAPASH_CACHE_ROUNDS : nat := 3.
Definition VAPASH_ACCESSES : nat := 64.
Definition NODE_WORDS : Z := 16.
Definition MIX_WORDS : Z := 32.
Definition MIX_NODES : Z := 2.
Definition sizeof_node : Z := 64.
Definition FNV_PRIME : Z := 0x01000193.

Definition fnv_hash (x y : Z) : Z := Z.lxor (wrap 32 (x * FNV_PRIME)) y.

Inductive fault := OutOfRange | DivideByZero | NullPointer | Endless.
Abbreviation R A := (result fault A).

(** ** Data *)

Abbreviation node := (list Z).

(** The two views of the union [node]. *)
Definition node_bytes (n : node) : bytes := List.flat_map (fun w => rev (toBigEndian 4 w)) n.
Definition bytes_node (b : bytes) : node := map (fun i => be_val (rev (take 4 (drop (4 * i) b)))) (seq 0 16).

Record vapash_light := { cache : list node; cache_size : Z; block_number : Z }.

Record vapash_return_value := { result_ : bytes; mix_hash : bytes }.

(** [a[i]], [a[i] = v] and [a % b] *)
Definition at_ {A} (a : list A) (i : Z) : R A :=
  match zat a i with Some v => Ok v | None => Err OutOfRange end.
Definition set_at {A} (a : list A) (i : Z) (v : A) : R (list A) :=
  if (0 <=? i) && (i <? zlen a) then Ok (<[Z.to_nat i := v]> a) else Err OutOfRange.
Definition modulo (a b : Z) : R Z := if b =? 0 then Err DivideByZero else Ok (a mod b).

(** ** Sizes *)

(** The assertion holds, or the read is outside the table. *)
Definition vapash_get_datasize (block_number : Z) : R Z := at_ dag_sizes (block_number / VAPASH_EPOCH_LENGTH).
Definition vapash_get_cachesize (block_number : Z) : R Z := at_ cache_sizes (block_number / VAPASH_EPOCH_LENGTH).

(** ** The cache *)

(** The first loop: [nodes[i] = SHA3_512(nodes[i - 1])], from the bytes of the
    last node written. *)
Fixpoint chain (n : nat) (last : bytes) : list node :=
  match n with
  | O => []
  | S n' => let b := SHA3_512 last in bytes_node b :: chain n' b
  end.

(** The body of the loop of [VAPASH_CACHE_ROUNDS]. *)
Definition cache_step (num_nodes : Z) (nodes : list node) (i : Z) : R (list node) :=
  let! n := at_ nodes i in
  let! w := at_ n 0 in
  let! idx := modulo w num_nodes in
  let! j := modulo (wrap 32 (num_nodes - 1 + i)) num_nodes in
  let! data := at_ nodes j in
  let! other := at_ nodes idx in
  set_at nodes i (bytes_node (SHA3_512 (node_bytes (zip_with Z.lxor data other)))).

Fixpoint for_each {A} (f : A -> Z -> R A) (l : list Z) (a : A) : R A :=
  match l with
  | [] => Ok a
  | i :: l' => let! a := f a i in for_each f l' a
  end.
Definition upto (n : Z) : list Z := map Z.of_nat (seq 0 (Z.to_nat n)).

Definition cache_round (num_nodes : Z) (nodes : list node) (_ : Z) : R (list node) :=
  for_each (cache_step num_nodes) (upto num_nodes) nodes.

(** [false] is [None]. A cache of no nodes is written past its end. *)
Definition vapash_compute_cache_nodes (cache_size : Z) (seed : bytes) : R (option (list node)) :=
  if negb (cache_size mod sizeof_node =? 0) then Ok None else
  let num_nodes := wrap 32 (cache_size / sizeof_node) in
  if num_nodes =? 0 then Err OutOfRange else
  let nodes := chain (Z.to_nat num_nodes) seed in
  let! nodes := for_each (cache_round num_nodes) (upto (Z.of_nat VAPASH_CACHE_ROUNDS)) nodes in
  Ok (Some nodes).

(** ** Items of the dataset *)

Definition dag_parent (light : vapash_light) (num_parent_nodes node_index : Z) (ret : node) (i : Z) : R node :=
  let! w := at_ ret (i mod NODE_WORDS) in
  let! parent_index := modulo (fnv_hash (Z.lxor node_index i) w) num_parent_nodes in
  let! parent := at_ (cache light) parent_index in
  Ok (zip_with fnv_hash ret parent).

Definition vapash_calculate_dag_item (node_index : Z) (light : vapash_light) : R node :=
  let num_parent_nodes := wrap 32 (cache_size light / sizeof_node) in
  let! k := modulo node_index num_parent_nodes in
  let! ret := at_ (cache light) k in
  let! w0 := at_ ret 0 in
  let! ret := set_at ret 0 (Z.lxor w0 node_index) in
  let ret := bytes_node (SHA3_512 (node_bytes ret)) in
  let! ret := for_each (dag_parent light num_parent_nodes node_index) (upto (Z.of_nat VAPASH_DATASET_PARENTS)) ret in
  Ok (bytes_node (SHA3_512 (node_bytes ret))).

(** The callback gets a percentage that depends only on [n]; [callback n] is
    whether it returns something else than zero. *)
Fixpoint full_data_loop (light : vapash_light) (callback : option (Z -> bool)) (max_n : Z) (l : list Z)
    (acc : list node) : R (option (list node)) :=
  match l with
  | [] => Ok (Some acc)
  | n :: l' =>
      let! stop := match callback with
                   | None => Ok false
                   | Some f => let! m := modulo n (max_n / 100) in Ok ((m =? 0) && f n)
                   end in
      if (stop : bool) then Ok None else
      let! item := vapash_calculate_dag_item n light in
      full_data_loop light callback max_n l' (acc ++ [item])
  end.

Definition vapash_compute_full_data (full_size : Z) (light : vapash_light) (callback : option (Z -> bool))
    : R (option (list node)) :=
  if negb (full_size mod (4 * MIX_WORDS) =? 0) || negb (full_size mod sizeof_node =? 0) then Ok None else
  let max_n := wrap 32 (full_size / sizeof_node) in
  full_data_loop light callback max_n (upto max_n) [].

(** ** The hash *)

(** Where the nodes of the dataset come from: [full_nodes], or [light] when that
    is null. *)
Inductive dataset := Full (full_nodes : list node) | Light (light : vapash_light).

Definition dag_node (d : dataset) (index n : Z) : R node :=
  match d with
  | Full full_nodes => at_ full_nodes (wrap 32 (MIX_NODES * index + n))
  | Light light => vapash_calculate_dag_item (wrap 32 (index * MIX_NODES + n)) light
  end.

(** [mix[n].words[w] = fnv_hash(mix[n].words[w], dag_node->words[w])]. *)
Definition mix_node (d : dataset) (index : Z) (mix : list Z) (n : Z) : R (list Z) :=
  let! item := dag_node d index n in
  Ok (ztake (n * NODE_WORDS) mix ++ zip_with fnv_hash (ztake NODE_WORDS (zdrop (n * NODE_WORDS) mix)) item
        ++ zdrop ((n + 1) * NODE_WORDS) mix).

Definition access (d : dataset) (num_full_pages : Z) (s0 : Z) (mix : list Z) (i : Z) : R (list Z) :=
  let! w := at_ mix (i mod MIX_WORDS) in
  let! index := modulo (fnv_hash (Z.lxor s0 i) w) num_full_pages in
  for_each (mix_node d index) (upto MIX_NODES) mix.

(** [mix->words[w / 4] = reduction], in place. *)
Definition compress_step (mix : list Z) (w : Z) : R (list Z) :=
  let! a := at_ mix (w + 0) in
  let! b := at_ mix (w + 1) in
  let! c := at_ mix (w + 2) in
  let! e := at_ mix (w + 3) in
  let reduction := a in
  let reduction := Z.lxor (wrap 32 (reduction * FNV_PRIME)) b in
  let reduction := Z.lxor (wrap 32 (reduction * FNV_PRIME)) c in
  let reduction := Z.lxor (wrap 32 (reduction * FNV_PRIME)) e in
  set_at mix (w / 4) reduction.

(** The first 40 bytes of [s_mix]. *)
Definition pack (header_hash : bytes) (nonce : Z) : bytes := header_hash ++ rev (toBigEndian 8 nonce).

Definition vapash_hash (d : dataset) (full_size : Z) (header_hash : bytes) (nonce : Z)
    : R (option vapash_return_value) :=
  if negb (full_size mod MIX_WORDS =? 0) then Ok None else
  let s_mix := bytes_node (SHA3_512 (pack header_hash nonce)) in
  let mix := s_mix ++ s_mix in
  let page_size := 4 * MIX_WORDS in
  let num_full_pages := wrap 32 (full_size / page_size) in
  let! s0 := at_ s_mix 0 in
  let! mix := for_each (access d num_full_pages s0) (upto (Z.of_nat VAPASH_ACCESSES)) mix in
  let! mix := for_each compress_step (map (fun k => 4 * k) (upto (MIX_WORDS / 4))) mix in
  let mix_bytes := take 32 (node_bytes mix) in
  Ok (Some {| mix_hash := mix_bytes; result_ := SHA3_256 (node_bytes s_mix ++ mix_bytes) |}).

(** ** Checks *)

Definition vapash_quick_hash (header_hash : bytes) (nonce : Z) (mix_hash : bytes) : bytes :=
  SHA3_256 (SHA3_512 (pack header_hash nonce) ++ mix_hash).

(** The loop counts [epochs], a [uint64_t], with [uint32_t i]. *)
Definition vapash_get_seedhash (block_number : Z) : R bytes :=
  let epochs := block_number / VAPASH_EPOCH_LENGTH in
  if epochs <? 2 ^ 32 then Ok (Nat.iter (Z.to_nat epochs) SHA3_256 (replicate 32 0)) else Err Endless.

Fixpoint vapash_check_difficulty (hash boundary : bytes) : bool :=
  match hash, boundary with
  | h :: hash', b :: boundary' => if h =? b then vapash_check_difficulty hash' boundary' else h <? b
  | _, _ => true
  end.

Definition vapash_quick_check_difficulty (header_hash : bytes) (nonce : Z) (mix_hash boundary : bytes) : bool :=
  vapash_check_difficulty (vapash_quick_hash header_hash nonce mix_hash) boundary.

(** ** Handles *)

(** [allocated] is whether the two allocations succeed; [None] is [NULL]. *)
Definition vapash_light_new_internal (allocated : bool) (size : Z) (seed : bytes) : R (option vapash_light) :=
  if negb allocated then Ok None else
  let! nodes := vapash_compute_cache_nodes size seed in
  match nodes with
  | None => Ok None
  | Some nodes => Ok (Some {| cache := nodes; cache_size := size; block_number := 0 |})
  end.

(** The result is written to without a check. *)
Definition vapash_light_new (allocated : bool) (n : Z) : R vapash_light :=
  let! seedhash := vapash_get_seedhash n in
  let! size := vapash_get_cachesize n in
  let! ret := vapash_light_new_internal allocated size seedhash in
  match ret with
  | None => Err NullPointer
  | Some l => Ok {| cache := cache l; cache_size := cache_size l; block_number := n |}
  end.

(** [success] is whether the result is [Some]. *)
Definition vapash_light_compute_internal (light : vapash_light) (full_size : Z) (header_hash : bytes) (nonce : Z)
    : R (option vapash_return_value) :=
  vapash_hash (Light light) full_size header_hash nonce.

Definition vapash_light_compute (light : vapash_light) (header_hash : bytes) (nonce : Z)
    : R (option vapash_return_value) :=
  let! full_size := vapash_get_datasize (block_number light) in
  vapash_light_compute_internal light full_size header_hash nonce.

Definition vapash_full_compute (data : list node) (file_size : Z) (header_hash : bytes) (nonce : Z)
    : R (option vapash_return_value) :=
  vapash_hash (Full data) file_size header_hash nonce.

(** ** Lemmas *)

#[local] Opaque SHA3_512 SHA3_256.

(** *** Loops and accesses *)

Lemma result_ext {A B} (m : R A) (f g : A -> R B) :
  (forall a, m = Ok a -> f a = g a) -> result_bind m f = result_bind m g.
Proof. destruct m; cbn; auto. Qed.

Lemma Ok_Some {A} (a b : A) : (Ok (Some a) : R (option A)) = Ok (Some b) -> a = b.
Proof. congruence. Qed.

Lemma for_each_ext {A} (f g : A -> Z -> R A) l a :
  (forall a i, i ∈ l -> f a i = g a i) -> for_each f l a = for_each g l a.
Proof.
  revert a. induction l as [|i l IH]; intros a H; [done|]. cbn [for_each]. rewrite H by left.
  apply result_ext. intros a' _. apply IH. intros. apply H. by right.
Qed.

(** An invariant that every iteration keeps. *)
Lemma for_each_inv {A} (I : A -> Prop) (f : A -> Z -> R A) l a :
  I a -> (forall a i, I a -> i ∈ l -> exists a', f a i = Ok a' /\ I a') -> exists a', for_each f l a = Ok a' /\ I a'.
Proof.
  revert a. induction l as [|i l IH]; intros a Ha H; cbn [for_each]; [by exists a|].
  destruct (H a i Ha ltac:(by left)) as (a' & -> & Ha'). cbn. apply IH; [done|]. intros. apply H; [done|by right].
Qed.

Lemma elem_upto n i : 0 <= n -> i ∈ upto n <-> 0 <= i < n.
Proof.
  intros Hn. unfold upto. rewrite list_elem_of_fmap. split.
  - intros (k & -> & Hk%elem_of_seq). lia.
  - intros Hi. exists (Z.to_nat i). rewrite elem_of_seq. lia.
Qed.

Lemma at_ok {A} (a : list A) i : 0 <= i < zlen a -> exists v, at_ a i = Ok v /\ v ∈ a.
Proof.
  intros Hi. unfold at_, zat. destruct (Z.ltb_spec i 0); [lia|].
  destruct (lookup_lt_is_Some_2 a (Z.to_nat i)) as [v Hv]; [lia|]. rewrite Hv. exists v. split; [done|].
  by apply list_elem_of_lookup_2 in Hv.
Qed.

Lemma set_at_ok {A} (a : list A) i v : 0 <= i < zlen a -> set_at a i v = Ok (<[Z.to_nat i := v]> a).
Proof. intros Hi. unfold set_at. by destruct (Z.leb_spec 0 i), (Z.ltb_spec i (zlen a)); try lia. Qed.

Lemma modulo_ok a b : 0 < b -> modulo a b = Ok (a mod b) /\ 0 <= a mod b < b.
Proof. intros Hb. unfold modulo. destruct (Z.eqb_spec b 0); [lia|]. split; [done|]. apply Z.mod_pos_bound. lia. Qed.

(** *** Words and bytes *)

Definition node_ok (n : node) : Prop := length n = 16%nat /\ Forall (uint_ok 32) n.

Lemma bytes_node_ok b : bytes_ok b -> node_ok (bytes_node b).
Proof.
  intros Hb. split; [unfold bytes_node; by rewrite length_map, length_seq|].
  apply Forall_forall. intros w Hw. unfold bytes_node in Hw. apply List.in_map_iff in Hw as (i & <- & _).
  set (r := rev (take 4 (drop (4 * i) b))).
  assert (bytes_ok r) as Hr by (apply Forall_rev, Forall_take, Forall_drop, Hb).
  pose proof (be_val_range r Hr) as Hv. assert (zlen r <= 4) by (unfold r; rewrite length_rev, length_take; lia).
  assert (256 ^ zlen r <= 256 ^ 4) by (apply Z.pow_le_mono_r; lia). unfold uint_ok. lia.
Qed.

Lemma node_bytes_app a b : node_bytes (a ++ b) = node_bytes a ++ node_bytes b.
Proof. apply List.flat_map_app. Qed.

Lemma take_drop_step k (b : bytes) i :
  length b = (4 * (i + k))%nat -> drop (4 * i) b = flat_map (fun j => take 4 (drop (4 * j) b)) (seq i k).
Proof.
  revert i. induction k as [|k IH]; intros i Hl.
  - cbn. apply drop_ge. lia.
  - cbn [seq flat_map]. rewrite <- (IH (S i)) by lia. rewrite <- (take_drop 4 (drop (4 * i) b)) at 1.
    f_equal. rewrite drop_drop. f_equal. lia.
Qed.

(** The bytes of the node read from 64 bytes are those bytes. *)
Lemma node_bytes_of b : bytes_ok b -> length b = 64%nat -> node_bytes (bytes_node b) = b.
Proof.
  intros Hb Hl. transitivity (drop (4 * 0) b); [|done]. rewrite (take_drop_step 16 b 0) by done.
  unfold node_bytes, bytes_node. rewrite !List.flat_map_concat_map, List.map_map. f_equal.
  apply List.map_ext_in. intros i Hi%List.in_seq. set (c := take 4 (drop (4 * i) b)).
  assert (length c = 4%nat) as Hc by (unfold c; rewrite length_take, length_drop; lia).
  assert (bytes_ok (rev c)) as Hr by (apply Forall_rev, Forall_take, Forall_drop, Hb).
  pose proof (toBigEndian_be_val (rev c) Hr) as H. rewrite length_rev, Hc in H. rewrite H. apply rev_involutive.
Qed.

(** *** The cache and the items are well formed *)

Lemma chain_ok n b : Forall node_ok (chain n b) /\ length (chain n b) = n.
Proof.
  revert b. induction n as [|n IH]; intros b; [split; [constructor|done]|]. cbn [chain length].
  destruct (IH (SHA3_512 b)) as [H1 H2]. split; [|by rewrite H2]. constructor; [|done].
  apply bytes_node_ok, SHA3_512_sponge.
Qed.

Lemma word0 n : node_ok n -> exists w, at_ n 0 = Ok w /\ uint_ok 32 w.
Proof.
  intros [Hl Hw]. destruct (at_ok n 0 ltac:(lia)) as (w & -> & Hin). exists w. split; [done|].
  rewrite Forall_forall in Hw. by apply Hw, list_elem_of_In.
Qed.

(** [num] nodes, each of 16 words. *)
Definition nodes_ok (num : Z) (nodes : list node) : Prop := zlen nodes = num /\ Forall node_ok nodes.

Lemma nodes_at num nodes i : nodes_ok num nodes -> 0 <= i < num -> exists n, at_ nodes i = Ok n /\ node_ok n.
Proof.
  intros [Hl Hn] Hi. destruct (at_ok nodes i ltac:(lia)) as (n & -> & Hin). exists n. split; [done|].
  rewrite Forall_forall in Hn. by apply Hn, list_elem_of_In.
Qed.

Lemma cache_step_ok num nodes i :
  nodes_ok num nodes -> 0 <= i < num -> exists nodes', cache_step num nodes i = Ok nodes' /\ nodes_ok num nodes'.
Proof.
  intros Hn Hi. unfold cache_step. destruct (nodes_at num nodes i Hn Hi) as (n & -> & Hn1). cbn [result_bind].
  destruct (word0 n Hn1) as (w & -> & _). cbn [result_bind]. destruct (modulo_ok w num ltac:(lia)) as [-> H1]. cbn [result_bind].
  destruct (modulo_ok (wrap 32 (num - 1 + i)) num ltac:(lia)) as [-> H2]. cbn [result_bind].
  destruct (nodes_at num nodes _ Hn H2) as (data & -> & _). cbn [result_bind].
  destruct (nodes_at num nodes _ Hn H1) as (other & -> & _). cbn [result_bind]. destruct Hn as [Hl Hf].
  rewrite set_at_ok by lia. eexists. split; [reflexivity|]. split; [by rewrite length_insert|].
  apply Forall_insert; [done|]. apply bytes_node_ok, SHA3_512_sponge.
Qed.

(** A multiple of the node size gives a cache of that many nodes. *)
Lemma compute_cache_ok size seed :
  0 < size -> size mod 64 = 0 -> size / 64 < 2 ^ 32 ->
  exists nodes, vapash_compute_cache_nodes size seed = Ok (Some nodes) /\ nodes_ok (size / 64) nodes.
Proof.
  intros H0 Hm Hs. unfold vapash_compute_cache_nodes, sizeof_node. rewrite Hm. cbn [negb Z.eqb].
  assert (0 < size / 64) as Hp by (pose proof (Z.div_mod size 64 ltac:(lia)); lia).
  rewrite wrap_small by (unfold uint_ok; lia). destruct (Z.eqb_spec (size / 64) 0); [lia|].
  set (num := size / 64) in *. destruct (chain_ok (Z.to_nat num) seed) as [Hc Hcl].
  destruct (for_each_inv (nodes_ok num) (cache_round num) (upto (Z.of_nat VAPASH_CACHE_ROUNDS)) (chain (Z.to_nat num) seed))
    as (nodes & -> & Hn).
  - split; [|exact Hc]. lia.
  - intros a j Ha _. unfold cache_round. apply for_each_inv; [done|].
    intros a' i Ha' Hi%elem_upto; [|lia]. by apply cache_step_ok.
  - cbn. by exists nodes.
Qed.

Definition light_ok (light : vapash_light) : Prop :=
  let num := cache_size light / 64 in 0 < num < 2 ^ 32 /\ nodes_ok num (cache light).

Lemma dag_item_ok light k :
  light_ok light -> exists n, vapash_calculate_dag_item k light = Ok n /\ node_ok n.
Proof.
  intros [Hp Hn]. unfold vapash_calculate_dag_item, sizeof_node. cbn zeta in *.
  set (num := cache_size light / 64) in *. rewrite wrap_small by (unfold uint_ok; lia).
  destruct (modulo_ok k num ltac:(lia)) as [-> H1]. cbn [result_bind].
  destruct (nodes_at num _ _ Hn H1) as (n & -> & Hn1). cbn [result_bind].
  destruct (word0 n Hn1) as (w & -> & _). cbn [result_bind].
  rewrite set_at_ok by (destruct Hn1; lia). cbn [result_bind].
  set (ret := bytes_node _). assert (node_ok ret) as Hr by apply bytes_node_ok, SHA3_512_sponge.
  destruct (for_each_inv (fun n : node => length n = 16%nat) (dag_parent light num k)
    (upto (Z.of_nat VAPASH_DATASET_PARENTS)) ret) as (ret' & -> & _); [apply Hr| |].
  - intros a i Ha Hi%elem_upto; [|done]. unfold dag_parent, NODE_WORDS.
    destruct (at_ok a (i mod 16)) as (v & -> & _).
    { rewrite Ha. change (Z.of_nat 16) with 16. apply Z.mod_pos_bound. lia. }
    cbn [result_bind]. destruct (modulo_ok (fnv_hash (Z.lxor k i) v) num ltac:(lia)) as [-> H2]. cbn [result_bind].
    destruct (nodes_at num _ _ Hn H2) as (parent & -> & Hpa). cbn [result_bind]. eexists. split; [reflexivity|].
    rewrite length_zip_with, Ha. destruct Hpa as [-> _]. done.
  - cbn [result_bind]. eexists. split; [reflexivity|]. apply bytes_node_ok, SHA3_512_sponge.
Qed.

(** *** The full dataset holds the items *)

Lemma full_data_loop_spec light cb max_n l acc nodes :
  full_data_loop light cb max_n l acc = Ok (Some nodes) ->
  exists items, nodes = acc ++ items /\ Forall2 (fun n item => vapash_calculate_dag_item n light = Ok item) l items.
Proof.
  revert acc. induction l as [|n l IH]; intros acc; cbn [full_data_loop].
  { intros [= <-]. exists []. by rewrite app_nil_r. }
  intros H. apply result_bind_Ok in H as (stop & _ & H). destruct stop; [done|].
  apply result_bind_Ok in H as (item & Hi & H). apply IH in H as (items & -> & Hf).
  exists (item :: items). rewrite <- app_assoc. split; [done|]. by constructor.
Qed.

Lemma full_data_at full_size light cb nodes k :
  vapash_compute_full_data full_size light cb = Ok (Some nodes) ->
  0 <= k < wrap 32 (full_size / 64) -> at_ nodes k = vapash_calculate_dag_item k light.
Proof.
  unfold vapash_compute_full_data. destruct (_ || _); [done|]. intros H Hk.
  apply full_data_loop_spec in H as (items & -> & Hf). cbn [app]. unfold sizeof_node in Hf.
  assert (upto (wrap 32 (full_size / 64)) !! Z.to_nat k = Some k) as Hl.
  { unfold upto. rewrite list_lookup_fmap, lookup_seq_lt by lia. cbn. f_equal. lia. }
  destruct (Forall2_lookup_l _ _ _ _ _ Hf Hl) as (item & Hi & ->). unfold at_, zat.
  destruct (Z.ltb_spec k 0); [lia|]. by rewrite Hi.
Qed.

(** Without a callback the dataset is always completed. *)
Lemma full_data_total light full_size :
  light_ok light -> full_size mod 128 = 0 -> exists nodes, vapash_compute_full_data full_size light None = Ok (Some nodes).
Proof.
  intros Hl Hm. unfold vapash_compute_full_data, MIX_WORDS, sizeof_node. change (4 * 32) with 128. rewrite Hm.
  assert (full_size mod 64 = 0) as ->.
  { pose proof (Z.div_mod full_size 128 ltac:(lia)) as Hd. rewrite Hd, Hm, Z.add_0_r.
    replace (128 * (full_size / 128)) with (2 * (full_size / 128) * 64) by lia. apply Z.mod_mul. lia. }
  cbn [negb orb Z.eqb]. generalize (wrap 32 (full_size / 64)) at 1. intros max_n.
  generalize (@nil node). induction (upto (wrap 32 (full_size / 64))) as [|n l IH]; intros acc; [by eexists|].
  cbn [full_data_loop result_bind]. destruct (dag_item_ok light n Hl) as (item & -> & _). cbn [result_bind]. apply IH.
Qed.

(** *** Difficulty *)

Lemma check_difficulty_le hash boundary :
  bytes_ok hash -> bytes_ok boundary -> length hash = length boundary ->
  vapash_check_difficulty hash boundary = (be_val hash <=? be_val boundary).
Proof.
  intros Hh. revert boundary. induction Hh as [|h hash Hb Hh IH]; intros [|b boundary] Hk Hl; try done.
  apply Forall_cons_1 in Hk as [Hb' Hk]. injection Hl as Hl. cbn [vapash_check_difficulty be_val].
  pose proof (be_val_range hash Hh) as H1. pose proof (be_val_range boundary Hk) as H2. rewrite <- Hl in *.
  set (p := 256 ^ zlen hash) in *. destruct (Z.eqb_spec h b) as [->|].
  - rewrite IH by done. destruct (Z.leb_spec (be_val hash) (be_val boundary)), (Z.leb_spec (b * p + be_val hash) (b * p + be_val boundary)); lia.
  - destruct (Z.ltb_spec h b), (Z.leb_spec (h * p + be_val hash) (b * p + be_val boundary)); try done; nia.
Qed.

(** *** The hash always gives a result *)

Lemma node_bytes_length n : length (node_bytes n) = (4 * length n)%nat.
Proof.
  induction n as [|w n IH]; [done|]. unfold node_bytes in *. cbn [List.flat_map length].
  rewrite length_app, length_rev, toBigEndian_length, IH. lia.
Qed.

Lemma mix_node_ok light index mix n :
  light_ok light -> length mix = 32%nat -> 0 <= n < 2 ->
  exists mix', mix_node (Light light) index mix n = Ok mix' /\ length mix' = 32%nat.
Proof.
  intros Hl Hm Hn. unfold mix_node, dag_node.
  destruct (dag_item_ok light (wrap 32 (index * MIX_NODES + n)) Hl) as (item & -> & Hi & _). cbn [result_bind].
  eexists. split; [reflexivity|]. unfold ztake, zdrop, NODE_WORDS.
  rewrite !length_app, length_zip_with, !length_take, !length_drop, Hi, Hm. lia.
Qed.

Lemma access_ok light pages s0 mix i :
  light_ok light -> 0 < pages -> length mix = 32%nat ->
  exists mix', access (Light light) pages s0 mix i = Ok mix' /\ length mix' = 32%nat.
Proof.
  intros Hl Hp Hm. unfold access, MIX_WORDS. destruct (at_ok mix (i mod 32)) as (w & -> & _).
  { rewrite Hm. change (Z.of_nat 32) with 32. apply Z.mod_pos_bound. lia. }
  cbn [result_bind]. destruct (modulo_ok (fnv_hash (Z.lxor s0 i) w) pages Hp) as [-> _]. cbn [result_bind].
  apply (for_each_inv (fun m : list Z => length m = 32%nat)); [done|].
  intros a n Ha Hn%elem_upto; [|done]. by apply mix_node_ok.
Qed.

Lemma compress_ok mix w :
  length mix = 32%nat -> 0 <= w <= 28 -> exists mix', compress_step mix w = Ok mix' /\ length mix' = 32%nat.
Proof.
  intros Hm Hw. unfold compress_step.
  destruct (at_ok mix (w + 0) ltac:(lia)) as (a & -> & _). destruct (at_ok mix (w + 1) ltac:(lia)) as (b & -> & _).
  destruct (at_ok mix (w + 2) ltac:(lia)) as (c & -> & _). destruct (at_ok mix (w + 3) ltac:(lia)) as (e & -> & _).
  cbn [result_bind]. pose proof (Z.div_mod w 4 ltac:(lia)). pose proof (Z.mod_pos_bound w 4 ltac:(lia)).
  rewrite set_at_ok by lia. eexists. split; [reflexivity|]. by rewrite length_insert.
Qed.

Lemma hash_total light full_size header_hash nonce :
  light_ok light -> full_size mod 128 = 0 -> 0 < full_size / 128 < 2 ^ 32 ->
  exists ret, vapash_hash (Light light) full_size header_hash nonce = Ok (Some ret) /\
    length (mix_hash ret) = 32%nat /\ length (result_ ret) = 32%nat.
Proof.
  intros Hl Hm Hp. assert (full_size mod 32 = 0) as H32.
  { pose proof (Z.div_mod full_size 128 ltac:(lia)) as Hd. rewrite Hd, Hm, Z.add_0_r.
    replace (128 * (full_size / 128)) with (4 * (full_size / 128) * 32) by lia. apply Z.mod_mul. lia. }
  unfold vapash_hash. unfold MIX_WORDS at 1. rewrite H32. cbn [negb Z.eqb].
  set (s := bytes_node _). assert (node_ok s) as Hs by apply bytes_node_ok, SHA3_512_sponge.
  destruct (word0 s Hs) as (s0 & -> & _). cbn [result_bind]. change (4 * MIX_WORDS) with 128.
  rewrite wrap_small by (unfold uint_ok; lia).
  destruct (for_each_inv (fun m : list Z => length m = 32%nat) (access (Light light) (full_size / 128) s0)
    (upto (Z.of_nat VAPASH_ACCESSES)) (s ++ s)) as (mix & -> & Hx).
  { rewrite length_app. destruct Hs as [-> _]. done. }
  { intros a i Ha _. apply access_ok; [done|lia|done]. }
  cbn [result_bind].
  destruct (for_each_inv (fun m : list Z => length m = 32%nat) compress_step
    (map (fun k => 4 * k) (upto (MIX_WORDS / 4))) mix Hx) as (mix' & -> & Hx').
  { intros a w Ha Hw. apply list_elem_of_fmap in Hw as (k & -> & Hk%elem_upto); [|done].
    change (MIX_WORDS / 4) with 8 in Hk. apply compress_ok; [done|lia]. }
  cbn [result_bind]. eexists. split; [reflexivity|]. cbn [mix_hash result_]. split.
  - rewrite length_take, node_bytes_length, Hx'. done.
  - apply SHA3_256_sponge.
Qed.

(** The sizes of an epoch that is in the tables. *)
Lemma table_at t unit init growth e :
  sizes_ok unit init growth 0 t = true -> length t = 2048%nat -> 0 <= e < 2048 ->
  exists s, at_ t e = Ok s /\ 0 < s /\ s mod unit = 0 /\ s < init + growth * e /\ init + growth * e - s < 2 ^ 16.
Proof.
  intros Hok Hl He. destruct (lookup_lt_is_Some_2 t (Z.to_nat e)) as [s Hs]; [lia|].
  pose proof (sizes_ok_lookup _ _ _ _ _ _ _ Hok Hs) as H. unfold size_ok in H. cbn [Nat.add] in H.
  rewrite Z2Nat.id in H by lia. exists s. unfold at_, zat. destruct (Z.ltb_spec e 0); [lia|]. rewrite Hs.
  rewrite !andb_true_iff in H. split; [done|]. lia.
Qed.

(** Epochs, and the sizes of their caches. *)
Lemma epoch_seed n : 0 <= n -> n / 30000 < 2048 -> exists seed, vapash_get_seedhash n = Ok seed.
Proof.
  intros H0 He. unfold vapash_get_seedhash, VAPASH_EPOCH_LENGTH. destruct (Z.ltb_spec (n / 30000) (2 ^ 32)); [|lia].
  by eexists.
Qed.

Lemma light_new_ok n :
  0 <= n -> n / 30000 < 2048 ->
  exists light, vapash_light_new true n = Ok light /\ light_ok light /\ block_number light = n.
Proof.
  intros H0 He. unfold vapash_light_new. destruct (epoch_seed n H0 He) as (seed & ->). cbn [result_bind].
  pose proof (Z.div_pos n 30000 H0 ltac:(lia)). destruct cache_sizes_ok as [Hok Hl].
  destruct (table_at _ _ _ _ (n / 30000) Hok Hl ltac:(lia)) as (s & Hs & H1 & H2 & H3 & _).
  unfold vapash_get_cachesize, VAPASH_EPOCH_LENGTH. rewrite Hs. cbn [result_bind]. unfold vapash_light_new_internal. cbn [negb].
  pose proof (Z.div_mod s 64 ltac:(lia)) as Hd.
  destruct (compute_cache_ok s seed H1 H2 ltac:(lia)) as (nodes & -> & Hn). cbn [result_bind].
  eexists. split; [reflexivity|]. split; [|done]. split; cbn; [lia|done].
Qed.

Lemma light_compute_ok n light header_hash nonce :
  0 <= n -> n / 30000 < 2048 -> light_ok light -> block_number light = n ->
  exists ret, vapash_light_compute light header_hash nonce = Ok (Some ret) /\
    length (mix_hash ret) = 32%nat /\ length (result_ ret) = 32%nat.
Proof.
  intros H0 He Hok Hb. pose proof (Z.div_pos n 30000 H0 ltac:(lia)).
  unfold vapash_light_compute. rewrite Hb. unfold vapash_get_datasize, VAPASH_EPOCH_LENGTH.
  destruct dag_sizes_ok as [Hd Hlen]. destruct (table_at _ _ _ _ (n / 30000) Hd Hlen ltac:(lia)) as (s & -> & H1 & H2 & H3 & H4).
  cbn [result_bind]. apply hash_total; [done|done|]. pose proof (Z.div_mod s 128 ltac:(lia)). lia.
Qed.

Lemma quick_hash_eq d full_size header_hash nonce ret :
  vapash_hash d full_size header_hash nonce = Ok (Some ret) ->
  result_ ret = vapash_quick_hash header_hash nonce (mix_hash ret).
Proof.
  intros H. unfold vapash_hash in H. destruct (negb _); [done|]. cbn zeta in H.
  apply result_bind_Ok in H as (s0 & _ & H). apply result_bind_Ok in H as (mix & _ & H).
  apply result_bind_Ok in H as (mix' & _ & H). apply Ok_Some in H. subst ret. cbn [result_ mix_hash].
  unfold vapash_quick_hash. by rewrite node_bytes_of by apply SHA3_512_sponge.
Qed.

(** ** Properties *)

(** C37: verification always works, for every block of the 2048 epochs of the
    tables: when the allocations succeed, a light handle can be made for the block
    and any header and nonce can be hashed with it; no access to the cache or the
    mix is out of range and nothing is divided by zero. *)
Theorem light_total n :
  0 <= n < 2048 * 30000 ->
  exists light, vapash_light_new true n = Ok light /\
    forall header_hash nonce, exists ret, vapash_light_compute light header_hash nonce = Ok (Some ret) /\
      length (mix_hash ret) = 32%nat /\ length (result_ ret) = 32%nat.
Proof.
  intros Hn. assert (0 <= n / 30000 < 2048) as He by (split; [apply Z.div_pos|apply Z.div_lt_upper_bound]; lia).
  destruct (light_new_ok n ltac:(lia) ltac:(lia)) as (light & Hl & Hok & Hb). exists light. split; [done|].
  intros header_hash nonce. apply (light_compute_ok n); (done || lia).
Qed.

Lemma light_total_witness :
  exists light, vapash_light_new true 61439999 = Ok light /\
    forall header_hash nonce, exists ret, vapash_light_compute light header_hash nonce = Ok (Some ret) /\
      length (mix_hash ret) = 32%nat /\ length (result_ ret) = 32%nat.
Proof. apply (light_total 61439999). lia. Defined.

(** C38: the light and the full client compute the same hash: with the dataset that
    [vapash_compute_full_data] makes from a cache, whatever the callback, hashing
    any header and nonce over it gives what hashing with the items computed on the
    fly from that cache gives. *)
Theorem light_full full_size light cb nodes header_hash nonce :
  full_size / 64 < 2 ^ 32 -> 0 <= full_size ->
  vapash_compute_full_data full_size light cb = Ok (Some nodes) ->
  vapash_full_compute nodes full_size header_hash nonce =
  vapash_light_compute_internal light full_size header_hash nonce.
Proof.
  intros Hs H0 Hfull. pose proof (fun k => full_data_at _ _ _ _ k Hfull) as Hat.
  assert (full_size mod 128 = 0) as Hm.
  { unfold vapash_compute_full_data, MIX_WORDS in Hfull. destruct (Z.eqb_spec (full_size mod (4 * 32)) 0); done. }
  unfold vapash_full_compute, vapash_light_compute_internal, vapash_hash. destruct (negb _); [done|].
  apply result_ext. intros s0 _. cbn zeta. unfold MIX_WORDS at 1 3. change (4 * 32) with 128.
  pose proof (Z.div_mod full_size 128 ltac:(lia)) as Hd1. pose proof (Z.div_mod full_size 64 ltac:(lia)) as Hd2.
  pose proof (Z.mod_pos_bound full_size 64 ltac:(lia)). set (pages := full_size / 128) in *.
  rewrite wrap_small in Hat by (unfold uint_ok; lia). rewrite wrap_small by (unfold uint_ok; lia).
  rewrite (for_each_ext (access (Full nodes) pages s0) (access (Light light) pages s0)); [done|].
  intros mix i _. unfold access. apply result_ext. intros w _. apply result_ext. intros index Hi.
  assert (0 <= index < pages).
  { unfold modulo in Hi. destruct (Z.eqb_spec pages 0); [done|]. injection Hi as <-. apply Z.mod_pos_bound. lia. }
  apply for_each_ext. intros mix' n Hn%elem_upto; [|done]. unfold MIX_NODES in Hn. unfold mix_node, dag_node, MIX_NODES.
  rewrite (Z.mul_comm index). rewrite wrap_small by (unfold uint_ok; lia). by rewrite Hat by lia.
Qed.

(** A cache of one node. *)
Definition tiny_light : vapash_light := {| cache := [replicate 16 7]; cache_size := 64; block_number := 0 |}.
Lemma tiny_ok : light_ok tiny_light.
Proof.
  split; [vm_compute; done|]. split; [reflexivity|]. constructor; [|constructor]. split; [reflexivity|].
  repeat constructor; unfold uint_ok; lia.
Qed.

Lemma light_full_witness :
  exists nodes, vapash_compute_full_data 256 tiny_light None = Ok (Some nodes) /\
  vapash_full_compute nodes 256 (replicate 32 1) 42 =
  vapash_light_compute_internal tiny_light 256 (replicate 32 1) 42.
Proof.
  destruct (full_data_total tiny_light 256 tiny_ok) as (nodes & H); [reflexivity|].
  exists nodes. split; [exact H|].
  apply (light_full 256 tiny_light None nodes (replicate 32 1) 42); [vm_compute; reflexivity|lia|exact H].
Defined.

(** the quick check of a nonce agrees with the full computation: whatever mix
    hash the computation gives, with either dataset, the result it gives is the
    quick hash of that mix hash, so that [vapash_quick_check_difficulty] on a
    block's own mix hash decides exactly whether its result is under the boundary. *)
Theorem quick_check d full_size header_hash nonce ret boundary :
  vapash_hash d full_size header_hash nonce = Ok (Some ret) ->
  result_ ret = vapash_quick_hash header_hash nonce (mix_hash ret) /\
  vapash_quick_check_difficulty header_hash nonce (mix_hash ret) boundary =
    vapash_check_difficulty (result_ ret) boundary.
Proof.
  intros H. pose proof (quick_hash_eq _ _ _ _ _ H) as Hr. split; [done|].
  unfold vapash_quick_check_difficulty. by rewrite Hr.
Qed.

Lemma quick_check_witness :
  exists ret, vapash_hash (Light tiny_light) 128 (replicate 32 1) 42 = Ok (Some ret) /\
    vapash_quick_check_difficulty (replicate 32 1) 42 (mix_hash ret) (replicate 32 255) =
    vapash_check_difficulty (result_ ret) (replicate 32 255).
Proof.
  destruct (hash_total tiny_light 128 (replicate 32 1) 42 tiny_ok) as (ret & H & _); [reflexivity|vm_compute; done|].
  exists ret. split; [exact H|]. apply (quick_check (Light tiny_light) 128 (replicate 32 1) 42 ret (replicate 32 255) H).
Defined.

(** a hash meets a boundary exactly when, as big-endian numbers, it is at most
    the boundary. *)
Theorem check_difficulty_spec hash boundary :
  bytes_ok hash -> bytes_ok boundary -> length hash = 32%nat -> length boundary = 32%nat ->
  vapash_check_difficulty hash boundary = (be_val hash <=? be_val boundary).
Proof. intros. apply check_difficulty_le; [done|done|congruence]. Qed.

Lemma check_difficulty_spec_witness :
  vapash_check_difficulty (1 :: replicate 31 255) (2 :: replicate 31 0) = (be_val (1 :: replicate 31 255) <=? be_val (2 :: replicate 31 0)).
Proof.
  apply (check_difficulty_spec (1 :: replicate 31 255) (2 :: replicate 31 0));
    [repeat constructor; unfold is_byte; lia|repeat constructor; unfold is_byte; lia|reflexivity|reflexivity].
Defined.

(** [vapash_light_new] writes to its result without a check, so that a failed
    allocation is a null-pointer access, for every block of the tables. *)
Theorem light_new_unchecked n :
  0 <= n < 2048 * 30000 -> vapash_light_new false n = Err NullPointer.
Proof.
  intros Hn. assert (0 <= n / 30000 < 2048) as He by (split; [apply Z.div_pos|apply Z.div_lt_upper_bound]; lia).
  unfold vapash_light_new. destruct (epoch_seed n ltac:(lia) ltac:(lia)) as (seed & ->). cbn [result_bind].
  destruct cache_sizes_ok as [Hok Hl]. destruct (table_at _ _ _ _ (n / 30000) Hok Hl ltac:(lia)) as (s & Hs & _).
  unfold vapash_get_cachesize, VAPASH_EPOCH_LENGTH. by rewrite Hs.
Qed.

Lemma light_new_unchecked_witness : vapash_light_new false 5 = Err NullPointer.
Proof. apply (light_new_unchecked 5). lia. Defined.

(** [vapash_compute_full_data] with a callback divides by zero for a dataset of
    fewer than 100 nodes: the progress step [max_n / 100] is zero. *)
Theorem full_data_divides full_size light f :
  full_size mod 128 = 0 -> 0 < full_size < 6400 ->
  vapash_compute_full_data full_size light (Some f) = Err DivideByZero.
Proof.
  intros Hm Hs. unfold vapash_compute_full_data, MIX_WORDS, sizeof_node. change (4 * 32) with 128. rewrite Hm.
  pose proof (Z.div_mod full_size 128 ltac:(lia)) as Hd. rewrite Hm, Z.add_0_r in Hd.
  assert (full_size = full_size / 128 * 2 * 64) as Hd' by lia.
  assert (full_size mod 64 = 0) as -> by (rewrite Hd'; apply Z.mod_mul; lia).
  assert (full_size / 64 = full_size / 128 * 2) as -> by (rewrite Hd' at 1; apply Z.div_mul; lia). cbn [negb orb Z.eqb].
  rewrite wrap_small by (unfold uint_ok; lia). unfold upto.
  destruct (Z.to_nat (full_size / 128 * 2)) as [|k] eqn:Ek; [lia|]. cbn [seq map full_data_loop].
  rewrite (Z.div_small (full_size / 128 * 2) 100) by lia. done.
Qed.

Lemma full_data_divides_witness :
  vapash_compute_full_data 256 tiny_light (Some (fun _ => false)) = Err DivideByZero.
Proof. apply (full_data_divides 256); [reflexivity|lia]. Defined.

End Vapash.
