(* ===== verification/Instruction.v ===== *)
(** * Instruction: the instruction set and the gas schedules

    libvvm/Instruction.h and Instruction.cpp (the opcodes, and the table of their
    stack effects and price tiers), libvvm/VMConfig.h (the dispatch table) and
    libvapcore/VVMSchedule.h (the gas prices of each protocol version). *)

From stdpp Require Import base list numbers option strings.
From Stdlib Require Import ZArith Lia.
From S2P Require Import Prelude.

(** [enum class Instruction: uint8_t]. *)
Module Instruction.

Inductive t :=
| STOP | ADD | MUL | SUB | DIV | SDIV | MOD | SMOD | ADDMOD | MULMOD | EXP | SIGNEXTEND
| LT | GT | SLT | SGT | EQ | ISZERO | AND | OR | XOR | NOT | BYTE | SHA3 | ADDRESS
| BALANCE | ORIGIN | CALLER | CALLVALUE | CALLDATALOAD | CALLDATASIZE | CALLDATACOPY
| CODESIZE | CODECOPY | GASPRICE | EXTCODESIZE | EXTCODECOPY | RETURNDATASIZE
| RETURNDATACOPY | BLOCKHASH | COINBASE | TIMESTAMP | NUMBER | DIFFICULTY | GASLIMIT
| POP | MLOAD | MSTORE | MSTORE8 | SLOAD | SSTORE | JUMP | JUMPI | PC | MSIZE | GAS
| JUMPDEST | PUSH1 | PUSH2 | PUSH3 | PUSH4 | PUSH5 | PUSH6 | PUSH7 | PUSH8 | PUSH9
| PUSH10 | PUSH11 | PUSH12 | PUSH13 | PUSH14 | PUSH15 | PUSH16 | PUSH17 | PUSH18 | PUSH19
| PUSH20 | PUSH21 | PUSH22 | PUSH23 | PUSH24 | PUSH25 | PUSH26 | PUSH27 | PUSH28 | PUSH29
| PUSH30 | PUSH31 | PUSH32 | DUP1 | DUP2 | DUP3 | DUP4 | DUP5 | DUP6 | DUP7 | DUP8 | DUP9
| DUP10 | DUP11 | DUP12 | DUP13 | DUP14 | DUP15 | DUP16 | SWAP1 | SWAP2 | SWAP3 | SWAP4
| SWAP5 | SWAP6 | SWAP7 | SWAP8 | SWAP9 | SWAP10 | SWAP11 | SWAP12 | SWAP13 | SWAP14
| SWAP15 | SWAP16 | LOG0 | LOG1 | LOG2 | LOG3 | LOG4 | PUSHC | JUMPC | JUMPCI | JUMPTO
| JUMPIF | JUMPSUB | JUMPV | JUMPSUBV | BEGINSUB | BEGINDATA | RETURNSUB | PUTLOCAL
| GETLOCAL | XADD | XMUL | XSUB | XDIV | XSDIV | XMOD | XSMOD | XLT | XGT | XSLT | XSGT
| XEQ | XISZERO | XAND | XOOR | XXOR | XNOT | XSHL | XSHR | XSAR | XROL | XROR | XPUSH
| XMLOAD | XMSTORE | XSLOAD | XSSTORE | XVTOWIDE | XWIDETOV | XGET | XPUT | XSWIZZLE
| XSHUFFLE | CREATE | CALL | CALLCODE | RETURN | DELEGATECALL | STATICCALL | CREATE2
| REVERT | INVALID | SUICIDE.


(** The byte of an instruction. *)
Definition code (i : t) : Z :=
  match i with
  | STOP => 0x00 | ADD => 0x01 | MUL => 0x02 | SUB => 0x03 | DIV => 0x04 | SDIV => 0x05
  | MOD => 0x06 | SMOD => 0x07 | ADDMOD => 0x08 | MULMOD => 0x09 | EXP => 0x0a
  | SIGNEXTEND => 0x0b | LT => 0x10 | GT => 0x11 | SLT => 0x12 | SGT => 0x13 | EQ => 0x14
  | ISZERO => 0x15 | AND => 0x16 | OR => 0x17 | XOR => 0x18 | NOT => 0x19 | BYTE => 0x1a
  | SHA3 => 0x20 | ADDRESS => 0x30 | BALANCE => 0x31 | ORIGIN => 0x32 | CALLER => 0x33
  | CALLVALUE => 0x34 | CALLDATALOAD => 0x35 | CALLDATASIZE => 0x36
  | CALLDATACOPY => 0x37 | CODESIZE => 0x38 | CODECOPY => 0x39 | GASPRICE => 0x3a
  | EXTCODESIZE => 0x3b | EXTCODECOPY => 0x3c | RETURNDATASIZE => 0x3d
  | RETURNDATACOPY => 0x3e | BLOCKHASH => 0x40 | COINBASE => 0x41 | TIMESTAMP => 0x42
  | NUMBER => 0x43 | DIFFICULTY => 0x44 | GASLIMIT => 0x45 | POP => 0x50 | MLOAD => 0x51
  | MSTORE => 0x52 | MSTORE8 => 0x53 | SLOAD => 0x54 | SSTORE => 0x55 | JUMP => 0x56
  | JUMPI => 0x57 | PC => 0x58 | MSIZE => 0x59 | GAS => 0x5a | JUMPDEST => 0x5b
  | PUSH1 => 0x60 | PUSH2 => 0x61 | PUSH3 => 0x62 | PUSH4 => 0x63 | PUSH5 => 0x64
  | PUSH6 => 0x65 | PUSH7 => 0x66 | PUSH8 => 0x67 | PUSH9 => 0x68 | PUSH10 => 0x69
  | PUSH11 => 0x6a | PUSH12 => 0x6b | PUSH13 => 0x6c | PUSH14 => 0x6d | PUSH15 => 0x6e
  | PUSH16 => 0x6f | PUSH17 => 0x70 | PUSH18 => 0x71 | PUSH19 => 0x72 | PUSH20 => 0x73
  | PUSH21 => 0x74 | PUSH22 => 0x75 | PUSH23 => 0x76 | PUSH24 => 0x77 | PUSH25 => 0x78
  | PUSH26 => 0x79 | PUSH27 => 0x7a | PUSH28 => 0x7b | PUSH29 => 0x7c | PUSH30 => 0x7d
  | PUSH31 => 0x7e | PUSH32 => 0x7f | DUP1 => 0x80 | DUP2 => 0x81 | DUP3 => 0x82
  | DUP4 => 0x83 | DUP5 => 0x84 | DUP6 => 0x85 | DUP7 => 0x86 | DUP8 => 0x87
  | DUP9 => 0x88 | DUP10 => 0x89 | DUP11 => 0x8a | DUP12 => 0x8b | DUP13 => 0x8c
  | DUP14 => 0x8d | DUP15 => 0x8e | DUP16 => 0x8f | SWAP1 => 0x90 | SWAP2 => 0x91
  | SWAP3 => 0x92 | SWAP4 => 0x93 | SWAP5 => 0x94 | SWAP6 => 0x95 | SWAP7 => 0x96
  | SWAP8 => 0x97 | SWAP9 => 0x98 | SWAP10 => 0x99 | SWAP11 => 0x9a | SWAP12 => 0x9b
  | SWAP13 => 0x9c | SWAP14 => 0x9d | SWAP15 => 0x9e | SWAP16 => 0x9f | LOG0 => 0xa0
  | LOG1 => 0xa1 | LOG2 => 0xa2 | LOG3 => 0xa3 | LOG4 => 0xa4 | PUSHC => 0xac
  | JUMPC => 0xad | JUMPCI => 0xae | JUMPTO => 0xb0 | JUMPIF => 0xb1 | JUMPSUB => 0xb2
  | JUMPV => 0xb3 | JUMPSUBV => 0xb4 | BEGINSUB => 0xb5 | BEGINDATA => 0xb6
  | RETURNSUB => 0xb7 | PUTLOCAL => 0xb8 | GETLOCAL => 0xb9 | XADD => 0xc1 | XMUL => 0xc2
  | XSUB => 0xc3 | XDIV => 0xc4 | XSDIV => 0xc5 | XMOD => 0xc6 | XSMOD => 0xc7
  | XLT => 0xd0 | XGT => 0xd1 | XSLT => 0xd2 | XSGT => 0xd3 | XEQ => 0xd4
  | XISZERO => 0xd5 | XAND => 0xd6 | XOOR => 0xd7 | XXOR => 0xd8 | XNOT => 0xd9
  | XSHL => 0xdb | XSHR => 0xdc | XSAR => 0xdd | XROL => 0xde | XROR => 0xdf
  | XPUSH => 0xe0 | XMLOAD => 0xe1 | XMSTORE => 0xe2 | XSLOAD => 0xe4 | XSSTORE => 0xe5
  | XVTOWIDE => 0xe6 | XWIDETOV => 0xe7 | XGET => 0xe8 | XPUT => 0xe9 | XSWIZZLE => 0xea
  | XSHUFFLE => 0xeb | CREATE => 0xf0 | CALL => 0xf1 | CALLCODE => 0xf2 | RETURN => 0xf3
  | DELEGATECALL => 0xf4 | STATICCALL => 0xfa | CREATE2 => 0xfb | REVERT => 0xfd
  | INVALID => 0xfe | SUICIDE => 0xff
  end.

(** [jumpTable], the labels for the opcodes below 0x80. *)
Definition jumpTable_lo : list t := let i := INVALID in
  [
     STOP; ADD; MUL; SUB; DIV; SDIV; MOD; SMOD; ADDMOD; MULMOD; EXP; SIGNEXTEND; i; i; i;
     i; LT; GT; SLT; SGT; EQ; ISZERO; AND; OR; XOR; NOT; BYTE; i; i; i; i; i; SHA3; i; i;
     i; i; i; i; i; i; i; i; i; i; i; i; i; ADDRESS; BALANCE; ORIGIN; CALLER; CALLVALUE;
     CALLDATALOAD; CALLDATASIZE; CALLDATACOPY; CODESIZE; CODECOPY; GASPRICE; EXTCODESIZE;
     EXTCODECOPY; RETURNDATASIZE; RETURNDATACOPY; i; BLOCKHASH; COINBASE; TIMESTAMP;
     NUMBER; DIFFICULTY; GASLIMIT; i; i; i; i; i; i; i; i; i; i; POP; MLOAD; MSTORE;
     MSTORE8; SLOAD; SSTORE; JUMP; JUMPI; PC; MSIZE; GAS; JUMPDEST; BEGINDATA; BEGINSUB;
     i; i; PUSH1; PUSH2; PUSH3; PUSH4; PUSH5; PUSH6; PUSH7; PUSH8; PUSH9; PUSH10; PUSH11;
     PUSH12; PUSH13; PUSH14; PUSH15; PUSH16; PUSH17; PUSH18; PUSH19; PUSH20; PUSH21;
     PUSH22; PUSH23; PUSH24; PUSH25; PUSH26; PUSH27; PUSH28; PUSH29; PUSH30; PUSH31;
     PUSH32
  ].

(** [jumpTable], the labels for the opcodes from 0x80 on. *)
Definition jumpTable_hi : list t := let i := INVALID in
  [
     DUP1; DUP2; DUP3; DUP4; DUP5; DUP6; DUP7; DUP8; DUP9; DUP10; DUP11; DUP12; DUP13;
     DUP14; DUP15; DUP16; SWAP1; SWAP2; SWAP3; SWAP4; SWAP5; SWAP6; SWAP7; SWAP8; SWAP9;
     SWAP10; SWAP11; SWAP12; SWAP13; SWAP14; SWAP15; SWAP16; LOG0; LOG1; LOG2; LOG3;
     LOG4; i; i; i; i; i; i; i; PUSHC; JUMPC; JUMPCI; i; JUMPTO; JUMPIF; JUMPSUB; JUMPV;
     JUMPSUBV; BEGINSUB; BEGINDATA; RETURNSUB; PUTLOCAL; GETLOCAL; i; i; i; i; i; i; i;
     XADD; XMUL; XSUB; XDIV; XSDIV; XMOD; XSMOD; i; i; i; i; i; i; i; i; XLT; XGT; XSLT;
     XSGT; XEQ; XISZERO; XAND; XOOR; XXOR; XNOT; i; XSHL; XSHR; XSAR; XROL; XROR; XPUSH;
     XMLOAD; XMSTORE; i; XSLOAD; XSSTORE; XVTOWIDE; XWIDETOV; XGET; XPUT; XSWIZZLE;
     XSHUFFLE; i; i; i; i; CREATE; CALL; CALLCODE; RETURN; DELEGATECALL; i; i; i; i; i;
     STATICCALL; CREATE2; i; REVERT; i; SUICIDE
  ].

Definition jumpTable : list t := jumpTable_lo ++ jumpTable_hi.

End Instruction.

(** [enum class Tier : unsigned]. *)
Module Tier.

Inductive t := Zero | Base | VeryLow | Low | Mid | High | Ext | Special | Invalid.

(** [static_cast<unsigned>]. *)
Definition to_unsigned (x : t) : Z :=
  match x with
  | Zero => 0 | Base => 1 | VeryLow => 2 | Low => 3 | Mid => 4 | High => 5 | Ext => 6
  | Special => 7 | Invalid => 8
  end.

End Tier.

Record InstructionInfo := {
  name : string;
  additional : Z;
  args : Z;
  ret : Z;
  gasPriceTier : Tier.t
}.

Definition info (n : string) (additional args ret : Z) (t : Tier.t) : InstructionInfo :=
  {| name := n; additional := additional; args := args; ret := ret; gasPriceTier := t |}.

(** [c_instructionInfo]. A [std::map] built from a list keeps the first entry of
    a key, so the second entry of [XOR] has no effect. *)
Definition c_instructionInfo : list (Instruction.t * InstructionInfo) :=
  [(Instruction.STOP, info "STOP" 0 0 0 Tier.Zero);
   (Instruction.ADD, info "ADD" 0 2 1 Tier.VeryLow);
   (Instruction.SUB, info "SUB" 0 2 1 Tier.VeryLow);
   (Instruction.MUL, info "MUL" 0 2 1 Tier.Low);
   (Instruction.DIV, info "DIV" 0 2 1 Tier.Low);
   (Instruction.SDIV, info "SDIV" 0 2 1 Tier.Low);
   (Instruction.MOD, info "MOD" 0 2 1 Tier.Low);
   (Instruction.SMOD, info "SMOD" 0 2 1 Tier.Low);
   (Instruction.EXP, info "EXP" 0 2 1 Tier.Special);
   (Instruction.NOT, info "NOT" 0 1 1 Tier.VeryLow);
   (Instruction.LT, info "LT" 0 2 1 Tier.VeryLow);
   (Instruction.GT, info "GT" 0 2 1 Tier.VeryLow);
   (Instruction.SLT, info "SLT" 0 2 1 Tier.VeryLow);
   (Instruction.SGT, info "SGT" 0 2 1 Tier.VeryLow);
   (Instruction.EQ, info "EQ" 0 2 1 Tier.VeryLow);
   (Instruction.ISZERO, info "ISZERO" 0 1 1 Tier.VeryLow);
   (Instruction.AND, info "AND" 0 2 1 Tier.VeryLow);
   (Instruction.OR, info "OR" 0 2 1 Tier.VeryLow);
   (Instruction.XOR, info "XOR" 0 2 1 Tier.VeryLow);
   (Instruction.BYTE, info "BYTE" 0 2 1 Tier.VeryLow);
   (Instruction.ADDMOD, info "ADDMOD" 0 3 1 Tier.Mid);
   (Instruction.MULMOD, info "MULMOD" 0 3 1 Tier.Mid);
   (Instruction.SIGNEXTEND, info "SIGNEXTEND" 0 2 1 Tier.Low);
   (Instruction.SHA3, info "SHA3" 0 2 1 Tier.Special);
   (Instruction.ADDRESS, info "ADDRESS" 0 0 1 Tier.Base);
   (Instruction.BALANCE, info "BALANCE" 0 1 1 Tier.Special);
   (Instruction.ORIGIN, info "ORIGIN" 0 0 1 Tier.Base);
   (Instruction.CALLER, info "CALLER" 0 0 1 Tier.Base);
   (Instruction.CALLVALUE, info "CALLVALUE" 0 0 1 Tier.Base);
   (Instruction.CALLDATALOAD, info "CALLDATALOAD" 0 1 1 Tier.VeryLow);
   (Instruction.CALLDATASIZE, info "CALLDATASIZE" 0 0 1 Tier.Base);
   (Instruction.CALLDATACOPY, info "CALLDATACOPY" 0 3 0 Tier.VeryLow);
   (Instruction.CODESIZE, info "CODESIZE" 0 0 1 Tier.Base);
   (Instruction.CODECOPY, info "CODECOPY" 0 3 0 Tier.VeryLow);
   (Instruction.GASPRICE, info "GASPRICE" 0 0 1 Tier.Base);
   (Instruction.EXTCODESIZE, info "EXTCODESIZE" 0 1 1 Tier.Special);
   (Instruction.EXTCODECOPY, info "EXTCODECOPY" 0 4 0 Tier.Special);
   (Instruction.RETURNDATASIZE, info "RETURNDATASIZE" 0 0 1 Tier.Base);
   (Instruction.RETURNDATACOPY, info "RETURNDATACOPY" 0 3 0 Tier.VeryLow);
   (Instruction.BLOCKHASH, info "BLOCKHASH" 0 1 1 Tier.Special);
   (Instruction.COINBASE, info "COINBASE" 0 0 1 Tier.Base);
   (Instruction.TIMESTAMP, info "TIMESTAMP" 0 0 1 Tier.Base);
   (Instruction.NUMBER, info "NUMBER" 0 0 1 Tier.Base);
   (Instruction.DIFFICULTY, info "DIFFICULTY" 0 0 1 Tier.Base);
   (Instruction.GASLIMIT, info "GASLIMIT" 0 0 1 Tier.Base);
   (Instruction.POP, info "POP" 0 1 0 Tier.Base);
   (Instruction.MLOAD, info "MLOAD" 0 1 1 Tier.VeryLow);
   (Instruction.MSTORE, info "MSTORE" 0 2 0 Tier.VeryLow);
   (Instruction.MSTORE8, info "MSTORE8" 0 2 0 Tier.VeryLow);
   (Instruction.SLOAD, info "SLOAD" 0 1 1 Tier.Special);
   (Instruction.SSTORE, info "SSTORE" 0 2 0 Tier.Special);
   (Instruction.JUMP, info "JUMP" 0 1 0 Tier.Mid);
   (Instruction.JUMPI, info "JUMPI" 0 2 0 Tier.High);
   (Instruction.PC, info "PC" 0 0 1 Tier.Base);
   (Instruction.MSIZE, info "MSIZE" 0 0 1 Tier.Base);
   (Instruction.GAS, info "GAS" 0 0 1 Tier.Base);
   (Instruction.JUMPDEST, info "JUMPDEST" 0 0 0 Tier.Special);
   (Instruction.PUSH1, info "PUSH1" 1 0 1 Tier.VeryLow);
   (Instruction.PUSH2, info "PUSH2" 2 0 1 Tier.VeryLow);
   (Instruction.PUSH3, info "PUSH3" 3 0 1 Tier.VeryLow);
   (Instruction.PUSH4, info "PUSH4" 4 0 1 Tier.VeryLow);
   (Instruction.PUSH5, info "PUSH5" 5 0 1 Tier.VeryLow);
   (Instruction.PUSH6, info "PUSH6" 6 0 1 Tier.VeryLow);
   (Instruction.PUSH7, info "PUSH7" 7 0 1 Tier.VeryLow);
   (Instruction.PUSH8, info "PUSH8" 8 0 1 Tier.VeryLow);
   (Instruction.PUSH9, info "PUSH9" 9 0 1 Tier.VeryLow);
   (Instruction.PUSH10, info "PUSH10" 10 0 1 Tier.VeryLow);
   (Instruction.PUSH11, info "PUSH11" 11 0 1 Tier.VeryLow);
   (Instruction.PUSH12, info "PUSH12" 12 0 1 Tier.VeryLow);
   (Instruction.PUSH13, info "PUSH13" 13 0 1 Tier.VeryLow);
   (Instruction.PUSH14, info "PUSH14" 14 0 1 Tier.VeryLow);
   (Instruction.PUSH15, info "PUSH15" 15 0 1 Tier.VeryLow);
   (Instruction.PUSH16, info "PUSH16" 16 0 1 Tier.VeryLow);
   (Instruction.PUSH17, info "PUSH17" 17 0 1 Tier.VeryLow);
   (Instruction.PUSH18, info "PUSH18" 18 0 1 Tier.VeryLow);
   (Instruction.PUSH19, info "PUSH19" 19 0 1 Tier.VeryLow);
   (Instruction.PUSH20, info "PUSH20" 20 0 1 Tier.VeryLow);
   (Instruction.PUSH21, info "PUSH21" 21 0 1 Tier.VeryLow);
   (Instruction.PUSH22, info "PUSH22" 22 0 1 Tier.VeryLow);
   (Instruction.PUSH23, info "PUSH23" 23 0 1 Tier.VeryLow);
   (Instruction.PUSH24, info "PUSH24" 24 0 1 Tier.VeryLow);
   (Instruction.PUSH25, info "PUSH25" 25 0 1 Tier.VeryLow);
   (Instruction.PUSH26, info "PUSH26" 26 0 1 Tier.VeryLow);
   (Instruction.PUSH27, info "PUSH27" 27 0 1 Tier.VeryLow);
   (Instruction.PUSH28, info "PUSH28" 28 0 1 Tier.VeryLow);
   (Instruction.PUSH29, info "PUSH29" 29 0 1 Tier.VeryLow);
   (Instruction.PUSH30, info "PUSH30" 30 0 1 Tier.VeryLow);
   (Instruction.PUSH31, info "PUSH31" 31 0 1 Tier.VeryLow);
   (Instruction.PUSH32, info "PUSH32" 32 0 1 Tier.VeryLow);
   (Instruction.DUP1, info "DUP1" 0 1 2 Tier.VeryLow);
   (Instruction.DUP2, info "DUP2" 0 2 3 Tier.VeryLow);
   (Instruction.DUP3, info "DUP3" 0 3 4 Tier.VeryLow);
   (Instruction.DUP4, info "DUP4" 0 4 5 Tier.VeryLow);
   (Instruction.DUP5, info "DUP5" 0 5 6 Tier.VeryLow);
   (Instruction.DUP6, info "DUP6" 0 6 7 Tier.VeryLow);
   (Instruction.DUP7, info "DUP7" 0 7 8 Tier.VeryLow);
   (Instruction.DUP8, info "DUP8" 0 8 9 Tier.VeryLow);
   (Instruction.DUP9, info "DUP9" 0 9 10 Tier.VeryLow);
   (Instruction.DUP10, info "DUP10" 0 10 11 Tier.VeryLow);
   (Instruction.DUP11, info "DUP11" 0 11 12 Tier.VeryLow);
   (Instruction.DUP12, info "DUP12" 0 12 13 Tier.VeryLow);
   (Instruction.DUP13, info "DUP13" 0 13 14 Tier.VeryLow);
   (Instruction.DUP14, info "DUP14" 0 14 15 Tier.VeryLow);
   (Instruction.DUP15, info "DUP15" 0 15 16 Tier.VeryLow);
   (Instruction.DUP16, info "DUP16" 0 16 17 Tier.VeryLow);
   (Instruction.SWAP1, info "SWAP1" 0 2 2 Tier.VeryLow);
   (Instruction.SWAP2, info "SWAP2" 0 3 3 Tier.VeryLow);
   (Instruction.SWAP3, info "SWAP3" 0 4 4 Tier.VeryLow);
   (Instruction.SWAP4, info "SWAP4" 0 5 5 Tier.VeryLow);
   (Instruction.SWAP5, info "SWAP5" 0 6 6 Tier.VeryLow);
   (Instruction.SWAP6, info "SWAP6" 0 7 7 Tier.VeryLow);
   (Instruction.SWAP7, info "SWAP7" 0 8 8 Tier.VeryLow);
   (Instruction.SWAP8, info "SWAP8" 0 9 9 Tier.VeryLow);
   (Instruction.SWAP9, info "SWAP9" 0 10 10 Tier.VeryLow);
   (Instruction.SWAP10, info "SWAP10" 0 11 11 Tier.VeryLow);
   (Instruction.SWAP11, info "SWAP11" 0 12 12 Tier.VeryLow);
   (Instruction.SWAP12, info "SWAP12" 0 13 13 Tier.VeryLow);
   (Instruction.SWAP13, info "SWAP13" 0 14 14 Tier.VeryLow);
   (Instruction.SWAP14, info "SWAP14" 0 15 15 Tier.VeryLow);
   (Instruction.SWAP15, info "SWAP15" 0 16 16 Tier.VeryLow);
   (Instruction.SWAP16, info "SWAP16" 0 17 17 Tier.VeryLow);
   (Instruction.LOG0, info "LOG0" 0 2 0 Tier.Special);
   (Instruction.LOG1, info "LOG1" 0 3 0 Tier.Special);
   (Instruction.LOG2, info "LOG2" 0 4 0 Tier.Special);
   (Instruction.LOG3, info "LOG3" 0 5 0 Tier.Special);
   (Instruction.LOG4, info "LOG4" 0 6 0 Tier.Special);
   (Instruction.JUMPTO, info "JUMPTO" 2 1 0 Tier.VeryLow);
   (Instruction.JUMPIF, info "JUMPIF" 2 2 0 Tier.Low);
   (Instruction.JUMPV, info "JUMPV" 2 1 0 Tier.Mid);
   (Instruction.JUMPSUB, info "JUMPSUB" 2 1 0 Tier.Low);
   (Instruction.JUMPSUBV, info "JUMPSUBV" 2 1 0 Tier.Mid);
   (Instruction.BEGINSUB, info "BEGINSUB" 0 0 0 Tier.Special);
   (Instruction.BEGINDATA, info "BEGINDATA" 0 0 0 Tier.Special);
   (Instruction.RETURNSUB, info "RETURNSUB" 0 1 0 Tier.Mid);
   (Instruction.PUTLOCAL, info "PUTLOCAL" 2 1 0 Tier.VeryLow);
   (Instruction.GETLOCAL, info "GETLOCAL" 2 0 1 Tier.VeryLow);
   (Instruction.XADD, info "XADD" 1 0 0 Tier.Special);
   (Instruction.XMUL, info "XMUL" 1 2 1 Tier.Special);
   (Instruction.XSUB, info "XSUB" 1 2 1 Tier.Special);
   (Instruction.XDIV, info "XDIV" 1 2 1 Tier.Special);
   (Instruction.XSDIV, info "XSDIV" 1 2 1 Tier.Special);
   (Instruction.XMOD, info "XMOD" 1 2 1 Tier.Special);
   (Instruction.XSMOD, info "XSMOD" 1 2 1 Tier.Special);
   (Instruction.XLT, info "XLT" 1 2 1 Tier.Special);
   (Instruction.XGT, info "XGT" 1 2 1 Tier.Special);
   (Instruction.XSLT, info "XSLT" 1 2 1 Tier.Special);
   (Instruction.XSGT, info "XSGT" 1 2 1 Tier.Special);
   (Instruction.XEQ, info "XEQ" 1 2 1 Tier.Special);
   (Instruction.XISZERO, info "XISZERO" 1 2 1 Tier.Special);
   (Instruction.XAND, info "XAND" 1 1 1 Tier.Special);
   (Instruction.XOR, info "XOR" 1 2 1 Tier.Special);
   (Instruction.XXOR, info "XXOR" 1 2 1 Tier.Special);
   (Instruction.XNOT, info "XNOT" 1 2 1 Tier.Special);
   (Instruction.XSHL, info "XSHL" 1 2 1 Tier.Special);
   (Instruction.XSHR, info "XSHR" 1 2 1 Tier.Special);
   (Instruction.XSAR, info "XSAR" 1 2 1 Tier.Special);
   (Instruction.XROL, info "XROL" 1 2 1 Tier.Special);
   (Instruction.XROR, info "XROR" 1 2 1 Tier.Special);
   (Instruction.XPUSH, info "XPUSH" 1 1 1 Tier.VeryLow);
   (Instruction.XMLOAD, info "XMLOAD" 1 1 1 Tier.VeryLow);
   (Instruction.XMSTORE, info "XMSTORE" 1 2 0 Tier.VeryLow);
   (Instruction.XSLOAD, info "XSLOAD" 1 1 1 Tier.Special);
   (Instruction.XSSTORE, info "XSSTORE" 1 2 0 Tier.Special);
   (Instruction.XVTOWIDE, info "XVTOWIDE" 1 1 1 Tier.VeryLow);
   (Instruction.XWIDETOV, info "XWIDETOV" 1 1 1 Tier.VeryLow);
   (Instruction.XPUT, info "XPUT" 1 3 1 Tier.Special);
   (Instruction.XGET, info "XGET" 1 2 1 Tier.Special);
   (Instruction.XSWIZZLE, info "XSWIZZLE" 1 2 1 Tier.Special);
   (Instruction.XSHUFFLE, info "XSHUFFLE" 1 3 1 Tier.Special);
   (Instruction.CREATE, info "CREATE" 0 3 1 Tier.Special);
   (Instruction.CREATE2, info "CREATE2" 0 4 1 Tier.Special);
   (Instruction.CALL, info "CALL" 0 7 1 Tier.Special);
   (Instruction.CALLCODE, info "CALLCODE" 0 7 1 Tier.Special);
   (Instruction.RETURN, info "RETURN" 0 2 0 Tier.Zero);
   (Instruction.STATICCALL, info "STATICCALL" 0 6 1 Tier.Special);
   (Instruction.DELEGATECALL, info "DELEGATECALL" 0 6 1 Tier.Special);
   (Instruction.REVERT, info "REVERT" 0 2 0 Tier.Special);
   (Instruction.INVALID, info "INVALID" 0 0 0 Tier.Zero);
   (Instruction.SUICIDE, info "SUICIDE" 0 1 0 Tier.Special);
   (Instruction.PUSHC, info "PUSHC" 3 0 1 Tier.VeryLow);
   (Instruction.JUMPC, info "JUMPC" 0 1 0 Tier.Mid);
   (Instruction.JUMPCI, info "JUMPCI" 0 2 0 Tier.High)].

(** [instructionInfo]. *)
Fixpoint find_info (_inst : Z) (l : list (Instruction.t * InstructionInfo)) : option InstructionInfo :=
  match l with
  | [] => None
  | (op, i) :: l' => if Instruction.code op =? _inst then Some i else find_info _inst l'
  end.
Definition instructionInfo (_inst : Z) : InstructionInfo :=
  match find_info _inst c_instructionInfo with
  | Some i => i
  | None => info EmptyString 0 0 0 Tier.Invalid
  end.


(** ** Gas schedules *)

Record VVMSchedule := {
  exceptionalFailedCodeDeposit : bool;
  haveDelegateCall : bool;
  eip150Mode : bool;
  eip158Mode : bool;
  haveRevert : bool;
  haveReturnData : bool;
  haveStaticCall : bool;
  haveCreate2 : bool;
  tierStepGas : list Z;
  expGas : Z;
  expByteGas : Z;
  sha3Gas : Z;
  sha3WordGas : Z;
  sloadGas : Z;
  sstoreSetGas : Z;
  sstoreResetGas : Z;
  sstoreRefundGas : Z;
  jumpdestGas : Z;
  logGas : Z;
  logDataGas : Z;
  logTopicGas : Z;
  createGas : Z;
  callGas : Z;
  callStipend : Z;
  callValueTransferGas : Z;
  callNewAccountGas : Z;
  suicideRefundGas : Z;
  memoryGas : Z;
  quadCoeffDiv : Z;
  createDataGas : Z;
  txGas : Z;
  txCreateGas : Z;
  txDataZeroGas : Z;
  txDataNonZeroGas : Z;
  copyGas : Z;
  extcodesizeGas : Z;
  extcodecopyGas : Z;
  balanceGas : Z;
  suicideGas : Z;
  blockhashGas : Z;
  maxCodeSize : Z;
  blockRewardOverwrite : option Z
}.

Section Schedule.
Variable s : VVMSchedule.
Definition staticCallDepthLimit : bool := negb (eip150Mode s).
Definition suicideChargesNewAccountGas : bool := eip150Mode s.
Definition emptinessIsNonexistence : bool := eip158Mode s.
Definition zeroValueTransferChargesNewAccountGas : bool := negb (eip158Mode s).
End Schedule.

(** [VVMSchedule()]. *)
Definition DefaultSchedule : VVMSchedule := {|
  exceptionalFailedCodeDeposit := true;
  haveDelegateCall := true;
  eip150Mode := false;
  eip158Mode := false;
  haveRevert := false;
  haveReturnData := false;
  haveStaticCall := false;
  haveCreate2 := false;
  tierStepGas := [0; 2; 3; 5; 8; 10; 20; 0];
  expGas := 10;
  expByteGas := 10;
  sha3Gas := 30;
  sha3WordGas := 6;
  sloadGas := 50;
  sstoreSetGas := 20000;
  sstoreResetGas := 5000;
  sstoreRefundGas := 15000;
  jumpdestGas := 1;
  logGas := 375;
  logDataGas := 8;
  logTopicGas := 375;
  createGas := 32000;
  callGas := 40;
  callStipend := 2300;
  callValueTransferGas := 9000;
  callNewAccountGas := 25000;
  suicideRefundGas := 24000;
  memoryGas := 3;
  quadCoeffDiv := 512;
  createDataGas := 200;
  txGas := 21000;
  txCreateGas := 53000;
  txDataZeroGas := 4;
  txDataNonZeroGas := 68;
  copyGas := 3;
  extcodesizeGas := 20;
  extcodecopyGas := 20;
  balanceGas := 20;
  suicideGas := 0;
  blockhashGas := 20;
  maxCodeSize := 2 ^ 32 - 1;
  blockRewardOverwrite := None
|}.

(** [VVMSchedule(_efcd, _hdc, _txCreateGas)]. *)
Definition make_schedule (_efcd _hdc : bool) (_txCreateGas : Z) : VVMSchedule :=
  let d := DefaultSchedule in {|
  exceptionalFailedCodeDeposit := _efcd; haveDelegateCall := _hdc;
  eip150Mode := eip150Mode d; eip158Mode := eip158Mode d; haveRevert := haveRevert d;
  haveReturnData := haveReturnData d; haveStaticCall := haveStaticCall d;
  haveCreate2 := haveCreate2 d; tierStepGas := tierStepGas d; expGas := expGas d;
  expByteGas := expByteGas d; sha3Gas := sha3Gas d; sha3WordGas := sha3WordGas d;
  sloadGas := sloadGas d; sstoreSetGas := sstoreSetGas d;
  sstoreResetGas := sstoreResetGas d; sstoreRefundGas := sstoreRefundGas d;
  jumpdestGas := jumpdestGas d; logGas := logGas d; logDataGas := logDataGas d;
  logTopicGas := logTopicGas d; createGas := createGas d; callGas := callGas d;
  callStipend := callStipend d; callValueTransferGas := callValueTransferGas d;
  callNewAccountGas := callNewAccountGas d; suicideRefundGas := suicideRefundGas d;
  memoryGas := memoryGas d; quadCoeffDiv := quadCoeffDiv d;
  createDataGas := createDataGas d; txGas := txGas d; txCreateGas := _txCreateGas;
  txDataZeroGas := txDataZeroGas d; txDataNonZeroGas := txDataNonZeroGas d;
  copyGas := copyGas d; extcodesizeGas := extcodesizeGas d;
  extcodecopyGas := extcodecopyGas d; balanceGas := balanceGas d;
  suicideGas := suicideGas d; blockhashGas := blockhashGas d;
  maxCodeSize := maxCodeSize d; blockRewardOverwrite := blockRewardOverwrite d
|}.

Definition FrontierSchedule : VVMSchedule := make_schedule false false 21000.
Definition HomesteadSchedule : VVMSchedule := make_schedule true true 53000.

Definition EIP150Schedule : VVMSchedule := {|
  exceptionalFailedCodeDeposit := exceptionalFailedCodeDeposit HomesteadSchedule;
  haveDelegateCall := haveDelegateCall HomesteadSchedule; eip150Mode := true;
  eip158Mode := eip158Mode HomesteadSchedule; haveRevert := haveRevert HomesteadSchedule;
  haveReturnData := haveReturnData HomesteadSchedule;
  haveStaticCall := haveStaticCall HomesteadSchedule;
  haveCreate2 := haveCreate2 HomesteadSchedule;
  tierStepGas := tierStepGas HomesteadSchedule; expGas := expGas HomesteadSchedule;
  expByteGas := expByteGas HomesteadSchedule; sha3Gas := sha3Gas HomesteadSchedule;
  sha3WordGas := sha3WordGas HomesteadSchedule; sloadGas := 200;
  sstoreSetGas := sstoreSetGas HomesteadSchedule;
  sstoreResetGas := sstoreResetGas HomesteadSchedule;
  sstoreRefundGas := sstoreRefundGas HomesteadSchedule;
  jumpdestGas := jumpdestGas HomesteadSchedule; logGas := logGas HomesteadSchedule;
  logDataGas := logDataGas HomesteadSchedule;
  logTopicGas := logTopicGas HomesteadSchedule; createGas := createGas HomesteadSchedule;
  callGas := 700; callStipend := callStipend HomesteadSchedule;
  callValueTransferGas := callValueTransferGas HomesteadSchedule;
  callNewAccountGas := callNewAccountGas HomesteadSchedule;
  suicideRefundGas := suicideRefundGas HomesteadSchedule;
  memoryGas := memoryGas HomesteadSchedule;
  quadCoeffDiv := quadCoeffDiv HomesteadSchedule;
  createDataGas := createDataGas HomesteadSchedule; txGas := txGas HomesteadSchedule;
  txCreateGas := txCreateGas HomesteadSchedule;
  txDataZeroGas := txDataZeroGas HomesteadSchedule;
  txDataNonZeroGas := txDataNonZeroGas HomesteadSchedule;
  copyGas := copyGas HomesteadSchedule; extcodesizeGas := 700; extcodecopyGas := 700;
  balanceGas := 400; suicideGas := 5000; blockhashGas := blockhashGas HomesteadSchedule;
  maxCodeSize := maxCodeSize HomesteadSchedule;
  blockRewardOverwrite := blockRewardOverwrite HomesteadSchedule
|}.

Definition EIP158Schedule : VVMSchedule := {|
  exceptionalFailedCodeDeposit := exceptionalFailedCodeDeposit EIP150Schedule;
  haveDelegateCall := haveDelegateCall EIP150Schedule;
  eip150Mode := eip150Mode EIP150Schedule; eip158Mode := true;
  haveRevert := haveRevert EIP150Schedule;
  haveReturnData := haveReturnData EIP150Schedule;
  haveStaticCall := haveStaticCall EIP150Schedule;
  haveCreate2 := haveCreate2 EIP150Schedule; tierStepGas := tierStepGas EIP150Schedule;
  expGas := expGas EIP150Schedule; expByteGas := 50; sha3Gas := sha3Gas EIP150Schedule;
  sha3WordGas := sha3WordGas EIP150Schedule; sloadGas := sloadGas EIP150Schedule;
  sstoreSetGas := sstoreSetGas EIP150Schedule;
  sstoreResetGas := sstoreResetGas EIP150Schedule;
  sstoreRefundGas := sstoreRefundGas EIP150Schedule;
  jumpdestGas := jumpdestGas EIP150Schedule; logGas := logGas EIP150Schedule;
  logDataGas := logDataGas EIP150Schedule; logTopicGas := logTopicGas EIP150Schedule;
  createGas := createGas EIP150Schedule; callGas := callGas EIP150Schedule;
  callStipend := callStipend EIP150Schedule;
  callValueTransferGas := callValueTransferGas EIP150Schedule;
  callNewAccountGas := callNewAccountGas EIP150Schedule;
  suicideRefundGas := suicideRefundGas EIP150Schedule;
  memoryGas := memoryGas EIP150Schedule; quadCoeffDiv := quadCoeffDiv EIP150Schedule;
  createDataGas := createDataGas EIP150Schedule; txGas := txGas EIP150Schedule;
  txCreateGas := txCreateGas EIP150Schedule;
  txDataZeroGas := txDataZeroGas EIP150Schedule;
  txDataNonZeroGas := txDataNonZeroGas EIP150Schedule; copyGas := copyGas EIP150Schedule;
  extcodesizeGas := extcodesizeGas EIP150Schedule;
  extcodecopyGas := extcodecopyGas EIP150Schedule;
  balanceGas := balanceGas EIP150Schedule; suicideGas := suicideGas EIP150Schedule;
  blockhashGas := blockhashGas EIP150Schedule; maxCodeSize := 0x6000;
  blockRewardOverwrite := blockRewardOverwrite EIP150Schedule
|}.

Definition ByzantiumSchedule : VVMSchedule := {|
  exceptionalFailedCodeDeposit := exceptionalFailedCodeDeposit EIP158Schedule;
  haveDelegateCall := haveDelegateCall EIP158Schedule;
  eip150Mode := eip150Mode EIP158Schedule; eip158Mode := eip158Mode EIP158Schedule;
  haveRevert := true; haveReturnData := true; haveStaticCall := true;
  haveCreate2 := haveCreate2 EIP158Schedule; tierStepGas := tierStepGas EIP158Schedule;
  expGas := expGas EIP158Schedule; expByteGas := expByteGas EIP158Schedule;
  sha3Gas := sha3Gas EIP158Schedule; sha3WordGas := sha3WordGas EIP158Schedule;
  sloadGas := sloadGas EIP158Schedule; sstoreSetGas := sstoreSetGas EIP158Schedule;
  sstoreResetGas := sstoreResetGas EIP158Schedule;
  sstoreRefundGas := sstoreRefundGas EIP158Schedule;
  jumpdestGas := jumpdestGas EIP158Schedule; logGas := logGas EIP158Schedule;
  logDataGas := logDataGas EIP158Schedule; logTopicGas := logTopicGas EIP158Schedule;
  createGas := createGas EIP158Schedule; callGas := callGas EIP158Schedule;
  callStipend := callStipend EIP158Schedule;
  callValueTransferGas := callValueTransferGas EIP158Schedule;
  callNewAccountGas := callNewAccountGas EIP158Schedule;
  suicideRefundGas := suicideRefundGas EIP158Schedule;
  memoryGas := memoryGas EIP158Schedule; quadCoeffDiv := quadCoeffDiv EIP158Schedule;
  createDataGas := createDataGas EIP158Schedule; txGas := txGas EIP158Schedule;
  txCreateGas := txCreateGas EIP158Schedule;
  txDataZeroGas := txDataZeroGas EIP158Schedule;
  txDataNonZeroGas := txDataNonZeroGas EIP158Schedule; copyGas := copyGas EIP158Schedule;
  extcodesizeGas := extcodesizeGas EIP158Schedule;
  extcodecopyGas := extcodecopyGas EIP158Schedule;
  balanceGas := balanceGas EIP158Schedule; suicideGas := suicideGas EIP158Schedule;
  blockhashGas := blockhashGas EIP158Schedule; maxCodeSize := maxCodeSize EIP158Schedule;
  blockRewardOverwrite := Some (3 * 10 ^ 18)
|}.

Definition EWASMSchedule : VVMSchedule := {|
  exceptionalFailedCodeDeposit := exceptionalFailedCodeDeposit ByzantiumSchedule;
  haveDelegateCall := haveDelegateCall ByzantiumSchedule;
  eip150Mode := eip150Mode ByzantiumSchedule; eip158Mode := eip158Mode ByzantiumSchedule;
  haveRevert := haveRevert ByzantiumSchedule;
  haveReturnData := haveReturnData ByzantiumSchedule;
  haveStaticCall := haveStaticCall ByzantiumSchedule;
  haveCreate2 := haveCreate2 ByzantiumSchedule;
  tierStepGas := tierStepGas ByzantiumSchedule; expGas := expGas ByzantiumSchedule;
  expByteGas := expByteGas ByzantiumSchedule; sha3Gas := sha3Gas ByzantiumSchedule;
  sha3WordGas := sha3WordGas ByzantiumSchedule; sloadGas := sloadGas ByzantiumSchedule;
  sstoreSetGas := sstoreSetGas ByzantiumSchedule;
  sstoreResetGas := sstoreResetGas ByzantiumSchedule;
  sstoreRefundGas := sstoreRefundGas ByzantiumSchedule;
  jumpdestGas := jumpdestGas ByzantiumSchedule; logGas := logGas ByzantiumSchedule;
  logDataGas := logDataGas ByzantiumSchedule;
  logTopicGas := logTopicGas ByzantiumSchedule; createGas := createGas ByzantiumSchedule;
  callGas := callGas ByzantiumSchedule; callStipend := callStipend ByzantiumSchedule;
  callValueTransferGas := callValueTransferGas ByzantiumSchedule;
  callNewAccountGas := callNewAccountGas ByzantiumSchedule;
  suicideRefundGas := suicideRefundGas ByzantiumSchedule;
  memoryGas := memoryGas ByzantiumSchedule;
  quadCoeffDiv := quadCoeffDiv ByzantiumSchedule;
  createDataGas := createDataGas ByzantiumSchedule; txGas := txGas ByzantiumSchedule;
  txCreateGas := txCreateGas ByzantiumSchedule;
  txDataZeroGas := txDataNonZeroGas ByzantiumSchedule;
  txDataNonZeroGas := txDataNonZeroGas ByzantiumSchedule;
  copyGas := copyGas ByzantiumSchedule;
  extcodesizeGas := extcodesizeGas ByzantiumSchedule;
  extcodecopyGas := extcodecopyGas ByzantiumSchedule;
  balanceGas := balanceGas ByzantiumSchedule; suicideGas := suicideGas ByzantiumSchedule;
  blockhashGas := blockhashGas ByzantiumSchedule; maxCodeSize := 2 ^ 32 - 1;
  blockRewardOverwrite := blockRewardOverwrite ByzantiumSchedule
|}.

Definition ConstantinopleSchedule : VVMSchedule := {|
  exceptionalFailedCodeDeposit := exceptionalFailedCodeDeposit ByzantiumSchedule;
  haveDelegateCall := haveDelegateCall ByzantiumSchedule;
  eip150Mode := eip150Mode ByzantiumSchedule; eip158Mode := eip158Mode ByzantiumSchedule;
  haveRevert := haveRevert ByzantiumSchedule;
  haveReturnData := haveReturnData ByzantiumSchedule;
  haveStaticCall := haveStaticCall ByzantiumSchedule; haveCreate2 := true;
  tierStepGas := tierStepGas ByzantiumSchedule; expGas := expGas ByzantiumSchedule;
  expByteGas := expByteGas ByzantiumSchedule; sha3Gas := sha3Gas ByzantiumSchedule;
  sha3WordGas := sha3WordGas ByzantiumSchedule; sloadGas := sloadGas ByzantiumSchedule;
  sstoreSetGas := sstoreSetGas ByzantiumSchedule;
  sstoreResetGas := sstoreResetGas ByzantiumSchedule;
  sstoreRefundGas := sstoreRefundGas ByzantiumSchedule;
  jumpdestGas := jumpdestGas ByzantiumSchedule; logGas := logGas ByzantiumSchedule;
  logDataGas := logDataGas ByzantiumSchedule;
  logTopicGas := logTopicGas ByzantiumSchedule; createGas := createGas ByzantiumSchedule;
  callGas := callGas ByzantiumSchedule; callStipend := callStipend ByzantiumSchedule;
  callValueTransferGas := callValueTransferGas ByzantiumSchedule;
  callNewAccountGas := callNewAccountGas ByzantiumSchedule;
  suicideRefundGas := suicideRefundGas ByzantiumSchedule;
  memoryGas := memoryGas ByzantiumSchedule;
  quadCoeffDiv := quadCoeffDiv ByzantiumSchedule;
  createDataGas := createDataGas ByzantiumSchedule; txGas := txGas ByzantiumSchedule;
  txCreateGas := txCreateGas ByzantiumSchedule;
  txDataZeroGas := txDataZeroGas ByzantiumSchedule;
  txDataNonZeroGas := txDataNonZeroGas ByzantiumSchedule;
  copyGas := copyGas ByzantiumSchedule;
  extcodesizeGas := extcodesizeGas ByzantiumSchedule;
  extcodecopyGas := extcodecopyGas ByzantiumSchedule;
  balanceGas := balanceGas ByzantiumSchedule; suicideGas := suicideGas ByzantiumSchedule;
  blockhashGas := 800; maxCodeSize := maxCodeSize ByzantiumSchedule;
  blockRewardOverwrite := blockRewardOverwrite ByzantiumSchedule
|}.

