(* ===== verification/VM.v ===== *)
(** * VM: the interpreter (libvvm/VM.h, VM.cpp and VMCalls.cpp)

    The state is the members of [class VM] that change while code runs; the
    members that [initEntry] sets once ([m_code], [m_pool], [m_jumpDests]) are the
    parameter [P], and what the interpreter reads of [ExtVMFace] without changing
    it is the parameter [E]. The stack is the array [m_stack] with the two
    pointers [m_SP] and [m_SPP] as indices; every access to the stack, the code,
    the memory or the constant pool that would fall outside the object gives the
    exception [BadAccess], which no source statement throws. No tracer is
    installed ([m_onOp] is empty), so [onOperation] does nothing. The build
    configuration is the default one of VMConfig.h: [EIP_615] and [EIP_616] off,
    [VVM_OPTIMIZE] and the jump table on. *)

From stdpp Require Import base list numbers option.
From Stdlib Require Import ZArith Lia.
From S2P Require Import Prelude.
From S2P Require Import Bytes.
From S2P Require Import Keccak.
From S2P Require Import Instruction.
From S2P Require Import VMOpt.
Import CommonData FixedHash VMOpt.

(** ** The environment (libvvm/ExtVMFace.h) *)

(** An [Address] is a hash of 20 bytes. *)
Record CallParameters := {
  senderAddress : bytes;
  codeAddress : bytes;
  receiveAddress : bytes;
  valueTransfer : Z;
  apparentValue : Z;
  cp_gas : Z;
  cp_data : bytes;
  cp_staticCall : bool
}.

(** The virtual members of [ExtVMFace], over a state [X] that stands for what is
    behind them. A member that reads may change [X] too: the implementation loads
    what it reads into caches, and its own failures end the process. [create] and
    [call] return the gas they leave in their [gas] argument, a reference in the
    source. *)
Class ExtVMFace (X : Type) := {
  store : X -> Z -> Z * X;
  setStore : X -> Z -> Z -> X;
  balance : X -> bytes -> Z * X;
  codeAt : X -> bytes -> bytes * X;
  codeSizeAt : X -> bytes -> Z * X;
  exists_ : X -> bytes -> bool * X;
  suicide : X -> bytes -> X;
  create : X -> Z -> Z -> bytes -> Z -> Z -> (bytes * bytes) * Z * X;
  call : X -> CallParameters -> (bool * bytes) * Z * X;
  log : X -> list bytes -> bytes -> X;
  blockHash : X -> Z -> bytes * X;
  add_refunds : X -> Z -> X
}.

(** The data members of [ExtVMFace] and of its [EnvInfo]. *)
Record Env := {
  myAddress : bytes;
  caller : bytes;
  origin : bytes;
  value : Z;
  gasPrice : Z;
  data : bytes;
  code : bytes;
  depth : Z;
  staticCall : bool;
  author : bytes;
  timestamp : Z;
  number : Z;
  difficulty : Z;
  gasLimit : Z;
  vvmSchedule : VVMSchedule
}.

Module VM.

(** ** State *)

(** What the source throws, and [BadAccess] for an access outside an object. *)
Inductive exn :=
| OutOfGas | BadInstruction | BadJumpDestination | StackUnderflow | OutOfStack
| DisallowedStateChange | BufferOverrun | RevertInstruction (output : bytes)
| BadAccess.

(** The values of the member pointer [m_bounce] once the code is prepared. *)
Inductive bounce := interpretCases | caseCreate | caseCall | null.

Record vm {X : Type} := {
  m_io_gas : Z;
  m_ext : X;
  m_bounce : bounce;
  m_output : bytes;
  m_mem : bytes;
  m_returnData : bytes;
  m_stack : list Z;
  m_OP : Z;
  m_PC : Z;
  m_SP : Z;
  m_SPP : Z;
  m_runGas : Z;
  m_newMemSize : Z;
  m_copyMemSize : Z
}.
Arguments vm X : clear implicits.

(** Assignment to one member. *)
Section Setters.
Context {X : Type}.
Variable s : vm X.
Definition set_io_gas (v : Z) : vm X :=
  {| m_io_gas := v; m_ext := m_ext s; m_bounce := m_bounce s; m_output := m_output s;
     m_mem := m_mem s; m_returnData := m_returnData s; m_stack := m_stack s; m_OP := m_OP s;
     m_PC := m_PC s; m_SP := m_SP s; m_SPP := m_SPP s; m_runGas := m_runGas s;
     m_newMemSize := m_newMemSize s; m_copyMemSize := m_copyMemSize s |}.
Definition set_ext (v : X) : vm X :=
  {| m_io_gas := m_io_gas s; m_ext := v; m_bounce := m_bounce s; m_output := m_output s;
     m_mem := m_mem s; m_returnData := m_returnData s; m_stack := m_stack s; m_OP := m_OP s;
     m_PC := m_PC s; m_SP := m_SP s; m_SPP := m_SPP s; m_runGas := m_runGas s;
     m_newMemSize := m_newMemSize s; m_copyMemSize := m_copyMemSize s |}.
Definition set_bounce (v : bounce) : vm X :=
  {| m_io_gas := m_io_gas s; m_ext := m_ext s; m_bounce := v; m_output := m_output s;
     m_mem := m_mem s; m_returnData := m_returnData s; m_stack := m_stack s; m_OP := m_OP s;
     m_PC := m_PC s; m_SP := m_SP s; m_SPP := m_SPP s; m_runGas := m_runGas s;
     m_newMemSize := m_newMemSize s; m_copyMemSize := m_copyMemSize s |}.
Definition set_output (v : bytes) : vm X :=
  {| m_io_gas := m_io_gas s; m_ext := m_ext s; m_bounce := m_bounce s; m_output := v;
     m_mem := m_mem s; m_returnData := m_returnData s; m_stack := m_stack s; m_OP := m_OP s;
     m_PC := m_PC s; m_SP := m_SP s; m_SPP := m_SPP s; m_runGas := m_runGas s;
     m_newMemSize := m_newMemSize s; m_copyMemSize := m_copyMemSize s |}.
Definition set_mem (v : bytes) : vm X :=
  {| m_io_gas := m_io_gas s; m_ext := m_ext s; m_bounce := m_bounce s; m_output := m_output s;
     m_mem := v; m_returnData := m_returnData s; m_stack := m_stack s; m_OP := m_OP s;
     m_PC := m_PC s; m_SP := m_SP s; m_SPP := m_SPP s; m_runGas := m_runGas s;
     m_newMemSize := m_newMemSize s; m_copyMemSize := m_copyMemSize s |}.
Definition set_returnData (v : bytes) : vm X :=
  {| m_io_gas := m_io_gas s; m_ext := m_ext s; m_bounce := m_bounce s; m_output := m_output s;
     m_mem := m_mem s; m_returnData := v; m_stack := m_stack s; m_OP := m_OP s; m_PC := m_PC s;
     m_SP := m_SP s; m_SPP := m_SPP s; m_runGas := m_runGas s; m_newMemSize := m_newMemSize s;
     m_copyMemSize := m_copyMemSize s |}.
Definition set_stack (v : list Z) : vm X :=
  {| m_io_gas := m_io_gas s; m_ext := m_ext s; m_bounce := m_bounce s; m_output := m_output s;
     m_mem := m_mem s; m_returnData := m_returnData s; m_stack := v; m_OP := m_OP s;
     m_PC := m_PC s; m_SP := m_SP s; m_SPP := m_SPP s; m_runGas := m_runGas s;
     m_newMemSize := m_newMemSize s; m_copyMemSize := m_copyMemSize s |}.
Definition set_OP (v : Z) : vm X :=
  {| m_io_gas := m_io_gas s; m_ext := m_ext s; m_bounce := m_bounce s; m_output := m_output s;
     m_mem := m_mem s; m_returnData := m_returnData s; m_stack := m_stack s; m_OP := v;
     m_PC := m_PC s; m_SP := m_SP s; m_SPP := m_SPP s; m_runGas := m_runGas s;
     m_newMemSize := m_newMemSize s; m_copyMemSize := m_copyMemSize s |}.
Definition set_PC (v : Z) : vm X :=
  {| m_io_gas := m_io_gas s; m_ext := m_ext s; m_bounce := m_bounce s; m_output := m_output s;
     m_mem := m_mem s; m_returnData := m_returnData s; m_stack := m_stack s; m_OP := m_OP s;
     m_PC := v; m_SP := m_SP s; m_SPP := m_SPP s; m_runGas := m_runGas s;
     m_newMemSize := m_newMemSize s; m_copyMemSize := m_copyMemSize s |}.
Definition set_SP (v : Z) : vm X :=
  {| m_io_gas := m_io_gas s; m_ext := m_ext s; m_bounce := m_bounce s; m_output := m_output s;
     m_mem := m_mem s; m_returnData := m_returnData s; m_stack := m_stack s; m_OP := m_OP s;
     m_PC := m_PC s; m_SP := v; m_SPP := m_SPP s; m_runGas := m_runGas s;
     m_newMemSize := m_newMemSize s; m_copyMemSize := m_copyMemSize s |}.
Definition set_SPP (v : Z) : vm X :=
  {| m_io_gas := m_io_gas s; m_ext := m_ext s; m_bounce := m_bounce s; m_output := m_output s;
     m_mem := m_mem s; m_returnData := m_returnData s; m_stack := m_stack s; m_OP := m_OP s;
     m_PC := m_PC s; m_SP := m_SP s; m_SPP := v; m_runGas := m_runGas s;
     m_newMemSize := m_newMemSize s; m_copyMemSize := m_copyMemSize s |}.
Definition set_runGas (v : Z) : vm X :=
  {| m_io_gas := m_io_gas s; m_ext := m_ext s; m_bounce := m_bounce s; m_output := m_output s;
     m_mem := m_mem s; m_returnData := m_returnData s; m_stack := m_stack s; m_OP := m_OP s;
     m_PC := m_PC s; m_SP := m_SP s; m_SPP := m_SPP s; m_runGas := v;
     m_newMemSize := m_newMemSize s; m_copyMemSize := m_copyMemSize s |}.
Definition set_newMemSize (v : Z) : vm X :=
  {| m_io_gas := m_io_gas s; m_ext := m_ext s; m_bounce := m_bounce s; m_output := m_output s;
     m_mem := m_mem s; m_returnData := m_returnData s; m_stack := m_stack s; m_OP := m_OP s;
     m_PC := m_PC s; m_SP := m_SP s; m_SPP := m_SPP s; m_runGas := m_runGas s;
     m_newMemSize := v; m_copyMemSize := m_copyMemSize s |}.
Definition set_copyMemSize (v : Z) : vm X :=
  {| m_io_gas := m_io_gas s; m_ext := m_ext s; m_bounce := m_bounce s; m_output := m_output s;
     m_mem := m_mem s; m_returnData := m_returnData s; m_stack := m_stack s; m_OP := m_OP s;
     m_PC := m_PC s; m_SP := m_SP s; m_SPP := m_SPP s; m_runGas := m_runGas s;
     m_newMemSize := m_newMemSize s; m_copyMemSize := v |}.
End Setters.

(** How a case of [interpretCases] ends: [NEXT] advances the program counter,
    [CONTINUE] does not, [BREAK] leaves [interpretCases]. *)
Inductive flow := NEXT | CONTINUE | BREAK.

(** ** Arithmetic on stack items *)

Definition asAddress (_item : Z) : bytes := drop 12 (of_arith 32 _item).
Definition fromAddress (_a : bytes) : Z := to_arith 20 _a.

(** [u2s] and [s2u] (libdevcore/Common.h). An [s256] has a sign and a 256-bit
    magnitude. *)
Definition u2s (_u : Z) : Z := if Z.testbit _u 255 then - (2 ^ 256 - _u) else _u.
Definition s2u (_u : Z) : Z := if 0 <=? _u then wrap 256 _u else wrap 256 (2 ^ 256 + _u).

(** [divWorkaround] and [modWorkaround]: [s512] division rounds towards zero. *)
Definition divWorkaround (_a _b : Z) : Z := Z.quot _a _b.
Definition modWorkaround (_a _b : Z) : Z := Z.rem _a _b.

Definition of_bool (b : bool) : Z := if b then 1 else 0.

Definition op_ADD (a b : Z) : Z := wrap 256 (a + b).
Definition op_MUL (a b : Z) : Z := wrap 256 (a * b).
Definition op_SUB (a b : Z) : Z := wrap 256 (a - b).
Definition op_DIV (a b : Z) : Z := if negb (b =? 0) then wrap 256 (divWorkaround a b) else 0.
Definition op_SDIV (a b : Z) : Z := if negb (b =? 0) then s2u (divWorkaround (u2s a) (u2s b)) else 0.
Definition op_MOD (a b : Z) : Z := if negb (b =? 0) then wrap 256 (modWorkaround a b) else 0.
Definition op_SMOD (a b : Z) : Z := if negb (b =? 0) then s2u (modWorkaround (u2s a) (u2s b)) else 0.
Definition op_NOT (a : Z) : Z := wrap 256 (Z.lnot a).
Definition op_LT (a b : Z) : Z := of_bool (a <? b).
Definition op_GT (a b : Z) : Z := of_bool (b <? a).
Definition op_SLT (a b : Z) : Z := of_bool (u2s a <? u2s b).
Definition op_SGT (a b : Z) : Z := of_bool (u2s b <? u2s a).
Definition op_EQ (a b : Z) : Z := of_bool (a =? b).
Definition op_ISZERO (a : Z) : Z := if negb (a =? 0) then 0 else 1.
Definition op_BYTE (a b : Z) : Z :=
  if a <? 32 then Z.land (Z.shiftr b (wrap 32 (8 * (31 - a)))) 0xff else 0.
Definition op_ADDMOD (a b c : Z) : Z := if negb (c =? 0) then wrap 256 ((a + b) mod c) else 0.
Definition op_MULMOD (a b c : Z) : Z := if negb (c =? 0) then wrap 256 ((a * b) mod c) else 0.
Definition op_SIGNEXTEND (a number : Z) : Z :=
  if a <? 31 then
    let testBit := wrap 32 a * 8 + 7 in
    let mask := wrap 256 (wrap 256 (Z.shiftl 1 testBit) - 1) in
    if Z.testbit number testBit then Z.lor number (wrap 256 (Z.lnot mask)) else Z.land number mask
  else number.

(** [exp256]: the loop on [(_base, _exponent, result)]. The exponent halves at
    every iteration, so 256 iterations reach zero. *)
Fixpoint exp256_loop (fuel : nat) (_base _exponent result : Z) : Z :=
  match fuel with
  | O => result
  | S f =>
      if _exponent =? 0 then result
      else
        let result := if Z.odd _exponent then wrap 256 (result * _base) else result in
        exp256_loop f (wrap 256 (_base * _base)) (Z.shiftr _exponent 1) result
  end.
Definition exp256 (_base _exponent : Z) : Z := exp256_loop 256 _base _exponent 1.

(** The bytes of call data from [i] on, as a word: the three branches of
    [CALLDATALOAD]. *)
Definition calldata_word (d : bytes) (i : Z) : Z :=
  if i + 31 <? zlen d then to_arith 32 (ztake 32 (zdrop i d))
  else if zlen d <=? i then 0
  else to_arith 32 (map (fun j => if i + Z.of_nat j <? zlen d then get d (i + Z.of_nat j) else 0) (seq 0 32)).

Section Interpreter.
Context {X : Type} {EX : ExtVMFace X}.
Variable E : Env.
Variable P : prepared.

Abbreviation VM_M A := (M (vm X) exn A).
Abbreviation sch := (vvmSchedule E).

(** ** Memory accesses *)

(** [m_SP[k]], [m_SP[k] = v] and [m_SPP[0] = v]. *)
Definition SP (k : Z) : VM_M Z := fun s =>
  match zat (m_stack s) (m_SP s + k) with
  | Some v => (Ok v, s)
  | None => (Err BadAccess, s)
  end.
Definition stack_put (i v : Z) : VM_M unit := fun s =>
  if (0 <=? i) && (i <? zlen (m_stack s))
  then (Ok tt, set_stack s (<[Z.to_nat i := v]> (m_stack s)))
  else (Err BadAccess, s).
Definition set_SP_at (k v : Z) : VM_M unit := fun s => stack_put (m_SP s + k) v s.
Definition set_SPP0 (v : Z) : VM_M unit := fun s => stack_put (m_SPP s) v s.

(** [m_code[i]] and [m_pool[i]]. *)
Definition code_at (i : Z) : VM_M Z :=
  match zat (p_code P) i with Some b => mret b | None => mthrow BadAccess end.
Definition pool_at (i : Z) : VM_M Z :=
  match zat (p_pool P) i with Some v => mret v | None => mthrow BadAccess end.

(** [n] bytes of memory from [off] on; an empty view may start anywhere. *)
Definition mem_read (off n : Z) : VM_M bytes := fun s =>
  if n =? 0 then (Ok [], s)
  else if (0 <=? off) && (off + n <=? zlen (m_mem s)) then (Ok (ztake n (zdrop off (m_mem s))), s)
  else (Err BadAccess, s).
Definition mem_write (off : Z) (bs : bytes) : VM_M unit := fun s =>
  if zlen bs =? 0 then (Ok tt, s)
  else if (0 <=? off) && (off + zlen bs <=? zlen (m_mem s))
  then (Ok tt, set_mem s (ztake off (m_mem s) ++ bs ++ zdrop (off + zlen bs) (m_mem s)))
  else (Err BadAccess, s).

Definition modify_PC (f : Z -> Z) : VM_M unit := mput (fun s => set_PC s (f (m_PC s))).
Definition inc_PC : VM_M unit := modify_PC (fun pc => wrap 64 (pc + 1)).
Definition set_run (g : Z) : VM_M unit := mput (fun s => set_runGas s g).
Definition add_run (g : Z) : VM_M unit := mput (fun s => set_runGas s (wrap 64 (m_runGas s + g))).
Definition set_copy (g : Z) : VM_M unit := mput (fun s => set_copyMemSize s g).
Definition bounce_to (b : bounce) : VM_M unit := mput (fun s => set_bounce s b).

(** A member function of [m_ext]. *)
Definition ext {A} (f : X -> A * X) : VM_M A := fun s => let '(a, x) := f (m_ext s) in (Ok a, set_ext s x).
Definition ext_do (f : X -> X) : VM_M unit := fun s => (Ok tt, set_ext s (f (m_ext s))).

(** ** Metering *)

Definition toInt63 (v : Z) : VM_M Z :=
  if 0x7FFFFFFFFFFFFFFF <? v then mthrow OutOfGas else mret v.

(** [u512(_offset) + _size] does not overflow. *)
Definition memNeed (_offset _size : Z) : VM_M Z :=
  toInt63 (if negb (_size =? 0) then _offset + _size else 0).

Definition throwBadStack {A} (_removed _added : Z) : VM_M A := fun s =>
  let size := 1024 - m_SPP s in
  if size <? _removed then (Err StackUnderflow, s) else (Err OutOfStack, s).

Definition adjustStack (_removed _added : Z) : VM_M unit :=
  exec! mput (fun s => set_SP s (m_SPP s)) in
  exec! mput (fun s => set_SPP s (m_SPP s + _removed)) in
  do! spp := mget m_SPP in
  if 1024 <? spp then throwBadStack _removed _added else
  exec! mput (fun s => set_SPP s (m_SPP s - _added)) in
  do! spp := mget m_SPP in
  if spp <? 0 then throwBadStack _removed _added else
  mret tt.

Definition updateSSGas : VM_M unit :=
  do! k := SP 0 in
  do! v := SP 1 in
  do! old := ext (fun x => store x k) in
  if (old =? 0) && negb (v =? 0) then
    do! g := toInt63 (sstoreSetGas sch) in set_run g
  else
  do! old := ext (fun x => store x k) in
  if negb (old =? 0) && (v =? 0) then
    do! g := toInt63 (sstoreResetGas sch) in
    exec! set_run g in
    ext_do (fun x => add_refunds x (sstoreRefundGas sch))
  else
    do! g := toInt63 (sstoreResetGas sch) in set_run g.

Definition gasForMem (_size : Z) : VM_M Z :=
  let s := _size / 32 in
  toInt63 (memoryGas sch * s + s * s / quadCoeffDiv sch).

Definition updateIOGas : VM_M unit :=
  do! g := mget m_io_gas in
  do! r := mget m_runGas in
  if g <? r then mthrow OutOfGas else
  mput (fun s => set_io_gas s (g - r)).

Definition updateGas : VM_M unit :=
  do! new := mget m_newMemSize in
  do! mem := mget m_mem in
  exec! (if zlen mem <? new then
           do! a := gasForMem new in
           do! b := gasForMem (zlen mem) in
           do! d := toInt63 (wrap 64 (a - b)) in
           add_run d
         else mret tt) in
  do! c := mget m_copyMemSize in
  exec! add_run (wrap 64 (copyGas sch * ((c + 31) / 32))) in
  do! g := mget m_io_gas in
  do! r := mget m_runGas in
  if g <? r then mthrow OutOfGas else mret tt.

Definition updateMem (_newMem : Z) : VM_M unit :=
  exec! mput (fun s => set_newMemSize s ((wrap 64 (_newMem + 31)) / 32 * 32)) in
  exec! updateGas in
  mput (fun s =>
    if zlen (m_mem s) <? m_newMemSize s
    then set_mem s (m_mem s ++ replicate (Z.to_nat (m_newMemSize s - zlen (m_mem s))) 0)
    else s).

(** [unsigned] arithmetic up to the [u512] product. *)
Definition logGasMem : VM_M unit :=
  do! op := mget m_OP in
  let n := op - Instruction.code Instruction.LOG0 in
  do! off := SP 0 in
  do! size := SP 1 in
  do! g := toInt63 (wrap 32 (logGas sch + wrap 32 (logTopicGas sch * n)) + logDataGas sch * size) in
  exec! set_run g in
  do! need := memNeed off size in
  updateMem need.

(** [m_schedule->tierStepGas[...]]. The array has eight elements and
    [Tier::Invalid] is 8: the read is then past the end, where the next member
    of the schedule, [expGas], is. *)
Definition tierGas (t : Tier.t) : Z :=
  default (expGas sch) (zat (tierStepGas sch) (Tier.to_unsigned t)).

(** [c_metrics[op]] is filled from [instructionInfo] by [initMetrics]. *)
Definition metric (op : Z) : InstructionInfo := instructionInfo op.

Definition fetchInstruction : VM_M unit :=
  do! pc := mget m_PC in
  do! op := code_at pc in
  exec! mput (fun s => set_OP s op) in
  let m := metric op in
  exec! adjustStack (args m) (ret m) in
  do! g := toInt63 (tierGas (gasPriceTier m)) in
  exec! set_run g in
  exec! mput (fun s => set_newMemSize s (zlen (m_mem s))) in
  set_copy 0.

(** ** Instructions that call out (VMCalls.cpp) *)

(** [copyDataToMemory(_data, m_SP + base)]. *)
Definition copyDataToMemory (_data : bytes) (base : Z) : VM_M unit :=
  do! sp0 := SP base in
  do! bigIndex := SP (base + 1) in
  do! sp2 := SP (base + 2) in
  let offset := wrap 64 sp0 in
  let index := wrap 64 bigIndex in
  let size := wrap 64 sp2 in
  let sizeToBeCopied :=
    if zlen _data <? bigIndex + size then
      if zlen _data <? bigIndex then 0 else wrap 64 (zlen _data - index)
    else size in
  exec! (if 0 <? sizeToBeCopied then
           if index + sizeToBeCopied <=? zlen _data
           then mem_write offset (ztake sizeToBeCopied (zdrop index _data))
           else mthrow BadAccess
         else mret tt) in
  if sizeToBeCopied <? size
  then mem_write (offset + sizeToBeCopied) (replicate (Z.to_nat (size - sizeToBeCopied)) 0)
  else mret tt.

Definition verifyJump (_dest : Z) : VM_M Z :=
  match verifyJumpDest (p_jumpDests P) _dest with
  | Some pc => mret pc
  | None => mthrow BadJumpDestination
  end.

Definition case_Create : VM_M unit :=
  exec! bounce_to interpretCases in
  do! g := toInt63 (createGas sch) in
  exec! set_run g in
  do! endowment := SP 0 in
  do! op := mget m_OP in
  do! (salt, initOff, initSize) :=
    (if op =? Instruction.code Instruction.CREATE then
       do! o := SP 1 in do! z := SP 2 in mret (0, o, z)
     else
       do! l := SP 1 in do! o := SP 2 in do! z := SP 3 in mret (l, o, z)) in
  do! need := memNeed initOff initSize in
  exec! updateMem need in
  exec! updateIOGas in
  exec! mput (fun s => set_returnData s []) in
  do! b := ext (fun x => balance x (myAddress E)) in
  exec! (if (endowment <=? b) && (depth E <? 1024) then
           do! io_gas := mget m_io_gas in
           let createGas :=
             if negb (staticCallDepthLimit sch) then io_gas - io_gas / 64 else io_gas in
           do! initCode := mem_read (wrap 64 initOff) (wrap 64 initSize) in
           do! ((addr, output), gas) := ext (fun x => create x endowment createGas initCode op salt) in
           exec! set_SPP0 (to_arith 20 addr) in
           exec! mput (fun s => set_returnData s output) in
           mput (fun s => set_io_gas s (wrap 64 (wrap 256 (io_gas - wrap 256 (createGas - gas)))))
         else set_SPP0 0) in
  inc_PC.

Definition is_op (op : Z) (i : Instruction.t) : bool := op =? Instruction.code i.

(** [caseCallSetup]: the parameters, and, when the call is to be made, where its
    output goes. *)
Definition caseCallSetup : VM_M (CallParameters * option (Z * Z)) :=
  do! op := mget m_OP in
  do! g := toInt63 (callGas sch) in
  exec! set_run g in
  let cp_static := is_op op Instruction.STATICCALL || staticCall E in
  let haveValueArg := is_op op Instruction.CALL || is_op op Instruction.CALLCODE in
  do! gasArg := SP 0 in
  do! dest := SP 1 in
  let destinationAddr := asAddress dest in
  do! val := (if haveValueArg then SP 2 else mret 0) in
  do! absent := (if is_op op Instruction.CALL then do! e := ext (fun x => exists_ x destinationAddr) in mret (negb e) else mret false) in
  exec! (if absent && ((0 <? val) || zeroValueTransferChargesNewAccountGas sch)
         then do! g := toInt63 (callNewAccountGas sch) in add_run g else mret tt) in
  exec! (if haveValueArg && (0 <? val)
         then do! g := toInt63 (callValueTransferGas sch) in add_run g else mret tt) in
  let sizesOffset := if haveValueArg then 3 else 2 in
  do! inputOffset := SP sizesOffset in
  do! inputSize := SP (sizesOffset + 1) in
  do! outputOffset := SP (sizesOffset + 2) in
  do! outputSize := SP (sizesOffset + 3) in
  do! inputMemNeed := memNeed inputOffset inputSize in
  do! outputMemNeed := memNeed outputOffset outputSize in
  let newMem := Z.max inputMemNeed outputMemNeed in
  exec! mput (fun s => set_newMemSize s newMem) in
  exec! updateMem newMem in
  exec! updateIOGas in
  do! io_gas := mget m_io_gas in
  let gas := if staticCallDepthLimit sch then gasArg else Z.min gasArg (io_gas - io_gas / 64) in
  do! g := toInt63 gas in
  exec! set_run g in
  exec! updateIOGas in
  let gas := if haveValueArg && (0 <? val) then wrap 256 (gas + callStipend sch) else gas in
  let transfer := if haveValueArg then val else 0 in
  let apparent :=
    if haveValueArg then val
    else if is_op op Instruction.DELEGATECALL then value E else 0 in
  let p sender receive input :=
    {| senderAddress := sender; codeAddress := destinationAddr; receiveAddress := receive;
       valueTransfer := transfer; apparentValue := apparent; cp_gas := gas; cp_data := input;
       cp_staticCall := cp_static |} in
  do! b := ext (fun x => balance x (myAddress E)) in
  if (transfer <=? b) && (depth E <? 1024) then
    do! input := mem_read (wrap 64 inputOffset) (wrap 64 inputSize) in
    let sender := if is_op op Instruction.DELEGATECALL then caller E else myAddress E in
    let receive := if is_op op Instruction.CALL || is_op op Instruction.STATICCALL
                   then destinationAddr else myAddress E in
    mret (p sender receive input, Some (wrap 64 outputOffset, wrap 64 outputSize))
  else mret (p (zero 20) (zero 20) [], None).

Definition case_Call : VM_M unit :=
  exec! bounce_to interpretCases in
  exec! mput (fun s => set_returnData s []) in
  do! (callParams, output) := caseCallSetup in
  do! gas :=
    (match output with
     | Some (outOff, outSize) =>
         do! ((success, outputRef), gas) := ext (fun x => call x callParams) in
         do! o := mem_read outOff outSize in
         exec! mem_write outOff (VectorRef.copyTo outputRef o) in
         exec! mput (fun s => set_returnData s outputRef) in
         exec! set_SPP0 (of_bool success) in
         mret gas
     | None => exec! set_SPP0 0 in mret (cp_gas callParams)
     end) in
  exec! mput (fun s => set_io_gas s (wrap 64 (m_io_gas s + wrap 64 gas))) in
  inc_PC.

(** ** The cases of [interpretCases] (VM.cpp) *)

Definition throwIf (b : bool) (e : exn) : VM_M unit := if b then mthrow e else mret tt.

(** *** Call-related instructions *)

Definition case_CREATE2 : VM_M flow :=
  exec! throwIf (negb (haveCreate2 sch)) BadInstruction in
  exec! bounce_to caseCreate in
  mret BREAK.

Definition case_CREATE : VM_M flow :=
  exec! throwIf (staticCall E) DisallowedStateChange in
  exec! bounce_to caseCreate in
  mret BREAK.

(** [DELEGATECALL], [STATICCALL], [CALL] and [CALLCODE]. *)
Definition case_CALLs : VM_M flow :=
  do! op := mget m_OP in
  exec! throwIf (is_op op Instruction.DELEGATECALL && negb (haveDelegateCall sch)) BadInstruction in
  exec! throwIf (is_op op Instruction.STATICCALL && negb (haveStaticCall sch)) BadInstruction in
  exec! (if is_op op Instruction.CALL && staticCall E then
           do! v := SP 2 in throwIf (negb (v =? 0)) DisallowedStateChange
         else mret tt) in
  exec! bounce_to caseCall in
  mret BREAK.

(** The memory of [RETURN] and [REVERT]: checked, paid for and taken. *)
Definition take_output : VM_M bytes :=
  exec! set_copy 0 in
  do! off := SP 0 in
  do! size := SP 1 in
  do! need := memNeed off size in
  exec! updateMem need in
  exec! updateIOGas in
  do! out := mem_read (wrap 64 off) (wrap 64 size) in
  exec! mput (fun s => set_mem s []) in
  mret out.

Definition case_RETURN : VM_M flow :=
  do! out := take_output in
  exec! mput (fun s => set_output s out) in
  exec! bounce_to null in
  mret BREAK.

Definition case_REVERT : VM_M flow :=
  exec! throwIf (negb (haveRevert sch)) BadInstruction in
  do! out := take_output in
  mthrow (RevertInstruction out).

Definition case_SUICIDE : VM_M flow :=
  exec! throwIf (staticCall E) DisallowedStateChange in
  do! g := toInt63 (suicideGas sch) in
  exec! set_run g in
  do! a := SP 0 in
  let dest := asAddress a in
  do! b := ext (fun x => balance x (myAddress E)) in
  do! charged :=
    (if ((0 <? b) || zeroValueTransferChargesNewAccountGas sch) && suicideChargesNewAccountGas sch
     then do! e := ext (fun x => exists_ x dest) in mret (negb e) else mret false) in
  exec! (if charged then add_run (callNewAccountGas sch) else mret tt) in
  exec! updateIOGas in
  exec! ext_do (fun x => suicide x dest) in
  exec! bounce_to null in
  mret BREAK.

Definition case_STOP : VM_M flow :=
  exec! updateIOGas in
  exec! bounce_to null in
  mret BREAK.

(** *** Instructions potentially expanding memory *)

(** [(unsigned)m_SP[0]] is the low 32 bits of the offset. *)
Definition case_MLOAD : VM_M flow :=
  do! off := SP 0 in
  do! o := toInt63 off in
  exec! updateMem (o + 32) in
  exec! updateIOGas in
  do! w := mem_read (wrap 32 off) 32 in
  exec! set_SPP0 (to_arith 32 w) in
  mret NEXT.

Definition case_MSTORE : VM_M flow :=
  do! off := SP 0 in
  do! o := toInt63 off in
  exec! updateMem (o + 32) in
  exec! updateIOGas in
  do! v := SP 1 in
  exec! mem_write (wrap 32 off) (of_arith 32 v) in
  mret NEXT.

Definition case_MSTORE8 : VM_M flow :=
  do! off := SP 0 in
  do! o := toInt63 off in
  exec! updateMem (o + 1) in
  exec! updateIOGas in
  do! v := SP 1 in
  exec! mem_write (wrap 32 off) [Z.land v 0xff] in
  mret NEXT.

Definition case_SHA3 : VM_M flow :=
  do! off := SP 0 in
  do! size := SP 1 in
  do! g := toInt63 (sha3Gas sch + (size + 31) / 32 * sha3WordGas sch) in
  exec! set_run g in
  do! need := memNeed off size in
  exec! updateMem need in
  exec! updateIOGas in
  do! input := mem_read (wrap 64 off) (wrap 64 size) in
  exec! set_SPP0 (to_arith 32 (Keccak.sha3 input)) in
  mret NEXT.

(** The topics of [LOGn]: [m_SP[2]], ..., [m_SP[1 + n]]. *)
Fixpoint topics (n : nat) (k : Z) : VM_M (list bytes) :=
  match n with
  | O => mret []
  | S n' => do! t := SP k in do! ts := topics n' (k + 1) in mret (of_arith 32 t :: ts)
  end.

(** [LOG0] to [LOG4], with [n] topics. *)
Definition case_LOG (n : nat) : VM_M flow :=
  exec! throwIf (staticCall E) DisallowedStateChange in
  exec! logGasMem in
  exec! updateIOGas in
  do! ts := topics n 2 in
  do! off := SP 0 in
  do! size := SP 1 in
  do! bs := mem_read (wrap 64 off) (wrap 64 size) in
  exec! ext_do (fun x => log x ts bs) in
  mret NEXT.

Definition case_EXP : VM_M flow :=
  do! expon := SP 1 in
  do! g := toInt63 (wrap 32 (expGas sch
             + wrap 32 (expByteGas sch * wrap 32 (32 - firstBitSet (of_arith 32 expon) / 8)))) in
  exec! set_run g in
  exec! updateIOGas in
  do! base := SP 0 in
  exec! set_SPP0 (exp256 base expon) in
  mret NEXT.

(** *** Ordinary instructions *)

(** [updateIOGas(); m_SPP[0] = f(m_SP[0], ...)]. *)
Definition ordinary0 (v : Z) : VM_M flow :=
  exec! updateIOGas in exec! set_SPP0 v in mret NEXT.
Definition ordinary1 (f : Z -> Z) : VM_M flow :=
  exec! updateIOGas in do! a := SP 0 in exec! set_SPP0 (f a) in mret NEXT.
Definition ordinary2 (f : Z -> Z -> Z) : VM_M flow :=
  exec! updateIOGas in do! a := SP 0 in do! b := SP 1 in exec! set_SPP0 (f a b) in mret NEXT.
Definition ordinary3 (f : Z -> Z -> Z -> Z) : VM_M flow :=
  exec! updateIOGas in
  do! a := SP 0 in do! b := SP 1 in do! c := SP 2 in
  exec! set_SPP0 (f a b c) in mret NEXT.

(** The operand is changed in place. *)
Definition case_SIGNEXTEND : VM_M flow :=
  exec! updateIOGas in
  do! a := SP 0 in
  do! number := SP 1 in
  exec! set_SP_at 1 (op_SIGNEXTEND a number) in
  mret NEXT.

(** *** The environment *)

(** [m_runGas = toInt63(g); updateIOGas(); m_SPP[0] = f(m_ext, m_SP[0])]. *)
Definition query (g : Z) (f : X -> Z -> Z * X) : VM_M flow :=
  do! g := toInt63 g in
  exec! set_run g in
  exec! updateIOGas in
  do! a := SP 0 in
  do! v := ext (fun x => f x a) in
  exec! set_SPP0 v in
  mret NEXT.

Definition case_CALLDATALOAD : VM_M flow :=
  exec! updateIOGas in
  do! i := SP 0 in
  exec! set_SP_at 0 (calldata_word (data E) i) in
  mret NEXT.

Definition case_RETURNDATASIZE : VM_M flow :=
  exec! throwIf (negb (haveReturnData sch)) BadInstruction in
  exec! updateIOGas in
  do! r := mget m_returnData in
  exec! set_SPP0 (zlen r) in
  mret NEXT.

(** [CALLDATACOPY] and [CODECOPY]. *)
Definition case_COPY (d : bytes) : VM_M flow :=
  do! size := SP 2 in
  do! c := toInt63 size in
  exec! set_copy c in
  do! off := SP 0 in
  do! need := memNeed off size in
  exec! updateMem need in
  exec! updateIOGas in
  exec! copyDataToMemory d 0 in
  mret NEXT.

Definition case_RETURNDATACOPY : VM_M flow :=
  exec! throwIf (negb (haveReturnData sch)) BadInstruction in
  do! index := SP 1 in
  do! size := SP 2 in
  do! r := mget m_returnData in
  exec! throwIf (zlen r <? index + size) BufferOverrun in
  do! c := toInt63 size in
  exec! set_copy c in
  do! off := SP 0 in
  do! need := memNeed off size in
  exec! updateMem need in
  exec! updateIOGas in
  exec! copyDataToMemory r 0 in
  mret NEXT.

Definition case_EXTCODECOPY : VM_M flow :=
  do! g := toInt63 (extcodecopyGas sch) in
  exec! set_run g in
  do! size := SP 3 in
  do! c := toInt63 size in
  exec! set_copy c in
  do! off := SP 1 in
  do! need := memNeed off size in
  exec! updateMem need in
  exec! updateIOGas in
  do! a := SP 0 in
  do! c := ext (fun x => codeAt x (asAddress a)) in
  exec! copyDataToMemory c 1 in
  mret NEXT.

(** *** The stack, the program counter and storage *)

(** [m_PC] is advanced over the offset and by the remainder stored after it. *)
Definition case_PUSHC : VM_M flow :=
  exec! updateIOGas in
  exec! inc_PC in
  do! pc := mget m_PC in do! hi := code_at pc in exec! inc_PC in
  do! pc := mget m_PC in do! lo := code_at pc in exec! inc_PC in
  let off := Z.lor (Z.shiftl hi 8) lo in
  do! pc := mget m_PC in do! rem := code_at pc in
  exec! modify_PC (fun pc => wrap 64 (pc + rem)) in
  do! v := pool_at off in
  exec! set_SPP0 v in
  mret CONTINUE.

Definition case_PUSH1 : VM_M flow :=
  exec! updateIOGas in
  exec! inc_PC in
  do! pc := mget m_PC in
  do! v := code_at pc in
  exec! set_SPP0 v in
  exec! inc_PC in
  mret CONTINUE.

(** [for (++m_PC; numBytes--; ++m_PC) m_SPP[0] = (m_SPP[0] << 8) | m_code[m_PC]],
    [v] being what [m_SPP[0]] holds. *)
Fixpoint push_loop (numBytes : nat) (v : Z) : VM_M unit :=
  match numBytes with
  | O => mret tt
  | S n =>
      do! pc := mget m_PC in
      do! b := code_at pc in
      let v := Z.lor (wrap 256 (Z.shiftl v 8)) b in
      exec! set_SPP0 v in
      exec! inc_PC in
      push_loop n v
  end.

(** [PUSH2] to [PUSH32]. *)
Definition case_PUSHn : VM_M flow :=
  exec! updateIOGas in
  do! op := mget m_OP in
  let numBytes := op - Instruction.code Instruction.PUSH1 + 1 in
  exec! set_SPP0 0 in
  exec! inc_PC in
  exec! push_loop (Z.to_nat numBytes) 0 in
  mret CONTINUE.

Definition case_POP : VM_M flow := exec! updateIOGas in mret NEXT.

Definition case_JUMP : VM_M flow :=
  exec! updateIOGas in
  do! dest := SP 0 in
  do! pc := verifyJump dest in
  exec! modify_PC (fun _ => pc) in
  mret CONTINUE.

Definition case_JUMPI : VM_M flow :=
  exec! updateIOGas in
  do! c := SP 1 in
  exec! (if negb (c =? 0) then
           do! dest := SP 0 in do! pc := verifyJump dest in modify_PC (fun _ => pc)
         else inc_PC) in
  mret CONTINUE.

Definition case_JUMPC : VM_M flow :=
  exec! updateIOGas in
  do! dest := SP 0 in
  exec! modify_PC (fun _ => wrap 64 dest) in
  mret CONTINUE.

Definition case_JUMPCI : VM_M flow :=
  exec! updateIOGas in
  do! c := SP 1 in
  exec! (if negb (c =? 0) then do! dest := SP 0 in modify_PC (fun _ => wrap 64 dest) else inc_PC) in
  mret CONTINUE.

Definition case_DUP : VM_M flow :=
  exec! updateIOGas in
  do! op := mget m_OP in
  let n := op - Instruction.code Instruction.DUP1 in
  do! v := SP n in
  exec! set_SPP0 v in
  mret NEXT.

Definition case_SWAP : VM_M flow :=
  exec! updateIOGas in
  do! op := mget m_OP in
  let n := op - Instruction.code Instruction.SWAP1 + 1 in
  do! a := SP 0 in
  do! b := SP n in
  exec! set_SP_at 0 b in
  exec! set_SP_at n a in
  mret NEXT.

Definition case_SSTORE : VM_M flow :=
  exec! throwIf (staticCall E) DisallowedStateChange in
  exec! updateSSGas in
  exec! updateIOGas in
  do! k := SP 0 in
  do! v := SP 1 in
  exec! ext_do (fun x => setStore x k v) in
  mret NEXT.

(** [m_SPP[0] = f], read after the gas is taken. *)
Definition reading (f : vm X -> Z) : VM_M flow :=
  exec! updateIOGas in
  do! v := mget f in
  exec! set_SPP0 v in
  mret NEXT.

Definition case_JUMPDEST : VM_M flow :=
  exec! set_run 1 in
  exec! updateIOGas in
  mret NEXT.

(** *** Dispatch *)

(** The labels of the call-related and memory instructions; [None] for the
    others. *)
Definition dispatch_calls (label : Instruction.t) : option (VM_M flow) :=
  match label with
  | Instruction.CREATE2 => Some case_CREATE2
  | Instruction.CREATE => Some case_CREATE
  | Instruction.DELEGATECALL | Instruction.STATICCALL
  | Instruction.CALL | Instruction.CALLCODE => Some case_CALLs
  | Instruction.RETURN => Some case_RETURN
  | Instruction.REVERT => Some case_REVERT
  | Instruction.SUICIDE => Some case_SUICIDE
  | Instruction.STOP => Some case_STOP
  | Instruction.MLOAD => Some case_MLOAD
  | Instruction.MSTORE => Some case_MSTORE
  | Instruction.MSTORE8 => Some case_MSTORE8
  | Instruction.SHA3 => Some case_SHA3
  | Instruction.LOG0 => Some (case_LOG 0)
  | Instruction.LOG1 => Some (case_LOG 1)
  | Instruction.LOG2 => Some (case_LOG 2)
  | Instruction.LOG3 => Some (case_LOG 3)
  | Instruction.LOG4 => Some (case_LOG 4)
  | Instruction.EXP => Some case_EXP
  | _ => None
  end.

Definition dispatch_ordinary (label : Instruction.t) : option (VM_M flow) :=
  match label with
  | Instruction.ADD => Some (ordinary2 op_ADD)
  | Instruction.MUL => Some (ordinary2 op_MUL)
  | Instruction.SUB => Some (ordinary2 op_SUB)
  | Instruction.DIV => Some (ordinary2 op_DIV)
  | Instruction.SDIV => Some (ordinary2 op_SDIV)
  | Instruction.MOD => Some (ordinary2 op_MOD)
  | Instruction.SMOD => Some (ordinary2 op_SMOD)
  | Instruction.NOT => Some (ordinary1 op_NOT)
  | Instruction.LT => Some (ordinary2 op_LT)
  | Instruction.GT => Some (ordinary2 op_GT)
  | Instruction.SLT => Some (ordinary2 op_SLT)
  | Instruction.SGT => Some (ordinary2 op_SGT)
  | Instruction.EQ => Some (ordinary2 op_EQ)
  | Instruction.ISZERO => Some (ordinary1 op_ISZERO)
  | Instruction.AND => Some (ordinary2 Z.land)
  | Instruction.OR => Some (ordinary2 Z.lor)
  | Instruction.XOR => Some (ordinary2 Z.lxor)
  | Instruction.BYTE => Some (ordinary2 op_BYTE)
  | Instruction.ADDMOD => Some (ordinary3 op_ADDMOD)
  | Instruction.MULMOD => Some (ordinary3 op_MULMOD)
  | Instruction.SIGNEXTEND => Some case_SIGNEXTEND
  | _ => None
  end.

Definition dispatch_env (label : Instruction.t) : option (VM_M flow) :=
  match label with
  | Instruction.ADDRESS => Some (ordinary0 (fromAddress (myAddress E)))
  | Instruction.ORIGIN => Some (ordinary0 (fromAddress (origin E)))
  | Instruction.BALANCE => Some (query (balanceGas sch) (fun x a => balance x (asAddress a)))
  | Instruction.CALLER => Some (ordinary0 (fromAddress (caller E)))
  | Instruction.CALLVALUE => Some (ordinary0 (value E))
  | Instruction.CALLDATALOAD => Some case_CALLDATALOAD
  | Instruction.CALLDATASIZE => Some (ordinary0 (zlen (data E)))
  | Instruction.RETURNDATASIZE => Some case_RETURNDATASIZE
  | Instruction.CODESIZE => Some (ordinary0 (zlen (code E)))
  | Instruction.EXTCODESIZE => Some (query (extcodesizeGas sch) (fun x a => codeSizeAt x (asAddress a)))
  | Instruction.CALLDATACOPY => Some (case_COPY (data E))
  | Instruction.RETURNDATACOPY => Some case_RETURNDATACOPY
  | Instruction.CODECOPY => Some (case_COPY (code E))
  | Instruction.EXTCODECOPY => Some case_EXTCODECOPY
  | Instruction.GASPRICE => Some (ordinary0 (gasPrice E))
  | Instruction.BLOCKHASH => Some (query (blockhashGas sch) (fun x a => let '(h, x') := blockHash x a in (to_arith 32 h, x')))
  | Instruction.COINBASE => Some (ordinary0 (to_arith 20 (author E)))
  | Instruction.TIMESTAMP => Some (ordinary0 (timestamp E))
  | Instruction.NUMBER => Some (ordinary0 (number E))
  | Instruction.DIFFICULTY => Some (ordinary0 (difficulty E))
  | Instruction.GASLIMIT => Some (ordinary0 (gasLimit E))
  | _ => None
  end.

Definition dispatch_stack (label : Instruction.t) : option (VM_M flow) :=
  match label with
  | Instruction.POP => Some case_POP
  | Instruction.PUSHC => Some case_PUSHC
  | Instruction.PUSH1 => Some case_PUSH1
  | Instruction.PUSH2 | Instruction.PUSH3 | Instruction.PUSH4 | Instruction.PUSH5
  | Instruction.PUSH6 | Instruction.PUSH7 | Instruction.PUSH8 | Instruction.PUSH9
  | Instruction.PUSH10 | Instruction.PUSH11 | Instruction.PUSH12 | Instruction.PUSH13
  | Instruction.PUSH14 | Instruction.PUSH15 | Instruction.PUSH16 | Instruction.PUSH17
  | Instruction.PUSH18 | Instruction.PUSH19 | Instruction.PUSH20 | Instruction.PUSH21
  | Instruction.PUSH22 | Instruction.PUSH23 | Instruction.PUSH24 | Instruction.PUSH25
  | Instruction.PUSH26 | Instruction.PUSH27 | Instruction.PUSH28 | Instruction.PUSH29
  | Instruction.PUSH30 | Instruction.PUSH31 | Instruction.PUSH32 => Some case_PUSHn
  | Instruction.JUMP => Some case_JUMP
  | Instruction.JUMPI => Some case_JUMPI
  | Instruction.JUMPC => Some case_JUMPC
  | Instruction.JUMPCI => Some case_JUMPCI
  | Instruction.DUP1 | Instruction.DUP2 | Instruction.DUP3 | Instruction.DUP4
  | Instruction.DUP5 | Instruction.DUP6 | Instruction.DUP7 | Instruction.DUP8
  | Instruction.DUP9 | Instruction.DUP10 | Instruction.DUP11 | Instruction.DUP12
  | Instruction.DUP13 | Instruction.DUP14 | Instruction.DUP15 | Instruction.DUP16 => Some case_DUP
  | Instruction.SWAP1 | Instruction.SWAP2 | Instruction.SWAP3 | Instruction.SWAP4
  | Instruction.SWAP5 | Instruction.SWAP6 | Instruction.SWAP7 | Instruction.SWAP8
  | Instruction.SWAP9 | Instruction.SWAP10 | Instruction.SWAP11 | Instruction.SWAP12
  | Instruction.SWAP13 | Instruction.SWAP14 | Instruction.SWAP15 | Instruction.SWAP16 => Some case_SWAP
  | Instruction.SLOAD => Some (query (sloadGas sch) store)
  | Instruction.SSTORE => Some case_SSTORE
  | Instruction.PC => Some (reading m_PC)
  | Instruction.MSIZE => Some (reading (fun s => zlen (m_mem s)))
  | Instruction.GAS => Some (reading m_io_gas)
  | Instruction.JUMPDEST => Some case_JUMPDEST
  | _ => None
  end.

(** [goto *jumpTable[(int)m_OP]]; the labels of the instructions that are
    configured out, and [INVALID], throw [BadInstruction]. *)
Definition dispatch (op : Z) : VM_M flow :=
  match zat Instruction.jumpTable op with
  | None => mthrow BadAccess
  | Some label =>
      match dispatch_calls label, dispatch_ordinary label, dispatch_env label, dispatch_stack label with
      | Some c, _, _, _ | None, Some c, _, _ | None, None, Some c, _ | None, None, None, Some c => c
      | None, None, None, None => mthrow BadInstruction
      end
  end.

(** One instruction: fetch, dispatch, and the [++m_PC] of [NEXT]. *)
Definition instruction : VM_M unit :=
  exec! fetchInstruction in
  do! op := mget m_OP in
  do! f := dispatch op in
  match f with
  | NEXT => inc_PC
  | CONTINUE | BREAK => mret tt
  end.

(** ** Running *)

(** One step of the trampoline of [exec], [interpretCases] taken one instruction
    at a time. *)
Definition step : VM_M unit :=
  do! b := mget m_bounce in
  match b with
  | interpretCases => instruction
  | caseCreate => case_Create
  | caseCall => case_Call
  | null => mret tt
  end.

(** The trampoline: until [m_bounce] is null or something is thrown; [None] when
    the fuel runs out. *)
Fixpoint run (fuel : nat) (s : vm X) : option (result exn unit * vm X) :=
  match m_bounce s with
  | null => Some (Ok tt, s)
  | _ =>
      match fuel with
      | O => None
      | S f =>
          match step s with
          | (Ok _, s') => run f s'
          | (Err e, s') => Some (Err e, s')
          end
      end
  end.

End Interpreter.

(** ** [exec] *)

(** A [VM] object whose [exec] has just prepared the code. *)
Definition init {X} (_io_gas : Z) (x : X) : vm X :=
  {| m_io_gas := wrap 64 _io_gas; m_ext := x; m_bounce := interpretCases; m_output := [];
     m_mem := []; m_returnData := []; m_stack := replicate 1024 0; m_OP := 0; m_PC := 0;
     m_SP := 1024; m_SPP := 1024; m_runGas := 0; m_newMemSize := 0; m_copyMemSize := 0 |}.

(** What [exec] returns or throws, the gas it leaves in [_io_gas], and the
    environment's state. *)
Definition finish {X} (r : result exn unit * vm X) : result exn bytes * Z * X :=
  let '(r, s) := r in
  (match r with Ok _ => Ok (m_output s) | Err e => Err e end, m_io_gas s, m_ext s).

Definition exec_prepared {X} {EX : ExtVMFace X} (fuel : nat) (E : Env) (P : prepared) (_io_gas : Z) (x : X)
    : option (result exn bytes * Z * X) :=
  finish <$> run E P fuel (init _io_gas x).

(** [exec]: [initEntry] prepares the code with [optimize]. *)
Definition exec {X} {EX : ExtVMFace X} (fuel : nat) (E : Env) (_io_gas : Z) (x : X)
    : option (result exn bytes * Z * X) :=
  exec_prepared fuel E (optimize (code E)) _io_gas x.

End VM.
