(* ===== verification/VMSafety.v ===== *)
(** * VMSafety: memory safety, gas and termination of the interpreter

    A program logic for the interpreter of [VM]: what the prepared code, the
    schedule and the environment have to satisfy, the invariant of the machine
    between two steps, and one lemma per operation. The theorems say that no step
    reads or writes outside an object, that gas only decreases, and that every
    run ends. *)

From stdpp Require Import base list numbers option.
From Stdlib Require Import ZArith Lia.
From S2P Require Import Prelude.
From S2P Require Import Bytes.
From S2P Require Import Keccak.
From S2P Require Import Instruction.
From S2P Require Import VMOpt.
From S2P Require Import VM.
Import CommonData FixedHash VMOpt VM.

(** ** Assumptions *)

(** Bounds on the prices: every one is below [2^24] (so sums of a few of them fit
    an [unsigned]), an instruction that lets the program go on costs something,
    and the stipend of a call is paid for by the caller. *)
Definition schedule_ok (s : VVMSchedule) : bool :=
  forallb (fun c => (0 <=? c) && (c <=? 2 ^ 24))
    (tierStepGas s ++
     [expGas s; expByteGas s; sha3Gas s; sha3WordGas s; sloadGas s; sstoreSetGas s;
      sstoreResetGas s; sstoreRefundGas s; logGas s; logDataGas s; logTopicGas s; createGas s; callGas s;
      callStipend s; callValueTransferGas s; callNewAccountGas s; memoryGas s; quadCoeffDiv s;
      extcodesizeGas s; extcodecopyGas s; balanceGas s; suicideGas s; blockhashGas s]) &&
  forallb (fun c => 1 <=? c)
    (ztake 6 (zdrop 1 (tierStepGas s)) ++
     [expGas s; sha3Gas s; sloadGas s; sstoreSetGas s; sstoreResetGas s; logGas s; createGas s;
      callGas s; quadCoeffDiv s; extcodesizeGas s; extcodecopyGas s; balanceGas s; blockhashGas s]) &&
  (zlen (tierStepGas s) =? 8) && (0 <=? copyGas s) && (copyGas s <=? 16) &&
  (callStipend s <=? callValueTransferGas s).

Lemma schedules_ok :
  forallb schedule_ok
    [DefaultSchedule; FrontierSchedule; HomesteadSchedule; EIP150Schedule; EIP158Schedule;
     ByzantiumSchedule; EWASMSchedule; ConstantinopleSchedule] = true.
Proof. vm_compute. reflexivity. Qed.

Abbreviation u256_ok := (uint_ok 256).

Definition hash_ok (N : nat) (h : bytes) : Prop := List.length h = N /\ bytes_ok h.
Definition buffer_ok (b : bytes) : Prop := bytes_ok b /\ zlen b < 2 ^ 63.

(** The values the environment gives are of their types. *)
Record env_ok (E : Env) : Prop := {
  env_sched : schedule_ok (vvmSchedule E) = true;
  env_my : hash_ok 20 (myAddress E);
  env_value : u256_ok (value E);
  env_price : u256_ok (gasPrice E);
  env_data : buffer_ok (data E);
  env_code : buffer_ok (code E);
  env_time : u256_ok (timestamp E);
  env_number : u256_ok (number E);
  env_difficulty : u256_ok (difficulty E);
  env_limit : u256_ok (gasLimit E)
}.

(** The parameters of a nested call: of their types, paid by the caller itself
    unless nothing is paid, and static when the caller is. *)
Record params_ok (E : Env) (p : CallParameters) : Prop := {
  params_receive : hash_ok 20 (receiveAddress p);
  params_transfer : u256_ok (valueTransfer p);
  params_apparent : u256_ok (apparentValue p);
  params_gas : 0 <= cp_gas p < 2 ^ 64;
  params_data : buffer_ok (cp_data p);
  params_sender : senderAddress p = myAddress E \/ valueTransfer p = 0;
  params_static : staticCall E = true -> cp_staticCall p = true
}.

(** An invariant of what is behind the interface. *)
Class ExtInvariant (X : Type) := ext_inv : X -> Prop.

(** What holds when a call or a creation is made: the balance was just read and is
    enough, and the depth is below the limit. *)
Definition affordable {X} {EX : ExtVMFace X} {EI : ExtInvariant X} (E : Env) (v : Z) (x : X) : Prop :=
  depth E < 1024 /\ exists x0 b, ext_inv x0 /\ balance x0 (myAddress E) = (b, x) /\ v <= b.

(** What the interpreter relies on from [ExtVMFace]: the invariant is kept,
    results are of their types, and the gas left by a nested call or creation is
    at most the gas given. *)
Class ExtVMLaws (X : Type) {EX : ExtVMFace X} {EI : ExtInvariant X} (E : Env) : Prop := {
  store_ok : forall x k v x', store x k = (v, x') -> ext_inv x -> u256_ok k -> u256_ok v /\ ext_inv x';
  setStore_ok : forall x k v, ext_inv x -> staticCall E = false -> u256_ok k -> u256_ok v -> ext_inv (setStore x k v);
  balance_ok : forall x a v x', balance x a = (v, x') -> ext_inv x -> u256_ok v /\ ext_inv x';
  codeAt_ok : forall x a c x', codeAt x a = (c, x') -> ext_inv x -> buffer_ok c /\ ext_inv x';
  codeSizeAt_ok : forall x a v x', codeSizeAt x a = (v, x') -> ext_inv x -> u256_ok v /\ ext_inv x';
  exists_ok : forall x a b x', exists_ x a = (b, x') -> ext_inv x -> ext_inv x';
  blockHash_ok : forall x n h x', blockHash x n = (h, x') -> ext_inv x -> u256_ok n -> ext_inv x';
  suicide_ok : forall x a, ext_inv x -> staticCall E = false -> hash_ok 20 a -> ext_inv (suicide x a);
  log_ok : forall x ts d, ext_inv x -> staticCall E = false -> ext_inv (log x ts d);
  add_refunds_ok : forall x n, ext_inv x -> staticCall E = false -> ext_inv (add_refunds x n);
  create_ok : forall x v g c op salt a o g' x', affordable E v x ->
    u256_ok v -> 0 <= g < 2 ^ 64 -> buffer_ok c -> u256_ok salt ->
    create x v g c op salt = ((a, o), g', x') -> buffer_ok o /\ 0 <= g' <= g /\ ext_inv x';
  call_ok : forall x p b o g' x', affordable E (valueTransfer p) x -> params_ok E p ->
    call x p = ((b, o), g', x') -> buffer_ok o /\ 0 <= g' <= cp_gas p /\ ext_inv x'
}.

(** The instructions that only [optimize] puts in the code. *)
Definition is_JUMPC (op : Z) : bool :=
  (op =? Instruction.code Instruction.JUMPC) || (op =? Instruction.code Instruction.JUMPCI).

Section Prepared.
Variable P : prepared.

Definition valid_dest (v : Z) : Prop := is_Some (verifyJumpDest (p_jumpDests P) v).

(** Falling through to [p] with [v] on top of the stack is fine. *)
Definition fall_ok (starts : Z -> Prop) (p v : Z) : Prop :=
  starts p /\ (is_JUMPC (get (p_code P) p) = true -> valid_dest v).

(** Prepared code, [starts] being the places where an instruction starts. *)
Record prepared_ok (starts : Z -> Prop) : Prop := {
  start_0 : starts 0 /\ is_JUMPC (get (p_code P) 0) = false;
  code_bytes : buffer_ok (p_code P);
  start_range : forall p, starts p -> 0 <= p < zlen (p_code P);
  dest_ok : forall v pc, 0 <= v -> verifyJumpDest (p_jumpDests P) v = Some pc ->
    pc = v /\ starts pc /\ get (p_code P) pc = Instruction.code Instruction.JUMPDEST;
  next_ok : forall p, starts p -> let op := get (p_code P) p in
    op <> Instruction.code Instruction.STOP -> isPush op = false ->
    op <> Instruction.code Instruction.PUSHC ->
    starts (p + 1) /\ is_JUMPC (get (p_code P) (p + 1)) = false;
  push_ok : forall p, starts p -> let n := nPush_of (get (p_code P) p) in
    isPush (get (p_code P) p) = true ->
    fall_ok starts (p + 1 + n) (be_val (ztake n (zdrop (p + 1) (p_code P))));
  pushc_ok : forall p, starts p -> get (p_code P) p = Instruction.code Instruction.PUSHC ->
    p + 3 < zlen (p_code P) /\
    exists v, zat (p_pool P) (Z.lor (Z.shiftl (get (p_code P) (p + 1)) 8) (get (p_code P) (p + 2))) = Some v /\
      u256_ok v /\ fall_ok starts (p + 3 + get (p_code P) (p + 3)) v
}.
End Prepared.

Module VMSafety.
Section Safety.
Context {X : Type} {EX : ExtVMFace X} {EI : ExtInvariant X}.
Variable E : Env.
Context {EL : ExtVMLaws X E}.
Variable P : prepared.
Variable starts : Z -> Prop.
Hypothesis HE : env_ok E.
Hypothesis HP : prepared_ok P starts.

Abbreviation VM_M A := (M (vm X) exn A).
Abbreviation sch := (vvmSchedule E).

(** ** The invariant *)

(** The machine between two operations of an instruction. *)
Record inv (s : vm X) : Prop := {
  inv_stack : List.length (m_stack s) = 1024%nat;
  inv_words : Forall u256_ok (m_stack s);
  inv_spp : 0 <= m_SPP s <= 1024;
  inv_mem : bytes_ok (m_mem s) /\ zlen (m_mem s) < 2 ^ 64;
  inv_gas : uint_ok 64 (m_io_gas s);
  inv_ret : buffer_ok (m_returnData s);
  inv_out : buffer_ok (m_output s);
  inv_ext : ext_inv (m_ext s)
}.

(** What the operations of an instruction leave as they found it. *)
Record frame (s0 s : vm X) : Prop := {
  fr_sp : m_SP s = m_SP s0;
  fr_spp : m_SPP s = m_SPP s0;
  fr_op : m_OP s = m_OP s0;
  fr_pc : m_PC s = m_PC s0;
  fr_bounce : m_bounce s = m_bounce s0
}.

(** The state of an instruction in progress, from [s0] on: [K] the stack array, [L] bytes
    of memory at least, between [R] and [U] to be charged, [C] bytes to be copied, and at least
    [G] paid. *)
Record st (s0 : vm X) (K : list Z) (L R U C G : Z) (s : vm X) : Prop := {
  st_inv : inv s;
  st_frame : frame s0 s;
  st_mem : L <= zlen (m_mem s);
  st_run : R <= m_runGas s <= U;
  st_copy : m_copyMemSize s = C;
  st_gas : m_io_gas s + G <= m_io_gas s0;
  st_stack : m_stack s = K
}.

(** An exception: never an access outside an object, no gas is created, and what
    is behind the interface keeps its invariant. *)
Definition fair (e : exn) : Prop :=
  match e with BadAccess => False | RevertInstruction o => buffer_ok o | _ => True end.
Definition fails (s0 : vm X) (e : exn) (s : vm X) : Prop :=
  fair e /\ 0 <= m_io_gas s <= m_io_gas s0 /\ ext_inv (m_ext s).

Definition triple {A} (s0 : vm X) (Pre : vm X -> Prop) (m : VM_M A) (Post : A -> vm X -> Prop) : Prop :=
  forall s, Pre s ->
    match m s with
    | (Ok a, s') => Post a s'
    | (Err e, s') => fails s0 e s'
    end.

Lemma triple_bind {A B} s0 Pre (m : VM_M A) Mid (f : A -> VM_M B) Post :
  triple s0 Pre m Mid -> (forall a, triple s0 (Mid a) (f a) Post) -> triple s0 Pre (mbind m f) Post.
Proof.
  intros Hm Hf s Hs. specialize (Hm s Hs). unfold mbind.
  destruct (m s) as [[a|e] s']; [|done]. by apply Hf.
Qed.

Lemma triple_ret {A} s0 (Pre : vm X -> Prop) (a : A) (Post : A -> vm X -> Prop) :
  (forall s, Pre s -> Post a s) -> triple s0 Pre (mret a) Post.
Proof. intros H s Hs. by apply H. Qed.

Lemma triple_pre {A} s0 (Pre Pre' : vm X -> Prop) (m : VM_M A) Post :
  (forall s, Pre s -> Pre' s) -> triple s0 Pre' m Post -> triple s0 Pre m Post.
Proof. intros H Hm s Hs. apply Hm. auto. Qed.

Lemma triple_post {A} s0 Pre (m : VM_M A) (Post Post' : A -> vm X -> Prop) :
  triple s0 Pre m Post' -> (forall a s, Post' a s -> Post a s) -> triple s0 Pre m Post.
Proof. intros Hm H s Hs. specialize (Hm s Hs). destruct (m s) as [[a|e] s']; auto. Qed.

Lemma triple_pure {A} s0 (Pre : vm X -> Prop) (Q : Prop) (m : VM_M A) Post :
  (Q -> triple s0 Pre m Post) -> triple s0 (fun s => Pre s /\ Q) m Post.
Proof. intros H s [Hs HQ]. by apply (H HQ). Qed.

Lemma triple_pure_l {A} s0 (Pre : vm X -> Prop) (Q : Prop) (m : VM_M A) Post :
  (Q -> triple s0 Pre m Post) -> triple s0 (fun s => Q /\ Pre s) m Post.
Proof. intros H s [HQ Hs]. by apply (H HQ). Qed.

Lemma triple_exists {A B} s0 (Pre : B -> vm X -> Prop) (m : VM_M A) Post :
  (forall b, triple s0 (Pre b) m Post) -> triple s0 (fun s => exists b, Pre b s) m Post.
Proof. intros H s [b Hs]. by apply (H b). Qed.

Lemma triple_mget {A} s0 (Pre : vm X -> Prop) (f : vm X -> A) :
  triple s0 Pre (mget f) (fun a s => Pre s /\ a = f s).
Proof. intros s Hs. done. Qed.

(** An operation that does not use the interface, when what is behind it is
    known. *)
Lemma triple_keep {A} s0 (Pre : vm X -> Prop) (m : VM_M A) Post x :
  (forall s, m_ext (snd (m s)) = m_ext s) -> triple s0 Pre m Post ->
  triple s0 (fun s => Pre s /\ m_ext s = x) m (fun a s => Post a s /\ m_ext s = x).
Proof.
  intros Hk Hm s [Hs Hx]. specialize (Hm s Hs). specialize (Hk s). destruct (m s) as [[a|e] s']; [|done].
  split; [done|]. cbn in Hk. congruence.
Qed.
Lemma triple_pure_mid {A} s0 (Pre R : vm X -> Prop) (Q : Prop) (m : VM_M A) Post :
  (Q -> triple s0 (fun s => Pre s /\ R s) m Post) -> triple s0 (fun s => (Pre s /\ Q) /\ R s) m Post.
Proof. intros H s [[Hs HQ] HR]. by apply (H HQ). Qed.

Section Ops.
Variables (s0 : vm X) (K : list Z) (L R U C G : Z).
Hypothesis HG : 0 <= G.
Abbreviation now := (st s0 K L R U C G).

Lemma st_fails e s : fair e -> now s -> fails s0 e s.
Proof. intros He Hs. split; [done|]. destruct Hs. destruct st_inv0. unfold uint_ok in *. split; [lia|done]. Qed.

Lemma throw_ok {A} e (Post : A -> vm X -> Prop) : fair e -> triple s0 now (mthrow e) Post.
Proof. intros He s Hs. by apply st_fails. Qed.

Lemma throwIf_ok b e : fair e -> triple s0 now (throwIf b e) (fun _ s => now s /\ b = false).
Proof. intros He s Hs. unfold throwIf. destruct b; [by apply st_fails|done]. Qed.

Lemma toInt63_ok v : triple s0 now (toInt63 v) (fun a s => now s /\ (a = v /\ v < 2 ^ 63)).
Proof.
  intros s Hs. unfold toInt63. destruct (Z.ltb_spec 0x7FFFFFFFFFFFFFFF v).
  - by apply st_fails.
  - split; [done|]. lia.
Qed.

Lemma SP_ok k :
  0 <= m_SP s0 + k < 1024 ->
  triple s0 now (SP k) (fun v s => now s /\ (u256_ok v /\ zat K (m_SP s0 + k) = Some v)).
Proof.
  intros Hk s Hs. unfold SP. destruct Hs as [Hi Hf ? ? ? ? Hk']. rewrite (fr_sp _ _ Hf).
  destruct (zat (m_stack s) (m_SP s0 + k)) as [v|] eqn:Ev.
  - split; [by constructor|]. split; [|by rewrite <- Hk']. unfold zat in Ev. destruct (_ <? 0); [done|].
    eapply Forall_lookup_1; [exact (inv_words _ Hi)|done].
  - exfalso. unfold zat in Ev. destruct (Z.ltb_spec (m_SP s0 + k) 0); [lia|].
    apply lookup_ge_None in Ev. rewrite (inv_stack _ Hi) in Ev. lia.
Qed.

Lemma inv_stack_put s i v : inv s -> u256_ok v -> inv (set_stack s (<[Z.to_nat i := v]> (m_stack s))).
Proof.
  intros [] Hv. constructor; cbn; auto.
  - by rewrite length_insert.
  - by apply Forall_insert.
Qed.

Lemma stack_put_ok i v :
  0 <= i < 1024 -> u256_ok v -> triple s0 now (stack_put i v) (fun _ => st s0 (<[Z.to_nat i := v]> K) L R U C G).
Proof.
  intros Hi Hv s Hs. unfold stack_put. rewrite (inv_stack _ (st_inv _ _ _ _ _ _ _ _ Hs)).
  destruct (Z.leb_spec 0 i); [|lia]. destruct (Z.ltb_spec i (Z.of_nat 1024)); [|lia]. cbn [andb].
  destruct Hs as [Hi' [] ? ? ? ? HK]. constructor; auto using inv_stack_put; [by constructor|]. cbn. by rewrite HK.
Qed.

Lemma set_SP_at_ok k v :
  0 <= m_SP s0 + k < 1024 -> u256_ok v -> 
  triple s0 now (set_SP_at k v) (fun _ => st s0 (<[Z.to_nat (m_SP s0 + k) := v]> K) L R U C G).
Proof.
  intros Hk Hv s Hs. unfold set_SP_at. rewrite (fr_sp _ _ (st_frame _ _ _ _ _ _ _ _ Hs)).
  by apply stack_put_ok.
Qed.

Lemma set_SPP0_ok v :
  0 <= m_SPP s0 < 1024 -> u256_ok v -> 
  triple s0 now (set_SPP0 v) (fun _ => st s0 (<[Z.to_nat (m_SPP s0) := v]> K) L R U C G).
Proof.
  intros Hk Hv s Hs. unfold set_SPP0. rewrite (fr_spp _ _ (st_frame _ _ _ _ _ _ _ _ Hs)).
  by apply stack_put_ok.
Qed.

Lemma mem_read_ok off n :
  0 <= n -> (n = 0 \/ 0 <= off /\ off + n <= L) ->
  triple s0 now (mem_read off n) (fun bs s => now s /\ (bytes_ok bs /\ zlen bs = n)).
Proof.
  intros Hn H s Hs. unfold mem_read. destruct (Z.eqb_spec n 0) as [->|].
  - split; [done|]. split; [constructor|done].
  - destruct H as [|[H1 H2]]; [done|]. pose proof (st_mem _ _ _ _ _ _ _ _ Hs).
    destruct (Z.leb_spec 0 off); [|lia]. destruct (Z.leb_spec (off + n) (zlen (m_mem s))); [|lia].
    cbn [andb]. split; [done|]. split.
    + apply bytes_ok_ztake, bytes_ok_zdrop, (proj1 (inv_mem _ (st_inv _ _ _ _ _ _ _ _ Hs))).
    + rewrite zlen_ztake; [done|]. rewrite zlen_zdrop; lia.
Qed.

Lemma mem_write_ok off bs :
  bytes_ok bs -> (zlen bs = 0 \/ 0 <= off /\ off + zlen bs <= L) ->
  triple s0 now (mem_write off bs) (fun _ => now).
Proof.
  intros Hb H s Hs. unfold mem_write. destruct (Z.eqb_spec (zlen bs) 0); [done|].
  destruct H as [|[H1 H2]]; [done|]. destruct Hs as [Hi [] ? ? ? ? ?].
  destruct (Z.leb_spec 0 off); [|lia].
  destruct (Z.leb_spec (off + zlen bs) (zlen (m_mem s))); [|lia]. cbn [andb].
  constructor; cbn; try done; try lia.
  - destruct Hi as [? ? ? [Hm1 Hm2] ? ? ? ?]. constructor; cbn; try done.
    rewrite !bytes_ok_app, !zlen_app, zlen_ztake, zlen_zdrop by lia.
    split; [auto with vlib|lia].
  - rewrite !zlen_app, zlen_ztake, zlen_zdrop by lia. lia.
Qed.

Lemma set_run_ok g : triple s0 now (set_run g) (fun _ => st s0 K L g g C G).
Proof. intros s [[] [] ? ? ? ? ?]. constructor; cbn; try done; constructor; cbn; done. Qed.

Lemma add_run_ok g :
  0 <= R -> 0 <= g -> U + g < 2 ^ 64 -> triple s0 now (add_run g) (fun _ => st s0 K L (R + g) (U + g) C G).
Proof.
  intros HR Hg HU s [[] [] ? ? ? ? ?]. constructor; cbn; try done; try (constructor; cbn; done).
  rewrite wrap_small by (unfold uint_ok; lia). lia.
Qed.

Lemma set_copy_ok c : triple s0 now (set_copy c) (fun _ => st s0 K L R U c G).
Proof. intros s [[] [] ? ? ? ? ?]. constructor; cbn; try done; constructor; cbn; done. Qed.

Lemma updateIOGas_ok : 0 <= R -> triple s0 now updateIOGas (fun _ => st s0 K L R U C (G + R)).
Proof.
  intros HR s Hs. unfold updateIOGas, mbind, mget. destruct (Z.ltb_spec (m_io_gas s) (m_runGas s)).
  - by apply st_fails.
  - destruct Hs as [[] [] ? ? ? ? ?]. constructor; cbn; try done; try (constructor; cbn; done); [|lia].
    constructor; cbn; try done. unfold uint_ok in *. lia.
Qed.

Lemma ext_ok {A} (f : X -> A * X) (Q : A -> Prop) :
  (forall x a x', ext_inv x -> f x = (a, x') -> Q a /\ ext_inv x') -> triple s0 now (ext f) (fun a s => now s /\ Q a).
Proof.
  intros Hf s [[] [] ? ? ? ? ?]. unfold ext. destruct (f (m_ext s)) as [a x'] eqn:Ef. destruct (Hf _ _ _ inv_ext0 Ef).
  split; [|done]. constructor; cbn; try done; constructor; cbn; done.
Qed.
Lemma ext_at_ok {A} (f : X -> A * X) (Q : A -> Prop) x :
  (forall a x', f x = (a, x') -> Q a /\ ext_inv x') ->
  triple s0 (fun s => now s /\ m_ext s = x) (ext f) (fun a s => now s /\ Q a).
Proof.
  intros Hf s [[[] [] ? ? ? ? ?] <-]. unfold ext. destruct (f (m_ext s)) as [a x'] eqn:Ef. destruct (Hf _ _ eq_refl).
  split; [|done]. constructor; cbn; try done; constructor; cbn; done.
Qed.
Lemma ext_balance_ok :
  triple s0 now (ext (fun x => balance x (myAddress E)))
    (fun b s => (now s /\ u256_ok b) /\ exists x0, ext_inv x0 /\ balance x0 (myAddress E) = (b, m_ext s)).
Proof.
  intros s Hs. pose proof (inv_ext _ (st_inv _ _ _ _ _ _ _ _ Hs)) as Hx. unfold ext.
  destruct (balance (m_ext s) (myAddress E)) as [b x'] eqn:Eb. destruct (balance_ok _ _ _ _ Eb Hx) as [Hb Hx'].
  split; [|by exists (m_ext s)]. split; [|done].
  destruct Hs as [[] [] ? ? ? ? ?]. constructor; cbn; try done; constructor; cbn; done.
Qed.
Lemma ext_do_ok f : (forall x, ext_inv x -> ext_inv (f x)) -> triple s0 now (ext_do f) (fun _ => now).
Proof. intros Hf s [[] [] ? ? ? ? ?]. constructor; cbn; try done; constructor; cbn; auto. Qed.

Lemma returnData_ok r : buffer_ok r -> triple s0 now (mput (fun s => set_returnData s r)) (fun _ => now).
Proof. intros Hr s [[] [] ? ? ? ? ?]. constructor; cbn; try done; constructor; cbn; done. Qed.

(** Leaving the frame: the last operations of an instruction. *)
Lemma bounce_ok b : triple s0 now (bounce_to b) (fun _ s => exists s1, now s1 /\ s = set_bounce s1 b).
Proof. intros s Hs. by exists s. Qed.
Lemma modify_PC_ok f : triple s0 now (modify_PC f) (fun _ s => exists s1, now s1 /\ s = set_PC s1 (f (m_PC s0))).
Proof. intros s Hs. exists s. by rewrite <- (fr_pc _ _ (st_frame _ _ _ _ _ _ _ _ Hs)). Qed.

Lemma mget_OP_ok : triple s0 now (mget m_OP) (fun a s => now s /\ a = m_OP s0).
Proof. intros s Hs. by destruct Hs as [? [] ? ? ? ? ?]. Qed.
Lemma mget_PC_ok : triple s0 now (mget m_PC) (fun a s => now s /\ a = m_PC s0).
Proof. intros s Hs. by destruct Hs as [? [] ? ? ? ? ?]. Qed.
Lemma mget_ret_ok : triple s0 now (mget m_returnData) (fun a s => now s /\ buffer_ok a).
Proof. intros s Hs. split; [done|]. by destruct Hs as [[] ? ? ? ? ? ?]. Qed.
Lemma mget_gas_ok :
  triple s0 now (mget m_io_gas) (fun a s => now s /\ (uint_ok 64 a /\ a + G <= m_io_gas s0)).
Proof. intros s Hs. split; [done|]. by destruct Hs as [[] ? ? ? ? ? ?]. Qed.
Lemma set_io_gas_ok g G' :
  uint_ok 64 g -> g + G' <= m_io_gas s0 ->
  triple s0 now (mput (fun s => set_io_gas s g)) (fun _ => st s0 K L R U C G').
Proof. intros Hg HG' s [[] [] ? ? ? ? ?]. constructor; cbn; try done; constructor; cbn; done. Qed.

Lemma newMemSize_ok n : triple s0 now (mput (fun s => set_newMemSize s n)) (fun _ => now).
Proof. intros s [[] [] ? ? ? ? ?]. constructor; cbn; try done; constructor; cbn; done. Qed.

(** *** Memory expansion *)

Lemma sched_bounds :
  1 <= quadCoeffDiv sch /\ 0 <= memoryGas sch /\ 0 <= copyGas sch <= 16.
Proof.
  pose proof (env_sched _ HE) as H. unfold schedule_ok in H.
  rewrite !andb_true_iff, !forallb_forall in H. destruct H as (((((H1 & H2) & _) & H3) & H4) & _).
  pose proof (H2 (quadCoeffDiv sch) ltac:(apply in_or_app; right; cbn; tauto)).
  pose proof (H1 (memoryGas sch) ltac:(apply in_or_app; right; cbn; tauto)). lia.
Qed.

Definition memCost (n : Z) : Z := memoryGas sch * (n / 32) + (n / 32) * (n / 32) / quadCoeffDiv sch.

Lemma memCost_mono a b : 0 <= a <= b -> 0 <= memCost a <= memCost b.
Proof.
  intros H. pose proof sched_bounds as (Hq & Hm & _). unfold memCost.
  assert (0 <= a / 32) by (apply Z.div_pos; lia).
  assert (a / 32 <= b / 32) by (apply Z.div_le_mono; lia).
  assert (0 <= a / 32 * (a / 32) / quadCoeffDiv sch) by (apply Z.div_pos; nia).
  assert (a / 32 * (a / 32) / quadCoeffDiv sch <= b / 32 * (b / 32) / quadCoeffDiv sch)
    by (apply Z.div_le_mono; nia).
  nia.
Qed.

(** What [updateGas] adds for copying, and that it does not overflow. *)
Definition copyCost : Z := copyGas sch * ((C + 31) / 32).

Lemma set_runGas_eta (s : vm X) : set_runGas s (m_runGas s) = s.
Proof. by destruct s. Qed.

Lemma toInt63_small v (s : vm X) : v <= 0x7FFFFFFFFFFFFFFF -> toInt63 v s = (Ok v, s).
Proof. intros. unfold toInt63. by destruct (Z.ltb_spec 0x7FFFFFFFFFFFFFFF v); [lia|]. Qed.
Lemma gasForMem_Ok n (s : vm X) : memCost n <= 0x7FFFFFFFFFFFFFFF -> gasForMem E n s = (Ok (memCost n), s).
Proof. apply toInt63_small. Qed.
Lemma gasForMem_Err n (s : vm X) : 0x7FFFFFFFFFFFFFFF < memCost n -> gasForMem E n s = (Err OutOfGas, s).
Proof.
  intros. unfold gasForMem, toInt63. fold (memCost n).
  by destruct (Z.ltb_spec 0x7FFFFFFFFFFFFFFF (memCost n)); [|lia].
Qed.

Lemma updateGas_cases (s : vm X) :
  m_copyMemSize s = C -> 0 <= R <= m_runGas s -> 0 <= C -> m_runGas s <= U ->
  U + 2 ^ 63 + copyCost < 2 ^ 64 ->
  exists r, R <= r < 2 ^ 64 /\
    (updateGas E s = (Ok tt, set_runGas s r) \/ updateGas E s = (Err OutOfGas, set_runGas s r)).
Proof.
  intros Hc Hr HC HU Ho. pose proof sched_bounds as (_ & _ & Hcg).
  assert (0 <= copyCost) by (unfold copyCost; apply Z.mul_nonneg_nonneg; [lia|apply Z.div_pos; lia]).
  assert (Hend : forall r, R <= r -> r + copyCost < 2 ^ 64 ->
    exists r', R <= r' < 2 ^ 64 /\
      ((exec! add_run (wrap 64 (copyGas sch * ((m_copyMemSize s + 31) / 32))) in
        do! g := mget m_io_gas in do! r := mget m_runGas in
        if g <? r then mthrow OutOfGas else mret tt) (set_runGas s r) = (Ok tt, set_runGas s r') \/
       (exec! add_run (wrap 64 (copyGas sch * ((m_copyMemSize s + 31) / 32))) in
        do! g := mget m_io_gas in do! r := mget m_runGas in
        if g <? r then mthrow OutOfGas else mret tt) (set_runGas s r) = (Err OutOfGas, set_runGas s r'))).
  { intros r H1 H2. exists (r + copyCost). split; [lia|].
    unfold add_run, mbind, mput, mget, mthrow, mret. cbn [m_runGas m_io_gas set_runGas].
    rewrite Hc. fold copyCost. rewrite (wrap_small 64 copyCost), (wrap_small 64) by (unfold uint_ok; lia).
    destruct (_ <? _); [by right|by left]. }
  unfold updateGas.
  erewrite (mbind_Ok (mget m_newMemSize)) by reflexivity. erewrite (mbind_Ok (mget m_mem)) by reflexivity.
  cbn beta.
  destruct (Z.ltb_spec (zlen (m_mem s)) (m_newMemSize s)) as [Hm|Hm].
  - pose proof (memCost_mono (zlen (m_mem s)) (m_newMemSize s) ltac:(lia)) as Hmono.
    destruct (Z.lt_ge_cases 0x7FFFFFFFFFFFFFFF (memCost (m_newMemSize s))) as [Hbig|Hsmall].
    { exists (m_runGas s). split; [lia|]. right. rewrite set_runGas_eta.
      erewrite mbind_Err; [reflexivity|]. erewrite mbind_Err; [reflexivity|]. by apply gasForMem_Err. }
    destruct (Hend (m_runGas s + (memCost (m_newMemSize s) - memCost (zlen (m_mem s)))) ltac:(lia) ltac:(lia))
      as (r' & Hr' & Hcase).
    exists r'. split; [done|].
    erewrite mbind_Ok; [exact Hcase|].
    erewrite mbind_Ok by (apply gasForMem_Ok; lia). erewrite mbind_Ok by (apply gasForMem_Ok; lia).
    rewrite (wrap_small 64) by (unfold uint_ok; lia).
    erewrite mbind_Ok by (apply toInt63_small; lia).
    unfold add_run, mput. by rewrite (wrap_small 64) by (unfold uint_ok; lia).
  - destruct (Hend (m_runGas s) ltac:(lia) ltac:(lia)) as (r' & Hr' & Hcase).
    exists r'. split; [done|]. rewrite set_runGas_eta in Hcase.
    erewrite mbind_Ok by reflexivity. exact Hcase.
Qed.

Lemma updateMem_ok need :
  0 <= R -> 0 <= C -> 0 <= need < 2 ^ 63 + 64 -> U + 2 ^ 63 + copyCost < 2 ^ 64 ->
  triple s0 now (updateMem E need) (fun _ => st s0 K (Z.max L need) R (2 ^ 64) C G).
Proof.
  intros HR HC Hneed HU s Hs. unfold updateMem, mput at 1. rewrite (wrap_small 64) by (unfold uint_ok; lia).
  set (new := (need + 31) / 32 * 32).
  assert (need <= new) by (pose proof (Z.div_mod (need + 31) 32 ltac:(lia));
    pose proof (Z.mod_pos_bound (need + 31) 32 ltac:(lia)); lia).
  erewrite mbind_Ok by reflexivity. destruct Hs as [[] [] ? ? ? ? ?].
  destruct (updateGas_cases (set_newMemSize s new)) as (r & Hr & [Hu|Hu]); cbn; try done; try lia.
  - erewrite mbind_Ok by exact Hu. unfold mput. cbn [m_mem m_newMemSize set_runGas set_newMemSize].
    destruct (Z.ltb_spec (zlen (m_mem s)) new).
    + constructor; cbn; [|by constructor| |lia|done|lia|done].
      * constructor; cbn; try done. destruct inv_mem0. split.
        -- apply bytes_ok_app. split; [done|]. apply Forall_replicate. unfold is_byte. lia.
        -- assert (new <= need + 31) by (unfold new; pose proof (Z.mul_div_le (need + 31) 32); lia).
           rewrite zlen_app, length_replicate. lia.
      * rewrite zlen_app, length_replicate. lia.
    + constructor; cbn; [by constructor|by constructor|lia|lia|done|lia|done].
  - erewrite mbind_Err by exact Hu. split; [done|]. cbn. unfold uint_ok in *. split; [lia|done].
Qed.

Lemma memNeed_ok off size :
  0 <= off -> 0 <= size ->
  triple s0 now (memNeed off size)
    (fun a s => now s /\ (0 <= a < 2 ^ 63 /\ (size = 0 \/ a = off + size))).
Proof.
  intros Ho Hz. unfold memNeed. eapply triple_post; [apply toInt63_ok|].
  cbn. intros a s (Hs & -> & Hlt). split; [done|].
  destruct (Z.eqb_spec size 0); cbn [negb] in *; [split; [lia|by left]|split; [lia|by right]].
Qed.

Lemma mem_read64_ok off size :
  0 <= off -> 0 <= size -> (size = 0 \/ off + size < 2 ^ 63 /\ off + size <= L) ->
  triple s0 now (mem_read (wrap 64 off) (wrap 64 size)) (fun bs s => now s /\ (buffer_ok bs /\ zlen bs = wrap 64 size)).
Proof.
  intros Ho Hz H. assert (0 <= wrap 64 size < 2 ^ 63 /\ (wrap 64 size = 0 \/ 0 <= wrap 64 off /\ wrap 64 off + wrap 64 size <= L)) as [Hw1 Hw2].
  { destruct H as [->|(H1 & H2)]; [change (wrap 64 0) with 0; lia|].
    rewrite !(wrap_small 64) by (unfold uint_ok; lia). lia. }
  eapply triple_post; [apply mem_read_ok; lia|]. cbn. intros bs s (? & ? & ?).
  split; [done|]. split; [split; [done|lia]|done].
Qed.

Lemma copyDataToMemory_ok d base off size :
  buffer_ok d -> zat K (m_SP s0 + base) = Some off -> zat K (m_SP s0 + (base + 2)) = Some size ->
  0 <= m_SP s0 + base -> m_SP s0 + (base + 2) < 1024 ->
  0 <= off -> 0 <= size < 2 ^ 63 -> (size = 0 \/ off + size < 2 ^ 63 /\ off + size <= L) ->
  triple s0 now (copyDataToMemory d base) (fun _ => now).
Proof.
  intros [Hd Hlen] K1 K3 Hsp0 Hsp1 Ho Hz Hmem. unfold copyDataToMemory.
  eapply triple_bind; [apply SP_ok; lia|]. intros a. cbv beta. apply triple_pure. intros Ea; destruct Ea as (_ & Ea).
  rewrite K1 in Ea. injection Ea as <-.
  eapply triple_bind; [apply SP_ok; lia|]. intros index. cbv beta. apply triple_pure. intros Ea.
  assert (0 <= index) as Hi by (destruct Ea as [[? _] _]; done). clear Ea.
  eapply triple_bind; [apply SP_ok; lia|]. intros a. cbv beta. apply triple_pure. intros Ea; destruct Ea as (_ & Ea).
  rewrite K3 in Ea. injection Ea as <-.
  rewrite (wrap_small 64 size) by (unfold uint_ok; lia).
  set (n := if zlen d <? index + size then if zlen d <? index then 0 else wrap 64 (zlen d - wrap 64 index) else size).
  assert (0 <= n <= size /\ (0 < n -> wrap 64 index = index /\ index + n <= zlen d)) as [Hn1 Hn2].
  { unfold n. destruct (Z.ltb_spec (zlen d) (index + size)).
    - destruct (Z.ltb_spec (zlen d) index); [lia|]. rewrite !(wrap_small 64) by (unfold uint_ok; rewrite ?(wrap_small 64); unfold uint_ok; lia).
      lia.
    - split; [lia|]. intros _. rewrite (wrap_small 64) by (unfold uint_ok; lia). lia. }
  assert (Hw : size = 0 \/ wrap 64 off = off) by
    (destruct Hmem as [->|(Hm1 & Hm2)]; [by left|right; apply wrap_small; unfold uint_ok; lia]).
  eapply triple_bind with (Mid := fun _ => now).
  - destruct (Z.ltb_spec 0 n) as [Hn|Hn]; [|by apply triple_ret].
    destruct (Hn2 Hn) as [-> Hle]. destruct (Z.leb_spec (index + n) (zlen d)); [|lia].
    apply mem_write_ok; [auto with vlib|]. right.
    rewrite zlen_ztake by (rewrite zlen_zdrop; lia). destruct Hw as [Hw|Hw]; [lia|rewrite Hw; lia].
  - intros _. destruct (Z.ltb_spec n size); [|by apply triple_ret].
    apply mem_write_ok; [apply Forall_replicate; unfold is_byte; lia|]. right.
    rewrite length_replicate. destruct Hw as [Hw|Hw]; [lia|rewrite Hw; lia].
Qed.

End Ops.

Lemma copyCost_bound C : 0 <= C < 2 ^ 63 -> 0 <= copyCost C <= 2 ^ 62 + 16 /\ (C = 0 -> copyCost C = 0).
Proof.
  intros HC. pose proof sched_bounds as (_ & _ & Hc). unfold copyCost.
  assert (0 <= (C + 31) / 32 <= 2 ^ 58 + 1).
  { split; [apply Z.div_pos; lia|]. apply Z.div_le_upper_bound; lia. }
  split; [nia|]. intros ->. change ((0 + 31) / 32) with 0. lia.
Qed.

(** The two uses of [updateMem]: with nothing to copy, or with a fixed price. *)
Lemma updateMem_any s0 K L R U C G need :
  0 <= G -> 0 <= R -> 0 <= C < 2 ^ 63 -> (C = 0 /\ U < 2 ^ 63 \/ U <= 2 ^ 25) -> 0 <= need < 2 ^ 63 + 64 ->
  triple s0 (st s0 K L R U C G) (updateMem E need) (fun _ => st s0 K (Z.max L need) R (2 ^ 64) C G).
Proof.
  intros HG HR HC HU Hn. pose proof (copyCost_bound C HC) as [Hc1 Hc2].
  apply updateMem_ok; auto; [lia|]. destruct HU as [[HC0 HU]|HU]; [rewrite (Hc2 HC0)|]; lia.
Qed.
(** ** Outcomes of an instruction *)

(** What holds of the program counter between two instructions: it is at the
    start of an instruction, and a verified destination is on the stack when that
    is a pre-verified jump. *)
Definition pc_ok (s : vm X) : Prop :=
  starts (m_PC s) /\
  (is_JUMPC (get (p_code P) (m_PC s)) = true ->
   forall v, zat (m_stack s) (m_SPP s) = Some v -> valid_dest P v).

Definition paid (s0 s : vm X) : Prop := 0 <= m_io_gas s /\ m_io_gas s + 1 <= m_io_gas s0.

Definition next_post (s0 : vm X) (f : flow) (s : vm X) : Prop :=
  f = NEXT /\ inv s /\ frame s0 s /\ paid s0 s.
Definition continue_post (s0 : vm X) (f : flow) (s : vm X) : Prop :=
  f = CONTINUE /\ inv s /\ pc_ok s /\ m_bounce s = m_bounce s0 /\ paid s0 s.
Definition call_post (s0 : vm X) (b : bounce) (f : flow) (s : vm X) : Prop :=
  f = BREAK /\ exists s1, inv s1 /\ frame s0 s1 /\ m_io_gas s1 <= m_io_gas s0 /\ m_copyMemSize s1 = 0 /\
    s = set_bounce s1 b.
Definition stop_post (s0 : vm X) (f : flow) (s : vm X) : Prop :=
  f = BREAK /\ m_bounce s = null /\ 0 <= m_io_gas s <= m_io_gas s0 /\ buffer_ok (m_output s) /\ ext_inv (m_ext s).

Lemma st_next s0 K L R U C G s : 1 <= G -> st s0 K L R U C G s -> next_post s0 NEXT s.
Proof.
  intros HG [Hi Hf _ _ _ Hg _]. pose proof (inv_gas _ Hi) as []. repeat split; auto; try apply Hi; try apply Hf; lia.
Qed.

Lemma to_arith_range N h : uint_ok (8 * Z.of_nat N) (to_arith N h).
Proof.
  unfold to_arith, fromBigEndian. destruct h as [|b h] using rev_ind.
  - cbn. unfold uint_ok. lia.
  - rewrite fold_left_app. cbn. apply wrap_range. lia.
Qed.
Lemma to_arith_u256 N h : (N <= 32)%nat -> u256_ok (to_arith N h).
Proof.
  intros HN. pose proof (to_arith_range N h) as [? ?]. split; [done|].
  eapply Z.lt_le_trans; [done|]. apply Z.pow_le_mono_r; lia.
Qed.
Lemma wrap_u256 v : u256_ok (wrap 256 v).
Proof. apply wrap_range. lia. Qed.
Lemma small_u256 v : 0 <= v < 2 ^ 64 -> u256_ok v.
Proof. unfold uint_ok. lia. Qed.

End Safety.

Create HintDb vm.
#[export] Hint Resolve wrap_u256 : vm.
#[export] Hint Extern 5 (uint_ok 256 (to_arith _ _)) => apply to_arith_u256; lia : vm.

(** Symbolic execution: [vop] finds the lemma of the next operation, [vstep] goes
    over one [mbind]. *)
Ltac vside := try lia; try (eauto with vm; fail); try (unfold uint_ok in *; lia).
Ltac vop :=
  lazymatch goal with
  | |- triple _ _ (SP _) _ => apply SP_ok; vside
  | |- triple _ _ (set_SPP0 _) _ => apply set_SPP0_ok; vside
  | |- triple _ _ (set_SP_at _ _) _ => apply set_SP_at_ok; vside
  | |- triple _ _ updateIOGas _ => apply updateIOGas_ok; vside
  | |- triple _ _ (toInt63 _) _ => apply toInt63_ok; vside
  | |- triple _ _ (set_run _) _ => apply set_run_ok; vside
  | |- triple _ _ (set_copy _) _ => apply set_copy_ok; vside
  | |- triple _ _ (add_run _) _ => apply add_run_ok; vside
  | |- triple _ _ (ext (fun x => store x _)) _ => apply ext_ok with (Q := u256_ok); intros; eapply store_ok; eassumption
  | |- triple _ _ (ext (fun x => balance x _)) _ => apply ext_ok with (Q := u256_ok); intros; eapply balance_ok; eassumption
  | |- triple _ _ (ext (fun x => codeSizeAt x _)) _ => apply ext_ok with (Q := u256_ok); intros; eapply codeSizeAt_ok; eassumption
  | |- triple _ _ (ext (fun x => codeAt x _)) _ => apply ext_ok with (Q := buffer_ok); intros; eapply codeAt_ok; eassumption
  | |- triple _ _ (ext (fun x => exists_ x _)) _ =>
      apply ext_ok with (Q := (fun _ => True)); intros; (split; [done|]); eapply exists_ok; eassumption
  | |- triple _ _ (ext_do _) _ =>
      apply ext_do_ok; intros; first [apply add_refunds_ok|apply setStore_ok|apply suicide_ok|apply log_ok]; try assumption
  | |- triple _ _ (throwIf _ _) _ => apply throwIf_ok; [vside|done]
  | |- triple _ _ (updateMem _ _) _ => apply updateMem_any; vside
  | |- triple _ _ (memNeed _ _) _ => apply memNeed_ok; vside
  | |- triple _ _ (mem_read (wrap 64 _) (wrap 64 _)) _ => apply mem_read64_ok; vside
  | |- triple _ _ (mget m_OP) _ => apply mget_OP_ok
  | |- triple _ _ (mget m_returnData) _ => apply mget_ret_ok
  | |- triple _ _ (mget m_io_gas) _ => apply mget_gas_ok
  | |- triple _ _ (mget m_PC) _ => apply mget_PC_ok
  end.
Ltac vsplit H :=
  lazymatch type of H with
  | _ /\ _ => let H1 := fresh "H" in let H2 := fresh "H" in destruct H as [H1 H2]; vsplit H1; vsplit H2
  | _ => idtac
  end.
Ltac vpure := cbv beta; try (apply triple_pure; let H := fresh "H" in intros H; vsplit H).
Ltac vstep :=
  eapply triple_bind; [ vop | let a := fresh "a" in intros a; vpure ].
Ltac vnext := apply triple_ret; intros; eapply st_next; [|eassumption]; vside.

Section Safety2.
Context {X : Type} {EX : ExtVMFace X} {EI : ExtInvariant X}.
Variable E : Env.
Context {EL : ExtVMLaws X E}.
Variable P : prepared.
Variable starts : Z -> Prop.
Hypothesis HE : env_ok E.
Hypothesis HP : prepared_ok P starts.
Abbreviation VM_M A := (M (vm X) exn A).
Abbreviation sch := (vvmSchedule E).

(** *** Prices *)

Record price_facts : Prop := {
  pf_tiers : exists t0 t1 t2 t3 t4 t5 t6 t7, tierStepGas sch = [t0; t1; t2; t3; t4; t5; t6; t7] /\
    0 <= t0 <= 2 ^ 24 /\ 1 <= t1 <= 2 ^ 24 /\ 1 <= t2 <= 2 ^ 24 /\ 1 <= t3 <= 2 ^ 24 /\
    1 <= t4 <= 2 ^ 24 /\ 1 <= t5 <= 2 ^ 24 /\ 1 <= t6 <= 2 ^ 24 /\ 0 <= t7 <= 2 ^ 24;
  pf_exp : 1 <= expGas sch <= 2 ^ 24 /\ 0 <= expByteGas sch <= 2 ^ 24;
  pf_sha3 : 1 <= sha3Gas sch <= 2 ^ 24 /\ 0 <= sha3WordGas sch <= 2 ^ 24;
  pf_store : 1 <= sloadGas sch <= 2 ^ 24 /\ 1 <= sstoreSetGas sch <= 2 ^ 24 /\ 1 <= sstoreResetGas sch <= 2 ^ 24;
  pf_log : 1 <= logGas sch <= 2 ^ 24 /\ 0 <= logDataGas sch <= 2 ^ 24 /\ 0 <= logTopicGas sch <= 2 ^ 24;
  pf_call : 1 <= createGas sch <= 2 ^ 24 /\ 1 <= callGas sch <= 2 ^ 24 /\ 0 <= callStipend sch <= callValueTransferGas sch /\
    callValueTransferGas sch <= 2 ^ 24 /\ 0 <= callNewAccountGas sch <= 2 ^ 24 /\ 0 <= suicideGas sch <= 2 ^ 24;
  pf_ext : 1 <= extcodesizeGas sch <= 2 ^ 24 /\ 1 <= extcodecopyGas sch <= 2 ^ 24 /\ 1 <= balanceGas sch <= 2 ^ 24 /\
    1 <= blockhashGas sch <= 2 ^ 24;
  pf_copy : 0 <= copyGas sch <= 16
}.

Lemma prices : price_facts.
Proof.
  pose proof (env_sched _ HE) as H. unfold schedule_ok in H.
  rewrite !andb_true_iff in H. destruct H as (((((H1 & H2) & H3) & H4) & H5) & H6).
  apply Z.eqb_eq in H3. destruct (tierStepGas sch) as [|t0 [|t1 [|t2 [|t3 [|t4 [|t5 [|t6 [|t7 [|]]]]]]]]] eqn:Et;
    try (exfalso; clear -H3; cbn [List.length] in H3; lia).
  unfold ztake, zdrop in H2. change (Z.to_nat 6) with 6%nat in H2. change (Z.to_nat 1) with 1%nat in H2.
  cbn [take drop app forallb] in H1, H2.
  rewrite !andb_true_iff in H1, H2. constructor; [|lia..].
  exists t0, t1, t2, t3, t4, t5, t6, t7. split; [done|]. lia.
Qed.

(** *** Pushes *)

(** What every push does: [v] on the stack, and on to [next]. *)
Definition push_to (v next : Z) : VM_M flow :=
  exec! updateIOGas in exec! set_SPP0 v in exec! modify_PC (fun _ => next) in mret CONTINUE.

Lemma updateIOGas_shape (s : vm X) :
  updateIOGas s = (Err OutOfGas, s) \/ exists g, updateIOGas s = (Ok tt, set_io_gas s g).
Proof. unfold updateIOGas, mbind, mget. destruct (_ <? _); [by left|right; by eexists]. Qed.

Lemma code_at_ok p (s : vm X) :
  0 <= p < zlen (p_code P) -> code_at P p s = (Ok (get (p_code P) p), s).
Proof.
  intros Hp. unfold code_at, get, zat. destruct (Z.ltb_spec p 0); [lia|].
  destruct (p_code P !! Z.to_nat p) eqn:El; [done|]. apply lookup_ge_None in El. lia.
Qed.

Lemma set_SPP0_eq v (s : vm X) :
  0 <= m_SPP s < zlen (m_stack s) ->
  set_SPP0 v s = (Ok tt, set_stack s (<[Z.to_nat (m_SPP s) := v]> (m_stack s))).
Proof.
  intros H. unfold set_SPP0, stack_put. destruct (Z.leb_spec 0 (m_SPP s)); [|lia].
  by destruct (Z.ltb_spec (m_SPP s) (zlen (m_stack s))); [|lia].
Qed.

Lemma inc_PC_eq (s : vm X) : 0 <= m_PC s < 2 ^ 64 - 1 -> inc_PC s = (Ok tt, set_PC s (m_PC s + 1)).
Proof. intros. unfold inc_PC, modify_PC, mput. by rewrite wrap_small by (unfold uint_ok; lia). Qed.

Lemma push_loop_eq n v (s : vm X) :
  0 <= m_PC s -> m_PC s + Z.of_nat n <= zlen (p_code P) -> zlen (p_code P) < 2 ^ 64 ->
  0 <= m_SPP s < zlen (m_stack s) -> m_stack s !! Z.to_nat (m_SPP s) = Some v ->
  push_loop P n v s =
  (Ok tt, set_PC (set_stack s (<[Z.to_nat (m_SPP s) := pushValue n (p_code P) (m_PC s) v]> (m_stack s)))
            (m_PC s + Z.of_nat n)).
Proof.
  revert v s. induction n as [|n IH]; intros v s H1 H2 H3 H4 H5; cbn [push_loop pushValue].
  - rewrite list_insert_id by done. rewrite Z.add_0_r. by destruct s.
  - erewrite mbind_Ok by reflexivity. erewrite mbind_Ok by (apply code_at_ok; lia).
    erewrite mbind_Ok by (by apply set_SPP0_eq). erewrite mbind_Ok by (apply inc_PC_eq; cbn; lia).
    rewrite IH; cbn; rewrite ?length_insert; try lia.
    + rewrite list_insert_insert_eq. do 2 f_equal. lia.
    + apply list_lookup_insert_eq. lia.
Qed.

Lemma case_PUSHn_eq (s : vm X) n :
  m_OP s - Instruction.code Instruction.PUSH1 + 1 = Z.of_nat n ->
  0 <= m_PC s -> m_PC s + 1 + Z.of_nat n <= zlen (p_code P) -> zlen (p_code P) < 2 ^ 64 ->
  0 <= m_SPP s < zlen (m_stack s) ->
  case_PUSHn P s = push_to (pushValue n (p_code P) (m_PC s + 1) 0) (m_PC s + 1 + Z.of_nat n) s.
Proof.
  intros Hn H1 H2 H3 H4. unfold case_PUSHn, push_to.
  destruct (updateIOGas_shape s) as [Hu|[g Hu]]; [by rewrite !(mbind_Err _ _ _ _ _ Hu)|].
  rewrite !(mbind_Ok _ _ _ _ _ Hu). erewrite mbind_Ok by reflexivity.
  cbn [m_OP set_io_gas]. rewrite Hn, Nat2Z.id.
  erewrite mbind_Ok by (by apply set_SPP0_eq). erewrite mbind_Ok by (apply inc_PC_eq; cbn; lia).
  erewrite mbind_Ok.
  2: { apply push_loop_eq; cbn; rewrite ?length_insert; try lia. apply list_lookup_insert_eq. lia. }
  erewrite mbind_Ok by (by apply set_SPP0_eq). erewrite mbind_Ok by reflexivity.
  unfold mret. cbn. by rewrite list_insert_insert_eq.
Qed.

Lemma case_PUSH1_eq (s : vm X) :
  0 <= m_PC s -> m_PC s + 2 <= zlen (p_code P) -> zlen (p_code P) < 2 ^ 64 -> 0 <= m_SPP s < zlen (m_stack s) ->
  case_PUSH1 P s = push_to (pushValue 1 (p_code P) (m_PC s + 1) 0) (m_PC s + 1 + 1) s.
Proof.
  intros H1 H2 H3 H4. unfold case_PUSH1, push_to.
  destruct (updateIOGas_shape s) as [Hu|[g Hu]]; [by rewrite !(mbind_Err _ _ _ _ _ Hu)|].
  rewrite !(mbind_Ok _ _ _ _ _ Hu). erewrite mbind_Ok by (apply inc_PC_eq; cbn; lia).
  erewrite mbind_Ok by reflexivity. erewrite mbind_Ok by (apply code_at_ok; cbn; lia).
  erewrite mbind_Ok by (apply set_SPP0_eq; cbn; lia). erewrite mbind_Ok by (apply inc_PC_eq; cbn; lia).
  erewrite mbind_Ok by (by apply set_SPP0_eq). erewrite mbind_Ok by reflexivity. done.
Qed.

Lemma case_PUSHC_eq (s : vm X) v :
  let p := m_PC s in
  0 <= p -> p + 3 < zlen (p_code P) -> zlen (p_code P) < 2 ^ 63 -> bytes_ok (p_code P) ->
  0 <= m_SPP s < zlen (m_stack s) ->
  zat (p_pool P) (Z.lor (Z.shiftl (get (p_code P) (p + 1)) 8) (get (p_code P) (p + 2))) = Some v ->
  case_PUSHC P s = push_to v (p + 3 + get (p_code P) (p + 3)) s.
Proof.
  cbn zeta. intros H1 H2 H3 Hb H4 Hv. unfold case_PUSHC, push_to.
  destruct (updateIOGas_shape s) as [Hu|[g Hu]]; [by rewrite !(mbind_Err _ _ _ _ _ Hu)|].
  rewrite !(mbind_Ok _ _ _ _ _ Hu). erewrite mbind_Ok by (apply inc_PC_eq; cbn; lia).
  erewrite mbind_Ok by reflexivity. erewrite mbind_Ok by (apply code_at_ok; cbn; lia).
  erewrite mbind_Ok by (apply inc_PC_eq; cbn; lia).
  erewrite mbind_Ok by reflexivity. erewrite mbind_Ok by (apply code_at_ok; cbn; lia).
  erewrite mbind_Ok by (apply inc_PC_eq; cbn; lia).
  erewrite mbind_Ok by reflexivity. erewrite mbind_Ok by (apply code_at_ok; cbn; lia).
  erewrite mbind_Ok by reflexivity. cbn [m_PC set_PC set_io_gas].
  replace (m_PC s + 1 + 1) with (m_PC s + 2) by lia. replace (m_PC s + 2 + 1) with (m_PC s + 3) by lia.
  erewrite mbind_Ok by (unfold pool_at; by rewrite Hv).
  erewrite mbind_Ok by (apply set_SPP0_eq; cbn; lia).
  erewrite mbind_Ok by (by apply set_SPP0_eq). erewrite mbind_Ok by reflexivity.
  assert (0 <= get (p_code P) (m_PC s + 3) < 256).
  { unfold get. destruct (zat (p_code P) (m_PC s + 3)) eqn:Ez; [|cbn; lia]. by apply (bytes_ok_zat _ _ _ Hb Ez). }
  rewrite (wrap_small 64) by (unfold uint_ok; lia). done.
Qed.

Section Handlers.
Variables (s0 : vm X) (K : list Z) (R : Z).
Hypothesis HR : 0 <= R <= 2 ^ 24.
Hypothesis Hsp : 0 <= m_SP s0.
Abbreviation now := (st s0 K 0 R R 0 0).
Abbreviation has n := (m_SP s0 + n <= 1024).
Abbreviation room := (0 <= m_SPP s0 < 1024).

Section Ordinary.
Hypothesis HR1 : 1 <= R.

Lemma ordinary0_ok v : room -> u256_ok v -> triple s0 now (ordinary0 v) (next_post s0).
Proof. intros. unfold ordinary0. do 2 vstep. vnext. Qed.

Lemma ordinary1_ok f :
  has 1 -> room -> (forall a, u256_ok a -> u256_ok (f a)) -> triple s0 now (ordinary1 f) (next_post s0).
Proof. intros. unfold ordinary1. do 3 vstep. vnext. Qed.

Lemma ordinary2_ok f :
  has 2 -> room -> (forall a b, u256_ok a -> u256_ok b -> u256_ok (f a b)) ->
  triple s0 now (ordinary2 f) (next_post s0).
Proof. intros. unfold ordinary2. do 4 vstep. vnext. Qed.

Lemma ordinary3_ok f :
  has 3 -> room -> (forall a b c, u256_ok a -> u256_ok b -> u256_ok c -> u256_ok (f a b c)) ->
  triple s0 now (ordinary3 f) (next_post s0).
Proof. intros. unfold ordinary3. do 5 vstep. vnext. Qed.

Lemma case_SIGNEXTEND_ok :
  has 2 -> (forall a b, u256_ok a -> u256_ok b -> u256_ok (op_SIGNEXTEND a b)) ->
  triple s0 now case_SIGNEXTEND (next_post s0).
Proof. intros. unfold case_SIGNEXTEND. do 4 vstep. vnext. Qed.

Lemma case_CALLDATALOAD_ok :
  has 1 -> (forall i, u256_ok (calldata_word (data E) i)) -> triple s0 now (case_CALLDATALOAD E) (next_post s0).
Proof. intros. unfold case_CALLDATALOAD. do 3 vstep. vnext. Qed.

Lemma buffer_u256 b : buffer_ok b -> u256_ok (zlen b).
Proof. intros []. apply small_u256. lia. Qed.

Lemma case_RETURNDATASIZE_ok : room -> triple s0 now (case_RETURNDATASIZE E) (next_post s0).
Proof.
  intros. unfold case_RETURNDATASIZE. do 3 vstep. eapply triple_bind; [apply set_SPP0_ok; auto using buffer_u256|].
  intros. vnext.
Qed.

Lemma case_POP_ok : triple s0 now case_POP (next_post s0).
Proof. unfold case_POP. vstep. vnext. Qed.

Lemma reading_ok f : room -> (forall s, inv s -> frame s0 s -> u256_ok (f s)) -> triple s0 now (reading f) (next_post s0).
Proof.
  intros ? Hf. unfold reading. vstep.
  eapply triple_bind with (Mid := fun v s => st s0 K 0 R R 0 (0 + R) s /\ u256_ok v).
  { intros s Hs. split; [done|]. apply Hf; apply Hs. }
  intros v. vpure. vstep. vnext.
Qed.

Lemma case_DUP_ok n :
  m_OP s0 - Instruction.code Instruction.DUP1 = n -> 0 <= n -> has (n + 1) -> room ->
  triple s0 now case_DUP (next_post s0).
Proof. intros. unfold case_DUP. do 2 vstep. subst. do 2 vstep. vnext. Qed.

Lemma case_SWAP_ok n :
  m_OP s0 - Instruction.code Instruction.SWAP1 + 1 = n -> 0 <= n -> has (n + 1) ->
  triple s0 now case_SWAP (next_post s0).
Proof. intros. unfold case_SWAP. do 2 vstep. subst. do 4 vstep. vnext. Qed.

End Ordinary.

(** *** Prices of their own *)

Lemma query_ok g (f : X -> Z -> Z * X) :
  1 <= g <= 2 ^ 24 -> has 1 -> room ->
  (forall x a v x', ext_inv x -> u256_ok a -> f x a = (v, x') -> u256_ok v /\ ext_inv x') ->
  triple s0 now (query g f) (next_post s0).
Proof.
  intros ? ? ? Hf. unfold query. do 4 vstep. subst.
  eapply triple_bind; [apply ext_ok with (Q := u256_ok); intros; eapply Hf; eassumption|]. intros v. vpure.
  vstep. vnext.
Qed.

Lemma case_JUMPDEST_ok : triple s0 now case_JUMPDEST (next_post s0).
Proof. unfold case_JUMPDEST. do 2 vstep. vnext. Qed.

Lemma case_EXP_ok :
  has 2 -> room -> (forall a b, u256_ok (exp256 a b)) -> triple s0 now (case_EXP E) (next_post s0).
Proof.
  intros. unfold case_EXP. destruct (pf_exp prices) as [Hx Hb]. vstep.
  assert (0 <= firstBitSet (of_arith 32 a) / 8 <= 32) as Hf.
  { rewrite firstBitSet_spec by apply toBigEndian_ok.
    assert (zlen (of_arith 32 a) = 32) as -> by (unfold of_arith; rewrite toBigEndian_length; done).
    destruct (Z.eqb_spec (be_val (of_arith 32 a)) 0); [change (8 * 32 / 8) with 32; lia|].
    pose proof (be_val_range (of_arith 32 a) (toBigEndian_ok _ _)) as Hr.
    assert (zlen (of_arith 32 a) = 32) as E32 by (unfold of_arith; rewrite toBigEndian_length; done).
    rewrite E32 in Hr. change (256 ^ 32) with (2 ^ 256) in Hr.
    pose proof (Z.log2_nonneg (be_val (of_arith 32 a))).
    assert (Z.log2 (be_val (of_arith 32 a)) < 256) by (apply Z.log2_lt_pow2; lia).
    split; [apply Z.div_pos; lia|]. apply Z.div_le_upper_bound; lia. }
  rewrite (wrap_small 32 (32 - _)) by (unfold uint_ok; lia).
  set (k := 32 - firstBitSet (of_arith 32 a) / 8) in *.
  assert (0 <= expByteGas sch * k <= 2 ^ 29) by nia.
  rewrite (wrap_small 32 (_ * k)), (wrap_small 32) by (unfold uint_ok; lia).
  do 5 vstep. subst. vnext.
Qed.

Lemma case_SSTORE_ok : has 2 -> triple s0 now (case_SSTORE E) (next_post s0).
Proof.
  intros. unfold case_SSTORE. vstep. destruct (pf_store prices) as (? & ? & ?).
  eapply triple_bind with (Mid := fun _ s => exists g, 1 <= g /\ st s0 K 0 g g 0 0 s).
  - unfold updateSSGas. do 3 vstep.
    destruct (_ && _); [|vstep; destruct (_ && _)].
    + vstep. subst. eapply triple_post; [vop|]. intros. exists (sstoreSetGas sch). split; [lia|done].
    + do 2 vstep. subst. eapply triple_post; [vop|]. intros. exists (sstoreResetGas sch). split; [lia|done].
    + vstep. subst. eapply triple_post; [vop|]. intros. exists (sstoreResetGas sch). split; [lia|done].
  - intros _. apply triple_exists. intros g. apply triple_pure_l. intros Hg.
    do 4 vstep. vnext.
Qed.

(** *** Memory *)

Section Memory.
Hypothesis HR1 : 1 <= R.

(** The 32-bit index of [MLOAD], [MSTORE] and [MSTORE8] stays inside. *)
Lemma wrap32_le v : 0 <= v -> 0 <= wrap 32 v <= v.
Proof.
  intros Hv. split; [apply wrap_range; lia|]. apply Z.mod_le; lia.
Qed.

Lemma case_MLOAD_ok : has 1 -> room -> triple s0 now (case_MLOAD E) (next_post s0).
Proof.
  intros. unfold case_MLOAD. do 2 vstep. subst. unfold uint_ok in *. do 2 vstep.
  eapply triple_bind; [apply mem_read_ok; pose proof (wrap32_le a); lia|]. intros w. vpure.
  vstep. vnext.
Qed.

Lemma case_MSTORE_ok : has 2 -> triple s0 now (case_MSTORE E) (next_post s0).
Proof.
  intros. unfold case_MSTORE. do 2 vstep. subst. unfold uint_ok in *. do 3 vstep.
  eapply triple_bind.
  { apply mem_write_ok; [apply toBigEndian_ok|]. rewrite of_arith_length. pose proof (wrap32_le a). lia. }
  intros ?. vpure. vnext.
Qed.

Lemma case_MSTORE8_ok : has 2 -> triple s0 now (case_MSTORE8 E) (next_post s0).
Proof.
  intros. unfold case_MSTORE8. do 2 vstep. subst. unfold uint_ok in *. do 3 vstep.
  eapply triple_bind.
  { apply mem_write_ok; [|cbn [List.length]; pose proof (wrap32_le a); lia].
    repeat constructor; change 255 with (Z.ones 8); rewrite Z.land_ones by lia; apply Z.mod_pos_bound; lia. }
  intros ?. vpure. vnext.
Qed.

Lemma case_COPY_ok d : buffer_ok d -> has 3 -> triple s0 now (case_COPY E d) (next_post s0).
Proof.
  intros. unfold case_COPY. do 3 vstep. subst. unfold uint_ok in *. do 4 vstep.
  eapply triple_bind; [eapply copyDataToMemory_ok; eauto; vside|]. intros. vnext.
Qed.

Lemma case_RETURNDATACOPY_ok : has 3 -> triple s0 now (case_RETURNDATACOPY E) (next_post s0).
Proof.
  intros. unfold case_RETURNDATACOPY. do 7 vstep. subst. unfold uint_ok in *. do 4 vstep.
  eapply triple_bind; [eapply copyDataToMemory_ok; eauto; vside|]. intros. vnext.
Qed.

End Memory.
Lemma case_EXTCODECOPY_ok : has 4 -> triple s0 now (case_EXTCODECOPY E) (next_post s0).
Proof.
  intros. unfold case_EXTCODECOPY. destruct (pf_ext prices) as (? & ? & ? & ?).
  do 3 vstep. vstep. subst. unfold uint_ok in *. do 7 vstep.
  eapply triple_bind; [eapply copyDataToMemory_ok; eauto using codeAt_ok; vside|]. intros. vnext.
Qed.

Lemma case_SHA3_ok : has 2 -> room -> triple s0 now (case_SHA3 E) (next_post s0).
Proof.
  intros. unfold case_SHA3. destruct (pf_sha3 prices) as (? & ?). do 2 vstep.
  unfold uint_ok in *. assert (0 <= (a0 + 31) / 32 * sha3WordGas sch) by
    (apply Z.mul_nonneg_nonneg; [apply Z.div_pos; lia|lia]).
  do 5 vstep. vstep. vstep. vnext.
Qed.

Lemma topics_ok L U0 U C G n k :
  0 <= G -> 0 <= k -> has (k + Z.of_nat n) ->
  triple s0 (st s0 K L U0 U C G) (topics n k) (fun _ => st s0 K L U0 U C G).
Proof.
  intros HG. revert k. induction n as [|n IH]; intros k Hk Hn; cbn [topics]; [by apply triple_ret|].
  vstep. eapply triple_bind; [apply IH; lia|]. intros. by apply triple_ret.
Qed.

Lemma case_LOG_ok n :
  m_OP s0 - Instruction.code Instruction.LOG0 = Z.of_nat n -> (n <= 4)%nat -> has (2 + Z.of_nat n) ->
  triple s0 now (case_LOG E n) (next_post s0).
Proof.
  intros Hop Hn Hs. unfold case_LOG. destruct (pf_log prices) as (? & ? & ?). vstep.
  eapply triple_bind with (Mid := fun _ s => exists g U off size,
    (1 <= g /\ u256_ok off /\ u256_ok size /\ zat K (m_SP s0 + 0) = Some off /\
     zat K (m_SP s0 + 1) = Some size) /\
    exists L, (size = 0 \/ off + size < 2 ^ 63 /\ off + size <= L) /\ st s0 K L g U 0 0 s).
  - unfold logGasMem. vstep. subst. rewrite Hop. do 2 vstep.
    assert (0 <= logTopicGas sch * Z.of_nat n <= 2 ^ 26) by nia.
    rewrite (wrap_small 32 (_ * _)), (wrap_small 32) by (unfold uint_ok; lia).
    unfold uint_ok in *.
    assert (0 <= logDataGas sch * a1) by (apply Z.mul_nonneg_nonneg; lia).
    do 3 vstep. eapply triple_post; [vop|]. cbv beta. intros _ s Hst.
    exists a2, (2 ^ 64), a0, a1. split; [split_and!; try done; lia|].
    exists (0 `max` a4). split; [lia|exact Hst].
  - intros _. do 4 (apply triple_exists; intros ?). apply triple_pure_l. intros (Hg & Ho & Hz & K0 & K1).
    apply triple_exists. intros L. apply triple_pure_l. intros Hm.
    vstep. eapply triple_bind; [apply topics_ok; lia|]. intros ts. cbv beta. vstep. vstep.
    simplify_eq. unfold uint_ok in *. do 2 vstep. vnext.
Qed.

(** *** Halting *)

Definition halted (s : vm X) : Prop :=
  0 <= m_io_gas s <= m_io_gas s0 /\ buffer_ok (m_output s) /\ ext_inv (m_ext s).

Lemma triple_stop (m : VM_M unit) Pre :
  triple s0 Pre m (fun _ => halted) ->
  triple s0 Pre (exec! m in exec! bounce_to null in mret BREAK) (stop_post s0).
Proof.
  intros Hm. eapply triple_bind; [exact Hm|]. intros _ s Hs. split; [done|]. by split.
Qed.

Lemma st_halted L U0 U C G s : 0 <= G -> st s0 K L U0 U C G s -> halted s.
Proof. intros HG [[] ? ? ? ? ? ?]. unfold uint_ok in *. split; [lia|done]. Qed.

Lemma case_STOP_ok : triple s0 now case_STOP (stop_post s0).
Proof.
  apply (triple_stop updateIOGas). eapply triple_post; [vop|]. cbv beta. intros. eapply st_halted; [|eassumption]. lia.
Qed.

Lemma take_output_ok :
  has 2 -> triple s0 now (take_output E) (fun o s => halted s /\ buffer_ok o).
Proof.
  intros. unfold take_output. do 3 vstep. unfold uint_ok in *. do 4 vstep.
  intros s Hs. cbn. split; [|done]. eapply (st_halted _ _ _ _ _ s); [|exact Hs]. lia.
Qed.

Lemma case_RETURN_ok : has 2 -> triple s0 now (case_RETURN E) (stop_post s0).
Proof.
  intros. unfold case_RETURN. eapply triple_bind; [by apply take_output_ok|].
  intros out s [(Hg & _ & Hx) Ho]. split; [done|]. split; [done|]. exact (conj Hg (conj Ho Hx)).
Qed.

Lemma case_REVERT_ok Post : has 2 -> triple s0 now (case_REVERT E) Post.
Proof.
  intros. unfold case_REVERT. vstep. eapply triple_bind; [by apply take_output_ok|].
  intros out s [(Hg & _ & Hx) Ho]. split; [exact Ho|]. exact (conj Hg Hx).
Qed.

Lemma asAddress_ok a : hash_ok 20 (asAddress a).
Proof.
  unfold asAddress, of_arith. split; [rewrite length_drop, toBigEndian_length; done|]. apply Forall_drop, toBigEndian_ok.
Qed.

Lemma case_SUICIDE_ok : has 1 -> triple s0 now (case_SUICIDE E) (stop_post s0).
Proof.
  intros. unfold case_SUICIDE. destruct (pf_call prices) as (? & ? & ? & ? & ? & ?).
  do 5 vstep. subst.
  eapply triple_bind with (Mid := fun _ => st s0 K 0 (suicideGas sch) (suicideGas sch) 0 0).
  { destruct (_ && _); [vstep|]; by apply triple_ret. }
  intros charged.
  eapply triple_bind with (Mid := fun _ s => exists g, 0 <= g /\ st s0 K 0 g g 0 0 s).
  { destruct charged.
    - eapply triple_post; [vop|]. cbv beta. intros. eexists; split; [|eassumption]. lia.
    - apply triple_ret. intros. exists (suicideGas sch). split; [lia|done]. }
  intros _. apply triple_exists. intros g. apply triple_pure_l. intros Hg.
  vstep. eapply triple_bind; [vop; apply asAddress_ok|]. intros ?.
  intros s Hs. split; [done|]. split; [done|]. cbn. eapply st_halted; [|exact Hs]. lia.
Qed.

(** *** Calling out *)

Lemma triple_call b L U0 U G :
  0 <= G -> triple s0 (st s0 K L U0 U 0 G) (exec! bounce_to b in mret BREAK) (call_post s0 b).
Proof.
  intros HG s Hs. split; [done|]. exists s. destruct Hs. destruct st_inv0. unfold uint_ok in *.
  split; [by constructor|]. split; [done|]. split; [lia|]. by split.
Qed.

Lemma case_CREATE_ok : triple s0 now (case_CREATE E) (call_post s0 caseCreate).
Proof. unfold case_CREATE. vstep. apply triple_call. lia. Qed.

Lemma case_CREATE2_ok : triple s0 now (case_CREATE2 E) (call_post s0 caseCreate).
Proof. unfold case_CREATE2. vstep. apply triple_call. lia. Qed.

Lemma case_CALLs_ok : has 3 -> triple s0 now (case_CALLs E) (call_post s0 caseCall).
Proof.
  intros. unfold case_CALLs. do 3 vstep. eapply triple_bind with (Mid := fun _ => now).
  - destruct (is_op a Instruction.CALL && staticCall E); [|by apply triple_ret]. vstep. eapply triple_post; [vop|]. by intros ? ? [? _].
  - intros _. apply triple_call. lia.
Qed.

(** *** Jumps and pushes *)

Lemma continue_at L U0 U C G pc s :
  1 <= G -> starts pc -> is_JUMPC (get (p_code P) pc) = false -> st s0 K L U0 U C G s ->
  continue_post P starts s0 CONTINUE (set_PC s pc).
Proof.
  intros HG Hpc Hj [[] [] ? ? ? ? ?]. unfold uint_ok in *. split; [done|]. split; [by constructor|].
  split; [split; cbn; [done|congruence]|]. split; [done|]. split; cbn; lia.
Qed.

Lemma dest_not_JUMPC v pc :
  u256_ok v -> verifyJumpDest (p_jumpDests P) v = Some pc -> starts pc /\ is_JUMPC (get (p_code P) pc) = false.
Proof. intros [H0 _] Hv. destruct (dest_ok _ _ HP v pc H0 Hv) as (_ & Hs & ->). done. Qed.

(** Where the instruction at [m_PC s0] falls through. *)
Definition falls (s0 : vm X) : Prop :=
  starts (m_PC s0 + 1) /\ is_JUMPC (get (p_code P) (m_PC s0 + 1)) = false.

Lemma start_wrap p : starts p -> 0 <= p < 2 ^ 63 /\ wrap 64 p = p.
Proof.
  intros Hp. pose proof (start_range _ _ HP p Hp). destruct (code_bytes _ _ HP).
  split; [lia|]. apply wrap_small. unfold uint_ok. lia.
Qed.

Section Jumps.
Hypothesis HR1 : 1 <= R.

Lemma verifyJump_ok L U0 U C G v :
  0 <= G -> triple s0 (st s0 K L U0 U C G) (verifyJump P v)
    (fun pc s => st s0 K L U0 U C G s /\ verifyJumpDest (p_jumpDests P) v = Some pc).
Proof.
  intros HG s Hs. unfold verifyJump. destruct (verifyJumpDest (p_jumpDests P) v).
  - split; [exact Hs|reflexivity].
  - eapply st_fails; [exact HG| |exact Hs]. exact I.
Qed.

Lemma case_JUMP_ok : has 1 -> triple s0 now (case_JUMP P) (continue_post P starts s0).
Proof.
  intros. unfold case_JUMP. do 2 vstep.
  eapply triple_bind; [apply verifyJump_ok; lia|]. intros pc. vpure.
  edestruct dest_not_JUMPC as [? ?]; [eassumption..|].
  intros s Hs. cbn. eapply continue_at; eauto; lia.
Qed.

Lemma case_JUMPI_ok : has 2 -> falls s0 -> triple s0 now (case_JUMPI P) (continue_post P starts s0).
Proof.
  intros ? [Hf1 Hf2]. unfold case_JUMPI. do 2 vstep. destruct (negb (a0 =? 0)).
  - eapply triple_bind with (Mid := fun _ s => exists s1 pc v, (st s0 K 0 R R 0 (0 + R) s1 /\
      u256_ok v /\ verifyJumpDest (p_jumpDests P) v = Some pc) /\ s = set_PC s1 pc).
    + vstep. eapply triple_bind; [apply verifyJump_ok; lia|]. intros pc. vpure.
      intros s Hs. exists s, pc, a1. done.
    + intros _ s (s1 & pc & v & (Hst & Hv0 & Hv) & ->). destruct (dest_not_JUMPC _ _ Hv0 Hv). eapply continue_at; eauto; lia.
  - intros s Hs. cbn. rewrite (fr_pc _ _ (st_frame _ _ _ _ _ _ _ _ Hs)).
    destruct (start_wrap _ Hf1) as [_ ->]. eapply continue_at; eauto; lia.
Qed.

(** The destination was verified when the code was prepared. *)
Hypothesis Htop : forall v, zat K (m_SP s0 + 0) = Some v -> valid_dest P v.

Lemma valid_dest_wrap v :
  u256_ok v -> valid_dest P v -> verifyJumpDest (p_jumpDests P) v = Some (wrap 64 v).
Proof.
  intros [H0 _] [pc Hv]. destruct (dest_ok _ _ HP v pc H0 Hv) as (-> & Hs & _). destruct (start_wrap _ Hs) as [_ ->]. done.
Qed.

Lemma case_JUMPC_ok : has 1 -> triple s0 now case_JUMPC (continue_post P starts s0).
Proof.
  intros. unfold case_JUMPC. do 2 vstep.
  edestruct dest_not_JUMPC as [? ?]; [eassumption|eapply valid_dest_wrap; [eassumption|]; by apply Htop|].
  intros s Hs. cbn. eapply continue_at; eauto; lia.
Qed.

Lemma case_JUMPCI_ok : has 2 -> falls s0 -> triple s0 now case_JUMPCI (continue_post P starts s0).
Proof.
  intros ? [Hf1 Hf2]. unfold case_JUMPCI. do 2 vstep. destruct (negb (a0 =? 0)).
  - eapply triple_bind with (Mid := fun _ s => exists s1 v, (st s0 K 0 R R 0 (0 + R) s1 /\
      u256_ok v /\ verifyJumpDest (p_jumpDests P) v = Some (wrap 64 v)) /\ s = set_PC s1 (wrap 64 v)).
    + vstep. intros s Hs. exists s, a1. split; [|done]. split; [done|]. split; [done|]. by apply valid_dest_wrap, Htop.
    + intros _ s (s1 & v & (Hst & Hv0 & Hv) & ->). destruct (dest_not_JUMPC _ _ Hv0 Hv). eapply continue_at; eauto; lia.
  - intros s Hs. cbn. rewrite (fr_pc _ _ (st_frame _ _ _ _ _ _ _ _ Hs)).
    destruct (start_wrap _ Hf1) as [_ ->]. eapply continue_at; eauto; lia.
Qed.

End Jumps.

(** A push of [v] that continues at [next]. *)
Lemma push_to_ok v next :
  1 <= R -> room -> u256_ok v -> fall_ok P starts next v ->
  triple s0 now (push_to v next) (continue_post P starts s0).
Proof.
  intros HR1 Hroom Hv [Hn Hj]. unfold push_to. do 2 vstep. intros s Hs. cbn.
  destruct Hs as [[] [] ? ? ? ? HK]. unfold uint_ok in *.
  split; [done|]. split; [by constructor|]. split; [|split; [done|split; cbn; lia]].
  split; cbn; [done|]. intros Hj' v'. rewrite HK, fr_spp0. unfold zat.
  destruct (Z.ltb_spec (m_SPP s0) 0); [done|].
  assert (List.length (<[Z.to_nat (m_SPP s0) := v]> K) = 1024%nat) as HL by (by rewrite <- HK).
  rewrite length_insert in HL. rewrite list_lookup_insert_eq by lia. intros [= <-]. auto.
Qed.

End Handlers.
(** ** Values stay in range *)

Lemma log2_u256 a : u256_ok a <-> 0 <= a /\ (a = 0 \/ Z.log2 a < 256).
Proof.
  unfold uint_ok. split.
  - intros [? ?]. split; [done|]. destruct (Z.eq_dec a 0); [by left|right]. apply Z.log2_lt_pow2; lia.
  - intros [? [->|?]]; [lia|]. split; [done|]. destruct (Z.eq_dec a 0); [lia|]. apply Z.log2_lt_pow2; lia.
Qed.

Lemma u256_bits a : 0 <= a -> (forall i, 256 <= i -> Z.testbit a i = false) -> u256_ok a.
Proof.
  intros Ha Hb. apply log2_u256. split; [done|]. destruct (Z.eq_dec a 0); [by left|right].
  destruct (Z.lt_ge_cases (Z.log2 a) 256); [done|]. pose proof (Z.bit_log2 a ltac:(lia)).
  rewrite Hb in *; done.
Qed.

Lemma bits_u256 a i : u256_ok a -> 256 <= i -> Z.testbit a i = false.
Proof.
  intros [H1 H2] Hi. destruct (Z.eq_dec a 0) as [->|]; [apply Z.bits_0|].
  apply Z.bits_above_log2; [done|]. assert (Z.log2 a < 256) by (apply Z.log2_lt_pow2; lia). lia.
Qed.

Lemma land_u256 a b : u256_ok a -> u256_ok b -> u256_ok (Z.land a b).
Proof.
  intros Ha Hb. apply u256_bits; [apply Z.land_nonneg; left; apply Ha|].
  intros i Hi. by rewrite Z.land_spec, (bits_u256 a), (bits_u256 b).
Qed.
Lemma lor_u256 a b : u256_ok a -> u256_ok b -> u256_ok (Z.lor a b).
Proof.
  intros Ha Hb. apply u256_bits; [apply Z.lor_nonneg; split; [apply Ha|apply Hb]|].
  intros i Hi. by rewrite Z.lor_spec, (bits_u256 a), (bits_u256 b).
Qed.
Lemma lxor_u256 a b : u256_ok a -> u256_ok b -> u256_ok (Z.lxor a b).
Proof.
  intros Ha Hb. apply u256_bits; [apply Z.lxor_nonneg; split; intros _; [apply Hb|apply Ha]|].
  intros i Hi. by rewrite Z.lxor_spec, (bits_u256 a), (bits_u256 b).
Qed.

Lemma zero_u256 : u256_ok 0.
Proof. unfold uint_ok. lia. Qed.
Lemma of_bool_u256 b : u256_ok (of_bool b).
Proof. destruct b; unfold uint_ok; cbn; lia. Qed.
Lemma s2u_u256 v : u256_ok (s2u v).
Proof. unfold s2u. destruct (_ <=? _); apply wrap_u256. Qed.

Lemma op_DIV_u256 a b : u256_ok (op_DIV a b).
Proof. unfold op_DIV. destruct (negb _); auto using wrap_u256, zero_u256. Qed.
Lemma op_SDIV_u256 a b : u256_ok (op_SDIV a b).
Proof. unfold op_SDIV. destruct (negb _); auto using s2u_u256, zero_u256. Qed.
Lemma op_MOD_u256 a b : u256_ok (op_MOD a b).
Proof. unfold op_MOD. destruct (negb _); auto using wrap_u256, zero_u256. Qed.
Lemma op_SMOD_u256 a b : u256_ok (op_SMOD a b).
Proof. unfold op_SMOD. destruct (negb _); auto using s2u_u256, zero_u256. Qed.
Lemma op_ADDMOD_u256 a b c : u256_ok (op_ADDMOD a b c).
Proof. unfold op_ADDMOD. destruct (negb _); auto using wrap_u256, zero_u256. Qed.
Lemma op_MULMOD_u256 a b c : u256_ok (op_MULMOD a b c).
Proof. unfold op_MULMOD. destruct (negb _); auto using wrap_u256, zero_u256. Qed.
Lemma op_ISZERO_u256 a : u256_ok (op_ISZERO a).
Proof. unfold op_ISZERO. destruct (negb _); unfold uint_ok; lia. Qed.
Lemma op_BYTE_u256 a b : u256_ok (op_BYTE a b).
Proof.
  unfold op_BYTE. destruct (_ <? _); [|apply zero_u256]. change 255 with (Z.ones 8). rewrite Z.land_ones by lia.
  apply small_u256. pose proof (Z.mod_pos_bound (Z.shiftr b (wrap 32 (8 * (31 - a)))) (2 ^ 8)). lia.
Qed.
Lemma op_SIGNEXTEND_u256 a b : u256_ok b -> u256_ok (op_SIGNEXTEND a b).
Proof.
  intros Hb. unfold op_SIGNEXTEND. destruct (_ <? _); [|done].
  destruct (Z.testbit _ _); [apply lor_u256|apply land_u256]; auto using wrap_u256.
Qed.
Lemma exp256_loop_u256 n b e r : u256_ok r -> u256_ok (exp256_loop n b e r).
Proof.
  revert b e r. induction n as [|n IH]; intros b e r Hr; cbn [exp256_loop]; [done|].
  destruct (_ =? _); [done|]. apply IH. destruct (Z.odd e); auto using wrap_u256.
Qed.
Lemma exp256_u256 b e : u256_ok (exp256 b e).
Proof. apply exp256_loop_u256. unfold uint_ok. lia. Qed.
Lemma calldata_word_u256 d i : u256_ok (calldata_word d i).
Proof.
  unfold calldata_word. destruct (_ <? _); [apply to_arith_u256; lia|].
  destruct (_ <=? _); [apply zero_u256|apply to_arith_u256; lia].
Qed.

(** *** Creating and calling *)

Section Calling.
Variables (s0 : vm X) (K : list Z) (R U : Z).
Hypothesis Hsp : 0 <= m_SP s0.
Hypothesis Hgas0 : uint_ok 64 (m_io_gas s0).
Abbreviation now := (st s0 K 0 R U 0 0).
Abbreviation has n := (m_SP s0 + n <= 1024).
Abbreviation room := (0 <= m_SPP s0 < 1024).

Definition advance_post (s : vm X) : Prop :=
  exists s1, next_post s0 NEXT s1 /\ s = set_PC s1 (wrap 64 (m_PC s0 + 1)).

Lemma advance_ok K' L R' U' C G : 1 <= G -> triple s0 (st s0 K' L R' U' C G) inc_PC (fun _ => advance_post).
Proof.
  intros HG. eapply triple_post; [apply modify_PC_ok|]. cbv beta. intros _ s (s1 & Hs & ->).
  exists s1. split; [|done]. eapply st_next; eauto.
Qed.

Lemma copyTo_ok o t : bytes_ok o -> bytes_ok t -> bytes_ok (VectorRef.copyTo o t).
Proof. intros. unfold VectorRef.copyTo. apply bytes_ok_app. split; auto with vlib. Qed.

Lemma mem_read_ext off n (s : vm X) : m_ext (snd (mem_read off n s)) = m_ext s.
Proof. unfold mem_read. by repeat case_match. Qed.

(** The part of [caseCreate] after the bounce is reset. *)
Lemma case_Create_ok :
  m_bounce s0 = interpretCases -> has (if m_OP s0 =? Instruction.code Instruction.CREATE then 3 else 4) -> room ->
  triple s0 now (case_Create E) (fun _ => advance_post).
Proof.
  intros Hb Hn Hroom. destruct (pf_call prices) as (Hc & _). unfold case_Create.
  eapply triple_bind with (Mid := fun _ => now).
  { intros s Hs. destruct Hs as [[] [] ? ? ? ? ?]. cbn. constructor; cbn; try done; constructor; cbn; done || congruence. }
  intros _. assert (3 <= (if m_OP s0 =? Instruction.code Instruction.CREATE then 3 else 4))
    by (destruct (_ =? _); lia).
  do 4 vstep. subst.
  eapply triple_bind with (Mid := fun t s => st s0 K 0 (createGas sch) (createGas sch) 0 0 s /\
    (u256_ok (fst (fst t)) /\ u256_ok (snd (fst t)) /\ u256_ok (snd t))).
  { destruct (_ =? _).
    - do 2 vstep. by apply triple_ret.
    - do 3 vstep. by apply triple_ret. }
  intros [[salt off] size]. vpure. cbn [fst snd] in *. unfold uint_ok in *. do 3 vstep.
  eapply triple_bind; [apply returnData_ok; split; [constructor|cbn; lia]|]. intros ?. cbv beta.
  eapply triple_bind; [apply ext_balance_ok; vside|]. intros bal. cbv beta.
  eapply triple_bind with (Mid := fun _ s => exists K' L G, 1 <= G /\ st s0 K' L (createGas sch) (2 ^ 64) 0 G s).
  2: { intros _. do 3 (apply triple_exists; intros ?). apply triple_pure_l. intros. by apply advance_ok. }
  destruct ((_ <=? bal) && _) eqn:Eb.
  2: { eapply triple_pre; [intros s [[Hs _] _]; exact Hs|]. eapply triple_post; [vop|]. cbv beta. intros. do 3 eexists. split; [|eassumption]. lia. }
  apply andb_true_iff in Eb as [Eb%Z.leb_le Ed%Z.ltb_lt].
  intros s [[Hs Hbal] (x0 & Hx0 & Ebal)]. revert s Hs Ebal.
  match goal with |- forall s, ?P s -> _ -> match ?m s with _ => _ end =>
    enough (forall x, affordable E a1 x -> triple s0 (fun s => P s /\ m_ext s = x) m
      (fun _ s => exists K' L G, 1 <= G /\ st s0 K' L (createGas sch) (2 ^ 64) 0 G s)) as Hrest
  end.
  { intros s Hs Ebal. apply (Hrest (m_ext s)); [|done]. split; [done|]. by exists x0, bal. }
  intros x Hx. eapply triple_bind; [apply triple_keep; [done|apply mget_gas_ok]|]. intros io. cbv beta.
  apply triple_pure_mid. intros [Hio Hio']. set (cg := if negb (staticCallDepthLimit sch) then io - io / 64 else io).
  assert (0 <= cg <= io) as Hcg.
  { unfold cg. unfold uint_ok in *. destruct (negb _); [|lia].
    pose proof (Z.div_le_upper_bound io 64 io ltac:(lia) ltac:(lia)).
    pose proof (Z.div_pos io 64 ltac:(lia) ltac:(lia)). lia. }
  eapply triple_bind; [apply triple_keep; [apply mem_read_ext|vop]|]. intros code. cbv beta. apply triple_pure_mid. intros [Hcode _].
  eapply triple_bind; [apply ext_at_ok with (Q := fun r => buffer_ok (snd (fst r)) /\ 0 <= snd r <= cg)|].
  { intros [[addr out] gas] x' Ec. cbn [fst snd]. unfold uint_ok in *.
    destruct (create_ok x a1 cg code (m_OP s0) salt addr out gas x' Hx) as (? & ? & ?); try done; unfold uint_ok; lia. }
  intros [[addr out] gas]. cbn [fst snd]. vpure.
  vstep. eapply triple_bind; [by apply returnData_ok|]. intros ?. cbv beta.
  unfold uint_ok in *.
  rewrite (wrap_small 256 (cg - gas)), (wrap_small 256), (wrap_small 64) by (unfold uint_ok; lia).
  eapply triple_post; [apply (set_io_gas_ok _ _ _ _ _ _ _ _ 1); unfold uint_ok; lia|].
  cbv beta. intros. do 3 eexists. split; [|eassumption]. lia.
Qed.

Definition haveValue (op : Z) : bool := is_op op Instruction.CALL || is_op op Instruction.CALLCODE.

Lemma caseCallSetup_ok :
  has (if haveValue (m_OP s0) then 7 else 6) ->
  triple s0 now (caseCallSetup E) (fun r s => exists L R' U' G, st s0 K L R' U' 0 G s /\
    0 <= cp_gas (fst r) <= G - 1 /\
    match snd r with
    | Some (oo, oz) => (0 <= oz /\ (oz = 0 \/ 0 <= oo /\ oo + oz <= L)) /\ params_ok E (fst r) /\
        affordable E (valueTransfer (fst r)) (m_ext s)
    | None => True
    end).
Proof.
  intros Hn. destruct (pf_call prices) as (_ & Hcg & Hst & Hvt & Hna & _). unfold caseCallSetup.
  do 3 vstep. subst. fold (haveValue (m_OP s0)). set (hv := haveValue (m_OP s0)) in *.
  assert (Hn6 : 6 <= (if hv then 7 else 6)) by (destruct hv; lia).
  eapply triple_bind; [vop|]. intros gasArg. vpure.
  eapply triple_bind; [vop|]. intros dest. vpure. clear Hn6.
  eapply triple_bind with (Mid := fun v s => st s0 K 0 (callGas sch) (callGas sch) 0 0 s /\ u256_ok v).
  { destruct hv; [|by apply triple_ret; intros; split; [|apply zero_u256]].
    eapply triple_post; [vop|]. by intros ? ? (? & ? & _). }
  intros val. vpure.
  eapply triple_bind with (Mid := fun _ => st s0 K 0 (callGas sch) (callGas sch) 0 0).
  { destruct (is_op _ _); [vstep|]; by apply triple_ret. }
  intros absent.
  eapply triple_bind with (Mid := fun _ s => exists r, callGas sch <= r <= 2 ^ 25 /\ st s0 K 0 r r 0 0 s).
  { match goal with |- context [if ?b then _ else _] => destruct b end.
    - vstep. subst. eapply triple_post; [vop|]. cbv beta. intros. eexists; split; [|eassumption]. lia.
    - apply triple_ret. intros. eexists; split; [|eassumption]. lia. }
  intros _. apply triple_exists. intros r1. apply triple_pure_l. intros Hr1.
  eapply triple_bind with (Mid := fun _ s => exists r, (callGas sch <= r <= 2 ^ 26 /\
    (hv && (0 <? val) = true -> callGas sch + callStipend sch <= r)) /\ st s0 K 0 r r 0 0 s).
  { destruct (hv && (0 <? val)).
    - vstep. subst. eapply triple_post; [vop|]. cbv beta. intros. eexists; split; [|eassumption]. lia.
    - apply triple_ret. intros. eexists; split; [|eassumption]. split; [lia|done]. }
  intros _. apply triple_exists. intros r2. apply triple_pure_l. intros [Hr2 Hstip].
  set (so := if hv then 3 else 2).
  assert (0 <= so /\ m_SP s0 + so + 4 <= 1024) as [Hso1 Hso2] by (unfold so; destruct hv; lia).
  eapply triple_bind; [vop|]. intros inOff. vpure.
  eapply triple_bind; [vop|]. intros inSize. vpure.
  eapply triple_bind; [vop|]. intros outOff. vpure.
  eapply triple_bind; [vop|]. intros outSize. vpure.
  unfold uint_ok in *.
  eapply triple_bind; [vop|]. intros inNeed. vpure.
  eapply triple_bind; [vop|]. intros outNeed. vpure.
  eapply triple_bind; [apply newMemSize_ok|]. intros ?. cbv beta. do 2 vstep.
  eapply triple_bind; [vop|]. intros io. vpure.
  set (gas := if staticCallDepthLimit sch then gasArg else gasArg `min` (io - io / 64)).
  assert (0 <= gas) as Hgas.
  { unfold gas. unfold uint_ok in *. destruct (staticCallDepthLimit _); [lia|].
    pose proof (Z.div_le_upper_bound io 64 io ltac:(lia) ltac:(lia)). lia. }
  eapply triple_bind; [vop|]. intros g. vpure. subst g. do 2 vstep.
  set (gas' := if hv && (0 <? val) then wrap 256 (gas + callStipend sch) else gas).
  assert (0 <= gas' <= 0 + r2 + gas - 1) as Hgas'.
  { unfold gas'. destruct (hv && (0 <? val)); [|lia]. rewrite wrap_small by (unfold uint_ok; lia).
    specialize (Hstip eq_refl). lia. }
  eapply triple_bind; [apply ext_balance_ok; vside|]. intros bal. cbv beta.
  intros s [[Hs Hbal] (x0 & Hx0 & Ebal)]. pose proof (st_gas _ _ _ _ _ _ _ _ Hs) as Hsg. pose proof (inv_gas _ (st_inv _ _ _ _ _ _ _ _ Hs)) as Hsg'.
  match goal with |- context [if ?b then _ else _] => destruct b eqn:Eb end.
  - apply andb_true_iff in Eb as [Eb%Z.leb_le Ed%Z.ltb_lt].
    pose proof (mem_read_ext (wrap 64 inOff) (wrap 64 inSize) s) as Ex.
    match type of Hs with st _ _ ?L' ?R' ?U' _ ?G' _ =>
      assert (triple s0 (st s0 K L' R' U' 0 G') (mem_read (wrap 64 inOff) (wrap 64 inSize))
        (fun bs s => st s0 K L' R' U' 0 G' s /\ (buffer_ok bs /\ zlen bs = wrap 64 inSize))) as Hr by vop
    end.
    specialize (Hr s Hs). unfold mbind. destruct (mem_read _ _ s) as [[input|e] s']; [|exact Hr].
    destruct Hr as [Hs' [Hin _]]. cbn [fst snd mret cp_gas valueTransfer] in Ex |- *. do 4 eexists. split; [exact Hs'|].
    split; [lia|]. unfold uint_ok in *. split; [|split].
    + destruct (Z.eq_dec outSize 0) as [->|]; [change (wrap 64 0) with 0; lia|].
      rewrite !(wrap_small 64) by (unfold uint_ok; lia). lia.
    + pose proof (env_value _ HE) as Hev. unfold uint_ok in Hev.
      split; cbn [receiveAddress valueTransfer apparentValue cp_gas cp_data senderAddress cp_staticCall]; unfold uint_ok.
      * destruct (_ || _); [apply asAddress_ok|apply (env_my _ HE)].
      * destruct hv; lia.
      * destruct hv; [lia|]. destruct (is_op (m_OP s0) Instruction.DELEGATECALL); lia.
      * lia.
      * done.
      * destruct (is_op (m_OP s0) Instruction.DELEGATECALL) eqn:Edc; [right|by left].
        unfold hv, haveValue, is_op in *. apply Z.eqb_eq in Edc. rewrite Edc. done.
      * intros ->. apply orb_true_r.
    + rewrite Ex. split; [done|]. by exists x0, bal.
  - cbn [fst snd mret cp_gas]. do 4 eexists. split; [exact Hs|]. split; [lia|done].
Qed.

Lemma add_io_gas_ok K' L R' U' C G gas :
  0 <= gas <= G - 1 ->
  triple s0 (st s0 K' L R' U' C G) (mput (fun s => set_io_gas s (wrap 64 (m_io_gas s + wrap 64 gas))))
    (fun _ => st s0 K' L R' U' C 1).
Proof.
  intros Hg s [[] [] ? ? ? ? ?]. unfold uint_ok in *. unfold mput. cbv beta iota.
  rewrite (wrap_small 64 gas), (wrap_small 64) by (unfold uint_ok; lia).
  constructor; cbn; try done; try lia; constructor; cbn; try done. unfold uint_ok. lia.
Qed.

Lemma case_Call_ok :
  m_bounce s0 = interpretCases -> has (if haveValue (m_OP s0) then 7 else 6) -> room ->
  triple s0 now (case_Call E) (fun _ => advance_post).
Proof.
  intros Hb Hn Hroom. unfold case_Call.
  eapply triple_bind with (Mid := fun _ => now).
  { intros s Hs. destruct Hs as [[] [] ? ? ? ? ?]. cbn. constructor; cbn; try done; constructor; cbn; done || congruence. }
  intros _. eapply triple_bind; [apply returnData_ok; split; [constructor|cbn; lia]|]. intros ?. cbv beta.
  eapply triple_bind; [by apply caseCallSetup_ok|]. intros [p o]. cbv beta. cbn [fst snd].
  do 4 (apply triple_exists; intros ?). rename b into L, b0 into R', b1 into U', b2 into G.
  eapply triple_bind with (Mid := fun gas s => exists K', 0 <= gas <= G - 1 /\ st s0 K' L R' U' 0 G s).
  2: { intros gas. apply triple_exists. intros K'. apply triple_pure_l. intros Hg.
       eapply triple_bind; [by apply add_io_gas_ok|]. intros ?. cbv beta. apply advance_ok. lia. }
  destruct o as [[oo oz]|].
  - intros s (Hs & Hp & [Hz Ho] & Hpar & Hx). revert s Hs Hx.
    match goal with |- forall s, ?P s -> _ -> match ?m s with _ => _ end =>
      enough (forall x, affordable E (valueTransfer p) x -> triple s0 (fun s => P s /\ m_ext s = x) m
        (fun gas s => exists K', 0 <= gas <= G - 1 /\ st s0 K' L R' U' 0 G s)) as Hrest
    end.
    { intros s Hs Hx. by apply (Hrest (m_ext s) Hx). }
    intros x Hx. eapply triple_bind; [apply ext_at_ok with (Q := fun r => buffer_ok (snd (fst r)) /\ 0 <= snd r <= cp_gas p)|].
    { intros [[b out] gas] x' Ec. destruct (call_ok _ _ _ _ _ _ Hx Hpar Ec) as (? & ? & ?). done. }
    intros [[b out] gas]. cbn [fst snd]. vpure.
    eapply triple_bind; [apply mem_read_ok; lia|]. intros bs. vpure.
    eapply triple_bind; [apply mem_write_ok; [apply copyTo_ok; [|done]; match goal with H : buffer_ok out |- _ => apply H end|]|].
    { rewrite VectorRef.copyTo_length. lia. }
    intros ?. cbv beta. eapply triple_bind; [by apply returnData_ok|]. intros ?. cbv beta.
    eapply triple_bind; [apply set_SPP0_ok; [lia|apply of_bool_u256]|]. intros ?. cbv beta.
    apply triple_ret. intros s Hs. eexists. split; [|exact Hs]. lia.
  - apply triple_pure. intros [Hp _]. eapply triple_bind; [apply set_SPP0_ok; [lia|apply zero_u256]|]. intros ?. cbv beta.
    apply triple_ret. intros s Hs. eexists. split; [|exact Hs]. lia.
Qed.

End Calling.

(** ** Fetching *)

Definition costly (t : Tier.t) : bool :=
  match t with
  | Tier.Base | Tier.VeryLow | Tier.Low | Tier.Mid | Tier.High | Tier.Ext => true
  | _ => false
  end.

Lemma tierGas_ok t : 0 <= tierGas E t <= 2 ^ 24 /\ (costly t = true -> 1 <= tierGas E t).
Proof.
  destruct (pf_tiers prices) as (t0 & t1 & t2 & t3 & t4 & t5 & t6 & t7 & Ht & Hb).
  pose proof (pf_exp prices). unfold tierGas. rewrite Ht.
  destruct t;
    match goal with
    | |- context [default ?d (zat ?l ?i)] =>
        let v := eval lazy -[expGas vvmSchedule] in (default d (zat l i)) in change (default d (zat l i)) with v
    end;
    (split; [lia|intros Hc; try discriminate Hc; lia]).
Qed.

Lemma metric_ok op : 0 <= op < 256 -> 0 <= args (metric op) /\ 0 <= ret (metric op).
Proof.
  intros Hop.
  pose proof (Z_forall_below (fun op => (0 <=? args (metric op)) && (0 <=? ret (metric op))) 256
    ltac:(vm_compute; reflexivity) op ltac:(lia)) as H. cbn beta in H. lia.
Qed.

Definition fetched (s s1 : vm X) (op : Z) : Prop :=
  let m := metric op in
  st s1 (m_stack s) 0 (tierGas E (gasPriceTier m)) (tierGas E (gasPriceTier m)) 0 0 s1 /\
  m_SP s1 = m_SPP s /\ m_SPP s1 = m_SPP s + args m - ret m /\ m_SPP s + args m <= 1024 /\
  m_OP s1 = op /\ m_PC s1 = m_PC s /\ m_bounce s1 = m_bounce s /\ m_io_gas s1 = m_io_gas s.

Lemma fetch_ok (s : vm X) :
  inv s -> starts (m_PC s) ->
  match fetchInstruction E P s with
  | (Ok _, s1) => fetched s s1 (get (p_code P) (m_PC s))
  | (Err e, s1) => fair e /\ m_io_gas s1 = m_io_gas s /\ m_ext s1 = m_ext s
  end.
Proof.
  intros Hi Hpc. pose proof (start_range _ _ HP _ Hpc) as Hr. destruct (code_bytes _ _ HP) as [Hb _].
  unfold fetchInstruction. erewrite mbind_Ok by reflexivity. erewrite mbind_Ok by (by apply code_at_ok).
  set (op := get (p_code P) (m_PC s)).
  assert (0 <= op < 256) as Hop.
  { unfold op, get. destruct (zat (p_code P) (m_PC s)) eqn:Ez; [|cbn; lia]. by apply (bytes_ok_zat _ _ _ Hb Ez). }
  destruct (metric_ok op Hop) as [Ha Hre]. destruct (tierGas_ok (gasPriceTier (metric op))) as [Ht _].
  unfold adjustStack, throwBadStack, toInt63, set_run, set_copy, mbind, mput, mget, mret, mthrow.
  cbn [m_SPP m_SP set_SPP set_SP set_OP].
  destruct (Z.ltb_spec 1024 (m_SPP s + args (metric op))).
  { repeat case_match; simplify_eq; split; done. }
  cbn [m_SPP m_SP set_SPP set_SP set_OP].
  destruct (Z.ltb_spec (m_SPP s + args (metric op) - ret (metric op)) 0).
  { repeat case_match; simplify_eq; split; done. }
  destruct (Z.ltb_spec 0x7FFFFFFFFFFFFFFF (tierGas E (gasPriceTier (metric op)))); [lia|].
  unfold fetched. destruct Hi. split; [|cbn; split_and!; done || lia].
  constructor; cbn; try done; try lia. constructor; cbn; try done. lia.
Qed.

(** ** Dispatch *)

(** A call or creation about to be made. *)
Definition call_ready (b : bounce) (s : vm X) : Prop :=
  falls s /\ 0 <= m_SPP s < 1024 /\ 0 <= m_SP s /\
  match b with
  | caseCreate => m_SP s + (if m_OP s =? Instruction.code Instruction.CREATE then 3 else 4) <= 1024
  | caseCall => m_SP s + (if haveValue (m_OP s) then 7 else 6) <= 1024
  | _ => False
  end.

Definition outcome (s1 : vm X) (f : flow) (s : vm X) : Prop :=
  next_post s1 f s /\ falls s1 \/
  continue_post P starts s1 f s \/
  stop_post s1 f s \/
  exists b, call_post s1 b f s /\ call_ready b s1.

Lemma triple_next {s1 Pre m} :
  triple s1 Pre m (next_post s1) -> falls s1 -> triple s1 Pre m (outcome s1).
Proof. intros H Hf. eapply triple_post; [exact H|]. intros. by left. Qed.
Lemma triple_continue {s1 Pre m} :
  triple s1 Pre m (continue_post P starts s1) -> triple s1 Pre m (outcome s1).
Proof. intros H. eapply triple_post; [exact H|]. intros. right. by left. Qed.
Lemma triple_halt {s1 Pre m} : triple s1 Pre m (stop_post s1) -> triple s1 Pre m (outcome s1).
Proof. intros H. eapply triple_post; [exact H|]. intros. right. right. by left. Qed.
Lemma triple_callout {s1 Pre m b} :
  triple s1 Pre m (call_post s1 b) -> call_ready b s1 -> triple s1 Pre m (outcome s1).
Proof. intros H Hf. eapply triple_post; [exact H|]. intros. right. right. right. by exists b. Qed.

(** Every opcode goes to its own label, or to one that throws. *)
Definition handled (l : Instruction.t) : bool :=
  match dispatch_calls (X := X) E l, dispatch_ordinary (X := X) l, dispatch_env (X := X) E l,
        dispatch_stack (X := X) E P l with
  | None, None, None, None => false
  | _, _, _, _ => true
  end.

Lemma jumpTable_ok op :
  0 <= op < 256 ->
  exists l, zat Instruction.jumpTable op = Some l /\ (op = Instruction.code l \/ handled l = false).
Proof.
  intros Hop.
  pose proof (Z_forall_below (fun op => match zat Instruction.jumpTable op with
      | Some l => (op =? Instruction.code l) || negb (handled l) | None => false end) 256
    ltac:(vm_compute; reflexivity) op ltac:(lia)) as H. cbn beta in H.
  destruct (zat Instruction.jumpTable op) as [l|]; [|done]. exists l. split; [done|].
  apply orb_prop in H as [H|H]; [left; lia|right]. by apply negb_true_iff.
Qed.

Lemma dispatch_bad op l :
  zat Instruction.jumpTable op = Some l -> handled l = false -> dispatch E P op = (mthrow BadInstruction : VM_M flow).
Proof.
  intros Hl Hh. unfold dispatch, handled in *. rewrite Hl.
  destruct (dispatch_calls E l); [done|]. destruct (dispatch_ordinary l); [done|].
  destruct (dispatch_env E l); [done|]. by destruct (dispatch_stack E P l).
Qed.

(** The numbers of a known instruction, and the lemma of its case. *)
Ltac dispatch_numbers :=
  match goal with
  | Hargs : _ + args (metric ?op) <= 1024 |- _ =>
      let m := eval vm_compute in (metric op) in
      change (metric op) with m in *; cbn [args ret gasPriceTier] in *
  end;
  cbn [Instruction.code] in *;
  try (match goal with H : costly _ = true -> _ |- _ => specialize (H eq_refl) end);
  try (match goal with H : _ <> _ -> _ |- _ => specialize (H ltac:(discriminate) eq_refl ltac:(discriminate)) end).
Ltac dispatch_side :=
  try lia; try (match goal with H : m_OP _ = _ |- _ => rewrite H end; cbn [Instruction.code]; lia); try assumption; try (intros; auto using land_u256, lor_u256, lxor_u256 with vm; fail).
Ltac dispatch_case :=
  first
  [ apply triple_next;
    [ first [ apply ordinary0_ok | apply ordinary1_ok | apply ordinary2_ok | apply ordinary3_ok
            | apply case_SIGNEXTEND_ok | apply case_CALLDATALOAD_ok | apply case_RETURNDATASIZE_ok
            | apply case_POP_ok | apply reading_ok | eapply case_DUP_ok | eapply case_SWAP_ok | apply query_ok
            | apply case_JUMPDEST_ok | apply case_EXP_ok | apply case_SSTORE_ok | apply case_MLOAD_ok
            | apply case_MSTORE_ok | apply case_MSTORE8_ok | apply case_COPY_ok | apply case_RETURNDATACOPY_ok
            | apply case_EXTCODECOPY_ok | apply case_SHA3_ok | apply case_LOG_ok ] | ]
  | apply triple_continue;
    first [ apply case_JUMP_ok | apply case_JUMPI_ok | apply case_JUMPC_ok | apply case_JUMPCI_ok ]
  | apply triple_halt;
    first [ apply case_STOP_ok | apply case_RETURN_ok | apply case_SUICIDE_ok | apply case_REVERT_ok ]
  | eapply triple_callout; [ first [ apply case_CREATE_ok | apply case_CREATE2_ok | apply case_CALLs_ok ] | ]
  | idtac ];
  dispatch_side.

Lemma reading_gas (s : vm X) : inv s -> u256_ok (m_io_gas s).
Proof. intros [? ? ? ? [? ?] ? ? ?]. apply small_u256. lia. Qed.
Lemma reading_mem (s : vm X) : inv s -> u256_ok (zlen (m_mem s)).
Proof. intros [? ? ? [? ?] ? ? ? ?]. apply small_u256. lia. Qed.
Lemma op_ADD_u256 a b : u256_ok (op_ADD a b).
Proof. apply wrap_u256. Qed.
Lemma op_MUL_u256 a b : u256_ok (op_MUL a b).
Proof. apply wrap_u256. Qed.
Lemma op_SUB_u256 a b : u256_ok (op_SUB a b).
Proof. apply wrap_u256. Qed.
Lemma op_NOT_u256 a : u256_ok (op_NOT a).
Proof. apply wrap_u256. Qed.
#[local] Hint Resolve op_DIV_u256 op_SDIV_u256 op_MOD_u256 op_SMOD_u256 op_ADDMOD_u256 op_MULMOD_u256
  op_ISZERO_u256 op_BYTE_u256 op_SIGNEXTEND_u256 exp256_u256 calldata_word_u256 of_bool_u256 wrap_u256
  op_ADD_u256 op_MUL_u256 op_SUB_u256 op_NOT_u256
  reading_gas reading_mem buffer_u256 env_value env_price env_data env_code env_time env_number
  env_difficulty env_limit : vm.
#[local] Hint Extern 3 (uint_ok 256 (op_LT _ _)) => apply of_bool_u256 : vm.
#[local] Hint Extern 3 (uint_ok 256 (op_GT _ _)) => apply of_bool_u256 : vm.
#[local] Hint Extern 3 (uint_ok 256 (op_SLT _ _)) => apply of_bool_u256 : vm.
#[local] Hint Extern 3 (uint_ok 256 (op_SGT _ _)) => apply of_bool_u256 : vm.
#[local] Hint Extern 3 (uint_ok 256 (op_EQ _ _)) => apply of_bool_u256 : vm.
#[local] Hint Extern 5 (uint_ok 256 (fromAddress _)) => apply to_arith_u256; lia : vm.

Section Dispatch.
Variables (s s1 : vm X).
Hypothesis Hpc : starts (m_PC s).
Hypothesis Hspp : 0 <= m_SPP s <= 1024.
Hypothesis Hgas : uint_ok 64 (m_io_gas s).

Lemma fetched_falls op :
  fetched s s1 op -> op = get (p_code P) (m_PC s) ->
  op <> Instruction.code Instruction.STOP -> isPush op = false -> op <> Instruction.code Instruction.PUSHC ->
  falls s1.
Proof.
  intros (_ & _ & _ & _ & _ & Hp & _) -> H1 H2 H3. unfold falls. rewrite Hp. by apply (next_ok _ _ HP).
Qed.

(** The pushes, by the lemmas that make them [push_to]. *)
Lemma st_push_facts K L R U C G x :
  st s1 K L R U C G x -> m_PC s1 = m_PC s -> 0 <= m_SPP s1 < 1024 ->
  m_PC x = m_PC s /\ m_OP x = m_OP s1 /\ 0 <= m_SPP x < zlen (m_stack x).
Proof.
  intros [[] [] ? ? ? ? ?] Hp Hroom. rewrite inv_stack0, fr_pc0, fr_spp0. split; [done|]. split; [done|]. lia.
Qed.

Lemma push_data_ok n :
  get (p_code P) (m_PC s) - Instruction.code Instruction.PUSH1 + 1 = Z.of_nat n -> (1 <= n <= 32)%nat ->
  let p := m_PC s in
  0 <= p /\ p + 1 + Z.of_nat n <= zlen (p_code P) /\ zlen (p_code P) < 2 ^ 63 /\
  u256_ok (pushValue n (p_code P) (p + 1) 0) /\
  fall_ok P starts (p + 1 + Z.of_nat n) (pushValue n (p_code P) (p + 1) 0).
Proof.
  intros Hn Hn32. cbn zeta. destruct (code_bytes _ _ HP) as [Hb Hl]. pose proof (start_range _ _ HP _ Hpc).
  pose proof (push_ok _ _ HP _ Hpc) as Hpush. unfold nPush_of in Hpush. rewrite Hn in Hpush.
  assert (isPush (get (p_code P) (m_PC s)) = true) as Hi.
  { unfold isPush. cbn [Instruction.code] in *. zbool; done. }
  specialize (Hpush Hi). pose proof (start_range _ _ HP _ (proj1 Hpush)).
  split; [lia|]. split; [lia|]. split; [done|]. split; [by apply pushValue_ok|].
  rewrite pushValue_spec by (done || lia). done.
Qed.

Lemma pushn_case K R n :
  1 <= R <= 2 ^ 24 -> m_PC s1 = m_PC s -> m_OP s1 = get (p_code P) (m_PC s) -> 0 <= m_SPP s1 < 1024 ->
  m_OP s1 - Instruction.code Instruction.PUSH1 + 1 = Z.of_nat n -> (1 <= n <= 32)%nat ->
  triple s1 (st s1 K 0 R R 0 0) (case_PUSHn P) (continue_post P starts s1).
Proof.
  intros HR Hp Ho Hroom Hn Hn32 x Hx. destruct (st_push_facts _ _ _ _ _ _ _ Hx Hp Hroom) as (Hxp & Hxo & Hxs).
  rewrite Ho in Hn. destruct (push_data_ok n Hn Hn32) as (H1 & H2 & H3 & H4 & H5).
  rewrite (case_PUSHn_eq x n) by (rewrite ?Hxp, ?Hxo, ?Ho; done || lia). rewrite Hxp.
  eapply push_to_ok; eauto; lia.
Qed.

Lemma push1_case K R :
  1 <= R <= 2 ^ 24 -> m_PC s1 = m_PC s -> m_OP s1 = get (p_code P) (m_PC s) -> 0 <= m_SPP s1 < 1024 ->
  m_OP s1 = Instruction.code Instruction.PUSH1 ->
  triple s1 (st s1 K 0 R R 0 0) (case_PUSH1 P) (continue_post P starts s1).
Proof.
  intros HR Hp Ho Hroom Hop x Hx. destruct (st_push_facts _ _ _ _ _ _ _ Hx Hp Hroom) as (Hxp & Hxo & Hxs).
  rewrite Hop in Ho. destruct (push_data_ok 1 ltac:(rewrite <- Ho; done) ltac:(lia)) as (H1 & H2 & H3 & H4 & H5).
  rewrite (case_PUSH1_eq x) by (rewrite ?Hxp; lia). rewrite Hxp.
  eapply push_to_ok; eauto; lia.
Qed.

Lemma pushc_case K R :
  1 <= R <= 2 ^ 24 -> m_PC s1 = m_PC s -> m_OP s1 = get (p_code P) (m_PC s) -> 0 <= m_SPP s1 < 1024 ->
  m_OP s1 = Instruction.code Instruction.PUSHC ->
  triple s1 (st s1 K 0 R R 0 0) (case_PUSHC P) (continue_post P starts s1).
Proof.
  intros HR Hp Ho Hroom Hop x Hx. destruct (st_push_facts _ _ _ _ _ _ _ Hx Hp Hroom) as (Hxp & Hxo & Hxs).
  rewrite Hop in Ho. destruct (pushc_ok _ _ HP _ Hpc (eq_sym Ho)) as (H1 & v & H2 & H3 & H4).
  pose proof (start_range _ _ HP _ Hpc). destruct (code_bytes _ _ HP) as [Hb Hl].
  rewrite (case_PUSHC_eq x v) by (rewrite ?Hxp; done || lia). rewrite Hxp.
  eapply push_to_ok; eauto; lia.
Qed.

Lemma dispatch_label l :
  fetched s s1 (Instruction.code l) -> Instruction.code l = get (p_code P) (m_PC s) ->
  zat Instruction.jumpTable (Instruction.code l) = Some l -> handled l = true ->
  (is_JUMPC (Instruction.code l) = true -> forall v, zat (m_stack s) (m_SPP s) = Some v -> valid_dest P v) ->
  triple s1 (fun x => x = s1) (dispatch E P (Instruction.code l)) (outcome s1).
Proof.
  intros Hf Hop Hl Hh Hj. unfold dispatch. rewrite Hl. clear Hl.
  pose proof (tierGas_ok (gasPriceTier (metric (Instruction.code l)))) as [HR HR1].
  pose proof (fetched_falls _ Hf Hop) as Hfall.
  destruct Hf as (Hst & Hsp & Hs1 & Hargs & Hopc & Hp & _ & _).
  eapply (triple_pre _ _ (st s1 _ _ _ _ _ _)); [intros ? ->; exact Hst|].
  pose proof (inv_spp _ (st_inv _ _ _ _ _ _ _ _ Hst)) as Hspp1. clear Hst.
  destruct (pf_ext prices) as (? & ? & ? & ?). destruct (pf_store prices) as (? & ? & ?).
  destruct l; try discriminate Hh; clear Hh.
  all: cbn [dispatch_calls dispatch_ordinary dispatch_env dispatch_stack].
  all: dispatch_numbers.
  all: dispatch_case.
  all: dispatch_side.
  all: try (intros x Hx Hfr; rewrite (fr_pc _ _ Hfr), Hp; apply small_u256; pose proof (start_wrap _ Hpc); lia).
  all: try (intros v Hv; rewrite Z.add_0_r, Hsp in Hv; exact (Hj eq_refl v Hv)).
  all: try (split; [exact Hfall|]; rewrite Hopc; cbn; lia).
  all: try (intros x a v x' Hx Ha Hv; cbv beta in Hv;
    first [ exact (balance_ok _ _ _ _ Hv Hx) | exact (codeSizeAt_ok _ _ _ _ Hv Hx) | exact (store_ok _ _ _ _ Hv Hx Ha)
          | destruct (blockHash x a) as [h x1] eqn:Eh; injection Hv as <- <-;
            split; [apply to_arith_u256; lia|exact (blockHash_ok _ _ _ _ Eh Hx Ha)] ]).
  all: apply triple_continue.
  all: first [ apply push1_case | apply pushc_case 
    | apply (pushn_case _ _ (Z.to_nat (m_OP s1 - Instruction.code Instruction.PUSH1 + 1))) ];
    dispatch_side; try congruence.
Qed.
End Dispatch.

(** ** Steps *)

(** The invariant of the machine between two steps. *)
Definition machine_ok (s : vm X) : Prop :=
  match m_bounce s with
  | interpretCases => inv s /\ pc_ok P starts s
  | null => 0 <= m_io_gas s /\ buffer_ok (m_output s) /\ ext_inv (m_ext s)
  | b => inv s /\ call_ready b s /\ m_copyMemSize s = 0
  end.

(** What is left to do: two steps per unit of gas at most, since every
    instruction that goes on is paid for, a call with its two steps included. *)
Definition measure (s : vm X) : Z :=
  2 * m_io_gas s + match m_bounce s with interpretCases => 1 | _ => 0 end.

Definition step_post (s : vm X) (r : result exn unit) (s' : vm X) : Prop :=
  match r with
  | Ok _ => machine_ok s' /\ 0 <= m_io_gas s' <= m_io_gas s /\ (m_bounce s' = null \/ measure s' < measure s)
  | Err e => fair e /\ 0 <= m_io_gas s' <= m_io_gas s /\ ext_inv (m_ext s')
  end.

Lemma machine_gas s : machine_ok s -> 0 <= m_io_gas s.
Proof.
  unfold machine_ok. destruct (m_bounce s); [intros [[] _]|intros ([] & _)|intros ([] & _)|intros (? & _)];
    unfold uint_ok in *; lia.
Qed.

Lemma next_machine s0 s1 :
  m_bounce s0 = interpretCases -> next_post s0 NEXT s1 -> falls s0 ->
  let s' := set_PC s1 (wrap 64 (m_PC s0 + 1)) in
  machine_ok s' /\ m_bounce s' = interpretCases /\ 0 <= m_io_gas s' /\ m_io_gas s' + 1 <= m_io_gas s0.
Proof.
  intros Hb (_ & Hi & Hf & Hg) [H1 H2]. cbn zeta. destruct (start_wrap _ H1) as [_ ->]. destruct Hf.
  split; [|cbn; split; [congruence|exact Hg]].
  unfold machine_ok. cbn [m_bounce set_PC]. rewrite fr_bounce0, Hb. split; [destruct Hi; by constructor|].
  split; cbn; [done|congruence].
Qed.

Lemma instruction_ok s :
  m_bounce s = interpretCases -> machine_ok s ->
  let '(r, s') := instruction E P s in step_post s r s'.
Proof.
  intros Hb Hm. unfold machine_ok in Hm. rewrite Hb in Hm. destruct Hm as [Hi [Hpc Hj]].
  unfold instruction. unfold mbind at 1. pose proof (fetch_ok s Hi Hpc) as Hf. pose proof (inv_gas _ Hi) as Hgas.
  destruct (fetchInstruction E P s) as [[[]|e] s1]; [|destruct Hf as (? & Hge & Hxe); split; [done|]; rewrite Hge, Hxe; split; [unfold uint_ok in *; lia|apply Hi]].
  unfold mbind at 1, mget. set (op := get (p_code P) (m_PC s)) in *.
  pose proof Hf as (Hst & Hsp & Hspp & Hargs & Hopc & Hp & Hbn & Hg). rewrite Hopc.
  assert (0 <= op < 256) as Hop.
  { unfold op, get. destruct (zat (p_code P) (m_PC s)) eqn:Ez; [|cbn; lia].
    by apply (bytes_ok_zat _ _ _ (proj1 (code_bytes _ _ HP)) Ez). }
  destruct (jumpTable_ok op Hop) as (l & Hl & Hcase).
  destruct (handled l) eqn:Hh.
  2: { rewrite (dispatch_bad op l Hl Hh). cbn. split; [done|]. split; [unfold uint_ok in *; lia|].
       apply (inv_ext _ (st_inv _ _ _ _ _ _ _ _ Hst)). }
  destruct Hcase as [Hcase|]; [|done]. rewrite Hcase in *.
  pose proof (dispatch_label s s1 Hpc (inv_spp _ Hi) l Hf (eq_sym Hcase) Hl Hh Hj s1 eq_refl) as Hd.
  unfold mbind. destruct (dispatch E P (Instruction.code l) s1) as [[f|e] s2].
  2: { destruct Hd as (? & ? & ?). split; [done|]. split; [lia|done]. }
  destruct Hd as [[Hn Hfall]|[Hc|[Hs|(b & Hc & Hr)]]].
  - pose proof Hn as (-> & _ & Hfr & _). unfold inc_PC, modify_PC, mput. rewrite (fr_pc _ _ Hfr).
    destruct (next_machine s1 s2 ltac:(congruence) Hn Hfall) as (Hm' & Hb' & Hg' & Hg'').
    split; [done|]. split; [lia|]. right. unfold measure. rewrite Hb', Hb. lia.
  - destruct Hc as (-> & Hi2 & Hpc2 & Hb2 & Hg2). cbn. destruct Hg2. split.
    { unfold machine_ok. rewrite Hb2, Hbn, Hb. done. }
    split; [lia|]. right. unfold measure. rewrite Hb2, Hbn, Hb. lia.
  - destruct Hs as (-> & Hb2 & Hg2 & Ho2 & Hx2). cbn. split; [unfold machine_ok; rewrite Hb2; split; [lia|done]|]. split; [lia|by left].
  - destruct Hc as (-> & s3 & Hi3 & Hfr & Hg3 & Hc3 & ->). cbn.
    assert (0 <= m_io_gas s3) by (pose proof (inv_gas _ Hi3); unfold uint_ok in *; lia).
    split; [|split; [lia|right; unfold measure; cbn; rewrite Hb; destruct b; cbn; try lia; by destruct Hr as (_ & _ & _ & [])]].
    assert (inv (set_bounce s3 b)) by (destruct Hi3; by constructor).
    destruct Hfr. unfold machine_ok, call_ready, falls in *. cbn.
    rewrite fr_sp0, fr_spp0, fr_op0, fr_pc0. destruct b; try done; by destruct Hr as (_ & _ & _ & []).
Qed.

Lemma callout_start (s : vm X) b :
  inv s -> m_copyMemSize s = 0 ->
  st (set_bounce s b) (m_stack s) 0 (m_runGas s) (m_runGas s) 0 0 (set_bounce s b).
Proof.
  intros [] Hc. constructor; cbn; try done; try lia; constructor; done.
Qed.

Lemma advance_step (s s' : vm X) (r : result exn unit) :
  m_bounce s <> interpretCases -> uint_ok 64 (m_io_gas s) -> falls s ->
  match r with
  | Ok _ => advance_post (set_bounce s interpretCases) s'
  | Err e => fails (set_bounce s interpretCases) e s'
  end -> step_post s r s'.
Proof.
  intros Hb Hg Hf Hr. destruct r as [[]|e]; [|exact Hr].
  destruct Hr as (s1 & Hn & ->).
  destruct (next_machine (set_bounce s interpretCases) s1 eq_refl Hn Hf) as (Hm & Hb' & Hg' & Hg'').
  split; [exact Hm|]. cbn in Hg', Hg'', Hb' |- *. split; [lia|]. right. unfold measure. cbn. rewrite Hb'.
  destruct (m_bounce s); [done|..]; lia.
Qed.

Lemma step_ok s : machine_ok s -> let '(r, s') := step E P s in step_post s r s'.
Proof.
  intros Hm. unfold step. erewrite mbind_Ok by reflexivity. destruct (m_bounce s) eqn:Hb.
  - by apply instruction_ok.
  - pose proof Hm as Hm'. unfold machine_ok in Hm'. rewrite Hb in Hm'.
    destruct Hm' as (Hi & (Hf & Hr & Hsp & Hn) & Hc).
    change (case_Create E s) with (case_Create E (set_bounce s interpretCases)).
    pose proof (case_Create_ok (set_bounce s interpretCases) (m_stack s) _ _ Hsp (inv_gas _ Hi) eq_refl Hn Hr _
      (callout_start s interpretCases Hi Hc)) as H.
    destruct (case_Create E (set_bounce s interpretCases)) as [r s'] eqn:Ec.
    apply advance_step; [congruence|apply Hi|done|]. by destruct r.
  - pose proof Hm as Hm'. unfold machine_ok in Hm'. rewrite Hb in Hm'.
    destruct Hm' as (Hi & (Hf & Hr & Hsp & Hn) & Hc).
    change (case_Call E s) with (case_Call E (set_bounce s interpretCases)).
    pose proof (case_Call_ok (set_bounce s interpretCases) (m_stack s) _ _ Hsp (inv_gas _ Hi) eq_refl Hn Hr _
      (callout_start s interpretCases Hi Hc)) as H.
    destruct (case_Call E (set_bounce s interpretCases)) as [r s'] eqn:Ec.
    apply advance_step; [congruence|apply Hi|done|]. by destruct r.
  - pose proof (machine_gas s Hm). split; [done|]. split; [lia|by left].
Qed.

(** How a run may end. *)
Definition ended (s0 : vm X) (r : result exn unit) (s : vm X) : Prop :=
  match r with Ok _ => buffer_ok (m_output s) | Err e => fair e end /\
  0 <= m_io_gas s <= m_io_gas s0 /\ ext_inv (m_ext s).

Lemma run_null fuel s : m_bounce s = null -> run E P fuel s = Some (Ok tt, s).
Proof. intros Hb. by destruct fuel; cbn [run]; rewrite Hb. Qed.

(** Every run ends, with enough fuel for the gas; it never accesses anything
    outside its objects, and it never gains gas. *)
Lemma run_ok fuel s :
  machine_ok s -> measure s < Z.of_nat fuel -> exists r s', run E P fuel s = Some (r, s') /\ ended s r s'.
Proof.
  revert s. induction fuel as [|fuel IH]; intros s Hm Hf; pose proof (machine_gas s Hm) as Hg.
  { unfold measure in Hf. destruct (m_bounce s); lia. }
  assert (m_bounce s = null \/ m_bounce s <> null) as [Hn|Hn] by (destruct (m_bounce s); by (left + right)).
  { exists (Ok tt), s. split; [by apply run_null|]. unfold machine_ok in Hm. rewrite Hn in Hm.
    destruct Hm as (? & ? & ?). split; [done|]. split; [lia|done]. }
  pose proof (step_ok s Hm) as Hs. assert (run E P (S fuel) s = match step E P s with (Ok _, s') => run E P fuel s' | (Err e, s') => Some (Err e, s') end) as ->.
  { cbn [run]. by destruct (m_bounce s). }
  destruct (step E P s) as [[[]|e] s']; [|by exists (Err e), s'].
  destruct Hs as (Hm' & Hg' & [Hn'|Hd]).
  - exists (Ok tt), s'. split; [by apply run_null|]. unfold machine_ok in Hm'. rewrite Hn' in Hm'. by destruct Hm' as (? & ? & ?).
  - destruct (IH s' Hm' ltac:(lia)) as (r & s'' & Hr & H1 & H2 & H3). exists r, s''. split; [done|]. split; [done|]. split; [lia|done].
Qed.

End Safety2.
End VMSafety.
