(* ===== verification/VMEquiv.v ===== *)
(** * VMEquiv: the optimiser does not change what a program does

    What the two passes of [optimize] leave in the code, instruction by
    instruction; that the prepared code satisfies what the interpreter relies on;
    and a lock-step simulation between running the code as [optimize] leaves it
    and running it without the second pass. *)

From stdpp Require Import base list numbers option.
From Stdlib Require Import ZArith Lia Sorted.
From S2P Require Import Prelude.
From S2P Require Import Bytes.
From S2P Require Import Keccak.
From S2P Require Import Instruction.
From S2P Require Import VMOpt.
From S2P Require Import VM.
From S2P Require Import VMSafety.
Import CommonData FixedHash VMOpt VM.

Module VMEquiv.

(** ** Binary search *)

Lemma get_lookup (v : list Z) (k : nat) : get v (Z.of_nat k) = default 0 (v !! k).
Proof. unfold get, zat. destruct (Z.ltb_spec (Z.of_nat k) 0); [lia|]. by rewrite Nat2Z.id. Qed.

Definition sorted_le (v : list Z) : Prop :=
  forall i j, 0 <= i <= j -> j < zlen v -> get v i <= get v j.

(** [lower_bound] keeps the answer between [first] and [first + len]. *)
Lemma lower_bound_spec fuel v val first len :
  sorted_le v -> 0 <= first -> 0 <= len -> first + len <= zlen v -> len < Z.of_nat fuel ->
  (forall i, 0 <= i < first -> get v i < val) ->
  (forall i, first + len <= i < zlen v -> val <= get v i) ->
  let r := lower_bound fuel v val first len in
  0 <= r <= zlen v /\ (forall i, 0 <= i < r -> get v i < val) /\ (forall i, r <= i < zlen v -> val <= get v i).
Proof.
  intros Hs. revert first len. induction fuel as [|f IH]; intros first len H1 H2 H3 Hf Hlo Hhi; [lia|].
  cbn [lower_bound]. destruct (Z.ltb_spec 0 len).
  - rewrite Z.shiftr_div_pow2 by lia. change (2 ^ 1) with 2.
    assert (0 <= len / 2 < len) by (split; [apply Z.div_pos; lia|apply Z.div_lt; lia]).
    destruct (Z.ltb_spec (get v (first + len / 2)) val).
    + apply IH; try lia.
      * intros i Hi. pose proof (Hs i (first + len / 2) ltac:(lia) ltac:(lia)). lia.
      * intros i Hi. apply Hhi. lia.
    + apply IH; try lia.
      * intros i Hi. apply Hlo. lia.
      * intros i Hi. pose proof (Hs (first + len / 2) i ltac:(lia) ltac:(lia)). lia.
  - cbn zeta. split; [lia|]. split; [exact Hlo|]. intros i Hi. apply Hhi. lia.
Qed.

Lemma get_elem (v : list Z) i : 0 <= i < zlen v -> get v i ∈ v.
Proof.
  intros Hi. replace i with (Z.of_nat (Z.to_nat i)) by lia. rewrite get_lookup.
  destruct (lookup_lt_is_Some_2 v (Z.to_nat i) ltac:(lia)) as [x Hx]. rewrite Hx.
  by eapply list_elem_of_lookup_2.
Qed.

Lemma elem_get (v : list Z) x : x ∈ v -> exists i, 0 <= i < zlen v /\ get v i = x.
Proof.
  intros [k Hk]%list_elem_of_lookup. exists (Z.of_nat k). rewrite get_lookup, Hk.
  apply lookup_lt_Some in Hk. split; [lia|done].
Qed.

Lemma binary_search_spec v val : sorted_le v -> binary_search v val = true <-> val ∈ v.
Proof.
  intros Hs. unfold binary_search.
  destruct (lower_bound_spec (S (List.length v)) v val 0 (zlen v) Hs ltac:(lia) ltac:(lia) ltac:(lia) ltac:(lia)
    ltac:(intros; lia) ltac:(intros; lia)) as (Hr & Hlo & Hhi).
  set (r := lower_bound _ _ _ _ _) in *. rewrite andb_true_iff, negb_true_iff, Z.ltb_lt, Z.ltb_ge. split.
  - intros [H1 H2]. pose proof (Hhi r ltac:(lia)). replace val with (get v r) by lia. apply get_elem. lia.
  - intros (i & Hi & Hv)%elem_get. destruct (Z.lt_ge_cases i r) as [H|H].
    + pose proof (Hlo i ltac:(lia)). lia.
    + assert (r < zlen v) by lia. split; [done|]. pose proof (Hs r i ltac:(lia) ltac:(lia)). lia.
Qed.

Lemma verifyJumpDest_spec v d :
  sorted_le v -> (forall x, x ∈ v -> 0 <= x < 2 ^ 63) -> 0 <= d ->
  verifyJumpDest v d = if decide (d ∈ v) then Some d else None.
Proof.
  intros Hs Hr Hd. unfold verifyJumpDest. destruct (Z.leb_spec d 0x7FFFFFFFFFFFFFFF).
  - rewrite wrap_small by (unfold uint_ok; lia). pose proof (binary_search_spec v d Hs) as Hb.
    destruct (binary_search v d); case_decide; try done; [exfalso; intuition|].
    by assert (false = true) by by apply Hb.
  - case_decide as Hin; [|done]. specialize (Hr d Hin). lia.
Qed.

(** ** Instruction starts *)

Section Code.
Variable code : bytes.
Hypothesis Hcode : bytes_ok code.
Abbreviation n := (zlen code).

Definition len_of (op : Z) : Z := if isPush op then nPush_of op + 1 else 1.

(** The [k]-th instruction of the code, read from the beginning. *)
Fixpoint pos (k : nat) : Z :=
  match k with
  | O => 0
  | S k' => pos k' + len_of (get code (pos k'))
  end.
Definition start (p : Z) : Prop := exists k, pos k = p /\ forall j, (j < k)%nat -> pos j < n.

Lemma len_range op : 1 <= len_of op <= 33.
Proof. unfold len_of, isPush, nPush_of. cbn [Instruction.code]. destruct (_ && _) eqn:Hb; lia. Qed.

Lemma len_push op : isPush op = true -> len_of op = nPush_of op + 1 /\ 1 <= nPush_of op <= 32.
Proof.
  intros H. unfold len_of. rewrite H. split; [done|]. unfold isPush, nPush_of in *. cbn [Instruction.code] in *. lia.
Qed.

Lemma len_other op : isPush op = false -> len_of op = 1.
Proof. unfold len_of. by intros ->. Qed.

Lemma pos_mono j k : (j < k)%nat -> pos j + len_of (get code (pos j)) <= pos k.
Proof.
  induction 1 as [|k _ IH]; cbn [pos]; [lia|]. pose proof (len_range (get code (pos k))). lia.
Qed.

Lemma pos_nonneg k : 0 <= pos k.
Proof. induction k as [|k IH]; cbn [pos]; [lia|]. pose proof (len_range (get code (pos k))). lia. Qed.

Lemma start_nonneg p : start p -> 0 <= p.
Proof. intros (k & <- & _). apply pos_nonneg. Qed.

Lemma start_zero : start 0.
Proof. exists O. split; [done|]. lia. Qed.

Lemma start_next p : start p -> p < n -> start (p + len_of (get code p)).
Proof.
  intros (k & <- & Hk) Hp. exists (S k). split; [done|]. intros j Hj.
  destruct (Nat.eq_dec j k) as [->|]; [done|]. apply Hk. lia.
Qed.

Lemma start_gap p q : start p -> start q -> p < q -> p + len_of (get code p) <= q.
Proof.
  intros (j & <- & _) (k & <- & _) H. destruct (Nat.lt_ge_cases j k); [by apply pos_mono|].
  destruct (Nat.eq_dec j k) as [->|]; [lia|]. pose proof (pos_mono k j ltac:(lia)).
  pose proof (len_range (get code (pos k))). lia.
Qed.

Lemma start_bound p : start p -> p <= n + 32.
Proof.
  intros ([|k] & <- & Hk); cbn [pos]; [lia|]. specialize (Hk k ltac:(lia)).
  pose proof (len_range (get code (pos k))). lia.
Qed.

(** Every start but the first comes after one. *)
Lemma start_pred q : start q -> q = 0 \/ exists p, start p /\ p < n /\ q = p + len_of (get code p).
Proof.
  intros ([|k] & <- & Hk); [by left|right]. exists (pos k). split; [|split; [by apply Hk; lia|done]].
  exists k. split; [done|]. intros j Hj. apply Hk. lia.
Qed.

Lemma get_out (c : bytes) i : zlen c <= i -> get c i = 0.
Proof.
  intros Hi. unfold get, zat. destruct (Z.ltb_spec i 0); [done|].
  by rewrite lookup_ge_None_2 by lia.
Qed.

Lemma get_copyCode i : get (copyCode code 33) i = get code i.
Proof.
  unfold get, copyCode, zat. destruct (Z.ltb_spec i 0); [done|].
  destruct (Nat.lt_ge_cases (Z.to_nat i) (List.length code)).
  - by rewrite lookup_app_l by lia.
  - rewrite lookup_app_r by lia. rewrite (lookup_ge_None_2 code) by lia. cbn [default].
    destruct (replicate _ _ !! _) eqn:Er; [|done]. apply lookup_replicate_1 in Er as [-> _]. done.
Qed.

Lemma put_length c i v : List.length (put c i v) = List.length c.
Proof. apply length_insert. Qed.

Lemma get_put c i v j :
  0 <= i < zlen c -> 0 <= j -> get (put c i v) j = if i =? j then v else get c j.
Proof.
  intros Hi Hj. unfold get, put, zat. destruct (Z.ltb_spec j 0); [lia|].
  destruct (Z.eqb_spec i j) as [->|].
  - by rewrite list_lookup_insert_eq by lia.
  - by rewrite list_lookup_insert_ne by lia.
Qed.

Lemma get_byte c i : bytes_ok c -> is_byte (get c i).
Proof.
  intros Hc. unfold get. destruct (zat c i) eqn:Ez; [by apply (bytes_ok_zat _ _ _ Hc Ez)|unfold is_byte; cbn; lia].
Qed.

Lemma put_ok c i v : bytes_ok c -> is_byte v -> bytes_ok (put c i v).
Proof. intros. by apply Forall_insert. Qed.

(** Between [pc] and the next instruction there is no other start. *)
Lemma start_before pc p :
  start pc -> start p -> p < pc + len_of (get code pc) <-> p < pc \/ p = pc.
Proof.
  intros H1 H2. pose proof (len_range (get code pc)). split; [|lia]. intros H3.
  destruct (Z.lt_trichotomy p pc) as [|[|Hgt]]; [by left|by right|].
  pose proof (start_gap pc p H1 H2 Hgt). lia.
Qed.

(** ** The first pass *)

Definition scanned (op : Z) : Z := if synthetic op then Instruction.code Instruction.INVALID else op.

Record scan_inv (pc : Z) (c : bytes) (d : list Z) : Prop := {
  si_len : zlen c = n + 33;
  si_ok : bytes_ok c;
  si_done : forall p, start p -> p < pc -> p < n -> get c p = scanned (get code p);
  si_rest : forall i, 0 <= i -> ~ (start i /\ i < pc /\ i < n) -> get c i = get code i;
  si_sorted : StronglySorted Z.lt d;
  si_dests : forall p, p ∈ d <-> start p /\ p < pc /\ p < n /\ get code p = Instruction.code Instruction.JUMPDEST
}.

Lemma scanned_byte op : is_byte op -> is_byte (scanned op).
Proof. unfold scanned. destruct (synthetic op); [|done]. intros _. unfold is_byte. cbn. lia. Qed.

Lemma StronglySorted_snoc (d : list Z) x :
  StronglySorted Z.lt d -> (forall y, y ∈ d -> y < x) -> StronglySorted Z.lt (d ++ [x]).
Proof.
  induction 1 as [|y d Hd IH Hy]; intros Hx; cbn; [repeat constructor|].
  constructor.
  - apply IH. intros z Hz. apply Hx. by right.
  - apply Forall_app. split; [done|]. repeat constructor. apply Hx. by left.
Qed.

Lemma scan_step pc c d :
  start pc -> pc < n -> scan_inv pc c d ->
  scan_inv (pc + len_of (get code pc))
    (if synthetic (get c pc) then put c pc (Instruction.code Instruction.INVALID) else c)
    (if get c pc =? Instruction.code Instruction.JUMPDEST then d ++ [pc] else d).
Proof.
  intros Hpc Hn [Hlen Hok Hdone Hrest Hsort Hd]. pose proof (start_nonneg pc Hpc) as Hpc0.
  assert (get c pc = get code pc) as Hop by (apply Hrest; [done|lia]). rewrite Hop.
  set (op := get code pc) in *.
  assert (Hput : forall i, 0 <= i -> get (if synthetic op then put c pc (Instruction.code Instruction.INVALID) else c) i
                 = if pc =? i then scanned op else get c i).
  { intros i Hi. unfold scanned. destruct (synthetic op); [rewrite get_put by lia; done|].
    destruct (Z.eqb_spec pc i); [by subst|done]. }
  constructor.
  - destruct (synthetic op); [rewrite put_length|]; done.
  - destruct (synthetic op); [apply put_ok; [done|unfold is_byte; cbn; lia]|done].
  - intros p Hp Hlt Hpn. rewrite Hput by (by apply start_nonneg). apply (proj1 (start_before _ _ Hpc Hp)) in Hlt.
    destruct (Z.eqb_spec pc p) as [<-|]; [done|]. apply Hdone; [done|lia|done].
  - intros i Hi Hno. rewrite Hput by done. destruct (Z.eqb_spec pc i) as [<-|].
    + exfalso. apply Hno. split; [done|]. pose proof (len_range (get code pc)). unfold op. lia.
    + apply Hrest; [done|]. intros (? & ? & ?). apply Hno. pose proof (len_range op). split; [done|lia].
  - destruct (_ =? _); [|done]. apply StronglySorted_snoc; [done|]. intros y Hy. apply Hd in Hy as (_ & ? & _). done.
  - intros p. destruct (Z.eqb_spec op (Instruction.code Instruction.JUMPDEST)) as [Hj|Hj].
    + rewrite elem_of_app, list_elem_of_singleton, Hd. split.
      * intros [(? & ? & ? & ?)|Heq]; [|subst p]; [pose proof (len_range op); split; [done|lia]|].
        split; [done|]. pose proof (len_range op). split; [lia|done].
      * intros (Hp & Hlt & Hpn & He). apply (proj1 (start_before _ _ Hpc Hp)) in Hlt. destruct Hlt; [by left|by right].
    + rewrite Hd. split.
      * intros (? & ? & ? & ?). pose proof (len_range op). split; [done|lia].
      * intros (Hp & Hlt & Hpn & He). apply (proj1 (start_before _ _ Hpc Hp)) in Hlt. destruct Hlt; [done|]. by subst p.
Qed.

Lemma buildJumpDests_spec fuel pc c d :
  start pc -> n - pc <= Z.of_nat fuel -> scan_inv pc c d ->
  let '(c', d') := buildJumpDests fuel n pc c d in
  exists pc', start pc' /\ n <= pc' /\ scan_inv pc' c' d'.
Proof.
  revert pc c d. induction fuel as [|f IH]; intros pc c d Hpc Hf Hi; cbn [buildJumpDests].
  { exists pc. split; [done|]. split; [lia|done]. }
  destruct (Z.ltb_spec pc n); [|by exists pc].
  pose proof (scan_step pc c d Hpc ltac:(done) Hi) as Hs.
  assert (get c pc = get code pc) as Hop.
  { apply (si_rest _ _ _ Hi); [by apply start_nonneg|lia]. }
  pose proof (start_next pc Hpc ltac:(done)) as Hnext. pose proof (len_range (get code pc)).
  rewrite Hop in *. destruct (Z.eqb_spec (get code pc) (Instruction.code Instruction.JUMPDEST)) as [Hj|Hj].
  - rewrite len_other in * by (by rewrite Hj). apply IH; [done|lia|done].
  - destruct (isPush (get code pc)) eqn:Hp.
    + destruct (len_push _ Hp) as [Hl _]. rewrite Hl in *. rewrite Z.add_assoc in *. apply IH; [done|lia|done].
    + rewrite len_other in * by done. apply IH; [done|lia|done].
Qed.

Lemma scan_spec : exists pc, n <= pc /\ scan_inv pc (p_code (scan code)) (p_jumpDests (scan code)).
Proof.
  unfold scan. pose proof (buildJumpDests_spec (List.length code) 0 (copyCode code 33) [] start_zero ltac:(lia)) as H.
  destruct (buildJumpDests _ _ _ _ _) as [c d]. cbn. destruct H as (pc & _ & ? & ?); [|by exists pc].
  constructor.
  - unfold copyCode. rewrite zlen_app, length_replicate. lia.
  - unfold copyCode. apply bytes_ok_app. split; [done|]. apply Forall_replicate. unfold is_byte. lia.
  - intros p Hp Hlt. pose proof (start_nonneg p Hp). lia.
  - intros i Hi _. apply get_copyCode.
  - constructor.
  - intros p. split; [by intros ?%not_elem_of_nil|]. intros (Hp & Hlt & _). pose proof (start_nonneg p Hp). lia.
Qed.

(** The facts on the scanned code the rest uses. *)
Abbreviation c1 := (p_code (scan code)).
Abbreviation dests := (p_jumpDests (scan code)).

Lemma c1_len : zlen c1 = n + 33.
Proof. destruct scan_spec as (pc & _ & H). apply H. Qed.
Lemma c1_ok : bytes_ok c1.
Proof. destruct scan_spec as (pc & _ & H). apply H. Qed.
Lemma c1_start p : start p -> p < n -> get c1 p = scanned (get code p).
Proof. intros Hp Hn. destruct scan_spec as (pc & ? & H). apply (si_done _ _ _ H); [done|lia|done]. Qed.
Lemma c1_end p : n <= p -> get c1 p = 0.
Proof.
  intros Hp. destruct scan_spec as (pc & ? & H). rewrite (si_rest _ _ _ H) by lia. apply get_out. lia.
Qed.
Lemma dests_spec p : p ∈ dests <-> start p /\ p < n /\ get code p = Instruction.code Instruction.JUMPDEST.
Proof.
  destruct scan_spec as (pc & ? & H). rewrite (si_dests _ _ _ H). split; [intros (? & ? & ? & ?); done|].
  intros (? & ? & ?). split; [done|lia].
Qed.
Lemma dests_sorted : sorted_le dests.
Proof.
  destruct scan_spec as (pc & ? & H). pose proof (si_sorted _ _ _ H) as Hs. clear H. revert Hs. generalize dests as d.
  induction 1 as [|x d Hd IH Hx]; intros i j Hi Hj; [cbn in Hj; lia|].
  assert (Hget : forall k, 0 < k -> get (x :: d) k = get d (k - 1)).
  { intros k Hk. unfold get, zat. destruct (Z.ltb_spec k 0), (Z.ltb_spec (k - 1) 0); try lia.
    replace (Z.to_nat k) with (S (Z.to_nat (k - 1))) by lia. done. }
  rewrite zlen_cons in Hj. destruct (Z.eq_dec i 0) as [->|].
  - destruct (Z.eq_dec j 0) as [->|]; [done|]. rewrite (Hget j) by lia. change (get (x :: d) 0) with x.
    pose proof (get_elem d (j - 1) ltac:(lia)) as Hin. apply list_elem_of_In in Hin.
    pose proof (proj1 (Forall_forall _ _) Hx _ Hin). cbn in *. lia.
  - rewrite !Hget by lia. apply IH; lia.
Qed.

(** ** The second pass *)

Definition push_val (p : Z) : Z := pushValue (Z.to_nat (nPush_of (get code p))) c1 (p + 1) 0.

Definition jump_repl (o o' : Z) : Prop :=
  o = Instruction.code Instruction.JUMP /\ o' = Instruction.code Instruction.JUMPC \/
  o = Instruction.code Instruction.JUMPI /\ o' = Instruction.code Instruction.JUMPCI.

(** The jump at [q] was replaced, after a push of a valid destination. *)
Definition replaced (c : bytes) (q : Z) : Prop :=
  jump_repl (get c1 q) (get c q) /\
  exists p, start p /\ p < n /\ isPush (get code p) = true /\ q = p + len_of (get code p) /\
    is_Some (verifyJumpDest dests (push_val p)).

Definition pool_index (c : bytes) (p : Z) : Z := Z.lor (Z.shiftl (get c (p + 1)) 8) (get c (p + 2)).

(** The instruction at [p] as the pass leaves it. *)
Definition treated (c : bytes) (pool : list Z) (p : Z) : Prop :=
  let k := nPush_of (get code p) in
  if isPush (get code p) then
    if 5 <? k then
      get c p = Instruction.code Instruction.PUSHC /\ get c (p + 3) = k - 2 /\
      zat pool (pool_index c p) = Some (push_val p)
    else forall j, p <= j < p + 1 + k -> get c j = get c1 j
  else get c p = get c1 p \/ replaced c p.

Record pass_inv (pc : Z) (c : bytes) (pool : list Z) : Prop := {
  pi_len : zlen c = n + 33;
  pi_ok : bytes_ok c;
  pi_words : Forall (uint_ok 256) pool;
  pi_pool : 7 * zlen pool <= pc;
  pi_done : forall p, start p -> p < pc -> p < n -> treated c pool p;
  pi_head : get c pc = get c1 pc \/ replaced c pc;
  pi_rest : forall i, pc < i -> get c i = get c1 i
}.

(** [treated] only looks at the bytes of the instruction, and at the pool. *)
Lemma treated_mono c c' pool pool' p :
  start p -> treated c pool p -> (forall i, p <= i < p + len_of (get code p) -> get c' i = get c i) ->
  (forall i v, zat pool i = Some v -> zat pool' i = Some v) -> treated c' pool' p.
Proof.
  intros Hs Ht Hc Hp. unfold treated in *. destruct (isPush (get code p)) eqn:Hi.
  - destruct (len_push _ Hi) as [Hl Hk]. rewrite Hl in Hc. destruct (Z.ltb_spec 5 (nPush_of (get code p))).
    + destruct Ht as (H1 & H2 & H3). unfold pool_index in *. rewrite !Hc by lia. auto.
    + intros j Hj. rewrite Hc by lia. apply Ht. lia.
  - rewrite len_other in Hc by done. unfold replaced in *. by rewrite Hc by lia.
Qed.

Lemma pushValue_ext m c c' i v :
  (forall j, i <= j < i + Z.of_nat m -> get c j = get c' j) -> pushValue m c i v = pushValue m c' i v.
Proof.
  revert i v. induction m as [|m IH]; intros i v H; [done|]. cbn [pushValue]. rewrite (H i) by lia.
  apply IH. intros j Hj. apply H. lia.
Qed.

Lemma c1_push p : start p -> p < n -> isPush (get c1 p) = isPush (get code p) /\
  (isPush (get code p) = true -> get c1 p = get code p).
Proof.
  intros Hp Hn. rewrite c1_start by done. unfold scanned, synthetic, isPush. cbn [Instruction.code].
  destruct (_ || _ || _) eqn:Hs; [|done]. split; [cbn|]; lia.
Qed.

Lemma jump_repl_push o o' : jump_repl o o' -> isPush o = false /\ isPush o' = false.
Proof. by intros [[-> ->]|[-> ->]]. Qed.

Lemma head_push pc c pool :
  start pc -> pc < n -> pass_inv pc c pool ->
  isPush (get c pc) = isPush (get code pc) /\ (isPush (get code pc) = true -> get c pc = get code pc).
Proof.
  intros Hs Hn Hi. destruct (c1_push pc Hs Hn) as [H1 H2]. destruct (pi_head _ _ _ Hi) as [->|[Hr _]]; [done|].
  destruct (jump_repl_push _ _ Hr) as [Ha Hb]. rewrite Hb. split; [congruence|]. intros Hx. congruence.
Qed.

Lemma zat_snoc {A} (l : list A) x i v : zat l i = Some v -> zat (l ++ [x]) i = Some v.
Proof. intros H. rewrite zat_app_l; [done|]. apply zat_Some in H. lia. Qed.

Lemma pool_bytes off :
  0 <= off < 65536 ->
  Z.lor (Z.shiftl (Z.shiftr off 8) 8) (Z.land off 0xff) = off /\
  is_byte (Z.shiftr off 8) /\ is_byte (Z.land off 0xff).
Proof.
  intros H. change 0xff with (Z.ones 8). rewrite Z.land_ones, Z.shiftr_div_pow2 by lia. change (2 ^ 8) with 256.
  pose proof (Z.mod_pos_bound off 256 ltac:(lia)). pose proof (Z.div_mod off 256 ltac:(lia)).
  rewrite lor_shiftl_byte by (unfold is_byte; lia). unfold is_byte. split; [lia|]. split; [|lia].
  split; [apply Z.div_pos; lia|apply Z.div_lt_upper_bound; lia].
Qed.

(** The two rewrites of an iteration at a push. *)
Lemma stash_spec pc c pool v :
  start pc -> pc < n -> n <= 458752 -> pass_inv pc c pool -> isPush (get code pc) = true -> uint_ok 256 v ->
  let k := nPush_of (get code pc) in
  let '(c', pool') := stash c pool pc k v in
  zlen c' = n + 33 /\ bytes_ok c' /\ Forall (uint_ok 256) pool' /\ 7 * zlen pool' <= pc + k + 1 /\
  (forall i x, zat pool i = Some x -> zat pool' i = Some x) /\
  (forall i, 0 <= i -> i < pc \/ pc + k < i -> get c' i = get c i) /\
  (if 5 <? k then
     get c' pc = Instruction.code Instruction.PUSHC /\ get c' (pc + 3) = k - 2 /\
     zat pool' (pool_index c' pc) = Some v
   else forall i, get c' i = get c i).
Proof.
  intros Hs Hn Hmax Hi Hp Hv. cbn zeta. destruct (len_push _ Hp) as [_ Hk]. pose proof (start_nonneg pc Hs).
  destruct Hi as [Hlen Hok Hw Hpool _ _ _]. unfold stash. set (k := nPush_of (get code pc)) in *.
  destruct (Z.ltb_spec 5 k) as [H5|H5].
  - rewrite (wrap_small 16) by (unfold uint_ok; lia). rewrite (wrap_small 8) by (unfold uint_ok; lia).
    destruct (pool_bytes (zlen pool) ltac:(lia)) as (Hoff & Hb1 & Hb2).
    assert (Hg : forall i, 0 <= i ->
      get (put (put (put (put c pc (Instruction.code Instruction.PUSHC)) (pc + 3) (k - 2)) (pc + 2)
             (Z.land (zlen pool) 255)) (pc + 1) (Z.shiftr (zlen pool) 8)) i =
      if pc + 1 =? i then Z.shiftr (zlen pool) 8 else if pc + 2 =? i then Z.land (zlen pool) 255
      else if pc + 3 =? i then k - 2 else if pc =? i then Instruction.code Instruction.PUSHC else get c i).
    { intros i Hi. rewrite !get_put by (rewrite ?put_length; lia). done. }
    split_and!.
    + rewrite !put_length. done.
    + repeat apply put_ok; try done; unfold is_byte; cbn [Instruction.code]; lia.
    + apply Forall_app. split; [done|]. constructor; [done|constructor].
    + rewrite zlen_app. cbn [List.length]. lia.
    + intros i x. apply zat_snoc.
    + intros i Hi0 Hi. rewrite Hg by done. zbool; done.
    + rewrite Hg by lia. zbool; try done.
    + rewrite Hg by lia. zbool; try done.
    + unfold pool_index. rewrite !Hg by lia.
      rewrite (proj2 (Z.eqb_eq (pc + 1) (pc + 1)) eq_refl), (proj2 (Z.eqb_neq (pc + 1) (pc + 2)) ltac:(lia)).
      rewrite (proj2 (Z.eqb_eq (pc + 2) (pc + 2)) eq_refl). rewrite Hoff, zat_app_r by lia. by rewrite Z.sub_diag.
  - split_and!; try done. lia.
Qed.

Lemma replaceJump_spec c q v :
  bytes_ok c -> 0 <= q < zlen c ->
  let c' := replaceJump dests c q v in
  zlen c' = zlen c /\ bytes_ok c' /\ (forall i, 0 <= i -> i <> q -> get c' i = get c i) /\
  (get c' q = get c q \/ jump_repl (get c q) (get c' q) /\ is_Some (verifyJumpDest dests v)).
Proof.
  intros Hok Hq. cbn zeta. unfold replaceJump.
  assert (Hput : forall o, is_byte o -> jump_repl (get c q) o -> is_Some (verifyJumpDest dests v) ->
    zlen (put c q o) = zlen c /\ bytes_ok (put c q o) /\ (forall i, 0 <= i -> i <> q -> get (put c q o) i = get c i) /\
    (get (put c q o) q = get c q \/ jump_repl (get c q) (get (put c q o) q) /\ is_Some (verifyJumpDest dests v))).
  { intros o Ho Hr Hsome. split; [by rewrite put_length|]. split; [by apply put_ok|].
    split; [intros i Hi Hne; rewrite get_put by lia; destruct (Z.eqb_spec q i); [lia|done]|].
    right. split; [|done]. rewrite get_put by lia. by rewrite Z.eqb_refl. }
  destruct (Z.eqb_spec (get c q) (Instruction.code Instruction.JUMP)) as [Hj|Hj].
  - destruct (verifyJumpDest dests v) eqn:Hv; [|by split_and!; [..|left]].
    apply Hput; [unfold is_byte; cbn; lia|left; done|done].
  - destruct (Z.eqb_spec (get c q) (Instruction.code Instruction.JUMPI)) as [Hj'|Hj'].
    + destruct (verifyJumpDest dests v) eqn:Hv; [|by split_and!; [..|left]].
      apply Hput; [unfold is_byte; cbn; lia|right; done|done].
    + by split_and!; [..|left].
Qed.

Lemma push_val_ok p : uint_ok 256 (push_val p).
Proof. apply pushValue_ok, c1_ok. Qed.

(** What the loop computes as the value of the push is the push's value. *)
Lemma loop_val pc c pool :
  start pc -> pc < n -> pass_inv pc c pool -> isPush (get code pc) = true ->
  pushValue (Z.to_nat (nPush_of (get code pc) - 1)) c (pc + 2) (get c (pc + 1)) = push_val pc.
Proof.
  intros Hs Hn Hi Hp. destruct (len_push _ Hp) as [_ Hk]. unfold push_val.
  replace (Z.to_nat (nPush_of (get code pc))) with (S (Z.to_nat (nPush_of (get code pc) - 1))) by lia.
  cbn [pushValue]. change (Z.lor (wrap 256 (Z.shiftl 0 8)) (get c1 (pc + 1))) with (get c1 (pc + 1)).
  rewrite (pi_rest _ _ _ Hi) by lia. replace (pc + 1 + 1) with (pc + 2) by lia.
  apply pushValue_ext. intros j Hj. apply (pi_rest _ _ _ Hi). lia.
Qed.

Lemma pass_other pc c pool :
  start pc -> pc < n -> isPush (get code pc) = false -> pass_inv pc c pool -> pass_inv (pc + 1) c pool.
Proof.
  intros Hs Hn Hp Hi. destruct Hi as [Hlen Hok Hw Hpool Hdone Hhead Hrest]. constructor; try done; try lia.
  - intros p Hp' Hlt Hpn. pose proof (start_before pc p Hs Hp') as Hb. rewrite len_other in Hb by done.
    apply Hb in Hlt as [Hlt|Heq]; [by apply Hdone|]. rewrite Heq. unfold treated. by rewrite Hp.
  - left. apply Hrest. lia.
  - intros i Hi. apply Hrest. lia.
Qed.

Lemma pass_push pc c pool :
  start pc -> pc < n -> n <= 458752 -> isPush (get code pc) = true -> pass_inv pc c pool ->
  let k := nPush_of (get code pc) in
  let '(c', pool') := stash c pool pc k (push_val pc) in
  pass_inv (pc + k + 1) (replaceJump dests c' (pc + k + 1) (push_val pc)) pool'.
Proof.
  intros Hs Hn Hmax Hp Hi. cbn zeta. pose proof (stash_spec pc c pool (push_val pc) Hs Hn Hmax Hi Hp (push_val_ok pc)) as Hst.
  cbn zeta in Hst. destruct (stash _ _ _ _ _) as [c' pool']. destruct Hst as (Hlen & Hok & Hw & Hpool & Hmono & Hget & Hk5).
  destruct (len_push _ Hp) as [Hl Hk]. pose proof (start_nonneg pc Hs). pose proof (start_next pc Hs Hn) as Hnext.
  set (k := nPush_of (get code pc)) in *. set (q := pc + k + 1) in *. rewrite Hl in Hnext.
  replace (pc + (k + 1)) with q in Hnext by lia. pose proof (start_bound q Hnext).
  pose proof (replaceJump_spec c' q (push_val pc) Hok ltac:(lia)) as (Rlen & Rok & Rget & Rq).
  set (c'' := replaceJump dests c' q (push_val pc)) in *.
  assert (Hsame : forall i, pc < i -> get c i = get c1 i) by apply (pi_rest _ _ _ Hi).
  assert (Hcq : get c' q = get c1 q) by (rewrite Hget by lia; apply Hsame; lia).
  constructor.
  - lia.
  - done.
  - done.
  - lia.
  - intros p Hps Hlt Hpn. pose proof (start_before pc p Hs Hps) as Hb. rewrite Hl in Hb.
    assert (p < pc + (k + 1)) as Hlt' by lia. apply Hb in Hlt' as [Hlt'|Heq].
    + apply (treated_mono c c'' pool pool' p Hps (pi_done _ _ _ Hi p Hps Hlt' Hpn)); [|done].
      intros i Hi'. pose proof (start_gap p pc Hps Hs Hlt'). pose proof (start_nonneg p Hps).
      rewrite Rget by lia. apply Hget; lia.
    + rewrite Heq. unfold treated. rewrite Hp. fold k. destruct (Z.ltb_spec 5 k) as [H5|H5].
      * destruct Hk5 as (K1 & K2 & K3). unfold pool_index in *. rewrite !Rget by lia. done.
      * intros j Hj. rewrite Rget, Hk5 by lia.
        destruct (Z.eq_dec j pc) as [->|]; [|apply Hsame; lia].
        destruct (c1_push pc Hs Hn) as [_ ->]; [|done]. by apply (head_push pc c pool Hs Hn Hi).
  - destruct Rq as [Rq|[Rq Hv]]; [left; congruence|right]. rewrite Hcq in Rq. split; [done|].
    exists pc. rewrite Hl. repeat (split; [done || lia|]). done.
  - intros i Hi'. rewrite Rget by lia. rewrite Hget by lia. apply Hsame. lia.
Qed.

Lemma firstPass_spec fuel pc c pool :
  n <= 458752 -> start pc -> n - pc <= Z.of_nat fuel -> pass_inv pc c pool ->
  let '(c', pool') := firstPass fuel n dests pc c pool in
  exists pc', start pc' /\ n <= pc' /\ pass_inv pc' c' pool'.
Proof.
  intros Hmax. revert pc c pool. induction fuel as [|f IH]; intros pc c pool Hpc Hf Hi; cbn [firstPass].
  { exists pc. split; [done|]. split; [lia|done]. }
  destruct (Z.ltb_spec pc n) as [Hn|]; [|by exists pc].
  destruct (head_push pc c pool Hpc Hn Hi) as [H1 H2]. rewrite H1. pose proof (start_next pc Hpc Hn) as Hnext.
  destruct (isPush (get code pc)) eqn:Hp.
  - rewrite (H2 eq_refl), (loop_val pc c pool Hpc Hn Hi Hp). pose proof (pass_push pc c pool Hpc Hn Hmax Hp Hi) as Hs.
    cbn zeta in Hs. destruct (stash _ _ _ _ _) as [c' pool']. destruct (len_push _ Hp) as [Hl Hk].
    rewrite Hl, Z.add_assoc in Hnext. apply IH; [done|lia|done].
  - rewrite len_other in Hnext by done. apply IH; [done|lia|]. by apply pass_other.
Qed.

Lemma optimize_spec :
  n <= 458752 ->
  exists pc, start pc /\ n <= pc /\ pass_inv pc (p_code (optimize code)) (p_pool (optimize code)).
Proof.
  intros Hmax. unfold optimize.
  pose proof (firstPass_spec (List.length code) 0 c1 [] Hmax start_zero ltac:(lia)) as H.
  destruct (firstPass _ _ _ _ _ _) as [c pool]. cbn. apply H.
  constructor; try done.
  - apply c1_len.
  - apply c1_ok.
  - intros p Hp Hlt. pose proof (start_nonneg p Hp). lia.
  - by left.
Qed.

Lemma optimize_dests : p_jumpDests (optimize code) = dests.
Proof. unfold optimize. by destruct (firstPass _ _ _ _ _ _). Qed.

(** ** The prepared code is what the interpreter relies on *)

Section Bounded.
Hypothesis Hmax : n <= 458752.
Abbreviation c2 := (p_code (optimize code)).
Abbreviation pool2 := (p_pool (optimize code)).

Lemma start_end p q : start p -> start q -> n <= p -> n <= q -> p = q.
Proof.
  intros (j & <- & Hj) (k & <- & Hk) Hp Hq. destruct (Nat.lt_trichotomy j k) as [H|[->|H]]; [|done|].
  - specialize (Hk j H). lia.
  - specialize (Hj k H). lia.
Qed.

Lemma verify_dest v pc :
  0 <= v -> verifyJumpDest dests v = Some pc ->
  pc = v /\ start pc /\ pc < n /\ get code pc = Instruction.code Instruction.JUMPDEST.
Proof.
  intros Hv H. rewrite verifyJumpDest_spec in H; [|apply dests_sorted| |done].
  - case_decide as Hin; [|done]. injection H as <-. apply dests_spec in Hin. done.
  - intros x (Hx & Hn & _)%dests_spec. pose proof (start_nonneg x Hx). lia.
Qed.

Lemma scanned_plain op : is_byte op ->
  is_JUMPC (scanned op) = false /\ scanned op <> Instruction.code Instruction.PUSHC /\
  isPush (scanned op) = isPush op.
Proof.
  intros Hb. unfold scanned, synthetic, is_JUMPC, isPush. cbn [Instruction.code].
  destruct (_ || _ || _) eqn:Hs; cbn; lia.
Qed.

Lemma c1_plain p : start p -> is_JUMPC (get c1 p) = false /\ get c1 p <> Instruction.code Instruction.PUSHC.
Proof.
  intros Hp. destruct (Z.lt_ge_cases p n) as [Hn|Hn].
  - rewrite c1_start by done. destruct (scanned_plain (get code p) (get_byte code p Hcode)) as (? & ? & _). done.
  - rewrite c1_end by done. done.
Qed.

(** Where a push ends, and its value. *)
Lemma push_end p :
  start p -> p < n -> isPush (get code p) = true ->
  let k := nPush_of (get code p) in
  start (p + 1 + k) /\ p + 1 + k <= zlen c1 /\ 1 <= k <= 32 /\
  push_val p = be_val (ztake k (zdrop (p + 1) c1)).
Proof.
  intros Hp Hn Hi. cbn zeta. destruct (len_push _ Hi) as [Hl Hk]. pose proof (start_next p Hp Hn) as Hs. rewrite Hl in Hs.
  replace (p + (nPush_of (get code p) + 1)) with (p + 1 + nPush_of (get code p)) in Hs by lia.
  pose proof (start_bound _ Hs). pose proof c1_len. pose proof (start_nonneg p Hp).
  split; [done|]. split; [lia|]. split; [done|]. unfold push_val.
  rewrite pushValue_spec by (apply c1_ok || lia). by rewrite Z2Nat.id by lia.
Qed.

Lemma start_before_n P' p :
  (forall q, start q -> n <= q -> get P' q = 0) -> start p -> get P' p <> 0 -> p < n.
Proof. intros H Hp Hg. destruct (Z.lt_ge_cases p n) as [|Hn]; [done|]. by rewrite H in Hg. Qed.

Lemma isPush_nonzero op : isPush op = true -> op <> 0.
Proof. intros H ->. discriminate H. Qed.

Lemma scan_prepared : prepared_ok (scan code) start.
Proof.
  pose proof c1_len as Hlen. assert (Hpool : p_pool (scan code) = []) by (unfold scan; by destruct (buildJumpDests _ _ _ _ _)).
  assert (Hend : forall q, start q -> n <= q -> get c1 q = 0) by (intros; by apply c1_end).
  constructor.
  - split; [apply start_zero|apply c1_plain, start_zero].
  - split; [apply c1_ok|lia].
  - intros p Hp. pose proof (start_nonneg p Hp). pose proof (start_bound p Hp). lia.
  - intros v pc Hv H. destruct (verify_dest v pc Hv H) as (-> & Hs & Hn & Hg). split; [done|]. split; [done|].
    rewrite c1_start by done. rewrite Hg. done.
  - intros p Hp. cbn zeta. intros Hop Hpush _. pose proof (start_before_n c1 p Hend Hp Hop) as Hn.
    pose proof (start_next p Hp Hn) as Hs. destruct (c1_push p Hp Hn) as [Hc _].
    rewrite len_other in Hs by congruence. split; [done|]. by apply c1_plain.
  - intros p Hp. cbn zeta. intros Hpush. pose proof (start_before_n c1 p Hend Hp (isPush_nonzero _ Hpush)) as Hn.
    destruct (c1_push p Hp Hn) as [Hc1 Hc2]. rewrite Hc1 in Hpush. rewrite (Hc2 Hpush).
    destruct (push_end p Hp Hn Hpush) as (Hs & _). split; [done|]. destruct (c1_plain _ Hs) as [-> _]. done.
  - intros p Hp Hc. destruct (c1_plain p Hp). done.
Qed.

Lemma c2_facts :
  zlen c2 = n + 33 /\ bytes_ok c2 /\ Forall (uint_ok 256) pool2 /\
  (forall p, start p -> p < n -> treated c2 pool2 p) /\ (forall p, start p -> n <= p -> get c2 p = 0).
Proof.
  destruct (optimize_spec Hmax) as (pc & Hpc & Hn & Hi).
  split; [apply Hi|]. split; [apply Hi|]. split; [apply Hi|]. split.
  - intros p Hp Hpn. apply (pi_done _ _ _ Hi); [done|lia|done].
  - intros p Hp Hpn. rewrite (start_end p pc Hp Hpc Hpn Hn).
    destruct (pi_head _ _ _ Hi) as [->|[Hr _]]; [by apply c1_end|].
    rewrite (c1_end pc Hn) in Hr. destruct Hr as [[? _]|[? _]]; done.
Qed.

(** A pre-verified jump in the optimised code comes after its push. *)
Lemma c2_JUMPC q :
  start q -> is_JUMPC (get c2 q) = true ->
  exists p, start p /\ p < n /\ isPush (get code p) = true /\ q = p + len_of (get code p) /\
    is_Some (verifyJumpDest dests (push_val p)) /\ jump_repl (get c1 q) (get c2 q).
Proof.
  intros Hq Hj. destruct c2_facts as (_ & _ & _ & Ht & Hend).
  destruct (Z.lt_ge_cases q n) as [Hn|Hn]; [|by rewrite Hend in Hj].
  specialize (Ht q Hq Hn). unfold treated in Ht. destruct (isPush (get code q)) eqn:Hp.
  - destruct (_ <? _).
    + destruct Ht as (Hc & _). rewrite Hc in Hj. done.
    + destruct (len_push _ Hp). rewrite (Ht q) in Hj by lia. destruct (c1_plain q Hq) as [Hc _]. congruence.
  - destruct Ht as [Ht|[Hr (p & H1 & H2 & H3 & H4 & H5)]].
    + rewrite Ht in Hj. destruct (c1_plain q Hq) as [Hc _]. congruence.
    + by exists p.
Qed.

(** Two instructions that end at the same place are the same. *)
Lemma pred_unique p q :
  start p -> start q -> p + len_of (get code p) = q + len_of (get code q) -> p = q.
Proof.
  intros Hp Hq H. pose proof (len_range (get code p)). pose proof (len_range (get code q)).
  destruct (Z.lt_trichotomy p q) as [Hl|[|Hl]]; [|done|].
  - pose proof (start_gap p q Hp Hq Hl). lia.
  - pose proof (start_gap q p Hq Hp Hl). lia.
Qed.

Lemma fall_push p :
  start p -> p < n -> isPush (get code p) = true ->
  fall_ok (optimize code) start (p + 1 + nPush_of (get code p)) (push_val p).
Proof.
  intros Hp Hn Hi. destruct (push_end p Hp Hn Hi) as (Hs & _). split; [done|]. intros Hj.
  destruct (c2_JUMPC _ Hs Hj) as (p' & H1 & H2 & H3 & H4 & H5 & _). destruct (len_push _ Hi) as [Hl _].
  unfold valid_dest. rewrite optimize_dests.
  assert (p = p') as -> by (apply pred_unique; [done|done|lia]). done.
Qed.

Lemma c2_slice p :
  start p -> p < n -> isPush (get code p) = true -> nPush_of (get code p) <= 5 ->
  ztake (nPush_of (get code p)) (zdrop (p + 1) c2) = ztake (nPush_of (get code p)) (zdrop (p + 1) c1).
Proof.
  intros Hp Hn Hi Hk. destruct c2_facts as (Hlen & _ & _ & Ht & _). specialize (Ht p Hp Hn). unfold treated in Ht.
  rewrite Hi in Ht. destruct (Z.ltb_spec 5 (nPush_of (get code p))); [lia|].
  destruct (push_end p Hp Hn Hi) as (_ & Hle & Hk1 & _). pose proof c1_len. pose proof (start_nonneg p Hp).
  assert (Hgen : forall (m : nat) j, p + 1 <= j -> j + Z.of_nat m <= p + 1 + nPush_of (get code p) ->
    take m (zdrop j c2) = take m (zdrop j c1)).
  { induction m as [|m IH]; intros j Hj1 Hj2; [done|]. rewrite (zdrop_get c2 j), (zdrop_get c1 j) by lia. cbn [take]. rewrite Ht by lia.
    f_equal. apply IH; lia. }
  unfold ztake. apply Hgen; lia.
Qed.

Lemma optimize_prepared : prepared_ok (optimize code) start.
Proof.
  destruct c2_facts as (Hlen & Hok & Hw & Ht & Hend).
  constructor.
  - split; [apply start_zero|]. destruct (is_JUMPC (get c2 0)) eqn:Hj; [|done].
    destruct (c2_JUMPC 0 start_zero Hj) as (p & Hp & _ & _ & H0 & _). pose proof (start_nonneg p Hp).
    pose proof (len_range (get code p)). lia.
  - split; [done|lia].
  - intros p Hp. pose proof (start_nonneg p Hp). pose proof (start_bound p Hp). lia.
  - intros v pc Hv. rewrite optimize_dests. intros H. destruct (verify_dest v pc Hv H) as (-> & Hs & Hn & Hg).
    split; [done|]. split; [done|]. specialize (Ht v Hs Hn). unfold treated in Ht. rewrite Hg in Ht. cbn in Ht.
    assert (get c1 v = Instruction.code Instruction.JUMPDEST) as H1 by (rewrite c1_start, Hg by done; done).
    destruct Ht as [->|[Hr _]]; [done|]. rewrite H1 in Hr. destruct Hr as [[? _]|[? _]]; done.
  - intros p Hp. cbn zeta. intros Hop Hpush Hnc. pose proof (start_before_n c2 p Hend Hp Hop) as Hn.
    assert (isPush (get code p) = false) as Hi.
    { destruct (isPush (get code p)) eqn:Hi; [|done]. specialize (Ht p Hp Hn). unfold treated in Ht. rewrite Hi in Ht.
      destruct (_ <? _); [by destruct Ht as [? _]|]. destruct (len_push _ Hi). rewrite Ht in Hpush by lia.
      destruct (c1_push p Hp Hn). congruence. }
    pose proof (start_next p Hp Hn) as Hs. rewrite len_other in Hs by done. split; [done|].
    destruct (is_JUMPC (get c2 (p + 1))) eqn:Hj; [|done].
    destruct (c2_JUMPC _ Hs Hj) as (p' & H1 & H2 & H3 & H4 & _).
    assert (p = p') as -> by (apply pred_unique; [done|done|rewrite (len_other (get code p)) by done; lia]). congruence.
  - intros p Hp. cbn zeta. intros Hpush. pose proof (start_before_n c2 p Hend Hp (isPush_nonzero _ Hpush)) as Hn.
    specialize (Ht p Hp Hn). unfold treated in Ht. destruct (isPush (get code p)) eqn:Hi.
    + destruct (Z.ltb_spec 5 (nPush_of (get code p))).
      * destruct Ht as [Hc _]. rewrite Hc in Hpush. done.
      * destruct (len_push _ Hi). assert (get c2 p = get code p) as ->.
        { rewrite Ht by lia. by apply c1_push. }
        rewrite c2_slice by done. destruct (push_end p Hp Hn Hi) as (_ & _ & _ & <-). by apply fall_push.
    + destruct (c1_push p Hp Hn) as [Hc _]. destruct Ht as [Ht|[Hr _]]; [congruence|].
      destruct (jump_repl_push _ _ Hr). congruence.
  - intros p Hp Hc. pose proof (start_before_n c2 p Hend Hp ltac:(by rewrite Hc)) as Hn.
    specialize (Ht p Hp Hn). unfold treated in Ht. destruct (isPush (get code p)) eqn:Hi.
    + destruct (push_end p Hp Hn Hi) as (Hs & Hle & Hk & _). destruct (Z.ltb_spec 5 (nPush_of (get code p))).
      * destruct Ht as (_ & H3 & H4). pose proof c1_len. split; [lia|]. exists (push_val p). split; [done|].
        split; [apply push_val_ok|]. rewrite H3.
        replace (p + 3 + (nPush_of (get code p) - 2)) with (p + 1 + nPush_of (get code p)) by lia. by apply fall_push.
      * rewrite Ht in Hc by lia. by destruct (c1_plain p Hp).
    + destruct Ht as [Ht|[Hr _]]; [rewrite Ht in Hc; by destruct (c1_plain p Hp)|].
      rewrite Hc in Hr. destruct Hr as [[_ ?]|[_ ?]]; done.
Qed.

End Bounded.
End Code.
End VMEquiv.
