(* ===== verification/VMSim.v ===== *)
(** * VMSim: running the optimised code

    A lock-step simulation between running the code as [optimize] leaves it and
    running it as [scan] leaves it, without the second pass: the two runs agree on
    everything but the member [m_OP], which holds [PUSHC], [JUMPC] or [JUMPCI] in
    the one where it holds a push or a jump in the other. *)

From stdpp Require Import base list numbers option.
From Stdlib Require Import ZArith Lia.
From S2P Require Import Prelude.
From S2P Require Import Bytes.
From S2P Require Import Instruction.
From S2P Require Import VMOpt.
From S2P Require Import VM.
From S2P Require Import VMSafety.
From S2P Require Import VMEquiv.
Import CommonData FixedHash VMOpt VM VMSafety VMEquiv.

Module VMSim.
Section Sim.
Context {X : Type} {EX : ExtVMFace X} {EI : ExtInvariant X}.
Abbreviation VM_M A := (M (vm X) exn A).

(** ** Operations that do not look at [m_OP] *)

Definition op_blind {A} (m : VM_M A) : Prop :=
  forall s o, m (set_OP s o) = let '(r, s') := m s in (r, set_OP s' o).

Lemma blind_bind {A B} (m : VM_M A) (k : A -> VM_M B) :
  op_blind m -> (forall a, op_blind (k a)) -> op_blind (mbind m k).
Proof.
  intros Hm Hk s o. unfold mbind. rewrite Hm. destruct (m s) as [[a|e] s']; [apply Hk|done].
Qed.
Lemma blind_ret {A} (a : A) : op_blind (mret a : VM_M A).
Proof. done. Qed.
Lemma blind_throw {A} e : op_blind (mthrow e : VM_M A).
Proof. done. Qed.
Lemma blind_if {A} (b : bool) (m n : VM_M A) : op_blind m -> op_blind n -> op_blind (if b then m else n).
Proof. by destruct b. Qed.
Lemma blind_get {A} (f : vm X -> A) : (forall s o, f (set_OP s o) = f s) -> op_blind (mget f).
Proof. intros H s o. unfold mget. by rewrite H. Qed.
Lemma blind_put (f : vm X -> vm X) : (forall s o, f (set_OP s o) = set_OP (f s) o) -> op_blind (mput f).
Proof. intros H s o. unfold mput. by rewrite H. Qed.
Lemma blind_badstack {A} a b : op_blind (throwBadStack a b : VM_M A).
Proof. intros s o. unfold throwBadStack. cbn. by destruct (_ <? _). Qed.
Lemma blind_SP k : op_blind (SP k : VM_M Z).
Proof. intros s o. unfold SP. cbn. by destruct (zat _ _). Qed.
Lemma blind_SPP0 v : op_blind (set_SPP0 v : VM_M unit).
Proof. intros s o. unfold set_SPP0, stack_put. cbn. by destruct (_ && _). Qed.

Create HintDb blind discriminated.
#[local] Hint Resolve blind_ret blind_throw blind_badstack blind_SP blind_SPP0 : blind.
#[local] Hint Extern 1 (op_blind (mget _)) => apply blind_get; reflexivity : blind.
#[local] Hint Extern 1 (op_blind (mput _)) => apply blind_put; reflexivity : blind.
#[local] Hint Extern 2 (op_blind (mbind _ _)) => apply blind_bind; [|intros ?] : blind.
#[local] Hint Extern 2 (op_blind (if _ then _ else _)) => apply blind_if : blind.
Ltac blind := repeat (auto with blind; (apply blind_bind; [|intros ?]) || apply blind_if).

Lemma blind_updateIOGas : op_blind (updateIOGas : VM_M unit).
Proof. unfold updateIOGas. blind. Qed.
#[local] Hint Resolve blind_updateIOGas : blind.
Lemma blind_push_to v next : op_blind (push_to v next : VM_M flow).
Proof. unfold push_to, modify_PC. blind. Qed.
Lemma blind_JUMPC : op_blind (case_JUMPC : VM_M flow).
Proof. unfold case_JUMPC, modify_PC. blind. Qed.
Lemma blind_JUMPCI : op_blind (case_JUMPCI : VM_M flow).
Proof. unfold case_JUMPCI, inc_PC, modify_PC. blind. Qed.

(** ** An instruction, by its opcode *)

Variable E : Env.
Context {EL : ExtVMLaws X E}.

(** What [fetchInstruction] does once [m_OP] is set. *)
Definition fetch_rest (m : InstructionInfo) : VM_M unit :=
  exec! adjustStack (args m) (ret m) in
  do! g := toInt63 (tierGas E (gasPriceTier m)) in
  exec! set_run g in
  exec! mput (fun s => set_newMemSize s (zlen (m_mem s))) in
  set_copy 0.

Lemma blind_fetch_rest m : op_blind (fetch_rest m).
Proof. unfold fetch_rest, adjustStack, toInt63, set_run, set_copy. blind. Qed.

(** Dispatch, and the [++m_PC] of [NEXT]. *)
Definition act (P : prepared) (op : Z) : VM_M unit :=
  do! f := dispatch E P op in
  match f with
  | NEXT => inc_PC
  | CONTINUE | BREAK => mret tt
  end.

Lemma fetch_eq P s o :
  0 <= m_PC s < zlen (p_code P) ->
  let op := get (p_code P) (m_PC s) in
  fetchInstruction E P (set_OP s o) = let '(r, s') := fetch_rest (metric op) s in (r, set_OP s' op).
Proof.
  intros Hpc op. rewrite <- blind_fetch_rest. unfold fetchInstruction.
  erewrite mbind_Ok by reflexivity. by erewrite mbind_Ok by (apply code_at_ok; cbn; lia).
Qed.

Lemma instruction_eq P s o :
  0 <= m_PC s < zlen (p_code P) ->
  let op := get (p_code P) (m_PC s) in
  instruction E P (set_OP s o) =
  match fetch_rest (metric op) s with
  | (Ok _, s') => act P op (set_OP s' op)
  | (Err e, s') => (Err e, set_OP s' op)
  end.
Proof.
  intros Hpc op. pose proof (fetch_eq P s o Hpc) as Hf. cbn zeta in Hf. fold op in Hf. unfold instruction.
  destruct (fetch_rest (metric op) s) as [[[]|e] s'].
  - by rewrite (mbind_Ok _ _ _ _ _ Hf).
  - by rewrite (mbind_Err _ _ _ _ _ Hf).
Qed.

(** The fetch of instructions with the same numbers is the same. *)
Lemma fetch_rest_ext m m' :
  args m = args m' -> ret m = ret m' -> gasPriceTier m = gasPriceTier m' -> fetch_rest m = fetch_rest m'.
Proof. intros H1 H2 H3. unfold fetch_rest. by rewrite H1, H2, H3. Qed.

(** ** The two preparations of the same code *)

Hypothesis HE : env_ok E.
Hypothesis Hmax : zlen (code E) <= 458752.
Abbreviation P1 := (scan (code E)).
Abbreviation P2 := (optimize (code E)).
Abbreviation n := (zlen (code E)).
Abbreviation starts := (start (code E)).

Lemma Hcode : bytes_ok (code E).
Proof. apply (env_code _ HE). Qed.

(** The opcodes at the same place. *)
Inductive opcodes (p op1 op2 : Z) : Prop :=
| same_op : op1 = op2 -> isPush op2 = false -> op2 <> Instruction.code Instruction.PUSHC -> opcodes p op1 op2
| same_push : p < n -> isPush (get (code E) p) = true -> nPush_of (get (code E) p) <= 5 ->
    op1 = get (code E) p -> op2 = get (code E) p -> opcodes p op1 op2
| pooled_push : p < n -> isPush (get (code E) p) = true -> 5 < nPush_of (get (code E) p) ->
    op1 = get (code E) p -> op2 = Instruction.code Instruction.PUSHC -> opcodes p op1 op2
| verified_jump : jump_repl op1 op2 -> opcodes p op1 op2.

Lemma opcodes_at p : starts p -> opcodes p (get (p_code P1) p) (get (p_code P2) p).
Proof.
  intros Hp. destruct (c2_facts _ Hcode Hmax) as (_ & _ & _ & Ht & Hend).
  destruct (Z.lt_ge_cases p n) as [Hn|Hn].
  2: { apply same_op; rewrite ?Hend, ?(c1_end _ Hcode) by done; done. }
  specialize (Ht p Hp Hn). unfold treated in Ht. destruct (c1_push _ Hcode p Hp Hn) as [H1 H2].
  destruct (isPush (get (code E) p)) eqn:Hi.
  - specialize (H2 eq_refl). destruct (Z.ltb_spec 5 (nPush_of (get (code E) p))).
    + destruct Ht as [Hc _]. by apply pooled_push.
    + destruct (len_push _ Hi). apply same_push; try done. by rewrite Ht by lia.
  - destruct Ht as [Ht|[Hr _]]; [|by apply verified_jump].
    rewrite Ht. by apply same_op; [| |apply (c1_plain _ Hcode)].
Qed.

(** *** Pushes *)

Lemma dispatch_push P op :
  isPush op = true ->
  dispatch (X := X) E P op = if op =? Instruction.code Instruction.PUSH1 then case_PUSH1 P else case_PUSHn P.
Proof.
  intros Hi. assert (0 <= op < 256) as Hop by (unfold isPush in Hi; cbn in Hi; lia).
  pose proof (Z_forall_below (fun op => negb (isPush op) || match zat Instruction.jumpTable op with
      | Some l => op =? Instruction.code l | None => false end) 256
    ltac:(vm_compute; reflexivity) op ltac:(lia)) as H. cbn beta in H. rewrite Hi in H. cbn [negb orb] in H.
  unfold dispatch. destruct (zat Instruction.jumpTable op) as [l|]; [|done].
  apply Z.eqb_eq in H. subst op. destruct l; (discriminate Hi || reflexivity).
Qed.

(** What a push does in the code as it was given. *)
Definition push_at (p : Z) : VM_M flow := push_to (push_val (code E) p) (p + 1 + nPush_of (get (code E) p)).

(** The machine about to push, with [op] fetched at [p]. *)
Definition pushing (x : vm X) (p op : Z) : Prop :=
  m_PC x = p /\ m_OP x = op /\ 0 <= m_SPP x < zlen (m_stack x).

(** A push whose data is what it was in the code. *)
Lemma push_same P p x :
  starts p -> p < n -> isPush (get (code E) p) = true -> zlen (p_code P) = zlen (p_code P1) -> bytes_ok (p_code P) ->
  ztake (nPush_of (get (code E) p)) (zdrop (p + 1) (p_code P)) =
    ztake (nPush_of (get (code E) p)) (zdrop (p + 1) (p_code P1)) ->
  pushing x p (get (code E) p) -> dispatch E P (get (code E) p) x = push_at p x.
Proof.
  intros Hp Hn Hi Hlen Hb Hdata (Hxp & Hxo & Hxs). rewrite dispatch_push by done.
  destruct (push_end _ Hcode p Hp Hn Hi) as (Hs & Hle & Hk & Hv). pose proof (start_nonneg _ p Hp).
  pose proof (c1_len _ Hcode). unfold push_at. rewrite Hv, <- Hdata. set (k := nPush_of (get (code E) p)) in *.
  assert (Hval : be_val (ztake k (zdrop (p + 1) (p_code P))) = pushValue (Z.to_nat k) (p_code P) (p + 1) 0).
  { rewrite pushValue_spec by (done || lia). by rewrite Z2Nat.id by lia. }
  rewrite Hval. destruct (Z.eqb_spec (get (code E) p) (Instruction.code Instruction.PUSH1)) as [He|He].
  - assert (k = 1) as -> by (unfold k, nPush_of; rewrite He; lia).
    rewrite case_PUSH1_eq by (rewrite ?Hxp; lia). by rewrite Hxp.
  - rewrite (case_PUSHn_eq P x (Z.to_nat k)) by (rewrite ?Hxp, ?Hxo, ?Z2Nat.id by lia; unfold k, nPush_of in *; lia).
    by rewrite Hxp, Z2Nat.id by lia.
Qed.

Lemma push_1 p x :
  starts p -> p < n -> isPush (get (code E) p) = true -> pushing x p (get (code E) p) ->
  dispatch E P1 (get (code E) p) x = push_at p x.
Proof. intros. apply push_same; try done. apply (c1_ok _ Hcode). Qed.

Lemma push_2 p x :
  starts p -> p < n -> isPush (get (code E) p) = true -> nPush_of (get (code E) p) <= 5 ->
  pushing x p (get (code E) p) -> dispatch E P2 (get (code E) p) x = push_at p x.
Proof.
  intros. destruct (c2_facts _ Hcode Hmax) as (Hl & Hb & _). pose proof (c1_len _ Hcode).
  apply push_same; try done; [lia|]. by apply (c2_slice _ Hcode Hmax).
Qed.

(** The constant of a [PUSHC] is the value of the push it replaced. *)
Lemma push_pool p x :
  starts p -> p < n -> isPush (get (code E) p) = true -> 5 < nPush_of (get (code E) p) ->
  pushing x p (Instruction.code Instruction.PUSHC) ->
  dispatch E P2 (Instruction.code Instruction.PUSHC) x = push_at p x.
Proof.
  intros Hp Hn Hi H5 (Hxp & Hxo & Hxs). destruct (c2_facts _ Hcode Hmax) as (Hl & Hb & _ & Ht & _).
  destruct (push_end _ Hcode p Hp Hn Hi) as (Hs & Hle & Hk & Hv). pose proof (start_nonneg _ p Hp).
  pose proof (c1_len _ Hcode). specialize (Ht p Hp Hn). unfold treated in Ht. rewrite Hi in Ht.
  destruct (Z.ltb_spec 5 (nPush_of (get (code E) p))); [|lia]. destruct Ht as (_ & Hrem & Hpool).
  change (dispatch E P2 (Instruction.code Instruction.PUSHC) x) with (case_PUSHC P2 x).
  rewrite (case_PUSHC_eq P2 x (push_val (code E) p)) by (rewrite ?Hxp; done || lia).
  rewrite Hxp, Hrem. unfold push_at. f_equal. lia.
Qed.

(** *** Everything else *)

Lemma dispatch_other op :
  0 <= op < 256 -> isPush op = false -> op <> Instruction.code Instruction.PUSHC ->
  dispatch (X := X) E P1 op = dispatch E P2 op.
Proof.
  intros Hop Hi Hc. destruct (jumpTable_ok (X := X) E P1 op Hop) as (l & Hl & Hcase).
  destruct (handled (X := X) E P1 l) eqn:Hh.
  2: { assert (handled (X := X) E P2 l = false) as Hh2 by (destruct l; done).
       by rewrite (dispatch_bad E P1 op l Hl Hh), (dispatch_bad E P2 op l Hl Hh2). }
  destruct Hcase as [->|]; [|congruence]. unfold dispatch. rewrite Hl.
  destruct l; try reflexivity; try discriminate Hi; try (by destruct Hc).
  all: cbn [dispatch_calls dispatch_ordinary dispatch_env dispatch_stack].
  all: unfold case_JUMP, case_JUMPI, verifyJump; by rewrite optimize_dests.
Qed.

(** A jump whose destination was verified when the code was prepared. *)
Section Jump.
Variable x : vm X.
Hypothesis Hdest : forall v, zat (m_stack x) (m_SP x) = Some v ->
  verifyJumpDest (p_jumpDests P1) v = Some (wrap 64 v).

Lemma top_verified {A} (k : Z -> VM_M A) g :
  (do! dest := SP 0 in do! pc := verifyJump P1 dest in k pc) (set_io_gas x g) =
  (do! dest := SP 0 in k (wrap 64 dest)) (set_io_gas x g).
Proof.
  unfold mbind, SP. cbn. rewrite Z.add_0_r. destruct (zat (m_stack x) (m_SP x)) as [v|]; [|done].
  unfold verifyJump. by rewrite (Hdest v eq_refl).
Qed.

Lemma jump_verified : case_JUMP P1 x = case_JUMPC x.
Proof.
  unfold case_JUMP, case_JUMPC. destruct (updateIOGas_shape x) as [Hu|[g Hu]]; [by rewrite !(mbind_Err _ _ _ _ _ Hu)|].
  rewrite !(mbind_Ok _ _ _ _ _ Hu). apply (top_verified (fun pc => exec! modify_PC (fun _ => pc) in mret CONTINUE)).
Qed.

Lemma jumpi_verified : case_JUMPI P1 x = case_JUMPCI x.
Proof.
  unfold case_JUMPI, case_JUMPCI. destruct (updateIOGas_shape x) as [Hu|[g Hu]]; [by rewrite !(mbind_Err _ _ _ _ _ Hu)|].
  rewrite !(mbind_Ok _ _ _ _ _ Hu). pose proof (top_verified (fun pc => modify_PC (fun _ => pc)) g) as Ht.
  unfold mbind in *. unfold SP at 1 3. cbn [m_stack m_SP set_io_gas]. destruct (zat _ (m_SP x + 1)); [|done].
  destruct (negb _); [by rewrite Ht|done].
Qed.
End Jump.

(** ** The simulation *)

(** The two machines, and the two results of a step. *)
Definition sim (s1 s2 : vm X) : Prop :=
  s1 = s2 \/ m_bounce s2 = interpretCases /\ exists o, s1 = set_OP s2 o.
Definition sim_result (a b : result exn unit * vm X) : Prop :=
  fst a = fst b /\
  match fst b with Ok _ => sim (snd a) (snd b) | Err _ => exists o, snd a = set_OP (snd b) o end.

Lemma set_OP_eta (s : vm X) : set_OP s (m_OP s) = s.
Proof. by destruct s. Qed.

Lemma sim_result_refl a : sim_result a a.
Proof. split; [done|]. destruct a as [[|] s]; [by left|]. exists (m_OP s). by rewrite set_OP_eta. Qed.

(** The two instructions do the same, whatever is in [m_OP]. *)
Lemma act_sim op1 op2 (m : VM_M flow) s :
  op_blind m ->
  (forall f s', m s = (Ok f, s') -> f = CONTINUE /\ m_bounce s' = interpretCases) ->
  dispatch E P1 op1 (set_OP s op1) = m (set_OP s op1) ->
  dispatch E P2 op2 (set_OP s op2) = m (set_OP s op2) ->
  sim_result (act P1 op1 (set_OP s op1)) (act P2 op2 (set_OP s op2)).
Proof.
  intros Hm Hc H1 H2. unfold act, mbind. rewrite H1, H2, !Hm. destruct (m s) as [[f|e] s'].
  - destruct (Hc f s' eq_refl) as [-> Hb]. split; [done|]. right. split; [done|]. by exists op1.
  - split; [done|]. by exists op1.
Qed.

Lemma metric_push op :
  isPush op = true ->
  let m := metric op in args m = 0 /\ ret m = 1 /\ gasPriceTier m = gasPriceTier (metric (Instruction.code Instruction.PUSHC)).
Proof.
  intros Hi. assert (0 <= op < 256) as Hop by (unfold isPush in Hi; cbn in Hi; lia).
  pose proof (Z_forall_below (fun op => negb (isPush op) || ((args (metric op) =? 0) && (ret (metric op) =? 1) &&
      match gasPriceTier (metric op) with Tier.VeryLow => true | _ => false end)) 256
    ltac:(vm_compute; reflexivity) op ltac:(lia)) as H. cbn beta in H. rewrite Hi in H. cbn [negb orb] in H.
  cbn zeta. change (gasPriceTier (metric (Instruction.code Instruction.PUSHC))) with Tier.VeryLow.
  destruct (gasPriceTier (metric op)); split_and!; done || lia.
Qed.

Lemma act_same P P' op s :
  dispatch E P op s = dispatch E P' op s -> act P op s = act P' op s.
Proof. intros H. unfold act, mbind. by rewrite H. Qed.

Lemma push_continues p (s : vm X) f s' :
  m_bounce s = interpretCases -> push_at p s = (Ok f, s') -> f = CONTINUE /\ m_bounce s' = interpretCases.
Proof.
  intros Hb. unfold push_at, push_to, mbind. destruct (updateIOGas_shape s) as [->|[g ->]]; [done|].
  unfold set_SPP0, stack_put. cbn. destruct (_ && _); [|done]. intros [= <- <-]. done.
Qed.

Lemma jumpc_continues (s : vm X) f s' :
  m_bounce s = interpretCases -> case_JUMPC s = (Ok f, s') -> f = CONTINUE /\ m_bounce s' = interpretCases.
Proof.
  intros Hb. unfold case_JUMPC, mbind. destruct (updateIOGas_shape s) as [->|[g ->]]; [done|].
  unfold SP. cbn. destruct (zat _ _); [|done]. intros [= <- <-]. done.
Qed.

Lemma jumpci_continues (s : vm X) f s' :
  m_bounce s = interpretCases -> case_JUMPCI s = (Ok f, s') -> f = CONTINUE /\ m_bounce s' = interpretCases.
Proof.
  intros Hb. unfold case_JUMPCI, mbind. destruct (updateIOGas_shape s) as [->|[g ->]]; [done|].
  unfold SP. cbn. destruct (zat _ _) as [c|]; [|done]. destruct (negb _).
  - destruct (zat _ _); [|done]. intros [= <- <-]. done.
  - intros [= <- <-]. done.
Qed.

(** What the fetch leaves, for the optimised code. *)
Lemma fetched_2 (s s' : vm X) :
  machine_ok P2 starts s -> m_bounce s = interpretCases ->
  let op := get (p_code P2) (m_PC s) in
  fetch_rest (metric op) s = (Ok tt, s') -> fetched E s (set_OP s' op) op.
Proof.
  intros Hm Hb op Hf. unfold machine_ok in Hm. rewrite Hb in Hm. destruct Hm as [Hi [Hpc _]].
  pose proof (optimize_prepared _ Hcode Hmax) as HP.
  pose proof (fetch_ok E P2 starts HE HP s Hi Hpc) as H.
  pose proof (fetch_eq P2 s (m_OP s) (start_range _ _ HP _ Hpc)) as He. cbn zeta in He. rewrite set_OP_eta in He.
  fold op in H, He. rewrite Hf in He. rewrite He in H. exact H.
Qed.

Lemma fetched_room (s s' : vm X) op :
  inv s -> fetched E s (set_OP s' op) op -> args (metric op) = 0 -> ret (metric op) = 1 ->
  forall o, pushing (set_OP s' o) (m_PC s) o.
Proof.
  intros Hi (Hst & _ & Hspp & _ & _ & Hpc & _) Ha Hr o. pose proof (inv_spp _ Hi).
  pose proof (inv_spp _ (st_inv _ _ _ _ _ _ _ _ Hst)). pose proof (inv_stack _ (st_inv _ _ _ _ _ _ _ _ Hst)) as Hl.
  cbn in *. split; [done|]. split; [done|]. cbn. rewrite Hl. lia.
Qed.

(** The destination of a pre-verified jump. *)
Lemma fetched_dest (s s' : vm X) op :
  inv s -> fetched E s (set_OP s' op) op ->
  (forall v, zat (m_stack s) (m_SPP s) = Some v -> valid_dest P2 v) ->
  forall o v, zat (m_stack (set_OP s' o)) (m_SP (set_OP s' o)) = Some v ->
  verifyJumpDest (p_jumpDests P1) v = Some (wrap 64 v).
Proof.
  intros Hi (Hst & Hsp & _) Hd o v. destruct Hst as [_ _ _ _ _ _ Hk]. cbn in *. rewrite Hk, Hsp. intros Hv.
  rewrite <- optimize_dests. apply (valid_dest_wrap P2 starts (optimize_prepared _ Hcode Hmax)); [|by apply Hd].
  unfold zat in Hv. destruct (_ <? _); [done|]. exact (proj1 (Forall_lookup _ _) (inv_words _ Hi) _ _ Hv).
Qed.

Lemma act_instructions (s s' : vm X) :
  machine_ok P2 starts s -> m_bounce s = interpretCases ->
  let op1 := get (p_code P1) (m_PC s) in let op2 := get (p_code P2) (m_PC s) in
  fetch_rest (metric op2) s = (Ok tt, s') ->
  sim_result (act P1 op1 (set_OP s' op1)) (act P2 op2 (set_OP s' op2)).
Proof.
  intros Hm Hb op1 op2 Hf. pose proof (fetched_2 s s' Hm Hb Hf) as Hfe. fold op2 in Hfe.
  unfold machine_ok in Hm. rewrite Hb in Hm. destruct Hm as [Hi [Hpc Hj]]. fold op2 in Hj.
  assert (m_bounce s' = interpretCases) as Hb' by (destruct Hfe as (_ & _ & _ & _ & _ & _ & H & _); cbn in H; congruence).
  assert (0 <= op2 < 256) as Hop2 by (apply get_byte, (c2_facts _ Hcode Hmax)).
  pose proof (fetched_room s s' op2 Hi Hfe) as Hroom. pose proof (fetched_dest s s' op2 Hi Hfe) as Hdest.
  pose proof (opcodes_at _ Hpc) as Hops. fold op1 op2 in Hops. clearbody op1 op2.
  destruct Hops as [-> Hp Hc|Hn Hp Hk -> ->|Hn Hp Hk -> ->|[[-> ->]|[-> ->]]].
  - rewrite (act_same P1 P2); [apply sim_result_refl|]. by rewrite dispatch_other.
  - destruct (metric_push _ Hp) as (Ha & Hr & _).
    rewrite (act_same P1 P2); [apply sim_result_refl|]. by rewrite push_1, push_2 by auto.
  - apply (act_sim _ _ (push_at (m_PC s))); [apply blind_push_to|by intros; eapply push_continues| |].
    + apply push_1; auto.
    + apply push_pool; auto.
  - apply (act_sim _ _ case_JUMPC); [apply blind_JUMPC|by intros; eapply jumpc_continues| |done].
    apply jump_verified. by apply Hdest, Hj.
  - apply (act_sim _ _ case_JUMPCI); [apply blind_JUMPCI|by intros; eapply jumpci_continues| |done].
    apply jumpi_verified. by apply Hdest, Hj.
Qed.

(** The two opcodes at the same place are fetched alike. *)
Lemma fetch_alike p :
  starts p -> fetch_rest (metric (get (p_code P1) p)) = fetch_rest (metric (get (p_code P2) p)).
Proof.
  intros Hp. destruct (opcodes_at p Hp) as [-> _ _|_ _ _ -> ->|_ Hi _ -> ->|[[-> ->]|[-> ->]]]; try done.
  destruct (metric_push _ Hi) as (Ha & Hr & Ht). by apply fetch_rest_ext.
Qed.

Lemma instruction_sim (s : vm X) o :
  machine_ok P2 starts s -> m_bounce s = interpretCases ->
  sim_result (instruction E P1 (set_OP s o)) (instruction E P2 s).
Proof.
  intros Hm Hb. assert (starts (m_PC s)) as Hpc by (unfold machine_ok in Hm; rewrite Hb in Hm; apply Hm).
  rewrite <- (set_OP_eta s) at 2.
  rewrite !instruction_eq by (apply (start_range _ _ (optimize_prepared _ Hcode Hmax) _ Hpc)
    || apply (start_range _ _ (scan_prepared _ Hcode Hmax) _ Hpc)).
  rewrite (fetch_alike _ Hpc). destruct (fetch_rest _ s) as [[[]|e] s'] eqn:Hf.
  - by apply act_instructions with (s := s).
  - split; [done|]. by eexists.
Qed.

Lemma step_sim s1 s2 :
  machine_ok P2 starts s2 -> sim s1 s2 -> sim_result (step E P1 s1) (step E P2 s2).
Proof.
  intros Hm Hs. unfold step. rewrite !(mbind_Ok (mget m_bounce) _ _ _ _ eq_refl).
  assert (m_bounce s1 = m_bounce s2) as -> by (destruct Hs as [->|(_ & o & ->)]; done).
  destruct (m_bounce s2) eqn:Hb.
  - destruct Hs as [->|(_ & o & ->)]; [|by apply instruction_sim].
    rewrite <- (set_OP_eta s2) at 1. by apply instruction_sim.
  - destruct Hs as [->|[? _]]; [apply sim_result_refl|congruence].
  - destruct Hs as [->|[? _]]; [apply sim_result_refl|congruence].
  - destruct Hs as [->|[? _]]; [apply sim_result_refl|congruence].
Qed.

Lemma run_sim fuel s1 s2 :
  machine_ok P2 starts s2 -> sim s1 s2 -> finish <$> run E P1 fuel s1 = finish <$> run E P2 fuel s2.
Proof.
  revert s1 s2. induction fuel as [|fuel IH]; intros s1 s2 Hm Hs.
  all: assert (m_bounce s1 = m_bounce s2) as Hb by (destruct Hs as [->|(_ & o & ->)]; done).
  all: assert (m_bounce s2 = null -> s1 = s2) as Hn by (destruct Hs as [->|[? _]]; [done|congruence]).
  all: cbn [run]; rewrite Hb.
  { destruct (m_bounce s2); try done. by rewrite Hn. }
  pose proof (step_sim s1 s2 Hm Hs) as [Hr Hs'].
  pose proof (step_ok E P2 starts HE (optimize_prepared _ Hcode Hmax) s2 Hm) as Hok.
  destruct (step E P1 s1) as [r1 t1], (step E P2 s2) as [r2 t2]. cbn in Hr, Hs'. subst r2.
  assert (Hrest : finish <$> match r1 with Ok _ => run E P1 fuel t1 | Err e => Some (Err e, t1) end =
    finish <$> match r1 with Ok _ => run E P2 fuel t2 | Err e => Some (Err e, t2) end).
  { destruct r1; [apply IH; [apply Hok|done]|]. destruct Hs' as [o ->]. done. }
  destruct (m_bounce s2); try exact Hrest. by rewrite Hn.
Qed.

End Sim.
End VMSim.
