(* ===== verification/VMArith.v ===== *)
(** * VMArith: the arithmetic of the interpreter

    The functions that [VM] applies to stack items, against what the instructions
    are meant to compute: two's-complement arithmetic modulo [2^256], powers by
    repeated squaring, sign extension, bytes of a word and words of call data. *)

From stdpp Require Import base list numbers option.
From Stdlib Require Import ZArith Lia.
From S2P Require Import Prelude.
From S2P Require Import Bytes.
From S2P Require Import VMOpt.
From S2P Require Import VM.
Import CommonData FixedHash VMOpt VM.

Module VMArith.

(** ** Exponentiation *)

Lemma wrap_mul_l w a b : wrap w (wrap w a * b) = wrap w (a * b).
Proof. unfold wrap. by rewrite Zmult_mod_idemp_l. Qed.
Lemma wrap_mul_r w a b : wrap w (a * wrap w b) = wrap w (a * b).
Proof. unfold wrap. by rewrite Zmult_mod_idemp_r. Qed.
Lemma wrap_pow w a n : 0 <= n -> wrap w (wrap w a ^ n) = wrap w (a ^ n).
Proof.
  intros Hn. revert n Hn. apply natlike_ind; [done|]. intros n Hn IH.
  rewrite !Z.pow_succ_r by done. rewrite wrap_mul_l, <- wrap_mul_r, IH. by rewrite wrap_mul_r.
Qed.

(** Halving the exponent and squaring the base. *)
Lemma pow_half b e : 0 <= e -> b ^ e = (b * b) ^ Z.shiftr e 1 * (if Z.odd e then b else 1).
Proof.
  intros He. rewrite <- Z.pow_2_r, <- Z.pow_mul_r by (try apply Z.shiftr_nonneg; lia).
  rewrite Z.shiftr_div_pow2 by lia. change (2 ^ 1) with 2.
  pose proof (Z.div_mod e 2 ltac:(lia)) as Hd. rewrite Zmod_odd in Hd.
  rewrite Hd at 1. destruct (Z.odd e).
  - rewrite Z.pow_add_r by (try apply Z.mul_nonneg_nonneg; try apply Z.div_pos; lia). by rewrite Z.pow_1_r.
  - by rewrite Z.add_0_r, Z.mul_1_r.
Qed.

Lemma exp256_loop_spec fuel b e r :
  0 <= e < 2 ^ Z.of_nat fuel -> uint_ok 256 r -> exp256_loop fuel b e r = wrap 256 (r * b ^ e).
Proof.
  revert b e r. induction fuel as [|fuel IH]; intros b e r He Hr; cbn [exp256_loop].
  - assert (e = 0) as -> by (cbn in He; lia). rewrite Z.pow_0_r, Z.mul_1_r. by rewrite wrap_small.
  - destruct (Z.eqb_spec e 0) as [->|Hne]; [by rewrite Z.pow_0_r, Z.mul_1_r, wrap_small|].
    rewrite IH.
    + rewrite <- wrap_mul_r, wrap_pow, wrap_mul_r by (apply Z.shiftr_nonneg; lia).
      rewrite (pow_half b e) by lia. destruct (Z.odd e); [rewrite wrap_mul_l|]; f_equal; lia.
    + rewrite Z.shiftr_div_pow2 by lia. rewrite Nat2Z.inj_succ, Z.pow_succ_r in He by lia.
      split; [apply Z.div_pos; lia|apply Z.div_lt_upper_bound; lia].
    + destruct (Z.odd e); [apply wrap_range; lia|done].
Qed.

(** [EXP] is exponentiation modulo [2^256]: the 256 rounds of squaring that a
    256-bit exponent allows are enough. *)
Theorem exp256_pow b e :
  uint_ok 256 e -> exp256 b e = b ^ e mod 2 ^ 256.
Proof.
  intros He. unfold exp256. rewrite exp256_loop_spec; [by rewrite Z.mul_1_l|exact He|unfold uint_ok; lia].
Qed.

Lemma exp256_pow_witness : uint_ok 256 300 /\ exp256 3 300 = 3 ^ 300 mod 2 ^ 256.
Proof. split; [unfold uint_ok; lia|]. apply (exp256_pow 3 300). unfold uint_ok; lia. Defined.

(** [EXP] is charged by the number of significant bytes of the exponent: that
    is what [32 - firstBitSet / 8] counts, zero for a zero exponent. *)
Theorem exp_bytes e :
  uint_ok 256 e -> 32 - firstBitSet (of_arith 32 e) / 8 = bytesRequired e.
Proof.
  intros He. assert (be_val (of_arith 32 e) = e) as Hv.
  { unfold of_arith. rewrite be_val_toBigEndian by apply He. apply Z.mod_small. exact He. }
  rewrite firstBitSet_spec by apply toBigEndian_ok. rewrite Hv. unfold of_arith. rewrite toBigEndian_length.
  destruct (Z.eqb_spec e 0) as [->|Hne]; [vm_compute; reflexivity|]. change (8 * Z.of_nat 32) with 256.
  destruct He as [He1 He2]. rewrite bytesRequired_spec by lia. destruct (Z.eqb_spec e 0); [lia|].
  pose proof (Z.div_mod (Z.log2 e) 8 ltac:(lia)). pose proof (Z.mod_pos_bound (Z.log2 e) 8 ltac:(lia)).
  enough ((256 - 1 - Z.log2 e) / 8 = 31 - Z.log2 e / 8) by lia.
  symmetry. apply Z.div_unique with (7 - Z.log2 e mod 8); lia.
Qed.

Lemma exp_bytes_witness : 32 - firstBitSet (of_arith 32 0x10000) / 8 = bytesRequired 0x10000.
Proof. apply (exp_bytes 0x10000). unfold uint_ok. lia. Defined.

(** ** Signed arithmetic *)

(** The signed value of a [w]-bit number. *)
Definition signed (w v : Z) : Z := if Z.testbit v (w - 1) then v - 2 ^ w else v.

Lemma testbit_top w v : 1 <= w -> uint_ok w v -> Z.testbit v (w - 1) = (2 ^ (w - 1) <=? v).
Proof.
  intros Hw [H1 H2]. assert (2 ^ w = 2 * 2 ^ (w - 1)) as Hp by (rewrite <- Z.pow_succ_r by lia; f_equal; lia).
  assert (0 < 2 ^ (w - 1)) by (apply Z.pow_pos_nonneg; lia).
  rewrite Z.testbit_odd, Z.shiftr_div_pow2 by lia.
  destruct (Z.leb_spec (2 ^ (w - 1)) v).
  - replace (v / 2 ^ (w - 1)) with 1; [done|]. apply Z.div_unique with (v - 2 ^ (w - 1)); lia.
  - by rewrite Z.div_small by lia.
Qed.

Lemma signed_range w v : 1 <= w -> uint_ok w v -> - 2 ^ (w - 1) <= signed w v < 2 ^ (w - 1).
Proof.
  intros Hw Hv. unfold signed. rewrite testbit_top by done. destruct Hv as [H1 H2].
  assert (2 ^ w = 2 * 2 ^ (w - 1)) as Hp by (rewrite <- Z.pow_succ_r by lia; f_equal; lia).
  destruct (Z.leb_spec (2 ^ (w - 1)) v); lia.
Qed.

Lemma wrap_signed w v : 1 <= w -> uint_ok w v -> wrap w (signed w v) = v.
Proof.
  intros Hw Hv. unfold signed. destruct (Z.testbit _ _); [|by apply wrap_small].
  unfold wrap. rewrite <- (Z.mod_add (v - 2 ^ w) 1) by (apply Z.pow_nonzero; lia).
  replace (v - 2 ^ w + 1 * 2 ^ w) with v by lia. by apply wrap_small.
Qed.

Lemma u2s_signed a : u2s a = signed 256 a.
Proof. unfold u2s, signed. change (256 - 1) with 255. destruct (Z.testbit a 255); lia. Qed.

Lemma s2u_wrap v : s2u v = wrap 256 v.
Proof.
  unfold s2u. destruct (_ <=? _); [done|]. unfold wrap. rewrite <- (Z.mod_add v 1) by lia. f_equal. lia.
Qed.

(** [SDIV] and [SMOD] are the quotient and the remainder, rounded towards
    zero, of the operands as two's-complement numbers, brought back to 256 bits
    ([-2^255] divided by [-1] included), and zero for a zero divisor. The remainder has the sign of
    the dividend and is smaller than the divisor. *)
Theorem signed_division a b :
  uint_ok 256 a -> uint_ok 256 b ->
  op_SDIV a b = (if b =? 0 then 0 else wrap 256 (Z.quot (signed 256 a) (signed 256 b))) /\
  (b = 0 -> op_SMOD a b = 0) /\
  (b <> 0 -> signed 256 (op_SMOD a b) = Z.rem (signed 256 a) (signed 256 b)).
Proof.
  intros Ha Hb. unfold op_SDIV, op_SMOD, divWorkaround, modWorkaround. rewrite !u2s_signed, !s2u_wrap.
  split; [by destruct (b =? 0)|]. split; [by intros ->|]. intros Hnz. destruct (Z.eqb_spec b 0); [done|]. cbn [negb].
  pose proof (signed_range 256 a ltac:(lia) Ha) as Hra. pose proof (signed_range 256 b ltac:(lia) Hb) as Hrb.
  assert (signed 256 b <> 0) as Hb0.
  { intros H0. apply Hnz. rewrite <- (wrap_signed 256 b) by (lia || done). by rewrite H0. }
  pose proof (Z.rem_bound_abs (signed 256 a) (signed 256 b) Hb0) as Hr.
  set (r := Z.rem (signed 256 a) (signed 256 b)) in *. change (256 - 1) with 255 in *.
  assert (- 2 ^ 255 < r < 2 ^ 255) as Hr' by lia.
  assert (Hu : uint_ok 256 (wrap 256 r)) by (apply wrap_range; lia).
  unfold signed. rewrite testbit_top by (lia || done). unfold wrap in *. change (256 - 1) with 255.
  destruct (Z.lt_ge_cases r 0).
  - assert (r mod 2 ^ 256 = r + 2 ^ 256) as -> by (rewrite <- (Z.mod_add r 1) by lia; rewrite Z.mod_small; lia).
    destruct (Z.leb_spec (2 ^ 255) (r + 2 ^ 256)); lia.
  - rewrite Z.mod_small by lia. destruct (Z.leb_spec (2 ^ 255) r); lia.
Qed.

Lemma signed_division_witness :
  op_SDIV (2 ^ 255) (2 ^ 256 - 1) = 2 ^ 255 /\ signed 256 (op_SMOD (2 ^ 256 - 7) 3) = -1.
Proof.
  split.
  - destruct (signed_division (2 ^ 255) (2 ^ 256 - 1)) as [H _]; [unfold uint_ok; lia..|].
    rewrite H. vm_compute. reflexivity.
  - destruct (signed_division (2 ^ 256 - 7) 3) as (_ & _ & H); [unfold uint_ok; lia..|].
    rewrite H by discriminate. vm_compute. reflexivity.
Defined.

(** ** Sign extension *)

Lemma wrap_bits w v i : 0 <= i -> 0 <= w -> Z.testbit (wrap w v) i = (i <? w) && Z.testbit v i.
Proof.
  intros Hi Hw. unfold wrap. destruct (Z.ltb_spec i w); [by rewrite Z.mod_pow2_bits_low by lia|].
  by rewrite Z.mod_pow2_bits_high by lia.
Qed.

Lemma ones_pow w : 0 <= w -> 2 ^ w - 1 = Z.ones w.
Proof. intros. by rewrite Z.ones_equiv, Z.sub_1_r. Qed.

Lemma ones_bits w i : 0 <= i -> 0 <= w -> Z.testbit (Z.ones w) i = (i <? w).
Proof.
  intros Hi Hw. destruct (Z.ltb_spec i w); [by apply Z.ones_spec_low|by apply Z.ones_spec_high].
Qed.

(** Subtracting [2^w] from a [w]-bit number sets all the bits above. *)
Lemma sub_pow_bits w x i : 0 <= i -> 0 <= w ->
  Z.testbit (wrap w x - 2 ^ w) i = (i <? w) && Z.testbit x i || (w <=? i).
Proof.
  intros Hi Hw. assert (wrap w x - 2 ^ w = wrap w x + Z.lnot (Z.ones w)) as ->.
  { rewrite <- ones_pow by done. unfold Z.lnot. lia. }
  assert (Hl : Z.land (wrap w x) (Z.lnot (Z.ones w)) = 0).
  { apply Z.bits_inj'. intros j Hj. rewrite Z.land_spec, Z.lnot_spec, wrap_bits, ones_bits, Z.bits_0 by lia.
    by destruct (j <? w), (Z.testbit x j). }
  rewrite Z.add_nocarry_lxor, Z.lxor_lor, Z.lor_spec, Z.lnot_spec, wrap_bits, ones_bits by (done || lia).
  by rewrite Z.leb_antisym.
Qed.

(** [SIGNEXTEND] reads the low [a + 1] bytes of its operand as a
    two's-complement number and extends its sign to 256 bits; it changes nothing
    from 31 on. *)
Theorem SIGNEXTEND_spec a v :
  0 <= a -> uint_ok 256 v ->
  op_SIGNEXTEND a v = if a <? 31 then wrap 256 (signed (8 * (a + 1)) (wrap (8 * (a + 1)) v)) else v.
Proof.
  intros Ha Hv. unfold op_SIGNEXTEND. destruct (Z.ltb_spec a 31); [|done]. cbn zeta.
  rewrite (wrap_small 32 a) by (unfold uint_ok; lia). set (t := a * 8 + 7).
  assert (0 <= t < 255) as Ht by (unfold t; lia). replace (8 * (a + 1)) with (t + 1) by (unfold t; lia).
  rewrite Z.shiftl_1_l, (wrap_small 256 (2 ^ t)) by (split; [lia|apply Z.pow_lt_mono_r; lia]).
  assert (uint_ok 256 (Z.ones t)) as Hones.
  { rewrite <- ones_pow by lia. pose proof (Z.pow_pos_nonneg 2 t ltac:(lia) ltac:(lia)).
    pose proof (Z.pow_lt_mono_r 2 t 256 ltac:(lia) ltac:(lia) ltac:(lia)). unfold uint_ok. lia. }
  rewrite ones_pow, (wrap_small 256 (Z.ones t)) by (lia || done).
  unfold signed. replace (t + 1 - 1) with t by lia. rewrite (wrap_bits (t + 1)) by lia.
  replace (t <? t + 1) with true by lia. cbn [andb].
  assert (Hhi : forall i, 256 <= i -> Z.testbit v i = false).
  { intros i Hi. rewrite <- (wrap_small 256 v Hv). rewrite wrap_bits by lia. by replace (i <? 256) with false by lia. }
  destruct (Z.testbit v t) eqn:Hb; apply Z.bits_inj'; intros i Hi.
  - rewrite wrap_bits, sub_pow_bits, Z.lor_spec, wrap_bits, Z.lnot_spec, ones_bits by lia.
    destruct (Z.ltb_spec i 256), (Z.ltb_spec i t), (Z.ltb_spec i (t + 1)), (Z.leb_spec (t + 1) i); try lia; cbn;
      rewrite ?orb_true_r, ?orb_false_r, ?Hhi by lia; try done. by replace i with t by lia.
  - rewrite wrap_bits, wrap_bits, Z.land_spec, ones_bits by lia.
    destruct (Z.ltb_spec i 256), (Z.ltb_spec i t), (Z.ltb_spec i (t + 1)); try lia; cbn;
      rewrite ?andb_true_r, ?andb_false_r; try done. by replace i with t by lia.
Qed.

Lemma SIGNEXTEND_spec_witness : op_SIGNEXTEND 0 0x1ff = 2 ^ 256 - 1 /\ op_SIGNEXTEND 1 0x1ff = 0x1ff.
Proof.
  split.
  - rewrite (SIGNEXTEND_spec 0 0x1ff); [vm_compute; reflexivity|lia|unfold uint_ok; lia].
  - rewrite (SIGNEXTEND_spec 1 0x1ff); [vm_compute; reflexivity|lia|unfold uint_ok; lia].
Defined.

(** ** Bytes of a word *)

Lemma toBigEndian_zat n v i :
  0 <= i < Z.of_nat n -> zat (toBigEndian n v) i = Some (v / 256 ^ (Z.of_nat n - 1 - i) mod 256).
Proof.
  revert v. induction n as [|n IH]; intros v Hi; [lia|]. rewrite toBigEndian_S.
  pose proof (toBigEndian_length n (v / 256)) as Hl. unfold zat in *. destruct (Z.ltb_spec i 0); [lia|].
  destruct (Z.eq_dec i (Z.of_nat n)) as [->|].
  - rewrite lookup_app_r by lia. replace (_ - _)%nat with 0%nat by lia. cbn [lookup list_lookup].
    replace (Z.of_nat (S n) - 1 - Z.of_nat n) with 0 by lia. by rewrite Z.pow_0_r, Z.div_1_r.
  - rewrite lookup_app_l by lia. specialize (IH (v / 256) ltac:(lia)). destruct (Z.ltb_spec i 0); [lia|]. rewrite IH.
    rewrite Z.div_div by (try apply Z.pow_pos_nonneg; lia). rewrite <- Z.pow_succ_r by lia.
    do 4 f_equal. lia.
Qed.

(** [BYTE] picks the byte of that index of the operand as 32 bytes, most
    significant first, and zero from 32 on. *)
Theorem BYTE_spec i v :
  0 <= i -> uint_ok 256 v -> op_BYTE i v = get (of_arith 32 v) i.
Proof.
  intros Hi Hv. unfold op_BYTE, get, of_arith. destruct (Z.ltb_spec i 32).
  - rewrite toBigEndian_zat by lia. cbn [default]. change 0xff with (Z.ones 8).
    rewrite Z.land_ones, wrap_small by (unfold uint_ok; lia). rewrite Z.shiftr_div_pow2 by lia.
    change 256 with (2 ^ 8) at 1. rewrite <- Z.pow_mul_r by lia. do 2 f_equal. 
  - unfold zat. destruct (Z.ltb_spec i 0); [done|].
    by rewrite lookup_ge_None_2 by (rewrite toBigEndian_length; lia).
Qed.

Lemma BYTE_spec_witness : op_BYTE 30 0x1234 = 0x12 /\ op_BYTE 32 0x1234 = 0.
Proof.
  split.
  - rewrite (BYTE_spec 30 0x1234); [vm_compute; reflexivity|lia|unfold uint_ok; lia].
  - rewrite (BYTE_spec 32 0x1234); [vm_compute; reflexivity|lia|unfold uint_ok; lia].
Defined.

(** ** Words of call data *)

(** 32 bytes of [d] from [i] on, as if zeros followed it. *)
Definition padded (d : bytes) (i : Z) : bytes := take 32 (zdrop i d ++ replicate 32 0).

Lemma padded_length d i : List.length (padded d i) = 32%nat.
Proof. unfold padded. rewrite length_take, length_app, length_replicate. lia. Qed.

Lemma zeros_ok k : bytes_ok (replicate k 0).
Proof. apply Forall_replicate. unfold is_byte. lia. Qed.

Lemma padded_ok d i : bytes_ok d -> bytes_ok (padded d i).
Proof.
  intros Hd. unfold padded. apply Forall_take, Forall_app. split; [by apply Forall_drop|apply zeros_ok].
Qed.

(** The byte-by-byte copy of the last branch. *)
Lemma calldata_copy d i :
  0 <= i < zlen d ->
  map (fun j => if i + Z.of_nat j <? zlen d then get d (i + Z.of_nat j) else 0) (seq 0 32) = padded d i.
Proof.
  intros Hi. apply list_eq. intros k.
  rewrite list_lookup_fmap. unfold padded. destruct (Nat.lt_ge_cases k 32).
  2: { rewrite !lookup_ge_None_2; [done| |rewrite length_seq; lia]. rewrite length_take. lia. }
  rewrite lookup_seq_lt, lookup_take_lt by lia. cbn [fmap option_fmap option_map Nat.add].
  unfold get, zat, zdrop. destruct (Z.ltb_spec (i + Z.of_nat k) (zlen d)), (Z.ltb_spec (i + Z.of_nat k) 0); try lia.
  - rewrite lookup_app_l by (rewrite length_drop; lia). rewrite lookup_drop.
    replace (Z.to_nat (i + Z.of_nat k)) with (Z.to_nat i + k)%nat by lia.
    destruct (lookup_lt_is_Some_2 d (Z.to_nat i + k)) as [x Hx]; [lia|]. by rewrite Hx.
  - rewrite lookup_app_r by (rewrite length_drop; lia). rewrite lookup_replicate_2; [done|]. rewrite length_drop. lia.
Qed.

(** [CALLDATALOAD] gives the 32 bytes of call data at the offset as a number,
    with zeros after the end of the data, on each of its three branches. *)
Theorem calldata_word_spec d i :
  bytes_ok d -> uint_ok 256 i -> calldata_word d i = be_val (padded d i).
Proof.
  intros Hd [Hi _]. unfold calldata_word. destruct (Z.ltb_spec (i + 31) (zlen d)) as [H|H].
  - rewrite to_arith_be_val; [| |auto with vlib].
    + unfold padded. rewrite take_app_le; [done|]. unfold zdrop. rewrite length_drop. lia.
    + unfold ztake, zdrop. rewrite length_take, length_drop. lia.
  - destruct (Z.leb_spec (zlen d) i).
    + unfold padded, zdrop. rewrite drop_ge by lia. change (0 = be_val (replicate 32 0)). by rewrite be_val_zeros.
    + rewrite calldata_copy by lia. apply to_arith_be_val; [apply padded_length|by apply padded_ok].
Qed.

Lemma calldata_word_spec_witness : calldata_word [1; 2; 3] 1 = 0x0203 * 2 ^ 240.
Proof.
  rewrite (calldata_word_spec [1; 2; 3] 1); [vm_compute; reflexivity| |unfold uint_ok; lia].
  repeat constructor; unfold is_byte; lia.
Defined.

End VMArith.
