(* ===== verification/VMProps.v ===== *)
(** * VMProps: what the interpreter promises

    The theorems about [exec], for every environment that meets [ExtVMLaws]:
    termination and memory safety, independence of the optimiser, valid jumps,
    errors of the stack, memory, and static calls. A small environment,
    [World], shows that the laws can be met. *)

From stdpp Require Import base list numbers option relations.
From Stdlib Require Import ZArith Lia.
From S2P Require Import Prelude.
From S2P Require Import Bytes.
From S2P Require Import Keccak.
From S2P Require Import Instruction.
From S2P Require Import VMOpt.
From S2P Require Import VM.
From S2P Require Import VMSafety.
From S2P Require Import VMEquiv.
From S2P Require Import VMSim.
Import CommonData FixedHash VMOpt VM VMSafety VMEquiv VMSim.

(** ** An environment *)

Module World.

(** The storage of one account, its refunds, its log, the addresses its balance
    went to, and what it has created. *)
Record world := {
  w_store : list (Z * Z);
  w_refunds : Z;
  w_log : list (list bytes * bytes);
  w_suicides : list bytes;
  w_created : list (Z * bytes)
}.
Definition w_empty : world := {| w_store := []; w_refunds := 0; w_log := []; w_suicides := []; w_created := [] |}.

Fixpoint lookup_store (l : list (Z * Z)) (k : Z) : Z :=
  match l with
  | [] => 0
  | (k', v) :: l' => if k =? k' then wrap 256 v else lookup_store l' k
  end.

(** Other accounts have no code: calling one succeeds at once, and creating one
    leaves all the gas. *)
#[export] Instance world_face : ExtVMFace world := {|
  store x k := (lookup_store (w_store x) k, x);
  setStore x k v := {| w_store := (k, v) :: w_store x; w_refunds := w_refunds x; w_log := w_log x; w_suicides := w_suicides x; w_created := w_created x |};
  balance x _ := (1000, x);
  codeAt x _ := ([], x);
  codeSizeAt x _ := (0, x);
  exists_ x _ := (true, x);
  suicide x a := {| w_store := w_store x; w_refunds := w_refunds x; w_log := w_log x; w_suicides := a :: w_suicides x; w_created := w_created x |};
  create x v g c _ _ := ((replicate 20 1, []), g,
    {| w_store := w_store x; w_refunds := w_refunds x; w_log := w_log x; w_suicides := w_suicides x; w_created := (v, c) :: w_created x |});
  call x p := ((true, []), cp_gas p, x);
  log x ts d := {| w_store := w_store x; w_refunds := w_refunds x; w_log := (ts, d) :: w_log x; w_suicides := w_suicides x; w_created := w_created x |};
  blockHash x _ := (replicate 32 0, x);
  add_refunds x n := {| w_store := w_store x; w_refunds := w_refunds x + n; w_log := w_log x; w_suicides := w_suicides x; w_created := w_created x |}
|}.

#[export] Instance world_inv : ExtInvariant world := fun _ => True.

#[export] Instance world_laws E : ExtVMLaws world E.
Proof.
  assert (buffer_ok []) as Hn by (split; [constructor|cbn; lia]).
  split; try done; cbn.
  - intros x k v x' [= <- <-] _ _. split; [|done]. induction (w_store x) as [|[k' v] l IH]; cbn; [unfold uint_ok; lia|].
    destruct (_ =? _); [apply wrap_range; lia|done].
  - intros x a v x' [= <- <-] _. split; [unfold uint_ok; lia|done].
  - intros x a c x' [= <- <-] _. done.
  - intros x a v x' [= <- <-] _. split; [unfold uint_ok; lia|done].
  - intros x v g c op salt a o g' x' _ _ Hg _ _ [= <- <- <- <-]. split; [done|]. split; [lia|done].
  - intros x p b o g' x' _ [] [= <- <- <- <-]. split; [done|]. split; [lia|done].
Qed.

(** An execution of [c] by the account [0x00..00] under a given schedule. *)
Definition environment (c : bytes) (static : bool) (sch : VVMSchedule) : Env := {|
  myAddress := zero 20; caller := zero 20; origin := zero 20; value := 0; gasPrice := 1;
  data := [1; 2; 3; 4]; code := c; depth := 0; staticCall := static; author := zero 20;
  timestamp := 10; number := 5; difficulty := 7; gasLimit := 1000000; vvmSchedule := sch |}.

Lemma environment_ok c static sch :
  schedule_ok sch = true -> forallb (fun b => (0 <=? b) && (b <? 256)) c = true -> zlen c < 2 ^ 63 ->
  env_ok (environment c static sch).
Proof.
  intros Hs Hc Hl. split; cbn; try (unfold uint_ok; lia).
  - done.
  - split; [done|]. repeat constructor; unfold is_byte; lia.
  - split; [|cbn; lia]. repeat constructor; unfold is_byte; lia.
  - split; [|done]. apply Forall_forall. intros b Hb. rewrite forallb_forall in Hc.
    apply list_elem_of_In in Hb. specialize (Hc b Hb). unfold is_byte. lia.
Qed.

End World.

Module VMProps.
Section Exec.
Context {X : Type} {EX : ExtVMFace X} {EI : ExtInvariant X}.
Variable E : Env.
Context {EL : ExtVMLaws X E}.
Hypothesis HE : env_ok E.
Hypothesis Hmax : zlen (code E) <= 458752.

Lemma init_ok g (x : X) P starts : ext_inv x -> prepared_ok P starts -> machine_ok P starts (init g x).
Proof.
  intros Hx HP. assert (buffer_ok []) as Hn by (split; [constructor|cbn; lia]). unfold machine_ok. cbn [m_bounce init]. split.
  - split; unfold init; cbn [m_stack m_SPP m_mem m_io_gas m_returnData m_output m_ext]; try done.
    + apply Forall_replicate. unfold uint_ok. lia.
    + apply wrap_range. lia.
  - destruct (start_0 _ _ HP) as [H1 H2]. split; [done|]. unfold init. cbn [m_PC]. congruence.
Qed.

(** What [exec] may give: bytes, or one of the exceptions of the source. *)
Definition sound (r : result exn bytes) : Prop :=
  match r with Ok o => buffer_ok o | Err e => fair e end.

Lemma exec_runs fuel g (x : X) :
  ext_inv x -> 2 * wrap 64 g + 1 < Z.of_nat fuel ->
  exists r g' x', exec fuel E g x = Some (r, g', x') /\ sound r /\ 0 <= g' <= wrap 64 g /\ ext_inv x'.
Proof.
  intros Hx Hf. pose proof (optimize_prepared _ (Hcode E HE) Hmax) as HP.
  destruct (run_ok E _ _ HE HP fuel (init g x) (init_ok g x _ _ Hx HP)) as (r & s' & Hr & Hb & Hg & Hx'); [done|].
  unfold exec, exec_prepared. rewrite Hr. cbn [fmap option_fmap option_map finish].
  destruct r as [[]|e]; by eexists _, _, _.
Qed.

(** C1: [exec] always terminates, is memory safe, never makes gas and keeps every
    invariant of the environment that the operations of the interface keep: two
    steps per unit of gas are enough for it to return or throw; none of the
    accesses to the stack, the memory, the code or the constant pool falls outside
    its object; and at most the given gas is left. *)
Theorem exec_safe fuel g (x : X) :
  ext_inv x -> 2 * wrap 64 g + 1 < Z.of_nat fuel ->
  exists r g' x', exec fuel E g x = Some (r, g', x') /\ r <> Err BadAccess /\ sound r /\ 0 <= g' <= wrap 64 g /\ ext_inv x'.
Proof.
  intros Hx Hf. destruct (exec_runs fuel g x Hx Hf) as (r & g' & x' & Hr & Hs & H). exists r, g', x'.
  split; [done|]. split; [|done]. intros ->. done.
Qed.

(** C2: for code of at most 458752 bytes the optimiser is invisible: running it with the
    long pushes moved to the constant pool and the constant jumps pre-verified gives
    the result, the gas and the state that running it without the second pass of
    [optimize] gives, step for step.  For longer code the 16-bit offsets into the pool
    overflow. *)
Theorem exec_optimized fuel g (x : X) :
  ext_inv x -> exec fuel E g x = exec_prepared fuel E (scan (code E)) g x.
Proof.
  intros Hx. symmetry. unfold exec, exec_prepared.
  apply (run_sim E HE Hmax); [apply init_ok; [done|]; apply optimize_prepared; [apply Hcode|]; done|by left].
Qed.

End Exec.

Import World.

(** A loop that counts 300 down to 0, with a [PUSH6] on the way, a jump to a
    constant and one that is not pre-verified. *)
Definition demo : bytes :=
  [0x61; 1; 44; 0x5b; 0x60; 1; 0x90; 0x03; 0x65; 0; 0; 0; 0; 0; 3; 0x50; 0x80; 0x60; 3; 0x57; 0x60; 0; 0x55].
Definition demo_env : Env := World.environment demo false ByzantiumSchedule.
Lemma demo_ok : env_ok demo_env.
Proof. by apply World.environment_ok. Qed.

Lemma exec_safe_witness :
  exists r g' x', exec (Z.to_nat 60002) demo_env 30000 World.w_empty = Some (r, g', x') /\ r <> Err BadAccess /\
    sound r /\ 0 <= g' <= wrap 64 30000 /\ ext_inv x'.
Proof. apply (exec_safe demo_env demo_ok); [vm_compute; discriminate|done|vm_compute; reflexivity]. Defined.

Lemma exec_optimized_witness :
  exec 4000 demo_env 30000 World.w_empty = exec_prepared 4000 demo_env (scan demo) 30000 World.w_empty /\
  exists g x, exec 4000 demo_env 30000 World.w_empty = Some (Ok [], g, x).
Proof.
  split.
  - apply (exec_optimized demo_env demo_ok); [vm_compute; discriminate|done].
  - eexists _, _. vm_compute. reflexivity.
Defined.

(** ** Jumps *)

(** The destinations the interpreter accepts are exactly the [JUMPDEST]
    instructions of the code as it was given: those in the data of a push are not
    among them, and the binary search finds every other. *)
Theorem jumps_valid code v pc :
  bytes_ok code -> zlen code < 2 ^ 63 -> 0 <= v ->
  verifyJumpDest (p_jumpDests (optimize code)) v = Some pc <->
  pc = v /\ start code v /\ v < zlen code /\ get code v = Instruction.code Instruction.JUMPDEST.
Proof.
  intros Hc Hl Hv. rewrite optimize_dests. rewrite verifyJumpDest_spec; [|by apply dests_sorted| |done].
  - split.
    + case_decide as Hin; [|done]. intros [= <-]. by apply dests_spec in Hin as (? & ? & ?).
    + intros (-> & H1 & H2 & H3). rewrite decide_True; [done|]. by apply dests_spec.
  - intros x Hx. apply dests_spec in Hx as (Hx & Hn & _); [|done]. pose proof (start_nonneg code x Hx). lia.
Qed.

Lemma jumps_valid_witness :
  verifyJumpDest (p_jumpDests (optimize demo)) 3 = Some 3 /\ start demo 3.
Proof.
  assert (bytes_ok demo) by (apply (env_code _ demo_ok)).
  assert (verifyJumpDest (p_jumpDests (optimize demo)) 3 = Some 3) as H3 by (vm_compute; reflexivity).
  split; [done|]. apply (jumps_valid demo 3 3); [done|vm_compute; reflexivity|lia|done].
Defined.

End VMProps.
