(* ===== verification/VMStatic.v ===== *)
(** * VMStatic: static calls

    An execution with [staticCall] set changes the state of the environment only
    through the calls it makes, which are static themselves. *)

From stdpp Require Import base list numbers option relations.
From Stdlib Require Import ZArith Lia.
From S2P Require Import Prelude.
From S2P Require Import Bytes.
From S2P Require Import Instruction.
From S2P Require Import VMOpt.
From S2P Require Import VM.
From S2P Require Import VMProps.
Import VMOpt VM.

Module VMStatic.
Section Static.
Context {X : Type} {EX : ExtVMFace X}.
Variable E : Env.
Variable P : prepared.
Abbreviation VM_M A := (M (vm X) exn A).

(** ** Operations that only read the environment, or make static calls *)

(** What a static execution may do to the environment: read, and make static
    calls. *)
Inductive static_step (x : X) : X -> Prop :=
| st_store k : static_step x (snd (store x k))
| st_balance a : static_step x (snd (balance x a))
| st_codeAt a : static_step x (snd (codeAt x a))
| st_codeSizeAt a : static_step x (snd (codeSizeAt x a))
| st_exists a : static_step x (snd (exists_ x a))
| st_blockHash n : static_step x (snd (blockHash x n))
| st_call p : cp_staticCall p = true -> static_step x (snd (call x p)).

(** Only such steps are made, and no creation is pending. *)
Definition still (s s' : vm X) : Prop :=
  rtc static_step (m_ext s) (m_ext s') /\ (m_bounce s <> caseCreate -> m_bounce s' <> caseCreate).

Definition quiet {A} (m : VM_M A) : Prop := forall s, still s (snd (m s)).

Lemma still_trans s1 s2 s3 : still s1 s2 -> still s2 s3 -> still s1 s3.
Proof. intros [H1 H2] [H3 H4]. split; [by etrans|auto]. Qed.

Lemma quiet_bind {A B} (m : VM_M A) (k : A -> VM_M B) :
  quiet m -> (forall a, quiet (k a)) -> quiet (mbind m k).
Proof.
  intros Hm Hk s. specialize (Hm s). unfold mbind. destruct (m s) as [[a|e] s']; [|done].
  eapply still_trans; [exact Hm|apply Hk].
Qed.
Lemma quiet_ret {A} (a : A) : quiet (mret a : VM_M A).
Proof. by split. Qed.
Lemma quiet_throw {A} e : quiet (mthrow e : VM_M A).
Proof. by split. Qed.
Lemma quiet_get {A} (f : vm X -> A) : quiet (mget f).
Proof. by split. Qed.
Lemma quiet_if {A} (b : bool) (m n : VM_M A) : quiet m -> quiet n -> quiet (if b then m else n).
Proof. by destruct b. Qed.
Lemma quiet_put (f : vm X -> vm X) : (forall s, m_ext (f s) = m_ext s /\ m_bounce (f s) = m_bounce s) -> quiet (mput f).
Proof. intros H s. destruct (H s) as [H1 H2]. unfold mput, still. cbn. by rewrite H1, H2. Qed.
Lemma quiet_ext {A} (f : X -> A * X) : (forall x, static_step x (snd (f x))) -> quiet (ext f).
Proof. intros H s. specialize (H (m_ext s)). unfold ext. destruct (f (m_ext s)). split; [by apply rtc_once|done]. Qed.
Lemma quiet_bounce b : b <> caseCreate -> quiet (bounce_to b).
Proof. by split. Qed.
Lemma quiet_bad {A} a b : quiet (throwBadStack a b : VM_M A).
Proof. intros s. unfold throwBadStack. by destruct (_ <? _). Qed.
Lemma quiet_SP k : quiet (SP k : VM_M Z).
Proof. intros s. unfold SP. by destruct (zat _ _). Qed.
Lemma quiet_stack_put i v : quiet (stack_put i v : VM_M unit).
Proof. intros s. unfold stack_put. by destruct (_ && _). Qed.
Lemma quiet_SPP0 v : quiet (set_SPP0 v : VM_M unit).
Proof. intros s. apply quiet_stack_put. Qed.
Lemma quiet_SP_at k v : quiet (set_SP_at k v : VM_M unit).
Proof. intros s. apply quiet_stack_put. Qed.
Lemma quiet_code i : quiet (code_at P i : VM_M Z).
Proof. unfold code_at. by destruct (zat _ _). Qed.
Lemma quiet_pool i : quiet (pool_at P i : VM_M Z).
Proof. unfold pool_at. by destruct (zat _ _). Qed.
Lemma quiet_verify v : quiet (verifyJump P v : VM_M Z).
Proof. unfold verifyJump. by destruct (verifyJumpDest _ _). Qed.
Lemma quiet_read off n : quiet (mem_read off n : VM_M bytes).
Proof. intros s. unfold mem_read. destruct (_ =? _); [done|]. by destruct (_ && _). Qed.
Lemma quiet_write off bs : quiet (mem_write off bs : VM_M unit).
Proof. intros s. unfold mem_write. destruct (_ =? _); [done|]. by destruct (_ && _). Qed.

Create HintDb quiet discriminated.
#[local] Hint Resolve quiet_ret quiet_throw quiet_get quiet_bad quiet_SP quiet_SPP0 quiet_SP_at quiet_code quiet_pool
  quiet_verify quiet_read quiet_write : quiet.
#[local] Hint Extern 1 (quiet (mput _)) => apply quiet_put; intros ?; split; reflexivity : quiet.
#[local] Hint Extern 1 (quiet (ext _)) => apply quiet_ext; intros ?; by constructor : quiet.
#[local] Hint Extern 1 (quiet (bounce_to _)) => apply quiet_bounce; discriminate : quiet.
Ltac quiet := repeat (auto with quiet; (apply quiet_bind; [|intros ?]) || apply quiet_if).

Lemma quiet_toInt63 v : quiet (toInt63 v : VM_M Z).
Proof. unfold toInt63. quiet. Qed.
Lemma quiet_throwIf b e : quiet (throwIf b e : VM_M unit).
Proof. unfold throwIf. quiet. Qed.
Lemma quiet_PC f : quiet (modify_PC f : VM_M unit).
Proof. unfold modify_PC. quiet. Qed.
Lemma quiet_inc : quiet (inc_PC : VM_M unit).
Proof. apply quiet_PC. Qed.
Lemma quiet_set_run g : quiet (set_run g : VM_M unit).
Proof. unfold set_run. quiet. Qed.
Lemma quiet_add_run g : quiet (add_run g : VM_M unit).
Proof. unfold add_run. quiet. Qed.
Lemma quiet_set_copy g : quiet (set_copy g : VM_M unit).
Proof. unfold set_copy. quiet. Qed.
#[local] Hint Resolve quiet_toInt63 quiet_throwIf quiet_PC quiet_inc quiet_set_run quiet_add_run quiet_set_copy : quiet.
Lemma quiet_memNeed a b : quiet (memNeed a b : VM_M Z).
Proof. apply quiet_toInt63. Qed.
Lemma quiet_gasForMem a : quiet (gasForMem E a : VM_M Z).
Proof. apply quiet_toInt63. Qed.
Lemma quiet_updateIOGas : quiet (updateIOGas : VM_M unit).
Proof. unfold updateIOGas. quiet. Qed.
#[local] Hint Resolve quiet_memNeed quiet_gasForMem quiet_updateIOGas : quiet.
Lemma quiet_updateMem a : quiet (updateMem E a : VM_M unit).
Proof.
  unfold updateMem, updateGas. quiet. apply quiet_put. intros s. by destruct (_ <? _).
Qed.
#[local] Hint Resolve quiet_updateMem : quiet.
Lemma quiet_fetch : quiet (fetchInstruction E P : VM_M unit).
Proof. unfold fetchInstruction, adjustStack. quiet. Qed.
Lemma quiet_copyData d b : quiet (copyDataToMemory d b : VM_M unit).
Proof. unfold copyDataToMemory. quiet. Qed.
Lemma quiet_push_loop n v : quiet (push_loop P n v : VM_M unit).
Proof. revert v. induction n as [|n IH]; intros v; cbn [push_loop]; quiet. Qed.
#[local] Hint Resolve quiet_copyData quiet_push_loop : quiet.

(** ** Instructions *)

Hypothesis Hstatic : staticCall E = true.
Hypothesis Hcreate2 : haveCreate2 (vvmSchedule E) = false.

(** An instruction that a static call refuses. *)
Lemma quiet_refused {A} b e (m : VM_M A) : b = true -> quiet (exec! throwIf b e in m).
Proof. intros ->. apply quiet_throw. Qed.

Ltac quiet_case :=
  match goal with
  | |- quiet (mbind (throwIf (staticCall E) _) _) => by apply quiet_refused
  | |- quiet (mbind (throwIf (negb (haveCreate2 _)) _) _) => apply quiet_refused; by rewrite Hcreate2
  | _ => quiet
  end.

Lemma quiet_blockHash n : quiet (ext (fun x => let '(h, x') := blockHash x n in (FixedHash.to_arith 32 h, x')) : VM_M Z).
Proof. apply quiet_ext. intros x. pose proof (st_blockHash x n) as H. by destruct (blockHash x n). Qed.
#[local] Hint Resolve quiet_blockHash : quiet.

Lemma quiet_dispatch op : quiet (dispatch E P op : VM_M flow).
Proof.
  unfold dispatch. destruct (zat Instruction.jumpTable op) as [l|]; [|auto with quiet].
  destruct l; cbn [dispatch_calls dispatch_ordinary dispatch_env dispatch_stack]; auto with quiet.
  all: unfold case_CREATE2, case_CREATE, case_CALLs, case_RETURN, case_REVERT, take_output, case_SUICIDE, case_STOP,
    case_MLOAD, case_MSTORE, case_MSTORE8, case_SHA3, case_LOG, case_EXP, ordinary0, ordinary1, ordinary2, ordinary3,
    case_SIGNEXTEND, query, case_CALLDATALOAD, case_RETURNDATASIZE, case_COPY, case_RETURNDATACOPY, case_EXTCODECOPY,
    case_PUSHC, case_PUSH1, case_PUSHn, case_POP, case_JUMP, case_JUMPI, case_JUMPC, case_JUMPCI, case_DUP, case_SWAP,
    case_SSTORE, reading, case_JUMPDEST.
  all: quiet_case.
Qed.

Lemma quiet_instruction : quiet (instruction E P : VM_M unit).
Proof.
  unfold instruction. apply quiet_bind; [apply quiet_fetch|intros _]. apply quiet_bind; [apply quiet_get|intros op].
  apply quiet_bind; [apply quiet_dispatch|]. intros []; auto with quiet.
Qed.

(** ** Calls *)

(** The call that [caseCallSetup] prepares is static. *)
Definition prepares_static (m : VM_M (CallParameters * option (Z * Z))) : Prop :=
  forall s, match m s with
  | (Ok (p, _), s') => still s s' /\ cp_staticCall p = true
  | (Err _, s') => still s s'
  end.

Lemma static_bind {A} (m : VM_M A) k :
  quiet m -> (forall a, prepares_static (k a)) -> prepares_static (mbind m k).
Proof.
  intros Hm Hk s. specialize (Hm s). unfold mbind. destruct (m s) as [[a|e] s1]; [|done].
  specialize (Hk a s1). destruct (k a s1) as [[[p o]|e] s2].
  - destruct Hk as [H1 H2]. split; [|done]. by eapply still_trans.
  - by eapply still_trans.
Qed.
Lemma static_ret p o : cp_staticCall p = true -> prepares_static (mret (p, o)).
Proof. intros H s. by split. Qed.

Lemma callSetup_static : prepares_static (caseCallSetup E).
Proof.
  unfold caseCallSetup. repeat (apply static_bind; [quiet|intros ?]).
  destruct (_ && _); [apply static_bind; [quiet|intros ?]|]; apply static_ret; cbn; by rewrite Hstatic, orb_true_r.
Qed.

Lemma quiet_then {A B} (m : VM_M A) (k : A -> VM_M B) (Q : A -> Prop) :
  quiet m -> (forall s, match m s with (Ok a, _) => Q a | _ => True end) ->
  (forall a, Q a -> quiet (k a)) -> quiet (mbind m k).
Proof.
  intros Hm HQ Hk s. specialize (Hm s). specialize (HQ s). unfold mbind. destruct (m s) as [[a|e] s1]; [|done].
  eapply still_trans; [exact Hm|by apply Hk].
Qed.

Lemma case_Call_static : quiet (case_Call E : VM_M unit).
Proof.
  unfold case_Call. do 2 (apply quiet_bind; [quiet|intros _]).
  apply (quiet_then _ _ (fun a => cp_staticCall (fst a) = true)).
  { intros s. pose proof (callSetup_static s) as H. by destruct (caseCallSetup E s) as [[[]|] ]; [destruct H|]. }
  { intros s. pose proof (callSetup_static s) as H. by destruct (caseCallSetup E s) as [[[]|] ]; [destruct H|]. }
  intros [p o] Hp. apply quiet_bind; [|intros gas; quiet].
  destruct o as [[off size]|]; [|quiet].
  apply quiet_bind; [apply quiet_ext; intros x; by constructor|intros [[b out] g]; quiet].
Qed.

Lemma step_static s : m_bounce s <> caseCreate -> still s (snd (step E P s)).
Proof.
  intros Hb. unfold step. erewrite mbind_Ok by reflexivity. destruct (m_bounce s) eqn:Hs; [|done| |].
  - apply quiet_instruction.
  - apply case_Call_static.
  - by split.
Qed.

Lemma run_static fuel s r s' :
  m_bounce s <> caseCreate -> run E P fuel s = Some (r, s') -> rtc static_step (m_ext s) (m_ext s').
Proof.
  revert s. induction fuel as [|fuel IH]; intros s Hb; cbn [run].
  - destruct (m_bounce s); [done..|]. by intros [= <- <-].
  - pose proof (step_static s Hb) as [H1 H2].
    assert (Hnext : match step E P s with (Ok _, s') => run E P fuel s' | (Err e, s') => Some (Err e, s') end = Some (r, s') ->
      rtc static_step (m_ext s) (m_ext s')).
    { destruct (step E P s) as [[[]|e] s1]; cbn in H1, H2.
      - intros Hr. etrans; [exact H1|]. apply IH; [by apply H2|done].
      - by intros [= <- <-]. }
    destruct (m_bounce s); try exact Hnext. by intros [= <- <-].
Qed.

End Static.

(** C36: under a schedule without [CREATE2] (all before Constantinople), an execution in a
    static call touches its environment only by reading it, block hashes included, and by
    making calls, each of them static: it makes no storage write, log entry, refund,
    self-destruction or creation of its own, whether it returns or throws.  Where the
    schedule has [CREATE2], [static_create2] shows an account created. *)
Theorem static_exec {X} {EX : ExtVMFace X} E fuel g (x : X) r g' x' :
  staticCall E = true -> haveCreate2 (vvmSchedule E) = false ->
  exec fuel E g x = Some (r, g', x') -> rtc static_step x x'.
Proof.
  intros Hs Hc. unfold exec, exec_prepared. destruct (run E _ fuel (init g x)) as [[r0 s']|] eqn:Hr; [|done].
  cbn. intros [= <- <- <-]. assert (m_bounce (init g x) <> caseCreate) as Hb by done.
  exact (run_static E _ Hs Hc _ _ _ _ Hb Hr).
Qed.

Import World.

(** A static execution that calls another account and returns. *)
Lemma static_exec_witness :
  exists g' x',
    exec 100 (environment [0x60; 0; 0x60; 0; 0x60; 0; 0x60; 0; 0x60; 0; 0x60; 9; 0x61; 3; 232; 0xf1] true ByzantiumSchedule)
      100000 w_empty = Some (Ok [], g', x') /\ rtc static_step w_empty x'.
Proof.
  eexists _, _. split; [vm_compute; reflexivity|]. 
  refine (static_exec (environment [0x60; 0; 0x60; 0; 0x60; 0; 0x60; 0; 0x60; 0; 0x60; 9; 0x61; 3; 232; 0xf1] true ByzantiumSchedule)
    100 100000 w_empty (Ok []) _ _ _ _ _); [reflexivity|reflexivity|vm_compute; reflexivity].
Defined.

(** [CREATE2] does not check for a static call, unlike [CREATE]: under the
    Constantinople schedule a static execution creates an account, where the same
    execution with [CREATE] throws. *)
Theorem static_create2 :
  (exists g x, exec 100 (environment [0x60; 0; 0x60; 0; 0x60; 0; 0x60; 0; 0xfb] true ConstantinopleSchedule)
     100000 w_empty = Some (Ok [], g, x) /\ w_created x = [(0, [])]) /\
  (exists g, exec 100 (environment [0x60; 0; 0x60; 0; 0x60; 0; 0x60; 0; 0xf0] true ConstantinopleSchedule)
     100000 w_empty = Some (Err DisallowedStateChange, g, w_empty)).
Proof.
  split; [|eexists; vm_compute; reflexivity]. eexists _, _. split; [vm_compute; reflexivity|reflexivity].
Qed.

End VMStatic.
