(* ===== verification/VMMemory.v ===== *)
(** * VMMemory: the stack, memory and metering of the interpreter

    Exact specifications of [adjustStack] through [fetchInstruction], of
    [updateMem] with its price, and of the instructions that read and write
    memory. *)

From stdpp Require Import base list numbers option.
From Stdlib Require Import ZArith Lia.
From S2P Require Import Prelude.
From S2P Require Import Bytes.
From S2P Require Import Instruction.
From S2P Require Import VMOpt.
From S2P Require Import VM.
From S2P Require Import VMSafety.
From S2P Require Import VMProps.
Import CommonData FixedHash VMOpt VM VMSafety.

Module VMMemory.
Section Memory.
Context {X : Type} {EX : ExtVMFace X}.
Variable E : Env.
Hypothesis HE : env_ok E.
Abbreviation VM_M A := (M (vm X) exn A).
Abbreviation sch := (vvmSchedule E).

(** ** The stack *)

Lemma metric_bounds op :
  0 <= op < 256 -> 0 <= args (metric op) <= 17 /\ 0 <= ret (metric op) <= 17.
Proof.
  intros Hop.
  pose proof (Z_forall_below (fun op => (0 <=? args (metric op)) && (args (metric op) <=? 17) &&
      (0 <=? ret (metric op)) && (ret (metric op) <=? 17)) 256
    ltac:(vm_compute; reflexivity) op ltac:(lia)) as H. cbn beta in H. lia.
Qed.

(** The number of items on the stack. *)
Definition height (s : vm X) : Z := 1024 - m_SPP s.

(** Before an instruction runs, the stack is checked against the numbers of
    its opcode: an instruction that needs more items than there are throws
    [StackUnderflow], one that would leave more than 1024 throws [OutOfStack], and
    any other runs on the items below [m_SP] with room for what it leaves. *)
Theorem stack_checked P (s : vm X) :
  0 <= m_SPP s <= 1024 -> 0 <= m_PC s < zlen (p_code P) -> bytes_ok (p_code P) ->
  let m := metric (get (p_code P) (m_PC s)) in
  match fetchInstruction E P s with
  | (Ok _, s') =>
      args m <= height s /\ height s' = height s - args m + ret m /\ height s' <= 1024 /\
      m_SP s' = m_SPP s /\ m_stack s' = m_stack s
  | (Err e, _) =>
      e = StackUnderflow /\ height s < args m \/
      e = OutOfStack /\ args m <= height s /\ 1024 < height s - args m + ret m
  end.
Proof.
  intros Hs Hpc Hb m. unfold fetchInstruction. erewrite mbind_Ok by reflexivity.
  erewrite mbind_Ok by (by apply code_at_ok). erewrite mbind_Ok by reflexivity.
  assert (0 <= get (p_code P) (m_PC s) < 256) as Hop.
  { unfold get. destruct (zat (p_code P) (m_PC s)) eqn:Ez; [|cbn; lia]. by apply (bytes_ok_zat _ _ _ Hb Ez). }
  destruct (metric_bounds _ Hop) as [Ha Hr]. destruct (tierGas_ok E HE (gasPriceTier m)) as [Ht _]. fold m in Ha, Hr |- *.
  unfold adjustStack, throwBadStack, toInt63, set_run, set_copy, mbind, mput, mget, mret, mthrow, height.
  cbn [m_SPP m_SP set_SPP set_SP set_OP].
  destruct (Z.ltb_spec 1024 (m_SPP s + args m)).
  { cbn. destruct (Z.ltb_spec (1024 - (m_SPP s + args m)) (args m)); [left; split; [done|lia]|lia]. }
  cbn [m_SPP m_SP set_SPP set_SP set_OP].
  destruct (Z.ltb_spec (m_SPP s + args m - ret m) 0).
  { cbn. destruct (Z.ltb_spec (1024 - (m_SPP s + args m - ret m)) (args m)); [lia|right; split; [done|lia]]. }
  destruct (Z.ltb_spec 0x7FFFFFFFFFFFFFFF (tierGas E (gasPriceTier m))); [lia|]. cbn. repeat split; lia.
Qed.

(** ** Growing the memory *)

Section Grow.
Variable s : vm X.

(** The gas of [updateGas]. *)
Definition memPrice (new : Z) : Z :=
  m_runGas s + (memCost E (Z.max new (zlen (m_mem s))) - memCost E (zlen (m_mem s))) + copyCost E (m_copyMemSize s).

Hypothesis Hrun : 0 <= m_runGas s < 2 ^ 61.
Hypothesis Hcopy : 0 <= m_copyMemSize s < 2 ^ 63.
Hypothesis Hgas : uint_ok 64 (m_io_gas s).

(** The end of [updateGas], once the memory is paid for. *)
Lemma updateGas_end r :
  0 <= r -> r + copyCost E (m_copyMemSize s) < 2 ^ 64 ->
  (exec! add_run (wrap 64 (copyGas sch * ((m_copyMemSize s + 31) / 32))) in
   do! g := mget m_io_gas in do! r := mget m_runGas in
   if g <? r then mthrow OutOfGas else mret tt) (set_runGas s r) =
  (if m_io_gas s <? r + copyCost E (m_copyMemSize s) then Err OutOfGas else Ok tt,
   set_runGas s (r + copyCost E (m_copyMemSize s))).
Proof.
  intros H0 H. destruct (copyCost_bound E HE (m_copyMemSize s) Hcopy) as [Hc _].
  unfold add_run, mbind, mput, mget, mthrow, mret. cbn [m_runGas m_io_gas set_runGas].
  fold (copyCost E (m_copyMemSize s)).
  rewrite (wrap_small 64 (copyCost E (m_copyMemSize s))), (wrap_small 64) by (unfold uint_ok; lia).
  by destruct (_ <? _).
Qed.

Lemma updateGas_exact :
  memCost E (Z.max (m_newMemSize s) (zlen (m_mem s))) < 2 ^ 63 ->
  updateGas E s =
  (if m_io_gas s <? memPrice (m_newMemSize s) then Err OutOfGas else Ok tt, set_runGas s (memPrice (m_newMemSize s))).
Proof.
  intros Hbig. destruct (copyCost_bound E HE (m_copyMemSize s) Hcopy) as [Hc _]. unfold memPrice, updateGas.
  pose proof (memCost_mono E HE (zlen (m_mem s)) (Z.max (m_newMemSize s) (zlen (m_mem s))) ltac:(lia)) as Hmono.
  erewrite (mbind_Ok (mget m_newMemSize)) by reflexivity. erewrite (mbind_Ok (mget m_mem)) by reflexivity. cbn beta.
  destruct (Z.ltb_spec (zlen (m_mem s)) (m_newMemSize s)).
  - rewrite (Z.max_l (m_newMemSize s)) in * by lia.
    pose proof (updateGas_end (m_runGas s + (memCost E (m_newMemSize s) - memCost E (zlen (m_mem s)))) ltac:(lia) ltac:(lia)) as Hend.
    erewrite mbind_Ok; [exact Hend|]. erewrite mbind_Ok by (apply gasForMem_Ok; lia). erewrite mbind_Ok by (apply gasForMem_Ok; lia).
    rewrite (wrap_small 64) by (unfold uint_ok; lia). erewrite mbind_Ok by (apply toInt63_small; lia).
    unfold add_run, mput. by rewrite (wrap_small 64) by (unfold uint_ok; lia).
  - rewrite (Z.max_r (m_newMemSize s)), Z.sub_diag, Z.add_0_r by lia.
    pose proof (updateGas_end (m_runGas s) ltac:(lia) ltac:(lia)) as Hend. rewrite set_runGas_eta in Hend.
    erewrite mbind_Ok; [exact Hend|done].
Qed.

Lemma updateGas_toobig :
  0 <= m_newMemSize s -> 2 ^ 63 <= memCost E (Z.max (m_newMemSize s) (zlen (m_mem s))) ->
  memCost E (zlen (m_mem s)) < 2 ^ 63 -> updateGas E s = (Err OutOfGas, s).
Proof.
  intros H0 Hbig Hold. unfold updateGas. erewrite (mbind_Ok (mget m_newMemSize)) by reflexivity.
  erewrite (mbind_Ok (mget m_mem)) by reflexivity. cbn beta.
  destruct (Z.ltb_spec (zlen (m_mem s)) (m_newMemSize s)); [|rewrite Z.max_r in Hbig by lia; lia].
  rewrite Z.max_l in Hbig by lia. erewrite mbind_Err; [reflexivity|]. erewrite mbind_Err; [reflexivity|].
  apply gasForMem_Err. lia.
Qed.

End Grow.

Definition round32 (need : Z) : Z := (need + 31) / 32 * 32.

(** [updateMem] charges exactly the difference of the quadratic memory prices
    plus the price of copying, on top of what the instruction costs; it either
    throws [OutOfGas] with the memory as it was, when the gas is not enough or the
    price does not fit 63 bits, or extends the memory with zeros to a multiple of
    32 bytes that covers what is needed. It never shrinks it. *)
Theorem memory_growth (s : vm X) need :
  0 <= m_runGas s < 2 ^ 61 -> 0 <= m_copyMemSize s < 2 ^ 63 -> 0 <= need < 2 ^ 63 + 64 ->
  memCost E (zlen (m_mem s)) < 2 ^ 63 ->
  let size := Z.max (round32 need) (zlen (m_mem s)) in
  match updateMem E need s with
  | (Ok _, s') =>
      memPrice s (round32 need) <= m_io_gas s /\ m_runGas s' = memPrice s (round32 need) /\
      m_mem s' = m_mem s ++ replicate (Z.to_nat (size - zlen (m_mem s))) 0 /\ need <= zlen (m_mem s')
  | (Err e, s') =>
      e = OutOfGas /\ (m_io_gas s < memPrice s (round32 need) \/ 2 ^ 63 <= memCost E size) /\ m_mem s' = m_mem s
  end.
Proof.
  intros Hr Hc Hn Hold size. unfold updateMem, mput at 1. rewrite (wrap_small 64) by (unfold uint_ok; lia).
  fold (round32 need). erewrite mbind_Ok by reflexivity. set (s1 := set_newMemSize s (round32 need)).
  assert (need <= round32 need) as Hround.
  { unfold round32. pose proof (Z.div_mod (need + 31) 32 ltac:(lia)). pose proof (Z.mod_pos_bound (need + 31) 32 ltac:(lia)). lia. }
  destruct (Z.lt_ge_cases (memCost E size) (2 ^ 63)) as [Hs|Hs].
  - unfold mbind. rewrite (updateGas_exact s1) by done. change (memPrice s1 (m_newMemSize s1)) with (memPrice s (round32 need)).
    cbn [m_io_gas s1 set_newMemSize]. destruct (Z.ltb_spec (m_io_gas s) (memPrice s (round32 need))); [by auto|].
    unfold mput. cbn [m_mem m_newMemSize set_runGas s1 set_newMemSize].
    destruct (Z.ltb_spec (zlen (m_mem s)) (round32 need)); cbn.
    + assert (size = round32 need) as -> by (unfold size; lia). rewrite length_app, length_replicate. split_and!; try done. lia.
    + assert (size = zlen (m_mem s)) as -> by (unfold size; lia). rewrite Z.sub_diag, app_nil_r. split_and!; try done. lia.
  - unfold mbind. rewrite (updateGas_toobig s1); [|cbn; lia|done|done]. cbn. auto.
Qed.

(** ** Loads and stores *)

Lemma mbind_inv {A B} (m : VM_M A) (k : A -> VM_M B) s b s' :
  mbind m k s = (Ok b, s') -> exists a s1, m s = (Ok a, s1) /\ k a s1 = (Ok b, s').
Proof. unfold mbind. destruct (m s) as [[a|e] s1] eqn:Hm; [|done]. intros H. by exists a, s1. Qed.

Lemma updateGas_frame (s s' : vm X) : updateGas E s = (Ok tt, s') -> exists g, s' = set_runGas s g.
Proof.
  unfold updateGas. intros H. apply mbind_inv in H as (? & ? & [= <- <-] & H).
  apply mbind_inv in H as (? & ? & [= <- <-] & H). apply mbind_inv in H as (? & s1 & H1 & H).
  assert (exists g, s1 = set_runGas s g) as [g ->].
  { destruct (_ <? _).
    - apply mbind_inv in H1 as (? & ? & H2 & H1). unfold gasForMem, toInt63 in H2. destruct (_ <? _); [done|]. injection H2 as <- <-.
      apply mbind_inv in H1 as (? & ? & H2 & H1). unfold gasForMem, toInt63 in H2. destruct (_ <? _); [done|]. injection H2 as <- <-.
      apply mbind_inv in H1 as (? & ? & H2 & H1). unfold toInt63 in H2. destruct (_ <? _); [done|]. injection H2 as <- <-.
      injection H1 as <- <-. by eexists.
    - injection H1 as <- <-. exists (m_runGas s). by rewrite set_runGas_eta. }
  apply mbind_inv in H as (? & ? & [= <- <-] & H). apply mbind_inv in H as (? & ? & [= <- <-] & H).
  apply mbind_inv in H as (? & ? & [= <- <-] & H). apply mbind_inv in H as (? & ? & [= <- <-] & H).
  destruct (_ <? _); [done|]. injection H as <-. by eexists.
Qed.

(** What a successful [updateMem] leaves as it was. *)
Definition grown (s s' : vm X) : Prop :=
  m_stack s' = m_stack s /\ m_SP s' = m_SP s /\ m_SPP s' = m_SPP s /\
  exists k, m_mem s' = m_mem s ++ replicate k 0.

Lemma updateMem_frame need (s s' : vm X) : updateMem E need s = (Ok tt, s') -> grown s s'.
Proof.
  unfold updateMem. intros H. apply mbind_inv in H as (? & ? & [= <- <-] & H). apply mbind_inv in H as ([] & ? & H1 & H).
  apply updateGas_frame in H1 as [g ->]. injection H as <-. unfold grown. cbn.
  destruct (_ <? _); cbn; (split_and!; try done); [by eexists|exists 0%nat; by rewrite app_nil_r].
Qed.

Lemma updateIOGas_frame (s s' : vm X) : updateIOGas s = (Ok tt, s') -> exists g, s' = set_io_gas s g.
Proof.
  intros H. destruct (updateIOGas_shape s) as [H1|[g H1]]; rewrite H1 in H; [done|]. injection H as <-. by exists g.
Qed.

(** The memory with [bs] written at [o]. *)
Definition splice (mem : bytes) (o : Z) (bs : bytes) : bytes := ztake o mem ++ bs ++ zdrop (o + zlen bs) mem.

Lemma SP_inv k (s s' : vm X) v : SP k s = (Ok v, s') -> s' = s /\ zat (m_stack s) (m_SP s + k) = Some v.
Proof. unfold SP. destruct (zat _ _); [|done]. by intros [= <- <-]. Qed.

Lemma toInt63_inv (v a : Z) (s s' : vm X) : toInt63 v s = (Ok a, s') -> a = v /\ s' = s.
Proof. unfold toInt63. destruct (_ <? _); [done|]. by intros [= <- <-]. Qed.

Lemma MSTORE_inv (s s' : vm X) f off v :
  zat (m_stack s) (m_SP s) = Some off -> zat (m_stack s) (m_SP s + 1) = Some v ->
  case_MSTORE E s = (Ok f, s') ->
  exists k, let mem := m_mem s ++ replicate k 0 in
    wrap 32 off + 32 <= zlen mem /\ m_mem s' = splice mem (wrap 32 off) (of_arith 32 v).
Proof.
  intros Ho Hv H. unfold case_MSTORE in H. apply mbind_inv in H as (? & ? & [-> H1]%SP_inv & H).
  rewrite Z.add_0_r, Ho in H1. injection H1 as <-. apply mbind_inv in H as (? & ? & [-> ->]%toInt63_inv & H).
  apply mbind_inv in H as ([] & s1 & (Hst & Hsp & _ & k & Hm)%updateMem_frame & H).
  apply mbind_inv in H as ([] & ? & [g ->]%updateIOGas_frame & H). apply mbind_inv in H as (? & ? & [-> H1]%SP_inv & H).
  cbn in H1. rewrite Hst, Hsp, Hv in H1. injection H1 as <-. apply mbind_inv in H as ([] & s2 & H1 & [= <- <-]).
  exists k. cbn zeta. rewrite <- Hm. unfold mem_write, of_arith in H1. rewrite toBigEndian_length in H1.
  change (Z.of_nat 32) with 32 in H1. cbn [m_mem set_io_gas Z.eqb] in H1.
  destruct (Z.leb_spec 0 (wrap 32 off)), (Z.leb_spec (wrap 32 off + 32) (zlen (m_mem s1))); try done.
  injection H1 as <-. split; [lia|]. unfold splice, of_arith. by rewrite toBigEndian_length.
Qed.

Lemma MLOAD_inv (s s' : vm X) f off :
  zat (m_stack s) (m_SP s) = Some off -> case_MLOAD E s = (Ok f, s') ->
  exists k, let mem := m_mem s ++ replicate k 0 in
    wrap 32 off + 32 <= zlen mem /\
    zat (m_stack s') (m_SPP s') = Some (to_arith 32 (ztake 32 (zdrop (wrap 32 off) mem))).
Proof.
  intros Ho H. unfold case_MLOAD in H. apply mbind_inv in H as (? & ? & [-> H1]%SP_inv & H).
  rewrite Z.add_0_r, Ho in H1. injection H1 as <-. apply mbind_inv in H as (? & ? & [-> ->]%toInt63_inv & H).
  apply mbind_inv in H as ([] & s1 & (Hst & Hsp & _ & k & Hm)%updateMem_frame & H).
  apply mbind_inv in H as ([] & ? & [g ->]%updateIOGas_frame & H). apply mbind_inv in H as (w & s2 & H1 & H).
  exists k. cbn zeta. rewrite <- Hm. unfold mem_read in H1. cbn [m_mem set_io_gas Z.eqb] in H1.
  destruct (Z.leb_spec 0 (wrap 32 off)), (Z.leb_spec (wrap 32 off + 32) (zlen (m_mem s1))); try done.
  injection H1 as <- <-. split; [lia|]. apply mbind_inv in H as ([] & s3 & H1 & [= <- <-]).
  unfold set_SPP0, stack_put in H1. cbn [m_stack m_SPP set_io_gas] in H1. destruct (_ && _) eqn:Hr; [|done].
  injection H1 as <-. cbn [m_stack m_SPP set_stack set_io_gas]. apply andb_true_iff in Hr as [Hr1 Hr2].
  unfold zat. destruct (Z.ltb_spec (m_SPP s1) 0); [lia|]. apply list_lookup_insert_eq. lia.
Qed.

(** a successful [MSTORE] writes the 32 bytes of its operand, most significant
    first, at the low 32 bits of the offset, and leaves every other byte of the
    (zero-extended) memory as it was. For an offset from [2^32] on, which the gas
    may well pay for, that is not the offset asked for. *)
Theorem store_writes (s s' : vm X) f off v :
  zat (m_stack s) (m_SP s) = Some off -> zat (m_stack s) (m_SP s + 1) = Some v ->
  case_MSTORE E s = (Ok f, s') ->
  exists k, let mem := m_mem s ++ replicate k 0 in
    wrap 32 off + 32 <= zlen mem /\ m_mem s' = splice mem (wrap 32 off) (of_arith 32 v).
Proof. apply MSTORE_inv. Qed.

Lemma splice_read mem o bs k :
  0 <= o -> o + zlen bs <= zlen mem -> ztake (zlen bs) (zdrop o (splice mem o bs ++ replicate k 0)) = bs.
Proof.
  intros Ho Hl. unfold splice. rewrite <- !app_assoc.
  assert (zdrop o (ztake o mem ++ bs ++ zdrop (o + zlen bs) mem ++ replicate k 0) =
    bs ++ zdrop (o + zlen bs) mem ++ replicate k 0) as ->.
  { unfold zdrop. rewrite drop_app_length'; [done|]. pose proof (zlen_ztake o mem ltac:(lia)). lia. }
  by apply ztake_app.
Qed.

(** what [MSTORE] puts in memory, [MLOAD] at the same offset puts back on the
    stack, as long as the memory is not written in between. *)
Theorem store_load (s s1 s2 s3 : vm X) f f' off v :
  uint_ok 256 v -> zat (m_stack s) (m_SP s) = Some off -> zat (m_stack s) (m_SP s + 1) = Some v ->
  case_MSTORE E s = (Ok f, s1) ->
  m_mem s2 = m_mem s1 -> zat (m_stack s2) (m_SP s2) = Some off -> case_MLOAD E s2 = (Ok f', s3) ->
  zat (m_stack s3) (m_SPP s3) = Some v.
Proof.
  intros Hv Ho Hsv H1 Hm Ho2 H2. apply (MSTORE_inv s s1 f off v Ho Hsv) in H1 as (k & Hk & H1).
  apply (MLOAD_inv s2 s3 f' off Ho2) in H2 as (k' & _ & ->). cbn zeta in *. rewrite Hm, H1.
  assert (zlen (of_arith 32 v) = 32) as H32 by (unfold of_arith; by rewrite toBigEndian_length).
  pose proof (splice_read (m_mem s ++ replicate k 0) (wrap 32 off) (of_arith 32 v) k') as Hr. rewrite H32 in Hr.
  rewrite Hr by (pose proof (wrap_range 32 off ltac:(lia)) as []; lia). by rewrite to_of_arith.
Qed.

End Memory.

(** ** On a concrete machine *)

Import World.
Abbreviation E0 := (environment [0x51; 0x52] false ByzantiumSchedule).
Lemma E0_ok : env_ok E0.
Proof. by apply environment_ok. Qed.

(** A machine with two items on the stack, about to run an instruction. *)
Definition machine (mem : bytes) (a b : Z) : vm world :=
  set_mem (set_SPP (set_SP (set_stack (init 100000 w_empty) (replicate 1022 0 ++ [a; b])) 1022) 1022) mem.

Lemma stack_checked_witness :
  exists s, fetchInstruction E0 (scan (code E0)) (machine [] 64 7) = (Ok tt, s) /\ height s = 2.
Proof.
  assert (bytes_ok (p_code (scan (code E0)))) as Hb.
  { apply Forall_forall. intros b Hin.
    assert (Hall : forallb (fun b => (0 <=? b) && (b <? 256)) (p_code (scan (code E0))) = true) by (vm_compute; reflexivity).
    rewrite forallb_forall in Hall. specialize (Hall b Hin). unfold is_byte. lia. }
  pose proof (stack_checked E0 E0_ok (scan (code E0)) (machine [] 64 7) ltac:(vm_compute; split; discriminate)
    ltac:(vm_compute; split; [discriminate|reflexivity]) Hb) as H.
  destruct (fetchInstruction E0 (scan (code E0)) (machine [] 64 7)) as [[[]|e] s] eqn:Hf; [|vm_compute in Hf; discriminate].
  destruct H as (_ & H & _). exists s. split; [done|]. rewrite H. vm_compute. reflexivity.
Defined.

Lemma memory_growth_witness :
  exists s, updateMem E0 96 (machine [] 64 7) = (Ok tt, s) /\ zlen (m_mem s) = 96 /\ m_runGas s = 9.
Proof.
  pose proof (memory_growth E0 E0_ok (machine [] 64 7) 96 ltac:(vm_compute; split; [discriminate|reflexivity])
    ltac:(vm_compute; split; [discriminate|reflexivity]) ltac:(lia) ltac:(vm_compute; reflexivity)) as H.
  destruct (updateMem E0 96 (machine [] 64 7)) as [[[]|e] s] eqn:Hu; [|vm_compute in Hu; discriminate].
  destruct H as (_ & H1 & H2 & _). exists s. split; [done|]. rewrite H1, H2. split; vm_compute; reflexivity.
Defined.

Lemma store_writes_witness :
  exists s k, case_MSTORE E0 (machine [] 64 7) = (Ok NEXT, s) /\
    m_mem s = splice (replicate k 0) (wrap 32 64) (of_arith 32 7).
Proof.
  eexists. destruct (store_writes E0 (machine [] 64 7) _ NEXT 64 7 ltac:(vm_compute; reflexivity) ltac:(vm_compute; reflexivity)
    ltac:(vm_compute; reflexivity)) as (k & _ & H). exists k. split; [vm_compute; reflexivity|exact H].
Defined.

Definition stored : vm world := snd (case_MSTORE E0 (machine [] 64 7)).
Definition loaded : vm world := snd (case_MLOAD E0 (machine (m_mem stored) 64 0)).

Lemma store_load_witness :
  case_MSTORE E0 (machine [] 64 7) = (Ok NEXT, stored) /\
  case_MLOAD E0 (machine (m_mem stored) 64 0) = (Ok NEXT, loaded) /\ zat (m_stack loaded) (m_SPP loaded) = Some 7.
Proof.
  assert (case_MSTORE E0 (machine [] 64 7) = (Ok NEXT, stored)) as H1 by (vm_compute; reflexivity).
  assert (case_MLOAD E0 (machine (m_mem stored) 64 0) = (Ok NEXT, loaded)) as H2 by (vm_compute; reflexivity).
  split; [exact H1|]. split; [exact H2|].
  apply (store_load E0 (machine [] 64 7) stored (machine (m_mem stored) 64 0) loaded NEXT NEXT 64 7);
    [unfold uint_ok; lia|vm_compute; reflexivity|vm_compute; reflexivity|exact H1|reflexivity|vm_compute; reflexivity|exact H2].
Defined.

End VMMemory.
