(* ===== verification/MemoryDB.v ===== *)
(** * MemoryDB: the in-memory node store of the tries (libdevcore/MemoryDB)

    - [NodeDB]: the interface the template parameter of [GenericTrieDB] has to
      provide, and [NodeDBLaws], what the tries rely on.
    - [MemoryDB]: reference-counted values in memory. *)

From stdpp Require Import base list numbers option gmap fin_maps.
From Stdlib Require Import ZArith Lia.
From S2P Require Import Prelude.

(** ** The interface *)

(** What [GenericTrieDB<DB>] calls of its [DB]. *)
Class NodeDB (DB : Type) := {
  db_lookup : DB -> bytes -> bytes;
  db_exists : DB -> bytes -> bool;
  db_insert : DB -> bytes -> bytes -> DB;
  db_kill : DB -> bytes -> DB;
  db_insertAux : DB -> bytes -> bytes -> DB;
  db_lookupAux : DB -> bytes -> bytes;
}.

(** A store in a good state keeps what is put in it: [kill] only drops a
    reference, so that a killed node can still be read. *)
Class NodeDBLaws (DB : Type) `{NodeDB DB} := {
  db_ok : DB -> Prop;
  db_ok_insert d h v : db_ok d -> db_ok (db_insert d h v);
  db_ok_kill d h : db_ok d -> db_ok (db_kill d h);
  db_lookup_insert d h v : db_ok d -> v <> [] -> db_lookup (db_insert d h v) h = v;
  db_lookup_insert_ne d h h' v :
    db_ok d -> h <> h' -> db_lookup (db_insert d h v) h' = db_lookup d h';
  db_lookup_kill d h h' : db_ok d -> db_lookup (db_kill d h) h' = db_lookup d h';
  db_exists_lookup d h : db_ok d -> db_lookup d h <> [] -> db_exists d h = true;
}.

(** ** MemoryDB *)
Module MemoryDB.

Record MemoryDB := {
  m_main : gmap bytes (bytes * Z);
  m_aux : gmap bytes (bytes * bool);
  m_enforceRefs : bool;
}.

(** [MemoryDB()]. *)
Definition empty : MemoryDB := {| m_main := ∅; m_aux := ∅; m_enforceRefs := false |}.

Definition with_main (m : gmap bytes (bytes * Z)) (d : MemoryDB) : MemoryDB :=
  {| m_main := m; m_aux := m_aux d; m_enforceRefs := m_enforceRefs d |}.
Definition with_aux (m : gmap bytes (bytes * bool)) (d : MemoryDB) : MemoryDB :=
  {| m_main := m_main d; m_aux := m; m_enforceRefs := m_enforceRefs d |}.

(** [operator=]: the reference-counting mode is not copied. *)
Definition assign (d _c : MemoryDB) : MemoryDB :=
  {| m_main := m_main _c; m_aux := m_aux _c; m_enforceRefs := m_enforceRefs d |}.

Definition clear (d : MemoryDB) : MemoryDB := with_aux ∅ (with_main ∅ d).

Definition get (d : MemoryDB) : gmap bytes bytes :=
  fst <$> filter (fun i => negb (m_enforceRefs d) || (0 <? snd (snd i)) = true) (m_main d).

Definition lookup (d : MemoryDB) (_h : bytes) : bytes :=
  match m_main d !! _h with
  | Some (v, n) => if negb (m_enforceRefs d) || (0 <? n) then v else []
  | None => []
  end.

Definition exists_ (d : MemoryDB) (_h : bytes) : bool :=
  match m_main d !! _h with
  | Some (_, n) => negb (m_enforceRefs d) || (0 <? n)
  | None => false
  end.

(** The count is an [unsigned]. *)
Definition insert (d : MemoryDB) (_h _v : bytes) : MemoryDB :=
  match m_main d !! _h with
  | Some (_, n) => with_main (<[_h := (_v, wrap 32 (n + 1))]> (m_main d)) d
  | None => with_main (<[_h := (_v, 1)]> (m_main d)) d
  end.

Definition kill (d : MemoryDB) (_h : bytes) : bool * MemoryDB :=
  match m_main d !! _h with
  | Some (v, n) =>
      if 0 <? n then (true, with_main (<[_h := (v, n - 1)]> (m_main d)) d) else (false, d)
  | None => (false, d)
  end.

Definition lookupAux (d : MemoryDB) (_h : bytes) : bytes :=
  match m_aux d !! _h with
  | Some (v, b) => if negb (m_enforceRefs d) || b then v else []
  | None => []
  end.

(** [m_aux[_h].second = false]: the entry is made when there is none. *)
Definition removeAux (d : MemoryDB) (_h : bytes) : MemoryDB :=
  with_aux (<[_h := (from_option fst [] (m_aux d !! _h), false)]> (m_aux d)) d.

Definition insertAux (d : MemoryDB) (_h _v : bytes) : MemoryDB :=
  with_aux (<[_h := (_v, true)]> (m_aux d)) d.

Definition purge (d : MemoryDB) : MemoryDB :=
  with_aux (filter (fun i => snd (snd i) = true) (m_aux d))
    (with_main (filter (fun i => snd (snd i) <> 0) (m_main d)) d).

Definition keys (d : MemoryDB) : gset bytes :=
  dom (filter (fun i => snd (snd i) <> 0) (m_main d)).

(** [EnforceRefs]: set on construction, restored on destruction. *)
Definition enforceRefs (_r : bool) (d : MemoryDB) : MemoryDB :=
  {| m_main := m_main d; m_aux := m_aux d; m_enforceRefs := _r |}.

#[global] Instance memory_db : NodeDB MemoryDB := {
  db_lookup := lookup;
  db_exists := exists_;
  db_insert := insert;
  db_kill d h := snd (kill d h);
  db_insertAux := insertAux;
  db_lookupAux := lookupAux;
}.

(** *** Lemmas *)

Lemma lookup_plain d h :
  m_enforceRefs d = false -> lookup d h = from_option fst [] (m_main d !! h).
Proof. intros E. unfold lookup. rewrite E. by destruct (m_main d !! h) as [[v n]|]. Qed.

Lemma insert_main d h v :
  m_main (insert d h v) = <[h := (v, wrap 32 (from_option snd 0 (m_main d !! h) + 1))]> (m_main d).
Proof. unfold insert. by destruct (m_main d !! h) as [[w n]|]. Qed.

Lemma insert_mode d h v : m_enforceRefs (insert d h v) = m_enforceRefs d.
Proof. unfold insert. by destruct (m_main d !! h) as [[w n]|]. Qed.

Lemma kill_mode d h : m_enforceRefs (snd (kill d h)) = m_enforceRefs d.
Proof. unfold kill. destruct (m_main d !! h) as [[w n]|]; [destruct (0 <? n)|]; done. Qed.

Lemma kill_value d h h' :
  fst <$> m_main (snd (kill d h)) !! h' = fst <$> m_main d !! h'.
Proof.
  unfold kill. destruct (m_main d !! h) as [[w n]|] eqn:E; [|done].
  destruct (0 <? n); [|done]. cbn. destruct (decide (h = h')) as [<-|Hn].
  - by rewrite lookup_insert_eq, E.
  - by rewrite lookup_insert_ne.
Qed.

Lemma lookup_insert_eq' d h v : m_enforceRefs d = false -> lookup (insert d h v) h = v.
Proof.
  intros E. rewrite lookup_plain by (by rewrite insert_mode). by rewrite insert_main, lookup_insert_eq.
Qed.

Lemma lookup_insert_other d h h' v :
  m_enforceRefs d = false -> h <> h' -> lookup (insert d h v) h' = lookup d h'.
Proof.
  intros E Hn. rewrite !lookup_plain by (by rewrite ?insert_mode).
  by rewrite insert_main, lookup_insert_ne.
Qed.

Lemma lookup_kill' d h h' : m_enforceRefs d = false -> lookup (snd (kill d h)) h' = lookup d h'.
Proof.
  intros E. rewrite !lookup_plain by (by rewrite ?kill_mode). pose proof (kill_value d h h') as Hk.
  destruct (m_main (snd (kill d h)) !! h') as [[]|], (m_main d !! h') as [[]|]; cbn in *; congruence.
Qed.

#[global] Instance memory_db_laws : NodeDBLaws MemoryDB.
Proof.
  refine {| db_ok := fun d => m_enforceRefs d = false |}; cbn.
  - intros. by rewrite insert_mode.
  - intros. by rewrite kill_mode.
  - intros. by apply lookup_insert_eq'.
  - intros. by apply lookup_insert_other.
  - intros. by apply lookup_kill'.
  - intros d h E. rewrite lookup_plain by done. unfold exists_. rewrite E.
    by destruct (m_main d !! h) as [[]|].
Defined.

(** Reading with [m_enforceRefs] set: a value is there exactly while it has been
    inserted more often than killed. *)
Definition refs (d : MemoryDB) (h : bytes) : Z := from_option snd 0 (m_main d !! h).

Lemma refs_insert d h v h' :
  refs (insert d h v) h' = if decide (h = h') then wrap 32 (refs d h + 1) else refs d h'.
Proof.
  unfold refs. rewrite insert_main. destruct (decide (h = h')) as [<-|Hn].
  - by rewrite lookup_insert_eq.
  - by rewrite lookup_insert_ne.
Qed.

Lemma refs_kill d h h' :
  refs (snd (kill d h)) h' = if decide (h = h') then Z.max (refs d h - 1) (Z.min 0 (refs d h)) else refs d h'.
Proof.
  unfold refs, kill. destruct (m_main d !! h) as [[w n]|] eqn:E.
  - destruct (Z.ltb_spec 0 n); destruct (decide (h = h')) as [<-|Hn]; cbn.
    + rewrite lookup_insert_eq. cbn. lia.
    + by rewrite lookup_insert_ne.
    + rewrite E. cbn. lia.
    + done.
  - destruct (decide (h = h')) as [<-|Hn]; cbn; [rewrite E; cbn; lia|done].
Qed.

End MemoryDB.
