(* ===== verification/OverlayDB.v ===== *)
(** * OverlayDB: a MemoryDB over a key-value database (libdevcore/OverlayDB)

    LevelDB is not part of the sources: it is the parameter [LevelDB], with its
    documented behaviour as [LevelDBLaws]. *)

From stdpp Require Import base list numbers option gmap fin_maps.
From Stdlib Require Import ZArith Lia.
From S2P Require Import Prelude.
From S2P Require Import MemoryDB.

(** LevelDB: [Get] leaves the empty string where there is no value; [Write]
    applies a batch of [Put]s and says whether it succeeded. *)
Class LevelDB (L : Type) := {
  Get : L -> bytes -> bytes;
  Write : L -> list (bytes * bytes) -> bool * L;
}.

(** The value a batch puts at a key: the last one. *)
Fixpoint batch_value (batch : list (bytes * bytes)) (k : bytes) : option bytes :=
  match batch with
  | [] => None
  | (k', v) :: b => match batch_value b k with
                    | Some w => Some w
                    | None => if decide (k' = k) then Some v else None
                    end
  end.

(** A batch is written atomically. *)
Class LevelDBLaws (L : Type) `{LevelDB L} := {
  Get_Write l batch k :
    Get (snd (Write l batch)) k =
    if fst (Write l batch) then default (Get l k) (batch_value batch k) else Get l k;
}.

Module OverlayDB.
Section WithLevelDB.
Context {L : Type} `{LevelDB L}.

(** [m_db] may be null. *)
Record OverlayDB := {
  memory : MemoryDB.MemoryDB;
  m_db : option L;
}.

Definition with_memory (m : MemoryDB.MemoryDB) (d : OverlayDB) : OverlayDB :=
  {| memory := m; m_db := m_db d |}.

(** [m_db->Get(..)], which leaves the string empty without a database. *)
Definition disk (d : OverlayDB) (k : bytes) : bytes :=
  match m_db d with Some l => Get l k | None => [] end.

(** The key of an auxiliary entry: [b.push_back(255)]. *)
Definition aux_key (_h : bytes) : bytes := _h ++ [255].

Definition lookup (d : OverlayDB) (_h : bytes) : bytes :=
  match MemoryDB.lookup (memory d) _h with
  | [] => disk d _h
  | ret => ret
  end.

Definition exists_ (d : OverlayDB) (_h : bytes) : bool :=
  if MemoryDB.exists_ (memory d) _h then true else negb (bool_decide (disk d _h = [])).

Definition insert (d : OverlayDB) (_h _v : bytes) : OverlayDB :=
  with_memory (MemoryDB.insert (memory d) _h _v) d.

(** Nothing is removed from the database: what follows a failed [kill] only
    reports it. *)
Definition kill (d : OverlayDB) (_h : bytes) : OverlayDB :=
  with_memory (snd (MemoryDB.kill (memory d) _h)) d.

Definition insertAux (d : OverlayDB) (_h _v : bytes) : OverlayDB :=
  with_memory (MemoryDB.insertAux (memory d) _h _v) d.

Definition lookupAux (d : OverlayDB) (_h : bytes) : bytes :=
  match MemoryDB.lookupAux (memory d) _h, m_db d with
  | [], Some l => Get l (aux_key _h)
  | ret, _ => ret
  end.

(** The batch of [commit]: every value and auxiliary entry that is in use. *)
Definition batch (m : MemoryDB.MemoryDB) : list (bytes * bytes) :=
  omap (fun i => if negb (snd (snd i) =? 0) then Some (fst i, fst (snd i)) else None)
    (map_to_list (MemoryDB.m_main m))
  ++ omap (fun i => if (snd (snd i) : bool) then Some (aux_key (fst i), fst (snd i)) else None)
    (map_to_list (MemoryDB.m_aux m)).

(** The loop that writes; [None] is [exit(-1)] after the tenth failure. *)
Fixpoint commit_loop (n : nat) (l : L) (b : list (bytes * bytes)) : option L :=
  match n with
  | O => None
  | S n' => if fst (Write l b) then Some (snd (Write l b)) else commit_loop n' (snd (Write l b)) b
  end.

Definition commit (d : OverlayDB) : option OverlayDB :=
  match m_db d with
  | None => Some d
  | Some l =>
      match commit_loop 10 l (batch (memory d)) with
      | None => None
      | Some l' => Some {| memory := MemoryDB.clear (memory d); m_db := Some l' |}
      end
  end.

(** [rollback]: the auxiliary entries stay. *)
Definition rollback (d : OverlayDB) : OverlayDB :=
  with_memory (MemoryDB.with_main ∅ (memory d)) d.

#[global] Instance overlay_db : NodeDB OverlayDB := {
  db_lookup := lookup;
  db_exists := exists_;
  db_insert := insert;
  db_kill := kill;
  db_insertAux := insertAux;
  db_lookupAux := lookupAux;
}.

#[global] Instance overlay_db_laws : NodeDBLaws OverlayDB.
Proof.
  refine {| db_ok := fun d => MemoryDB.m_enforceRefs (memory d) = false |}; cbn.
  - intros. by rewrite MemoryDB.insert_mode.
  - intros. by rewrite MemoryDB.kill_mode.
  - intros d h v E Hv. unfold lookup. cbn. rewrite MemoryDB.lookup_insert_eq' by done. by destruct v.
  - intros d h h' v E Hn. unfold lookup. cbn. by rewrite MemoryDB.lookup_insert_other.
  - intros d h h' E. unfold lookup. cbn. by rewrite MemoryDB.lookup_kill'.
  - intros d h E Hl. unfold exists_. destruct (MemoryDB.exists_ _ _) eqn:Ex; [done|].
    unfold lookup in Hl. rewrite bool_decide_false; [done|]. intros Hd. apply Hl.
    unfold MemoryDB.exists_ in Ex. rewrite MemoryDB.lookup_plain by done. rewrite E in Ex.
    by destruct (MemoryDB.m_main (memory d) !! h) as [[]|].
Defined.

(** *** What [commit] keeps *)

Context `{!LevelDBLaws L}.

Lemma commit_loop_Get n l b l' k :
  commit_loop n l b = Some l' -> Get l' k = default (Get l k) (batch_value b k).
Proof.
  revert l. induction n as [|n IH]; intros l; cbn [commit_loop]; [done|].
  pose proof (Get_Write l b k) as Hg. destruct (fst (Write l b)).
  - by intros [= <-].
  - intros E. apply IH in E. by rewrite E, Hg.
Qed.

Lemma batch_value_app a b k :
  batch_value (a ++ b) k = match batch_value b k with Some v => Some v | None => batch_value a k end.
Proof.
  induction a as [|[k' v] a IH]; cbn; [by destruct (batch_value b k)|].
  rewrite IH. by destruct (batch_value b k).
Qed.

Lemma batch_value_notin b k : k ∉ b.*1 -> batch_value b k = None.
Proof.
  induction b as [|[k' v] b IH]; cbn; [done|]. rewrite not_elem_of_cons. intros [Hk Hb].
  rewrite IH by done. by rewrite decide_False.
Qed.

Lemma batch_value_unique b k v : NoDup b.*1 -> (k, v) ∈ b -> batch_value b k = Some v.
Proof.
  induction b as [|[k' v'] b IH]; cbn; [by intros _ ?%elem_of_nil|].
  rewrite NoDup_cons. intros [Hn Hd] [[= -> ->]|Hin]%elem_of_cons.
  - by rewrite batch_value_notin, decide_True.
  - by rewrite IH.
Qed.

Lemma batch_value_in b k v : batch_value b k = Some v -> (k, v) ∈ b.
Proof.
  induction b as [|[k' w] b IH]; cbn; [done|]. destruct (batch_value b k) as [x|]; [intros [= ->]; right; auto|].
  case_decide as E; [|done]. subst k'. intros [= ->]. left.
Qed.
Lemma omap_keys {B} (f : bytes * B -> option (bytes * bytes)) (g : bytes -> bytes) (l : list (bytes * B)) k :
  (forall x y, f x = Some y -> fst y = g (fst x)) -> k ∈ (omap f l).*1 -> exists i, i ∈ l.*1 /\ k = g i.
Proof.
  intros Hf. rewrite list_elem_of_fmap. intros ([k' v] & -> & Hin).
  apply list_elem_of_omap in Hin as (x & Hx & Ex). exists (fst x). split.
  - apply list_elem_of_fmap. by exists x.
  - by apply Hf in Ex.
Qed.

Lemma NoDup_omap_keys {B} (f : bytes * B -> option (bytes * bytes)) (l : list (bytes * B)) :
  (forall x y, f x = Some y -> fst y = fst x) -> NoDup l.*1 -> NoDup (omap f l).*1.
Proof.
  intros Hf. induction l as [|x l IH]; cbn; [done|]. rewrite NoDup_cons. intros [Hn Hd].
  destruct (f x) as [y|] eqn:E; [|by apply IH]. cbn. rewrite NoDup_cons. split; [|by apply IH].
  rewrite (Hf _ _ E). intros Hin. destruct (omap_keys f id l _ Hf Hin) as (i & Hi & Ei). unfold id in Ei. congruence.
Qed.

(** The batch puts at a 32-byte key the value in memory, when it is in use. *)
Lemma batch_main m h :
  (forall k, is_Some (MemoryDB.m_aux m !! k) -> length k = 32%nat) -> length h = 32%nat ->
  batch_value (batch m) h =
  match MemoryDB.m_main m !! h with
  | Some (v, n) => if n =? 0 then None else Some v
  | None => None
  end.
Proof.
  intros Haux Hlen. unfold batch. rewrite batch_value_app.
  rewrite (batch_value_notin (omap _ (map_to_list (MemoryDB.m_aux m)))).
  2:{ intros Hin. apply (omap_keys _ aux_key) in Hin as (i & Hi & ->);
        [|intros [k [v [|]]] y; cbn; intros Ey; by simplify_eq].
      apply list_elem_of_fmap in Hi as ([k v] & -> & Hi%elem_of_map_to_list).
      unfold aux_key in Hlen. rewrite length_app in Hlen. cbn in Hlen, Hi.
      pose proof (Haux k ltac:(by eexists)). lia. }
  set (f := fun i : bytes * (bytes * Z) => _).
  assert (forall x y, f x = Some y -> fst y = fst x) as Hf.
  { intros [k [v n]] y. unfold f. cbn. destruct (n =? 0); cbn; intros Ey; by simplify_eq. }
  destruct (MemoryDB.m_main m !! h) as [[v n]|] eqn:E.
  - destruct (Z.eqb_spec n 0) as [->|Hn].
    + apply batch_value_notin. intros Hin. apply list_elem_of_fmap in Hin as ([k w] & Hk & Hin). cbn in Hk. subst k.
      apply list_elem_of_omap in Hin as ([k [w' n]] & Hin%elem_of_map_to_list & Ef).
      pose proof (Hf _ _ Ef) as Hk. cbn in Hk. subst k. rewrite E in Hin. injection Hin as <- <-.
      done.
    + apply batch_value_unique; [apply NoDup_omap_keys; [done|apply NoDup_fst_map_to_list]|].
      apply list_elem_of_omap. exists (h, (v, n)). split; [by apply elem_of_map_to_list|].
      unfold f. cbn. by destruct (Z.eqb_spec n 0).
  - apply batch_value_notin. intros Hin. destruct (omap_keys f id _ _ Hf Hin) as (i & Hi & Ei); unfold id in Ei; subst i.
    apply list_elem_of_fmap in Hi as ([k v] & -> & Hi%elem_of_map_to_list). cbn in E, Hi. congruence.
Qed.

(** It puts at the key of an auxiliary entry the value in memory, when it is there. *)
Lemma batch_aux m h :
  (forall k, is_Some (MemoryDB.m_main m !! k) -> length k = 32%nat) -> length h = 32%nat ->
  batch_value (batch m) (aux_key h) =
  match MemoryDB.m_aux m !! h with
  | Some (v, true) => Some v
  | _ => None
  end.
Proof.
  intros Hmain Hlen. unfold batch. rewrite batch_value_app.
  rewrite (batch_value_notin (omap _ (map_to_list (MemoryDB.m_main m)))).
  2:{ intros Hin. apply (omap_keys _ id) in Hin as (i & Hi & Ei);
        [|intros [k [v n]] y; cbn; destruct (n =? 0); cbn; intros Ey; by simplify_eq].
      unfold id in Ei. subst i. apply list_elem_of_fmap in Hi as ([k v] & Ek & Hi%elem_of_map_to_list). cbn in Ek, Hi. subst k.
      pose proof (Hmain _ ltac:(by eexists)) as E. unfold aux_key in E. rewrite length_app in E. cbn in E. lia. }
  set (f := fun i : bytes * (bytes * bool) => _).
  assert (forall x y, f x = Some y -> fst y = aux_key (fst x) /\ snd y = fst (snd x) /\ snd (snd x) = true) as Hf.
  { intros [k [v [|]]] y; cbn; intros Ey; by simplify_eq. }
  assert (NoDup (omap f (map_to_list (MemoryDB.m_aux m))).*1) as Hnd.
  { pose proof (NoDup_fst_map_to_list (MemoryDB.m_aux m)) as Hd. revert Hd. generalize (map_to_list (MemoryDB.m_aux m)) as l. induction l as [|x l IH]; cbn; [done|].
    rewrite NoDup_cons. intros [Hn Hd]. destruct (f x) as [y|] eqn:E; [|by apply IH]. cbn. rewrite NoDup_cons. split; [|by apply IH].
    destruct (Hf _ _ E) as [-> _]. intros Hin. destruct (omap_keys f aux_key l _ ltac:(intros; by apply Hf) Hin) as (i & Hi & Ei).
    unfold aux_key in Ei. apply app_inj_tail in Ei as [Ei _]. apply Hn. by rewrite Ei. }
  destruct (batch_value (omap f _) (aux_key h)) as [w|] eqn:Ew.
  - destruct (MemoryDB.m_aux m !! h) as [[v [|]]|] eqn:E.
    + erewrite (batch_value_unique _ _ v Hnd) in Ew; [by rewrite Ew|]. apply list_elem_of_omap. exists (h, (v, true)). split; [by apply elem_of_map_to_list|done].
    + exfalso. apply batch_value_in in Ew. apply list_elem_of_omap in Ew as ([k [v' c]] & Hin%elem_of_map_to_list & Ef). destruct (Hf _ _ Ef) as (Ek & _ & Ec).
      cbn in Ek, Ec, Hin. unfold aux_key in Ek. apply app_inj_tail in Ek as [<- _]. rewrite E in Hin. congruence.
    + exfalso. apply batch_value_in in Ew. apply list_elem_of_omap in Ew as ([k [v' c]] & Hin%elem_of_map_to_list & Ef). destruct (Hf _ _ Ef) as (Ek & _ & Ec).
      cbn in Ek, Ec, Hin. unfold aux_key in Ek. apply app_inj_tail in Ek as [<- _]. congruence.
  - destruct (MemoryDB.m_aux m !! h) as [[v [|]]|] eqn:E; [|done..].
    erewrite (batch_value_unique _ _ v Hnd) in Ew; [done|]. apply list_elem_of_omap. exists (h, (v, true)). split; [by apply elem_of_map_to_list|done].
Qed.

(** C40: committing an overlay in front of a database writes what is in use, as one batch.
    Once one of up to ten attempts succeeds, nothing is left in memory; a node with a
    count above zero reads as the value in memory, which is what was read before if it is
    not empty; a node whose count had dropped to zero, or that was not in memory, reads
    as what the database held all along; and so for auxiliary entries, which are in use
    from [insertAux] to [removeAux].  The process ends only when the database refuses the batch. *)
Theorem commit_lookup (d : OverlayDB) (l : L) :
  m_db d = Some l -> MemoryDB.m_enforceRefs (memory d) = false ->
  (forall k, is_Some (MemoryDB.m_main (memory d) !! k) -> length k = 32%nat) ->
  (forall k, is_Some (MemoryDB.m_aux (memory d) !! k) -> length k = 32%nat) ->
  match commit d with
  | Some d' =>
      MemoryDB.m_main (memory d') = ∅ /\ MemoryDB.m_aux (memory d') = ∅ /\
      (forall h, length h = 32%nat ->
         lookup d' h = (if MemoryDB.refs (memory d) h =? 0 then disk d h
                        else from_option fst [] (MemoryDB.m_main (memory d) !! h)) /\
         (MemoryDB.refs (memory d) h <> 0 -> MemoryDB.lookup (memory d) h <> [] -> lookup d' h = lookup d h) /\
         lookupAux d' h = match MemoryDB.m_aux (memory d) !! h with
                          | Some (v, true) => v
                          | _ => disk d (aux_key h)
                          end)
  | None => fst (Write l (batch (memory d))) = false
  end.
Proof.
  intros Hl Href Hmain Haux. unfold commit. rewrite Hl.
  destruct (commit_loop 10 l (batch (memory d))) as [l'|] eqn:E.
  2: { cbn [commit_loop] in E. by destruct (fst (Write l (batch (memory d)))). }
  split; [done|]. split; [done|]. intros h Hh.
  assert (lookup {| memory := MemoryDB.clear (memory d); m_db := Some l' |} h =
          if MemoryDB.refs (memory d) h =? 0 then disk d h
          else from_option fst [] (MemoryDB.m_main (memory d) !! h)) as Heq.
  { unfold lookup. rewrite MemoryDB.lookup_plain by done. cbn [memory MemoryDB.clear MemoryDB.with_aux
      MemoryDB.with_main MemoryDB.m_main]. rewrite lookup_empty. cbn [from_option]. unfold disk. rewrite Hl. cbn [m_db].
    rewrite (commit_loop_Get _ _ _ _ _ E), (batch_main _ _ Haux Hh). unfold MemoryDB.refs.
    destruct (MemoryDB.m_main (memory d) !! h) as [[v n]|]; cbn; [|done]. by destruct (n =? 0). }
  split; [done|]. split.
  - intros Hn Hv. rewrite Heq. destruct (Z.eqb_spec (MemoryDB.refs (memory d) h) 0); [done|].
    unfold lookup. rewrite MemoryDB.lookup_plain in * by done. by destruct (from_option _ _ _).
  - unfold lookupAux, MemoryDB.lookupAux. cbn [memory m_db MemoryDB.clear MemoryDB.with_aux MemoryDB.with_main MemoryDB.m_aux]. rewrite lookup_empty.
    cbn. rewrite (commit_loop_Get _ _ _ _ _ E), (batch_aux _ _ Hmain Hh). unfold disk. rewrite Hl. by destruct (MemoryDB.m_aux (memory d) !! h) as [[v [|]]|].
Qed.

End WithLevelDB.
Arguments OverlayDB L : clear implicits.

(** A database that fails as its schedule says, then works. *)
#[local] Instance flaky_db : LevelDB (gmap bytes bytes * list bool) := {
  Get l k := default [] (fst l !! k);
  Write l b :=
    match snd l with
    | false :: f => (false, (fst l, f))
    | _ => (true, (foldl (fun m kv => <[fst kv := snd kv]> m) (fst l) b, drop 1 (snd l)))
    end;
}.

Lemma flaky_fold (b : list (bytes * bytes)) (m : gmap bytes bytes) (k : bytes) :
  default [] (foldl (fun (m : gmap bytes bytes) kv => <[fst kv := snd kv]> m) m b !! k) = default (default [] (m !! k)) (batch_value b k).
Proof.
  revert m. induction b as [|[k' v] b IH]; intros m; cbn; [done|]. rewrite IH.
  destruct (batch_value b k); [done|]. destruct (decide (k' = k)) as [->|]; cbn.
  - by rewrite lookup_insert_eq.
  - by rewrite lookup_insert_ne.
Qed.

#[local] Instance flaky_db_laws : LevelDBLaws (gmap bytes bytes * list bool).
Proof. constructor. intros [m [|[] f]] b k; cbn; try done; apply flaky_fold. Qed.

Lemma commit_lookup_witness :
  let h := replicate 32 7 in
  let d := insert {| memory := MemoryDB.empty; m_db := Some (∅ : gmap bytes bytes, [false; false]) |} h [1; 2] in
  match commit d with
  | Some d' => lookup d' h = [1; 2] /\ lookup d h = [1; 2] /\ MemoryDB.m_main (memory d') = ∅
  | None => False
  end.
Proof.
  cbv zeta. pose proof (commit_lookup (insert {| memory := MemoryDB.empty; m_db := Some (∅ : gmap bytes bytes, [false; false]) |} (replicate 32 7) [1; 2])
    _ eq_refl eq_refl) as H.
  destruct (commit _) as [d'|] eqn:E; [|vm_compute in E; discriminate].
  destruct H as (H1 & _ & H2).
  - intros k Hk. unfold insert, MemoryDB.insert in Hk. cbn [memory with_memory] in Hk.
    assert (MemoryDB.m_main MemoryDB.empty !! replicate 32 7 = None) as E0 by apply lookup_empty. rewrite E0 in Hk.
    cbn [MemoryDB.m_main MemoryDB.with_main] in Hk. apply lookup_insert_is_Some' in Hk as [<-|[x Hk]]; [done|]. change (MemoryDB.m_main MemoryDB.empty) with (∅ : gmap bytes (bytes * Z)) in Hk. by rewrite lookup_empty in Hk.
  - intros k [x Hx]. vm_compute in Hx. discriminate.
  - destruct (H2 (replicate 32 7) eq_refl) as (H3 & _). split; [rewrite H3; vm_compute; reflexivity|]. split; [vm_compute; reflexivity|done].
Defined.

End OverlayDB.
