(* ===== verification/TrieCommon.v ===== *)
(** * TrieCommon: nibbles and keys of trie nodes (libdevcore/TrieCommon.h, TrieCommon.cpp)

    A key is a string of nibbles, kept as a view of bytes from a nibble offset
    ([NibbleSlice]); inside nodes it is packed into bytes with a prefix that says
    its parity and whether the node is a leaf ([hexPrefixEncode], [keyOf]). The
    lemmas relate these to plain lists of nibbles: [nibs] is what a slice denotes
    and [hp] the packed form of a list. *)

From stdpp Require Import base list numbers option.
From Stdlib Require Import ZArith Lia.
From S2P Require Import Prelude.
From S2P Require Import Bytes.
From S2P Require Import Rlp.
Import VectorRef CommonData RLP.

Module TrieCommon.

(** ** The code *)

Definition nibble (_data : bytes) (_i : Z) : result exn Z :=
  let! b := ref_at _data (_i / 2) in
  Ok (if negb (Z.land _i 1 =? 0) then Z.land b 15 else Z.shiftr b 4).

(** The [while] of [sharedNibbles]: at most one iteration per nibble of the
    first range. *)
Fixpoint sharedNibbles_loop (fuel : nat) (_first : bytes) (_beginFirst _endFirst : Z)
    (_second : bytes) (_beginSecond _endSecond ret : Z) : result exn Z :=
  if (_beginFirst <? _endFirst) && (_beginSecond <? _endSecond) then
    match fuel with
    | O => Err NoFuel
    | S f =>
        let! a := nibble _first _beginFirst in
        let! b := nibble _second _beginSecond in
        if a =? b then
          sharedNibbles_loop f _first (_beginFirst + 1) _endFirst _second (_beginSecond + 1) _endSecond (ret + 1)
        else Ok ret
    end
  else Ok ret.
Definition sharedNibbles (_first : bytes) (_beginFirst _endFirst : Z)
    (_second : bytes) (_beginSecond _endSecond : Z) : result exn Z :=
  sharedNibbles_loop (Z.to_nat (_endFirst - _beginFirst)) _first _beginFirst _endFirst
    _second _beginSecond _endSecond 0.

Record NibbleSlice := { ns_data : bytes; ns_offset : Z }.

Definition slice (_data : bytes) (_offset : Z) : NibbleSlice :=
  {| ns_data := _data; ns_offset := _offset |}.
Definition ns_at (s : NibbleSlice) (_index : Z) : result exn Z :=
  nibble (ns_data s) (wrap 32 (ns_offset s + _index)).
Definition ns_size (s : NibbleSlice) : Z := wrap 32 (zlen (ns_data s) * 2 - ns_offset s).
Definition ns_empty (s : NibbleSlice) : bool := ns_size s =? 0.
Definition ns_mid (s : NibbleSlice) (_index : Z) : NibbleSlice :=
  slice (ns_data s) (wrap 32 (ns_offset s + _index)).
Definition ns_clear : NibbleSlice := slice [] 0.
Definition ns_shared (s _k : NibbleSlice) : result exn Z :=
  sharedNibbles (ns_data s) (ns_offset s) (wrap 32 (ns_offset s + ns_size s))
    (ns_data _k) (ns_offset _k) (wrap 32 (ns_offset _k + ns_size _k)).
Definition ns_contains (s _k : NibbleSlice) : result exn bool :=
  let! n := ns_shared s _k in Ok (n =? ns_size _k).
Definition ns_eq (s _k : NibbleSlice) : result exn bool :=
  if negb (ns_size _k =? ns_size s) then Ok false else
  let! n := ns_shared s _k in Ok (n =? ns_size _k).

(** The loop of [isEarlierThan], from [i]. *)
Fixpoint isEarlierThan_loop (fuel : nat) (s _k : NibbleSlice) (i : Z) : result exn bool :=
  if (i <? ns_size _k) && (i <? ns_size s) then
    match fuel with
    | O => Err NoFuel
    | S f =>
        let! a := ns_at s i in
        let! b := ns_at _k i in
        if a <? b then Ok true
        else if b <? a then Ok false
        else isEarlierThan_loop f s _k (i + 1)
    end
  else if ns_size _k <=? i then Ok false else Ok true.
Definition isEarlierThan (s _k : NibbleSlice) : result exn bool :=
  isEarlierThan_loop (Z.to_nat (ns_size s)) s _k 0.

(** The first byte, [((_leaf ? 2 : 0) | (odd ? 1 : 0)) * 16]. *)
Definition hp_prefix (_leaf odd : bool) : Z :=
  Z.lor (if _leaf then 2 else 0) (if odd then 1 else 0) * 16.

(** The body of the loops: [ret.back() |= n] or [ret.push_back(n << 4)]. *)
Definition hp_step (ret : bytes) (d n : Z) : bytes :=
  if negb (Z.land d 1 =? 0)
  then <[Nat.pred (List.length ret) := Z.lor (List.last ret 0) n]> ret
  else ret ++ [wrap 8 (Z.shiftl n 4)].

Fixpoint hp_loop (fuel : nat) (_data : bytes) (i end_ d : Z) (ret : bytes) : result exn (bytes * Z) :=
  if i <? end_ then
    match fuel with
    | O => Err NoFuel
    | S f =>
        let! n := nibble _data i in
        hp_loop f _data (i + 1) end_ (d + 1) (hp_step ret d n)
    end
  else Ok (ret, d).

(** [hexPrefixEncode(bytesConstRef, bool, int, int, unsigned)]. *)
Definition hexPrefixEncode_ref (_data : bytes) (_leaf : bool) (_beginNibble _endNibble _offset : Z)
    : result exn bytes :=
  let begin := wrap 32 (_beginNibble + _offset) in
  let end_ := wrap 32 ((if _endNibble <? 0 then zlen _data * 2 - _offset + 1 + _endNibble else _endNibble) + _offset) in
  let odd := negb (Z.land (wrap 32 (end_ - begin)) 1 =? 0) in
  let! r := hp_loop (Z.to_nat (end_ - begin)) _data begin end_ (if odd then 1 else 2) [hp_prefix _leaf odd] in
  Ok (fst r).

(** [hexPrefixEncode(bytesConstRef, unsigned, bytesConstRef, unsigned, bool)]. *)
Definition hexPrefixEncode_two (_d1 : bytes) (_o1 : Z) (_d2 : bytes) (_o2 : Z) (_leaf : bool)
    : result exn bytes :=
  let end1 := wrap 32 (zlen _d1 * 2) in
  let end2 := wrap 32 (zlen _d2 * 2) in
  let odd := negb (Z.land (wrap 32 (end1 - _o1 + end2 - _o2)) 1 =? 0) in
  let! r := hp_loop (Z.to_nat (end1 - _o1)) _d1 _o1 end1 (if odd then 1 else 2) [hp_prefix _leaf odd] in
  let! r := hp_loop (Z.to_nat (end2 - _o2)) _d2 _o2 end2 (snd r) (fst r) in
  Ok (fst r).

(** [hexPrefixEncode(NibbleSlice, bool, int, int)], of two slices, and of a vector
    of nibbles. *)
Definition hexPrefixEncode (_s : NibbleSlice) (_leaf : bool) (_begin _end : Z) : result exn bytes :=
  hexPrefixEncode_ref (ns_data _s) _leaf _begin _end (ns_offset _s).
Definition hexPrefixEncode_slices (_s1 _s2 : NibbleSlice) (_leaf : bool) : result exn bytes :=
  hexPrefixEncode_two (ns_data _s1) (ns_offset _s1) (ns_data _s2) (ns_offset _s2) _leaf.

(** [for (unsigned i = begin; i < end; i += 2)]. *)
Fixpoint hexVector_loop (fuel : nat) (_hexVector : bytes) (i end_ : Z) (ret : bytes) : result exn bytes :=
  if i <? end_ then
    match fuel with
    | O => Err NoFuel
    | S f =>
        let! a := ref_at _hexVector i in
        let! b := ref_at _hexVector (i + 1) in
        hexVector_loop f _hexVector (i + 2) end_ (ret ++ [wrap 8 (a * 16 + b)])
    end
  else Ok ret.
Definition hexPrefixEncode_vec (_hexVector : bytes) (_leaf : bool) (_begin _end : Z) : result exn bytes :=
  let end_ := wrap 32 (if _end <? 0 then zlen _hexVector + 1 + _end else _end) in
  let odd := negb (wrap 32 (end_ - _begin) mod 2 =? 0) in
  if odd then
    let! n := ref_at _hexVector _begin in
    hexVector_loop (Z.to_nat (end_ - _begin)) _hexVector (_begin + 1) end_ [Z.lor (hp_prefix _leaf odd) n]
  else hexVector_loop (Z.to_nat (end_ - _begin)) _hexVector _begin end_ [hp_prefix _leaf odd].

(** [isLeaf(RLP)], with its assertion. *)
Definition isLeaf (_twoItem : bytes) : result exn bool :=
  let! c := itemCount _twoItem in
  if negb (isList _twoItem && (c =? 2)) then Err AssertFailure else
  let! k := nth _twoItem 0 in
  let! pl := payload k in
  let! b := ref_at pl 0 in
  Ok (negb (Z.land b 0x20 =? 0)).

(** [keyOf(bytesConstRef)] and [keyOf(RLP)]. *)
Definition keyOf_ref (_hpe : bytes) : NibbleSlice :=
  match _hpe with
  | [] => slice _hpe 0
  | b :: _ => if negb (Z.land b 0x10 =? 0) then slice _hpe 1 else slice _hpe 2
  end.
Definition keyOf (_twoItem : bytes) : result exn NibbleSlice :=
  let! k := nth _twoItem 0 in
  let! pl := payload k in
  Ok (keyOf_ref pl).

(** [uniqueInUse]: the loop over the 17 items. *)
Fixpoint uniqueInUse_loop (ixs : list Z) (_orig : bytes) (except used : Z) : result exn Z :=
  match ixs with
  | [] => Ok used
  | i :: ixs' =>
      if negb (i =? except) then
        let! it := nth _orig i in
        if negb (isEmpty it) then
          if used =? 255 then uniqueInUse_loop ixs' _orig except i else Ok 255
        else uniqueInUse_loop ixs' _orig except used
      else uniqueInUse_loop ixs' _orig except used
  end.
Definition uniqueInUse (_orig : bytes) (except : Z) : result exn Z :=
  uniqueInUse_loop (map Z.of_nat (seq 0 17)) _orig except 255.

(** ** Slices as lists of nibbles *)

Definition is_nibble (n : Z) : Prop := 0 <= n < 16.
Definition nibs_ok (k : list Z) : Prop := Forall is_nibble k.

(** The nibbles a slice denotes; slices within 32-bit sizes. *)
Definition nibs (s : NibbleSlice) : list Z := zdrop (ns_offset s) (asNibbles (ns_data s)).
Definition slice_ok (s : NibbleSlice) : Prop :=
  bytes_ok (ns_data s) /\ 0 <= ns_offset s <= 2 * zlen (ns_data s) /\ 2 * zlen (ns_data s) < 2 ^ 31.

Lemma asNibbles_lookup d i :
  0 <= i < 2 * zlen d ->
  exists b, d !! Z.to_nat (i / 2) = Some b /\
    asNibbles d !! Z.to_nat i = Some (if Z.odd i then b mod 16 else b / 16).
Proof.
  revert i. induction d as [|b d IH]; intros i Hi; [simpl in Hi; lia|].
  rewrite zlen_cons in Hi. destruct (Z.eq_dec i 0) as [->|]; [by exists b|].
  destruct (Z.eq_dec i 1) as [->|]; [by exists b|].
  destruct (IH (i - 2) ltac:(lia)) as (c & H1 & H2). exists c.
  replace (i / 2) with ((i - 2) / 2 + 1) by (rewrite <- Z.div_add by lia; f_equal; lia).
  replace (Z.to_nat ((i - 2) / 2 + 1)) with (S (Z.to_nat ((i - 2) / 2)))
    by (assert (0 <= (i - 2) / 2) by (apply Z.div_pos; lia); lia).
  split; [done|]. replace (Z.to_nat i) with (S (S (Z.to_nat (i - 2)))) by lia.
  rewrite Z.odd_sub in H2. change (Z.odd 2) with false in H2. rewrite xorb_false_r in H2. exact H2.
Qed.

Lemma land_1_odd i : negb (Z.land i 1 =? 0) = Z.odd i.
Proof.
  change 1 with (Z.ones 1). rewrite Z.land_ones by lia. change (2 ^ 1) with 2. rewrite Zmod_odd.
  by destruct (Z.odd i).
Qed.

Lemma nibble_spec d i :
  0 <= i < 2 * zlen d -> exists n, nibble d i = Ok n /\ asNibbles d !! Z.to_nat i = Some n.
Proof.
  intros Hi. destruct (asNibbles_lookup d i Hi) as (b & H1 & H2). eexists. split; [|exact H2].
  unfold nibble, ref_at, zat. destruct (Z.ltb_spec (i / 2) 0) as [Hl|_].
  { pose proof (Z.div_pos i 2 ltac:(lia) ltac:(lia)). lia. }
  rewrite H1. cbn [result_bind]. rewrite land_1_odd. f_equal. destruct (Z.odd i).
  - change 15 with (Z.ones 4). rewrite Z.land_ones by lia. done.
  - rewrite Z.shiftr_div_pow2 by lia. done.
Qed.

Lemma nibs_nibs_ok s : slice_ok s -> nibs_ok (nibs s).
Proof. intros [H _]. apply Forall_drop, asNibbles_range, H. Qed.

Lemma nibs_length s : slice_ok s -> zlen (nibs s) = 2 * zlen (ns_data s) - ns_offset s.
Proof. intros (_ & H & _). unfold nibs. rewrite zlen_zdrop, asNibbles_length; [lia|]. rewrite asNibbles_length. lia. Qed.

Lemma ns_size_spec s : slice_ok s -> ns_size s = zlen (nibs s).
Proof.
  intros Hs. rewrite nibs_length by done. destruct Hs as (_ & H & Hm). unfold ns_size.
  rewrite wrap_small by (unfold uint_ok; lia). lia.
Qed.

Lemma ns_at_spec s i :
  slice_ok s -> 0 <= i < zlen (nibs s) -> exists n, ns_at s i = Ok n /\ nibs s !! Z.to_nat i = Some n.
Proof.
  intros Hs Hi. rewrite nibs_length in Hi by done. pose proof Hs as (_ & H & Hm). unfold ns_at.
  rewrite wrap_small by (unfold uint_ok; lia).
  destruct (nibble_spec (ns_data s) (ns_offset s + i) ltac:(lia)) as (n & -> & Hn). exists n. split; [done|].
  unfold nibs, zdrop. rewrite lookup_drop. rewrite <- Hn. f_equal. lia.
Qed.

Lemma ns_mid_spec s i :
  slice_ok s -> 0 <= i <= zlen (nibs s) -> slice_ok (ns_mid s i) /\ nibs (ns_mid s i) = zdrop i (nibs s).
Proof.
  intros Hs Hi. rewrite nibs_length in Hi by done. destruct Hs as (Hb & H & Hm).
  unfold ns_mid. rewrite wrap_small by (unfold uint_ok; lia). split.
  - split; [done|]. cbn. lia.
  - unfold nibs, zdrop. cbn. rewrite drop_drop. f_equal. lia.
Qed.

Lemma slice_0 d : bytes_ok d -> 2 * zlen d < 2 ^ 31 -> slice_ok (slice d 0) /\ nibs (slice d 0) = asNibbles d.
Proof. intros. split; [|done]. split; [done|]. cbn. lia. Qed.

Lemma zdrop_lookup_cons {A} (l : list A) i x :
  0 <= i -> l !! Z.to_nat i = Some x -> zdrop i l = x :: zdrop (i + 1) l.
Proof.
  intros Hi Hx. unfold zdrop. replace (Z.to_nat (i + 1)) with (S (Z.to_nat i)) by lia. by apply drop_S.
Qed.

Lemma commonPrefix_nonneg a b : 0 <= commonPrefix a b.
Proof. revert b. induction a as [|x a IH]; intros [|y b]; cbn; try lia. destruct (x =? y); [specialize (IH b)|]; lia. Qed.

Lemma sharedNibbles_spec f b1 s b2 fuel ret :
  0 <= b1 <= 2 * zlen f -> 0 <= b2 <= 2 * zlen s -> 2 * zlen f - b1 <= Z.of_nat fuel ->
  sharedNibbles_loop fuel f b1 (2 * zlen f) s b2 (2 * zlen s) ret =
  Ok (ret + commonPrefix (zdrop b1 (asNibbles f)) (zdrop b2 (asNibbles s))).
Proof.
  revert b1 b2 ret. induction fuel as [|fuel IH]; intros b1 b2 ret H1 H2 Hf; cbn [sharedNibbles_loop].
  - destruct (Z.ltb_spec b1 (2 * zlen f)); [lia|]. cbn [andb].
    rewrite zdrop_all by (rewrite asNibbles_length; lia). cbn. f_equal. lia.
  - destruct (Z.ltb_spec b1 (2 * zlen f)); cbn [andb].
    2:{ rewrite zdrop_all by (rewrite asNibbles_length; lia). cbn. f_equal. lia. }
    destruct (nibble_spec f b1 ltac:(lia)) as (x & Ex & Hx).
    rewrite (zdrop_lookup_cons (asNibbles f) b1 x) by (done || lia).
    destruct (Z.ltb_spec b2 (2 * zlen s)).
    2:{ rewrite (zdrop_all (asNibbles s)) by (rewrite asNibbles_length; lia). cbn. f_equal. lia. }
    destruct (nibble_spec s b2 ltac:(lia)) as (y & Ey & Hy).
    rewrite (zdrop_lookup_cons (asNibbles s) b2 y) by (done || lia).
    rewrite Ex, Ey. cbn [result_bind commonPrefix]. destruct (x =? y).
    + rewrite IH by lia. f_equal. lia.
    + f_equal. lia.
Qed.

Lemma ns_shared_spec s k :
  slice_ok s -> slice_ok k -> ns_shared s k = Ok (commonPrefix (nibs s) (nibs k)).
Proof.
  intros Hs Hk. unfold ns_shared. rewrite !ns_size_spec, !nibs_length by done.
  destruct Hs as (_ & Hs & Hs'), Hk as (_ & Hk & Hk').
  rewrite !wrap_small by (unfold uint_ok; lia).
  replace (ns_offset s + _) with (2 * zlen (ns_data s)) by lia.
  replace (ns_offset k + _) with (2 * zlen (ns_data k)) by lia.
  unfold sharedNibbles. rewrite sharedNibbles_spec by lia. done.
Qed.

Lemma commonPrefix_le_r a b : commonPrefix a b <= zlen b.
Proof. revert b. induction a as [|x a IH]; intros [|y b]; cbn [commonPrefix]; rewrite ?zlen_cons; try (simpl; lia). destruct (x =? y); [specialize (IH b)|]; lia. Qed.
Lemma commonPrefix_le_l a b : commonPrefix a b <= zlen a.
Proof. revert b. induction a as [|x a IH]; intros [|y b]; cbn [commonPrefix]; rewrite ?zlen_cons; try (simpl; lia). destruct (x =? y); [specialize (IH b)|]; lia. Qed.

(** [b] is wholly shared exactly when it is a prefix. *)
Lemma commonPrefix_full a b : (commonPrefix a b =? zlen b) = bool_decide (b `prefix_of` a).
Proof.
  revert b. induction a as [|x a IH]; intros [|y b]; cbn [commonPrefix].
  - by rewrite bool_decide_true by apply prefix_nil.
  - rewrite bool_decide_false by apply prefix_nil_not. rewrite zlen_cons. by zbool.
  - by rewrite bool_decide_true by apply prefix_nil.
  - rewrite zlen_cons. destruct (Z.eqb_spec x y) as [->|Hn].
    + replace (1 + commonPrefix a b =? zlen b + 1) with (commonPrefix a b =? zlen b) by (repeat zbool_step; lia).
      rewrite IH. apply bool_decide_ext. split; [by apply prefix_cons|by apply prefix_cons_inv_2].
    + rewrite bool_decide_false by (intros ->%prefix_cons_inv_1; done). by zbool.
Qed.

Lemma ns_contains_spec s k :
  slice_ok s -> slice_ok k -> ns_contains s k = Ok (bool_decide (nibs k `prefix_of` nibs s)).
Proof.
  intros Hs Hk. unfold ns_contains. rewrite ns_shared_spec, ns_size_spec by done. cbn [result_bind].
  by rewrite commonPrefix_full.
Qed.

Lemma ns_eq_spec s k :
  slice_ok s -> slice_ok k -> ns_eq s k = Ok (bool_decide (nibs s = nibs k)).
Proof.
  intros Hs Hk. unfold ns_eq. rewrite ns_shared_spec, !ns_size_spec by done. cbn [result_bind].
  destruct (Z.eqb_spec (zlen (nibs k)) (zlen (nibs s))) as [E|E]; cbn [negb].
  - rewrite commonPrefix_full. f_equal. apply bool_decide_ext. split; [|by intros ->].
    intros Hp. symmetry. apply prefix_length_eq; [done|lia].
  - rewrite bool_decide_false; [done|]. congruence.
Qed.

(** ** Packed keys *)

(** Two nibbles to a byte; and the packed form of a key with its prefix. *)
Fixpoint pack (k : list Z) : bytes :=
  match k with
  | a :: b :: r => a * 16 + b :: pack r
  | _ => []
  end.
Definition hp (leaf : bool) (k : list Z) : bytes :=
  let flag := if leaf then 2 else 0 in
  if Nat.odd (List.length k) then
    match k with
    | n :: r => (flag + 1) * 16 + n :: pack r
    | [] => []
    end
  else flag * 16 :: pack k.

Fixpoint hp_fold (d : Z) (ret : bytes) (ns : list Z) : bytes :=
  match ns with
  | [] => ret
  | n :: r => hp_fold (d + 1) (hp_step ret d n) r
  end.

Lemma hp_fold_app d ret a b : hp_fold d ret (a ++ b) = hp_fold (d + zlen a) (hp_fold d ret a) b.
Proof.
  revert d ret. induction a as [|n a IH]; intros d ret; cbn [hp_fold app].
  - f_equal. simpl. lia.
  - rewrite IH. f_equal. rewrite zlen_cons. lia.
Qed.

Lemma hp_loop_spec fuel data i end_ d ret :
  0 <= i <= end_ -> end_ <= 2 * zlen data -> end_ - i <= Z.of_nat fuel ->
  hp_loop fuel data i end_ d ret =
  Ok (hp_fold d ret (ztake (end_ - i) (zdrop i (asNibbles data))), d + (end_ - i)).
Proof.
  revert i d ret. induction fuel as [|fuel IH]; intros i d ret Hi He Hf; cbn [hp_loop].
  - destruct (Z.ltb_spec i end_); [lia|]. replace (end_ - i) with 0 by lia. by rewrite Z.add_0_r.
  - destruct (Z.ltb_spec i end_).
    2:{ replace (end_ - i) with 0 by lia. by rewrite Z.add_0_r. }
    destruct (nibble_spec data i ltac:(lia)) as (n & -> & Hn). cbn [result_bind].
    rewrite IH by lia. rewrite (zdrop_lookup_cons (asNibbles data) i n) by (done || lia).
    replace (ztake (end_ - i) (n :: zdrop (i + 1) (asNibbles data)))
      with (n :: ztake (end_ - (i + 1)) (zdrop (i + 1) (asNibbles data))).
    2:{ unfold ztake. by replace (Z.to_nat (end_ - i)) with (S (Z.to_nat (end_ - (i + 1)))) by lia. }
    cbn [hp_fold]. do 2 f_equal. lia.
Qed.

Lemma lor_nibble a n : a mod 16 = 0 -> is_nibble n -> Z.lor a n = a + n.
Proof.
  intros Ha Hn. unfold is_nibble in Hn.
  assert (Z.land a n = 0) as Hl.
  { apply Z.bits_inj'; intros m Hm. rewrite Z.land_spec, Z.bits_0. destruct (Z.ltb_spec m 4).
    - rewrite (Z.div_mod a 16), Ha, Z.add_0_r by lia. change 16 with (2 ^ 4).
      rewrite Z.mul_comm, Z.mul_pow2_bits_low by lia. done.
    - rewrite <- (Z.mod_small n (2 ^ 4)) by lia.
      by rewrite Z.mod_pow2_bits_high, andb_false_r by lia. }
  rewrite <- Z.lxor_lor, <- Z.add_nocarry_lxor by done. done.
Qed.

Lemma hp_step_odd ret x d n :
  Z.odd d = true -> x mod 16 = 0 -> is_nibble n -> hp_step (ret ++ [x]) d n = ret ++ [x + n].
Proof.
  intros Hd Hx Hn. unfold hp_step. rewrite land_1_odd, Hd, last_last, lor_nibble by done.
  rewrite length_app, Nat.add_1_r. cbn [Nat.pred]. rewrite insert_app_r_alt, Nat.sub_diag by lia. done.
Qed.

Lemma hp_step_even ret d n :
  Z.odd d = false -> is_nibble n -> hp_step ret d n = ret ++ [n * 16].
Proof.
  intros Hd Hn. unfold hp_step, is_nibble in *. rewrite land_1_odd, Hd.
  rewrite Z.shiftl_mul_pow2, wrap_small by (unfold uint_ok; lia). done.
Qed.

Lemma hp_fold_pack m d ret ns :
  Z.odd d = false -> List.length ns = (2 * m)%nat -> nibs_ok ns -> hp_fold d ret ns = ret ++ pack ns.
Proof.
  revert d ret ns. induction m as [|m IH]; intros d ret ns Hd Hl Hn.
  - destruct ns; [|done]. cbn. by rewrite app_nil_r.
  - destruct ns as [|a [|b ns]]; [done|simpl in Hl; lia|]. inversion Hn as [|? ? Ha Hn']; subst.
    inversion Hn' as [|? ? Hb Hns]; subst. cbn [hp_fold pack].
    rewrite (hp_step_even ret d a Hd Ha), (hp_step_odd ret (a * 16) (d + 1) b).
    + rewrite IH; [by rewrite <- app_assoc| |simpl in Hl; lia|done].
      by rewrite <- Z.add_assoc, Z.odd_add, Hd.
    + by rewrite Z.odd_add, Hd.
    + apply Z.mod_mul; lia.
    + done.
Qed.

Lemma hp_fold_spec leaf ns :
  nibs_ok ns ->
  hp_fold (if Nat.odd (List.length ns) then 1 else 2)
    [hp_prefix leaf (Nat.odd (List.length ns))] ns = hp leaf ns.
Proof.
  intros Hns. unfold hp. destruct (Nat.odd (List.length ns)) eqn:Ho.
  - destruct ns as [|n r]; [done|]. inversion Hns as [|? ? Hn Hr]; subst. cbn [hp_fold].
    change ([hp_prefix leaf true]) with ([] ++ [hp_prefix leaf true]).
    rewrite (hp_step_odd [] _ 1 n eq_refl) by (done || by destruct leaf).
    apply Nat.odd_spec in Ho as [m Hm]. simpl in Hm. cbn [app].
    rewrite (hp_fold_pack m) by (done || lia). by destruct leaf.
  - rewrite <- Nat.negb_even in Ho. apply negb_false_iff, Nat.even_spec in Ho as [m Hm].
    rewrite (hp_fold_pack m) by (done || lia). by destruct leaf.
Qed.

Lemma odd_zlen {A} (l : list A) : Z.odd (zlen l) = Nat.odd (List.length l).
Proof.
  induction l as [|x l IH]; [done|]. rewrite zlen_cons, Z.odd_add, IH. cbn [List.length].
  rewrite Nat.odd_succ, <- Nat.negb_odd. by destruct (Nat.odd _).
Qed.

Lemma odd_wrap z : Z.odd (wrap 32 z) = Z.odd z.
Proof.
  unfold wrap. rewrite (Z.div_mod z (2 ^ 32)) at 2 by lia.
  by rewrite Z.odd_add, Z.odd_mul.
Qed.

(** [hexPrefixEncode] of nibbles [_begin, e) of a slice, where [e] is given by
    [_end], or is the end of the slice when that is -1. *)
Lemma hexPrefixEncode_spec s leaf b e :
  slice_ok s -> 0 <= b <= (if e <? 0 then zlen (nibs s) else e) -> e = -1 \/ 0 <= e <= zlen (nibs s) ->
  hexPrefixEncode s leaf b e =
  Ok (hp leaf (ztake ((if e <? 0 then zlen (nibs s) else e) - b) (zdrop b (nibs s)))).
Proof.
  intros Hs Hb He. pose proof (nibs_nibs_ok s Hs) as Hok. rewrite nibs_length in * by done. pose proof Hs as (_ & Ho & Hm).
  unfold hexPrefixEncode, hexPrefixEncode_ref.
  set (e' := (if e <? 0 then 2 * zlen (ns_data s) - ns_offset s else e) + ns_offset s).
  replace ((if e <? 0 then zlen (ns_data s) * 2 - ns_offset s + 1 + e else e) + ns_offset s) with e'
    by (unfold e'; destruct (Z.ltb_spec e 0); lia).
  assert (0 <= b + ns_offset s <= e' /\ e' <= 2 * zlen (ns_data s)) as [H1 H2]
    by (unfold e'; destruct (Z.ltb_spec e 0); lia).
  rewrite !wrap_small by (unfold uint_ok; lia). rewrite hp_loop_spec by lia. cbn [result_bind fst].
  rewrite land_1_odd. f_equal.
  replace (zdrop b (nibs s)) with (zdrop (b + ns_offset s) (asNibbles (ns_data s)))
    by (unfold nibs, zdrop; rewrite drop_drop; f_equal; lia).
  replace ((if e <? 0 then 2 * zlen (ns_data s) - ns_offset s else e) - b) with (e' - (b + ns_offset s))
    by (unfold e'; lia).
  set (l := ztake _ _). replace (e' - (b + ns_offset s)) with (zlen l).
  2:{ unfold l. rewrite zlen_ztake; [done|]. rewrite zlen_zdrop by (rewrite asNibbles_length; lia).
      rewrite asNibbles_length. lia. }
  rewrite odd_zlen. apply hp_fold_spec. unfold l. apply Forall_take, Forall_drop, asNibbles_range, Hs.
Qed.

Lemma hexPrefixEncode_slices_spec s1 s2 leaf :
  slice_ok s1 -> slice_ok s2 ->
  hexPrefixEncode_slices s1 s2 leaf = Ok (hp leaf (nibs s1 ++ nibs s2)).
Proof.
  intros H1 H2. pose proof (nibs_length s1 H1) as L1. pose proof (nibs_length s2 H2) as L2.
  pose proof (nibs_nibs_ok s1 H1). pose proof (nibs_nibs_ok s2 H2).
  destruct H1 as (_ & Ho1 & Hm1), H2 as (_ & Ho2 & Hm2).
  unfold hexPrefixEncode_slices, hexPrefixEncode_two.
  rewrite !(wrap_small 32 (_ * 2)) by (unfold uint_ok; lia). rewrite land_1_odd, odd_wrap.
  replace (zlen (ns_data s1) * 2 - ns_offset s1 + zlen (ns_data s2) * 2 - ns_offset s2)
    with (zlen (nibs s1 ++ nibs s2)) by (rewrite zlen_app; lia).
  rewrite odd_zlen, hp_loop_spec by lia. cbn [result_bind fst snd]. rewrite hp_loop_spec by lia.
  cbn [result_bind fst snd]. f_equal. rewrite <- hp_fold_spec by (apply Forall_app; done).
  rewrite (ztake_all (zdrop (ns_offset s1) _)), (ztake_all (zdrop (ns_offset s2) _))
    by (fold (nibs s1); fold (nibs s2); lia).
  fold (nibs s1). fold (nibs s2). rewrite (hp_fold_app _ _ (nibs s1)). f_equal. lia.
Qed.

Lemma pack_asNibbles m ns :
  List.length ns = (2 * m)%nat -> nibs_ok ns -> asNibbles (pack ns) = ns /\ bytes_ok (pack ns).
Proof.
  revert ns. induction m as [|m IH]; intros ns Hl Hn.
  - destruct ns; [|done]. split; [done|constructor].
  - destruct ns as [|a [|b ns]]; [done|simpl in Hl; lia|]. inversion Hn as [|? ? Ha Hn']; subst.
    inversion Hn' as [|? ? Hb Hns]; subst. unfold is_nibble in *.
    destruct (IH ns ltac:(simpl in Hl; lia) Hns) as [E Ho]. cbn [pack asNibbles List.flat_map app].
    fold (asNibbles (pack ns)). rewrite E. split.
    + f_equal; [|f_equal].
      * rewrite Z.div_add_l, Z.div_small by lia. lia.
      * rewrite Z.add_comm, Z.mod_add, Z.mod_small by lia. done.
    + constructor; [unfold is_byte; lia|done].
Qed.

Lemma pack_length m ns : List.length ns = (2 * m)%nat -> List.length (pack ns) = m.
Proof.
  revert ns. induction m as [|m IH]; intros ns Hl; [by destruct ns|].
  destruct ns as [|a [|b ns]]; [done|simpl in Hl; lia|]. cbn. f_equal. apply IH. simpl in Hl. lia.
Qed.

(** The packed form, by the parity of the key. *)
Lemma hp_cases leaf k :
  nibs_ok k ->
  (exists m, List.length k = (2 * m)%nat /\ hp leaf k = (if leaf then 32 else 0) :: pack k) \/
  (exists m n r, k = n :: r /\ is_nibble n /\ nibs_ok r /\ List.length r = (2 * m)%nat /\
     hp leaf k = (if leaf then 48 else 16) + n :: pack r).
Proof.
  intros Hk. unfold hp. destruct (Nat.odd (List.length k)) eqn:Ho.
  - right. apply Nat.odd_spec in Ho as [m Hm]. destruct k as [|n r]; [simpl in Hm; lia|].
    inversion Hk; subst. exists m, n, r. split_and!; [done|done|done|simpl in Hm; lia|]. by destruct leaf.
  - left. rewrite <- Nat.negb_even in Ho. apply negb_false_iff, Nat.even_spec in Ho as [m Hm].
    exists m. split; [done|]. by destruct leaf.
Qed.

Lemma hp_ok leaf k : nibs_ok k -> bytes_ok (hp leaf k) /\ 1 <= zlen (hp leaf k) <= 1 + zlen k.
Proof.
  intros Hk. destruct (hp_cases leaf k Hk) as [(m & Hm & ->)|(m & n & r & -> & Hn & Hr & Hm & ->)];
    (destruct (pack_asNibbles m _ Hm ltac:(done)) as [_ Hp]; pose proof (pack_length m _ Hm);
     split; [constructor; [|done]; unfold is_byte, is_nibble in *; destruct leaf; lia|]);
    rewrite ?zlen_cons; lia.
Qed.

Lemma land_bit_16 n : is_nibble n -> forall a, a mod 16 = 0 -> Z.land (a + n) 16 = Z.land a 16 /\ Z.land (a + n) 32 = Z.land a 32.
Proof.
  intros Hn a Ha. rewrite <- lor_nibble by done. rewrite !Z.land_lor_distr_l.
  assert (Z.land n 16 = 0 /\ Z.land n 32 = 0) as [-> ->]; [|by rewrite !Z.lor_0_r].
  unfold is_nibble in Hn.
  assert (forall z, 0 <= z < Z.of_nat 16 -> ((Z.land z 16 =? 0) && (Z.land z 32 =? 0)) = true) as Hall
    by (apply Z_forall_below; reflexivity).
  specialize (Hall n ltac:(lia)). apply andb_true_iff in Hall as [?%Z.eqb_eq ?%Z.eqb_eq]. done.
Qed.

(** Reading the packed form back: the key and the leaf flag. *)
Lemma keyOf_hp leaf k :
  nibs_ok k -> zlen k < 2 ^ 29 ->
  slice_ok (keyOf_ref (hp leaf k)) /\ nibs (keyOf_ref (hp leaf k)) = k.
Proof.
  intros Hk Hl. pose proof (hp_ok leaf k Hk) as [Hb Hz].
  destruct (hp_cases leaf k Hk) as [(m & Hm & E)|(m & n & r & -> & Hn & Hr & Hm & E)]; rewrite E in *.
  - destruct (pack_asNibbles m _ Hm Hk) as [Ep Hp]. cbn [keyOf_ref].
    replace (negb (Z.land (if leaf then 32 else 0) 16 =? 0)) with false by (by destruct leaf).
    split; [split; [done|]; cbn [slice ns_data ns_offset List.length] in *; lia|].
    unfold nibs, zdrop. cbn [slice ns_data ns_offset asNibbles List.flat_map app Z.to_nat].
    fold (asNibbles (pack k)). by rewrite Ep.
  - destruct (pack_asNibbles m _ Hm Hr) as [Ep Hp]. cbn [keyOf_ref].
    rewrite (proj1 (land_bit_16 n Hn (if leaf then 48 else 16) ltac:(by destruct leaf))).
    replace (negb (Z.land (if leaf then 48 else 16) 16 =? 0)) with true by (by destruct leaf).
    split; [split; [done|]; cbn [slice ns_data ns_offset List.length] in *; lia|].
    unfold nibs, zdrop. cbn [slice ns_data ns_offset asNibbles List.flat_map app Z.to_nat].
    fold (asNibbles (pack r)). rewrite Ep. change (Pos.to_nat 1) with 1%nat. cbn [drop]. f_equal.
    unfold is_nibble in Hn. destruct leaf.
    + replace (48 + n) with (n + 3 * 16) by lia. rewrite Z.mod_add, Z.mod_small by lia. done.
    + replace (16 + n) with (n + 1 * 16) by lia. rewrite Z.mod_add, Z.mod_small by lia. done.
Qed.

Lemma hp_leaf_flag leaf k :
  nibs_ok k -> exists b r, hp leaf k = b :: r /\ negb (Z.land b 0x20 =? 0) = leaf.
Proof.
  intros Hk. destruct (hp_cases leaf k Hk) as [(m & Hm & ->)|(m & n & r & -> & Hn & Hr & Hm & ->)]; eexists _, _.
  - split; [reflexivity|]. by destruct leaf.
  - split; [reflexivity|].
    rewrite (proj2 (land_bit_16 n Hn (if leaf then 48 else 16) ltac:(by destruct leaf))). by destruct leaf.
Qed.

(** *** Of a vector of nibbles *)

Lemma hexVector_loop_spec m fuel v i end_ ret :
  0 <= i -> end_ - i = 2 * Z.of_nat m -> end_ <= zlen v -> (m <= fuel)%nat -> nibs_ok v ->
  hexVector_loop fuel v i end_ ret = Ok (ret ++ pack (ztake (end_ - i) (zdrop i v))).
Proof.
  revert fuel i ret. induction m as [|m IH]; intros fuel i ret Hi Hm He Hf Hv.
  - replace end_ with i by lia. destruct fuel; cbn [hexVector_loop]; rewrite Z.ltb_irrefl, Z.sub_diag;
      cbn; by rewrite app_nil_r.
  - destruct fuel as [|fuel]; [lia|]. cbn [hexVector_loop]. destruct (Z.ltb_spec i end_); [|lia].
    destruct (lookup_lt_is_Some_2 v (Z.to_nat i) ltac:(lia)) as [a Ha].
    destruct (lookup_lt_is_Some_2 v (Z.to_nat (i + 1)) ltac:(lia)) as [b Hb].
    pose proof (Forall_lookup_1 _ _ _ _ Hv Ha) as Hna. pose proof (Forall_lookup_1 _ _ _ _ Hv Hb) as Hnb.
    unfold ref_at, zat. destruct (Z.ltb_spec i 0); [lia|]. destruct (Z.ltb_spec (i + 1) 0); [lia|].
    rewrite Ha, Hb. cbn [result_bind]. rewrite IH by (done || lia).
    rewrite (zdrop_lookup_cons v i a), (zdrop_lookup_cons v (i + 1) b) by (done || lia).
    replace (i + 1 + 1) with (i + 2) by lia. unfold ztake.
    replace (Z.to_nat (end_ - i)) with (S (S (Z.to_nat (end_ - (i + 2))))) by lia.
    cbn [take pack]. unfold is_nibble in *. rewrite wrap_small by (unfold uint_ok; lia).
    by rewrite <- app_assoc.
Qed.

Lemma hexPrefixEncode_vec_spec v leaf b e :
  nibs_ok v -> zlen v < 2 ^ 31 -> 0 <= b <= (if e <? 0 then zlen v else e) -> e = -1 \/ 0 <= e <= zlen v ->
  hexPrefixEncode_vec v leaf b e =
  Ok (hp leaf (ztake ((if e <? 0 then zlen v else e) - b) (zdrop b v))).
Proof.
  intros Hv Hl Hb He. unfold hexPrefixEncode_vec.
  replace (if e <? 0 then zlen v + 1 + e else e) with (if e <? 0 then zlen v else e)
    by (destruct (Z.ltb_spec e 0); lia).
  set (e' := if e <? 0 then zlen v else e) in *.
  assert (e' <= zlen v) by (unfold e'; destruct (Z.ltb_spec e 0); lia).
  rewrite !wrap_small by (unfold uint_ok; rewrite ?wrap_small; unfold uint_ok; lia).
  set (l := ztake (e' - b) (zdrop b v)).
  assert (zlen l = e' - b) as Hll by (unfold l; rewrite zlen_ztake; rewrite ?zlen_zdrop; lia).
  rewrite Zmod_odd, <- Hll, odd_zlen. unfold hp. destruct (Nat.odd (List.length l)) eqn:Ho.
  - change (negb (1 =? 0)) with true. cbn [negb]. apply Nat.odd_spec in Ho as [m Hm].
    destruct (lookup_lt_is_Some_2 v (Z.to_nat b) ltac:(lia)) as [n Hn].
    pose proof (Forall_lookup_1 _ _ _ _ Hv Hn) as Hnn.
    unfold ref_at, zat. destruct (Z.ltb_spec b 0); [lia|]. rewrite Hn. cbn [result_bind].
    rewrite (hexVector_loop_spec m) by (done || lia). cbn [app].
    assert (l = n :: ztake (e' - (b + 1)) (zdrop (b + 1) v)) as ->.
    { unfold l. rewrite (zdrop_lookup_cons v b n) by (done || lia). unfold ztake.
      by replace (Z.to_nat (e' - b)) with (S (Z.to_nat (e' - (b + 1)))) by lia. }
    rewrite lor_nibble by (done || by destruct leaf). by destruct leaf.
  - change (negb (0 =? 0)) with false. cbv iota.
    rewrite <- Nat.negb_even in Ho. apply negb_false_iff, Nat.even_spec in Ho as [m Hm].
    rewrite (hexVector_loop_spec m) by (done || lia). by destruct leaf.
Qed.

End TrieCommon.
