(* ===== verification/TrieDB.v ===== *)
(** * TrieDB: the Merkle Patricia trie over a node store (libdevcore/TrieDB.h)

    [GenericTrieDB<DB>] is written against its parameter [DB]; here its private
    operations are programs over the events of the store ([prog]), and [run]
    carries them out in any instance of [NodeDB].  A node is its RLP, as in the
    code.  [operator[]] of a node is [RLP.nth], the access on a fresh object: what
    the position cache of [RLP] holds makes no difference to a list that parses
    (property [index_seq_spec] of [Rlp]). *)

From stdpp Require Import base list numbers option.
From Stdlib Require Import ZArith Lia.
From S2P Require Import Prelude.
From S2P Require Import Bytes.
From S2P Require Import Rlp.
From S2P Require Import RlpStream.
From S2P Require Import Keccak.
From S2P Require Import MemoryDB.
From S2P Require Import TrieCommon.
Import VectorRef CommonData RLP RLPStream Keccak TrieCommon.

Module TrieDB.

(** ** Programs over a store *)

Inductive trie_exn :=
| Rlp (e : exn)
| Stream (e : stream_exn)
| RootNotFound | BadRoot | InvalidTrie.

(** What a trie operation does with the store: [node] and the three ways to
    change it. *)
Inductive prog (A : Type) : Type :=
| Ret (a : A)
| Raise (e : trie_exn)
| Lookup (h : bytes) (k : bytes -> prog A)
| Exists (h : bytes) (k : bool -> prog A)
| Insert (h v : bytes) (k : prog A)
| Kill (h : bytes) (k : prog A).
Arguments Ret {A} a.
Arguments Raise {A} e.
Arguments Lookup {A} h k.
Arguments Exists {A} h k.
Arguments Insert {A} h v k.
Arguments Kill {A} h k.

Fixpoint pbind {A B} (p : prog A) (f : A -> prog B) : prog B :=
  match p with
  | Ret a => f a
  | Raise e => Raise e
  | Lookup h k => Lookup h (fun v => pbind (k v) f)
  | Exists h k => Exists h (fun b => pbind (k b) f)
  | Insert h v k => Insert h v (pbind k f)
  | Kill h k => Kill h (pbind k f)
  end.

Declare Scope trie_scope.
Notation "'let%' x := p 'in' k" := (pbind p (fun x => k))
  (at level 10, x pattern, p at level 100, k at level 200,
   format "'[v' 'let%'  x  :=  p  'in' '/' k ']'") : trie_scope.
Notation "'do%' p 'in' k" := (pbind p (fun _ => k))
  (at level 10, p at level 100, k at level 200,
   format "'[v' 'do%'  p  'in' '/' k ']'") : trie_scope.
Open Scope trie_scope.

(** Code that may throw an RLP exception, and code that writes to a stream. *)
Definition lift {A} (m : result exn A) : prog A :=
  match m with Ok a => Ret a | Err e => Raise (Rlp e) end.
Notation "'let^' x := m 'in' k" := (pbind (lift m) (fun x => k))
  (at level 10, x pattern, m at level 100, k at level 200,
   format "'[v' 'let^'  x  :=  m  'in' '/' k ']'") : trie_scope.
Definition write (op : Str_M unit) (s : stream) : prog stream :=
  match op s with (Ok _, s') => Ret s' | (Err e, _) => Raise (Stream e) end.
Definition finish (s : stream) : prog bytes :=
  match out s with Ok b => Ret b | Err e => Raise (Stream e) end.
Definition check (b : bool) : prog unit := if b then Ret tt else Raise (Rlp AssertFailure).

(** Carrying out a program. *)
Fixpoint run {DB} `{NodeDB DB} {A} (p : prog A) (d : DB) : result trie_exn A * DB :=
  match p with
  | Ret a => (Ok a, d)
  | Raise e => (Err e, d)
  | Lookup h k => run (k (db_lookup d h)) d
  | Exists h k => run (k (db_exists d h)) d
  | Insert h v k => run k (db_insert d h v)
  | Kill h k => run k (db_kill d h)
  end.

(** The values a run inserts. *)
Fixpoint writes {DB} `{NodeDB DB} {A} (p : prog A) (d : DB) : list bytes :=
  match p with
  | Ret _ | Raise _ => []
  | Lookup h k => writes (k (db_lookup d h)) d
  | Exists h k => writes (k (db_exists d h)) d
  | Insert h v k => v :: writes k (db_insert d h v)
  | Kill h k => writes k (db_kill d h)
  end.

(** ** Nodes *)

(** [RLPNull], and [EmptyTrie], the hash of it. *)
Definition RLPNull : bytes := [0x80].
Definition EmptyTrie : bytes := sha3 RLPNull.

Definition node (_h : bytes) : prog bytes := Lookup _h Ret.
Definition forceInsertNode (_v : bytes) : prog bytes := let h := sha3 _v in Insert h _v (Ret h).
Definition forceKillNode (_h : bytes) : prog unit := Kill _h (Ret tt).
Definition killNode_hash (_d _h : bytes) : prog unit :=
  if 32 <=? zlen _d then forceKillNode _h else Ret tt.
Definition killNode (_d : bytes) : prog unit :=
  if 32 <=? zlen _d then forceKillNode (sha3 _d) else Ret tt.

(** [RLP(std::string)]. *)
Definition RLP_of (s : bytes) : prog bytes := lift (make s VeryStrict).

(** [RLPStream(n)]. *)
Definition RLPStream_list (n : Z) : prog stream := write (appendList n) empty.

(** [rlpList(a, b)]. *)
Definition rlpList2 (a b : Str_M unit) : prog bytes :=
  let% s := RLPStream_list 2 in
  let% s := write a s in
  let% s := write b s in
  finish s.

(** [for (i : ixs) s << _orig[i]]. *)
Fixpoint copyItems (ixs : list Z) (_orig : bytes) (s : stream) : prog stream :=
  match ixs with
  | [] => Ret s
  | i :: ixs' =>
      let^ it := nth _orig i in
      let% s := write (append_rlp it 1) s in
      copyItems ixs' _orig s
  end.

Definition range (a n : nat) : list Z := map Z.of_nat (seq a n).

(** The assertion that [_n] is a pair or a branch; its number of items. *)
Definition nodeItems (_n : bytes) : prog Z :=
  let^ c := itemCount _n in
  do% check (isList _n && ((c =? 2) || (c =? 17))) in
  Ret c.
Definition pairItems (_n : bytes) : prog unit :=
  let^ c := itemCount _n in check (isList _n && (c =? 2)).

Definition streamNode (_s : stream) (_b : bytes) : prog stream :=
  if zlen _b <? 32 then write (appendRaw _b 1) _s
  else
    let% h := forceInsertNode _b in
    write (append_hash h false false) _s.

Definition place (_orig : bytes) (_k : NibbleSlice) (_s : bytes) : prog bytes :=
  do% killNode _orig in
  if isEmpty _orig then
    let^ hpe := hexPrefixEncode _k true 0 (-1) in
    rlpList2 (append hpe false) (append _s false)
  else
    let% c := nodeItems _orig in
    if c =? 2 then
      let^ i0 := nth _orig 0 in
      rlpList2 (append_rlp i0 1) (append _s false)
    else
      let% s := RLPStream_list 17 in
      let% s := copyItems (range 0 16) _orig s in
      let% s := write (append _s false) s in
      finish s.

(** [remove(RLP const&)], which nothing calls. *)
Definition remove_node (_orig : bytes) : prog bytes :=
  do% killNode _orig in
  let% c := nodeItems _orig in
  if c =? 2 then Ret RLPNull
  else
    let% s := RLPStream_list 17 in
    let% s := copyItems (range 0 16) _orig s in
    let% s := write (append [] false) s in
    finish s.

Definition cleve (_orig : bytes) (_s : Z) : prog bytes :=
  do% killNode _orig in
  do% pairItems _orig in
  let^ k := keyOf _orig in
  do% check (negb (_s =? 0) && (_s <=? ns_size k)) in
  let^ leaf := isLeaf _orig in
  let^ hpe := hexPrefixEncode k leaf _s (-1) in
  let^ i1 := nth _orig 1 in
  let% bottom := rlpList2 (append hpe false) (append_rlp i1 1) in
  let% top := RLPStream_list 2 in
  let^ hpe := hexPrefixEncode k false 0 _s in
  let% top := write (append hpe false) top in
  let% top := streamNode top bottom in
  finish top.

Definition graft (_orig : bytes) : prog bytes :=
  do% pairItems _orig in
  let^ i1 := nth _orig 1 in
  let% n :=
    (if isList i1 then Ret i1
     else
       let^ lh := toHash 32 i1 Strict in
       let% s := node lh in
       do% forceKillNode lh in
       RLP_of s) in
  let^ c := itemCount n in
  do% check (c =? 2) in
  let^ k1 := keyOf _orig in
  let^ k2 := keyOf n in
  let^ leaf := isLeaf n in
  let^ hpe := hexPrefixEncode_slices k1 k2 leaf in
  let^ n1 := nth n 1 in
  rlpList2 (append hpe false) (append_rlp n1 1).

Definition merge (_orig : bytes) (_i : Z) : prog bytes :=
  let^ c := itemCount _orig in
  do% check (isList _orig && (c =? 17)) in
  let% s := RLPStream_list 2 in
  let^ it := nth _orig _i in
  let% s :=
    (if negb (_i =? 16) then
       do% check (negb (isEmpty it)) in
       let^ hpe := hexPrefixEncode_ref [_i] false 1 2 0 in
       write (append hpe false) s
     else
       let^ hpe := hexPrefixEncode_vec [] true 0 (-1) in
       write (append hpe false) s) in
  let% s := write (append_rlp it 1) s in
  finish s.

(** [r << ""], n times. *)
Fixpoint appendEmpty (n : nat) (r : stream) : prog stream :=
  match n with
  | O => Ret r
  | S n' => let% r := write (append [] false) r in appendEmpty n' r
  end.

Definition branch (_orig : bytes) : prog bytes :=
  do% pairItems _orig in
  do% killNode _orig in
  let^ k := keyOf _orig in
  let% r := RLPStream_list 17 in
  let^ leaf := isLeaf _orig in
  let^ i1 := nth _orig 1 in
  if ns_size k =? 0 then
    do% check leaf in
    let% r := appendEmpty 16 r in
    let% r := write (append_rlp i1 1) r in
    finish r
  else
    let^ b := ns_at k 0 in
    let% r := appendEmpty (Z.to_nat b) r in
    let% r :=
      (if leaf || (1 <? ns_size k) then
         let^ hpe := hexPrefixEncode (ns_mid k 1) leaf 0 (-1) in
         let% n := rlpList2 (append hpe false) (append_rlp i1 1) in
         streamNode r n
       else write (append_rlp i1 1) r) in
    let% r := appendEmpty (15 - Z.to_nat b) r in
    let% r := write (append [] false) r in
    finish r.

Definition isTwoItemNode (_n : bytes) : prog bool :=
  let% hashed :=
    (if isData _n then
       let^ h := toHash 32 _n Strict in
       let% s := node h in
       let% r := RLP_of s in
       let^ c := itemCount r in
       Ret (c =? 2)
     else Ret false) in
  if hashed then Ret true
  else if isList _n then let^ c := itemCount _n in Ret (c =? 2) else Ret false.

Definition deref (_n : bytes) : prog bytes :=
  if isList _n then Ret _n else let^ h := toHash 32 _n Strict in node h.

(** ** Reading *)

(** The child an item denotes: itself when it is a list, else by its hash. *)
Definition child (n : bytes) : prog bytes :=
  if isList n then Ret n
  else
    let^ h := toHash 32 n Strict in
    let% s := node h in
    RLP_of s.

Fixpoint atAux (fuel : nat) (_here : bytes) (_key : NibbleSlice) : prog bytes :=
  match fuel with
  | O => Raise (Rlp NoFuel)
  | S f =>
      if isEmpty _here || isNull _here then Ret [] else
      let% c := nodeItems _here in
      if c =? 2 then
        let^ k := keyOf _here in
        let^ same := ns_eq _key k in
        let^ leaf := isLeaf _here in
        if same && leaf then
          let^ i1 := nth _here 1 in lift (toString i1 LaissezFaire)
        else
          let^ inside := ns_contains _key k in
          if inside && negb leaf then
            let^ i1 := nth _here 1 in
            let% n := child i1 in
            atAux f n (ns_mid _key (ns_size k))
          else Ret []
      else
        if ns_size _key =? 0 then
          let^ i16 := nth _here 16 in lift (toString i16 LaissezFaire)
        else
          let^ b := ns_at _key 0 in
          let^ n := nth _here b in
          if isEmpty n then Ret []
          else
            let% n := child n in
            atAux f n (ns_mid _key 1)
  end.

(** ** Inserting *)

Definition mergeAtAux (mergeAt : bytes -> NibbleSlice -> bytes -> bool -> prog bytes)
    (_out : stream) (_orig : bytes) (_k : NibbleSlice) (_v : bytes) : prog stream :=
  let% b :=
    (if negb (isList _orig) && negb (isEmpty _orig) then
       let^ h := toHash 32 _orig Strict in
       let% s := node h in
       let% r := RLP_of s in
       do% check (negb (isNull r)) in
       mergeAt r _k _v false
     else mergeAt _orig _k _v true) in
  streamNode _out b.

(** [mergeAt(_orig, _origHash, _k, _v, _inLine)]. *)
Fixpoint mergeAt_hash (fuel : nat) (_orig _origHash : bytes) (_k : NibbleSlice) (_v : bytes) (_inLine : bool)
    : prog bytes :=
  match fuel with
  | O => Raise (Rlp NoFuel)
  | S f =>
      let mergeAt := fun o => mergeAt_hash f o (sha3 o) in
      if isEmpty _orig then place _orig _k _v else
      let% c := nodeItems _orig in
      if c =? 2 then
        let^ k := keyOf _orig in
        let^ same := ns_eq k _k in
        let^ leaf := isLeaf _orig in
        if same && leaf then place _orig _k _v else
        let^ inside := ns_contains _k k in
        if inside && negb leaf then
          do% (if negb _inLine then killNode_hash _orig _origHash else Ret tt) in
          let% s := RLPStream_list 2 in
          let^ i0 := nth _orig 0 in
          let% s := write (append_rlp i0 1) s in
          let^ i1 := nth _orig 1 in
          let% s := mergeAtAux mergeAt s i1 (ns_mid _k (ns_size k)) _v in
          finish s
        else
          let^ sh := ns_shared _k k in
          if negb (sh =? 0) then
            let% cleved := cleve _orig sh in
            let% r := RLP_of cleved in
            mergeAt r _k _v true
          else
            let% branched := branch _orig in
            let% r := RLP_of branched in
            mergeAt r _k _v true
      else
        if ns_size _k =? 0 then place _orig _k _v else
        do% (if negb _inLine then killNode_hash _orig _origHash else Ret tt) in
        let^ n := ns_at _k 0 in
        let% r := RLPStream_list 17 in
        let% r := copyItems (range 0 (Z.to_nat n)) _orig r in
        let^ i := nth _orig n in
        let% r := mergeAtAux mergeAt r i (ns_mid _k 1) _v in
        let% r := copyItems (range (S (Z.to_nat n)) (16 - Z.to_nat n)) _orig r in
        finish r
  end.

(** [mergeAt(_orig, _k, _v, _inLine)]. *)
Definition mergeAt (fuel : nat) (_orig : bytes) : NibbleSlice -> bytes -> bool -> prog bytes :=
  mergeAt_hash fuel _orig (sha3 _orig).

(** ** Removing *)

(** [deleteAtAux]: [None] is [false]. *)
Definition deleteAtAux (deleteAt : bytes -> NibbleSlice -> prog bytes)
    (_out : stream) (_orig : bytes) (_k : NibbleSlice) : prog (option stream) :=
  let% b := (if isEmpty _orig then Ret [] else let% n := child _orig in deleteAt n _k) in
  match b with
  | [] => Ret None
  | _ => let% s := streamNode _out b in Ret (Some s)
  end.

(** A branch with a single item in use becomes a pair. *)
Definition contract (_orig : bytes) (used : Z) : prog bytes :=
  let^ it := nth _orig used in
  let% two := isTwoItemNode it in
  let% merged := merge _orig used in
  if two then let% r := RLP_of merged in graft r else Ret merged.

Fixpoint deleteAt (fuel : nat) (_orig : bytes) (_k : NibbleSlice) : prog bytes :=
  match fuel with
  | O => Raise (Rlp NoFuel)
  | S f =>
      if isEmpty _orig then Ret [] else
      let% c := nodeItems _orig in
      if c =? 2 then
        let^ k := keyOf _orig in
        let^ same := ns_eq k _k in
        let^ leaf := isLeaf _orig in
        if same && leaf then do% killNode _orig in Ret RLPNull else
        let^ inside := ns_contains _k k in
        if inside then
          let% s := RLPStream_list 2 in
          let^ i0 := nth _orig 0 in
          let% s := write (append_rlp i0 1) s in
          let^ i1 := nth _orig 1 in
          let% s := deleteAtAux (deleteAt f) s i1 (ns_mid _k (ns_size k)) in
          match s with
          | None => Ret []
          | Some s =>
              do% killNode _orig in
              let% o := finish s in
              let% r := RLP_of o in
              let^ r1 := nth r 1 in
              let% two := isTwoItemNode r1 in
              if two then graft r else Ret o
          end
        else Ret []
      else
        let^ i16 := nth _orig 16 in
        if (ns_size _k =? 0) && negb (isEmpty i16) then
          do% killNode _orig in
          let^ used := uniqueInUse _orig 16 in
          if negb (used =? 255) then contract _orig used
          else
            let% r := RLPStream_list 17 in
            let% r := copyItems (range 0 16) _orig r in
            let% r := write (append [] false) r in
            finish r
        else
          let% r := RLPStream_list 17 in
          let^ n := ns_at _k 0 in
          let% r := copyItems (range 0 (Z.to_nat n)) _orig r in
          let^ i := nth _orig n in
          let% r := deleteAtAux (deleteAt f) r i (ns_mid _k 1) in
          match r with
          | None => Ret []
          | Some r =>
              let% r := copyItems (range (S (Z.to_nat n)) (16 - Z.to_nat n)) _orig r in
              do% killNode _orig in
              let% o := finish r in
              let% rlp := RLP_of o in
              let^ used := uniqueInUse rlp 255 in
              if used =? 255 then Ret o else contract rlp used
          end
  end.

(** ** The public operations *)

(** Each node on the way takes at least a nibble of the key; inserting visits a
    position up to four times. *)
Definition op_fuel (_key : bytes) : nat := 8 * List.length _key + 5.

Definition at_prog (m_root _key : bytes) : prog bytes :=
  let% s := node m_root in
  let% r := RLP_of s in
  atAux (op_fuel _key) r (slice _key 0).

Definition insert_prog (m_root _key _value : bytes) : prog bytes :=
  let% rootValue := node m_root in
  do% check (negb (zlen rootValue =? 0)) in
  let% r := RLP_of rootValue in
  let% b := mergeAt_hash (op_fuel _key) r m_root (slice _key 0) _value false in
  do% (if zlen rootValue <? 32 then forceKillNode m_root else Ret tt) in
  forceInsertNode b.

Definition remove_prog (m_root _key : bytes) : prog bytes :=
  let% rv := node m_root in
  let% r := RLP_of rv in
  let% b := deleteAt (op_fuel _key) r (slice _key 0) in
  match b with
  | [] => Ret m_root
  | _ =>
      do% (if zlen rv <? 32 then forceKillNode m_root else Ret tt) in
      forceInsertNode b
  end.

(** [init], and the end of [setRoot] with [Verification::Normal]. *)
Definition init_prog : prog bytes := forceInsertNode RLPNull.
Definition setRoot_prog (_root : bytes) : prog bytes :=
  let% m_root :=
    (if bool_decide (_root = EmptyTrie) then
       Exists _root (fun e => if e then Ret _root else init_prog)
     else Ret _root) in
  let% v := node m_root in
  if zlen v =? 0 then Raise RootNotFound else Ret m_root.

(** The object: a root and a store. *)
Record GenericTrieDB (DB : Type) := { m_root : bytes; m_db : DB }.
Arguments m_root {DB} _.
Arguments m_db {DB} _.

Section Public.
Context {DB : Type} `{NodeDB DB}.

(** A program that computes the new root. *)
Definition update (t : GenericTrieDB DB) (p : prog bytes) : result trie_exn unit * GenericTrieDB DB :=
  match run p (m_db t) with
  | (Ok r, d) => (Ok tt, {| m_root := r; m_db := d |})
  | (Err e, d) => (Err e, {| m_root := m_root t; m_db := d |})
  end.

Definition init (t : GenericTrieDB DB) := update t (let% r := init_prog in setRoot_prog r).
Definition setRoot (t : GenericTrieDB DB) (_root : bytes) :=
  update {| m_root := _root; m_db := m_db t |} (setRoot_prog _root).
Definition at_ (t : GenericTrieDB DB) (_key : bytes) : result trie_exn bytes :=
  fst (run (at_prog (m_root t) _key) (m_db t)).
Definition insert (t : GenericTrieDB DB) (_key _value : bytes) := update t (insert_prog (m_root t) _key _value).
Definition remove (t : GenericTrieDB DB) (_key : bytes) := update t (remove_prog (m_root t) _key).
Definition contains (t : GenericTrieDB DB) (_key : bytes) : result trie_exn bool :=
  match at_ t _key with Ok v => Ok (negb (zlen v =? 0)) | Err e => Err e end.
Definition isNull_ (t : GenericTrieDB DB) : bool := zlen (db_lookup (m_db t) (m_root t)) =? 0.
Definition isEmpty_ (t : GenericTrieDB DB) : bool :=
  bool_decide (m_root t = EmptyTrie) && negb (zlen (db_lookup (m_db t) (m_root t)) =? 0).
Definition root (t : GenericTrieDB DB) : result trie_exn bytes :=
  if isNull_ t then Err BadRoot else Ok (m_root t).

(** [HashedGenericTrieDB]: keys are hashed; [FatGenericTrieDB] also keeps the key
    that was hashed. *)
Definition hashed_at (t : GenericTrieDB DB) (_key : bytes) := at_ t (sha3 _key).
Definition hashed_insert (t : GenericTrieDB DB) (_key _value : bytes) := insert t (sha3 _key) _value.
Definition hashed_remove (t : GenericTrieDB DB) (_key : bytes) := remove t (sha3 _key).
Definition hashed_contains (t : GenericTrieDB DB) (_key : bytes) := contains t (sha3 _key).
Definition fat_insert (t : GenericTrieDB DB) (_key _value : bytes) : result trie_exn unit * GenericTrieDB DB :=
  match insert t (sha3 _key) _value with
  | (Ok _, t') => (Ok tt, {| m_root := m_root t'; m_db := db_insertAux (m_db t') (sha3 _key) _key |})
  | r => r
  end.

End Public.

End TrieDB.
