(* ===== verification/TrieSpec.v ===== *)
(** * TrieSpec: Patricia trees as an inductive type

    The abstract counterpart of the nodes in [TrieDB]: looking a key up,
    inserting and removing on trees, the canonical shape that makes the tree a
    function of its contents, and the laws of the three operations. Keys are
    lists of nibbles; the empty value stands for absence. *)

From stdpp Require Import base list numbers option.
From Stdlib Require Import ZArith Lia.
From S2P Require Import Prelude.
From S2P Require Import Bytes.
From S2P Require Import TrieCommon.
Import CommonData TrieCommon.

Module TrieSpec.

#[warnings="-register-all"]
Inductive tree :=
| Null
| Leaf (k : list Z) (v : bytes)
| Ext (k : list Z) (t : tree)
| Branch (l : list tree) (v : bytes).

#[global] Instance tree_eq_dec : EqDecision tree.
Proof.
  refine (fix go t u : Decision (t = u) :=
    match t, u with
    | Null, Null => left eq_refl
    | Leaf k v, Leaf k' v' => cast_if_and (decide (k = k')) (decide (v = v'))
    | Ext k t', Ext k' u' => cast_if_and (decide (k = k')) (go t' u')
    | Branch l v, Branch l' v' => cast_if_and (@decide (l = l') (@list_eq_dec _ go l l')) (decide (v = v'))
    | _, _ => right _
    end); clear go; abstract congruence.
Defined.

(** ** Induction, with the children of a branch *)

Fixpoint tree_rect' (P : tree -> Prop)
    (HN : P Null) (HL : forall k v, P (Leaf k v)) (HE : forall k t, P t -> P (Ext k t))
    (HB : forall l v, Forall P l -> P (Branch l v)) (t : tree) : P t :=
  match t with
  | Null => HN
  | Leaf k v => HL k v
  | Ext k t => HE k t (tree_rect' P HN HL HE HB t)
  | Branch l v =>
      HB l v ((fix all l : Forall P l :=
                 match l with
                 | [] => Forall_nil_2 P
                 | t :: l' => Forall_cons_2 P t l' (tree_rect' P HN HL HE HB t) (all l')
                 end) l)
  end.

(** ** Operations *)

Definition nulls : list tree := replicate 16 Null.

Definition is_null (t : tree) : bool := match t with Null => true | _ => false end.
Definition is_pair (t : tree) : bool := match t with Leaf _ _ | Ext _ _ => true | _ => false end.

Fixpoint tget (t : tree) (k : list Z) : bytes :=
  match t with
  | Null => []
  | Leaf k' v => if decide (k = k') then v else []
  | Ext k' t' => if decide (k' `prefix_of` k) then tget t' (drop (length k') k) else []
  | Branch l v =>
      match k with
      | [] => v
      | n :: r => match map tget l !! Z.to_nat n with Some f => f r | None => [] end
      end
  end.

(** A pair as a branch, and a key put into a free place of a branch. *)
Definition branch_of (t : tree) : tree :=
  match t with
  | Leaf [] v => Branch nulls v
  | Leaf (n :: r) v => Branch (<[Z.to_nat n := Leaf r v]> nulls) []
  | Ext (n :: r) t => Branch (<[Z.to_nat n := match r with [] => t | _ => Ext r t end]> nulls) []
  | _ => t
  end.
Definition put (t : tree) (k : list Z) (v : bytes) : tree :=
  match t with
  | Branch l w =>
      match k with
      | [] => Branch l v
      | n :: r => Branch (<[Z.to_nat n := Leaf r v]> l) w
      end
  | _ => t
  end.
Definition ext (k : list Z) (t : tree) : tree := match k with [] => t | _ => Ext k t end.

(** Splitting a pair at the nibbles its key shares with [k]. *)
Definition shared (k k' : list Z) : nat := Z.to_nat (commonPrefix k k').
Definition split (t : tree) (k' k : list Z) (v : bytes) : tree :=
  let c := shared k k' in
  let bottom := match t with
                | Leaf _ w => Leaf (drop c k') w
                | Ext _ t' => Ext (drop c k') t'
                | _ => t
                end in
  ext (take c k) (put (branch_of bottom) (drop c k) v).

Fixpoint tins (t : tree) (k : list Z) (v : bytes) : tree :=
  match t with
  | Null => Leaf k v
  | Leaf k' w => if decide (k = k') then Leaf k v else split t k' k v
  | Ext k' t' =>
      if decide (k' `prefix_of` k) then Ext k' (tins t' (drop (length k') k) v) else split t k' k v
  | Branch l w =>
      match k with
      | [] => Branch l v
      | n :: r =>
          match map (fun t => tins t r v) l !! Z.to_nat n with
          | Some t' => Branch (<[Z.to_nat n := t']> l) w
          | None => t
          end
      end
  end.

(** A key in front of a tree, and a branch reduced to its only child. *)
Definition graft_t (k : list Z) (t : tree) : tree :=
  match t with
  | Leaf k2 v => Leaf (k ++ k2) v
  | Ext k2 t' => Ext (k ++ k2) t'
  | _ => Ext k t
  end.
Fixpoint in_use (i : Z) (l : list tree) : list Z :=
  match l with
  | [] => []
  | t :: l' => if is_null t then in_use (i + 1) l' else i :: in_use (i + 1) l'
  end.
Definition contract_t (l : list tree) : tree :=
  match in_use 0 l with
  | [i] => graft_t [i] (default Null (l !! Z.to_nat i))
  | _ => Branch l []
  end.

(** [None]: there is nothing to remove. *)
Fixpoint tdel (t : tree) (k : list Z) : option tree :=
  match t with
  | Null => None
  | Leaf k' _ => if decide (k = k') then Some Null else None
  | Ext k' t' =>
      if decide (k' `prefix_of` k) then graft_t k' <$> tdel t' (drop (length k') k) else None
  | Branch l _ =>
      match k with
      | [] => None
      | n :: r =>
          match map (fun t => tdel t r) l !! Z.to_nat n with
          | Some (Some t') => Some (contract_t (<[Z.to_nat n := t']> l))
          | _ => None
          end
      end
  end.

(** ** Well-formed trees *)

Definition val_ok (v : bytes) : Prop := bytes_ok v /\ zlen v < 2 ^ 32.

(** [wf n t]: no path is longer than [n] nibbles. *)
Fixpoint wf (n : nat) (t : tree) : Prop :=
  match t with
  | Null => True
  | Leaf k v => nibs_ok k /\ (length k <= n)%nat /\ val_ok v
  | Ext k t' => k <> [] /\ nibs_ok k /\ (length k <= n)%nat /\ t' <> Null /\ wf (n - length k) t'
  | Branch l v =>
      (1 <= n)%nat /\ length l = 16%nat /\ val_ok v /\
      (fix all l := match l with [] => True | t' :: l' => wf (n - 1) t' /\ all l' end) l
  end.

Lemma wf_Branch n l v :
  wf n (Branch l v) <-> (1 <= n)%nat /\ length l = 16%nat /\ val_ok v /\ Forall (wf (n - 1)) l.
Proof.
  cbn [wf]. do 3 (apply and_iff_compat_l). induction l as [|t l IH]; [done|].
  rewrite Forall_cons_iff, IH. done.
Qed.

(** [canon t]: extensions lead to branches, branches have two items in use. *)
Definition used (l : list tree) (v : bytes) : nat :=
  (length (in_use 0 l) + match v with [] => 0 | _ => 1 end)%nat.
Fixpoint canon (t : tree) : Prop :=
  match t with
  | Null => True
  | Leaf k v => v <> []
  | Ext k t' => match t' with Branch _ _ => True | _ => False end /\ canon t'
  | Branch l v =>
      (2 <= used l v)%nat /\
      (fix all l := match l with [] => True | t' :: l' => canon t' /\ all l' end) l
  end.

Lemma canon_Branch l v : canon (Branch l v) <-> (2 <= used l v)%nat /\ Forall canon l.
Proof.
  cbn [canon]. apply and_iff_compat_l. induction l as [|t l IH]; [done|].
  rewrite Forall_cons_iff, IH. done.
Qed.

(** [uniform n t]: every key has exactly [n] nibbles. *)
Fixpoint uniform (n : nat) (t : tree) : Prop :=
  match t with
  | Null => True
  | Leaf k v => length k = n
  | Ext k t' => (length k <= n)%nat /\ uniform (n - length k) t'
  | Branch l v =>
      v = [] /\ (1 <= n)%nat /\
      (fix all l := match l with [] => True | t' :: l' => uniform (n - 1) t' /\ all l' end) l
  end.

Lemma uniform_Branch n l v : uniform n (Branch l v) <-> v = [] /\ (1 <= n)%nat /\ Forall (uniform (n - 1)) l.
Proof.
  cbn [uniform]. do 2 (apply and_iff_compat_l). induction l as [|t l IH]; [done|].
  rewrite Forall_cons_iff, IH. done.
Qed.

(** ** Lemmas on shared prefixes *)

Lemma shared_take k k' : take (shared k k') k = take (shared k k') k'.
Proof.
  unfold shared. revert k'. induction k as [|a k IH]; intros [|b k']; cbn [commonPrefix]; try done.
  destruct (Z.eqb_spec a b) as [->|]; [|done]. pose proof (commonPrefix_nonneg k k').
  replace (Z.to_nat (1 + commonPrefix k k')) with (S (Z.to_nat (commonPrefix k k'))) by lia.
  cbn [take]. by rewrite IH.
Qed.

(** After the shared prefix the two keys differ at once. *)
Definition disjoint (k k' : list Z) : Prop :=
  match k, k' with a :: _, b :: _ => a <> b | _, _ => True end.

Lemma shared_disjoint k k' : disjoint (drop (shared k k') k) (drop (shared k k') k').
Proof.
  unfold shared. revert k'. induction k as [|a k IH]; intros [|b k']; cbn [commonPrefix]; try done.
  destruct (Z.eqb_spec a b) as [->|]; [|done]. pose proof (commonPrefix_nonneg k k').
  replace (Z.to_nat (1 + commonPrefix k k')) with (S (Z.to_nat (commonPrefix k k'))) by lia. apply IH.
Qed.

Lemma disjoint_shared k k' : disjoint k k' -> shared k k' = 0%nat.
Proof.
  unfold shared. destruct k as [|a k], k' as [|b k']; cbn; try done. intros Hn. by destruct (Z.eqb_spec a b).
Qed.

Lemma commonPrefix_app p a b : disjoint a b -> commonPrefix (p ++ a) (p ++ b) = zlen p.
Proof.
  intros Hd. induction p as [|x p IH]; cbn [app].
  - apply disjoint_shared in Hd. unfold shared in Hd. pose proof (commonPrefix_nonneg a b). cbn. lia.
  - cbn [commonPrefix]. rewrite Z.eqb_refl, IH, zlen_cons. lia.
Qed.

Lemma shared_app p a b : disjoint a b -> shared (p ++ a) (p ++ b) = length p.
Proof. intros Hd. unfold shared. rewrite commonPrefix_app by done. lia. Qed.

Lemma shared_le_l k k' : (shared k k' <= length k)%nat.
Proof. unfold shared. pose proof (commonPrefix_le_l k k'). lia. Qed.
Lemma shared_le_r k k' : (shared k k' <= length k')%nat.
Proof. unfold shared. pose proof (commonPrefix_le_r k k'). lia. Qed.

Lemma shared_split k k' :
  exists p a b, k = p ++ a /\ k' = p ++ b /\ length p = shared k k' /\
    disjoint a b /\ a = drop (shared k k') k /\ b = drop (shared k k') k' /\ p = take (shared k k') k.
Proof.
  exists (take (shared k k') k), (drop (shared k k') k), (drop (shared k k') k').
  split_and!; [by rewrite take_drop|by rewrite shared_take, take_drop| |apply shared_disjoint|done|done|done].
  rewrite length_take. pose proof (shared_le_l k k'). lia.
Qed.

Lemma prefix_drop {A} (k k' : list A) : k' `prefix_of` k -> k = k' ++ drop (length k') k.
Proof. intros [r ->]. by rewrite drop_app_length. Qed.

(** ** Looking up *)

Lemma tget_cons l v n r : tget (Branch l v) (n :: r) = tget (default Null (l !! Z.to_nat n)) r.
Proof. cbn [tget]. rewrite list_lookup_fmap. by destruct (l !! Z.to_nat n). Qed.

Lemma tget_ext p t k : tget (ext p t) k = if decide (p `prefix_of` k) then tget t (drop (length p) k) else [].
Proof. destruct p; [|done]. cbn. by rewrite decide_True by apply prefix_nil. Qed.

Lemma child_insert (l : list tree) n n' t :
  length l = 16%nat -> is_nibble n -> is_nibble n' ->
  default Null (<[Z.to_nat n := t]> l !! Z.to_nat n') =
  if decide (n = n') then t else default Null (l !! Z.to_nat n').
Proof.
  intros Hl Hn Hn'. unfold is_nibble in *. destruct (decide (n = n')) as [<-|Hne].
  - by rewrite list_lookup_insert_eq by lia.
  - by rewrite list_lookup_insert_ne by lia.
Qed.

Lemma child_nulls n : default Null (nulls !! n) = Null.
Proof. unfold nulls. destruct (replicate 16 Null !! n) eqn:E; [|done]. by apply lookup_replicate in E as [-> _]. Qed.

(** A single path under a nibble of an otherwise empty branch. *)
Lemma tget_single n t q :
  is_nibble n -> nibs_ok q ->
  tget (Branch (<[Z.to_nat n := t]> nulls) []) q =
  match q with m :: r => if decide (n = m) then tget t r else [] | [] => [] end.
Proof.
  intros Hn Hq. destruct q as [|m r]; [done|]. inversion Hq; subst. rewrite tget_cons, child_insert by done.
  destruct (decide (n = m)); [done|]. by rewrite child_nulls.
Qed.

Lemma tget_branch_of_Leaf b w q : nibs_ok b -> nibs_ok q -> tget (branch_of (Leaf b w)) q = tget (Leaf b w) q.
Proof.
  intros Hb Hq. destruct b as [|n b]; cbn [branch_of].
  - destruct q as [|m r]; [done|]. rewrite tget_cons, child_nulls. done.
  - inversion Hb; subst. rewrite tget_single by done. destruct q as [|m r]; [done|]. cbn [tget].
    destruct (decide (n = m)) as [->|Hne]; repeat case_decide; congruence.
Qed.

Lemma tget_branch_of_Ext b t q :
  b <> [] -> nibs_ok b -> nibs_ok q -> tget (branch_of (Ext b t)) q = tget (Ext b t) q.
Proof.
  intros Hne Hb Hq. destruct b as [|n b]; [done|]. cbn [branch_of]. inversion Hb; subst.
  rewrite tget_single by done. destruct q as [|m r]; [done|]. cbn [tget length drop].
  change (match b with [] => t | _ => Ext b t end) with (ext b t). rewrite tget_ext.
  destruct (decide (n = m)) as [->|Hnm].
  - destruct (decide (b `prefix_of` r)) as [Hp|Hp].
    + by rewrite decide_True by by apply prefix_cons.
    + rewrite decide_False; [done|]. by intros ?%prefix_cons_inv_2.
  - rewrite decide_False; [done|]. by intros ->%prefix_cons_inv_1.
Qed.

(** What the branch made of a pair looks like. *)
Definition free_at (t : tree) (k : list Z) : Prop :=
  exists l w, t = Branch l w /\ length l = 16%nat /\
    match k with [] => w = [] | n :: _ => is_nibble n /\ default Null (l !! Z.to_nat n) = Null end.

Lemma tget_put t k v q :
  free_at t k -> nibs_ok k -> nibs_ok q -> tget (put t k v) q = if decide (q = k) then v else tget t q.
Proof.
  intros (l & w & -> & Hl & Hf) Hk Hq. destruct k as [|n r]; cbn [put].
  - destruct q as [|m q]; [done|]. by rewrite decide_False by done.
  - destruct Hf as [Hn Hf]. destruct q as [|m q]; [done|]. inversion Hq; subst.
    rewrite !tget_cons, child_insert by done. destruct (decide (n = m)) as [->|Hne].
    + rewrite Hf. cbn [tget]. repeat case_decide; congruence.
    + rewrite decide_False; [done|]. congruence.
Qed.

Lemma free_Leaf b w a :
  disjoint a b -> a <> b -> nibs_ok a -> nibs_ok b -> free_at (branch_of (Leaf b w)) a.
Proof.
  intros Hd Hn Ha Hb. destruct b as [|m b]; cbn [branch_of].
  - exists nulls, w. split_and!; [done|done|]. destruct a as [|n a]; [done|]. inversion Ha; subst.
    by rewrite child_nulls.
  - eexists _, _. split_and!; [done|by rewrite length_insert|]. destruct a as [|n a]; [done|].
    inversion Ha; inversion Hb; subst. split; [done|]. rewrite child_insert by done.
    cbn in Hd. rewrite decide_False by congruence. apply child_nulls.
Qed.

Lemma free_Ext b t a :
  disjoint a b -> b <> [] -> nibs_ok a -> nibs_ok b -> free_at (branch_of (Ext b t)) a.
Proof.
  intros Hd Hn Ha Hb. destruct b as [|m b]; [done|]. cbn [branch_of].
  eexists _, _. split_and!; [done|by rewrite length_insert|]. destruct a as [|n a]; [done|].
  inversion Ha; inversion Hb; subst. split; [done|]. rewrite child_insert by done.
  cbn in Hd. rewrite decide_False by congruence. apply child_nulls.
Qed.

(** The lookup of a split pair: the new key on top of the old contents. *)
Lemma tget_split_aux p a (t1 t2 : tree) v q :
  (forall r, nibs_ok r -> tget t1 r = if decide (r = a) then v else tget t2 r) ->
  nibs_ok q ->
  tget (ext p t1) q = if decide (q = p ++ a) then v else tget (ext p t2) q.
Proof.
  intros Ht Hq. rewrite !tget_ext. destruct (decide (p `prefix_of` q)) as [[r ->]|Hp].
  - rewrite drop_app_length, Ht by (by apply Forall_app in Hq as [_ ?]).
    destruct (decide (r = a)) as [->|Hne]; [by rewrite decide_True|]. rewrite decide_False; [done|].
    intros ?%app_inv_head. done.
  - rewrite decide_False; [done|]. intros ->. by apply Hp, prefix_app_r.
Qed.

Lemma nibs_ok_app a b : nibs_ok (a ++ b) <-> nibs_ok a /\ nibs_ok b.
Proof. apply Forall_app. Qed.

Lemma tget_split_Leaf k' w k v q :
  k <> k' -> nibs_ok k -> nibs_ok k' -> nibs_ok q ->
  tget (split (Leaf k' w) k' k v) q = if decide (q = k) then v else tget (Leaf k' w) q.
Proof.
  intros Hne Hk Hk' Hq. unfold split.
  destruct (shared_split k k') as (p & a & b & -> & -> & Hp & Hd & <- & <- & <-).
  apply nibs_ok_app in Hk as [Hpk Ha]. apply nibs_ok_app in Hk' as [_ Hb].
  rewrite (tget_split_aux p a _ (Leaf b w) v); [|intros r Hr|done].
  - destruct (decide (q = p ++ a)); [done|]. rewrite tget_ext. cbn [tget].
    destruct (decide (p `prefix_of` q)) as [[r ->]|Hpq].
    + rewrite drop_app_length. destruct (decide (r = b)) as [->|Hrb]; [by rewrite decide_True|].
      rewrite decide_False; [done|]. by intros ?%app_inv_head.
    + rewrite decide_False; [done|]. intros ->. by apply Hpq, prefix_app_r.
  - rewrite tget_put, tget_branch_of_Leaf by (done || (apply free_Leaf; congruence)). done.
Qed.

Lemma tget_split_Ext k' t k v q :
  ~ k' `prefix_of` k -> nibs_ok k -> nibs_ok k' -> nibs_ok q ->
  tget (split (Ext k' t) k' k v) q = if decide (q = k) then v else tget (Ext k' t) q.
Proof.
  intros Hne Hk Hk' Hq. unfold split.
  destruct (shared_split k k') as (p & a & b & -> & -> & Hp & Hd & <- & <- & <-).
  apply nibs_ok_app in Hk as [Hpk Ha]. apply nibs_ok_app in Hk' as [_ Hb].
  assert (b <> []) as Hb0 by (intros ->; apply Hne, prefix_app, prefix_nil).
  rewrite (tget_split_aux p a _ (Ext b t) v); [|intros r Hr|done].
  - destruct (decide (q = p ++ a)); [done|]. rewrite tget_ext. cbn [tget].
    destruct (decide (p `prefix_of` q)) as [[r ->]|Hpq].
    + rewrite drop_app_length. destruct (decide (b `prefix_of` r)) as [Hbr|Hbr].
      * rewrite decide_True by by apply prefix_app. f_equal. rewrite length_app.
        by rewrite <- drop_drop, drop_app_length.
      * rewrite decide_False; [done|]. by intros ?%prefix_app_inv.
    + rewrite decide_False; [done|]. intros [r ->]. apply Hpq. rewrite <- app_assoc. by apply prefix_app_r.
  - rewrite tget_put, tget_branch_of_Ext by (done || by apply free_Ext). done.
Qed.

Lemma tget_tins n t k v q :
  wf n t -> nibs_ok k -> nibs_ok q -> tget (tins t k v) q = if decide (q = k) then v else tget t q.
Proof.
  revert n k q. induction t as [|k' w|k' t IH|l w IH] using tree_rect'; intros n k q Hw Hk Hq; cbn [tins].
  - done.
  - destruct Hw as (Hk' & _). destruct (decide (k = k')) as [->|Hne].
    + cbn [tget]. by repeat case_decide.
    + by apply tget_split_Leaf.
  - destruct Hw as (Hne & Hk' & Hlen & _ & Hw). destruct (decide (k' `prefix_of` k)) as [[r ->]|Hp].
    + rewrite drop_app_length. apply nibs_ok_app in Hk as [_ Hr].
      apply (tget_split_aux k' r (tins t r v) t v q) in Hq.
      * by destruct k'.
      * intros r' Hr'. by apply (IH (n - length k')%nat).
    + by apply tget_split_Ext.
  - apply wf_Branch in Hw as (Hn & Hl & Hv & Hc). destruct k as [|m r].
    + destruct q; [done|]. by rewrite decide_False by done.
    + inversion Hk as [|? ? Hm Hr]; subst. rewrite list_lookup_fmap.
      destruct (l !! Z.to_nat m) as [t|] eqn:Et.
      2:{ apply lookup_ge_None in Et. unfold is_nibble in Hm. lia. }
      cbn [fmap option_fmap option_map]. destruct q as [|m' q]; [done|]. inversion Hq; subst.
      rewrite !tget_cons, child_insert by done. destruct (decide (m = m')) as [<-|Hne].
      * rewrite Et. cbn [default from_option id].
        rewrite (Forall_lookup_1 _ _ _ _ IH Et (n - 1)%nat r q) by (done || by eapply Forall_lookup_1 in Hc).
        repeat case_decide; congruence.
      * rewrite decide_False; [done|]. congruence.
Qed.

(** ** Shapes *)

Definition nn (t : tree) : nat := if is_null t then 0%nat else 1%nat.

Lemma in_use_insert i l j t0 t :
  l !! j = Some t0 -> (length (in_use i (<[j := t]> l)) + nn t0 = length (in_use i l) + nn t)%nat.
Proof.
  revert i j. induction l as [|x l IH]; intros i j; [by destruct j|]. destruct j as [|j].
  - cbn. intros [= ->]. unfold nn. destruct (is_null t), (is_null t0); cbn; lia.
  - intros E. specialize (IH (i + 1) j E). change (<[S j := t]> (x :: l)) with (x :: <[j := t]> l).
    cbn [in_use]. unfold nn in *. destruct (is_null x); cbn [length]; lia.
Qed.

Lemma in_use_elem i l j :
  j ∈ in_use i l <-> i <= j /\ exists t, l !! Z.to_nat (j - i) = Some t /\ t <> Null.
Proof.
  revert i. induction l as [|x l IH]; intros i; cbn [in_use].
  - split; [by intros ?%elem_of_nil|]. intros (_ & t & E & _). done.
  - assert (j ∈ in_use (i + 1) l <-> i < j /\ exists t, (x :: l) !! Z.to_nat (j - i) = Some t /\ t <> Null) as Hl.
    { rewrite IH. split.
      - intros (Hj & t & E & Hn). split; [lia|]. exists t.
        replace (Z.to_nat (j - i)) with (S (Z.to_nat (j - (i + 1)))) by lia. done.
      - intros (Hj & t & E & Hn). split; [lia|]. exists t.
        replace (Z.to_nat (j - i)) with (S (Z.to_nat (j - (i + 1)))) in E by lia. done. }
    destruct (is_null x) eqn:Ex.
    + rewrite Hl. split; [intros [? ?]; split; [lia|done]|]. intros [Hij (t & E & Hn)]. split; [|by exists t].
      destruct (Z.eq_dec i j) as [<-|]; [|lia]. rewrite Z.sub_diag in E. injection E as ->. by destruct t.
    + rewrite elem_of_cons, Hl. split.
      * intros [->|[? ?]]; [|split; [lia|done]]. split; [lia|]. exists x. rewrite Z.sub_diag. split; [done|].
        by intros ->.
      * intros [Hij Ht]. destruct (Z.eq_dec j i); [by left|right; split; [lia|done]].
Qed.

Lemma in_use_nulls i n : in_use i (replicate n Null) = [].
Proof. revert i. induction n as [|n IH]; intros i; cbn; [done|apply IH]. Qed.

Lemma in_use_nulls_insert i j t : (j < 16)%nat -> length (in_use i (<[j := t]> nulls)) = nn t.
Proof.
  intros Hj. pose proof (in_use_insert i nulls j Null t) as H.
  specialize (H ltac:(by apply lookup_replicate_2)). change (in_use i nulls) with (in_use i (replicate 16 Null)) in H.
  rewrite in_use_nulls in H. change (nn Null) with 0%nat in H. cbn [length] in H. lia.
Qed.

Lemma wf_ext n p t : nibs_ok p -> (length p <= n)%nat -> t <> Null -> wf (n - length p) t -> wf n (ext p t).
Proof. intros. destruct p as [|x p]; cbn [ext]; [by rewrite Nat.sub_0_r in *|]. cbn [wf]. done. Qed.

Lemma val_ok_nil : val_ok [].
Proof. split; [constructor|done]. Qed.
Local Hint Resolve val_ok_nil : core.

Lemma Forall_nulls P : P Null -> Forall P nulls.
Proof. intros. by apply Forall_replicate. Qed.

Lemma wf_branch_of_Leaf n b w :
  (1 <= n)%nat -> wf n (Leaf b w) -> wf n (branch_of (Leaf b w)).
Proof.
  intros Hn (Hb & Hl & Hw). destruct b as [|m b]; cbn [branch_of]; apply wf_Branch; split_and!; try done.
  - by apply Forall_nulls.
  - by rewrite length_insert.
  - apply Forall_insert; [by apply Forall_nulls|]. inversion Hb; subst. cbn [length] in Hl. repeat split; (done || lia || apply Hw).
Qed.

Lemma wf_branch_of_Ext n b t : wf n (Ext b t) -> wf n (branch_of (Ext b t)).
Proof.
  intros (Hne & Hb & Hl & Ht & Hw). destruct b as [|m b]; [done|]. cbn [branch_of]. cbn in Hl.
  apply wf_Branch; split_and!; [lia|by rewrite length_insert|done|].
  apply Forall_insert; [by apply Forall_nulls|]. change (match b with [] => t | _ => Ext b t end) with (ext b t).
  inversion Hb; subst. apply wf_ext; [done|lia|done|]. cbn in Hw. by replace (n - 1 - length b)%nat with (n - S (length b))%nat by lia.
Qed.

Lemma wf_put n t k v :
  (exists l w, t = Branch l w) -> wf n t -> nibs_ok k -> (length k <= n)%nat -> val_ok v -> wf n (put t k v).
Proof.
  intros (l & w & ->) Hw Hk Hn Hv. apply wf_Branch in Hw as (H1 & H2 & H3 & H4). destruct k as [|m r]; cbn [put];
    apply wf_Branch; split_and!; try done; [by rewrite length_insert|].
  apply Forall_insert; [done|]. inversion Hk; subst. cbn [length] in Hn. repeat split; (done || lia || apply Hv).
Qed.

(** The branch a pair splits into, for each kind of pair. *)
Definition forked (n : nat) (bottom : tree) (a : list Z) : Prop :=
  free_at (branch_of bottom) a /\ wf n (branch_of bottom) /\ (1 <= n)%nat.

Lemma put_Branch t k v : (exists l w, t = Branch l w) -> exists l w, put t k v = Branch l w.
Proof. intros (l & w & ->). destruct k; cbn; eauto. Qed.

Lemma free_Branch t k : free_at t k -> exists l w, t = Branch l w.
Proof. intros (l & w & -> & _). eauto. Qed.

Lemma wf_split_aux n p a bottom v :
  nibs_ok (p ++ a) -> (length (p ++ a) <= n)%nat -> val_ok v -> forked (n - length p) bottom a ->
  wf n (ext p (put (branch_of bottom) a v)).
Proof.
  intros Hk Hl Hv (Hf & Hw & H1). apply nibs_ok_app in Hk as [Hp Ha]. rewrite length_app in Hl.
  apply free_Branch in Hf. destruct (put_Branch _ a v Hf) as (l' & w' & E).
  apply wf_ext; [done|lia|by rewrite E|]. apply wf_put; [done|done|done|lia|done].
Qed.

Lemma disjoint_length a b : disjoint a b -> a <> b -> (1 <= length a)%nat \/ (1 <= length b)%nat.
Proof. destruct a, b; cbn; intros; try done; lia. Qed.

Lemma forked_Leaf n a b w :
  disjoint a b -> a <> b -> nibs_ok a -> (length a <= n)%nat -> wf n (Leaf b w) -> forked n (Leaf b w) a.
Proof.
  intros Hd Hne Ha Hl Hw. pose proof Hw as (Hb & Hlb & _). pose proof (disjoint_length a b Hd Hne).
  split_and!; [by apply free_Leaf|apply wf_branch_of_Leaf; [lia|done]|lia].
Qed.

Lemma forked_Ext n a b t :
  disjoint a b -> nibs_ok a -> wf n (Ext b t) -> forked n (Ext b t) a.
Proof.
  intros Hd Ha Hw. pose proof Hw as (Hb0 & Hb & Hlb & _).
  split_and!; [by apply free_Ext|by apply wf_branch_of_Ext|]. destruct b; [done|]. cbn in Hlb. lia.
Qed.

(** Splitting a pair, with the facts every case needs. *)
Lemma split_Leaf_forked n k' w k v :
  k <> k' -> nibs_ok k -> (length k <= n)%nat -> wf n (Leaf k' w) ->
  exists p a b, k = p ++ a /\ k' = p ++ b /\ a <> b /\ disjoint a b /\
    split (Leaf k' w) k' k v = ext p (put (branch_of (Leaf b w)) a v) /\
    forked (n - length p) (Leaf b w) a /\ wf (n - length p) (Leaf b w).
Proof.
  intros Hne Hk Hl (Hk' & Hl' & Hw). unfold split.
  destruct (shared_split k k') as (p & a & b & -> & -> & Hp & Hd & <- & <- & <-).
  apply nibs_ok_app in Hk as [_ Ha]. apply nibs_ok_app in Hk' as [_ Hb]. rewrite length_app in *.
  assert (a <> b) by congruence.
  assert (wf (n - length p) (Leaf b w)) by (cbn [wf]; split_and!; (done || lia || apply Hw)).
  exists p, a, b. split_and!; try done; try (apply forked_Leaf; (done || lia)); apply Hw.
Qed.

Lemma split_Ext_forked n k' t k v :
  ~ k' `prefix_of` k -> nibs_ok k -> (length k <= n)%nat -> wf n (Ext k' t) ->
  exists p a b, k = p ++ a /\ k' = p ++ b /\ b <> [] /\ disjoint a b /\
    split (Ext k' t) k' k v = ext p (put (branch_of (Ext b t)) a v) /\
    forked (n - length p) (Ext b t) a /\ wf (n - length p) (Ext b t).
Proof.
  intros Hne Hk Hl (Hk0 & Hk' & Hl' & Ht & Hw). unfold split.
  destruct (shared_split k k') as (p & a & b & -> & -> & Hp & Hd & <- & <- & <-).
  apply nibs_ok_app in Hk as [_ Ha]. apply nibs_ok_app in Hk' as [_ Hb]. rewrite length_app in *.
  assert (b <> []) as Hb0 by (intros ->; apply Hne, prefix_app, prefix_nil).
  assert (wf (n - length p) (Ext b t)).
  { cbn [wf]. split_and!; try done; [lia|]. by replace (n - length p - length b)%nat with (n - (length p + length b))%nat by lia. }
  exists p, a, b. split_and!; try done. by apply forked_Ext.
Qed.

Lemma tins_not_Null t k v : tins t k v <> Null.
Proof.
  assert (forall p t, t <> Null -> ext p t <> Null) as He by (intros [|? p] ? ?; done).
  assert (forall t k' k v, t <> Null -> split t k' k v <> Null) as Hs.
  { intros t' k1 k2 w Ht. unfold split. apply He. destruct t' as [|[|]|[|]|]; try done;
      cbn [branch_of]; try (destruct (drop _ k1)); destruct (drop _ k2); done. }
  destruct t as [|k' w|k' t|l w]; cbn [tins]; try (case_decide; (done || by apply Hs)); [done|].
  destruct k; [done|]. by destruct (map _ l !! _).
Qed.

Lemma wf_tins n t k v :
  wf n t -> nibs_ok k -> (length k <= n)%nat -> val_ok v -> wf n (tins t k v).
Proof.
  revert n k. induction t as [|k' w|k' t IH|l w IH] using tree_rect'; intros n k Hw Hk Hl Hv; cbn [tins].
  - done.
  - destruct (decide (k = k')) as [->|Hne]; [done|].
    destruct (split_Leaf_forked n k' w k v Hne Hk Hl Hw) as (p & a & b & -> & _ & _ & _ & -> & Hf & _).
    by apply wf_split_aux.
  - destruct (decide (k' `prefix_of` k)) as [[r ->]|Hp].
    + destruct Hw as (H1 & H2 & H3 & H4 & H5). rewrite drop_app_length. rewrite length_app in Hl.
      apply nibs_ok_app in Hk as [_ Hr]. split_and!; [done|done|done|apply tins_not_Null|]. apply IH; (done || lia).
    + destruct (split_Ext_forked n k' t k v Hp Hk Hl Hw) as (p & a & b & -> & _ & _ & _ & -> & Hf & _).
      by apply wf_split_aux.
  - apply wf_Branch in Hw as (H1 & H2 & H3 & H4). destruct k as [|m r].
    + apply wf_Branch. done.
    + inversion Hk; subst. rewrite list_lookup_fmap. destruct (l !! Z.to_nat m) as [t|] eqn:Et; cbn; [|by apply wf_Branch].
      fold (wf n (Branch (<[Z.to_nat m:=tins t r v]> l) w)). apply wf_Branch. split_and!; try done; [by rewrite length_insert|].
      apply Forall_insert; [done|]. cbn in Hl.
      apply (Forall_lookup_1 _ _ _ _ IH Et); [by eapply Forall_lookup_1 in H4|done|lia|done].
Qed.

(** ** Canonical shape *)

Lemma canon_put t k v :
  free_at t k -> v <> [] -> (exists l w, t = Branch l w /\ used l w = 1%nat /\ Forall canon l) ->
  canon (put t k v) /\ exists l w, put t k v = Branch l w.
Proof.
  intros (l & w & -> & Hl & Hf) Hv (l' & w' & [= <- <-] & Hu & Hc). split; [|apply put_Branch; eauto].
  destruct k as [|n r]; cbn [put]; apply canon_Branch; unfold used in *.
  - subst w. split; [|done]. destruct v; [done|]. lia.
  - destruct Hf as [Hn Hf]. split; [|by apply Forall_insert].
    destruct (l !! Z.to_nat n) as [t0|] eqn:E; [|apply lookup_ge_None in E; unfold is_nibble in Hn; lia].
    cbn in Hf. subst t0. pose proof (in_use_insert 0 l _ _ (Leaf r v) E) as Hi. cbn in Hi. lia.
Qed.

Lemma canon_branch_of_Leaf b w :
  nibs_ok b -> w <> [] -> exists l w', branch_of (Leaf b w) = Branch l w' /\ used l w' = 1%nat /\ Forall canon l.
Proof.
  intros Hb Hw. destruct b as [|n b]; cbn [branch_of]; eexists _, _; (split; [reflexivity|]); unfold used.
  - split; [by destruct w|by apply Forall_nulls].
  - inversion Hb as [|? ? Hn]; subst. unfold is_nibble in Hn. rewrite in_use_nulls_insert by lia. split; [done|].
    apply Forall_insert; [by apply Forall_nulls|done].
Qed.

Lemma canon_branch_of_Ext b t :
  nibs_ok b -> b <> [] -> canon (Ext b t) ->
  exists l w', branch_of (Ext b t) = Branch l w' /\ used l w' = 1%nat /\ Forall canon l.
Proof.
  intros Hb Hb0 [Ht Hc]. destruct b as [|n b]; [done|]. cbn [branch_of]. eexists _, _. split; [reflexivity|].
  inversion Hb as [|? ? Hn]; subst. unfold is_nibble in Hn. unfold used. rewrite in_use_nulls_insert by lia. split.
  - destruct b; [by destruct t|done].
  - apply Forall_insert; [by apply Forall_nulls|]. by destruct b.
Qed.

Lemma canon_ext p t : canon t -> (exists l w, t = Branch l w) -> canon (ext p t).
Proof. intros Hc (l & w & ->). by destruct p. Qed.

Lemma canon_tins n t k v :
  wf n t -> canon t -> nibs_ok k -> (length k <= n)%nat -> v <> [] ->
  canon (tins t k v) /\ ((exists l w, t = Branch l w) -> exists l w, tins t k v = Branch l w).
Proof.
  intros Hw Hc Hk Hl Hv. revert n k Hw Hk Hl Hc.
  induction t as [|k' w|k' t IH|l w IH] using tree_rect'; intros n k Hw Hk Hl Hc; cbn [tins].
  - split; [done|]. intros (? & ? & ?). done.
  - split; [|intros (? & ? & ?); done]. destruct (decide (k = k')) as [->|Hne]; [done|].
    destruct (split_Leaf_forked n k' w k v Hne Hk Hl Hw) as (p & a & b & -> & -> & _ & _ & -> & (Hf & _) & Hwb).
    destruct (canon_put _ a v Hf Hv (canon_branch_of_Leaf b w (proj1 Hwb) Hc)). by apply canon_ext.
  - split; [|intros (? & ? & ?); done]. destruct (decide (k' `prefix_of` k)) as [[r ->]|Hp].
    + destruct Hw as (H1 & H2 & H3 & H4 & H5). rewrite drop_app_length. rewrite length_app in Hl.
      apply nibs_ok_app in Hk as [_ Hr]. destruct Hc as [Ht Hc].
      destruct (IH (n - length k')%nat r H5 Hr ltac:(lia) Hc) as [Hct Hb]. split; [|done].
      destruct t; try done. by destruct Hb as (? & ? & ->); [eauto|].
    + destruct (split_Ext_forked n k' t k v Hp Hk Hl Hw) as (p & a & b & -> & -> & Hb & _ & -> & (Hf & _) & Hwb).
      pose proof Hwb as (_ & Hnb & _).
      destruct (canon_put _ a v Hf Hv (canon_branch_of_Ext b t Hnb Hb Hc)). by apply canon_ext.
  - apply wf_Branch in Hw as (H1 & H2 & H3 & H4). apply canon_Branch in Hc as [Hu Hc]. destruct k as [|m r].
    + split; [|eauto]. apply canon_Branch. split; [|done]. unfold used in *. destruct v; [done|]. destruct w; lia.
    + inversion Hk; subst. rewrite list_lookup_fmap.
      destruct (l !! Z.to_nat m) as [t|] eqn:Et; cbn [fmap option_fmap option_map]; (split; [|eauto]).
      2:{ by apply canon_Branch. }
      apply canon_Branch. cbn in Hl.
      destruct (Forall_lookup_1 _ _ _ _ IH Et (n - 1)%nat r) as [Hct _];
        [by eapply Forall_lookup_1 in H4|done|lia|by eapply Forall_lookup_1 in Hc|].
      split; [|by apply Forall_insert]. unfold used in *.
      pose proof (in_use_insert 0 l _ _ (tins t r v) Et) as Hi.
      assert (nn (tins t r v) = 1%nat) by (pose proof (tins_not_Null t r v); by destruct (tins t r v)).
      assert (nn t <= 1)%nat by (unfold nn; destruct (is_null t); lia). lia.
Qed.

(** ** Keys of one length *)

Lemma uniform_ext n p t : (length p <= n)%nat -> uniform (n - length p) t -> uniform n (ext p t).
Proof. intros. destruct p; cbn [ext]; [by rewrite Nat.sub_0_r in *|done]. Qed.

Lemma uniform_put n l m r v :
  (1 <= n)%nat -> length (m :: r) = n -> Forall (uniform (n - 1)) l -> uniform n (put (Branch l []) (m :: r) v).
Proof.
  intros Hn Hl Hu. cbn [put]. apply uniform_Branch. split_and!; [done|done|]. apply Forall_insert; [done|].
  cbn in *. lia.
Qed.

Lemma uniform_tins n t k v :
  wf n t -> uniform n t -> nibs_ok k -> length k = n -> uniform n (tins t k v).
Proof.
  revert n k. induction t as [|k' w|k' t IH|l w IH] using tree_rect'; intros n k Hw Hu Hk Hl; cbn [tins].
  - done.
  - destruct (decide (k = k')) as [->|Hne]; [done|].
    destruct (split_Leaf_forked n k' w k v Hne Hk ltac:(lia) Hw) as (p & a & b & -> & -> & Hab & Hd & -> & Hf & _).
    cbn [uniform] in Hu. rewrite !length_app in *. destruct a as [|x a], b as [|y b]; cbn [length] in *; try lia; [done|].
    cbn [branch_of]. apply uniform_ext; [lia|]. apply uniform_put; [lia|cbn [length]; lia|].
    apply Forall_insert; [by apply Forall_nulls|]. cbn. lia.
  - destruct (decide (k' `prefix_of` k)) as [[r ->]|Hp].
    + destruct Hw as (_ & _ & _ & _ & Hw). destruct Hu as [H1 H2]. rewrite drop_app_length. rewrite length_app in *.
      apply nibs_ok_app in Hk as [_ Hr]. split; [lia|]. apply IH; try done. lia.
    + destruct (split_Ext_forked n k' t k v Hp Hk ltac:(lia) Hw) as (p & a & b & -> & -> & Hb & Hd & -> & Hf & _).
      destruct Hu as [H1 H2]. rewrite !length_app in *. destruct b as [|y b]; [done|].
      destruct a as [|x a]; [cbn in *; lia|]. cbn [branch_of length] in *.
      apply uniform_ext; [lia|]. apply uniform_put; [lia|cbn [length]; lia|].
      apply Forall_insert; [by apply Forall_nulls|]. change (match b with [] => t | _ => Ext b t end) with (ext b t).
      apply uniform_ext; [lia|]. by replace (n - length p - 1 - length b)%nat with (n - (length p + S (length b)))%nat by lia.
  - apply wf_Branch in Hw as (H1 & H2 & H3 & H4). apply uniform_Branch in Hu as (-> & Hn & Hu).
    destruct k as [|m r]; [cbn in Hl; lia|]. inversion Hk; subst. rewrite list_lookup_fmap.
    destruct (l !! Z.to_nat m) as [t|] eqn:Et; cbn [fmap option_fmap option_map]; apply uniform_Branch; (split_and!; [done|done|]); [|done].
    apply Forall_insert; [done|]. cbn [length] in *. rewrite Nat.sub_1_r in *. cbn [Nat.pred] in *.
    apply (Forall_lookup_1 _ _ _ _ IH Et); [by eapply Forall_lookup_1 in H4|by eapply Forall_lookup_1 in Hu|done|done].
Qed.

(** ** Removing *)

Lemma tget_graft k t q : t <> Null -> tget (graft_t k t) q = tget (Ext k t) q.
Proof.
  intros Ht. destruct t as [|k2 v|k2 t|l v]; try done; cbn [graft_t tget].
  - destruct (decide (k `prefix_of` q)) as [[r ->]|Hp].
    + rewrite drop_app_length. destruct (decide (r = k2)) as [->|Hne]; [by rewrite decide_True|].
      rewrite decide_False; [done|]. by intros ?%app_inv_head.
    + rewrite decide_False; [done|]. intros ->. by apply Hp, prefix_app_r.
  - destruct (decide (k `prefix_of` q)) as [[r ->]|Hp].
    + rewrite drop_app_length. destruct (decide (k2 `prefix_of` r)) as [Hr|Hr].
      * rewrite decide_True by by apply prefix_app. f_equal. rewrite length_app.
        by rewrite <- drop_drop, drop_app_length.
      * rewrite decide_False; [done|]. by intros ?%prefix_app_inv.
    + rewrite decide_False; [done|]. intros [r ->]. apply Hp. rewrite <- app_assoc. by apply prefix_app_r.
Qed.

Lemma wf_graft n k t :
  k <> [] -> nibs_ok k -> (length k <= n)%nat -> t <> Null -> wf (n - length k) t -> wf n (graft_t k t).
Proof.
  intros H1 H2 H3 H4 H5. destruct t as [|k2 v|k2 t|l v]; cbn [graft_t]; try done.
  - destruct H5 as (? & ? & ?). split_and!; [by apply nibs_ok_app|rewrite length_app; lia|done].
  - destruct H5 as (? & ? & ? & ? & ?). cbn [wf]. rewrite length_app. split_and!; try done.
    + by destruct k.
    + by apply nibs_ok_app.
    + lia.
    + by rewrite Nat.sub_add_distr.
Qed.

Lemma canon_graft k t : canon t -> t <> Null -> canon (graft_t k t).
Proof. intros Hc Ht. by destruct t. Qed.

Lemma uniform_graft n k t : (length k <= n)%nat -> uniform (n - length k) t -> uniform n (graft_t k t).
Proof.
  intros Hn Hu. destruct t as [|k2 v|k2 t|l v]; cbn [graft_t uniform] in *; try done.
  - rewrite length_app. lia.
  - rewrite length_app. rewrite Nat.sub_add_distr. split; [lia|apply Hu].
Qed.

(** A branch that is left with one child is that child under its nibble. *)
Lemma tget_contract l q :
  length l = 16%nat -> in_use 0 l <> [] -> nibs_ok q -> tget (contract_t l) q = tget (Branch l []) q.
Proof.
  intros Hl Hu Hq. unfold contract_t. destruct (in_use 0 l) as [|i [|j r]] eqn:E; [done| |done].
  assert (forall j, j ∈ in_use 0 l <-> j = i) as Hi by (intros j; rewrite E; apply list_elem_of_singleton).
  destruct (proj1 (in_use_elem 0 l i) (proj2 (Hi i) eq_refl)) as (H0 & t & Ht & Hn). rewrite Z.sub_0_r in Ht.
  rewrite Ht. cbn [default from_option id]. rewrite tget_graft by done. cbn [tget].
  destruct q as [|m q]; [by rewrite decide_False by apply prefix_nil_not|].
  change (match map tget l !! Z.to_nat m with Some f => f q | None => [] end) with (tget (Branch l []) (m :: q)).
  rewrite tget_cons. inversion Hq as [|? ? Hm]; subst. destruct (decide (m = i)) as [->|Hne].
  - rewrite decide_True by (apply prefix_cons, prefix_nil). by rewrite Ht.
  - rewrite decide_False by (intros ?%prefix_cons_inv_1; congruence).
    destruct (l !! Z.to_nat m) as [t'|] eqn:E'; [|done]. cbn [default from_option id]. destruct (decide (t' = Null)) as [->|Hn']; [done|].
    exfalso. apply Hne, Hi, in_use_elem. unfold is_nibble in Hm. split; [lia|]. rewrite Z.sub_0_r. eauto.
Qed.

Lemma in_use_lookup l i :
  i ∈ in_use 0 l -> exists t, l !! Z.to_nat i = Some t /\ t <> Null /\ 0 <= i < zlen l.
Proof.
  intros (H0 & t & Ht & Hn)%in_use_elem. rewrite Z.sub_0_r in Ht. exists t. split_and!; [done|done|lia|].
  apply lookup_lt_Some in Ht. lia.
Qed.

(** The shape of a contracted branch that has a child left. *)
Lemma contract_shape n l :
  (1 <= n)%nat -> length l = 16%nat -> in_use 0 l <> [] ->
  Forall (wf (n - 1)) l -> Forall canon l -> Forall (uniform (n - 1)) l ->
  contract_t l <> Null /\ wf n (contract_t l) /\ canon (contract_t l) /\ uniform n (contract_t l).
Proof.
  intros Hn Hl Hu Hw Hc Hf. unfold contract_t. destruct (in_use 0 l) as [|i [|j r]] eqn:E; [done| |].
  - destruct (in_use_lookup l i) as (t & Ht & Hnn & Hi); [rewrite E; by left|]. rewrite Ht. cbn [default from_option id].
    assert (nibs_ok [i]) by (constructor; [unfold is_nibble; lia|constructor]).
    split_and!; [by destruct t|apply wf_graft; (done || by eapply Forall_lookup_1 in Hw)| |].
    + apply canon_graft; [by eapply Forall_lookup_1 in Hc|done].
    + apply uniform_graft; [done|by eapply Forall_lookup_1 in Hf].
  - split_and!; [done|by apply wf_Branch| |by apply uniform_Branch].
    apply canon_Branch. split; [|done]. unfold used. rewrite E. cbn. lia.
Qed.

(** What removing a key of the right length does to a canonical tree. *)
Definition removed (n : nat) (t t' : tree) (k : list Z) : Prop :=
  (forall q, nibs_ok q -> tget t' q = if decide (q = k) then [] else tget t q) /\
  wf n t' /\ canon t' /\ uniform n t' /\ ((exists l w, t = Branch l w) -> t' <> Null).

Lemma tdel_spec n t k :
  wf n t -> canon t -> uniform n t -> nibs_ok k -> length k = n ->
  match tdel t k with
  | None => tget t k = []
  | Some t' => tget t k <> [] /\ removed n t t' k
  end.
Proof.
  revert n k. induction t as [|k' w|k' t IH|l w IH] using tree_rect'; intros n k Hw Hc Hu Hk Hl; cbn [tdel].
  - done.
  - cbn [tget]. destruct (decide (k = k')) as [->|Hne]; [|done].
    split; [done|]. split_and!; [|done|done|done|intros (? & ? & ?); done].
    intros q Hq. cbn [tget]. by repeat case_decide.
  - cbn [tget]. destruct (decide (k' `prefix_of` k)) as [[r ->]|Hp]; [|done].
    rewrite drop_app_length. pose proof Hw as (H1 & H2 & H3 & H4 & H5). destruct Hu as [H6 H7]. destruct Hc as [Hb Hc].
    apply nibs_ok_app in Hk as [_ Hr]. rewrite length_app in Hl.
    specialize (IH (n - length k')%nat r H5 Hc H7 Hr ltac:(lia)). destruct (tdel t r) as [t'|]; [|done].
    destruct IH as (Hne & Hg & Hw' & Hc' & Hu' & Hnn).
    assert (t' <> Null) as Ht' by (apply Hnn; destruct t; try done; eauto).
    split; [done|]. split_and!; [|by apply wf_graft|by apply canon_graft|by apply uniform_graft|intros (? & ? & ?); done].
    intros q Hq. rewrite tget_graft by done. cbn [tget]. destruct (decide (k' `prefix_of` q)) as [[r' ->]|Hp].
    + rewrite drop_app_length, Hg by (by apply nibs_ok_app in Hq as [_ ?]).
      destruct (decide (r' = r)) as [->|Hne']; [by rewrite decide_True|]. rewrite decide_False; [done|].
      by intros ?%app_inv_head.
    + rewrite decide_False; [done|]. intros ->. by apply Hp, prefix_app_r.
  - apply wf_Branch in Hw as (H1 & H2 & H3 & H4). apply uniform_Branch in Hu as (-> & _ & Hu).
    apply canon_Branch in Hc as [Hcu Hc]. destruct k as [|m r]; [cbn in Hl; lia|]. rewrite tget_cons, list_lookup_fmap.
    inversion Hk as [|? ? Hm Hr]; subst. destruct (l !! Z.to_nat m) as [t|] eqn:Et; [|done].
    cbn [fmap option_fmap option_map default from_option id].
    cbn [length] in *. rewrite Nat.sub_1_r in *. cbn [Nat.pred] in *.
    pose proof (Forall_lookup_1 _ _ _ _ IH Et _ r (Forall_lookup_1 _ _ _ _ H4 Et) (Forall_lookup_1 _ _ _ _ Hc Et)
      (Forall_lookup_1 _ _ _ _ Hu Et) Hr eq_refl) as IHt.
    destruct (tdel t r) as [t'|]; [|done]. destruct IHt as (Hne & Hg & Hw' & Hc' & Hu' & _).
    assert (length (<[Z.to_nat m := t']> l) = 16%nat) as Hl' by by rewrite length_insert.
    assert (in_use 0 (<[Z.to_nat m := t']> l) <> []) as Hi.
    { pose proof (in_use_insert 0 l _ _ t' Et) as Hi. unfold used in Hcu. intros E. rewrite E in Hi. cbn in Hi.
      assert (nn t <= 1)%nat by (unfold nn; destruct (is_null t); lia). lia. }
    destruct (contract_shape (S (length r)) (<[Z.to_nat m := t']> l)) as (Hn0 & Hw'' & Hc'' & Hu'');
      try done; rewrite ?Nat.sub_1_r; cbn [Nat.pred]; [by apply Forall_insert..|].
    split; [done|]. split_and!; try done.
    intros q Hq. rewrite tget_contract by done. destruct q as [|m' q]; [done|]. inversion Hq as [|? ? Hm' Hq']; subst.
    rewrite !tget_cons, child_insert by done. destruct (decide (m = m')) as [<-|Hne'].
    + rewrite Hg by done. rewrite Et. cbn [default from_option id]. repeat case_decide; congruence.
    + rewrite decide_False; [done|]. congruence.
Qed.

(** ** Inserting in steps, as the code does *)

Lemma split_disjoint_Leaf a b w v : disjoint a b -> split (Leaf b w) b a v = put (branch_of (Leaf b w)) a v.
Proof. intros Hd. unfold split. rewrite (disjoint_shared a b Hd). by rewrite !drop_0. Qed.
Lemma split_disjoint_Ext a b t v : disjoint a b -> split (Ext b t) b a v = put (branch_of (Ext b t)) a v.
Proof. intros Hd. unfold split. rewrite (disjoint_shared a b Hd). by rewrite !drop_0. Qed.

Lemma tins_put t k v : free_at t k -> tins t k v = put t k v.
Proof.
  intros (l & w & -> & Hl & Hf). destruct k as [|m r]; [done|]. destruct Hf as [Hm Hf]. cbn [tins put].
  rewrite list_lookup_fmap. unfold is_nibble in Hm. destruct (l !! Z.to_nat m) as [t|] eqn:E; [|apply lookup_ge_None in E; lia].
  cbn in Hf. by subst t.
Qed.

(** Cutting a pair at a shared prefix first gives the same tree. *)
Lemma tins_cut_Leaf p a b w v :
  p <> [] -> a <> b -> disjoint a b -> tins (Ext p (Leaf b w)) (p ++ a) v = tins (Leaf (p ++ b) w) (p ++ a) v.
Proof.
  intros Hp Hne Hd. cbn [tins]. rewrite decide_True by by apply prefix_app_r. rewrite drop_app_length.
  rewrite !decide_False by (by try intros ?%app_inv_head). rewrite split_disjoint_Leaf by done. unfold split.
  rewrite shared_app by done. rewrite take_app_length, !drop_app_length. by destruct p.
Qed.

Lemma tins_cut_Ext p a b t v :
  p <> [] -> b <> [] -> disjoint a b -> tins (Ext p (Ext b t)) (p ++ a) v = tins (Ext (p ++ b) t) (p ++ a) v.
Proof.
  intros Hp Hne Hd. cbn [tins]. rewrite decide_True by by apply prefix_app_r. rewrite drop_app_length.
  assert (~ b `prefix_of` a) as Hnp.
  { intros [r ->]. destruct b; [done|]. by cbn in Hd. }
  rewrite !decide_False by (by try intros ?%prefix_app_inv). rewrite split_disjoint_Ext by done. unfold split.
  rewrite shared_app by done. rewrite take_app_length, !drop_app_length. by destruct p.
Qed.

(** Turning a pair into a branch first gives the same tree. *)
Lemma tins_branch_Leaf a b w v :
  a <> b -> disjoint a b -> nibs_ok a -> nibs_ok b ->
  tins (branch_of (Leaf b w)) a v = tins (Leaf b w) a v.
Proof.
  intros Hne Hd Ha Hb. rewrite tins_put by by apply free_Leaf. cbn [tins]. rewrite decide_False by done.
  by rewrite split_disjoint_Leaf.
Qed.
Lemma tins_branch_Ext a b t v :
  b <> [] -> disjoint a b -> nibs_ok a -> nibs_ok b ->
  tins (branch_of (Ext b t)) a v = tins (Ext b t) a v.
Proof.
  intros Hne Hd Ha Hb. rewrite tins_put by by apply free_Ext. cbn [tins].
  rewrite decide_False by (intros [r ->]; destruct b; [done|]; by cbn in Hd). by rewrite split_disjoint_Ext.
Qed.

(** How often the code visits nodes when it inserts at [k]. *)
Definition need (t : tree) (k : list Z) : nat :=
  (4 * length k +
   match t with
   | Null => 1
   | Branch _ _ => 2
   | Leaf k' _ => if decide (shared k k' = 0%nat) then 3 else 4
   | Ext k' _ => if decide (k' `prefix_of` k) then 1 else if decide (shared k k' = 0%nat) then 3 else 4
   end)%nat.

Lemma need_le t k : (need t k <= 4 * length k + 4)%nat.
Proof. unfold need. destruct t; repeat case_decide; lia. Qed.

End TrieSpec.
