(* ===== verification/TrieRefine.v ===== *)
(** * TrieRefine: the trie code implements trees

    How a tree of [TrieSpec] is stored: [enc] is the RLP of its root node, a
    child is inside its parent or, from 32 bytes on, in the store under its
    hash. [spec] is a small program logic for the programs of [TrieDB]: what a
    program returns and what the store holds afterwards, provided the nodes
    involved have different hashes. The lemmas show that [atAux], [mergeAt] and
    [deleteAt] on an encoded tree are [tget], [tins] and [tdel]. *)

From stdpp Require Import base list numbers option.
From Stdlib Require Import ZArith Lia.
From S2P Require Import Prelude.
From S2P Require Import Bytes.
From S2P Require Import Rlp.
From S2P Require Import RlpStream.
From S2P Require Import RlpFields.
From S2P Require Import Keccak.
From S2P Require Import MemoryDB.
From S2P Require Import TrieCommon.
From S2P Require Import TrieDB.
From S2P Require Import TrieSpec.
Import VectorRef CommonData RLP RLPStream RlpFields Keccak TrieCommon TrieDB TrieSpec.

Module TrieRefine.

#[local] Opaque sha3.

(** ** Nodes as items *)

Definition ref_of (i : Item) : Item := if zlen (encode i) <? 32 then i else Str (sha3 (encode i)).

Fixpoint item (t : tree) : Item :=
  match t with
  | Null => Str []
  | Leaf k v => Lst [Str (hp true k); Str v]
  | Ext k t' => Lst [Str (hp false k); ref_of (item t')]
  | Branch l v => Lst (map (fun t' => ref_of (item t')) l ++ [Str v])
  end.
Definition enc (t : tree) : bytes := encode (item t).
Definition ref (t : tree) : Item := ref_of (item t).

(** ** Sizes *)

(** An item that is far from the limits of RLP. *)
Definition small (i : Item) : Prop := item_ok i /\ zlen (encode i) < 2 ^ 40.

Lemma small_encodable i : small i -> encodable i.
Proof. intros [H1 H2]. split; [done|]. unfold maxLength. lia. Qed.

Lemma header_length imm ind n : 0 <= n < maxLength -> 1 <= zlen (header imm ind n) <= 9.
Proof.
  intros Hn. unfold header. destruct (Z.ltb_spec n 56); [cbn; lia|].
  pose proof (compact_small n ltac:(lia)) as [Hl _]. rewrite zlen_cons. lia.
Qed.

Lemma encode_Str_length s : zlen s < maxLength -> zlen (encode (Str s)) <= 9 + zlen s.
Proof.
  intros Hs. cbn [encode]. destruct (encode_str_cases s) as [(b & -> & _ & ->)|[-> _]]; [simpl; lia|].
  rewrite zlen_app. pose proof (header_length 0x80 0xb7 (zlen s) ltac:(lia)). lia.
Qed.

Lemma encode_Lst_length l :
  zlen (concat (map encode l)) < maxLength ->
  1 + zlen (concat (map encode l)) <= zlen (encode (Lst l)) <= 9 + zlen (concat (map encode l)).
Proof.
  intros Hs. cbn [encode]. rewrite zlen_app.
  pose proof (header_length 0xc0 0xf7 (zlen (concat (map encode l))) ltac:(lia)). lia.
Qed.

Lemma small_Str s : bytes_ok s -> zlen s < 2 ^ 39 -> small (Str s).
Proof.
  intros Hb Hs. split; [done|]. pose proof (encode_Str_length s ltac:(unfold maxLength; lia)). lia.
Qed.

(** Items whose encodings together are below [b]. *)
Definition sizes (l : list Item) : Z := zlen (concat (map encode l)).

Lemma sizes_app l k : sizes (l ++ k) = sizes l + sizes k.
Proof. unfold sizes. by rewrite map_app, concat_app, zlen_app. Qed.
Lemma sizes_cons i l : sizes (i :: l) = zlen (encode i) + sizes l.
Proof. unfold sizes. cbn [map concat]. by rewrite zlen_app. Qed.
Lemma sizes_nil : sizes [] = 0.
Proof. done. Qed.
Lemma sizes_nonneg l : 0 <= sizes l.
Proof. unfold sizes. lia. Qed.

Lemma small_Lst l : Forall item_ok l -> sizes l < 2 ^ 39 -> small (Lst l).
Proof.
  intros Hl Hs. split; [by apply item_ok_Lst|]. unfold sizes in Hs.
  pose proof (encode_Lst_length l ltac:(unfold maxLength; lia)). lia.
Qed.

Lemma sizes_small l : Forall small l -> zlen l <= 100 -> sizes l < 2 ^ 47.
Proof.
  intros Hl Hn. assert (sizes l <= zlen l * 2 ^ 40) by (induction Hl as [|i l [_ Hi] _ IH]; [done|];
    rewrite sizes_cons, zlen_cons in *; lia). lia.
Qed.

Lemma sha3_small x : bytes_ok (sha3 x) /\ zlen (sha3 x) = 32.
Proof. pose proof (sha3_hash x) as [H1 H2]. split; [done|lia]. Qed.

Lemma ref_of_small i : small i -> small (ref_of i) /\ zlen (encode (ref_of i)) <= 41.
Proof.
  intros Hi. unfold ref_of. destruct (Z.ltb_spec (zlen (encode i)) 32); [split; [done|lia]|].
  destruct (sha3_small (encode i)) as [H1 H2]. split; [apply small_Str; [done|lia]|].
  pose proof (encode_Str_length (sha3 (encode i)) ltac:(unfold maxLength; lia)). lia.
Qed.

(** Keys of up to [2^28] nibbles. *)
Definition depth_ok (n : nat) : Prop := Z.of_nat n < 2 ^ 28.

Lemma hp_small leaf k : nibs_ok k -> zlen k < 2 ^ 28 -> small (Str (hp leaf k)) /\ zlen (encode (Str (hp leaf k))) < 2 ^ 29.
Proof.
  intros Hk Hl. destruct (hp_ok leaf k Hk) as [H1 H2]. split; [apply small_Str; [done|lia]|].
  pose proof (encode_Str_length (hp leaf k) ltac:(unfold maxLength; lia)). lia.
Qed.

Lemma val_small v : val_ok v -> small (Str v) /\ zlen (encode (Str v)) < 2 ^ 33.
Proof.
  intros [H1 H2]. split; [apply small_Str; [done|lia]|].
  pose proof (encode_Str_length v ltac:(unfold maxLength; lia)). lia.
Qed.

Lemma sizes_refs l : Forall (fun i => zlen (encode i) <= 41) l -> sizes l <= 41 * zlen l.
Proof. induction 1 as [|i l Hi _ IH]; [done|]. rewrite sizes_cons, zlen_cons. lia. Qed.

Lemma item_small n t : depth_ok n -> wf n t -> small (item t).
Proof.
  unfold depth_ok. revert n. induction t as [|k v|k t IH|l v IH] using tree_rect'; intros n Hn Hw; cbn [item].
  - apply small_Str; [constructor|done].
  - destruct Hw as (Hk & Hl & Hv). destruct (hp_small true k Hk ltac:(lia)) as [H1 H2]. destruct (val_small v Hv) as [H3 H4].
    apply small_Lst; [repeat constructor; [apply H1|apply H3]|]. rewrite !sizes_cons. change (sizes []) with 0. lia.
  - destruct Hw as (_ & Hk & Hl & _ & Hw). destruct (hp_small false k Hk ltac:(lia)) as [H1 H2].
    destruct (ref_of_small _ (IH (n - List.length k)%nat ltac:(lia) Hw)) as [H3 H4].
    apply small_Lst; [repeat constructor; [apply H1|apply H3]|]. rewrite !sizes_cons. change (sizes []) with 0. lia.
  - apply wf_Branch in Hw as (H1 & H2 & Hv & Hc). destruct (val_small v Hv) as [H3 H4].
    assert (Forall (fun i => small i /\ zlen (encode i) <= 41) (map (fun t => ref_of (item t)) l)) as Hr.
    { apply Forall_fmap, Forall_lookup. intros i t Ht. cbn.
      apply ref_of_small, (Forall_lookup_1 _ _ _ _ IH Ht (n - 1)%nat); [lia|exact (Forall_lookup_1 _ _ _ _ Hc Ht)]. }
    apply small_Lst.
    + apply Forall_app. split; [|by repeat constructor; apply H3]. eapply List.Forall_impl; [|exact Hr]. by intros i [[? _] _].
    + rewrite sizes_app, sizes_cons. change (sizes []) with 0.
      pose proof (sizes_refs _ (List.Forall_impl _ (fun i H => proj2 H) Hr)) as Hs. rewrite length_map, H2 in Hs. lia.
Qed.

(** ** Writing nodes *)

(** The stream [RLPStream(n)] after the items [l]. *)
Definition partial (n : nat) (l : list Item) : stream :=
  if (List.length l <? n)%nat
  then {| m_out := concat (map encode l); m_listStack := [(Z.of_nat n - zlen l, 0)] |}
  else {| m_out := encode (Lst l); m_listStack := [] |}.

Lemma partial_filled n l : partial n l = filled n (map encode l).
Proof. unfold partial, filled. by rewrite length_map. Qed.

(** An operation that appends the encoding of [t] as one item. *)
Definition appends (op : Str_M unit) (t : Item) : Prop := emits op (encode t).

Lemma appends_rlp t : appends (append_rlp (encode t) 1) t.
Proof. apply emits_raw. Qed.
Lemma appends_raw t : appends (appendRaw (encode t) 1) t.
Proof. apply emits_raw. Qed.
Lemma appends_str s : zlen s < 2 ^ 64 -> appends (append s false) (Str s).
Proof. apply emits_str. Qed.
Lemma appends_hash s : zlen s < 2 ^ 64 -> appends (append_hash s false false) (Str s).
Proof. apply emits_hash. Qed.

Lemma RLPStream_list_spec n : (0 < n)%nat -> RLPStream_list (Z.of_nat n) = Ret (partial n []).
Proof.
  intros Hn. unfold RLPStream_list, write, appendList. destruct (Z.eqb_spec (Z.of_nat n) 0); [lia|].
  cbn. unfold partial. destruct n; [lia|]. cbn. by rewrite Z.sub_0_r.
Qed.

Lemma RLPStream_list_2 : RLPStream_list 2 = Ret (partial 2 []).
Proof. apply (RLPStream_list_spec 2). lia. Qed.
Lemma RLPStream_list_17 : RLPStream_list 17 = Ret (partial 17 []).
Proof. apply (RLPStream_list_spec 17). lia. Qed.

Lemma write_item n l op t :
  appends op t -> (List.length l < n)%nat -> sizes (l ++ [t]) < 2 ^ 64 ->
  write op (partial n l) = Ret (partial n (l ++ [t])).
Proof.
  intros Hop Hl Hs. unfold write. rewrite !partial_filled, map_app. cbn [map].
  rewrite (filled_append n (map encode l) op (encode t)); [done|done|by rewrite length_map|].
  unfold sizes in Hs. by rewrite map_app in Hs.
Qed.

Lemma finish_spec n l : List.length l = n -> finish (partial n l) = Ret (encode (Lst l)).
Proof. intros <-. unfold finish, partial. by rewrite Nat.ltb_irrefl. Qed.

(** Items that fit in one node. *)
Definition fits (l : list Item) : Prop := Forall item_ok l /\ sizes l < 2 ^ 39.

Lemma fits_encodable l : fits l -> encodable (Lst l).
Proof. intros [H1 H2]. by apply small_encodable, small_Lst. Qed.

Lemma fits_app l k : fits (l ++ k) -> fits l /\ fits k.
Proof.
  intros [H1 H2]. apply Forall_app in H1 as [H1 H3]. rewrite sizes_app in H2.
  pose proof (sizes_nonneg l). pose proof (sizes_nonneg k). split; (split; [done|lia]).
Qed.

Lemma fits_item l i t : fits l -> l !! i = Some t -> small t /\ encodable t.
Proof.
  intros [H1 H2] Ht. assert (small t) as Hs; [|by split; [|apply small_encodable]].
  split; [by eapply Forall_lookup_1 in H1|]. apply list_elem_of_split_length in Ht as (a & b & -> & _).
  rewrite sizes_app, sizes_cons in H2. pose proof (sizes_nonneg a). pose proof (sizes_nonneg b). lia.
Qed.

Lemma copyItems_spec ixs orig l k n :
  fits orig -> (List.length l + List.length ixs <= n)%nat ->
  Forall2 (fun i t => 0 <= i /\ orig !! Z.to_nat i = Some t) ixs k ->
  sizes (l ++ k) < 2 ^ 64 ->
  copyItems ixs (encode (Lst orig)) (partial n l) = Ret (partial n (l ++ k)).
Proof.
  intros Ho Hn Hk. revert l Hn. induction Hk as [|i t ixs k [Hi Ht] Hk IH]; intros l Hn Hs; cbn [copyItems].
  - by rewrite app_nil_r.
  - rewrite (nth_encode _ _ t) by (done || by apply fits_encodable). cbn [lift pbind].
    assert (l ++ t :: k = (l ++ [t]) ++ k) as E by by rewrite <- app_assoc. rewrite E in *.
    rewrite (write_item n l _ t); [|apply appends_rlp|cbn in Hn; lia|].
    2:{ rewrite sizes_app in Hs. pose proof (sizes_nonneg k). lia. }
    cbn [pbind]. apply IH; [|done]. rewrite length_app. cbn in *. lia.
Qed.

Lemma range_items {A} a n (l : list A) :
  (a + n <= List.length l)%nat ->
  Forall2 (fun i t => 0 <= i /\ l !! Z.to_nat i = Some t) (range a n) (take n (drop a l)).
Proof.
  revert a. induction n as [|n IH]; intros a Hl; [constructor|].
  destruct (lookup_lt_is_Some_2 l a ltac:(lia)) as [t Ht]. rewrite (drop_S _ _ _ Ht). cbn [take].
  unfold range. cbn [seq map]. constructor; [split; [lia|by rewrite Nat2Z.id]|]. apply (IH (S a)). lia.
Qed.

(** ** Pairs and branches *)

(** A pair with key [k] and second item [x]. *)
Definition two (leaf : bool) (k : list Z) (x : Item) : Item := Lst [Str (hp leaf k); x].

Definition two_ok (k : list Z) (x : Item) : Prop :=
  nibs_ok k /\ zlen k < 2 ^ 28 /\ item_ok x /\ zlen (encode x) < 2 ^ 34.

Lemma two_fits leaf k x : two_ok k x -> fits [Str (hp leaf k); x].
Proof.
  intros (Hk & Hl & Hx & Hs). destruct (hp_small leaf k Hk Hl) as [[H1 _] H2]. split; [by repeat constructor|].
  rewrite !sizes_cons. change (sizes []) with 0. lia.
Qed.

Lemma two_encodable leaf k x : two_ok k x -> encodable (two leaf k x).
Proof. intros H. by apply fits_encodable, two_fits. Qed.

Section Pair.
Context (leaf : bool) (k : list Z) (x : Item) (Hok : two_ok k x).
Let HE := two_encodable leaf k x Hok.

Lemma two_isEmpty : isEmpty (encode (two leaf k x)) = false.
Proof. by apply isEmpty_Lst. Qed.
Lemma two_isList : isList (encode (two leaf k x)) = true.
Proof. by rewrite encode_isList. Qed.
Lemma two_count : itemCount (encode (two leaf k x)) = Ok 2.
Proof. by apply itemCount_encode. Qed.
Lemma two_nodeItems : nodeItems (encode (two leaf k x)) = Ret 2.
Proof. unfold nodeItems. rewrite two_count, two_isList. done. Qed.
Lemma two_pairItems : pairItems (encode (two leaf k x)) = Ret tt.
Proof. unfold pairItems. rewrite two_count, two_isList. done. Qed.
Lemma two_nth0 : nth (encode (two leaf k x)) 0 = Ok (encode (Str (hp leaf k))).
Proof. by apply nth_encode. Qed.
Lemma two_nth1 : nth (encode (two leaf k x)) 1 = Ok (encode x).
Proof. by apply nth_encode. Qed.
Lemma two_payload : payload (encode (Str (hp leaf k))) = Ok (hp leaf k).
Proof.
  rewrite encode_payload; [done|]. pose proof Hok as (Hk & Hl & _). apply small_encodable, hp_small; done.
Qed.
Lemma two_keyOf : keyOf (encode (two leaf k x)) = Ok (keyOf_ref (hp leaf k)).
Proof. unfold keyOf. rewrite two_nth0. cbn [result_bind]. by rewrite two_payload. Qed.
Lemma two_isLeaf : isLeaf (encode (two leaf k x)) = Ok leaf.
Proof.
  unfold isLeaf. rewrite two_count, two_isList. cbn [result_bind andb]. change (negb (2 =? 2)) with false. cbv iota.
  rewrite two_nth0. cbn [result_bind]. rewrite two_payload. cbn [result_bind].
  pose proof Hok as (Hk & _). destruct (hp_leaf_flag leaf k Hk) as (b & r & -> & Hf). rewrite ref_at_0. cbn [result_bind].
  by rewrite Hf.
Qed.
Lemma two_key : slice_ok (keyOf_ref (hp leaf k)) /\ nibs (keyOf_ref (hp leaf k)) = k.
Proof. pose proof Hok as (Hk & Hl & _). apply keyOf_hp; [done|lia]. Qed.
Lemma two_key_size : ns_size (keyOf_ref (hp leaf k)) = zlen k.
Proof. destruct two_key as [H1 H2]. by rewrite ns_size_spec, H2. Qed.
Lemma two_RLP_of : RLP_of (encode (two leaf k x)) = Ret (encode (two leaf k x)).
Proof. unfold RLP_of. by rewrite encode_make. Qed.

End Pair.

Lemma rlpList2_spec a b x y :
  appends a x -> appends b y -> fits [x; y] -> rlpList2 a b = Ret (encode (Lst [x; y])).
Proof.
  intros Ha Hb [_ Hs]. unfold rlpList2. rewrite RLPStream_list_2. cbn [pbind].
  assert (sizes [x] <= sizes [x; y]) by (rewrite !sizes_cons; lia).
  rewrite (write_item 2 [] a x) by (done || cbn; lia). cbn [pbind app].
  rewrite (write_item 2 [x] b y) by (done || cbn; lia). cbn [pbind app].
  by rewrite finish_spec.
Qed.

(** The items of a branch. *)
Definition branch_items (l : list tree) (v : bytes) : list Item := map ref l ++ [Str v].

Section BranchNode.
Context (n : nat) (l : list tree) (v : bytes) (Hn : depth_ok n) (Hw : wf n (Branch l v)).

Lemma branch_fits : fits (branch_items l v).
Proof.
  apply wf_Branch in Hw as (H1 & H2 & Hv & Hc). unfold depth_ok in Hn.
  assert (Forall (fun i => small i /\ zlen (encode i) <= 41) (map ref l)) as Hr.
  { apply Forall_fmap, Forall_lookup. intros i t Ht. cbn.
    apply ref_of_small, (item_small (n - 1)); [unfold depth_ok; lia|exact (Forall_lookup_1 _ _ _ _ Hc Ht)]. }
  destruct (val_small v Hv) as [[H3 _] H4]. split.
  - apply Forall_app. split; [|by repeat constructor]. eapply List.Forall_impl; [|exact Hr]. by intros i [[? _] _].
  - unfold branch_items. rewrite sizes_app, sizes_cons. change (sizes []) with 0.
    pose proof (sizes_refs _ (List.Forall_impl _ (fun i H => proj2 H) Hr)) as Hs. rewrite length_map, H2 in Hs. lia.
Qed.

Lemma branch_length : List.length (branch_items l v) = 17%nat.
Proof. apply wf_Branch in Hw as (_ & H2 & _). unfold branch_items. rewrite length_app, length_map, H2. done. Qed.

Lemma branch_enc : enc (Branch l v) = encode (Lst (branch_items l v)).
Proof. done. Qed.
Lemma branch_encodable : encodable (Lst (branch_items l v)).
Proof. apply fits_encodable, branch_fits. Qed.
Lemma branch_isEmpty : isEmpty (enc (Branch l v)) = false.
Proof. apply isEmpty_Lst; [apply branch_encodable|]. unfold branch_items. intros [_ ?]%app_eq_nil; done. Qed.
Lemma branch_isList : isList (enc (Branch l v)) = true.
Proof. rewrite branch_enc, encode_isList by apply branch_encodable. done. Qed.
Lemma branch_count : itemCount (enc (Branch l v)) = Ok 17.
Proof. rewrite branch_enc, itemCount_encode by apply branch_encodable. by rewrite branch_length. Qed.
Lemma branch_nodeItems : nodeItems (enc (Branch l v)) = Ret 17.
Proof. unfold nodeItems. rewrite branch_count, branch_isList. done. Qed.
Lemma branch_nth i t : is_nibble i -> l !! Z.to_nat i = Some t -> nth (enc (Branch l v)) i = Ok (encode (ref t)).
Proof.
  intros Hi Ht. unfold is_nibble in Hi. rewrite branch_enc. apply nth_encode; [apply branch_encodable| |lia].
  unfold branch_items. rewrite lookup_app_l by (rewrite length_map; by apply lookup_lt_Some in Ht).
  rewrite list_lookup_fmap, Ht. done.
Qed.
Lemma branch_nth16 : nth (enc (Branch l v)) 16 = Ok (encode (Str v)).
Proof.
  rewrite branch_enc. apply nth_encode; [apply branch_encodable| |lia]. unfold branch_items.
  apply wf_Branch in Hw as (_ & H2 & _). rewrite lookup_app_r by (rewrite length_map, H2; done).
  by rewrite length_map, H2.
Qed.
Lemma branch_child i : is_nibble i -> exists t, l !! Z.to_nat i = Some t /\ wf (n - 1) t.
Proof.
  intros Hi. unfold is_nibble in Hi. apply wf_Branch in Hw as (_ & H2 & _ & Hc).
  destruct (lookup_lt_is_Some_2 l (Z.to_nat i) ltac:(lia)) as [t Ht]. exists t. split; [done|by eapply Forall_lookup_1 in Hc].
Qed.

End BranchNode.

(** ** Trees in a store *)

(** The nodes below [t] that are kept by their hash; and [t] itself when it is
    large enough. *)
Definition hnode (t : tree) : list bytes := if zlen (enc t) <? 32 then [] else [enc t].
Fixpoint nodes (t : tree) : list bytes :=
  match t with
  | Null | Leaf _ _ => []
  | Ext _ t' => hnode t' ++ nodes t'
  | Branch l _ => List.flat_map (fun t' => hnode t' ++ nodes t') l
  end.
Abbreviation below t := (hnode t ++ nodes t).

Section Refine.
Context {DB : Type} {ND : NodeDB DB} {NL : NodeDBLaws DB}.

(** The byte strings in play, on which the hash is injective. *)
Context (U : bytes -> Prop) (U_inj : forall x y, U x -> U y -> sha3 x = sha3 y -> x = y).

Definition stored (d : DB) (x : bytes) : Prop := U x /\ x <> [] /\ db_lookup d (sha3 x) = x.
Definition rep (d : DB) (t : tree) : Prop := Forall (stored d) (nodes t).
Definition keeps (d d' : DB) : Prop := forall x, stored d x -> stored d' x.

(** [p] returns, in a store that keeps what [d] has, something that satisfies
    [Q]. *)
Definition spec {A} (p : prog A) (d : DB) (Q : A -> DB -> Prop) : Prop :=
  db_ok d -> Forall U (writes p d) ->
  exists a d', run p d = (Ok a, d') /\ db_ok d' /\ keeps d d' /\ Q a d'.

Lemma keeps_refl d : keeps d d.
Proof. by intros x. Qed.
Lemma keeps_trans d d' d'' : keeps d d' -> keeps d' d'' -> keeps d d''.
Proof. intros H1 H2 x Hx. auto. Qed.
Lemma keeps_Forall d d' l : keeps d d' -> Forall (stored d) l -> Forall (stored d') l.
Proof. intros Hk. apply List.Forall_impl. exact Hk. Qed.

Lemma run_pbind {A B} (p : prog A) (f : A -> prog B) d :
  run (pbind p f) d =
  match run p d with (Ok a, d') => run (f a) d' | (Err e, d') => (Err e, d') end.
Proof. revert d. induction p; intros d; cbn [pbind run]; auto. Qed.

Lemma writes_pbind {A B} (p : prog A) (f : A -> prog B) d :
  writes (pbind p f) d =
  writes p d ++ match run p d with (Ok a, d') => writes (f a) d' | (Err e, d') => [] end.
Proof. revert d. induction p; intros d; cbn [pbind run writes app]; auto. by rewrite IHp. Qed.

Lemma spec_ret {A} (a : A) d (Q : A -> DB -> Prop) : Q a d -> spec (Ret a) d Q.
Proof. intros HQ Hd _. exists a, d. split_and!; [done|done|apply keeps_refl|done]. Qed.

Lemma spec_bind {A B} (p : prog A) (f : A -> prog B) d (Q : B -> DB -> Prop) :
  spec p d (fun a d' => keeps d d' -> spec (f a) d' Q) -> spec (pbind p f) d Q.
Proof.
  intros Hp Hd Hw. rewrite writes_pbind in Hw. apply Forall_app in Hw as [Hw1 Hw2].
  destruct (Hp Hd Hw1) as (a & d1 & E1 & Hd1 & Hk1 & Hf). rewrite E1 in Hw2.
  destruct (Hf Hk1 Hd1 Hw2) as (b & d2 & E2 & Hd2 & Hk2 & HQ).
  exists b, d2. rewrite run_pbind, E1. split_and!; [done|done|by eapply keeps_trans|done].
Qed.

Lemma spec_consequence {A} (p : prog A) d (Q Q' : A -> DB -> Prop) :
  spec p d Q -> (forall a d', keeps d d' -> Q a d' -> Q' a d') -> spec p d Q'.
Proof.
  intros Hp HQ Hd Hw. destruct (Hp Hd Hw) as (a & d' & E & Hd' & Hk & Ha). exists a, d'. auto 6.
Qed.

Lemma spec_node h d (Q : bytes -> DB -> Prop) : Q (db_lookup d h) d -> spec (node h) d Q.
Proof. intros HQ Hd _. exists (db_lookup d h), d. split_and!; [done|done|apply keeps_refl|done]. Qed.

Lemma spec_kill h d (Q : unit -> DB -> Prop) :
  (forall d', keeps d d' -> Q tt d') -> spec (forceKillNode h) d Q.
Proof.
  intros HQ Hd _. exists tt, (db_kill d h).
  assert (keeps d (db_kill d h)) by (intros x (H1 & H2 & H3); split_and!; [done|done|]; by rewrite db_lookup_kill).
  split_and!; [done|by apply db_ok_kill|done|auto].
Qed.

Lemma spec_killNode x h d (Q : unit -> DB -> Prop) :
  (forall d', keeps d d' -> Q tt d') -> spec (killNode_hash x h) d Q.
Proof.
  intros HQ. unfold killNode_hash. destruct (32 <=? zlen x); [by apply spec_kill|]. apply spec_ret, HQ, keeps_refl.
Qed.

Lemma spec_insert v d (Q : bytes -> DB -> Prop) :
  v <> [] -> (forall d', stored d' v -> Q (sha3 v) d') -> spec (forceInsertNode v) d Q.
Proof.
  intros Hv HQ Hd Hw. inversion Hw as [|? ? HU _]; subst. exists (sha3 v), (db_insert d (sha3 v) v).
  assert (stored (db_insert d (sha3 v) v) v) by (split_and!; [done|done|by apply db_lookup_insert]).
  split_and!; [done|by apply db_ok_insert| |auto].
  intros x (H1 & H2 & H3). destruct (decide (sha3 v = sha3 x)) as [E|Hn].
  - by rewrite <- (U_inj v x HU H1 E).
  - split_and!; [done|done|]. by rewrite db_lookup_insert_ne.
Qed.

(** ** Children *)

Lemma item_nonempty n t : depth_ok n -> wf n t -> enc t <> [].
Proof.
  intros Hn Hw. pose proof (encode_nonempty _ (small_encodable _ (item_small n t Hn Hw))) as H.
  unfold enc. intros E. rewrite E in H. done.
Qed.

Lemma enc_RLP_of n t : depth_ok n -> wf n t -> RLP_of (enc t) = Ret (enc t).
Proof. intros Hn Hw. unfold RLP_of, enc. by rewrite (encode_make _ (small_encodable _ (item_small n t Hn Hw))). Qed.

Lemma ref_cases t :
  (zlen (enc t) < 32 /\ ref t = item t /\ hnode t = []) \/
  (32 <= zlen (enc t) /\ ref t = Str (sha3 (enc t)) /\ hnode t = [enc t]).
Proof. unfold ref, ref_of, hnode. fold (enc t). destruct (Z.ltb_spec (zlen (enc t)) 32); [left|right]; auto. Qed.

Lemma hash_encodable x : encodable (Str (sha3 x)).
Proof. destruct (sha3_small x). apply small_encodable, small_Str; [done|lia]. Qed.

Lemma item_is_lst t : t <> Null -> is_lst (item t) = true.
Proof. by destruct t. Qed.

Lemma child_spec n t d (Q : bytes -> DB -> Prop) :
  depth_ok n -> wf n t -> t <> Null -> Forall (stored d) (hnode t) -> Q (enc t) d ->
  spec (child (encode (ref t))) d Q.
Proof.
  intros Hn Hw Ht Hs HQ. unfold child. destruct (ref_cases t) as [(Hl & E & _)|(Hl & E & Eh)]; rewrite E.
  - rewrite encode_isList, item_is_lst by (done || by eapply small_encodable, item_small). by apply spec_ret.
  - rewrite encode_isList by apply hash_encodable. cbn [is_lst].
    rewrite toHash_Strict by (apply hash_encodable || apply sha3_hash). cbn [lift pbind].
    rewrite Eh in Hs. inversion Hs as [|? ? (_ & _ & Hk) _]; subst.
    apply spec_bind, spec_node. intros _. rewrite Hk, (enc_RLP_of n) by done. by apply spec_ret.
Qed.

Lemma ref_isEmpty n t : depth_ok n -> wf n t -> isEmpty (encode (ref t)) = is_null t.
Proof.
  intros Hn Hw. pose proof (small_encodable _ (item_small n t Hn Hw)) as He.
  destruct (ref_cases t) as [(Hl & E & _)|(Hl & E & _)]; rewrite E.
  - destruct t as [|k v|k t|l v]; cbn [item is_null] in *; [by rewrite isEmpty_Str| | |]; rewrite isEmpty_Lst; try done.
    intros [_ ?]%app_eq_nil. done.
  - rewrite isEmpty_Str by apply hash_encodable. destruct (sha3_hash (enc t)) as [H1 _].
    rewrite bool_decide_false by (intros E'; by rewrite E' in H1). destruct t; [|reflexivity..]. change (zlen (enc Null)) with 1 in Hl. lia.
Qed.

Lemma enc_isEmpty n t : depth_ok n -> wf n t -> isEmpty (enc t) = is_null t.
Proof.
  intros Hn Hw. pose proof (small_encodable _ (item_small n t Hn Hw)) as He. unfold enc.
  destruct t as [|k v|k t|l v]; cbn [item is_null] in *; [by rewrite isEmpty_Str| | |]; rewrite isEmpty_Lst; try done.
  intros [_ ?]%app_eq_nil. done.
Qed.

Lemma streamNode_spec m l n t d (Q : stream -> DB -> Prop) :
  depth_ok n -> wf n t -> (List.length l < m)%nat -> sizes l < 2 ^ 63 ->
  (forall d', keeps d d' -> Forall (stored d') (hnode t) -> Q (partial m (l ++ [ref t])) d') ->
  spec (streamNode (partial m l) (enc t)) d Q.
Proof.
  intros Hn Hw Hl Hs HQ. pose proof (item_small n t Hn Hw) as Hi. destruct (ref_of_small _ Hi) as [_ Hr]. fold (ref t) in Hr.
  assert (sizes (l ++ [ref t]) < 2 ^ 64).
  { rewrite sizes_app, sizes_cons. change (sizes []) with 0. lia. }
  unfold streamNode. destruct (ref_cases t) as [(Hz & E & Eh)|(Hz & E & Eh)].
  - destruct (Z.ltb_spec (zlen (enc t)) 32); [|lia]. rewrite E in *.
    rewrite (write_item m l _ (item t)) by (done || apply appends_raw). apply spec_ret. apply HQ; [apply keeps_refl|].
    by rewrite Eh.
  - destruct (Z.ltb_spec (zlen (enc t)) 32); [lia|]. rewrite E in *. apply spec_bind.
    apply spec_insert; [by apply (item_nonempty n)|]. intros d' Hst Hk.
    destruct (sha3_small (enc t)) as [_ H32].
    rewrite (write_item m l _ (Str (sha3 (enc t)))); [|apply appends_hash; lia|done|done].
    apply spec_ret. apply HQ; [done|]. rewrite Eh. by constructor.
Qed.

(** ** Looking up *)

Lemma depth_ok_le n m : depth_ok n -> (m <= n)%nat -> depth_ok m.
Proof. unfold depth_ok. lia. Qed.

Local Ltac dok := match goal with H : depth_ok ?n |- _ => apply (depth_ok_le n); [exact H|lia] end.

Lemma leaf_two n k v : depth_ok n -> wf n (Leaf k v) -> two_ok k (Str v).
Proof.
  unfold depth_ok. intros Hn (Hk & Hl & Hv). destruct (val_small v Hv) as [[H1 _] H2].
  split_and!; [done|lia|done|lia].
Qed.

Lemma ext_two n k t : depth_ok n -> wf n (Ext k t) -> two_ok k (ref t).
Proof.
  intros Hn (_ & Hk & Hl & _ & Hw). destruct (ref_of_small _ (item_small (n - List.length k) t ltac:(eapply depth_ok_le; [done|lia]) Hw)) as [[H1 _] H2].
  unfold depth_ok in Hn. fold (ref t) in H1, H2. split_and!; [done|lia|done|lia].
Qed.

Lemma ns_mid_prefix s p r :
  slice_ok s -> nibs s = p ++ r -> slice_ok (ns_mid s (zlen p)) /\ nibs (ns_mid s (zlen p)) = r.
Proof.
  intros Hs E. destruct (ns_mid_spec s (zlen p) Hs) as [H1 H2]; [rewrite E, zlen_app; lia|].
  split; [done|]. rewrite H2, E. by apply zdrop_app.
Qed.

Lemma ns_mid_cons s m r :
  slice_ok s -> nibs s = m :: r -> slice_ok (ns_mid s 1) /\ nibs (ns_mid s 1) = r /\ ns_at s 0 = Ok m /\ is_nibble m.
Proof.
  intros Hs E. destruct (ns_mid_prefix s [m] r Hs E) as [H1 H2]. split_and!; [done|done| |].
  - destruct (ns_at_spec s 0 Hs) as (x & Hx & Hl); [rewrite E, zlen_cons; lia|]. rewrite E in Hl. by injection Hl as ->.
  - pose proof (nibs_nibs_ok s Hs) as Ho. rewrite E in Ho. by inversion Ho.
Qed.

Lemma ns_size_0 s : slice_ok s -> (ns_size s =? 0) = bool_decide (nibs s = []).
Proof.
  intros Hs. rewrite ns_size_spec by done. destruct (nibs s) as [|m r]; [done|].
  rewrite bool_decide_false by done. rewrite zlen_cons. by zbool.
Qed.

Lemma rep_child l v i t d : rep d (Branch l v) -> l !! i = Some t -> Forall (stored d) (below t).
Proof.
  intros Hr Ht. apply Forall_forall. intros x Hx. apply (proj1 (Forall_forall _ _) Hr).
  cbn [nodes]. apply in_flat_map. exists t. split; [by eapply list_elem_of_In, list_elem_of_lookup_2|done].
Qed.

Lemma atAux_spec fuel n t key d :
  depth_ok n -> wf n t -> slice_ok key -> (List.length (nibs key) < fuel)%nat -> rep d t ->
  spec (atAux fuel (enc t) key) d (fun b d' => b = tget t (nibs key) /\ d' = d).
Proof.
  revert n t key. induction fuel as [|fuel IH]; intros n t key Hn Hw Hs Hf Hr; [lia|]. cbn [atAux].
  rewrite (enc_isEmpty n t Hn Hw).
  destruct t as [|k v|k t|l v]; cbn [is_null orb].
  - by apply spec_ret.
  - pose proof (leaf_two n k v Hn Hw) as Ht. change (enc (Leaf k v)) with (encode (two true k (Str v))) in *.
    unfold isNull. pose proof (encode_nonempty _ (two_encodable true k _ Ht)). destruct (Z.eqb_spec (zlen (encode (two true k (Str v)))) 0); [lia|].
    destruct (two_key true k _ Ht) as [Hk1 Hk2].
    rewrite two_nodeItems, two_keyOf, two_isLeaf, two_nth1 by done. cbn [pbind lift]. change (2 =? 2) with true. cbv iota.
    rewrite ns_eq_spec, ns_contains_spec, Hk2 by done. cbn [pbind lift tget]. rewrite andb_true_r, andb_false_r.
    destruct (decide (nibs key = k)) as [E|E].
    + rewrite bool_decide_true by done. rewrite toString_encode by (by eapply small_encodable, val_small, Hw).
      by apply spec_ret.
    + rewrite bool_decide_false by done. by apply spec_ret.
  - pose proof (ext_two n k t Hn Hw) as Ht. change (enc (Ext k t)) with (encode (two false k (ref t))) in *.
    unfold isNull. pose proof (encode_nonempty _ (two_encodable false k _ Ht)). destruct (Z.eqb_spec (zlen (encode (two false k (ref t)))) 0); [lia|].
    destruct (two_key false k _ Ht) as [Hk1 Hk2].
    rewrite two_nodeItems, two_keyOf, two_isLeaf, two_nth1 by done. cbn [pbind lift]. change (2 =? 2) with true. cbv iota.
    rewrite ns_eq_spec, ns_contains_spec, (two_key_size false k _ Ht), Hk2 by done. cbn [pbind lift tget negb]. rewrite andb_true_r, andb_false_r.
    destruct (decide (k `prefix_of` nibs key)) as [[r E]|E].
    + rewrite bool_decide_true by (by exists r). destruct Hw as (Hk0 & _ & Hl & Ht0 & Hw).
      apply Forall_app in Hr as [Hh Hr]. apply spec_bind.
      apply (child_spec (n - List.length k)); [dok|done|done|done|]. intros _.
      destruct (ns_mid_prefix key k r Hs E) as [Hm1 Hm2].
      eapply spec_consequence; [apply (IH (n - List.length k)%nat); [dok|done|done| |done]|].
      * rewrite Hm2. rewrite E, length_app in Hf. destruct k; [done|]. cbn in Hf. lia.
      * intros a d' _ [-> ->]. rewrite Hm2, E. by rewrite drop_app_length.
    + rewrite bool_decide_false by done. by apply spec_ret.
  - unfold isNull. pose proof (item_nonempty n _ Hn Hw) as Hne.
    destruct (Z.eqb_spec (zlen (enc (Branch l v))) 0) as [E|_]; [by destruct (enc (Branch l v))|].
    rewrite (branch_nodeItems n), (branch_nth16 n) by done. cbn [pbind lift]. change (17 =? 2) with false. cbv iota.
    rewrite ns_size_0 by done. destruct (nibs key) as [|m r] eqn:E.
    + rewrite bool_decide_true by done. pose proof Hw as (_ & _ & Hv & _).
      rewrite toString_encode by (by eapply small_encodable, val_small). by apply spec_ret.
    + rewrite bool_decide_false by done. destruct (ns_mid_cons key m r Hs E) as (Hm1 & Hm2 & -> & Hm).
      cbn [pbind lift]. destruct (branch_child n l v Hw m Hm) as (t & Ht & Hwt).
      rewrite (branch_nth n l v Hn Hw m t Hm Ht). cbn [pbind lift]. rewrite tget_cons, Ht. cbn [default from_option id].
      rewrite (ref_isEmpty (n - 1)) by (done || dok).
      destruct (is_null t) eqn:En; [destruct t; try done; by apply spec_ret|].
      pose proof (rep_child _ _ _ _ _ Hr Ht) as [Hh Hr']%Forall_app. apply spec_bind.
      apply (child_spec (n - 1)); [dok|done|by intros ->|done|]. intros _.
      eapply spec_consequence; [apply (IH (n - 1)%nat); [dok|done|done| |done]|].
      * rewrite Hm2. cbn in Hf. lia.
      * intros a d' _ [-> ->]. by rewrite Hm2.
Qed.

(** ** Inserting *)

Lemma slice_key key : slice_ok key -> hexPrefixEncode key true 0 (-1) = Ok (hp true (nibs key)).
Proof.
  intros Hs. rewrite hexPrefixEncode_spec; [|done|cbn; lia|by left]. change (-1 <? 0) with true. cbv iota.
  by rewrite Z.sub_0_r, zdrop_0, ztake_all.
Qed.

Lemma place_Null n key v d :
  depth_ok n -> slice_ok key -> wf n (Leaf (nibs key) v) ->
  spec (place (enc Null) key v) d (fun b d' => b = enc (Leaf (nibs key) v)).
Proof.
  intros Hn Hs Hw. unfold place. apply spec_bind, spec_killNode. intros d' _ _.
  change (isEmpty (enc Null)) with true. cbv iota. rewrite slice_key by done. cbn [lift pbind].
  pose proof (leaf_two n _ _ Hn Hw) as Ht. destruct Hw as (Hk & Hl & Hv & Hz).
  destruct (hp_ok true (nibs key) Hk). unfold depth_ok in Hn.
  rewrite (rlpList2_spec _ _ (Str (hp true (nibs key))) (Str v)) by (apply appends_str || apply two_fits; (done || lia)).
  by apply spec_ret.
Qed.

Lemma place_Leaf n k w key v d :
  depth_ok n -> wf n (Leaf k w) -> val_ok v ->
  spec (place (enc (Leaf k w)) key v) d (fun b d' => b = enc (Leaf k v)).
Proof.
  intros Hn Hw Hv. unfold place. apply spec_bind, spec_killNode. intros d' _ _.
  rewrite (enc_isEmpty n _ Hn Hw). cbn [is_null]. pose proof (leaf_two n k w Hn Hw) as Ht.
  change (enc (Leaf k w)) with (encode (two true k (Str w))).
  rewrite two_nodeItems, two_nth0 by done. cbn [pbind lift]. change (2 =? 2) with true. cbv iota. cbn [pbind].
  assert (two_ok k (Str v)) as Ht'.
  { destruct (val_small v Hv) as [[H1 _] H2]. destruct Ht as (? & ? & _). split_and!; (done || lia). }
  destruct Hv as [_ Hz].
  rewrite (rlpList2_spec _ _ (Str (hp true k)) (Str v)); [|apply appends_rlp|apply appends_str; lia|by apply two_fits].
  by apply spec_ret.
Qed.

Lemma fits_sizes l : fits l -> sizes l < 2 ^ 63.
Proof. intros [_ H]. lia. Qed.

Lemma wf_replace_value n l w v : wf n (Branch l w) -> val_ok v -> wf n (Branch l v).
Proof. rewrite !wf_Branch. tauto. Qed.

Lemma place_Branch n l w key v d :
  depth_ok n -> wf n (Branch l w) -> val_ok v ->
  spec (place (enc (Branch l w)) key v) d (fun b d' => b = enc (Branch l v)).
Proof.
  intros Hn Hw Hv. unfold place. apply spec_bind, spec_killNode. intros d' _ _.
  rewrite (enc_isEmpty n _ Hn Hw), (branch_nodeItems n) by done. cbn [is_null pbind]. change (17 =? 2) with false. cbv iota.
  rewrite RLPStream_list_17. cbn [pbind]. pose proof (branch_fits n l w Hn Hw) as Hf.
  pose proof (branch_fits n l v Hn (wf_replace_value _ _ _ _ Hw Hv)) as Hf'.
  pose proof (branch_length n l w Hw) as Hlen. pose proof (branch_length n l v (wf_replace_value _ _ _ _ Hw Hv)) as Hlen'.
  pose proof Hw as (_ & H16 & _ & _).
  assert (take 16 (drop 0 (branch_items l w)) = map ref l) as Ei.
  { rewrite drop_0. unfold branch_items. rewrite take_app_le by (rewrite length_map, H16; lia).
    apply take_ge. rewrite length_map, H16; lia. }
  pose proof (range_items 0 16 (branch_items l w) ltac:(lia)) as Hr. rewrite Ei in Hr.
  rewrite branch_enc, (copyItems_spec _ _ [] (map ref l) 17) by
    (done || (cbn; lia) || (apply fits_app in Hf as [Hf _]; apply fits_sizes in Hf; cbn [app]; lia)).
  cbn [pbind app]. destruct Hv as [_ Hz].
  rewrite (write_item 17 (map ref l) _ (Str v)); [|apply appends_str; lia|rewrite length_map, H16; lia|apply fits_sizes in Hf'; fold (branch_items l v); lia].
  cbn [pbind]. rewrite finish_spec by done. by apply spec_ret.
Qed.

(** [cleve] cuts a pair: [bt] is the lower part. *)
Lemma cleve_spec n leaf p b x bt d :
  depth_ok n -> two_ok (p ++ b) x -> p <> [] -> wf n bt -> enc bt = encode (two leaf b x) -> bt <> Null ->
  spec (cleve (encode (two leaf (p ++ b) x)) (zlen p)) d
    (fun r d' => r = enc (Ext p bt) /\ Forall (stored d') (hnode bt)).
Proof.
  intros Hn Ht Hp Hw Eb Hb. unfold cleve. apply spec_bind, spec_killNode. intros d1 _ _.
  destruct (two_key leaf _ _ Ht) as [Hk1 Hk2]. pose proof Ht as (Hpb & Hlen & Hx & Hs).
  apply nibs_ok_app in Hpb as [Hpn Hbn]. rewrite zlen_app in Hlen.
  assert (two_ok b x) as Htb by (split_and!; (done || lia)).
  assert (0 < zlen p) by (destruct p; [done|]; rewrite zlen_cons; lia).
  rewrite two_pairItems, two_keyOf, two_isLeaf, two_nth1 by done. cbn [pbind lift].
  rewrite (two_key_size leaf _ _ Ht), zlen_app. unfold check.
  destruct (Z.eqb_spec (zlen p) 0); [lia|]. destruct (Z.leb_spec (zlen p) (zlen p + zlen b)); [|lia]. cbn [negb andb pbind].
  rewrite (hexPrefixEncode_spec _ leaf (zlen p) (-1)); [|done|rewrite Hk2, zlen_app; cbn; lia|by left].
  change (-1 <? 0) with true. cbv iota. rewrite Hk2, zdrop_app, ztake_all by (rewrite ?zlen_app; (done || lia)).
  cbn [pbind lift]. destruct (hp_ok leaf b Hbn).
  rewrite (rlpList2_spec _ _ (Str (hp leaf b)) x); [|apply appends_str; lia|apply appends_rlp|by apply two_fits].
  cbn [pbind]. rewrite RLPStream_list_2. cbn [pbind].
  rewrite (hexPrefixEncode_spec _ false 0 (zlen p)); [|done|rewrite Hk2, zlen_app; destruct (Z.ltb_spec (zlen p) 0); lia|rewrite Hk2, zlen_app; lia].
  destruct (Z.ltb_spec (zlen p) 0); [lia|]. rewrite Hk2, Z.sub_0_r, zdrop_0, ztake_app by done.
  cbn [pbind lift]. destruct (hp_ok false p Hpn). destruct (hp_small false p Hpn ltac:(lia)) as [_ Hps].
  assert (sizes [Str (hp false p)] < 2 ^ 30) by (rewrite sizes_cons; change (sizes []) with 0; lia).
  rewrite (write_item 2 [] _ (Str (hp false p))); [|apply appends_str; lia|cbn; lia|cbn [app]; lia].
  cbn [pbind app]. change (encode (Lst [Str (hp leaf b); x])) with (encode (two leaf b x)). rewrite <- Eb.
  apply spec_bind, (streamNode_spec 2 _ n); [done|done|cbn; lia|lia|]. intros d2 Hk Hst _. cbn [app].
  rewrite finish_spec by done. by apply spec_ret.
Qed.

(** Empty items of a branch. *)
Lemma appendEmpty_spec m n l :
  (List.length l + m <= n)%nat -> sizes l + Z.of_nat m < 2 ^ 62 ->
  appendEmpty m (partial n l) = Ret (partial n (l ++ replicate m (ref Null))).
Proof.
  revert l. induction m as [|m IH]; intros l Hl Hs; cbn [appendEmpty].
  - by rewrite app_nil_r.
  - assert (sizes (l ++ [ref Null]) = sizes l + 1) as E by (by rewrite sizes_app).
    rewrite (write_item n l _ (ref Null)); [|by apply (appends_str [])|lia|lia].
    cbn [pbind]. rewrite IH; [by rewrite <- app_assoc|rewrite length_app; cbn; lia|lia].
Qed.

Lemma sizes_nulls k : sizes (replicate k (ref Null)) = Z.of_nat k.
Proof. induction k as [|k IH]; [done|]. cbn [replicate]. rewrite sizes_cons, IH. change (zlen (encode (ref Null))) with 1. lia. Qed.

Lemma rep_insert d l v v' i t :
  rep d (Branch l v) -> Forall (stored d) (below t) -> rep d (Branch (<[i := t]> l) v').
Proof.
  unfold rep. cbn [nodes]. intros Hl Ht. revert i. induction l as [|c l IH]; intros i; [done|].
  cbn [List.flat_map] in Hl. apply Forall_app in Hl as [Hc Hl].
  destruct i as [|i]; cbn [insert list_insert List.flat_map]; apply Forall_app; split; auto.
Qed.

Lemma rep_nulls d v : rep d (Branch nulls v).
Proof. unfold rep. cbn. constructor. Qed.

(** [branch] of a leaf and of an extension. *)
Lemma branch_start n leaf k x d (Q : bytes -> DB -> Prop) :
  depth_ok n -> two_ok k x ->
  (forall d', keeps d d' ->
     spec (let ks := keyOf_ref (hp leaf k) in
           if zlen k =? 0 then
             do% check leaf in
             let% r := appendEmpty 16 (partial 17 []) in
             let% r := write (append_rlp (encode x) 1) r in
             finish r
           else
             let^ b := ns_at ks 0 in
             let% r := appendEmpty (Z.to_nat b) (partial 17 []) in
             let% r :=
               (if leaf || (1 <? zlen k) then
                  let^ hpe := hexPrefixEncode (ns_mid ks 1) leaf 0 (-1) in
                  let% n := rlpList2 (append hpe false) (append_rlp (encode x) 1) in
                  streamNode r n
                else write (append_rlp (encode x) 1) r) in
             let% r := appendEmpty (15 - Z.to_nat b) r in
             let% r := write (append [] false) r in
             finish r) d' Q) ->
  spec (branch (encode (two leaf k x))) d Q.
Proof.
  intros Hn Ht HQ. unfold branch. rewrite two_pairItems by done. cbn [pbind]. apply spec_bind, spec_killNode. intros d' Hk _.
  rewrite two_keyOf, two_isLeaf, two_nth1, RLPStream_list_17 by done. cbn [pbind lift].
  rewrite (two_key_size leaf k x Ht). by apply HQ.
Qed.

(** Finishing a branch whose only child, at nibble [m], is [c]. *)
Lemma branch_single n m c d :
  is_nibble m -> depth_ok n -> wf n c ->
  spec (let% r := appendEmpty (15 - Z.to_nat m) (partial 17 (replicate (Z.to_nat m) (ref Null) ++ [ref c])) in
        let% r := write (append [] false) r in
        finish r) d
    (fun b d' => b = enc (Branch (<[Z.to_nat m := c]> nulls) []) /\ d' = d).
Proof.
  intros Hm Hn Hw. unfold is_nibble in Hm. destruct (ref_of_small _ (item_small n c Hn Hw)) as [_ Hc]. fold (ref c) in Hc.
  set (l := replicate (Z.to_nat m) (ref Null) ++ [ref c]).
  assert (sizes l <= 100) by (unfold l; rewrite sizes_app, sizes_cons, sizes_nulls; change (sizes []) with 0; lia).
  assert (List.length l = S (Z.to_nat m)) as Hl by (unfold l; rewrite length_app, length_replicate; cbn; lia).
  rewrite appendEmpty_spec by lia. cbn [pbind].
  rewrite (write_item 17 _ _ (Str [])); [|by apply (appends_str [])|rewrite length_app, length_replicate; lia|].
  2:{ rewrite !sizes_app, sizes_nulls. change (sizes [Str []]) with 1. lia. }
  cbn [pbind]. rewrite finish_spec by (rewrite !length_app, length_replicate; cbn; lia). apply spec_ret. split; [|done].
  unfold enc, l. cbn [item]. change (Lst (map (fun t' => ref_of (item t')) (<[Z.to_nat m := c]> nulls) ++ [Str []]))
    with (Lst (map ref (<[Z.to_nat m := c]> nulls) ++ [Str []])). do 3 f_equal.
  rewrite list_fmap_insert. unfold nulls. rewrite fmap_replicate.
  replace 16%nat with (Z.to_nat m + S (15 - Z.to_nat m))%nat by lia. rewrite replicate_add.
  rewrite insert_app_r_alt by (rewrite length_replicate; lia). rewrite length_replicate, Nat.sub_diag. cbn [replicate].
  rewrite <- app_assoc. done.
Qed.

Lemma branch_Leaf n k v d :
  depth_ok n -> (1 <= n)%nat -> wf n (Leaf k v) ->
  spec (branch (enc (Leaf k v))) d
    (fun b d' => b = enc (branch_of (Leaf k v)) /\ rep d' (branch_of (Leaf k v))).
Proof.
  intros Hn H1 Hw. pose proof (leaf_two n k v Hn Hw) as Ht. apply (branch_start n true k (Str v)); [done|done|].
  intros d' _. cbv zeta. destruct k as [|m r].
  - change (zlen [] =? 0) with true. cbv iota. cbn [check pbind]. rewrite appendEmpty_spec by (rewrite ?sizes_nil; cbn [List.length]; lia). cbn [pbind app].
    destruct Ht as (_ & _ & _ & Hv).
    assert (sizes (replicate 16 (ref Null)) = 16) as E16 by reflexivity.
    rewrite (write_item 17 _ _ (Str v)); [|apply appends_rlp|rewrite length_replicate; lia|].
    2:{ rewrite sizes_app, sizes_cons, E16. change (sizes []) with 0. lia. }
    cbn [pbind]. rewrite finish_spec by done. apply spec_ret. split; [done|]. constructor.
  - destruct (Z.eqb_spec (zlen (m :: r)) 0) as [E|_]; [rewrite zlen_cons in E; lia|].
    destruct (two_key true _ _ Ht) as [Hk1 Hk2]. destruct (ns_mid_cons _ m r Hk1 Hk2) as (Hm1 & Hm2 & -> & Hm).
    cbn [pbind lift orb]. rewrite appendEmpty_spec by (unfold is_nibble in Hm; rewrite ?sizes_nil; cbn [List.length]; lia). cbn [pbind app].
    rewrite slice_key, Hm2 by done. cbn [pbind lift].
    assert (wf (n - 1) (Leaf r v)) as Hwr.
    { destruct Hw as (H2 & H3 & H4). inversion H2; subst. cbn [List.length] in H3. split; [done|]. split; [lia|apply H4]. }
    pose proof (leaf_two (n - 1) r v ltac:(dok) Hwr) as Htr. destruct (hp_ok true r (proj1 Hwr)).
    rewrite (rlpList2_spec _ _ (Str (hp true r)) (Str v)); [|apply appends_str; destruct Htr as (_ & ? & _); lia|apply appends_rlp|by apply two_fits].
    cbn [pbind]. apply spec_bind. unfold is_nibble in Hm.
    apply (streamNode_spec 17 _ (n - 1) (Leaf r v)); [dok|done|rewrite length_replicate; lia| |].
    { rewrite sizes_nulls. lia. }
    intros d2 _ Hst _. eapply spec_consequence; [apply (branch_single (n - 1)); [done|dok|done]|].
    intros b d3 _ [-> ->]. split; [done|]. cbn [branch_of]. apply (rep_insert _ _ []); [apply rep_nulls|].
    by rewrite app_nil_r.
Qed.

Lemma branch_Ext n k t d :
  depth_ok n -> wf n (Ext k t) -> rep d (Ext k t) ->
  spec (branch (enc (Ext k t))) d
    (fun b d' => b = enc (branch_of (Ext k t)) /\ rep d' (branch_of (Ext k t))).
Proof.
  intros Hn Hw Hr. pose proof (ext_two n k t Hn Hw) as Ht. apply (branch_start n false k (ref t)); [done|done|].
  intros d' Hk. cbv zeta. pose proof Hw as (Hk0 & Hkn & Hl & Ht0 & Hwt). destruct k as [|m r]; [done|].
  apply (keeps_Forall _ _ _ Hk) in Hr. cbn [nodes] in Hr.
  destruct (Z.eqb_spec (zlen (m :: r)) 0) as [E|_]; [rewrite zlen_cons in E; lia|].
  destruct (two_key false _ _ Ht) as [Hk1 Hk2]. destruct (ns_mid_cons _ m r Hk1 Hk2) as (Hm1 & Hm2 & -> & Hm).
  cbn [pbind lift orb].
  rewrite appendEmpty_spec by (unfold is_nibble in Hm; rewrite ?sizes_nil; cbn [List.length]; lia). cbn [pbind app].
  cbn [List.length] in *. unfold is_nibble in Hm. destruct (Z.ltb_spec 1 (Z.of_nat (S (List.length r)))) as [H1|H1].
  - rewrite (hexPrefixEncode_spec _ false 0 (-1)), Hm2; [|done|cbn; lia|by left]. change (-1 <? 0) with true. cbv iota.
    rewrite Z.sub_0_r, zdrop_0, ztake_all by lia. cbn [pbind lift].
    assert (r <> []) as Hr0 by (by intros ->).
    assert (wf (n - 1) (Ext r t)) as Hwr.
    { inversion Hkn; subst. split_and!; [done|done|lia|done|]. by replace (n - 1 - List.length r)%nat with (n - S (List.length r))%nat by lia. }
    pose proof (ext_two (n - 1) r t ltac:(dok) Hwr) as Htr. pose proof Htr as (Hrn & Hrl & _). destruct (hp_ok false r Hrn).
    rewrite (rlpList2_spec _ _ (Str (hp false r)) (ref t)); [|apply appends_str; lia|apply appends_rlp|by apply two_fits].
    cbn [pbind]. apply spec_bind.
    apply (streamNode_spec 17 _ (n - 1) (Ext r t)); [dok|done|rewrite length_replicate; lia|rewrite sizes_nulls; lia|].
    intros d2 Hk2' Hst _. eapply spec_consequence; [apply (branch_single (n - 1)); [done|dok|done]|].
    intros b d3 _ [-> ->]. cbn [branch_of]. destruct r; [done|]. split; [done|]. apply (rep_insert _ _ []); [apply rep_nulls|].
    apply Forall_app. split; [done|]. by apply (keeps_Forall _ _ _ Hk2').
  - assert (r = []) as -> by (destruct r; [done|cbn in H1; lia]). cbn [branch_of].
    destruct (ref_of_small _ (item_small (n - 1) t ltac:(dok) Hwt)) as [_ Hs]. fold (ref t) in Hs.
    rewrite (write_item 17 _ _ (ref t)); [|apply appends_rlp|rewrite length_replicate; lia|].
    2:{ rewrite sizes_app, sizes_cons, sizes_nulls, sizes_nil. lia. }
    cbn [pbind]. eapply spec_consequence; [apply (branch_single (n - 1)); [done|dok|done]|].
    intros b d3 _ [-> ->]. split; [done|]. apply (rep_insert _ _ []); [apply rep_nulls|done].
Qed.

(** [mergeAtAux] on the reference to a child [t], given what [mergeAt] does with
    its node. *)
Lemma mergeAtAux_spec rec m l n t t' key v d (Q : stream -> DB -> Prop) :
  depth_ok n -> wf n t -> wf n t' -> Forall (stored d) (below t) ->
  (forall inl, spec (rec (enc t) key v inl) d (fun b d' => b = enc t' /\ rep d' t')) ->
  (List.length l < m)%nat -> sizes l < 2 ^ 62 ->
  (forall d', keeps d d' -> Forall (stored d') (below t') -> Q (partial m (l ++ [ref t'])) d') ->
  spec (mergeAtAux rec (partial m l) (encode (ref t)) key v) d Q.
Proof.
  intros Hn Hw Hw' Hst Hrec Hl Hs HQ. unfold mergeAtAux. apply Forall_app in Hst as [Hh Hr]. apply spec_bind.
  rewrite (ref_isEmpty n t Hn Hw).
  apply (spec_consequence _ _ (fun b d' => b = enc t' /\ rep d' t')).
  - destruct (ref_cases t) as [(Hz & E & _)|(Hz & E & Eh)]; rewrite E.
    + rewrite encode_isList by by eapply small_encodable, item_small.
      replace (negb (is_lst (item t)) && negb (is_null t)) with false by (by destruct t). apply Hrec.
    + rewrite encode_isList by apply hash_encodable. cbn [is_lst negb andb].
      destruct (is_null t) eqn:En; [destruct t; try done; change (zlen (enc Null)) with 1 in Hz; lia|]. cbn [negb].
      rewrite toHash_Strict by (apply hash_encodable || apply sha3_hash). cbn [lift pbind].
      rewrite Eh in Hh. inversion Hh as [|? ? (_ & Hne & Hk) _]; subst.
      apply spec_bind, spec_node. intros _. rewrite Hk, (enc_RLP_of n) by done. cbn [pbind].
      unfold isNull. destruct (Z.eqb_spec (zlen (enc t)) 0); [lia|]. cbn [negb check pbind]. apply Hrec.
  - intros b d1 Hk [-> Hr1] _. apply (streamNode_spec m l n t'); [done|done|done|lia|].
    intros d2 Hk2 Hst. apply HQ; [by eapply keeps_trans|]. apply Forall_app. split; [done|].
    by apply (keeps_Forall _ _ _ Hk2).
Qed.

Lemma spec_maybe_kill inl x h d (Q : unit -> DB -> Prop) :
  (forall d', keeps d d' -> Q tt d') -> spec (if negb inl then killNode_hash x h else Ret tt) d Q.
Proof. intros HQ. destruct inl; cbn [negb]; [apply spec_ret, HQ, keeps_refl|by apply spec_killNode]. Qed.

(** Copying the items of a branch around the one at nibble [m]. *)
Section Around.
Context (n : nat) (l : list tree) (v : bytes) (m : Z) (t : tree)
  (Hn : depth_ok n) (Hw : wf n (Branch l v)) (Hm : is_nibble m) (Ht : l !! Z.to_nat m = Some t).
Abbreviation its := (branch_items l v).

Lemma around_split : its = take (Z.to_nat m) its ++ ref t :: drop (S (Z.to_nat m)) its.
Proof.
  rewrite <- (take_drop (Z.to_nat m) its) at 1. f_equal. apply drop_S. unfold branch_items.
  rewrite lookup_app_l by (rewrite length_map; by apply lookup_lt_Some in Ht). rewrite list_lookup_fmap, Ht. done.
Qed.

Lemma around_sizes :
  sizes (take (Z.to_nat m) its) + sizes (drop (S (Z.to_nat m)) its) < 2 ^ 39 /\
  0 <= sizes (take (Z.to_nat m) its) /\ 0 <= sizes (drop (S (Z.to_nat m)) its) /\
  List.length (take (Z.to_nat m) its) = Z.to_nat m.
Proof.
  destruct (branch_fits n l v Hn Hw) as [_ Hf]. rewrite around_split in Hf. rewrite sizes_app, sizes_cons in Hf.
  pose proof (branch_length n l v Hw). unfold is_nibble in Hm.
  split_and!; [lia|apply sizes_nonneg|apply sizes_nonneg|rewrite length_take; lia].
Qed.

Lemma copy_before :
  copyItems (range 0 (Z.to_nat m)) (enc (Branch l v)) (partial 17 []) = Ret (partial 17 (take (Z.to_nat m) its)).
Proof.
  pose proof (branch_length n l v Hw) as Hlen. pose proof around_sizes as (Hs & ? & ? & _). unfold is_nibble in Hm.
  pose proof (range_items 0 (Z.to_nat m) its ltac:(lia)) as Hr. rewrite drop_0 in Hr.
  rewrite branch_enc. apply (copyItems_spec _ its [] (take (Z.to_nat m) its) 17); [by apply (branch_fits n)| |done|cbn [app]; lia].
  unfold range. rewrite length_map, length_seq. cbn. lia.
Qed.

Lemma copy_after t' :
  wf (n - 1) t' ->
  copyItems (range (S (Z.to_nat m)) (16 - Z.to_nat m)) (enc (Branch l v))
    (partial 17 (take (Z.to_nat m) its ++ [ref t'])) =
  Ret (partial 17 (branch_items (<[Z.to_nat m := t']> l) v)).
Proof.
  intros Hwt. pose proof (branch_length n l v Hw) as Hlen. pose proof around_sizes as (Hs & ? & ? & Hlt).
  unfold is_nibble in Hm. pose proof Hw as (H1 & _).
  pose proof (range_items (S (Z.to_nat m)) (16 - Z.to_nat m) its ltac:(lia)) as Hr.
  rewrite take_ge in Hr by (rewrite length_drop; lia).
  destruct (ref_of_small _ (item_small (n - 1) t' ltac:(dok) Hwt)) as [_ Hc]. fold (ref t') in Hc.
  rewrite branch_enc, (copyItems_spec _ its _ (drop (S (Z.to_nat m)) its) 17); [|by apply (branch_fits n)| |done|].
  2:{ rewrite length_app, Hlt. unfold range. rewrite length_map, length_seq. cbn. lia. }
  2:{ rewrite !sizes_app, sizes_cons, sizes_nil. lia. }
  do 2 f_equal. rewrite <- app_assoc. cbn [app]. unfold branch_items.
  change (map ref (<[Z.to_nat m := t']> l)) with (ref <$> <[Z.to_nat m := t']> l). rewrite list_fmap_insert.
  change (ref <$> l) with (map ref l). set (rl := map ref l). assert (Z.to_nat m < List.length rl)%nat.
  { unfold rl. rewrite length_map. by apply lookup_lt_Some in Ht. }
  rewrite take_app_le, drop_app_le by lia. rewrite insert_take_drop by done. rewrite <- app_assoc. done.
Qed.

Lemma wf_insert t' : wf (n - 1) t' -> wf n (Branch (<[Z.to_nat m := t']> l) v).
Proof.
  intros Hwt. apply wf_Branch in Hw as (H1 & H2 & H3 & H4). apply wf_Branch. split_and!; try done; try apply H3.
  - by rewrite length_insert.
  - by apply Forall_insert.
Qed.

Lemma finish_branch t' :
  wf (n - 1) t' ->
  finish (partial 17 (branch_items (<[Z.to_nat m := t']> l) v)) = Ret (enc (Branch (<[Z.to_nat m := t']> l) v)).
Proof. intros Hwt. apply finish_spec. by apply (branch_length n), wf_insert. Qed.

End Around.

(** What inserting into [t] has to give. *)
Definition inserts (p : prog bytes) (t : tree) (k : list Z) (v : bytes) (d : DB) : Prop :=
  spec p d (fun b d' => b = enc (tins t k v) /\ rep d' (tins t k v)).

Definition mergeAt_ok (fuel : nat) : Prop :=
  forall n t key v h inl d,
    depth_ok n -> wf n t -> slice_ok key -> (List.length (nibs key) <= n)%nat -> val_ok v -> rep d t ->
    (need t (nibs key) <= fuel)%nat -> inserts (mergeAt_hash fuel (enc t) h key v inl) t (nibs key) v d.

(** The end of [mergeAt] for a pair that has to be split. *)
Lemma split_pair_Leaf fuel n k w key v d :
  mergeAt_ok fuel -> depth_ok n -> wf n (Leaf k w) -> slice_ok key -> (List.length (nibs key) <= n)%nat -> val_ok v ->
  k <> nibs key -> (need (Leaf k w) (nibs key) <= S fuel)%nat ->
  inserts (if negb (commonPrefix (nibs key) k =? 0) then
             let% cleved := cleve (enc (Leaf k w)) (commonPrefix (nibs key) k) in
             let% r := RLP_of cleved in
             mergeAt_hash fuel r (sha3 r) key v true
           else
             let% branched := branch (enc (Leaf k w)) in
             let% r := RLP_of branched in
             mergeAt_hash fuel r (sha3 r) key v true) (Leaf k w) (nibs key) v d.
Proof.
  intros IH Hn Hw Hs Hl Hv Hne Hf. pose proof (nibs_nibs_ok key Hs) as Hko.
  destruct (split_Leaf_forked n k w (nibs key) v ltac:(congruence) Hko Hl Hw) as (p & a & b & Ek & -> & Hab & Hd & _ & (Hfr & Hwb' & Hn1) & Hwb).
  pose proof Hw as (Hpb & Hlk & Hvw). apply nibs_ok_app in Hpb as [Hpn Hbn]. rewrite length_app in Hlk.
  assert (commonPrefix (nibs key) (p ++ b) = zlen p) as Ec by (rewrite Ek; by apply commonPrefix_app).
  rewrite Ec. unfold inserts. destruct p as [|x p].
  - change (negb (zlen [] =? 0)) with false. cbv iota. cbn [app List.length] in *. rewrite Nat.sub_0_r in *.
    apply spec_bind. eapply spec_consequence; [apply (branch_Leaf n); done|]. intros r d1 Hk [-> Hr] _.
    rewrite (enc_RLP_of n) by done. cbn [pbind]. rewrite <- tins_branch_Leaf by (rewrite ?Ek; (done || congruence)).
    apply (IH n); try done. destruct Hfr as (? & ? & E & _). rewrite E.
    unfold need in Hf |- *. rewrite Ek in Hf |- *. rewrite decide_True in Hf by by apply disjoint_shared. lia.
  - destruct (Z.eqb_spec (zlen (x :: p)) 0) as [E|_]; [rewrite zlen_cons in E; lia|]. cbn [negb].
    pose proof (leaf_two n _ _ Hn Hw) as Ht. set (px := x :: p) in *. apply spec_bind.
    assert (wf n (Ext px (Leaf b w))) as Hwx by (split_and!; [done|done|lia|done|done]).
    eapply spec_consequence; [apply (cleve_spec (n - List.length px) true px b (Str w) (Leaf b w)); try done; dok|].
    intros r d1 Hk [-> Hst] _. rewrite (enc_RLP_of n) by done. cbn [pbind].
    rewrite Ek, <- (tins_cut_Leaf px a b w v ltac:(done) Hab Hd), <- Ek. apply (IH n); try done.
    + cbn [rep nodes]. unfold rep. cbn [nodes]. by rewrite app_nil_r.
    + unfold need. rewrite decide_True by (rewrite Ek; by apply prefix_app_r).
      unfold need in Hf. rewrite decide_False in Hf; [lia|]. unfold shared. rewrite Ec. unfold px. rewrite zlen_cons. lia.
Qed.

Lemma split_pair_Ext fuel n k t key v d :
  mergeAt_ok fuel -> depth_ok n -> wf n (Ext k t) -> slice_ok key -> (List.length (nibs key) <= n)%nat -> val_ok v ->
  rep d (Ext k t) -> ~ k `prefix_of` nibs key -> (need (Ext k t) (nibs key) <= S fuel)%nat ->
  inserts (if negb (commonPrefix (nibs key) k =? 0) then
             let% cleved := cleve (enc (Ext k t)) (commonPrefix (nibs key) k) in
             let% r := RLP_of cleved in
             mergeAt_hash fuel r (sha3 r) key v true
           else
             let% branched := branch (enc (Ext k t)) in
             let% r := RLP_of branched in
             mergeAt_hash fuel r (sha3 r) key v true) (Ext k t) (nibs key) v d.
Proof.
  intros IH Hn Hw Hs Hl Hv Hrep Hne Hf. pose proof (nibs_nibs_ok key Hs) as Hko.
  destruct (split_Ext_forked n k t (nibs key) v Hne Hko Hl Hw) as (p & a & b & Ek & -> & Hb0 & Hd & _ & (Hfr & Hwb' & Hn1) & Hwb).
  pose proof Hw as (_ & Hpb & Hlk & Ht0 & Hwt). apply nibs_ok_app in Hpb as [Hpn Hbn]. rewrite length_app in Hlk.
  assert (commonPrefix (nibs key) (p ++ b) = zlen p) as Ec by (rewrite Ek; by apply commonPrefix_app).
  rewrite Ec. unfold inserts. destruct p as [|x p].
  - change (negb (zlen [] =? 0)) with false. cbv iota. cbn [app List.length] in *. rewrite Nat.sub_0_r in *.
    apply spec_bind. eapply spec_consequence; [apply (branch_Ext n); done|]. intros r d1 Hk [-> Hr] _.
    rewrite (enc_RLP_of n) by done. cbn [pbind]. rewrite <- tins_branch_Ext by (rewrite ?Ek; (done || congruence)).
    apply (IH n); try done. destruct Hfr as (? & ? & E & _). rewrite E.
    unfold need in Hf |- *. rewrite decide_False in Hf by done. rewrite Ek in Hf |- *.
    rewrite decide_True in Hf by by apply disjoint_shared. lia.
  - destruct (Z.eqb_spec (zlen (x :: p)) 0) as [E|_]; [rewrite zlen_cons in E; lia|]. cbn [negb].
    pose proof (ext_two n _ _ Hn Hw) as Ht. set (px := x :: p) in *. apply spec_bind.
    assert (wf n (Ext px (Ext b t))) as Hwx by (split_and!; [done|done|lia|done|done]).
    eapply spec_consequence; [apply (cleve_spec (n - List.length px) false px b (ref t) (Ext b t)); try done; dok|].
    intros r d1 Hk [-> Hst] _. rewrite (enc_RLP_of n) by done. cbn [pbind].
    rewrite Ek, <- (tins_cut_Ext px a b t v ltac:(done) Hb0 Hd), <- Ek. apply (IH n); try done.
    + unfold rep. cbn [nodes]. apply Forall_app. split; [done|]. by apply (keeps_Forall _ _ _ Hk).
    + unfold need. rewrite decide_True by (rewrite Ek; by apply prefix_app_r).
      unfold need in Hf. rewrite !decide_False in Hf; [lia| |done]. unfold shared. rewrite Ec. unfold px. rewrite zlen_cons. lia.
Qed.

Lemma mergeAt_Ext_inside fuel n k t key r v h inl d :
  mergeAt_ok fuel -> depth_ok n -> wf n (Ext k t) -> slice_ok key -> (List.length (nibs key) <= n)%nat -> val_ok v ->
  rep d (Ext k t) -> nibs key = k ++ r -> (need (Ext k t) (nibs key) <= S fuel)%nat ->
  inserts (do% (if negb inl then killNode_hash (enc (Ext k t)) h else Ret tt) in
           let% s := RLPStream_list 2 in
           let^ i0 := nth (enc (Ext k t)) 0 in
           let% s := write (append_rlp i0 1) s in
           let^ i1 := nth (enc (Ext k t)) 1 in
           let% s := mergeAtAux (fun o => mergeAt_hash fuel o (sha3 o)) s i1 (ns_mid key (zlen k)) v in
           finish s) (Ext k t) (nibs key) v d.
Proof.
  intros IH Hn Hw Hs Hl Hv Hr E Hf. pose proof (ext_two n k t Hn Hw) as Ht. unfold inserts.
  change (enc (Ext k t)) with (encode (two false k (ref t))). apply spec_bind, spec_maybe_kill. intros d1 Hk1 _.
  rewrite RLPStream_list_2, two_nth0, two_nth1 by done. cbn [pbind lift]. pose proof Hw as (Hk0 & Hkn & Hlk & Ht0 & Hwt).
  destruct (hp_small false k Hkn ltac:(unfold depth_ok in Hn; lia)) as [_ Hsz].
  assert (sizes [Str (hp false k)] < 2 ^ 30) by (rewrite sizes_cons, sizes_nil; lia).
  rewrite (write_item 2 [] _ (Str (hp false k))); [|apply appends_rlp|cbn; lia|cbn [app]; lia]. cbn [pbind app].
  destruct (ns_mid_prefix key k r Hs E) as [Hm1 Hm2]. rewrite E, length_app in Hl.
  assert (List.length r <= n - List.length k)%nat by lia.
  pose proof (keeps_Forall _ _ _ Hk1 Hr) as Hr1. cbn [nodes] in Hr1.
  assert (nibs_ok r) by (rewrite <- Hm2; by apply nibs_nibs_ok).
  apply spec_bind, (mergeAtAux_spec _ 2 _ (n - List.length k) t (tins t r v)); try done; try dok.
  - by apply wf_tins.
  - intros inl'. rewrite <- Hm2. apply (IH (n - List.length k)%nat); try done; [dok|by rewrite Hm2|by apply Forall_app in Hr1 as [_ ?]|].
    pose proof (need_le t (nibs (ns_mid key (zlen k)))). rewrite Hm2 in *. unfold need in Hf. rewrite E in Hf.
    rewrite decide_True in Hf by by apply prefix_app_r. rewrite length_app in Hf. destruct k; [done|]. cbn [List.length] in Hf. lia.
  - cbn. lia.
  - lia.
  - intros d2 Hk2 Hst _. rewrite finish_spec by done. apply spec_ret. rewrite E. cbn [tins].
    rewrite decide_True by by apply prefix_app_r. rewrite drop_app_length. done.
Qed.

Lemma mergeAt_spec fuel : mergeAt_ok fuel.
Proof.
  induction fuel as [|fuel IH]; intros n t key v h inl d Hn Hw Hs Hl Hv Hr Hf.
  { unfold need in Hf. destruct t; repeat case_decide; lia. }
  cbn [mergeAt_hash]. rewrite (enc_isEmpty n t Hn Hw). pose proof (nibs_nibs_ok key Hs) as Hko.
  destruct t as [|k w|k t|l w]; cbn [is_null].
  - eapply spec_consequence; [apply (place_Null n); [done|done|done]|]. intros b d' _ ->. split; [done|constructor].
  - pose proof (leaf_two n k w Hn Hw) as Ht. change (enc (Leaf k w)) with (encode (two true k (Str w))).
    destruct (two_key true k _ Ht) as [Hk1 Hk2].
    rewrite two_nodeItems, two_keyOf, two_isLeaf by done. cbn [pbind lift]. change (2 =? 2) with true. cbv iota.
    rewrite ns_eq_spec, ns_contains_spec, ns_shared_spec, Hk2 by done. cbn [pbind lift negb]. rewrite andb_true_r, andb_false_r.
    destruct (decide (k = nibs key)) as [E|E].
    + rewrite bool_decide_true by done. eapply spec_consequence; [by apply (place_Leaf n)|].
      intros b d' _ ->. subst k. cbn [tins]. rewrite decide_True by done. split; [done|constructor].
    + rewrite bool_decide_false by done. by apply (split_pair_Leaf fuel n).
  - pose proof (ext_two n k t Hn Hw) as Ht. destruct (two_key false k _ Ht) as [Hk1 Hk2].
    change (enc (Ext k t)) with (encode (two false k (ref t))).
    rewrite two_nodeItems, two_keyOf, two_isLeaf by done. cbn [pbind lift]. change (2 =? 2) with true. cbv iota.
    rewrite ns_eq_spec, ns_contains_spec, ns_shared_spec, (two_key_size false k _ Ht), Hk2 by done.
    cbn [pbind lift negb]. rewrite andb_true_r, andb_false_r.
    destruct (decide (k `prefix_of` nibs key)) as [[r E]|E].
    + rewrite bool_decide_true by by exists r. by apply (mergeAt_Ext_inside fuel n k t key r).
    + rewrite bool_decide_false by done. by apply (split_pair_Ext fuel n).
  - rewrite (branch_nodeItems n) by done. cbn [pbind]. change (17 =? 2) with false. cbv iota. rewrite ns_size_0 by done.
    destruct (nibs key) as [|m r] eqn:E.
    + rewrite bool_decide_true by done. eapply spec_consequence; [by apply (place_Branch n)|].
      intros b d' Hk ->. split; [done|]. by apply (keeps_Forall _ _ _ Hk) in Hr.
    + rewrite bool_decide_false by done. destruct (ns_mid_cons key m r Hs E) as (Hm1 & Hm2 & -> & Hm).
      apply spec_bind, spec_maybe_kill. intros d1 Hk1 _. rewrite RLPStream_list_17. cbn [pbind lift].
      destruct (branch_child n l w Hw m Hm) as (t & Et & Hwt). rewrite (branch_nth n l w Hn Hw m t Hm Et). cbn [pbind lift].
      inversion Hko as [|? ? _ Hro]; subst. cbn [List.length] in Hl. pose proof (keeps_Forall _ _ _ Hk1 Hr) as Hr1.
      pose proof (rep_child _ _ _ _ _ Hr1 Et) as Hbt.
      assert (wf (n - 1) (tins t (nibs (ns_mid key 1)) v)) as Hwt' by (apply wf_tins; (done || lia)).
      cbn [tins]. rewrite list_lookup_fmap, Et. cbn [fmap option_fmap option_map].
      destruct (around_sizes n l w m t Hn Hw Hm Et) as (Hz & ? & ? & Hlt). rewrite (copy_before n l w m t) by done. cbn [pbind].
      unfold is_nibble in Hm.
      apply spec_bind, (mergeAtAux_spec _ 17 _ (n - 1) t (tins t (nibs (ns_mid key 1)) v)); try done; try dok.
      * intros inl'. apply (IH (n - 1)%nat); try done; [dok|lia|by apply Forall_app in Hbt as [_ ?]|].
        pose proof (need_le t (nibs (ns_mid key 1))). unfold need in Hf. cbn [List.length] in Hf. lia.
      * lia.
      * lia.
      * intros d2 Hk2 Hst _. rewrite (copy_after n l w m t) by done. cbn [pbind].
        rewrite (finish_branch n l w m Hw) by done. apply spec_ret. split; [done|]. apply (rep_insert _ _ w); [|done].
        by apply (keeps_Forall _ _ _ Hk2).
Qed.

(** ** Removing *)

Lemma pair_two n t :
  depth_ok n -> wf n t -> is_pair t = true ->
  exists leaf k x, enc t = encode (two leaf k x) /\ two_ok k x /\ (List.length k <= n)%nat /\
    forall p, enc (graft_t p t) = encode (two leaf (p ++ k) x).
Proof.
  intros Hn Hw Hp. destruct t as [|k v|k t|l v]; try done.
  - exists true, k, (Str v). pose proof Hw as (_ & ? & _). split_and!; try done. by eapply leaf_two.
  - exists false, k, (ref t). pose proof Hw as (_ & _ & ? & _). split_and!; try done. by eapply ext_two.
Qed.

Lemma count_two n t : depth_ok n -> wf n t -> t <> Null -> exists c, itemCount (enc t) = Ok c /\ (c =? 2) = is_pair t.
Proof.
  intros Hn Hw Ht. destruct t as [|k v|k t|l v]; [done| | |].
  - exists 2. split; [|done]. apply (two_count true k (Str v)). by eapply leaf_two.
  - exists 2. split; [|done]. apply (two_count false k (ref t)). by eapply ext_two.
  - exists 17. split; [|done]. by apply (branch_count n).
Qed.

Lemma isTwoItemNode_spec n t d (Q : bool -> DB -> Prop) :
  depth_ok n -> wf n t -> t <> Null -> Forall (stored d) (hnode t) -> Q (is_pair t) d ->
  spec (isTwoItemNode (encode (ref t))) d Q.
Proof.
  intros Hn Hw Ht Hs HQ. unfold isTwoItemNode. destruct (count_two n t Hn Hw Ht) as (c & Hc & Hp).
  destruct (ref_cases t) as [(Hl & E & _)|(Hl & E & Eh)]; rewrite E.
  - pose proof (small_encodable _ (item_small n t Hn Hw)) as He.
    rewrite encode_isData, encode_isList, item_is_lst by done. cbn [negb pbind]. fold (enc t). rewrite Hc. cbn [lift pbind].
    rewrite Hp. by apply spec_ret.
  - rewrite encode_isData, encode_isList by apply hash_encodable. cbn [is_lst negb].
    rewrite toHash_Strict by (apply hash_encodable || apply sha3_hash). cbn [lift pbind].
    rewrite Eh in Hs. inversion Hs as [|? ? (_ & _ & Hk) _]; subst.
    apply spec_bind, spec_bind, spec_node. intros _. rewrite Hk, (enc_RLP_of n) by done. cbn [pbind]. rewrite Hc. cbn [lift pbind].
    rewrite Hp. apply spec_ret. intros _. by destruct (is_pair t); apply spec_ret.
Qed.

Lemma graft_spec n p t d :
  depth_ok n -> nibs_ok p -> (List.length p <= n)%nat -> wf (n - List.length p) t -> is_pair t = true ->
  Forall (stored d) (below t) ->
  spec (graft (encode (two false p (ref t)))) d (fun b d' => b = enc (graft_t p t) /\ rep d' (graft_t p t)).
Proof.
  intros Hn Hp Hl Hw Hpair Hst. apply Forall_app in Hst as [Hh Hr].
  assert (depth_ok (n - List.length p)) as Hn' by dok.
  destruct (pair_two _ t Hn' Hw Hpair) as (leaf & k & x & Et & Ht & Hlk & Eg).
  assert (two_ok p (ref t)) as Htp.
  { destruct (ref_of_small _ (item_small _ t Hn' Hw)) as [[H1 _] H2]. fold (ref t) in H1, H2. unfold depth_ok in Hn.
    split_and!; (done || lia). }
  assert (two_ok (p ++ k) x) as Htk.
  { destruct Ht as (Hk & Hkl & Hx). split_and!; [by apply nibs_ok_app| |apply Hx|apply Hx]. rewrite zlen_app.
    unfold depth_ok in Hn. lia. }
  unfold graft. rewrite two_pairItems, two_nth1, two_keyOf by done. cbn [pbind lift].
  apply spec_bind. apply (spec_consequence _ _ (fun b d' => b = enc t)).
  - destruct (ref_cases t) as [(Hz & E & _)|(Hz & E & Eh)]; rewrite E.
    + rewrite encode_isList by by eapply small_encodable, item_small. rewrite item_is_lst by by destruct t.
      by apply spec_ret.
    + rewrite encode_isList by apply hash_encodable. cbn [is_lst].
      rewrite toHash_Strict by (apply hash_encodable || apply sha3_hash). cbn [lift pbind].
      rewrite Eh in Hh. inversion Hh as [|? ? (_ & _ & Hk) _]; subst.
      apply spec_bind, spec_node. intros _. apply spec_bind, spec_kill. intros d1 _ _.
      rewrite Hk, (enc_RLP_of (n - List.length p)) by done. by apply spec_ret.
  - intros b d1 Hk1 -> _. rewrite Et. rewrite two_count, two_keyOf, two_isLeaf, two_nth1 by done. cbn [lift pbind check].
    destruct (two_key false p _ Htp) as [Hp1 Hp2]. destruct (two_key leaf k _ Ht) as [Hq1 Hq2].
    rewrite hexPrefixEncode_slices_spec, Hp2, Hq2 by done. cbn [lift pbind].
    destruct (hp_ok leaf (p ++ k) (proj1 Htk)). destruct Htk as (? & ? & ? & ?).
    rewrite (rlpList2_spec _ _ (Str (hp leaf (p ++ k))) x); [|apply appends_str; lia|apply appends_rlp|by apply two_fits].
    apply spec_ret. split; [by rewrite Eg|]. apply (keeps_Forall _ _ _ Hk1). by destruct t.
Qed.

(** [uniqueInUse] over the children of a branch without a value. *)
Definition only (u : Z) (l : list Z) : Z :=
  match l with
  | [] => u
  | [i] => if u =? 255 then i else 255
  | _ => 255
  end.

Lemma uniqueInUse_loop_spec n l a m u :
  depth_ok n -> wf n (Branch l []) -> (a + m = 16)%nat ->
  uniqueInUse_loop (range a (S m)) (enc (Branch l [])) 255 u = Ok (only u (in_use (Z.of_nat a) (drop a l))).
Proof.
  intros Hn Hw. pose proof Hw as (H1 & H16 & _ & _). revert a u. induction m as [|m IH]; intros a u Ha.
  - assert (a = 16%nat) as -> by lia. rewrite drop_ge by lia. unfold range. cbn [seq map uniqueInUse_loop in_use only].
    change (Z.of_nat 16) with 16. change (negb (16 =? 255)) with true. cbv iota.
    rewrite (branch_nth16 n) by done. cbn [result_bind]. rewrite isEmpty_Str; [done|]. apply small_encodable, small_Str; [constructor|done].
  - assert (is_nibble (Z.of_nat a)) as Hna by (unfold is_nibble; lia).
    destruct (branch_child n l [] Hw (Z.of_nat a) Hna) as (t & Ht & Hwt). pose proof Ht as Ht'. rewrite Nat2Z.id in Ht'.
    change (range a (S (S m))) with (Z.of_nat a :: range (S a) (S m)). cbn [uniqueInUse_loop].
    unfold is_nibble in Hna. destruct (Z.eqb_spec (Z.of_nat a) 255); [lia|]. cbn [negb].
    rewrite (branch_nth n l [] Hn Hw (Z.of_nat a) t Hna Ht). cbn [result_bind].
    rewrite (ref_isEmpty (n - 1)) by (done || dok). rewrite (drop_S _ _ _ Ht'). cbn [in_use].
    replace (Z.of_nat a + 1) with (Z.of_nat (S a)) by lia.
    destruct (is_null t); cbn [negb]; [by apply IH; lia|].
    destruct (Z.eqb_spec u 255) as [->|Hu].
    + rewrite IH by lia. f_equal. unfold only. destruct (in_use (Z.of_nat (S a)) (drop (S a) l)) as [|j [|j' r]]; [done| |done].
      destruct (Z.eqb_spec (Z.of_nat a) 255); [lia|done].
    + f_equal. unfold only. destruct (in_use (Z.of_nat (S a)) (drop (S a) l)); [|done]. by destruct (Z.eqb_spec u 255).
Qed.

Lemma uniqueInUse_spec n l :
  depth_ok n -> wf n (Branch l []) -> uniqueInUse (enc (Branch l [])) 255 = Ok (only 255 (in_use 0 l)).
Proof. intros Hn Hw. by apply (uniqueInUse_loop_spec n l 0 16 255). Qed.

Lemma merge_spec n l v i t d (Q : bytes -> DB -> Prop) :
  depth_ok n -> wf n (Branch l v) -> is_nibble i -> l !! Z.to_nat i = Some t -> t <> Null ->
  Q (encode (two false [i] (ref t))) d -> spec (merge (enc (Branch l v)) i) d Q.
Proof.
  intros Hn Hw Hi Ht Hnn HQ. unfold merge. rewrite (branch_count n), (branch_isList n), RLPStream_list_2 by done.
  cbn [lift pbind andb check]. change (17 =? 17) with true. cbn [check pbind]. pose proof Hi as Hi'. unfold is_nibble in Hi'.
  rewrite (branch_nth n l v Hn Hw i t Hi Ht). cbn [lift pbind]. destruct (Z.eqb_spec i 16); [lia|]. cbn [negb].
  destruct (branch_child n l v Hw i Hi) as (t' & Ht' & Hwt). rewrite Ht in Ht'. injection Ht' as <-.
  pose proof Hw as (H1 & _). rewrite (ref_isEmpty (n - 1)) by (done || dok).
  assert (is_null t = false) as -> by by destruct t. cbn [negb check pbind].
  assert (nibs_ok [i]) as Hik by (constructor; [done|constructor]).
  assert (hexPrefixEncode_ref [i] false 1 2 0 = Ok (hp false [i])) as ->.
  { assert (bytes_ok [i]) by (constructor; [unfold is_byte; lia|constructor]).
    destruct (slice_0 [i] ltac:(done) ltac:(done)) as [Hs Hs'].
    pose proof (hexPrefixEncode_spec (slice [i] 0) false 1 2 Hs) as Hx. rewrite Hs' in Hx.
    specialize (Hx ltac:(cbn; lia) ltac:(right; cbn; lia)). unfold hexPrefixEncode in Hx. cbn [slice ns_data ns_offset] in Hx.
    rewrite Hx. change (ztake _ _) with [i mod 16]. by rewrite Z.mod_small by lia. }
  cbn [lift pbind]. destruct (hp_ok false [i] Hik) as [_ Hh1]. change (zlen [i]) with 1 in Hh1. destruct (hp_small false [i] Hik ltac:(done)) as [_ Hsz].
  assert (sizes [Str (hp false [i])] < 2 ^ 30) by (rewrite sizes_cons, sizes_nil; lia).
  rewrite (write_item 2 [] _ (Str (hp false [i]))); [|apply appends_str; lia|cbn; lia|cbn [app]; lia]. cbn [pbind app].
  destruct (ref_of_small _ (item_small (n - 1) t ltac:(dok) Hwt)) as [_ Hc]. fold (ref t) in Hc.
  rewrite (write_item 2 [_] _ (ref t)); [|apply appends_rlp|cbn; lia|cbn [app]; rewrite sizes_cons, sizes_cons, sizes_nil in *; lia].
  cbn [pbind app]. rewrite finish_spec by done. by apply spec_ret.
Qed.

(** A branch whose only child is at [i]. *)
Lemma contract_spec n l i d :
  depth_ok n -> wf n (Branch l []) -> in_use 0 l = [i] -> rep d (Branch l []) ->
  spec (contract (enc (Branch l [])) i) d (fun b d' => b = enc (contract_t l) /\ rep d' (contract_t l)).
Proof.
  intros Hn Hw Hu Hr. destruct (in_use_lookup l i ltac:(rewrite Hu; by left)) as (t & Ht & Hnn & Hi).
  pose proof Hw as (H1 & H16 & _ & _). assert (is_nibble i) as Hin by (unfold is_nibble; lia).
  destruct (branch_child n l [] Hw i Hin) as (t' & Ht' & Hwt). rewrite Ht in Ht'. injection Ht' as <-.
  pose proof (rep_child _ _ _ _ _ Hr Ht) as Hb. pose proof Hb as [Hh Hrt]%Forall_app.
  unfold contract. rewrite (branch_nth n l [] Hn Hw i t Hin Ht). cbn [lift pbind].
  apply spec_bind, (isTwoItemNode_spec (n - 1)); [dok|done|done|done|]. intros _.
  apply spec_bind, (merge_spec n l [] i t); [done..|]. intros _.
  assert (contract_t l = graft_t [i] t) as -> by (unfold contract_t; by rewrite Hu, Ht).
  assert (nibs_ok [i]) as Hik by (constructor; [done|constructor]).
  assert (two_ok [i] (ref t)) as Htwo.
  { destruct (ref_of_small _ (item_small (n - 1) t ltac:(dok) Hwt)) as [[H3 _] H4]. fold (ref t) in H3, H4.
    split_and!; (done || lia). }
  destruct (is_pair t) eqn:Ep.
  - rewrite two_RLP_of by done. cbn [pbind]. by apply (graft_spec n).
  - destruct t; try done. apply spec_ret. split; [done|]. done.
Qed.

(** What removing has to give: no bytes when there is nothing to remove. *)
Definition removes (p : prog bytes) (ot : option tree) (d : DB) : Prop :=
  spec p d (fun b d' => match ot with None => b = [] | Some t' => b = enc t' /\ rep d' t' end).

Lemma deleteAtAux_spec rec m l n t ot key d (Q : option stream -> DB -> Prop) :
  depth_ok n -> wf n t -> Forall (stored d) (below t) ->
  (t = Null -> ot = None) -> (t <> Null -> removes (rec (enc t) key) ot d) ->
  match ot with None => True | Some t' => wf n t' end ->
  (List.length l < m)%nat -> sizes l < 2 ^ 62 ->
  (forall d', keeps d d' ->
     match ot with
     | None => Q None d'
     | Some t' => Forall (stored d') (below t') -> Q (Some (partial m (l ++ [ref t']))) d'
     end) ->
  spec (deleteAtAux rec (partial m l) (encode (ref t)) key) d Q.
Proof.
  intros Hn Hw Hst HN Hrec Hw' Hl Hs HQ. unfold deleteAtAux. pose proof Hst as [Hh Hr]%Forall_app.
  rewrite (ref_isEmpty n t Hn Hw). apply spec_bind. destruct (is_null t) eqn:En.
  - apply spec_ret. intros Hk. rewrite HN in * by by destruct t. by apply spec_ret, HQ.
  - assert (t <> Null) as Hnn by by intros ->. apply spec_bind, (child_spec n); [done..|]. intros _.
    eapply spec_consequence; [by apply Hrec|]. intros b d1 Hk Hb _. destruct ot as [t'|].
    + destruct Hb as [-> Hr1]. pose proof (item_nonempty n t' Hn Hw') as Hne. destruct (enc t') as [|x e] eqn:Ee; [done|].
      rewrite <- Ee. apply spec_bind, (streamNode_spec m l n t'); [done|done|done|lia|].
      intros d2 Hk2 Hst2 _. apply spec_ret. apply HQ; [by eapply keeps_trans|]. apply Forall_app. split; [done|].
      by apply (keeps_Forall _ _ _ Hk2).
    + subst b. by apply spec_ret, HQ.
Qed.

Definition deleteAt_ok (fuel : nat) : Prop :=
  forall n t key d,
    depth_ok n -> wf n t -> canon t -> uniform n t -> slice_ok key -> List.length (nibs key) = n -> rep d t ->
    (n < fuel)%nat -> removes (deleteAt fuel (enc t) key) (tdel t (nibs key)) d.

(** Below an extension. *)
Lemma delete_Ext fuel n k t key r d :
  deleteAt_ok fuel -> depth_ok n -> wf n (Ext k t) -> canon (Ext k t) -> uniform n (Ext k t) ->
  slice_ok key -> List.length (nibs key) = n -> rep d (Ext k t) -> (n < S fuel)%nat -> nibs key = k ++ r ->
  removes
    (let% s := RLPStream_list 2 in
     let^ i0 := nth (enc (Ext k t)) 0 in
     let% s := write (append_rlp i0 1) s in
     let^ i1 := nth (enc (Ext k t)) 1 in
     let% s := deleteAtAux (deleteAt fuel) s i1 (ns_mid key (zlen k)) in
     match s with
     | None => Ret []
     | Some s =>
         do% killNode (enc (Ext k t)) in
         let% o := finish s in
         let% r := RLP_of o in
         let^ r1 := nth r 1 in
         let% two := isTwoItemNode r1 in
         if two then graft r else Ret o
     end) (graft_t k <$> tdel t r) d.
Proof.
  intros IH Hn Hw Hc Hu Hs Hl Hr Hf E. pose proof (ext_two n k t Hn Hw) as Ht.
  change (enc (Ext k t)) with (encode (two false k (ref t))). rewrite RLPStream_list_2, two_nth0, two_nth1 by done.
  pose proof Hw as (Hk0 & Hkn & Hlk & Ht0 & Hwt). pose proof Hu as [_ Hut]. pose proof Hc as [Hbr Hct].
  destruct (hp_small false k Hkn ltac:(unfold depth_ok in Hn; lia)) as [_ Hsz].
  assert (sizes [Str (hp false k)] < 2 ^ 30) by (rewrite sizes_cons, sizes_nil; lia). cbn [pbind lift].
  rewrite (write_item 2 [] _ (Str (hp false k))); [|apply appends_rlp|cbn; lia|cbn [app]; lia]. cbn [pbind app].
  destruct (ns_mid_prefix key k r Hs E) as [Hm1 Hm2]. rewrite E, length_app in Hl.
  assert (nibs_ok r) as Hrn by (rewrite <- Hm2; by apply nibs_nibs_ok).
  pose proof (tdel_spec (n - List.length k) t r Hwt Hct Hut Hrn ltac:(lia)) as Hdel.
  apply spec_bind, (deleteAtAux_spec _ 2 _ (n - List.length k) t (tdel t r)); try done; try dok.
  - intros _. rewrite <- Hm2. apply (IH (n - List.length k)%nat); try done; [dok|rewrite Hm2; lia|by apply Forall_app in Hr as [_ ?]|].
    destruct k; [done|]. cbn in *. lia.
  - destruct (tdel t r); [|done]. apply Hdel.
  - cbn. lia.
  - lia.
  - intros d1 Hk1. destruct (tdel t r) as [t'|]; cbn [fmap option_fmap option_map]; [|intros _; by apply spec_ret].
    intros Hst _. destruct Hdel as (_ & _ & Hwt' & Hct' & Hut' & Hnn).
    assert (t' <> Null) as Ht' by (apply Hnn; destruct t; try done; eauto).
    apply spec_bind, spec_killNode. intros d2 Hk2 _. rewrite finish_spec by done. cbn [pbind].
    assert (two_ok k (ref t')) as Htwo.
    { destruct (ref_of_small _ (item_small (n - List.length k) t' ltac:(dok) Hwt')) as [[H3 _] H4]. fold (ref t') in H3, H4.
      destruct Ht as (? & ? & _). split_and!; (done || lia). }
    cbn [app]. change (Lst [Str (hp false k); ref t']) with (two false k (ref t')).
    rewrite two_RLP_of by done. cbn [pbind]. rewrite two_nth1 by done. cbn [pbind lift].
    apply (keeps_Forall _ _ _ Hk2) in Hst. pose proof Hst as [Hh Hr2]%Forall_app.
    apply spec_bind, (isTwoItemNode_spec (n - List.length k)); [dok|done|done|done|]. intros _.
    destruct (is_pair t') eqn:Ep; [by apply (graft_spec n)|].
    destruct t'; try done. apply spec_ret. split; [done|]. done.
Qed.

(** Below a branch. *)
Lemma delete_Branch fuel n l m r key d :
  deleteAt_ok fuel -> depth_ok n -> wf n (Branch l []) -> canon (Branch l []) -> uniform n (Branch l []) ->
  slice_ok key -> List.length (nibs key) = n -> rep d (Branch l []) -> (n < S fuel)%nat -> nibs key = m :: r ->
  removes
    (let% r := RLPStream_list 17 in
     let^ n := ns_at key 0 in
     let% r := copyItems (range 0 (Z.to_nat n)) (enc (Branch l [])) r in
     let^ i := nth (enc (Branch l [])) n in
     let% r := deleteAtAux (deleteAt fuel) r i (ns_mid key 1) in
     match r with
     | None => Ret []
     | Some r =>
         let% r := copyItems (range (S (Z.to_nat n)) (16 - Z.to_nat n)) (enc (Branch l [])) r in
         do% killNode (enc (Branch l [])) in
         let% o := finish r in
         let% rlp := RLP_of o in
         let^ used := uniqueInUse rlp 255 in
         if used =? 255 then Ret o else contract rlp used
     end) (tdel (Branch l []) (m :: r)) d.
Proof.
  intros IH Hn Hw Hc Hu Hs Hl Hr Hf E. destruct (ns_mid_cons key m r Hs E) as (Hm1 & Hm2 & -> & Hm).
  destruct (branch_child n l [] Hw m Hm) as (t & Et & Hwt). rewrite E in Hl. cbn [List.length] in Hl.
  destruct (around_sizes n l [] m t Hn Hw Hm Et) as (Hz & ? & ? & Hlt).
  rewrite RLPStream_list_17. cbn [pbind lift]. rewrite (copy_before n l [] m t) by done. cbn [pbind].
  rewrite (branch_nth n l [] Hn Hw m t Hm Et). cbn [pbind lift].
  pose proof (proj1 (canon_Branch l []) Hc) as [Hused Hcl]. pose proof (proj1 (uniform_Branch n l []) Hu) as (_ & Hn1 & Hul).
  pose proof (Forall_lookup_1 _ _ _ _ Hcl Et) as Hct. pose proof (Forall_lookup_1 _ _ _ _ Hul Et) as Hut. cbn beta in Hct, Hut.
  assert (nibs_ok r) as Hrn by (rewrite <- Hm2; by apply nibs_nibs_ok).
  pose proof (tdel_spec (n - 1) t r Hwt Hct Hut Hrn ltac:(lia)) as Hdel.
  pose proof (rep_child _ _ _ _ _ Hr Et) as Hbt. cbn [tdel]. rewrite list_lookup_fmap, Et. cbn [fmap option_fmap option_map].
  pose proof Hm as Hm'. unfold is_nibble in Hm'.
  apply spec_bind, (deleteAtAux_spec _ 17 _ (n - 1) t (tdel t r)); try done; try dok.
  - by intros ->.
  - intros _. rewrite <- Hm2. apply (IH (n - 1)%nat); try done; [dok|rewrite Hm2; lia|by apply Forall_app in Hbt as [_ ?]|lia].
  - destruct (tdel t r); [|done]. apply Hdel.
  - lia.
  - lia.
  - intros d1 Hk1. destruct (tdel t r) as [t'|]; [|intros _; by apply spec_ret].
    intros Hst _. destruct Hdel as (_ & _ & Hwt' & Hct' & Hut' & _).
    rewrite (copy_after n l [] m t) by done. cbn [pbind]. apply spec_bind, spec_killNode. intros d2 Hk2 _.
    rewrite (finish_branch n l [] m Hw) by done. cbn [pbind]. set (l' := <[Z.to_nat m := t']> l).
    assert (wf n (Branch l' [])) as Hwl by (by apply (wf_insert n l [] m)).
    assert (rep d2 (Branch l' [])) as Hrl.
    { apply (rep_insert _ _ []); [|by apply (keeps_Forall _ _ _ Hk2)].
      by apply (keeps_Forall _ _ _ Hk2), (keeps_Forall _ _ _ Hk1). }
    rewrite (enc_RLP_of n) by done. cbn [pbind]. rewrite (uniqueInUse_spec n) by done. cbn [pbind lift].
    unfold only. destruct (in_use 0 l') as [|i [|j u]] eqn:Eu.
    + exfalso. pose proof (in_use_insert 0 l _ _ t' Et) as Hi. fold l' in Hi. rewrite Eu in Hi. unfold used in Hused.
      assert (nn t <= 1)%nat by (unfold nn; destruct (is_null t); lia). cbn in Hi. lia.
    + change (255 =? 255) with true. cbv iota. destruct (in_use_lookup l' i ltac:(rewrite Eu; by left)) as (_ & _ & _ & Hi).
      destruct (Z.eqb_spec i 255); [unfold l' in Hi; rewrite length_insert in Hi; pose proof Hw as (_ & H16 & _); lia|].
      by apply (contract_spec n).
    + change (255 =? 255) with true. cbv iota. apply spec_ret.
      assert (contract_t l' = Branch l' []) as -> by (unfold contract_t; by rewrite Eu). done.
Qed.

Lemma deleteAt_spec fuel : deleteAt_ok fuel.
Proof.
  induction fuel as [|fuel IH]; intros n t key d Hn Hw Hc Hu Hs Hl Hr Hf; [lia|].
  cbn [deleteAt]. rewrite (enc_isEmpty n t Hn Hw). pose proof (nibs_nibs_ok key Hs) as Hko.
  destruct t as [|k w|k t|l w]; cbn [is_null].
  - by apply spec_ret.
  - pose proof (leaf_two n k w Hn Hw) as Ht. change (enc (Leaf k w)) with (encode (two true k (Str w))).
    destruct (two_key true k _ Ht) as [Hk1 Hk2].
    rewrite two_nodeItems, two_keyOf, two_isLeaf by done. cbn [pbind lift]. change (2 =? 2) with true. cbv iota.
    rewrite ns_eq_spec, ns_contains_spec, Hk2 by done. cbn [pbind lift tdel]. rewrite andb_true_r.
    destruct (decide (nibs key = k)) as [E|E].
    + rewrite bool_decide_true by done. apply spec_bind, spec_killNode. intros d' _ _. apply spec_ret. split; [done|constructor].
    + rewrite bool_decide_false by congruence. cbn [uniform] in Hu.
      rewrite bool_decide_false; [by apply spec_ret|]. intros Hp. apply E. symmetry. apply prefix_length_eq; [done|lia].
  - pose proof (ext_two n k t Hn Hw) as Ht. destruct (two_key false k _ Ht) as [Hk1 Hk2].
    change (enc (Ext k t)) with (encode (two false k (ref t))).
    rewrite two_nodeItems, two_keyOf, two_isLeaf by done. cbn [pbind lift]. change (2 =? 2) with true. cbv iota.
    rewrite ns_eq_spec, ns_contains_spec, (two_key_size false k _ Ht), Hk2 by done.
    cbn [pbind lift tdel]. rewrite andb_false_r. destruct (decide (k `prefix_of` nibs key)) as [[r E]|E].
    + rewrite bool_decide_true by by exists r.
      replace (drop (List.length k) (nibs key)) with r by (rewrite E; by rewrite drop_app_length).
      by apply (delete_Ext fuel n k t key r).
    + rewrite bool_decide_false by done. by apply spec_ret.
  - pose proof (proj1 (uniform_Branch n l w) Hu) as (-> & Hn1 & _).
    rewrite (branch_nodeItems n), (branch_nth16 n) by done. cbn [pbind lift]. change (17 =? 2) with false. cbv iota.
    rewrite ns_size_0 by done. destruct (nibs key) as [|m r] eqn:E; [cbn in Hl; lia|].
    rewrite bool_decide_false by done. cbn [andb]. rewrite <- E in Hl. by apply (delete_Branch fuel n l m r).
Qed.

End Refine.

End TrieRefine.
