(* ===== verification/TrieHash.v ===== *)
(** * TrieHash: the root of a map, computed directly (libdevcore/TrieHash.cpp)

    [hash256] builds the nodes of the canonical trie of a map from its sorted
    entries, without a store. It serves as the reference for [TrieDB]: the
    lemmas show that it computes the encoding of any canonical tree from the
    tree's entries. A [std::map] is the list of its entries in the order of their
    keys. *)

From stdpp Require Import base list numbers option sorting.
From Stdlib Require Import ZArith Lia.
From S2P Require Import Prelude.
From S2P Require Import Bytes.
From S2P Require Import Rlp.
From S2P Require Import RlpStream.
From S2P Require Import Keccak.
From S2P Require Import TrieCommon.
From S2P Require Import TrieDB.
From S2P Require Import TrieSpec.
From S2P Require Import TrieRefine.
Import VectorRef CommonData RLP RLPStream Keccak TrieCommon TrieDB TrieSpec TrieRefine.

Module TrieHash.

#[local] Opaque sha3.

(** ** [std::map<bytes, bytes>] *)

Abbreviation BytesMap := (list (bytes * bytes)).

(** [operator<] on vectors. *)
Fixpoint blt (a b : bytes) : bool :=
  match a, b with
  | _, [] => false
  | [], _ :: _ => true
  | x :: a', y :: b' => if x <? y then true else if y <? x then false else blt a' b'
  end.

(** [m[k] = v], [erase(k)] and [find(k)]. *)
Fixpoint bm_insert (k v : bytes) (m : BytesMap) : BytesMap :=
  match m with
  | [] => [(k, v)]
  | (k', v') :: m' =>
      if blt k k' then (k, v) :: m
      else if blt k' k then (k', v') :: bm_insert k v m'
      else (k, v) :: m'
  end.
Definition bm_erase (k : bytes) (m : BytesMap) : BytesMap := List.filter (fun e => negb (bool_decide (fst e = k))) m.
Fixpoint bm_find (k : bytes) (m : BytesMap) : option bytes :=
  match m with
  | [] => None
  | (k', v) :: m' => if decide (k' = k) then Some v else bm_find k m'
  end.

(** ** The code *)

Definition rl {A} (m : result exn A) : result trie_exn A :=
  match m with Ok a => Ok a | Err e => Err (TrieDB.Rlp e) end.
Definition stream_op (op : Str_M unit) (s : stream) : result trie_exn stream :=
  match op s with (Ok _, s') => Ok s' | (Err e, _) => Err (Stream e) end.
Definition stream_out (s : stream) : result trie_exn bytes :=
  match out s with Ok b => Ok b | Err e => Err (Stream e) end.

(** [for (; shared < x && _begin->first[shared] == i->first[shared]; ++shared)]. *)
Fixpoint shared_loop (fuel : nat) (first other : bytes) (shared x : Z) : result exn Z :=
  if shared <? x then
    match fuel with
    | O => Err NoFuel
    | S f =>
        let! a := ref_at first shared in
        let! b := ref_at other shared in
        if a =? b then shared_loop f first other (shared + 1) x else Ok shared
    end
  else Ok shared.

(** The nibbles shared by the first key and all others. *)
Fixpoint sharedPre_loop (first : bytes) (others : list bytes) (_preLen sharedPre : Z) : result exn Z :=
  match others with
  | [] => Ok sharedPre
  | other :: others' =>
      if sharedPre =? 0 then Ok sharedPre else
      let x := Z.min sharedPre (Z.min (zlen first) (zlen other)) in
      let! shared := shared_loop (List.length first) first other _preLen x in
      sharedPre_loop first others' _preLen (Z.min shared sharedPre)
  end.

(** [for (; n != _end && n->first[_preLen] == i; ++n)]: the entries passed, and
    the rest. *)
Fixpoint group (i _preLen : Z) (b : BytesMap) : result exn (BytesMap * BytesMap) :=
  match b with
  | [] => Ok ([], [])
  | (k, v) :: b' =>
      let! n := ref_at k _preLen in
      if n =? i then let! r := group i _preLen b' in Ok ((k, v) :: fst r, snd r)
      else Ok ([], b)
  end.

(** [hash256aux], given [hash256rlp]. *)
Definition hash256aux (hash256rlp : BytesMap -> Z -> stream -> result trie_exn stream)
    (l : BytesMap) (_preLen : Z) (_rlp : stream) : result trie_exn stream :=
  let! rlp := hash256rlp l _preLen empty in
  let! o := stream_out rlp in
  if zlen o <? 32 then stream_op (appendRaw o 1) _rlp
  else stream_op (append_hash (sha3 o) false false) _rlp.

(** The loop over the 16 children, from [b] on. *)
Fixpoint children (aux : BytesMap -> Z -> stream -> result trie_exn stream)
    (ixs : list Z) (b : BytesMap) (_preLen : Z) (_rlp : stream) : result trie_exn stream :=
  match ixs with
  | [] => Ok _rlp
  | i :: ixs' =>
      let! g := rl (group i _preLen b) in
      let! _rlp :=
        match fst g with
        | [] => stream_op (append [] false) _rlp
        | _ => aux (fst g) (_preLen + 1) _rlp
        end in
      children aux ixs' (snd g) _preLen _rlp
  end.

Fixpoint hash256rlp (fuel : nat) (l : BytesMap) (_preLen : Z) (_rlp : stream) : result trie_exn stream :=
  match fuel with
  | O => Err (TrieDB.Rlp NoFuel)
  | S f =>
      match l with
      | [] => stream_op (append [] false) _rlp
      | [(k, v)] =>
          let! _rlp := stream_op (appendList 2) _rlp in
          let! hpe := rl (hexPrefixEncode_vec k true _preLen (-1)) in
          let! _rlp := stream_op (append hpe false) _rlp in
          stream_op (append v false) _rlp
      | (k, v) :: rest =>
          let! sharedPre := rl (sharedPre_loop k (map fst rest) _preLen (2 ^ 32 - 1)) in
          if _preLen <? sharedPre then
            let! _rlp := stream_op (appendList 2) _rlp in
            let! hpe := rl (hexPrefixEncode_vec k false _preLen sharedPre) in
            let! _rlp := stream_op (append hpe false) _rlp in
            hash256aux (hash256rlp f) l sharedPre _rlp
          else
            let! _rlp := stream_op (appendList 17) _rlp in
            let b := if _preLen =? zlen k then rest else l in
            let! _rlp := children (hash256aux (hash256rlp f)) (range 0 16) b _preLen _rlp in
            if _preLen =? zlen k then stream_op (append v false) _rlp
            else stream_op (append [] false) _rlp
      end
  end.

(** Each level takes a nibble of the longest key. *)
Definition longest (l : BytesMap) : nat := foldr (fun e n => Nat.max (List.length (fst e)) n) 0%nat l.

Definition hexMap_of (_s : BytesMap) : BytesMap :=
  foldr (fun i hexMap => bm_insert (asNibbles (fst i)) (snd i) hexMap) [] _s.

Definition rlp256 (_s : BytesMap) : result trie_exn bytes :=
  match _s with
  | [] => Ok RLPNull
  | _ =>
      let hexMap := hexMap_of _s in
      let! s := hash256rlp (S (longest hexMap)) hexMap 0 empty in
      stream_out s
  end.

Definition hash256 (_s : BytesMap) : result trie_exn bytes :=
  let! r := rlp256 _s in Ok (sha3 r).

(** [rlp(j)] for an [unsigned j], and [orderedTrieRoot]. *)
Definition rlp_unsigned (j : Z) : result trie_exn bytes :=
  let! s := stream_op (append_bigint j) empty in stream_out s.
Fixpoint ordered_map (j : Z) (_data : list bytes) (m : BytesMap) : result trie_exn BytesMap :=
  match _data with
  | [] => Ok m
  | i :: d => let! k := rlp_unsigned j in ordered_map (wrap 32 (j + 1)) d (bm_insert k i m)
  end.
Definition orderedTrieRoot (_data : list bytes) : result trie_exn bytes :=
  let! m := ordered_map 0 _data [] in hash256 m.

(** [trieRootOver(_itemCount, _getKey, _getValue)]. *)
Definition trieRootOver (_itemCount : Z) (_getKey _getValue : Z -> bytes) : result trie_exn bytes :=
  hash256 (fold_left (fun m i => bm_insert (_getKey i) (_getValue i) m)
             (map Z.of_nat (seq 0 (Z.to_nat _itemCount))) []).

(** ** The entries of a tree, in the order of their keys *)

Definition pfx (p : list Z) (e : list Z * bytes) : list Z * bytes := (p ++ fst e, snd e).

Fixpoint kv (t : tree) : BytesMap :=
  match t with
  | Null => []
  | Leaf k v => [(k, v)]
  | Ext k t' => map (pfx k) (kv t')
  | Branch l v =>
      (match v with [] => [] | _ => [([], v)] end) ++
      (fix go (i : Z) (l : list tree) : BytesMap :=
         match l with
         | [] => []
         | t' :: l' => map (pfx [i]) (kv t') ++ go (i + 1) l'
         end) 0 l
  end.
Fixpoint kvs (i : Z) (l : list tree) : BytesMap :=
  match l with
  | [] => []
  | t' :: l' => map (pfx [i]) (kv t') ++ kvs (i + 1) l'
  end.
Definition own (v : bytes) : BytesMap := match v with [] => [] | _ => [([], v)] end.

Lemma kv_Branch l v : kv (Branch l v) = own v ++ kvs 0 l.
Proof. done. Qed.

Lemma pfx_pfx p q e : pfx p (pfx q e) = pfx (p ++ q) e.
Proof. unfold pfx. cbn. by rewrite app_assoc. Qed.
Lemma map_pfx p q l : map (pfx p) (map (pfx q) l) = map (pfx (p ++ q)) l.
Proof. rewrite map_map. apply map_ext. intros. apply pfx_pfx. Qed.
Lemma map_pfx_nil l : map (pfx []) l = l.
Proof. induction l as [|[k v] l IH]; [done|]. cbn. by rewrite IH. Qed.

Lemma kvs_elem i l e :
  e ∈ kvs i l <-> exists j t e', l !! j = Some t /\ e' ∈ kv t /\ e = pfx [i + Z.of_nat j] e'.
Proof.
  revert i. induction l as [|t l IH]; intros i; cbn [kvs].
  - split; [by intros ?%elem_of_nil|]. intros (j & t & e' & E & _). by destruct j.
  - rewrite elem_of_app, IH. split.
    + intros [(e' & -> & He)%list_elem_of_fmap|(j & t' & e' & Ht & He & ->)].
      * exists 0%nat, t, e'. split_and!; [done|done|]. by rewrite Z.add_0_r.
      * exists (S j), t', e'. split_and!; [done|done|]. do 2 f_equal. lia.
    + intros ([|j] & t' & e' & Ht & He & ->).
      * left. injection Ht as <-. apply list_elem_of_fmap. exists e'. split; [by rewrite Z.add_0_r|done].
      * right. exists j, t', e'. split_and!; [done|done|]. do 2 f_equal. lia.
Qed.

(** The entries of a tree are its keys with their values. *)
Lemma kv_elem n t k v :
  wf n t -> canon t -> ((k, v) ∈ kv t <-> nibs_ok k /\ v <> [] /\ tget t k = v).
Proof.
  revert n k v. induction t as [|k' w|k' t IH|l w IH] using tree_rect'; intros n k v Hw Hc.
  - cbn. split; [by intros ?%elem_of_nil|]. intros (_ & Hv & <-). done.
  - cbn [kv tget]. rewrite list_elem_of_singleton. destruct Hw as (Hk & _). cbn in Hc. split.
    + intros [= -> ->]. rewrite decide_True by done. done.
    + intros (Hn & Hv & E). destruct (decide (k = k')) as [->|]; [congruence|]. congruence.
  - cbn [kv tget]. destruct Hw as (_ & Hk & _ & _ & Hw). destruct Hc as [_ Hc]. rewrite list_elem_of_fmap. split.
    + intros ([r u] & [= -> ->] & Hin). apply (IH _ _ _ Hw Hc) in Hin as (H1 & H2 & H3).
      split_and!; [by apply nibs_ok_app|done|]. by rewrite decide_True, drop_app_length by by apply prefix_app_r.
    + intros (Hn & Hv & E). destruct (decide (k' `prefix_of` k)) as [[r ->]|]; [|congruence].
      rewrite drop_app_length in E. apply nibs_ok_app in Hn as [_ Hr]. exists (r, v). split; [done|].
      by apply (IH _ _ _ Hw Hc).
  - apply wf_Branch in Hw as (H1 & H16 & _ & Hw). apply canon_Branch in Hc as [_ Hc]. rewrite kv_Branch, elem_of_app, kvs_elem.
    split.
    + intros [Ho|(j & t & [r u] & Ht & He & [= -> ->])].
      * destruct w; [by apply elem_of_nil in Ho|]. apply list_elem_of_singleton in Ho as [= -> ->]. split_and!; [constructor|done|done].
      * pose proof (lookup_lt_Some _ _ _ Ht).
        apply (Forall_lookup_1 _ _ _ _ IH Ht _ _ _ (Forall_lookup_1 _ _ _ _ Hw Ht) (Forall_lookup_1 _ _ _ _ Hc Ht)) in He as (H3 & H4 & H5).
        cbn [app fst snd]. split_and!; [constructor; [unfold is_nibble; lia|done]|done|].
        rewrite tget_cons. replace (Z.to_nat (0 + Z.of_nat j)) with j by lia. by rewrite Ht.
    + intros (Hn & Hv & E). destruct k as [|m r].
      * left. cbn in E. subst w. destruct v; [done|]. by left.
      * right. inversion Hn as [|? ? Hm Hr]; subst. rewrite tget_cons in Hv |- *. unfold is_nibble in Hm.
        destruct (l !! Z.to_nat m) as [t|] eqn:Ht; [|done]. cbn [default from_option id] in *.
        exists (Z.to_nat m), t, (r, tget t r). split_and!; [done| |unfold pfx; cbn; do 2 f_equal; lia].
        by apply (Forall_lookup_1 _ _ _ _ IH Ht _ _ _ (Forall_lookup_1 _ _ _ _ Hw Ht) (Forall_lookup_1 _ _ _ _ Hc Ht)).
Qed.

(** *** Order *)

Definition klt (a b : bytes * bytes) : Prop := blt (fst a) (fst b) = true.

Lemma blt_app p a b : blt (p ++ a) (p ++ b) = blt a b.
Proof. induction p as [|x p IH]; [done|]. cbn. by rewrite Z.ltb_irrefl. Qed.

Lemma sorted_pfx p l : StronglySorted klt l -> StronglySorted klt (map (pfx p) l).
Proof.
  induction 1 as [|e l Hs IH Hl]; cbn; constructor; [done|]. apply Forall_fmap. eapply List.Forall_impl; [|exact Hl].
  intros e' He. unfold klt, compose in *. cbn. by rewrite blt_app.
Qed.

Lemma sorted_app l k :
  StronglySorted klt l -> StronglySorted klt k -> (forall a b, a ∈ l -> b ∈ k -> klt a b) ->
  StronglySorted klt (l ++ k).
Proof.
  intros Hl Hk Hlk. induction Hl as [|e l Hs IH He]; cbn; [done|]. constructor.
  - apply IH. intros a b Ha. apply Hlk. by right.
  - apply Forall_app. split; [done|]. apply Forall_forall. intros b Hb. apply Hlk; [by left|done].
Qed.

Lemma kvs_sorted i l : Forall (fun t => StronglySorted klt (kv t)) l -> StronglySorted klt (kvs i l).
Proof.
  intros Hl. revert i. induction Hl as [|t l Ht Hl IH]; intros i; cbn [kvs]; [constructor|].
  apply sorted_app; [by apply sorted_pfx|apply IH|]. intros a b (a' & -> & _)%list_elem_of_fmap Hb.
  apply kvs_elem in Hb as (j & t' & b' & _ & _ & ->). unfold klt. cbn. destruct (Z.ltb_spec i (i + 1 + Z.of_nat j)); [done|lia].
Qed.

Lemma kv_sorted t : StronglySorted klt (kv t).
Proof.
  induction t as [|k v|k t IH|l v IH] using tree_rect'; cbn [kv].
  - constructor.
  - by repeat constructor.
  - by apply sorted_pfx.
  - fold (kvs 0 l). change (match v with [] => [] | _ => [([], v)] end) with (own v).
    apply sorted_app; [destruct v; repeat constructor|by apply kvs_sorted|].
    intros a b Ha Hb. destruct v; [by apply elem_of_nil in Ha|]. apply list_elem_of_singleton in Ha as ->.
    by apply kvs_elem in Hb as (j & t' & b' & _ & _ & ->).
Qed.

Lemma blt_irrefl a : blt a a = false.
Proof. induction a as [|x a IH]; [done|]. cbn. by rewrite Z.ltb_irrefl. Qed.
Lemma blt_trans a b c : blt a b = true -> blt b c = true -> blt a c = true.
Proof.
  revert b c. induction a as [|x a IH]; intros [|y b] [|z c]; cbn; try done.
  destruct (Z.ltb_spec x y), (Z.ltb_spec y z), (Z.ltb_spec x z); try done; try lia;
    destruct (Z.ltb_spec y x), (Z.ltb_spec z y), (Z.ltb_spec z x); try done; try lia. eauto.
Qed.
Lemma blt_total a b : blt a b = false -> blt b a = false -> a = b.
Proof.
  revert b. induction a as [|x a IH]; intros [|y b]; cbn; try done.
  destruct (Z.ltb_spec x y), (Z.ltb_spec y x); try done; try lia. intros. f_equal; [lia|auto].
Qed.

(** A sorted map is determined by its entries. *)
Lemma sorted_ext l k :
  StronglySorted klt l -> StronglySorted klt k -> (forall e, e ∈ l <-> e ∈ k) -> l = k.
Proof.
  intros Hl. revert k. induction Hl as [|e l Hs IH He]; intros k Hk Heq.
  - destruct k as [|e k]; [done|]. exfalso. apply (not_elem_of_nil e), Heq. by left.
  - destruct Hk as [|e' k Hk Hek].
    { exfalso. apply (not_elem_of_nil e), Heq. by left. }
    rewrite List.Forall_forall in He, Hek.
    assert (e = e') as <-.
    { destruct (proj1 (elem_of_cons k e e') (proj1 (Heq e) ltac:(by left))) as [|Hin]; [done|].
      destruct (proj1 (elem_of_cons l e' e) (proj2 (Heq e') ltac:(by left))) as [|Hin']; [done|].
      apply list_elem_of_In in Hin, Hin'. pose proof (blt_trans _ _ _ (Hek _ Hin) (He _ Hin')) as Hb.
      by rewrite blt_irrefl in Hb. }
    f_equal. apply IH; [done|]. intros x. specialize (Heq x). rewrite !elem_of_cons in Heq. split; intros Hx.
    + destruct (proj1 Heq (or_intror Hx)) as [->|]; [|done]. apply list_elem_of_In, He in Hx. unfold klt in Hx. by rewrite blt_irrefl in Hx.
    + destruct (proj2 Heq (or_intror Hx)) as [->|]; [|done]. apply list_elem_of_In, Hek in Hx. unfold klt in Hx. by rewrite blt_irrefl in Hx.
Qed.

(** *** Canonical trees have entries *)

Lemma kv_child n l v i t : wf n (Branch l v) -> l !! i = Some t -> kv t <> [] ->
  exists e, e ∈ kv (Branch l v) /\ exists r, fst e = Z.of_nat i :: r.
Proof.
  intros Hw Ht Hne. destruct (kv t) as [|[r u] m] eqn:E; [done|]. exists (pfx [Z.of_nat i] (r, u)). split.
  - rewrite kv_Branch, elem_of_app. right. apply kvs_elem. exists i, t, (r, u). split_and!; [done| |done]. rewrite E. by left.
  - by exists r.
Qed.

Lemma kv_nonempty n t : wf n t -> canon t -> t <> Null -> kv t <> [].
Proof.
  revert n. induction t as [|k v|k t IH|l v IH] using tree_rect'; intros n Hw Hc Hn; [done|done| |].
  - destruct Hw as (_ & _ & _ & Ht & Hw). destruct Hc as [_ Hc]. cbn [kv]. specialize (IH _ Hw Hc Ht). by destruct (kv t).
  - pose proof Hw as Hw0. apply wf_Branch in Hw as (H1 & H16 & _ & Hw). apply canon_Branch in Hc as [Hu Hc]. rewrite kv_Branch.
    destruct v as [|x v]; [|done]. cbn [own app]. unfold used in Hu. destruct (in_use 0 l) as [|i u] eqn:Eu; [cbn in Hu; lia|].
    destruct (in_use_lookup l i ltac:(rewrite Eu; by left)) as (t & Ht & Hnn & Hi).
    assert (kv t <> []) as Hkv.
    { apply (Forall_lookup_1 _ _ _ _ IH Ht (n - 1)%nat); [by eapply Forall_lookup_1 in Hw|by eapply Forall_lookup_1 in Hc|done]. }
    destruct (kv_child n l [] _ t Hw0 Ht Hkv) as (e & He & _). rewrite kv_Branch in He. cbn [own app] in He.
    intros E0. rewrite E0 in He. by apply elem_of_nil in He.
Qed.

Lemma kv_empty n t : wf n t -> canon t -> kv t = [] -> t = Null.
Proof. intros Hw Hc E. destruct (decide (t = Null)); [done|]. by destruct (kv_nonempty n t Hw Hc). Qed.

(** A branch has two entries that differ in their first nibble. *)
Lemma kv_Branch_cons n l v :
  wf n (Branch l v) -> canon (Branch l v) ->
  exists k1 v1 e2 rest, kv (Branch l v) = (k1, v1) :: e2 :: rest /\
    exists e, e ∈ e2 :: rest /\ commonPrefix k1 (fst e) = 0.
Proof.
  intros Hw0 Hc. pose proof Hw0 as Hw. apply wf_Branch in Hw as (H1 & H16 & _ & Hw). apply canon_Branch in Hc as [Hu Hc].
  assert (forall i, i ∈ in_use 0 l -> exists e, e ∈ kv (Branch l v) /\ exists r, fst e = i :: r) as Hin.
  { intros i Hi. destruct (in_use_lookup l i Hi) as (t & Ht & Hnn & Hr).
    destruct (kv_child n l v _ t Hw0 Ht) as (e & He & r & Er).
    - apply (kv_nonempty (n - 1)); [by eapply Forall_lookup_1 in Hw|by eapply Forall_lookup_1 in Hc|done].
    - exists e. split; [done|]. exists r. rewrite Er. f_equal. lia. }
  destruct v as [|x v].
  - unfold used in Hu. destruct (in_use 0 l) as [|i [|j u]] eqn:Eu; [cbn in Hu; lia..|].
    assert (i <> j) as Hij.
    { intros ->. assert (NoDup (in_use 0 l)) as Hnd.
      { clear. generalize 0. induction l as [|t l IH]; intros z; cbn; [constructor|]. destruct (is_null t); [apply IH|].
        constructor; [|apply IH]. intros [? _]%in_use_elem. lia. }
      rewrite Eu in Hnd. apply NoDup_cons in Hnd as [Hx _]. apply Hx. by left. }
    destruct (Hin i ltac:(by left)) as (ei & Hei & ri & Eri). destruct (Hin j ltac:(by right; left)) as (ej & Hej & rj & Erj).
    destruct (kv (Branch l [])) as [|[k1 v1] rest] eqn:E; [by apply elem_of_nil in Hei|].
    assert (exists e, e ∈ rest /\ commonPrefix k1 (fst e) = 0) as (e & He & Hcp).
    { destruct k1 as [|m k1].
      - apply elem_of_cons in Hei as [->|Hei]; [done|]. by exists ei.
      - destruct (Z.eq_dec m i) as [->|Hmi].
        + exists ej. rewrite Erj. cbn. destruct (Z.eqb_spec i j); [done|]. split; [|done].
          apply elem_of_cons in Hej as [->|]; [cbn in Erj; congruence|done].
        + exists ei. rewrite Eri. cbn. destruct (Z.eqb_spec m i); [done|]. split; [|done].
          apply elem_of_cons in Hei as [->|]; [cbn in Eri; congruence|done]. }
    destruct rest as [|e2 rest]; [by apply elem_of_nil in He|]. exists k1, v1, e2, rest. split; [done|]. by exists e.
  - rewrite kv_Branch. cbn [own app]. unfold used in Hu. destruct (in_use 0 l) as [|i u] eqn:Eu; [cbn in Hu; lia|].
    destruct (Hin i ltac:(by left)) as (ei & Hei & ri & Eri). rewrite kv_Branch in Hei. cbn [own app] in Hei.
    apply elem_of_cons in Hei as [->|Hei]; [done|].
    destruct (kvs 0 l) as [|e2 rest] eqn:Ek; [by apply elem_of_nil in Hei|]. exists [], (x :: v), e2, rest. split; [done|].
    by exists ei.
Qed.

(** A single entry is a leaf. *)
Lemma kv_single n t k v : wf n t -> canon t -> kv t = [(k, v)] -> t = Leaf k v.
Proof.
  intros Hw Hc E. destruct t as [|k' v'|k' t|l w]; [done|cbn in E; congruence| |].
  - destruct Hc as [Hb Hc]. destruct t as [| | |l w]; try done. destruct Hw as (_ & _ & _ & _ & Hw).
    destruct (kv_Branch_cons _ l w Hw Hc) as (k1 & v1 & e2 & rest & E' & _).
    change (kv (Ext k' (Branch l w))) with (map (pfx k') (kv (Branch l w))) in E. rewrite E' in E. done.
  - destruct (kv_Branch_cons n l w Hw Hc) as (k1 & v1 & e2 & rest & E' & _). rewrite E' in E. done.
Qed.

(** ** The common prefix of the keys *)

Lemma ref_at_app p x r : ref_at (p ++ x :: r) (zlen p) = Ok x.
Proof.
  unfold ref_at, zat. destruct (Z.ltb_spec (zlen p) 0); [lia|]. rewrite Nat2Z.id, lookup_app_r, Nat.sub_diag by lia. done.
Qed.

Lemma shared_loop_spec fuel p a b x :
  x <= Z.min (zlen (p ++ a)) (zlen (p ++ b)) -> zlen p <= x -> (List.length a <= fuel)%nat ->
  shared_loop fuel (p ++ a) (p ++ b) (zlen p) x = Ok (Z.min x (zlen p + commonPrefix a b)).
Proof.
  revert p a b. induction fuel as [|fuel IH]; intros p a b Hx Hp Hf; rewrite !zlen_app in Hx; cbn [shared_loop].
  - destruct a; [|cbn in Hf; lia]. cbn [List.length] in Hx. destruct (Z.ltb_spec (zlen p) x); [lia|]. f_equal. cbn. lia.
  - destruct (Z.ltb_spec (zlen p) x); [|f_equal; pose proof (commonPrefix_nonneg a b); lia].
    destruct a as [|c a]; [cbn [List.length] in Hx; lia|]. destruct b as [|c' b]; [cbn [List.length] in Hx; lia|].
    rewrite !ref_at_app. cbn [result_bind commonPrefix]. destruct (Z.eqb_spec c c') as [<-|Hne]; [|f_equal; lia].
    pose proof (IH (p ++ [c]) a b) as IH'. assert (zlen (p ++ [c]) = zlen p + 1) as E1 by by rewrite zlen_app.
    rewrite E1, <- !app_assoc in IH'. cbn [app] in IH'. rewrite !zlen_cons in Hx. cbn [List.length] in Hf.
    rewrite IH' by (rewrite ?zlen_app, ?zlen_cons; lia). f_equal. lia.
Qed.

Lemma sharedPre_loop_spec p a others sp :
  zlen p <= sp ->
  sharedPre_loop (p ++ a) (map (app p) others) (zlen p) sp =
  Ok (fold_left (fun s b => Z.min s (zlen p + commonPrefix a b)) others sp).
Proof.
  revert sp. induction others as [|b others IH]; intros sp Hsp; cbn [map sharedPre_loop fold_left]; [done|].
  pose proof (commonPrefix_nonneg a b). destruct (Z.eqb_spec sp 0) as [->|Hz].
  - f_equal. assert (zlen p = 0) by lia. clear IH Hsp. assert (Z.min 0 (zlen p + commonPrefix a b) = 0) as -> by lia.
    induction others as [|c others IH]; cbn; [done|]. pose proof (commonPrefix_nonneg a c).
    by replace (Z.min 0 (zlen p + commonPrefix a c)) with 0 by lia.
  - pose proof (commonPrefix_le_l a b). pose proof (commonPrefix_le_r a b).
    rewrite shared_loop_spec; rewrite ?zlen_app, ?length_app; try lia. cbn [result_bind]. rewrite IH by lia. do 2 f_equal. lia.
Qed.

Lemma fold_min_spec p (a : bytes) (others : list bytes) sp b :
  b ∈ others -> commonPrefix a b = 0 -> 0 <= p <= sp ->
  fold_left (fun s b => Z.min s (p + commonPrefix a b)) others sp = p.
Proof.
  intros Hin Hb Hp.
  assert (forall l s, p <= s -> p <= fold_left (fun s b => Z.min s (p + commonPrefix a b)) l s <= s) as Hge.
  { induction l as [|c l IH]; intros s Hs; cbn; [lia|]. pose proof (commonPrefix_nonneg a c).
    specialize (IH (Z.min s (p + commonPrefix a c)) ltac:(lia)). lia. }
  apply list_elem_of_split in Hin as (l1 & l2 & ->). rewrite fold_left_app. cbn [fold_left]. rewrite Hb.
  specialize (Hge l1 sp ltac:(lia)) as H1. pose proof (Hge l2 (Z.min (fold_left (fun s b => Z.min s (p + commonPrefix a b)) l1 sp) (p + 0)) ltac:(lia)). lia.
Qed.

(** ** The groups of entries under a nibble *)

Lemma group_spec i pre m R :
  (forall e, e ∈ R -> exists j r, fst e = j :: r /\ j <> i) ->
  group i (zlen pre) (map (pfx pre) (map (pfx [i]) m ++ R)) =
  Ok (map (pfx (pre ++ [i])) m, map (pfx pre) R).
Proof.
  intros HR. induction m as [|[k v] m IH]; cbn [map app].
  - destruct R as [|[k v] R]; [done|]. cbn [map group]. destruct (HR (k, v) ltac:(by left)) as (j & r & E & Hj). cbn in E. subst k.
    unfold pfx at 1. cbn [fst snd]. rewrite ref_at_app. cbn [result_bind]. by destruct (Z.eqb_spec j i).
  - unfold pfx at 1 2. cbn [fst snd group app]. rewrite ref_at_app. cbn [result_bind]. rewrite Z.eqb_refl, IH. cbn [result_bind fst snd].
    unfold pfx at 3. cbn [fst snd]. by rewrite <- app_assoc.
Qed.

Lemma stream_op_write op s s' : write op s = Ret s' -> stream_op op s = Ok s'.
Proof. unfold write, stream_op. destruct (op s) as [[]]; congruence. Qed.

(** A finished node. *)
Definition done_node (i : Item) : stream := {| m_out := encode i; m_listStack := [] |}.

Lemma partial_done n l : List.length l = n -> partial n l = done_node (Lst l).
Proof. intros <-. unfold partial. by rewrite Nat.ltb_irrefl. Qed.

(** What [hash256rlp] has to do with the entries of [t] behind a prefix. *)
Definition hashes (f : BytesMap -> Z -> stream -> result trie_exn stream) (pre : list Z) (t : tree) : Prop :=
  f (map (pfx pre) (kv t)) (zlen pre) empty = Ok (done_node (item t)).

Lemma hash256aux_spec f pre n t m l :
  depth_ok n -> wf n t -> hashes f pre t -> (List.length l < m)%nat -> sizes l < 2 ^ 62 ->
  hash256aux f (map (pfx pre) (kv t)) (zlen pre) (partial m l) = Ok (partial m (l ++ [ref t])).
Proof.
  intros Hn Hw Hf Hl Hs. unfold hash256aux. rewrite Hf. cbn [result_bind]. unfold stream_out, done_node, out. cbn [m_listStack m_out result_bind].
  pose proof (item_small n t Hn Hw) as Hi. destruct (ref_of_small _ Hi) as [_ Hr]. fold (ref t) in Hr.
  assert (sizes (l ++ [ref t]) < 2 ^ 64) as Hsz by (rewrite sizes_app, sizes_cons, sizes_nil; lia).
  fold (enc t). destruct (ref_cases t) as [(Hz & E & _)|(Hz & E & _)]; rewrite E in *.
  - destruct (Z.ltb_spec (zlen (enc t)) 32); [|lia]. by apply stream_op_write, write_item; [apply appends_raw| |].
  - destruct (Z.ltb_spec (zlen (enc t)) 32); [lia|]. destruct (sha3_small (enc t)).
    by apply stream_op_write, write_item; [apply appends_hash; lia| |].
Qed.

Lemma children_spec f pre n l a m L :
  depth_ok n -> (1 <= n)%nat -> Forall (wf (n - 1)) l -> Forall canon l -> List.length l = 16%nat -> (a + m = 16)%nat ->
  (forall i t, l !! i = Some t -> hashes f (pre ++ [Z.of_nat i]) t) ->
  (List.length L = a)%nat -> sizes L <= 41 * Z.of_nat a ->
  children (hash256aux f) (range a m) (map (pfx pre) (kvs (Z.of_nat a) (drop a l))) (zlen pre) (partial 17 L) =
  Ok (partial 17 (L ++ map ref (drop a l))).
Proof.
  intros Hn H1 Hw Hc Hl Ham Hf. revert a L Ham. induction m as [|m IH]; intros a L Ham HL Hs.
  - rewrite drop_ge by lia. cbn. by rewrite app_nil_r.
  - destruct (lookup_lt_is_Some_2 l a ltac:(lia)) as [t Ht]. rewrite (drop_S _ _ _ Ht). cbn [kvs].
    change (range a (S m)) with (Z.of_nat a :: range (S a) m). cbn [children].
    rewrite group_spec; cbn [rl result_bind fst snd].
    2:{ intros e (j & t' & e' & _ & _ & ->)%kvs_elem. eexists _, _. split; [reflexivity|]. lia. }
    pose proof (Forall_lookup_1 _ _ _ _ Hw Ht) as Hwt. pose proof (Forall_lookup_1 _ _ _ _ Hc Ht) as Hct. cbn beta in Hwt, Hct.
    assert (depth_ok (n - 1)) as Hn' by (apply (depth_ok_le n); [done|lia]).
    destruct (ref_of_small _ (item_small (n - 1) t Hn' Hwt)) as [_ Hr]. fold (ref t) in Hr.
    assert (match map (pfx (pre ++ [Z.of_nat a])) (kv t) with
            | [] => stream_op (append [] false) (partial 17 L)
            | _ => hash256aux f (map (pfx (pre ++ [Z.of_nat a])) (kv t)) (zlen pre + 1) (partial 17 L)
            end = Ok (partial 17 (L ++ [ref t]))) as ->.
    { destruct (kv t) as [|e es] eqn:Ek.
      - apply (kv_empty (n - 1)) in Ek; [|done|done]. subst t. cbn [map]. apply stream_op_write, write_item; [by apply (appends_str [])|lia|].
        rewrite sizes_app, sizes_cons, sizes_nil. lia.
      - replace (zlen pre + 1) with (zlen (pre ++ [Z.of_nat a])) by by rewrite zlen_app.
        pose proof (hash256aux_spec f (pre ++ [Z.of_nat a]) (n - 1) t 17 L Hn' Hwt (Hf _ _ Ht) ltac:(lia) ltac:(lia)) as Hx.
        rewrite Ek in Hx. exact Hx. }
    cbn [result_bind]. replace (Z.of_nat a + 1) with (Z.of_nat (S a)) by lia. rewrite IH.
    + cbn [map]. by rewrite <- app_assoc.
    + lia.
    + rewrite length_app. cbn. lia.
    + rewrite sizes_app, sizes_cons, sizes_nil. lia.
Qed.

(** ** [hash256rlp] *)

Lemma stream_list_2 : stream_op (appendList 2) empty = Ok (partial 2 []).
Proof. apply stream_op_write, RLPStream_list_2. Qed.
Lemma stream_list_17 : stream_op (appendList 17) empty = Ok (partial 17 []).
Proof. apply stream_op_write, RLPStream_list_17. Qed.

(** The packed part [k] of a key [pre ++ k ++ r]. *)
Lemma hexPrefixEncode_part pre k r leaf e :
  nibs_ok (pre ++ k ++ r) -> zlen (pre ++ k ++ r) < 2 ^ 31 ->
  (e = -1 /\ r = []) \/ e = zlen (pre ++ k) ->
  hexPrefixEncode_vec (pre ++ k ++ r) leaf (zlen pre) e = Ok (hp leaf k).
Proof.
  intros Hn Hl He. rewrite !zlen_app in Hl.
  rewrite hexPrefixEncode_vec_spec; rewrite ?zlen_app; try done; try lia.
  - rewrite zdrop_app by done. do 2 f_equal. destruct He as [[-> ->]| ->].
    + change (-1 <? 0) with true. cbv iota. rewrite app_nil_r. rewrite ztake_all; [done|]. cbn [List.length]. lia.
    + rewrite zlen_app. destruct (Z.ltb_spec (zlen pre + zlen k) 0); [lia|]. apply ztake_app. lia.
  - destruct He as [[-> ->]| ->]; [change (-1 <? 0) with true; cbv iota; lia|]. rewrite zlen_app. destruct (Z.ltb_spec (zlen pre + zlen k) 0); lia.
  - destruct He as [[-> ->]| ->]; [by left|right]. rewrite zlen_app. lia.
Qed.

Lemma kv_keys n t e : wf n t -> canon t -> e ∈ kv t -> nibs_ok (fst e) /\ (List.length (fst e) <= n)%nat.
Proof.
  intros Hw Hc He. split; [destruct e; by apply (kv_elem n t _ _ Hw Hc) in He as (? & _)|].
  clear Hc. revert n e Hw He. induction t as [|k v|k t IH|l v IH] using tree_rect'; intros n e Hw He.
  - by apply elem_of_nil in He.
  - cbn in He. apply list_elem_of_singleton in He as ->. apply Hw.
  - cbn [kv] in He. apply list_elem_of_fmap in He as (e' & -> & He). destruct Hw as (_ & _ & Hl & _ & Hw).
    specialize (IH _ _ Hw He). cbn. rewrite length_app. lia.
  - apply wf_Branch in Hw as (H1 & _ & _ & Hw). rewrite kv_Branch, elem_of_app in He. destruct He as [He|He].
    + destruct v; [by apply elem_of_nil in He|]. apply list_elem_of_singleton in He as ->. cbn. lia.
    + apply kvs_elem in He as (j & t & e' & Ht & He & ->).
      specialize (Forall_lookup_1 _ _ _ _ IH Ht _ _ (Forall_lookup_1 _ _ _ _ Hw Ht) He). cbn. lia.
Qed.

(** The number of shared nibbles is that in front of the branch. *)
Lemma sharedPre_Branch pre0 k n l v k1 v1 rest :
  wf n (Branch l v) -> canon (Branch l v) -> zlen (pre0 ++ k) < 2 ^ 28 ->
  kv (Branch l v) = (k1, v1) :: rest ->
  sharedPre_loop (pre0 ++ k ++ k1) (map fst (map (pfx (pre0 ++ k)) rest)) (zlen pre0) (2 ^ 32 - 1) = Ok (zlen (pre0 ++ k)).
Proof.
  intros Hw Hc Hl E. destruct (kv_Branch_cons n l v Hw Hc) as (k1' & v1' & e2 & rest' & E' & e & He & Hcp).
  rewrite E in E'. injection E' as <- <- ->. set (rest := e2 :: rest') in *.
  replace (map fst (map (pfx (pre0 ++ k)) rest)) with (map (app pre0) (map (fun e => k ++ fst e) rest)).
  2:{ rewrite !map_map. apply map_ext. intros x. cbn. by rewrite app_assoc. }
  rewrite zlen_app in *. rewrite sharedPre_loop_spec by lia. f_equal.
  assert (forall others sp, fold_left (fun s b => Z.min s (zlen pre0 + commonPrefix (k ++ k1) b)) (map (app k) others) sp =
                     fold_left (fun s b => Z.min s ((zlen pre0 + zlen k) + commonPrefix k1 b)) others sp) as Hfold.
  { induction others as [|b others IH]; intros sp; cbn [map fold_left]; [done|]. rewrite IH. f_equal. f_equal.
    clear. induction k as [|x k IH]; cbn [app commonPrefix]; [cbn; lia|]. rewrite Z.eqb_refl, zlen_cons. lia. }
  rewrite <- (map_map fst (app k)), Hfold. apply (fold_min_spec _ _ _ _ (fst e)); [|done|lia].
  apply list_elem_of_fmap. by exists e.
Qed.

Lemma hash256rlp_kv t : forall fuel n pre,
  depth_ok (List.length pre + n) -> nibs_ok pre -> wf n t -> canon t -> (n < fuel)%nat ->
  hashes (hash256rlp fuel) pre t.
Proof.
  induction t as [|k v|k t IH|l v IH] using tree_rect'; intros fuel n pre Hd Hp Hw Hc Hf;
    (destruct fuel as [|fuel]; [lia|]); unfold hashes; assert (depth_ok n) as Hn by (eapply depth_ok_le; [exact Hd|lia]).
  - done.
  - cbn [kv map]. unfold pfx. cbn [fst snd hash256rlp]. rewrite stream_list_2. cbn [result_bind].
    pose proof (leaf_two n k v Hn Hw) as Ht. destruct Hw as (Hk & Hl & _ & Hz). unfold depth_ok in Hd.
    pose proof (hexPrefixEncode_part pre k [] true (-1)) as Hh. rewrite app_nil_r in Hh.
    rewrite Hh; [|by apply nibs_ok_app|rewrite zlen_app; lia|by left]. cbn [rl result_bind].
    destruct (two_fits true k (Str v) Ht) as [_ Hs]. destruct (hp_ok true k Hk). rewrite !sizes_cons, sizes_nil in Hs.
    erewrite stream_op_write by (apply (write_item 2 [] _ (Str (hp true k))); [apply appends_str; lia|cbn; lia|cbn [app]; rewrite sizes_cons, sizes_nil; lia]).
    cbn [result_bind app].
    erewrite stream_op_write by (apply (write_item 2 [_] _ (Str v)); [apply appends_str; lia|cbn; lia|cbn [app]; rewrite !sizes_cons, sizes_nil; lia]).
    cbn [app]. by rewrite partial_done.
  - destruct Hc as [Hb Hc]. destruct t as [| | |l v]; try done.
    pose proof (ext_two n k _ Hn Hw) as Ht. destruct Hw as (Hk0 & Hk & Hl & _ & Hw).
    destruct (kv_Branch_cons _ l v Hw Hc) as (k1 & v1 & e2 & rest & E & _). change (kv (Ext k (Branch l v))) with (map (pfx k) (kv (Branch l v))).
    rewrite map_pfx, E. cbn [map hash256rlp]. unfold pfx at 1. cbn [fst snd].
    destruct (kv_keys _ _ (k1, v1) Hw Hc ltac:(rewrite E; by left)) as [Hk1 Hk1l]. cbn in Hk1, Hk1l. unfold depth_ok in Hd.
    assert (zlen (pre ++ k) < 2 ^ 28) by (rewrite zlen_app; lia).
    change (pfx (pre ++ k) e2 :: map (pfx (pre ++ k)) rest) with (map (pfx (pre ++ k)) (e2 :: rest)).
    change ((pfx (pre ++ k) e2).1 :: map fst (map (pfx (pre ++ k)) rest)) with (map fst (map (pfx (pre ++ k)) (e2 :: rest))).
    rewrite <- (app_assoc pre k k1), (sharedPre_Branch pre k _ l v k1 v1 (e2 :: rest) Hw Hc) by done.
    cbn [rl result_bind]. assert (0 < zlen k) by (destruct k; [done|rewrite zlen_cons; lia]).
    destruct (Z.ltb_spec (zlen pre) (zlen (pre ++ k))); [|rewrite zlen_app in *; lia]. rewrite stream_list_2. cbn [result_bind].
    rewrite (hexPrefixEncode_part pre k k1 false); [|by rewrite !nibs_ok_app|rewrite !zlen_app; lia|by right].
    cbn [rl result_bind]. destruct (two_fits false k _ Ht) as [_ Hs]. destruct (hp_ok false k Hk). rewrite !sizes_cons, sizes_nil in Hs.
    erewrite stream_op_write by (apply (write_item 2 [] _ (Str (hp false k))); [apply appends_str; lia|cbn; lia|cbn [app]; rewrite sizes_cons, sizes_nil; lia]).
    cbn [result_bind app].
    change ((pre ++ k) ++ k1, v1) with (pfx (pre ++ k) (k1, v1)).
    change (pfx (pre ++ k) (k1, v1) :: map (pfx (pre ++ k)) (e2 :: rest)) with (map (pfx (pre ++ k)) ((k1, v1) :: e2 :: rest)).
    rewrite <- E. rewrite (hash256aux_spec _ (pre ++ k) (n - List.length k)).
    + cbn [app]. by rewrite partial_done.
    + eapply depth_ok_le; [exact Hn|lia].
    + done.
    + apply (IH _ (n - List.length k)%nat); [unfold depth_ok; rewrite length_app; lia|by apply nibs_ok_app|done|done|].
      destruct k; [done|]. cbn in *. lia.
    + cbn. lia.
    + rewrite sizes_cons, sizes_nil. lia.
  - pose proof Hw as Hw0. apply wf_Branch in Hw as (H1 & H16 & Hv & Hw). pose proof (proj1 (canon_Branch l v) Hc) as [_ Hcl].
    destruct (kv_Branch_cons n l v Hw0 Hc) as (k1 & v1 & e2 & rest & E & _). rewrite E. cbn [map hash256rlp]. unfold pfx at 1. cbn [fst snd].
    change (pfx pre e2 :: map (pfx pre) rest) with (map (pfx pre) (e2 :: rest)). unfold depth_ok in Hd.
    pose proof (sharedPre_Branch pre [] n l v k1 v1 (e2 :: rest) Hw0 Hc) as Hsp. rewrite !app_nil_r in Hsp. cbn [app] in Hsp.
    change ((pfx pre e2).1 :: map fst (map (pfx pre) rest)) with (map fst (map (pfx pre) (e2 :: rest))).
    rewrite Hsp by (done || lia). cbn [rl result_bind]. rewrite Z.ltb_irrefl, stream_list_17. cbn [result_bind].
    pose proof (branch_fits n l v Hn Hw0) as [_ Hsz]. unfold branch_items in Hsz. rewrite sizes_app, sizes_cons, sizes_nil in Hsz.
    pose proof (sizes_nonneg (map ref l)). pose proof Hv as [_ Hvz].
    assert (children (hash256aux (hash256rlp fuel)) (range 0 16) (map (pfx pre) (kvs 0 l)) (zlen pre) (partial 17 []) =
            Ok (partial 17 (map ref l))) as Hch.
    { apply (children_spec _ pre n l 0 16 []); try done.
      intros i t Ht. apply (Forall_lookup_1 _ _ _ _ IH Ht fuel (n - 1)%nat).
      - unfold depth_ok. rewrite length_app. cbn. lia.
      - apply nibs_ok_app. split; [done|]. apply lookup_lt_Some in Ht. constructor; [unfold is_nibble; lia|constructor].
      - by eapply Forall_lookup_1 in Hw.
      - by eapply Forall_lookup_1 in Hcl.
      - lia. }
    rewrite kv_Branch in E. rewrite zlen_app. destruct v as [|x v]; cbn [own app] in E.
    + assert (exists m r, k1 = m :: r) as (m & r & ->).
      { assert ((k1, v1) ∈ kvs 0 l) as Hin by (rewrite E; by left). apply kvs_elem in Hin as (j & t & e' & _ & _ & [= -> _]). cbn. eauto. }
      destruct (Z.eqb_spec (zlen pre) (zlen pre + zlen (m :: r))); [rewrite zlen_cons in *; lia|].
      change (pfx pre (m :: r, v1) :: map (pfx pre) (e2 :: rest)) with (map (pfx pre) ((m :: r, v1) :: e2 :: rest)).
      rewrite <- E, Hch. cbn [result_bind]. erewrite stream_op_write by (apply (write_item 17 _ _ (Str [])); [by apply (appends_str [])|rewrite length_map; lia|rewrite sizes_app, sizes_cons, sizes_nil; lia]).
      by rewrite partial_done by (rewrite length_app, length_map; cbn; lia).
    + injection E as <- <- E. cbn [List.length]. destruct (Z.eqb_spec (zlen pre) (zlen pre + Z.of_nat 0)); [|lia].
      rewrite <- E, Hch. cbn [result_bind]. erewrite stream_op_write by (apply (write_item 17 _ _ (Str (x :: v))); [apply appends_str; lia|rewrite length_map; lia|rewrite sizes_app, sizes_cons, sizes_nil; lia]).
      by rewrite partial_done by (rewrite length_app, length_map; cbn; lia).
Qed.

(** ** Maps *)

Abbreviation map_ok m := (StronglySorted klt m).

Lemma klt_ne a b : klt a b -> fst a <> fst b.
Proof. unfold klt. intros H E. rewrite E, blt_irrefl in H. done. Qed.

Lemma map_ok_cons k v m e : map_ok ((k, v) :: m) -> e ∈ m -> blt k (fst e) = true.
Proof. intros [_ H]%StronglySorted_inv He. rewrite List.Forall_forall in H. by apply (H e), list_elem_of_In. Qed.

Lemma bm_insert_elem k v m e :
  map_ok m -> (e ∈ bm_insert k v m <-> e = (k, v) \/ (fst e <> k /\ e ∈ m)).
Proof.
  intros Hm. induction m as [|[k' v'] m IH]; cbn [bm_insert].
  - rewrite list_elem_of_singleton. split; [by left|]. by intros [|[_ ?%elem_of_nil]].
  - pose proof (fun e => map_ok_cons k' v' m e Hm) as Hlt. apply StronglySorted_inv in Hm as [Hm _]. specialize (IH Hm).
    destruct (blt k k') eqn:E1; [|destruct (blt k' k) eqn:E2].
    + rewrite elem_of_cons. apply or_iff_compat_l. split; [|tauto]. intros He. split; [|done].
      apply elem_of_cons in He as [->|He]; cbn; intros <-; [by rewrite blt_irrefl in E1|].
      pose proof (blt_trans _ _ _ E1 (Hlt _ He)) as H. by rewrite blt_irrefl in H.
    + rewrite !elem_of_cons, IH. split.
      * intros [->|[->|[H1 H2]]]; [right; split; [|by left]|by left|by right; split; [|right]].
        cbn. intros ->. by rewrite blt_irrefl in E2.
      * intros [->|[H1 [->|H2]]]; [by right; left|by left|by right; right].
    + pose proof (blt_total _ _ E1 E2) as ->. rewrite !elem_of_cons. apply or_iff_compat_l. split.
      * intros He. split; [|by right]. intros E. specialize (Hlt _ He). by rewrite E, blt_irrefl in Hlt.
      * intros [H1 [->|]]; done.
Qed.

Lemma bm_insert_sorted k v m : map_ok m -> map_ok (bm_insert k v m).
Proof.
  intros Hm. induction m as [|[k' v'] m IH]; cbn [bm_insert]; [by repeat constructor|].
  pose proof (fun e => map_ok_cons k' v' m e Hm) as Hlt. pose proof Hm as Hm0. apply StronglySorted_inv in Hm as [Hm Hf]. specialize (IH Hm).
  destruct (blt k k') eqn:E1; [|destruct (blt k' k) eqn:E2].
  - constructor; [done|]. constructor; [done|]. eapply List.Forall_impl; [|exact Hf]. intros e. by apply blt_trans.
  - constructor; [done|]. apply List.Forall_forall. intros e He%list_elem_of_In. apply bm_insert_elem in He as [->|[_ He]]; [done| |done].
    by apply Hlt.
  - pose proof (blt_total _ _ E1 E2) as ->. by constructor.
Qed.

Lemma bm_erase_elem k m e : e ∈ bm_erase k m <-> fst e <> k /\ e ∈ m.
Proof.
  unfold bm_erase. rewrite !list_elem_of_In, List.filter_In, negb_true_iff, bool_decide_eq_false. tauto.
Qed.
Lemma bm_erase_sorted k m : map_ok m -> map_ok (bm_erase k m).
Proof.
  unfold bm_erase. induction 1 as [|e m Hm IH Hf]; cbn [List.filter]; [constructor|]. destruct (negb _); [|done]. constructor; [done|].
  apply List.Forall_forall. intros x [Hx _]%List.filter_In. rewrite List.Forall_forall in Hf. auto.
Qed.

Lemma bm_find_elem k m v : map_ok m -> (bm_find k m = Some v <-> (k, v) ∈ m).
Proof.
  induction m as [|[k' v'] m IH]; intros Hm; cbn [bm_find].
  - split; [done|]. by intros ?%elem_of_nil.
  - pose proof (fun e => map_ok_cons k' v' m e Hm) as Hlt. apply StronglySorted_inv in Hm as [Hm _].
    rewrite elem_of_cons. destruct (decide (k' = k)) as [->|Hne].
    + split; [intros [= ->]; by left|]. intros [[= ->]|He]; [done|]. specialize (Hlt _ He). cbn in Hlt. by rewrite blt_irrefl in Hlt.
    + rewrite IH by done. split; [by right|]. intros [[= -> _]|]; done.
Qed.

Lemma hexMap_of_spec m :
  map_ok m ->
  map_ok (hexMap_of m) /\
  forall k v, (k, v) ∈ hexMap_of m <-> exists k0, k = asNibbles k0 /\ (k0, v) ∈ m.
Proof.
  induction 1 as [|[k0 v0] m Hm [IH1 IH2] Hf]; cbn [hexMap_of foldr fst snd].
  - split; [constructor|]. intros k v. split; [by intros ?%elem_of_nil|]. by intros (? & _ & ?%elem_of_nil).
  - fold (hexMap_of m). split; [by apply bm_insert_sorted|]. intros k v. rewrite bm_insert_elem by done. cbn [fst]. rewrite IH2. split.
    + intros [[= -> ->]|[_ (k1 & -> & Hin)]]; [exists k0; split; [done|by left]|exists k1; split; [done|by right]].
    + intros (k1 & -> & [[= -> ->]|Hin]%elem_of_cons); [by left|]. right. split; [|by exists k1].
      intros E%asNibbles_inj. subst k1. rewrite List.Forall_forall in Hf. apply list_elem_of_In, Hf, klt_ne in Hin. done.
Qed.

Lemma longest_le m e : e ∈ m -> (List.length (fst e) <= longest m)%nat.
Proof. induction m as [|x m IH]; [by intros ?%elem_of_nil|]. cbn [longest foldr]. fold (longest m). intros [->|He]%elem_of_cons; [|specialize (IH He)]; lia. Qed.

(** A canonical tree is no deeper than its longest key. *)
Lemma wf_tight t : forall n m, wf n t -> canon t -> (forall e, e ∈ kv t -> (List.length (fst e) <= m)%nat) -> wf m t.
Proof.
  induction t as [|k v|k t IH|l v IH] using tree_rect'; intros n m Hw Hc Hm.
  - done.
  - destruct Hw as (H1 & H2 & H3). specialize (Hm (k, v) ltac:(by left)). done.
  - destruct Hw as (H1 & H2 & H3 & H4 & Hw). destruct Hc as [_ Hc].
    assert (forall e, e ∈ kv t -> (List.length k + List.length (fst e) <= m)%nat) as Hm'.
    { intros e He. rewrite <- length_app. apply (Hm (pfx k e)). cbn [kv]. apply list_elem_of_fmap. by exists e. }
    pose proof (kv_nonempty _ t Hw Hc H4) as Hne. destruct (kv t) as [|e0 es] eqn:E; [done|].
    pose proof (Hm' e0 ltac:(by left)). cbn [wf]. split_and!; [done|done|lia|done|].
    apply (IH (n - List.length k)%nat); [done|done|]. intros e He. specialize (Hm' e He). lia.
  - pose proof (kv_Branch_cons n l v Hw Hc) as (k1 & v1 & e2 & rest & E & e & He & Hcp).
    pose proof (kv_sorted (Branch l v)) as Hs. rewrite E in Hs. pose proof (map_ok_cons k1 v1 _ e Hs He) as Hlt.
    pose proof Hw as Hw0. apply wf_Branch in Hw as (H1 & H2 & H3 & Hw). apply canon_Branch in Hc as [_ Hc]. apply wf_Branch.
    assert (1 <= m)%nat.
    { specialize (Hm e ltac:(rewrite E; by right)). destruct (fst e); [by destruct k1|cbn in Hm; lia]. }
    split_and!; [done..|]. apply Forall_lookup. intros i t Ht.
    apply (Forall_lookup_1 _ _ _ _ IH Ht (n - 1)%nat); [by eapply Forall_lookup_1 in Hw|by eapply Forall_lookup_1 in Hc|].
    intros e' He'. specialize (Hm (pfx [Z.of_nat i] e')). change (List.length (fst (pfx [Z.of_nat i] e'))) with (S (List.length (fst e'))) in Hm. apply le_S_n.
    replace (S (m - 1)) with m by lia. apply Hm. rewrite kv_Branch, elem_of_app. right. apply kvs_elem. by exists i, t, e'.
Qed.

(** ** A map and the tree that holds it *)

Record sim (t : tree) (m : BytesMap) : Prop := {
  sim_ok : map_ok m;
  sim_entry q v : nibs_ok q -> ((v <> [] /\ tget t q = v) <-> exists k, q = asNibbles k /\ (k, v) ∈ m);
  sim_bytes k v : (k, v) ∈ m -> bytes_ok k;
}.

Lemma sim_kv n t m : wf n t -> canon t -> sim t m -> hexMap_of m = kv t.
Proof.
  intros Hw Hc [Hm He Hb]. destruct (hexMap_of_spec m Hm) as [Hs Hin]. apply sorted_ext; [done|apply kv_sorted|].
  intros [k v]. rewrite Hin, (kv_elem n) by done. split.
  - intros (k0 & -> & H0). pose proof (asNibbles_range _ (Hb _ _ H0)). split; [done|]. apply He; [done|]. by exists k0.
  - intros (H1 & H2). by apply He.
Qed.

(** The direct computation yields the root hash of the tree. *)
Lemma hash256_sim n t m : depth_ok n -> wf n t -> canon t -> sim t m -> hash256 m = Ok (sha3 (enc t)).
Proof.
  intros Hn Hw Hc Hs. pose proof (sim_kv n t m Hw Hc Hs) as Ek. unfold hash256, rlp256. destruct m as [|e m].
  - symmetry in Ek. apply (kv_empty n) in Ek; [|done|done]. subst t. done.
  - set (M := e :: m) in *. rewrite Ek.
    assert (wf (longest (kv t)) t) as Hw' by (apply (wf_tight t n); [done|done|]; intros; by apply longest_le).
    assert (depth_ok (longest (kv t))) as Hd.
    { unfold depth_ok in *. enough (longest (kv t) <= n)%nat by lia. pose proof (fun e He => proj2 (kv_keys n t e Hw Hc He)) as Hl.
      clear -Hl. induction (kv t) as [|x l IH]; cbn [longest foldr]; [lia|]; fold (longest l). pose proof (Hl x ltac:(by left)).
      specialize (IH (fun e He => Hl e ltac:(by right))). lia. }
    pose proof (hash256rlp_kv t (S (longest (kv t))) (longest (kv t)) [] Hd ltac:(constructor) Hw' Hc ltac:(lia)) as Hh.
    unfold hashes in Hh. rewrite map_pfx_nil in Hh. cbn [List.length] in Hh. change (Z.of_nat 0) with 0 in Hh. rewrite Hh. done.
Qed.

Lemma sim_find t m k : sim t m -> bytes_ok k -> tget t (asNibbles k) = default [] (bm_find k m).
Proof.
  intros [Hm He Hb] Hk. pose proof (asNibbles_range k Hk) as Hr. destruct (bm_find k m) as [v|] eqn:E; cbn.
  - apply bm_find_elem in E; [|done]. apply (He (asNibbles k) v Hr). by exists k.
  - destruct (tget t (asNibbles k)) as [|x v] eqn:Et; [done|]. exfalso.
    destruct (proj1 (He _ (x :: v) Hr) ltac:(split; [discriminate|exact Et])) as (k' & E'%asNibbles_inj & Hin). subst k'.
    apply (bm_find_elem k m) in Hin; [congruence|done].
Qed.

Lemma sim_Null : sim Null [].
Proof.
  split; [constructor| |by intros ? ? ?%elem_of_nil]. intros q v _. cbn. split; [by intros [H <-]|]. by intros (? & _ & ?%elem_of_nil).
Qed.

Lemma sim_tins n t m k v :
  sim t m -> wf n t -> bytes_ok k -> v <> [] -> sim (tins t (asNibbles k) v) (bm_insert k v m).
Proof.
  intros [Hm He Hb] Hw Hk Hv. pose proof (asNibbles_range k Hk) as Hr. split.
  - by apply bm_insert_sorted.
  - intros q u Hq. rewrite (tget_tins n) by done. destruct (decide (q = asNibbles k)) as [->|Hne].
    + split.
      * intros [_ <-]. exists k. split; [done|]. apply bm_insert_elem; [done|by left].
      * intros (k' & E%asNibbles_inj & Hin). subst k'. apply bm_insert_elem in Hin as [[= ->]|[? _]]; done.
    + rewrite He by done. split; intros (k' & -> & Hin); exists k'; (split; [done|]).
      * apply bm_insert_elem; [done|]. right. split; [cbn; congruence|done].
      * apply bm_insert_elem in Hin as [[= -> ->]|[_ ?]]; done.
  - intros k' u Hin. apply bm_insert_elem in Hin as [[= -> _]|[_ Hin]]; [done|eauto|done].
Qed.

Lemma sim_tdel t t' m k :
  sim t m -> bytes_ok k ->
  (forall q, nibs_ok q -> tget t' q = if decide (q = asNibbles k) then [] else tget t q) ->
  sim t' (bm_erase k m).
Proof.
  intros [Hm He Hb] Hk Ht. split.
  - by apply bm_erase_sorted.
  - intros q u Hq. rewrite Ht by done. destruct (decide (q = asNibbles k)) as [->|Hne].
    + split; [by intros [H <-]|]. intros (k' & E%asNibbles_inj & Hin). subst k'. apply bm_erase_elem in Hin as [? _]. done.
    + rewrite He by done. split; intros (k' & -> & Hin); exists k'; (split; [done|]).
      * apply bm_erase_elem. split; [cbn; congruence|done].
      * by apply bm_erase_elem in Hin as [_ ?].
  - intros k' u [_ Hin]%bm_erase_elem. eauto.
Qed.

(** Erasing an absent key. *)
Lemma sim_absent t m k : sim t m -> bytes_ok k -> tget t (asNibbles k) = [] -> sim t (bm_erase k m).
Proof.
  intros Hs Hk Ht. apply (sim_tdel t); [done|done|]. intros q Hq. by destruct (decide (q = asNibbles k)) as [->|].
Qed.

End TrieHash.
