(* ===== verification/TrieCommit.v ===== *)
(** * TrieCommit: a root determines the trie

    Two trees with the same root hash are equal, and so are the maps they hold,
    provided that no two different nodes of theirs have the same hash. *)

From stdpp Require Import base list numbers option.
From Stdlib Require Import ZArith Lia.
From S2P Require Import Prelude Bytes Rlp RlpStream RlpFields Keccak MemoryDB TrieCommon TrieDB TrieSpec TrieRefine TrieHash.
Import CommonData RLP RLPStream Keccak TrieCommon TrieSpec TrieRefine TrieHash.

Module TrieCommit.

#[local] Opaque sha3.

(** No two different strings of [l] have the same hash. *)
Definition collision_free (l : list bytes) : bool :=
  let h := map (fun x => (x, sha3 x)) l in
  forallb (fun a => forallb (fun b => bool_decide (fst a = fst b) || negb (bool_decide (snd a = snd b))) h) h.

Lemma collision_free_inj l x y :
  collision_free l = true -> x ∈ l -> y ∈ l -> sha3 x = sha3 y -> x = y.
Proof.
  unfold collision_free. rewrite forallb_forall. intros H Hx Hy E.
  specialize (H (x, sha3 x)). rewrite forallb_forall in H.
  assert (forall z, z ∈ l -> In (z, sha3 z) (map (fun x => (x, sha3 x)) l)) as Hin.
  { intros z Hz. apply in_map_iff. exists z. split; [done|]. by apply list_elem_of_In. }
  specialize (H (Hin x Hx) (y, sha3 y) (Hin y Hy)). cbn [fst snd] in H. rewrite E, (bool_decide_true (sha3 y = sha3 y)) in H by done.
  rewrite orb_false_r in H. by apply bool_decide_eq_true in H.
Qed.

(** ** Nodes *)

Lemma hp_inj leaf leaf' k k' :
  nibs_ok k -> nibs_ok k' -> zlen k < 2 ^ 28 -> zlen k' < 2 ^ 28 -> hp leaf k = hp leaf' k' -> leaf = leaf' /\ k = k'.
Proof.
  intros Hk Hk' Hl Hl' E. destruct (hp_leaf_flag leaf k Hk) as (b & r & Eb & Hb), (hp_leaf_flag leaf' k' Hk') as (b' & r' & Eb' & Hb').
  assert (leaf = leaf') as <- by congruence. split; [done|].
  destruct (keyOf_hp leaf k Hk ltac:(lia)) as [_ <-], (keyOf_hp leaf k' Hk' ltac:(lia)) as [_ <-]. by rewrite E.
Qed.

Section Commit.
Context (U : bytes -> Prop).
Hypothesis HU : forall x y, U x -> U y -> sha3 x = sha3 y -> x = y.

Lemma item_Str t x : item t = Str x -> t = Null /\ x = [].
Proof. by destruct t; cbn; [intros [= <-]|..]. Qed.

(** The references determine the children if the items do. *)
Lemma ref_inj n n' t t' :
  depth_ok n -> depth_ok n' -> wf n t -> wf n' t' -> Forall U (below t) -> Forall U (below t') ->
  (item t = item t' -> t = t') -> ref_of (item t) = ref_of (item t') -> t = t'.
Proof.
  intros Hn Hn' Hw Hw' HF HF' IH E. apply Forall_app in HF as [Hh _], HF' as [Hh' _].
  unfold hnode, enc in Hh, Hh'. unfold ref_of in E.
  destruct (sha3_small (encode (item t))) as [_ Hs], (sha3_small (encode (item t'))) as [_ Hs'].
  destruct (zlen (encode (item t)) <? 32), (zlen (encode (item t')) <? 32).
  - by apply IH.
  - apply item_Str in E as [_ E]. rewrite E in Hs'. done.
  - symmetry in E. apply item_Str in E as [_ E]. rewrite E in Hs. done.
  - inversion Hh; subst. inversion Hh'; subst. injection E as E. apply HU in E; [|done|done]. apply IH.
    apply encode_inj; [by apply small_encodable, (item_small n)|by apply small_encodable, (item_small n')|done].
Qed.

Lemma nodes_Branch l v t : Forall U (nodes (Branch l v)) -> t ∈ l -> Forall U (below t).
Proof.
  cbn [nodes]. rewrite !List.Forall_forall. intros H Ht x Hx. apply H, in_flat_map. exists t. split; [by apply list_elem_of_In|done].
Qed.

Lemma item_inj t : forall n n' t',
  depth_ok n -> depth_ok n' -> wf n t -> wf n' t' -> Forall U (nodes t) -> Forall U (nodes t') ->
  item t = item t' -> t = t'.
Proof.
  induction t as [|k v|k t IH|l v IH] using tree_rect'; intros n n' t' Hn Hn' Hw Hw' HF HF' E;
    destruct t' as [|k' v'|k' t'|l' v']; cbn [item] in E; try done.
  - injection E as E ->. destruct Hw as (Hk & Hl & _), Hw' as (Hk' & Hl' & _). unfold depth_ok in *.
    apply hp_inj in E as [_ ->]; (done || lia).
  - exfalso. injection E as E _. destruct Hw as (Hk & Hl & _), Hw' as (_ & Hk' & Hl' & _). unfold depth_ok in *.
    apply hp_inj in E as [? _]; (done || lia).
  - apply wf_Branch in Hw' as (_ & H16 & _). injection E as E. apply (f_equal List.length) in E.
    rewrite length_app, length_map, H16 in E. done.
  - exfalso. injection E as E _. destruct Hw as (_ & Hk & Hl & _), Hw' as (Hk' & Hl' & _). unfold depth_ok in *.
    apply hp_inj in E as [? _]; (done || lia).
  - injection E as E1 E2. destruct Hw as (_ & Hk & Hl & _ & Hw), Hw' as (_ & Hk' & Hl' & _ & Hw'). unfold depth_ok in *.
    apply hp_inj in E1 as [_ ->]; [|done|done|lia|lia]. f_equal.
    apply (ref_inj (n - List.length k') (n' - List.length k')); unfold depth_ok; try done; try lia.
    apply Forall_app in HF as [_ HF], HF' as [_ HF']. apply (IH (n - List.length k')%nat (n' - List.length k')%nat); unfold depth_ok; (done || lia).
  - apply wf_Branch in Hw' as (_ & H16 & _). injection E as E. apply (f_equal List.length) in E.
    rewrite length_app, length_map, H16 in E. done.
  - apply wf_Branch in Hw as (_ & H16 & _). injection E as E. apply (f_equal List.length) in E.
    rewrite length_app, length_map, H16 in E. done.
  - apply wf_Branch in Hw as (_ & H16 & _). injection E as E. apply (f_equal List.length) in E.
    rewrite length_app, length_map, H16 in E. done.
  - injection E as E. apply app_inj_2 in E as [E [= ->]]; [|done]. f_equal.
    pose proof Hw as (H1 & H16 & _ & Hc)%wf_Branch. pose proof Hw' as (H1' & H16' & _ & Hc')%wf_Branch.
    apply list_eq_same_length with 16%nat; [done|done|]. intros i t t' _ Ht Ht'. rewrite Forall_lookup in IH, Hc, Hc'.
    assert (Hr : ref_of (item t) = ref_of (item t')).
    { apply (f_equal (lookup i)) in E. rewrite !list_lookup_fmap, Ht, Ht' in E. by injection E. }
    pose proof (nodes_Branch l v' t HF (list_elem_of_lookup_2 _ _ _ Ht)) as HB.
    pose proof (nodes_Branch l' v' t' HF' (list_elem_of_lookup_2 _ _ _ Ht')) as HB'. unfold depth_ok in *.
    apply (ref_inj (n - 1) (n' - 1)); unfold depth_ok; try done; try lia; try (by eapply Hc); try (by eapply Hc').
    apply Forall_app in HB as [_ HB], HB' as [_ HB'].
    apply (IH i t Ht (n - 1)%nat (n' - 1)%nat); unfold depth_ok; (done || lia || by eapply Hc || by eapply Hc').
Qed.

(** Equal root hashes, equal trees. *)
Lemma root_inj n n' t t' :
  depth_ok n -> depth_ok n' -> wf n t -> wf n' t' -> Forall U (enc t :: nodes t) -> Forall U (enc t' :: nodes t') ->
  sha3 (enc t) = sha3 (enc t') -> t = t'.
Proof.
  intros Hn Hn' Hw Hw' HF HF' E. inversion HF; subst. inversion HF'; subst. apply HU in E; [|done|done].
  apply (item_inj t n n'); try done.
  apply encode_inj; [by apply small_encodable, (item_small n)|by apply small_encodable, (item_small n')|done].
Qed.

End Commit.

End TrieCommit.
