(* ===== verification/TrieProps.v ===== *)
(** * TrieProps: the tries as maps

    Sequences of [insert] and [remove] on a [GenericTrieDB], over any store that
    satisfies the laws of [NodeDB]:
    - every operation returns, [at] reads the map that the operations build, and
      the root is the one that [hash256] computes directly from that map;
    - roots of earlier states stay readable;
    - what [remove] does with keys of different lengths.

    The hypotheses bound the lengths of keys and values, and exclude that two
    different nodes that are written have the same hash ([collision_free]). *)

From stdpp Require Import base list numbers option sorting gmap.
From Stdlib Require Import ZArith Lia.
From S2P Require Import Prelude.
From S2P Require Import Bytes.
From S2P Require Import Rlp.
From S2P Require Import RlpStream RlpFields.
From S2P Require Import Keccak.
From S2P Require Import MemoryDB.
From S2P Require Import TrieCommon.
From S2P Require Import TrieDB.
From S2P Require Import TrieSpec.
From S2P Require Import TrieRefine.
From S2P Require Import TrieHash TrieCommit.
Import VectorRef CommonData RLP RLPStream Keccak TrieCommon TrieDB TrieSpec TrieRefine TrieHash TrieCommit.

Module TrieProps.

#[local] Opaque sha3.

(** ** Scripts *)

Inductive op := Ins (k v : bytes) | Rem (k : bytes).

Definition op_prog (r : bytes) (o : op) : prog bytes :=
  match o with Ins k v => insert_prog r k v | Rem k => remove_prog r k end.

(** The map a script builds. *)
Definition apply (m : BytesMap) (o : op) : BytesMap :=
  match o with Ins k v => bm_insert k v m | Rem k => bm_erase k m end.
Definition contents (ops : list op) : BytesMap := fold_left apply ops [].

Section Scripts.
Context {DB : Type} {ND : NodeDB DB}.

Definition step (t : GenericTrieDB DB) (o : op) : result trie_exn unit * GenericTrieDB DB :=
  match o with Ins k v => insert t k v | Rem k => remove t k end.

Fixpoint exec (t : GenericTrieDB DB) (ops : list op) : result trie_exn unit * GenericTrieDB DB :=
  match ops with
  | [] => (Ok tt, t)
  | o :: ops' =>
      match step t o with
      | (Ok _, t') => exec t' ops'
      | r => r
      end
  end.

(** The nodes written on the way. *)
Fixpoint written (t : GenericTrieDB DB) (ops : list op) : list bytes :=
  match ops with
  | [] => []
  | o :: ops' =>
      writes (op_prog (m_root t) o) (m_db t) ++
      match step t o with
      | (Ok _, t') => written t' ops'
      | _ => []
      end
  end.

(** A trie initialised on the store [d]. *)
Definition new (d : DB) : GenericTrieDB DB := snd (init {| m_root := EmptyTrie; m_db := d |}).

End Scripts.

(** The operations a script may use: either all keys have [n] bytes ([uni]), or
    keys have at most [n] bytes and nothing is removed. *)
Definition op_ok (uni : bool) (n : nat) (o : op) : Prop :=
  match o with
  | Ins k v =>
      bytes_ok k /\ (if uni then List.length k = n else (List.length k <= n)%nat) /\ val_ok v /\ v <> []
  | Rem k => uni = true /\ bytes_ok k /\ List.length k = n
  end.

(** Reading writes nothing. *)
Fixpoint readonly {A} (p : prog A) : Prop :=
  match p with
  | Ret _ | Raise _ => True
  | Lookup _ f => forall b, readonly (f b)
  | Exists _ f => forall b, readonly (f b)
  | Insert _ _ _ | Kill _ _ => False
  end.

Lemma readonly_bind {A B} (p : prog A) (f : A -> prog B) :
  readonly p -> (forall a, readonly (f a)) -> readonly (pbind p f).
Proof. induction p; cbn; intros Hp Hf; auto. Qed.
Lemma readonly_lift {A B} (m : result exn A) (f : A -> prog B) :
  (forall a, readonly (f a)) -> readonly (pbind (lift m) f).
Proof. intros Hf. apply readonly_bind; [by destruct m|done]. Qed.
Lemma readonly_writes {DB} `{NodeDB DB} {A} (p : prog A) (d : DB) : readonly p -> writes p d = [] /\ snd (run p d) = d.
Proof. revert d. induction p; intros d Hp; cbn in *; auto; done. Qed.

Create HintDb readonly.
#[local] Hint Resolve readonly_bind readonly_lift : readonly.
Lemma readonly_ret {A} (a : A) : readonly (Ret a).
Proof. done. Qed.
Lemma readonly_node h : readonly (node h).
Proof. done. Qed.
Lemma readonly_RLP_of s : readonly (RLP_of s).
Proof. unfold RLP_of. by destruct (make _ _). Qed.
Lemma readonly_check b : readonly (check b).
Proof. by destruct b. Qed.
Lemma readonly_lifted {A} (m : result exn A) : readonly (lift m).
Proof. by destruct m. Qed.
#[local] Hint Resolve readonly_ret readonly_node readonly_RLP_of readonly_check readonly_lifted : readonly.
Lemma readonly_child n : readonly (child n).
Proof. unfold child. destruct (isList n); eauto with readonly. Qed.
Lemma readonly_nodeItems n : readonly (nodeItems n).
Proof. unfold nodeItems. eauto with readonly. Qed.
#[local] Hint Resolve readonly_child readonly_nodeItems : readonly.
#[local] Hint Extern 2 (readonly (if ?c then _ else _)) => destruct c : readonly.
Lemma readonly_atAux fuel : forall here key, readonly (atAux fuel here key).
Proof. induction fuel as [|fuel IH]; intros here key; cbn [atAux]; [done|]. eauto 30 with readonly. Qed.
Lemma readonly_at r k : readonly (at_prog r k).
Proof. unfold at_prog. pose proof readonly_atAux. eauto with readonly. Qed.

(** ** The programs *)
Section Programs.
Context {DB : Type} {ND : NodeDB DB} {NL : NodeDBLaws DB}.
Context (U : bytes -> Prop) (U_inj : forall x y, U x -> U y -> sha3 x = sha3 y -> x = y).

(** The root [r] of the store [d] holds the tree [t]. *)
Definition at_root (d : DB) (r : bytes) (t : tree) : Prop :=
  r = sha3 (enc t) /\ stored U d (enc t) /\ rep U d t.

Lemma at_root_keeps d d' r t : keeps U d d' -> at_root d r t -> at_root d' r t.
Proof. intros Hk (-> & Hs & Hr). split_and!; [done|by apply Hk|by eapply keeps_Forall]. Qed.

Lemma at_root_lookup d r t : at_root d r t -> db_lookup d r = enc t /\ enc t <> [].
Proof. intros (-> & (_ & Hn & Hl) & _). done. Qed.

Lemma key_slice k n : depth_ok (2 * n) -> bytes_ok k -> (List.length k <= n)%nat ->
  slice_ok (slice k 0) /\ nibs (slice k 0) = asNibbles k /\ nibs_ok (asNibbles k) /\
  List.length (asNibbles k) = (2 * List.length k)%nat.
Proof.
  intros Hn Hk Hl. unfold depth_ok in Hn. destruct (slice_0 k Hk ltac:(lia)) as [H1 H2]. pose proof (asNibbles_length k).
  split_and!; [done|done|by apply asNibbles_range|lia].
Qed.

Lemma at_prog_spec n d r t k m :
  depth_ok n -> wf n t -> at_root d r t -> bytes_ok k -> depth_ok (2 * m) -> (List.length k <= m)%nat ->
  spec U (at_prog r k) d (fun b d' => b = tget t (asNibbles k) /\ d' = d).
Proof.
  intros Hn Hw Hr Hk Hm Hl. destruct (key_slice k m Hm Hk Hl) as (Hs & Hnib & _ & Hlen).
  destruct (at_root_lookup _ _ _ Hr) as [Hlk _]. unfold at_prog. apply spec_bind, spec_node. intros _.
  rewrite Hlk, (enc_RLP_of n) by done. cbn [pbind]. rewrite <- Hnib.
  apply (atAux_spec U (op_fuel k) n); [done|done|done| |by apply Hr]. rewrite Hnib, Hlen. unfold op_fuel. lia.
Qed.

(** The end of [insert] and [remove]: the new root node is put in. *)
Lemma new_root_spec (c : bool) r t' n d :
  depth_ok n -> wf n t' -> rep U d t' ->
  spec U (do% (if c then forceKillNode r else Ret tt) in forceInsertNode (enc t')) d (fun r' d' => at_root d' r' t').
Proof.
  intros Hn Hw Hr. apply spec_bind.
  assert (forall d', keeps U d d' -> spec U (forceInsertNode (enc t')) d' (fun r' d' => at_root d' r' t')) as Hi.
  { intros d' Hk. assert (rep U d' t') as Hr' by (by eapply keeps_Forall).
    eapply spec_consequence; [apply (spec_insert U U_inj (enc t') d' (fun r' d2 => r' = sha3 (enc t') /\ stored U d2 (enc t')))|].
    - by apply (item_nonempty n).
    - done.
    - intros a d2 Hk2 [-> Hs]. split_and!; [done|done|by eapply keeps_Forall]. }
  destruct c; [apply spec_kill|apply spec_ret]; auto.
Qed.

Lemma insert_prog_spec n d r t k v :
  depth_ok (2 * n) -> wf (2 * n) t -> at_root d r t -> bytes_ok k -> (List.length k <= n)%nat -> val_ok v ->
  spec U (insert_prog r k v) d (fun r' d' => at_root d' r' (tins t (asNibbles k) v)).
Proof.
  intros Hn Hw Hr Hk Hl Hv. destruct (key_slice k n Hn Hk Hl) as (Hs & Hnib & Hno & Hlen).
  destruct (at_root_lookup _ _ _ Hr) as [Hlk Hne]. unfold insert_prog. apply spec_bind, spec_node. intros _. rewrite Hlk.
  destruct (Z.eqb_spec (zlen (enc t)) 0); [by destruct (enc t)|]. cbn [negb check pbind].
  rewrite (enc_RLP_of (2 * n)) by done. cbn [pbind]. apply spec_bind.
  eapply spec_consequence; [eapply (mergeAt_spec U U_inj (op_fuel k) (2 * n)%nat); try done|].
  - rewrite Hnib, Hlen. lia.
  - by apply Hr.
  - rewrite Hnib. pose proof (need_le t (asNibbles k)). rewrite Hlen in *. unfold op_fuel. lia.
  - rewrite Hnib. intros b d' _ [-> Hrep] _. apply (new_root_spec _ _ _ (2 * n)); [done| |done].
    apply wf_tins; [done|done|lia|done].
Qed.

Lemma remove_prog_spec n d r t k :
  depth_ok (2 * n) -> wf (2 * n) t -> canon t -> uniform (2 * n) t -> at_root d r t ->
  bytes_ok k -> List.length k = n ->
  spec U (remove_prog r k) d (fun r' d' => at_root d' r' (default t (tdel t (asNibbles k)))).
Proof.
  intros Hn Hw Hc Hu Hr Hk Hl. destruct (key_slice k n Hn Hk ltac:(lia)) as (Hs & Hnib & Hno & Hlen).
  destruct (at_root_lookup _ _ _ Hr) as [Hlk Hne]. unfold remove_prog. apply spec_bind, spec_node. intros _.
  rewrite Hlk, (enc_RLP_of (2 * n)) by done. cbn [pbind]. apply spec_bind.
  pose proof (tdel_spec (2 * n) t (asNibbles k) Hw Hc Hu Hno ltac:(lia)) as Hd.
  eapply spec_consequence; [eapply (deleteAt_spec U U_inj (op_fuel k) (2 * n)%nat); try done|].
  - rewrite Hnib, Hlen. lia.
  - by apply Hr.
  - unfold op_fuel. lia.
  - rewrite Hnib. intros b d' Hkp Hb _. destruct (tdel t (asNibbles k)) as [t'|]; cbn [default from_option id].
    + destruct Hb as [-> Hrep], Hd as (_ & _ & Hw' & _). pose proof (item_nonempty (2 * n) t' Hn Hw') as Hne'.
      destruct (enc t') eqn:E; [done|]. rewrite <- E. by apply (new_root_spec _ _ _ (2 * n)).
    + subst b. apply spec_ret. by eapply at_root_keeps.
Qed.

Lemma init_spec d :
  spec U (let% r := init_prog in setRoot_prog r) d (fun r d' => at_root d' r Null).
Proof.
  apply spec_bind. apply (spec_insert U U_inj RLPNull); [done|]. intros d' Hs _ Hd Hw. unfold setRoot_prog in *.
  rewrite bool_decide_true in * by done. destruct Hs as (HU & Hne & Hl). cbn [pbind run writes] in *.
  rewrite (db_exists_lookup d' (sha3 RLPNull)) in * by (done || by rewrite Hl). cbn [pbind run writes node] in *.
  exists (sha3 RLPNull), d'. change (enc Null) with RLPNull. rewrite Hl. split_and!; [done|done|apply keeps_refl|]. by repeat constructor.
Qed.

(** ** States *)

(** The trie [t] holds the map [m], as the tree [tr]. *)
Record holds (uni : bool) (n : nat) (t : GenericTrieDB DB) (tr : tree) (m : BytesMap) : Prop := {
  holds_db : db_ok (m_db t);
  holds_root : at_root (m_db t) (m_root t) tr;
  holds_wf : wf (2 * n) tr;
  holds_canon : canon tr;
  holds_uniform : uni = true -> uniform (2 * n) tr;
  holds_sim : sim tr m;
}.

Lemma update_spec (t : GenericTrieDB DB) p (Q : bytes -> DB -> Prop) :
  spec U p (m_db t) Q -> db_ok (m_db t) -> Forall U (writes p (m_db t)) ->
  exists t', update t p = (Ok tt, t') /\ db_ok (m_db t') /\ keeps U (m_db t) (m_db t') /\ Q (m_root t') (m_db t').
Proof.
  intros Hp Hd Hw. destruct (Hp Hd Hw) as (r & d' & E & H1 & H2 & H3). unfold update. rewrite E. eexists. split; [reflexivity|]. done.
Qed.

Lemma new_holds uni n d : db_ok d -> U RLPNull -> holds uni n (new d) Null [].
Proof.
  intros Hd HU. unfold new, init.
  destruct (update_spec {| m_root := EmptyTrie; m_db := d |} _ _ (init_spec d) Hd) as (t' & -> & H1 & H2 & H3).
  - cbn [init_prog forceInsertNode pbind writes m_db]. constructor; [done|]. unfold setRoot_prog. rewrite bool_decide_true by done.
    cbn [pbind writes]. destruct (db_exists _ _); cbn; repeat (done || constructor || case_match).
  - split; [done|done|done|done|done|apply sim_Null].
Qed.

Lemma step_holds uni n t tr m o :
  depth_ok (2 * n) -> holds uni n t tr m -> op_ok uni n o -> Forall U (writes (op_prog (m_root t) o) (m_db t)) ->
  exists t' tr', step t o = (Ok tt, t') /\ holds uni n t' tr' (apply m o) /\ keeps U (m_db t) (m_db t').
Proof.
  intros Hn [Hd Hr Hw Hc Hu Hs] Ho HU. destruct o as [k v|k]; cbn [op_ok op_prog step apply] in *.
  - destruct Ho as (Hk & Hl & Hv & Hv0). assert (List.length k <= n)%nat as Hl' by (destruct uni; lia).
    destruct (key_slice k n Hn Hk Hl') as (_ & _ & Hno & Hlen).
    destruct (update_spec t _ _ (insert_prog_spec n _ _ tr k v Hn Hw Hr Hk Hl' Hv) Hd HU) as (t' & E & H1 & H2 & H3).
    exists t', (tins tr (asNibbles k) v). split; [done|]. split; [|done]. split; [done|done| | | |].
    + apply wf_tins; [done|done|lia|done].
    + apply (canon_tins (2 * n)); [done|done|done|lia|done].
    + intros ->. apply uniform_tins; [done|auto|done|lia].
    + by apply (sim_tins (2 * n)).
  - destruct Ho as (-> & Hk & Hl). destruct (key_slice k n Hn Hk ltac:(lia)) as (_ & _ & Hno & Hlen).
    destruct (update_spec t _ _ (remove_prog_spec n _ _ tr k Hn Hw Hc (Hu eq_refl) Hr Hk Hl) Hd HU) as (t' & E & H1 & H2 & H3).
    pose proof (tdel_spec (2 * n) tr (asNibbles k) Hw Hc (Hu eq_refl) Hno ltac:(lia)) as Hdel.
    exists t', (default tr (tdel tr (asNibbles k))). split; [done|]. split; [|done].
    destruct (tdel tr (asNibbles k)) as [tr'|]; cbn [default from_option id] in *.
    + destruct Hdel as (_ & Hg & ? & ? & ? & _). split; [done..|]. by apply (sim_tdel tr).
    + split; [done..|]. by apply sim_absent.
Qed.

Lemma exec_holds uni n ops : forall t tr m,
  depth_ok (2 * n) -> holds uni n t tr m -> Forall (op_ok uni n) ops -> Forall U (written t ops) ->
  exists t' tr', exec t ops = (Ok tt, t') /\ holds uni n t' tr' (fold_left apply ops m) /\ keeps U (m_db t) (m_db t').
Proof.
  induction ops as [|o ops IH]; intros t tr m Hn Ht Ho HU; cbn [exec written fold_left] in *.
  - exists t, tr. split_and!; [done|done|apply keeps_refl].
  - apply Forall_cons_iff in Ho as [Ho Hos]. apply Forall_app in HU as [HU1 HU2].
    destruct (step_holds uni n t tr m o Hn Ht Ho HU1) as (t1 & tr1 & E & H1 & Hk). rewrite E in *.
    destruct (IH t1 tr1 _ Hn H1 Hos HU2) as (t' & tr' & E' & H2 & Hk'). exists t', tr'. split_and!; [done|done|].
    by eapply keeps_trans.
Qed.

Lemma holds_at uni n t tr m k :
  depth_ok (2 * n) -> holds uni n t tr m -> bytes_ok k -> depth_ok (2 * List.length k) ->
  at_ t k = Ok (default [] (bm_find k m)).
Proof.
  intros Hn [Hd Hr Hw Hc Hu Hs] Hk Hl. unfold at_.
  destruct (at_prog_spec (2 * n) _ _ tr k _ Hn Hw Hr Hk Hl ltac:(lia) Hd) as (b & d' & E & _ & _ & -> & _).
  - destruct (readonly_writes _ (m_db t) (readonly_at (m_root t) k)) as [-> _]. constructor.
  - rewrite E. cbn. by rewrite (sim_find tr m).
Qed.

Lemma holds_hash uni n t tr m : depth_ok (2 * n) -> holds uni n t tr m -> hash256 m = Ok (m_root t).
Proof. intros Hn [Hd Hr Hw Hc Hu Hs]. rewrite (hash256_sim (2 * n) tr m) by done. by destruct Hr as (<- & _). Qed.

Lemma holds_root_ok uni n t tr m : holds uni n t tr m -> root t = Ok (m_root t).
Proof.
  intros [Hd Hr Hw Hc Hu Hs]. destruct (at_root_lookup _ _ _ Hr) as [Hl Hne]. unfold root, isNull_. rewrite Hl.
  destruct (Z.eqb_spec (zlen (enc tr)) 0); [by destruct (enc tr)|done].
Qed.

End Programs.

(** ** The theorems *)
Section Theorems.
Context {DB : Type} {ND : NodeDB DB} {NL : NodeDBLaws DB}.

Definition script_ok (uni : bool) (n : nat) (d : DB) (ops : list op) : Prop :=
  db_ok d /\ Z.of_nat (2 * n) < 2 ^ 28 /\ Forall (op_ok uni n) ops /\
  collision_free (RLPNull :: written (new d) ops) = true.

Lemma script_holds uni n d ops :
  script_ok uni n d ops ->
  exists t' tr, exec (new d) ops = (Ok tt, t') /\
    holds (fun x => x ∈ RLPNull :: written (new d) ops) uni n t' tr (contents ops).
Proof.
  intros (Hd & Hn & Ho & Hc). set (W := RLPNull :: written (new d) ops) in *.
  assert (forall x y, x ∈ W -> y ∈ W -> sha3 x = sha3 y -> x = y) as Hi by (intros; by apply (collision_free_inj W)).
  pose proof (new_holds (fun x => x ∈ W) Hi uni n d Hd ltac:(by left)) as H0.
  destruct (exec_holds (fun x => x ∈ W) Hi uni n ops (new d) Null [] Hn H0 Ho) as (t' & tr & E & Ht & _).
  - apply List.Forall_forall. intros x Hx%list_elem_of_In. by right.
  - by exists t', tr.
Qed.

(** C6: A trie over any lawful store implements a map.  After any sequence of
    inserts and removes of keys of one length, or of inserts of keys of any
    lengths, no operation fails, and [at] returns for every key, present or not,
    what the map the operations build holds. *)
Theorem trie_reads uni n d ops :
  script_ok uni n d ops ->
  exists t', exec (new d) ops = (Ok tt, t') /\
    forall k, bytes_ok k -> 2 * zlen k < 2 ^ 28 ->
      at_ t' k = Ok (default [] (bm_find k (contents ops))) /\
      contains t' k = Ok (negb (zlen (default [] (bm_find k (contents ops))) =? 0)).
Proof.
  intros H. destruct (script_holds uni n d ops H) as (t' & tr & E & Ht). destruct H as (_ & Hn & _). exists t'. split; [done|].
  intros k Hk Hl. unfold contains. rewrite (holds_at _ uni n t' tr (contents ops)) by (done || unfold depth_ok; lia). done.
Qed.

(** C7: The root of the trie is the root that [hash256] computes from the
    contents of the map alone: it does not depend on the order of the operations,
    on values that were overwritten or on keys that were removed. *)
Theorem trie_root_hash256 uni n d ops :
  script_ok uni n d ops ->
  exists t', exec (new d) ops = (Ok tt, t') /\ root t' = Ok (m_root t') /\ hash256 (contents ops) = Ok (m_root t').
Proof.
  intros H. destruct (script_holds uni n d ops H) as (t' & tr & E & Ht). destruct H as (_ & Hn & _). exists t'.
  split_and!; [done|by eapply holds_root_ok|by eapply holds_hash].
Qed.

Lemma exec_app t ops ops' :
  exec t (ops ++ ops') = match exec t ops with (Ok _, t') => exec t' ops' | r => r end.
Proof.
  revert t. induction ops as [|o ops IH]; intros t; cbn; [done|]. destruct (step t o) as [[]]; [apply IH|done].
Qed.
Lemma written_app t ops ops' :
  written t (ops ++ ops') = written t ops ++ match exec t ops with (Ok _, t') => written t' ops' | _ => [] end.
Proof.
  revert t. induction ops as [|o ops IH]; intros t; cbn; [done|]. destruct (step t o) as [[]]; cbn.
  - by rewrite IH, app_assoc.
  - by rewrite !app_nil_r.
Qed.

Lemma setRoot_spec U (U_inj : forall x y, U x -> U y -> sha3 x = sha3 y -> x = y) uni n t tr m (t' : GenericTrieDB DB) :
  holds U uni n t tr m -> db_ok (m_db t') -> keeps U (m_db t) (m_db t') ->
  setRoot t' (m_root t) = (Ok tt, {| m_root := m_root t; m_db := m_db t' |}) /\
  holds U uni n {| m_root := m_root t; m_db := m_db t' |} tr m.
Proof.
  intros [Hd Hr Hw Hc Hu Hs] Hd' Hk. assert (at_root U (m_db t') (m_root t) tr) as Hr' by (by eapply at_root_keeps).
  destruct (at_root_lookup _ _ _ _ Hr') as [Hl Hne]. split; [|by split].
  unfold setRoot, update, setRoot_prog. cbn [m_db m_root].
  assert ((zlen (enc tr) =? 0) = false) as Hz by (destruct (Z.eqb_spec (zlen (enc tr)) 0); [by destruct (enc tr)|done]).
  destruct (bool_decide (m_root t = EmptyTrie)); cbn [pbind run node].
  - rewrite db_exists_lookup by (done || by rewrite Hl). cbn [pbind run node]. by rewrite Hl, Hz.
  - by rewrite Hl, Hz.
Qed.

(** C8: Roots of earlier states stay readable: a trie opened at the root the
    first operations produced, on the store that the later operations left,
    opens without error and still reads the earlier map. *)
Theorem trie_persistent uni n d ops ops' :
  script_ok uni n d (ops ++ ops') ->
  exists t1 t2, exec (new d) ops = (Ok tt, t1) /\ exec t1 ops' = (Ok tt, t2) /\
    setRoot t2 (m_root t1) = (Ok tt, {| m_root := m_root t1; m_db := m_db t2 |}) /\
    forall k, bytes_ok k -> 2 * zlen k < 2 ^ 28 ->
      at_ {| m_root := m_root t1; m_db := m_db t2 |} k = Ok (default [] (bm_find k (contents ops))).
Proof.
  intros (Hd & Hn & Ho & Hc). set (W := RLPNull :: written (new d) (ops ++ ops')) in *.
  assert (forall x y, x ∈ W -> y ∈ W -> sha3 x = sha3 y -> x = y) as Hi by (intros; by apply (collision_free_inj W)).
  pose proof (new_holds (fun x => x ∈ W) Hi uni n d Hd ltac:(by left)) as H0. apply Forall_app in Ho as [Ho1 Ho2].
  assert (Forall (fun x => x ∈ W) (written (new d) (ops ++ ops'))) as HW
    by (apply List.Forall_forall; intros x Hx%list_elem_of_In; by right).
  rewrite written_app in HW. apply Forall_app in HW as [HW1 HW2].
  destruct (exec_holds (fun x => x ∈ W) Hi uni n ops (new d) Null [] Hn H0 Ho1 HW1) as (t1 & tr1 & E1 & H1 & _). rewrite E1 in HW2.
  destruct (exec_holds (fun x => x ∈ W) Hi uni n ops' t1 tr1 _ Hn H1 Ho2 HW2) as (t2 & tr2 & E2 & H2 & Hk).
  destruct (setRoot_spec (fun x => x ∈ W) Hi uni n t1 tr1 _ t2 H1 (holds_db _ _ _ _ _ _ H2) Hk) as [E3 H3].
  exists t1, t2. split_and!; [done|done|done|]. intros k Hb Hl. apply (holds_at (fun x => x ∈ W) uni n _ tr1); [done|exact H3|done|unfold depth_ok; lia].
Qed.

(** *** Removing below a leaf *)

Lemma toHash_big v :
  encodable (Str v) -> 32 < zlen v -> toHash 32 (encode (Str v)) Strict = Err BadCast.
Proof.
  intros Hv Hl. unfold toHash. rewrite requireGood_encode, encode_payload, encode_isData by done.
  cbn [result_bind content is_lst negb orb]. by destruct (Z.ltb_spec (Z.of_nat 32) (zlen v)); [|lia].
Qed.

Lemma asNibbles_app a b : asNibbles (a ++ b) = asNibbles a ++ asNibbles b.
Proof. apply flat_map_app. Qed.

Lemma remove_below_leaf U n (d : DB) r k x y v :
  depth_ok (2 * n) -> wf (2 * n) (Leaf (asNibbles k) v) -> at_root U d r (Leaf (asNibbles k) v) ->
  bytes_ok (k ++ x :: y) -> (List.length (k ++ x :: y) <= n)%nat -> 32 < zlen v ->
  run (remove_prog r (k ++ x :: y)) d = (Err (TrieDB.Rlp BadCast), d).
Proof.
  intros Hn Hw Hr Hk Hl Hv. destruct (key_slice _ n Hn Hk Hl) as (Hs & Hnib & _ & _).
  destruct (at_root_lookup _ _ _ _ Hr) as [Hlk _]. unfold remove_prog. cbn [node pbind run].
  rewrite Hlk, (enc_RLP_of (2 * n)) by done. cbn [pbind]. rewrite run_pbind. unfold op_fuel.
  replace (8 * List.length (k ++ x :: y) + 5)%nat with (S (8 * List.length (k ++ x :: y) + 4)) by lia. cbn [deleteAt].
  rewrite (enc_isEmpty (2 * n) _ Hn Hw). cbn [is_null]. pose proof (leaf_two _ _ _ Hn Hw) as Ht.
  change (enc (Leaf (asNibbles k) v)) with (encode (two true (asNibbles k) (Str v))).
  destruct (two_key true _ _ Ht) as [Hk1 Hk2]. rewrite two_nodeItems, two_keyOf, two_isLeaf, two_nth0, two_nth1 by done.
  cbn [pbind lift]. change (2 =? 2) with true. cbv iota. rewrite ns_eq_spec, ns_contains_spec, Hk2, Hnib, asNibbles_app by done.
  cbn [pbind lift]. rewrite bool_decide_false.
  2:{ intros E. apply (f_equal List.length) in E. rewrite length_app in E. change (asNibbles (x :: y)) with ([x / 16; x mod 16] ++ asNibbles y) in E. cbn in E. lia. }
  rewrite bool_decide_true by by eexists. cbn [andb]. rewrite RLPStream_list_2. cbn [pbind].
  destruct (two_fits true _ _ Ht) as [_ Hsz]. rewrite sizes_cons, sizes_cons, sizes_nil in Hsz. pose proof (sizes_nonneg [Str v]) as H0. rewrite sizes_cons, sizes_nil in H0.
  rewrite (write_item 2 [] _ (Str (hp true (asNibbles k)))); [|apply appends_rlp|cbn; lia|cbn [app]; rewrite sizes_cons, sizes_nil; lia].
  cbn [pbind]. assert (encodable (Str v)) as He by (apply small_encodable, val_small; by destruct Hw as (_ & _ & ?)).
  unfold deleteAtAux. rewrite RlpFields.isEmpty_Str, bool_decide_false by (done || by intros ->). unfold child.
  rewrite encode_isList by done. cbn [is_lst]. by rewrite toHash_big.
Qed.

(** [remove] of a key that extends a key of the trie does not return: it takes
    the leaf's value for a reference to a node.  With a single entry whose value
    is longer than a hash, the attempt to read the hash throws [BadCast]; the trie is left
    as it was. *)
Theorem remove_below_leaf_throws n d k x y v :
  script_ok false n d [Ins k v] -> bytes_ok (k ++ x :: y) -> (List.length (k ++ x :: y) <= n)%nat -> 32 < zlen v ->
  exists t, exec (new d) [Ins k v] = (Ok tt, t) /\ at_ t (k ++ x :: y) = Ok [] /\
    remove t (k ++ x :: y) = (Err (TrieDB.Rlp BadCast), t).
Proof.
  intros Hok Hk Hl Hv. destruct (script_holds false n d [Ins k v] Hok) as (t & tr & E & Ht). pose proof Ht as [Hd Hr Hw Hc _ Hs].
  destruct Hok as (_ & Hn & Ho & _). apply Forall_cons_iff in Ho as [(Hkb & Hkl & Hvo & Hv0) _]. exists t. split; [done|].
  assert (tr = Leaf (asNibbles k) v) as ->.
  { apply (kv_single (2 * n)); [done|done|]. by rewrite <- (sim_kv (2 * n) tr _ Hw Hc Hs). }
  split.
  - rewrite (holds_at _ false n t _ _ _ Hn Ht) by (done || unfold depth_ok; lia). cbn. rewrite decide_False; [done|].
    intros E'. apply (f_equal List.length) in E'. rewrite length_app in E'. cbn in E'. lia.
  - unfold remove, update. rewrite (remove_below_leaf _ n _ _ k x y v Hn Hw Hr Hk Hl Hv). by destruct t.
Qed.

End Theorems.

(** *** Witnesses *)

(** Two-byte keys, a node that is stored under its hash, and a removal that
    contracts a branch. *)
Definition sample : list op := [Ins [18; 52] (replicate 33 9); Ins [18; 86] [1]; Rem [18; 86]].

(** The nodes that are written, computed in a single run. *)
Fixpoint trace {DB} `{NodeDB DB} {A} (p : prog A) (d : DB) : result trie_exn A * DB * list bytes :=
  match p with
  | Ret a => (Ok a, d, [])
  | Raise e => (Err e, d, [])
  | Lookup h k => trace (k (db_lookup d h)) d
  | Exists h k => trace (k (db_exists d h)) d
  | Insert h v k => let '(r, d', w) := trace k (db_insert d h v) in (r, d', v :: w)
  | Kill h k => trace k (db_kill d h)
  end.
Fixpoint traced {DB} `{NodeDB DB} (t : GenericTrieDB DB) (ops : list op) : list bytes :=
  match ops with
  | [] => []
  | o :: ops' =>
      match trace (op_prog (m_root t) o) (m_db t) with
      | (Ok r, d, w) => w ++ traced {| m_root := r; m_db := d |} ops'
      | (Err _, _, w) => w
      end
  end.

Lemma trace_spec {DB} `{NodeDB DB} {A} (p : prog A) (d : DB) : trace p d = (run p d, writes p d).
Proof. revert d. induction p; intros d; cbn [trace run writes]; auto. rewrite IHp. by destruct (run _ _). Qed.

Lemma traced_written {DB} `{NodeDB DB} (t : GenericTrieDB DB) ops : written t ops = traced t ops.
Proof.
  revert t. induction ops as [|o ops IH]; intros t; cbn [written traced]; [done|]. rewrite trace_spec.
  assert (step t o = update t (op_prog (m_root t) o)) as -> by by destruct o. unfold update.
  destruct (run _ _) as [[r|e] d]; [by rewrite IH|by rewrite app_nil_r].
Qed.

Lemma sample_ok : script_ok true 2 MemoryDB.empty sample.
Proof.
  split_and!; [reflexivity|done| |rewrite traced_written; vm_compute; reflexivity]. unfold sample, op_ok, val_ok, bytes_ok.
  repeat constructor; vm_compute; congruence.
Qed.

Lemma trie_reads_witness :
  exists t', exec (new MemoryDB.empty) sample = (Ok tt, t') /\
    forall k, bytes_ok k -> 2 * zlen k < 2 ^ 28 ->
      at_ t' k = Ok (default [] (bm_find k (contents sample))) /\
      contains t' k = Ok (negb (zlen (default [] (bm_find k (contents sample))) =? 0)).
Proof. exact (trie_reads true 2 MemoryDB.empty sample sample_ok). Defined.

Lemma trie_root_hash256_witness :
  exists t', exec (new MemoryDB.empty) sample = (Ok tt, t') /\ root t' = Ok (m_root t') /\ hash256 (contents sample) = Ok (m_root t').
Proof. exact (trie_root_hash256 true 2 MemoryDB.empty sample sample_ok). Defined.

Lemma trie_persistent_witness :
  exists t1 t2, exec (new MemoryDB.empty) (take 2 sample) = (Ok tt, t1) /\ exec t1 (drop 2 sample) = (Ok tt, t2) /\
    setRoot t2 (m_root t1) = (Ok tt, {| m_root := m_root t1; m_db := m_db t2 |}) /\
    forall k, bytes_ok k -> 2 * zlen k < 2 ^ 28 ->
      at_ {| m_root := m_root t1; m_db := m_db t2 |} k = Ok (default [] (bm_find k (contents (take 2 sample)))).
Proof. exact (trie_persistent true 2 MemoryDB.empty (take 2 sample) (drop 2 sample) sample_ok). Defined.

Lemma single_ok : script_ok false 2 MemoryDB.empty [Ins [18] (replicate 33 9)].
Proof.
  split_and!; [reflexivity|done| |rewrite traced_written; vm_compute; reflexivity]. unfold op_ok, val_ok, bytes_ok.
  repeat constructor; vm_compute; congruence.
Qed.

Lemma remove_below_leaf_throws_witness :
  exists t, exec (new MemoryDB.empty) [Ins [18] (replicate 33 9)] = (Ok tt, t) /\ at_ t [18; 52] = Ok [] /\
    remove t [18; 52] = (Err (TrieDB.Rlp BadCast), t).
Proof.
  apply (remove_below_leaf_throws 2 MemoryDB.empty [18] 52 [] (replicate 33 9) single_ok); [|cbn; lia|cbn; lia].
  repeat constructor; cbn; lia.
Defined.

End TrieProps.
