(* ===== verification/Account.v ===== *)
(** * Account: the cached form of an account (libvapory/Account) *)

From stdpp Require Import base list numbers option gmap.
From Stdlib Require Import ZArith Lia.
From S2P Require Import Prelude.
From S2P Require Import Rlp.
From S2P Require Import Keccak.
From S2P Require Import TrieDB.
Import RLP Keccak TrieDB.

Module Account.

Definition EmptySHA3 : bytes := sha3 [].

Record Account := {
  m_isAlive : bool;
  m_isUnchanged : bool;
  m_hasNewCode : bool;
  m_nonce : Z;
  m_balance : Z;
  m_storageRoot : bytes;
  m_codeHash : bytes;
  m_storageOverlay : gmap Z Z;
  m_codeCache : bytes;
}.

Inductive Changedness := Changed | Unchanged.

Definition is_Unchanged (c : Changedness) : bool := match c with Unchanged => true | Changed => false end.

(** [Account()], a dead account. *)
Definition dead : Account :=
  {| m_isAlive := false; m_isUnchanged := false; m_hasNewCode := false; m_nonce := 0; m_balance := 0;
     m_storageRoot := EmptyTrie; m_codeHash := EmptySHA3; m_storageOverlay := ∅; m_codeCache := [] |}.

(** [Account(_nonce, _balance)]. *)
Definition basic (_nonce _balance : Z) : Account :=
  {| m_isAlive := true; m_isUnchanged := false; m_hasNewCode := false; m_nonce := _nonce; m_balance := _balance;
     m_storageRoot := EmptyTrie; m_codeHash := EmptySHA3; m_storageOverlay := ∅; m_codeCache := [] |}.

(** [Account(_nonce, _balance, _contractRoot, _codeHash, _c)], but for its
    assertion. *)
Definition contract (_nonce _balance : Z) (_contractRoot _codeHash : bytes) (_c : Changedness) : Account :=
  {| m_isAlive := true; m_isUnchanged := is_Unchanged _c; m_hasNewCode := false; m_nonce := _nonce; m_balance := _balance;
     m_storageRoot := _contractRoot; m_codeHash := _codeHash; m_storageOverlay := ∅; m_codeCache := [] |}.

Definition kill (a : Account) : Account :=
  {| m_isAlive := false; m_isUnchanged := false; m_hasNewCode := m_hasNewCode a; m_nonce := 0; m_balance := 0;
     m_storageRoot := EmptyTrie; m_codeHash := EmptySHA3; m_storageOverlay := ∅; m_codeCache := m_codeCache a |}.

(** [baseRoot()], with its assertion. *)
Definition baseRoot (a : Account) : result exn bytes :=
  if bool_decide (m_storageRoot a = replicate 32 0) then Err AssertFailure else Ok (m_storageRoot a).

Definition isDirty (a : Account) : bool := negb (m_isUnchanged a).

Definition untouch (a : Account) : Account :=
  {| m_isAlive := m_isAlive a; m_isUnchanged := true; m_hasNewCode := m_hasNewCode a; m_nonce := m_nonce a;
     m_balance := m_balance a; m_storageRoot := m_storageRoot a; m_codeHash := m_codeHash a;
     m_storageOverlay := m_storageOverlay a; m_codeCache := m_codeCache a |}.

Definition isEmpty (a : Account) : bool :=
  (m_nonce a =? 0) && (m_balance a =? 0) && bool_decide (m_codeHash a = EmptySHA3).

(** [m_balance += _value] wraps around. *)
Definition addBalance (_value : Z) (a : Account) : Account :=
  {| m_isAlive := m_isAlive a; m_isUnchanged := false; m_hasNewCode := m_hasNewCode a; m_nonce := m_nonce a;
     m_balance := wrap 256 (m_balance a + _value); m_storageRoot := m_storageRoot a; m_codeHash := m_codeHash a;
     m_storageOverlay := m_storageOverlay a; m_codeCache := m_codeCache a |}.

Definition setNonce (_nonce : Z) (a : Account) : Account :=
  {| m_isAlive := m_isAlive a; m_isUnchanged := false; m_hasNewCode := m_hasNewCode a; m_nonce := _nonce;
     m_balance := m_balance a; m_storageRoot := m_storageRoot a; m_codeHash := m_codeHash a;
     m_storageOverlay := m_storageOverlay a; m_codeCache := m_codeCache a |}.
Definition incNonce (a : Account) : Account := setNonce (wrap 256 (m_nonce a + 1)) a.

Definition with_storage (changed : bool) (root : bytes) (o : gmap Z Z) (a : Account) : Account :=
  {| m_isAlive := m_isAlive a; m_isUnchanged := negb changed && m_isUnchanged a; m_hasNewCode := m_hasNewCode a;
     m_nonce := m_nonce a; m_balance := m_balance a; m_storageRoot := root; m_codeHash := m_codeHash a;
     m_storageOverlay := o; m_codeCache := m_codeCache a |}.
Definition setStorage (_p _v : Z) (a : Account) : Account :=
  with_storage true (m_storageRoot a) (<[_p := _v]> (m_storageOverlay a)) a.
Definition clearStorage (a : Account) : Account := with_storage true EmptyTrie ∅ a.
Definition setStorageRoot (_root : bytes) (a : Account) : Account := with_storage true _root ∅ a.
Definition setStorageCache (_p _v : Z) (a : Account) : Account :=
  with_storage false (m_storageRoot a) (<[_p := _v]> (m_storageOverlay a)) a.

Definition with_code (new : bool) (h code : bytes) (a : Account) : Account :=
  {| m_isAlive := m_isAlive a; m_isUnchanged := m_isUnchanged a; m_hasNewCode := new; m_nonce := m_nonce a;
     m_balance := m_balance a; m_storageRoot := m_storageRoot a; m_codeHash := h;
     m_storageOverlay := m_storageOverlay a; m_codeCache := code |}.
Definition setCode (_code : bytes) (a : Account) : Account := with_code true (sha3 _code) _code a.
Definition resetCode (a : Account) : Account := with_code false EmptySHA3 [] a.

End Account.
