(* ===== verification/State.v ===== *)
(** * State: accounts, the change log and committing (libvapory/State)

    [State] is a cache of accounts over the state trie, with a change log.  The trie and the storage tries share the store of
    the state: the C++ objects hold a pointer to [m_db], the record
    [GenericTrieDB] holds the store itself.

    The state is templated on the store here; [State] uses [OverlayDB].  The
    tries are the fat ones of the default build.  The process-wide cache of code
    sizes ([CodeSizeCache]) is left out; so are [addresses()], the enumeration of
    an account's storage and printing. *)

From stdpp Require Import base list numbers option gmap.
From Stdlib Require Import ZArith Lia.
From S2P Require Import Prelude.
From S2P Require Import Bytes.
From S2P Require Import Rlp.
From S2P Require Import RlpStream.
From S2P Require Import Keccak.
From S2P Require Import MemoryDB.
From S2P Require Import TrieDB.
From S2P Require Import Account.
Import VectorRef CommonData RLP RLPStream Keccak TrieDB.

(** ** State *)
Module State.
Import Account.

Abbreviation Address := bytes.

Inductive Change :=
| Balance (address : Address) (value : Z)
| Storage (address : Address) (key value : Z)
| StorageRoot (address : Address) (value : bytes)
| Nonce (address : Address) (value : Z)
| Create (address : Address)
| Code (address : Address) (oldCode : bytes)
| Touch (address : Address).

Definition address (c : Change) : Address :=
  match c with
  | Balance a _ | Storage a _ _ | StorageRoot a _ | Nonce a _ | Create a | Code a _ | Touch a => a
  end.

Inductive state_exn :=
| Trie (e : trie_exn)
| NotEnoughCash
| InvalidAccountStartNonceInState
| IncorrectAccountStartNonceInState.

(** [m_random]: what the random device will give. *)
Record State (DB : Type) := {
  m_state : GenericTrieDB DB;
  m_cache : gmap Address Account;
  m_unchangedCacheEntries : list Address;
  m_nonExistingAccountsCache : gset Address;
  m_touched : gset Address;
  m_accountStartNonce : Z;
  m_changeLog : list Change;
  m_random : list nat;
}.
Arguments m_state {DB} _.
Arguments m_cache {DB} _.
Arguments m_unchangedCacheEntries {DB} _.
Arguments m_nonExistingAccountsCache {DB} _.
Arguments m_touched {DB} _.
Arguments m_accountStartNonce {DB} _.
Arguments m_changeLog {DB} _.
Arguments m_random {DB} _.

Definition Invalid256 : Z := 2 ^ 256 - 1.

Section Operations.
Context {DB : Type} `{NodeDB DB}.

Implicit Types s : State DB.

(** *** The effects: a state and exceptions *)

Definition ST (A : Type) : Type := State DB -> result state_exn A * State DB.
Definition ret {A} (a : A) : ST A := fun s => (Ok a, s).
Definition bind {A B} (x : ST A) (f : A -> ST B) : ST B :=
  fun s => match x s with (Ok a, s') => f a s' | (Err e, s') => (Err e, s') end.
Definition raise {A} (e : state_exn) : ST A := fun s => (Err e, s).
Definition get {A} (f : State DB -> A) : ST A := fun s => (Ok (f s), s).
Definition modify (f : State DB -> State DB) : ST unit := fun s => (Ok tt, f s).
Definition of_rlp {A} (m : result exn A) : ST A :=
  fun s => match m with Ok a => (Ok a, s) | Err e => (Err (Trie (TrieDB.Rlp e)), s) end.
Definition of_trie {A} (m : result trie_exn A) : ST A :=
  fun s => match m with Ok a => (Ok a, s) | Err e => (Err (Trie e), s) end.
Definition assert_ (b : bool) : ST unit := if b then ret tt else raise (Trie (TrieDB.Rlp AssertFailure)).

Notation "'let*' x := m 'in' k" := (bind m (fun x => k))
  (at level 10, x pattern, m at level 100, k at level 200, format "'[v' 'let*'  x  :=  m  'in' '/' k ']'").
Notation "'do*' m 'in' k" := (bind m (fun _ => k))
  (at level 10, m at level 100, k at level 200, format "'[v' 'do*'  m  'in' '/' k ']'").

(** Field updates. *)
Definition set_state (t : GenericTrieDB DB) s : State DB :=
  {| m_state := t; m_cache := m_cache s; m_unchangedCacheEntries := m_unchangedCacheEntries s;
     m_nonExistingAccountsCache := m_nonExistingAccountsCache s; m_touched := m_touched s;
     m_accountStartNonce := m_accountStartNonce s; m_changeLog := m_changeLog s; m_random := m_random s |}.
Definition set_cache (c : gmap Address Account) s : State DB :=
  {| m_state := m_state s; m_cache := c; m_unchangedCacheEntries := m_unchangedCacheEntries s;
     m_nonExistingAccountsCache := m_nonExistingAccountsCache s; m_touched := m_touched s;
     m_accountStartNonce := m_accountStartNonce s; m_changeLog := m_changeLog s; m_random := m_random s |}.
Definition set_unchanged (u : list Address) (r : list nat) s : State DB :=
  {| m_state := m_state s; m_cache := m_cache s; m_unchangedCacheEntries := u;
     m_nonExistingAccountsCache := m_nonExistingAccountsCache s; m_touched := m_touched s;
     m_accountStartNonce := m_accountStartNonce s; m_changeLog := m_changeLog s; m_random := r |}.
Definition set_nonExisting (n : gset Address) s : State DB :=
  {| m_state := m_state s; m_cache := m_cache s; m_unchangedCacheEntries := m_unchangedCacheEntries s;
     m_nonExistingAccountsCache := n; m_touched := m_touched s;
     m_accountStartNonce := m_accountStartNonce s; m_changeLog := m_changeLog s; m_random := m_random s |}.
Definition set_log (l : list Change) s : State DB :=
  {| m_state := m_state s; m_cache := m_cache s; m_unchangedCacheEntries := m_unchangedCacheEntries s;
     m_nonExistingAccountsCache := m_nonExistingAccountsCache s; m_touched := m_touched s;
     m_accountStartNonce := m_accountStartNonce s; m_changeLog := l; m_random := m_random s |}.
Definition set_startNonce (n : Z) s : State DB :=
  {| m_state := m_state s; m_cache := m_cache s; m_unchangedCacheEntries := m_unchangedCacheEntries s;
     m_nonExistingAccountsCache := m_nonExistingAccountsCache s; m_touched := m_touched s;
     m_accountStartNonce := n; m_changeLog := m_changeLog s; m_random := m_random s |}.
Definition set_touched (t : gset Address) s : State DB :=
  {| m_state := m_state s; m_cache := m_cache s; m_unchangedCacheEntries := m_unchangedCacheEntries s;
     m_nonExistingAccountsCache := m_nonExistingAccountsCache s; m_touched := t;
     m_accountStartNonce := m_accountStartNonce s; m_changeLog := m_changeLog s; m_random := m_random s |}.

(** [m_changeLog.emplace_back(c)]. *)
Definition log (c : Change) : ST unit := modify (fun s => set_log (m_changeLog s ++ [c]) s).

(** [m_cache[_a]], which makes a dead account where there is none, changed by
    [f]. *)
Definition cached (c : gmap Address Account) (_a : Address) : Account := default dead (c !! _a).
Definition update_account (_a : Address) (f : Account -> Account) : ST unit :=
  modify (fun s => set_cache (<[_a := f (cached (m_cache s) _a)]> (m_cache s)) s).

(** *** Start nonce *)

Definition requireAccountStartNonce : ST Z :=
  let* n := get m_accountStartNonce in
  if n =? Invalid256 then raise InvalidAccountStartNonceInState else ret n.
Definition noteAccountStartNonce (_actual : Z) : ST unit :=
  let* n := get m_accountStartNonce in
  if n =? Invalid256 then modify (set_startNonce _actual)
  else if negb (n =? _actual) then raise IncorrectAccountStartNonceInState else ret tt.

(** *** Looking up accounts *)

(** One round of [clearCacheIfTooLarge]: the random element is swapped with the
    last one and dropped. *)
Definition clear_one s : State DB :=
  let u := m_unchangedCacheEntries s in
  let randomIndex := Nat.modulo (hd 0%nat (m_random s)) (List.length u) in
  let addr := default [] (u !! randomIndex) in
  let back := default [] (last u) in
  let s := set_unchanged (removelast (<[randomIndex := back]> u)) (tl (m_random s)) s in
  match m_cache s !! addr with
  | Some a => if negb (isDirty a) then set_cache (delete addr (m_cache s)) s else s
  | None => s
  end.
Fixpoint clear_loop (fuel : nat) s : State DB :=
  match fuel with
  | O => s
  | S f => if Z.of_nat (List.length (m_unchangedCacheEntries s)) >? 1000 then clear_loop f (clear_one s) else s
  end.
Definition clearCacheIfTooLarge s : State DB := clear_loop (List.length (m_unchangedCacheEntries s)) s.

(** The account in an entry of the state trie. *)
Definition read_account (stateBack : bytes) : result exn Account :=
  let! state := make stateBack VeryStrict in
  let! i0 := nth state 0 in
  let! nonce := toInt 256 i0 Strict in
  let! i1 := nth state 1 in
  let! balance := toInt 256 i1 Strict in
  let! i2 := nth state 2 in
  let! root := toHash 32 i2 Strict in
  let! i3 := nth state 3 in
  let! codeHash := toHash 32 i3 Strict in
  if bool_decide (root = replicate 32 0) then Err AssertFailure
  else Ok (contract nonce balance root codeHash Unchanged).

(** [account(_addr)]: [None] is the null pointer; the pointer is into
    [m_cache]. *)
Definition account (_addr : Address) : ST (option Account) := fun s =>
  match m_cache s !! _addr with
  | Some a => (Ok (Some a), s)
  | None =>
      if bool_decide (_addr ∈ m_nonExistingAccountsCache s) then (Ok None, s) else
      match hashed_at (m_state s) _addr with
      | Err e => (Err (Trie e), s)
      | Ok [] => (Ok None, set_nonExisting ({[_addr]} ∪ m_nonExistingAccountsCache s) s)
      | Ok stateBack =>
          let s := clearCacheIfTooLarge s in
          match read_account stateBack with
          | Err e => (Err (Trie (TrieDB.Rlp e)), s)
          | Ok a =>
              (Ok (Some a),
               set_unchanged (m_unchangedCacheEntries s ++ [_addr]) (m_random s)
                 (set_cache (<[_addr := a]> (m_cache s)) s))
          end
      end
  end.

Definition addressInUse (_id : Address) : ST bool :=
  let* a := account _id in ret (match a with Some _ => true | None => false end).
Definition accountNonemptyAndExisting (_address : Address) : ST bool :=
  let* a := account _address in ret (match a with Some a => negb (isEmpty a) | None => false end).
Definition addressHasCode (_id : Address) : ST bool :=
  let* a := account _id in
  ret (match a with Some a => negb (bool_decide (m_codeHash a = EmptySHA3)) | None => false end).
Definition balance (_id : Address) : ST Z :=
  let* a := account _id in ret (match a with Some a => m_balance a | None => 0 end).
Definition getNonce (_addr : Address) : ST Z :=
  let* a := account _addr in
  match a with Some a => ret (m_nonce a) | None => get m_accountStartNonce end.
Definition codeHash (_a : Address) : ST bytes :=
  let* a := account _a in ret (match a with Some a => m_codeHash a | None => EmptySHA3 end).

(** *** Creating and changing accounts *)

Definition createAccount (_address : Address) (_account : Account) : ST unit :=
  let* used := addressInUse _address in
  do* assert_ (negb used) in
  do* modify (fun s => set_cache (<[_address := _account]> (m_cache s)) s) in
  do* modify (fun s => set_nonExisting (m_nonExistingAccountsCache s ∖ {[_address]}) s) in
  log (Create _address).
Definition createContract (_address : Address) : ST unit :=
  let* n := requireAccountStartNonce in createAccount _address (basic n 0).

Definition incNonce (_addr : Address) : ST unit :=
  let* a := account _addr in
  match a with
  | Some a =>
      do* update_account _addr Account.incNonce in
      log (Nonce _addr (m_nonce a))
  | None =>
      let* n := requireAccountStartNonce in
      createAccount _addr (basic (wrap 256 (n + 1)) 0)
  end.
Definition setNonce (_addr : Address) (_newNonce : Z) : ST unit :=
  let* a := account _addr in
  match a with
  | Some a =>
      do* update_account _addr (Account.setNonce _newNonce) in
      log (Nonce _addr (m_nonce a))
  | None => createAccount _addr (basic _newNonce 0)
  end.

Definition addBalance (_id : Address) (_amount : Z) : ST unit :=
  let* a := account _id in
  do* match a with
      | Some a =>
          do* (if negb (isDirty a) && isEmpty a then log (Touch _id) else ret tt) in
          update_account _id (Account.addBalance _amount)
      | None =>
          let* n := requireAccountStartNonce in createAccount _id (basic n _amount)
      end in
  if negb (_amount =? 0) then log (Balance _id _amount) else ret tt.
Definition subBalance (_addr : Address) (_value : Z) : ST unit :=
  if _value =? 0 then ret tt else
  let* a := account _addr in
  match a with
  | Some a => if m_balance a <? _value then raise NotEnoughCash else addBalance _addr (wrap 256 (0 - _value))
  | None => raise NotEnoughCash
  end.
Definition transferBalance (_from _to : Address) (_value : Z) : ST unit :=
  do* subBalance _from _value in addBalance _to _value.

Definition kill (_addr : Address) : ST unit :=
  let* a := account _addr in
  match a with Some _ => update_account _addr Account.kill | None => ret tt end.

(** *** Storage *)

(** [SecureTrieDB<h256, OverlayDB> memdb(&m_db, root)]: opening the trie may write
    the empty root. *)
Definition open_storage (root : bytes) : ST (GenericTrieDB DB) :=
  let* t := get m_state in
  match TrieDB.setRoot {| m_root := root; m_db := m_db t |} root with
  | (Ok _, st) => do* modify (set_state {| m_root := m_root t; m_db := m_db st |}) in ret st
  | (Err e, st) => do* modify (set_state {| m_root := m_root t; m_db := m_db st |}) in raise (Trie e)
  end.

(** A [u256] as [h256]. *)
Definition key_bytes (_key : Z) : bytes := toBigEndian 32 _key.

Definition storage (_id : Address) (_key : Z) : ST Z :=
  let* a := account _id in
  match a with
  | Some a =>
      match m_storageOverlay a !! _key with
      | Some v => ret v
      | None =>
          let* root := of_rlp (baseRoot a) in
          let* memdb := open_storage root in
          let* payload := of_trie (hashed_at memdb (key_bytes _key)) in
          let* v := (match payload with
                     | [] => ret 0
                     | _ => of_rlp (let! r := make payload VeryStrict in toInt 256 r Strict)
                     end) in
          do* update_account _id (setStorageCache _key v) in
          ret v
      end
  | None => ret 0
  end.

Definition setStorage (_contract : Address) (_key _value : Z) : ST unit :=
  let* old := storage _contract _key in
  do* log (Storage _contract _key old) in
  update_account _contract (Account.setStorage _key _value).

Definition clearStorage (_contract : Address) : ST unit :=
  do* update_account _contract (fun a => a) in
  let* c := get m_cache in
  let* oldHash := of_rlp (baseRoot (cached c _contract)) in
  if bool_decide (oldHash = EmptyTrie) then ret tt
  else
    do* log (StorageRoot _contract oldHash) in
    update_account _contract Account.clearStorage.

Definition storageRoot (_id : Address) : ST bytes :=
  let* t := get m_state in
  let* str := of_trie (hashed_at t _id) in
  match str with
  | [] => ret EmptyTrie
  | _ => of_rlp (let! r := make str VeryStrict in let! i2 := nth r 2 in toHash 32 i2 Strict)
  end.

(** *** Code *)

Definition code (_addr : Address) : ST bytes :=
  let* a := account _addr in
  match a with
  | Some a =>
      if bool_decide (m_codeHash a = EmptySHA3) then ret [] else
      match m_codeCache a with
      | [] =>
          let* t := get m_state in
          let c := db_lookup (m_db t) (m_codeHash a) in
          do* assert_ (bool_decide (sha3 c = m_codeHash a)) in
          do* update_account _addr (fun a => with_code (m_hasNewCode a) (m_codeHash a) c a) in
          ret c
      | c => ret c
      end
  | None => ret []
  end.

Definition setCode (_address : Address) (_code : bytes) : ST unit :=
  let* old := code _address in
  do* log (Code _address old) in
  update_account _address (Account.setCode _code).

(** *** The change log *)

Definition savepoint : ST nat := get (fun s => List.length (m_changeLog s)).

(** What [rollback] does with one entry. *)
Definition undo (change : Change) : ST unit :=
  do* update_account (address change) (fun a => a) in
  match change with
  | Storage a key value => update_account a (Account.setStorage key value)
  | StorageRoot a value => update_account a (setStorageRoot value)
  | Balance a value => update_account a (Account.addBalance (wrap 256 (0 - value)))
  | Nonce a value => update_account a (Account.setNonce value)
  | Create a => modify (fun s => set_cache (delete a (m_cache s)) s)
  | Code a oldCode => update_account a (Account.setCode oldCode)
  | Touch a =>
      do* update_account a untouch in
      modify (fun s => set_unchanged (m_unchangedCacheEntries s ++ [a]) (m_random s) s)
  end.

(** The loop runs once per entry; when [_savepoint] is beyond the end it never
    meets its condition and takes the back of an empty vector. *)
Fixpoint rollback_loop (fuel : nat) (_savepoint : nat) : ST unit := fun s =>
  if decide (_savepoint = List.length (m_changeLog s)) then (Ok tt, s) else
  match fuel, last (m_changeLog s) with
  | S f, Some change =>
      bind (undo change) (fun _ => bind (modify (fun s => set_log (removelast (m_changeLog s)) s)) (fun _ =>
      rollback_loop f _savepoint)) s
  | _, _ => (Err (Trie (TrieDB.Rlp AssertFailure)), s)
  end.
Definition rollback (_savepoint : nat) : ST unit := fun s => rollback_loop (List.length (m_changeLog s)) _savepoint s.

(** *** Committing *)

Definition removeEmptyAccounts s : State DB :=
  set_cache ((fun a => if isDirty a && isEmpty a then Account.kill a else a) <$> m_cache s) s.

(** [for (auto const& j: storageOverlay())]: the order of an [unordered_map] is
    unspecified; that of [map_to_list] stands for it. *)
Fixpoint commit_storage (l : list (Z * Z)) (storageDB : GenericTrieDB DB) : result trie_exn unit * GenericTrieDB DB :=
  match l with
  | [] => (Ok tt, storageDB)
  | (k, v) :: l' =>
      let r :=
        if negb (v =? 0) then
          match (let (r, o) := append_bigint v empty in match r with Ok _ => out o | Err e => Err e end) with
          | Ok b => fat_insert storageDB (key_bytes k) b
          | Err e => (Err (Stream e), storageDB)
          end
        else hashed_remove storageDB (key_bytes k) in
      match r with
      | (Ok _, t) => commit_storage l' t
      | (Err e, t) => (Err e, t)
      end
  end.

(** The root to put in the account's entry, and the store. *)
Definition commit_root (d : DB) (a : Account) : result trie_exn bytes * DB :=
  match baseRoot a with
  | Err e => (Err (TrieDB.Rlp e), d)
  | Ok baseRoot =>
      if bool_decide (m_storageOverlay a = ∅) then (Ok baseRoot, d)
      else
        match TrieDB.setRoot {| m_root := baseRoot; m_db := d |} baseRoot with
        | (Err e, t) => (Err e, m_db t)
        | (Ok _, t) =>
            match commit_storage (map_to_list (m_storageOverlay a)) t with
            | (Err e, t) => (Err e, m_db t)
            | (Ok _, t) => (root t, m_db t)
            end
        end
  end.

(** The entry: [RLPStream s(4)] with its four items. *)
Definition account_rlp (nonce balance : Z) (root codeHash : bytes) : result trie_exn bytes :=
  let w := fun (op : Str_M unit) (r : result trie_exn stream) =>
    match r with
    | Ok o => match op o with (Ok _, o') => Ok o' | (Err e, _) => Err (Stream e) end
    | Err e => Err e
    end in
  match w (append_hash codeHash false false) (w (append_hash root false false)
          (w (append_bigint balance) (w (append_bigint nonce) (w (appendList 4) (Ok empty))))) with
  | Ok o => match out o with Ok b => Ok b | Err e => Err (Stream e) end
  | Err e => Err e
  end.

(** One round of [dev::vap::commit]. *)
Definition commit_account (_state : GenericTrieDB DB) (addr : Address) (a : Account)
    : result trie_exn unit * GenericTrieDB DB :=
  if negb (m_isAlive a) then hashed_remove _state addr
  else
    match commit_root (m_db _state) a with
    | (Err e, d) => (Err e, {| m_root := m_root _state; m_db := d |})
    | (Ok r, d) =>
        let d := if m_hasNewCode a then db_insert d (m_codeHash a) (m_codeCache a) else d in
        match account_rlp (m_nonce a) (m_balance a) r (m_codeHash a) with
        | Err e => (Err e, {| m_root := m_root _state; m_db := d |})
        | Ok b => fat_insert {| m_root := m_root _state; m_db := d |} addr b
        end
    end.
Fixpoint commit_accounts (l : list (Address * Account)) (_state : GenericTrieDB DB) (touched : gset Address)
    : result trie_exn (gset Address) * GenericTrieDB DB :=
  match l with
  | [] => (Ok touched, _state)
  | (addr, a) :: l' =>
      if isDirty a then
        match commit_account _state addr a with
        | (Ok _, t) => commit_accounts l' t ({[addr]} ∪ touched)
        | (Err e, t) => (Err e, t)
        end
      else commit_accounts l' _state touched
  end.

Inductive CommitBehaviour := KeepEmptyAccounts | RemoveEmptyAccounts.

Definition commit (_commitBehaviour : CommitBehaviour) : ST unit :=
  do* (match _commitBehaviour with RemoveEmptyAccounts => modify removeEmptyAccounts | KeepEmptyAccounts => ret tt end) in
  fun s =>
    match commit_accounts (map_to_list (m_cache s)) (m_state s) ∅ with
    | (Err e, t) => (Err (Trie e), set_state t s)
    | (Ok touched, t) =>
        (Ok tt, set_log [] (set_unchanged [] (m_random s) (set_cache ∅
                  (set_touched (m_touched s ∪ touched) (set_state t s)))))
    end.

(** [setRoot]: the change log is kept. *)
Definition setRoot (_r : bytes) : ST unit := fun s =>
  let s := set_nonExisting ∅ (set_unchanged [] (m_random s) (set_cache ∅ s)) in
  match TrieDB.setRoot (m_state s) _r with
  | (Ok _, t) => (Ok tt, set_state t s)
  | (Err e, t) => (Err (Trie e), set_state t s)
  end.

(** [State(_accountStartNonce, _db, _bs)]. *)
Inductive BaseState := PreExisting | Empty.
Definition in_state s (x : result trie_exn unit * GenericTrieDB DB) : result state_exn unit * State DB :=
  match x with
  | (Ok _, t) => (Ok tt, set_state t s)
  | (Err e, t) => (Err (Trie e), set_state t s)
  end.
Definition make_state (_accountStartNonce : Z) (_db : DB) (_bs : BaseState) (random : list nat) : result state_exn unit * State DB :=
  let s := {| m_state := {| m_root := replicate 32 0; m_db := _db |}; m_cache := ∅; m_unchangedCacheEntries := [];
              m_nonExistingAccountsCache := ∅; m_touched := ∅; m_accountStartNonce := _accountStartNonce;
              m_changeLog := []; m_random := random |} in
  match _bs with
  | PreExisting => (Ok tt, s)
  | Empty => in_state s (init (m_state s))
  end.

End Operations.

End State.
