(* ===== verification/StateProps.v ===== *)
(** * StateProps: rolling back the state

    [rollback] to a savepoint undoes any sequence of operations, completed or cut
    short by an exception: every getter answers as before, and so does the test
    for empty accounts that [commit] removes. *)

From stdpp Require Import base list numbers option gmap.
From Stdlib Require Import ZArith Lia.
From S2P Require Import Prelude.
From S2P Require Import Bytes.
From S2P Require Import Rlp.
From S2P Require Import Keccak.
From S2P Require Import MemoryDB.
From S2P Require Import TrieDB.
From S2P Require Import Account.
From S2P Require Import State.
Import CommonData Keccak TrieDB Account State.

Module StateProps.

#[local] Opaque sha3.

Section Rollback.
Context {DB : Type} `{NodeDB DB}.

Implicit Types s : State DB.
Implicit Types t : GenericTrieDB DB.

(** ** What the store says *)

(** The account in the trie: [None] when it cannot be read. *)
Definition base t (a : Address) : option (option Account) :=
  match hashed_at t a with
  | Ok [] => Some None
  | Ok b => match read_account b with Ok x => Some (Some x) | Err _ => None end
  | Err _ => None
  end.

(** A storage slot in the trie with root [r]. *)
Definition slot_value (payload : bytes) : result RLP.exn Z :=
  match payload with [] => Ok 0 | _ => let! r := RLP.make payload RLP.VeryStrict in RLP.toInt 256 r RLP.Strict end.
Definition slot t (r : bytes) (k : Z) : option Z :=
  if bool_decide (r = replicate 32 0) then None else
  match TrieDB.setRoot {| m_root := r; m_db := m_db t |} r with
  | (Ok _, st) =>
      match hashed_at st (key_bytes k) with
      | Ok p => match slot_value p with Ok v => Some v | Err _ => None end
      | Err _ => None
      end
  | _ => None
  end.

(** The storage and the code of an account. *)
Definition look t (x : Account) (k : Z) : option Z :=
  match m_storageOverlay x !! k with Some v => Some v | None => slot t (m_storageRoot x) k end.
Definition code_of t (x : Account) : option bytes :=
  if bool_decide (m_codeHash x = EmptySHA3) then Some [] else
  match m_codeCache x with
  | [] => let c := db_lookup (m_db t) (m_codeHash x) in if bool_decide (sha3 c = m_codeHash x) then Some c else None
  | c => Some c
  end.

(** [y] stands for the same account as [x], with at least its changes to write. *)
Record acc_eq t (x y : Account) : Prop := {
  eq_alive : m_isAlive y = m_isAlive x;
  eq_nonce : m_nonce y = m_nonce x;
  eq_balance : m_balance y = m_balance x;
  eq_codeHash : m_codeHash y = m_codeHash x;
  eq_root : m_storageRoot y = m_storageRoot x;
  eq_look k : look t y k = look t x k;
  eq_code : code_of t y = code_of t x;
  eq_dirty : isDirty x = true -> isDirty y = true;
  eq_removed : isDirty y && isEmpty y = isDirty x && isEmpty x;
}.

Lemma acc_eq_refl t x : acc_eq t x x.
Proof. by split. Qed.
Lemma acc_eq_trans t x y z : acc_eq t x y -> acc_eq t y z -> acc_eq t x z.
Proof. intros [] []. split; try congruence; intros; by first [auto | etrans; eauto]. Qed.

Lemma acc_eq_sym t x y : isDirty y = false -> acc_eq t x y -> acc_eq t y x.
Proof. intros Hd [E1 E2 E3 E4 E5 E6 E7 E8 E9]. split; try by symmetry. by rewrite Hd. Qed.

Lemma acc_eq_empty t x y : acc_eq t x y -> isEmpty y = isEmpty x.
Proof. intros [_ H1 H2 H3 _ _ _ _ _]. unfold isEmpty. by rewrite H1, H2, H3. Qed.

(** An entry of the cache in two states. *)
Definition ent_eq t (a : Address) (ox oy : option Account) : Prop :=
  match ox, oy with
  | Some x, Some y => acc_eq t x y
  | Some x, None => isDirty x = false /\ exists b, base t a = Some (Some b) /\ acc_eq t x b
  | None, Some y => exists b, base t a = Some (Some b) /\ acc_eq t b y
  | None, None => True
  end.

Lemma ent_eq_refl t a ox : ent_eq t a ox ox.
Proof. destruct ox; [apply acc_eq_refl|done]. Qed.

Lemma ent_eq_trans t a ox oy oz : ent_eq t a ox oy -> ent_eq t a oy oz -> ent_eq t a ox oz.
Proof.
  destruct ox as [x|], oy as [y|], oz as [z|]; cbn; try done.
  - apply acc_eq_trans.
  - intros Hxy [Hd (b & Hb & Hyb)]. split; [|exists b; split; [done|by eapply acc_eq_trans]].
    destruct (isDirty x) eqn:E; [|done]. rewrite (eq_dirty _ _ _ Hxy) in Hd by done. done.
  - intros [_ (b & Hb & Hxb)] (b' & Hb' & Hbz). rewrite Hb in Hb'. injection Hb' as <-. by eapply acc_eq_trans.
  - intros (b & Hb & Hby) Hyz. exists b. split; [done|by eapply acc_eq_trans].
Qed.

Record st_eq s s' : Prop := {
  eq_state : m_state s' = m_state s;
  eq_start : m_accountStartNonce s' = m_accountStartNonce s;
  eq_ent a : ent_eq (m_state s) a (m_cache s !! a) (m_cache s' !! a);
}.

Lemma st_eq_refl s : st_eq s s.
Proof. split; [done|done|]. intros. apply ent_eq_refl. Qed.
Lemma st_eq_trans s s' s'' : st_eq s s' -> st_eq s' s'' -> st_eq s s''.
Proof.
  intros [H1 H2 H3] [H4 H5 H6]. split; [congruence|congruence|]. intros a. rewrite H1 in H6. by eapply ent_eq_trans.
Qed.

Lemma st_eq_same s s' :
  m_state s' = m_state s -> m_accountStartNonce s' = m_accountStartNonce s -> m_cache s' = m_cache s -> st_eq s s'.
Proof. intros H1 H2 H3. split; [done|done|]. intros a. rewrite H3. apply ent_eq_refl. Qed.

(** ** Well-formed states *)

Definition code_ok (x : Account) : Prop :=
  m_codeHash x = EmptySHA3 \/ m_codeCache x = [] \/ sha3 (m_codeCache x) = m_codeHash x.

(** An account in the cache: one that is not dirty is the one in the trie. *)
Record acc_ok t (a : Address) (x : Account) : Prop := {
  ok_balance : 0 <= m_balance x < 2 ^ 256;
  ok_code : code_ok x;
  ok_clean : isDirty x = false -> exists b, base t a = Some (Some b) /\ acc_eq t x b;
}.

Record st_ok s : Prop := {
  ok_empty : db_exists (m_db (m_state s)) EmptyTrie = true;
  ok_non a : a ∈ m_nonExistingAccountsCache s -> hashed_at (m_state s) a = Ok [];
  ok_acc a x : m_cache s !! a = Some x -> acc_ok (m_state s) a x;
}.

(** ** Undoing *)

(** [rollback] over the entries to undo, the last one first. *)
Fixpoint undo_all (l : list Change) : ST unit :=
  match l with
  | [] => ret tt
  | c :: l' => bind (undo c) (fun _ => bind (modify (fun s => set_log (removelast (m_changeLog s)) s)) (fun _ => undo_all l'))
  end.

Lemma undo_log c s r s' : undo c s = (r, s') -> r = Ok tt /\ m_changeLog s' = m_changeLog s.
Proof. destruct c; intros [= <- <-]; done. Qed.

Lemma rollback_loop_undo cs : forall fuel l s,
  m_changeLog s = l ++ rev cs -> (List.length cs <= fuel)%nat ->
  rollback_loop fuel (List.length l) s = undo_all cs s.
Proof.
  induction cs as [|c cs IH]; intros fuel l s Hl Hf.
  - cbn [rev] in Hl. rewrite app_nil_r in Hl. destruct fuel; cbn [rollback_loop]; rewrite decide_True by (by rewrite Hl); done.
  - destruct fuel as [|fuel]; [cbn in Hf; lia|]. cbn [rev] in Hl. rewrite app_assoc in Hl. cbn [rollback_loop undo_all].
    rewrite decide_False by (rewrite Hl, !length_app; cbn; lia). rewrite Hl, last_snoc.
    unfold bind at 1 3. destruct (undo c s) as [r s'] eqn:E. apply undo_log in E as [-> E]. unfold bind, modify.
    apply IH; [cbn; by rewrite E, Hl, removelast_last|cbn in Hf; lia].
Qed.

Lemma undo_all_app l k s :
  undo_all (l ++ k) s = match undo_all l s with (Ok _, s') => undo_all k s' | r => r end.
Proof.
  revert s. induction l as [|c l IH]; intros s; cbn [undo_all app]; [done|].
  unfold bind at 1 3. destruct (undo c s) as [r s'] eqn:E. apply undo_log in E as [-> _]. unfold bind, modify. apply IH.
Qed.

(** [s'] was reached from [s], and can be taken back. *)
Definition reverts s s' : Prop :=
  exists cs, m_changeLog s' = m_changeLog s ++ rev cs /\
    forall s1, st_eq s' s1 -> m_changeLog s1 = m_changeLog s' ->
      exists s2, undo_all cs s1 = (Ok tt, s2) /\ st_eq s s2 /\ m_changeLog s2 = m_changeLog s.

Record good s s' : Prop := {
  good_ok : st_ok s';
  good_state : m_state s' = m_state s;
  good_start : m_accountStartNonce s' = m_accountStartNonce s;
  good_reverts : reverts s s';
}.

Lemma reverts_trans s s' s'' : reverts s s' -> reverts s' s'' -> reverts s s''.
Proof.
  intros (cs & El & Hu) (cs' & El' & Hu'). exists (cs' ++ cs). split; [by rewrite El', El, rev_app_distr, app_assoc|].
  intros s1 H1 Hl1. destruct (Hu' s1 H1 Hl1) as (s2 & E2 & H2 & Hl2). destruct (Hu s2 H2 Hl2) as (s3 & E3 & H3 & Hl3).
  exists s3. by rewrite undo_all_app, E2, E3.
Qed.
Lemma good_trans s s' s'' : good s s' -> good s' s'' -> good s s''.
Proof. intros [] []. split; [done|congruence|congruence|by eapply reverts_trans]. Qed.

(** A step that leaves no trace in the log. *)
Lemma good_silent s s' : st_ok s' -> st_eq s s' -> m_changeLog s' = m_changeLog s -> good s s'.
Proof.
  intros Hok He Hl. split; [done|apply He|apply He|]. exists []. split; [by rewrite app_nil_r|].
  intros s1 H1 Hl1. exists s1. split_and!; [done|by eapply st_eq_trans|congruence].
Qed.
Lemma good_refl s : st_ok s -> good s s.
Proof. intros. by apply good_silent; [|apply st_eq_refl|]. Qed.

(** ** Reasoning about operations *)

Definition safe {A} (p : ST A) (P : State DB -> Prop) (Q : A -> State DB -> Prop) : Prop :=
  forall s, st_ok s -> P s -> good s (snd (p s)) /\ match fst (p s) with Ok a => Q a (snd (p s)) | Err _ => True end.

Lemma safe_bind {A B} (p : ST A) (f : A -> ST B) P Q R :
  safe p P Q -> (forall a, safe (f a) (Q a) R) -> safe (bind p f) P R.
Proof.
  intros Hp Hf s Hok HP. destruct (Hp s Hok HP) as [Hg HQ]. unfold bind. destruct (p s) as [[a|e] s']; cbn in *; [|done].
  destruct (Hf a s' (good_ok _ _ Hg) HQ) as [Hg' HR]. split; [by eapply good_trans|done].
Qed.
Lemma safe_ret {A} (a : A) (P : State DB -> Prop) (Q : A -> State DB -> Prop) : (forall s, P s -> Q a s) -> safe (ret a) P Q.
Proof. intros HQ s Hok HP. split; [by apply good_refl|by apply HQ]. Qed.
Lemma safe_raise {A} e P (Q : A -> State DB -> Prop) : safe (raise e) P Q.
Proof. intros s Hok HP. split; [by apply good_refl|done]. Qed.
Lemma safe_get {A} (f : State DB -> A) (P : State DB -> Prop) (Q : A -> State DB -> Prop) : (forall s, P s -> Q (f s) s) -> safe (get f) P Q.
Proof. intros HQ s Hok HP. split; [by apply good_refl|by apply HQ]. Qed.
Lemma safe_pure {A B} (m : result B A) (g : B -> state_exn) (P : State DB -> Prop) (Q : A -> State DB -> Prop) :
  (forall a s, m = Ok a -> P s -> Q a s) ->
  safe (fun s => match m with Ok a => (Ok a, s) | Err e => (Err (g e), s) end) P Q.
Proof. intros HQ s Hok HP. destruct m; cbn; (split; [by apply good_refl|auto]). Qed.
Lemma safe_weaken {A} (p : ST A) (P P' : State DB -> Prop) (Q Q' : A -> State DB -> Prop) :
  safe p P' Q -> (forall s, P s -> P' s) -> (forall a s, Q a s -> Q' a s) -> safe p P Q'.
Proof. intros Hp HP HQ s Hok HPs. destruct (Hp s Hok (HP s HPs)) as [Hg Hr]. split; [done|]. destruct (fst (p s)); auto. Qed.

(** ** The cache *)

(** What clearing the cache may do. *)
Record cleared s s' : Prop := {
  cleared_ok : st_ok s';
  cleared_eq : st_eq s s';
  cleared_log : m_changeLog s' = m_changeLog s;
  cleared_none a : m_cache s !! a = None -> m_cache s' !! a = None;
}.

Lemma clear_one_spec s : st_ok s -> cleared s (clear_one s).
Proof.
  intros [H1 H2 H3]. unfold clear_one. set (u := removelast _). set (addr := default [] _). cbn [m_cache set_unchanged].
  destruct (m_cache s !! addr) as [x|] eqn:E; [|by split; [split|apply st_eq_same| |]].
  destruct (isDirty x) eqn:Ed; cbn [negb]; [by split; [split|apply st_eq_same| |]|].
  split; [| |done|].
  - split; [done|done|]. intros a y. cbn. intros [_ Hy]%lookup_delete_Some. by apply H3.
  - split; [done|done|]. intros a. cbn. destruct (decide (a = addr)) as [->|Hn].
    + rewrite lookup_delete_eq, E. split; [done|]. by apply (ok_clean _ _ _ (H3 _ _ E)).
    + rewrite lookup_delete_ne by done. apply ent_eq_refl.
  - intros a Ha. cbn. by rewrite lookup_delete_None, Ha; right.
Qed.

Lemma clear_loop_spec fuel s : st_ok s -> cleared s (clear_loop fuel s).
Proof.
  revert s. induction fuel as [|fuel IH]; intros s Hok; cbn [clear_loop]; [by split; [|apply st_eq_refl| |]|].
  destruct (_ >? _); [|by split; [|apply st_eq_refl| |]].
  destruct (clear_one_spec s Hok) as [H1 H2 H3 H4]. destruct (IH _ H1) as [H5 H6 H7 H8].
  split; [done|by eapply st_eq_trans|congruence|auto].
Qed.

(** The account at an address, before it is loaded. *)
Definition obs s (a : Address) : option Account :=
  match m_cache s !! a with Some x => Some x | None => default None (base (m_state s) a) end.

(** The account is in the cache, or not in the trie. *)
Definition loaded (a : Address) (ox : option Account) s : Prop :=
  match ox with
  | Some x => m_cache s !! a = Some x
  | None => m_cache s !! a = None /\ hashed_at (m_state s) a = Ok []
  end.

Lemma fromBigEndian_range w bs : 0 <= w -> 0 <= fromBigEndian w bs < 2 ^ w.
Proof.
  intros Hw. unfold fromBigEndian. destruct bs as [|bs b _] using rev_ind; cbn; [lia|].
  rewrite fold_left_app. cbn. apply (wrap_range w); lia.
Qed.
Lemma toInt_range w d fl v : 0 <= w -> RLP.toInt w d fl = Ok v -> 0 <= v < 2 ^ w.
Proof.
  intros Hw. unfold RLP.toInt. intros Hr. repeat (apply result_bind_Ok in Hr as (? & ? & Hr)).
  assert (0 < 2 ^ w) by lia. destruct (_ || _); [destruct (RLP.has _ _); [done|injection Hr as <-; lia]|].
  apply result_bind_Ok in Hr as (p & _ & Hr). destruct (_ && _); [destruct (RLP.has _ _); [done|injection Hr as <-; lia]|].
  injection Hr as <-. by apply fromBigEndian_range.
Qed.

Lemma read_account_ok t a b x :
  hashed_at t a = Ok b -> b <> [] -> read_account b = Ok x -> base t a = Some (Some x) /\ acc_ok t a x.
Proof.
  intros Hb Hne Hr. assert (base t a = Some (Some x)) as Hbase by (unfold base; rewrite Hb; destruct b; [done|by rewrite Hr]).
  split; [done|]. unfold read_account in Hr. repeat (apply result_bind_Ok in Hr as (? & ? & Hr)). case_bool_decide; [done|]. injection Hr as <-.
  split; [|by right; left|intros _; eexists; split; [exact Hbase|apply acc_eq_refl]]. cbn.
  match goal with E : RLP.toInt 256 _ _ = Ok ?v |- 0 <= ?v < _ => by apply toInt_range in E; [|lia] end.
Qed.

(** Loading an account leaves the state as it was. *)
Record quiet s s' : Prop := {
  quiet_ok : st_ok s';
  quiet_eq : st_eq s s';
  quiet_log : m_changeLog s' = m_changeLog s;
}.
Lemma quiet_refl s : st_ok s -> quiet s s.
Proof. intros. by split; [|apply st_eq_refl|]. Qed.
Lemma quiet_good s s' : quiet s s' -> good s s'.
Proof. intros []. by apply good_silent. Qed.

Lemma account_quiet a s :
  st_ok s ->
  quiet s (snd (account a s)) /\
  match fst (account a s) with Ok oa => oa = obs s a /\ loaded a oa (snd (account a s)) | Err _ => True end.
Proof.
  intros Hok. unfold account, obs. destruct (m_cache s !! a) as [x|] eqn:E; cbn.
  { split; [by apply quiet_refl|done]. }
  unfold base. case_bool_decide as Hn; cbn.
  { pose proof (ok_non _ Hok _ Hn) as Hb. rewrite Hb. split; [by apply quiet_refl|done]. }
  destruct (hashed_at (m_state s) a) as [b|e] eqn:Hb; cbn; [|split; [by apply quiet_refl|done]]. destruct b as [|z b].
  - cbn. split; [|done]. split; [|by apply st_eq_same|done]. destruct Hok as [H1 H2 H3].
    split; [done| |done]. cbn. intros a' [->%elem_of_singleton|]%elem_of_union; auto.
  - destruct (clear_loop_spec (List.length (m_unchangedCacheEntries s)) s Hok) as [H1 H2 H3 H4]. fold (clearCacheIfTooLarge s) in *.
    destruct (read_account (z :: b)) as [x|e] eqn:Hr; cbn; [|by split].
    destruct (read_account_ok _ _ _ _ Hb ltac:(done) Hr) as [Hbase Hacc]. pose proof (eq_state _ _ H2) as Et.
    split; [|split; [done|cbn; by rewrite lookup_insert_eq]]. split; [| |done].
    + destruct H1 as [H5 H6 H7]. split; [done|done|]. cbn. intros a' y. rewrite lookup_insert_Some. intros [[<- <-]|[_ Hy]]; [by rewrite Et|auto].
    + eapply st_eq_trans; [exact H2|]. split; [done|done|]. cbn. intros a'. destruct (decide (a = a')) as [<-|Hne].
      * rewrite lookup_insert_eq, (H4 a E), Et. exists x. split; [done|apply acc_eq_refl].
      * rewrite lookup_insert_ne by done. apply ent_eq_refl.
Qed.

Lemma account_safe a (P : option Account -> Prop) :
  safe (account a) (fun s => P (obs s a)) (fun oa s => P oa /\ loaded a oa s).
Proof.
  intros s Hok HP. destruct (account_quiet a s Hok) as [Hq Ho]. split; [by apply quiet_good|].
  destruct (fst (account a s)); [|done]. destruct Ho as [-> Hl]. done.
Qed.

(** ** Changes *)

(** [f] on an account that is in the cache. *)
Definition put (a : Address) (f : Account -> Account) s : State DB :=
  set_cache (<[a := f (cached (m_cache s) a)]> (m_cache s)) s.
(** The same with an entry in the log. *)
Definition change (a : Address) (f : Account -> Account) (c : Change) s : State DB :=
  set_log (m_changeLog s ++ [c]) (put a f s).

Lemma cached_Some s a x : m_cache s !! a = Some x -> cached (m_cache s) a = x.
Proof. unfold cached. by intros ->. Qed.

Lemma put_st_ok s a f : st_ok s -> acc_ok (m_state s) a (f (cached (m_cache s) a)) -> st_ok (put a f s).
Proof.
  intros [H1 H2 H3] Ha. split; [done|done|]. cbn. intros b y. rewrite lookup_insert_Some. intros [[<- <-]|[_ Hy]]; auto.
Qed.

(** A change the log does not mention. *)
Lemma put_good s a f x :
  st_ok s -> m_cache s !! a = Some x -> acc_ok (m_state s) a (f x) -> acc_eq (m_state s) x (f x) -> good s (put a f s).
Proof.
  intros Hok Hx Ha He. pose proof (cached_Some s a x Hx) as Ec. apply good_silent; [apply put_st_ok; [done|by rewrite Ec]| |done].
  split; [done|done|]. cbn. intros b. rewrite Ec. destruct (decide (a = b)) as [<-|Hn].
  - by rewrite lookup_insert_eq, Hx.
  - rewrite lookup_insert_ne by done. apply ent_eq_refl.
Qed.

(** What undoing [c] does to the account. *)
Definition undone (c : Change) (y : Account) : Account :=
  match c with
  | Storage _ k v => Account.setStorage k v y
  | StorageRoot _ r => setStorageRoot r y
  | Balance _ v => Account.addBalance (wrap 256 (0 - v)) y
  | Nonce _ n => Account.setNonce n y
  | Code _ o => Account.setCode o y
  | Touch _ => untouch y
  | Create _ => y
  end.

Lemma undo_undone c s y :
  (forall b, c <> Create b) -> m_cache s !! address c = Some y ->
  exists s', undo c s = (Ok tt, s') /\ m_state s' = m_state s /\ m_accountStartNonce s' = m_accountStartNonce s /\
    m_changeLog s' = m_changeLog s /\ m_cache s' = <[address c := undone c y]> (m_cache s).
Proof.
  intros Hc Hy. pose proof (cached_Some _ _ _ Hy) as Ec.
  assert (cached (<[address c := cached (m_cache s) (address c)]> (m_cache s)) (address c) = y) as Ec'.
  { unfold cached at 1. by rewrite lookup_insert_eq, Ec. }
  destruct c as [b v|b k v|b r|b n|b|b o|b]; [..|]; try (by destruct (Hc b)); eexists; (split; [reflexivity|]); cbn in *;
    (split_and!; [done|done|done|]); by rewrite Ec', insert_insert_eq.
Qed.

(** A logged change is good when it can be undone. *)
Lemma change_good s a f c x :
  st_ok s -> m_cache s !! a = Some x -> address c = a -> (forall b, c <> Create b) ->
  isDirty (f x) = true -> acc_ok (m_state s) a (f x) ->
  (forall y, acc_eq (m_state s) (f x) y -> acc_eq (m_state s) x (undone c y)) ->
  good s (change a f c s).
Proof.
  intros Hok Hx Ea Hc Hd Ha Hu. pose proof (cached_Some s a x Hx) as Ec.
  assert (st_ok (change a f c s)) as Hok'.
  { destruct (put_st_ok s a f Hok ltac:(by rewrite Ec)) as [H1 H2 H3]. by split. }
  split; [done|done|done|]. exists [c]. split; [done|]. intros s1 [E1 E2 E3] Hl.
  pose proof (E3 a) as Hy. cbn in Hy. rewrite Ec, lookup_insert_eq in Hy.
  destruct (m_cache s1 !! a) as [y|] eqn:Ey; [|destruct Hy as [Hy _]; congruence]. cbn in Hy.
  destruct (undo_undone c s1 y Hc ltac:(by rewrite Ea)) as (s2 & Eu & E4 & E5 & E6 & E7).
  cbn [undo_all]. unfold bind at 1. rewrite Eu. unfold bind, modify, ret. eexists. split; [reflexivity|]. split.
  - split; [cbn in *; congruence|cbn in *; congruence|]. intros b. cbn. rewrite E7, Ea. destruct (decide (a = b)) as [<-|Hn].
    + rewrite lookup_insert_eq, Hx. by apply Hu.
    + rewrite lookup_insert_ne by done. specialize (E3 b). cbn in E3. by rewrite lookup_insert_ne in E3.
  - cbn. rewrite E6, Hl. cbn. by rewrite removelast_last.
Qed.

(** Creating an account where there is none. *)
Definition create (a : Address) (x : Account) s : State DB :=
  set_log (m_changeLog s ++ [Create a])
    (set_nonExisting (m_nonExistingAccountsCache s ∖ {[a]}) (set_cache (<[a := x]> (m_cache s)) s)).
Lemma create_good s a x :
  st_ok s -> m_cache s !! a = None -> isDirty x = true -> acc_ok (m_state s) a x -> good s (create a x s).
Proof.
  intros Hok Hx Hd Ha. split; [|done|done|].
  - destruct Hok as [H1 H2 H3]. split; [done| |].
    + cbn. intros b [Hb _]%elem_of_difference. auto.
    + cbn. intros b y. rewrite lookup_insert_Some. intros [[<- <-]|[_ Hy]]; auto.
  - exists [Create a]. split; [done|]. intros s1 [E1 E2 E3] Hl. cbn [undo_all]. unfold bind, modify, ret, undo, update_account. cbn.
    eexists. split; [reflexivity|]. split; [|cbn; rewrite Hl; cbn; by rewrite removelast_last].
    split; [cbn in *; congruence|cbn in *; congruence|]. intros b. cbn. destruct (decide (a = b)) as [<-|Hn].
    + by rewrite lookup_delete_eq, Hx.
    + rewrite lookup_delete_ne, lookup_insert_ne by done. specialize (E3 b). cbn in E3. by rewrite lookup_insert_ne in E3.
Qed.

(** ** The accounts under the changes *)

Lemma wrap_add_sub b v : 0 <= b < 2 ^ 256 -> wrap 256 (wrap 256 (b + v) + wrap 256 (0 - v)) = b.
Proof.
  intros Hb. unfold wrap. rewrite <- Zplus_mod. replace (b + v + (0 - v)) with b by lia. by apply Z.mod_small.
Qed.

(** Not an empty account that has not been touched. *)
Definition settled (x : Account) : Prop := isDirty x || negb (isEmpty x) = true.

Lemma dirty_ok t a x : isDirty x = true -> 0 <= m_balance x < 2 ^ 256 -> code_ok x -> acc_ok t a x.
Proof. intros Hd Hb Hc. split; [done|done|]. by rewrite Hd. Qed.

Lemma removed_settled x y : settled x -> isEmpty y = isEmpty x -> isEmpty y = isDirty x && isEmpty x.
Proof. unfold settled. intros Hs ->. by destruct (isDirty x), (isEmpty x). Qed.

Section Undone.
Context t (x : Account) (Hs : settled x).

Lemma undone_nonce a n y : acc_eq t (Account.setNonce n x) y -> acc_eq t x (undone (Nonce a (m_nonce x)) y).
Proof.
  intros [E1 E2 E3 E4 E5 E6 E7 E8 E9]. split; try done; cbn in *.
  apply removed_settled; [done|]. unfold isEmpty. cbn. by rewrite E3, E4.
Qed.
Lemma undone_balance a v y :
  0 <= m_balance x < 2 ^ 256 -> acc_eq t (Account.addBalance v x) y -> acc_eq t x (undone (Balance a v) y).
Proof.
  intros Hb [E1 E2 E3 E4 E5 E6 E7 E8 E9]. cbn in *. pose proof (wrap_add_sub _ v Hb) as Ew.
  split; try done; cbn in *; [by rewrite E3|].
  apply removed_settled; [done|]. unfold isEmpty. cbn. by rewrite E2, E3, E4, Ew.
Qed.
Lemma undone_storage a k v old y :
  look t x k = Some old -> acc_eq t (Account.setStorage k v x) y -> acc_eq t x (undone (Storage a k old) y).
Proof.
  intros Hk [E1 E2 E3 E4 E5 E6 E7 E8 E9]. split; try done; cbn in *.
  - intros k'. specialize (E6 k'). unfold look in *. cbn in *. destruct (decide (k = k')) as [<-|Hn].
    + by rewrite lookup_insert_eq, Hk.
    + by rewrite lookup_insert_ne in * by done.
  - apply removed_settled; [done|]. unfold isEmpty. cbn. by rewrite E2, E3, E4.
Qed.
Lemma undone_root a y :
  (forall k v, m_storageOverlay x !! k = Some v -> slot t (m_storageRoot x) k = Some v) ->
  acc_eq t (Account.clearStorage x) y -> acc_eq t x (undone (StorageRoot a (m_storageRoot x)) y).
Proof.
  intros Hk [E1 E2 E3 E4 _ _ E7 _ _]. split; cbn [undone setStorageRoot with_storage m_isAlive m_nonce m_balance m_codeHash m_storageRoot]; [done..| |done|done|].
  - intros k. unfold look. cbn. rewrite lookup_empty. destruct (m_storageOverlay x !! k) as [v|] eqn:E; [by apply Hk|done].
  - apply removed_settled; [done|]. unfold isEmpty. cbn. by rewrite E2, E3, E4.
Qed.
End Undone.

Lemma code_of_hash t x c : code_ok x -> code_of t x = Some c -> sha3 c = m_codeHash x.
Proof.
  unfold code_ok, code_of. intros Hc. case_bool_decide as E; [intros [= <-]; by symmetry|].
  destruct (m_codeCache x) as [|b l] eqn:Ec.
  - case_bool_decide as E'; [|discriminate]. intros [= <-]. exact E'.
  - intros [= <-]. destruct Hc as [Hc|[Hc|Hc]]; [contradiction|discriminate Hc|exact Hc].
Qed.

Lemma undone_code t x a c old y :
  isDirty x = true -> code_ok x -> code_of t x = Some old ->
  acc_eq t (Account.setCode c x) y -> acc_eq t x (undone (Code a old) y).
Proof.
  intros Hd Hc Ho [E1 E2 E3 _ E5 E6 _ E8 _]. pose proof (code_of_hash t x old Hc Ho) as Eh. specialize (E8 Hd).
  split; cbn [undone Account.setCode with_code m_isAlive m_nonce m_balance m_codeHash m_storageRoot]; [exact E1|exact E2|exact E3|exact Eh|exact E5|exact E6| |intros _; exact E8|].
  - rewrite Ho. unfold code_of. cbn [Account.setCode with_code m_codeHash m_codeCache]. case_bool_decide as E.
    + unfold code_of in Ho. rewrite Eh in E. rewrite bool_decide_true in Ho by exact E. exact Ho.
    + destruct old; [by destruct E|reflexivity].
  - change (isDirty (Account.setCode old y)) with (isDirty y). rewrite E8, Hd. unfold isEmpty. cbn [Account.setCode with_code m_nonce m_balance m_codeHash].
    cbn in E2, E3. by rewrite E2, E3, Eh.
Qed.
Lemma undone_touch t x a y :
  isDirty x = false -> 0 <= m_balance x < 2 ^ 256 -> acc_eq t (Account.addBalance 0 x) y -> acc_eq t x (undone (Touch a) y).
Proof.
  intros Hd Hb [E1 E2 E3 E4 E5 E6 E7 E8 E9]. cbn in *. rewrite Z.add_0_r, wrap_small in E3 by done.
  split; try done; cbn; rewrite Hd; done.
Qed.

(** ** The operations *)

(** A step that ends in a known state. *)
Lemma safe_step {A} (p : ST A) (P : State DB -> Prop) (Q : A -> State DB -> Prop) :
  (forall s, st_ok s -> P s -> exists a s', p s = (Ok a, s') /\ good s s' /\ Q a s') -> safe p P Q.
Proof. intros Hp s Hok HP. destruct (Hp s Hok HP) as (a & s' & E & Hg & HQ). by rewrite E. Qed.

Lemma safe_assoc {A B C} (p : ST A) (f : A -> ST B) (g : B -> ST C) P Q :
  safe (bind p (fun a => bind (f a) g)) P Q -> safe (bind (bind p f) g) P Q.
Proof.
  intros Hp s Hok HP. specialize (Hp s Hok HP). unfold bind in *. by destruct (p s) as [[a|e] s'].
Qed.

(** A fact about the account survives loading it. *)
Abbreviation on a P := (fun s => P (obs s a)) (only parsing).

Lemma createAccount_safe a x (Hd : isDirty x = true) (Hb : 0 <= m_balance x < 2 ^ 256) (Hc : code_ok x) :
  safe (createAccount a x) (fun _ => True) (fun _ s => m_cache s !! a = Some x).
Proof.
  unfold createAccount, addressInUse. eapply safe_bind.
  - eapply safe_bind; [apply (account_safe a (fun _ => True))|]. intros oa.
    apply (safe_ret _ _ (fun b s => if b : bool then True else m_cache s !! a = None)). intros s [_ Hl]. destruct oa; [done|apply Hl].
  - intros []; [apply safe_raise|]. apply safe_step. intros s Hok Hn. cbn.
    eexists _, (create a x s). split; [reflexivity|]. split; [|cbn; by rewrite lookup_insert_eq].
    apply create_good; [done|done|done|by apply dirty_ok].
Qed.

Lemma requireAccountStartNonce_safe P : safe requireAccountStartNonce P (fun _ s => P s).
Proof.
  unfold requireAccountStartNonce. eapply safe_bind; [apply (safe_get _ _ (fun _ s => P s)); done|].
  intros n. destruct (n =? Invalid256); [apply safe_raise|by apply safe_ret].
Qed.

Lemma createContract_safe a : safe (createContract a) (fun _ => True) (fun _ _ => True).
Proof.
  unfold createContract. eapply safe_bind; [apply requireAccountStartNonce_safe|]. intros n.
  eapply safe_weaken; [apply createAccount_safe; [done|cbn; lia|by left]|done|done].
Qed.

Definition settled_if (ox : option Account) : Prop := match ox with Some x => settled x | None => True end.

Lemma setNonce_good s a x n :
  st_ok s -> m_cache s !! a = Some x -> settled x -> good s (change a (Account.setNonce n) (Nonce a (m_nonce x)) s).
Proof.
  intros Hok Hx Hs. destruct (ok_acc _ Hok _ _ Hx) as [H1 H2 _]. apply (change_good s a _ _ x); [done|done|done|done|done|by apply dirty_ok|].
  intros y. by apply undone_nonce.
Qed.

Lemma setNonce_safe a n : safe (setNonce a n) (on a settled_if) (fun _ _ => True).
Proof.
  unfold setNonce. eapply safe_bind; [apply (account_safe a settled_if)|]. intros [x|].
  - apply safe_step. intros s Hok [Hs Hx]. eexists _, _. split; [reflexivity|]. split; [exact (setNonce_good s a x n Hok Hx Hs)|done].
  - eapply safe_weaken; [apply createAccount_safe; [done|cbn; lia|by left]|done|done].
Qed.
Lemma incNonce_safe a : safe (incNonce a) (on a settled_if) (fun _ _ => True).
Proof.
  unfold incNonce. eapply safe_bind; [apply (account_safe a settled_if)|]. intros [x|].
  - apply safe_step. intros s Hok [Hs Hx]. eexists _, _. split; [reflexivity|]. split; [|done].
    pose proof (setNonce_good s a x (wrap 256 (m_nonce x + 1)) Hok Hx Hs) as Hg. cbn in Hx.
    assert (change a (Account.setNonce (wrap 256 (m_nonce x + 1))) (Nonce a (m_nonce x)) s = change a Account.incNonce (Nonce a (m_nonce x)) s) as E
      by (unfold change, put; by rewrite (cached_Some s a x Hx)).
    rewrite E in Hg. exact Hg.
  - eapply safe_bind; [apply requireAccountStartNonce_safe|]. intros n.
    eapply safe_weaken; [apply createAccount_safe; [done|cbn; lia|by left]|done|done].
Qed.

(** [addBalance] on an account in the cache: marking it, then changing it. *)
Definition touch (a : Address) (x : Account) s : State DB :=
  if negb (isDirty x) && isEmpty x then change a (Account.addBalance 0) (Touch a) s else put a (Account.addBalance 0) s.

Lemma addBalance_0 v x : 0 <= m_balance x < 2 ^ 256 -> Account.addBalance v (Account.addBalance 0 x) = Account.addBalance v x.
Proof. intros Hb. unfold Account.addBalance. cbn. by rewrite Z.add_0_r, (wrap_small 256 (m_balance x)). Qed.

Lemma addBalance_ok t a v x : acc_ok t a x -> acc_ok t a (Account.addBalance v x).
Proof. intros [H1 H2 _]. apply dirty_ok; [done| |done]. apply (wrap_range 256). lia. Qed.

Lemma touch_good s a x :
  st_ok s -> m_cache s !! a = Some x -> good s (touch a x s) /\ m_cache (touch a x s) !! a = Some (Account.addBalance 0 x).
Proof.
  intros Hok Hx. pose proof (ok_acc _ Hok _ _ Hx) as Ha. pose proof (ok_balance _ _ _ Ha) as Hb. unfold touch.
  pose proof (cached_Some s a x Hx) as Ec. destruct (isDirty x) eqn:Ed, (isEmpty x) eqn:Ee; cbn [negb andb].
  all: split; [|cbn; by rewrite Ec, lookup_insert_eq].
  3:{ apply (change_good s a _ _ x); [done|done|done|done|done|by apply addBalance_ok|]. intros y. by apply undone_touch. }
  all: apply (put_good s a _ x Hok Hx); [by apply addBalance_ok|].
  all: split; try done; cbn; [by rewrite Z.add_0_r, wrap_small|]; unfold isEmpty in *; cbn; by rewrite Z.add_0_r, wrap_small, Ee, ?Ed by done.
Qed.

Lemma balance_good s a x v :
  st_ok s -> m_cache s !! a = Some x -> settled x -> good s (change a (Account.addBalance v) (Balance a v) s).
Proof.
  intros Hok Hx Hs. pose proof (ok_acc _ Hok _ _ Hx) as Ha. apply (change_good s a _ _ x); [done|done|done|done|done|by apply addBalance_ok|].
  intros y. apply undone_balance; [done|apply Ha].
Qed.

Lemma addBalance_safe a v : 0 <= v < 2 ^ 256 -> safe (addBalance a v) (fun _ => True) (fun _ _ => True).
Proof.
  intros Hv. unfold addBalance. eapply safe_bind; [apply (account_safe a (fun _ => True))|]. intros [x|].
  - intros s Hok [_ Hx]. cbn in Hx. destruct (touch_good s a x Hok Hx) as [Hg Hx'].
    assert (snd (bind (bind (if negb (isDirty x) && isEmpty x then log (Touch a) else ret tt)
                     (fun _ => update_account a (Account.addBalance v)))
                  (fun _ => if negb (v =? 0) then log (Balance a v) else ret tt) s) =
            if negb (v =? 0) then change a (Account.addBalance v) (Balance a v) (touch a x s) else touch a x s) as ->.
    { unfold touch, change, put, bind, log, update_account, modify, ret. pose proof (cached_Some s a x Hx) as Ec.
      pose proof (addBalance_0 v x (ok_balance _ _ _ (ok_acc _ Hok _ _ Hx))) as E0.
      destruct (negb (isDirty x) && isEmpty x), (Z.eqb_spec v 0) as [->|Hne]; cbn; rewrite Ec; unfold cached;
        rewrite ?lookup_insert_eq, ?insert_insert_eq; cbn; by rewrite ?E0. }
    split; [|by destruct (fst _)]. destruct (negb (v =? 0)); [|done].
    eapply good_trans; [exact Hg|]. apply (balance_good _ a (Account.addBalance 0 x)); [apply Hg|done|done].
  - apply safe_assoc. eapply safe_bind; [apply requireAccountStartNonce_safe|]. intros n.
    unfold createAccount, addressInUse. do 2 apply safe_assoc.
    eapply safe_bind; [eapply safe_weaken; [apply (account_safe a (fun _ => True))|done|intros oa s Ho; exact Ho]|]. intros [x|].
    { intros s Hok _. split; [by apply good_refl|done]. }
    apply safe_step. intros s Hok [_ [Hx _]]. pose proof (create_good s a (basic n 0) Hok Hx ltac:(done) ltac:(by apply dirty_ok; [|cbn; lia|left])) as Hg.
    assert (m_cache (create a (basic n 0) s) !! a = Some (basic n 0)) as Hx' by (cbn; by rewrite lookup_insert_eq).
    pose proof (balance_good _ a _ v (good_ok _ _ Hg) Hx' ltac:(done)) as Hg'.
    exists tt, (if negb (v =? 0) then change a (Account.addBalance v) (Balance a v) (create a (basic n 0) s) else create a (basic n 0) s).
    split; [|split; [destruct (negb (v =? 0)); [by eapply good_trans|done]|done]].
    assert (Account.addBalance v (basic n 0) = basic n v) as Eb by (unfold Account.addBalance, basic; cbn; by rewrite wrap_small).
    destruct (Z.eqb_spec v 0) as [->|Hne]; cbn; [done|]. unfold change, put, create. cbn. do 2 f_equal. unfold cached.
    rewrite lookup_insert_eq, insert_insert_eq. cbn. by rewrite Eb.
Qed.

Lemma safe_good {A} (p : ST A) (P : State DB -> Prop) :
  (forall s, st_ok s -> P s -> good s (snd (p s))) -> safe p P (fun _ _ => True).
Proof. intros Hp s Hok HP. split; [by apply Hp|]. by destruct (fst (p s)). Qed.
Lemma safe_true {A} (p : ST A) P Q : safe p (fun _ => True) Q -> safe p P (fun _ _ => True).
Proof. intros Hp. by eapply safe_weaken. Qed.

Lemma subBalance_safe a v : 0 <= v < 2 ^ 256 -> safe (subBalance a v) (fun _ => True) (fun _ _ => True).
Proof.
  intros Hv. unfold subBalance. destruct (v =? 0); [by apply safe_ret|].
  eapply safe_bind; [apply (account_safe a (fun _ => True))|]. intros [x|]; [|apply safe_raise].
  destruct (_ <? _); [apply safe_raise|]. eapply safe_true, addBalance_safe, (wrap_range 256). lia.
Qed.
Lemma transferBalance_safe a b v : 0 <= v < 2 ^ 256 -> safe (transferBalance a b v) (fun _ => True) (fun _ _ => True).
Proof. intros Hv. unfold transferBalance. eapply safe_bind; [by apply subBalance_safe|]. intros u. by apply addBalance_safe. Qed.

(** *** Storage *)

Lemma setRoot_keeps (d : DB) r0 r :
  db_exists d EmptyTrie = true -> m_db (snd (TrieDB.setRoot {| m_root := r0; m_db := d |} r)) = d.
Proof.
  intros He. unfold TrieDB.setRoot, update, setRoot_prog. cbn [m_db m_root]. case_bool_decide as E; cbn [pbind run node].
  - rewrite E, He. cbn [pbind run node]. by destruct (_ =? 0).
  - by destruct (_ =? 0).
Qed.

Lemma open_storage_spec r s :
  db_exists (m_db (m_state s)) EmptyTrie = true ->
  open_storage r s =
  (match fst (TrieDB.setRoot {| m_root := r; m_db := m_db (m_state s) |} r) with
   | Ok _ => Ok (snd (TrieDB.setRoot {| m_root := r; m_db := m_db (m_state s) |} r))
   | Err e => Err (Trie e)
   end, s).
Proof.
  intros He. pose proof (setRoot_keeps _ r r He) as Hk. unfold open_storage, bind, get.
  destruct (TrieDB.setRoot _ r) as [[u|e] st]; cbn in *; rewrite Hk; by destruct s as [[] ? ? ? ? ? ? ?].
Qed.

(** Reading storage and code changes only what is cached. *)
Definition stable (P : option Account -> Prop) : Prop :=
  (forall x k v, P (Some x) -> P (Some (setStorageCache k v x))) /\
  (forall x c, P (Some x) -> P (Some (with_code (m_hasNewCode x) (m_codeHash x) c x))).

Lemma setStorageCache_eq t x k v :
  m_storageOverlay x !! k = None -> slot t (m_storageRoot x) k = Some v -> acc_eq t x (setStorageCache k v x) /\ acc_eq t (setStorageCache k v x) x.
Proof.
  intros Hn Hs. assert (forall k', look t (setStorageCache k v x) k' = look t x k') as Hl.
  { intros k'. unfold look. cbn. destruct (decide (k = k')) as [<-|Hk]; [by rewrite lookup_insert_eq, Hn, Hs|by rewrite lookup_insert_ne]. }
  split; (split; [done..| |done|done|done]); intros k'; by rewrite Hl.
Qed.

Lemma acc_ok_eq t a x y :
  acc_ok t a x -> acc_eq t x y -> acc_eq t y x -> code_ok y -> acc_ok t a y.
Proof.
  intros [H1 H2 H3] He He' Hc. split; [by rewrite (eq_balance _ _ _ He)|done|]. intros Hd.
  destruct (isDirty x) eqn:E; [by rewrite (eq_dirty _ _ _ He E) in Hd|]. destruct (H3 eq_refl) as (b & Hb & Hxb).
  exists b. split; [done|]. by eapply acc_eq_trans.
Qed.

Lemma storage_safe a k P : stable P ->
  safe (storage a k) (on a P)
    (fun v s => P (m_cache s !! a) /\ forall x, m_cache s !! a = Some x -> look (m_state s) x k = Some v).
Proof.
  intros [HP _]. unfold storage. eapply safe_bind; [apply (account_safe a P)|]. intros [x|].
  2:{ apply safe_ret. intros s [H0 [Hn _]]. by rewrite Hn. }
  destruct (m_storageOverlay x !! k) as [v|] eqn:Eo.
  { apply safe_ret. intros s [H0 Hx]. cbn in Hx. rewrite Hx. split; [done|]. intros y [= <-]. unfold look. by rewrite Eo. }
  eapply (safe_bind _ _ _ (fun r s => r = m_storageRoot x /\ r <> replicate 32 0 /\ P (Some x) /\ m_cache s !! a = Some x)).
  { apply safe_pure. intros r s Hr [H0 Hx]. unfold baseRoot in Hr. case_bool_decide; [done|]. by injection Hr as <-. }
  intros r. intros s Hok (-> & Hr & H0 & Hx). unfold bind. rewrite !open_storage_spec by apply Hok.
  pose proof (fun v => setStorageCache_eq (m_state s) x k v Eo) as Heq. unfold slot in Heq. rewrite bool_decide_false in Heq by done.
  destruct (TrieDB.setRoot _ _) as [[u|e] st]; cbn [fst snd] in *; [|split; [by apply good_refl|done]].
  unfold of_trie. destruct (hashed_at st (key_bytes k)) as [p|e] eqn:Ep; cbn; [|split; [by apply good_refl|done]].
  assert ((match p with [] => ret 0 | _ => of_rlp (let! r := RLP.make p RLP.VeryStrict in RLP.toInt 256 r RLP.Strict) end) s =
          match slot_value p with Ok v => (Ok v, s) | Err e => (Err (Trie (TrieDB.Rlp e)), s) end) as -> by by destruct p.
  destruct (slot_value p) as [v|e] eqn:Ev; cbn; [|split; [by apply good_refl|done]].
  destruct (Heq v eq_refl) as [H1 H2]. pose proof (ok_acc _ Hok _ _ Hx) as Ha. split.
  - change (good s (put a (setStorageCache k v) s)). apply (put_good s a _ x Hok Hx); [|done].
    apply (acc_ok_eq _ _ x); [done|done|done|apply Ha].
  - rewrite (cached_Some s a x Hx), lookup_insert_eq. split; [by apply HP|]. intros y [= <-]. unfold look. cbn. by rewrite lookup_insert_eq.
Qed.

Definition settled_in (ox : option Account) : Prop := match ox with Some x => settled x | None => False end.

Lemma stable_true : stable (fun _ => True).
Proof. done. Qed.
Lemma stable_settled_in : stable settled_in.
Proof. done. Qed.

Lemma setStorage_safe a k v : safe (setStorage a k v) (on a settled_in) (fun _ _ => True).
Proof.
  unfold setStorage. eapply safe_bind; [apply (storage_safe a k settled_in stable_settled_in)|]. intros old.
  apply safe_step. intros s Hok [Hs Hl]. destruct (m_cache s !! a) as [x|] eqn:Hx; [|done]. specialize (Hl x eq_refl).
  pose proof (ok_acc _ Hok _ _ Hx) as [H1 H2 _].
  eexists _, (change a (Account.setStorage k v) (Storage a k old) s). split; [reflexivity|]. split; [|done].
  apply (change_good s a _ _ x); [done|done|done|done|done|by apply dirty_ok|]. intros y. by apply undone_storage.
Qed.

(** What [clearStorage] needs: the account is in the cache, and its storage has
    not been changed since it was read. *)
Definition unwritten s (a : Address) : Prop :=
  exists x, m_cache s !! a = Some x /\ settled x /\
    forall k v, m_storageOverlay x !! k = Some v -> slot (m_state s) (m_storageRoot x) k = Some v.

Lemma clearStorage_safe a : safe (clearStorage a) (fun s => unwritten s a) (fun _ _ => True).
Proof.
  apply safe_good. intros s Hok (x & Hx & Hs & Hw). unfold clearStorage, bind, get, modify, update_account at 1. pose proof (cached_Some s a x Hx) as Ec.
  cbn [modify m_cache set_cache]. rewrite Ec, (insert_id _ _ _ Hx), Ec.
  assert (set_cache (m_cache s) s = s) as Es by by destruct s. rewrite Es.
  unfold of_rlp, baseRoot. case_bool_decide; cbn; [by apply good_refl|]. case_bool_decide; cbn; [by apply good_refl|]. pose proof (ok_acc _ Hok _ _ Hx) as [Hb Hc _].
  change (good s (change a Account.clearStorage (StorageRoot a (m_storageRoot x)) s)).
  apply (change_good s a _ _ x); [done|done|done|done|done|by apply dirty_ok|]. intros y. by apply undone_root.
Qed.

(** *** Code *)

Lemma noteCode_eq t x c :
  m_codeHash x <> EmptySHA3 -> m_codeCache x = [] -> c = db_lookup (m_db t) (m_codeHash x) -> sha3 c = m_codeHash x ->
  let y := with_code (m_hasNewCode x) (m_codeHash x) c x in
  acc_eq t x y /\ acc_eq t y x /\ code_ok y /\ code_of t y = Some c.
Proof.
  intros Hh Hc Ec Hs. cbv zeta. set (y := with_code _ _ _ _).
  assert (code_of t x = Some c) as Hx.
  { unfold code_of. rewrite bool_decide_false by exact Hh. rewrite Hc. cbv zeta. rewrite <- Ec. by rewrite bool_decide_true by exact Hs. }
  assert (code_of t y = Some c) as Hy.
  { unfold code_of. cbn [y with_code m_codeHash m_codeCache]. rewrite bool_decide_false by exact Hh. destruct c as [|z c]; [|reflexivity].
    destruct Hh. rewrite <- Hs. reflexivity. }
  split_and!; [..|exact Hy].
  - split; [reflexivity..| |done|reflexivity]. congruence.
  - split; [reflexivity..| |done|reflexivity]. congruence.
  - right. right. exact Hs.
Qed.

Lemma code_safe a P : stable P ->
  safe (code a) (on a P)
    (fun c s => P (m_cache s !! a) /\ forall x, m_cache s !! a = Some x -> code_of (m_state s) x = Some c).
Proof.
  intros [_ HP]. unfold code. eapply safe_bind; [apply (account_safe a P)|]. intros [x|].
  2:{ apply safe_ret. intros s [H0 [Hn _]]. by rewrite Hn. }
  case_bool_decide as Eh.
  { apply safe_ret. intros s [H0 Hx]. cbn in Hx. rewrite Hx. split; [done|]. intros y [= <-]. unfold code_of. by rewrite bool_decide_true by exact Eh. }
  destruct (m_codeCache x) as [|z l] eqn:Ec.
  2:{ apply safe_ret. intros s [H0 Hx]. cbn in Hx. rewrite Hx. split; [done|]. intros y [= <-]. unfold code_of.
      rewrite bool_decide_false by exact Eh. by rewrite Ec. }
  intros s Hok [H0 Hx]. cbn in Hx. unfold bind, get, assert_. case_bool_decide as Es; cbn; [|split; [by apply good_refl|done]].
  destruct (noteCode_eq (m_state s) x _ Eh Ec eq_refl Es) as (H1 & H2 & H3 & H4). pose proof (ok_acc _ Hok _ _ Hx) as Ha. split.
  - eapply (put_good s a (fun a0 => with_code (m_hasNewCode a0) (m_codeHash a0) (db_lookup (m_db (m_state s)) (m_codeHash x)) a0) x Hok Hx); [|done].
    by apply (acc_ok_eq _ _ x).
  - rewrite (cached_Some s a x Hx), lookup_insert_eq. split; [by apply HP|]. intros y [= <-]. exact H4.
Qed.

Definition dirty_in (ox : option Account) : Prop := match ox with Some x => isDirty x = true | None => False end.
Lemma stable_dirty_in : stable dirty_in.
Proof. done. Qed.

Lemma setCode_safe a c : safe (setCode a c) (on a dirty_in) (fun _ _ => True).
Proof.
  unfold setCode. eapply safe_bind; [apply (code_safe a dirty_in stable_dirty_in)|]. intros old.
  apply safe_step. intros s Hok [Hd Hl]. destruct (m_cache s !! a) as [x|] eqn:Hx; [|done]. specialize (Hl x eq_refl). cbn in Hd.
  pose proof (ok_acc _ Hok _ _ Hx) as [H1 H2 _].
  eexists _, (change a (Account.setCode c) (Code a old) s). split; [reflexivity|]. split; [|done].
  apply (change_good s a _ _ x); [done|done|done|done|done| |].
  - apply dirty_ok; [done|done|]. right. right. reflexivity.
  - intros y. by apply undone_code.
Qed.

(** ** Rolling back *)

Definition acc_sane (x : Account) : Prop := 0 <= m_balance x < 2 ^ 256 /\ code_ok x.

(** What undoing keeps by itself. *)
Record sane s : Prop := {
  sane_empty : db_exists (m_db (m_state s)) EmptyTrie = true;
  sane_non a : a ∈ m_nonExistingAccountsCache s -> hashed_at (m_state s) a = Ok [];
  sane_acc a x : m_cache s !! a = Some x -> acc_sane x;
}.

Lemma st_ok_sane s : st_ok s -> sane s.
Proof. intros [H1 H2 H3]. split; [done|done|]. intros a x Hx. destruct (H3 a x Hx). done. Qed.

Lemma sane_st_ok s s' : st_ok s -> st_eq s s' -> sane s' -> st_ok s'.
Proof.
  intros Hok [E1 E2 E3] [H1 H2 H3]. split; [done|done|]. intros a y Hy. destruct (H3 a y Hy) as [Hb Hc]. split; [done|done|].
  intros Hd. specialize (E3 a). rewrite Hy in E3. rewrite E1. destruct (m_cache s !! a) as [x|] eqn:Hx; cbn in E3.
  - destruct (ok_clean _ _ _ (ok_acc _ Hok _ _ Hx)) as (b & Hbase & Hxb).
    + destruct (isDirty x) eqn:E; [|done]. by rewrite (eq_dirty _ _ _ E3 E) in Hd.
    + exists b. split; [done|]. by eapply acc_eq_trans; [apply acc_eq_sym|].
  - destruct E3 as (b & Hbase & Hby). exists b. split; [done|]. by apply acc_eq_sym.
Qed.

Lemma update_sane a f s : sane s -> acc_sane (f (cached (m_cache s) a)) -> sane (put a f s).
Proof.
  intros [H1 H2 H3] Hf. split; [done|done|]. cbn. intros b y. rewrite lookup_insert_Some. intros [[<- <-]|[_ Hy]]; eauto.
Qed.
Lemma cached_sane s a : sane s -> acc_sane (cached (m_cache s) a).
Proof.
  intros Hs. unfold cached. destruct (m_cache s !! a) as [x|] eqn:E; [by eapply sane_acc|]. cbn. split; [cbn; lia|by left].
Qed.

Lemma undo_sane c s : sane s -> sane (snd (undo c s)).
Proof.
  intros Hs. set (s1 := put (address c) (fun a => a) s).
  assert (sane s1) as Hs1 by (apply update_sane; [done|by apply cached_sane]).
  assert (forall f, (forall x, acc_sane x -> acc_sane (f x)) -> sane (put (address c) f s1)) as Hf.
  { intros f Hf. apply update_sane; [done|]. by apply Hf, cached_sane. }
  destruct c as [a v|a k v|a r|a n|a|a o|a].
  - apply (Hf (Account.addBalance (wrap 256 (0 - v)))). intros x [Hb Hc]. split; [apply (wrap_range 256); lia|done].
  - by apply (Hf (Account.setStorage k v)).
  - by apply (Hf (setStorageRoot r)).
  - by apply (Hf (Account.setNonce n)).
  - destruct Hs1 as [H1 H2 H3]. split; [done|done|]. cbn. intros b y [_ Hy]%lookup_delete_Some. by apply (H3 b).
  - apply (Hf (Account.setCode o)). intros x [Hb Hc]. split; [done|]. right. right. reflexivity.
  - destruct (Hf untouch ltac:(done)) as [H1 H2 H3]. by split.
Qed.

Lemma undo_all_sane l s : sane s -> sane (snd (undo_all l s)).
Proof.
  revert s. induction l as [|c l IH]; intros s Hs; cbn [undo_all]; [done|].
  pose proof (undo_sane c s Hs) as Hu. unfold bind at 1. destruct (undo c s) as [r s'] eqn:E. apply undo_log in E as [-> _].
  unfold bind, modify. apply IH. cbn in Hu. destruct Hu as [H1 H2 H3]. by split.
Qed.

(** [rollback] takes back what can be taken back. *)
Lemma rollback_spec s s' :
  st_ok s -> good s s' ->
  exists s2, rollback (List.length (m_changeLog s)) s' = (Ok tt, s2) /\ st_eq s s2 /\ m_changeLog s2 = m_changeLog s /\ st_ok s2.
Proof.
  intros Hok [Hok' _ _ (cs & El & Hu)]. destruct (Hu s' (st_eq_refl s') eq_refl) as (s2 & E & H1 & H2).
  exists s2. unfold rollback. rewrite (rollback_loop_undo cs _ _ _ El), E.
  - split_and!; [done|done|done|]. apply (sane_st_ok s); [done|done|].
    pose proof (undo_all_sane cs s' (st_ok_sane _ Hok')) as Hs. by rewrite E in Hs.
  - rewrite El, length_app, length_rev. lia.
Qed.

(** ** Scripts *)

Inductive operation :=
| OpCreateContract (a : Address)
| OpIncNonce (a : Address)
| OpSetNonce (a : Address) (n : Z)
| OpAddBalance (a : Address) (v : Z)
| OpSubBalance (a : Address) (v : Z)
| OpTransferBalance (a b : Address) (v : Z)
| OpSetStorage (a : Address) (k v : Z)
| OpClearStorage (a : Address)
| OpSetCode (a : Address) (c : bytes)
| OpBalance (a : Address)
| OpStorage (a : Address) (k : Z)
| OpCode (a : Address).

Definition run_op (o : operation) : ST unit :=
  match o with
  | OpCreateContract a => createContract a
  | OpIncNonce a => incNonce a
  | OpSetNonce a n => setNonce a n
  | OpAddBalance a v => addBalance a v
  | OpSubBalance a v => subBalance a v
  | OpTransferBalance a b v => transferBalance a b v
  | OpSetStorage a k v => setStorage a k v
  | OpClearStorage a => clearStorage a
  | OpSetCode a c => setCode a c
  | OpBalance a => bind (balance a) (fun _ => ret tt)
  | OpStorage a k => bind (storage a k) (fun _ => ret tt)
  | OpCode a => bind (code a) (fun _ => ret tt)
  end.

(** Amounts are [u256]; nonce and storage are not changed on an empty account
    that is still as it was read; storage and code are set on accounts that
    exist, code on one with other changes; storage is cleared only before it is
    written. *)
Definition op_pre (o : operation) s : Prop :=
  match o with
  | OpAddBalance _ v | OpSubBalance _ v | OpTransferBalance _ _ v => 0 <= v < 2 ^ 256
  | OpIncNonce a | OpSetNonce a _ => settled_if (obs s a)
  | OpSetStorage a _ _ => settled_in (obs s a)
  | OpClearStorage a => unwritten s a
  | OpSetCode a _ => dirty_in (obs s a)
  | _ => True
  end.

Lemma run_op_good o s : st_ok s -> op_pre o s -> good s (snd (run_op o s)).
Proof.
  intros Hok Hp. assert (forall P, safe (run_op o) P (fun _ _ => True) -> P s -> good s (snd (run_op o s))) as Hs.
  { intros P Ho HP. by destruct (Ho s Hok HP). }
  destruct o; cbn [run_op op_pre] in *.
  - by apply (Hs _ (createContract_safe a)).
  - by apply (Hs _ (incNonce_safe a)).
  - by apply (Hs _ (setNonce_safe a n)).
  - by apply (Hs _ (addBalance_safe a v Hp)).
  - by apply (Hs _ (subBalance_safe a v Hp)).
  - by apply (Hs _ (transferBalance_safe a b v Hp)).
  - by apply (Hs _ (setStorage_safe a k v)).
  - by apply (Hs _ (clearStorage_safe a)).
  - by apply (Hs _ (setCode_safe a c)).
  - apply (Hs (on a (fun _ => True))); [|done]. unfold balance. apply safe_assoc.
    eapply safe_bind; [apply (account_safe a (fun _ => True))|]. intros oa. eapply safe_bind; [by apply (safe_ret _ _ (fun _ _ => True))|]. intros v. by apply safe_ret.
  - apply (Hs (on a (fun _ => True))); [|done]. eapply safe_bind; [apply (storage_safe a k _ stable_true)|]. intros v. by apply safe_ret.
  - apply (Hs (on a (fun _ => True))); [|done]. eapply safe_bind; [apply (code_safe a _ stable_true)|]. intros v. by apply safe_ret.
Qed.

(** Operations in sequence; [Frame b k]: [b] between a savepoint and a rollback to
    it, whether [b] ends or throws, then [k]. *)
Inductive script := Done | Then (o : operation) (k : script) | Frame (b k : script).

Fixpoint run_script (p : script) : ST unit :=
  match p with
  | Done => ret tt
  | Then o k => bind (run_op o) (fun _ => run_script k)
  | Frame b k => fun s =>
      bind (rollback (List.length (m_changeLog s))) (fun _ => run_script k) (snd (run_script b s))
  end.

Fixpoint script_pre (p : script) s : Prop :=
  match p with
  | Done => True
  | Then o k => op_pre o s /\ forall s', run_op o s = (Ok tt, s') -> script_pre k s'
  | Frame b k =>
      script_pre b s /\
      forall s', rollback (List.length (m_changeLog s)) (snd (run_script b s)) = (Ok tt, s') -> script_pre k s'
  end.

Lemma run_script_good p : forall s, st_ok s -> script_pre p s -> good s (snd (run_script p s)).
Proof.
  induction p as [|o k IH|b IHb k IHk]; intros s Hok Hp; cbn [run_script script_pre] in *.
  - by apply good_refl.
  - destruct Hp as [Ho Hk]. pose proof (run_op_good o s Hok Ho) as Hg. unfold bind. destruct (run_op o s) as [[[]|e] s'] eqn:E; [|done].
    eapply good_trans; [exact Hg|]. apply IH; [apply Hg|]. by apply Hk.
  - destruct Hp as [Hb Hk]. pose proof (IHb s Hok Hb) as Hg.
    destruct (rollback_spec s _ Hok Hg) as (s2 & E & H1 & H2 & H3). unfold bind. rewrite E.
    eapply good_trans; [by apply (good_silent s s2)|]. apply IHk; [done|]. by apply Hk.
Qed.

(** ** What the getters see *)

Lemma base_clean t a b : base t a = Some (Some b) -> isDirty b = false /\ exists l, hashed_at t a = Ok l /\ l <> [] /\ read_account l = Ok b.
Proof.
  unfold base. destruct (hashed_at t a) as [[|z l]|e]; try done. destruct (read_account (z :: l)) as [x|e] eqn:Hr; [|done]. intros [= ->].
  split; [|by exists (z :: l)]. unfold read_account in Hr. repeat (apply result_bind_Ok in Hr as (? & ? & Hr)).
  case_bool_decide; [done|]. by injection Hr as <-.
Qed.

(** [account], without its effect on the cache. *)
Lemma account_result s a :
  st_ok s ->
  fst (account a s) =
  match m_cache s !! a with
  | Some x => Ok (Some x)
  | None =>
      match hashed_at (m_state s) a with
      | Err e => Err (Trie e)
      | Ok [] => Ok None
      | Ok l => match read_account l with Ok x => Ok (Some x) | Err e => Err (Trie (TrieDB.Rlp e)) end
      end
  end.
Proof.
  intros Hok. unfold account. destruct (m_cache s !! a); [done|]. case_bool_decide as Hn; [by rewrite (ok_non _ Hok _ Hn)|].
  destruct (hashed_at (m_state s) a) as [[|z l]|e]; [done| |done]. by destruct (read_account (z :: l)).
Qed.

Definition opt_eq t (ox oy : option Account) : Prop :=
  match ox, oy with Some x, Some y => acc_eq t x y | None, None => True | _, _ => False end.

Section Views.
Context s s' (Hok : st_ok s) (Hok' : st_ok s') (He : st_eq s s').

Lemma account_view a ox : fst (account a s) = Ok ox -> exists oy, fst (account a s') = Ok oy /\ opt_eq (m_state s) ox oy.
Proof.
  rewrite !account_result by done. destruct He as [E1 _ E3]. specialize (E3 a). rewrite E1.
  destruct (m_cache s !! a) as [x|], (m_cache s' !! a) as [y|]; cbn in E3.
  - intros [= <-]. by exists (Some y).
  - intros [= <-]. destruct E3 as [_ (b & Hb & Hxb)]. destruct (base_clean _ _ _ Hb) as (_ & l & Hl & Hne & Hr).
    rewrite Hl. destruct l; [done|]. rewrite Hr. by exists (Some b).
  - destruct E3 as (b & Hb & Hby). destruct (base_clean _ _ _ Hb) as (_ & l & Hl & Hne & Hr).
    rewrite Hl. destruct l; [done|]. rewrite Hr. intros [= <-]. by exists (Some y).
  - intros Hx. exists ox. split; [done|]. destruct ox; [apply acc_eq_refl|done].
Qed.

Lemma bind_account {A} (f : option Account -> ST A) a v :
  fst (bind (account a) f s) = Ok v ->
  (forall ox s1, account a s = (Ok ox, s1) -> good s s1 -> loaded a ox s1 -> fst (f ox s1) = Ok v -> 
     forall oy s2, account a s' = (Ok oy, s2) -> good s' s2 -> loaded a oy s2 -> opt_eq (m_state s) ox oy -> fst (f oy s2) = Ok v) ->
  fst (bind (account a) f s') = Ok v.
Proof.
  intros Hv Hf. unfold bind in *. pose proof (account_safe a (fun _ => True) s Hok I) as [Hg Hl].
  pose proof (account_safe a (fun _ => True) s' Hok' I) as [Hg' Hl']. pose proof (account_view a) as Hw.
  destruct (account a s) as [[ox|e] s1]; [|done]. destruct (Hw ox eq_refl) as (oy & E & Hxy).
  destruct (account a s') as [r s2]. cbn in E. subst r. cbn in *. by apply (Hf ox s1 eq_refl Hg (proj2 Hl) Hv oy s2 eq_refl Hg' (proj2 Hl')).
Qed.

Lemma pure_view {A} (g : option Account -> A) a v :
  (forall ox oy, opt_eq (m_state s) ox oy -> g oy = g ox) ->
  fst (bind (account a) (fun ox => ret (g ox)) s) = Ok v -> fst (bind (account a) (fun ox => ret (g ox)) s') = Ok v.
Proof. intros Hg Hv. apply (bind_account _ _ _ Hv). intros ox s1 _ _ _ [= <-] oy s2 _ _ _ Hxy. cbn. by rewrite (Hg ox oy). Qed.

Lemma getNonce_view a v : fst (getNonce a s) = Ok v -> fst (getNonce a s') = Ok v.
Proof.
  intros Hv. apply (bind_account _ _ _ Hv). intros ox s1 _ Hg _ Ho oy s2 _ Hg' _ Hxy. destruct ox as [x|], oy as [y|]; try done; cbn in *.
  - by rewrite (eq_nonce _ _ _ Hxy).
  - rewrite (good_start _ _ Hg'), (eq_start _ _ He), <- (good_start _ _ Hg). done.
Qed.

(** Storage and code, for a loaded account. *)
Definition storage_rest (a : Address) (k : Z) (ox : option Account) : ST Z :=
  match ox with
  | Some x =>
      match m_storageOverlay x !! k with
      | Some v => ret v
      | None =>
          bind (of_rlp (baseRoot x)) (fun root => bind (open_storage root) (fun memdb =>
          bind (of_trie (hashed_at memdb (key_bytes k))) (fun payload =>
          bind (match payload with
                | [] => ret 0
                | _ => of_rlp (let! r := RLP.make payload RLP.VeryStrict in RLP.toInt 256 r RLP.Strict)
                end) (fun v => bind (update_account a (setStorageCache k v)) (fun _ => ret v)))))
      end
  | None => ret 0
  end.

Lemma storage_rest_spec a k x s1 v :
  db_exists (m_db (m_state s1)) EmptyTrie = true ->
  (fst (storage_rest a k (Some x) s1) = Ok v <-> look (m_state s1) x k = Some v).
Proof.
  intros He1. cbn [storage_rest]. unfold look. destruct (m_storageOverlay x !! k) as [w|]; [cbn; split; congruence|].
  unfold slot, baseRoot, of_rlp, bind at 1. case_bool_decide; [done|]. unfold bind at 1. rewrite open_storage_spec by done.
  destruct (TrieDB.setRoot _ _) as [[u|e] st]; cbn [fst snd]; [|done]. unfold of_trie, bind at 1.
  destruct (hashed_at st (key_bytes k)) as [p|e]; [|done]. unfold bind at 1.
  assert ((match p with [] => ret 0 | _ => fun s => match (let! r := RLP.make p RLP.VeryStrict in RLP.toInt 256 r RLP.Strict) with Ok a => (Ok a, s) | Err e => (Err (Trie (TrieDB.Rlp e)), s) end end) s1 =
          match slot_value p with Ok v => (Ok v, s1) | Err e => (Err (Trie (TrieDB.Rlp e)), s1) end) as -> by by destruct p.
  destruct (slot_value p); cbn; split; congruence.
Qed.

Lemma storage_view a k v : fst (storage a k s) = Ok v -> fst (storage a k s') = Ok v.
Proof.
  intros Hv. apply (bind_account (storage_rest a k) a v Hv). intros ox s1 _ Hg _ Ho oy s2 _ Hg' _ Hxy.
  destruct ox as [x|], oy as [y|]; try done. apply (storage_rest_spec a k x s1 v (ok_empty _ (good_ok _ _ Hg))) in Ho.
  apply (storage_rest_spec a k y s2 v (ok_empty _ (good_ok _ _ Hg'))). rewrite (good_state _ _ Hg), <- (eq_look _ _ _ Hxy) in Ho.
  by rewrite (good_state _ _ Hg'), (eq_state _ _ He).
Qed.

Definition code_rest (a : Address) (ox : option Account) : ST bytes :=
  match ox with
  | Some x =>
      if bool_decide (m_codeHash x = EmptySHA3) then ret [] else
      match m_codeCache x with
      | [] =>
          bind (get m_state) (fun t =>
          let c := db_lookup (m_db t) (m_codeHash x) in
          bind (assert_ (bool_decide (sha3 c = m_codeHash x))) (fun _ =>
          bind (update_account a (fun a => with_code (m_hasNewCode a) (m_codeHash a) c a)) (fun _ => ret c)))
      | c => ret c
      end
  | None => ret []
  end.
Lemma code_rest_spec a x s1 c : fst (code_rest a (Some x) s1) = Ok c <-> code_of (m_state s1) x = Some c.
Proof.
  cbn [code_rest]. unfold code_of. case_bool_decide as E; [cbn; split; congruence|]. destruct (m_codeCache x); [|cbn; split; congruence].
  unfold bind, get, assert_. case_bool_decide; cbn; split; congruence.
Qed.
Lemma code_view a c : fst (code a s) = Ok c -> fst (code a s') = Ok c.
Proof.
  intros Hv. apply (bind_account (code_rest a) a c Hv). intros ox s1 _ Hg _ Ho oy s2 _ Hg' _ Hxy.
  destruct ox as [x|], oy as [y|]; try done. apply code_rest_spec in Ho. apply code_rest_spec.
  rewrite (good_state _ _ Hg), <- (eq_code _ _ _ Hxy) in Ho. by rewrite (good_state _ _ Hg'), (eq_state _ _ He).
Qed.

End Views.

(** An empty account that [commit] will remove. *)
Definition touched_empty s (a : Address) : bool :=
  match m_cache s !! a with Some x => isDirty x && isEmpty x | None => false end.

(** The getters that answered in [s] answer the same in [s']. *)
Record same_view s s' : Prop := {
  view_inUse a v : fst (addressInUse a s) = Ok v -> fst (addressInUse a s') = Ok v;
  view_nonempty a v : fst (accountNonemptyAndExisting a s) = Ok v -> fst (accountNonemptyAndExisting a s') = Ok v;
  view_hasCode a v : fst (addressHasCode a s) = Ok v -> fst (addressHasCode a s') = Ok v;
  view_balance a v : fst (balance a s) = Ok v -> fst (balance a s') = Ok v;
  view_nonce a v : fst (getNonce a s) = Ok v -> fst (getNonce a s') = Ok v;
  view_codeHash a v : fst (codeHash a s) = Ok v -> fst (codeHash a s') = Ok v;
  view_code a v : fst (code a s) = Ok v -> fst (code a s') = Ok v;
  view_storage a k v : fst (storage a k s) = Ok v -> fst (storage a k s') = Ok v;
  view_removed a : touched_empty s' a = touched_empty s a;
}.

Lemma st_eq_view s s' : st_ok s -> st_ok s' -> st_eq s s' -> same_view s s'.
Proof.
  intros Hok Hok' He. split; intros.
  - eapply (pure_view s s' Hok Hok' He); [|done]. by intros [x|] [y|].
  - eapply (pure_view s s' Hok Hok' He); [|done]. intros [x|] [y|]; try done. intros Hxy. cbn. by rewrite (acc_eq_empty _ _ _ Hxy).
  - eapply (pure_view s s' Hok Hok' He); [|done]. intros [x|] [y|]; try done. intros Hxy. cbn. by rewrite (eq_codeHash _ _ _ Hxy).
  - eapply (pure_view s s' Hok Hok' He); [|done]. intros [x|] [y|]; try done. apply eq_balance.
  - by eapply (getNonce_view s s' Hok Hok' He).
  - eapply (pure_view s s' Hok Hok' He); [|done]. intros [x|] [y|]; try done. apply eq_codeHash.
  - by eapply (code_view s s' Hok Hok' He).
  - by eapply (storage_view s s' Hok Hok' He).
  - unfold touched_empty. pose proof (eq_ent _ _ He a) as Ha. destruct (m_cache s !! a) as [x|], (m_cache s' !! a) as [y|]; cbn in Ha; try done.
    + apply (eq_removed _ _ _ Ha).
    + destruct Ha as [-> _]. done.
    + destruct Ha as (b & Hb & Hby). destruct (base_clean _ _ _ Hb) as [Hd _]. by rewrite (eq_removed _ _ _ Hby), Hd.
Qed.


(** Killing accounts, as the end of a transaction does. *)
Fixpoint run_kills (l : list Address) : ST unit :=
  match l with
  | [] => ret tt
  | a :: l' => bind (kill a) (fun _ => run_kills l')
  end.
Lemma kill_coherent a s : st_ok s -> st_ok (snd (kill a s)) /\ m_state (snd (kill a s)) = m_state s.
Proof.
  intros Hok. unfold kill, bind. destruct (account_safe a (fun _ => True) s Hok I) as [[H1 H2 _ _] _].
  destruct (account a s) as [[[x|]|e] s1]; cbn [fst snd] in *; [|done..]. split; [|done]. destruct H1 as [K1 K2 K3]. split; [done|done|].
  cbn. intros b y [[<- <-]|[_ Hy]]%lookup_insert_Some; [|by apply K3]. apply dirty_ok; [done|cbn; lia|by left].
Qed.
Lemma kills_coherent l : forall s, st_ok s -> st_ok (snd (run_kills l s)) /\ m_state (snd (run_kills l s)) = m_state s.
Proof.
  induction l as [|a l IH]; intros s Hok; cbn [run_kills]; [done|]. destruct (kill_coherent a s Hok) as [H1 H2]. unfold bind.
  destruct (kill a s) as [[[]|e] s1]; cbn [snd] in *; [|done]. destruct (IH s1 H1) as [H3 H4]. by rewrite H4.
Qed.
Lemma setRoot_coherent r s : st_ok s -> st_ok (snd (setRoot r s)).
Proof.
  intros [H1 _ _]. unfold setRoot. set (s0 := set_nonExisting _ _).
  assert (forall t, db_exists (m_db t) EmptyTrie = true -> st_ok (set_state t s0)) as Hc.
  { intros t Ht. split; [done| |]; cbn; [by intros a Ha%elem_of_empty|by intros a x Hx]. }
  destruct (TrieDB.setRoot (m_state s0) r) as [res t] eqn:E. assert (m_db t = m_db (m_state s)) as Ht.
  { unfold TrieDB.setRoot, TrieDB.update, setRoot_prog in E. cbn in E. case_bool_decide as Er; cbn in E.
    - subst r. rewrite H1 in E. cbn in E. destruct (_ =? 0); by injection E as _ <-.
    - destruct (_ =? 0); by injection E as _ <-. }
  destruct res; apply Hc; by rewrite Ht.
Qed.

(** The cache stays coherent with the trie.  From a coherent state, the operations of
    a transaction in any sequence and under the conditions of the rollback theorem,
    completed or cut short, with nested rollbacks, and the killing of any accounts after
    them, keep the state coherent (an account that is not dirty reads as the trie has
    it, addresses noted as missing are missing, cached code has its hash), and nothing
    reaches the trie or its store before [commit]; and [setRoot] leaves a coherent state,
    whatever the root. *)
Theorem state_coherent p l r s :
  st_ok s -> script_pre p s ->
  let s1 := snd (run_script p s) in
  let s2 := snd (run_kills l s1) in
  st_ok s1 /\ m_state s1 = m_state s /\ st_ok s2 /\ m_state s2 = m_state s /\ st_ok (snd (setRoot r s2)).
Proof.
  intros Hok Hp s1 s2. destruct (run_script_good p s Hok Hp) as [H1 H2 _ _]. destruct (kills_coherent l s1 H1) as [H3 H4].
  split; [done|]. split; [done|]. split; [done|]. split; [by rewrite <- H2|]. by apply setRoot_coherent.
Qed.

(** ** Balances *)

Definition bal (ox : option Account) : Z := match ox with Some x => m_balance x | None => 0 end.

Lemma balance_result s a :
  fst (balance a s) = match fst (account a s) with Ok ox => Ok (bal ox) | Err e => Err e end.
Proof. unfold balance, bind. by destruct (account a s) as [[ox|e] s1]. Qed.

Lemma balance_local s s' a :
  st_ok s -> st_ok s' -> m_state s' = m_state s -> m_cache s' !! a = m_cache s !! a -> fst (balance a s') = fst (balance a s).
Proof. intros Hok Hok' Et Ec. by rewrite !balance_result, !account_result, Et, Ec. Qed.
Lemma balance_cached s a x : m_cache s !! a = Some x -> fst (balance a s) = Ok (m_balance x).
Proof. intros Hx. rewrite balance_result. unfold account. by rewrite Hx. Qed.

Lemma balance_range s a w : st_ok s -> fst (balance a s) = Ok w -> 0 <= w < 2 ^ 256.
Proof.
  intros Hok. rewrite balance_result. destruct (account_quiet a s Hok) as [[Hok1 _ _] Hl].
  destruct (account a s) as [[[x|]|e] s1]; [| |done]; intros [= <-]; cbn; [|lia].
  destruct Hl as [_ Hl]. apply (ok_balance _ _ _ (ok_acc _ Hok1 _ _ Hl)).
Qed.

(** [s'] has the balances of [s], but for [a]'s, which is [w]. *)
Record pays s s' (a : Address) (w : Z) : Prop := {
  pays_ok : st_ok s';
  pays_start : m_accountStartNonce s' = m_accountStartNonce s;
  pays_self : fst (balance a s') = Ok w;
  pays_other c u : c <> a -> fst (balance c s) = Ok u -> fst (balance c s') = Ok u;
  pays_in : exists x, m_cache s' !! a = Some x /\ isDirty x = true /\ m_balance x = w;
  pays_code c u : c <> a -> fst (addressHasCode c s) = Ok u -> fst (addressHasCode c s') = Ok u;
}.

Lemma pays_put s s1 s' a x :
  st_ok s -> quiet s s1 -> st_ok s' -> m_state s' = m_state s1 -> m_accountStartNonce s' = m_accountStartNonce s1 ->
  m_cache s' = <[a := x]> (m_cache s1) -> isDirty x = true -> pays s s' a (m_balance x).
Proof.
  intros Hok [Hok1 He Hl] Hok' Et En Ec Hd. split; [done|by rewrite En, (eq_start _ _ He)| | | |].
  3: { exists x. by rewrite Ec, lookup_insert_eq. }
  3: { intros c u Hc Hu. apply (view_hasCode _ _ (st_eq_view s s1 Hok Hok1 He)) in Hu. unfold addressHasCode, bind in *.
       pose proof (account_result s1 c Hok1) as H1. pose proof (account_result s' c Hok') as H2.
       rewrite Et, Ec, lookup_insert_ne in H2 by done. rewrite <- H1 in H2.
       destruct (account c s1) as [[]], (account c s') as [[]]; cbn in *; try done; by injection H2 as ->. }
  - apply balance_cached. by rewrite Ec, lookup_insert_eq.
  - intros c u Hc Hu. rewrite (balance_local s1 s') by (done || by rewrite Ec, lookup_insert_ne).
    by apply (view_balance _ _ (st_eq_view s s1 Hok Hok1 He)).
Qed.

(** A second look at a missing account. *)
Lemma account_missing s a :
  st_ok s -> loaded a None s ->
  exists s1, account a s = (Ok None, s1) /\ quiet s s1 /\ m_cache s1 = m_cache s.
Proof.
  intros Hok [Hn Hb]. destruct (account_quiet a s Hok) as [Hq _]. unfold account in *. rewrite Hn, Hb in *.
  case_bool_decide; eexists; (split; [reflexivity|]); by split.
Qed.

Lemma addBalance_pays s a v w :
  st_ok s -> 0 <= v < 2 ^ 256 -> m_accountStartNonce s <> Invalid256 -> fst (balance a s) = Ok w ->
  exists s', addBalance a v s = (Ok tt, s') /\ pays s s' a (wrap 256 (w + v)).
Proof.
  intros Hok Hv Hn Hw. destruct (addBalance_safe a v Hv s Hok I) as [[Hok' _ _ _] _]. destruct (account_quiet a s Hok) as [Hq Hl].
  rewrite balance_result in Hw. unfold addBalance in *. unfold bind at 1 in Hok'. unfold bind at 1.
  destruct (account a s) as [[ox|e] s1]; [|done]. cbn [fst snd] in *. destruct Hl as [_ Hl]. injection Hw as <-. destruct ox as [x|].
  - assert (bind (bind (if negb (isDirty x) && isEmpty x then log (Touch a) else ret tt)
                     (fun _ => update_account a (Account.addBalance v)))
                  (fun _ => if negb (v =? 0) then log (Balance a v) else ret tt) s1 =
            (Ok tt, set_log (m_changeLog s1 ++ (if negb (isDirty x) && isEmpty x then [Touch a] else []) ++ (if negb (v =? 0) then [Balance a v] else []))
               (set_cache (<[a := Account.addBalance v x]> (m_cache s1)) s1))) as E.
    { unfold bind, log, update_account, modify, ret. pose proof (cached_Some s1 a x Hl) as Ec.
      destruct (negb (isDirty x) && isEmpty x), (negb (v =? 0)); cbn; rewrite Ec, ?app_nil_r, <- ?app_assoc; done. }
    rewrite E in *. eexists. split; [reflexivity|]. by apply (pays_put s s1 _ a (Account.addBalance v x)).
  - assert (m_accountStartNonce s1 <> Invalid256) as Hn1 by (rewrite (eq_start _ _ (quiet_eq _ _ Hq)); done).
    destruct (account_missing s1 a (quiet_ok _ _ Hq) Hl) as (s2 & E2 & Hq2 & Ec2).
    set (x := basic (m_accountStartNonce s1) v) in *.
    assert (bind (bind requireAccountStartNonce (fun n => createAccount a (basic n v)))
                  (fun _ => if negb (v =? 0) then log (Balance a v) else ret tt) s1 =
            (Ok tt, let s3 := create a x s2 in set_log (m_changeLog s3 ++ (if negb (v =? 0) then [Balance a v] else [])) s3)) as E.
    { unfold requireAccountStartNonce, createAccount, addressInUse, bind, get, ret.
      destruct (Z.eqb_spec (m_accountStartNonce s1) Invalid256); [done|]. rewrite E2. cbn. destruct (negb (v =? 0)); cbn; [done|]. by rewrite app_nil_r. }
    rewrite E in *. eexists. split; [reflexivity|]. cbv zeta in *. cbn [bal]. rewrite Z.add_0_l, (wrap_small 256 v) by done.
    change v with (m_balance x). apply (pays_put s s2); [done| |done|done|done|done|done].
    destruct Hq as [H1 H2 H3], Hq2 as [H4 H5 H6]. split; [done|by eapply st_eq_trans|congruence].
Qed.

(** [incNonce] on a dirty account pays nothing. *)
Lemma incNonce_pays s a x :
  st_ok s -> m_cache s !! a = Some x -> isDirty x = true ->
  exists s', incNonce a s = (Ok tt, s') /\ pays s s' a (m_balance x).
Proof.
  intros Hok Hx Hd. assert (account a s = (Ok (Some x), s)) as Ea by (unfold account; by rewrite Hx).
  destruct (incNonce_safe a s Hok) as [[Hok' _ _ _] _]; [unfold obs; rewrite Hx; cbn; unfold settled; by rewrite Hd|].
  unfold incNonce, bind in *. rewrite Ea in *. eexists. split; [reflexivity|].
  apply (pays_put s s _ a (Account.incNonce x)); try done; [by apply quiet_refl|].
  cbn. unfold update_account, modify. cbn. by rewrite (cached_Some s a x Hx).
Qed.

(** [transferBalance] moves exactly the amount: with enough cash it returns, the
    payer has that much less, the payee that much more (modulo 2^256) and everybody
    else what they had; without, it throws [NotEnoughCash] and nobody's state has
    changed. *)
Theorem transfer_moves s a b v x y :
  st_ok s -> m_accountStartNonce s <> Invalid256 -> 0 <= v < 2 ^ 256 -> a <> b ->
  fst (balance a s) = Ok x -> fst (balance b s) = Ok y ->
  if v <=? x then
    exists s', transferBalance a b v s = (Ok tt, s') /\
      fst (balance a s') = Ok (x - v) /\ fst (balance b s') = Ok (wrap 256 (y + v)) /\
      forall c w, c <> a -> c <> b -> fst (balance c s) = Ok w -> fst (balance c s') = Ok w
  else exists s', transferBalance a b v s = (Err NotEnoughCash, s') /\ same_view s s'.
Proof.
  intros Hok Hn Hv Hab Hx Hy. unfold transferBalance, subBalance.
  destruct (Z.eqb_spec v 0) as [->|Hv0].
  - unfold bind, ret. destruct (addBalance_pays s b 0 y Hok Hv Hn Hy) as (s' & E & [H1 H2 H3 H4]).
    pose proof (balance_range s a x Hok Hx). destruct (Z.leb_spec 0 x); [|lia]. exists s'. rewrite Z.sub_0_r. split_and!; [done|auto|done|auto].
  - destruct (account_quiet a s Hok) as [Hq Hl]. unfold bind. pose proof Hx as Hx0. rewrite balance_result in Hx.
    destruct (account a s) as [[ox|e] s1] eqn:Ea; [|done]. cbn [fst snd] in *. injection Hx as Hx. destruct Hq as [Hok1 He1 Hl1].
    pose proof (st_eq_view s s1 Hok Hok1 He1) as Hview. destruct Hl as [_ Hl].
    destruct ox as [xa|]; cbn in Hx; subst x.
    2:{ destruct (Z.leb_spec v 0); [lia|]. by exists s1. }
    destruct (Z.ltb_spec (m_balance xa) v), (Z.leb_spec v (m_balance xa)); try lia; [by exists s1|].
    pose proof (ok_balance _ _ _ (ok_acc _ Hok1 _ _ Hl)) as Hb.
    destruct (addBalance_pays s1 a (wrap 256 (0 - v)) (m_balance xa) Hok1) as (s2 & E2 & [J1 J2 J3 J4]).
    + apply (wrap_range 256). lia.
    + by rewrite (eq_start _ _ He1).
    + by apply balance_cached.
    + rewrite E2. destruct (addBalance_pays s2 b v y J1 Hv) as (s3 & E3 & [J5 J6 J7 J8]).
      * by rewrite J2, (eq_start _ _ He1).
      * apply J4; [done|]. by apply Hview.
      * exists s3. split; [done|]. split_and!; [|done|intros c w Hca Hcb Hc; by apply J8, J4, Hview].
        apply J8; [done|]. rewrite J3. f_equal. unfold wrap. rewrite Zplus_mod_idemp_r. apply Z.mod_small. lia.
Qed.

(** [rollback] does not undo [clearStorage] exactly: it restores the root but
    drops what had been written to the storage since the account was last
    committed.  A slot written before the savepoint reads as the trie has it after
    the rollback. *)
Theorem clearStorage_rollback_loses s a x k v u :
  st_ok s -> m_cache s !! a = Some x -> m_storageRoot x <> EmptyTrie -> m_storageRoot x <> replicate 32 0 ->
  m_storageOverlay x !! k = Some v -> slot (m_state s) (m_storageRoot x) k = Some u ->
  fst (storage a k s) = Ok v /\
  exists s', rollback (List.length (m_changeLog s)) (snd (clearStorage a s)) = (Ok tt, s') /\ fst (storage a k s') = Ok u.
Proof.
  intros Hok Hx Hr1 Hr2 Hk Hu. pose proof (cached_Some s a x Hx) as Ec. split.
  - unfold storage, bind, account. rewrite Hx, Hk. done.
  - assert (snd (clearStorage a s) = change a Account.clearStorage (StorageRoot a (m_storageRoot x)) s) as ->.
    { unfold clearStorage, bind, get, modify, update_account at 1. cbn [modify m_cache set_cache]. rewrite Ec, (insert_id _ _ _ Hx), Ec.
      assert (set_cache (m_cache s) s = s) as -> by by destruct s.
      unfold of_rlp, baseRoot. rewrite (bool_decide_false (m_storageRoot x = replicate 32 0)) by done.
      by rewrite (bool_decide_false (m_storageRoot x = EmptyTrie)) by done. }
    set (s1 := change _ _ _ _).
    assert (m_cache s1 !! a = Some (Account.clearStorage x)) as H1 by (cbn; by rewrite Ec, lookup_insert_eq).
    destruct (undo_undone (StorageRoot a (m_storageRoot x)) s1 _ ltac:(done) H1) as (s2 & Eu & E1 & E2 & E3 & E4).
    unfold rollback. rewrite (rollback_loop_undo [StorageRoot a (m_storageRoot x)] _ (m_changeLog s)); [|done|cbn; rewrite length_app; cbn; lia].
    cbn [undo_all]. unfold bind at 1. rewrite Eu. eexists. split; [reflexivity|].
    set (s3 := set_log _ s2).
    assert (sane s3) as Hs3.
    { assert (sane s1) as Hs1 by (apply st_ok_sane in Hok as [J1 J2 J3]; split; [done|done|]; cbn; rewrite Ec; intros b y;
        rewrite lookup_insert_Some; intros [[<- <-]|[_ Hy]]; [by apply (J3 _ _ Hx)|eauto]).
      pose proof (undo_sane (StorageRoot a (m_storageRoot x)) s1 Hs1) as [J1 J2 J3]. rewrite Eu in J1, J2, J3. by split. }
    assert (m_cache s3 !! a = Some (undone (StorageRoot a (m_storageRoot x)) (Account.clearStorage x))) as H3 by (cbn; by rewrite E4, lookup_insert_eq).
    assert (fst (storage a k s3) = fst (storage_rest a k (Some (undone (StorageRoot a (m_storageRoot x)) (Account.clearStorage x))) s3)) as ->
      by (unfold storage, bind at 1, account; rewrite H3; reflexivity).
    apply storage_rest_spec; [apply Hs3|]. unfold look. cbn [undone setStorageRoot with_storage m_storageOverlay m_storageRoot].
    rewrite lookup_empty. change (m_state s3) with (m_state s2). rewrite E1. exact Hu.
Qed.

End Rollback.

(** ** Witnesses *)

Definition sample_state : State MemoryDB.MemoryDB := snd (make_state 0 MemoryDB.empty Empty []).
Definition alice : Address := replicate 20 1.
Definition bob : Address := replicate 20 2.

(** Alice is endowed, her storage is written, and a call that changes her nonce is
    reverted. *)
Definition sample_script : script :=
  Then (OpAddBalance alice 5) (Then (OpSetStorage alice 1 7) (Frame (Then (OpIncNonce alice) Done) Done)).

(** A new trie holds the empty node. *)
Lemma empty_node {DB} `{NodeDBLaws DB} (d : DB) : db_ok d ->
  db_lookup (db_insert d EmptyTrie RLPNull) EmptyTrie = RLPNull /\ db_exists (db_insert d EmptyTrie RLPNull) EmptyTrie = true.
Proof.
  intros Hd. assert (db_lookup (db_insert d EmptyTrie RLPNull) EmptyTrie = RLPNull) as Hl by by apply db_lookup_insert.
  split; [done|]. apply db_exists_lookup; [by apply db_ok_insert|]. by rewrite Hl.
Qed.
Lemma init_empty {DB} `{NodeDBLaws DB} (d : DB) : db_ok d ->
  init {| m_root := replicate 32 0; m_db := d |} = (Ok tt, {| m_root := EmptyTrie; m_db := db_insert d EmptyTrie RLPNull |}).
Proof.
  intros Hd. destruct (empty_node d Hd) as [Hl He].
  unfold init, update, init_prog, forceInsertNode, setRoot_prog. cbn [pbind run m_db]. fold EmptyTrie. rewrite bool_decide_true by done.
  cbn [pbind run]. rewrite He. cbn [pbind run node]. rewrite Hl. done.
Qed.

(** A new state is well formed. *)
Lemma make_state_ok {DB} `{NodeDBLaws DB} n (d : DB) r :
  db_ok d -> fst (make_state n d Empty r) = Ok tt /\ st_ok (snd (make_state n d Empty r)).
Proof.
  intros Hd. unfold make_state. cbn [m_state]. rewrite (init_empty d Hd). unfold in_state.
  split; [done|]. split; [exact (proj2 (empty_node d Hd))| |]; cbn [fst snd set_state m_state m_cache m_nonExistingAccountsCache].
  - intros a Ha. destruct (not_elem_of_empty (C := gset Address) a Ha).
  - intros a x Hx. rewrite lookup_empty in Hx. discriminate Hx.
Qed.

Lemma sample_state_ok : st_ok sample_state.
Proof. apply make_state_ok. reflexivity. Qed.

Lemma sample_script_pre : script_pre sample_script sample_state.
Proof.
  cbn [sample_script script_pre op_pre]. split; [lia|]. intros s1 E1. vm_compute in E1. injection E1 as <-. split; [vm_compute; reflexivity|].
  intros s2 E2. vm_compute in E2. injection E2 as <-. split; [|done]. split; [vm_compute; reflexivity|done].
Qed.


Lemma state_coherent_witness :
  let s1 := snd (run_script sample_script sample_state) in
  let s2 := snd (run_kills [alice] s1) in
  st_ok s1 /\ m_state s1 = m_state sample_state /\ st_ok s2 /\ m_state s2 = m_state sample_state /\ st_ok (snd (setRoot EmptyTrie s2)).
Proof. exact (state_coherent sample_script [alice] EmptyTrie sample_state sample_state_ok sample_script_pre). Defined.

Lemma transfer_moves_witness :
  let s := snd (addBalance alice 5 sample_state) in
  exists s', transferBalance alice bob 3 s = (Ok tt, s') /\
    fst (balance alice s') = Ok 2 /\ fst (balance bob s') = Ok (wrap 256 (0 + 3)) /\
    forall c w, c <> alice -> c <> bob -> fst (balance c s) = Ok w -> fst (balance c s') = Ok w.
Proof.
  pose proof (addBalance_safe alice 5 ltac:(lia) sample_state sample_state_ok I) as [[Hok _ _ _] _].
  exact (transfer_moves _ alice bob 3 5 0 Hok ltac:(vm_compute; discriminate) ltac:(lia) ltac:(discriminate)
           ltac:(vm_compute; reflexivity) ltac:(vm_compute; reflexivity)).
Defined.

(** Alice's slot 1 is 7 in the trie and 8 in the cache. *)
Definition written_storage : GenericTrieDB MemoryDB.MemoryDB :=
  snd (fat_insert (m_state sample_state) (key_bytes 1) [7]).
Definition written_account : Account :=
  with_storage true (m_root written_storage) {[1 := 8]} (basic 1 0).
Definition written_state : State MemoryDB.MemoryDB :=
  set_cache {[alice := written_account]}
    (set_state {| m_root := EmptyTrie; m_db := m_db written_storage |} sample_state).

Lemma clearStorage_rollback_loses_witness :
  fst (storage alice 1 written_state) = Ok 8 /\
  exists s', rollback (List.length (m_changeLog written_state)) (snd (clearStorage alice written_state)) = (Ok tt, s') /\
    fst (storage alice 1 s') = Ok 7.
Proof.
  apply (clearStorage_rollback_loses written_state alice written_account 1 8 7).
  - split.
    + vm_compute. reflexivity.
    + intros a Ha. change (a ∈ (∅ : gset Address)) in Ha. destruct (not_elem_of_empty (C := gset Address) a Ha).
    + intros a x Hx. change (({[alice := written_account]} : gmap Address Account) !! a = Some x) in Hx. apply lookup_singleton_Some in Hx as [<- <-].
      apply dirty_ok; [reflexivity|split; vm_compute; congruence|left; reflexivity].
  - apply lookup_singleton_eq.
  - vm_compute. discriminate.
  - vm_compute. discriminate.
  - reflexivity.
  - vm_compute. reflexivity.
Defined.

End StateProps.
