(* ===== verification/Crypto.v ===== *)
(** * Crypto: signatures and addresses (libdevcrypto/Common)

    [dev::sign], [dev::recover] and [dev::verify] wrap the library libsecp256k1,
    which is not part of the sources: its functions are the class [Secp256k1], and
    what its documentation promises is [Secp256k1Laws]. *)

From stdpp Require Import base list numbers option.
From Stdlib Require Import ZArith Lia.
From S2P Require Import Prelude Bytes Rlp RlpStream RlpFields Keccak.
Import CommonData RLP RLPStream RlpFields Keccak.

Module Crypto.

#[local] Opaque sha3.

(** ** The library *)

(** Return codes other than success are [None]; the context argument is left
    out. A recoverable signature and a public key are opaque objects. *)
Class Secp256k1 := {
  recoverable_signature : Type;
  pubkey : Type;
  secp256k1_ec_pubkey_create : bytes -> option pubkey;
  secp256k1_ec_pubkey_serialize : pubkey -> bytes;
  secp256k1_ecdsa_sign_recoverable : bytes -> bytes -> option recoverable_signature;
  secp256k1_ecdsa_recoverable_signature_serialize_compact : recoverable_signature -> bytes * Z;
  secp256k1_ecdsa_recoverable_signature_parse_compact : bytes -> Z -> option recoverable_signature;
  secp256k1_ecdsa_recover : recoverable_signature -> bytes -> option pubkey
}.

(** The order of the curve. *)
Definition c_secp256k1n : Z := 115792089237316195423570985008687907852837564279074904382605163141518161494337.

(** What the header of the library documents: an uncompressed key is 65 bytes
    with the header 4; a compact signature is 64 bytes with a recovery id from 0
    to 3, and parses back; the signatures made have both numbers in range and the
    second one in the lower half; and the key of the signer is recovered. *)
Class Secp256k1Laws (S : Secp256k1) : Prop := {
  serialize_key : forall p, exists q, secp256k1_ec_pubkey_serialize p = 4 :: q /\ List.length q = 64%nat /\ bytes_ok q;
  serialize_sig : forall rs, exists r s v,
    secp256k1_ecdsa_recoverable_signature_serialize_compact rs = (r ++ s, v) /\
    List.length r = 32%nat /\ List.length s = 32%nat /\ bytes_ok r /\ bytes_ok s /\ 0 <= v <= 3 /\
    secp256k1_ecdsa_recoverable_signature_parse_compact (r ++ s) v = Some rs;
  sign_range : forall h k rs r s v, secp256k1_ecdsa_sign_recoverable h k = Some rs ->
    secp256k1_ecdsa_recoverable_signature_serialize_compact rs = (r ++ s, v) ->
    List.length r = 32%nat -> 0 < be_val r < c_secp256k1n /\ 0 < be_val s <= c_secp256k1n / 2;
  sign_recover : forall h k rs p, secp256k1_ecdsa_sign_recoverable h k = Some rs ->
    secp256k1_ec_pubkey_create k = Some p -> secp256k1_ecdsa_recover rs h = Some p
}.

(** ** Signatures *)

(** The fields of the struct are also the 65 bytes of a [Signature]. *)
Record SignatureStruct := { r : bytes; s : bytes; v : Z }.
#[export] Instance SignatureStruct_eq_dec : EqDecision SignatureStruct.
Proof. solve_decision. Defined.

Definition SignatureStruct_zero : SignatureStruct := {| r := FixedHash.zero 32; s := FixedHash.zero 32; v := 0 |}.

Definition s_max : bytes := FixedHash.of_arith 32 0xfffffffffffffffffffffffffffffffebaaedce6af48a03bbfd25e8cd0364141.

Definition isValid (g : SignatureStruct) : bool :=
  (v g <=? 1) && FixedHash.ltb (FixedHash.zero 32) (r g) && FixedHash.ltb (FixedHash.zero 32) (s g)
  && FixedHash.ltb (r g) s_max && FixedHash.ltb (s g) s_max.

Definition right160 (h : bytes) : bytes := drop 12 h.

Section Functions.
Context {L : Secp256k1}.

(** The assertions on the serialised key are [serialize_key]; a [Public] is the
    64 bytes behind the header, all zero for the empty return. *)
Definition Public_of (p : pubkey) : bytes := drop 1 (secp256k1_ec_pubkey_serialize p).
Definition no_Public : bytes := FixedHash.zero 64.

Definition toPublic (_secret : bytes) : bytes :=
  match secp256k1_ec_pubkey_create _secret with Some p => Public_of p | None => no_Public end.

Definition toAddress (_public : bytes) : bytes := right160 (sha3 _public).

Definition recover (_sig : SignatureStruct) (_message : bytes) : bytes :=
  if 3 <? v _sig then no_Public else
  match secp256k1_ecdsa_recoverable_signature_parse_compact (r _sig ++ s _sig) (v _sig) with
  | None => no_Public
  | Some rawSig =>
      match secp256k1_ecdsa_recover rawSig _message with Some p => Public_of p | None => no_Public end
  end.

Definition sign (_k _hash : bytes) : result exn SignatureStruct :=
  match secp256k1_ecdsa_sign_recoverable _hash _k with
  | None => Ok SignatureStruct_zero
  | Some rawSig =>
      let '(rs, v0) := secp256k1_ecdsa_recoverable_signature_serialize_compact rawSig in
      let ss := {| r := take 32 rs; s := drop 32 rs; v := wrap 8 v0 |} in
      let ss :=
        if FixedHash.to_arith 32 (s ss) >? c_secp256k1n / 2
        then {| r := r ss; s := FixedHash.of_arith 32 (wrap 256 (c_secp256k1n - FixedHash.to_arith 32 (s ss)));
                v := wrap 8 (Z.lxor (v ss) 1) |}
        else ss in
      if FixedHash.to_arith 32 (s ss) <=? c_secp256k1n / 2 then Ok ss else Err AssertFailure
  end.

Definition verify (_p : bytes) (_s : SignatureStruct) (_hash : bytes) : bool :=
  if negb (FixedHash.to_bool _p) then false else bool_decide (_p = recover _s _hash).

(** ** What signing gives *)

Context {HL : Secp256k1Laws L}.

(** Signing always returns; with a key the library accepts, the result is the library's
    signature, in range, in the lower half, and recovers to that key. *)
Lemma sign_spec k h p rs :
  secp256k1_ec_pubkey_create k = Some p -> secp256k1_ecdsa_sign_recoverable h k = Some rs ->
  exists g, sign k h = Ok g /\ secp256k1_ecdsa_recoverable_signature_serialize_compact rs = (r g ++ s g, v g) /\
    recover g h = Public_of p /\ 0 <= v g <= 3 /\
    List.length (r g) = 32%nat /\ List.length (s g) = 32%nat /\ bytes_ok (r g) /\ bytes_ok (s g) /\
    0 < be_val (r g) < c_secp256k1n /\ 0 < be_val (s g) <= c_secp256k1n / 2.
Proof.
  intros Hp E. unfold sign. rewrite E.
  destruct (serialize_sig rs) as (r0 & s0 & v0 & Hser & Hr & Hs0 & Hrk & Hsk & Hv & Hparse). rewrite Hser.
  destruct (sign_range _ _ _ _ _ _ E Hser Hr) as [H1 H2].
  cbn [r s v]. rewrite take_app_length', drop_app_length' by done.
  rewrite (FixedHash.to_arith_be_val 32 s0) by done. destruct (Z.gtb_spec (be_val s0) (c_secp256k1n / 2)); [lia|].
  cbn [r s v]. rewrite (FixedHash.to_arith_be_val 32 s0) by done.
  destruct (Z.leb_spec (be_val s0) (c_secp256k1n / 2)); [|lia].
  eexists. split; [done|]. cbn [r s v]. rewrite (wrap_small 8) by (unfold uint_ok; lia).
  split; [done|]. split; [|by split_and!; lia || done]. unfold recover. cbn [r s v]. destruct (Z.ltb_spec 3 v0); [lia|].
  rewrite Hparse. by rewrite (sign_recover _ _ _ _ E Hp).
Qed.

End Functions.

(** ** Comparisons as numbers *)

Lemma be_val_zero n : be_val (replicate n 0) = 0.
Proof. induction n as [|n IH]; [done|]. cbn [replicate be_val]. by rewrite IH. Qed.

Lemma isValid_spec g :
  List.length (r g) = 32%nat -> List.length (s g) = 32%nat -> bytes_ok (r g) -> bytes_ok (s g) ->
  isValid g = true <-> v g <= 1 /\ 0 < be_val (r g) < c_secp256k1n /\ 0 < be_val (s g) < c_secp256k1n.
Proof.
  intros Hr Hs Hrk Hsk. unfold isValid.
  assert (Hz : bytes_ok (FixedHash.zero 32)) by (apply Forall_replicate; unfold is_byte; lia).
  assert (Hm : bytes_ok s_max) by apply toBigEndian_ok.
  assert (be_val s_max = c_secp256k1n) as Hmv by (vm_compute; reflexivity).
  rewrite !FixedHash.ltb_spec by (done || by rewrite ?Hr, ?Hs).
  unfold FixedHash.zero. rewrite be_val_zero, Hmv, !andb_true_iff, Z.leb_le, !Z.ltb_lt. lia.
Qed.

Lemma sha3_length_160 h : List.length h = 32%nat -> List.length (right160 h) = 20%nat.
Proof. intros Hh. unfold right160. rewrite length_drop, Hh. done. Qed.

End Crypto.
