(* ===== verification/Transaction.v ===== *)
(** * Transaction: transactions and their encoding (libvapcore/TransactionBase)

    The class [TransactionBase]: parsing, serialising, hashing, signing and
    recovering the sender.  The hash and the sender are memoised in mutable
    members, so the operations that use them are in the monad over the
    transaction itself.  The comments that the parser attaches to an exception on
    its way out are left out. *)

From stdpp Require Import base list numbers option.
From Stdlib Require Import ZArith Lia.
From S2P Require Import Prelude Bytes Rlp RlpStream RlpFields Keccak Instruction Crypto.
Import CommonData RLP RLPStream RlpFields Keccak Crypto Instruction.

Module Transaction.

#[local] Opaque sha3.

(** ** Data *)

Inductive tx_exn :=
| Rlp (e : exn) | Stream (e : stream_exn)
| InvalidTransactionFormat | InvalidSignature | TransactionIsUnsigned.

Inductive CheckTransaction := CheckNone | Cheap | Everything.
Definition at_least_Cheap (c : CheckTransaction) : bool := match c with CheckNone => false | _ => true end.
Definition is_Everything (c : CheckTransaction) : bool := match c with Everything => true | _ => false end.

Inductive Type_ := NullTransaction | ContractCreation | MessageCall.
#[export] Instance Type_eq_dec : EqDecision Type_.
Proof. solve_decision. Defined.

Record TransactionBase := {
  m_type : Type_;
  m_nonce : Z;
  m_value : Z;
  m_receiveAddress : bytes;
  m_gasPrice : Z;
  m_gas : Z;
  m_data : bytes;
  m_vrs : option SignatureStruct;
  m_chainId : Z;
  m_hashWith : bytes;
  m_sender : bytes
}.

Definition ZeroAddress : bytes := FixedHash.zero 20.
Definition MaxAddress : bytes := replicate 20 0xff.

(** A default-constructed transaction with the given fields; [unsigned]
    constructors. *)
Definition fresh (type : Type_) (_value _gasPrice _gas : Z) (_dest _data : bytes) (_nonce : Z) : TransactionBase :=
  {| m_type := type; m_nonce := _nonce; m_value := _value; m_receiveAddress := _dest; m_gasPrice := _gasPrice;
     m_gas := _gas; m_data := _data; m_vrs := None; m_chainId := -4; m_hashWith := FixedHash.zero 32;
     m_sender := ZeroAddress |}.
Definition null_transaction : TransactionBase := fresh NullTransaction 0 0 0 ZeroAddress [] 0.
Definition unsigned_call := fresh MessageCall.
Definition unsigned_creation (_value _gasPrice _gas : Z) (_data : bytes) (_nonce : Z) : TransactionBase :=
  fresh ContractCreation _value _gasPrice _gas ZeroAddress _data _nonce.

Definition set_vrs (g : option SignatureStruct) (t : TransactionBase) : TransactionBase :=
  {| m_type := m_type t; m_nonce := m_nonce t; m_value := m_value t; m_receiveAddress := m_receiveAddress t;
     m_gasPrice := m_gasPrice t; m_gas := m_gas t; m_data := m_data t; m_vrs := g; m_chainId := m_chainId t;
     m_hashWith := m_hashWith t; m_sender := m_sender t |}.
Definition set_hashWith (h : bytes) (t : TransactionBase) : TransactionBase :=
  {| m_type := m_type t; m_nonce := m_nonce t; m_value := m_value t; m_receiveAddress := m_receiveAddress t;
     m_gasPrice := m_gasPrice t; m_gas := m_gas t; m_data := m_data t; m_vrs := m_vrs t; m_chainId := m_chainId t;
     m_hashWith := h; m_sender := m_sender t |}.
Definition set_sender (a : bytes) (t : TransactionBase) : TransactionBase :=
  {| m_type := m_type t; m_nonce := m_nonce t; m_value := m_value t; m_receiveAddress := m_receiveAddress t;
     m_gasPrice := m_gasPrice t; m_gas := m_gas t; m_data := m_data t; m_vrs := m_vrs t; m_chainId := m_chainId t;
     m_hashWith := m_hashWith t; m_sender := a |}.
Definition set_nonce (n : Z) (t : TransactionBase) : TransactionBase :=
  {| m_type := m_type t; m_nonce := n; m_value := m_value t; m_receiveAddress := m_receiveAddress t;
     m_gasPrice := m_gasPrice t; m_gas := m_gas t; m_data := m_data t; m_vrs := m_vrs t; m_chainId := m_chainId t;
     m_hashWith := m_hashWith t; m_sender := m_sender t |}.

(** ** Accessors *)

Definition isZeroSignature (_r _s : Z) : bool := (_r =? 0) && (_s =? 0).
Definition hasZeroSignature (t : TransactionBase) : bool :=
  match m_vrs t with
  | Some g => isZeroSignature (FixedHash.to_arith 32 (r g)) (FixedHash.to_arith 32 (s g))
  | None => false
  end.
Definition hasSignature (t : TransactionBase) : bool := match m_vrs t with Some _ => true | None => false end.
Definition isCreation (t : TransactionBase) : bool := bool_decide (m_type t = ContractCreation).
Definition isReplayProtected (t : TransactionBase) : bool := negb (m_chainId t =? -4).
Definition signature (t : TransactionBase) : result tx_exn SignatureStruct :=
  match m_vrs t with Some g => Ok g | None => Err TransactionIsUnsigned end.
Definition forceSender (_a : bytes) (t : TransactionBase) : TransactionBase := set_sender _a t.
Definition clearSignature (t : TransactionBase) : TransactionBase := set_vrs (Some SignatureStruct_zero) t.
Definition setNonce (_n : Z) (t : TransactionBase) : TransactionBase := set_nonce _n (clearSignature t).

(** [operator==] on transactions. *)
Definition tx_eqb (a c : TransactionBase) : bool :=
  bool_decide (m_type a = m_type c)
  && (bool_decide (m_type a = ContractCreation) || bool_decide (m_receiveAddress a = m_receiveAddress c))
  && (m_value a =? m_value c) && bool_decide (m_data a = m_data c).

Definition checkLowS (t : TransactionBase) : result tx_exn unit :=
  match m_vrs t with
  | None => Err TransactionIsUnsigned
  | Some g => if FixedHash.to_arith 32 (s g) >? c_secp256k1n / 2 then Err InvalidSignature else Ok tt
  end.

Definition checkChainId (chainId : Z) (t : TransactionBase) : result tx_exn unit :=
  if negb (m_chainId t =? chainId) && negb (m_chainId t =? -4) then Err InvalidSignature else Ok tt.

(** The static [baseGasRequired]; [g] is an [int64_t]. *)
Definition baseGasRequired (_contractCreation : bool) (_data : bytes) (_es : VVMSchedule) : Z :=
  fold_left (fun g i => g + (if negb (i =? 0) then txDataNonZeroGas _es else txDataZeroGas _es)) _data
    (if _contractCreation then txCreateGas _es else txGas _es).

(** ** Serialising *)

Abbreviation st op := (lift_stream Stream op).

Definition streamRLP (t : TransactionBase) (_sig _forEip155hash : bool) : M stream tx_exn unit :=
  if bool_decide (m_type t = NullTransaction) then mret tt else
  exec! st (appendList ((if _sig || _forEip155hash then 3 else 0) + 6)) in
  exec! st (append_bigint (m_nonce t)) in
  exec! st (append_bigint (m_gasPrice t)) in
  exec! st (append_bigint (m_gas t)) in
  exec! st (if bool_decide (m_type t = MessageCall) then append_hash (m_receiveAddress t) false false
            else append [] false) in
  exec! st (append_bigint (m_value t)) in
  exec! st (append (m_data t) false) in
  if _sig then
    match m_vrs t with
    | None => mthrow TransactionIsUnsigned
    | Some g =>
        exec! st (if hasZeroSignature t then append_bigint (wrap 32 (m_chainId t))
                  else append_bigint (wrap 32 (v g + (m_chainId t * 2 + 35)))) in
        exec! st (append_bigint (FixedHash.to_arith 32 (r g))) in
        exec! st (append_bigint (FixedHash.to_arith 32 (s g))) in
        mret tt
    end
  else if _forEip155hash then
    exec! st (append_bigint (wrap 32 (m_chainId t))) in
    exec! st (append_bigint 0) in
    exec! st (append_bigint 0) in
    mret tt
  else mret tt.

(** What a stream holds after [op], in [out]. *)
Definition streamed (op : M stream tx_exn unit) : result tx_exn bytes :=
  match op empty with
  | (Ok _, s) => match out s with Ok b => Ok b | Err e => Err (Stream e) end
  | (Err e, _) => Err e
  end.

Definition rlp (_sig : bool) (t : TransactionBase) : result tx_exn bytes := streamed (streamRLP t _sig false).

(** The bytes that are hashed for a signature. *)
Definition signing_payload (t : TransactionBase) : result tx_exn bytes := streamed (streamRLP t false (0 <? m_chainId t)).

(** [sha3(_sig)]: [WithSignature] is [true]. *)
Definition tx_sha3 (_sig : bool) : M TransactionBase tx_exn bytes := fun t =>
  if _sig && FixedHash.to_bool (m_hashWith t) then (Ok (m_hashWith t), t) else
  match streamed (streamRLP t _sig ((0 <? m_chainId t) && negb _sig)) with
  | Err e => (Err e, t)
  | Ok b => let ret := sha3 b in (Ok ret, if _sig then set_hashWith ret t else t)
  end.

(** ** Signing *)

Record TransactionSkeleton := {
  creation : bool; from : bytes; to : bytes; value : Z; data : bytes; nonce : Z; gas : Z; gasPrice : Z
}.

Section Signed.
Context {L : Secp256k1}.

Definition tx_sign (_priv : bytes) : M TransactionBase tx_exn unit :=
  do! h := tx_sha3 false in
  do! sigStruct := mlift (relabel Rlp (sign _priv h)) in
  if isValid sigStruct then mput (set_vrs (Some sigStruct)) else mret tt.

(** The constructors with a secret. *)
Definition signed_call (_value _gasPrice _gas : Z) (_dest _data : bytes) (_nonce : Z) (_secret : bytes)
    : result tx_exn unit * TransactionBase :=
  tx_sign _secret (unsigned_call _value _gasPrice _gas _dest _data _nonce).
Definition signed_creation (_value _gasPrice _gas : Z) (_data : bytes) (_nonce : Z) (_secret : bytes)
    : result tx_exn unit * TransactionBase :=
  tx_sign _secret (unsigned_creation _value _gasPrice _gas _data _nonce).

Definition of_skeleton (_ts : TransactionSkeleton) (_s : bytes) : result tx_exn unit * TransactionBase :=
  let t := set_sender (from _ts)
    (fresh (if creation _ts then ContractCreation else MessageCall) (value _ts) (gasPrice _ts) (gas _ts)
      (to _ts) (data _ts) (nonce _ts)) in
  if FixedHash.to_bool _s then tx_sign _s t else (Ok tt, t).

Definition sender : M TransactionBase tx_exn bytes :=
  do! t := mget (fun t => t) in
  exec!
    (if FixedHash.to_bool (m_sender t) then mret tt
     else if hasZeroSignature t then mput (set_sender MaxAddress)
     else match m_vrs t with
          | None => mthrow TransactionIsUnsigned
          | Some g =>
              do! h := tx_sha3 false in
              let p := recover g h in
              if negb (FixedHash.to_bool p) then mthrow InvalidSignature
              else mput (set_sender (right160 (sha3 p)))
          end) in
  mget m_sender.

Definition safeSender (t : TransactionBase) : bytes :=
  match sender t with (Ok a, _) => a | (Err _, _) => ZeroAddress end.

(** ** Parsing *)

(** [toInt<int>()]. *)
Definition toInt_int (m_data : bytes) : result exn Z :=
  let! i := toInt 32 m_data Strict in Ok (if i <? 2 ^ 31 then i else i - 2 ^ 32).

(** [m_chainId] and [m_vrs] from the last three items. *)
Definition parse_signature (_checkSig : CheckTransaction) (v0 r0 s0 : Z) : result tx_exn (Z * SignatureStruct) :=
  let r := FixedHash.of_arith 32 r0 in
  let s := FixedHash.of_arith 32 s0 in
  if isZeroSignature r0 s0 then Ok (v0, {| r := r; s := s; v := 0 |})
  else
    let! chainId := (if 36 <? v0 then Ok ((v0 - 35) / 2)
                     else if (v0 =? 27) || (v0 =? 28) then Ok (-4)
                     else Err InvalidSignature) in
    let g := {| r := r; s := s; v := wrap 8 (v0 - (chainId * 2 + 35)) |} in
    if at_least_Cheap _checkSig && negb (isValid g) then Err InvalidSignature else Ok (chainId, g).

Definition check_sender (_checkSig : CheckTransaction) (t : TransactionBase) : result tx_exn TransactionBase :=
  if is_Everything _checkSig then
    match sender t with (Ok a, t') => Ok (set_sender a t') | (Err e, _) => Err e end
  else Ok t.

(** The body of the constructor's [try]. *)
Definition parse_fields (d : bytes) (_checkSig : CheckTransaction) : M cache tx_exn TransactionBase :=
  if negb (isList d) then mthrow InvalidTransactionFormat else
  do! i0 := item Rlp d 0 in
  do! nonce := conv Rlp (toInt 256 i0 Strict) in
  do! i1 := item Rlp d 1 in
  do! gasPrice := conv Rlp (toInt 256 i1 Strict) in
  do! i2 := item Rlp d 2 in
  do! gas := conv Rlp (toInt 256 i2 Strict) in
  do! i3 := item Rlp d 3 in
  let type := if isEmpty i3 then ContractCreation else MessageCall in
  do! i3 := item Rlp d 3 in
  do! receiveAddress := (if isEmpty i3 then mret ZeroAddress
                         else do! i3 := item Rlp d 3 in conv Rlp (toHash 20 i3 VeryStrict)) in
  do! i4 := item Rlp d 4 in
  do! value := conv Rlp (toInt 256 i4 Strict) in
  do! i5 := item Rlp d 5 in
  if negb (isData i5) then mthrow InvalidTransactionFormat else
  do! i5 := item Rlp d 5 in
  do! data := conv Rlp (toBytes i5 LaissezFaire) in
  do! i6 := item Rlp d 6 in
  do! v := conv Rlp (toInt_int i6) in
  do! i7 := item Rlp d 7 in
  do! r := conv Rlp (toInt 256 i7 Strict) in
  do! i8 := item Rlp d 8 in
  do! s := conv Rlp (toInt 256 i8 Strict) in
  do! cg := mlift (parse_signature _checkSig v r s) in
  do! t := mlift (check_sender _checkSig
    {| m_type := type; m_nonce := nonce; m_value := value; m_receiveAddress := receiveAddress;
       m_gasPrice := gasPrice; m_gas := gas; m_data := data; m_vrs := Some (snd cg); m_chainId := fst cg;
       m_hashWith := FixedHash.zero 32; m_sender := ZeroAddress |}) in
  do! n := conv Rlp (itemCount d) in
  if 9 <? n then mthrow InvalidTransactionFormat else mret t.

(** [TransactionBase(bytesConstRef, CheckTransaction)]. *)
Definition parse (_rlpData : bytes) (_checkSig : CheckTransaction) : result tx_exn TransactionBase :=
  let! d := relabel Rlp (make _rlpData VeryStrict) in
  fst (parse_fields d _checkSig cache_init).

End Signed.

(** ** The encoding *)

Definition to_item (t : TransactionBase) : Item :=
  Str (if bool_decide (m_type t = MessageCall) then m_receiveAddress t else []).
Definition base_items (t : TransactionBase) : list Item :=
  [int_item (m_nonce t); int_item (m_gasPrice t); int_item (m_gas t); to_item t; int_item (m_value t); Str (m_data t)].
Definition v_value (t : TransactionBase) (g : SignatureStruct) : Z :=
  wrap 32 (if hasZeroSignature t then m_chainId t else v g + (m_chainId t * 2 + 35)).
Definition sig_items (t : TransactionBase) (g : SignatureStruct) : list Item :=
  [int_item (v_value t g); int_item (FixedHash.to_arith 32 (r g)); int_item (FixedHash.to_arith 32 (s g))].

(** What the members of a transaction are: machine integers, an address, data of
    a size that occurs. *)
Record tx_ok (t : TransactionBase) : Prop := {
  ok_type : m_type t <> NullTransaction;
  ok_nonce : uint_ok 256 (m_nonce t);
  ok_value : uint_ok 256 (m_value t);
  ok_gasPrice : uint_ok 256 (m_gasPrice t);
  ok_gas : uint_ok 256 (m_gas t);
  ok_to : List.length (m_receiveAddress t) = 20%nat /\ bytes_ok (m_receiveAddress t);
  ok_data : bytes_ok (m_data t) /\ zlen (m_data t) < 2 ^ 63;
  ok_sig : forall g, m_vrs t = Some g ->
    (List.length (r g) = 32%nat /\ bytes_ok (r g)) /\ (List.length (s g) = 32%nat /\ bytes_ok (s g))
}.

Lemma to_arith_uint h : List.length h = 32%nat -> bytes_ok h -> uint_ok 256 (FixedHash.to_arith 32 h).
Proof.
  intros Hl Hb. rewrite FixedHash.to_arith_be_val by done. pose proof (be_val_range h Hb) as H.
  rewrite Hl in H. exact H.
Qed.

Section Encoding.
Context (t : TransactionBase) (Hok : tx_ok t).

Lemma to_item_ok : zlen (encode (to_item t)) <= 29 /\ item_ok (to_item t).
Proof.
  destruct (ok_to t Hok) as [Hl Hb]. unfold to_item. case_bool_decide; cbn [encode item_ok];
    [|split; [by vm_compute|constructor]].
  split; [|done]. destruct (encode_str_length (m_receiveAddress t)); rewrite Hl in *; lia.
Qed.

Lemma base_sizes : zlen (concat (map encode (base_items t))) < 2 ^ 63 + 256.
Proof.
  unfold base_items. cbn [map concat]. rewrite !zlen_app. change (zlen (@nil Z)) with 0.
  pose proof (int_item_length 256 _ (ok_nonce t Hok) ltac:(lia)). pose proof (int_item_length 256 _ (ok_value t Hok) ltac:(lia)).
  pose proof (int_item_length 256 _ (ok_gasPrice t Hok) ltac:(lia)). pose proof (int_item_length 256 _ (ok_gas t Hok) ltac:(lia)).
  destruct to_item_ok as [? _]. destruct (ok_data t Hok) as [_ Hd].
  destruct (encode_str_length (m_data t)); cbn [encode] in *; lia.
Qed.

Lemma sig_sizes g : m_vrs t = Some g -> zlen (concat (map encode (sig_items t g))) <= 123.
Proof.
  intros Hg. destruct (ok_sig t Hok g Hg) as [[] []]. unfold sig_items. cbn [map concat]. rewrite !zlen_app.
  change (zlen (@nil Z)) with 0.
  pose proof (int_item_length 32 _ (wrap_range 32 (if hasZeroSignature t then m_chainId t else v g + (m_chainId t * 2 + 35)) ltac:(lia)) ltac:(lia)).
  pose proof (int_item_length 256 _ (to_arith_uint (r g) ltac:(done) ltac:(done)) ltac:(lia)).
  pose proof (int_item_length 256 _ (to_arith_uint (s g) ltac:(done) ltac:(done)) ltac:(lia)).
  unfold v_value. lia.
Qed.

Definition base_ops : list (Str_M unit) :=
  [append_bigint (m_nonce t); append_bigint (m_gasPrice t); append_bigint (m_gas t);
   (if bool_decide (m_type t = MessageCall) then append_hash (m_receiveAddress t) false false else append [] false);
   append_bigint (m_value t); append (m_data t) false].

Lemma base_emits : Forall2 emits base_ops (map encode (base_items t)).
Proof.
  destruct (ok_to t Hok) as [Hl _]. destruct (ok_data t Hok) as [_ Hd].
  repeat constructor; try (eapply (emits_int 256); [by destruct Hok|lia]); [|apply emits_str; lia].
  unfold to_item. case_bool_decide; [apply emits_hash; lia|by apply emits_str].
Qed.

Lemma base_streamed n k :
  (6 <= n)%nat ->
  run_ops Stream base_ops k (filled n []) = k (filled n (map encode (base_items t))).
Proof.
  intros Hn. rewrite (run_ops_filled _ n base_ops (map encode (base_items t)) []); [done|apply base_emits|done|].
  pose proof base_sizes. cbn [app]. lia.
Qed.

Lemma not_null : bool_decide (m_type t = NullTransaction) = false.
Proof. apply bool_decide_eq_false, Hok. Qed.

Lemma tx_filled_streamed n l : List.length l = n -> 
  match out (filled n (map encode l)) with Ok b => Ok b | Err e => Err (Stream e) end = Ok (encode (Lst l)).
Proof. intros <-. rewrite filled_out by apply length_map. done. Qed.

(** A signed transaction is the list of its nine fields. *)
Lemma rlp_signed g : m_vrs t = Some g -> rlp true t = Ok (encode (Lst (base_items t ++ sig_items t g))).
Proof.
  intros Hg. unfold rlp, streamed, streamRLP. rewrite not_null, Hg. cbn [orb].
  rewrite (lift_open Stream 9 _ ltac:(lia)).
  destruct (ok_sig t Hok g Hg) as [[] []].
  set (ops := [(if hasZeroSignature t then append_bigint (wrap 32 (m_chainId t))
                else append_bigint (wrap 32 (v g + (m_chainId t * 2 + 35))));
               append_bigint (FixedHash.to_arith 32 (r g)); append_bigint (FixedHash.to_arith 32 (s g))]).
  pose proof (base_streamed 9 (run_ops Stream ops (mret tt)) ltac:(lia)) as Hrun.
  rewrite (run_ops_filled _ 9 ops (map encode (sig_items t g))) in Hrun; [| |done|].
  - unfold run_ops, base_ops, ops in Hrun. cbn [foldr] in Hrun. rewrite Hrun. cbn [mret].
    rewrite <- map_app. by apply tx_filled_streamed.
  - unfold ops, sig_items, v_value. repeat constructor; try (eapply (emits_int 256); [by apply to_arith_uint|lia]).
    destruct (hasZeroSignature t); (eapply (emits_int 32); [by apply wrap_range|lia]).
  - rewrite concat_app, zlen_app. pose proof base_sizes. pose proof (sig_sizes g Hg). lia.
Qed.

Lemma item_ok_all g : m_vrs t = Some g -> Forall item_ok (base_items t ++ sig_items t g).
Proof.
  intros Hg. destruct (ok_data t Hok). unfold base_items, sig_items. cbn [app].
  repeat (constructor; [first [apply to_item_ok | by apply toCompactBigEndian_ok | done]|]). constructor.
Qed.

Lemma signed_encodable g : m_vrs t = Some g -> encodable (Lst (base_items t ++ sig_items t g)).
Proof.
  intros Hg. pose proof base_sizes. pose proof (sig_sizes g Hg). split; [by apply item_ok_Lst, item_ok_all|].
  cbn [encode]. rewrite zlen_app, map_app, concat_app, zlen_app. unfold header. destruct (_ <? _); [cbn [List.length]; unfold maxLength; lia|].
  rewrite zlen_cons, toCompactBigEndian_length by lia.
  pose proof (bytesRequired_64 (zlen (concat (map encode (base_items t))) + zlen (concat (map encode (sig_items t g)))) ltac:(lia)).
  unfold maxLength. lia.
Qed.

(** What is hashed for the signature: the first six fields, and with a chain id
    the chain id and two zeros. *)
Definition signing_items : list Item :=
  base_items t ++ if 0 <? m_chainId t then [int_item (wrap 32 (m_chainId t)); int_item 0; int_item 0] else [].

Lemma signing_payload_spec : signing_payload t = Ok (encode (Lst signing_items)).
Proof.
  unfold signing_payload, streamed, streamRLP, signing_items. rewrite not_null. cbn [orb].
  pose proof base_sizes. destruct (0 <? m_chainId t).
  - rewrite (lift_open Stream 9 _ ltac:(lia)).
    set (ops := [append_bigint (wrap 32 (m_chainId t)); append_bigint 0; append_bigint 0]).
    pose proof (base_streamed 9 (run_ops Stream ops (mret tt)) ltac:(lia)) as Hrun.
    rewrite (run_ops_filled _ 9 ops (map encode [int_item (wrap 32 (m_chainId t)); int_item 0; int_item 0])) in Hrun; [| |done|].
    + unfold run_ops, base_ops, ops in Hrun. cbn [foldr] in Hrun. rewrite Hrun. cbn [mret].
      rewrite <- map_app. by apply tx_filled_streamed.
    + repeat constructor; (eapply (emits_int 32); [by apply wrap_range || done|lia]).
    + rewrite concat_app, zlen_app. cbn [map concat]. rewrite !zlen_app. 
      pose proof (int_item_length 32 _ (wrap_range 32 (m_chainId t) ltac:(lia)) ltac:(lia)).
      change (zlen (encode (int_item 0))) with 1. change (zlen (@nil Z)) with 0. lia.
  - rewrite (lift_open Stream 6 _ ltac:(lia)). pose proof (base_streamed 6 (mret tt) ltac:(lia)) as Hrun.
    unfold run_ops, base_ops in Hrun. cbn [foldr] in Hrun. rewrite Hrun, app_nil_r. cbn [mret]. by apply tx_filled_streamed.
Qed.

End Encoding.

(** ** Parsing *)

Section Parsing.
Context {L : Secp256k1}.

Lemma check_sender_inv chk t t' : check_sender chk t = Ok t' -> exists a, t' = set_sender a t.
Proof.
  unfold check_sender. destruct (is_Everything chk); [|intros [= <-]; exists (m_sender t); by destruct t].
  unfold sender, mbind, mget. destruct (FixedHash.to_bool (m_sender t)).
  { cbn. intros [= <-]. eauto. }
  destruct (hasZeroSignature t); [cbn; intros [= <-]; eauto|].
  destruct (m_vrs t) as [g|]; [|done]. unfold tx_sha3. cbn [andb].
  destruct (streamed _); [|done]. destruct (negb _); [done|]. cbn. intros [= <-]. eauto.
Qed.

Definition to_int32 (i : Z) : Z := if i <? 2 ^ 31 then i else i - 2 ^ 32.

Lemma to_int32_wrap i : uint_ok 32 i -> wrap 32 (to_int32 i) = i /\ - 2 ^ 31 <= to_int32 i < 2 ^ 31.
Proof.
  intros [H1 H2]. unfold to_int32, wrap. destruct (Z.ltb_spec i (2 ^ 31)).
  - rewrite Z.mod_small by lia. lia.
  - rewrite <- (Z_mod_plus_full (i - 2 ^ 32) 1). rewrite Z.mod_small by lia. lia.
Qed.

Lemma of_arith_ok n : List.length (FixedHash.of_arith 32 n) = 32%nat /\ bytes_ok (FixedHash.of_arith 32 n).
Proof. split; [apply FixedHash.of_arith_length|apply toBigEndian_ok]. Qed.

(** What the parser makes of the last three fields encodes to the same numbers. *)
Lemma parse_signature_inv chk i r0 s0 chain g t :
  uint_ok 32 i -> uint_ok 256 r0 -> uint_ok 256 s0 ->
  parse_signature chk (to_int32 i) r0 s0 = Ok (chain, g) -> m_vrs t = Some g -> m_chainId t = chain ->
  v_value t g = i /\ FixedHash.to_arith 32 (r g) = r0 /\ FixedHash.to_arith 32 (s g) = s0 /\
  (List.length (r g) = 32%nat /\ bytes_ok (r g)) /\ (List.length (s g) = 32%nat /\ bytes_ok (s g)).
Proof.
  intros Hi Hr Hs Hp Hg Hc. destruct (to_int32_wrap i Hi) as [Hw Hrange]. unfold parse_signature in Hp.
  pose proof (FixedHash.to_of_arith 32 r0 Hr) as Er. pose proof (FixedHash.to_of_arith 32 s0 Hs) as Es.
  unfold v_value, hasZeroSignature. rewrite Hg, Hc. destruct (isZeroSignature r0 s0) eqn:Ez.
  - injection Hp as <- <-. cbn [r s v]. rewrite Er, Es, Ez. auto using of_arith_ok.
  - apply result_bind_Ok in Hp as (c & Hcase & Hp).
    destruct (_ && _); [done|]. injection Hp as <- <-. cbn [r s v]. rewrite Er, Es, Ez.
    split; [|auto using of_arith_ok]. rewrite <- Hw at 2. f_equal.
    destruct (Z.ltb_spec 36 (to_int32 i)).
    + injection Hcase as <-. pose proof (Z.div_mod (to_int32 i - 35) 2 ltac:(lia)).
      pose proof (Z.mod_pos_bound (to_int32 i - 35) 2 ltac:(lia)).
      rewrite (wrap_small 8) by (unfold uint_ok; lia). lia.
    + destruct (_ || _) eqn:E27; [|done]. injection Hcase as <-. apply orb_true_iff in E27.
      rewrite (wrap_small 8) by (unfold uint_ok; destruct E27 as [E27|E27]; apply Z.eqb_eq in E27; lia). lia.
Qed.

Lemma toInt_int_inv s i :
  field_ok s -> toInt_int s = Ok i ->
  exists j, i = to_int32 j /\ uint_ok 32 j /\ s = encode (int_item j).
Proof.
  intros Hs H. unfold toInt_int in H. apply result_bind_Ok in H as (j & Hj & [= <-]).
  apply toInt_inv in Hj as [-> Hj]; [|lia|done|done]. by exists j.
Qed.

Lemma encode_not_nil x : encode (Str x) <> [].
Proof.
  cbn [encode]. destruct (encode_str_cases x) as [(b & -> & _ & ->)|[-> _]]; [done|].
  unfold header. by destruct (_ <? _).
Qed.

Lemma nine_items segs : zlen segs <= 9 -> seg_at segs 8 <> [] -> segs = map (seg_at segs) (seq 0 9).
Proof.
  intros Hl H8. do 9 (destruct segs as [|? segs]; [done|]). destruct segs; [done|]. rewrite !zlen_cons in Hl. lia.
Qed.

Lemma parse_counts d chk :
  ends (parse_fields d chk) (isList d = true /\ exists n, itemCount d = Ok n /\ n <= 9).
Proof.
  unfold parse_fields. destruct (isList d); cbn [negb]; [|apply ends_throw].
  do 12 (apply ends_bind; intros ?). destruct (negb _); [apply ends_throw|].
  do 10 (apply ends_bind; intros ?). apply ends_conv. intros n Hn.
  destruct (Z.ltb_spec 9 n); [apply ends_throw|]. intros c x c' _. eauto.
Qed.

(** The receiver, read from the fourth item. *)
Lemma reads_to d segs :
  has_items d segs ->
  reads segs
    (if isEmpty (seg_at segs (Z.to_nat 3)) then mret ZeroAddress
     else do! i3 := item Rlp d 3 in conv Rlp (toHash 20 i3 VeryStrict))
    (fun res => match res with
     | Ok a => (List.length a = 20%nat /\ bytes_ok a) /\
         if isEmpty (seg_at segs 3) then True else seg_at segs 3 = encode (Str a)
     | Err _ => True
     end).
Proof.
  intros Hd. change (Z.to_nat 3) with 3%nat. destruct (isEmpty (seg_at segs 3)) eqn:E.
  - apply reads_lift. split; [|done]. split; [done|]. apply Forall_replicate. unfold is_byte. lia.
  - apply reads_item; [done|lia|]. change (Z.to_nat 3) with 3%nat. apply reads_lift.
    destruct (toHash 20 (seg_at segs 3) VeryStrict) as [a|] eqn:Ea; [|done]. cbn.
    apply toHash_inv in Ea as (-> & Hl & Hb); [done|by eapply has_field].
Qed.

(** The main case: an accepted list of items is the encoding of the transaction. *)
Lemma parse_items d segs chk :
  has_items d segs -> zlen d < 2 ^ 63 -> isList d = true -> zlen segs <= 9 ->
  reads segs (parse_fields d chk) (fun res =>
    match res with
    | Ok t => tx_ok t /\ exists g, m_vrs t = Some g /\
        (segs = map encode (base_items t ++ sig_items t g) \/ isCreation t = true /\ seg_at segs 3 = encode (Lst []))
    | Err _ => True
    end).
Proof.
  intros Hd H63 Hl H9. unfold parse_fields. rewrite Hl. cbn [negb].
  assert (Hf : forall k, field_ok (seg_at segs k)) by (intros; by eapply has_field).
  apply reads_item; [done|lia|]. apply reads_conv; [intros nonce E0|done].
  apply reads_item; [done|lia|]. apply reads_conv; [intros gasPrice E1|done].
  apply reads_item; [done|lia|]. apply reads_conv; [intros gas E2|done].
  apply reads_item; [done|lia|]. apply reads_item; [done|lia|]. apply reads_bind.
  eapply reads_mono; [by apply reads_to|]. intros [to|] Hto; [|done].
  apply reads_item; [done|lia|]. apply reads_conv; [intros value E4|done].
  apply reads_item; [done|lia|]. destruct (isData _) eqn:E5; [|by apply reads_lift]. cbn [negb].
  apply reads_item; [done|lia|]. apply reads_conv; [intros data E5'|done].
  apply reads_item; [done|lia|]. apply reads_conv; [intros v0 E6|done].
  apply reads_item; [done|lia|]. apply reads_conv; [intros r0 E7|done].
  apply reads_item; [done|lia|]. apply reads_conv; [intros s0 E8|done].
  apply reads_bind, reads_lift. destruct (parse_signature _ _ _ _) as [[chain g]|] eqn:Es; [|done]. cbn [fst snd].
  apply reads_bind, reads_lift. destruct (check_sender _ _) as [t|] eqn:Et; [|done].
  apply reads_conv; [intros n _|done]. destruct (9 <? n); [by apply reads_lift|].
  apply reads_lift. apply check_sender_inv in Et as (a & ->).
  apply toInt_inv in E0 as [E0 R0]; [|lia|done|done]. apply toInt_inv in E1 as [E1 R1]; [|lia|done|done].
  apply toInt_inv in E2 as [E2 R2]; [|lia|done|done]. apply toInt_inv in E4 as [E4 R4]; [|lia|done|done].
  apply toInt_inv in E7 as [E7 R7]; [|lia|done|done]. apply toInt_inv in E8 as [E8 R8]; [|lia|done|done].
  apply toInt_int_inv in E6 as (j & -> & Rj & E6); [|done]. apply toBytes_inv in E5' as [E5' R5]; [|done|done].
  match goal with |- tx_ok ?t /\ _ => destruct (parse_signature_inv chk j r0 s0 chain g t Rj R7 R8 Es eq_refl eq_refl)
    as (Hv & Hr & Hs & Hrk & Hsk) end.
  assert (Hdata : zlen data < 2 ^ 63).
  { pose proof (seg_at_length segs 5). pose proof (hi_len d segs Hd). pose proof (encode_str_ge data).
    change (Z.to_nat 5) with 5%nat in E5'. cbn [encode] in E5'. rewrite E5' in *. lia. }
  destruct Hto as [Hto Hto3]. split.
  { split; cbn [set_sender m_type m_nonce m_value m_gasPrice m_gas m_receiveAddress m_data m_vrs]; try done.
    - by destruct (isEmpty _).
    - intros g' [= <-]. done. }
  exists g. split; [done|].
  assert (Hseg : segs = map (seg_at segs) (seq 0 9)).
  { apply nine_items; [done|]. change (Z.to_nat 8) with 8%nat in E8. rewrite E8. apply encode_not_nil. }
  change (Z.to_nat 3) with 3%nat in *.
  destruct (isEmpty (seg_at segs 3)) eqn:E3.
  - destruct (isEmpty_inv _ (Hf 3%nat) E3) as [E3'|E3']; [left|right; split; [|done]; unfold isCreation; cbn; by apply bool_decide_eq_true].
    etransitivity; [exact Hseg|]. unfold sig_items. rewrite Hv, Hr, Hs. cbn. by repeat f_equal.
  - left. etransitivity; [exact Hseg|]. unfold sig_items. rewrite Hv, Hr, Hs. cbn. by repeat f_equal.
Qed.

(** Reading an encoded transaction back. *)

(** A signature that parsing gives back: the chain id and the bit of [v] are read
    off one number. *)
Definition sig_canonical (chk : CheckTransaction) (t : TransactionBase) (g : SignatureStruct) : Prop :=
  if hasZeroSignature t then v g = 0 /\ - 2 ^ 31 <= m_chainId t < 2 ^ 31
  else (v g = 0 \/ v g = 1) /\ (m_chainId t = -4 \/ 0 < m_chainId t < 2 ^ 30 - 18) /\
       (at_least_Cheap chk = true -> isValid g = true).

(** The members that the encoding holds. *)
Definition forget (t : TransactionBase) : TransactionBase :=
  {| m_type := m_type t; m_nonce := m_nonce t; m_value := m_value t;
     m_receiveAddress := if bool_decide (m_type t = MessageCall) then m_receiveAddress t else ZeroAddress;
     m_gasPrice := m_gasPrice t; m_gas := m_gas t; m_data := m_data t; m_vrs := m_vrs t; m_chainId := m_chainId t;
     m_hashWith := FixedHash.zero 32; m_sender := ZeroAddress |}.

Lemma to_int32_wrap' c : - 2 ^ 31 <= c < 2 ^ 31 -> to_int32 (wrap 32 c) = c.
Proof.
  intros Hc. unfold to_int32, wrap. destruct (Z.le_gt_cases 0 c).
  - rewrite Z.mod_small by lia. destruct (Z.ltb_spec c (2 ^ 31)); lia.
  - rewrite <- (Z_mod_plus_full c 1). rewrite Z.mod_small by lia. destruct (Z.ltb_spec (c + 1 * 2 ^ 32) (2 ^ 31)); lia.
Qed.

Lemma parse_signature_back chk t g :
  tx_ok t -> m_vrs t = Some g -> sig_canonical chk t g ->
  parse_signature chk (to_int32 (v_value t g)) (FixedHash.to_arith 32 (r g)) (FixedHash.to_arith 32 (s g))
  = Ok (m_chainId t, g).
Proof.
  intros Hok Hg Hc. destruct (ok_sig t Hok g Hg) as [[Hr1 Hr2] [Hs1 Hs2]].
  unfold sig_canonical in Hc. unfold parse_signature, v_value. unfold hasZeroSignature in *. rewrite Hg in *.
  rewrite !FixedHash.of_to_arith by done. destruct (isZeroSignature _ _).
  - destruct Hc as [Hv Hch]. rewrite to_int32_wrap' by done. destruct g. cbn in Hv. by subst.
  - destruct Hc as (Hv & Hch & Hval). rewrite to_int32_wrap' by lia.
    assert (Hrest : (let g' := {| r := r g; s := s g; v := wrap 8 (v g + (m_chainId t * 2 + 35) - (m_chainId t * 2 + 35)) |} in
      (if at_least_Cheap chk && negb (isValid g') then Err InvalidSignature else Ok (m_chainId t, g')) = Ok (m_chainId t, g))).
    { cbv zeta. rewrite (wrap_small 8) by (unfold uint_ok; lia).
      replace (v g + (m_chainId t * 2 + 35) - (m_chainId t * 2 + 35)) with (v g) by lia.
      replace {| r := r g; s := s g; v := v g |} with g by (by destruct g).
      destruct (at_least_Cheap chk); [|done]. by rewrite Hval. }
    destruct Hch as [Hch|Hch].
    + destruct (Z.ltb_spec 36 (v g + (m_chainId t * 2 + 35))); [lia|].
      assert ((v g + (m_chainId t * 2 + 35) =? 27) || (v g + (m_chainId t * 2 + 35) =? 28) = true) as ->.
      { apply orb_true_iff. rewrite !Z.eqb_eq. lia. }
      cbn [result_bind]. rewrite <- Hch. exact Hrest.
    + destruct (Z.ltb_spec 36 (v g + (m_chainId t * 2 + 35))); [|lia].
      assert ((v g + (m_chainId t * 2 + 35) - 35) / 2 = m_chainId t) as ->.
      { symmetry. apply (Z.div_unique _ _ _ (v g)); lia. }
      exact Hrest.
Qed.

Lemma parse_encoded chk t g :
  tx_ok t -> m_vrs t = Some g -> sig_canonical chk t g ->
  let l := base_items t ++ sig_items t g in
  reads (map encode l) (parse_fields (encode (Lst l)) chk) (fun res => res = check_sender chk (forget t)).
Proof.
  intros Hok Hg Hc l. pose proof (signed_encodable t Hok g Hg) as He. fold l in He.
  pose proof (has_items_encode l He) as Hi. unfold parse_fields. rewrite encode_isList by done. cbn [is_lst negb].
  assert (Hto : encodable (to_item t)).
  { destruct (to_item_ok t Hok). split; [done|]. unfold maxLength. lia. }
  assert (Hdat : encodable (Str (m_data t))).
  { destruct (encodable_Lst l He) as [HF _]. rewrite Forall_lookup in HF. by apply (HF 5%nat). }
  destruct (ok_sig t Hok g Hg) as [[Hr1 Hr2] [Hs1 Hs2]].
  do 3 (eapply reads_field; [done|lia|reflexivity|apply toInt_item; [lia|done|by apply Hok]|]).
  apply reads_item; [done|lia|]. apply reads_item; [done|lia|].
  change (seg_at (map encode l) (Z.to_nat 3)) with (encode (to_item t)).
  assert (isEmpty (encode (to_item t)) = negb (bool_decide (m_type t = MessageCall))) as ->.
  { unfold to_item in *. rewrite isEmpty_Str by done. destruct (ok_to t Hok) as [Hl _].
    destruct (bool_decide (m_type t = MessageCall)); [|done].
    apply bool_decide_eq_false. intros E. by rewrite E in Hl. }
  apply reads_bind. apply (reads_mono _ _ (fun res => res = Ok (m_receiveAddress (forget t)))).
  { cbn [forget m_receiveAddress]. destruct (bool_decide (m_type t = MessageCall)) eqn:Et; cbn [negb]; [|by apply reads_lift].
    apply reads_item; [done|lia|]. change (seg_at (map encode l) (Z.to_nat 3)) with (encode (to_item t)).
    apply reads_lift. unfold to_item in *. rewrite Et in *. rewrite toHash_encode by done.
    rewrite bool_decide_true by apply Hok. done. }
  intros ? ->. eapply reads_field; [done|lia|reflexivity|apply toInt_item; [lia|done|by apply Hok]|].
  apply reads_item; [done|lia|]. change (seg_at (map encode l) (Z.to_nat 5)) with (encode (Str (m_data t))).
  rewrite encode_isData by done. cbn [is_lst negb].
  eapply reads_field; [done|lia|reflexivity|by apply toBytes_encode|].
  eapply (reads_field Rlp _ _ _ (encode (int_item (v_value t g))) _ (to_int32 (v_value t g))); [done|lia|reflexivity| |].
  { unfold toInt_int. rewrite toInt_item; [done|lia|done|by apply wrap_range]. }
  do 2 (eapply reads_field; [done|lia|reflexivity|apply toInt_item; [lia|done|by apply to_arith_uint]|]).
  rewrite parse_signature_back by done. apply reads_bind, reads_lift. cbn [fst snd].
  assert ({| m_type := if negb (bool_decide (m_type t = MessageCall)) then ContractCreation else MessageCall;
    m_nonce := m_nonce t; m_value := m_value t; m_receiveAddress := m_receiveAddress (forget t); m_gasPrice := m_gasPrice t;
    m_gas := m_gas t; m_data := m_data t; m_vrs := Some g; m_chainId := m_chainId t; m_hashWith := FixedHash.zero 32;
    m_sender := ZeroAddress |} = forget t) as ->.
  { unfold forget. cbn. rewrite Hg. f_equal. pose proof (ok_type t Hok). by destruct (m_type t). }
  apply reads_bind, reads_lift. destruct (check_sender chk (forget t)) as [t'|e]; [|done].
  apply reads_conv; rewrite itemCount_encode by done; [|done]. intros n [= <-]. by apply reads_lift.
Qed.

(** ** Properties *)

(** C12: parsing the encoding of a signed transaction gives the transaction back -
    type, nonce, prices, receiver, value, data, chain id and signature - for every
    signature check, the check of the sender included. *)
Theorem transaction_roundtrip (chk : CheckTransaction) (t : TransactionBase) (g : SignatureStruct) :
  tx_ok t -> m_vrs t = Some g -> sig_canonical chk t g ->
  exists d, rlp true t = Ok d /\ parse d chk = check_sender chk (forget t).
Proof.
  intros Hok Hg Hc. exists (encode (Lst (base_items t ++ sig_items t g))). split; [by apply rlp_signed|].
  unfold parse. rewrite encode_make by (by apply signed_encodable). cbn [relabel result_bind].
  apply (reads_fresh _ _ _ (parse_encoded chk t g Hok Hg Hc)).
Qed.

(** C13: the parser accepts only what a transaction is written as: bytes that parse
    are the encoding of the transaction they parse to, whose members are in range -
    except that an empty list is also taken for the absent receiver of a contract
    creation. *)
Theorem transaction_canonical (chk : CheckTransaction) (d : bytes) (t : TransactionBase) :
  bytes_ok d -> zlen d < 2 ^ 63 -> parse d chk = Ok t ->
  tx_ok t /\ (rlp true t = Ok d \/ isCreation t = true /\ nth d 3 = Ok (encode (Lst []))).
Proof.
  intros Hd Hlen Hp. unfold parse in Hp. apply result_bind_Ok in Hp as (d' & Hm & Hp).
  destruct (make d VeryStrict) as [m|] eqn:Em; [|done]. injection Hm as ->.
  destruct (make_strict_inv d d' Hd Em) as [-> _].
  destruct (parse_fields d chk cache_init) as [res c] eqn:E. cbn [fst] in Hp. subst res.
  destruct (parse_counts d chk _ _ _ E) as (Hl & n & Hn & Hn9).
  destruct (has_items_inv d n Hd ltac:(unfold maxLength; lia) Em Hl Hn) as (segs & Hi & -> & Hdec).
  destruct (parse_items d segs chk Hi Hlen Hl Hn9 cache_init (cache_init_ok segs)) as (res & c' & E' & _ & HQ).
  rewrite E in E'. injection E' as <- <-. destruct HQ as (Hok & g & Hg & Hseg). split; [done|].
  destruct Hseg as [Hseg|H3]; [left|right].
  - rewrite (rlp_signed t Hok g Hg). cbn [encode]. by rewrite <- Hseg, <- Hdec.
  - destruct H3 as [Hcr H3]. split; [done|]. unfold nth.
    destruct (index_segments d segs (has_segments d segs Hi) (hi_payload d segs Hi) (has_npos d segs Hi)
      (hi_len d segs Hi) 3 cache_init ltac:(lia) (cache_init_ok segs)) as (c3 & -> & _). cbn [fst]. by rewrite <- H3.
Qed.

(** The receiver of a contract creation can be written in two ways: the empty
    string, and the empty list, which [isEmpty] takes for it too. Both encodings
    parse to the same transaction, but only one of them hashes to its hash. *)
Theorem creation_two_encodings :
  exists d d' t, d <> d' /\ parse d Cheap = Ok t /\ parse d' Cheap = Ok t /\
    rlp true t = Ok d /\ rlp true t <> Ok d'.
Proof.
  exists [0xc9; 0x80; 1; 2; 0x80; 3; 0x80; 27; 1; 1], [0xc9; 0x80; 1; 2; 0xc0; 3; 0x80; 27; 1; 1].
  eexists. split; [done|]. split; [vm_compute; reflexivity|]. split; [vm_compute; reflexivity|].
  split; [vm_compute; reflexivity|]. vm_compute. discriminate.
Qed.

End Parsing.

(** ** Signatures *)

Lemma signing_encodable t : tx_ok t -> encodable (Lst (signing_items t)).
Proof.
  intros Hok. pose proof (base_sizes t Hok). destruct (ok_data t Hok).
  assert (Hl : zlen (concat (map encode (signing_items t))) < 2 ^ 63 + 512).
  { unfold signing_items. rewrite map_app, concat_app, zlen_app. destruct (0 <? m_chainId t); cbn [map concat]; [|change (zlen (@nil Z)) with 0; lia].
    pose proof (int_item_length 32 _ (wrap_range 32 (m_chainId t) ltac:(lia)) ltac:(lia)).
    rewrite !zlen_app. change (zlen (encode (int_item 0))) with 1. change (zlen (@nil Z)) with 0. lia. }
  split.
  - apply item_ok_Lst. unfold signing_items, base_items. cbn [app].
    repeat (constructor; [first [by apply to_item_ok | by apply toCompactBigEndian_ok | done]|]).
    destruct (0 <? m_chainId t); repeat constructor; try apply toCompactBigEndian_ok; try (cbn; constructor).
  - cbn [encode]. rewrite zlen_app. unfold header. destruct (_ <? _); [cbn [List.length]; unfold maxLength; lia|].
    rewrite zlen_cons, toCompactBigEndian_length by lia.
    pose proof (bytesRequired_64 (zlen (concat (map encode (signing_items t)))) ltac:(lia)). unfold maxLength. lia.
Qed.

(** C14: a signature is for one transaction on one chain: two transactions with the
    same signing hash agree on type, receiver and every other signed field, and on
    the chain id when either of them has one - unless their payloads are a
    collision of the hash function. *)
Theorem signing_hash_binds (t t' : TransactionBase) (p p' : bytes) :
  tx_ok t -> tx_ok t' -> m_chainId t < 2 ^ 31 -> m_chainId t' < 2 ^ 31 ->
  signing_payload t = Ok p -> signing_payload t' = Ok p' -> (sha3 p = sha3 p' -> p = p') ->
  fst (tx_sha3 false t) = fst (tx_sha3 false t') ->
  m_type t = m_type t' /\ m_nonce t = m_nonce t' /\ m_gasPrice t = m_gasPrice t' /\ m_gas t = m_gas t' /\
  m_value t = m_value t' /\ m_data t = m_data t' /\
  (m_type t = MessageCall -> m_receiveAddress t = m_receiveAddress t') /\
  (0 < m_chainId t \/ 0 < m_chainId t' -> m_chainId t = m_chainId t').
Proof.
  intros Hok Hok' Hc Hc' Hp Hp' Hcol Hh. unfold tx_sha3 in Hh. cbn [andb] in Hh. rewrite !andb_true_r in Hh.
  unfold signing_payload in Hp, Hp'. rewrite Hp, Hp' in Hh. cbn [fst] in Hh. injection Hh as Hh.
  specialize (Hcol Hh). subst p'. rewrite <- Hp in Hp'.
  change (signing_payload t' = signing_payload t) in Hp'. rewrite !signing_payload_spec in Hp' by done.
  assert (Hl : Lst (signing_items t') = Lst (signing_items t)).
  { apply encode_inj; [by apply signing_encodable..|]. congruence. }
  clear Hp'. injection Hl as H0 H1 H2 H3 H4 H5 H6.
  assert (Hinj : forall a b, 0 <= a -> 0 <= b -> toCompactBigEndian a 0 = toCompactBigEndian b 0 -> a = b)
    by (intros; apply int_item_inj; [done|done|by f_equal]).
  apply Hinj in H0; [|apply Hok'|apply Hok]. apply Hinj in H1; [|apply Hok'|apply Hok].
  apply Hinj in H2; [|apply Hok'|apply Hok]. apply Hinj in H4; [|apply Hok'|apply Hok].
  pose proof (ok_type t Hok). pose proof (ok_type t' Hok'). destruct (ok_to t Hok) as [Hlen _], (ok_to t' Hok') as [Hlen' _].
  assert (Hty : m_type t = m_type t' /\ (m_type t = MessageCall -> m_receiveAddress t = m_receiveAddress t')).
  { destruct (m_type t), (m_type t'); try done;
      [change (m_receiveAddress t' = []) in H3; by rewrite H3 in Hlen'
      |change ([] = m_receiveAddress t) in H3; by rewrite <- H3 in Hlen]. }
  destruct Hty as [Hty Hto]. do 6 (split; [done|]). split; [done|]. intros Hpos.
  destruct (Z.ltb_spec 0 (m_chainId t)), (Z.ltb_spec 0 (m_chainId t')); try done; try lia.
  injection H6 as H6. apply Hinj in H6; [|apply wrap_range; lia..].
  by rewrite !wrap_small in H6 by (unfold uint_ok; lia).
Qed.

Section Senders.
Context {L : Secp256k1} {HL : Secp256k1Laws L}.

(** C15: signing an unsigned transaction with a key the library accepts stores the
    library's signature of the signing hash, when its recovery id is 0 or 1; the
    signature has a low [s], and the signer's address is recovered from it as the sender.
    With a recovery id of 2 or 3, which a transaction cannot hold, the transaction stays
    as it was. *)
Theorem signer_is_sender (k : bytes) (p : pubkey) (t : TransactionBase) :
  tx_ok t -> m_vrs t = None -> FixedHash.to_bool (m_sender t) = false ->
  secp256k1_ec_pubkey_create k = Some p -> FixedHash.to_bool (Public_of p) = true ->
  (forall h, secp256k1_ecdsa_sign_recoverable h k <> None) ->
  exists d rs g, signing_payload t = Ok d /\ secp256k1_ecdsa_sign_recoverable (sha3 d) k = Some rs /\
    secp256k1_ecdsa_recoverable_signature_serialize_compact rs = (r g ++ s g, v g) /\
    (if v g <=? 1 then
       exists t', tx_sign k t = (Ok tt, t') /\ t' = set_vrs (Some g) t /\
         checkLowS t' = Ok tt /\ fst (sender t') = Ok (toAddress (toPublic k))
     else tx_sign k t = (Ok tt, t)).
Proof.
  intros Hok Hun Hs Hp Hnz Hsig. unfold tx_sign, mbind.
  pose proof (signing_payload_spec t Hok) as Hpay'. pose proof Hpay' as Hpay. unfold signing_payload in Hpay.
  assert (Hsha : tx_sha3 false t = (Ok (sha3 (encode (Lst (signing_items t)))), t)).
  { unfold tx_sha3. cbn [andb]. rewrite andb_true_r, Hpay. done. }
  rewrite Hsha. set (h := sha3 _) in *. destruct (secp256k1_ecdsa_sign_recoverable h k) as [rs|] eqn:Ers; [|by specialize (Hsig h)].
  destruct (sign_spec k h p rs Hp Ers) as (g & Hg & Hser & Hrec & Hv & Hr & Hs' & Hrk & Hsk & Hrr & Hsr).
  exists (encode (Lst (signing_items t))), rs, g. split; [exact Hpay'|]. split; [done|]. split; [done|].
  unfold mlift. rewrite Hg. cbn [relabel]. pose proof (isValid_spec g Hr Hs' Hrk Hsk) as Hval. destruct (Z.leb_spec (v g) 1) as [Hv1|Hv1].
  2: { destruct (isValid g); [|done]. destruct Hval as [Hval _]. specialize (Hval eq_refl). lia. }
  assert (isValid g = true) as -> by (apply Hval; split; [lia|]; split; [lia|]; split; [lia|]; apply (Z.le_lt_trans _ (c_secp256k1n / 2)); [lia|done]).
  eexists. split; [done|]. split; [done|]. unfold checkLowS. cbn [set_vrs m_vrs].
  rewrite FixedHash.to_arith_be_val by done. destruct (Z.gtb_spec (be_val (s g)) (c_secp256k1n / 2)); [lia|].
  split; [done|]. unfold sender, mbind, mget. cbn [set_vrs m_sender m_vrs]. rewrite Hs.
  assert (hasZeroSignature (set_vrs (Some g) t) = false) as ->.
  { unfold hasZeroSignature, isZeroSignature. cbn [set_vrs m_vrs]. rewrite !FixedHash.to_arith_be_val by done.
    destruct (Z.eqb_spec (be_val (r g)) 0); [lia|done]. }
  assert (tx_sha3 false (set_vrs (Some g) t) = (Ok h, set_vrs (Some g) t)) as ->.
  { unfold tx_sha3. cbn [andb set_vrs m_chainId]. rewrite andb_true_r.
    change (streamRLP (set_vrs (Some g) t) false (0 <? m_chainId t)) with (streamRLP t false (0 <? m_chainId t)).
    by rewrite Hpay. }
  rewrite Hrec, Hnz. cbn. unfold toAddress, toPublic. by rewrite Hp.
Qed.

End Senders.

(** ** Examples *)

(** A library with one key and one signature, to show that the laws can be met. *)
Definition toy_number : bytes := FixedHash.of_arith 32 1.
Definition Toy : Secp256k1 :=
  {| recoverable_signature := unit; pubkey := unit;
     secp256k1_ec_pubkey_create := fun _ => Some tt;
     secp256k1_ec_pubkey_serialize := fun _ => 4 :: replicate 64 1;
     secp256k1_ecdsa_sign_recoverable := fun _ _ => Some tt;
     secp256k1_ecdsa_recoverable_signature_serialize_compact := fun _ => (toy_number ++ toy_number, 0);
     secp256k1_ecdsa_recoverable_signature_parse_compact := fun _ _ => Some tt;
     secp256k1_ecdsa_recover := fun _ _ => Some tt |}.

Lemma Toy_laws : Secp256k1Laws Toy.
Proof.
  split.
  - intros []. exists (replicate 64 1). split; [done|]. split; [done|]. apply Forall_replicate. unfold is_byte. lia.
  - intros []. exists toy_number, toy_number, 0. split; [done|]. destruct (of_arith_ok 1). by repeat split.
  - intros h k rs r0 s0 v0 _ E Hr. apply (f_equal fst) in E. change (toy_number ++ toy_number = r0 ++ s0) in E.
    apply app_inj_1 in E as [<- <-]; [|by rewrite Hr].
    split; by vm_compute.
  - by intros h k [] [].
Qed.

Definition example_call : TransactionBase := fresh MessageCall 5 1 21000 (replicate 20 7) [1; 2; 3] 9.

Lemma example_ok g : g = None \/ g = Some {| r := toy_number; s := toy_number; v := 0 |} -> tx_ok (set_vrs g example_call).
Proof.
  intros Hg. split; cbn [set_vrs example_call fresh m_type m_nonce m_value m_gasPrice m_gas m_receiveAddress m_data m_vrs];
    [done|by unfold uint_ok..| | |].
  - split; [done|]. repeat constructor; unfold is_byte; lia.
  - split; [|done]. repeat constructor; unfold is_byte; lia.
  - intros g' ->. destruct Hg as [|[= ->]]; [done|]. by destruct (of_arith_ok 1).
Qed.

Lemma transaction_roundtrip_witness :
  let g := {| r := toy_number; s := toy_number; v := 0 |} in
  let t := set_vrs (Some g) example_call in
  exists d, rlp true t = Ok d /\ parse (L := Toy) d Cheap = Ok t.
Proof.
  apply (transaction_roundtrip (L := Toy) Cheap (set_vrs (Some {| r := toy_number; s := toy_number; v := 0 |}) example_call)
    {| r := toy_number; s := toy_number; v := 0 |}).
  - apply example_ok. by right.
  - reflexivity.
  - vm_compute. auto.
Defined.

Lemma transaction_canonical_witness :
  let d := [0xc9; 0x80; 1; 2; 0x80; 3; 0x80; 27; 1; 1] in
  exists t, parse (L := Toy) d Cheap = Ok t /\
  tx_ok t /\ (rlp true t = Ok d \/ isCreation t = true /\ nth d 3 = Ok (encode (Lst []))).
Proof.
  intros d. eexists. split; [vm_compute; reflexivity|].
  apply (transaction_canonical (L := Toy) Cheap d).
  - repeat constructor; unfold is_byte; lia.
  - vm_compute. reflexivity.
  - vm_compute. reflexivity.
Defined.

Lemma signing_hash_binds_witness : m_nonce example_call = m_nonce (set_hashWith [1] example_call).
Proof.
  destruct (signing_payload example_call) as [p|e] eqn:E; [|vm_compute in E; discriminate].
  apply (signing_hash_binds example_call (set_hashWith [1] example_call) p p).
  - apply (example_ok None). by left.
  - destruct (example_ok None ltac:(by left)) as [H1 H2 H3 H4 H5 H6 H7 H8]. by split.
  - reflexivity.
  - reflexivity.
  - exact E.
  - exact E.
  - intros _. reflexivity.
  - unfold tx_sha3. cbn [andb set_hashWith m_chainId].
    change (streamRLP (set_hashWith [1] example_call) false) with (streamRLP example_call false).
    unfold signing_payload in E. rewrite andb_true_r, E. reflexivity.
Defined.

Lemma signer_is_sender_witness :
  exists t', tx_sign (L := Toy) (replicate 32 1) example_call = (Ok tt, t') /\ m_vrs t' <> None /\
    checkLowS t' = Ok tt /\ fst (sender (L := Toy) t') = Ok (toAddress (toPublic (L := Toy) (replicate 32 1))).
Proof.
  destruct (signer_is_sender (L := Toy) (HL := Toy_laws) (replicate 32 1) tt example_call) as (d & rs & g & _ & _ & Hser & Ht).
  - apply (example_ok None). by left.
  - reflexivity.
  - reflexivity.
  - reflexivity.
  - vm_compute. reflexivity.
  - intros h. discriminate.
  - injection Hser as _ Hv. rewrite <- Hv in Ht. destruct Ht as (t' & H1 & H2 & H3 & H4). exists t'. subst t'. done.
Defined.

End Transaction.
