(* ===== verification/BlockHeader.v ===== *)
(** * BlockHeader: block headers (libvapcore/BlockHeader)

    The class [BlockHeader]: parsing, serialising, the memoised hashes, the
    setters and [verify].  Locks and log messages are left out; so are the bytes
    of the offending field that [populate] attaches to an exception, but not the
    access by which it gets them, which can throw itself. *)

From stdpp Require Import base list numbers option.
From Stdlib Require Import ZArith Lia.
From S2P Require Import Prelude Bytes Rlp RlpStream RlpFields Keccak TrieCommon TrieDB TrieHash.
Import CommonData RLP RLPStream RlpFields Keccak TrieDB TrieHash.

Module BlockHeader.

#[local] Opaque sha3.

(** ** Data *)

Inductive hdr_exn :=
| Rlp (e : exn) | Stream (e : stream_exn) | Trie (e : trie_exn)
| InvalidBlockFormat | InvalidNumber | TooMuchGasUsed | InvalidParentHash | InvalidTimestamp
| InvalidTransactionsRoot | InvalidUnclesHash.

Inductive IncludeSeal := WithoutSeal | WithSeal | OnlySeal.
Inductive Strictness := CheckEverything | JustSeal | QuickNonce | IgnoreSeal | CheckNothingNew.
#[export] Instance Strictness_eq_dec : EqDecision Strictness.
Proof. solve_decision. Defined.
Inductive BlockDataType := HeaderData | BlockData.

Definition BasicFields : Z := 13.
Definition Invalid256 : Z := 2 ^ 256 - 1.
Definition EmptyListSHA3 : bytes := sha3 [0xc0].

Record BlockHeader := {
  m_parentHash : bytes;
  m_sha3Uncles : bytes;
  m_stateRoot : bytes;
  m_transactionsRoot : bytes;
  m_receiptsRoot : bytes;
  m_logBloom : bytes;
  m_number : Z;
  m_gasLimit : Z;
  m_gasUsed : Z;
  m_extraData : bytes;
  m_timestamp : Z;
  m_author : bytes;
  m_difficulty : Z;
  m_seal : list bytes;
  m_hash : bytes;
  m_hashWithout : bytes
}.

Abbreviation h256_zero := (FixedHash.zero 32).

(** [BlockHeader()] *)
Definition empty_header : BlockHeader :=
  {| m_parentHash := h256_zero; m_sha3Uncles := h256_zero; m_stateRoot := h256_zero; m_transactionsRoot := h256_zero;
     m_receiptsRoot := h256_zero; m_logBloom := FixedHash.zero 256; m_number := 0; m_gasLimit := 0; m_gasUsed := 0;
     m_extraData := []; m_timestamp := Invalid256; m_author := FixedHash.zero 20; m_difficulty := 0; m_seal := [];
     m_hash := h256_zero; m_hashWithout := h256_zero |}.

(** [operator bool] and [operator==]. *)
Definition to_bool (h : BlockHeader) : bool := negb (m_timestamp h =? Invalid256).
Definition hdr_eqb (a c : BlockHeader) : bool :=
  bool_decide (m_parentHash a = m_parentHash c) && bool_decide (m_sha3Uncles a = m_sha3Uncles c)
  && bool_decide (m_author a = m_author c) && bool_decide (m_stateRoot a = m_stateRoot c)
  && bool_decide (m_transactionsRoot a = m_transactionsRoot c) && bool_decide (m_receiptsRoot a = m_receiptsRoot c)
  && bool_decide (m_logBloom a = m_logBloom c) && (m_difficulty a =? m_difficulty c)
  && (m_number a =? m_number c) && (m_gasLimit a =? m_gasLimit c) && (m_gasUsed a =? m_gasUsed c)
  && (m_timestamp a =? m_timestamp c) && bool_decide (m_extraData a = m_extraData c).

(** ** Setters *)

Definition set_hashes (w wo : bytes) (h : BlockHeader) : BlockHeader :=
  {| m_parentHash := m_parentHash h; m_sha3Uncles := m_sha3Uncles h; m_stateRoot := m_stateRoot h;
     m_transactionsRoot := m_transactionsRoot h; m_receiptsRoot := m_receiptsRoot h; m_logBloom := m_logBloom h;
     m_number := m_number h; m_gasLimit := m_gasLimit h; m_gasUsed := m_gasUsed h; m_extraData := m_extraData h;
     m_timestamp := m_timestamp h; m_author := m_author h; m_difficulty := m_difficulty h; m_seal := m_seal h;
     m_hash := w; m_hashWithout := wo |}.
Definition noteDirty (h : BlockHeader) : BlockHeader := set_hashes h256_zero h256_zero h.

(** The fields that the setters, [clear] and [populateFromParent] write. *)
Inductive field :=
| ParentHash (_v : bytes) | Sha3Uncles (_v : bytes) | StateRoot (_v : bytes) | TransactionsRoot (_v : bytes)
| ReceiptsRoot (_v : bytes) | LogBloom (_v : bytes) | Number (_v : Z) | GasLimit (_v : Z) | GasUsed (_v : Z)
| ExtraData (_v : bytes) | Timestamp (_v : Z) | Author (_v : bytes) | Difficulty (_v : Z) | Seal (_v : list bytes).
Definition assign (f : field) (h : BlockHeader) : BlockHeader :=
  {| m_parentHash := match f with ParentHash x => x | _ => m_parentHash h end;
     m_sha3Uncles := match f with Sha3Uncles x => x | _ => m_sha3Uncles h end;
     m_stateRoot := match f with StateRoot x => x | _ => m_stateRoot h end;
     m_transactionsRoot := match f with TransactionsRoot x => x | _ => m_transactionsRoot h end;
     m_receiptsRoot := match f with ReceiptsRoot x => x | _ => m_receiptsRoot h end;
     m_logBloom := match f with LogBloom x => x | _ => m_logBloom h end;
     m_number := match f with Number x => x | _ => m_number h end;
     m_gasLimit := match f with GasLimit x => x | _ => m_gasLimit h end;
     m_gasUsed := match f with GasUsed x => x | _ => m_gasUsed h end;
     m_extraData := match f with ExtraData x => x | _ => m_extraData h end;
     m_timestamp := match f with Timestamp x => x | _ => m_timestamp h end;
     m_author := match f with Author x => x | _ => m_author h end;
     m_difficulty := match f with Difficulty x => x | _ => m_difficulty h end;
     m_seal := match f with Seal x => x | _ => m_seal h end;
     m_hash := m_hash h; m_hashWithout := m_hashWithout h |}.

Definition setParentHash (_v : bytes) (h : BlockHeader) := noteDirty (assign (ParentHash _v) h).
Definition setSha3Uncles (_v : bytes) (h : BlockHeader) := noteDirty (assign (Sha3Uncles _v) h).
Definition setTimestamp (_v : Z) (h : BlockHeader) := noteDirty (assign (Timestamp _v) h).
Definition setAuthor (_v : bytes) (h : BlockHeader) := noteDirty (assign (Author _v) h).
Definition setRoots (_t _r _u _s : bytes) (h : BlockHeader) :=
  noteDirty (assign (Sha3Uncles _u) (assign (StateRoot _s) (assign (ReceiptsRoot _r) (assign (TransactionsRoot _t) h)))).
Definition setGasUsed (_v : Z) (h : BlockHeader) := noteDirty (assign (GasUsed _v) h).
Definition setNumber (_v : Z) (h : BlockHeader) := noteDirty (assign (Number _v) h).
Definition setGasLimit (_v : Z) (h : BlockHeader) := noteDirty (assign (GasLimit _v) h).
Definition setExtraData (_v : bytes) (h : BlockHeader) := noteDirty (assign (ExtraData _v) h).
Definition setLogBloom (_v : bytes) (h : BlockHeader) := noteDirty (assign (LogBloom _v) h).
Definition setDifficulty (_v : Z) (h : BlockHeader) := noteDirty (assign (Difficulty _v) h).

(** [setSeal(_offset, _value)], for a value with the encoding [rlp]; the vector
    is resized with empty strings. *)
Definition setSeal (_offset : nat) (rlp : bytes) (h : BlockHeader) : BlockHeader :=
  let s := if (List.length (m_seal h) <=? _offset)%nat
           then m_seal h ++ replicate (_offset + 1 - List.length (m_seal h)) [] else m_seal h in
  noteDirty (assign (Seal (<[_offset := rlp]> s)) h).

(** [seal<T>(_offset)], for a conversion of [T]. *)
Definition seal {A} (convert : bytes -> Z -> result exn A) (dflt : A) (_offset : nat) (h : BlockHeader) : result exn A :=
  match m_seal h !! _offset with
  | Some s => let! d := make s VeryStrict in convert d VeryStrict
  | None => Ok dflt
  end.

Definition clear (h : BlockHeader) : BlockHeader :=
  noteDirty
    {| m_parentHash := h256_zero; m_sha3Uncles := EmptyListSHA3; m_stateRoot := EmptyTrie; m_transactionsRoot := EmptyTrie;
       m_receiptsRoot := EmptyTrie; m_logBloom := FixedHash.zero 256; m_number := 0; m_gasLimit := 0; m_gasUsed := 0;
       m_extraData := []; m_timestamp := Invalid256; m_author := FixedHash.zero 20; m_difficulty := 0; m_seal := [];
       m_hash := m_hash h; m_hashWithout := m_hashWithout h |}.

Definition populateFromParent (_parent h : BlockHeader) : BlockHeader :=
  assign (GasUsed 0) (assign (Difficulty 1) (assign (GasLimit (m_gasLimit _parent))
    (assign (ParentHash (m_hash _parent)) (assign (Number (wrap 256 (m_number _parent + 1)))
    (assign (StateRoot (m_stateRoot _parent)) h))))).

(** ** Serialising *)

Abbreviation st op := (lift_stream Stream op).
Abbreviation hash_op x := (append_hash x false false).

Definition streamRLPFields (h : BlockHeader) : M stream hdr_exn unit :=
  exec! st (hash_op (m_parentHash h)) in
  exec! st (hash_op (m_sha3Uncles h)) in
  exec! st (hash_op (m_author h)) in
  exec! st (hash_op (m_stateRoot h)) in
  exec! st (hash_op (m_transactionsRoot h)) in
  exec! st (hash_op (m_receiptsRoot h)) in
  exec! st (hash_op (m_logBloom h)) in
  exec! st (append_bigint (m_difficulty h)) in
  exec! st (append_bigint (m_number h)) in
  exec! st (append_bigint (m_gasLimit h)) in
  exec! st (append_bigint (m_gasUsed h)) in
  exec! st (append_bigint (m_timestamp h)) in
  exec! st (append (m_extraData h) false) in
  mret tt.

Definition stream_seal (h : BlockHeader) : M stream hdr_exn unit :=
  st (append_each (fun s => appendRaw s 1) (m_seal h)).

Definition streamRLP (h : BlockHeader) (_i : IncludeSeal) : M stream hdr_exn unit :=
  match _i with
  | OnlySeal => stream_seal h
  | WithoutSeal => exec! st (appendList (BasicFields + 0)) in streamRLPFields h
  | WithSeal =>
      exec! st (appendList (BasicFields + zlen (m_seal h))) in
      exec! streamRLPFields h in
      stream_seal h
  end.

Definition streamed (op : M stream hdr_exn unit) : result hdr_exn bytes :=
  match op empty with
  | (Ok _, s) => match out s with Ok b => Ok b | Err e => Err (Stream e) end
  | (Err e, _) => Err e
  end.

(** [hash(_i)]: the memo is written unless it is the local [dummy]. *)
Definition memo (_i : IncludeSeal) (h : BlockHeader) : bytes :=
  match _i with WithSeal => m_hash h | WithoutSeal => m_hashWithout h | OnlySeal => h256_zero end.
Definition set_memo (_i : IncludeSeal) (x : bytes) (h : BlockHeader) : BlockHeader :=
  match _i with
  | WithSeal => set_hashes x (m_hashWithout h) h
  | WithoutSeal => set_hashes (m_hash h) x h
  | OnlySeal => h
  end.
Definition hash (_i : IncludeSeal) : M BlockHeader hdr_exn bytes := fun h =>
  if FixedHash.to_bool (memo _i h) then (Ok (memo _i h), h) else
  match streamed (streamRLP h _i) with
  | Ok b => (Ok (sha3 b), set_memo _i (sha3 b) h)
  | Err e => (Err e, h)
  end.

(** ** Parsing *)

(** What [populate] throws: the exception, and the number of the field that was
    being read, which the handler looks up. *)
Abbreviation thrown := (hdr_exn * Z)%type.
Definition in_field (k : Z) (e : exn) : thrown := (Rlp e, k).

Definition hash_field (N : nat) (d : bytes) (k : Z) : M cache thrown bytes :=
  do! x := item (in_field k) d k in conv (in_field k) (toHash N x VeryStrict).
Definition int_field (d : bytes) (k : Z) : M cache thrown Z :=
  do! x := item (in_field k) d k in conv (in_field k) (toInt 256 x Strict).

(** The loop over the seal; [field] is still 12. Each round takes an item of at
    least one byte, so that the length of the data is fuel enough. *)
Fixpoint seal_loop (fuel : nat) (d : bytes) (i : Z) (seal : list bytes) : M cache thrown (list bytes) :=
  do! n := conv (in_field 12) (itemCount d) in
  if i <? n then
    match fuel with
    | O => mthrow (in_field 12 NoFuel)
    | S f =>
        do! x := item (in_field 12) d i in
        seal_loop f d (wrap 32 (i + 1)) (seal ++ [x])
    end
  else mret seal.

Definition populate_body (_header : bytes) (hash : bytes) : M cache thrown BlockHeader :=
  do! parentHash := hash_field 32 _header 0 in
  do! sha3Uncles := hash_field 32 _header 1 in
  do! author := hash_field 20 _header 2 in
  do! stateRoot := hash_field 32 _header 3 in
  do! transactionsRoot := hash_field 32 _header 4 in
  do! receiptsRoot := hash_field 32 _header 5 in
  do! logBloom := hash_field 256 _header 6 in
  do! difficulty := int_field _header 7 in
  do! number := int_field _header 8 in
  do! gasLimit := int_field _header 9 in
  do! gasUsed := int_field _header 10 in
  do! timestamp := int_field _header 11 in
  do! x := item (in_field 12) _header 12 in
  do! extraData := conv (in_field 12) (toBytes x LaissezFaire) in
  do! s := seal_loop (List.length _header) _header 13 [] in
  mret {| m_parentHash := parentHash; m_sha3Uncles := sha3Uncles; m_stateRoot := stateRoot;
          m_transactionsRoot := transactionsRoot; m_receiptsRoot := receiptsRoot; m_logBloom := logBloom;
          m_number := number; m_gasLimit := gasLimit; m_gasUsed := gasUsed; m_extraData := extraData;
          m_timestamp := timestamp; m_author := author; m_difficulty := difficulty; m_seal := s;
          m_hash := hash; m_hashWithout := h256_zero |}.

(** [populate]: the handler reads the item again and may throw anew. *)
Definition populate (_header : bytes) (hash : bytes) : result hdr_exn BlockHeader :=
  match populate_body _header hash cache_init with
  | (Ok h, _) => Ok h
  | (Err (e, field), c) =>
      match fst (index _header field c) with Ok _ => Err e | Err e' => Err (Rlp e') end
  end.

Definition extractHeader (_block : bytes) : result hdr_exn bytes :=
  let! root := relabel Rlp (make _block VeryStrict) in
  if negb (isList root) then Err InvalidBlockFormat else
  fst ((do! header := item Rlp root 0 in
        if negb (isList header) then mthrow InvalidBlockFormat else
        do! i1 := item Rlp root 1 in
        if negb (isList i1) then mthrow InvalidBlockFormat else
        do! i2 := item Rlp root 2 in
        if negb (isList i2) then mthrow InvalidBlockFormat else
        mret header) cache_init).

Definition headerHashFromBlock (_block : bytes) : result hdr_exn bytes :=
  let! root := relabel Rlp (make _block VeryStrict) in
  let! h := relabel Rlp (nth root 0) in
  Ok (sha3 h).

(** [BlockHeader(_block, _bdt, _hashWith)]. *)
Definition make_header (_block : bytes) (_bdt : BlockDataType) (_hashWith : bytes) : result hdr_exn BlockHeader :=
  let! header := match _bdt with
                 | BlockData => extractHeader _block
                 | HeaderData => relabel Rlp (make _block VeryStrict)
                 end in
  populate header (if FixedHash.to_bool _hashWith then _hashWith else sha3 header).

(** ** Verifying *)

(** [txList[i].data().toBytes()] for [i] from 0 to [n - 1]. *)
Fixpoint read_items (n : nat) (d : bytes) (i : Z) : M cache hdr_exn (list bytes) :=
  match n with
  | O => mret []
  | S n' =>
      do! x := item Rlp d i in
      do! l := read_items n' d (i + 1) in
      mret (x :: l)
  end.

Definition rlp_key (i : Z) : bytes := match rlp_unsigned i with Ok b => b | Err _ => [] end.

(** The root of the trie over the transactions of a list. *)
Definition expected_root (txList : bytes) : result hdr_exn bytes :=
  let! n := relabel Rlp (itemCount txList) in
  let! txs := fst (read_items (Z.to_nat n) txList 0 cache_init) in
  match trieRootOver n rlp_key (fun i => default [] (txs !! Z.to_nat i)) with
  | Ok x => Ok x
  | Err e => Err (Trie e)
  end.

(** [verify(_s, _parent, _block)]; when the transactions root differs, the code
    also prints the trie built another way. *)
Definition verify (_s : Strictness) (_parent : BlockHeader) (_block : bytes) (h : BlockHeader) : result hdr_exn unit :=
  if m_number h >? 2 ^ 32 - 1 then Err InvalidNumber else
  if negb (bool_decide (_s = CheckNothingNew)) && (m_gasUsed h >? m_gasLimit h) then Err TooMuchGasUsed else
  let! _ :=
    (if to_bool _parent then
       let! _ :=
         (if FixedHash.to_bool (m_parentHash h) then
            let! ph := fst (hash WithSeal _parent) in
            if bool_decide (ph = m_parentHash h) then Ok tt else Err InvalidParentHash
          else Ok tt) in
       if m_timestamp h <=? m_timestamp _parent then Err InvalidTimestamp else
       if negb (m_number h =? wrap 256 (m_number _parent + 1)) then Err InvalidNumber else Ok tt
     else Ok tt) in
  match _block with
  | [] => Ok tt
  | _ =>
      let! root := relabel Rlp (make _block VeryStrict) in
      let '(r1, c) := index root 1 cache_init in
      let! txList := relabel Rlp r1 in
      let! expectedRoot := expected_root txList in
      if negb (bool_decide (m_transactionsRoot h = expectedRoot)) then Err InvalidTransactionsRoot else
      let! uncles := relabel Rlp (fst (index root 2 c)) in
      if bool_decide (m_sha3Uncles h = sha3 uncles) then Ok tt else Err InvalidUnclesHash
  end.

End BlockHeader.
