(* ===== verification/HeaderProps.v ===== *)
(** * HeaderProps: what block headers promise

    Round trip and uniqueness of the encoding, coherence of the memoised hashes
    under any sequence of setters, and what [verify] accepts. *)

From stdpp Require Import base list numbers option.
From Stdlib Require Import ZArith Lia.
From S2P Require Import Prelude Bytes Rlp RlpStream RlpFields Keccak TrieCommon TrieDB TrieSpec TrieRefine TrieHash TrieCommit BlockHeader.
Import CommonData RLP RLPStream Keccak TrieCommon TrieSpec TrieRefine TrieHash TrieCommit RlpFields BlockHeader.

Module HeaderProps.

#[local] Opaque sha3.

(** ** The encoding *)

Definition hash_ok (N : nat) (x : bytes) : Prop := List.length x = N /\ bytes_ok x.

(** What the members of a header are. *)
Record hdr_ok (h : BlockHeader) : Prop := {
  ok_parentHash : hash_ok 32 (m_parentHash h);
  ok_sha3Uncles : hash_ok 32 (m_sha3Uncles h);
  ok_author : hash_ok 20 (m_author h);
  ok_stateRoot : hash_ok 32 (m_stateRoot h);
  ok_transactionsRoot : hash_ok 32 (m_transactionsRoot h);
  ok_receiptsRoot : hash_ok 32 (m_receiptsRoot h);
  ok_logBloom : hash_ok 256 (m_logBloom h);
  ok_difficulty : uint_ok 256 (m_difficulty h);
  ok_number : uint_ok 256 (m_number h);
  ok_gasLimit : uint_ok 256 (m_gasLimit h);
  ok_gasUsed : uint_ok 256 (m_gasUsed h);
  ok_timestamp : uint_ok 256 (m_timestamp h);
  ok_extraData : bytes_ok (m_extraData h) /\ zlen (m_extraData h) < 2 ^ 31;
  ok_seal : Forall one_item (m_seal h) /\ zlen (concat (m_seal h)) < 2 ^ 31
}.

Definition basic_items (h : BlockHeader) : list Item :=
  [Str (m_parentHash h); Str (m_sha3Uncles h); Str (m_author h); Str (m_stateRoot h); Str (m_transactionsRoot h);
   Str (m_receiptsRoot h); Str (m_logBloom h); int_item (m_difficulty h); int_item (m_number h);
   int_item (m_gasLimit h); int_item (m_gasUsed h); int_item (m_timestamp h); Str (m_extraData h)].
Definition hdr_segs (h : BlockHeader) : list bytes := map encode (basic_items h) ++ m_seal h.

Lemma hash_item_length N x : hash_ok N x -> Z.of_nat N < 2 ^ 32 -> zlen (encode (Str x)) <= Z.of_nat N + 9.
Proof. intros [Hl _] HN. destruct (encode_str_length x); cbn [encode]; lia. Qed.

Section Encoding.
Context (h : BlockHeader) (Hok : hdr_ok h).

Lemma basic_sizes : zlen (concat (map encode (basic_items h))) < 2 ^ 31 + 1000.
Proof.
  pose proof (hash_item_length 32 _ (ok_parentHash h Hok) ltac:(lia)). pose proof (hash_item_length 32 _ (ok_sha3Uncles h Hok) ltac:(lia)).
  pose proof (hash_item_length 20 _ (ok_author h Hok) ltac:(lia)). pose proof (hash_item_length 32 _ (ok_stateRoot h Hok) ltac:(lia)).
  pose proof (hash_item_length 32 _ (ok_transactionsRoot h Hok) ltac:(lia)). pose proof (hash_item_length 32 _ (ok_receiptsRoot h Hok) ltac:(lia)).
  pose proof (hash_item_length 256 _ (ok_logBloom h Hok) ltac:(lia)).
  pose proof (int_item_length 256 _ (ok_difficulty h Hok) ltac:(lia)). pose proof (int_item_length 256 _ (ok_number h Hok) ltac:(lia)).
  pose proof (int_item_length 256 _ (ok_gasLimit h Hok) ltac:(lia)). pose proof (int_item_length 256 _ (ok_gasUsed h Hok) ltac:(lia)).
  pose proof (int_item_length 256 _ (ok_timestamp h Hok) ltac:(lia)).
  destruct (ok_extraData h Hok) as [_ He]. destruct (encode_str_length (m_extraData h)); [|lia].
  unfold basic_items. cbn [map concat]. rewrite !zlen_app. change (zlen (@nil Z)) with 0. cbn [encode] in *. lia.
Qed.

Lemma segs_sizes : zlen (concat (hdr_segs h)) < 2 ^ 32 + 1000.
Proof. unfold hdr_segs. rewrite concat_app, zlen_app. pose proof basic_sizes. pose proof (ok_seal h Hok). lia. Qed.

Lemma enclist_length : zlen (enclist (hdr_segs h)) < 2 ^ 33.
Proof.
  pose proof segs_sizes. pose proof (enclist_size (hdr_segs h) ltac:(lia)). lia.
Qed.

Lemma basic_encodable : Forall encodable (basic_items h).
Proof.
  pose proof basic_sizes as Hs.
  assert (HF : Forall item_ok (basic_items h)).
  { unfold basic_items. repeat (constructor; [first [by apply Hok | by apply toCompactBigEndian_ok]|]). constructor. }
  apply List.Forall_forall. intros t Ht. rewrite List.Forall_forall in HF. split; [by apply HF|].
  apply in_split in Ht as (l1 & l2 & E). rewrite E, map_app, concat_app in Hs. cbn [map concat] in Hs. rewrite !zlen_app in Hs.
  unfold maxLength. lia.
Qed.

Lemma segs_items : Forall one_item (hdr_segs h).
Proof.
  unfold hdr_segs. apply Forall_app. split; [|by apply Hok].
  apply List.Forall_map. eapply List.Forall_impl; [|exact basic_encodable]. apply one_item_encode.
Qed.

Definition basic_ops : list (Str_M unit) :=
  [hash_op (m_parentHash h); hash_op (m_sha3Uncles h); hash_op (m_author h); hash_op (m_stateRoot h);
   hash_op (m_transactionsRoot h); hash_op (m_receiptsRoot h); hash_op (m_logBloom h); append_bigint (m_difficulty h);
   append_bigint (m_number h); append_bigint (m_gasLimit h); append_bigint (m_gasUsed h); append_bigint (m_timestamp h);
   append (m_extraData h) false].

Lemma basic_emits : Forall2 emits basic_ops (map encode (basic_items h)).
Proof.
  destruct Hok as [[] [] [] [] [] [] [] ? ? ? ? ? [] _].
  repeat (constructor; [first [apply emits_hash; lia | eapply (emits_int 256); [done|lia] | apply emits_str; lia]|]). constructor.
Qed.

Lemma fields_streamed n :
  (13 <= n)%nat -> streamRLPFields h (filled n []) = (Ok tt, filled n (map encode (basic_items h))).
Proof.
  intros Hn. exact (run_ops_filled Stream n basic_ops (map encode (basic_items h)) [] (mret tt) basic_emits Hn
    ltac:(pose proof basic_sizes; cbn [app]; lia)).
Qed.

Lemma filled_streamed n l : List.length l = n ->
  match out (filled n l) with Ok b => @Ok hdr_exn _ b | Err e => Err (Stream e) end = Ok (enclist l).
Proof. intros <-. by rewrite filled_out. Qed.

(** The header with its seal. *)
Lemma stream_with : streamed (streamRLP h WithSeal) = Ok (enclist (hdr_segs h)).
Proof.
  unfold streamed, streamRLP. change BasicFields with (Z.of_nat 13). rewrite <- Nat2Z.inj_add.
  rewrite (lift_open Stream (13 + List.length (m_seal h)) _ ltac:(lia)).
  erewrite mbind_Ok by (apply fields_streamed; lia). unfold stream_seal, lift_stream.
  rewrite append_each_filled.
  - apply filled_streamed. unfold hdr_segs. rewrite length_app, length_map. done.
  - rewrite length_map. done.
  - pose proof segs_sizes. unfold hdr_segs in *. lia.
Qed.

(** The header that is sealed. *)
Lemma stream_without : streamed (streamRLP h WithoutSeal) = Ok (encode (Lst (basic_items h))).
Proof.
  unfold streamed, streamRLP. change (BasicFields + 0) with (Z.of_nat 13).
  rewrite (lift_open Stream 13 _ ltac:(lia)). rewrite fields_streamed by lia. by apply (filled_streamed 13).
Qed.

End Encoding.

(** ** Parsing *)

Lemma reads_hash_field N d segs k x :
  has_items d segs -> 0 <= k < 2 ^ 64 - 1 -> seg_at segs (Z.to_nat k) = encode (Str x) -> hash_ok N x -> encodable (Str x) ->
  reads segs (hash_field N d k) (fun r => r = Ok x).
Proof.
  intros Hd Hk Hs [Hl _] He. apply reads_item; [done|done|]. rewrite Hs. apply reads_lift.
  rewrite toHash_encode by done. by rewrite bool_decide_true.
Qed.

Lemma reads_int_field d segs k x :
  has_items d segs -> 0 <= k < 2 ^ 64 - 1 -> seg_at segs (Z.to_nat k) = encode (int_item x) -> uint_ok 256 x ->
  reads segs (int_field d k) (fun r => r = Ok x).
Proof.
  intros Hd Hk Hs Hx. apply reads_item; [done|done|]. rewrite Hs. apply reads_lift.
  by rewrite toInt_item.
Qed.

(** The loop collects the items from [i] on. *)
Lemma reads_seal_loop d segs fuel i acc :
  has_items d segs -> isList d = true -> zlen segs < 2 ^ 32 -> 0 <= i -> zlen segs - i <= Z.of_nat fuel ->
  reads segs (seal_loop fuel d i acc) (fun r => r = Ok (acc ++ drop (Z.to_nat i) segs)).
Proof.
  intros Hd Hl Hn. revert i acc. induction fuel as [|fuel IH]; intros i acc Hi Hf; cbn [seal_loop];
    (apply reads_conv; rewrite (itemCount_has d segs Hd Hl); [|done]); intros ? [= <-].
  - destruct (Z.ltb_spec i (zlen segs)); [lia|]. apply reads_lift. rewrite drop_ge by lia. by rewrite app_nil_r.
  - destruct (Z.ltb_spec i (zlen segs)); [|apply reads_lift; rewrite drop_ge by lia; by rewrite app_nil_r].
    apply reads_item; [done|lia|]. rewrite wrap_small by (unfold uint_ok; lia).
    eapply reads_mono; [apply IH; lia|]. intros ? ->. f_equal.
    destruct (segs !! Z.to_nat i) as [s|] eqn:E; [|apply lookup_ge_None in E; lia].
    unfold seg_at. rewrite E. rewrite <- app_assoc. cbn [app]. rewrite (drop_S _ _ _ E). do 2 f_equal. f_equal. lia.
Qed.

Lemma segs_count h : hdr_ok h -> zlen (hdr_segs h) < 2 ^ 32.
Proof.
  intros Hok. destruct (ok_seal h Hok) as [HF Hl]. unfold hdr_segs. rewrite zlen_app, length_map.
  assert (Hs : Forall segment (m_seal h)) by (eapply List.Forall_impl; [|exact HF]; apply one_item_segment).
  pose proof (segments_length _ Hs). cbn [basic_items List.length]. lia.
Qed.

(** The members that the encoding holds, with the given hash. *)
Definition with_hash (x : bytes) (h : BlockHeader) : BlockHeader := set_hashes x h256_zero h.

Lemma populate_encoded h x :
  hdr_ok h ->
  reads (hdr_segs h) (populate_body (enclist (hdr_segs h)) x) (fun r => r = Ok (with_hash x h)).
Proof.
  intros Hok. set (d := enclist (hdr_segs h)).
  destruct (enclist_ok (hdr_segs h) (segs_items h Hok)) as (Hd & _ & Hl).
  { pose proof (enclist_length h Hok). unfold maxLength. lia. }
  fold d in Hd, Hl. pose proof (basic_encodable h Hok) as He. rewrite List.Forall_forall in He.
  pose proof (segs_count h Hok) as Hc. unfold populate_body.
  do 7 (apply reads_bind; eapply reads_mono;
    [eapply reads_hash_field; [done|lia|reflexivity|by apply Hok|by apply He; cbn; auto 20]|intros ? ->]).
  do 5 (apply reads_bind; eapply reads_mono;
    [eapply reads_int_field; [done|lia|reflexivity|by apply Hok]|intros ? ->]).
  eapply reads_field; [done|lia|reflexivity|apply toBytes_encode; by apply He; cbn; auto 20|].
  apply reads_bind. eapply reads_mono; [apply (reads_seal_loop d (hdr_segs h)); [done|done|done|lia|]|].
  - pose proof (segments_length _ (has_segments d _ Hd)). pose proof (hi_len d _ Hd). lia.
  - intros ? ->. by apply reads_lift.
Qed.

(** What the fields of accepted data are. *)
Lemma reads_hash_field_inv N d segs k :
  has_items d segs -> 0 <= k < 2 ^ 64 - 1 ->
  reads segs (hash_field N d k) (fun r =>
    match r with Ok x => seg_at segs (Z.to_nat k) = encode (Str x) /\ hash_ok N x | Err _ => True end).
Proof.
  intros Hd Hk. apply reads_item; [done|done|]. apply reads_lift.
  destruct (toHash N _ VeryStrict) as [x|] eqn:E; [|done]. cbn.
  apply toHash_inv in E as (E & Hl & Hb); [done|by eapply has_field].
Qed.

Lemma reads_int_field_inv d segs k :
  has_items d segs -> 0 <= k < 2 ^ 64 - 1 ->
  reads segs (int_field d k) (fun r =>
    match r with Ok x => seg_at segs (Z.to_nat k) = encode (int_item x) /\ uint_ok 256 x | Err _ => True end).
Proof.
  intros Hd Hk. apply reads_item; [done|done|]. apply reads_lift.
  destruct (toInt 256 _ Strict) as [x|] eqn:E; [|done]. cbn.
  apply toInt_inv in E as [E Hx]; [done|lia|done|by eapply has_field].
Qed.

Lemma thirteen_items segs : 13 <= zlen segs -> segs = map (seg_at segs) (seq 0 13) ++ drop 13 segs.
Proof.
  intros Hl. do 13 (destruct segs as [|? segs]; [cbn in Hl; lia|]). done.
Qed.

Lemma concat_drop_length n (l : list bytes) : zlen (concat (drop n l)) <= zlen (concat l).
Proof. rewrite <- (take_drop n l) at 2. rewrite concat_app, zlen_app. lia. Qed.

Lemma populate_items d segs x :
  has_items d segs -> isList d = true -> zlen d < 2 ^ 31 -> 13 <= zlen segs -> isData (seg_at segs 12) = true ->
  reads segs (populate_body d x) (fun r =>
    match r with Ok h => hdr_ok h /\ segs = hdr_segs h | Err _ => True end).
Proof.
  intros Hd Hl Hlen H13 Hdat. unfold populate_body.
  pose proof (segments_length _ (has_segments d segs Hd)) as Hc. pose proof (hi_len d segs Hd) as Hcl.
  do 7 (apply reads_bind; eapply reads_mono; [apply reads_hash_field_inv; [done|lia]|intros [?|?] Hx; [destruct Hx as [? ?]|done]]).
  do 5 (apply reads_bind; eapply reads_mono; [apply reads_int_field_inv; [done|lia]|intros [?|?] Hx; [destruct Hx as [? ?]|done]]).
  apply reads_item; [done|lia|]. apply reads_conv; [|done]. intros extra He.
  apply toBytes_inv in He as [He Hb]; [|by eapply has_field|done].
  apply reads_bind. eapply reads_mono; [apply (reads_seal_loop d segs); [done|done|lia|lia|lia]|]. intros ? ->. apply reads_lift.
  assert (zlen extra < 2 ^ 31).
  { pose proof (seg_at_length segs 12). change (Z.to_nat 12) with 12%nat in He. pose proof (encode_str_ge extra).
    cbn [encode] in He. rewrite He in *. lia. }
  split.
  - split; cbn [m_parentHash m_sha3Uncles m_author m_stateRoot m_transactionsRoot m_receiptsRoot m_logBloom m_difficulty
      m_number m_gasLimit m_gasUsed m_timestamp m_extraData m_seal app]; try done.
    split; [apply Forall_drop, (hi_one d segs Hd)|]. pose proof (concat_drop_length 13 segs).
    change (Z.to_nat 13) with 13%nat. lia.
  - etransitivity; [by apply thirteen_items|]. unfold hdr_segs. cbn. by repeat f_equal.
Qed.

(** The header of an encoded block. *)
Lemma extract_block d txs uncles :
  one_item d -> isList d = true -> encodable (Lst [Lst txs; Lst uncles]) -> zlen d < 2 ^ 33 ->
  zlen (encode (Lst [Lst txs; Lst uncles])) < 2 ^ 63 ->
  extractHeader (enclist [d; encode (Lst txs); encode (Lst uncles)]) = Ok d.
Proof.
  intros Hone Hl Hb Hd Hlen. set (segs := [d; encode (Lst txs); encode (Lst uncles)]).
  destruct (encodable_Lst _ Hb) as [HF Hs]. inversion HF as [|? ? Ht HF']; subst. inversion HF' as [|? ? Hu _]; subst.
  assert (Hsz : zlen (concat segs) < 2 ^ 63 + 2 ^ 33).
  { unfold segs. cbn [concat]. rewrite !zlen_app. change (zlen (@nil Z)) with 0.
    change (encode (Lst [Lst txs; Lst uncles])) with (enclist [encode (Lst txs); encode (Lst uncles)]) in Hlen.
    unfold enclist in Hlen. cbn [concat] in Hlen. rewrite !zlen_app in Hlen. change (zlen (@nil Z)) with 0 in Hlen. lia. }
  destruct (enclist_ok segs) as (Hi & Hm & Hll).
  { apply Forall_cons_2; [done|]. apply Forall_cons_2; [by apply one_item_encode|].
    apply Forall_cons_2; [by apply one_item_encode|]. constructor. }
  { pose proof (enclist_size segs ltac:(lia)). unfold maxLength. lia. }
  unfold extractHeader. rewrite Hm. cbn [relabel result_bind]. rewrite Hll. cbn [negb].
  match goal with |- fst (?m _) = _ => apply (reads_fresh segs m (fun r => r = Ok d)) end.
  apply reads_item; [done|lia|]. change (seg_at segs (Z.to_nat 0)) with d. rewrite Hl. cbn [negb].
  apply reads_item; [done|lia|]. change (seg_at segs (Z.to_nat 1)) with (encode (Lst txs)). rewrite encode_isList by done. cbn [is_lst negb].
  apply reads_item; [done|lia|]. change (seg_at segs (Z.to_nat 2)) with (encode (Lst uncles)). rewrite encode_isList by done. cbn [is_lst negb].
  by apply reads_lift.
Qed.

(** ** Properties *)

(** C16: constructing a header from the bytes it is written as gives the header
    back, its seal included, with the hash of those bytes; so do the bytes of the
    block around it, whatever the transactions and uncles are. *)
Theorem header_roundtrip (h : BlockHeader) (txs uncles : list Item) :
  hdr_ok h -> encodable (Lst [Lst txs; Lst uncles]) -> zlen (encode (Lst [Lst txs; Lst uncles])) < 2 ^ 63 ->
  exists d, streamed (streamRLP h WithSeal) = Ok d /\
    make_header d HeaderData h256_zero = Ok (with_hash (sha3 d) h) /\
    make_header (enclist [d; encode (Lst txs); encode (Lst uncles)]) BlockData h256_zero = Ok (with_hash (sha3 d) h).
Proof.
  intros Hok Hb Hbl. set (d := enclist (hdr_segs h)). exists d. split; [by apply stream_with|].
  pose proof (enclist_length h Hok) as Hlen.
  destruct (enclist_ok (hdr_segs h) (segs_items h Hok)) as (Hd & Hm & Hl); [unfold maxLength; lia|]. fold d in Hd, Hm, Hl.
  assert (Hpop : populate d (sha3 d) = Ok (with_hash (sha3 d) h)).
  { pose proof (reads_fresh _ _ _ (populate_encoded h (sha3 d) Hok)) as H. fold d in H. unfold populate.
    destruct (populate_body d (sha3 d) cache_init) as [r c]. cbn [fst] in H. by subst r. }
  change (FixedHash.to_bool h256_zero) with false. cbn [make_header]. split.
  { unfold make_header. rewrite Hm. cbn [relabel result_bind]. exact Hpop. }
  unfold make_header. rewrite (extract_block d txs uncles); [exact Hpop| |done|done|exact Hlen|done].
  apply one_list. pose proof (segs_sizes h Hok). unfold maxLength. lia.
Qed.

(** The bytes a header is accepted from are the bytes it is written as, so that
    its hash is the hash of those bytes - provided they are a list with all thirteen
    basic fields whose last is a string. [populate] does not check that: it also
    accepts a string in the place of the list, a list without the last field, and a
    list in the place of the extra data. *)
Theorem header_canonical (d hw : bytes) (h : BlockHeader) (n : Z) (x : bytes) :
  bytes_ok d -> zlen d < 2 ^ 31 -> make_header d HeaderData hw = Ok h ->
  isList d = true -> itemCount d = Ok n -> 13 <= n -> nth d 12 = Ok x -> isData x = true ->
  hdr_ok h /\ streamed (streamRLP h WithSeal) = Ok d.
Proof.
  intros Hd Hlen Hmk Hl Hn Hn13 Hx Hdat. unfold make_header in Hmk. apply result_bind_Ok in Hmk as (d' & Hm & Hp).
  destruct (make d VeryStrict) as [m|] eqn:Em; [|done]. injection Hm as ->.
  destruct (make_strict_inv d d' Hd Em) as [-> _].
  destruct (has_items_inv d n Hd ltac:(unfold maxLength; lia) Em Hl Hn) as (segs & Hi & -> & Hdec).
  assert (x = seg_at segs 12) as ->.
  { unfold nth in Hx. destruct (index_segments d segs (has_segments d segs Hi) (hi_payload d segs Hi) (has_npos d segs Hi)
      (hi_len d segs Hi) 12 cache_init ltac:(lia) (cache_init_ok segs)) as (c & E & _). rewrite E in Hx. by injection Hx as <-. }
  unfold populate in Hp.
  destruct (populate_items d segs (if FixedHash.to_bool hw then hw else sha3 d) Hi Hl ltac:(lia) Hn13 Hdat cache_init (cache_init_ok segs)) as (res & c & E & _ & HQ).
  rewrite E in Hp. destruct res as [h'|[e k]]; [|by destruct (fst _)]. injection Hp as ->. destruct HQ as [Hok Hseg].
  split; [done|]. rewrite stream_with by done. by rewrite <- Hseg, Hdec.
Qed.

(** *** Memoised hashes *)

(** The operations of the public interface that change a header, and [hash], which
    writes the memo. [populateFromParent] is not among them: it leaves the memo as
    it is. *)
Inductive hdr_op :=
| OpParentHash (_v : bytes) | OpSha3Uncles (_v : bytes) | OpTimestamp (_v : Z) | OpAuthor (_v : bytes)
| OpRoots (_t _r _u _s : bytes) | OpGasUsed (_v : Z) | OpNumber (_v : Z) | OpGasLimit (_v : Z)
| OpExtraData (_v : bytes) | OpLogBloom (_v : bytes) | OpDifficulty (_v : Z) | OpSeal (_offset : nat) (rlp : bytes)
| OpClear | OpHash (_i : IncludeSeal).
Definition apply_op (h : BlockHeader) (o : hdr_op) : BlockHeader :=
  match o with
  | OpParentHash x => setParentHash x h | OpSha3Uncles x => setSha3Uncles x h | OpTimestamp x => setTimestamp x h
  | OpAuthor x => setAuthor x h | OpRoots t r u s => setRoots t r u s h | OpGasUsed x => setGasUsed x h
  | OpNumber x => setNumber x h | OpGasLimit x => setGasLimit x h | OpExtraData x => setExtraData x h
  | OpLogBloom x => setLogBloom x h | OpDifficulty x => setDifficulty x h | OpSeal o x => setSeal o x h
  | OpClear => clear h
  | OpHash i => snd (hash i h)
  end.

(** A memo that is set is the hash of the current members. *)
Definition memo_ok (h : BlockHeader) : Prop :=
  forall i, FixedHash.to_bool (memo i h) = true -> exists b, streamed (streamRLP h i) = Ok b /\ memo i h = sha3 b.

Lemma memo_ok_dirty h : memo_ok (noteDirty h).
Proof. intros i Hi. by destruct i. Qed.

Lemma stream_set_memo i j x h : streamRLP (set_memo i x h) j = streamRLP h j.
Proof. by destruct i. Qed.

Lemma memo_ok_hash i h : memo_ok h -> memo_ok (snd (hash i h)).
Proof.
  intros Hm. unfold hash. destruct (FixedHash.to_bool (memo i h)) eqn:E; [done|].
  destruct (streamed (streamRLP h i)) as [b|] eqn:Es; [|done]. cbn [snd]. intros j Hj.
  rewrite stream_set_memo. destruct i, j; first [by exists b | by apply (Hm WithSeal) | by apply (Hm WithoutSeal) | done].
Qed.

Lemma memo_ok_op h o : memo_ok h -> memo_ok (apply_op h o).
Proof. intros Hm. destruct o; try apply memo_ok_dirty. by apply memo_ok_hash. Qed.

(** C17: whatever sequence of setters and hash computations a header has been
    through, [hash] returns the hash of its current members, with and without the
    seal: no setter leaves a stale hash behind. *)
Theorem hash_coherent (ops : list hdr_op) (h : BlockHeader) (i : IncludeSeal) :
  memo_ok h ->
  let h' := fold_left apply_op ops h in
  fst (hash i h') = match streamed (streamRLP h' i) with Ok b => Ok (sha3 b) | Err e => Err e end.
Proof.
  intros Hm h'. assert (Hm' : memo_ok h').
  { unfold h'. clear h'. revert h Hm. induction ops as [|o ops IH]; intros h Hm; [done|]. by apply IH, memo_ok_op. }
  unfold hash. destruct (FixedHash.to_bool (memo i h')) eqn:E.
  - destruct (Hm' i E) as (b & -> & ->). done.
  - by destruct (streamed (streamRLP h' i)).
Qed.

(** ** Verification *)

Lemma read_items_segs d segs n i :
  has_items d segs -> 0 <= i -> i + Z.of_nat n = zlen segs ->
  reads segs (read_items n d i) (fun r => r = Ok (drop (Z.to_nat i) segs)).
Proof.
  intros Hd. revert i. induction n as [|n IH]; intros i Hi Hn; cbn [read_items].
  - apply reads_lift. by rewrite drop_ge by lia.
  - pose proof (segments_length _ (has_segments d segs Hd)) as Hc. pose proof (hi_len d segs Hd). pose proof (hi_max d segs Hd).
    apply reads_item; [done|unfold maxLength in *; lia|]. apply reads_bind.
    eapply reads_mono; [apply IH; lia|]. intros ? ->. apply reads_lift. f_equal.
    destruct (segs !! Z.to_nat i) as [s|] eqn:E; [|apply lookup_ge_None in E; lia].
    unfold seg_at. rewrite E, (drop_S _ _ _ E). do 2 f_equal. lia.
Qed.

(** The map from positions to items that the transactions root is over. *)
Definition body_map (l : list bytes) : BytesMap :=
  fold_left (fun m i => bm_insert (rlp_key i) (default [] (l !! Z.to_nat i)) m) (map Z.of_nat (seq 0 (List.length l))) [].

Lemma expected_root_spec txs :
  encodable (Lst txs) ->
  expected_root (encode (Lst txs)) =
  match hash256 (body_map (map encode txs)) with Ok x => Ok x | Err e => Err (Trie e) end.
Proof.
  intros Ht. pose proof (has_items_encode txs Ht) as Hd. unfold expected_root.
  rewrite itemCount_encode by done. cbn [relabel result_bind].
  rewrite (reads_fresh (map encode txs) _ _ (read_items_segs _ _ (Z.to_nat (zlen txs)) 0 Hd ltac:(lia)
    ltac:(rewrite length_map; lia))). cbn [result_bind].
  change (drop (Z.to_nat 0) (map encode txs)) with (map encode txs).
  unfold trieRootOver, body_map. rewrite Nat2Z.id, length_map. done.
Qed.

(** The checks against the parent. *)
Lemma parent_spec _parent h :
  (if to_bool _parent then
     let! _ :=
       (if FixedHash.to_bool (m_parentHash h) then
          let! ph := fst (hash WithSeal _parent) in
          if bool_decide (ph = m_parentHash h) then Ok tt else Err InvalidParentHash
        else Ok tt) in
     if m_timestamp h <=? m_timestamp _parent then Err InvalidTimestamp else
     if negb (m_number h =? wrap 256 (m_number _parent + 1)) then Err InvalidNumber else Ok tt
   else Ok tt) = Ok tt <->
  (m_timestamp _parent <> Invalid256 ->
    (FixedHash.to_bool (m_parentHash h) = true -> fst (hash WithSeal _parent) = Ok (m_parentHash h)) /\
    m_timestamp _parent < m_timestamp h /\ m_number h = wrap 256 (m_number _parent + 1)).
Proof.
  unfold to_bool. destruct (Z.eqb_spec (m_timestamp _parent) Invalid256) as [Ei|Ei]; cbn [negb]; [by split|].
  match goal with |- result_bind ?m _ = _ <-> _ =>
    assert (Hm : m = Ok tt <-> (FixedHash.to_bool (m_parentHash h) = true -> fst (hash WithSeal _parent) = Ok (m_parentHash h))) end.
  { destruct (FixedHash.to_bool (m_parentHash h)); [|by split]. destruct (fst (hash WithSeal _parent)) as [ph|e]; cbn [result_bind].
    - case_bool_decide as E; [subst; by split|]. split; [done|]. intros H. specialize (H eq_refl). congruence.
    - split; [done|]. intros H. specialize (H eq_refl). congruence. }
  match goal with |- result_bind ?m _ = _ <-> _ => destruct m as [[]|e] end; cbn [result_bind];
    [|split; [done|]; intros H; by apply Hm, (H Ei)].
  destruct (Z.leb_spec (m_timestamp h) (m_timestamp _parent)); [split; [done|]; intros H'; apply H' in Ei; lia|].
  destruct (Z.eqb_spec (m_number h) (wrap 256 (m_number _parent + 1))); cbn [negb].
  - split; [|done]. intros _ _. split; [by apply Hm|]. done.
  - split; [done|]. intros H'. by apply H' in Ei as (_ & _ & ?).
Qed.

Lemma verify_iff (_s : Strictness) (_parent h : BlockHeader) (hd : Item) (txs uncles : list Item) :
  encodable (Lst [hd; Lst txs; Lst uncles]) ->
  verify _s _parent (encode (Lst [hd; Lst txs; Lst uncles])) h = Ok tt <->
  m_number h < 2 ^ 32 /\ (_s = CheckNothingNew \/ m_gasUsed h <= m_gasLimit h) /\
  (m_timestamp _parent <> Invalid256 ->
    (FixedHash.to_bool (m_parentHash h) = true -> fst (hash WithSeal _parent) = Ok (m_parentHash h)) /\
    m_timestamp _parent < m_timestamp h /\ m_number h = wrap 256 (m_number _parent + 1)) /\
  hash256 (body_map (map encode txs)) = Ok (m_transactionsRoot h) /\
  m_sha3Uncles h = sha3 (encode (Lst uncles)).
Proof.
  intros He. pose proof (has_items_encode _ He) as Hd. destruct (encodable_Lst _ He) as [HF _].
  inversion HF as [|? ? _ HF1]; subst. inversion HF1 as [|? ? Ht _]; subst.
  set (block := encode (Lst [hd; Lst txs; Lst uncles])).
  assert (Hb : forall c, match block with [] => @Ok hdr_exn _ tt | _ => c end = c).
  { intros c. pose proof (encode_nonempty _ He) as Hp. change (0 < zlen block) in Hp. destruct block; [cbn in Hp; lia|done]. }
  unfold verify. rewrite Hb. rewrite (encode_make _ He : make block VeryStrict = Ok block). cbn [relabel result_bind].
  destruct (index_segments block _ (has_segments _ _ Hd) (hi_payload _ _ Hd) (has_npos _ _ Hd) (hi_len _ _ Hd)
    1 cache_init ltac:(lia) (cache_init_ok _)) as (c1 & -> & Hc1).
  destruct (index_segments block _ (has_segments _ _ Hd) (hi_payload _ _ Hd) (has_npos _ _ Hd) (hi_len _ _ Hd)
    2 c1 ltac:(lia) Hc1) as (c2 & E2 & _). rewrite E2.
  change (seg_at _ (Z.to_nat 1)) with (encode (Lst txs)). change (seg_at _ (Z.to_nat 2)) with (encode (Lst uncles)).
  cbn [fst relabel result_bind]. rewrite expected_root_spec by done.
  destruct (Z.gtb_spec (m_number h) (2 ^ 32 - 1)) as [Hnum|Hnum]; [split; [done|intros (? & _); lia]|].
  assert (Hgas : negb (bool_decide (_s = CheckNothingNew)) && (m_gasUsed h >? m_gasLimit h) = false
    <-> (_s = CheckNothingNew \/ m_gasUsed h <= m_gasLimit h)).
  { rewrite andb_false_iff, negb_false_iff, bool_decide_eq_true. destruct (Z.gtb_spec (m_gasUsed h) (m_gasLimit h)); [intuition (done || lia)|intuition]. }
  destruct (negb _ && _); [split; [done|]; intros (_ & H & _); by apply Hgas in H|].
  match goal with |- result_bind ?m _ = _ <-> _ => pose proof (parent_spec _parent h : m = Ok tt <-> _) as Hpar; destruct m as [[]|e] end;
    cbn [result_bind]; [|split; [done|]; intros (_ & _ & H & _); by apply Hpar in H].
  destruct (hash256 _) as [root|e]; cbn [result_bind]; [|split; [done|by intros (_ & _ & _ & ? & _)]].
  destruct (bool_decide (m_transactionsRoot h = root)) eqn:Er; cbn [negb].
  - apply bool_decide_eq_true in Er. subst root. case_bool_decide as Hu.
    + split; [|done]. intros _. split; [lia|]. split; [by apply Hgas|]. split; [by apply Hpar|]. done.
    + split; [done|]. by intros (_ & _ & _ & _ & ?).
  - apply bool_decide_eq_false in Er. split; [done|]. intros (_ & _ & _ & [= ->] & _). done.
Qed.

(** A header that is right for its parent and its body: the number fits 32 bits, the gas
    used is within the limit, the parent is the one named, older and one below, and the
    roots are those of the body. *)
Definition right_numbers (h : BlockHeader) : Prop := m_number h < 2 ^ 32 /\ m_gasUsed h <= m_gasLimit h.
Definition right_place (_parent h : BlockHeader) : Prop := m_timestamp _parent < m_timestamp h /\ m_number h = wrap 256 (m_number _parent + 1).
Definition right_body (h : BlockHeader) (txs uncles : list Item) : Prop :=
  hash256 (body_map (map encode txs)) = Ok (m_transactionsRoot h) /\ m_sha3Uncles h = sha3 (encode (Lst uncles)).
Definition right_header (_parent h : BlockHeader) (txs uncles : list Item) : Prop :=
  right_numbers h /\ fst (hash WithSeal _parent) = Ok (m_parentHash h) /\ right_place _parent h /\ right_body h txs uncles.

(** C18: with a parent at hand (one with a timestamp) and checks beyond [CheckNothingNew],
    [verify] accepts a header that names a parent exactly when it is right for that parent
    and for the body of the block.  What it lets pass otherwise: a header with a zero
    parent hash is accepted for any parent that is older and one below, without a parent
    nothing is compared with it, and under [CheckNothingNew] the gas used may be above
    the limit. *)
Theorem verify_spec (_s : Strictness) (_parent h : BlockHeader) (hd : Item) (txs uncles : list Item) :
  encodable (Lst [hd; Lst txs; Lst uncles]) ->
  let accepted := verify _s _parent (encode (Lst [hd; Lst txs; Lst uncles])) h = Ok tt in
  (_s <> CheckNothingNew -> m_timestamp _parent <> Invalid256 ->
     (FixedHash.to_bool (m_parentHash h) = true -> accepted <-> right_header _parent h txs uncles) /\
     (FixedHash.to_bool (m_parentHash h) = false -> accepted <-> right_numbers h /\ right_place _parent h /\ right_body h txs uncles)) /\
  (_s <> CheckNothingNew -> m_timestamp _parent = Invalid256 -> accepted <-> right_numbers h /\ right_body h txs uncles) /\
  (_s = CheckNothingNew -> accepted <-> m_number h < 2 ^ 32 /\ right_body h txs uncles /\
     (m_timestamp _parent <> Invalid256 -> right_place _parent h /\
        (FixedHash.to_bool (m_parentHash h) = true -> fst (hash WithSeal _parent) = Ok (m_parentHash h)))).
Proof.
  intros He accepted. pose proof (verify_iff _s _parent h hd txs uncles He) as E. fold accepted in E. clearbody accepted.
  unfold right_header, right_numbers, right_place, right_body.
  split; [intros Hs Ht; split; intros Hz; rewrite Hz in E|split; [intros Hs Ht|intros Hs]]; rewrite E; intuition congruence.
Qed.

(** ** The body of a block *)

(** The key of a transaction: its position as an RLP integer. *)
Lemma rlp_key_spec i : 0 <= i < 2 ^ 32 -> rlp_key i = encode (int_item i).
Proof.
  intros Hi. unfold rlp_key, rlp_unsigned, stream_op.
  rewrite append_bigint_spec; [done|lia|]. pose proof (bytesRequired_le i 4 ltac:(lia) ltac:(lia)). lia.
Qed.

Lemma rlp_key_ok i : 0 <= i < 2 ^ 32 -> nibs_ok (asNibbles (rlp_key i)) /\ (List.length (asNibbles (rlp_key i)) <= 100)%nat /\ bytes_ok (rlp_key i).
Proof.
  intros Hi. rewrite rlp_key_spec by done. pose proof (int_item_length 32 i ltac:(unfold uint_ok; lia) ltac:(lia)) as Hl.
  assert (Hb : bytes_ok (encode (int_item i))).
  { apply encode_bytes_ok. split; [apply toCompactBigEndian_ok|]. unfold maxLength. lia. }
  split; [by apply asNibbles_range|]. split; [|done]. pose proof (asNibbles_length (encode (int_item i))). lia.
Qed.

Lemma rlp_key_inj i j : 0 <= i < 2 ^ 32 -> 0 <= j < 2 ^ 32 -> asNibbles (rlp_key i) = asNibbles (rlp_key j) -> i = j.
Proof.
  intros Hi Hj E. apply asNibbles_inj in E. rewrite !rlp_key_spec in E by done.
  assert (He : forall k, 0 <= k < 2 ^ 32 -> encodable (int_item k)).
  { intros k Hk. split; [apply toCompactBigEndian_ok|]. pose proof (int_item_length 32 k ltac:(unfold uint_ok; lia) ltac:(lia)). unfold maxLength. lia. }
  apply encode_inj in E; [|by apply He..]. by apply int_item_inj in E; [|lia..].
Qed.

(** The trie over the items of a list. *)
Definition body_step (l : list bytes) (t : tree) (i : Z) : tree := tins t (asNibbles (rlp_key i)) (default [] (l !! Z.to_nat i)).
Definition body_tree (l : list bytes) : tree := fold_left (body_step l) (map Z.of_nat (seq 0 (List.length l))) Null.
Definition body_nodes (l : list bytes) : list bytes := enc (body_tree l) :: nodes (body_tree l).

Lemma body_prefix l k :
  Forall (fun v => v <> [] /\ val_ok v) l -> zlen l < 2 ^ 32 -> (k <= List.length l)%nat ->
  let t := fold_left (body_step l) (map Z.of_nat (seq 0 k)) Null in
  let m := fold_left (fun m i => bm_insert (rlp_key i) (default [] (l !! Z.to_nat i)) m) (map Z.of_nat (seq 0 k)) [] in
  wf 100 t /\ canon t /\ sim t m /\
  forall i, 0 <= i < 2 ^ 32 -> tget t (asNibbles (rlp_key i)) = if i <? Z.of_nat k then default [] (l !! Z.to_nat i) else [].
Proof.
  intros HF Hl. induction k as [|k IH]; intros Hk t m.
  { split; [done|]. split; [done|]. split; [apply sim_Null|]. intros i Hi. destruct (Z.ltb_spec i (Z.of_nat 0)); [lia|done]. }
  specialize (IH ltac:(lia)). cbv zeta in IH. destruct IH as (Hw & Hc & Hs & Hg).
  destruct (l !! k) as [v|] eqn:Ev; [|apply lookup_ge_None in Ev; lia].
  rewrite Forall_lookup in HF. destruct (HF k v Ev) as [Hv Hvok].
  destruct (rlp_key_ok (Z.of_nat k) ltac:(lia)) as (Hn & Hnl & Hb).
  unfold t, m. rewrite !seq_S, !map_app, !fold_left_app. cbn [map fold_left Nat.add]. unfold body_step at 1 3 5 7. rewrite !Nat2Z.id, Ev.
  cbn [default]. split; [by apply wf_tins|]. split; [by eapply canon_tins|]. split; [by eapply sim_tins|].
  intros i Hi. destruct (rlp_key_ok i Hi) as (Hni & _ & _). rewrite (tget_tins 100) by done.
  destruct (decide _) as [E|Hne].
  - apply rlp_key_inj in E; [|done|lia]. subst i. destruct (Z.ltb_spec (Z.of_nat k) (Z.of_nat (S k))); [|lia]. by rewrite Nat2Z.id, Ev.
  - rewrite Hg by done. assert (i <> Z.of_nat k) by congruence.
    destruct (Z.ltb_spec i (Z.of_nat k)), (Z.ltb_spec i (Z.of_nat (S k))); (done || lia).
Qed.

Lemma body_spec l :
  Forall (fun v => v <> [] /\ val_ok v) l -> zlen l < 2 ^ 32 ->
  wf 100 (body_tree l) /\ hash256 (body_map l) = Ok (sha3 (enc (body_tree l))) /\
  forall i, 0 <= i < 2 ^ 32 -> tget (body_tree l) (asNibbles (rlp_key i)) = default [] (l !! Z.to_nat i).
Proof.
  intros HF Hl. destruct (body_prefix l (List.length l) HF Hl ltac:(lia)) as (Hw & Hc & Hs & Hg).
  split; [done|]. split; [by apply (hash256_sim 100)|]. intros i Hi. rewrite Hg by done.
  destruct (Z.ltb_spec i (zlen l)); [done|]. by rewrite lookup_ge_None_2 by lia.
Qed.

Lemma same_values (l l' : list bytes) :
  Forall (fun v => v <> [] /\ val_ok v) l -> Forall (fun v => v <> [] /\ val_ok v) l' -> zlen l < 2 ^ 32 -> zlen l' < 2 ^ 32 ->
  (forall i, 0 <= i < 2 ^ 32 -> default [] (l !! Z.to_nat i) = default [] (l' !! Z.to_nat i)) -> l = l'.
Proof.
  intros HF HF' Hl Hl' H. rewrite Forall_lookup in HF, HF'. apply list_eq. intros i.
  destruct (Z.lt_ge_cases (Z.of_nat i) (2 ^ 32)) as [Hi|Hi]; [|by rewrite !lookup_ge_None_2 by lia].
  specialize (H (Z.of_nat i) ltac:(lia)). rewrite Nat2Z.id in H.
  destruct (l !! i) as [v|] eqn:E, (l' !! i) as [v'|] eqn:E'; cbn in H; subst; try done.
  - by destruct (HF _ _ E).
  - by destruct (HF' _ _ E').
Qed.

Lemma map_encode_inj l l' : Forall encodable l -> Forall encodable l' -> map encode l = map encode l' -> l = l'.
Proof.
  intros HF. revert l'. induction HF as [|t l Ht _ IH]; intros [|t' l'] HF' E; try done. inversion HF'; subst.
  injection E as E1 E2. f_equal; [by apply encode_inj|by apply IH].
Qed.

(** What a body is made of: items of a size that occurs. *)
Definition body_ok (l : list Item) : Prop :=
  encodable (Lst l) /\ zlen l < 2 ^ 32 /\ Forall (fun t => zlen (encode t) < 2 ^ 32) l.

Lemma body_values l : body_ok l -> Forall (fun v => v <> [] /\ val_ok v) (map encode l).
Proof.
  intros (He & _ & HF). destruct (encodable_Lst l He) as [He' _]. apply List.Forall_map.
  rewrite List.Forall_forall in *. intros t Ht. pose proof (encode_nonempty t (He' t Ht)).
  split; [intros E; rewrite E in *; cbn in *; lia|]. split; [by apply encode_bytes_ok, He'|by apply HF].
Qed.

(** C19: a header commits to the body of its block: if two blocks pass [verify] with
    headers that have the same transactions root and uncles hash, they have the
    same transactions in the same order and the same uncles - unless two different
    nodes of the two tries, or the two lists of uncles, have the same hash. *)
Theorem header_binds_body (_s _s' : Strictness) (_parent _parent' h h' : BlockHeader) (hd hd' : Item) (txs txs' uncles uncles' : list Item) :
  encodable (Lst [hd; Lst txs; Lst uncles]) -> encodable (Lst [hd'; Lst txs'; Lst uncles']) ->
  body_ok txs -> body_ok txs' ->
  m_transactionsRoot h = m_transactionsRoot h' -> m_sha3Uncles h = m_sha3Uncles h' ->
  collision_free (body_nodes (map encode txs) ++ body_nodes (map encode txs') ++ [encode (Lst uncles); encode (Lst uncles')]) = true ->
  verify _s _parent (encode (Lst [hd; Lst txs; Lst uncles])) h = Ok tt ->
  verify _s' _parent' (encode (Lst [hd'; Lst txs'; Lst uncles'])) h' = Ok tt ->
  txs = txs' /\ uncles = uncles'.
Proof.
  intros He He' Hb Hb' Er Eu Hcf Hv Hv'. set (W := _ ++ _) in Hcf.
  assert (HU : forall x y, x ∈ W -> y ∈ W -> sha3 x = sha3 y -> x = y) by (intros; by apply (collision_free_inj W)).
  apply verify_iff in Hv as (_ & _ & _ & Hr & Hu), Hv' as (_ & _ & _ & Hr' & Hu'); [|done..]. destruct Hb as (Ht & Hn & HF), Hb' as (Ht' & Hn' & HF').
  destruct (body_spec (map encode txs) (body_values txs ltac:(done)) ltac:(by rewrite length_map)) as (Hw & Hh & Hg).
  destruct (body_spec (map encode txs') (body_values txs' ltac:(done)) ltac:(by rewrite length_map)) as (Hw' & Hh' & Hg').
  split.
  - rewrite Hh in Hr. rewrite Hh' in Hr'. assert (Esha : sha3 (enc (body_tree (map encode txs))) = sha3 (enc (body_tree (map encode txs')))) by congruence.
    apply (root_inj (fun x => x ∈ W) HU 100 100) in Esha; [|done|done|done|done| |].
    + assert (E : map encode txs = map encode txs').
      { apply same_values; [by apply body_values|by apply body_values|by rewrite length_map|by rewrite length_map|]. intros i Hi. by rewrite <- Hg, <- Hg', Esha. }
      destruct (encodable_Lst _ Ht) as [HE _], (encodable_Lst _ Ht') as [HE' _]. by apply map_encode_inj.
    + apply List.Forall_forall. intros x Hx. apply list_elem_of_In, in_app_iff. by left.
    + apply List.Forall_forall. intros x Hx. apply list_elem_of_In, in_app_iff. right. apply in_app_iff. by left.
  - assert (E : Lst uncles = Lst uncles'); [|by injection E].
    destruct (encodable_Lst _ He) as [HE _], (encodable_Lst _ He') as [HE' _].
    rewrite List.Forall_forall in HE, HE'. apply encode_inj; [apply HE; cbn; auto|apply HE'; cbn; auto|].
    apply HU; [| |congruence]; apply list_elem_of_In, in_app_iff; right; apply in_app_iff; right; cbn; auto.
Qed.

(** ** Examples *)

Definition example_header (root uncles : bytes) : BlockHeader :=
  {| m_parentHash := h256_zero; m_sha3Uncles := uncles; m_stateRoot := h256_zero; m_transactionsRoot := root;
     m_receiptsRoot := h256_zero; m_logBloom := FixedHash.zero 256; m_number := 7; m_gasLimit := 1000; m_gasUsed := 21;
     m_extraData := [1; 2]; m_timestamp := 1500000000; m_author := FixedHash.zero 20; m_difficulty := 131072;
     m_seal := [[0x82; 1; 2]; [5]]; m_hash := h256_zero; m_hashWithout := h256_zero |}.

Lemma zero_hash_ok N : hash_ok N (FixedHash.zero N).
Proof. split; [apply length_replicate|]. apply Forall_replicate. unfold is_byte. lia. Qed.

Lemma example_header_ok root uncles : hash_ok 32 root -> hash_ok 32 uncles -> hdr_ok (example_header root uncles).
Proof.
  intros Hr Hu. split; try apply zero_hash_ok; try done; try (by unfold uint_ok).
  - split; [|done]. repeat constructor; unfold is_byte; lia.
  - split; [|done]. repeat constructor.
    + apply (one_str [1; 2]); [|done]. repeat constructor; unfold is_byte; lia.
    + apply (one_str [5]); [|done]. repeat constructor; unfold is_byte; lia.
Qed.

Lemma small_block : encodable (Lst [Str []; Lst [Str [1]]; Lst []]) /\ encodable (Lst [Lst [Str [1]]; Lst []]) /\ body_ok [Str [1]].
Proof.
  assert (H : forall t, item_ok t -> (zlen (encode t) <? maxLength) = true -> encodable t)
    by (intros t H1 H2; split; [done|by apply Z.ltb_lt]).
  assert (H1 : bytes_ok [1]) by (repeat constructor; unfold is_byte; lia).
  split; [apply H; [cbn; repeat split; (done || constructor)|reflexivity]|].
  split; [apply H; [cbn; repeat split; (done || constructor)|reflexivity]|].
  split; [apply H; [cbn; repeat split; (done || constructor)|reflexivity]|]. split; [done|]. by repeat constructor.
Qed.

Lemma header_roundtrip_witness :
  let h := example_header h256_zero h256_zero in
  exists d, streamed (streamRLP h WithSeal) = Ok d /\
    make_header d HeaderData h256_zero = Ok (with_hash (sha3 d) h) /\
    make_header (enclist [d; encode (Lst [Str [1]]); encode (Lst [])]) BlockData h256_zero = Ok (with_hash (sha3 d) h).
Proof.
  apply (header_roundtrip (example_header h256_zero h256_zero) [Str [1]] []).
  - apply example_header_ok; apply zero_hash_ok.
  - apply small_block.
  - vm_compute. reflexivity.
Defined.

Lemma header_canonical_witness :
  let d := enclist (hdr_segs (example_header h256_zero h256_zero)) in
  exists h, make_header d HeaderData (replicate 32 1) = Ok h /\ hdr_ok h /\ streamed (streamRLP h WithSeal) = Ok d.
Proof.
  intros d. eexists. split; [vm_compute; reflexivity|].
  eapply (header_canonical d (replicate 32 1) _ 15 [0x82; 1; 2]).
  - vm_compute. repeat constructor; discriminate.
  - vm_compute. reflexivity.
  - vm_compute. reflexivity.
  - vm_compute. reflexivity.
  - vm_compute. reflexivity.
  - lia.
  - vm_compute. reflexivity.
  - reflexivity.
Defined.

Lemma hash_coherent_witness :
  let h := fold_left apply_op [OpNumber 5; OpHash WithSeal; OpSeal 1 [0x80]; OpHash WithoutSeal; OpTimestamp 3] empty_header in
  fst (hash WithSeal h) = match streamed (streamRLP h WithSeal) with Ok b => Ok (sha3 b) | Err e => Err e end.
Proof.
  apply (hash_coherent [OpNumber 5; OpHash WithSeal; OpSeal 1 [0x80]; OpHash WithoutSeal; OpTimestamp 3] empty_header WithSeal).
  intros i Hi. by destruct i.
Defined.

Lemma verify_spec_witness :
  verify CheckEverything empty_header (encode (Lst [Str []; Lst [Str [1]]; Lst []])) (example_header h256_zero h256_zero) <> Ok tt.
Proof.
  destruct (verify_spec CheckEverything empty_header (example_header h256_zero h256_zero) (Str []) [Str [1]] [] (proj1 small_block)) as (_ & H & _).
  intros Hv. apply H in Hv; [|discriminate|reflexivity]. destruct Hv as (_ & Hv & _). vm_compute in Hv. discriminate.
Defined.

Lemma header_binds_body_witness : [Str [1]] = [Str [1]] /\ @nil Item = [].
Proof.
  set (root := sha3 (enc (body_tree (map encode [Str [1]])))). set (h := example_header root (sha3 (encode (Lst [])))).
  destruct small_block as (He & _ & Hb).
  assert (Hv : verify CheckEverything empty_header (encode (Lst [Str []; Lst [Str [1]]; Lst []])) h = Ok tt).
  { apply verify_iff; [done|]. split; [reflexivity|]. split; [right; discriminate|]. split; [intros H; by destruct H|].
    split; [|exact eq_refl]. apply (body_spec (map encode [Str [1]]) (body_values [Str [1]] Hb) eq_refl). }
  apply (header_binds_body CheckEverything CheckEverything empty_header empty_header h h (Str []) (Str []) [Str [1]] [Str [1]] [] []).
  - exact He.
  - exact He.
  - exact Hb.
  - exact Hb.
  - exact eq_refl.
  - exact eq_refl.
  - vm_compute. reflexivity.
  - exact Hv.
  - exact Hv.
Defined.

End HeaderProps.
