(* ===== verification/Seal.v ===== *)
(** * Seal: the rules of the chain and the proof-of-work seal

    - [ChainOperationParams]: libvapcore/ChainOperationParams.
    - [VapashAux]: the caches of seeds and light datasets of
      libvapashseal/VapashAux; full datasets, which are read from files, are a
      part of the state that no operation here changes.
    - [SealEngine]: libvapcore/SealEngine and libvapashseal/Vapash: which headers
      and transactions are accepted, difficulties, gas limits and seals. *)

From stdpp Require Import base list numbers option gmap.
From Stdlib Require Import ZArith Lia.
From S2P Require Import Prelude Bytes Rlp RlpStream RlpFields Keccak Sha3C DataSizes Vapash Instruction Crypto Transaction BlockHeader.
Import CommonData RLP Keccak Instruction.

Definition c_infiniteBlockNumer : Z := 2 ^ 63 - 1.

Module ChainOperationParams.

(** Members that only select other components ([sealEngineName], [networkID],
    [tieBreakingGas], [allowFutureBlocks], [registrar]) are left out, and so are
    the precompiled contracts. *)
Record ChainOperationParams := {
  m_blockReward : Z;
  maximumExtraDataSize : Z;
  accountStartNonce : Z;
  minGasLimit : Z;
  maxGasLimit : Z;
  gasLimitBoundDivisor : Z;
  homesteadForkBlock : Z;
  EIP150ForkBlock : Z;
  EIP158ForkBlock : Z;
  byzantiumForkBlock : Z;
  eWASMForkBlock : Z;
  constantinopleForkBlock : Z;
  daoHardforkBlock : Z;
  chainID : Z;
  minimumDifficulty : Z;
  difficultyBoundDivisor : Z;
  durationLimit : Z
}.

(** [ChainOperationParams()]. *)
Definition defaults : ChainOperationParams :=
  {| m_blockReward := 0x4563918244F40000; maximumExtraDataSize := 1024; accountStartNonce := 0; minGasLimit := 0x1388;
     maxGasLimit := 0x7fffffffffffffff; gasLimitBoundDivisor := 0x0400; homesteadForkBlock := c_infiniteBlockNumer;
     EIP150ForkBlock := c_infiniteBlockNumer; EIP158ForkBlock := c_infiniteBlockNumer;
     byzantiumForkBlock := c_infiniteBlockNumer; eWASMForkBlock := c_infiniteBlockNumer;
     constantinopleForkBlock := c_infiniteBlockNumer; daoHardforkBlock := c_infiniteBlockNumer; chainID := 0;
     minimumDifficulty := 0x020000; difficultyBoundDivisor := 0x0800; durationLimit := 0x0d |}.

Definition scheduleForBlockNumber (p : ChainOperationParams) (_blockNumber : Z) : VVMSchedule :=
  if constantinopleForkBlock p <=? _blockNumber then ConstantinopleSchedule
  else if eWASMForkBlock p <=? _blockNumber then EWASMSchedule
  else if byzantiumForkBlock p <=? _blockNumber then ByzantiumSchedule
  else if EIP158ForkBlock p <=? _blockNumber then EIP158Schedule
  else if EIP150ForkBlock p <=? _blockNumber then EIP150Schedule
  else if homesteadForkBlock p <=? _blockNumber then HomesteadSchedule
  else FrontierSchedule.

Definition blockReward (p : ChainOperationParams) (_schedule : VVMSchedule) : Z :=
  match blockRewardOverwrite _schedule with Some r => r | None => m_blockReward p end.

Definition setBlockReward (_newBlockReward : Z) (p : ChainOperationParams) : ChainOperationParams :=
  {| m_blockReward := _newBlockReward; maximumExtraDataSize := maximumExtraDataSize p; accountStartNonce := accountStartNonce p;
     minGasLimit := minGasLimit p; maxGasLimit := maxGasLimit p; gasLimitBoundDivisor := gasLimitBoundDivisor p;
     homesteadForkBlock := homesteadForkBlock p; EIP150ForkBlock := EIP150ForkBlock p; EIP158ForkBlock := EIP158ForkBlock p;
     byzantiumForkBlock := byzantiumForkBlock p; eWASMForkBlock := eWASMForkBlock p;
     constantinopleForkBlock := constantinopleForkBlock p; daoHardforkBlock := daoHardforkBlock p; chainID := chainID p;
     minimumDifficulty := minimumDifficulty p; difficultyBoundDivisor := difficultyBoundDivisor p;
     durationLimit := durationLimit p |}.

End ChainOperationParams.

Module VapashAux.
Import Vapash.

#[local] Opaque sha3.

Inductive aux_exn := InvalidArgument | DAGCreationFailure | Fault (f : fault).

Record VapashAux := {
  m_lights : gmap bytes vapash_light;
  m_fulls : gmap bytes (list node * Z);
  m_epochs : gmap bytes Z;
  m_seedHashes : list bytes
}.

Definition set_lights x (a : VapashAux) := {| m_lights := x; m_fulls := m_fulls a; m_epochs := m_epochs a; m_seedHashes := m_seedHashes a |}.
Definition set_epochs x (a : VapashAux) := {| m_lights := m_lights a; m_fulls := m_fulls a; m_epochs := x; m_seedHashes := m_seedHashes a |}.
Definition set_seedHashes x (a : VapashAux) := {| m_lights := m_lights a; m_fulls := m_fulls a; m_epochs := m_epochs a; m_seedHashes := x |}.

Definition aux_init : VapashAux := {| m_lights := ∅; m_fulls := ∅; m_epochs := ∅; m_seedHashes := [] |}.

Definition faulty {A} (m : result fault A) : M VapashAux aux_exn A :=
  mlift (match m with Ok a => Ok a | Err f => Err (Fault f) end).

(** [for (; n <= epoch; ++n, ret = sha3(ret)) m_seedHashes[n] = ret], [k] rounds. *)
Fixpoint seed_fill (k n : nat) (ret : bytes) (l : list bytes) : list bytes :=
  match k with
  | O => l
  | S k' => seed_fill k' (S n) (sha3 ret) (<[n := ret]> l)
  end.

Definition seedHash (_number : Z) : M VapashAux aux_exn bytes :=
  let epoch := Z.to_nat (_number / VAPASH_EPOCH_LENGTH) in
  do! l := mget m_seedHashes in
  exec! (if (List.length l <=? epoch)%nat then
           let '(ret, n) := match last l with
                            | Some b => (b, List.length l - 1)%nat
                            | None => (FixedHash.zero 32, 0%nat)
                            end in
           let l := l ++ replicate (epoch + 1 - List.length l) (FixedHash.zero 32) in
           mput (set_seedHashes (seed_fill (epoch + 1 - n) n ret l))
         else mret tt) in
  mget (fun a => default [] (m_seedHashes a !! epoch)).

(** [for (h256 h; h != _seedHash && epoch < 2048; ++epoch, h = sha3(h),
    m_epochs[h] = epoch) {}], with [k] rounds to go. *)
Fixpoint epoch_search (k : nat) (_seedHash h : bytes) (epoch : Z) (m : gmap bytes Z) : Z * gmap bytes Z :=
  if bool_decide (h = _seedHash) then (epoch, m) else
  match k with
  | O => (epoch, m)
  | S k' => let h' := sha3 h in epoch_search k' _seedHash h' (epoch + 1) (<[h' := epoch + 1]> m)
  end.

Definition number (_seedHash : bytes) : M VapashAux aux_exn Z :=
  do! m := mget m_epochs in
  match m !! _seedHash with
  | Some epoch => mret (epoch * VAPASH_EPOCH_LENGTH)
  | None =>
      let '(epoch, m') := epoch_search 2048 _seedHash (FixedHash.zero 32) 0 m in
      exec! mput (set_epochs m') in
      if epoch =? 2048 then mthrow InvalidArgument else mret (epoch * VAPASH_EPOCH_LENGTH)
  end.

Section Light.
(** Whether the allocations of a light dataset succeed. *)
Context (allocated : bool).

(** [LightAllocation(_seedHash)]. *)
Definition LightAllocation (_seedHash : bytes) : M VapashAux aux_exn vapash_light :=
  do! blockNumber := number _seedHash in
  do! light := faulty (vapash_light_new allocated blockNumber) in
  exec! faulty (vapash_get_cachesize blockNumber) in
  mret light.

(** [m_lights[_seedHash] = make_shared<LightAllocation>(_seedHash)], with the
    right operand first. *)
Definition light (_seedHash : bytes) : M VapashAux aux_exn vapash_light :=
  do! m := mget m_lights in
  match m !! _seedHash with
  | Some l => mret l
  | None =>
      do! l := LightAllocation _seedHash in
      exec! mput (fun a => set_lights (<[_seedHash := l]> (m_lights a)) a) in
      mret l
  end.

Definition killCache (_s : bytes) : M VapashAux aux_exn unit := mput (fun a => set_lights (delete _s (m_lights a)) a).

Definition computed (m : result fault (option vapash_return_value)) : M VapashAux aux_exn vapash_return_value :=
  do! r := faulty m in
  match r with Some r => mret r | None => mthrow DAGCreationFailure end.

(** [DEV_IF_THROWS]: any exception of the light computation gives the worst
    result; a fault is not an exception. *)
Definition eval (_seedHash _headerHash : bytes) (_nonce : Z) : M VapashAux aux_exn vapash_return_value :=
  do! fulls := mget m_fulls in
  match fulls !! _seedHash with
  | Some (data, size) => computed (vapash_full_compute data size _headerHash _nonce)
  | None => fun a =>
      match (do! l := light _seedHash in computed (vapash_light_compute l _headerHash _nonce)) a with
      | (Ok r, a') => (Ok r, a')
      | (Err (Fault f), a') => (Err (Fault f), a')
      | (Err _, a') => (Ok {| result_ := replicate 32 255; mix_hash := FixedHash.zero 32 |}, a')
      end
  end.

End Light.
End VapashAux.

Module SealEngine.
Import ChainOperationParams VapashAux Transaction BlockHeader.

#[local] Opaque sha3.

Inductive seal_exn :=
| Header (e : hdr_exn) | Tx (e : tx_exn) | Aux (e : aux_exn) | Rlp (e : exn)
| InvalidDifficulty | InvalidGasLimit | ExtraDataTooBig | ExtraDataIncorrect | InvalidBlockNonce
| InvalidSignature | InvalidZeroSignatureTransaction | OutOfGasIntrinsic | BlockGasLimitReached
| GenesisBlockCannotBeCalculated.

Definition inj {E A} (f : E -> seal_exn) (m : result E A) : result seal_exn A :=
  match m with Ok a => Ok a | Err e => Err (f e) end.

(** [ImportRequirements]. *)
Definition TransactionBasic : Z := 8.
Definition TransactionSignatures : Z := 32.
Definition requires (_ir flag : Z) : bool := negb (Z.land _ir flag =? 0).

Section Engine.
Context (chainParams : ChainOperationParams).

Definition vvmSchedule (_blockNumber : Z) : VVMSchedule := scheduleForBlockNumber chainParams _blockNumber.
Definition engine_blockReward (_blockNumber : Z) : Z := blockReward chainParams (vvmSchedule _blockNumber).

(** ** Transactions *)

(** [SealEngineFace::verifyTransaction]. *)
Definition face_verifyTransaction (_ir : Z) (_t : TransactionBase) (_header : BlockHeader) : result seal_exn unit :=
  if requires _ir TransactionSignatures && (m_number _header <? EIP158ForkBlock chainParams) && isReplayProtected _t
  then Err InvalidSignature else
  if requires _ir TransactionSignatures && (m_number _header <? constantinopleForkBlock chainParams) && hasZeroSignature _t
  then Err InvalidSignature else
  if requires _ir TransactionBasic && (constantinopleForkBlock chainParams <=? m_number _header) && hasZeroSignature _t
     && (negb (m_value _t =? 0) || negb (m_gasPrice _t =? 0) || negb (m_nonce _t =? 0))
  then Err InvalidZeroSignatureTransaction else
  if (homesteadForkBlock chainParams <=? m_number _header) && requires _ir TransactionSignatures && hasSignature _t
  then inj Tx (checkLowS _t) else Ok tt.

(** [Vapash::verifyTransaction]; the gas of a transaction is a [u256] and its base
    gas an [int64_t], which is compared as one. *)
Definition verifyTransaction (_ir : Z) (_t : TransactionBase) (_header : BlockHeader) (_startGasUsed : Z)
    : result seal_exn unit :=
  let! _ := face_verifyTransaction _ir _t _header in
  let! _ := (if requires _ir TransactionSignatures then
               inj Tx (checkChainId (if EIP158ForkBlock chainParams <=? m_number _header then chainID chainParams else -4) _t)
             else Ok tt) in
  if requires _ir TransactionBasic
     && (baseGasRequired (isCreation _t) (m_data _t) (vvmSchedule (m_number _header)) >? m_gas _t)
  then Err OutOfGasIntrinsic else
  if _startGasUsed + m_gas _t >? m_gasLimit _header then Err BlockGasLimitReached else Ok tt.

(** ** Difficulty and gas limit *)

(** [u256] arithmetic wraps around; [bigint] division truncates. *)
Definition calculateDifficulty (_bi _parent : BlockHeader) : result seal_exn Z :=
  let c_expDiffPeriod := 100000 in
  if m_number _bi =? 0 then Err GenesisBlockCannotBeCalculated else
  let d := m_difficulty _parent in
  let target :=
    if m_number _bi <? homesteadForkBlock chainParams then
      if wrap 256 (m_timestamp _parent + durationLimit chainParams) <=? m_timestamp _bi
      then wrap 256 (d - d / difficultyBoundDivisor chainParams)
      else wrap 256 (d + d / difficultyBoundDivisor chainParams)
    else
      let timestampDiff := m_timestamp _bi - m_timestamp _parent in
      let adjFactor :=
        if m_number _bi <? byzantiumForkBlock chainParams then Z.max (1 - Z.quot timestampDiff 10) (-99)
        else Z.max ((if negb (bool_decide (m_sha3Uncles _parent = EmptyListSHA3)) then 2 else 1) - Z.quot timestampDiff 9) (-99) in
      d + d / 2048 * adjFactor in
  let exponentialIceAgeBlockNumber := wrap 32 (wrap 256 (m_number _parent + 1)) in
  let exponentialIceAgeBlockNumber :=
    if byzantiumForkBlock chainParams <=? m_number _bi then
      if 3000000 <=? exponentialIceAgeBlockNumber then exponentialIceAgeBlockNumber - 3000000 else 0
    else exponentialIceAgeBlockNumber in
  let periodCount := exponentialIceAgeBlockNumber / c_expDiffPeriod in
  let o := if periodCount >? 1 then target + Z.shiftl 1 (periodCount - 2) else target in
  let o := Z.max (minimumDifficulty chainParams) o in
  Ok (Z.min o (2 ^ 256 - 1)).

Definition childGasLimit (_bi : BlockHeader) (_gasFloorTarget : Z) : Z :=
  let gasFloorTarget := if _gasFloorTarget =? Invalid256 then 3141562 else _gasFloorTarget in
  let gasLimit := m_gasLimit _bi in
  let boundDivisor := gasLimitBoundDivisor chainParams in
  if gasLimit <? gasFloorTarget
  then Z.min gasFloorTarget (wrap 256 (wrap 256 (gasLimit + gasLimit / boundDivisor) - 1))
  else Z.max gasFloorTarget
         (wrap 256 (wrap 256 (wrap 256 (gasLimit - gasLimit / boundDivisor) + 1) + wrap 256 (m_gasUsed _bi * 6) / 5 / boundDivisor)).

(** [Vapash::populateFromParent]. *)
Definition engine_populateFromParent (_bi _parent : BlockHeader) : result seal_exn BlockHeader :=
  let bi := populateFromParent _parent _bi in
  let! d := calculateDifficulty bi _parent in
  let bi := setDifficulty d bi in
  Ok (setGasLimit (childGasLimit _parent Invalid256) bi).

(** ** Seals *)

Definition MixHashField : nat := 0.
Definition NonceField : nat := 1.
Definition nonce (_bi : BlockHeader) : result exn bytes := seal (toHash 8) (FixedHash.zero 8) NonceField _bi.
Definition mixHash (_bi : BlockHeader) : result exn bytes := seal (toHash 32) (FixedHash.zero 32) MixHashField _bi.
Definition boundary (_bi : BlockHeader) : bytes :=
  let d := m_difficulty _bi in
  if negb (d =? 0) then FixedHash.of_arith 32 (wrap 256 (2 ^ 256 / d)) else FixedHash.zero 32.

Definition quickVerifySeal (_bi : BlockHeader) : result seal_exn bool :=
  if Vapash.VAPASH_EPOCH_LENGTH * 2048 <=? m_number _bi then Ok false else
  let! h := inj Header (fst (hash WithoutSeal _bi)) in
  let! m := inj Rlp (mixHash _bi) in
  let! n := inj Rlp (nonce _bi) in
  Ok (Vapash.vapash_quick_check_difficulty h (FixedHash.to_arith 8 n) m (boundary _bi)).

(** [verifySeal], of a release build. *)
Definition verifySeal (allocated : bool) (_bi : BlockHeader) : M VapashAux seal_exn bool := fun a =>
  match quickVerifySeal _bi with
  | Err e => (Err e, a)
  | Ok false => (Ok false, a)
  | Ok true =>
      match inj Header (fst (hash WithoutSeal _bi)), inj Rlp (nonce _bi), inj Rlp (mixHash _bi) with
      | Ok h, Ok n, Ok m =>
          let '(r, a') := (do! s := seedHash (wrap 32 (m_number _bi)) in
                           eval allocated s h (FixedHash.to_arith 8 n)) a in
          (match r with
           | Ok ret => Ok (negb (FixedHash.ltb (boundary _bi) (Vapash.result_ ret)) && bool_decide (Vapash.mix_hash ret = m))
           | Err e => Err (Aux e)
           end, a')
      | Err e, _, _ | _, Err e, _ | _, _, Err e => (Err e, a)
      end
  end.

(** ** Headers *)

Definition dao_extraData : bytes := [0x64; 0x61; 0x6f; 0x2d; 0x68; 0x61; 0x72; 0x64; 0x2d; 0x66; 0x6f; 0x72; 0x6b].

(** The checks of [Vapash::verify] on the header alone. *)
Definition check_header (_bi : BlockHeader) : result seal_exn unit :=
  if m_difficulty _bi <? minimumDifficulty chainParams then Err InvalidDifficulty else
  if m_gasLimit _bi <? minGasLimit chainParams then Err InvalidGasLimit else
  if m_gasLimit _bi >? maxGasLimit chainParams then Err InvalidGasLimit else
  if negb (m_number _bi =? 0) && (zlen (m_extraData _bi) >? maximumExtraDataSize chainParams) then Err ExtraDataTooBig else
  let daoHardfork := daoHardforkBlock chainParams in
  if negb (daoHardfork =? 0) && (daoHardfork <=? wrap 256 (daoHardfork + 9)) && (daoHardfork <=? m_number _bi)
     && (m_number _bi <=? wrap 256 (daoHardfork + 9)) && negb (bool_decide (m_extraData _bi = dao_extraData))
  then Err ExtraDataIncorrect else Ok tt.

(** Its checks against the parent. *)
Definition check_child (_bi _parent : BlockHeader) : result seal_exn unit :=
  let! expected := calculateDifficulty _bi _parent in
  if negb (m_difficulty _bi =? expected) then Err InvalidDifficulty else
  let gasLimit := m_gasLimit _bi in
  let parentGasLimit := m_gasLimit _parent in
  if (gasLimit <? minGasLimit chainParams) || (gasLimit >? maxGasLimit chainParams)
     || (gasLimit <=? wrap 256 (parentGasLimit - parentGasLimit / gasLimitBoundDivisor chainParams))
     || (wrap 256 (parentGasLimit + parentGasLimit / gasLimitBoundDivisor chainParams) <=? gasLimit)
  then Err InvalidGasLimit else Ok tt.

(** [Vapash::verify]; what it attaches to the exception for a wrong seal is left
    out. *)
Definition engine_verify (allocated : bool) (_s : Strictness) (_bi _parent : BlockHeader) (_block : bytes)
    : M VapashAux seal_exn unit := fun a =>
  let checks :=
    let! _ := inj Header (verify _s _parent _block _bi) in
    let! _ := (if negb (bool_decide (_s = CheckNothingNew)) then check_header _bi else Ok tt) in
    if to_bool _parent then check_child _bi _parent else Ok tt in
  match checks with
  | Err e => (Err e, a)
  | Ok _ =>
      let sealed := FixedHash.to_bool (m_parentHash _bi) in
      match _s with
      | CheckEverything =>
          if sealed then
            match verifySeal allocated _bi a with
            | (Ok true, a') => (Ok tt, a')
            | (Ok false, a') => (Err InvalidBlockNonce, a')
            | (Err e, a') => (Err e, a')
            end
          else (Ok tt, a)
      | QuickNonce =>
          if sealed then
            match quickVerifySeal _bi with
            | Ok true => (Ok tt, a)
            | Ok false => (Err InvalidBlockNonce, a)
            | Err e => (Err e, a)
            end
          else (Ok tt, a)
      | _ => (Ok tt, a)
      end
  end.

End Engine.
End SealEngine.
