(* ===== verification/SealProps.v ===== *)
(** * SealProps: what the seal engine accepts

    - Difficulties: their bounds, and that a later block is never harder.
    - Gas limits: the header made for a child passes the checks of a child.
    - Seals: the caches of seeds and light datasets are invisible; a seal is
      accepted exactly when the light computation for the block's number
      confirms it. *)

From stdpp Require Import base list numbers option gmap.
From Stdlib Require Import ZArith Lia.
From S2P Require Import Prelude Bytes Rlp RlpStream RlpFields Keccak Sha3C DataSizes Vapash Instruction Crypto Transaction BlockHeader HeaderProps Seal.
Import CommonData RLP Keccak.

Module SealProps.
Import RlpFields ChainOperationParams VapashAux SealEngine BlockHeader HeaderProps.

#[local] Opaque sha3.

(** ** Difficulty *)

Lemma quot_mono a b c : 0 < c -> a <= b -> Z.quot a c <= Z.quot b c.
Proof. intros. by apply Z.quot_le_mono. Qed.

Lemma difficulty_range p bi parent d :
  0 <= minimumDifficulty p < 2 ^ 256 -> calculateDifficulty p bi parent = Ok d ->
  minimumDifficulty p <= d < 2 ^ 256.
Proof.
  intros Hm. unfold calculateDifficulty. destruct (m_number bi =? 0); [done|]. cbn zeta. intros [= <-]. lia.
Qed.

Lemma difficulty_total p bi parent : m_number bi <> 0 -> exists d, calculateDifficulty p bi parent = Ok d.
Proof. intros Hn. unfold calculateDifficulty. destruct (Z.eqb_spec (m_number bi) 0); [done|]. by eexists. Qed.

(** A difficulty is at least the minimum of the chain and fits 256 bits, every
    block but the genesis block has one, and of two blocks with the same number on
    the same parent, the later one never has the greater difficulty (in the rules
    of the first era, which use 256-bit arithmetic, for a parent whose difficulty
    can grow and whose time can be added to without a wrap-around). *)
Theorem difficulty_antitone (p : ChainOperationParams) (bi bi' parent : BlockHeader) :
  0 <= minimumDifficulty p < 2 ^ 256 -> 1 < difficultyBoundDivisor p ->
  0 <= m_difficulty parent -> m_difficulty parent + m_difficulty parent / difficultyBoundDivisor p < 2 ^ 256 ->
  0 <= m_timestamp parent + durationLimit p < 2 ^ 256 ->
  m_number bi = m_number bi' -> m_number bi <> 0 -> m_timestamp bi <= m_timestamp bi' ->
  exists d d', calculateDifficulty p bi parent = Ok d /\ calculateDifficulty p bi' parent = Ok d' /\
    minimumDifficulty p <= d' <= d /\ d < 2 ^ 256.
Proof.
  intros Hm Hv Hd Hd' Ht Hn H0 Hle. destruct (difficulty_total p bi parent H0) as [d E]. rewrite Hn in H0.
  destruct (difficulty_total p bi' parent H0) as [d' E']. exists d, d'. split; [done|]. split; [done|].
  pose proof (difficulty_range _ _ _ _ Hm E). pose proof (difficulty_range _ _ _ _ Hm E').
  enough (d' <= d) by lia. unfold calculateDifficulty in E, E'. rewrite Hn in E.
  destruct (Z.eqb_spec (m_number bi') 0); [done|]. cbn zeta in E, E'. injection E as <-. injection E' as <-.
  apply Z.min_le_compat_r, Z.max_le_compat_l.
  enough (forall x y : Z, y <= x -> forall (b : bool) (z : Z), (if b then y + z else y) <= (if b then x + z else x)) as K.
  2: { intros x y Hxy [] z; lia. }
  apply K. clear K. assert (0 <= m_difficulty parent / difficultyBoundDivisor p <= m_difficulty parent) as Hq.
  { split; [apply Z.div_pos; lia|]. apply Z.div_le_upper_bound; nia. }
  assert (0 <= m_difficulty parent / 2048) as Hq' by (apply Z.div_pos; lia).
  destruct (m_number bi' <? homesteadForkBlock p).
  - rewrite !(wrap_small 256) by (unfold uint_ok; lia).
    destruct (Z.leb_spec (m_timestamp parent + durationLimit p) (m_timestamp bi)),
      (Z.leb_spec (m_timestamp parent + durationLimit p) (m_timestamp bi')); lia.
  - apply Z.add_le_mono_l, Z.mul_le_mono_nonneg_l; [done|].
    destruct (m_number bi' <? byzantiumForkBlock p).
    + pose proof (quot_mono (m_timestamp bi - m_timestamp parent) (m_timestamp bi' - m_timestamp parent) 10). lia.
    + pose proof (quot_mono (m_timestamp bi - m_timestamp parent) (m_timestamp bi' - m_timestamp parent) 9). lia.
Qed.

(** ** Gas limit *)

Lemma gas_limit_step p parent :
  let gl := m_gasLimit parent in
  let q := gl / gasLimitBoundDivisor p in
  0 < gasLimitBoundDivisor p -> 3 <= q -> 0 <= m_gasUsed parent <= gl -> gl < 2 ^ 252 ->
  gl - q < childGasLimit p parent Invalid256 < gl + q /\
  Z.min gl 3141562 <= childGasLimit p parent Invalid256.
Proof.
  cbn zeta. intros Hv Hq Hu Hg. set (gl := m_gasLimit parent) in *. set (v := gasLimitBoundDivisor p) in *.
  assert (gl / v <= gl) as Hle by (apply Z.div_le_upper_bound; nia).
  assert (gl < v * (gl / v + 1)) as Hgl by (pose proof (Z.mul_succ_div_gt gl v ltac:(lia)); lia).
  unfold childGasLimit. rewrite Z.eqb_refl. cbn zeta. fold gl v.
  destruct (Z.ltb_spec gl 3141562).
  - rewrite !(wrap_small 256); unfold uint_ok in *; try lia.
    rewrite !(wrap_small 256); unfold uint_ok in *; lia.
  - set (x := wrap 256 (m_gasUsed parent * 6) / 5 / v).
    assert (0 <= x <= 2 * (gl / v) - 2) as Hx.
    { unfold x. rewrite (wrap_small 256) by (unfold uint_ok; lia). rewrite Z.div_div by lia. split; [apply Z.div_pos; lia|].
      enough (m_gasUsed parent * 6 / (5 * v) < 2 * (gl / v) - 1) by lia. apply Z.div_lt_upper_bound; [lia|nia]. }
    rewrite (wrap_small 256 (gl - _)) by (unfold uint_ok; lia).
    rewrite (wrap_small 256 (gl - _ + 1)) by (unfold uint_ok; lia).
    rewrite (wrap_small 256) by (unfold uint_ok; lia). lia.
Qed.

Lemma difficulty_fields p bi bi' parent :
  m_number bi = m_number bi' -> m_timestamp bi = m_timestamp bi' ->
  calculateDifficulty p bi parent = calculateDifficulty p bi' parent.
Proof. intros Hn Ht. unfold calculateDifficulty. by rewrite Hn, Ht. Qed.

(** The header that the engine makes for the child of a block passes its own checks
    of a child, whatever the time it is given: the difficulty is the expected one and the
    gas limit is within the bound divisor of the parent's.  The parent's gas limit must
    be at least three times the divisor and the chain's minimum, and a step up from it
    must not exceed the chain's maximum, which the engine does not clamp to; the minimum
    must be at most 3141562. *)
Theorem child_accepted (p : ChainOperationParams) (bi parent : BlockHeader) :
  let gl := m_gasLimit parent in
  let q := gl / gasLimitBoundDivisor p in
  0 < gasLimitBoundDivisor p -> 3 <= q -> 0 <= m_gasUsed parent <= gl -> gl < 2 ^ 252 ->
  minGasLimit p <= gl -> minGasLimit p <= 3141562 -> gl + q <= maxGasLimit p ->
  0 <= m_number parent < 2 ^ 256 - 1 ->
  exists child, engine_populateFromParent p bi parent = Ok child /\
    check_child p child parent = Ok tt /\
    m_number child = m_number parent + 1 /\ m_parentHash child = m_hash parent /\
    m_timestamp child = m_timestamp bi /\ m_extraData child = m_extraData bi.
Proof.
  cbn zeta. intros Hv Hq Hu Hg Hmin Hmin' Hmax Hn. destruct (gas_limit_step p parent Hv Hq Hu Hg) as [Hs Hs'].
  set (gl := m_gasLimit parent) in *. unfold engine_populateFromParent.
  assert (m_number (populateFromParent parent bi) = m_number parent + 1) as En.
  { cbn. apply wrap_small. unfold uint_ok. lia. }
  destruct (difficulty_total p (populateFromParent parent bi) parent) as [d Ed]; [lia|]. rewrite Ed. cbn [result_bind].
  eexists. split; [reflexivity|]. split; [|cbn in En |- *; by rewrite En].
  unfold check_child. rewrite (difficulty_fields p _ (populateFromParent parent bi)) by done. rewrite Ed. cbn [result_bind].
  change (m_difficulty _) with d. rewrite Z.eqb_refl. cbn [negb].
  change (m_gasLimit (setGasLimit ?x _)) with x. fold gl. set (c := childGasLimit p parent Invalid256) in *.
  assert (gl / gasLimitBoundDivisor p <= gl) by (apply Z.div_le_upper_bound; nia).
  rewrite !(wrap_small 256) by (unfold uint_ok; lia).
  destruct (Z.ltb_spec c (minGasLimit p)); [lia|]. rewrite (Z.gtb_ltb c). destruct (Z.ltb_spec (maxGasLimit p) c); [lia|].
  destruct (Z.leb_spec c (gl - gl / gasLimitBoundDivisor p)); [lia|].
  destruct (Z.leb_spec (gl + gl / gasLimitBoundDivisor p) c); [lia|]. done.
Qed.

(** ** The caches *)

Definition seed (e : nat) : bytes := Nat.iter e sha3 (FixedHash.zero 32).

(** No epoch up to [k] has the seed of another. *)
Definition distinct (k : nat) : Prop := forall i j, (i < j <= k)%nat -> seed i <> seed j.
Definition first (k : nat) : Prop := forall i, (i < k)%nat -> seed i <> seed k.

Lemma first_inj i j : first i -> first j -> seed i = seed j -> i = j.
Proof.
  intros Hi Hj E. destruct (Nat.lt_trichotomy i j) as [H|[H|H]]; [by destruct (Hj i H)|done|by destruct (Hi j H)].
Qed.
Lemma distinct_first k i : distinct k -> (i <= k)%nat -> first i.
Proof. intros H Hi j Hj. apply H. lia. Qed.

(** What the caches hold. *)
Record aux_ok (a : VapashAux) : Prop := {
  ok_seeds : m_seedHashes a = map seed (seq 0 (List.length (m_seedHashes a)));
  ok_epochs : forall h e, m_epochs a !! h = Some e -> exists k, e = Z.of_nat k /\ seed k = h /\ first k;
  ok_lights : forall h l, m_lights a !! h = Some l ->
    exists k, (k < 2048)%nat /\ seed k = h /\ first k /\ Vapash.vapash_light_new true (Z.of_nat k * 30000) = Ok l
}.

Lemma aux_init_ok : aux_ok aux_init.
Proof. split; [done| |]; intros h x H; cbn in H; by rewrite lookup_empty in H. Qed.

Lemma seed_fill_spec k n l :
  (n + k <= List.length l)%nat -> take n l = map seed (seq 0 n) ->
  seed_fill k n (seed n) l = map seed (seq 0 (n + k)) ++ drop (n + k) l.
Proof.
  revert n l. induction k as [|k IH]; intros n l Hl Ht.
  - cbn [seed_fill]. rewrite Nat.add_0_r, <- Ht. by rewrite take_drop.
  - cbn [seed_fill]. change (sha3 (seed n)) with (seed (S n)). rewrite IH.
    + replace (S n + k)%nat with (n + S k)%nat by lia. rewrite drop_insert_lt by lia. done.
    + rewrite length_insert. lia.
    + rewrite (take_S_r _ _ (seed n)) by (rewrite list_lookup_insert_eq by lia; done).
      rewrite take_insert_ge by lia. rewrite Ht, seq_S, map_app. done.
Qed.

Lemma seeds_lookup e n : (e < n)%nat -> map seed (seq 0 n) !! e = Some (seed e).
Proof. intros H. change (map seed) with (fmap (M := list) seed). rewrite list_lookup_fmap, lookup_seq_lt by lia. done. Qed.

Lemma seedHash_ok n a : aux_ok a -> 0 <= n ->
  exists a', seedHash n a = (Ok (seed (Z.to_nat (n / 30000))), a') /\ aux_ok a' /\
    m_lights a' = m_lights a /\ m_fulls a' = m_fulls a /\ m_epochs a' = m_epochs a.
Proof.
  intros Ha Hn. unfold seedHash. change Vapash.VAPASH_EPOCH_LENGTH with 30000. set (e := Z.to_nat (n / 30000)).
  unfold mget at 1. cbn [mbind]. unfold mbind at 1. set (l := m_seedHashes a). pose proof (ok_seeds a Ha) as El. fold l in El.
  destruct (Nat.leb_spec (List.length l) e) as [Hl|Hl].
  - assert (exists n0, (match last l with Some b => (b, List.length l - 1)%nat | None => (FixedHash.zero 32, 0%nat) end) = (seed n0, n0)
      /\ (n0 <= List.length l)%nat /\ (n0 <= e)%nat /\ take n0 l = map seed (seq 0 n0)) as (n0 & E0 & H0 & He0 & Ht).
    { assert (forall k, (k <= List.length l)%nat -> take k l = map seed (seq 0 k)) as Htk.
      { intros k Hk. rewrite El, firstn_map, take_seq, Nat.min_l by lia. done. }
      destruct (last l) as [b|] eqn:Eb.
      - exists (List.length l - 1)%nat. assert (List.length l <> 0%nat) as Hz by (intros Hz%nil_length_inv; rewrite Hz in Eb; done).
        rewrite last_lookup in Eb. pose proof (seeds_lookup (List.length l - 1) (List.length l) ltac:(lia)) as Es.
        rewrite <- El in Es. replace (Nat.pred (List.length l)) with (List.length l - 1)%nat in Eb by lia.
        rewrite Es in Eb. injection Eb as <-. split; [done|]. split; [lia|]. split; [lia|]. apply Htk. lia.
      - exists 0%nat. repeat split; lia. }
    rewrite E0. unfold mput. cbn [mbind]. unfold mbind. unfold mget. cbn [m_seedHashes set_seedHashes].
    set (l' := l ++ _). assert (List.length l' = S e) as Hl' by (unfold l'; rewrite length_app, length_replicate; lia).
    assert (seed_fill (e + 1 - n0) n0 (seed n0) l' = map seed (seq 0 (S e))) as Ef.
    { rewrite seed_fill_spec; [|lia|unfold l'; rewrite take_app_le by lia; done].
      replace (n0 + (e + 1 - n0))%nat with (S e) by lia. rewrite drop_ge by lia. apply app_nil_r. }
    rewrite Ef. rewrite seeds_lookup by lia. eexists. split; [reflexivity|]. split; [|done].
    destruct Ha as [_ H1 H2]. split; cbn; [rewrite length_map, length_seq; done|done|done].
  - unfold mret, mbind, mget. fold l. rewrite El, seeds_lookup by lia. eexists. split; [reflexivity|]. done.
Qed.

Lemma epoch_search_ok k (Hk : distinct k) fuel j m :
  (j <= k)%nat -> (k - j <= fuel)%nat ->
  (forall h e, m !! h = Some e -> exists i, e = Z.of_nat i /\ seed i = h /\ first i) ->
  exists m', epoch_search fuel (seed k) (seed j) (Z.of_nat j) m = (Z.of_nat k, m') /\
    forall h e, m' !! h = Some e -> exists i, e = Z.of_nat i /\ seed i = h /\ first i.
Proof.
  revert j m. induction fuel as [|fuel IH]; intros j m Hj Hf Hm; cbn [epoch_search].
  - assert (j = k) as -> by lia. rewrite bool_decide_eq_true_2 by done. by exists m.
  - destruct (decide (j = k)) as [->|Hne]; [rewrite bool_decide_eq_true_2 by done; by exists m|].
    rewrite bool_decide_eq_false_2 by (apply Hk; lia). change (sha3 (seed j)) with (seed (S j)).
    replace (Z.of_nat j + 1) with (Z.of_nat (S j)) by lia. apply IH; [lia|lia|].
    intros h e. destruct (decide (h = seed (S j))) as [->|Hh].
    + rewrite lookup_insert_eq. intros [= <-]. exists (S j). split; [reflexivity|]. split; [reflexivity|]. apply (distinct_first k); [done|lia].
    + rewrite lookup_insert_ne by done. apply Hm.
Qed.

Lemma number_ok k a : aux_ok a -> distinct k -> (k < 2048)%nat ->
  exists a', number (seed k) a = (Ok (Z.of_nat k * 30000), a') /\ aux_ok a' /\
    m_lights a' = m_lights a /\ m_fulls a' = m_fulls a.
Proof.
  intros Ha Hk Hb. unfold number, mget, mbind. change Vapash.VAPASH_EPOCH_LENGTH with 30000.
  destruct (m_epochs a !! seed k) as [e|] eqn:E.
  - destruct (ok_epochs a Ha _ _ E) as (i & -> & Ei & Hi).
    rewrite (first_inj i k Hi (distinct_first k k Hk ltac:(lia)) Ei). by eexists.
  - destruct (epoch_search_ok k Hk 2048 0 (m_epochs a) ltac:(lia) ltac:(lia) (ok_epochs a Ha)) as (m' & Es & Hm).
    change (Z.of_nat 0) with 0 in Es. change (seed 0) with (FixedHash.zero 32) in Es. rewrite Es. unfold mput.
    destruct (Z.eqb_spec (Z.of_nat k) 2048); [lia|]. eexists. split; [reflexivity|]. split; [|done].
    destruct Ha as [H1 _ H3]. by split.
Qed.

Lemma light_ok k a : aux_ok a -> distinct k -> (k < 2048)%nat ->
  exists l a', light true (seed k) a = (Ok l, a') /\ Vapash.vapash_light_new true (Z.of_nat k * 30000) = Ok l /\ aux_ok a'.
Proof.
  intros Ha Hk Hb. unfold light. unfold mbind at 1, mget at 1. destruct (m_lights a !! seed k) as [l|] eqn:E.
  - destruct (ok_lights a Ha _ _ E) as (i & Hi & Ei & Hf & Hl).
    rewrite (first_inj i k Hf (distinct_first k k Hk ltac:(lia)) Ei) in Hl. by exists l, a.
  - assert (Z.of_nat k * 30000 / 30000 = Z.of_nat k) as Ek by (apply Z.div_mul; lia).
    destruct (Vapash.light_new_ok (Z.of_nat k * 30000) ltac:(lia) ltac:(lia)) as (l & Hl & _).
    destruct (number_ok k a Ha Hk Hb) as (a' & En & Ha' & El & _).
    destruct DataSizes.cache_sizes_ok as [Hc Hlen].
    destruct (Vapash.table_at _ _ _ _ (Z.of_nat k * 30000 / 30000) Hc Hlen ltac:(lia)) as (s & Hs & _).
    exists l. eexists. split; [|split; [done|]].
    + erewrite mbind_Ok; [reflexivity|]. unfold LightAllocation. rewrite (mbind_Ok _ _ _ _ _ En).
      unfold faulty at 1, mlift, mbind. rewrite Hl. unfold faulty, mlift, Vapash.vapash_get_cachesize, Vapash.VAPASH_EPOCH_LENGTH.
      rewrite Hs. reflexivity.
    + destruct Ha' as [H1 H2 H3]. split; cbn; [done|done|]. intros h x. destruct (decide (h = seed k)) as [->|Hne].
      * rewrite lookup_insert_eq. intros [= <-]. exists k. split; [exact Hb|]. split; [reflexivity|]. split; [by apply (distinct_first k)|exact Hl].
      * rewrite lookup_insert_ne by done. apply H3.
Qed.

(** ** Seals *)

(** The light dataset of a block is that of the first block of its epoch. *)
Lemma light_epoch n l : 0 <= n ->
  Vapash.vapash_light_new true (Z.of_nat (Z.to_nat (n / 30000)) * 30000) = Ok l ->
  exists l', Vapash.vapash_light_new true n = Ok l' /\
    forall h x, Vapash.vapash_light_compute l' h x = Vapash.vapash_light_compute l h x.
Proof.
  intros Hn. rewrite Z2Nat.id by (apply Z.div_pos; lia). set (n' := n / 30000 * 30000).
  assert (n' / 30000 = n / 30000) as E by (apply Z.div_mul; lia).
  unfold Vapash.vapash_light_new, Vapash.vapash_get_seedhash, Vapash.vapash_get_cachesize, Vapash.VAPASH_EPOCH_LENGTH.
  rewrite E. intros H. apply result_bind_Ok in H as (s & -> & H). cbn [result_bind].
  apply result_bind_Ok in H as (size & -> & H). cbn [result_bind].
  apply result_bind_Ok in H as ([r|] & -> & H); [|done]. cbn [result_bind]. injection H as <-. eexists. split; [reflexivity|].
  intros h x. unfold Vapash.vapash_light_compute. cbn [Vapash.block_number]. unfold Vapash.vapash_get_datasize, Vapash.VAPASH_EPOCH_LENGTH.
  rewrite E. destruct (Vapash.at_ _ _); [|done]. reflexivity.
Qed.

Lemma boundary_val bi : 2 <= m_difficulty bi ->
  hash_ok 32 (boundary bi) /\ be_val (boundary bi) = 2 ^ 256 / m_difficulty bi.
Proof.
  intros Hd. unfold boundary. destruct (Z.eqb_spec (m_difficulty bi) 0); [lia|]. cbn [negb].
  assert (0 <= 2 ^ 256 / m_difficulty bi < 2 ^ 256) by (split; [apply Z.div_pos|apply Z.div_lt]; lia).
  rewrite wrap_small by done. split.
  - split; [apply FixedHash.of_arith_length|apply toBigEndian_ok].
  - unfold FixedHash.of_arith. rewrite be_val_toBigEndian by lia. apply Z.mod_small. done.
Qed.

(** What evaluating gives, once the seed is known. *)
Lemma eval_ok k a h n :
  aux_ok a -> distinct k -> (k < 2048)%nat -> m_fulls a !! seed k = None ->
  exists l ret a', eval true (seed k) h n a = (Ok ret, a') /\ aux_ok a' /\
    Vapash.vapash_light_new true (Z.of_nat k * 30000) = Ok l /\ Vapash.vapash_light_compute l h n = Ok (Some ret).
Proof.
  intros Ha Hk Hb Hf. destruct (light_ok k a Ha Hk Hb) as (l & a' & El & Hl & Ha').
  assert (Z.of_nat k * 30000 / 30000 = Z.of_nat k) as Ek by (apply Z.div_mul; lia).
  destruct (Vapash.light_new_ok (Z.of_nat k * 30000) ltac:(lia) ltac:(lia)) as (l' & Hl' & Hok & Hn).
  assert (l' = l) as -> by congruence.
  destruct (Vapash.light_compute_ok (Z.of_nat k * 30000) l h n ltac:(lia) ltac:(lia) Hok Hn) as (ret & Hr & _).
  exists l, ret, a'. split; [|done]. unfold eval, mget. unfold mbind at 1. rewrite Hf. rewrite (mbind_Ok _ _ _ _ _ El).
  unfold computed, faulty, mlift, mbind. by rewrite Hr.
Qed.

(** A result of the light computation, against a boundary. *)
Lemma result_ok l h n ret : Vapash.vapash_light_compute l h n = Ok (Some ret) ->
  Vapash.result_ ret = Vapash.vapash_quick_hash h n (Vapash.mix_hash ret) /\ hash_ok 32 (Vapash.result_ ret).
Proof.
  intros H. unfold Vapash.vapash_light_compute in H. apply result_bind_Ok in H as (s & _ & H).
  assert (Vapash.result_ ret = Vapash.vapash_quick_hash h n (Vapash.mix_hash ret)) as E by by eapply Vapash.quick_hash_eq.
  split; [done|]. rewrite E. unfold Vapash.vapash_quick_hash. split; apply Sha3C.SHA3_256_sponge.
Qed.

(** A header whose seal can be read. *)
Lemma seal_readable (bi : BlockHeader) (a : VapashAux) (h n m : bytes) :
  let k := Z.to_nat (m_number bi / 30000) in
  aux_ok a -> distinct k -> m_fulls a !! seed k = None -> 0 <= m_number bi -> 2 <= m_difficulty bi ->
  fst (hash WithoutSeal bi) = Ok h -> nonce bi = Ok n -> mixHash bi = Ok m ->
  exists b a', verifySeal true bi a = (Ok b, a') /\ aux_ok a' /\
    (b = true <-> m_number bi < 2048 * 30000 /\
       exists l ret, Vapash.vapash_light_new true (m_number bi) = Ok l /\
         Vapash.vapash_light_compute l h (FixedHash.to_arith 8 n) = Ok (Some ret) /\
         Vapash.mix_hash ret = m /\ be_val (Vapash.result_ ret) <= 2 ^ 256 / m_difficulty bi).
Proof.
  cbn zeta. set (k := Z.to_nat (m_number bi / 30000)). intros Ha Hk Hf H0 Hd Hh Hn Hm.
  destruct (boundary_val bi Hd) as [[Hbl Hbo] Hb]. rewrite <- Hb.
  unfold verifySeal, quickVerifySeal. change (Vapash.VAPASH_EPOCH_LENGTH * 2048) with (2048 * 30000).
  destruct (Z.leb_spec (2048 * 30000) (m_number bi)) as [Hbig|Hsmall].
  { exists false, a. split; [done|]. split; [done|]. split; [done|]. lia. }
  rewrite Hh, Hm, Hn. cbn [inj result_bind].
  rewrite wrap_small by (unfold uint_ok; lia). destruct (seedHash_ok (m_number bi) a Ha H0) as (a1 & Es & Ha1 & _ & Hf1 & _).
  fold k in Es. assert (k < 2048)%nat as Hk' by (unfold k; assert (m_number bi / 30000 < 2048) by (apply Z.div_lt_upper_bound; lia); lia).
  rewrite <- Hf1 in Hf. destruct (eval_ok k a1 h (FixedHash.to_arith 8 n) Ha1 Hk Hk' Hf) as (l & ret & a2 & Ee & Ha2 & Hl & Hr).
  destruct (light_epoch _ _ H0 Hl) as (l' & Hl' & Hc). rewrite <- Hc in Hr. destruct (result_ok _ _ _ _ Hr) as [Hq [Hrl Hro]].
  assert (Vapash.vapash_quick_check_difficulty h (FixedHash.to_arith 8 n) (Vapash.mix_hash ret) (boundary bi)
    = (be_val (Vapash.result_ ret) <=? be_val (boundary bi))) as Ec.
  { unfold Vapash.vapash_quick_check_difficulty. rewrite <- Hq. apply Vapash.check_difficulty_le; [done|done|congruence]. }
  assert (forall b, (b = true <-> Vapash.mix_hash ret = m /\ be_val (Vapash.result_ ret) <= be_val (boundary bi)) ->
    (b = true <-> m_number bi < 2048 * 30000 /\ exists l ret, Vapash.vapash_light_new true (m_number bi) = Ok l /\
       Vapash.vapash_light_compute l h (FixedHash.to_arith 8 n) = Ok (Some ret) /\
       Vapash.mix_hash ret = m /\ be_val (Vapash.result_ ret) <= be_val (boundary bi))) as K.
  { intros b ->. split; [intros [? ?]; split; [done|]; by exists l', ret|].
    intros [_ (l2 & r2 & E1 & E2 & E3 & E4)]. assert (l2 = l') as -> by congruence. assert (r2 = ret) as -> by congruence. done. }
  destruct (Vapash.vapash_quick_check_difficulty h (FixedHash.to_arith 8 n) m (boundary bi)) eqn:Eq.
  - rewrite (mbind_Ok _ _ _ _ _ Es), Ee. eexists _, a2. split; [reflexivity|]. split; [done|]. apply K.
    rewrite FixedHash.ltb_spec by (done || congruence). rewrite andb_true_iff, bool_decide_eq_true, negb_true_iff, Z.ltb_ge. tauto.
  - exists false, a. split; [done|]. split; [done|]. apply K. split; [done|]. intros [<- Hle]. rewrite Ec in Eq. lia.
Qed.

(** C20: the caches of seeds and light datasets are invisible to the verification of
    seals.  From caches that hold what the operations store, without a full dataset for
    the epoch and with a difficulty of at least 2: a header beyond the 2048 epochs is
    refused; one whose hash, mix hash or nonce cannot be read makes the verification
    throw, with the caches as they were; every other one gets an answer, and is accepted
    exactly when the light computation made for its very number gives its mix hash and a
    result of at most 2^256 divided by the difficulty.  The caches stay as good as they
    were.  Memory must not run out, and earlier epochs must have other seeds. *)
Theorem verifySeal_spec (bi : BlockHeader) (a : VapashAux) :
  let k := Z.to_nat (m_number bi / 30000) in
  aux_ok a -> distinct k -> m_fulls a !! seed k = None -> 0 <= m_number bi -> 2 <= m_difficulty bi ->
  if 2048 * 30000 <=? m_number bi then verifySeal true bi a = (Ok false, a)
  else match fst (hash WithoutSeal bi), mixHash bi, nonce bi with
       | Ok h, Ok m, Ok n =>
           exists b a', verifySeal true bi a = (Ok b, a') /\ aux_ok a' /\
             (b = true <-> exists l ret, Vapash.vapash_light_new true (m_number bi) = Ok l /\
                Vapash.vapash_light_compute l h (FixedHash.to_arith 8 n) = Ok (Some ret) /\
                Vapash.mix_hash ret = m /\ be_val (Vapash.result_ ret) <= 2 ^ 256 / m_difficulty bi)
       | Err e, _, _ => verifySeal true bi a = (Err (SealEngine.Header e), a)
       | _, Err e, _ | _, _, Err e => verifySeal true bi a = (Err (SealEngine.Rlp e), a)
       end.
Proof.
  cbn zeta. intros Ha Hk Hf H0 Hd. destruct (Z.leb_spec (2048 * 30000) (m_number bi)) as [Hbig|Hsmall].
  { unfold verifySeal, quickVerifySeal. change (Vapash.VAPASH_EPOCH_LENGTH * 2048) with (2048 * 30000). by rewrite (proj2 (Z.leb_le _ _) Hbig). }
  destruct (fst (hash WithoutSeal bi)) as [h|e] eqn:Eh, (mixHash bi) as [m|e'] eqn:Em, (nonce bi) as [n|e''] eqn:En.
  { destruct (seal_readable bi a h n m Ha Hk Hf H0 Hd Eh En Em) as (b & a' & E & Ha' & Hb). exists b, a'. split; [done|]. split; [done|].
    rewrite Hb. split; [by intros [_ H]|done]. }
  all: unfold verifySeal, quickVerifySeal; change (Vapash.VAPASH_EPOCH_LENGTH * 2048) with (2048 * 30000);
    rewrite (proj2 (Z.leb_gt _ _) Hsmall), Eh; cbn [inj result_bind]; rewrite ?Em; cbn [inj result_bind]; rewrite ?En; done.
Qed.

(** ** Examples *)

Definition example_parent : BlockHeader :=
  assign (GasLimit 4712388) (assign (Seal [encode (Str (FixedHash.zero 32)); encode (Str (FixedHash.zero 8))])
    (example_header h256_zero h256_zero)).
Definition later (t : Z) : BlockHeader := assign (Timestamp t) (assign (Number 8) example_parent).

Lemma difficulty_antitone_witness :
  exists d d', calculateDifficulty defaults (later 1500000005) example_parent = Ok d /\
    calculateDifficulty defaults (later 1500000090) example_parent = Ok d' /\
    minimumDifficulty defaults <= d' <= d /\ d < 2 ^ 256.
Proof.
  apply (difficulty_antitone defaults (later 1500000005) (later 1500000090) example_parent);
    first [by vm_compute|split; by vm_compute|reflexivity|discriminate].
Defined.

Lemma child_accepted_witness :
  exists child, engine_populateFromParent defaults (later 1500000090) example_parent = Ok child /\
    check_child defaults child example_parent = Ok tt /\
    m_number child = 8 /\ m_parentHash child = h256_zero /\
    m_timestamp child = 1500000090 /\ m_extraData child = [1; 2].
Proof.
  apply (child_accepted defaults (later 1500000090) example_parent); first [by vm_compute|split; by vm_compute].
Defined.

Lemma example_parent_ok : hdr_ok example_parent.
Proof.
  destruct (example_header_ok h256_zero h256_zero) as [? ? ? ? ? ? ? ? ? ? ? ? ? _]; try apply zero_hash_ok.
  split; try done. split; [|done].
  constructor; [apply (one_str (FixedHash.zero 32)); [apply zero_hash_ok|done]|].
  constructor; [apply (one_str (FixedHash.zero 8)); [apply zero_hash_ok|done]|constructor].
Qed.

Lemma example_hash : fst (hash WithoutSeal example_parent) = Ok (sha3 (encode (Lst (basic_items example_parent)))).
Proof.
  unfold hash. change (FixedHash.to_bool (memo WithoutSeal example_parent)) with false. cbn iota.
  rewrite (stream_without _ example_parent_ok). reflexivity.
Qed.
Lemma verifySeal_spec_witness :
  exists h b a', verifySeal true example_parent aux_init = (Ok b, a') /\ aux_ok a' /\
    (b = true <-> exists l ret, Vapash.vapash_light_new true 7 = Ok l /\
         Vapash.vapash_light_compute l h 0 = Ok (Some ret) /\
         Vapash.mix_hash ret = FixedHash.zero 32 /\ be_val (Vapash.result_ ret) <= 2 ^ 256 / 131072).
Proof.
  exists (sha3 (encode (Lst (basic_items example_parent)))).
  pose proof (verifySeal_spec example_parent aux_init aux_init_ok) as H. rewrite example_hash in H.
  change (mixHash example_parent) with (Ok (E := exn) (FixedHash.zero 32)) in H. change (nonce example_parent) with (Ok (E := exn) (FixedHash.zero 8)) in H.
  apply H.
  - intros i j Hi. change (Z.to_nat (m_number example_parent / 30000)) with 0%nat in Hi. lia.
  - apply lookup_empty.
  - done.
  - done.
Defined.

End SealProps.
