(* ===== verification/Receipt.v ===== *)
(** * Receipt: logs, bloom filters and receipts

    - [Bloom]: the bloom operations of libdevcore/FixedHash.
    - [LogEntry]: libvapcore/LogEntry.
    - [Receipt]: libvapory/TransactionReceipt.
    - [LogFilter]: libvapory/LogFilter. *)

From stdpp Require Import base list numbers option gmap.
From Stdlib Require Import ZArith Lia.
From S2P Require Import Prelude Bytes Rlp RlpStream RlpFields Keccak.
Import CommonData RLP RLPStream RlpFields Keccak.

(** ** Blooms *)
Module Bloom.

(** [index = (index << 8) | *p] over the bytes of one part. *)
Definition bloom_index (p : bytes) (c_mask : Z) : Z :=
  Z.land (fold_left (fun index b => Z.lor (wrap 32 (Z.shiftl index 8)) b) p 0) c_mask.

(** [ret[M - 1 - index / 8] |= (1 << (index % 8))]. *)
Definition set_bit (M : nat) (index : Z) (ret : bytes) : bytes :=
  let i := (M - 1 - Z.to_nat (index / 8))%nat in
  match ret !! i with
  | Some b => <[i := wrap 8 (Z.lor b (Z.shiftl 1 (index mod 8)))]> ret
  | None => ret
  end.

(** [bloomPart<P, M>()] of a hash. *)
Fixpoint bloom_parts (P M c_bloomBytes : nat) (c_mask : Z) (p ret : bytes) : bytes :=
  match P with
  | O => ret
  | S P' =>
      bloom_parts P' M c_bloomBytes c_mask (drop c_bloomBytes p)
        (set_bit M (bloom_index (take c_bloomBytes p) c_mask) ret)
  end.
Definition bloomPart (P M : nat) (h : bytes) : bytes :=
  let c_bloomBits := 8 * Z.of_nat M in
  bloom_parts P M (Z.to_nat ((Z.log2 c_bloomBits + 7) / 8)) (c_bloomBits - 1) h (FixedHash.zero M).

Definition shiftBloom (P : nat) (b h : bytes) : bytes := FixedHash.or_eq b (bloomPart P (List.length b) h).
Definition containsBloom (P : nat) (b h : bytes) : bool := FixedHash.contains b (bloomPart P (List.length b) h).

(** *** Lemmas *)

Lemma set_bit_length M i ret : List.length (set_bit M i ret) = List.length ret.
Proof. unfold set_bit. destruct (ret !! _); [apply length_insert|done]. Qed.

Lemma bloom_parts_length P M n m p ret : List.length (bloom_parts P M n m p ret) = List.length ret.
Proof. revert p ret. induction P as [|P IH]; intros p ret; [done|]. cbn [bloom_parts]. by rewrite IH, set_bit_length. Qed.

Lemma bloomPart_length P M h : List.length (bloomPart P M h) = M.
Proof. unfold bloomPart. rewrite bloom_parts_length. apply length_replicate. Qed.

Lemma shiftBloom_length P b h : List.length (shiftBloom P b h) = List.length b.
Proof. unfold shiftBloom, FixedHash.or_eq. rewrite length_zip_with, bloomPart_length. apply Nat.min_id. Qed.

(** Set inclusion of blooms of the same length. *)
Definition within (a b : bytes) : Prop := List.length a = List.length b /\ FixedHash.contains b a = true.

Lemma contains_spec b a : List.length a = List.length b ->
  FixedHash.contains b a = true <-> forall i x y, a !! i = Some x -> b !! i = Some y -> Z.land y x = x.
Proof.
  intros Hl. unfold FixedHash.contains. rewrite bool_decide_eq_true. unfold FixedHash.and_eq. split.
  - intros E i x y Hx Hy. apply (f_equal (fun l => l !! i)) in E. rewrite lookup_zip_with, Hx, Hy in E. by injection E.
  - intros H. apply list_eq. intros i. rewrite lookup_zip_with.
    destruct (b !! i) as [y|] eqn:Ey, (a !! i) as [x|] eqn:Ex; cbn; [f_equal; eauto|done| |done].
    apply lookup_lt_Some in Ex. apply lookup_ge_None in Ey. lia.
Qed.

Lemma within_refl a : within a a.
Proof. split; [done|]. apply contains_spec; [done|]. intros i x y -> [= ->]. apply Z.land_diag. Qed.

Lemma within_trans a b c : within a b -> within b c -> within a c.
Proof.
  intros [H1 H2] [H3 H4]. split; [congruence|]. rewrite contains_spec in * by congruence.
  intros i x z Hx Hz. assert (is_Some (b !! i)) as [y Hy] by (apply lookup_lt_is_Some; apply lookup_lt_Some in Hx; lia).
  rewrite <- (H2 i x y Hx Hy), Z.land_assoc, (H4 i y z Hy Hz). reflexivity.
Qed.

Lemma within_or_l a b c : within a b -> List.length b = List.length c -> within a (FixedHash.or_eq b c).
Proof.
  intros [H1 H2] Hc. unfold FixedHash.or_eq. assert (List.length (zip_with Z.lor b c) = List.length b) as Hl
    by (rewrite length_zip_with; lia).
  split; [congruence|]. rewrite contains_spec in * by congruence.
  intros i x y Hx Hy. rewrite lookup_zip_with in Hy. destruct (b !! i) as [v|] eqn:Ev; [|done].
  destruct (c !! i) as [w|]; [|done]. cbn in Hy. injection Hy as <-.
  rewrite Z.land_lor_distr_l, (H2 i x v Hx Ev). apply Z.bits_inj'. intros n _. rewrite Z.lor_spec, Z.land_spec.
  destruct (Z.testbit x n), (Z.testbit w n); done.
Qed.

Lemma or_eq_comm a b : FixedHash.or_eq a b = FixedHash.or_eq b a.
Proof.
  unfold FixedHash.or_eq. revert b. induction a as [|x a IH]; intros [|y b]; [done..|]. cbn. by rewrite Z.lor_comm, IH.
Qed.
End Bloom.

(** ** Log entries *)
Module LogEntry.
Import Bloom.

#[local] Opaque sha3.

Record LogEntry := { address : bytes; topics : list bytes; data : bytes }.
#[export] Instance LogEntry_eq_dec : EqDecision LogEntry.
Proof. solve_decision. Defined.
Abbreviation LogEntries := (list LogEntry).
Abbreviation LogBloom := bytes.
Definition empty_bloom : LogBloom := FixedHash.zero 256.

(** [LogEntry(RLP const&)]. *)
Definition parse_entry (_r : bytes) : result exn LogEntry :=
  let! n := itemCount _r in
  if negb (n =? 3) then Err AssertFailure else
  fst ((do! i0 := item (fun e => e) _r 0 in
        do! address := conv (fun e => e) (toHash 20 i0 Strict) in
        do! i1 := item (fun e => e) _r 1 in
        do! topics := conv (fun e => e) (toVector (toHash 32) i1 LaissezFaire) in
        do! i2 := item (fun e => e) _r 2 in
        do! data := conv (fun e => e) (toBytes i2 LaissezFaire) in
        mret {| address := address; topics := topics; data := data |}) cache_init).

Definition stream_entry (l : LogEntry) : Str_M unit :=
  exec! appendList 3 in
  exec! append_hash (address l) false false in
  exec! appendVector (fun t => append_hash t false false) (topics l) in
  append (data l) false.

(** [bloom()] of an entry and of a list of entries. *)
Definition entry_bloom (l : LogEntry) : LogBloom :=
  fold_left (fun ret t => shiftBloom 3 ret (sha3 t)) (topics l) (shiftBloom 3 empty_bloom (sha3 (address l))).
Definition bloom (_logs : LogEntries) : LogBloom :=
  fold_left (fun ret l => FixedHash.or_eq ret (entry_bloom l)) _logs empty_bloom.
End LogEntry.

(** ** Receipts *)
Module Receipt.
Import LogEntry.

Inductive receipt_exn := Rlp (e : exn) | InvalidTransactionReceiptFormat | TransactionReceiptVersionError.

(** The [variant] of [m_statusCodeOrStateRoot]. *)
Inductive StatusCodeOrStateRoot := StatusCode (c : Z) | StateRoot (h : bytes).

Record TransactionReceipt := {
  m_statusCodeOrStateRoot : StatusCodeOrStateRoot;
  m_gasUsed : Z;
  m_bloom : LogBloom;
  m_log : LogEntries
}.

(** [TransactionReceipt(_root, _gasUsed, _log)] and [(_status, _gasUsed, _log)]. *)
Definition make_receipt (x : StatusCodeOrStateRoot) (_gasUsed : Z) (_log : LogEntries) : TransactionReceipt :=
  {| m_statusCodeOrStateRoot := x; m_gasUsed := _gasUsed; m_bloom := bloom _log; m_log := _log |}.

Definition hasStatusCode (r : TransactionReceipt) : bool :=
  match m_statusCodeOrStateRoot r with StatusCode _ => true | StateRoot _ => false end.
Definition statusCode (r : TransactionReceipt) : result receipt_exn Z :=
  match m_statusCodeOrStateRoot r with StatusCode c => Ok c | StateRoot _ => Err TransactionReceiptVersionError end.
Definition stateRoot (r : TransactionReceipt) : result receipt_exn bytes :=
  match m_statusCodeOrStateRoot r with StatusCode _ => Err TransactionReceiptVersionError | StateRoot h => Ok h end.

(** [TransactionReceipt(bytesConstRef)]. *)
Definition parse_receipt (_rlp : bytes) : result receipt_exn TransactionReceipt :=
  let! r := relabel Rlp (make _rlp VeryStrict) in
  let! n := (if isList r then relabel Rlp (itemCount r) else Ok 0) in
  if negb (isList r) || negb (n =? 4) then Err InvalidTransactionReceiptFormat else
  fst ((do! i0 := item Rlp r 0 in
        if negb (isData i0) then mthrow InvalidTransactionReceiptFormat else
        do! i0 := item Rlp r 0 in
        do! size := conv Rlp (size i0) in
        do! x := (if size =? 32 then
                    do! i0 := item Rlp r 0 in do! h := conv Rlp (toHash 32 i0 Strict) in mret (StateRoot h)
                  else
                    do! i0 := item Rlp r 0 in
                    do! b := conv Rlp (isInt i0) in
                    if b then
                      do! i0 := item Rlp r 0 in do! c := conv Rlp (toInt 8 i0 Strict) in mret (StatusCode c)
                    else mthrow InvalidTransactionReceiptFormat) in
        do! i1 := item Rlp r 1 in
        do! gasUsed := conv Rlp (toInt 256 i1 Strict) in
        do! i2 := item Rlp r 2 in
        do! bloom := conv Rlp (toHash 256 i2 Strict) in
        do! i3 := item Rlp r 3 in
        do! log := conv Rlp (for_each (List.length i3) i3 parse_entry) in
        mret {| m_statusCodeOrStateRoot := x; m_gasUsed := gasUsed; m_bloom := bloom; m_log := log |}) cache_init).

Definition stream_receipt (r : TransactionReceipt) : Str_M unit :=
  exec! appendList 4 in
  exec! (match m_statusCodeOrStateRoot r with
         | StatusCode c => append_bigint c
         | StateRoot h => append_hash h false false
         end) in
  exec! append_bigint (m_gasUsed r) in
  exec! append_hash (m_bloom r) false false in
  exec! appendList (zlen (m_log r)) in
  append_each stream_entry (m_log r).

Definition receipt_rlp (r : TransactionReceipt) : result stream_exn bytes :=
  match stream_receipt r empty with (Ok _, s) => out s | (Err e, _) => Err e end.

End Receipt.

(** ** Log filters *)
Module LogFilter.
Import Bloom LogEntry Receipt.

#[local] Opaque sha3.

(** [m_topics] has four sets; [elements] stands for the order of the hash sets. *)
Record LogFilter := {
  m_addresses : gset bytes;
  m_topics : list (gset bytes);
  m_earliest : bytes;
  m_latest : bytes
}.

Definition new (_earliest _latest : bytes) : LogFilter :=
  {| m_addresses := ∅; m_topics := replicate 4 ∅; m_earliest := _earliest; m_latest := _latest |}.
Definition address (_a : bytes) (f : LogFilter) : LogFilter :=
  {| m_addresses := {[_a]} ∪ m_addresses f; m_topics := m_topics f; m_earliest := m_earliest f; m_latest := m_latest f |}.
Definition topic (_index : Z) (_t : bytes) (f : LogFilter) : LogFilter :=
  if _index <? 4 then
    {| m_addresses := m_addresses f; m_topics := alter (fun t => {[_t]} ∪ t) (Z.to_nat _index) (m_topics f);
       m_earliest := m_earliest f; m_latest := m_latest f |}
  else f.
Definition withEarliest (_e : bytes) (f : LogFilter) : LogFilter :=
  {| m_addresses := m_addresses f; m_topics := m_topics f; m_earliest := _e; m_latest := m_latest f |}.
Definition withLatest (_e : bytes) (f : LogFilter) : LogFilter :=
  {| m_addresses := m_addresses f; m_topics := m_topics f; m_earliest := m_earliest f; m_latest := _e |}.

Definition stream_set (l : gset bytes) : Str_M unit := appendVector (fun t => append_hash t false false) (elements l).
Definition stream_filter (f : LogFilter) : Str_M unit :=
  exec! appendList 4 in
  exec! stream_set (m_addresses f) in
  exec! appendVector stream_set (m_topics f) in
  exec! append_hash (m_earliest f) false false in
  append_hash (m_latest f) false false.
Definition filter_sha3 (f : LogFilter) : result stream_exn bytes :=
  match stream_filter f empty with
  | (Ok _, s) => match out s with Ok b => Ok (sha3 b) | Err e => Err e end
  | (Err e, _) => Err e
  end.

(** [!size()], or [empty()]. *)
Definition none (t : gset bytes) : bool := bool_decide (t = ∅).

Definition isRangeFilter (f : LogFilter) : bool :=
  none (m_addresses f) && forallb (fun t => none t) (m_topics f).

(** [matches(LogBloom)]. *)
Definition any_in (_bloom : LogBloom) (t : gset bytes) : bool :=
  existsb (fun i => containsBloom 3 _bloom (sha3 i)) (elements t).
Definition matches_bloom (_bloom : LogBloom) (f : LogFilter) : bool :=
  (if negb (none (m_addresses f)) then any_in _bloom (m_addresses f) else true)
  && forallb (fun t => if negb (none t) then any_in _bloom t else true) (m_topics f).

(** The bloom of the elements of a set on top of [b]. *)
Definition shift_all (b : LogBloom) (t : gset bytes) : LogBloom :=
  fold_left (fun b j => shiftBloom 3 b (sha3 j)) (elements t) b.
Definition bloomPossibilities (f : LogFilter) : list LogBloom :=
  let tops := List.filter (fun t => negb (none t)) (m_topics f) in
  let addrs := elements (m_addresses f) in
  let ret := concat (map (fun i => map (fun t => shift_all (shiftBloom 3 empty_bloom (sha3 i)) t) tops) addrs) in
  let ret := match ret with [] => map (fun i => shiftBloom 3 empty_bloom (sha3 i)) addrs | _ => ret end in
  if none (m_addresses f) then ret ++ map (fun t => shift_all empty_bloom t) tops else ret.

(** The inner loop of [matches(TransactionReceipt)], from index [i] on: whether the
    entry is kept. [e.topics[i]] is read when there are at least [i] topics. *)
Fixpoint topics_match (tops : list (gset bytes)) (i : nat) (ts : list bytes) : result exn bool :=
  match tops with
  | [] => Ok true
  | t :: tops' =>
      if none t then topics_match tops' (S i) ts
      else if (List.length ts <? i)%nat then Ok false
      else match ts !! i with
           | None => Err BadRead
           | Some x => if bool_decide (x ∈ t) then topics_match tops' (S i) ts else Ok false
           end
  end.
Fixpoint matches_log (f : LogFilter) (l : LogEntries) : result exn LogEntries :=
  match l with
  | [] => Ok []
  | e :: l' =>
      let! keep := (if negb (none (m_addresses f)) && negb (bool_decide (LogEntry.address e ∈ m_addresses f)) then Ok false
                    else topics_match (m_topics f) 0 (topics e)) in
      let! r := matches_log f l' in
      Ok (if keep then e :: r else r)
  end.
Definition matches (f : LogFilter) (_m : TransactionReceipt) : result exn LogEntries :=
  if isRangeFilter f then Ok (m_log _m)
  else if matches_bloom (m_bloom _m) f then matches_log f (m_log _m) else Ok [].

(** ** What the filters find *)

Lemma shift_within P b h a : within a b -> within a (shiftBloom P b h).
Proof. intros H. unfold shiftBloom. apply within_or_l; [done|]. by rewrite bloomPart_length. Qed.
Lemma shift_part P b h : within (bloomPart P (List.length b) h) (shiftBloom P b h).
Proof.
  unfold shiftBloom. rewrite or_eq_comm. apply within_or_l; [apply within_refl|]. apply bloomPart_length.
Qed.

Lemma fold_shift_within a l : forall b, within a b ->
  within a (fold_left (fun ret t => shiftBloom 3 ret (sha3 t)) l b).
Proof. induction l as [|t l IH]; intros b Hb; [done|]. cbn [fold_left]. apply IH. by apply shift_within. Qed.

Lemma fold_shift_length l : forall b, List.length (fold_left (fun ret t => shiftBloom 3 ret (sha3 t)) l b) = List.length b.
Proof. induction l as [|t l IH]; intros b; [done|]. cbn [fold_left]. by rewrite IH, shiftBloom_length. Qed.

Lemma fold_shift_part x l : forall b, x ∈ l ->
  within (bloomPart 3 (List.length b) (sha3 x)) (fold_left (fun ret t => shiftBloom 3 ret (sha3 t)) l b).
Proof.
  induction l as [|t l IH]; intros b Hx; [by apply not_elem_of_nil in Hx|]. cbn [fold_left].
  apply elem_of_cons in Hx as [->|Hx].
  - apply fold_shift_within, shift_part.
  - rewrite <- (shiftBloom_length 3 b (sha3 t)). by apply IH.
Qed.

Lemma entry_bloom_length e : List.length (entry_bloom e) = 256%nat.
Proof. unfold entry_bloom. rewrite fold_shift_length, shiftBloom_length. apply length_replicate. Qed.

Lemma entry_bloom_part e x : x = LogEntry.address e \/ x ∈ topics e -> within (bloomPart 3 256 (sha3 x)) (entry_bloom e).
Proof.
  intros [->|Hx]; unfold entry_bloom.
  - apply fold_shift_within. apply (shift_part 3 empty_bloom).
  - pose proof (fold_shift_part x (topics e) (shiftBloom 3 empty_bloom (sha3 (LogEntry.address e))) Hx) as H.
    by rewrite shiftBloom_length in H.
Qed.

Lemma bloom_fold_length l : forall b, List.length b = 256%nat ->
  List.length (fold_left (fun ret e => FixedHash.or_eq ret (entry_bloom e)) l b) = 256%nat.
Proof.
  induction l as [|e l IH]; intros b Hb; [done|]. cbn [fold_left]. apply IH. unfold FixedHash.or_eq.
  rewrite length_zip_with, entry_bloom_length. lia.
Qed.
Lemma bloom_length l : List.length (bloom l) = 256%nat.
Proof. by apply bloom_fold_length. Qed.

Lemma bloom_fold_within a l : forall b, List.length b = 256%nat -> within a b \/ Exists (fun e => within a (entry_bloom e)) l ->
  within a (fold_left (fun ret e => FixedHash.or_eq ret (entry_bloom e)) l b).
Proof.
  induction l as [|e l IH]; intros b Hb H; cbn [fold_left]; [destruct H as [H|H]; [done|by inversion H]|].
  pose proof (entry_bloom_length e) as He. apply IH.
  - unfold FixedHash.or_eq. rewrite length_zip_with. lia.
  - destruct H as [H|H]; [left; apply within_or_l; [done|lia]|]. inversion H; subst; [left|by right].
    rewrite or_eq_comm. apply within_or_l; [done|lia].
Qed.

Lemma bloom_contains l e x : e ∈ l -> x = LogEntry.address e \/ x ∈ topics e -> containsBloom 3 (bloom l) (sha3 x) = true.
Proof.
  intros He Hx. unfold containsBloom. rewrite bloom_length. apply bloom_fold_within; [done|]. right.
  apply Exists_exists. exists e. split; [done|]. by apply entry_bloom_part.
Qed.

(** What a filter asks of an entry. *)
Fixpoint wanted_topics (tops : list (gset bytes)) (i : nat) (ts : list bytes) : bool :=
  match tops with
  | [] => true
  | t :: tops' =>
      (none t || match ts !! i with Some x => bool_decide (x ∈ t) | None => false end) && wanted_topics tops' (S i) ts
  end.
Definition wanted (f : LogFilter) (e : LogEntry) : bool :=
  (none (m_addresses f) || bool_decide (LogEntry.address e ∈ m_addresses f)) && wanted_topics (m_topics f) 0 (topics e).

(** An entry that the filter reads past its topics: it passes the tests before a position
    with topics to look for, and has just as many topics as come before that position. *)
Fixpoint read_past (tops : list (gset bytes)) (i : nat) (ts : list bytes) : bool :=
  match tops with
  | [] => false
  | t :: tops' =>
      if none t then read_past tops' (S i) ts
      else match ts !! i with
           | Some x => bool_decide (x ∈ t) && read_past tops' (S i) ts
           | None => Nat.eqb (List.length ts) i
           end
  end.
Definition strays (f : LogFilter) (e : LogEntry) : bool :=
  (none (m_addresses f) || bool_decide (LogEntry.address e ∈ m_addresses f)) && read_past (m_topics f) 0 (topics e).

Lemma topics_match_spec tops : forall i ts,
  topics_match tops i ts = if read_past tops i ts then Err BadRead else Ok (wanted_topics tops i ts).
Proof.
  induction tops as [|t tops IH]; intros i ts; [done|]. cbn [topics_match wanted_topics read_past].
  destruct (none t); cbn [orb andb]; [by rewrite IH|]. destruct (ts !! i) as [x|] eqn:Ex.
  - pose proof (lookup_lt_Some _ _ _ Ex). destruct (Nat.ltb_spec (List.length ts) i); [lia|]. case_bool_decide; cbn [andb]; [by rewrite IH|done].
  - apply lookup_ge_None in Ex. destruct (Nat.ltb_spec (List.length ts) i), (Nat.eqb_spec (List.length ts) i); (done || lia).
Qed.

Lemma matches_log_spec f l : matches_log f l = if existsb (strays f) l then Err BadRead else Ok (List.filter (wanted f) l).
Proof.
  induction l as [|e l IH]; [done|]. cbn [matches_log List.filter existsb]. unfold wanted at 1, strays at 1. rewrite topics_match_spec, IH.
  destruct (none (m_addresses f)), (bool_decide (LogEntry.address e ∈ m_addresses f)), (read_past _ _ _), (existsb (strays f) l), (wanted_topics _ _ _); done.
Qed.

Lemma any_in_intro l e x t : e ∈ l -> x = LogEntry.address e \/ x ∈ topics e -> x ∈ t -> any_in (bloom l) t = true.
Proof.
  intros He Hx Ht. unfold any_in. apply existsb_exists. exists x. split; [|by eapply bloom_contains].
  apply list_elem_of_In. by apply elem_of_elements.
Qed.

Lemma wanted_bloom f l e : e ∈ l -> wanted f e = true -> matches_bloom (bloom l) f = true.
Proof.
  intros He Hw. unfold wanted in Hw. apply andb_true_iff in Hw as [Ha Ht]. unfold matches_bloom. apply andb_true_iff. split.
  - destruct (none (m_addresses f)); [done|]. cbn [orb negb] in *. apply bool_decide_eq_true in Ha. eapply any_in_intro; eauto.
  - revert Ht. generalize 0%nat as i. induction (m_topics f) as [|t tops IH]; intros i Ht; [done|].
    cbn [wanted_topics forallb] in *. apply andb_true_iff in Ht as [H1 H2]. rewrite (IH _ H2), andb_true_r.
    destruct (none t); [done|]. cbn [orb negb] in *. destruct (topics e !! i) as [x|] eqn:Ex; [|done].
    apply bool_decide_eq_true in H1. eapply any_in_intro; [done|right; by eapply list_elem_of_lookup_2|done].
Qed.

(** C33: what a log filter returns for any receipt made from its logs: exactly the entries
    that have one of its addresses and, at each position with topics to look for, one of
    them; the bloom test in front never hides an entry.  The exception, for a receipt
    that passes the bloom test, is an entry that is read past its topics: one that passes
    the tests before such a position and has just as many topics as come before it. *)
Theorem filter_exact (f : LogFilter) (x : StatusCodeOrStateRoot) (g : Z) (l : LogEntries) :
  matches f (make_receipt x g l) =
  if matches_bloom (bloom l) f && existsb (strays f) l then Err BadRead else Ok (List.filter (wanted f) l).
Proof.
  unfold matches, make_receipt. cbn [m_log m_bloom]. destruct (isRangeFilter f) eqn:Ef.
  - unfold isRangeFilter in Ef. apply andb_true_iff in Ef as [E1 E2].
    assert (forall e, wanted f e = true /\ strays f e = false) as Hw.
    { intros e. unfold wanted, strays. rewrite E1. cbn [orb andb]. revert E2. generalize 0%nat as i.
      induction (m_topics f) as [|t tops IH]; intros i E2; [done|]. cbn [forallb wanted_topics read_past] in *.
      apply andb_true_iff in E2 as [-> E2]. cbn [orb andb]. by apply IH. }
    assert (existsb (strays f) l = false /\ List.filter (wanted f) l = l) as [-> ->]; [|by rewrite andb_false_r].
    induction l as [|e l IH]; [done|]. cbn [List.filter existsb]. destruct (Hw e) as [-> ->], IH as [-> ->]. done.
  - destruct (matches_bloom (bloom l) f) eqn:Eb; [apply matches_log_spec|]. cbn [andb].
    f_equal. symmetry. destruct (List.filter (wanted f) l) as [|e r] eqn:El; [done|].
    assert (In e (List.filter (wanted f) l)) as Hin by (rewrite El; by left).
    apply filter_In in Hin as [Hin Hw]. apply list_elem_of_In in Hin. by rewrite (wanted_bloom f l e Hin Hw) in Eb.
Qed.

Lemma filter_exact_witness :
  let f := topic 0 [1] (new [] []) in
  let e := {| LogEntry.address := []; topics := [[1]; [2]]; data := [] |} in
  let e' := {| LogEntry.address := []; topics := [[2]]; data := [] |} in
  matches f (make_receipt (StatusCode 1) 0 [e; e']) = Ok [e].
Proof. intros f e e'. rewrite (filter_exact f (StatusCode 1) 0 [e; e']). vm_compute. reflexivity. Defined.

(** The guard of the topic loop is off by one: for a filter with topics at
    position [i], an entry with exactly [i] topics that passes the other tests is
    read past the end of its topics. *)
Theorem filter_reads_past_end (f : LogFilter) (e : LogEntry) (i : nat) (t : gset bytes) :
  m_topics f = replicate i ∅ ++ [t] ++ replicate (3 - i) ∅ -> t <> ∅ -> m_addresses f = ∅ ->
  List.length (topics e) = i -> matches_log f [e] = Err BadRead.
Proof.
  intros Ht Hne Ha Hl. cbn [matches_log]. unfold none. rewrite Ha, Ht. cbn [negb andb].
  assert (forall k j, (j + k = i)%nat ->
    topics_match (replicate k ∅ ++ [t] ++ replicate (3 - i) ∅) j (topics e) = Err BadRead) as ->; [|done|done].
  induction k as [|k IH]; intros j Hj; cbn [replicate app topics_match]; unfold none at 1.
  - rewrite bool_decide_false by done. destruct (Nat.ltb_spec (List.length (topics e)) j); [lia|].
    by rewrite lookup_ge_None_2 by lia.
  - rewrite bool_decide_true by done. apply IH. lia.
Qed.

Lemma filter_reads_past_end_witness :
  matches_log (topic 1 [1] (new [] [])) [{| LogEntry.address := []; topics := [[3]]; data := [] |}] = Err BadRead.
Proof.
  apply (filter_reads_past_end _ _ 1 {[[1]]}); done.
Defined.

(** The blooms that are looked up in the chain miss blocks: for two alternative
    topics at a position, [bloomPossibilities] gives one bloom with the bits of
    both, which the bloom of an entry with only one of them does not contain. *)
Theorem possibilities_miss :
  let f := topic 0 [1] (topic 0 [2] (new (FixedHash.zero 32) (FixedHash.zero 32))) in
  let e := {| LogEntry.address := FixedHash.zero 20; topics := [[1]]; data := [] |} in
  wanted f e = true /\ forallb (fun b => negb (FixedHash.contains (bloom [e]) b)) (bloomPossibilities f) = true.
Proof. vm_compute. done. Qed.

End LogFilter.

(** ** Receipts read back *)
Module ReceiptProps.
Import LogEntry Receipt.

(** *** What is written *)

Definition entry_script (e : LogEntry) : script :=
  SList [SHash (address e) false false; SList (map (fun t => SHash t false false) (topics e)); SBytes (data e) false].
Definition status_script (x : StatusCodeOrStateRoot) : script :=
  match x with StatusCode c => SInt c | StateRoot h => SHash h false false end.
Definition receipt_script (r : TransactionReceipt) : script :=
  SList [status_script (m_statusCodeOrStateRoot r); SInt (m_gasUsed r); SHash (m_bloom r) false false;
         SList (map entry_script (m_log r))].

Definition entry_item (e : LogEntry) : Item := Lst [Str (address e); Lst (map Str (topics e)); Str (data e)].
Definition status_item (x : StatusCodeOrStateRoot) : Item :=
  match x with StatusCode c => int_item c | StateRoot h => Str h end.
Definition receipt_item (r : TransactionReceipt) : Item :=
  Lst [status_item (m_statusCodeOrStateRoot r); int_item (m_gasUsed r); Str (m_bloom r); Lst (map entry_item (m_log r))].

Lemma concat_singles {A B} (f : A -> list B) (g : A -> B) l : (forall a, f a = [g a]) -> concat (map f l) = map g l.
Proof. intros H. induction l as [|a l IH]; [done|]. cbn [map concat]. by rewrite H, IH. Qed.

Lemma entry_script_items e : items_of (entry_script e) = [entry_item e].
Proof.
  cbn [entry_script items_of map concat app andb]. unfold entry_item. rewrite map_map. by rewrite (concat_singles _ Str).
Qed.
Lemma receipt_script_items r : items_of (receipt_script r) = [receipt_item r].
Proof.
  cbn [receipt_script items_of map concat andb]. rewrite map_map.
  rewrite (concat_singles (fun e => items_of (entry_script e)) entry_item) by apply entry_script_items.
  unfold receipt_item, status_script, status_item. by destruct (m_statusCodeOrStateRoot r).
Qed.

Lemma append_each_ext {A} (f g : A -> Str_M unit) l : (forall a s, f a s = g a s) -> forall s, append_each f l s = append_each g l s.
Proof.
  intros H. induction l as [|a l IH]; intros s; [done|]. cbn [append_each]. unfold mbind. rewrite H.
  destruct (g a s) as [[]]; [apply IH|done].
Qed.
Lemma append_each_map {A B} (g : A -> B) (f : B -> Str_M unit) l s : append_each f (map g l) s = append_each (fun a => f (g a)) l s.
Proof. revert s. induction l as [|a l IH]; intros s; [done|]. cbn. unfold mbind. destruct (f (g a) s) as [[]]; [apply IH|done]. Qed.
Lemma bind_tt (m : Str_M unit) s : mbind m (fun _ => mret tt) s = m s.
Proof. unfold mbind. by destruct (m s) as [[[]|]]. Qed.
Lemma mbind_ext {A B} (m n : Str_M A) (f g : A -> Str_M B) : (forall s, m s = n s) -> (forall a s, f a s = g a s) ->
  forall s, mbind m f s = mbind n g s.
Proof. intros Hm Hf s. unfold mbind. rewrite Hm. destruct (n s) as [[]]; [apply Hf|done]. Qed.

Lemma stream_entry_run e s : stream_entry e s = run (entry_script e) s.
Proof.
  unfold entry_script. rewrite run_SList. cbn [append_each map items_of concat app List.length].
  unfold stream_entry. apply mbind_ext; [done|]. intros _. apply mbind_ext; [done|]. intros _. apply mbind_ext.
  - intros s1. unfold appendVector. rewrite run_SList, map_map, (concat_singles _ Str) by done. rewrite length_map.
    apply mbind_ext; [done|]. intros _ s2. symmetry. by apply append_each_map.
  - intros _ s1. symmetry. apply bind_tt.
Qed.

Lemma stream_receipt_run r s : stream_receipt r s = run (receipt_script r) s.
Proof.
  assert (items_of (status_script (m_statusCodeOrStateRoot r)) = [status_item (m_statusCodeOrStateRoot r)]) as E
    by (by destruct (m_statusCodeOrStateRoot r)).
  unfold receipt_script. rewrite run_SList. cbn [append_each map items_of concat app List.length]. rewrite E.
  unfold stream_receipt. apply mbind_ext; [done|]. intros _. apply mbind_ext; [by destruct (m_statusCodeOrStateRoot r)|].
  intros _. apply mbind_ext; [done|]. intros _. apply mbind_ext; [done|]. intros _ s1. rewrite bind_tt.
  rewrite run_SList, map_map, (concat_singles (fun e => items_of (entry_script e)) entry_item) by apply entry_script_items.
  rewrite length_map. apply mbind_ext; [done|]. intros _ s2. rewrite append_each_map. apply append_each_ext, stream_entry_run.
Qed.

(** *** What is read *)

(** Members of their types, with data that can be written. *)
Record entry_ok (e : LogEntry) : Prop := {
  ok_address : List.length (address e) = 20%nat;
  ok_topics : Forall (fun t => List.length t = 32%nat) (topics e)
}.
Record receipt_ok (r : TransactionReceipt) : Prop := {
  ok_status : match m_statusCodeOrStateRoot r with StatusCode c => uint_ok 8 c | StateRoot h => List.length h = 32%nat end;
  ok_gas : uint_ok 256 (m_gasUsed r);
  ok_bloom : List.length (m_bloom r) = 256%nat;
  ok_log : Forall entry_ok (m_log r);
  ok_size : encodable (receipt_item r)
}.

Lemma toHash_full N s fl : encodable (Str s) -> List.length s = N -> toHash N (encode (Str s)) fl = Ok s.
Proof.
  intros Hs <-. unfold toHash. rewrite requireGood_encode, encode_payload, encode_isData by done.
  cbn [result_bind content is_lst negb orb]. rewrite Z.ltb_irrefl. cbn [andb orb].
  by rewrite Nat.min_id, take_ge, Nat.sub_diag by lia.
Qed.

Lemma collect_map {A B} (f : bytes -> result exn B) (g : A -> Item) (h : A -> B) l :
  Forall (fun a => f (encode (g a)) = Ok (h a)) l -> collect f (map g l) = Ok (map h l).
Proof. induction 1 as [|a l Ha _ IH]; [done|]. cbn [map collect]. rewrite Ha, IH. done. Qed.

Lemma parse_entry_encode e : entry_ok e -> encodable (entry_item e) -> parse_entry (encode (entry_item e)) = Ok e.
Proof.
  intros [Ha Ht] He. unfold parse_entry, entry_item in *. rewrite itemCount_encode by done. cbn [result_bind List.length].
  change (negb (Z.of_nat 3 =? 3)) with false. cbn iota.
  destruct (encodable_Lst _ He) as [HF _]. inversion HF as [|? ? H0 HF1]; subst. inversion HF1 as [|? ? H1 HF2]; subst.
  inversion HF2 as [|? ? H2 _]; subst. destruct (encodable_Lst _ H1) as [HT _].
  match goal with |- fst (?m _) = _ => eapply (reads_fresh _ m (fun r => r = Ok e)) end.
  pose proof (has_items_encode _ He) as Hd.
  eapply reads_field; [done|lia|reflexivity|by apply toHash_full|].
  eapply reads_field; [done|lia|reflexivity| |].
  { change (seg_at _ (Z.to_nat 1)) with (encode (Lst (map Str (topics e)))). unfold toVector. rewrite encode_isList, itemCount_encode, for_each_encode by done. cbn [is_lst result_bind].
    apply (collect_map _ Str (fun t => t)). rewrite List.Forall_map in HT.
    apply Forall_lookup. intros i t Hi. apply toHash_full; [by apply (Forall_lookup_1 _ _ _ _ HT Hi)|by apply (Forall_lookup_1 _ _ _ _ Ht Hi)]. }
  rewrite map_id. eapply reads_field; [done|lia|reflexivity|by apply toBytes_encode|].
  apply reads_lift. by destruct e.
Qed.

Lemma status_encodable r : receipt_ok r -> encodable (status_item (m_statusCodeOrStateRoot r)) /\ encodable (int_item (m_gasUsed r)) /\
  encodable (Str (m_bloom r)) /\ encodable (Lst (map entry_item (m_log r))).
Proof.
  intros H. destruct (encodable_Lst _ (ok_size r H)) as [HF _]. inversion HF as [|? ? H0 HF1]; subst.
  inversion HF1 as [|? ? H1 HF2]; subst. inversion HF2 as [|? ? H2 HF3]; subst. by inversion HF3.
Qed.

Lemma parse_receipt_encode r : receipt_ok r -> parse_receipt (encode (receipt_item r)) = Ok r.
Proof.
  intros H. destruct (status_encodable r H) as (H0 & H1 & H2 & H3). destruct H as [Hs Hg Hb Hl Hr].
  unfold parse_receipt, relabel. rewrite encode_make by done. cbn [result_bind]. unfold receipt_item in *.
  rewrite encode_isList, itemCount_encode by done. cbn [is_lst result_bind List.length negb orb].
  change (negb (Z.of_nat 4 =? 4)) with false. cbn iota.
  match goal with |- fst (?m _) = _ => eapply (reads_fresh _ m (fun x => x = Ok r)) end.
  pose proof (has_items_encode _ Hr) as Hd. eapply reads_item; [done|lia|].
  change (seg_at _ (Z.to_nat 0)) with (encode (status_item (m_statusCodeOrStateRoot r))).
  assert (is_lst (status_item (m_statusCodeOrStateRoot r)) = false) as Hn by (by destruct (m_statusCodeOrStateRoot r)).
  rewrite encode_isData by done. rewrite Hn. cbn [negb].
  eapply reads_field; [done|lia|reflexivity| |].
  { change (seg_at _ (Z.to_nat 0)) with (encode (status_item (m_statusCodeOrStateRoot r))). unfold size. rewrite encode_isData, encode_length, Hn by done. reflexivity. }
  apply reads_bind. apply (reads_mono _ _ (fun x => x = Ok (m_statusCodeOrStateRoot r))).
  { destruct (m_statusCodeOrStateRoot r) as [c|h]; cbn [status_item content] in *.
    - assert (zlen (toCompactBigEndian c 0) <= 1).
      { rewrite toCompactBigEndian_length by (unfold uint_ok in Hs; lia).
        apply (bytesRequired_le c 1); [change (256 ^ 1) with (2 ^ 8); unfold uint_ok in Hs; lia|lia]. }
      destruct (Z.eqb_spec (zlen (toCompactBigEndian c 0)) 32); [lia|].
      eapply reads_field; [done|lia|reflexivity|by apply isInt_encode|].
      assert (canonical_int (toCompactBigEndian c 0) = true) as Hc.
      { assert (0 <= c < 256) as Hc by exact Hs. revert Hc. clear.
        intros Hc. apply (Z_forall_below (fun c => canonical_int (toCompactBigEndian c 0)) 256); [by vm_compute|lia]. }
      rewrite Hc. eapply reads_field; [done|lia|reflexivity|by apply toInt_item|]. by apply reads_lift.
    - rewrite Hs. change (Z.of_nat 32 =? 32) with true. cbn iota.
      eapply reads_field; [done|lia|reflexivity|by apply toHash_full|]. by apply reads_lift. }
  intros x ->. eapply reads_field; [done|lia|reflexivity|by apply toInt_item|].
  eapply reads_field; [done|lia|reflexivity|by apply toHash_full|].
  eapply reads_field; [done|lia|reflexivity| |].
  { change (seg_at _ (Z.to_nat 3)) with (encode (Lst (map entry_item (m_log r)))). rewrite for_each_encode by done.
    apply (collect_map _ entry_item (fun e => e)). destruct (encodable_Lst _ H3) as [HE _]. rewrite List.Forall_map in HE.
    apply Forall_lookup. intros i e Hi. apply parse_entry_encode; [by apply (Forall_lookup_1 _ _ _ _ Hl Hi)|by apply (Forall_lookup_1 _ _ _ _ HE Hi)]. }
  rewrite map_id. apply reads_lift. by destruct r.
Qed.

(** Receipts round-trip: writing a receipt gives the encoding of its four fields
    (the status code or the state root, the gas, the bloom and the logs), and the
    parser reads the same receipt back from it, whichever of the two forms the
    first field has. *)
Theorem receipt_roundtrip (r : TransactionReceipt) :
  receipt_ok r -> exists b, receipt_rlp r = Ok b /\ b = encode (receipt_item r) /\ parse_receipt b = Ok r.
Proof.
  intros H. exists (encode (receipt_item r)). split; [|split; [done|by apply parse_receipt_encode]].
  unfold receipt_rlp. rewrite stream_receipt_run, run_spec.
  - rewrite receipt_script_items. cbn [map concat]. rewrite app_nil_r. done.
  - unfold receipt_script. apply script_ok_SList. destruct (status_encodable r H) as (H0 & _ & _ & H3). destruct H as [Hs Hg Hb Hl _].
    assert (forall w v, uint_ok w v -> 0 <= w <= 256 -> script_ok (SInt v)) as Hi.
    { intros w v [Hv Hw] Hr. split; [done|]. assert (2 ^ w <= 2 ^ 256) by (apply Z.pow_le_mono_r; lia).
      pose proof (bytesRequired_le v 32 ltac:(change (256 ^ 32) with (2 ^ 256); lia) ltac:(lia)). lia. }
    repeat constructor.
    + destruct (m_statusCodeOrStateRoot r); cbn [status_script script_ok]; [by apply (Hi 8)|lia].
    + by apply (Hi 256).
    + by apply (Hi 256).
    + cbn [script_ok]. lia.
    + apply script_ok_SList. apply List.Forall_map. destruct (encodable_Lst _ H3) as [HE _]. rewrite List.Forall_map in HE.
      apply Forall_lookup. intros i e Hi'. pose proof (Forall_lookup_1 _ _ _ _ Hl Hi') as [Ha Ht].
      pose proof (Forall_lookup_1 _ _ _ _ HE Hi') as He. apply encodable_Lst in He as [He _].
      inversion He as [|? ? _ He1]; subst. inversion He1 as [|? ? _ He2]; subst. inversion He2 as [|? ? Hdat _]; subst.
      unfold entry_script. apply script_ok_SList. repeat constructor; cbn [script_ok].
      * lia.
      * apply script_ok_SList. apply List.Forall_map. eapply List.Forall_impl; [|exact Ht]. intros t Hlt. cbn [script_ok]. cbv beta in Hlt. rewrite Hlt. done.
      * by apply encodable_Str_length.
  - rewrite receipt_script_items. constructor; [by apply ok_size|constructor].
Qed.

Definition example_entry : LogEntry := {| address := replicate 20 7; topics := [replicate 32 1; replicate 32 2]; data := [1; 2; 3] |}.

Lemma receipt_roundtrip_witness :
  let r := make_receipt (StatusCode 1) 21000 [example_entry] in
  exists b, receipt_rlp r = Ok b /\ b = encode (receipt_item r) /\ parse_receipt b = Ok r.
Proof.
  intros r. apply (receipt_roundtrip r). split.
  - unfold uint_ok. cbn. lia.
  - unfold uint_ok. cbn. lia.
  - vm_compute. reflexivity.
  - repeat constructor.
  - split; [|vm_compute; reflexivity]. apply item_ok_Lst.
    assert (forall bs, forallb (fun b => (0 <=? b) && (b <? 256)) bs = true -> item_ok (Str bs)) as H.
    { intros bs Hb. cbn [item_ok]. apply List.Forall_forall. intros b Hin. rewrite forallb_forall in Hb.
      specialize (Hb b Hin). unfold is_byte. lia. }
    apply List.Forall_forall. intros t [<-|[<-|[<-|[<-|[]]]]].
    + apply (H (toCompactBigEndian 1 0)). vm_compute. reflexivity.
    + apply H. vm_compute. reflexivity.
    + apply (H (bloom [example_entry])). vm_compute. reflexivity.
    + apply item_ok_Lst, List.Forall_cons; [|apply List.Forall_nil].
      apply item_ok_Lst, List.Forall_cons; [by apply H|].
      apply List.Forall_cons; [|apply List.Forall_cons; [by apply H|apply List.Forall_nil]].
      apply item_ok_Lst, List.Forall_cons; [by apply H|apply List.Forall_cons; [by apply H|apply List.Forall_nil]].
Defined.

End ReceiptProps.
