(* ===== verification/Precompiled.v ===== *)
(** * Precompiled: the precompiled contracts (libvapcore/Precompiled)

    [PrecompiledContract] of libvapcore/ChainOperationParams, and the contracts
    [ecrecover], [identity] and [modexp].  The others only call hash functions and
    the library libff, which are not modelled here.  A [bigint] is an unbounded
    integer; [powm] is the one of Boost.Multiprecision.  A failed assertion is
    [AssertFailure]. *)

From stdpp Require Import base list numbers option.
From Stdlib Require Import ZArith Lia.
From S2P Require Import Prelude Bytes Rlp Keccak Crypto Transaction.
Import VectorRef CommonData RLP Keccak Crypto.

Module Precompiled.

#[local] Opaque sha3.

Record PrecompiledContract := {
  cost : bytes -> result exn Z;
  execute : bytes -> result exn (bool * bytes);
  startingBlock : Z
}.

(** [PrecompiledContract(_base, _word, _exec, _startingBlock)]. *)
Definition linear (_base _word : Z) (_exec : bytes -> result exn (bool * bytes)) (_startingBlock : Z) : PrecompiledContract :=
  {| cost _in := Ok (_base + (zlen _in + 31) / 32 * _word); execute := _exec; startingBlock := _startingBlock |}.

(** [memcpy] into a struct of four zero hashes. *)
Definition read_struct (_in : bytes) : bytes := take 128 (_in ++ replicate 128 0).

Definition ecrecover {L : Secp256k1} (_in : bytes) : result exn (bool * bytes) :=
  let d := read_struct _in in
  let hash := take 32 d in
  let v := FixedHash.to_arith 32 (take 32 (drop 32 d)) in
  if (27 <=? v) && (v <=? 28) then
    let sig := {| r := take 32 (drop 64 d); s := take 32 (drop 96 d); v := wrap 8 (v - 27) |} in
    if isValid sig then
      let rec := recover sig hash in
      if FixedHash.to_bool rec then Ok (true, replicate 12 0 ++ drop 12 (sha3 rec)) else Ok (true, [])
    else Ok (true, [])
  else Ok (true, []).

Definition identity (_in : bytes) : result exn (bool * bytes) := Ok (true, _in).

Definition max_count : Z := (2 ^ 64 - 1) / 8.

Definition parseBigEndianRightPadded (_in : bytes) (_begin _count : Z) : result exn Z :=
  if _begin >? zlen _in then Ok 0 else
  if _count >? max_count then Err AssertFailure else
  let cropped := cropped _in _begin (Z.min _count (zlen _in - _begin)) in
  let ret := fromBigEndian_bigint cropped in
  if _count - zlen cropped >? max_count then Err AssertFailure else
  Ok (Z.shiftl ret (8 * (_count - zlen cropped))).

Definition powm (b e m : Z) : Z := b ^ e mod m.

Definition modexp (_in : bytes) : result exn (bool * bytes) :=
  let! baseLength := parseBigEndianRightPadded _in 0 32 in
  let! expLength := parseBigEndianRightPadded _in 32 32 in
  let! modLength := parseBigEndianRightPadded _in 64 32 in
  if modLength >? max_count then Err AssertFailure else
  if baseLength >? max_count then Err AssertFailure else
  if (modLength =? 0) && (baseLength =? 0) then Ok (true, []) else
  if expLength >? max_count then Err AssertFailure else
  let! base := parseBigEndianRightPadded _in 96 baseLength in
  let! exp := parseBigEndianRightPadded _in (96 + baseLength) expLength in
  let! mod_ := parseBigEndianRightPadded _in (96 + baseLength + expLength) modLength in
  let result := if negb (mod_ =? 0) then powm base exp mod_ else 0 in
  Ok (true, toBigEndian (Z.to_nat modLength) result).

(** [msb] is the index of the highest bit. *)
Definition expLengthAdjust (_expOffset _expLength : Z) (_in : bytes) : result exn Z :=
  if _expLength <=? 32 then
    let! exp := parseBigEndianRightPadded _in _expOffset _expLength in
    Ok (if negb (exp =? 0) then Z.log2 exp else 0)
  else
    let! expFirstWord := parseBigEndianRightPadded _in _expOffset 32 in
    let highestBit := if negb (expFirstWord =? 0) then Z.log2 expFirstWord else 0 in
    Ok (8 * (_expLength - 32) + highestBit).

Definition multComplexity (_x : Z) : Z :=
  if _x <=? 64 then _x * _x
  else if _x <=? 1024 then (_x * _x) / 4 + 96 * _x - 3072
  else (_x * _x) / 16 + 480 * _x - 199680.

Definition modexp_price (_in : bytes) : result exn Z :=
  let! baseLength := parseBigEndianRightPadded _in 0 32 in
  let! expLength := parseBigEndianRightPadded _in 32 32 in
  let! modLength := parseBigEndianRightPadded _in 64 32 in
  let maxLength := Z.max modLength baseLength in
  let! adjustedExpLength := expLengthAdjust (baseLength + 96) expLength _in in
  Ok (multComplexity maxLength * Z.max adjustedExpLength 1 / 20).

(** ** Properties *)

Lemma max_count_val : max_count = 2305843009213693951.
Proof. reflexivity. Qed.

(** The number in the [n] bytes of the input from [i] on, the input being followed
    by zeros without end. *)
Definition padded (_in : bytes) (i n : Z) : Z := be_val (ztake n (zdrop i _in ++ replicate (Z.to_nat n) 0)).

Lemma parse_padded _in i n : bytes_ok _in -> 0 <= i -> 0 <= n <= max_count -> zlen _in < npos ->
  parseBigEndianRightPadded _in i n = Ok (padded _in i n).
Proof.
  intros Hb Hi Hn Hl. unfold parseBigEndianRightPadded, padded. unfold max_count in *.
  destruct (Z.gtb_spec i (zlen _in)) as [Hgt|Hle].
  - rewrite zdrop_all by lia. cbn [app]. f_equal. unfold ztake. rewrite take_replicate. by rewrite be_val_zeros.
  - destruct (Z.gtb_spec n ((2 ^ 64 - 1) / 8)); [lia|].
    set (k := Z.min n (zlen _in - i)). assert (cropped _in i k = ztake k (zdrop i _in)) as ->.
    { unfold cropped. replace (k =? npos) with false by (unfold k; lia).
      replace ((i <=? zlen _in) && (k <=? zlen _in) && (i + k <=? zlen _in)) with true; [done|]. unfold k. lia. }
    pose proof (zlen_zdrop i _in ltac:(lia)) as Hd.
    assert (zlen (ztake k (zdrop i _in)) = k) as Hk by (apply zlen_ztake; unfold k; lia).
    rewrite Hk. destruct (Z.gtb_spec (n - k) ((2 ^ 64 - 1) / 8)); [unfold k in *; lia|]. f_equal.
    rewrite fromBigEndian_bigint_spec by auto with vlib. rewrite Z.shiftl_mul_pow2 by (unfold k; lia).
    assert (ztake n (zdrop i _in ++ replicate (Z.to_nat n) 0) = ztake k (zdrop i _in) ++ replicate (Z.to_nat (n - k)) 0) as ->.
    { unfold ztake. rewrite take_app. rewrite take_replicate. unfold k.
      destruct (Z.min_spec n (zlen _in - i)) as [[H1 ->]|[H1 ->]].
      - f_equal. f_equal. lia.
      - rewrite !take_ge by lia. do 2 f_equal. lia. }
    rewrite be_val_app, be_val_zeros, length_replicate, Z2Nat.id by (unfold k; lia).
    rewrite Z.pow_mul_r by (unfold k; lia). change (2 ^ 8) with 256. lia.
Qed.

Lemma padded_range _in i n : bytes_ok _in -> 0 <= n -> 0 <= padded _in i n < 256 ^ n.
Proof.
  intros Hb Hn. unfold padded. assert (bytes_ok (ztake n (zdrop i _in ++ replicate (Z.to_nat n) 0))) as H.
  { apply bytes_ok_ztake, bytes_ok_app. split; [by apply bytes_ok_zdrop|apply Forall_replicate; unfold is_byte; lia]. }
  apply be_val_range in H. rewrite zlen_ztake in H; [done|]. rewrite zlen_app, length_replicate. lia.
Qed.

Lemma multComplexity_pos x : 0 <= x -> 0 <= multComplexity x /\ (1 <= x -> 1 <= multComplexity x) /\
  (max_count < x -> 2 ^ 100 < multComplexity x).
Proof.
  intros Hx. unfold multComplexity. rewrite max_count_val.
  destruct (Z.leb_spec x 64); [split; [nia|]; split; [nia|lia]|].
  destruct (Z.leb_spec x 1024).
  - pose proof (Z.div_pos (x * x) 4 ltac:(nia) ltac:(lia)). split; [lia|]. split; lia.
  - pose proof (Z.div_pos (x * x) 16 ltac:(nia) ltac:(lia)). split; [lia|]. split; [lia|].
    intros Hbig. assert (2 ^ 105 <= x * x) as H2.
    { change (2 ^ 105) with (2 ^ 52 * 2 ^ 53). change (2 ^ 52) with 4503599627370496. change (2 ^ 53) with 9007199254740992. apply Z.mul_le_mono_nonneg; lia. }
    apply (Z.div_le_mono _ _ 16) in H2; [|lia]. change (2 ^ 105 / 16) with (2 ^ 101) in H2. lia.
Qed.

Definition base_length (_in : bytes) : Z := padded _in 0 32.
Definition exp_length (_in : bytes) : Z := padded _in 32 32.
Definition mod_length (_in : bytes) : Z := padded _in 64 32.

Lemma adjust_ge _in i n : bytes_ok _in -> zlen _in < npos -> 0 <= i -> 0 <= n ->
  exists a, expLengthAdjust i n _in = Ok a /\ 8 * (n - 32) <= a.
Proof.
  intros Hb Hl Hi Hn. unfold expLengthAdjust. destruct (Z.leb_spec n 32).
  - rewrite parse_padded by (done || rewrite ?max_count_val; lia). cbn [result_bind]. eexists. split; [done|].
    destruct (negb _); [|lia]. pose proof (Z.log2_nonneg (padded _in i n)). lia.
  - rewrite parse_padded by (done || rewrite ?max_count_val; lia). cbn [result_bind]. eexists. split; [done|].
    destruct (negb _); [|lia]. pose proof (Z.log2_nonneg (padded _in i 32)). lia.
Qed.

(** The precompiled [modexp] computes modular exponentiation whenever its price
    is paid: the price is always defined, and if it is below [2^59] none of the
    assertions on the lengths fails and the output is the base to the exponent
    modulo the modulus, in as many bytes as the modulus, the three numbers being
    read from the input padded with zeros. *)
Theorem modexp_paid (_in : bytes) :
  bytes_ok _in -> zlen _in < npos ->
  exists p, modexp_price _in = Ok p /\ 0 <= p /\
    (p < 2 ^ 59 -> modexp _in = Ok (true,
       let b := padded _in 96 (base_length _in) in
       let e := padded _in (96 + base_length _in) (exp_length _in) in
       let m := padded _in (96 + base_length _in + exp_length _in) (mod_length _in) in
       toBigEndian (Z.to_nat (mod_length _in)) (if m =? 0 then 0 else b ^ e mod m))).
Proof.
  intros Hb Hl. unfold modexp_price, modexp.
  rewrite !(parse_padded _in _ 32) by (done || rewrite ?max_count_val; lia). cbn [result_bind].
  fold (base_length _in). fold (exp_length _in). fold (mod_length _in).
  pose proof (padded_range _in 0 32 Hb ltac:(lia)) as HB. fold (base_length _in) in HB.
  pose proof (padded_range _in 32 32 Hb ltac:(lia)) as HE. fold (exp_length _in) in HE.
  pose proof (padded_range _in 64 32 Hb ltac:(lia)) as HM. fold (mod_length _in) in HM.
  set (B := base_length _in) in *. set (X := exp_length _in) in *. set (N := mod_length _in) in *.
  destruct (adjust_ge _in (B + 96) X Hb Hl ltac:(lia) ltac:(lia)) as (a & -> & Ha). cbn [result_bind].
  destruct (multComplexity_pos (Z.max N B) ltac:(lia)) as (H0 & H1 & H2).
  set (C := multComplexity (Z.max N B)) in *. eexists. split; [done|].
  split; [apply Z.div_pos; nia|]. intros Hp.
  assert (C * Z.max a 1 < 20 * 2 ^ 59) as Hc.
  { pose proof (Z.div_mod (C * Z.max a 1) 20 ltac:(lia)). pose proof (Z.mod_pos_bound (C * Z.max a 1) 20 ltac:(lia)). lia. }
  assert (Z.max N B <= max_count) as HNB.
  { destruct (Z.le_gt_cases (Z.max N B) max_count) as [H|H]; [done|]. specialize (H2 H). change (2 ^ 100) with 1267650600228229401496703205376 in H2. change (2 ^ 59) with 576460752303423488 in Hc.
    assert (C * 1 <= C * Z.max a 1) by (apply Z.mul_le_mono_nonneg_l; lia). lia. }
  destruct (Z.gtb_spec N max_count); [lia|]. destruct (Z.gtb_spec B max_count); [lia|].
  destruct (Z.eqb_spec N 0) as [HN|HN], (Z.eqb_spec B 0) as [HB0|HB0]; cbn [andb]; [by rewrite HN| | |].
  all: assert (1 <= C) as HC by (apply H1; lia); assert (1 * Z.max a 1 <= C * Z.max a 1) as Hm by (apply Z.mul_le_mono_nonneg_r; lia);
    assert (X <= max_count) as HX by (rewrite ?max_count_val; lia); destruct (Z.gtb_spec X max_count); [lia|];
    rewrite !parse_padded by (done || lia); cbn [result_bind]; unfold powm; by destruct (_ =? 0).
Qed.

Lemma modexp_paid_witness :
  let _in := replicate 31 0 ++ [1] ++ replicate 31 0 ++ [1] ++ replicate 31 0 ++ [1] ++ [3; 2; 7] in
  modexp_price _in = Ok 0 /\ modexp _in = Ok (true, [2]).
Proof.
  intros _in. assert (bytes_ok _in) as Hb.
  { unfold _in. repeat (apply bytes_ok_app; split); try (apply Forall_replicate; unfold is_byte; lia);
      repeat constructor; lia. }
  destruct (modexp_paid _in Hb ltac:(vm_compute; reflexivity)) as (p & Hp & _ & H).
  assert (modexp_price _in = Ok 0) as E by (vm_compute; reflexivity). split; [done|].
  rewrite E in Hp. injection Hp as <-. rewrite H by lia. vm_compute. reflexivity.
Defined.

(** [ecrecover] inverts signing: given a hash and the signature that signing it
    makes, with a recovery id of 0 or 1, the contract returns the address of the
    signer, padded to a word. *)
Theorem ecrecover_signed {L : Secp256k1} {HL : Secp256k1Laws L} (k h : bytes) (p : pubkey) (g : SignatureStruct) :
  List.length h = 32%nat -> bytes_ok h ->
  secp256k1_ec_pubkey_create k = Some p -> secp256k1_ecdsa_sign_recoverable h k <> None ->
  sign k h = Ok g -> v g <= 1 -> FixedHash.to_bool (Public_of p) = true ->
  ecrecover (h ++ FixedHash.of_arith 32 (27 + v g) ++ r g ++ s g) = Ok (true, replicate 12 0 ++ toAddress (Public_of p)).
Proof.
  intros Hh Hhb Hp Hs Hg Hv Hne. destruct (secp256k1_ecdsa_sign_recoverable h k) as [rs|] eqn:Ers; [|done].
  destruct (sign_spec k h p rs Hp Ers) as (g' & Hg' & _ & Hrec & Hv3 & Hr & Hsl & Hrk & Hsk & HR & HS).
  rewrite Hg in Hg'. injection Hg' as <-. set (vb := FixedHash.of_arith 32 (27 + v g)).
  assert (List.length vb = 32%nat) as Hvb by apply FixedHash.of_arith_length.
  assert (read_struct (h ++ vb ++ r g ++ s g) = h ++ vb ++ r g ++ s g) as Hd.
  { unfold read_struct. rewrite take_app_le by (rewrite !length_app; lia). apply take_ge. rewrite !length_app. lia. }
  unfold ecrecover. rewrite Hd. rewrite take_app_length' by done.
  rewrite (drop_app_length' h) by done. rewrite take_app_length' by done.
  replace (drop 64 (h ++ vb ++ r g ++ s g)) with (r g ++ s g) by (by rewrite !app_assoc, <- !(app_assoc (h ++ vb)), drop_app_length' by (rewrite length_app; lia)).
  replace (drop 96 (h ++ vb ++ r g ++ s g)) with (s g)
    by (by rewrite !app_assoc, drop_app_length' by (rewrite !length_app; lia)).
  rewrite take_app_length', (take_ge (s g)) by lia.
  unfold vb. rewrite FixedHash.to_of_arith by (unfold uint_ok; change (8 * Z.of_nat 32) with 256; lia).
  replace ((27 <=? 27 + v g) && (27 + v g <=? 28)) with true by lia.
  replace (wrap 8 (27 + v g - 27)) with (v g) by (rewrite wrap_small; unfold uint_ok; lia).
  assert ({| r := r g; s := s g; v := v g |} = g) as -> by (by destruct g).
  assert (isValid g = true) as ->.
  { apply isValid_spec; try done. assert (c_secp256k1n / 2 < c_secp256k1n) by (vm_compute; reflexivity). lia. }
  by rewrite Hrec, Hne.
Qed.

Lemma ecrecover_signed_witness :
  let h := replicate 32 5 in
  ecrecover (L := Transaction.Toy) (h ++ FixedHash.of_arith 32 27 ++ Transaction.toy_number ++ Transaction.toy_number)
  = Ok (true, replicate 12 0 ++ toAddress (@Public_of Transaction.Toy tt)).
Proof.
  intros h.
  apply (ecrecover_signed (L := Transaction.Toy) (HL := Transaction.Toy_laws) [1] h tt
           {| r := Transaction.toy_number; s := Transaction.toy_number; v := 0 |}).
  - reflexivity.
  - apply Forall_replicate. unfold is_byte. lia.
  - reflexivity.
  - discriminate.
  - vm_compute. reflexivity.
  - cbn. lia.
  - vm_compute. reflexivity.
Defined.

End Precompiled.
