(* ===== verification/Executive.v ===== *)
(** * Executive: executing transactions (libvapory/Executive, ExtVM and State)

    - [CodeSizeCache]: libvapory/CodeSizeCache, and [State::codeSize].
    - [Executive]: libvapory/Executive, what [ExtVM] does behind the interface
      [ExtVMFace], and [State::execute] and [executeBlockTransactions].

    An [Executive] works on a state that it shares with the executives of the calls
    it is in and of those it makes; the model threads the state through.  [ExtVM]
    and [Executive] call each other through the interpreter: the section is
    parameterised by the interpreter that runs one level further down, [vm_exec],
    and [vm_at] ties the knot for a number of levels.

    What ends the process is recorded as a [halt]: an exception that [go] does not
    expect makes it call [exit(1)], and a failed assertion aborts ([Exit]);
    running code over 458752 bytes, where the interpreter may follow constants that it
    has not verified, is [LongCode]; an access out of bounds is [OutOfBounds]; running
    out of the levels or steps of the model is [Exhausted].  The model goes on after a halt was recorded in an [ExtVM], and [go]
    throws it away with everything else.

    Assertions are kept, as in the default build, but for two: the one in the
    constructor of [ExtVM], that its account exists, is left out, and the one on the
    length of the list in [blockHash] is [OutOfBounds], as a build without assertions
    would read past the end there.  The seal engine is [Vapash], the interpreter the
    one of libvvm/VM, and there are no tracers. *)

From stdpp Require Import base list numbers option gmap.
From Stdlib Require Import ZArith Lia.
From S2P Require Import Prelude Bytes Rlp RlpStream RlpFields Keccak Instruction VMOpt VM MemoryDB TrieDB Account State Crypto Transaction BlockHeader Seal Receipt Precompiled.
Import CommonData RLP RLPStream Keccak.

#[local] Opaque sha3.

(** ** The cache of code sizes *)
Module CodeSizeCache.

(** A [std::map]; [m_random]: what [h256::random] will give. *)
Record CodeSizeCache := { m_cache : gmap bytes Z; m_random : list bytes }.

Definition c_maxSize : nat := Z.to_nat 50000.

(** The least element of a list of keys, and [lower_bound]. *)
Definition least (l : list bytes) : option bytes :=
  fold_left (fun o k => match o with Some k' => if FixedHash.ltb k k' then Some k else o | None => Some k end) l None.
Definition removeRandomElement (c : CodeSizeCache) : CodeSizeCache :=
  let keys := map fst (map_to_list (m_cache c)) in
  let rnd := hd [] (m_random c) in
  match least keys with
  | None => c
  | Some first =>
      let it := default first (least (List.filter (fun k => negb (FixedHash.ltb k rnd)) keys)) in
      {| m_cache := delete it (m_cache c); m_random := tl (m_random c) |}
  end.
Definition store (_hash : bytes) (size : Z) (c : CodeSizeCache) : CodeSizeCache :=
  let c := if (c_maxSize <=? base.size (m_cache c))%nat then removeRandomElement c else c in
  {| m_cache := <[_hash := size]> (m_cache c); m_random := m_random c |}.
Definition contains (_hash : bytes) (c : CodeSizeCache) : bool := bool_decide (is_Some (m_cache c !! _hash)).
Definition get (_hash : bytes) (c : CodeSizeCache) : Z := default 0 (m_cache c !! _hash).

End CodeSizeCache.

(** ** Executing *)
Module Executive.
Import Transaction LogEntry Receipt ChainOperationParams.

(** *** Data *)

Inductive TransactionException :=
| None_ | Unknown | BadRLP | InvalidFormat | OutOfGasIntrinsic | InvalidSignature | InvalidNonce | NotEnoughCash
| OutOfGasBase | BlockGasLimitReached | BadInstruction | BadJumpDestination | OutOfGas | OutOfStack | StackUnderflow
| RevertInstruction | InvalidZeroSignatureFormat | AddressAlreadyUsed.
#[export] Instance TransactionException_eq_dec : EqDecision TransactionException.
Proof. solve_decision. Defined.

Inductive CodeDeposit := CD_None | CD_Failed | CD_Success.

Record ExecutionResult := {
  res_gasUsed : Z;
  res_excepted : TransactionException;
  res_newAddress : bytes;
  res_output : bytes;
  res_codeDeposit : CodeDeposit;
  res_gasRefunded : Z;
  res_depositSize : Z;
  res_gasForDeposit : Z
}.
Definition no_result : ExecutionResult :=
  {| res_gasUsed := 0; res_excepted := Unknown; res_newAddress := ZeroAddress; res_output := []; res_codeDeposit := CD_None;
     res_gasRefunded := 0; res_depositSize := 0; res_gasForDeposit := 0 |}.

Record SubState := { suicides : gset bytes; logs : LogEntries; refunds : Z }.
Definition sub_clear : SubState := {| suicides := ∅; logs := []; refunds := 0 |}.
Definition sub_add (a s : SubState) : SubState :=
  {| suicides := suicides a ∪ suicides s; logs := logs a ++ logs s; refunds := wrap 256 (refunds a + refunds s) |}.

(** [m_lastHashes]: [precedingHashes] of the [LastBlockHashesFace]. *)
Record EnvInfo := {
  m_headerInfo : BlockHeader.BlockHeader;
  m_lastHashes : bytes -> list bytes;
  env_gasUsed : Z
}.

Inductive halt := Exit | LongCode | OutOfBounds | Exhausted.
#[export] Instance halt_eq_dec : EqDecision halt.
Proof. solve_decision. Defined.

Inductive exec_exn :=
| StateExn (e : State.state_exn) | SealExn (e : SealEngine.seal_exn) | TxExn (e : tx_exn) | StreamExn (e : stream_exn)
| NonceExn (required got : Z) | CashExn | Abort | Halted (h : halt).

(** [toTransactionException] of what [verifyTransaction] throws, and of what the
    interpreter throws. *)
Definition rlp_exception (e : exn) : TransactionException := match e with AssertFailure => Unknown | _ => BadRLP end.
Definition seal_exception (e : SealEngine.seal_exn) : TransactionException :=
  match e with
  | SealEngine.OutOfGasIntrinsic => OutOfGasIntrinsic
  | SealEngine.InvalidSignature | SealEngine.Tx Transaction.InvalidSignature => InvalidSignature
  | SealEngine.BlockGasLimitReached => BlockGasLimitReached
  | SealEngine.Rlp e | SealEngine.Tx (Transaction.Rlp e) => rlp_exception e
  | _ => Unknown
  end.
Definition vm_exception (e : VM.exn) : TransactionException :=
  match e with
  | VM.BadInstruction => BadInstruction
  | VM.BadJumpDestination => BadJumpDestination
  | VM.OutOfGas => OutOfGas
  | VM.OutOfStack => OutOfStack
  | VM.StackUnderflow => StackUnderflow
  | _ => Unknown
  end.

(** [ImportRequirements::Everything]. *)
Definition Everything_ : Z := 1 + 4 + 16 + 8 + 32 + 64 + 128.

Definition c_blockhashContractAddress : bytes := FixedHash.of_arith 20 0xf0.

Section Executing.
Context {DB : Type} `{NodeDB DB} {L : Crypto.Secp256k1}.
Variable chainParams : ChainOperationParams.
Variable precompiled : gmap bytes Precompiled.PrecompiledContract.
Variable EI : EnvInfo.

(** What executives share: the state, and the process-wide cache. *)
Record World := { w_s : State.State DB; w_sizes : CodeSizeCache.CodeSizeCache }.

(** The members of [ExtVM] that change are [sub]; the rest is the [Env]. *)
Record ExtVM := { ext_env : Env; ext_sub : SubState }.

(** An [ExtVM] at work, behind the interface. *)
Record X := { x_w : World; x_sub : SubState; x_halt : option halt }.

Record Executive := {
  m_w : World;
  m_ext : option ExtVM;
  m_output : bytes;
  m_res : option ExecutionResult;
  m_depth : Z;
  m_excepted : TransactionException;
  m_baseGasRequired : Z;
  m_gas : Z;
  m_refunded : Z;
  m_t : TransactionBase;
  m_logs : LogEntries;
  m_gasCost : Z;
  m_isCreation : bool;
  m_newAddress : bytes;
  m_savepoint : nat
}.

Definition set_w (v : World) (e : Executive) : Executive :=
  {| m_w := v; m_ext := m_ext e; m_output := m_output e; m_res := m_res e; m_depth := m_depth e; m_excepted :=
     m_excepted e; m_baseGasRequired := m_baseGasRequired e; m_gas := m_gas e; m_refunded := m_refunded e; m_t :=
     m_t e; m_logs := m_logs e; m_gasCost := m_gasCost e; m_isCreation := m_isCreation e; m_newAddress :=
     m_newAddress e; m_savepoint := m_savepoint e |}.
Definition set_ext (v : option ExtVM) (e : Executive) : Executive :=
  {| m_w := m_w e; m_ext := v; m_output := m_output e; m_res := m_res e; m_depth := m_depth e; m_excepted :=
     m_excepted e; m_baseGasRequired := m_baseGasRequired e; m_gas := m_gas e; m_refunded := m_refunded e; m_t :=
     m_t e; m_logs := m_logs e; m_gasCost := m_gasCost e; m_isCreation := m_isCreation e; m_newAddress :=
     m_newAddress e; m_savepoint := m_savepoint e |}.
Definition set_output (v : bytes) (e : Executive) : Executive :=
  {| m_w := m_w e; m_ext := m_ext e; m_output := v; m_res := m_res e; m_depth := m_depth e; m_excepted :=
     m_excepted e; m_baseGasRequired := m_baseGasRequired e; m_gas := m_gas e; m_refunded := m_refunded e; m_t :=
     m_t e; m_logs := m_logs e; m_gasCost := m_gasCost e; m_isCreation := m_isCreation e; m_newAddress :=
     m_newAddress e; m_savepoint := m_savepoint e |}.
Definition set_res (v : option ExecutionResult) (e : Executive) : Executive :=
  {| m_w := m_w e; m_ext := m_ext e; m_output := m_output e; m_res := v; m_depth := m_depth e; m_excepted :=
     m_excepted e; m_baseGasRequired := m_baseGasRequired e; m_gas := m_gas e; m_refunded := m_refunded e; m_t :=
     m_t e; m_logs := m_logs e; m_gasCost := m_gasCost e; m_isCreation := m_isCreation e; m_newAddress :=
     m_newAddress e; m_savepoint := m_savepoint e |}.
Definition set_excepted (v : TransactionException) (e : Executive) : Executive :=
  {| m_w := m_w e; m_ext := m_ext e; m_output := m_output e; m_res := m_res e; m_depth := m_depth e; m_excepted :=
     v; m_baseGasRequired := m_baseGasRequired e; m_gas := m_gas e; m_refunded := m_refunded e; m_t := m_t e;
     m_logs := m_logs e; m_gasCost := m_gasCost e; m_isCreation := m_isCreation e; m_newAddress := m_newAddress e;
     m_savepoint := m_savepoint e |}.
Definition set_baseGasRequired (v : Z) (e : Executive) : Executive :=
  {| m_w := m_w e; m_ext := m_ext e; m_output := m_output e; m_res := m_res e; m_depth := m_depth e; m_excepted :=
     m_excepted e; m_baseGasRequired := v; m_gas := m_gas e; m_refunded := m_refunded e; m_t := m_t e; m_logs :=
     m_logs e; m_gasCost := m_gasCost e; m_isCreation := m_isCreation e; m_newAddress := m_newAddress e;
     m_savepoint := m_savepoint e |}.
Definition set_gas (v : Z) (e : Executive) : Executive :=
  {| m_w := m_w e; m_ext := m_ext e; m_output := m_output e; m_res := m_res e; m_depth := m_depth e; m_excepted :=
     m_excepted e; m_baseGasRequired := m_baseGasRequired e; m_gas := v; m_refunded := m_refunded e; m_t := m_t e;
     m_logs := m_logs e; m_gasCost := m_gasCost e; m_isCreation := m_isCreation e; m_newAddress := m_newAddress e;
     m_savepoint := m_savepoint e |}.
Definition set_refunded (v : Z) (e : Executive) : Executive :=
  {| m_w := m_w e; m_ext := m_ext e; m_output := m_output e; m_res := m_res e; m_depth := m_depth e; m_excepted :=
     m_excepted e; m_baseGasRequired := m_baseGasRequired e; m_gas := m_gas e; m_refunded := v; m_t := m_t e;
     m_logs := m_logs e; m_gasCost := m_gasCost e; m_isCreation := m_isCreation e; m_newAddress := m_newAddress e;
     m_savepoint := m_savepoint e |}.
Definition set_t (v : TransactionBase) (e : Executive) : Executive :=
  {| m_w := m_w e; m_ext := m_ext e; m_output := m_output e; m_res := m_res e; m_depth := m_depth e; m_excepted :=
     m_excepted e; m_baseGasRequired := m_baseGasRequired e; m_gas := m_gas e; m_refunded := m_refunded e; m_t :=
     v; m_logs := m_logs e; m_gasCost := m_gasCost e; m_isCreation := m_isCreation e; m_newAddress := m_newAddress
     e; m_savepoint := m_savepoint e |}.
Definition set_logs (v : LogEntries) (e : Executive) : Executive :=
  {| m_w := m_w e; m_ext := m_ext e; m_output := m_output e; m_res := m_res e; m_depth := m_depth e; m_excepted :=
     m_excepted e; m_baseGasRequired := m_baseGasRequired e; m_gas := m_gas e; m_refunded := m_refunded e; m_t :=
     m_t e; m_logs := v; m_gasCost := m_gasCost e; m_isCreation := m_isCreation e; m_newAddress := m_newAddress e;
     m_savepoint := m_savepoint e |}.
Definition set_gasCost (v : Z) (e : Executive) : Executive :=
  {| m_w := m_w e; m_ext := m_ext e; m_output := m_output e; m_res := m_res e; m_depth := m_depth e; m_excepted :=
     m_excepted e; m_baseGasRequired := m_baseGasRequired e; m_gas := m_gas e; m_refunded := m_refunded e; m_t :=
     m_t e; m_logs := m_logs e; m_gasCost := v; m_isCreation := m_isCreation e; m_newAddress := m_newAddress e;
     m_savepoint := m_savepoint e |}.
Definition set_isCreation (v : bool) (e : Executive) : Executive :=
  {| m_w := m_w e; m_ext := m_ext e; m_output := m_output e; m_res := m_res e; m_depth := m_depth e; m_excepted :=
     m_excepted e; m_baseGasRequired := m_baseGasRequired e; m_gas := m_gas e; m_refunded := m_refunded e; m_t :=
     m_t e; m_logs := m_logs e; m_gasCost := m_gasCost e; m_isCreation := v; m_newAddress := m_newAddress e;
     m_savepoint := m_savepoint e |}.
Definition set_newAddress (v : bytes) (e : Executive) : Executive :=
  {| m_w := m_w e; m_ext := m_ext e; m_output := m_output e; m_res := m_res e; m_depth := m_depth e; m_excepted :=
     m_excepted e; m_baseGasRequired := m_baseGasRequired e; m_gas := m_gas e; m_refunded := m_refunded e; m_t :=
     m_t e; m_logs := m_logs e; m_gasCost := m_gasCost e; m_isCreation := m_isCreation e; m_newAddress := v;
     m_savepoint := m_savepoint e |}.
Definition set_savepoint (v : nat) (e : Executive) : Executive :=
  {| m_w := m_w e; m_ext := m_ext e; m_output := m_output e; m_res := m_res e; m_depth := m_depth e; m_excepted :=
     m_excepted e; m_baseGasRequired := m_baseGasRequired e; m_gas := m_gas e; m_refunded := m_refunded e; m_t :=
     m_t e; m_logs := m_logs e; m_gasCost := m_gasCost e; m_isCreation := m_isCreation e; m_newAddress :=
     m_newAddress e; m_savepoint := v |}.

(** [Executive(_s, _envInfo, _sealEngine, _level)]. *)
Definition new_executive (w : World) (_level : Z) : Executive :=
  {| m_w := w; m_ext := None; m_output := []; m_res := None; m_depth := _level; m_excepted := None_; m_baseGasRequired := 0;
     m_gas := 0; m_refunded := 0; m_t := null_transaction; m_logs := []; m_gasCost := 0; m_isCreation := false;
     m_newAddress := ZeroAddress; m_savepoint := 0 |}.

Abbreviation EM A := (M Executive exec_exn A).

(** Operations on the state and on the transaction. *)
Definition on_state {A} (p : State.ST A) (w : World) : result exec_exn A * World :=
  let '(r, s) := p (w_s w) in
  (match r with Ok a => Ok a | Err x => Err (StateExn x) end, {| w_s := s; w_sizes := w_sizes w |}).
Definition on_w {A} (p : World -> result exec_exn A * World) : EM A := fun e =>
  let '(r, w) := p (m_w e) in (r, set_w w e).
Abbreviation on_s p := (on_w (on_state p)).
Definition on_t {A} (p : M TransactionBase tx_exn A) : EM A := fun e =>
  let '(r, t) := p (m_t e) in (match r with Ok a => Ok a | Err x => Err (TxExn x) end, set_t t e).

Definition number : Z := BlockHeader.m_number (m_headerInfo EI).
Definition schedule : VVMSchedule := SealEngine.vvmSchedule chainParams number.

(** [State::codeSize]. *)
Definition codeSize (_a : bytes) : World -> result exec_exn Z * World := fun w =>
  match on_state (State.account _a) w with
  | (Err x, w) => (Err x, w)
  | (Ok None, w) => (Ok 0, w)
  | (Ok (Some a), w) =>
      if Account.m_hasNewCode a then (Ok (zlen (Account.m_codeCache a)), w) else
      let codeHash := Account.m_codeHash a in
      if CodeSizeCache.contains codeHash (w_sizes w) then (Ok (CodeSizeCache.get codeHash (w_sizes w)), w) else
      match on_state (State.code _a) w with
      | (Err x, w) => (Err x, w)
      | (Ok c, w) => (Ok (zlen c), {| w_s := w_s w; w_sizes := CodeSizeCache.store codeHash (zlen c) (w_sizes w) |})
      end
  end.

(** *** Precompiled contracts (libvapcore/SealEngine.h) *)

Definition isPrecompiled (_a : bytes) (_blockNumber : Z) : bool :=
  match precompiled !! _a with Some c => Precompiled.startingBlock c <=? _blockNumber | None => false end.
Definition aborting {A} (m : result exn A) : EM A := mlift (match m with Ok a => Ok a | Err _ => Err Abort end).
Definition costOfPrecompiled (_a _in : bytes) : EM Z :=
  match precompiled !! _a with Some c => aborting (Precompiled.cost c _in) | None => mthrow Abort end.
Definition executePrecompiled (_a _in : bytes) : EM (bool * bytes) :=
  match precompiled !! _a with Some c => aborting (Precompiled.execute c _in) | None => mthrow Abort end.

(** *** Setting up *)

Definition gasUsed (e : Executive) : Z := wrap 256 (Transaction.m_gas (m_t e) - m_gas e).

Definition revert : EM unit :=
  exec! mput (fun e => match m_ext e with
                       | Some x => set_ext (Some {| ext_env := ext_env x; ext_sub := sub_clear |}) e
                       | None => e
                       end) in
  exec! mput (set_newAddress ZeroAddress) in
  do! n := mget m_savepoint in
  on_s (State.rollback n).

Definition verify_transaction : EM unit := fun e =>
  match SealEngine.verifyTransaction chainParams Everything_ (m_t e) (m_headerInfo EI) (env_gasUsed EI) with
  | Ok _ => (Ok tt, e)
  | Err x => (Err (SealExn x), set_excepted (seal_exception x) e)
  end.

(** [m_s.getNonce(m_t.sender())] and its handler. *)
Definition sender_nonce : EM (bytes * Z) := fun e =>
  match (do! a := on_t sender in do! n := on_s (State.getNonce a) in mret (a, n)) e with
  | (Err (TxExn Transaction.InvalidSignature as x), e') => (Err x, set_excepted InvalidSignature e')
  | r => r
  end.

Definition initialize (_transaction : TransactionBase) : EM unit :=
  exec! mput (set_t _transaction) in
  exec! mput (set_baseGasRequired (baseGasRequired (isCreation _transaction) (m_data _transaction) schedule)) in
  exec! verify_transaction in
  do! t := mget m_t in
  if hasZeroSignature t then mret tt else
  do! (a, nonceReq) := sender_nonce in
  if negb (Transaction.m_nonce t =? nonceReq) then
    exec! mput (set_excepted InvalidNonce) in mthrow (NonceExn nonceReq (Transaction.m_nonce t))
  else
  let gasCost := Transaction.m_gas t * m_gasPrice t in
  let totalCost := m_value t + gasCost in
  do! b := on_s (State.balance a) in
  if b <? totalCost then
    exec! mput (set_excepted NotEnoughCash) in mthrow CashExn
  else
  mput (set_gasCost (wrap 256 gasCost)).

(** [make_shared<ExtVM>(...)]. *)
Definition make_ext (_myAddress _caller _origin : bytes) (_value _gasPrice : Z) (_data _code : bytes) (_staticCall : bool) : EM unit :=
  mput (fun e => set_ext (Some {|
    ext_env := {| myAddress := _myAddress; caller := _caller; origin := _origin; VM.value := _value; VM.gasPrice := _gasPrice;
                  VM.data := _data; VM.code := _code; VM.depth := m_depth e; staticCall := _staticCall;
                  author := BlockHeader.m_author (m_headerInfo EI); timestamp := BlockHeader.m_timestamp (m_headerInfo EI);
                  VM.number := number; difficulty := BlockHeader.m_difficulty (m_headerInfo EI);
                  gasLimit := BlockHeader.m_gasLimit (m_headerInfo EI); vvmSchedule := schedule |};
    ext_sub := sub_clear |}) e).

(** EIP 86: the entry point account has no nonce. *)
Definition has_nonce (_sender : bytes) : bool :=
  negb (bool_decide (_sender = MaxAddress)) || (number <? constantinopleForkBlock chainParams).

Definition save : EM unit := do! n := on_s State.savepoint in mput (set_savepoint n).

(** [call(_p, _gasPrice, _origin)]: whether nothing is left to run. *)
Definition call (_p : CallParameters) (_gasPrice : Z) (_origin : bytes) : EM bool :=
  do! t := mget m_t in
  exec! (if negb (bool_decide (m_type t = NullTransaction)) && has_nonce (senderAddress _p)
         then on_s (State.incNonce (senderAddress _p)) else mret tt) in
  exec! save in
  let transfer :=
    exec! on_s (State.transferBalance (senderAddress _p) (receiveAddress _p) (valueTransfer _p)) in
    mget (fun e => match m_ext e with Some _ => false | None => true end) in
  if isPrecompiled (codeAddress _p) number then
    do! g := costOfPrecompiled (codeAddress _p) (cp_data _p) in
    if cp_gas _p <? g then
      exec! mput (set_excepted OutOfGasBase) in
      exec! (if EIP158ForkBlock chainParams <=? number then on_s (State.addBalance (codeAddress _p) 0) else mret tt) in
      mret true
    else
      exec! mput (set_gas (wrap 256 (cp_gas _p - g))) in
      do! (success, output) := executePrecompiled (codeAddress _p) (cp_data _p) in
      exec! mput (set_output output) in
      if negb success then
        exec! mput (set_gas 0) in
        exec! mput (set_excepted OutOfGas) in
        mret true
      else transfer
  else
    exec! mput (set_gas (cp_gas _p)) in
    do! has := on_s (State.addressHasCode (codeAddress _p)) in
    exec! (if has then
             do! c := on_s (State.code (codeAddress _p)) in
             exec! on_s (State.codeHash (codeAddress _p)) in
             make_ext (receiveAddress _p) (senderAddress _p) _origin (apparentValue _p) _gasPrice (cp_data _p) c (cp_staticCall _p)
           else mret tt) in
    transfer.

Definition call_message (_receiveAddress _senderAddress : bytes) (_value _gasPrice : Z) (_data : bytes) (_gas : Z) : EM bool :=
  call {| senderAddress := _senderAddress; codeAddress := _receiveAddress; receiveAddress := _receiveAddress;
          valueTransfer := _value; apparentValue := _value; cp_gas := _gas; cp_data := _data; cp_staticCall := false |}
    _gasPrice _senderAddress.

Definition executeCreate (_sender : bytes) (_endowment _gasPrice _gas : Z) (_init _origin : bytes) : EM bool :=
  exec! (if has_nonce _sender then on_s (State.incNonce _sender) else mret tt) in
  exec! save in
  exec! mput (set_isCreation true) in
  exec! mput (set_gas _gas) in
  do! a := mget m_newAddress in
  do! has := on_s (State.addressHasCode a) in
  do! accountAlreadyExist := (if has then mret true else do! n := on_s (State.getNonce a) in mret (0 <? n)) in
  if accountAlreadyExist then
    exec! mput (set_gas 0) in
    exec! mput (set_excepted AddressAlreadyUsed) in
    exec! revert in
    exec! mput (set_ext None) in
    mret true
  else
  exec! on_s (State.transferBalance _sender a _endowment) in
  do! newNonce := on_s State.requireAccountStartNonce in
  let newNonce := if EIP158ForkBlock chainParams <=? number then wrap 256 (newNonce + 1) else newNonce in
  exec! on_s (State.setNonce a newNonce) in
  match _init with
  | [] => mget (fun e => match m_ext e with Some _ => false | None => true end)
  | _ =>
      exec! make_ext a _sender _origin _endowment _gasPrice [] _init false in
      mret false
  end.

(** [rlpList(_sender, nonce)]. *)
Definition rlp_list2 (_sender : bytes) (nonce : Z) : result stream_exn bytes :=
  match (exec! appendList 2 in exec! append_hash _sender false false in append_bigint nonce) empty with
  | (Ok _, s) => out s
  | (Err e, _) => Err e
  end.

Definition createOpcode (_sender : bytes) (_endowment _gasPrice _gas : Z) (_init _origin : bytes) : EM bool :=
  do! nonce := on_s (State.getNonce _sender) in
  do! l := mlift (match rlp_list2 _sender nonce with Ok l => Ok l | Err x => Err (StreamExn x) end) in
  exec! mput (set_newAddress (Crypto.right160 (sha3 l))) in
  executeCreate _sender _endowment _gasPrice _gas _init _origin.

Definition create2Opcode (_sender : bytes) (_endowment _gasPrice _gas : Z) (_init _origin : bytes) (_salt : Z) : EM bool :=
  exec! mput (set_newAddress (Crypto.right160 (sha3 (_sender ++ toBigEndian 32 _salt ++ sha3 _init)))) in
  executeCreate _sender _endowment _gasPrice _gas _init _origin.

Definition execute : EM bool :=
  do! a := on_t sender in
  do! cost := mget m_gasCost in
  exec! on_s (State.subBalance a cost) in
  do! t := mget m_t in
  do! base := mget m_baseGasRequired in
  let gas := wrap 256 (Transaction.m_gas t - wrap 256 base) in
  if isCreation t then createOpcode a (m_value t) (m_gasPrice t) gas (m_data t) a
  else call_message (m_receiveAddress t) a (m_value t) (m_gasPrice t) (m_data t) gas.

(** *** Running *)

(** The interpreter, with the gas it leaves. *)
Variable vm_exec : Env -> Z -> X -> option (result VM.exn bytes * Z * X).

(** What leaves the [try] block of [go]. *)
Inductive go_exn := Thrown (e : VM.exn) | Fatal (h : halt).

Definition run_vm (x : ExtVM) : M Executive go_exn bytes := fun e =>
  if 458752 <? zlen (VM.code (ext_env x)) then (Err (Fatal LongCode), e) else
  match vm_exec (ext_env x) (m_gas e) {| x_w := m_w e; x_sub := ext_sub x; x_halt := None |} with
  | None => (Err (Fatal Exhausted), e)
  | Some (r, g, x') =>
      let e := set_gas g (set_ext (Some {| ext_env := ext_env x; ext_sub := x_sub x' |}) (set_w (x_w x') e)) in
      match x_halt x', r with
      | Some h, _ => (Err (Fatal h), e)
      | None, Ok out => (Ok out, e)
      | None, Err v => (Err (Thrown v), e)
      end
  end.

(** Operations on the state inside the [try] block. *)
Definition try_s {A} (p : State.ST A) : M Executive go_exn A := fun e =>
  match on_s p e with
  | (Ok a, e') => (Ok a, e')
  | (Err _, e') => (Err (Fatal Exit), e')
  end.

Definition in_res (f : ExecutionResult -> ExecutionResult) (e : Executive) : Executive := set_res (f <$> m_res e) e.

Definition with_deposit (g n : Z) (r : ExecutionResult) : ExecutionResult :=
  {| res_gasUsed := res_gasUsed r; res_excepted := res_excepted r; res_newAddress := res_newAddress r; res_output := res_output r;
     res_codeDeposit := res_codeDeposit r; res_gasRefunded := res_gasRefunded r; res_depositSize := n; res_gasForDeposit := g |}.
Definition with_codeDeposit (c : CodeDeposit) (r : ExecutionResult) : ExecutionResult :=
  {| res_gasUsed := res_gasUsed r; res_excepted := res_excepted r; res_newAddress := res_newAddress r; res_output := res_output r;
     res_codeDeposit := c; res_gasRefunded := res_gasRefunded r; res_depositSize := res_depositSize r;
     res_gasForDeposit := res_gasForDeposit r |}.
Definition with_output (o : bytes) (r : ExecutionResult) : ExecutionResult :=
  {| res_gasUsed := res_gasUsed r; res_excepted := res_excepted r; res_newAddress := res_newAddress r; res_output := o;
     res_codeDeposit := res_codeDeposit r; res_gasRefunded := res_gasRefunded r; res_depositSize := res_depositSize r;
     res_gasForDeposit := res_gasForDeposit r |}.

(** What a creation does with the code that its init code returns. *)
Definition deposit (x : ExtVM) (out : bytes) : M Executive go_exn unit :=
  let sch := vvmSchedule (ext_env x) in
  do! g := mget m_gas in
  exec! mput (in_res (with_deposit g (wrap 32 (zlen out)))) in
  let price := wrap 64 (zlen out * createDataGas sch) in
  do! out :=
    (if zlen out >? maxCodeSize sch then mthrow (Thrown VM.OutOfGas)
     else if price <=? g then
       exec! mput (in_res (with_codeDeposit CD_Success)) in
       exec! mput (set_gas (wrap 256 (g - price))) in
       mret out
     else if exceptionalFailedCodeDeposit sch then mthrow (Thrown VM.OutOfGas)
     else
       exec! mput (in_res (with_codeDeposit CD_Failed)) in
       mret []) in
  exec! mput (in_res (with_output out)) in
  try_s (State.setCode (myAddress (ext_env x)) out).

(** The [try] block. *)
Definition go_try (x : ExtVM) : M Executive go_exn unit :=
  do! creation := mget m_isCreation in
  if creation then
    exec! try_s (State.clearStorage (myAddress (ext_env x))) in
    do! out := run_vm x in
    deposit x out
  else
    do! out := run_vm x in
    mput (set_output out).

(** The handlers. *)
Definition go_guarded (x : ExtVM) : EM unit := fun e =>
  match go_try x e with
  | (Ok _, e) => (Ok tt, e)
  | (Err (Thrown (VM.RevertInstruction o)), e) =>
      (exec! revert in exec! mput (set_output o) in mput (set_excepted RevertInstruction)) e
  | (Err (Thrown VM.BadAccess), e) => (Err (Halted OutOfBounds), e)
  | (Err (Thrown v), e) =>
      (exec! mput (set_gas 0) in exec! mput (set_excepted (vm_exception v)) in revert) e
  | (Err (Fatal h), e) => (Err (Halted h), e)
  end.

Definition go : EM bool :=
  do! ox := mget m_ext in
  match ox with
  | None => mret true
  | Some x =>
      exec! go_guarded x in
      exec! mput (fun e => match m_output e with [] => e | o => in_res (with_output o) e end) in
      mret true
  end.

(** *** Finishing *)

Definition sub_of (e : Executive) : SubState := match m_ext e with Some x => ext_sub x | None => sub_clear end.

Definition accrueSubState (_parentContext : SubState) (e : Executive) : SubState :=
  match m_ext e with Some x => sub_add _parentContext (ext_sub x) | None => _parentContext end.

Fixpoint kill_all (l : list bytes) : EM unit :=
  match l with
  | [] => mret tt
  | a :: l' => exec! on_s (State.kill a) in kill_all l'
  end.

(** Refunds for suicides: [unsigned] times [size_t]. *)
Definition accumulate (e : Executive) : Executive :=
  match m_ext e with
  | Some x =>
      let s := ext_sub x in
      set_ext (Some {| ext_env := ext_env x; ext_sub :=
        {| suicides := suicides s; logs := logs s;
           refunds := wrap 256 (refunds s + wrap 64 (suicideRefundGas (vvmSchedule (ext_env x)) * Z.of_nat (base.size (suicides s)))) |} |}) e
  | None => e
  end.

Definition collect (e : Executive) : Executive :=
  in_res (fun r => {| res_gasUsed := gasUsed e; res_excepted := m_excepted e; res_newAddress := m_newAddress e;
                      res_output := res_output r; res_codeDeposit := res_codeDeposit r;
                      res_gasRefunded := match m_ext e with Some x => refunds (ext_sub x) | None => 0 end;
                      res_depositSize := res_depositSize r; res_gasForDeposit := res_gasForDeposit r |}) e.

(** What is to be given back, once the refunds are accumulated. *)
Definition refund_of (e : Executive) : Z :=
  match m_ext e with
  | Some x => Z.min (wrap 256 (Transaction.m_gas (m_t e) - m_gas e) / 2) (refunds (ext_sub x))
  | None => 0
  end.

Definition pay_fees : EM unit :=
  do! t := mget m_t in
  if bool_decide (m_type t = NullTransaction) then mret tt else
  do! a := on_t sender in
  do! g := mget m_gas in
  exec! on_s (State.addBalance a (wrap 256 (g * m_gasPrice t))) in
  let feesEarned := wrap 256 (wrap 256 (Transaction.m_gas t - g) * m_gasPrice t) in
  on_s (State.addBalance (BlockHeader.m_author (m_headerInfo EI)) feesEarned).

(** Suicides and logs. *)
Definition suicides_logs : EM unit :=
  do! ox := mget m_ext in
  match ox with
  | Some x =>
      exec! kill_all (elements (suicides (ext_sub x))) in
      mput (set_logs (logs (ext_sub x)))
  | None => mret tt
  end.

Definition finalize : EM bool :=
  exec! mput accumulate in
  exec! mput (fun e => set_refunded (refund_of e) e) in
  exec! mput (fun e => set_gas (wrap 256 (m_gas e + m_refunded e)) e) in
  exec! pay_fees in
  exec! suicides_logs in
  exec! mput collect in
  mget (fun e => bool_decide (m_excepted e = None_)).

(** *** [State::execute] *)

Definition executeTransaction (_t : TransactionBase) : EM bool :=
  exec! initialize _t in
  do! done := execute in
  exec! (if negb done then go else mret true) in
  finalize.

Inductive Permanence := Reverted | Committed | Uncommitted.

Definition settle (_p : Permanence) : State.ST unit :=
  match _p with
  | Reverted => State.modify (State.set_cache ∅)
  | Committed =>
      State.commit (if EIP158ForkBlock chainParams <=? number then State.RemoveEmptyAccounts else State.KeepEmptyAccounts)
  | Uncommitted => State.ret tt
  end.

Definition rootHash : State.ST bytes := State.bind (State.get State.m_state) (fun t => State.of_trie (TrieDB.root t)).

Definition of_bool (b : bool) : Z := if b then 1 else 0.

Definition state_execute (_t : TransactionBase) (_p : Permanence) (w : World)
    : result exec_exn (ExecutionResult * TransactionReceipt) * World :=
  let '(r, e) :=
    (do! statusCode := executeTransaction _t in
     exec! on_s (settle _p) in
     do! e := mget (fun e => e) in
     let total := wrap 256 (env_gasUsed EI + gasUsed e) in
     do! x := (if byzantiumForkBlock chainParams <=? number then mret (StatusCode (of_bool statusCode))
               else do! h := on_s rootHash in mret (StateRoot h)) in
     mret (default no_result (m_res e), make_receipt x total (m_logs e)))
    (set_res (Some no_result) (new_executive w 0)) in
  (r, m_w e).

End Executing.

(** ** Behind the interface (libvapory/ExtVM) *)

Section Behind.
Context {DB : Type} `{NodeDB DB} {L : Crypto.Secp256k1}.
Variable chainParams : ChainOperationParams.
Variable precompiled : gmap bytes Precompiled.PrecompiledContract.
Variable EI : EnvInfo.
Variable vm_exec : Env -> Z -> X (DB := DB) -> option (result VM.exn bytes * Z * X (DB := DB)).
Variable env : Env.

Abbreviation XD := (X (DB := DB)).

(** The first thing that ends the process counts. *)
Definition halting (h : halt) (x : XD) : XD :=
  {| x_w := x_w x; x_sub := x_sub x; x_halt := match x_halt x with Some h' => Some h' | None => Some h end |}.
Definition with_w (w : World) (x : XD) : XD := {| x_w := w; x_sub := x_sub x; x_halt := x_halt x |}.
Definition with_sub (f : SubState -> SubState) (x : XD) : XD := {| x_w := x_w x; x_sub := f (x_sub x); x_halt := x_halt x |}.

(** An exception leaves the interpreter and makes [go] exit. *)
Definition ending {A} (dflt : A) (r : result exec_exn A) (x : XD) : A * XD :=
  match r with
  | Ok a => (a, x)
  | Err (Halted h) => (dflt, halting h x)
  | Err _ => (dflt, halting Exit x)
  end.
Definition ext_op {A} (dflt : A) (p : World (DB := DB) -> result exec_exn A * World (DB := DB)) (x : XD) : A * XD :=
  let '(r, w) := p (x_w x) in ending dflt r (with_w w x).
Abbreviation ext_s dflt p := (ext_op dflt (on_state p)).

Definition ext_exists (x : XD) (_a : bytes) : bool * XD :=
  if eip158Mode (vvmSchedule env) then ext_s false (State.accountNonemptyAndExisting _a) x
  else ext_s false (State.addressInUse _a) x.

Definition ext_suicide (x : XD) (_a : bytes) : XD :=
  let me := myAddress env in
  let x := snd (ext_s tt (State.bind (State.balance me) (fun b =>
                          State.bind (State.addBalance _a b) (fun _ =>
                          State.bind (State.balance me) (fun b => State.subBalance me b)))) x) in
  with_sub (fun s => {| suicides := {[me]} ∪ suicides s; logs := logs s; refunds := refunds s |}) x.

Definition ext_log (x : XD) (_topics : list bytes) (_data : bytes) : XD :=
  with_sub (fun s => {| suicides := suicides s; logs := logs s ++ [{| address := myAddress env; topics := _topics; data := _data |}];
                        refunds := refunds s |}) x.

(** What is left of the executive of a call or creation: the gas, the value and the
    substate. *)
Definition nested {A} (dflt : A) (m : M (Executive (DB := DB)) exec_exn bool) (f : Executive (DB := DB) -> A) (x : XD) : A * Z * XD :=
  let go := go vm_exec in
  match (do! done := m in exec! (if negb done then go else mret true) in mret done) (new_executive (x_w x) (VM.depth env + 1)) with
  | (Ok done, e) =>
      (f e, m_gas e, {| x_w := m_w e; x_sub := if negb done then accrueSubState (x_sub x) e else x_sub x; x_halt := x_halt x |})
  | (Err (Halted h), e) => (dflt, 0, halting h (with_w (m_w e) x))
  | (Err _, e) => (dflt, 0, halting Exit (with_w (m_w e) x))
  end.

Definition ext_call (x : XD) (_p : CallParameters) : (bool * bytes) * Z * XD :=
  nested (false, []) (call chainParams precompiled EI _p (VM.gasPrice env) (origin env))
    (fun e => (bool_decide (m_excepted e = None_), m_output e)) x.

(** [_op == Instruction::CREATE]. *)
Definition ext_create (x : XD) (_endowment io_gas : Z) (_code : bytes) (_op _salt : Z) : (bytes * bytes) * Z * XD :=
  let me := myAddress env in
  nested (ZeroAddress, [])
    (if _op =? Instruction.code Instruction.CREATE
     then createOpcode chainParams EI me _endowment (VM.gasPrice env) io_gas _code (origin env)
     else create2Opcode chainParams EI me _endowment (VM.gasPrice env) io_gas _code (origin env) _salt)
    (fun e => (m_newAddress e, m_output e)) x.

Definition blockhash_transaction (nonce _number : Z) : TransactionBase :=
  forceSender (caller env) (unsigned_call 0 0 1000000 c_blockhashContractAddress (toBigEndian 32 _number) nonce).

Definition ext_blockHash (x : XD) (_number : Z) : bytes * XD :=
  let currentNumber := number EI in
  let h256 := FixedHash.zero 32 in
  if (currentNumber <=? _number) || (_number <? Z.max 256 currentNumber - 256) then (h256, x) else
  if currentNumber <? wrap 256 (constantinopleForkBlock chainParams + 256) then
    let lastHashes := m_lastHashes EI (BlockHeader.m_parentHash (m_headerInfo EI)) in
    match lastHashes !! Z.to_nat (wrap 32 (currentNumber - 1 - _number)) with
    | Some h => (h, x)
    | None => (h256, halting OutOfBounds x)
    end
  else
    ext_op h256 (fun w =>
      match on_state (State.getNonce (caller env)) w with
      | (Err e, w) => (Err e, w)
      | (Ok nonce, w) =>
          match state_execute chainParams precompiled EI vm_exec (blockhash_transaction nonce _number) Reverted w with
          | (Ok (res, _), w) => (Ok (FixedHash.of_bytes 32 (res_output res) FixedHash.FailIfDifferent), w)
          | (Err e, w) => (Err e, w)
          end
      end) x.

(** [ExtVM] as an [ExtVMFace]. *)
Definition ExtVM_face : ExtVMFace XD := {|
  VM.store x k := ext_s 0 (State.storage (myAddress env) k) x;
  setStore x k v := snd (ext_s tt (State.setStorage (myAddress env) k v) x);
  VM.balance x a := ext_s 0 (State.balance a) x;
  codeAt x a := ext_s [] (State.code a) x;
  codeSizeAt x a := ext_op 0 (codeSize a) x;
  exists_ x a := ext_exists x a;
  suicide x a := ext_suicide x a;
  VM.create x v g c op salt := ext_create x v g c op salt;
  VM.call x p := ext_call x p;
  VM.log x ts d := ext_log x ts d;
  blockHash x n := ext_blockHash x n;
  add_refunds x n := with_sub (fun s => {| suicides := suicides s; logs := logs s; refunds := wrap 256 (refunds s + n) |}) x
|}.

End Behind.

(** The interpreter with [n] levels of calls below it. Two steps per unit of gas are
    enough for it to end. *)
Fixpoint vm_at {DB : Type} `{NodeDB DB} {L : Crypto.Secp256k1} (chainParams : ChainOperationParams)
    (precompiled : gmap bytes Precompiled.PrecompiledContract) (EI : EnvInfo) (n : nat) (env : Env) (g : Z) (x : X (DB := DB))
    : option (result VM.exn bytes * Z * X (DB := DB)) :=
  match n with
  | O => None
  | S n' =>
      @VM.exec _ (ExtVM_face chainParams precompiled EI (vm_at chainParams precompiled EI n') env)
        (Z.to_nat (2 * wrap 64 g + 2)) env g x
  end.

(** Calls nest 1024 deep. *)
Definition levels : nat := Z.to_nat 1025.

Section Blocks.
Context {DB : Type} `{NodeDB DB} {L : Crypto.Secp256k1}.
Variable chainParams : ChainOperationParams.
Variable precompiled : gmap bytes Precompiled.PrecompiledContract.

(** [State::execute]. *)
Definition State_execute (EI : EnvInfo) (_t : TransactionBase) (_p : Permanence) (w : World (DB := DB)) :=
  state_execute chainParams precompiled EI (vm_at chainParams precompiled EI levels) _t _p w.

(** [State::executeBlockTransactions], for the transactions [l] of a block with the
    header [info]. *)
Fixpoint executeBlockTransactions (info : BlockHeader.BlockHeader) (lastHashes : bytes -> list bytes) (l : list TransactionBase)
    (gasUsed_ : Z) (w : World (DB := DB)) : result exec_exn unit * World (DB := DB) :=
  match l with
  | [] => (Ok tt, w)
  | t :: l' =>
      let EI := {| m_headerInfo := info; m_lastHashes := lastHashes; env_gasUsed := gasUsed_ |} in
      match executeTransaction chainParams precompiled EI (vm_at chainParams precompiled EI levels) t (new_executive w 0) with
      | (Err x, e) => (Err x, m_w e)
      | (Ok _, e) => executeBlockTransactions info lastHashes l' (wrap 256 (gasUsed_ + gasUsed e)) (m_w e)
      end
  end.

End Blocks.

End Executive.
