(* ===== verification/ExecProps.v ===== *)
(** * ExecProps: what executing transactions promises

    - [Keeps]: every operation of the state keeps its values in range.
    - [ExecSafe]: [ExtVM] meets [ExtVMLaws] at every depth, so that the whole tree of
      calls terminates and is memory safe, and no gas is made.
    - [ExecProps]: fees, acceptance, failure and the block hash contract. *)

From stdpp Require Import base list numbers option gmap.
From Stdlib Require Import ZArith Lia.
From S2P Require Import Prelude Bytes Rlp RlpStream RlpFields Keccak Instruction VMOpt VM VMSafety VMProps MemoryDB TrieDB Account State StateProps Crypto Transaction BlockHeader Seal Receipt Precompiled Executive.
Import CommonData Keccak TrieDB.

#[local] Opaque sha3.

(** ** The state *)
Module Keeps.
Import Account State.

Abbreviation any := (fun _ => True).

Section Keeps.
Context {DB : Type} `{NodeDB DB}.
Implicit Types s : State DB.

(** Values in range: balances, storage and code of the cached accounts. *)
Record in_range (a : Account) : Prop := {
  ir_balance : uint_ok 256 (m_balance a);
  ir_storage : map_Forall (fun _ v => uint_ok 256 v) (m_storageOverlay a);
  ir_code : buffer_ok (m_codeCache a)
}.
Definition change_ok (c : Change) : Prop :=
  match c with Storage _ _ v => uint_ok 256 v | Code _ c => buffer_ok c | _ => True end.

(** And of what the change log would restore; what the store holds is bytes, and
    the root of the empty trie is there. *)
Record world_ok s : Prop := {
  wo_cache : map_Forall (fun _ a => in_range a) (m_cache s);
  wo_log : Forall change_ok (m_changeLog s);
  wo_db : forall h, buffer_ok (db_lookup (m_db (m_state s)) h);
  wo_empty : db_exists (m_db (m_state s)) EmptyTrie = true
}.

(** An operation keeps the state in range, and what it returns is in [Q]. *)
Definition keeps {A} (p : ST A) (Q : A -> Prop) : Prop :=
  forall s, world_ok s -> world_ok (snd (p s)) /\ forall a, fst (p s) = Ok a -> Q a.

Lemma keeps_bind {A B} (p : ST A) (f : A -> ST B) Q R :
  keeps p Q -> (forall a, Q a -> keeps (f a) R) -> keeps (bind p f) R.
Proof.
  intros Hp Hf s Hs. destruct (Hp s Hs) as [H1 H2]. unfold bind. destruct (p s) as [[a|e] s1]; cbn in *; [|by split].
  apply Hf; [by apply H2|done].
Qed.
Lemma keeps_any {A} (p : ST A) : keeps p any -> keeps p any.
Proof. done. Qed.
Lemma keeps_weaken {A} (p : ST A) (Q R : A -> Prop) : keeps p Q -> (forall a, Q a -> R a) -> keeps p R.
Proof. intros Hp HQ s Hs. destruct (Hp s Hs) as [H1 H2]. split; [done|]. eauto. Qed.
Lemma keeps_ret {A} (a : A) (Q : A -> Prop) : Q a -> keeps (ret a) Q.
Proof. intros HQ s Hs. split; [done|]. by intros ? [= <-]. Qed.
Lemma keeps_raise {A} e (Q : A -> Prop) : keeps (raise e) Q.
Proof. by intros s Hs. Qed.
Lemma keeps_get {A} (f : State DB -> A) (Q : A -> Prop) : (forall s, world_ok s -> Q (f s)) -> keeps (get f) Q.
Proof. intros HQ s Hs. split; [done|]. intros a [= <-]. auto. Qed.
Lemma keeps_modify (f : State DB -> State DB) Q : (forall s, world_ok s -> world_ok (f s)) -> Q tt -> keeps (modify f) Q.
Proof. intros Hf HQ s Hs. split; [by apply Hf|]. by intros [] _. Qed.
Lemma keeps_of {A} (r : result RLP.exn A) (Q : A -> Prop) : (forall a, r = Ok a -> Q a) -> keeps (of_rlp r) Q.
Proof. intros HQ s Hs. unfold of_rlp. destruct r; cbn; (split; [done|]); [intros a' [= <-]; auto|done]. Qed.
Lemma keeps_trie {A} (r : result trie_exn A) (Q : A -> Prop) : (forall a, r = Ok a -> Q a) -> keeps (of_trie r) Q.
Proof. intros HQ s Hs. unfold of_trie. destruct r; cbn; (split; [done|]); [intros a' [= <-]; auto|done]. Qed.
Lemma keeps_if {A} (b : bool) (p q : ST A) Q : keeps p Q -> keeps q Q -> keeps (if b then p else q) Q.
Proof. by destruct b. Qed.
Lemma keeps_log c Q : change_ok c -> Q tt -> keeps (log c) Q.
Proof.
  intros Hc HQ. apply keeps_modify; [|done]. intros s []. split; try done. cbn. apply Forall_app. split; [done|by constructor].
Qed.

(** *** Accounts *)

Lemma in_range_dead : in_range dead.
Proof. split; cbn; [by unfold uint_ok|apply map_Forall_empty|split; [constructor|cbn; lia]]. Qed.
Lemma in_range_basic n v : uint_ok 256 v -> in_range (basic n v).
Proof. split; cbn; [done|apply map_Forall_empty|split; [constructor|cbn; lia]]. Qed.
Lemma cached_in_range s a : world_ok s -> in_range (cached (m_cache s) a).
Proof. intros Hs. unfold cached. destruct (m_cache s !! a) eqn:E; cbn; [by apply (wo_cache s Hs a)|apply in_range_dead]. Qed.

Lemma keeps_update a (f : Account -> Account) Q : (forall x, in_range x -> in_range (f x)) -> Q tt -> keeps (update_account a f) Q.
Proof.
  intros Hf HQ. apply keeps_modify; [|done]. intros s Hs. pose proof (cached_in_range s a Hs). destruct Hs.
  split; try done. cbn. apply map_Forall_insert_2; auto.
Qed.

Lemma clear_one_ok s : world_ok s -> world_ok (clear_one s).
Proof.
  intros []. unfold clear_one. destruct (m_cache _ !! _); [destruct (negb _)|]; (split; try done).
  cbn. by apply map_Forall_delete.
Qed.
Lemma clear_loop_ok n s : world_ok s -> world_ok (clear_loop n s).
Proof. revert s. induction n as [|n IH]; intros s Hs; [done|]. cbn [clear_loop]. destruct (_ >? _); [apply IH, clear_one_ok, Hs|done]. Qed.

Lemma read_account_in_range b x : read_account b = Ok x -> in_range x.
Proof.
  unfold read_account. intros Hr. inv_bind Hr. inv_bind Hr. inv_bind Hr. inv_bind Hr. inv_bind Hr.
  inv_bind Hr. inv_bind Hr. inv_bind Hr. inv_bind Hr. case_bool_decide; [done|]. injection Hr as <-.
  split; cbn; [|apply map_Forall_empty|split; [constructor|cbn; lia]].
  match goal with Hb : RLP.toInt _ ?i RLP.Strict = Ok ?v |- uint_ok 256 ?v => apply (StateProps.toInt_range 256) in Hb; [exact Hb|lia] end.
Qed.

Definition account_ok (ox : option Account) : Prop := match ox with Some x => in_range x | None => True end.

Lemma keeps_account a : keeps (account a) account_ok.
Proof.
  intros s Hs. unfold account. destruct (m_cache s !! a) as [x|] eqn:Ec.
  { split; [done|]. intros ? [= <-]. by apply (wo_cache s Hs a). }
  case_bool_decide; [split; [done|]; by intros ? [= <-]|].
  destruct (hashed_at _ _) as [[|b l]|e]; [|set (bs := b :: l)|by split].
  { destruct Hs. split; [by split|]. by intros ? [= <-]. }
  pose proof (clear_loop_ok (List.length (m_unchangedCacheEntries s)) s Hs) as Hc. fold (clearCacheIfTooLarge s) in Hc.
  destruct (read_account bs) as [x|] eqn:Er; cbn; [|by split]. apply read_account_in_range in Er.
  split; [|by intros ? [= <-]]. destruct Hc. split; try done. cbn. by apply map_Forall_insert_2.
Qed.

End Keeps.

(** Step through an operation. *)
Ltac keeps :=
  repeat match goal with
  | |- forall _, _ => intros ?
  | |- True => exact I
  | |- (fun _ => True) _ => exact I
  | |- keeps (account _) _ => apply keeps_account
  | |- keeps ?p ?Q =>
      is_evar Q;
      lazymatch p with
      | get _ => idtac | log _ => idtac | ret _ => idtac | raise _ => idtac | update_account _ _ => idtac
      | (if _ then _ else _) => idtac | (match _ with Some _ => _ | None => _ end) => idtac
      end;
      apply keeps_any
  | |- keeps (bind _ _) _ => eapply keeps_bind
  | |- keeps (ret _) _ => apply keeps_ret
  | |- keeps (raise _) _ => apply keeps_raise
  | |- keeps (log _) _ => apply keeps_log
  | |- keeps (get _) _ => apply keeps_get
  | |- keeps (if _ then _ else _) _ => apply keeps_if
  | |- keeps (match ?x with Some _ => _ | None => _ end) _ => destruct x
  | |- keeps (update_account _ _) _ => apply keeps_update
  end.

Section Operations.
Context {DB : Type} `{NodeDB DB}.
Implicit Types s : State DB.
Abbreviation keeps := (keeps (DB := DB)).

Lemma keeps_modify_same (f : State DB -> State DB) Q :
  (forall s, m_cache (f s) = m_cache s /\ m_changeLog (f s) = m_changeLog s /\ m_state (f s) = m_state s) -> Q tt -> keeps (modify f) Q.
Proof.
  intros Hf HQ. apply keeps_modify; [|done]. intros s []. destruct (Hf s) as (E1 & E2 & E3). by split; rewrite ?E1, ?E2, ?E3.
Qed.

Lemma keeps_balance a : keeps (balance a) (uint_ok 256).
Proof. unfold balance. eapply keeps_bind; [apply keeps_account|]. intros [x|] Hx; keeps; [by apply ir_balance|by unfold uint_ok]. Qed.
Lemma keeps_pure {A} a (f : option Account -> A) : keeps (bind (account a) (fun x => ret (f x))) any.
Proof. by keeps. Qed.
Lemma keeps_getNonce a : keeps (getNonce a) any.
Proof. unfold getNonce. by keeps. Qed.
Lemma keeps_requireNonce : keeps requireAccountStartNonce any.
Proof. unfold requireAccountStartNonce. by keeps. Qed.

Lemma keeps_createAccount a x : in_range x -> keeps (createAccount a x) any.
Proof.
  intros Hx. unfold createAccount. eapply keeps_bind; [apply (keeps_pure a)|]. intros u _.
  eapply keeps_bind; [unfold assert_; by keeps|]. intros _ _.
  eapply keeps_bind; [apply (keeps_modify _ any)|]; [|done|].
  { intros s []. split; try done. cbn. by apply map_Forall_insert_2. }
  intros _ _. eapply keeps_bind; [by apply (keeps_modify_same _ any)|]. by keeps.
Qed.
Lemma keeps_createContract a : keeps (createContract a) any.
Proof. unfold createContract. keeps; [apply keeps_requireNonce|]. apply keeps_createAccount, in_range_basic. by unfold uint_ok. Qed.

Lemma setNonce_in_range n x : in_range x -> in_range (Account.setNonce n x).
Proof. intros []. by split. Qed.
Lemma addBalance_in_range v x : in_range x -> in_range (Account.addBalance v x).
Proof. intros []. split; try done. cbn. apply wrap_range. lia. Qed.

Lemma keeps_setNonce a n : keeps (setNonce a n) any.
Proof.
  unfold setNonce. keeps; [by apply setNonce_in_range|done|]. apply keeps_createAccount, in_range_basic. by unfold uint_ok.
Qed.
Lemma keeps_incNonce a : keeps (incNonce a) any.
Proof.
  unfold incNonce. keeps; [by apply setNonce_in_range|done|apply keeps_requireNonce|].
  apply keeps_createAccount, in_range_basic. by unfold uint_ok.
Qed.

Lemma keeps_addBalance a v : uint_ok 256 v -> keeps (addBalance a v) any.
Proof.
  intros Hv. unfold addBalance. keeps; try done.
  - by apply addBalance_in_range.
  - apply keeps_requireNonce.
  - by apply keeps_createAccount, in_range_basic.
Qed.
Lemma keeps_subBalance a v : keeps (subBalance a v) any.
Proof. unfold subBalance. keeps. apply keeps_addBalance, wrap_range. lia. Qed.
Lemma keeps_transfer a b v : uint_ok 256 v -> keeps (transferBalance a b v) any.
Proof. intros Hv. unfold transferBalance. keeps; [apply keeps_subBalance|by apply keeps_addBalance]. Qed.

Lemma kill_in_range x : in_range x -> in_range (Account.kill x).
Proof. intros []. split; cbn; [by unfold uint_ok|apply map_Forall_empty|done]. Qed.
Lemma keeps_kill a : keeps (kill a) any.
Proof. unfold kill. keeps. by apply kill_in_range. Qed.

(** *** Storage and code *)

Lemma with_storage_in_range b r o x : map_Forall (fun _ v => uint_ok 256 v) o -> in_range x -> in_range (with_storage b r o x).
Proof. intros Ho []. by split. Qed.
Lemma with_code_in_range b h c x : buffer_ok c -> in_range x -> in_range (with_code b h c x).
Proof. intros Ho []. by split. Qed.

Lemma keeps_open_storage r : keeps (open_storage r) any.
Proof.
  intros s Hs. rewrite (StateProps.open_storage_spec r s (wo_empty s Hs)). by split.
Qed.

Lemma slot_range d v : (let! r := RLP.make d RLP.VeryStrict in RLP.toInt 256 r RLP.Strict) = Ok v -> uint_ok 256 v.
Proof. intros Hv. inv_bind Hv. apply (StateProps.toInt_range 256) in Hv; [exact Hv|lia]. Qed.

Lemma keeps_storage a k : keeps (storage a k) (uint_ok 256).
Proof.
  unfold storage. eapply keeps_bind; [apply keeps_account|]. intros [x|] Hx; [|by keeps].
  destruct (m_storageOverlay x !! k) as [v|] eqn:Ev; [keeps; by apply (ir_storage x Hx k)|].
  eapply keeps_bind; [by apply (keeps_of _ any)|]. intros r _.
  eapply keeps_bind; [apply keeps_open_storage|]. intros memdb _.
  eapply keeps_bind; [by apply (keeps_trie _ any)|]. intros payload _.
  apply (keeps_bind _ _ (uint_ok 256)).
  - destruct payload; [by keeps|]. apply keeps_of. apply slot_range.
  - intros v Hv. keeps; [|done]. apply with_storage_in_range; [|done]. apply map_Forall_insert_2; [done|]. by apply ir_storage.
Qed.
Lemma keeps_setStorage a k v : uint_ok 256 v -> keeps (setStorage a k v) any.
Proof.
  intros Hv. unfold setStorage. keeps; [apply keeps_storage|done|].
  apply with_storage_in_range; [|done]. apply map_Forall_insert_2; [done|]. by apply ir_storage.
Qed.
Lemma keeps_clearStorage a : keeps (clearStorage a) any.
Proof.
  unfold clearStorage. keeps; [done|by apply (keeps_of _ any)|done|].
  apply with_storage_in_range; [apply map_Forall_empty|done].
Qed.

Lemma keeps_code a : keeps (code a) buffer_ok.
Proof.
  assert (buffer_ok []) as H0 by (split; [constructor|cbn; lia]).
  unfold code. eapply keeps_bind; [apply keeps_account|]. intros [x|] Hx; [|by keeps].
  keeps; [done|]. destruct (m_codeCache x) as [|b c] eqn:Ec; [|keeps; rewrite <- Ec; by apply ir_code].
  apply (keeps_bind _ _ (fun t => forall h, buffer_ok (db_lookup (m_db t) h))).
  { apply keeps_get. by intros s []. }
  intros t Ht. keeps; [unfold assert_; by keeps|by apply with_code_in_range|done].
Qed.
Lemma keeps_setCode a c : buffer_ok c -> keeps (setCode a c) any.
Proof. intros Hc. unfold setCode. keeps; [apply keeps_code|done|by apply with_code_in_range]. Qed.
Lemma keeps_savepoint : keeps savepoint any.
Proof. unfold savepoint. by keeps. Qed.

(** *** Rolling back *)

Lemma undo_keeps c : change_ok c -> keeps (undo c) any.
Proof.
  intros Hc. unfold undo. eapply keeps_bind; [by apply (keeps_update _ _ any)|]. intros _ _.
  destruct c; cbn [change_ok] in Hc; keeps; try done.
  - by apply addBalance_in_range.
  - apply with_storage_in_range; [|done]. apply map_Forall_insert_2; [done|]. by apply ir_storage.
  - apply with_storage_in_range; [apply map_Forall_empty|done].
  - by apply setNonce_in_range.
  - apply keeps_modify; [|done]. intros s []. split; try done. cbn. by apply map_Forall_delete.
  - by apply with_code_in_range.
  - match goal with Hx : in_range _ |- _ => destruct Hx end. by split.
  - by apply keeps_modify_same.
Qed.

Lemma keeps_rollback n : keeps (rollback n) any.
Proof.
  intros s Hs. split; [|done]. unfold rollback. generalize (List.length (m_changeLog s)) as fuel. intros fuel. revert s Hs.
  induction fuel as [|f IH]; intros s Hs; cbn [rollback_loop]; destruct (decide _); try done.
  destruct (last (m_changeLog s)) as [c|] eqn:El; [|done].
  assert (change_ok c) as Hc.
  { apply last_Some_elem_of in El. by apply (proj1 (Forall_forall _ _) (wo_log s Hs)). }
  destruct (undo_keeps c Hc s Hs) as [Hu _]. unfold bind at 1. destruct (undo c s) as [[u|e] s1]; [|done]. cbn [snd] in Hu.
  unfold bind at 1, modify. apply IH. destruct Hu. split; try done. cbn. rewrite removelast_firstn_len. by apply Forall_take.
Qed.

End Operations.
End Keeps.

(** ** The tree of calls *)
Module ExecSafe.
Import Transaction ChainOperationParams Executive Keeps.

Lemma buffer_nil : buffer_ok [].
Proof. split; [constructor|cbn; lia]. Qed.

Lemma right160_ok l : hash_ok 20 (Crypto.right160 (sha3 l)).
Proof.
  destruct (sha3_hash l) as [H1 H2]. split; [by apply Crypto.sha3_length_160|]. by apply Forall_drop.
Qed.
Lemma zero_address_ok : hash_ok 20 ZeroAddress.
Proof. split; [done|]. apply Forall_replicate. unfold is_byte. lia. Qed.

Section Safe.
Context {DB : Type} `{NodeDB DB} {L : Crypto.Secp256k1}.
Variable chainParams : ChainOperationParams.
Variable precompiled : gmap bytes Precompiled.PrecompiledContract.
Variable EI : EnvInfo.

Abbreviation World := (World (DB := DB)).
Abbreviation Executive := (Executive (DB := DB)).
Abbreviation XD := (X (DB := DB)).
Abbreviation EM A := (M Executive exec_exn A).
Abbreviation on_s p := (on_w (on_state p)).

(** What is assumed of a block: numbers of their width, and a number below the one
    from which the block hashes come from a contract. *)
Record block_ok : Prop := {
  bk_time : uint_ok 256 (BlockHeader.m_timestamp (m_headerInfo EI));
  bk_number : uint_ok 256 (BlockHeader.m_number (m_headerInfo EI));
  bk_difficulty : uint_ok 256 (BlockHeader.m_difficulty (m_headerInfo EI));
  bk_limit : uint_ok 256 (BlockHeader.m_gasLimit (m_headerInfo EI));
  bk_fork : number EI < wrap 256 (constantinopleForkBlock chainParams + 256);
  bk_hashes : forall h, (256 <= List.length (m_lastHashes EI h))%nat
}.
(** And of the precompiled contracts: a price is not negative, and the output is
    bytes. *)
Definition precompiled_ok : Prop := forall a c d, precompiled !! a = Some c -> buffer_ok d ->
  (forall g, Precompiled.cost c d = Ok g -> 0 <= g) /\
  (forall b o, Precompiled.execute c d = Ok (b, o) -> buffer_ok o).

Hypothesis Hblock : block_ok.
Hypothesis Hpre : precompiled_ok.

(** *** Invariants *)

Record winv (w : World) : Prop := {
  wi_s : world_ok (w_s w);
  wi_sizes : map_Forall (fun _ v => uint_ok 64 v) (CodeSizeCache.m_cache (w_sizes w))
}.

(** How a process may end: not by an access out of bounds, and not because the model ran
    out of fuel. *)
Definition proper (h : halt) : bool := match h with Exit | LongCode => true | OutOfBounds | Exhausted => false end.
Definition orderly (x : exec_exn) : bool := match x with Halted h => proper h | _ => true end.
Definition unharmed (o : option halt) : bool := match o with Some h => proper h | None => true end.

#[local] Instance xinv : ExtInvariant XD := fun x => winv (x_w x) /\ unharmed (x_halt x) = true.

(** A transaction up to what it memoises. *)
Definition core (t : TransactionBase) : TransactionBase := set_sender [] (set_hashWith [] t).

(** An executive at depth [d], with at most [G] gas, for the transaction and the base
    gas [T]. *)
Record einv (d G : Z) (T : TransactionBase * Z) (e : Executive) : Prop := {
  ei_w : winv (m_w e);
  ei_ext : forall x, m_ext e = Some x -> env_ok (ext_env x) /\ VM.depth (ext_env x) = d;
  ei_out : buffer_ok (m_output e);
  ei_gas : 0 <= m_gas e <= G;
  ei_new : hash_ok 20 (m_newAddress e);
  ei_depth : m_depth e = d;
  ei_t : core (m_t e) = core (fst T);
  ei_base : m_baseGasRequired e = snd T
}.

(** What comes out of an operation. *)
Definition esafe {A} d G T (m : EM A) (Q : A -> Prop) : Prop := forall e, einv d G T e ->
  match m e with
  | (Ok a, e') => einv d G T e' /\ Q a
  | (Err x, e') => orderly x = true /\ winv (m_w e')
  end.

Section Rules.
Context (d G : Z) (T : TransactionBase * Z).
Abbreviation esafe := (esafe d G T).

Lemma esafe_bind {A B} (m : EM A) (f : A -> EM B) Q R :
  esafe m Q -> (forall a, Q a -> esafe (f a) R) -> esafe (mbind m f) R.
Proof.
  intros Hm Hf e He. specialize (Hm e He). unfold mbind. destruct (m e) as [[a|x] e']; [|done].
  destruct Hm as [H1 H2]. by apply (Hf a H2 e').
Qed.
Lemma esafe_any {A} (m : EM A) : esafe m any -> esafe m any.
Proof. done. Qed.
Lemma esafe_ret {A} (a : A) (Q : A -> Prop) : Q a -> esafe (mret a) Q.
Proof. intros HQ e He. by split. Qed.
Lemma esafe_throw {A} x (Q : A -> Prop) : orderly x = true -> esafe (mthrow x) Q.
Proof. intros Hx e He. split; [done|]. apply He. Qed.
Lemma esafe_get {A} (f : Executive -> A) (Q : A -> Prop) : (forall e, einv d G T e -> Q (f e)) -> esafe (mget f) Q.
Proof. intros HQ e He. split; [done|]. by apply HQ. Qed.
Lemma esafe_put (f : Executive -> Executive) (Q : unit -> Prop) : (forall e, einv d G T e -> einv d G T (f e)) -> Q tt -> esafe (mput f) Q.
Proof. intros Hf HQ e He. split; [by apply Hf|done]. Qed.
Lemma esafe_if {A} (b : bool) (m n : EM A) Q : esafe m Q -> esafe n Q -> esafe (if b then m else n) Q.
Proof. by destruct b. Qed.
Lemma esafe_lift {A} (r : result exec_exn A) (Q : A -> Prop) :
  (forall a, r = Ok a -> Q a) -> (forall x, r = Err x -> orderly x = true) -> esafe (mlift r) Q.
Proof. intros H1 H2 e He. unfold mlift. destruct r; [split; auto|split; [by apply H2|apply He]]. Qed.

Definition wsafe {A} (p : World -> result exec_exn A * World) (Q : A -> Prop) : Prop := forall w, winv w ->
  match p w with
  | (Ok a, w') => winv w' /\ Q a
  | (Err x, w') => orderly x = true /\ winv w'
  end.
Lemma esafe_w {A} (p : World -> result exec_exn A * World) Q : wsafe p Q -> esafe (on_w p) Q.
Proof.
  intros Hp e []. unfold on_w. specialize (Hp (m_w e) ltac:(done)). destruct (p (m_w e)) as [[a|x] w]; [|done].
  destruct Hp. by split.
Qed.
Lemma wsafe_s {A} (p : State.ST A) Q : keeps p Q -> wsafe (on_state p) Q.
Proof.
  intros Hp w [Hs Hz]. unfold on_state. destruct (Hp (w_s w) Hs) as [H1 H2]. destruct (p (w_s w)) as [[a|x] s]; cbn in *.
  - split; [by split|]. by apply H2.
  - split; [done|]. by split.
Qed.
Lemma esafe_s {A} (p : State.ST A) Q : keeps p Q -> esafe (on_s p) Q.
Proof. intros Hp. by apply esafe_w, wsafe_s. Qed.
Lemma wsafe_codeSize a : wsafe (codeSize a) (uint_ok 64).
Proof.
  intros w Hw. unfold codeSize. pose proof (wsafe_s _ _ (keeps_account a) w Hw) as H1.
  destruct (on_state (State.account a) w) as [[[x|]|e] w1]; [| |done]; destruct H1 as [Hw1 Hx]; [|by split].
  assert (forall c, buffer_ok c -> uint_ok 64 (zlen c)) as Hlen by (intros c [_ ?]; unfold uint_ok; lia).
  destruct (Account.m_hasNewCode x); [split; [done|apply Hlen; by apply ir_code]|].
  destruct (CodeSizeCache.contains _ _) eqn:Ec.
  { split; [done|]. unfold CodeSizeCache.contains in Ec. apply bool_decide_eq_true in Ec as [v Ev].
    unfold CodeSizeCache.get. rewrite Ev. by apply (wi_sizes w1 Hw1 (Account.m_codeHash x)). }
  pose proof (wsafe_s _ _ (keeps_code a) w1 Hw1) as H2. destruct (on_state (State.code a) w1) as [[c|e] w2]; [|done].
  destruct H2 as [[Hs Hz] Hc]. split; [|by apply Hlen]. split; [done|]. cbn.
  apply map_Forall_insert_2; [by apply Hlen|]. destruct (_ <=? _)%nat; [|done]. unfold CodeSizeCache.removeRandomElement.
  destruct (CodeSizeCache.least _); [|done]. cbn. by apply map_Forall_delete.
Qed.

(** *** Setting up a call *)

Lemma sender_core t : core (snd (sender t)) = core t.
Proof.
  unfold sender, mbind, mget, mput, mret, mthrow. destruct (FixedHash.to_bool (m_sender t)); [done|].
  destruct (hasZeroSignature t); [done|]. destruct (m_vrs t) as [g|]; [|done]. unfold tx_sha3.
  destruct (false && _); [by destruct (negb _)|]. destruct (streamed _) as [b|]; [|done]. by destruct (negb _).
Qed.
Lemma esafe_sender : esafe (on_t sender) any.
Proof.
  intros e []. unfold on_t. pose proof (sender_core (m_t e)) as Hg. destruct (sender (m_t e)) as [[a|x] t]; cbn in Hg; [|done].
  split; [|done]. split; try done. cbn. congruence.
Qed.

Lemma schedule_known n : schedule_ok (SealEngine.vvmSchedule chainParams n) = true.
Proof.
  pose proof schedules_ok as Hs. rewrite forallb_forall in Hs. apply Hs.
  unfold SealEngine.vvmSchedule, scheduleForBlockNumber. repeat (destruct (_ <=? _); [cbn; by auto 12|]). cbn. by auto 12.
Qed.

Lemma esafe_make_ext my c o v p dat cod st : hash_ok 20 my -> uint_ok 256 v -> uint_ok 256 p -> buffer_ok dat -> buffer_ok cod ->
  esafe (make_ext chainParams EI my c o v p dat cod st) any.
Proof.
  intros Hm Hv Hp Hdat Hcod. apply esafe_put; [|done]. intros e He. destruct Hblock. destruct He as [? ? ? ? ? Hdep ? ?].
  split; try done. cbn. intros x [= <-]. cbn. split; [|done]. split; cbn; try done. apply schedule_known.
Qed.

Lemma esafe_gas g : 0 <= g <= G -> esafe (mput (set_gas g)) any.
Proof. intros Hg. apply esafe_put; [|done]. intros e []. by split. Qed.
Lemma esafe_excepted x : esafe (mput (set_excepted x)) any.
Proof. apply esafe_put; [|done]. intros e []. by split. Qed.
Lemma esafe_output o : buffer_ok o -> esafe (mput (set_output o)) any.
Proof. intros Ho. apply esafe_put; [|done]. intros e []. by split. Qed.
Lemma esafe_new a : hash_ok 20 a -> esafe (mput (set_newAddress a)) any.
Proof. intros Ha. apply esafe_put; [|done]. intros e []. by split. Qed.
Lemma esafe_save : esafe save any.
Proof.
  unfold save. eapply esafe_bind; [apply esafe_s, keeps_savepoint|]. intros n _. apply esafe_put; [|done]. intros e []. by split.
Qed.

Lemma esafe_revert : esafe revert any.
Proof.
  unfold revert. eapply esafe_bind; [apply (esafe_put _ any); [|done]|].
  { intros e He. destruct (m_ext e) as [x|] eqn:Ex; [|done]. destruct He as [? Hx]. split; try done. cbn. intros y [= <-]. cbn. by apply Hx. }
  intros _ _. eapply esafe_bind; [apply esafe_new, zero_address_ok|]. intros _ _.
  eapply esafe_bind; [by apply (esafe_get _ any)|]. intros n _. apply esafe_s, keeps_rollback.
Qed.

Lemma wrap_gas g p : 0 <= g <= p -> p <= G -> G < 2 ^ 256 -> 0 <= wrap 256 (p - g) <= G.
Proof. intros. rewrite wrap_small by (unfold uint_ok; lia). lia. Qed.

Lemma esafe_cost a c : buffer_ok c -> esafe (costOfPrecompiled precompiled a c) (fun g => 0 <= g).
Proof.
  intros Hc. unfold costOfPrecompiled, aborting. destruct (precompiled !! a) as [k|] eqn:Ek; [|by apply esafe_throw].
  apply esafe_lift; destruct (Precompiled.cost k c) as [g|] eqn:Eg; try done; [|by intros ? [= <-]].
  intros ? [= <-]. by apply (Hpre a k c Ek Hc).
Qed.
Lemma esafe_precompiled a c : buffer_ok c -> esafe (executePrecompiled precompiled a c) (fun r => buffer_ok (snd r)).
Proof.
  intros Hc. unfold executePrecompiled, aborting. destruct (precompiled !! a) as [k|] eqn:Ek; [|by apply esafe_throw].
  apply esafe_lift; destruct (Precompiled.execute k c) as [[b o]|] eqn:Eg; try done; [|by intros ? [= <-]].
  intros ? [= <-]. by apply (proj2 (Hpre a k c Ek Hc) b o).
Qed.

Lemma esafe_call p price o : G < 2 ^ 256 -> 0 <= cp_gas p <= G -> hash_ok 20 (receiveAddress p) -> uint_ok 256 (valueTransfer p) ->
  uint_ok 256 (apparentValue p) -> buffer_ok (cp_data p) -> uint_ok 256 price ->
  esafe (call chainParams precompiled EI p price o) any.
Proof.
  intros HG Hg Hr Hv Ha Hdat Hp. unfold call.
  assert (esafe (exec! on_s (State.transferBalance (senderAddress p) (receiveAddress p) (valueTransfer p)) in
                 mget (fun e => match m_ext e with Some _ => false | None => true end)) any) as Htr.
  { eapply esafe_bind; [apply esafe_s; by apply keeps_transfer|]. intros _ _. by apply esafe_get. }
  eapply esafe_bind; [by apply (esafe_get _ any)|]. intros t _.
  eapply esafe_bind; [apply esafe_any, esafe_if; [apply esafe_s, keeps_incNonce|by apply esafe_ret]|]. intros _ _.
  eapply esafe_bind; [apply esafe_save|]. intros _ _. apply esafe_if.
  - eapply esafe_bind; [by apply esafe_cost|]. intros g Hg0. cbv beta in Hg0. destruct (Z.ltb_spec (cp_gas p) g).
    + eapply esafe_bind; [apply esafe_excepted|]. intros _ _. eapply esafe_bind; [|intros _ _; by apply esafe_ret].
      apply esafe_any, esafe_if; [apply esafe_s, keeps_addBalance; by unfold uint_ok|by apply esafe_ret].
    + eapply esafe_bind; [apply esafe_gas, wrap_gas; lia|]. intros _ _.
      eapply esafe_bind; [by apply esafe_precompiled|]. intros [b out] Hout.
      eapply esafe_bind; [by apply esafe_output|]. intros _ _. apply esafe_if; [|done].
      eapply esafe_bind; [apply esafe_gas; lia|]. intros _ _. eapply esafe_bind; [apply esafe_excepted|]. intros _ _. by apply esafe_ret.
  - eapply esafe_bind; [by apply esafe_gas|]. intros _ _. eapply esafe_bind; [apply esafe_s, keeps_pure|]. intros has _.
    eapply esafe_bind; [|by intros _ _]. apply esafe_any, esafe_if; [|by apply esafe_ret].
    eapply esafe_bind; [apply esafe_s, keeps_code|]. intros c Hc. eapply esafe_bind; [apply esafe_s, keeps_pure|]. intros _ _.
    by apply esafe_make_ext.
Qed.

Lemma esafe_executeCreate s0 v price g init o : G < 2 ^ 256 -> 0 <= g <= G -> uint_ok 256 v -> uint_ok 256 price -> buffer_ok init ->
  esafe (executeCreate chainParams EI s0 v price g init o) any.
Proof.
  intros HG Hg Hv Hp Hi. unfold executeCreate.
  eapply esafe_bind; [apply esafe_any, esafe_if; [apply esafe_s, keeps_incNonce|by apply esafe_ret]|]. intros _ _.
  eapply esafe_bind; [apply esafe_save|]. intros _ _.
  eapply esafe_bind; [apply (esafe_put _ any); [|done]; intros e []; by split|]. intros _ _.
  eapply esafe_bind; [by apply esafe_gas|]. intros _ _.
  eapply esafe_bind; [apply (esafe_get _ (hash_ok 20)); by intros e []|]. intros a Ha.
  eapply esafe_bind; [apply esafe_s, keeps_pure|]. intros has _.
  eapply esafe_bind; [apply esafe_any, esafe_if; [by apply esafe_ret|]|].
  { eapply esafe_bind; [apply esafe_s, keeps_getNonce|]. intros n _. by apply esafe_ret. }
  intros used _. apply esafe_if.
  - eapply esafe_bind; [apply esafe_gas; lia|]. intros _ _. eapply esafe_bind; [apply esafe_excepted|]. intros _ _.
    eapply esafe_bind; [apply esafe_revert|]. intros _ _.
    eapply esafe_bind; [apply (esafe_put _ any); [|done]; intros e []; by split|]. intros _ _. by apply esafe_ret.
  - eapply esafe_bind; [apply esafe_s; by apply keeps_transfer|]. intros _ _.
    eapply esafe_bind; [apply esafe_s, keeps_requireNonce|]. intros n _.
    eapply esafe_bind; [apply esafe_s, keeps_setNonce|]. intros _ _. destruct init as [|b init]; [by apply esafe_get|].
    eapply esafe_bind; [apply esafe_make_ext; try done; apply buffer_nil|]. intros _ _. by apply esafe_ret.
Qed.

Lemma esafe_createOpcode s0 v price g init o : G < 2 ^ 256 -> 0 <= g <= G -> uint_ok 256 v -> uint_ok 256 price -> buffer_ok init ->
  esafe (createOpcode chainParams EI s0 v price g init o) any.
Proof.
  intros. unfold createOpcode. eapply esafe_bind; [apply esafe_s, keeps_getNonce|]. intros n _.
  eapply esafe_bind; [apply (esafe_lift _ any); [done|]; destruct (rlp_list2 s0 n); [done|]; by intros ? [= <-]|]. intros l _.
  eapply esafe_bind; [apply esafe_new, right160_ok|]. intros _ _. by apply esafe_executeCreate.
Qed.
Lemma esafe_create2Opcode s0 v price g init o salt : G < 2 ^ 256 -> 0 <= g <= G -> uint_ok 256 v -> uint_ok 256 price -> buffer_ok init ->
  esafe (create2Opcode chainParams EI s0 v price g init o salt) any.
Proof.
  intros. unfold create2Opcode. eapply esafe_bind; [apply esafe_new, right160_ok|]. intros _ _. by apply esafe_executeCreate.
Qed.
End Rules.

(** *** Running *)

(** The interpreter with [n] levels below it, at a depth from which they are
    enough. *)
Definition vm_safe (n : nat) (vm : Env -> Z -> XD -> option (result VM.exn bytes * Z * XD)) : Prop :=
  forall env g x, env_ok env -> zlen (VM.code env) <= 458752 -> VM.depth env <= 1024 < Z.of_nat n + VM.depth env -> ext_inv x ->
  exists r g' x', vm env g x = Some (r, g', x') /\ VMProps.sound r /\ 0 <= g' <= wrap 64 g /\ ext_inv x'.

Section Run.
Context (vm_exec : Env -> Z -> XD -> option (result VM.exn bytes * Z * XD)) (n : nat) (Hvm : vm_safe n vm_exec).
Context (d G : Z) (T : TransactionBase * Z) (Hd : d <= 1024 < Z.of_nat n + d) (HG : G < 2 ^ 256).

(** The [try] block of [go]. *)
Definition gsafe {A} (m : M Executive go_exn A) (Q : A -> Prop) : Prop := forall e, einv d G T e ->
  match m e with
  | (Ok a, e') => einv d G T e' /\ Q a
  | (Err (Thrown v), e') => VMSafety.fair v /\ einv d G T e'
  | (Err (Fatal h), e') => proper h = true /\ winv (m_w e')
  end.
Lemma gsafe_bind {A B} (m : M Executive go_exn A) (f : A -> M Executive go_exn B) Q R :
  gsafe m Q -> (forall a, Q a -> gsafe (f a) R) -> gsafe (mbind m f) R.
Proof.
  intros Hm Hf e He. specialize (Hm e He). unfold mbind. destruct (m e) as [[a|x] e']; [|done].
  destruct Hm as [H1 H2]. by apply (Hf a H2 e').
Qed.
Lemma gsafe_put (f : Executive -> Executive) (Q : unit -> Prop) : (forall e, einv d G T e -> einv d G T (f e)) -> Q tt -> gsafe (mput f) Q.
Proof. intros Hf HQ e He. split; [by apply Hf|done]. Qed.
Lemma gsafe_try {A} (p : State.ST A) Q : keeps p Q -> gsafe (try_s p) Q.
Proof.
  intros Hp e He. unfold try_s. pose proof (esafe_s d G T p Q Hp e He) as Hs.
  destruct (on_w (on_state p) e) as [[a|x] e']; [done|]. by split; [|apply Hs].
Qed.

Lemma gsafe_vm x : env_ok (ext_env x) -> VM.depth (ext_env x) = d -> gsafe (run_vm vm_exec x) buffer_ok.
Proof.
  intros Hx Hdx e He. unfold run_vm. destruct (Z.ltb_spec 458752 (zlen (VM.code (ext_env x)))); [split; [done|apply He]|].
  destruct (Hvm (ext_env x) (m_gas e) {| x_w := m_w e; x_sub := ext_sub x; x_halt := None |}) as (r & g & x' & -> & Hr & Hg & Hw & Hh);
    [done|lia|by rewrite Hdx|split; [apply He|done]|].
  destruct He as [He1 He2 He3 He4 He5 He6 He7 He8].
  assert (wrap 64 (m_gas e) <= m_gas e) as Hle by (unfold wrap; apply Z.mod_le; lia).
  assert (einv d G T (set_gas g (set_ext (Some {| ext_env := ext_env x; ext_sub := x_sub x' |}) (set_w (x_w x') e)))) as He'.
  { split; cbn; try done; [by intros y [= <-]|lia]. }
  destruct (x_halt x') as [h|]; [by split|]. destruct r as [out|v]; by split.
Qed.

Lemma gsafe_deposit x out : schedule_ok (vvmSchedule (ext_env x)) = true -> buffer_ok out -> gsafe (deposit x out) any.
Proof.
  intros Hs Ho. unfold deposit. assert (forall f, gsafe (mput (in_res f)) any) as Hres.
  { intros f. apply gsafe_put; [|done]. intros e []. by split. }
  apply (gsafe_bind _ _ (fun g => 0 <= g <= G)); [intros e He; split; [done|apply He]|]. intros g Hg. cbv beta in Hg.
  eapply gsafe_bind; [apply Hres|]. intros _ _. set (price := wrap 64 _).
  assert (0 <= price) as Hpr by (apply wrap_range; lia).
  apply (gsafe_bind _ _ buffer_ok).
  - destruct (_ >? _); [by intros e He; split|]. destruct (Z.leb_spec price g).
    + eapply gsafe_bind; [apply Hres|]. intros _ _. eapply gsafe_bind; [|intros _ _ e He; by split].
      apply (gsafe_put _ any); [|done]. intros e []. split; try done. cbn. apply wrap_gas; lia.
    + destruct (exceptionalFailedCodeDeposit _); [by intros e He; split|].
      eapply gsafe_bind; [apply Hres|]. intros _ _ e He. split; [done|apply buffer_nil].
  - intros o Hob. eapply gsafe_bind; [apply Hres|]. intros _ _. by apply gsafe_try, keeps_setCode.
Qed.

Lemma gsafe_go x : env_ok (ext_env x) -> VM.depth (ext_env x) = d -> gsafe (go_try vm_exec x) any.
Proof.
  intros Hx Hdx. unfold go_try. apply (gsafe_bind _ _ any); [by intros e He; split|]. intros [] _.
  - eapply gsafe_bind; [apply gsafe_try, keeps_clearStorage|]. intros _ _.
    eapply gsafe_bind; [by apply gsafe_vm|]. intros out Ho. apply gsafe_deposit; [apply Hx|done].
  - eapply gsafe_bind; [by apply gsafe_vm|]. intros out Ho. apply gsafe_put; [|done]. intros e []. by split.
Qed.

Lemma esafe_guarded x : env_ok (ext_env x) -> VM.depth (ext_env x) = d -> 0 <= G -> esafe d G T (go_guarded vm_exec x) any.
Proof.
  intros Hx Hdx HG0 e He. unfold go_guarded. pose proof (gsafe_go x Hx Hdx e He) as Hg.
  destruct (go_try vm_exec x e) as [[u|[v|h]] e']; [by destruct Hg| |exact Hg].
  destruct Hg as [Hf He']. assert (forall y, esafe d G T (exec! mput (set_gas 0) in exec! mput (set_excepted y) in revert) any) as Hy.
  { intros y. eapply esafe_bind; [apply esafe_gas; lia|]. intros _ _. eapply esafe_bind; [apply esafe_excepted|]. intros _ _. apply esafe_revert. }
  destruct v; try exact (Hy _ e' He'); [|done].
  assert (esafe d G T (exec! revert in exec! mput (set_output output) in mput (set_excepted RevertInstruction)) any) as Hrev; [|exact (Hrev e' He')].
  eapply esafe_bind; [apply esafe_revert|]. intros _ _. eapply esafe_bind; [by apply esafe_output|]. intros _ _. apply esafe_excepted.
Qed.

Lemma esafe_go : 0 <= G -> esafe d G T (go vm_exec) any.
Proof.
  intros HG0. unfold go.
  apply (esafe_bind _ _ _ _ _ (fun ox => forall x, ox = Some x -> env_ok (ext_env x) /\ VM.depth (ext_env x) = d)).
  { apply esafe_get. by intros e []. }
  intros [x|] Hx; [|by apply esafe_ret]. destruct (Hx x eq_refl). eapply esafe_bind; [by apply esafe_guarded|]. intros _ _.
  eapply esafe_bind; [apply (esafe_put _ _ _ _ any); [|done]|intros _ _; by apply esafe_ret].
  intros e He. destruct (m_output e); [done|]. destruct He. by split.
Qed.
End Run.

(** *** Behind the interface *)

Section Laws.
Context (vm_exec : Env -> Z -> XD -> option (result VM.exn bytes * Z * XD)) (n : nat) (Hvm : vm_safe n vm_exec).
Context (env : Env) (Henv : env_ok env) (Hdepth : VM.depth env <= 1024 < Z.of_nat (S n) + VM.depth env).

Lemma halting_inv h x : proper h = true -> ext_inv x -> ext_inv (halting h x).
Proof. intros Hh [H1 H2]. split; [done|]. unfold halting. cbn. by destruct (x_halt x). Qed.

Lemma ext_op_ok {A} (dflt : A) (p : World -> result exec_exn A * World) (Q : A -> Prop) x a x' :
  wsafe p Q -> Q dflt -> ext_inv x -> ext_op dflt p x = (a, x') -> Q a /\ ext_inv x'.
Proof.
  intros Hp HQ [Hw Hh] E. unfold ext_op in E. specialize (Hp (x_w x) Hw). destruct (p (x_w x)) as [[b|e] w].
  - destruct Hp as [Hw' Hb]. injection E as <- <-. split; [done|]. by split.
  - destruct Hp as [He Hw']. assert (forall h, proper h = true -> Q dflt /\ ext_inv (halting h (with_w w x))) as Hhalt.
    { intros h Hne. split; [done|]. apply halting_inv; [done|]. by split. }
    destruct e; injection E as <- <-; apply Hhalt; first [exact He|done].
Qed.

Lemma new_executive_inv G w d : 0 <= G -> winv w -> einv d G (null_transaction, 0) (new_executive w d).
Proof.
  intros HG Hw. split; try done; [apply buffer_nil|apply zero_address_ok].
Qed.

Lemma nested_ok {A} (dflt : A) (m : M Executive exec_exn bool) (f : Executive -> A) (Q : A -> Prop) G x a g x' :
  VM.depth env < 1024 -> 0 <= G < 2 ^ 256 -> esafe (VM.depth env + 1) G (null_transaction, 0) m any -> Q dflt ->
  (forall e, einv (VM.depth env + 1) G (null_transaction, 0) e -> Q (f e)) -> ext_inv x ->
  nested vm_exec env dflt m f x = (a, g, x') -> Q a /\ 0 <= g <= G /\ ext_inv x'.
Proof.
  intros Hd HG Hm HQ Hf [Hw Hh] E. unfold nested in E.
  assert (esafe (VM.depth env + 1) G (null_transaction, 0) (do! done := m in exec! (if negb done then go vm_exec else mret true) in mret done) any) as Hs.
  { eapply esafe_bind; [done|]. intros b _. eapply esafe_bind; [|intros _ _; by apply esafe_ret].
    apply esafe_any, esafe_if; [|by apply esafe_ret]. apply (esafe_go vm_exec n Hvm); lia. }
  specialize (Hs _ (new_executive_inv G (x_w x) (VM.depth env + 1) ltac:(lia) Hw)).
  destruct ((do! done := m in _) _) as [[b|e] e'].
  - destruct Hs as [He _]. injection E as <- <- <-. split; [by apply Hf|]. split; [apply He|]. split; [apply He|done].
  - destruct Hs as [He Hw']. assert (forall h, proper h = true -> Q dflt /\ 0 <= 0 <= G /\ ext_inv (halting h (with_w (m_w e') x))) as Hhalt.
    { intros h Hne. split; [done|]. split; [lia|]. apply halting_inv; [done|]. by split. }
    destruct e; injection E as <- <- <-; apply Hhalt; first [exact He|done].
Qed.

Definition face : ExtVMFace XD := ExtVM_face chainParams precompiled EI vm_exec env.

Lemma affordable_inv v x : affordable (EX := face) env v x -> VM.depth env < 1024 /\ ext_inv x.
Proof.
  intros (Hd & x0 & b & Hx0 & E & _). split; [done|].
  eapply (ext_op_ok _ _ (uint_ok 256)) in E as [_ ?]; [done|apply wsafe_s, keeps_balance|by unfold uint_ok|done].
Qed.

Lemma wsafe_any {A} (p : State.ST A) Q : keeps p Q -> wsafe (on_state p) any.
Proof. intros Hp. apply wsafe_s. by eapply keeps_weaken. Qed.

Lemma unit_op (p : State.ST unit) x : keeps p any -> ext_inv x -> ext_inv (snd (ext_op tt (on_state p) x)).
Proof.
  intros Hp Hx. destruct (ext_op tt (on_state p) x) as [u x'] eqn:E.
  by apply (ext_op_ok _ _ any _ _ _ (wsafe_s _ _ Hp) I Hx) in E as [_ ?].
Qed.

Lemma suicide_inv x a : ext_inv x -> ext_inv (ext_suicide env x a).
Proof.
  intros Hx. unfold ext_suicide. set (p := State.bind _ _).
  assert (keeps p any) as Hp.
  { unfold p. eapply keeps_bind; [apply keeps_balance|]. intros b Hb. eapply keeps_bind; [by apply keeps_addBalance|]. intros _ _.
    eapply keeps_bind; [apply keeps_balance|]. intros b' _. apply keeps_subBalance. }
  by destruct (unit_op p x Hp Hx).
Qed.

Lemma ext_call_ok x p b o g' x' : ext_inv x -> VM.depth env < 1024 -> params_ok env p ->
  ext_call chainParams precompiled EI vm_exec env x p = ((b, o), g', x') -> buffer_ok o /\ 0 <= g' <= cp_gas p /\ ext_inv x'.
Proof.
  intros Hx Hd [Hr Ht Ha Hg Hdat _ _] E.
  apply (nested_ok _ _ _ (fun r => buffer_ok (snd r)) (cp_gas p)) in E; try done.
  - lia.
  - apply esafe_call; try done; [lia|lia|apply Henv].
  - apply buffer_nil.
  - by intros e [].
Qed.

Lemma ext_create_ok x v g c op salt a o g' x' : ext_inv x -> VM.depth env < 1024 -> uint_ok 256 v -> 0 <= g < 2 ^ 64 -> buffer_ok c ->
  ext_create chainParams EI vm_exec env x v g c op salt = ((a, o), g', x') -> buffer_ok o /\ 0 <= g' <= g /\ ext_inv x'.
Proof.
  intros Hx Hd Hv Hg Hc E. unfold ext_create in E.
  apply (nested_ok _ _ _ (fun r => buffer_ok (snd r)) g) in E; try done.
  - lia.
  - destruct (_ =? _); [apply esafe_createOpcode|apply esafe_create2Opcode]; try done; (lia || apply Henv).
  - apply buffer_nil.
  - by intros e [].
Qed.

(** [ExtVM] is what the interpreter expects. *)
Lemma extvm_laws : ExtVMLaws XD (EX := face) env.
Proof.
  assert (uint_ok 256 0) as H0 by (by unfold uint_ok).
  split; cbn [face ExtVM_face VM.store setStore VM.balance codeAt codeSizeAt exists_ blockHash suicide VM.log add_refunds].
  - intros x k v x' E Hx Hk. eapply ext_op_ok in E; [exact E|apply wsafe_s, keeps_storage|done|done].
  - intros x k v Hx _ Hk Hv. apply unit_op; [by apply keeps_setStorage|done].
  - intros x a v x' E Hx. eapply ext_op_ok in E; [exact E|apply wsafe_s, keeps_balance|done|done].
  - intros x a c x' E Hx. eapply ext_op_ok in E; [exact E|apply wsafe_s, keeps_code|apply buffer_nil|done].
  - intros x a v x' E Hx. eapply (ext_op_ok _ _ (uint_ok 64)) in E as [Hv Hx']; [|apply wsafe_codeSize|by unfold uint_ok|done].
    split; [|done]. unfold uint_ok in *. lia.
  - intros x a b x' E Hx. unfold ext_exists in E.
    destruct (eip158Mode _); eapply (ext_op_ok _ _ any) in E as [_ ?]; try done; apply wsafe_s, keeps_pure.
  - intros x k h x' E Hx Hk. unfold ext_blockHash in E. destruct (_ || _) eqn:Er; [by injection E as _ <-|].
    pose proof (bk_fork Hblock). destruct (Z.ltb_spec (number EI) (wrap 256 (constantinopleForkBlock chainParams + 256))); [|lia].
    apply orb_false_iff in Er as [Er1 Er2]. rewrite wrap_small in E by (unfold uint_ok in *; lia). cbv zeta in E.
    destruct (lookup_lt_is_Some_2 (m_lastHashes EI (BlockHeader.m_parentHash (m_headerInfo EI))) (Z.to_nat (number EI - 1 - k))) as [y Ey];
      [pose proof (bk_hashes Hblock (BlockHeader.m_parentHash (m_headerInfo EI))); lia|].
    rewrite Ey in E. by injection E as _ <-.
  - intros x a Hx _ _. by apply suicide_inv.
  - intros x ts dat [Hw Hh] _. by split.
  - intros x k [Hw Hh] _. by split.
  - intros x v g c op salt a o g' x' Haff Hv Hg Hc _ E. apply affordable_inv in Haff as [Hd Hx]. exact (ext_create_ok x v g c op salt a o g' x' Hx Hd Hv Hg Hc E).
  - intros x p b o g' x' Haff Hp E. apply affordable_inv in Haff as [Hd Hx]. exact (ext_call_ok x p b o g' x' Hx Hd Hp E).
Qed.
End Laws.

Lemma vm_at_safe n : vm_safe n (vm_at chainParams precompiled EI n).
Proof.
  induction n as [|n IH]; intros env g x Henv Hc Hd Hx; [lia|]. cbn [vm_at].
  apply (VMProps.exec_runs (EX := face (vm_at chainParams precompiled EI n) env) env (EL := extvm_laws _ n IH env Henv Hd) Henv Hc); [done|].
  pose proof (wrap_range 64 g ltac:(lia)) as [? ?]. rewrite Z2Nat.id by lia. lia.
Qed.

(** *** Transactions *)

Lemma base_nonneg c l n : 0 <= baseGasRequired c l (SealEngine.vvmSchedule chainParams n).
Proof.
  assert (forallb (fun s => (0 <=? txGas s) && (0 <=? txCreateGas s) && (0 <=? txDataZeroGas s) && (0 <=? txDataNonZeroGas s))
    [FrontierSchedule; HomesteadSchedule; EIP150Schedule; EIP158Schedule; ByzantiumSchedule; EWASMSchedule; ConstantinopleSchedule] = true)
    as Hs by (vm_compute; reflexivity).
  rewrite forallb_forall in Hs. specialize (Hs (SealEngine.vvmSchedule chainParams n)). lapply Hs; clear Hs.
  - intros Hs. set (s := SealEngine.vvmSchedule chainParams n) in *. unfold baseGasRequired.
    assert (forall g, 0 <= g -> 0 <= fold_left (fun g i => g + (if negb (i =? 0) then txDataNonZeroGas s else txDataZeroGas s)) l g) as Hf.
    { induction l as [|i l IH]; intros g Hg; [done|]. cbn [fold_left]. apply IH. destruct (negb _); lia. }
    apply Hf. destruct c; lia.
  - unfold SealEngine.vvmSchedule, scheduleForBlockNumber. repeat (destruct (_ <=? _); [cbn; by auto 12|]). cbn. by auto 12.
Qed.

Section Tx.
Context (t : TransactionBase) (Hok : tx_ok t).
Let B : Z := baseGasRequired (isCreation t) (m_data t) (schedule chainParams EI).
Let G : Z := Transaction.m_gas t.
Abbreviation safe := (esafe 0 G (t, B)).

Lemma core_fields u : core u = core t ->
  m_type u = m_type t /\ m_value u = m_value t /\ m_receiveAddress u = m_receiveAddress t /\ m_gasPrice u = m_gasPrice t /\
  Transaction.m_gas u = G /\ m_data u = m_data t /\ Transaction.m_nonce u = Transaction.m_nonce t /\ m_vrs u = m_vrs t /\ m_chainId u = m_chainId t.
Proof. unfold core. intros E. injection E as ? ? ? ? ? ? ? ? ?. by repeat split. Qed.

Lemma safe_verify : safe (verify_transaction chainParams EI) (fun _ => B <= G).
Proof.
  intros e He. unfold verify_transaction. pose proof (core_fields _ (ei_t _ _ _ _ He)) as (E1 & _ & _ & _ & E5 & E6 & _).
  destruct (SealEngine.verifyTransaction _ _ _ _ _) as [[]|x] eqn:Ev; [|split; [done|by destruct He]].
  split; [done|]. unfold SealEngine.verifyTransaction in Ev. inv_bind Ev. inv_bind Ev.
  change (SealEngine.requires Everything_ SealEngine.TransactionBasic) with true in Ev. cbn [andb] in Ev.
  destruct (Z.gtb_spec (baseGasRequired (isCreation (m_t e)) (m_data (m_t e))
    (SealEngine.vvmSchedule chainParams (BlockHeader.m_number (m_headerInfo EI)))) (Transaction.m_gas (m_t e))) as [|Hle]; [done|].
  unfold isCreation in Hle. rewrite E1, E6, E5 in Hle. exact Hle.
Qed.

Lemma safe_t : safe (mget m_t) (fun u => core u = core t).
Proof. apply esafe_get. by intros e []. Qed.

(** What [initialize] does once the transaction is set. *)
Lemma safe_initialize e : einv 0 G (t, B) (set_baseGasRequired B (set_t t e)) ->
  match initialize chainParams EI t e with
  | (Ok _, e') => einv 0 G (t, B) e' /\ B <= G
  | (Err x, e') => orderly x = true /\ winv (m_w e')
  end.
Proof.
  intros He. unfold initialize, mbind at 1 2. cbn [mput].
  match goal with |- context [mbind (verify_transaction _ _) ?k] =>
    assert (safe (mbind (verify_transaction chainParams EI) k) (fun _ => B <= G)) as Hs; [|exact (Hs _ He)] end.
  eapply esafe_bind; [apply safe_verify|]. intros [] HB. cbv beta in HB. eapply esafe_bind; [apply safe_t|]. intros u _.
  apply esafe_if; [by apply esafe_ret|]. apply (esafe_bind _ _ _ _ _ any).
  { assert (safe (do! a := on_t sender in do! n := on_s (State.getNonce a) in mret (a, n)) any) as Hn.
    { eapply esafe_bind; [apply esafe_sender|]. intros a _. eapply esafe_bind; [apply esafe_s, keeps_getNonce|]. intros n _. by apply esafe_ret. }
    intros e1 He1. specialize (Hn e1 He1). unfold sender_nonce. destruct ((do! a := _ in _) e1) as [[[a n]|x] e2]; [done|].
    destruct Hn as [Hx Hw]. destruct x; try done. destruct e0; by split. }
  intros [a n] _. apply esafe_if.
  { eapply esafe_bind; [apply esafe_excepted|]. intros _ _. by apply esafe_throw. }
  eapply esafe_bind; [apply esafe_s, keeps_balance|]. intros b _. apply esafe_if.
  { eapply esafe_bind; [apply esafe_excepted|]. intros _ _. by apply esafe_throw. }
  apply esafe_put; [|done]. intros e1 []. by split.
Qed.

Lemma safe_execute : B <= G -> safe (execute chainParams precompiled EI) any.
Proof.
  intros HB. pose proof (ok_gas t Hok) as Hgas. assert (0 <= B) by apply base_nonneg.
  assert (wrap 256 (G - wrap 256 B) = G - B) as Hw by (unfold G in *; rewrite !wrap_small; unfold uint_ok in *; rewrite ?wrap_small; unfold uint_ok; lia).
  assert (buffer_ok (m_data t)) as Hdat by (split; apply Hok).
  unfold execute. eapply esafe_bind; [apply esafe_sender|]. intros a _. eapply esafe_bind; [by apply (esafe_get _ _ _ _ any)|]. intros c _.
  eapply esafe_bind; [apply esafe_s, keeps_subBalance|]. intros _ _. eapply esafe_bind; [apply safe_t|]. intros u Hu.
  apply (esafe_bind _ _ _ _ _ (fun b => b = B)); [apply esafe_get; by intros e []|]. intros b Hb. cbv beta in Hb. rewrite Hb.
  destruct (core_fields u Hu) as (E1 & E2 & E3 & E4 & E5 & E6 & _). rewrite E2, E3, E4, E5, E6, Hw. unfold isCreation. rewrite E1.
  assert (G < 2 ^ 256) by (unfold G, uint_ok in *; lia). apply esafe_if.
  - apply esafe_createOpcode; try done; [lia|apply Hok|apply Hok].
  - apply esafe_call; cbn; try done; [lia|by apply Hok|apply Hok|apply Hok|apply Hok].
Qed.

Lemma refund_gas e : einv 0 G (t, B) e ->
  let e1 := accumulate e in let e2 := set_refunded (refund_of e1) e1 in
  einv 0 G (t, B) (set_gas (wrap 256 (m_gas e2 + m_refunded e2)) e2).
Proof.
  intros He. pose proof (ok_gas t Hok) as Hgas. fold G in Hgas. pose proof (core_fields _ (ei_t _ _ _ _ He)) as (_ & _ & _ & _ & Et & _).
  intros e1 e2. assert (m_gas e2 = m_gas e /\ m_t e2 = m_t e /\ einv 0 G (t, B) e2) as (H1 & H2 & H3).
  { unfold e2, e1, accumulate. destruct (m_ext e) as [x|] eqn:Ex; (split; [done|]; split; [done|]); destruct He as [? Hx]; (split; try done).
    cbn. intros y [= <-]. exact (Hx x Ex). }
  assert (0 <= m_refunded e2 <= (G - m_gas e) / 2) as Hr.
  { pose proof (ei_gas _ _ _ _ He) as Hg. pose proof (Z.div_pos (G - m_gas e) 2 ltac:(lia) ltac:(lia)).
    unfold e2. cbn [m_refunded set_refunded]. unfold refund_of. assert (Transaction.m_gas (m_t e1) = G /\ m_gas e1 = m_gas e) as [-> ->].
    { unfold e1, accumulate. by destruct (m_ext e). }
    rewrite wrap_small by (unfold uint_ok in *; lia). unfold e1, accumulate. destruct (m_ext e) as [x|] eqn:Ex; cbn [m_ext set_ext]; [|rewrite Ex; lia].
    cbn [ext_sub refunds]. match goal with |- context [wrap 256 ?z] => pose proof (wrap_range 256 z ltac:(lia)) as [? _] end. lia. }
  pose proof (ei_gas _ _ _ _ He) as Hg. pose proof (Z.mul_div_le (G - m_gas e) 2 ltac:(lia)).
  destruct H3. split; try done. change (0 <= wrap 256 (m_gas e2 + m_refunded e2) <= G). rewrite H1. rewrite wrap_small by (unfold uint_ok in *; lia). lia.
Qed.

Lemma safe_pay : safe (pay_fees EI) any.
Proof.
  unfold pay_fees. eapply esafe_bind; [apply safe_t|]. intros u _. apply esafe_if; [by apply esafe_ret|].
  eapply esafe_bind; [apply esafe_sender|]. intros a _. eapply esafe_bind; [by apply (esafe_get _ _ _ _ any)|]. intros g _.
  eapply esafe_bind; [apply esafe_s, keeps_addBalance, wrap_range; lia|]. intros _ _. apply esafe_s, keeps_addBalance, wrap_range. lia.
Qed.
Lemma safe_kills l : safe (kill_all l) any.
Proof.
  induction l as [|a l IH]; [by apply esafe_ret|]. cbn [kill_all]. eapply esafe_bind; [apply esafe_s, keeps_kill|]. by intros _ _.
Qed.

Lemma safe_suicides : safe suicides_logs any.
Proof.
  unfold suicides_logs. eapply esafe_bind; [by apply (esafe_get _ _ _ _ any)|]. intros [x|] _; [|by apply esafe_ret].
  eapply esafe_bind; [apply safe_kills|]. intros _ _. apply esafe_put; [|done]. intros e []. by split.
Qed.

(** A finished transaction. *)
Definition settled (e : Executive) : Prop :=
  winv (m_w e) /\ 0 <= gasUsed e <= G /\ forall r, m_res e = Some r -> res_gasUsed r = gasUsed e.

Lemma safe_finalize e : einv 0 G (t, B) e ->
  match finalize EI e with (Ok _, e') => settled e' | (Err x, e') => orderly x = true end.
Proof.
  intros He. pose proof (refund_gas e He) as Hr. cbn zeta in Hr. unfold finalize, mbind at 1 2 3. cbn [mput].
  revert Hr. generalize (set_gas (wrap 256 (m_gas (set_refunded (refund_of (accumulate e)) (accumulate e)) +
    m_refunded (set_refunded (refund_of (accumulate e)) (accumulate e)))) (set_refunded (refund_of (accumulate e)) (accumulate e))) as e1.
  intros e1 He1. unfold mbind at 1. pose proof (safe_pay e1 He1) as Hp. destruct (pay_fees EI e1) as [[[]|x] e2]; [|apply Hp].
  destruct Hp as [He2 _]. unfold mbind at 1. pose proof (safe_suicides e2 He2) as Hk.
  destruct (suicides_logs e2) as [[[]|x] e3]; [|apply Hk].
  destruct Hk as [He3 _]. unfold mbind, mput, mget. pose proof (core_fields _ (ei_t _ _ _ _ He3)) as (_ & _ & _ & _ & Et & _).
  pose proof (ok_gas t Hok) as Hgas. fold G in Hgas. pose proof (ei_gas _ _ _ _ He3) as Hg.
  assert (gasUsed (collect e3) = gasUsed e3) as Hu by done. unfold settled. rewrite Hu.
  split; [apply He3|]. split; [unfold gasUsed; rewrite Et, wrap_small; unfold uint_ok in *; lia|].
  intros r. unfold collect, in_res. cbn. destruct (m_res e3); [|done]. by intros [= <-].
Qed.

Lemma safe_transaction w res : winv w ->
  match executeTransaction chainParams precompiled EI (vm_at chainParams precompiled EI levels) t (set_res res (new_executive w 0)) with
  | (Ok _, e') => settled e'
  | (Err x, e') => orderly x = true
  end.
Proof.
  intros Hw. pose proof (ok_gas t Hok) as Hgas. fold G in Hgas.
  assert (einv 0 G (t, B) (set_baseGasRequired B (set_t t (set_res res (new_executive w 0))))) as He.
  { destruct (new_executive_inv G w 0) as [? ? ? ? ? ? ? ?]; [unfold uint_ok in *; lia|done|]. by split. }
  unfold executeTransaction. unfold mbind at 1. pose proof (safe_initialize _ He) as Hi.
  destruct (initialize _ _ t _) as [[[]|x] e1]; [|apply Hi]. destruct Hi as [He1 HB].
  unfold mbind at 1. pose proof (safe_execute HB e1 He1) as Hx. destruct (execute _ _ _ e1) as [[b|x] e2]; [|apply Hx]. destruct Hx as [He2 _].
  unfold mbind at 1. assert (safe (if negb b then go (vm_at chainParams precompiled EI levels) else mret true) any) as Hgo.
  { apply esafe_if; [|by apply esafe_ret]. apply (esafe_go _ levels (vm_at_safe levels)); [|unfold uint_ok in *; lia|unfold uint_ok in *; lia].
    unfold levels. rewrite Z2Nat.id by lia. lia. }
  specialize (Hgo e2 He2). destruct ((if negb b then go (vm_at chainParams precompiled EI levels) else mret true) e2) as [[b'|x] e3]; [|apply Hgo]. destruct Hgo as [He3 _].
  by apply safe_finalize.
Qed.

End Tx.
End Safe.
End ExecSafe.
