(* ===== verification/TxProps.v ===== *)
(** * TxProps: transactions end to end

    The theorems on executing transactions: termination and safety of the whole tree
    of calls, what a plain transfer does to the balances, which transactions are
    accepted, and what block hashes cost after the Constantinople fork. *)

From stdpp Require Import base list numbers option gmap.
From Stdlib Require Import ZArith Lia.
From S2P Require Import Prelude Bytes Rlp RlpStream RlpFields Keccak Instruction VMOpt VM VMSafety VMProps MemoryDB TrieDB Account State StateProps Crypto Transaction BlockHeader Seal Receipt Precompiled Executive ExecProps.
Import CommonData Keccak TrieDB.

#[local] Opaque sha3.

Module TxProps.
Import Transaction ChainOperationParams Executive Keeps ExecSafe.

(** ** The tree of calls *)
Section Calls.
Context {DB : Type} `{NodeDB DB} {L : Crypto.Secp256k1}.
Variable chainParams : ChainOperationParams.
Variable precompiled : gmap bytes Precompiled.PrecompiledContract.
Variable EI : EnvInfo.



End Calls.

(** ** Plain transfers *)
Section Ledger.
Context {DB : Type} `{NodeDB DB}.
Import Account State StateProps.
Implicit Types s : State DB.

Lemma quiet_pays s s1 s' a w : st_ok s -> quiet s s1 -> pays s1 s' a w -> pays s s' a w.
Proof.
  intros Hok [Hok1 He Hl] [H1 H2 H3 H4 H5 H6]. pose proof (st_eq_view s s1 Hok Hok1 He) as Hv.
  split; [done|by rewrite H2, (eq_start _ _ He)|done| |done|].
  - intros c u Hc Hu. apply H4; [done|]. by apply Hv.
  - intros c u Hc Hu. apply H6; [done|]. by apply Hv.
Qed.

Lemma subBalance_pays s a v x :
  st_ok s -> m_accountStartNonce s <> Invalid256 -> 0 < v <= x -> fst (balance a s) = Ok x ->
  exists s', subBalance a v s = (Ok tt, s') /\ pays s s' a (x - v).
Proof.
  intros Hok Hn Hv Hx. pose proof (balance_range s a x Hok Hx) as Hxr. unfold subBalance. destruct (Z.eqb_spec v 0); [lia|].
  destruct (account_quiet a s Hok) as [Hq Hl]. rewrite balance_result in Hx. unfold bind.
  destruct (account a s) as [[[xa|]|e] s1]; [| |done]; cbn [fst snd] in *; injection Hx as Hx; cbn in Hx; [|lia]. subst x.
  destruct (Z.ltb_spec (m_balance xa) v); [lia|]. destruct Hl as [_ Hl].
  destruct (addBalance_pays s1 a (wrap 256 (0 - v)) (m_balance xa)) as (s' & E & Hp).
  - apply Hq.
  - apply (wrap_range 256). lia.
  - by rewrite (eq_start _ _ (quiet_eq _ _ Hq)).
  - by apply balance_cached.
  - exists s'. split; [done|]. apply (quiet_pays s s1); [done|done|].
    replace (m_balance xa - v) with (wrap 256 (m_balance xa + wrap 256 (0 - v))); [done|].
    unfold wrap. rewrite Zplus_mod_idemp_r. apply Z.mod_small. lia.
Qed.

(** The balances of three accounts, and of the others as in [s0]; while [chk], the
    second has no code. *)
Record ledger (s0 : State DB) (a b c : bytes) (x y z : Z) (chk : bool) (s : State DB) : Prop := {
  led_ok : st_ok s;
  led_start : m_accountStartNonce s <> Invalid256;
  led_a : fst (balance a s) = Ok x;
  led_b : fst (balance b s) = Ok y;
  led_c : fst (balance c s) = Ok z;
  led_other : forall d u, d <> a -> d <> b -> d <> c -> fst (balance d s0) = Ok u -> fst (balance d s) = Ok u;
  led_code : if chk then fst (addressHasCode b s) = Ok false else True
}.

Section Steps.
Context (s0 : State DB) (a b c : bytes) (Hab : a <> b) (Hac : a <> c) (Hbc : b <> c).
Abbreviation led := (ledger s0 a b c).

Lemma led_quiet x y z k s s1 : led x y z k s -> quiet s s1 -> led x y z k s1.
Proof.
  intros [H1 H2 H3 H4 H5 H6 H7] [Hok He _]. pose proof (st_eq_view s s1 H1 Hok He) as Hv.
  split; try done; try (by apply Hv); [by rewrite (eq_start _ _ He)| |].
  - intros d u Ha Hb Hc Hu. by apply Hv, H6.
  - destruct k; [by apply Hv|done].
Qed.
Lemma led_pays_a x y z k s s1 w : led x y z k s -> pays s s1 a w -> led w y z k s1.
Proof.
  intros [H1 H2 H3 H4 H5 H6 H7] [P1 P2 P3 P4 P5 P6]. split; try done; [by rewrite P2|by apply P4|by apply P4| |].
  - intros d u Ha Hb Hc Hu. by apply P4, H6.
  - destruct k; [by apply P6|done].
Qed.
Lemma led_pays_b x y z k s s1 w : led x y z k s -> pays s s1 b w -> led x w z false s1.
Proof.
  intros [H1 H2 H3 H4 H5 H6 H7] [P1 P2 P3 P4 P5 P6]. split; try done; [by rewrite P2|by apply P4|by apply P4|].
  intros d u Ha Hb Hc Hu. by apply P4, H6.
Qed.
Lemma led_pays_c x y z s s1 w : led x y z false s -> pays s s1 c w -> led x y w false s1.
Proof.
  intros [H1 H2 H3 H4 H5 H6 H7] [P1 P2 P3 P4 P5 P6]. split; try done; [by rewrite P2|by apply P4|by apply P4|].
  intros d u Ha Hb Hc Hu. by apply P4, H6.
Qed.

Lemma led_transfer x y z k s v : led x y z k s -> 0 <= v <= x -> v < 2 ^ 256 ->
  exists s', transferBalance a b v s = (Ok tt, s') /\ led (x - v) (wrap 256 (y + v)) z false s'.
Proof.
  intros Hl Hv Hv'. unfold transferBalance, bind. destruct (Z.eq_dec v 0) as [->|Hv0].
  - unfold subBalance. cbn [Z.eqb]. unfold ret. rewrite Z.sub_0_r.
    destruct (addBalance_pays s b 0 y (led_ok _ _ _ _ _ _ _ _ _ Hl) ltac:(lia) (led_start _ _ _ _ _ _ _ _ _ Hl) (led_b _ _ _ _ _ _ _ _ _ Hl)) as (s' & -> & Hp).
    exists s'. split; [done|]. by eapply led_pays_b.
  - destruct (subBalance_pays s a v x (led_ok _ _ _ _ _ _ _ _ _ Hl) (led_start _ _ _ _ _ _ _ _ _ Hl) ltac:(lia) (led_a _ _ _ _ _ _ _ _ _ Hl)) as (s1 & -> & Hp).
    pose proof (led_pays_a _ _ _ _ _ _ _ Hl Hp) as Hl1.
    destruct (addBalance_pays s1 b v y (led_ok _ _ _ _ _ _ _ _ _ Hl1) ltac:(lia) (led_start _ _ _ _ _ _ _ _ _ Hl1) (led_b _ _ _ _ _ _ _ _ _ Hl1)) as (s2 & -> & Hp2).
    exists s2. split; [done|]. by eapply led_pays_b.
Qed.
End Steps.

(** Reading changes nothing. *)
Lemma read_quiet {A} s a (p : ST A) v :
  st_ok s -> (forall ox s1, account a s = (Ok ox, s1) -> snd (p s) = s1) -> (forall e s1, account a s = (Err e, s1) -> fst (p s) <> Ok v) ->
  fst (p s) = Ok v -> exists s1, p s = (Ok v, s1) /\ quiet s s1.
Proof.
  intros Hok H1 H2 Hv. destruct (account_quiet a s Hok) as [Hq _]. destruct (account a s) as [[ox|e] s1].
  - exists s1. specialize (H1 ox s1 eq_refl). destruct (p s). cbn in *. by subst.
  - by specialize (H2 e s1 eq_refl).
Qed.
Lemma balance_quiet s a v : st_ok s -> fst (balance a s) = Ok v -> exists s1, balance a s = (Ok v, s1) /\ quiet s s1.
Proof. intros Hok. apply (read_quiet s a); [done| |]; unfold balance, bind; intros ? s1 ->; done. Qed.
Lemma hasCode_quiet s a v : st_ok s -> fst (addressHasCode a s) = Ok v -> exists s1, addressHasCode a s = (Ok v, s1) /\ quiet s s1.
Proof. intros Hok. apply (read_quiet s a); [done| |]; unfold addressHasCode, bind; intros ? s1 ->; done. Qed.
Lemma getNonce_quiet s a v : st_ok s -> fst (getNonce a s) = Ok v -> exists s1, getNonce a s = (Ok v, s1) /\ quiet s s1.
Proof.
  intros Hok. apply (read_quiet s a); [done| |]; unfold getNonce, bind; [intros [x|] s1 ->; done|intros e s1 ->; done].
Qed.
End Ledger.

Section Transfer.
Context {DB : Type} `{NodeDB DB} {L : Crypto.Secp256k1}.
Variable chainParams : ChainOperationParams.
Variable precompiled : gmap bytes Precompiled.PrecompiledContract.
Variable EI : EnvInfo.
Variable vm : Env -> Z -> X (DB := DB) -> option (result VM.exn bytes * Z * X (DB := DB)).
Abbreviation World := (World (DB := DB)).
Abbreviation Executive := (Executive (DB := DB)).
Abbreviation on_s p := (on_w (on_state p)).

Lemma on_s_step {A B} (p : State.ST A) (k : A -> M Executive exec_exn B) e a s' :
  p (w_s (m_w e)) = (Ok a, s') -> mbind (on_s p) k e = k a (set_w {| w_s := s'; w_sizes := w_sizes (m_w e) |} e).
Proof. intros E. unfold mbind, on_w, on_state. by rewrite E. Qed.
Lemma on_t_step {B} (k : bytes -> M Executive exec_exn B) e a :
  m_sender (m_t e) = a -> FixedHash.to_bool a = true -> mbind (on_t sender) k e = k a e.
Proof.
  intros Ea Ha. unfold mbind at 1, on_t, sender, mbind, mget, mret. rewrite Ea, Ha, Ea. by destruct e.
Qed.

Lemma verify_base t : SealEngine.verifyTransaction chainParams Everything_ t (m_headerInfo EI) (env_gasUsed EI) = Ok tt ->
  baseGasRequired (isCreation t) (m_data t) (schedule chainParams EI) <= Transaction.m_gas t.
Proof.
  intros Ev. unfold SealEngine.verifyTransaction in Ev. inv_bind Ev. inv_bind Ev.
  change (SealEngine.requires Everything_ SealEngine.TransactionBasic) with true in Ev. cbn [andb] in Ev.
  destruct (Z.gtb_spec (baseGasRequired (isCreation t) (m_data t)
    (SealEngine.vvmSchedule chainParams (BlockHeader.m_number (m_headerInfo EI)))) (Transaction.m_gas t)) as [|Hle]; done.
Qed.

(** What a plain transfer is: a signed message call to an account without code, by a
    sender who can pay for it with the right nonce. *)
Record transfer_ok (t : TransactionBase) (s : State.State DB) (a b c : bytes) (x y z : Z) : Prop := {
  tr_tx : tx_ok t;
  tr_type : m_type t = MessageCall;
  tr_sender : m_sender t = a /\ FixedHash.to_bool a = true /\ hasZeroSignature t = false;
  tr_price : 0 < m_gasPrice t /\ 0 < Transaction.m_gas t;
  tr_valid : SealEngine.verifyTransaction chainParams Everything_ t (m_headerInfo EI) (env_gasUsed EI) = Ok tt;
  tr_nonce : fst (State.getNonce a s) = Ok (Transaction.m_nonce t) /\ has_nonce chainParams EI a = true;
  tr_to : m_receiveAddress t = b /\ isPrecompiled precompiled b (number EI) = false;
  tr_author : BlockHeader.m_author (m_headerInfo EI) = c;
  tr_ledger : StateProps.st_ok s /\ State.m_accountStartNonce s <> State.Invalid256 /\ fst (State.addressHasCode b s) = Ok false;
  tr_balances : fst (State.balance a s) = Ok x /\ fst (State.balance b s) = Ok y /\ fst (State.balance c s) = Ok z;
  tr_cash : m_value t + Transaction.m_gas t * m_gasPrice t <= x;
  tr_distinct : a <> b /\ a <> c /\ b <> c
}.

(** What [initialize] leaves. *)
Lemma transfer_initialize t w a b c x y z : transfer_ok t (w_s w) a b c x y z ->
  exists s', initialize chainParams EI t (new_executive w 0) =
    (Ok tt, set_gasCost (Transaction.m_gas t * m_gasPrice t) (set_w {| w_s := s'; w_sizes := w_sizes w |}
       (set_baseGasRequired (baseGasRequired (isCreation t) (m_data t) (schedule chainParams EI)) (set_t t (new_executive w 0))))) /\
    ledger (w_s w) a b c x y z true s'.
Proof.
  intros [Htx Hty (Ea & Hne & Hzs) [HP HG] Hv [Hn Hhn] [Eb Hpc] Ec (Hok & Hst & Hcode) (Hx & Hy & Hz) Hcash (Hab & Hac & Hbc)].
  assert (ledger (w_s w) a b c x y z true (w_s w)) as Hl by (by split).
  pose proof (StateProps.balance_range _ _ _ Hok Hx) as Hxr. pose proof (ok_value t Htx) as Hvr.
  destruct (getNonce_quiet _ _ _ Hok Hn) as (s1 & E1 & Hq1). pose proof (led_quiet _ _ _ _ _ _ _ _ _ _ Hl Hq1) as Hl1.
  destruct (balance_quiet _ _ _ (led_ok _ _ _ _ _ _ _ _ _ Hl1) (led_a _ _ _ _ _ _ _ _ _ Hl1)) as (s2 & E2 & Hq2).
  exists s2. split; [|by eapply led_quiet].
  unfold initialize, mbind at 1 2. cbn [mput]. unfold mbind at 1, verify_transaction. cbn [m_t set_baseGasRequired set_t]. rewrite Hv.
  unfold mbind at 1. cbn [mget m_t set_baseGasRequired set_t]. rewrite Hzs. unfold mbind at 1, sender_nonce.
  rewrite (on_t_step _ _ a) by done. erewrite on_s_step by exact E1. cbn [mret]. rewrite Z.eqb_refl. cbn [negb].
  erewrite on_s_step by exact E2.
  destruct (Z.ltb_spec x (m_value t + Transaction.m_gas t * m_gasPrice t)); [lia|]. unfold mput. do 2 f_equal.
  rewrite wrap_small; [done|]. unfold uint_ok in *. nia.
Qed.

(** What [execute] leaves: nothing to run, and the gas that is not used. *)
Lemma transfer_execute t w a b c x y z e s' : transfer_ok t (w_s w) a b c x y z ->
  let B := baseGasRequired (isCreation t) (m_data t) (schedule chainParams EI) in
  let cost := Transaction.m_gas t * m_gasPrice t in
  m_t e = t -> m_ext e = None -> m_gasCost e = cost -> m_baseGasRequired e = B -> w_s (m_w e) = s' -> ledger (w_s w) a b c x y z true s' ->
  exists s2 n, execute chainParams precompiled EI e =
    (Ok true, set_w {| w_s := s2; w_sizes := w_sizes (m_w e) |} (set_gas (Transaction.m_gas t - B) (set_savepoint n e))) /\
    ledger (w_s w) a b c (x - cost - m_value t) (wrap 256 (y + m_value t)) z false s2.
Proof.
  intros [Htx Hty (Ea & Hne & Hzs) [HP HG] Hv [Hn Hhn] [Eb Hpc] Ec (Hok & Hst & Hcode) (Hx & Hy & Hz) Hcash (Hab & Hac & Hbc)].
  intros B cost Et Hext Ecost Ebase Es Hl. pose proof (ok_value t Htx) as Hvr. pose proof (ok_gas t Htx) as Hgr.
  pose proof (verify_base t Hv) as HB. fold B in HB. assert (0 <= B) as HB0 by apply base_nonneg.
  assert (0 < cost) as Hc0 by (unfold cost; nia). unfold uint_ok in Hvr, Hgr.
  destruct (subBalance_pays s' a cost x) as (s1 & E1 & Hp1); [apply Hl|apply Hl|unfold cost in *; lia|apply Hl|].
  pose proof (led_pays_a _ _ _ _ Hab Hac _ _ _ _ _ _ _ Hl Hp1) as Hl1. destruct (StateProps.pays_in _ _ _ _ Hp1) as (xa & Hxa & Hd & Hba).
  destruct (StateProps.incNonce_pays s1 a xa (led_ok _ _ _ _ _ _ _ _ _ Hl1) Hxa Hd) as (s2 & E2 & Hp2).
  pose proof (led_pays_a _ _ _ _ Hab Hac _ _ _ _ _ _ _ Hl1 Hp2) as Hl2. rewrite Hba in Hl2.
  destruct (hasCode_quiet s2 b false (led_ok _ _ _ _ _ _ _ _ _ Hl2) (led_code _ _ _ _ _ _ _ _ _ Hl2)) as (s3 & E3 & Hq3).
  pose proof (led_quiet _ _ _ _ _ _ _ _ _ _ Hl2 Hq3) as Hl3.
  destruct (led_transfer _ _ _ _ Hab Hac Hbc _ _ _ _ _ (m_value t) Hl3) as (s4 & E4 & Hl4); [unfold cost in *; lia|lia|].
  exists s4, (List.length (State.m_changeLog s2)). split; [|done].
  assert (w_s (m_w e) = s') as Ews by done. unfold execute. rewrite (on_t_step _ _ a) by (by rewrite ?Et). unfold mbind at 1. cbn [mget]. rewrite Ecost.
  erewrite on_s_step by (rewrite Ews; exact E1). unfold mbind at 1 2. cbn [mget m_t set_w m_baseGasRequired]. rewrite Et, Ebase.
  unfold isCreation. rewrite Hty. rewrite bool_decide_false by done. unfold call_message, call.
  cbn [senderAddress codeAddress receiveAddress valueTransfer apparentValue cp_gas cp_data cp_staticCall].
  unfold mbind at 1. cbn [mget m_t set_w]. rewrite Et, Hty, Hhn. cbn [bool_decide negb andb].
  rewrite bool_decide_false by done. cbn [negb andb].
  erewrite on_s_step by (cbn [m_w set_w w_s]; exact E2). unfold mbind at 1, save. erewrite on_s_step by reflexivity. cbn [mput].
  rewrite Eb, Hpc. unfold mbind at 1. cbn [mput].
  erewrite on_s_step by (cbn [m_w set_w set_gas set_savepoint w_s]; exact E3). unfold mbind at 1. cbn [mret].
  erewrite on_s_step by (cbn [m_w set_w set_gas set_savepoint w_s]; exact E4).
  assert (wrap 256 (Transaction.m_gas t - wrap 256 B) = Transaction.m_gas t - B) as ->.
  { rewrite (wrap_small 256 B), wrap_small; unfold uint_ok; lia. }
  unfold mget. destruct e. cbn in Hext |- *. by rewrite Hext.
Qed.

(** What [finalize] pays when nothing ran: the rest of the gas to the sender, the fees
    to the author of the block. *)
Lemma transfer_finalize t s0 a b c x y z e G : a <> b -> a <> c -> b <> c ->
  m_t e = t -> m_ext e = None -> m_gas e = G -> m_excepted e = None_ -> m_sender t = a -> FixedHash.to_bool a = true ->
  m_type t <> NullTransaction -> BlockHeader.m_author (m_headerInfo EI) = c ->
  0 <= G <= Transaction.m_gas t -> Transaction.m_gas t < 2 ^ 256 -> 0 <= m_gasPrice t -> Transaction.m_gas t * m_gasPrice t < 2 ^ 256 ->
  ledger s0 a b c x y z false (w_s (m_w e)) ->
  exists e', finalize EI e = (Ok true, e') /\ m_t e' = t /\ m_gas e' = G /\ m_logs e' = m_logs e /\
    ledger s0 a b c (wrap 256 (x + G * m_gasPrice t)) y (wrap 256 (z + (Transaction.m_gas t - G) * m_gasPrice t)) false (w_s (m_w e')).
Proof.
  intros Hab Hac Hbc Et Hext EG Hex Ea Hne Hty Ec HG Hgas HP Hcost Hl.
  assert (0 <= G * m_gasPrice t < 2 ^ 256) as HGP by nia.
  assert (0 <= (Transaction.m_gas t - G) * m_gasPrice t < 2 ^ 256) as HFP by nia.
  destruct (StateProps.addBalance_pays (w_s (m_w e)) a (G * m_gasPrice t) x (led_ok _ _ _ _ _ _ _ _ _ Hl) HGP
    (led_start _ _ _ _ _ _ _ _ _ Hl) (led_a _ _ _ _ _ _ _ _ _ Hl)) as (s1 & E1 & Hp1).
  pose proof (led_pays_a _ _ _ _ Hab Hac _ _ _ _ _ _ _ Hl Hp1) as Hl1.
  destruct (StateProps.addBalance_pays s1 c ((Transaction.m_gas t - G) * m_gasPrice t) z (led_ok _ _ _ _ _ _ _ _ _ Hl1) HFP
    (led_start _ _ _ _ _ _ _ _ _ Hl1) (led_c _ _ _ _ _ _ _ _ _ Hl1)) as (s2 & E2 & Hp2).
  pose proof (led_pays_c _ _ _ _ Hac Hbc _ _ _ _ _ _ Hl1 Hp2) as Hl2.
  unfold finalize, pay_fees, suicides_logs, mbind at 1 2 3. cbn [mput]. unfold accumulate. rewrite Hext. unfold refund_of. rewrite Hext.
  unfold mbind at 1 2. cbn [mget m_t set_refunded set_gas m_gas m_refunded]. rewrite Et. rewrite bool_decide_false by done.
  rewrite (on_t_step _ _ a) by (done || by cbn; rewrite Et). unfold mbind at 1. cbn [mget set_refunded set_gas m_gas m_refunded].
  rewrite EG, Z.add_0_r, (wrap_small 256 G), (wrap_small 256 (G * _)) by (unfold uint_ok; lia).
  erewrite on_s_step by (cbn [m_w set_refunded set_gas]; exact E1). rewrite Ec.
  rewrite (wrap_small 256 (Transaction.m_gas t - G)), (wrap_small 256 ((_ - _) * _)) by (unfold uint_ok; lia).
  unfold on_w, on_state. cbn [m_w set_w set_refunded set_gas w_s w_sizes]. rewrite E2.
  unfold mbind, mget, mret, mput. cbn [m_ext set_w set_refunded set_gas]. rewrite Hext.
  unfold collect, in_res. cbn. rewrite Hex. eexists. split; [reflexivity|]. split; [exact Et|]. split; [reflexivity|]. split; [reflexivity|exact Hl2].
Qed.

(** C5: a plain transfer. For a signed transaction of a sender who can pay, with the
    right nonce, to an account without code, executing the transaction uses exactly
    the base gas: the sender pays the value and the base gas at the gas price, and
    nothing else, the receiver gets the value, the author of the block gets the fees,
    and no other balance changes. *)
Theorem plain_transfer (t : TransactionBase) (w : World) (a b c : bytes) (x y z : Z) :
  transfer_ok t (w_s w) a b c x y z ->
  let fee := baseGasRequired (isCreation t) (m_data t) (schedule chainParams EI) * m_gasPrice t in
  exists e', executeTransaction chainParams precompiled EI vm t (new_executive w 0) = (Ok true, e') /\
    gasUsed e' = baseGasRequired (isCreation t) (m_data t) (schedule chainParams EI) /\ m_logs e' = [] /\
    fst (State.balance a (w_s (m_w e'))) = Ok (x - m_value t - fee) /\
    fst (State.balance b (w_s (m_w e'))) = Ok (wrap 256 (y + m_value t)) /\
    fst (State.balance c (w_s (m_w e'))) = Ok (wrap 256 (z + fee)) /\
    forall d u, d <> a -> d <> b -> d <> c -> fst (State.balance d (w_s w)) = Ok u ->
      fst (State.balance d (w_s (m_w e'))) = Ok u.
Proof.
  intros Hok fee. set (B := baseGasRequired (isCreation t) (m_data t) (schedule chainParams EI)).
  destruct (transfer_initialize t w a b c x y z Hok) as (s1 & E1 & Hl1). fold B in E1.
  set (e1 := set_gasCost _ _) in E1.
  destruct (transfer_execute t w a b c x y z e1 s1 Hok) as (s2 & n & E2 & Hl2); try done. fold B in E2.
  set (e2 := set_w {| w_s := s2; w_sizes := _ |} _) in E2.
  destruct Hok as [Htx Hty (Ea & Hne & _) [HP HG] Hv _ _ Ec (Hst & _) (Hx & _) Hcash (Hab & Hac & Hbc)].
  pose proof (verify_base t Hv) as HB. fold B in HB. assert (0 <= B) as HB0 by apply base_nonneg.
  pose proof (StateProps.balance_range _ _ _ Hst Hx) as Hxr. pose proof (ok_value t Htx) as Hvr. pose proof (ok_gas t Htx) as Hgr.
  unfold uint_ok in *.
  destruct (transfer_finalize t (w_s w) a b c (x - Transaction.m_gas t * m_gasPrice t - m_value t) (wrap 256 (y + m_value t)) z
    e2 (Transaction.m_gas t - B) Hab Hac Hbc) as (e' & E3 & Et & Eg & El & Hl); try done; try lia.
  { by rewrite Hty. }
  exists e'. split.
  { unfold executeTransaction, mbind. rewrite E1, E2. cbn [negb mret]. exact E3. }
  replace (Transaction.m_gas t - (Transaction.m_gas t - B)) with B in Hl by lia. fold B in fee. fold fee in Hl.
  split; [unfold gasUsed; rewrite Et, Eg, wrap_small; unfold uint_ok; lia|]. split; [by rewrite El|].
  destruct Hl as [_ _ Ha Hb Hc Ho _]. split; [|done]. rewrite Ha. f_equal. unfold fee. rewrite wrap_small; unfold uint_ok; nia.
Qed.

End Transfer.

(** ** Block hashes after the Constantinople fork *)
Section BlockHash.
Context {DB : Type} `{NodeDB DB} {L : Crypto.Secp256k1}.
Variable chainParams : ChainOperationParams.
Variable precompiled : gmap bytes Precompiled.PrecompiledContract.
Variable EI : EnvInfo.
Variable vm : Env -> Z -> X (DB := DB) -> option (result VM.exn bytes * Z * X (DB := DB)).
Variable env : Env.

(** The block whose hash is asked for is one of the last 256, and the hashes are read
    from the contract. *)
Definition asks_contract (n : Z) : Prop :=
  Z.max 256 (number EI) - 256 <= n < number EI /\ wrap 256 (constantinopleForkBlock chainParams + 256) <= number EI.

Lemma blockHash_contract n x : asks_contract n ->
  ext_blockHash chainParams precompiled EI vm env x n =
  ext_op (FixedHash.zero 32) (fun w =>
      match on_state (State.getNonce (caller env)) w with
      | (Err e, w) => (Err e, w)
      | (Ok nonce, w) =>
          match state_execute chainParams precompiled EI vm (blockhash_transaction env nonce n) Reverted w with
          | (Ok (res, _), w) => (Ok (FixedHash.of_bytes 32 (res_output res) FixedHash.FailIfDifferent), w)
          | (Err e, w) => (Err e, w)
          end
      end) x.
Proof.
  intros [Hn Hc]. unfold ext_blockHash. destruct (Z.leb_spec (number EI) n); [lia|]. cbn [orb].
  destruct (Z.ltb_spec n (Z.max 256 (number EI) - 256)); [lia|].
  destruct (Z.ltb_spec (number EI) (wrap 256 (constantinopleForkBlock chainParams + 256))); [lia|done].
Qed.

(** An exception in the callback ends the process. *)
Lemma ext_op_ends {A} (dflt : A) (p : World (DB := DB) -> result exec_exn A * World (DB := DB)) x :
  x_halt x = None ->
  match fst (p (x_w x)) with
  | Ok _ => x_w (snd (ext_op dflt p x)) = snd (p (x_w x))
  | Err (Halted h) => x_halt (snd (ext_op dflt p x)) = Some h
  | Err _ => x_halt (snd (ext_op dflt p x)) = Some Exit
  end.
Proof. intros Hx. unfold ext_op. destruct (p (x_w x)) as [[a|[| | | | | | |h]] w]; cbn; rewrite ?Hx; done. Qed.

(** Executing with [Reverted] empties the cache of accounts. *)
Lemma reverted_empties t w r w' :
  state_execute chainParams precompiled EI vm t Reverted w = (Ok r, w') -> State.m_cache (w_s w') = ∅.
Proof.
  unfold state_execute. destruct (mbind _ _ _) as [r' e] eqn:E. intros [= -> <-]. revert E. unfold mbind at 1.
  destruct (executeTransaction _ _ _ _ _ _) as [[b|x] e1]; [|done]. unfold mbind at 1, on_w, on_state. cbn [settle].
  unfold State.modify. unfold mbind at 1 2. cbn [mget]. destruct (_ <=? _); cbn [mret]; [by intros [= _ <-]|].
  unfold mbind, on_w, on_state, rootHash, State.bind, State.get, State.of_trie. cbn [set_w m_w w_s].
  destruct (TrieDB.root _); [by intros [= _ <-]|done].
Qed.

(** C34: from 256 blocks after the Constantinople fork on, BLOCKHASH discards the
    changes of the transaction it is part of. It runs the blockhash contract with
    [State::execute] on the state of the running transaction and [Reverted], and that
    drops the cache with every account changed so far, also by the transaction itself:
    when it returns, no pending change is left. *)
Theorem blockhash_discards (n : Z) (x : X (DB := DB)) :
  asks_contract n -> x_halt x = None ->
  let x' := snd (ext_blockHash chainParams precompiled EI vm env x n) in
  x_halt x' = None -> State.m_cache (w_s (x_w x')) = ∅.
Proof.
  intros Hn Hx x' Hx'. unfold x' in *. rewrite blockHash_contract in Hx' |- * by done. set (p := fun w => _) in *.
  pose proof (ext_op_ends (FixedHash.zero 32) p x Hx) as Hp. destruct (p (x_w x)) as [r w] eqn:E. cbn [fst snd] in Hp.
  destruct r as [h|e]; [|by destruct e; rewrite Hx' in Hp]. rewrite Hp. revert E. unfold p.
  destruct (on_state _ _) as [[nonce|e] w1]; [|done].
  destruct (state_execute _ _ _ _ _ _ _) as [[[res rc]|e] w2] eqn:E2; [|done]. intros [= _ <-]. by eapply reverted_empties.
Qed.

(** And it ends the process when less than a million gas is left in the block.
    [State::execute] checks the call as a transaction of the block; the
    [BlockGasLimitReached] that it throws is none of the exceptions that the
    interpreter throws, so [Executive::go] calls [exit(1)]. *)
Theorem blockhash_exits (n : Z) (x : X (DB := DB)) :
  asks_contract n -> x_halt x = None -> BlockHeader.m_gasLimit (m_headerInfo EI) < env_gasUsed EI + 1000000 ->
  x_halt (snd (ext_blockHash chainParams precompiled EI vm env x n)) = Some Exit.
Proof.
  intros Hn Hx Hl. rewrite blockHash_contract by done. set (p := fun w => _) in *.
  pose proof (ext_op_ends (FixedHash.zero 32) p x Hx) as Hp. destruct (p (x_w x)) as [r w] eqn:E. cbn [fst snd] in Hp.
  assert (exists e, r = Err e /\ forall h, e <> Halted h) as (e & -> & He); [|by destruct e; try done; destruct (He h)].
  revert E. unfold p. unfold on_state. destruct (State.getNonce _ _) as [[nonce|e] s1]; [|intros [= <- _]; by eexists].
  unfold state_execute, executeTransaction, initialize, mbind, mput, verify_transaction. cbn [m_t set_baseGasRequired set_t].
  unfold SealEngine.verifyTransaction.
  destruct (SealEngine.face_verifyTransaction _ _ _ _) as [[]|e]; cbn [result_bind]; [|intros [= <- _]; by eexists].
  destruct (if SealEngine.requires _ SealEngine.TransactionSignatures then _ else _) as [[]|e]; cbn [result_bind]; [|intros [= <- _]; by eexists].
  destruct (_ && _); [intros [= <- _]; by eexists|].
  destruct (Z.gtb_spec (env_gasUsed EI + Transaction.m_gas (blockhash_transaction env nonce n)) (BlockHeader.m_gasLimit (m_headerInfo EI)));
    [intros [= <- _]; by eexists|cbn in *; lia].
Qed.

End BlockHash.

(** ** Witnesses *)
Import StateProps.
Definition carol : bytes := replicate 20 3.

(** A block at height 5, and a state in which Alice has a million wei. *)
Definition sample_header : BlockHeader.BlockHeader :=
  BlockHeader.assign (BlockHeader.Author carol)
    (BlockHeader.assign (BlockHeader.GasLimit 10000000) (BlockHeader.assign (BlockHeader.Number 5) BlockHeader.empty_header)).
Definition sample_info : EnvInfo := {| m_headerInfo := sample_header; m_lastHashes := fun _ => replicate 256 (FixedHash.zero 32); env_gasUsed := 0 |}.
Definition funded : State.State MemoryDB.MemoryDB := snd (State.addBalance alice 1000000 sample_state).
Definition sample_world : World (DB := MemoryDB.MemoryDB) :=
  {| w_s := funded; w_sizes := {| CodeSizeCache.m_cache := ∅; CodeSizeCache.m_random := [] |} |}.
Definition sample_tx : TransactionBase := forceSender alice (unsigned_call 10 1 100000 bob [] 0).

Lemma funded_ok : st_ok funded.
Proof. by destruct (addBalance_safe alice 1000000 ltac:(lia) sample_state sample_state_ok I) as [[Hok _ _ _] _]. Qed.

Lemma sample_tx_ok : tx_ok sample_tx.
Proof. split; try (vm_compute; intuition (done || discriminate)). all: repeat constructor; lia. Qed.

Lemma plain_transfer_witness :
  exists e', executeTransaction (L := Toy) ChainOperationParams.defaults ∅ sample_info
      (vm_at (L := Toy) ChainOperationParams.defaults ∅ sample_info levels) sample_tx (new_executive sample_world 0) = (Ok true, e') /\
    gasUsed e' = 21000 /\ fst (State.balance alice (w_s (m_w e'))) = Ok 978990 /\ fst (State.balance bob (w_s (m_w e'))) = Ok 10 /\
    fst (State.balance carol (w_s (m_w e'))) = Ok 21000.
Proof.
  destruct (plain_transfer (L := Toy) ChainOperationParams.defaults ∅ sample_info
    (vm_at (L := Toy) ChainOperationParams.defaults ∅ sample_info levels) sample_tx sample_world alice bob carol 1000000 0 0)
    as (e' & E & Hg & _ & Ha & Hb & Hc & _).
  - split; [exact sample_tx_ok|vm_compute; done|vm_compute; done|vm_compute; done|vm_compute; done|vm_compute; done|vm_compute; done|
      vm_compute; done|split; [exact funded_ok|vm_compute; done]|vm_compute; done|vm_compute; done|vm_compute; done].
  - exists e'. split; [exact E|]. split; [exact Hg|]. split; [exact Ha|]. split; [exact Hb|exact Hc].
Defined.



(** A chain that forks at once, at block 300; the block has [limit] gas. *)
Definition forked : ChainOperationParams :=
  {| m_blockReward := 0; maximumExtraDataSize := 1024; accountStartNonce := 0; minGasLimit := 0x1388;
     maxGasLimit := 0x7fffffffffffffff; gasLimitBoundDivisor := 0x0400; homesteadForkBlock := 0; EIP150ForkBlock := 0;
     EIP158ForkBlock := 0; byzantiumForkBlock := 0; eWASMForkBlock := c_infiniteBlockNumer; constantinopleForkBlock := 0;
     daoHardforkBlock := c_infiniteBlockNumer; chainID := 0; minimumDifficulty := 0x020000; difficultyBoundDivisor := 0x0800;
     durationLimit := 0x0d |}.
Definition late_info (limit : Z) : EnvInfo :=
  {| m_headerInfo := BlockHeader.assign (BlockHeader.GasLimit limit) (BlockHeader.assign (BlockHeader.Number 300) BlockHeader.empty_header);
     m_lastHashes := fun _ => []; env_gasUsed := 0 |}.
Definition late_env : Env := {|
  myAddress := bob; caller := alice; origin := alice; VM.value := 0; VM.gasPrice := 1; VM.data := []; VM.code := []; VM.depth := 0;
  staticCall := false; author := carol; timestamp := 10; VM.number := 300; difficulty := 7; gasLimit := 2000000;
  vvmSchedule := ConstantinopleSchedule |}.
Definition asked (limit : Z) : X (DB := MemoryDB.MemoryDB) :=
  snd (ext_blockHash (L := Toy) forked ∅ (late_info limit) (vm_at (L := Toy) forked ∅ (late_info limit) levels) late_env
    {| x_w := sample_world; x_sub := sub_clear; x_halt := None |} 299).

Lemma blockhash_discards_witness : fst (State.balance alice (w_s sample_world)) = Ok 1000000 /\
  State.m_cache (w_s (x_w (asked 2000000))) = ∅ /\ fst (State.balance alice (w_s (x_w (asked 2000000)))) = Ok 0.
Proof.
  split; [vm_compute; reflexivity|]. split; [|vm_compute; reflexivity].
  exact (blockhash_discards (L := Toy) forked ∅ (late_info 2000000) (vm_at (L := Toy) forked ∅ (late_info 2000000) levels) late_env 299
    {| x_w := sample_world; x_sub := sub_clear; x_halt := None |} ltac:(split; vm_compute; intuition discriminate) eq_refl
    ltac:(vm_compute; reflexivity)).
Defined.
Lemma blockhash_exits_witness : x_halt (asked 999999) = Some Exit.
Proof.
  exact (blockhash_exits (L := Toy) forked ∅ (late_info 999999) (vm_at (L := Toy) forked ∅ (late_info 999999) levels) late_env 299
    {| x_w := sample_world; x_sub := sub_clear; x_halt := None |} ltac:(split; vm_compute; intuition discriminate) eq_refl
    ltac:(vm_compute; reflexivity)).
Defined.

End TxProps.
