(* ===== verification/TxQueue.v ===== *)
(** * TxQueue: the queue of pending transactions (libvapory/TransactionQueue)

    The queue keeps verified transactions in a multiset ordered by priority, with
    two indices of iterators into it (by hash, and by sender and nonce), and beside
    it the transactions whose nonces are still too high.

    - An iterator into the multiset is the name of a node; [None] is a
      default-constructed iterator. Following it, or the name of an erased node, is
      [BadAccess].
    - The multiset is a binary search tree.  What shape it has is not specified, and it
      matters, because the order depends on the contents of the index and may change
      under the elements: [m_choices] tells which element of a range is at its root,
      and also which entry of an unordered map comes first.
    - A transaction memoises its hash and its sender in mutable members, which does not
      change what they are; the model computes them anew.
    - Signals are recorded as events.  Every operation holds the lock; the threads that
      verify transactions take one from their queue at a time. *)

From stdpp Require Import base list numbers option gmap sorting.
From Stdlib Require Import ZArith Lia.
From S2P Require Import Prelude Bytes Rlp RlpStream RlpFields Keccak Crypto Transaction.
Import CommonData RLP Keccak.

#[local] Opaque sha3.

Module TransactionQueue.
Import Transaction.

(** ** Data *)

Inductive ImportResult :=
| Success | UnknownParent | FutureTimeKnown | FutureTimeUnknown | AlreadyInChain | AlreadyKnown | Malformed
| OverbidGasPrice | BadChain | ZeroSignature.
#[export] Instance ImportResult_eq_dec : EqDecision ImportResult.
Proof. solve_decision. Defined.
Inductive IfDropped := Ignore | Retry.

Record UnverifiedTransaction := { u_transaction : bytes; nodeId : bytes }.

Inductive event := OnReady | OnReplaced (h : bytes) | OnImport (ir : ImportResult) (h : bytes) (nodeId : bytes).

Inductive tq_exn := TxExn (e : tx_exn) | RlpExn (e : exn) | BadAccess.

Record TransactionQueue := {
  m_known : gset bytes;
  m_dropped : gset bytes;
  m_nodes : gmap nat TransactionBase;
  m_current : list nat;
  m_currentByHash : gmap bytes nat;
  m_currentByAddressAndNonce : gmap bytes (gmap Z (option nat));
  m_future : gmap bytes (gmap Z TransactionBase);
  m_futureSize : Z;
  m_unverified : list UnverifiedTransaction;
  m_events : list event;
  m_next : nat;
  m_choices : list nat;
  m_limit : Z;
  m_futureLimit : Z
}.

Definition set_known (v : gset bytes) (q : TransactionQueue) : TransactionQueue :=
  {| m_known := v; m_dropped := m_dropped q; m_nodes := m_nodes q; m_current := m_current q; m_currentByHash :=
     m_currentByHash q; m_currentByAddressAndNonce := m_currentByAddressAndNonce q; m_future := m_future q;
     m_futureSize := m_futureSize q; m_unverified := m_unverified q; m_events := m_events q; m_next := m_next q;
     m_choices := m_choices q; m_limit := m_limit q; m_futureLimit := m_futureLimit q |}.
Definition set_dropped (v : gset bytes) (q : TransactionQueue) : TransactionQueue :=
  {| m_known := m_known q; m_dropped := v; m_nodes := m_nodes q; m_current := m_current q; m_currentByHash :=
     m_currentByHash q; m_currentByAddressAndNonce := m_currentByAddressAndNonce q; m_future := m_future q;
     m_futureSize := m_futureSize q; m_unverified := m_unverified q; m_events := m_events q; m_next := m_next q;
     m_choices := m_choices q; m_limit := m_limit q; m_futureLimit := m_futureLimit q |}.
Definition set_nodes (v : gmap nat TransactionBase) (q : TransactionQueue) : TransactionQueue :=
  {| m_known := m_known q; m_dropped := m_dropped q; m_nodes := v; m_current := m_current q; m_currentByHash :=
     m_currentByHash q; m_currentByAddressAndNonce := m_currentByAddressAndNonce q; m_future := m_future q;
     m_futureSize := m_futureSize q; m_unverified := m_unverified q; m_events := m_events q; m_next := m_next q;
     m_choices := m_choices q; m_limit := m_limit q; m_futureLimit := m_futureLimit q |}.
Definition set_current (v : list nat) (q : TransactionQueue) : TransactionQueue :=
  {| m_known := m_known q; m_dropped := m_dropped q; m_nodes := m_nodes q; m_current := v; m_currentByHash :=
     m_currentByHash q; m_currentByAddressAndNonce := m_currentByAddressAndNonce q; m_future := m_future q;
     m_futureSize := m_futureSize q; m_unverified := m_unverified q; m_events := m_events q; m_next := m_next q;
     m_choices := m_choices q; m_limit := m_limit q; m_futureLimit := m_futureLimit q |}.
Definition set_byHash (v : gmap bytes nat) (q : TransactionQueue) : TransactionQueue :=
  {| m_known := m_known q; m_dropped := m_dropped q; m_nodes := m_nodes q; m_current := m_current q; m_currentByHash
     := v; m_currentByAddressAndNonce := m_currentByAddressAndNonce q; m_future := m_future q; m_futureSize :=
     m_futureSize q; m_unverified := m_unverified q; m_events := m_events q; m_next := m_next q; m_choices :=
     m_choices q; m_limit := m_limit q; m_futureLimit := m_futureLimit q |}.
Definition set_byAddress (v : gmap bytes (gmap Z (option nat))) (q : TransactionQueue) : TransactionQueue :=
  {| m_known := m_known q; m_dropped := m_dropped q; m_nodes := m_nodes q; m_current := m_current q; m_currentByHash
     := m_currentByHash q; m_currentByAddressAndNonce := v; m_future := m_future q; m_futureSize := m_futureSize q;
     m_unverified := m_unverified q; m_events := m_events q; m_next := m_next q; m_choices := m_choices q; m_limit :=
     m_limit q; m_futureLimit := m_futureLimit q |}.
Definition set_future (v : gmap bytes (gmap Z TransactionBase)) (q : TransactionQueue) : TransactionQueue :=
  {| m_known := m_known q; m_dropped := m_dropped q; m_nodes := m_nodes q; m_current := m_current q; m_currentByHash
     := m_currentByHash q; m_currentByAddressAndNonce := m_currentByAddressAndNonce q; m_future := v; m_futureSize :=
     m_futureSize q; m_unverified := m_unverified q; m_events := m_events q; m_next := m_next q; m_choices :=
     m_choices q; m_limit := m_limit q; m_futureLimit := m_futureLimit q |}.
Definition set_futureSize (v : Z) (q : TransactionQueue) : TransactionQueue :=
  {| m_known := m_known q; m_dropped := m_dropped q; m_nodes := m_nodes q; m_current := m_current q; m_currentByHash
     := m_currentByHash q; m_currentByAddressAndNonce := m_currentByAddressAndNonce q; m_future := m_future q;
     m_futureSize := v; m_unverified := m_unverified q; m_events := m_events q; m_next := m_next q; m_choices :=
     m_choices q; m_limit := m_limit q; m_futureLimit := m_futureLimit q |}.
Definition set_unverified (v : list UnverifiedTransaction) (q : TransactionQueue) : TransactionQueue :=
  {| m_known := m_known q; m_dropped := m_dropped q; m_nodes := m_nodes q; m_current := m_current q; m_currentByHash
     := m_currentByHash q; m_currentByAddressAndNonce := m_currentByAddressAndNonce q; m_future := m_future q;
     m_futureSize := m_futureSize q; m_unverified := v; m_events := m_events q; m_next := m_next q; m_choices :=
     m_choices q; m_limit := m_limit q; m_futureLimit := m_futureLimit q |}.
Definition set_events (v : list event) (q : TransactionQueue) : TransactionQueue :=
  {| m_known := m_known q; m_dropped := m_dropped q; m_nodes := m_nodes q; m_current := m_current q; m_currentByHash
     := m_currentByHash q; m_currentByAddressAndNonce := m_currentByAddressAndNonce q; m_future := m_future q;
     m_futureSize := m_futureSize q; m_unverified := m_unverified q; m_events := v; m_next := m_next q; m_choices :=
     m_choices q; m_limit := m_limit q; m_futureLimit := m_futureLimit q |}.
Definition set_next (v : nat) (q : TransactionQueue) : TransactionQueue :=
  {| m_known := m_known q; m_dropped := m_dropped q; m_nodes := m_nodes q; m_current := m_current q; m_currentByHash
     := m_currentByHash q; m_currentByAddressAndNonce := m_currentByAddressAndNonce q; m_future := m_future q;
     m_futureSize := m_futureSize q; m_unverified := m_unverified q; m_events := m_events q; m_next := v; m_choices :=
     m_choices q; m_limit := m_limit q; m_futureLimit := m_futureLimit q |}.
Definition set_choices (v : list nat) (q : TransactionQueue) : TransactionQueue :=
  {| m_known := m_known q; m_dropped := m_dropped q; m_nodes := m_nodes q; m_current := m_current q; m_currentByHash
     := m_currentByHash q; m_currentByAddressAndNonce := m_currentByAddressAndNonce q; m_future := m_future q;
     m_futureSize := m_futureSize q; m_unverified := m_unverified q; m_events := m_events q; m_next := m_next q;
     m_choices := v; m_limit := m_limit q; m_futureLimit := m_futureLimit q |}.

(** [TransactionQueue(_limit, _futureLimit)]. *)
Definition new_queue (_limit _futureLimit : Z) (choices : list nat) : TransactionQueue :=
  {| m_known := ∅; m_dropped := ∅; m_nodes := ∅; m_current := []; m_currentByHash := ∅; m_currentByAddressAndNonce := ∅;
     m_future := ∅; m_futureSize := 0; m_unverified := []; m_events := []; m_next := 0; m_choices := choices;
     m_limit := _limit; m_futureLimit := _futureLimit |}.

Definition c_maxVerificationQueueSize : Z := 8192.

(** ** Ordered maps *)
Section Maps.
Context {A : Type}.
Implicit Types m : gmap Z A.

Definition key_le (x y : Z * A) : Prop := x.1 <= y.1.
#[export] Instance key_le_dec x y : Decision (key_le x y).
Proof. unfold key_le. apply _. Defined.

(** The entries in order; [begin], [rbegin], [lower_bound]. *)
Definition entries m : list (Z * A) := merge_sort key_le (map_to_list m).
Definition begin m : option (Z * A) := head (entries m).
Definition rbegin m : option (Z * A) := last (entries m).
Definition lower_bound (k : Z) m : list (Z * A) := List.filter (fun x => k <=? x.1) (entries m).
Definition erase_range (l : list (Z * A)) m : gmap Z A := foldr (fun x m => delete x.1 m) m l.

(** [m.find(a) != m.end()] and [m[a].find(n)]. *)
Definition lookup2 (m : gmap bytes (gmap Z A)) (a : bytes) (n : Z) : option A := m !! a ≫= fun q => q !! n.
(** [m[a]], which inserts an empty map; and erasing an entry that became empty. *)
Definition sub (m : gmap bytes (gmap Z A)) (a : bytes) : gmap Z A := default ∅ (m !! a).
Definition trim (a : bytes) (m : gmap bytes (gmap Z A)) : gmap bytes (gmap Z A) :=
  if (base.size (sub m a) =? 0)%nat then delete a m else m.
End Maps.

Section Queue.
Context {L : Crypto.Secp256k1}.
Abbreviation QM A := (M TransactionQueue tq_exn A).

Definition hash_of (t : TransactionBase) : result tx_exn bytes := fst (tx_sha3 true t).
Definition sender_of (t : TransactionBase) : result tx_exn bytes := fst (sender t).
Definition from (t : TransactionBase) : bytes := safeSender t.

Definition tx {A} (r : result tx_exn A) : QM A := mlift (match r with Ok a => Ok a | Err e => Err (TxExn e) end).
Definition choice : QM nat :=
  do! l := mget m_choices in
  exec! mput (fun q => set_choices (tl (m_choices q)) q) in
  mret (hd 0%nat l).
Definition signal (e : event) : QM unit := mput (fun q => set_events (m_events q ++ [e]) q).

(** ** The multiset *)

Definition deref (i : option nat) : QM TransactionBase :=
  match i with
  | None => mthrow BadAccess
  | Some id =>
      do! ns := mget m_nodes in
      match ns !! id with Some t => mret t | None => mthrow BadAccess end
  end.

(** [PriorityCompare]. *)
Definition height (t : TransactionBase) : QM Z :=
  do! a := tx (sender_of t) in
  do! m := mget m_currentByAddressAndNonce in
  match begin (sub m a) with
  | Some (n, _) => mret (wrap 256 (m_nonce t - n))
  | None => mthrow BadAccess
  end.
Definition before (_first _second : TransactionBase) : QM bool :=
  do! height1 := height _first in
  do! height2 := height _second in
  mret ((height1 <? height2) || ((height1 =? height2) && (m_gasPrice _second <? m_gasPrice _first))).

(** Where a search from the root of the elements [l] down ends. *)
Fixpoint place (fuel : nat) (t : TransactionBase) (l : list nat) : QM nat :=
  match fuel, l with
  | _, [] => mret 0%nat
  | O, _ => mthrow BadAccess
  | S f, _ =>
      do! c := choice in
      let k := (c mod List.length l)%nat in
      do! t' := deref (l !! k) in
      do! b := before t t' in
      if b then place f t (take k l)
      else do! p := place f t (drop (S k) l) in mret (S k + p)%nat
  end.

Definition emplace (t : TransactionBase) : QM nat :=
  do! l := mget m_current in
  do! p := place (List.length l) t l in
  do! id := mget m_next in
  exec! mput (fun q => set_next (S id) (set_nodes (<[id := t]> (m_nodes q)) (set_current (take p l ++ id :: drop p l) q))) in
  mret id.
Definition erase (id : nat) : QM unit :=
  mput (fun q => set_nodes (delete id (m_nodes q)) (set_current (List.filter (fun i => negb (i =? id)%nat) (m_current q)) q)).

(** [m_currentByAddressAndNonce[a].insert(make_pair(n, PriorityQueue::iterator()))], and
    assigning the handle. *)
Definition reserve (a : bytes) (n : Z) : QM unit :=
  mput (fun q => let m := sub (m_currentByAddressAndNonce q) a in
    set_byAddress (<[a := match m !! n with Some _ => m | None => <[n := None]> m end]> (m_currentByAddressAndNonce q)) q).
Definition set_handle (a : bytes) (n : Z) (handle : nat) : QM unit :=
  mput (fun q => set_byAddress (<[a := <[n := Some handle]> (sub (m_currentByAddressAndNonce q) a)]> (m_currentByAddressAndNonce q)) q).

(** ** Operations *)

Definition check_WITH_LOCK (_h : bytes) (_ik : IfDropped) (q : TransactionQueue) : ImportResult :=
  if bool_decide (_h ∈ m_known q) then AlreadyKnown
  else if bool_decide (_h ∈ m_dropped q) && match _ik with Ignore => true | Retry => false end then AlreadyInChain
  else Success.

(** A transaction that was moved from has no data left. *)
Definition moved_from (t : TransactionBase) : TransactionBase :=
  {| m_type := m_type t; m_nonce := m_nonce t; m_value := m_value t; m_receiveAddress := m_receiveAddress t;
     m_gasPrice := m_gasPrice t; m_gas := m_gas t; m_data := []; m_vrs := m_vrs t; m_chainId := m_chainId t;
     m_hashWith := m_hashWith t; m_sender := m_sender t |}.

(** The loop of [makeCurrent_WITH_LOCK] over the entries from [fb] on: the entries
    that were moved. *)
Fixpoint move_loop (a : bytes) (l : list (Z * TransactionBase)) (nonce : Z) : QM (list (Z * TransactionBase)) :=
  match l with
  | [] => mret []
  | (k, t) :: l' =>
      if m_nonce t =? nonce then
        exec! reserve a (m_nonce t) in
        exec! mput (fun q => set_future (<[a := <[k := moved_from t]> (sub (m_future q) a)]> (m_future q)) q) in
        do! handle := emplace t in
        exec! set_handle a (m_nonce t) handle in
        do! h := tx (hash_of t) in
        exec! mput (fun q => set_byHash (<[h := handle]> (m_currentByHash q)) q) in
        exec! mput (fun q => set_futureSize (wrap 32 (m_futureSize q - 1)) q) in
        do! moved := move_loop a l' (wrap 256 (nonce + 1)) in
        mret ((k, t) :: moved)
      else mret []
  end.

(** [while (m_futureSize > m_futureLimit)]; at most [n] turns. *)
Fixpoint limit_future (n : nat) : QM unit :=
  do! size := mget m_futureSize in
  do! limit := mget m_futureLimit in
  match n with
  | O => mret tt
  | S n' =>
      if limit <? size then
        exec! mput (set_futureSize (wrap 32 (size - 1))) in
        do! c := choice in
        do! l := mget (fun q => map_to_list (m_future q)) in
        match l !! (c mod List.length l)%nat with
        | None => mthrow BadAccess
        | Some (a, m) =>
            match rbegin m with
            | None => mthrow BadAccess
            | Some (k, _) =>
                exec! mput (fun q => set_future (trim a (<[a := delete k m]> (m_future q))) q) in
                limit_future n'
            end
        end
      else mret tt
  end.

Definition makeCurrent_WITH_LOCK (_t : TransactionBase) : QM unit :=
  let a := from _t in
  do! fs := mget (fun q => m_future q !! a) in
  let nonce := wrap 256 (m_nonce _t + 1) in
  do! moved :=
    (match fs with
     | Some m =>
         match m !! nonce with
         | Some _ =>
             do! moved := move_loop a (lower_bound nonce m) nonce in
             exec! mput (fun q => set_future (trim a (<[a := erase_range moved (sub (m_future q) a)]> (m_future q))) q) in
             mret moved
         | None => mret []
         end
     | None => mret []
     end) in
  do! size := mget m_futureSize in
  do! limit := mget m_futureLimit in
  exec! limit_future (Z.to_nat (size - limit)) in
  match moved with [] => mret tt | _ => signal OnReady end.

Definition insertCurrent_WITH_LOCK (_h : bytes) (t : TransactionBase) : QM unit :=
  do! known := mget (fun q => m_currentByHash q !! _h) in
  match known with
  | Some _ => mret tt
  | None =>
      let a := from t in
      exec! reserve a (m_nonce t) in
      do! handle := emplace t in
      exec! set_handle a (m_nonce t) handle in
      exec! mput (fun q => set_byHash (<[_h := handle]> (m_currentByHash q)) q) in
      exec! makeCurrent_WITH_LOCK t in
      mput (fun q => set_known ({[_h]} ∪ m_known q) q)
  end.

Definition remove_WITH_LOCK (_txHash : bytes) : QM bool :=
  do! t := mget (fun q => m_currentByHash q !! _txHash) in
  match t with
  | None => mret false
  | Some id =>
      do! t := deref (Some id) in
      let a := from t in
      do! it := mget (fun q => m_currentByAddressAndNonce q !! a) in
      match it with
      | None => mthrow BadAccess
      | Some m =>
          exec! mput (fun q => set_byAddress (<[a := delete (m_nonce t) m]> (m_currentByAddressAndNonce q)) q) in
          exec! erase id in
          exec! mput (fun q => set_byHash (delete _txHash (m_currentByHash q)) q) in
          exec! mput (fun q => set_byAddress (trim a (m_currentByAddressAndNonce q)) q) in
          exec! mput (fun q => set_known (m_known q ∖ {[_txHash]}) q) in
          mret true
      end
  end.

(** [while (m_current.size() > m_limit)]; at most [n] turns. *)
Fixpoint limit_current (n : nat) : QM unit :=
  do! l := mget m_current in
  do! limit := mget m_limit in
  match n with
  | O => mret tt
  | S n' =>
      if limit <? zlen l then
        do! t := deref (last l) in
        do! h := tx (hash_of t) in
        exec! remove_WITH_LOCK h in
        limit_current n'
      else mret tt
  end.

(** The prior transaction with the same nonce, current or future: whether it has to
    stay. *)
Definition replace_current (_transaction : TransactionBase) : QM bool :=
  do! t := mget (fun q => lookup2 (m_currentByAddressAndNonce q) (from _transaction) (m_nonce _transaction)) in
  match t with
  | None => mret false
  | Some handle =>
      do! t := deref handle in
      if m_gasPrice _transaction <? m_gasPrice t then mret true
      else
        do! dropped := tx (hash_of t) in
        exec! remove_WITH_LOCK dropped in
        exec! signal (OnReplaced dropped) in
        mret false
  end.
Definition replace_future (_transaction : TransactionBase) : QM bool :=
  let a := from _transaction in
  do! t := mget (fun q => lookup2 (m_future q) a (m_nonce _transaction)) in
  match t with
  | None => mret false
  | Some t =>
      if m_gasPrice _transaction <? m_gasPrice t then mret true
      else
        exec! mput (fun q => set_future (<[a := delete (m_nonce _transaction) (sub (m_future q) a)]> (m_future q)) q) in
        exec! mput (fun q => set_futureSize (wrap 32 (m_futureSize q - 1)) q) in
        exec! mput (fun q => set_future (trim a (m_future q)) q) in
        mret false
  end.

Definition manage_try (_h : bytes) (_transaction : TransactionBase) : QM ImportResult :=
  do! overbid := replace_current _transaction in
  if overbid then mret OverbidGasPrice else
  do! overbid := replace_future _transaction in
  if overbid then mret OverbidGasPrice else
  exec! insertCurrent_WITH_LOCK _h _transaction in
  do! l := mget m_current in
  exec! limit_current (List.length l) in
  exec! signal OnReady in
  mret Success.
Definition manageImport_WITH_LOCK (_h : bytes) (_transaction : TransactionBase) : QM ImportResult := fun q =>
  match manage_try _h _transaction q with
  | (Err (TxExn _), q') | (Err (RlpExn _), q') => (Ok Malformed, q')
  | r => r
  end.

Definition import (_transaction : TransactionBase) (_ik : IfDropped) : QM ImportResult :=
  if hasZeroSignature _transaction then mret ZeroSignature else
  do! h := tx (hash_of _transaction) in
  do! ir := mget (check_WITH_LOCK h _ik) in
  if bool_decide (ir = Success) then manageImport_WITH_LOCK h _transaction else mret ir.

(** [import(bytesConstRef, IfDropped)]. *)
Definition import_rlp (_transactionRLP : bytes) (_ik : IfDropped) : QM ImportResult := fun q =>
  match (do! t := tx (parse _transactionRLP Everything) in import t _ik) q with
  | (Err (TxExn _), q') | (Err (RlpExn _), q') => (Ok Malformed, q')
  | r => r
  end.

Fixpoint top_loop (l : list nat) (_limit : Z) (_avoid : gset bytes) : QM (list TransactionBase) :=
  match l with
  | [] => mret []
  | id :: l' =>
      if _limit <=? 0 then mret [] else
      do! t := deref (Some id) in
      do! h := tx (hash_of t) in
      if bool_decide (h ∈ _avoid) then top_loop l' _limit _avoid
      else do! r := top_loop l' (_limit - 1) _avoid in mret (t :: r)
  end.
Definition topTransactions (_limit : Z) (_avoid : gset bytes) : QM (list TransactionBase) :=
  do! l := mget m_current in top_loop l _limit _avoid.

Definition knownTransactions (q : TransactionQueue) : gset bytes := m_known q.

Definition maxNonce (_a : bytes) (q : TransactionQueue) : Z :=
  let ret := match rbegin (sub (m_currentByAddressAndNonce q) _a) with Some (n, _) => wrap 256 (n + 1) | None => 0 end in
  match rbegin (sub (m_future q) _a) with Some (n, _) => Z.max ret (wrap 256 (n + 1)) | None => ret end.

Definition waiting (_a : bytes) (q : TransactionQueue) : Z :=
  wrap 32 (wrap 32 (Z.of_nat (base.size (sub (m_currentByAddressAndNonce q) _a))) + Z.of_nat (base.size (sub (m_future q) _a))).

(** [status] and [limits]. *)
Record Status := { current : Z; future : Z; unverified : Z; dropped : Z }.
Definition status (q : TransactionQueue) : Status :=
  {| current := Z.of_nat (base.size (m_currentByHash q)); future := Z.of_nat (base.size (m_future q));
     unverified := zlen (m_unverified q); dropped := Z.of_nat (base.size (m_dropped q)) |}.
Definition limits (q : TransactionQueue) : Z * Z := (m_limit q, m_futureLimit q).

(** The loop of [setFuture] over the entries from the cutoff on. *)
Fixpoint future_loop (a : bytes) (l : list (Z * option nat)) : QM unit :=
  match l with
  | [] => mret tt
  | (_, handle) :: l' =>
      do! t := deref handle in
      do! h := tx (hash_of t) in
      exec! mput (fun q => set_byHash (delete h (m_currentByHash q)) q) in
      exec! mput (fun q => let target := sub (m_future q) a in
        set_future (<[a := match target !! m_nonce t with Some _ => target | None => <[m_nonce t := t]> target end]> (m_future q)) q) in
      exec! match handle with Some id => erase id | None => mret tt end in
      exec! mput (fun q => set_futureSize (wrap 32 (m_futureSize q + 1)) q) in
      future_loop a l'
  end.
Definition setFuture (_txHash : bytes) : QM unit :=
  do! it := mget (fun q => m_currentByHash q !! _txHash) in
  match it with
  | None => mret tt
  | Some id =>
      do! st := deref (Some id) in
      let a := from st in
      do! queue := mget (fun q => sub (m_currentByAddressAndNonce q) a) in
      exec! mput (fun q => set_future (<[a := sub (m_future q) a]> (m_future q)) q) in
      let cutoff := lower_bound (m_nonce st) queue in
      exec! future_loop a cutoff in
      mput (fun q => set_byAddress (trim a (<[a := erase_range cutoff queue]> (m_currentByAddressAndNonce q))) q)
  end.

Definition drop_ (_txHash : bytes) : QM unit :=
  do! known := mget m_known in
  if bool_decide (_txHash ∈ known) then
    exec! mput (fun q => set_dropped ({[_txHash]} ∪ m_dropped q) q) in
    exec! remove_WITH_LOCK _txHash in
    mret tt
  else mret tt.

Definition dropGood (_t : TransactionBase) : QM unit :=
  exec! makeCurrent_WITH_LOCK _t in
  do! h := tx (hash_of _t) in
  do! known := mget m_known in
  if bool_decide (h ∈ known) then exec! remove_WITH_LOCK h in mret tt else mret tt.

Definition clear : QM unit :=
  mput (fun q => set_known ∅ (set_nodes ∅ (set_current [] (set_byAddress ∅ (set_byHash ∅ (set_future ∅ (set_futureSize 0 q))))))).

(** ** Verifying *)

Fixpoint enqueue_loop (n : nat) (i : Z) (_data nodeId : bytes) (c : cache) : QM unit :=
  match n with
  | O => mret tt
  | S n' =>
      do! u := mget m_unverified in
      if c_maxVerificationQueueSize <=? zlen u then mret tt else
      let '(r, c') := index _data i c in
      do! d := mlift (match r with Ok d => Ok d | Err e => Err (RlpExn e) end) in
      exec! mput (fun q => set_unverified (m_unverified q ++ [{| u_transaction := d; nodeId := nodeId |}]) q) in
      enqueue_loop n' (i + 1) _data nodeId c'
  end.
Definition enqueue (_data _nodeId : bytes) : QM unit :=
  do! itemCount := mlift (match itemCount _data with Ok n => Ok n | Err e => Err (RlpExn e) end) in
  enqueue_loop (Z.to_nat (wrap 32 itemCount)) 0 _data _nodeId cache_init.

(** A turn of [verifierBody], when there is work. *)
Definition verify_one : QM unit := fun q =>
  match m_unverified q with
  | [] => (Ok tt, q)
  | work :: rest =>
      match (do! t := tx (parse (u_transaction work) Cheap) in
             do! ir := import t Ignore in
             do! h := tx (hash_of t) in
             signal (OnImport ir h (nodeId work))) (set_unverified rest q) with
      | (Err (TxExn _), q') | (Err (RlpExn _), q') => (Ok tt, q')
      | r => r
      end
  end.

End Queue.
End TransactionQueue.
