(* ===== verification/TxQueueProps.v ===== *)
(** * TxQueueProps: the transaction queue keeps its books

    The invariant of [TransactionQueue] (the indices, the multiset and the future
    transactions agree) and that every operation keeps it and follows no dangling
    iterator; what an import does; and where the queue goes wrong. *)

From stdpp Require Import base list numbers option gmap sorting.
From Stdlib Require Import ZArith Lia.
From S2P Require Import Prelude Bytes Rlp RlpStream RlpFields Keccak Crypto Transaction TxQueue.
Import CommonData Keccak Transaction TransactionQueue.

#[local] Opaque sha3.

Module TxQueueProps.

(** ** Maps of maps *)
Section Maps.
Context {A : Type}.
Implicit Types (m : gmap Z A) (M : gmap bytes (gmap Z A)) (a b : bytes) (n : Z).

Lemma lookup_sub M a n : sub M a !! n = lookup2 M a n.
Proof. unfold sub, lookup2. destruct (M !! a); [done|apply lookup_empty]. Qed.
Lemma lookup2_insert M a b m n : lookup2 (<[a := m]> M) b n = if decide (a = b) then m !! n else lookup2 M b n.
Proof.
  unfold lookup2. destruct (decide (a = b)) as [<-|Hab]; [by rewrite lookup_insert_eq|by rewrite lookup_insert_ne].
Qed.
Lemma lookup2_sub M a n : lookup2 M a n = sub M a !! n.
Proof. by rewrite lookup_sub. Qed.
Lemma size_empty m : (base.size m =? 0)%nat = true -> m = ∅.
Proof. intros H%Nat.eqb_eq. by apply map_size_empty_iff. Qed.
Lemma lookup2_trim M a b n : lookup2 (trim a M) b n = lookup2 M b n.
Proof.
  unfold trim. destruct (_ =? _)%nat eqn:E; [|done]. apply size_empty in E. destruct (decide (a = b)) as [<-|Hab].
  - unfold lookup2 at 1. rewrite lookup_delete_eq. cbn. rewrite lookup2_sub, E. by rewrite lookup_empty.
  - unfold lookup2. by rewrite lookup_delete_ne.
Qed.
Lemma trim_ne M a : (forall b, b <> a -> M !! b <> Some ∅) -> forall b, trim a M !! b <> Some ∅.
Proof.
  intros HM b. unfold trim. destruct (_ =? _)%nat eqn:E; destruct (decide (b = a)) as [->|Hb]; auto.
  - by rewrite lookup_delete_eq.
  - rewrite lookup_delete_ne by done. by apply HM.
  - intros Ha. unfold sub in E. rewrite Ha in E. cbn in E. by rewrite map_size_empty in E.
Qed.

Definition total M : Z := map_fold (fun _ m acc => Z.of_nat (base.size m) + acc) 0 M.
Lemma total_empty : total ∅ = 0.
Proof. apply map_fold_empty. Qed.
Lemma total_insert_fresh M a m : M !! a = None -> total (<[a := m]> M) = Z.of_nat (base.size m) + total M.
Proof. intros Ha. unfold total. rewrite map_fold_insert_L; [done| |done]. intros. lia. Qed.
Lemma total_delete M a : total M = Z.of_nat (base.size (sub M a)) + total (delete a M).
Proof.
  unfold sub. destruct (M !! a) as [m|] eqn:Ea; cbn.
  - rewrite <- (insert_delete_id M a m Ea) at 1. apply total_insert_fresh. apply lookup_delete_eq.
  - rewrite delete_id by done. by rewrite map_size_empty.
Qed.
Lemma total_insert M a m : total (<[a := m]> M) = total M - Z.of_nat (base.size (sub M a)) + Z.of_nat (base.size m).
Proof.
  rewrite (total_delete M a), <- insert_delete_eq, total_insert_fresh by apply lookup_delete_eq. lia.
Qed.
Lemma total_trim M a : total (trim a M) = total M.
Proof.
  unfold trim. destruct (_ =? _)%nat eqn:E; [|done]. rewrite (total_delete M a). apply Nat.eqb_eq in E. rewrite E. lia.
Qed.
Lemma total_nonneg M : 0 <= total M.
Proof. unfold total. apply (map_fold_weak_ind (fun r _ => 0 <= r)); intros; lia. Qed.
Lemma size_le_total M a : Z.of_nat (base.size (sub M a)) <= total M.
Proof. rewrite (total_delete M a). pose proof (total_nonneg (delete a M)). lia. Qed.

(** *** Entries in order *)
Lemma elem_of_entries m k x : (k, x) ∈ entries m <-> m !! k = Some x.
Proof. unfold entries. rewrite merge_sort_Permutation. apply elem_of_map_to_list. Qed.
Lemma entries_keys m : NoDup (entries m).*1.
Proof. unfold entries. rewrite merge_sort_Permutation. apply NoDup_fst_map_to_list. Qed.
Lemma entries_nil m : entries m = [] -> m = ∅.
Proof.
  intros E. apply map_eq. intros k. rewrite lookup_empty. destruct (m !! k) eqn:Ek; [|done].
  apply elem_of_entries in Ek. rewrite E in Ek. by apply elem_of_nil in Ek.
Qed.
Lemma begin_Some m : m <> ∅ -> exists k x, begin m = Some (k, x) /\ m !! k = Some x.
Proof.
  intros Hm. unfold begin. destruct (entries m) as [|[k x] l] eqn:E; [by apply entries_nil in E|].
  exists k, x. split; [done|]. apply elem_of_entries. rewrite E. by left.
Qed.
Lemma rbegin_Some m : m <> ∅ -> exists k x, rbegin m = Some (k, x) /\ m !! k = Some x.
Proof.
  intros Hm. unfold rbegin. destruct (last (entries m)) as [[k x]|] eqn:E.
  - exists k, x. split; [done|]. apply elem_of_entries. apply last_Some in E as [l ->]. apply elem_of_app. right. by left.
  - apply last_None in E. by apply entries_nil in E.
Qed.
Lemma elem_of_lower_bound m n k x : (k, x) ∈ lower_bound n m <-> m !! k = Some x /\ n <= k.
Proof.
  unfold lower_bound. rewrite <- elem_of_entries. rewrite list_elem_of_In, List.filter_In, <- list_elem_of_In. cbn.
  rewrite Z.leb_le. done.
Qed.
Lemma lower_bound_keys m n : NoDup (lower_bound n m).*1.
Proof.
  unfold lower_bound. pose proof (entries_keys m) as H. induction (entries m) as [|[k x] l IH]; [done|].
  cbn in H |- *. apply NoDup_cons in H as [H1 H2]. destruct (n <=? k); cbn; [|auto]. constructor; [|auto].
  intros Hk. apply H1. apply list_elem_of_fmap in Hk as ([k' x'] & -> & Hk). apply list_elem_of_fmap.
  exists (k', x'). split; [done|]. apply list_elem_of_In, List.filter_In in Hk. apply list_elem_of_In. apply Hk.
Qed.
#[local] Instance key_le_total : Total (key_le (A := A)).
Proof. intros x y. unfold key_le. lia. Qed.
#[local] Instance key_le_trans : Transitive (key_le (A := A)).
Proof. intros x y z. unfold key_le. lia. Qed.
Lemma lower_bound_head m k x : m !! k = Some x -> exists l, lower_bound k m = (k, x) :: l.
Proof.
  intros Hk. apply elem_of_entries in Hk. unfold lower_bound. pose proof (entries_keys m) as Hnd.
  assert (StronglySorted key_le (entries m)) as Hs by apply (StronglySorted_merge_sort _).
  induction (entries m) as [|[j y] l IH]; [by apply elem_of_nil in Hk|]. cbn [List.filter fst].
  apply NoDup_cons in Hnd as [Hj Hnd]. apply StronglySorted_inv in Hs as [Hs Hall].
  apply elem_of_cons in Hk as [[= -> ->]|Hk]; [rewrite Z.leb_refl; eauto|].
  destruct (Z.leb_spec k j); [|auto]. rewrite Forall_forall in Hall. specialize (Hall _ Hk). unfold key_le in Hall. cbn in Hall.
  assert (j = k) as -> by lia. destruct Hj. apply list_elem_of_fmap. by exists (k, x).
Qed.
Lemma erase_range_lookup (l : list (Z * A)) m k : erase_range l m !! k = if decide (k ∈ l.*1) then None else m !! k.
Proof.
  induction l as [|[j x] l IH]; cbn; [done|]. fold (erase_range l m). destruct (decide (k = j)) as [->|Hk].
  - rewrite lookup_delete_eq. by rewrite decide_True by by left.
  - rewrite lookup_delete_ne by done. rewrite IH. destruct (decide (k ∈ l.*1)).
    + by rewrite decide_True by by right.
    + rewrite decide_False; [done|]. by intros [->|]%elem_of_cons.
Qed.

(** Erasing entries of one map. *)
Definition erase2 (a : bytes) (l : list (Z * A)) M : gmap bytes (gmap Z A) := trim a (<[a := erase_range l (sub M a)]> M).
Lemma lookup2_erase2 a l M b k : lookup2 (erase2 a l M) b k = if decide (b = a /\ k ∈ l.*1) then None else lookup2 M b k.
Proof.
  unfold erase2. rewrite lookup2_trim, lookup2_insert. destruct (decide (a = b)) as [<-|Hab].
  - rewrite erase_range_lookup, lookup_sub. destruct (decide (k ∈ l.*1)).
    + by rewrite decide_True.
    + rewrite decide_False; [done|by intros []].
  - rewrite decide_False; [done|by intros [-> _]].
Qed.
Lemma erase2_ne a l M : (forall b, M !! b <> Some ∅) -> forall b, erase2 a l M !! b <> Some ∅.
Proof. intros HM. apply trim_ne. intros b Hb. by rewrite lookup_insert_ne. Qed.
Lemma ext2 M N : (forall a, M !! a <> Some ∅) -> (forall a, N !! a <> Some ∅) -> (forall a n, lookup2 M a n = lookup2 N a n) -> M = N.
Proof.
  intros HM HN HE. assert (forall a, sub M a = sub N a) as Hs.
  { intros a. apply map_eq. intros n. by rewrite !lookup_sub. }
  apply map_eq. intros a. specialize (HM a). specialize (HN a). specialize (Hs a). unfold sub in Hs.
  destruct (M !! a) as [m|], (N !! a) as [k|]; cbn in *; congruence.
Qed.
Lemma total_erase1 a k x M : lookup2 M a k = Some x -> total (erase2 a [(k, x)] M) = total M - 1.
Proof.
  intros Hk. unfold erase2. rewrite total_trim, total_insert. cbn. rewrite map_size_delete, lookup_sub, Hk.
  assert (base.size (sub M a) <> 0%nat); [|lia]. rewrite map_size_non_empty_iff. intros E. rewrite <- lookup_sub, E in Hk.
  by rewrite lookup_empty in Hk.
Qed.
Lemma erase2_cons a k x l M : (forall b, M !! b <> Some ∅) -> erase2 a l (erase2 a [(k, x)] M) = erase2 a ((k, x) :: l) M.
Proof.
  intros HM. apply ext2; [by apply erase2_ne, erase2_ne|by apply erase2_ne|]. intros b n. rewrite !lookup2_erase2. cbn.
  destruct (decide (b = a /\ n ∈ l.*1)) as [[Hb Hl]|Hl]; [by rewrite decide_True by (split; [done|by right])|].
  destruct (decide (b = a /\ n ∈ [k])) as [[Hb Hk]|Hk].
  - rewrite decide_True; [done|]. split; [done|]. apply list_elem_of_singleton in Hk. subst. by left.
  - rewrite decide_False; [done|]. intros [Hb [->|Hn]%elem_of_cons]; [|tauto]. apply Hk. split; [done|by left].
Qed.
End Maps.

(** ** The invariant *)
Section Queue.
Context {L : Crypto.Secp256k1}.
Abbreviation QM A := (M TransactionQueue tq_exn A).
Implicit Types (t u : TransactionBase) (q : TransactionQueue) (h a b : bytes) (n : Z) (id : nat).

(** A transaction with a signature that its sender can be recovered from. *)
Record good t h a : Prop := { good_hash : hash_of t = Ok h; good_sender : sender_of t = Ok a }.

Lemma good_from t h a : good t h a -> from t = a.
Proof. intros [_ Hs]. unfold from, safeSender. unfold sender_of in Hs. destruct (sender t) as [[x|e] t']; [by injection Hs|done]. Qed.
Lemma good_fun t h a h' a' : good t h a -> good t h' a' -> h = h' /\ a = a'.
Proof. intros [H1 H2] [H3 H4]. split; congruence. Qed.

(** [B] bounds the number of transactions; [K] stands for the known hashes, [F] and [S]
    for the future transactions and their number, which differ from the members while an
    operation is at work. *)
Record tq_inv (B : Z) (K : gset bytes) (F : gmap bytes (gmap Z TransactionBase)) (S : Z) q : Prop := {
  i_nodup : NoDup (m_current q);
  i_dom id : id ∈ m_current q <-> is_Some (m_nodes q !! id);
  i_next id : is_Some (m_nodes q !! id) -> (id < m_next q)%nat;
  i_node id t : m_nodes q !! id = Some t -> exists h a, good t h a /\ m_currentByHash q !! h = Some id /\
    lookup2 (m_currentByAddressAndNonce q) a (m_nonce t) = Some (Some id);
  i_hash h id : m_currentByHash q !! h = Some id -> exists t a, m_nodes q !! id = Some t /\ good t h a;
  i_addr a n o : lookup2 (m_currentByAddressAndNonce q) a n = Some o -> exists id t h, o = Some id /\
    m_nodes q !! id = Some t /\ good t h a /\ m_nonce t = n;
  i_ne a : m_currentByAddressAndNonce q !! a <> Some ∅;
  i_known h id : m_currentByHash q !! h = Some id -> h ∈ K;
  i_fut a n t : lookup2 F a n = Some t -> exists h, good t h a /\ m_nonce t = n /\
    lookup2 (m_currentByAddressAndNonce q) a n = None /\ m_currentByHash q !! h = None /\ h ∈ K;
  i_inj a n t b k u h : lookup2 F a n = Some t -> lookup2 F b k = Some u -> hash_of t = Ok h -> hash_of u = Ok h -> a = b /\ n = k;
  i_fne a : F !! a <> Some ∅;
  i_size : S = total F;
  i_bound : S + zlen (m_current q) <= B
}.

(** The current transaction in a slot, and the transaction in a slot. *)
Definition slot q a n : option TransactionBase :=
  match lookup2 (m_currentByAddressAndNonce q) a n with Some (Some id) => m_nodes q !! id | _ => None end.
Definition all q a n : option TransactionBase :=
  match slot q a n with Some t => Some t | None => lookup2 (m_future q) a n end.

(** The operation returns, and what it leaves satisfies [Q]. *)
Definition runs {A} (m : QM A) q (Q : A -> TransactionQueue -> Prop) : Prop :=
  exists x q', m q = (Ok x, q') /\ Q x q'.
Lemma runs_bind {A C} (m : QM A) (f : A -> QM C) q Q R :
  runs m q Q -> (forall x q', Q x q' -> runs (f x) q' R) -> runs (mbind m f) q R.
Proof. intros (x & q' & E & HQ) Hf. unfold runs. rewrite (mbind_Ok _ _ _ _ _ E). by apply Hf. Qed.
Lemma runs_ret {A} (x : A) q (Q : A -> TransactionQueue -> Prop) : Q x q -> runs (mret x) q Q.
Proof. intros HQ. by exists x, q. Qed.
Lemma runs_get {A C} (f : TransactionQueue -> A) (k : A -> QM C) q R : runs (k (f q)) q R -> runs (mbind (mget f) k) q R.
Proof. done. Qed.
Lemma runs_put {C} (f : TransactionQueue -> TransactionQueue) (k : unit -> QM C) q R : runs (k tt) (f q) R -> runs (mbind (mput f) k) q R.
Proof. done. Qed.
Lemma runs_tx {A C} (r : result tx_exn A) x (k : A -> QM C) q R : r = Ok x -> runs (k x) q R -> runs (mbind (tx r) k) q R.
Proof. by intros ->. Qed.
Lemma runs_deref {C} id t (k : TransactionBase -> QM C) q R : m_nodes q !! id = Some t -> runs (k t) q R -> runs (mbind (deref (Some id)) k) q R.
Proof. intros E Hk. unfold mbind, deref, mget. cbn. unfold runs. unfold mbind. rewrite E. cbn. exact Hk. Qed.

Lemma runs_choice {C} (k : nat -> QM C) q R : runs (k (hd 0%nat (m_choices q))) (set_choices (tl (m_choices q)) q) R -> runs (mbind choice k) q R.
Proof. done. Qed.

(** ** The multiset *)

(** What a comparison needs. *)
Definition comparable t q : Prop := exists h a, good t h a /\ sub (m_currentByAddressAndNonce q) a <> ∅.

Lemma height_runs t q : comparable t q -> runs (height t) q (fun _ q' => q' = q).
Proof.
  intros (h & a & Hg & Ha). unfold height. eapply runs_tx; [apply Hg|]. apply runs_get.
  destruct (begin_Some _ Ha) as (k & x & -> & _). by apply runs_ret.
Qed.
Lemma before_runs t u q : comparable t q -> comparable u q -> runs (before t u) q (fun _ q' => q' = q).
Proof.
  intros Ht Hu. unfold before. eapply runs_bind; [by apply height_runs|]. intros x q' ->.
  eapply runs_bind; [by apply height_runs|]. intros y q' ->. by apply runs_ret.
Qed.

Lemma place_runs (n : nat) t (l : list nat) q :
  comparable t q -> Forall (fun id => exists u, m_nodes q !! id = Some u /\ comparable u q) l -> (List.length l <= n)%nat ->
  runs (place n t l) q (fun p q' => (p <= List.length l)%nat /\ exists c, q' = set_choices c q).
Proof.
  revert l q. induction n as [|n IH]; intros l q Ht Hl Hn.
  - destruct l; [|cbn in Hn; lia]. apply runs_ret. split; [done|]. exists (m_choices q). by destruct q.
  - destruct l as [|i l]; [apply runs_ret; split; [done|]; exists (m_choices q); by destruct q|].
    cbn [place]. set (L0 := i :: l) in *. apply runs_choice. set (k := (hd 0%nat (m_choices q) mod List.length L0)%nat). assert (k < List.length L0)%nat as Hk by (apply Nat.mod_upper_bound; done).
    destruct (lookup_lt_is_Some_2 L0 k Hk) as [id Hid]. rewrite Hid.
    set (q1 := set_choices _ q). assert (comparable t q1) as Ht1 by exact Ht.
    destruct (proj1 (Forall_lookup _ _) Hl k id Hid) as (u & Hu & Hcu). eapply runs_deref; [exact Hu|].
    eapply runs_bind; [by apply (before_runs t u q1)|]. intros b q' ->. destruct b.
    + destruct (IH (take k L0) q1) as (p & q2 & E & Hp & c & ->); [done|by apply Forall_take|rewrite length_take; lia|].
      exists p, (set_choices c q1). split; [done|]. rewrite length_take in Hp. split; [lia|]. by exists c.
    + destruct (IH (drop (S k) L0) q1) as (p & q2 & E & Hp & c & ->); [done|by apply Forall_drop|rewrite length_drop; lia|].
      unfold runs. rewrite (mbind_Ok _ _ _ _ _ E). exists (S k + p)%nat, (set_choices c q1). split; [done|].
      rewrite length_drop in Hp. split; [lia|]. by exists c.
Qed.

Lemma emplace_runs t q :
  comparable t q -> (forall id, id ∈ m_current q -> exists u, m_nodes q !! id = Some u /\ comparable u q) ->
  runs (emplace t) q (fun id q' => id = m_next q /\ exists l c, l ≡ₚ id :: m_current q /\
    q' = set_choices c (set_next (S id) (set_nodes (<[id := t]> (m_nodes q)) (set_current l q)))).
Proof.
  intros Ht Hl. unfold emplace. apply runs_get.
  eapply runs_bind; [apply (place_runs (List.length (m_current q)) t (m_current q) q Ht); [|done]|].
  { apply Forall_forall. intros id Hid. by apply Hl. }
  intros p q' (Hp & c & ->). apply runs_get. apply runs_put. apply runs_ret. split; [done|].
  exists (take p (m_current q) ++ m_next q :: drop p (m_current q)), c. split; [|done].
  rewrite <- Permutation_middle. by rewrite take_drop.
Qed.

(** ** Adding and removing *)

Lemma node_slot B K F S q id t h a :
  tq_inv B K F S q -> m_nodes q !! id = Some t -> good t h a ->
  m_currentByHash q !! h = Some id /\ lookup2 (m_currentByAddressAndNonce q) a (m_nonce t) = Some (Some id).
Proof.
  intros Hi Ht Hg. destruct (i_node _ _ _ _ _ Hi id t Ht) as (h' & a' & Hg' & H1 & H2).
  by destruct (good_fun _ _ _ _ _ Hg Hg') as [-> ->].
Qed.

(** A new node for a free slot and hash. *)
Lemma inv_add B K F S q q' t h a :
  let id := m_next q in
  tq_inv B K F S q -> good t h a -> h ∈ K ->
  lookup2 (m_currentByAddressAndNonce q) a (m_nonce t) = None -> m_currentByHash q !! h = None -> lookup2 F a (m_nonce t) = None ->
  (forall b k u, lookup2 F b k = Some u -> hash_of u <> Ok h) ->
  m_nodes q' = <[id := t]> (m_nodes q) -> m_current q' ≡ₚ id :: m_current q -> m_next q' = Datatypes.S id ->
  m_currentByHash q' = <[h := id]> (m_currentByHash q) ->
  (forall b k, lookup2 (m_currentByAddressAndNonce q') b k =
     if decide (b = a /\ k = m_nonce t) then Some (Some id) else lookup2 (m_currentByAddressAndNonce q) b k) ->
  (forall b, m_currentByAddressAndNonce q' !! b <> Some ∅) ->
  tq_inv (B + 1) K F S q'.
Proof.
  intros id Hi Hg HK Hslot Hhash Hfut Hfh En Ec Ex Eh Ea Hne.
  assert (m_nodes q !! id = None) as Hid.
  { destruct (m_nodes q !! id) eqn:E; [|done]. pose proof (i_next _ _ _ _ _ Hi id ltac:(by rewrite E)). unfold id in *. lia. }
  split.
  - rewrite Ec. constructor; [|apply Hi]. rewrite (i_dom _ _ _ _ _ Hi), Hid. by intros [? [=]].
  - intros i. rewrite Ec, En, elem_of_cons, (i_dom _ _ _ _ _ Hi). destruct (decide (i = id)) as [->|Hne'].
    + rewrite lookup_insert_eq. split; [eauto|by left].
    + rewrite lookup_insert_ne by done. split; [by intros [|]|by right].
  - intros i. rewrite En, Ex. destruct (decide (i = id)) as [->|Hne']; [lia|]. rewrite lookup_insert_ne by done.
    intros Hs%(i_next _ _ _ _ _ Hi). unfold id. lia.
  - intros i u. rewrite En, Eh. destruct (decide (i = id)) as [->|Hne'].
    + rewrite lookup_insert_eq. intros [= <-]. exists h, a. rewrite Ea, lookup_insert_eq, decide_True by done. done.
    + rewrite lookup_insert_ne by done. intros Hu. destruct (i_node _ _ _ _ _ Hi i u Hu) as (h' & a' & Hg' & H1 & H2).
      exists h', a'. split; [done|]. rewrite lookup_insert_ne by congruence. rewrite Ea, decide_False; [done|].
      intros [-> Hn]. rewrite Hn in H2. congruence.
  - intros h' i. rewrite Eh, En. destruct (decide (h' = h)) as [->|Hne'].
    + rewrite lookup_insert_eq. intros [= <-]. exists t, a. by rewrite lookup_insert_eq.
    + rewrite lookup_insert_ne by done. intros Hh. destruct (i_hash _ _ _ _ _ Hi h' i Hh) as (u & b & Hu & Hgu).
      exists u, b. rewrite lookup_insert_ne by congruence. done.
  - intros b k o. rewrite Ea, En. destruct (decide (b = a /\ k = m_nonce t)) as [[-> ->]|Hne'].
    + intros [= <-]. exists id, t, h. by rewrite lookup_insert_eq.
    + intros Ho. destruct (i_addr _ _ _ _ _ Hi b k o Ho) as (i & u & h' & -> & Hu & Hgu & <-).
      exists i, u, h'. rewrite lookup_insert_ne by congruence. done.
  - done.
  - intros h' i. rewrite Eh. destruct (decide (h' = h)) as [->|Hne']; [done|]. rewrite lookup_insert_ne by done. apply Hi.
  - intros b k u Hu. destruct (i_fut _ _ _ _ _ Hi b k u Hu) as (h' & Hgu & Hk & Hs & Hh & HK'). exists h'.
    split; [done|]. split; [done|]. assert (h' <> h) as Hne' by (intros ->; apply (Hfh b k u Hu); apply Hgu).
    rewrite Ea, Eh, decide_False by (intros [-> ->]; congruence). rewrite lookup_insert_ne by done. done.
  - apply Hi.
  - apply Hi.
  - apply Hi.
  - rewrite Ec. cbn. pose proof (i_bound _ _ _ _ _ Hi). lia.
Qed.

(** A node less. *)
Lemma inv_remove B K F S q q' id t h a :
  tq_inv B K F S q -> m_nodes q !! id = Some t -> good t h a ->
  m_nodes q' = delete id (m_nodes q) -> m_current q' = List.filter (fun i => negb (i =? id)%nat) (m_current q) ->
  m_next q' = m_next q -> m_currentByHash q' = delete h (m_currentByHash q) ->
  (forall b k, lookup2 (m_currentByAddressAndNonce q') b k =
     if decide (b = a /\ k = m_nonce t) then None else lookup2 (m_currentByAddressAndNonce q) b k) ->
  (forall b, m_currentByAddressAndNonce q' !! b <> Some ∅) ->
  tq_inv (B - 1) (K ∖ {[h]}) F S q'.
Proof.
  intros Hi Ht Hg En Ec Ex Eh Ea Hne. destruct (node_slot _ _ _ _ _ _ _ _ _ Hi Ht Hg) as [Hh Hs].
  assert (forall i, i ∈ m_current q' <-> i ∈ m_current q /\ i <> id) as Hin.
  { intros i. rewrite Ec, !list_elem_of_In, List.filter_In, negb_true_iff, Nat.eqb_neq. done. }
  assert (forall h' i u, m_nodes q !! i = Some u -> hash_of u = Ok h' -> i <> id -> h' <> h) as Hdiff.
  { intros h' i u Hu Hhu Hne' ->. destruct (i_node _ _ _ _ _ Hi i u Hu) as (h2 & a2 & [Hg1 Hg2] & H1 & _). congruence. }
  split.
  - rewrite Ec. apply NoDup_ListNoDup, List.NoDup_filter, NoDup_ListNoDup, Hi.
  - intros i. rewrite Hin, (i_dom _ _ _ _ _ Hi), En. destruct (decide (i = id)) as [->|Hne'].
    + rewrite lookup_delete_eq. split; [by intros []|by intros [? [=]]].
    + rewrite lookup_delete_ne by done. split; [by intros []|done].
  - intros i. rewrite En, Ex. intros [u Hu%lookup_delete_Some]. apply (i_next _ _ _ _ _ Hi). exists u. apply Hu.
  - intros i u. rewrite En, Eh. intros [Hne' Hu]%lookup_delete_Some. destruct (i_node _ _ _ _ _ Hi i u Hu) as (h' & a' & Hg' & H1 & H2).
    exists h', a'. split; [done|]. rewrite lookup_delete_ne by (intros <-; congruence). rewrite Ea, decide_False; [done|].
    intros [-> Hn]. rewrite Hn in H2. congruence.
  - intros h' i. rewrite Eh, En. intros [Hne' Hh']%lookup_delete_Some. destruct (i_hash _ _ _ _ _ Hi h' i Hh') as (u & b & Hu & Hgu).
    exists u, b. rewrite lookup_delete_ne; [done|]. intros <-. rewrite Ht in Hu. injection Hu as <-.
    by destruct (good_fun _ _ _ _ _ Hg Hgu).
  - intros b k o. rewrite Ea, En. destruct (decide (b = a /\ k = m_nonce t)) as [|Hne']; [done|].
    intros Ho. destruct (i_addr _ _ _ _ _ Hi b k o Ho) as (i & u & h' & -> & Hu & Hgu & <-).
    exists i, u, h'. rewrite lookup_delete_ne; [done|]. intros <-. rewrite Ht in Hu. injection Hu as <-.
    destruct (good_fun _ _ _ _ _ Hg Hgu) as [_ <-]. by apply Hne'.
  - done.
  - intros h' i. rewrite Eh. intros [Hne' Hh']%lookup_delete_Some. apply elem_of_difference.
    split; [by eapply (i_known _ _ _ _ _ Hi)|by rewrite elem_of_singleton].
  - intros b k u Hu. destruct (i_fut _ _ _ _ _ Hi b k u Hu) as (h' & Hgu & Hk & Hs' & Hh' & HK'). exists h'.
    split; [done|]. split; [done|]. rewrite Ea, Eh. split; [|split].
    + by destruct (decide _).
    + apply lookup_delete_None. by right.
    + apply elem_of_difference. split; [done|]. rewrite elem_of_singleton. intros ->. congruence.
  - apply Hi.
  - apply Hi.
  - apply Hi.
  - pose proof (i_bound _ _ _ _ _ Hi) as Hb. assert (id ∈ m_current q) as Hc by (apply (i_dom _ _ _ _ _ Hi); eauto).
    assert (Datatypes.S (List.length (m_current q')) <= List.length (m_current q))%nat; [|lia].
    change (List.length (id :: m_current q') <= List.length (m_current q))%nat.
    apply List.NoDup_incl_length.
    + constructor; [rewrite <- list_elem_of_In, Hin; by intros []|]. rewrite Ec. apply List.NoDup_filter, NoDup_ListNoDup, Hi.
    + intros i. cbn. rewrite <- !list_elem_of_In, Hin. intros [<-|[]]; done.
Qed.

Lemma slot_add q q' t a :
  let id := m_next q in
  m_nodes q !! id = None -> (forall b k i, lookup2 (m_currentByAddressAndNonce q) b k = Some (Some i) -> is_Some (m_nodes q !! i)) ->
  m_nodes q' = <[id := t]> (m_nodes q) ->
  (forall b k, lookup2 (m_currentByAddressAndNonce q') b k =
     if decide (b = a /\ k = m_nonce t) then Some (Some id) else lookup2 (m_currentByAddressAndNonce q) b k) ->
  forall b k, slot q' b k = if decide (b = a /\ k = m_nonce t) then Some t else slot q b k.
Proof.
  intros id Hid Hi En Ea b k. unfold slot. rewrite Ea. destruct (decide _) as [|Hne]; [by rewrite En, lookup_insert_eq|].
  destruct (lookup2 (m_currentByAddressAndNonce q) b k) as [[i|]|] eqn:E; [|done|done]. rewrite En, lookup_insert_ne; [done|].
  intros ->. destruct (Hi _ _ _ E) as [u Hu]. congruence.
Qed.

(** What is left alone by every operation. *)
Record frame q q' : Prop := {
  f_limit : m_limit q' = m_limit q;
  f_futureLimit : m_futureLimit q' = m_futureLimit q;
  f_unverified : m_unverified q' = m_unverified q
}.
Lemma frame_refl q : frame q q.
Proof. by split. Qed.
Lemma frame_trans q1 q2 q3 : frame q1 q2 -> frame q2 q3 -> frame q1 q3.
Proof. intros [] []. split; congruence. Qed.

Lemma remove_runs B K F S q h :
  tq_inv B K F S q ->
  runs (remove_WITH_LOCK h) q (fun (r : bool) q' => match m_currentByHash q !! h with
    | None => r = false /\ q' = q
    | Some id => r = true /\ tq_inv (B - 1) (K ∖ {[h]}) F S q' /\ frame q q' /\ m_known q' = m_known q ∖ {[h]} /\
        m_future q' = m_future q /\ m_futureSize q' = m_futureSize q /\
        exists t a, m_nodes q !! id = Some t /\ good t h a /\ slot q a (m_nonce t) = Some t /\
          forall b k, slot q' b k = if decide (b = a /\ k = m_nonce t) then None else slot q b k
    end).
Proof.
  intros Hi. unfold remove_WITH_LOCK. apply runs_get. destruct (m_currentByHash q !! h) as [id|] eqn:Eh; [|by apply runs_ret].
  destruct (i_hash _ _ _ _ _ Hi h id Eh) as (t & a & Ht & Hg). eapply runs_deref; [exact Ht|]. rewrite (good_from _ _ _ Hg).
  destruct (node_slot _ _ _ _ _ _ _ _ _ Hi Ht Hg) as [_ Hs]. apply runs_get.
  destruct (m_currentByAddressAndNonce q !! a) as [m|] eqn:Em; [|unfold lookup2 in Hs; by rewrite Em in Hs].
  unfold erase. do 5 apply runs_put. apply runs_ret. split; [done|].
  assert (sub (m_currentByAddressAndNonce q) a = m) as Esub by (unfold sub; by rewrite Em).
  match goal with |- tq_inv _ _ _ _ ?x /\ _ => set (q' := x) end.
  assert (forall b k, lookup2 (m_currentByAddressAndNonce q') b k =
     if decide (b = a /\ k = m_nonce t) then None else lookup2 (m_currentByAddressAndNonce q) b k) as Ea.
  { intros b k. cbn. rewrite lookup2_trim, lookup2_insert. destruct (decide (a = b)) as [<-|Hab].
    - destruct (decide (k = m_nonce t)) as [->|Hk]; [rewrite lookup_delete_eq, decide_True by done; done|].
      rewrite lookup_delete_ne by done. rewrite decide_False by tauto. by rewrite <- Esub, lookup_sub.
    - rewrite decide_False; [done|]. by intros [-> _]. }
  split; [|split; [by split|split; [done|split; [done|split; [done|]]]]].
  - apply (inv_remove B K F S q q' id t h a); try done. apply trim_ne. intros b Hb. cbn. rewrite lookup_insert_ne by done. apply Hi.
  - exists t, a. split; [done|]. split; [done|]. split; [unfold slot; by rewrite Hs|]. intros b k. unfold slot. rewrite Ea.
    destruct (decide _) as [|Hne]; [done|]. destruct (lookup2 (m_currentByAddressAndNonce q) b k) as [[i|]|] eqn:E; [|done|done].
    cbn. rewrite lookup_delete_ne; [done|]. intros ->. destruct (i_addr _ _ _ _ _ Hi _ _ _ E) as (i' & u & h' & [= <-] & Hu & Hgu & <-).
    rewrite Ht in Hu. injection Hu as <-. destruct (good_fun _ _ _ _ _ Hg Hgu) as [_ <-]. by apply Hne.
Qed.

(** A future transaction less. *)
Lemma inv_future_less B K F S q a k t :
  tq_inv B K F S q -> lookup2 F a k = Some t -> tq_inv (B - 1) K (erase2 a [(k, t)] F) (S - 1) q.
Proof.
  intros Hi Hk. assert (forall b n u, lookup2 (erase2 a [(k, t)] F) b n = Some u -> lookup2 F b n = Some u /\ ~ (b = a /\ n = k)) as Hl.
  { intros b n u. rewrite lookup2_erase2. destruct (decide _) as [|Hne]; [done|]. intros Hu. split; [done|]. intros [-> ->].
    apply Hne. split; [done|]. by left. }
  destruct Hi as [H1 H2 H3 H4 H5 H6 H7 H8 H9 H10 H11 H12 H13]. split; try done.
  - intros b n u Hu. by apply H9, Hl.
  - intros b n u b' n' u' h Hu Hu'. by apply (H10 b n u b' n' u' h); [apply Hl|apply Hl].
  - by apply erase2_ne.
  - rewrite (total_erase1 a k t F Hk). lia.
  - lia.
Qed.
Lemma inv_weaken B B' K F S q : tq_inv B K F S q -> B <= B' -> tq_inv B' K F S q.
Proof. intros [] Hb. split; try done. lia. Qed.

(** The members that the virtual future does not stand for. *)
Lemma inv_fields B K F S q q' :
  tq_inv B K F S q -> m_nodes q' = m_nodes q -> m_current q' = m_current q -> m_next q' = m_next q ->
  m_currentByHash q' = m_currentByHash q -> m_currentByAddressAndNonce q' = m_currentByAddressAndNonce q -> tq_inv B K F S q'.
Proof. intros Hi E1 E2 E3 E4 E5. destruct Hi. split; rewrite ?E1, ?E2, ?E3, ?E4, ?E5 in *; done. Qed.

(** Every element can be compared. *)
Lemma inv_comparable B K F S q q1 id :
  tq_inv B K F S q -> (forall a n, is_Some (lookup2 (m_currentByAddressAndNonce q) a n) -> is_Some (lookup2 (m_currentByAddressAndNonce q1) a n)) ->
  m_nodes q1 = m_nodes q -> m_current q1 = m_current q -> id ∈ m_current q1 -> exists u, m_nodes q1 !! id = Some u /\ comparable u q1.
Proof.
  intros Hi Hsub En Ec Hid. rewrite Ec in Hid. apply (i_dom _ _ _ _ _ Hi) in Hid as [u Hu]. exists u. rewrite En. split; [done|].
  destruct (i_node _ _ _ _ _ Hi id u Hu) as (h & a & Hg & _ & Hs). exists h, a. split; [done|].
  destruct (Hsub a (m_nonce u) ltac:(by rewrite Hs)) as [o Ho]. intros E. rewrite <- lookup_sub, E in Ho. by rewrite lookup_empty in Ho.
Qed.

(** The index by address with a new handle. *)
Definition reserved (M : gmap bytes (gmap Z (option nat))) a n : gmap bytes (gmap Z (option nat)) :=
  <[a := match sub M a !! n with Some _ => sub M a | None => <[n := None]> (sub M a) end]> M.
Definition handled (M : gmap bytes (gmap Z (option nat))) a n id : gmap bytes (gmap Z (option nat)) :=
  <[a := <[n := Some id]> (sub (reserved M a n) a)]> (reserved M a n).
Lemma lookup2_reserved M a n b k : is_Some (lookup2 M b k) \/ b = a /\ k = n -> is_Some (lookup2 (reserved M a n) b k).
Proof.
  intros H. unfold reserved. rewrite lookup2_insert. destruct (decide (a = b)) as [<-|Hab]; [|destruct H as [H|[-> _]]; done].
  destruct (sub M a !! n) eqn:E.
  - destruct H as [H|[_ ->]]; [by rewrite lookup_sub|by rewrite E].
  - destruct (decide (k = n)) as [->|Hk]; [by rewrite lookup_insert_eq|]. rewrite lookup_insert_ne by done. rewrite lookup_sub.
    destruct H as [H|[_ ?]]; done.
Qed.
Lemma lookup2_handled M a n id b k :
  lookup2 (handled M a n id) b k = if decide (b = a /\ k = n) then Some (Some id) else lookup2 M b k.
Proof.
  unfold handled. rewrite lookup2_insert. destruct (decide (a = b)) as [<-|Hab].
  - destruct (decide (k = n)) as [->|Hk]; [by rewrite lookup_insert_eq, decide_True|].
    rewrite lookup_insert_ne by done. rewrite decide_False by tauto. rewrite lookup_sub. unfold reserved. rewrite lookup2_insert, decide_True by done.
    destruct (sub M a !! n); [by rewrite lookup_sub|]. rewrite lookup_insert_ne by done. by rewrite lookup_sub.
  - rewrite decide_False by (by intros [-> _]). unfold reserved. rewrite lookup2_insert, decide_False by done. done.
Qed.
Lemma handled_ne M a n id : (forall b, M !! b <> Some ∅) -> forall b, handled M a n id !! b <> Some ∅.
Proof.
  intros HM b. unfold handled, reserved. destruct (decide (a = b)) as [<-|Hab].
  - rewrite lookup_insert_eq. intros [= E]. by apply insert_non_empty in E.
  - by rewrite !lookup_insert_ne by done.
Qed.

Lemma insert_inv B K F S q q' t h a :
  let id := m_next q in
  tq_inv B K F S q -> good t h a -> h ∈ K ->
  lookup2 (m_currentByAddressAndNonce q) a (m_nonce t) = None -> m_currentByHash q !! h = None -> lookup2 F a (m_nonce t) = None ->
  (forall b k u, lookup2 F b k = Some u -> hash_of u <> Ok h) ->
  m_nodes q' = <[id := t]> (m_nodes q) -> m_current q' ≡ₚ id :: m_current q -> m_next q' = Datatypes.S id ->
  m_currentByHash q' = <[h := id]> (m_currentByHash q) ->
  m_currentByAddressAndNonce q' = handled (m_currentByAddressAndNonce q) a (m_nonce t) id ->
  tq_inv (B + 1) K F S q' /\
  forall b k, slot q' b k = if decide (b = a /\ k = m_nonce t) then Some t else slot q b k.
Proof.
  intros id Hi Hg HK Hslot Hhash Hfut Hfh En Ec Ex Eh Ea.
  assert (forall b k, lookup2 (m_currentByAddressAndNonce q') b k =
     if decide (b = a /\ k = m_nonce t) then Some (Some id) else lookup2 (m_currentByAddressAndNonce q) b k) as Ea'.
  { intros b k. rewrite Ea. apply lookup2_handled. }
  split.
  - apply (inv_add B K F S q q' t h a); try done. intros b. rewrite Ea. apply handled_ne. apply Hi.
  - apply slot_add; try done.
    + destruct (m_nodes q !! m_next q) eqn:E; [|done]. pose proof (i_next _ _ _ _ _ Hi (m_next q) ltac:(by rewrite E)). lia.
    + intros b k i Hb. destruct (i_addr _ _ _ _ _ Hi _ _ _ Hb) as (i' & u & h' & [= <-] & Hu & _). by rewrite Hu.
Qed.

Lemma reserved_comparable B K F S q q1 t h a :
  tq_inv B K F S q -> good t h a -> m_currentByAddressAndNonce q1 = reserved (m_currentByAddressAndNonce q) a (m_nonce t) ->
  m_nodes q1 = m_nodes q -> m_current q1 = m_current q ->
  comparable t q1 /\ forall id, id ∈ m_current q1 -> exists u, m_nodes q1 !! id = Some u /\ comparable u q1.
Proof.
  intros Hi Hg Ea En Ec. split.
  - exists h, a. split; [done|]. destruct (lookup2_reserved (m_currentByAddressAndNonce q) a (m_nonce t) a (m_nonce t)) as [o Ho]; [by right|].
    intros E. rewrite Ea in E. rewrite <- lookup_sub, E in Ho. by rewrite lookup_empty in Ho.
  - intros id. apply (inv_comparable B K F S q); try done. intros b n Hs. rewrite Ea. apply lookup2_reserved. by left.
Qed.

(** ** From future to current *)

Lemma erase2_nil a (F : gmap bytes (gmap Z TransactionBase)) : (forall b, F !! b <> Some ∅) -> erase2 a [] F = F.
Proof.
  intros HF. apply ext2; [by apply erase2_ne|done|]. intros b n. rewrite lookup2_erase2, decide_False; [done|].
  by intros [_ ?%elem_of_nil].
Qed.

(** One turn. *)
Lemma move_one B K F S q a k t :
  tq_inv B K F S q -> lookup2 F a k = Some t -> S = m_futureSize q -> S < 2 ^ 32 -> exists q',
  (forall l nonce, m_nonce t = nonce -> move_loop a ((k, t) :: l) nonce q =
     (do! moved := move_loop a l (wrap 256 (nonce + 1)) in mret ((k, t) :: moved)) q') /\
  tq_inv B K (erase2 a [(k, t)] F) (S - 1) q' /\ m_futureSize q' = S - 1 /\ frame q q' /\ m_known q' = m_known q /\
  m_future q' = <[a := <[k := moved_from t]> (sub (m_future q) a)]> (m_future q) /\
  forall b n, slot q' b n = if decide (b = a /\ n = k) then Some t else slot q b n.
Proof.
  intros Hi Hk HS HS32. destruct (i_fut _ _ _ _ _ Hi a k t Hk) as (h & Hg & Hn & Hs & Hh & HK). subst k.
  pose proof (inv_future_less B K F S q a (m_nonce t) t Hi Hk) as Hi1.
  assert (1 <= S) as HS1.
  { pose proof (i_size _ _ _ _ _ Hi1). pose proof (total_nonneg (erase2 a [(m_nonce t, t)] F)). lia. }
  set (q1 := set_future (<[a := <[m_nonce t := moved_from t]> (sub (m_future q) a)]> (m_future q))
    (set_byAddress (reserved (m_currentByAddressAndNonce q) a (m_nonce t)) q)).
  destruct (reserved_comparable B K F S q q1 t h a Hi Hg eq_refl eq_refl eq_refl) as [Hc Hcs].
  destruct (emplace_runs t q1 Hc Hcs) as (id & q2 & E & -> & l' & c & Hl & ->). cbn [m_next q1 set_future set_byAddress] in *.
  set (id := m_next q) in *.
  set (q3 := set_futureSize (wrap 32 (S - 1)) (set_byHash (<[h := id]> (m_currentByHash q))
    (set_byAddress (handled (m_currentByAddressAndNonce q) a (m_nonce t) id)
      (set_choices c (set_next (Datatypes.S id) (set_nodes (<[id := t]> (m_nodes q)) (set_current l' q1))))))).
  assert (forall l nonce, m_nonce t = nonce -> move_loop a ((m_nonce t, t) :: l) nonce q =
     (do! moved := move_loop a l (wrap 256 (nonce + 1)) in mret ((m_nonce t, t) :: moved)) q3) as Hrun.
  { intros l nonce <-. cbn [move_loop]. rewrite Z.eqb_refl. unfold mbind at 1, reserve. cbn [mput].
    unfold mbind at 1. cbn [mput]. fold (reserved (m_currentByAddressAndNonce q) a (m_nonce t)).
    change (set_future _ _) with q1. rewrite (mbind_Ok _ _ _ _ _ E). unfold mbind at 1, set_handle. cbn [mput].
    unfold mbind at 1, tx. rewrite (good_hash _ _ _ Hg). cbn [mlift]. unfold mbind at 1. cbn [mput]. unfold mbind at 1. cbn [mput].
    unfold q3. rewrite HS. reflexivity. }
  exists q3. split; [exact Hrun|].
  destruct (insert_inv (B - 1) K (erase2 a [(m_nonce t, t)] F) (S - 1) q q3 t h a Hi1 Hg HK Hs Hh) as [Hi3 Hslot]; try done.
  - rewrite lookup2_erase2, decide_True; [done|]. split; [done|by left].
  - intros b n u. rewrite lookup2_erase2. destruct (decide _) as [|Hne]; [done|]. intros Hu Hhu. apply Hne.
    destruct (i_inj _ _ _ _ _ Hi b n u a (m_nonce t) t h Hu Hk Hhu) as [-> ->]; [apply Hg|]. split; [done|by left].
  - split; [by replace (B - 1 + 1) with B in Hi3 by lia|]. split; [cbn; apply wrap_small; unfold uint_ok; lia|].
    split; [by split|]. split; [done|]. split; [done|]. exact Hslot.
Qed.

Lemma move_loop_runs l : forall B K F S q a nonce,
  tq_inv B K F S q -> NoDup l.*1 -> (forall k t, (k, t) ∈ l -> lookup2 F a k = Some t) -> S = m_futureSize q -> S < 2 ^ 32 ->
  runs (move_loop a l nonce) q (fun moved q' =>
    (forall k t, (k, t) ∈ moved -> (k, t) ∈ l) /\ tq_inv B K (erase2 a moved F) (S - zlen moved) q' /\
    m_futureSize q' = S - zlen moved /\ frame q q' /\ m_known q' = m_known q /\
    (forall b k, ~ (b = a /\ k ∈ moved.*1) -> lookup2 (m_future q') b k = lookup2 (m_future q) b k) /\
    (forall b, b <> a -> m_future q' !! b = m_future q !! b) /\
    (forall b k, slot q' b k = if decide (b = a /\ k ∈ moved.*1) then lookup2 F b k else slot q b k) /\
    forall t l', l = (nonce, t) :: l' -> nonce ∈ moved.*1).
Proof.
  induction l as [|[k t] l IH]; intros B K F S q a nonce Hi Hnd Hl HS HS32.
  - apply runs_ret. split; [done|]. cbn [zlen fmap list_fmap List.length]. rewrite erase2_nil by apply Hi. rewrite Z.sub_0_r.
    split; [done|]. split; [done|]. split; [apply frame_refl|]. split; [done|]. split; [done|]. split; [done|]. split; [|done].
    intros b n. rewrite decide_False; [done|]. by intros [_ ?%elem_of_nil].
  - destruct (decide (m_nonce t = nonce)) as [Hn|Hn].
    2:{ cbn [move_loop]. destruct (Z.eqb_spec (m_nonce t) nonce) as [|_]; [done|].
        apply runs_ret. split; [by intros k' t' ?%elem_of_nil|]. cbn [fmap list_fmap List.length]. rewrite erase2_nil by apply Hi. rewrite Z.sub_0_r.
        split; [done|]. split; [done|]. split; [apply frame_refl|]. split; [done|]. split; [done|]. split; [done|]. split.
        - intros b n. rewrite decide_False; [done|]. by intros [_ ?%elem_of_nil].
        - intros t' l' [= -> -> ->]. destruct (i_fut _ _ _ _ _ Hi a nonce t' (Hl nonce t' ltac:(by left))) as (h & _ & Hn' & _). done. }
    apply NoDup_cons in Hnd as [Hkl Hnd].
    destruct (move_one B K F S q a k t Hi (Hl k t ltac:(by left)) HS HS32) as (q1 & Hrun & Hi1 & HS1 & Hfr & Hkn & Hfu & Hslot).
    destruct (IH B K (erase2 a [(k, t)] F) (S - 1) q1 a (wrap 256 (nonce + 1)) Hi1 Hnd) as (moved & q2 & E & Hm & Hi2 & HS2 & Hfr2 & Hkn2 & Hfu2 & Hfo2 & Hslot2 & _); try done; try lia.
    { intros k' t' Hk'. rewrite lookup2_erase2, decide_False; [apply Hl; by right|]. intros [_ ->%list_elem_of_singleton].
      apply Hkl. apply list_elem_of_fmap. by exists (k, t'). }
    exists ((k, t) :: moved), q2. split; [rewrite (Hrun l nonce Hn); unfold mbind; rewrite E; reflexivity|].
    split; [intros k' t' [->|Hk']%elem_of_cons; [by left|right; by apply Hm]|].
    rewrite erase2_cons in Hi2 by apply Hi. cbn [List.length]. replace (S - Z.of_nat (Datatypes.S (List.length moved))) with (S - 1 - zlen moved) by lia.
    split; [done|]. split; [done|]. split; [by eapply frame_trans|]. split; [congruence|]. split; [|split; [|split; [|intros ? ? [= -> _ _]; by left]]].
    + intros b n Hne. rewrite Hfu2; [rewrite Hfu, lookup2_insert|].
      * destruct (decide (a = b)) as [<-|]; [|done]. rewrite lookup_insert_ne; [by rewrite lookup_sub|]. intros ->. apply Hne. split; [done|by left].
      * intros [-> Hk']. apply Hne. split; [done|by right].
    + intros b Hb. rewrite Hfo2 by done. rewrite Hfu. by rewrite lookup_insert_ne.
    + intros b n. rewrite Hslot2, Hslot. destruct (decide (b = a /\ n ∈ moved.*1)) as [[-> Hm']|Hm'].
      * rewrite decide_True by (split; [done|by right]). rewrite lookup2_erase2, decide_False; [done|].
        intros [_ ->%list_elem_of_singleton]. apply Hkl. apply list_elem_of_fmap in Hm' as ([k' t'] & -> & Hm').
        apply list_elem_of_fmap. exists (k', t'). split; [done|]. by apply Hm.
      * destruct (decide (b = a /\ n = k)) as [[-> ->]|Hne].
        { rewrite decide_True by (split; [done|by left]). symmetry. apply Hl. by left. }
        rewrite decide_False; [done|]. intros [-> [->|Hk']%elem_of_cons]; [by apply Hne|by apply Hm'].
Qed.

(** The invariant with the members for the future transactions. *)
Abbreviation inv B K q := (tq_inv B K (m_future q) (m_futureSize q) q).

Lemma slot_ext q q' : m_nodes q' = m_nodes q -> m_currentByAddressAndNonce q' = m_currentByAddressAndNonce q ->
  forall b k, slot q' b k = slot q b k.
Proof. intros E1 E2 b k. unfold slot. by rewrite E1, E2. Qed.

(** What the end of [makeCurrent] does to the future. *)
Record limits q q' : Prop := {
  l_frame : frame q q';
  l_known : m_known q' = m_known q;
  l_slot b k : slot q' b k = slot q b k;
  l_less b k u : lookup2 (m_future q') b k = Some u -> lookup2 (m_future q) b k = Some u;
  l_size : m_futureSize q' <= m_futureLimit q;
  l_same : m_futureSize q <= m_futureLimit q -> m_future q' = m_future q;
  l_current : m_current q' = m_current q
}.

Lemma limit_future_runs (n : nat) : forall B K q,
  inv B K q -> m_futureSize q < 2 ^ 32 -> 0 <= m_futureLimit q -> m_futureSize q - m_futureLimit q <= Z.of_nat n ->
  runs (limit_future n) q (fun _ q' => inv B K q' /\ limits q q').
Proof.
  induction n as [|n IH]; intros B K q Hi H32 HL Hn; cbn [limit_future]; apply runs_get; apply runs_get.
  - apply runs_ret. split; [done|]. split; try done. lia.
  - destruct (Z.ltb_spec (m_futureLimit q) (m_futureSize q)) as [Hlt|Hle]; [|apply runs_ret; split; [done|]; split; done].
    apply runs_put. apply runs_choice. apply runs_get. cbn [m_future m_futureSize set_futureSize set_choices].
    set (l := map_to_list (m_future q)).
    assert (l <> []) as Hl.
    { intros El. apply map_to_list_empty_iff in El. pose proof (i_size _ _ _ _ _ Hi) as HS. rewrite El, total_empty in HS. lia. }
    set (i := (_ mod _)%nat). assert (i < List.length l)%nat as Hil by (apply Nat.mod_upper_bound; by destruct l).
    destruct (lookup_lt_is_Some_2 l i Hil) as [[a m] Ha]. rewrite Ha.
    assert (m_future q !! a = Some m) as Hm by (apply elem_of_map_to_list; by eapply list_elem_of_lookup_2).
    destruct (rbegin_Some m) as (k & t & -> & Hk); [intros ->; by apply (i_fne _ _ _ _ _ Hi a)|]. apply runs_put.
    assert (lookup2 (m_future q) a k = Some t) as Hat by (unfold lookup2; by rewrite Hm).
    set (q1 := set_future _ _).
    assert (m_future q1 = erase2 a [(k, t)] (m_future q)) as Ef by (unfold erase2, erase_range, sub; cbn; by rewrite Hm).
    assert (m_futureSize q1 = m_futureSize q - 1) as Es by (cbn; apply wrap_small; unfold uint_ok; lia).
    destruct (IH B K q1) as ([] & q2 & E & Hi2 & [L1 L2 L3 L4 L5 L6 L7]).
    + rewrite Ef, Es. apply (inv_weaken (B - 1)); [|lia]. eapply inv_fields; [by apply inv_future_less| | | | |]; done.
    + lia.
    + done.
    + change (m_futureLimit q1) with (m_futureLimit q). lia.
    + exists tt, q2. split; [exact E|]. split; [done|]. split; [by destruct L1; split|done|done| |done|lia|done].
      intros b n' u Hu%L4. rewrite Ef, lookup2_erase2 in Hu. by destruct (decide _).
Qed.

(** What [makeCurrent] does. *)
Record promotes t q q' : Prop := {
  p_frame : frame q q';
  p_known : m_known q' = m_known q;
  p_slot b k u : slot q b k = Some u -> slot q' b k = Some u;
  p_less b k u : all q' b k = Some u -> all q b k = Some u;
  p_size : m_futureSize q' <= m_futureLimit q;
  p_same : m_futureSize q <= m_futureLimit q -> forall b k, all q' b k = all q b k;
  p_next : lookup2 (m_future q') (from t) (wrap 256 (m_nonce t + 1)) = None
}.

Lemma future_slot B K F S q a k u : tq_inv B K F S q -> lookup2 F a k = Some u -> slot q a k = None.
Proof. intros Hi Hu. destruct (i_fut _ _ _ _ _ Hi a k u Hu) as (h & _ & _ & Hs & _). unfold slot. by rewrite Hs. Qed.

Lemma limits_promotes t q q1 q' :
  frame q q1 -> m_known q1 = m_known q -> (forall b k u, slot q b k = Some u -> slot q1 b k = Some u) -> (forall b k, all q1 b k = all q b k) ->
  m_futureSize q1 <= m_futureSize q -> lookup2 (m_future q1) (from t) (wrap 256 (m_nonce t + 1)) = None -> limits q1 q' -> promotes t q q'.
Proof.
  intros Hf Hk Hs Ha Hsz Hnx [L1 L2 L3 L4 L5 L6 L7]. pose proof (f_futureLimit _ _ Hf) as Hfl. split.
  - by eapply frame_trans.
  - congruence.
  - intros b k u Hu. rewrite L3. by apply Hs.
  - intros b k u. rewrite <- Ha. unfold all. rewrite L3. destruct (slot q1 b k); [done|]. apply L4.
  - lia.
  - intros Hle b k. rewrite <- Ha. unfold all. rewrite L3, L6 by lia. done.
  - destruct (lookup2 (m_future q') _ _) eqn:E; [|done]. apply L4 in E. congruence.
Qed.

Lemma makeCurrent_runs B K q t :
  inv B K q -> m_futureSize q < 2 ^ 32 -> 0 <= m_futureLimit q ->
  runs (makeCurrent_WITH_LOCK t) q (fun _ q' => inv B K q' /\ promotes t q q').
Proof.
  intros Hi H32 HL. unfold makeCurrent_WITH_LOCK. apply runs_get. set (a := from t). set (nonce := wrap 256 (m_nonce t + 1)).
  assert (runs (match m_future q !! a with
     | Some m =>
         match m !! nonce with
         | Some _ =>
             do! moved := move_loop a (lower_bound nonce m) nonce in
             exec! mput (fun q => set_future (trim a (<[a := erase_range moved (sub (m_future q) a)]> (m_future q))) q) in
             mret moved
         | None => mret []
         end
     | None => mret []
     end) q (fun _ q1 => inv B K q1 /\ frame q q1 /\ m_known q1 = m_known q /\ (forall b k u, slot q b k = Some u -> slot q1 b k = Some u) /\
       (forall b k, all q1 b k = all q b k) /\ m_futureSize q1 <= m_futureSize q /\ lookup2 (m_future q1) a nonce = None)) as Hmove.
  { assert (lookup2 (m_future q) a nonce = None -> inv B K q /\ frame q q /\ m_known q = m_known q /\
      (forall b k u, slot q b k = Some u -> slot q b k = Some u) /\ (forall b k, all q b k = all q b k) /\
      m_futureSize q <= m_futureSize q /\ lookup2 (m_future q) a nonce = None) as Hnone by done.
    unfold lookup2 in Hnone at 1. destruct (m_future q !! a) as [m|] eqn:Em; [|apply runs_ret; by apply Hnone]. cbn in Hnone.
    destruct (m !! nonce) as [t0|] eqn:Et0; [clear Hnone|apply runs_ret; by apply Hnone].
    assert (forall k u, m !! k = Some u -> lookup2 (m_future q) a k = Some u) as Hmq by (intros; unfold lookup2; by rewrite Em).
    eapply runs_bind; [apply (move_loop_runs (lower_bound nonce m) B K (m_future q) (m_futureSize q) q a nonce); try done|].
    - apply lower_bound_keys.
    - intros k u [Hk _]%elem_of_lower_bound. by apply Hmq.
    - intros moved q1 (Hm & Hi1 & HS1 & Hfr & Hkn & Hfu & Hfo & Hslot & Hhd). apply runs_put. apply runs_ret.
      set (q2 := set_future _ q1).
      assert (m_future q2 = erase2 a moved (m_future q)) as Ef.
      { cbn. fold (erase2 a moved (m_future q1)). apply ext2; [|by apply erase2_ne, Hi|].
        - apply trim_ne. intros b Hb. rewrite lookup_insert_ne, Hfo by done. apply Hi.
        - intros b k. rewrite !lookup2_erase2. destruct (decide _) as [|Hne]; [done|]. by apply Hfu. }
      split; [|split; [|split; [|split; [|split; [|split]]]]].
      + change (m_futureSize q2) with (m_futureSize q1). rewrite Ef, HS1. by eapply inv_fields.
      + destruct Hfr. by split.
      + done.
      + intros b k u Hu. change (slot q2 b k) with (slot q1 b k). rewrite Hslot. destruct (decide _) as [[-> Hk]|]; [|done].
        apply list_elem_of_fmap in Hk as ([k' u'] & -> & Hk). apply Hm, elem_of_lower_bound in Hk as [Hk _].
        cbn in Hu. by rewrite (future_slot _ _ _ _ _ _ _ _ Hi (Hmq _ _ Hk)) in Hu.
      + intros b k. unfold all. change (slot q2 b k) with (slot q1 b k). rewrite Hslot, Ef, lookup2_erase2. destruct (decide _) as [[-> Hk]|]; [|done].
        apply list_elem_of_fmap in Hk as ([k' u'] & -> & Hk). apply Hm, elem_of_lower_bound in Hk as [Hk _]. cbn.
        rewrite (future_slot _ _ _ _ _ _ _ _ Hi (Hmq _ _ Hk)). by rewrite (Hmq _ _ Hk).
      + change (m_futureSize q2) with (m_futureSize q1). rewrite HS1. lia.
      + rewrite Ef, lookup2_erase2, decide_True; [done|]. split; [done|]. destruct (lower_bound_head m nonce t0 Et0) as [l' El]. by eapply Hhd. }
  eapply runs_bind; [exact Hmove|]. intros moved q1 (Hi1 & Hfr & Hkn & Hs & Ha & Hsz & Hnx). apply runs_get. apply runs_get.
  eapply runs_bind; [apply (limit_future_runs _ B K q1 Hi1); [lia|by rewrite (f_futureLimit _ _ Hfr)|lia]|].
  intros [] q2 [Hi2 Hl]. pose proof (limits_promotes t q q1 q2 Hfr Hkn Hs Ha Hsz Hnx Hl) as Hp.
  destruct moved; [by apply runs_ret|]. exists tt. eexists. split; [reflexivity|]. split; [by eapply inv_fields|].
  destruct Hp as [P1 P2 P3 P4 P5 P6 P7]. split; try done. destruct P1. by split.
Qed.

(** ** Importing *)

Lemma inv_known B K K' F S q : tq_inv B K F S q -> K ⊆ K' -> tq_inv B K' F S q.
Proof.
  intros [H1 H2 H3 H4 H5 H6 H7 H8 H9 H10 H11 H12 H13] HK. split; try done.
  - intros h id Hh. by eapply HK, H8.
  - intros a n t Ht. destruct (H9 a n t Ht) as (h & ? & ? & ? & ? & ?). exists h. split_and!; try done. by apply HK.
Qed.
Lemma slot_None B K F S q a n : tq_inv B K F S q -> slot q a n = None -> lookup2 (m_currentByAddressAndNonce q) a n = None.
Proof.
  intros Hi Hs. destruct (lookup2 (m_currentByAddressAndNonce q) a n) as [o|] eqn:E; [|done].
  destruct (i_addr _ _ _ _ _ Hi a n o E) as (id & t & h & -> & Ht & _). unfold slot in Hs. rewrite E in Hs. congruence.
Qed.
Lemma slot_Some B K F S q a n t : tq_inv B K F S q -> slot q a n = Some t -> exists id h,
  lookup2 (m_currentByAddressAndNonce q) a n = Some (Some id) /\ m_nodes q !! id = Some t /\ good t h a /\ m_nonce t = n /\
  m_currentByHash q !! h = Some id.
Proof.
  intros Hi Hs. unfold slot in Hs. destruct (lookup2 (m_currentByAddressAndNonce q) a n) as [[id|]|] eqn:E; [|done|done].
  destruct (i_addr _ _ _ _ _ Hi a n _ E) as (id' & t' & h & [= <-] & Ht & Hg & Hn). rewrite Hs in Ht. injection Ht as <-.
  exists id, h. destruct (node_slot _ _ _ _ _ _ _ _ _ Hi Hs Hg) as [Hh _]. done.
Qed.

(** What inserting a transaction does. *)
Record inserts t a q q' : Prop := {
  n_frame : frame q q';
  n_slot b k u : ~ (b = a /\ k = m_nonce t) -> slot q b k = Some u -> slot q' b k = Some u;
  n_self : slot q' a (m_nonce t) = Some t;
  n_less b k u : ~ (b = a /\ k = m_nonce t) -> all q' b k = Some u -> all q b k = Some u;
  n_same : m_futureSize q <= m_futureLimit q -> forall b k, ~ (b = a /\ k = m_nonce t) -> all q' b k = all q b k;
  n_size : m_futureSize q' <= m_futureLimit q;
  n_next : lookup2 (m_future q') a (wrap 256 (m_nonce t + 1)) = None
}.

Lemma insertCurrent_runs B q t h a :
  inv B (m_known q) q -> B < 2 ^ 32 -> 0 <= m_futureLimit q -> good t h a -> h ∉ m_known q ->
  slot q a (m_nonce t) = None -> lookup2 (m_future q) a (m_nonce t) = None ->
  runs (insertCurrent_WITH_LOCK h t) q (fun _ q' => inv (B + 1) (m_known q') q' /\ inserts t a q q').
Proof.
  intros Hi HB HL Hg Hh Hs Hf. unfold insertCurrent_WITH_LOCK. apply runs_get.
  destruct (m_currentByHash q !! h) as [id|] eqn:Eh; [by destruct Hh; eapply (i_known _ _ _ _ _ Hi)|].
  rewrite (good_from _ _ _ Hg). unfold reserve. apply runs_put. fold (reserved (m_currentByAddressAndNonce q) a (m_nonce t)).
  set (q1 := set_byAddress _ q). destruct (reserved_comparable B _ _ _ q q1 t h a Hi Hg eq_refl eq_refl eq_refl) as [Hc Hcs].
  eapply runs_bind; [by apply (emplace_runs t q1)|]. intros id q2 (-> & l' & c & Hl & ->). unfold set_handle. do 2 apply runs_put.
  set (id := m_next q1). set (q3 := set_byHash _ _). set (K := {[h]} ∪ m_known q).
  assert (inv B K q) as HiK by (eapply inv_known; [exact Hi|set_solver]).
  destruct (insert_inv B K (m_future q) (m_futureSize q) q q3 t h a HiK Hg) as [Hi3 Hslot]; try done.
  - set_solver.
  - by eapply slot_None.
  - intros b k u Hu Hhu. destruct (i_fut _ _ _ _ _ Hi b k u Hu) as (h' & [Hh' _] & _ & _ & _ & HK'). congruence.
  - assert (m_futureSize q3 < 2 ^ 32) as H32.
    { pose proof (i_bound _ _ _ _ _ Hi). cbn. lia. }
    eapply runs_bind; [by apply (makeCurrent_runs (B + 1) K q3 t)|]. intros [] q4 [Hi4 [P1 P2 P3 P4 P5 P6 P7]].
    exists tt. eexists. split; [reflexivity|]. cbn [m_known set_known]. rewrite P2. cbn [q3 m_known set_byHash set_byAddress set_choices set_next set_nodes set_current].
    split; [by eapply inv_fields|]. rewrite (good_from _ _ _ Hg) in P7.
    assert (forall b k, ~ (b = a /\ k = m_nonce t) -> all q3 b k = all q b k) as Hall.
    { intros b k Hne. unfold all. by rewrite Hslot, decide_False. }
    split; try done.
    + by destruct P1; split.
    + intros b k u Hne Hu. apply P3. by rewrite Hslot, decide_False.
    + apply P3. by rewrite Hslot, decide_True.
    + intros b k u Hne Hu. rewrite <- Hall by done. by apply P4.
    + intros Hle b k Hne. rewrite <- Hall by done. by apply P6.
Qed.

(** What dropping the last ones does. *)
Record shrinks q q' : Prop := {
  s_frame : frame q q';
  s_slot b k u : slot q' b k = Some u -> slot q b k = Some u;
  s_future : m_future q' = m_future q;
  s_size : m_futureSize q' = m_futureSize q;
  s_same : zlen (m_current q) <= m_limit q -> q' = q;
  s_limit : zlen (m_current q') <= m_limit q
}.

Lemma remove_current B K F S q q' h id : tq_inv B K F S q -> m_currentByHash q !! h = Some id ->
  remove_WITH_LOCK h q = (Ok true, q') -> (List.length (m_current q') < List.length (m_current q))%nat.
Proof.
  intros Hi Eh E. destruct (i_hash _ _ _ _ _ Hi h id Eh) as (t & a & Ht & Hg). unfold remove_WITH_LOCK in E.
  unfold mbind at 1, mget in E. rewrite Eh in E. cbn [deref] in E. unfold mbind at 1 2, mget in E. rewrite Ht in E. cbn [mret] in E.
  rewrite (good_from _ _ _ Hg) in E. unfold mbind at 1 in E. destruct (m_currentByAddressAndNonce q !! a) as [m|]; [|done].
  injection E as <-. cbn. assert (id ∈ m_current q) as Hc by (apply (i_dom _ _ _ _ _ Hi); eauto).
  induction (m_current q) as [|i l IH]; [by apply elem_of_nil in Hc|]. cbn. destruct (Nat.eqb_spec i id) as [->|Hne]; cbn.
  - assert (forall f (l : list nat), (List.length (List.filter f l) <= List.length l)%nat) as Hle.
    { intros f l'. induction l' as [|j l' IH']; cbn; [lia|]. destruct (f j); cbn; lia. }
    pose proof (Hle (fun i => negb (i =? id)%nat) l). lia.
  - apply elem_of_cons in Hc as [->|Hc]; [done|]. specialize (IH Hc). lia.
Qed.

Lemma limit_current_runs (n : nat) : forall B q,
  inv B (m_known q) q -> 0 <= m_limit q -> zlen (m_current q) - m_limit q <= Z.of_nat n ->
  runs (limit_current n) q (fun _ q' => inv B (m_known q') q' /\ shrinks q q').
Proof.
  induction n as [|n IH]; intros B q Hi HL Hn; cbn [limit_current]; apply runs_get; apply runs_get.
  - apply runs_ret. split; [done|]. split; try done. lia.
  - destruct (Z.ltb_spec (m_limit q) (zlen (m_current q))) as [Hlt|Hle]; [|apply runs_ret; split; [done|]; split; done].
    destruct (last (m_current q)) as [id|] eqn:El; [|apply last_None in El; rewrite El in Hlt; cbn in Hlt; lia].
    assert (id ∈ m_current q) as Hid by (apply last_Some in El as [l ->]; apply elem_of_app; right; by left).
    apply (i_dom _ _ _ _ _ Hi) in Hid as [t Ht]. destruct (i_node _ _ _ _ _ Hi id t Ht) as (h & a & Hg & Hh & _).
    eapply runs_deref; [exact Ht|]. eapply runs_tx; [apply Hg|].
    destruct (remove_runs _ _ _ _ q h Hi) as (r & q1 & E & Hr). rewrite Hh in Hr.
    destruct Hr as (-> & Hi1 & Hfr & Hkn & Hfu & Hfs & t' & a' & Ht' & Hg' & _ & Hslot). unfold runs. rewrite (mbind_Ok _ _ _ _ _ E).
    pose proof (remove_current _ _ _ _ _ _ _ _ Hi Hh E) as Hlen. destruct Hfr as [F1 F2 F3].
    destruct (IH B q1) as ([] & q2 & E2 & Hi2 & [S1 S2 S3 S4 S5 S6]).
    + rewrite Hkn, Hfu, Hfs. by apply (inv_weaken (B - 1)); [|lia].
    + lia.
    + lia.
    + exists tt, q2. split; [exact E2|]. split; [done|]. split; [| | | |lia|].
      * eapply frame_trans; [|exact S1]. by split.
      * intros b k u Hu%S2. rewrite Hslot in Hu. by destruct (decide _).
      * congruence.
      * congruence.
      * lia.
Qed.

(** A prior transaction in the slot gives way, or stays. *)
Record clears t a q q' : Prop := {
  c_frame : frame q q';
  c_slot b k : slot q' b k = if decide (b = a /\ k = m_nonce t) then None else slot q b k;
  c_known : m_known q' ⊆ m_known q;
  c_future b k : lookup2 (m_future q') b k = lookup2 (m_future q) b k \/ b = a /\ k = m_nonce t;
  c_size : m_futureSize q' <= m_futureSize q;
  c_current : (List.length (m_current q') <= List.length (m_current q))%nat;
  c_price u : all q a (m_nonce t) = Some u -> m_gasPrice u <= m_gasPrice t \/ all q' a (m_nonce t) = Some u
}.

Lemma replace_current_runs B q t h a :
  inv B (m_known q) q -> good t h a ->
  runs (replace_current t) q (fun (r : bool) q' => if r then q' = q /\ exists u, all q a (m_nonce t) = Some u /\ m_gasPrice t < m_gasPrice u
    else inv B (m_known q') q' /\ clears t a q q' /\ m_future q' = m_future q /\ (slot q a (m_nonce t) = None -> q' = q)).
Proof.
  intros Hi Hg. unfold replace_current. rewrite (good_from _ _ _ Hg). apply runs_get.
  destruct (slot q a (m_nonce t)) as [u|] eqn:Es.
  - destruct (slot_Some _ _ _ _ _ _ _ _ Hi Es) as (id & hu & -> & Hu & Hgu & Hnu & Hhu). eapply runs_deref; [exact Hu|].
    destruct (Z.ltb_spec (m_gasPrice t) (m_gasPrice u)) as [Hlt|Hle].
    { apply runs_ret. split; [done|]. exists u. unfold all. by rewrite Es. }
    eapply runs_tx; [apply Hgu|]. destruct (remove_runs _ _ _ _ q hu Hi) as (r & q1 & E & Hr). rewrite Hhu in Hr.
    destruct Hr as (-> & Hi1 & Hfr & Hkn & Hfu & Hfs & u' & a' & Hu' & Hg' & _ & Hslot). unfold runs. rewrite (mbind_Ok _ _ _ _ _ E).
    rewrite Hu in Hu'. injection Hu' as <-. destruct (good_fun _ _ _ _ _ Hgu Hg') as [_ <-]. rewrite Hnu in Hslot.
    pose proof (remove_current _ _ _ _ _ _ _ _ Hi Hhu E) as Hlen.
    exists false. eexists. split; [reflexivity|]. cbn [m_known m_future m_futureSize set_events]. split; [|split; [|split; [done|congruence]]].
    + rewrite Hkn, Hfu, Hfs. apply (inv_weaken (B - 1)); [|lia]. by eapply inv_fields.
    + destruct Hfr. split; cbn; try done; [rewrite Hkn; apply subseteq_difference_l; done|by left; rewrite Hfu|lia|lia|].
      intros v Hv. left. unfold all in Hv. rewrite Es in Hv. by injection Hv as <-.
  - rewrite (slot_None _ _ _ _ _ _ _ Hi Es). apply runs_ret. split; [done|]. split; [|done]. split; try done.
    + intros b k. destruct (decide _) as [[-> ->]|]; done.
    + by left.
    + by right.
Qed.

Lemma replace_future_runs B q t h a :
  inv B (m_known q) q -> good t h a -> B < 2 ^ 32 ->
  runs (replace_future t) q (fun (r : bool) q' => if r then q' = q /\ exists u, lookup2 (m_future q) a (m_nonce t) = Some u /\ m_gasPrice t < m_gasPrice u
    else inv B (m_known q') q' /\ lookup2 (m_future q') a (m_nonce t) = None /\ (forall b k, slot q' b k = slot q b k) /\ m_known q' = m_known q /\
      m_current q' = m_current q /\ frame q q' /\ m_futureSize q' <= m_futureSize q /\
      (forall b k, lookup2 (m_future q') b k = lookup2 (m_future q) b k \/ b = a /\ k = m_nonce t) /\
      (forall u, lookup2 (m_future q) a (m_nonce t) = Some u -> m_gasPrice u <= m_gasPrice t)).
Proof.
  intros Hi Hg HB. unfold replace_future. rewrite (good_from _ _ _ Hg). apply runs_get.
  destruct (lookup2 (m_future q) a (m_nonce t)) as [u|] eqn:Eu.
  - destruct (Z.ltb_spec (m_gasPrice t) (m_gasPrice u)) as [Hlt|Hle]; [apply runs_ret; eauto|].
    do 3 apply runs_put. apply runs_ret.
    pose proof (inv_future_less _ _ _ _ _ _ _ _ Hi Eu) as Hi1.
    match goal with |- tq_inv _ _ _ _ ?x /\ _ => set (q' := x) end.
    assert (m_future q' = erase2 a [(m_nonce t, u)] (m_future q)) as Ef.
    { cbn. unfold erase2, erase_range. cbn. done. }
    assert (m_futureSize q' = m_futureSize q - 1) as Es.
    { cbn. apply wrap_small. pose proof (i_size _ _ _ _ _ Hi1). pose proof (total_nonneg (erase2 a [(m_nonce t, u)] (m_future q))).
      pose proof (i_bound _ _ _ _ _ Hi). unfold uint_ok. lia. }
    split; [|split; [|split; [|split; [|split; [|split; [|split; [|split]]]]]]]; try done.
    + change (m_known q') with (m_known q). rewrite Ef, Es. apply (inv_weaken (B - 1)); [|lia]. by eapply inv_fields.
    + change (lookup2 (m_future q') a (m_nonce t) = None). rewrite Ef, lookup2_erase2, decide_True; [done|]. split; [done|by left].
    + change (m_futureSize q' <= m_futureSize q). lia.
    + intros b k. change (lookup2 (m_future q') b k = lookup2 (m_future q) b k \/ b = a /\ k = m_nonce t). rewrite Ef, lookup2_erase2.
      destruct (decide _) as [[-> ->%list_elem_of_singleton]|]; [by right|by left].
    + by intros ? [= <-].
  - apply runs_ret. split_and!; try done. by left.
Qed.

(** What [manageImport] promises. *)
Definition roomy q : Prop := m_futureSize q + zlen (m_current q) < m_limit q /\ m_futureSize q <= m_futureLimit q.
Record imported t a q q' : Prop := {
  m_frame : frame q q';
  m_slot b k u : slot q' b k = Some u -> b = a /\ k = m_nonce t /\ u = t \/ all q b k = Some u;
  m_less b k u : all q' b k = Some u -> b = a /\ k = m_nonce t /\ u = t \/ all q b k = Some u;
  m_room : roomy q -> forall b k, all q' b k = if decide (b = a /\ k = m_nonce t) then Some t else all q b k;
  m_top : roomy q -> slot q' a (m_nonce t) = Some t;
  m_nextup : lookup2 (m_future q') a (wrap 256 (m_nonce t + 1)) = None;
  m_replaced u : all q a (m_nonce t) = Some u -> m_gasPrice u <= m_gasPrice t
}.

Lemma inv_rebound B B' K F S q : tq_inv B K F S q -> S + zlen (m_current q) <= B' -> tq_inv B' K F S q.
Proof. intros [] Hb. split; done. Qed.

Lemma manage_runs B q t h a :
  inv B (m_known q) q -> B = m_limit q + m_futureLimit q -> B + 1 < 2 ^ 32 -> 0 <= m_limit q -> 0 <= m_futureLimit q ->
  good t h a -> h ∉ m_known q ->
  runs (manage_try h t) q (fun ir q' =>
    ir = OverbidGasPrice /\ q' = q /\ (exists u, all q a (m_nonce t) = Some u /\ m_gasPrice t < m_gasPrice u) \/
    ir = Success /\ inv B (m_known q') q' /\ imported t a q q').
Proof.
  intros Hi HB HB32 HL HFL Hg Hh. unfold manage_try. eapply runs_bind; [by apply (replace_current_runs B q t h a)|].
  intros [|] q1 H1; [apply runs_ret; left; by destruct H1|]. destruct H1 as (Hi1 & [C1 C2 C3 C4 C5 C6 C7] & Ef1 & Hnone).
  eapply runs_bind; [apply (replace_future_runs B q1 t h a Hi1 Hg); lia|]. intros [|] q2 H2.
  { destruct H2 as (-> & u & Hu & Hlt). apply runs_ret. left. split; [done|]. rewrite Ef1 in Hu.
    pose proof (future_slot _ _ _ _ _ _ _ _ Hi Hu) as Hs. split; [by apply Hnone|]. exists u. unfold all. by rewrite Hs. }
  destruct H2 as (Hi2 & Hn2 & Hs2 & Hk2 & Hc2 & Hf2 & Hz2 & Hl2 & Hp2). destruct C1 as [E1 E2 E3], Hf2 as [E4 E5 E6].
  assert (slot q2 a (m_nonce t) = None) as Hslot2 by (rewrite Hs2, C2, decide_True by done; done).
  set (B2 := m_futureSize q2 + zlen (m_current q2)).
  assert (B2 <= B) as HB2 by (pose proof (i_bound _ _ _ _ _ Hi2); unfold B2; lia).
  eapply runs_bind; [apply (insertCurrent_runs B2 q2 t h a); try done; [by eapply inv_rebound|lia|lia|rewrite Hk2; apply not_elem_of_weaken with (m_known q); [exact Hh|exact C3]]|].
  intros [] q3 [Hi3' [[E7 E8 E9] N1 N2 N3 N4 N5 N6]]. apply runs_get. assert (inv (B + 1) (m_known q3) q3) as Hi3 by (eapply inv_weaken; [exact Hi3'|lia]).
  eapply runs_bind; [apply (limit_current_runs _ (B + 1) q3 Hi3); lia|]. intros [] q4 [Hi4 [S1 S2 S3 S4 S5 S6]].
  exists Success. eexists. split; [reflexivity|]. right. split; [done|]. cbn [m_known m_future m_futureSize set_events].
  split; [apply (inv_rebound (B + 1)); [by eapply inv_fields|cbn; lia]|].
  set (q5 := set_events _ q4). assert (forall b k, slot q5 b k = slot q4 b k) as Hs5 by done.
  assert (forall b k, all q5 b k = all q4 b k) as Ha5 by done.
  assert (forall b k, ~ (b = a /\ k = m_nonce t) -> all q2 b k = all q b k) as Ha2.
  { intros b k Hne. unfold all. rewrite Hs2, C2, decide_False by done. destruct (Hl2 b k) as [->|]; [by rewrite Ef1|done]. }
  assert (all q2 a (m_nonce t) = None) as Hself2 by (unfold all; by rewrite Hslot2, Hn2).
  assert (forall b k u, all q4 b k = Some u -> all q3 b k = Some u) as Ha4.
  { intros b k u. unfold all. rewrite S3. destruct (slot q4 b k) eqn:E; [intros [= <-]; by rewrite (S2 _ _ _ E)|].
    intros Hu. by rewrite (future_slot _ _ _ _ _ _ _ _ Hi3 Hu). }
  assert (forall b k u, all q3 b k = Some u -> b = a /\ k = m_nonce t /\ u = t \/ all q b k = Some u) as Ha3.
  { intros b k u Hu. destruct (decide (b = a /\ k = m_nonce t)) as [[-> ->]|Hne].
    - left. unfold all in Hu. rewrite N2 in Hu. by injection Hu as <-.
    - right. rewrite <- Ha2 by done. by apply N3. }
  assert (roomy q -> q4 = q3 /\ forall b k, all q3 b k = if decide (b = a /\ k = m_nonce t) then Some t else all q b k) as Hroom.
  { intros [R1 R2]. assert (zlen (m_current q3) <= m_limit q3) as Hsz.
    { pose proof (i_bound _ _ _ _ _ Hi3'). pose proof (i_size _ _ _ _ _ Hi3'). pose proof (total_nonneg (m_future q3)).
      unfold B2 in *. rewrite Hc2 in *. lia. }
    split; [by apply S5|]. intros b k. destruct (decide _) as [[-> ->]|Hne]; [unfold all; by rewrite N2|]. rewrite N4, Ha2 by (done || lia). done. }
  split.
  - destruct S1. split; cbn; congruence.
  - intros b k u Hu. rewrite Hs5 in Hu. apply Ha3. unfold all. by rewrite (S2 _ _ _ Hu).
  - intros b k u Hu. rewrite Ha5 in Hu. by apply Ha3, Ha4.
  - intros Hr. destruct (Hroom Hr) as [-> Hr']. exact Hr'.
  - intros Hr. destruct (Hroom Hr) as [-> _]. exact N2.
  - cbn. by rewrite S3.
  - intros u Hu. destruct (C7 u Hu) as [|Hu']; [done|]. unfold all in Hu'. rewrite C2, decide_True in Hu' by done. by apply Hp2.
Qed.

(** The invariant between operations. *)
Record queue_ok q : Prop := {
  q_limit : 0 <= m_limit q;
  q_futureLimit : 0 <= m_futureLimit q;
  q_sum : m_limit q + m_futureLimit q + 1 < 2 ^ 32;
  q_inv : inv (m_limit q + m_futureLimit q) (m_known q) q
}.
Lemma queue_ok_intro q q' : queue_ok q -> frame q q' -> inv (m_limit q + m_futureLimit q) (m_known q') q' -> queue_ok q'.
Proof. intros [] [F1 F2 _] Hi. split; rewrite ?F1, ?F2; done. Qed.

Lemma import_runs q t h a ik :
  queue_ok q -> hasZeroSignature t = false -> good t h a ->
  runs (import t ik) q (fun ir q' => queue_ok q' /\
    match ir with
    | Success => (h ∉ m_known q) /\ imported t a q q'
    | OverbidGasPrice => q' = q /\ exists u, all q a (m_nonce t) = Some u /\ m_gasPrice t < m_gasPrice u
    | AlreadyKnown => q' = q /\ h ∈ m_known q
    | AlreadyInChain => q' = q /\ h ∈ m_dropped q /\ ik = Ignore
    | _ => False
    end).
Proof.
  intros Hq Hz Hg. unfold import. rewrite Hz. eapply runs_tx; [apply Hg|]. apply runs_get. unfold check_WITH_LOCK.
  destruct (decide (h ∈ m_known q)) as [Hk|Hk].
  { rewrite (bool_decide_true (h ∈ m_known q)) by done. rewrite bool_decide_false by done. by apply runs_ret. }
  rewrite (bool_decide_false (h ∈ m_known q)) by done.
  destruct (bool_decide (h ∈ m_dropped q) && _) eqn:Ed.
  { rewrite bool_decide_false by done. apply andb_prop in Ed as [Ed1 Ed2]. apply bool_decide_eq_true in Ed1. apply runs_ret.
    split; [done|]. split; [done|]. by destruct ik. }
  rewrite bool_decide_true by done. unfold manageImport_WITH_LOCK.
  destruct (manage_runs (m_limit q + m_futureLimit q) q t h a) as (ir & q' & E & H); [apply Hq|done|apply Hq|apply Hq|apply Hq|done|done|].
  exists ir, q'. rewrite E. split; [done|]. destruct H as [(-> & -> & Hu)|(-> & Hi & Him)]; [done|].
  split; [|done]. eapply queue_ok_intro; [done|apply Him|done].
Qed.

(** ** To the future *)

Lemma inv_future_more B K F S q t h a :
  tq_inv B K F S q -> good t h a -> h ∈ K -> lookup2 (m_currentByAddressAndNonce q) a (m_nonce t) = None ->
  m_currentByHash q !! h = None -> lookup2 F a (m_nonce t) = None -> (forall b k u, lookup2 F b k = Some u -> hash_of u <> Ok h) ->
  tq_inv (B + 1) K (<[a := <[m_nonce t := t]> (sub F a)]> F) (S + 1) q.
Proof.
  intros Hi Hg HK Hs Hh Hf Hfh.
  assert (forall b k u, lookup2 (<[a := <[m_nonce t := t]> (sub F a)]> F) b k = Some u ->
    b = a /\ k = m_nonce t /\ u = t \/ ~ (b = a /\ k = m_nonce t) /\ lookup2 F b k = Some u) as Hl.
  { intros b k u. rewrite lookup2_insert. destruct (decide (a = b)) as [<-|Hab].
    - destruct (decide (k = m_nonce t)) as [->|Hk]; [rewrite lookup_insert_eq; intros [= <-]; by left|].
      rewrite lookup_insert_ne by done. rewrite lookup_sub. right. split; [tauto|done].
    - intros Hu. right. split; [by intros [-> _]|done]. }
  destruct Hi as [H1 H2 H3 H4 H5 H6 H7 H8 H9 H10 H11 H12 H13]. split; try done.
  - intros b k u [(-> & -> & ->)|[_ Hu]]%Hl; [by exists h|by apply H9].
  - intros b k u b' k' u' h' Hu Hu' E1 E2. apply Hl in Hu as [(-> & -> & ->)|[_ Hu]]; apply Hl in Hu' as [(-> & -> & ->)|[_ Hu']].
    + done.
    + destruct (Hfh b' k' u' Hu'). rewrite (good_hash _ _ _ Hg) in E1. congruence.
    + destruct (Hfh b k u Hu). rewrite (good_hash _ _ _ Hg) in E2. congruence.
    + by eapply H10.
  - intros b. destruct (decide (a = b)) as [<-|Hab]; [rewrite lookup_insert_eq; intros [= E]; by apply insert_non_empty in E|].
    by rewrite lookup_insert_ne.
  - rewrite total_insert, map_size_insert, lookup_sub, Hf. rewrite H12. lia.
  - lia.
Qed.

Lemma slot_with A q b k : slot (set_byAddress A q) b k = match lookup2 A b k with Some (Some id) => m_nodes q !! id | _ => None end.
Proof. done. Qed.

(** One turn of the loop of [setFuture]. [A] is the index without the entries done. *)
Lemma future_one B K F S q A a k id t :
  tq_inv B K F S (set_byAddress A q) -> lookup2 A a k = Some (Some id) -> m_nodes q !! id = Some t ->
  m_futureSize q = S -> B < 2 ^ 32 -> sub (m_future q) a = sub F a -> (forall x, <[a := x]> (m_future q) = <[a := x]> F) -> exists q',
  (forall l, future_loop a ((k, Some id) :: l) q = future_loop a l q') /\ m_nonce t = k /\
  m_future q' = <[a := <[k := t]> (sub F a)]> F /\ m_futureSize q' = S + 1 /\ frame q q' /\ m_known q' = m_known q /\
  m_currentByAddressAndNonce q' = m_currentByAddressAndNonce q /\ lookup2 F a k = None /\
  (forall i, i <> id -> m_nodes q' !! i = m_nodes q !! i) /\ tq_inv B K (m_future q') (S + 1) (set_byAddress (erase2 a [(k, Some id)] A) q').
Proof.
  intros Hi Hk Ht HS HB Hsub Hins. destruct (i_addr _ _ _ _ _ Hi a k _ Hk) as (id' & t' & h & [= <-] & Ht' & Hg & Hn).
  cbn in Ht'. rewrite Ht in Ht'. injection Ht' as <-. destruct (node_slot _ _ _ _ _ _ _ _ _ Hi Ht Hg) as [Hh _]. cbn in Hh.
  assert (lookup2 F a k = None) as HF.
  { destruct (lookup2 F a k) eqn:E; [|done]. destruct (i_fut _ _ _ _ _ Hi _ _ _ E) as (h' & _ & _ & Hs & _). cbn in Hs. congruence. }
  assert (sub (m_future q) a !! m_nonce t = None) as HF' by (by rewrite Hn, Hsub, lookup_sub).
  assert (id ∈ m_current q) as Hid by (apply (i_dom _ _ _ _ _ Hi); cbn; eauto).
  assert (S + 1 <= B) as HSB.
  { pose proof (i_bound _ _ _ _ _ Hi) as Hb. cbn in Hb.
    destruct (m_current q); [by apply elem_of_nil in Hid|cbn in Hb; lia]. }
  pose proof (i_size _ _ _ _ _ Hi) as HSF. pose proof (total_nonneg F) as HFn.
  set (q1 := set_byHash (delete h (m_currentByHash q)) q). set (q2 := set_future (<[a := <[k := t]> (sub F a)]> F) q1).
  set (q3 := set_nodes (delete id (m_nodes q)) (set_current (List.filter (fun i => negb (i =? id)%nat) (m_current q)) q2)).
  set (q4 := set_futureSize (S + 1) q3). exists q4. split; [|split_and!; try done].
  - intros l. cbn [future_loop]. unfold mbind at 1. cbn [deref]. unfold mbind at 1, mget. rewrite Ht. cbn [mret].
    unfold mbind at 1, tx. rewrite (good_hash _ _ _ Hg). cbn [mlift]. unfold mbind at 1. cbn [mput]. unfold mbind at 1. cbn [mput m_future set_byHash].
    rewrite HF', Hins, Hn, Hsub. unfold mbind at 1, erase. cbn [mput]. unfold mbind at 1. cbn [mput m_futureSize set_nodes set_current set_future set_byHash].
    rewrite HS, wrap_small by (unfold uint_ok; lia). reflexivity.
  - intros i Hne. cbn. by rewrite lookup_delete_ne.
  - set (A' := erase2 a [(k, Some id)] A).
    assert (tq_inv (B - 1) (K ∖ {[h]}) F S (set_byAddress A' q4)) as Hi1.
    { apply (inv_remove B K F S (set_byAddress A q) _ id t h a); try done.
      - intros b n. cbn. unfold A'. rewrite lookup2_erase2, Hn. cbn. destruct (decide (b = a /\ n ∈ [k])) as [[-> ->%list_elem_of_singleton]|Hne].
        + by rewrite decide_True.
        + rewrite decide_False; [done|]. intros [-> ->]. apply Hne. split; [done|by left].
      - apply erase2_ne. apply Hi. }
    assert (h ∈ K) as HK by (by eapply (i_known _ _ _ _ _ Hi)).
    apply (inv_known _ _ K) in Hi1; [|by apply subseteq_difference_l]. cbn [m_future q4 q3 q2 set_futureSize set_nodes set_current set_future].
    rewrite <- Hn. replace B with (B - 1 + 1) by lia. apply (inv_future_more _ _ _ _ _ t h a); try done; try (by rewrite ?Hn).
    + cbn. unfold A'. rewrite lookup2_erase2, decide_True; [done|]. split; [done|]. rewrite Hn. by left.
    + cbn. apply lookup_delete_eq.
    + intros b n u Hu Hhu. destruct (i_fut _ _ _ _ _ Hi b n u Hu) as (h' & Hgu & _ & _ & Hhn & _). cbn in Hhn.
      rewrite (good_hash _ _ _ Hgu) in Hhu. injection Hhu as ->. congruence.
Qed.

Lemma future_loop_runs l : forall B K F S q A a,
  tq_inv B K F S (set_byAddress A q) -> m_futureSize q = S -> B < 2 ^ 32 ->
  sub (m_future q) a = sub F a -> (forall x, <[a := x]> (m_future q) = <[a := x]> F) ->
  NoDup l.*1 -> (forall k o, (k, o) ∈ l -> lookup2 A a k = Some o) ->
  runs (future_loop a l) q (fun _ q' => frame q q' /\ m_known q' = m_known q /\
    m_currentByAddressAndNonce q' = m_currentByAddressAndNonce q /\ exists F',
    tq_inv B K F' (m_futureSize q') (set_byAddress (erase2 a l A) q') /\ (l <> [] \/ m_future q = F -> m_future q' = F') /\
    (forall b k, lookup2 F' b k = if decide (b = a /\ k ∈ l.*1) then slot (set_byAddress A q) b k else lookup2 F b k) /\
    (forall b k, slot (set_byAddress (erase2 a l A) q') b k = if decide (b = a /\ k ∈ l.*1) then None else slot (set_byAddress A q) b k)).
Proof.
  induction l as [|[k o] l IH]; intros B K F S q A a Hi HS HB Hsub Hins Hnd Hl.
  - apply runs_ret. split; [apply frame_refl|]. split; [done|]. split; [done|]. exists F.
    assert (erase2 a [] A = A) as ->.
    { apply ext2; [apply erase2_ne, Hi|apply Hi|]. intros b n. rewrite lookup2_erase2, decide_False; [done|]. by intros [_ ?%elem_of_nil]. }
    rewrite HS. split; [done|]. split; [by intros [|]|]. split; intros b n; rewrite decide_False; try done; by intros [_ ?%elem_of_nil].
  - apply NoDup_cons in Hnd as [Hkl Hnd]. assert (lookup2 A a k = Some o) as Hk by (apply Hl; by left).
    destruct (i_addr _ _ _ _ _ Hi a k o Hk) as (id & t & h & -> & Ht & Hg & Hn). cbn in Ht.
    destruct (future_one B K F S q A a k id t Hi Hk Ht HS HB Hsub Hins) as (q1 & Hrun & _ & Ef & Es & Hfr & Hkn & Hba & HFk & Hnd1 & Hi1).
    assert (forall b n, slot (set_byAddress (erase2 a [(k, Some id)] A) q1) b n = if decide (b = a /\ n = k) then None else slot (set_byAddress A q) b n) as Hs1.
    { intros b n. rewrite !slot_with, lookup2_erase2. cbn. destruct (decide (b = a /\ n ∈ [k])) as [[-> ->%list_elem_of_singleton]|Hne]; [by rewrite decide_True|].
      rewrite decide_False by (intros [-> ->]; apply Hne; split; [done|by left]).
      destruct (lookup2 A b n) as [[i|]|] eqn:Ei; [|done|done]. apply Hnd1. intros ->.
      destruct (i_addr _ _ _ _ _ Hi b n _ Ei) as (i' & t' & h' & [= <-] & Ht' & Hg' & Hn'). cbn in Ht'. rewrite Ht in Ht'. injection Ht' as <-.
      destruct (good_fun _ _ _ _ _ Hg Hg') as [_ <-]. apply Hne. split; [done|]. rewrite <- Hn, Hn'. by left. }
    destruct (IH B K (m_future q1) (S + 1) q1 (erase2 a [(k, Some id)] A) a Hi1 Es HB eq_refl ltac:(done) Hnd) as ([] & q2 & E & Hfr2 & Hkn2 & Hba2 & F' & Hi2 & Hf2 & Hl2 & Hs2).
    { intros k' o' Hk'. rewrite lookup2_erase2, decide_False; [apply Hl; by right|]. intros [_ ->%list_elem_of_singleton].
      apply Hkl. apply list_elem_of_fmap. by exists (k, o'). }
    exists tt, q2. split; [by rewrite Hrun|]. split; [by eapply frame_trans|]. split; [congruence|]. split; [congruence|]. exists F'.
    rewrite erase2_cons in Hi2, Hs2 by apply Hi. split; [done|]. split; [intros _; apply Hf2; by right|]. split.
    + intros b n. rewrite Hl2, Hs1, Ef, lookup2_insert. cbn [fmap list_fmap fst].
      destruct (decide (b = a /\ n ∈ l.*1)) as [[-> Hn']|Hne].
      * rewrite (decide_True (P := a = a /\ n ∈ k :: l.*1)) by (split; [done|by right]). rewrite decide_False; [done|]. intros [_ ->]. by apply Hkl.
      * destruct (decide (a = b)) as [<-|Hab].
        -- destruct (decide (n = k)) as [->|Hnk].
           ++ rewrite lookup_insert_eq, decide_True by (split; [done|by left]). rewrite slot_with, Hk. by rewrite Ht.
           ++ rewrite lookup_insert_ne by done. rewrite lookup_sub, decide_False; [done|]. intros [_ [->|]%elem_of_cons]; tauto.
        -- rewrite decide_False; [done|]. intros [-> _]. done.
    + intros b n. rewrite Hs2, Hs1. cbn [fmap list_fmap fst]. destruct (decide (b = a /\ n ∈ l.*1)) as [[-> Hn']|Hne].
      * by rewrite decide_True by (split; [done|by right]).
      * destruct (decide (b = a /\ n = k)) as [[-> ->]|Hne']; [by rewrite decide_True by (split; [done|by left])|].
        rewrite decide_False; [done|]. intros [-> [->|]%elem_of_cons]; tauto.
Qed.

Lemma setFuture_runs q h :
  queue_ok q -> runs (setFuture h) q (fun _ q' => queue_ok q' /\ frame q q' /\ (forall b k, all q' b k = all q b k) /\
    forall id t a, m_currentByHash q !! h = Some id -> m_nodes q !! id = Some t -> from t = a ->
      forall b k, slot q' b k = if decide (b = a /\ m_nonce t <= k) then None else slot q b k).
Proof.
  intros Hq. pose proof (q_inv _ Hq) as Hi. unfold setFuture. apply runs_get.
  destruct (m_currentByHash q !! h) as [id|] eqn:Eh; [|by apply runs_ret].
  destruct (i_hash _ _ _ _ _ Hi h id Eh) as (t & a & Ht & Hg). destruct (node_slot _ _ _ _ _ _ _ _ _ Hi Ht Hg) as [_ Hs].
  eapply runs_deref; [exact Ht|]. rewrite (good_from _ _ _ Hg). apply runs_get. apply runs_put.
  set (queue := sub (m_currentByAddressAndNonce q) a). set (l := lower_bound (m_nonce t) queue). set (A := m_currentByAddressAndNonce q).
  assert (forall k o, (k, o) ∈ l <-> lookup2 A a k = Some o /\ m_nonce t <= k) as Hl.
  { intros k o. unfold l. rewrite elem_of_lower_bound. unfold queue. by rewrite lookup_sub. }
  assert (forall k, k ∈ l.*1 <-> is_Some (lookup2 A a k) /\ m_nonce t <= k) as Hlk.
  { intros k. rewrite list_elem_of_fmap. split.
    - intros ([k' o] & -> & [Ho Hle]%Hl). cbn. split; [by rewrite Ho|done].
    - intros [[o Ho] Hle]. exists (k, o). split; [done|]. by apply Hl. }
  assert (l <> []) as Hne by (intros El; assert ((m_nonce t, Some id) ∈ l) as HH by (apply Hl; done); rewrite El in HH; by apply elem_of_nil in HH).
  set (q1 := set_future _ q).
  eapply runs_bind; [apply (future_loop_runs l (m_limit q + m_futureLimit q) (m_known q) (m_future q) (m_futureSize q) q1 A a)|].
  - by eapply inv_fields.
  - done.
  - pose proof (q_sum _ Hq). lia.
  - cbn. unfold sub at 1. by rewrite lookup_insert_eq.
  - intros x. cbn. apply insert_insert_eq.
  - apply lower_bound_keys.
  - intros k o Hk. by apply Hl.
  - intros [] q2 (Hfr & Hkn & Hba & F' & Hi2 & Hf2 & Hl2 & Hs2). specialize (Hf2 (or_introl Hne)).
    set (q3 := set_byAddress (erase2 a l A) q2) in *. exists tt, q3. split; [unfold mput; rewrite Hba; reflexivity|].
    assert (frame q q3) as Hfr3 by (destruct Hfr; by split).
    assert (forall b k, slot (set_byAddress A q1) b k = slot q b k) as Hsq by done.
    assert (forall k, k ∈ l.*1 -> is_Some (slot q a k)) as Hsl.
    { intros k [[o Ho] _]%Hlk. destruct (i_addr _ _ _ _ _ Hi a k o Ho) as (i & u & ? & -> & Hu & _). unfold slot. fold A. rewrite Ho. by rewrite Hu. }
    split; [|split; [done|split]].
    + eapply queue_ok_intro; [exact Hq|exact Hfr3|]. assert (m_known q3 = m_known q) as -> by exact Hkn.
      assert (m_future q3 = F') as -> by exact Hf2. exact Hi2.
    + intros b k. unfold all. rewrite Hs2, Hsq. assert (m_future q3 = F') as -> by exact Hf2. rewrite Hl2, Hsq.
      destruct (decide (b = a /\ k ∈ l.*1)) as [[-> Hk]|]; [|done]. destruct (Hsl k Hk) as [u Hu]. by rewrite Hu.
    + intros id' t' a' [= <-] Ht' Ha' b k. rewrite Ht in Ht'. injection Ht' as <-. rewrite (good_from _ _ _ Hg) in Ha'. subst a'.
      rewrite Hs2, Hsq. destruct (decide (b = a /\ m_nonce t <= k)) as [[-> Hle]|Hnle].
      * destruct (decide (a = a /\ k ∈ l.*1)) as [|Hnk]; [done|]. destruct (slot q a k) as [u|] eqn:Eu; [|done].
        destruct Hnk. split; [done|]. apply Hlk. split; [|done]. destruct (slot_Some _ _ _ _ _ _ _ _ Hi Eu) as (i & ? & Hi' & _). unfold A. by rewrite Hi'.
      * rewrite decide_False; [done|]. intros [-> [_ Hk]%Hlk]. by apply Hnle.
Qed.

(** ** The rest *)

Lemma drop_runs q h : queue_ok q -> runs (drop_ h) q (fun _ q' => queue_ok q' /\ forall b k u, all q' b k = Some u -> all q b k = Some u).
Proof.
  intros Hq. unfold drop_. apply runs_get. destruct (bool_decide _); [|by apply runs_ret]. apply runs_put. set (q1 := set_dropped _ q).
  assert (inv (m_limit q + m_futureLimit q) (m_known q1) q1) as Hi by (eapply inv_fields; [apply Hq|..]; done).
  destruct (remove_runs _ _ _ _ q1 h Hi) as (r & q2 & E & H). unfold runs. rewrite (mbind_Ok _ _ _ _ _ E). exists tt, q2. split; [done|].
  destruct (m_currentByHash q1 !! h); [|destruct H as [-> ->]; split; [|done]; eapply queue_ok_intro; [exact Hq|by split|done]].
  destruct H as (-> & Hi2 & [F1 F2 F3] & Hkn & Hfu & Hfs & t & a & _ & _ & _ & Hslot). split.
  - eapply queue_ok_intro; [exact Hq|by split|]. rewrite Hkn, Hfu, Hfs. by apply (inv_weaken _ _ _ _ _ _ Hi2); lia.
  - intros b k u. unfold all. rewrite Hslot, Hfu. destruct (decide _) as [[-> ->]|]; [|done].
    change (slot q1) with (slot q). destruct (slot q a (m_nonce t)) eqn:Es; [|done]. intros Hu.
    by rewrite (future_slot _ _ _ _ _ _ _ _ (q_inv _ Hq) Hu) in Es.
Qed.

Lemma dropGood_runs q t h : queue_ok q -> hash_of t = Ok h -> runs (dropGood t) q (fun _ q' => queue_ok q').
Proof.
  intros Hq Hh. unfold dropGood. destruct Hq as [H1 H2 H3 Hi].
  assert (m_futureSize q < 2 ^ 32) as H32 by (pose proof (i_bound _ _ _ _ _ Hi); lia).
  eapply runs_bind; [by apply (makeCurrent_runs _ (m_known q) q t Hi)|]. intros [] q1 [Hi1 [P1 P2 P3 P4 P5 P6 P7]].
  eapply runs_tx; [exact Hh|]. apply runs_get.
  assert (queue_ok q1) as Hq1 by (destruct P1 as [F1 F2 F3]; split; rewrite ?F1, ?F2, ?P2; done).
  destruct (bool_decide _); [|by apply runs_ret]. destruct (remove_runs _ _ _ _ q1 h (q_inv _ Hq1)) as (r & q2 & E & H).
  unfold runs. rewrite (mbind_Ok _ _ _ _ _ E). exists tt, q2. split; [done|].
  destruct (m_currentByHash q1 !! h); [|by destruct H as [-> ->]]. destruct H as (-> & Hi2 & Hfr & Hkn & Hfu & Hfs & _).
  eapply queue_ok_intro; [exact Hq1|done|]. rewrite Hkn, Hfu, Hfs. by apply (inv_weaken _ _ _ _ _ _ Hi2); lia.
Qed.

Lemma empty_inv q : m_current q = [] -> m_nodes q = ∅ -> m_currentByHash q = ∅ -> m_currentByAddressAndNonce q = ∅ -> m_future q = ∅ ->
  m_futureSize q = 0 -> 0 <= m_limit q -> 0 <= m_futureLimit q -> m_limit q + m_futureLimit q + 1 < 2 ^ 32 -> queue_ok q.
Proof.
  intros Ec En Eh Ea Ef Es H1 H2 H3.
  split; try done. split; rewrite ?Ec, ?En, ?Eh, ?Ea, ?Ef, ?Es, ?total_empty; try done.
  - constructor.
  - intros id. rewrite lookup_empty, elem_of_nil. split; [done|by intros [? [=]]].
  - intros id. rewrite lookup_empty. by intros [? [=]].
  - cbn. lia.
Qed.
Lemma new_ok L0 FL c : 0 <= L0 -> 0 <= FL -> L0 + FL + 1 < 2 ^ 32 -> queue_ok (new_queue L0 FL c).
Proof. intros. by apply empty_inv. Qed.
Lemma clear_runs q : queue_ok q -> runs clear q (fun _ q' => queue_ok q').
Proof. intros []. exists tt. eexists. split; [reflexivity|]. by apply empty_inv. Qed.

Lemma import_ok q t h a ik : queue_ok q -> good t h a -> runs (import t ik) q (fun _ q' => queue_ok q').
Proof.
  intros Hq Hg. destruct (hasZeroSignature t) eqn:Hz; [unfold import; rewrite Hz; by apply runs_ret|].
  destruct (import_runs q t h a ik Hq Hz Hg) as (ir & q' & E & Hq' & _). by exists ir, q'.
Qed.

(** The current transactions, by priority. *)
Definition current_txs q : list TransactionBase := omap (fun id => m_nodes q !! id) (m_current q).
Definition wanted (_avoid : gset bytes) t : bool := match hash_of t with Ok h => negb (bool_decide (h ∈ _avoid)) | Err _ => false end.

Lemma top_loop_runs q _avoid (l : list nat) : forall _limit,
  Forall (fun id => exists t h, m_nodes q !! id = Some t /\ hash_of t = Ok h) l ->
  top_loop l _limit _avoid q = (Ok (take (Z.to_nat _limit) (List.filter (wanted _avoid) (omap (fun id => m_nodes q !! id) l))), q).
Proof.
  induction l as [|id l IH]; intros _limit Hl; [cbn; by rewrite take_nil|]. apply Forall_cons in Hl as [(t & h & Ht & Hh) Hl].
  cbn [top_loop]. destruct (Z.leb_spec _limit 0) as [Hle|Hlt].
  { replace (Z.to_nat _limit) with 0%nat by lia. by rewrite take_0. }
  unfold mbind at 1. cbn [deref]. unfold mbind at 1, mget. rewrite Ht. cbn [mret]. unfold mbind at 1, tx. rewrite Hh. cbn [mlift].
  cbn [omap list_omap]. rewrite Ht. cbn [List.filter]. unfold wanted at 1. rewrite Hh. destruct (bool_decide _); cbn [negb]; [by apply IH|].
  unfold mbind. rewrite IH by done. replace (Z.to_nat _limit) with (S (Z.to_nat (_limit - 1))) by lia. done.
Qed.

(** ** Histories *)

Inductive op :=
| OpImport (t : TransactionBase) (_ik : IfDropped) | OpDrop (h : bytes) | OpDropGood (t : TransactionBase) | OpSetFuture (h : bytes)
| OpTop (_limit : Z) (_avoid : gset bytes) | OpClear.
Definition run_op (o : op) : QM unit :=
  match o with
  | OpImport t ik => exec! import t ik in mret tt
  | OpDrop h => drop_ h
  | OpDropGood t => dropGood t
  | OpSetFuture h => setFuture h
  | OpTop l a => exec! topTransactions l a in mret tt
  | OpClear => clear
  end.
Fixpoint run_ops (l : list op) : QM unit := match l with [] => mret tt | o :: l' => exec! run_op o in run_ops l' end.

(** The transactions have senders. *)
Definition op_pre (o : op) : Prop :=
  match o with OpImport t _ => exists h a, good t h a | OpDropGood t => exists h, hash_of t = Ok h | _ => True end.

Lemma top_runs q _limit _avoid : queue_ok q -> topTransactions _limit _avoid q =
  (Ok (take (Z.to_nat _limit) (List.filter (wanted _avoid) (current_txs q))), q).
Proof.
  intros Hq. unfold topTransactions, mbind, mget. apply top_loop_runs. apply Forall_forall. intros id Hid.
  apply (i_dom _ _ _ _ _ (q_inv _ Hq)) in Hid as [t Ht]. destruct (i_node _ _ _ _ _ (q_inv _ Hq) id t Ht) as (h & a & Hg & _).
  exists t, h. split; [done|]. apply Hg.
Qed.

Lemma run_op_ok o q : queue_ok q -> op_pre o -> runs (run_op o) q (fun _ q' => queue_ok q').
Proof.
  intros Hq Hp. destruct o as [t ik|h|t|h|lim av|]; cbn [run_op op_pre] in *.
  - destruct Hp as (h & a & Hg). eapply runs_bind; [by eapply import_ok|]. intros ir q' Hq'. by apply runs_ret.
  - destruct (drop_runs q h Hq) as (x & q' & E & H & _). by exists x, q'.
  - destruct Hp as [h Hh]. by eapply dropGood_runs.
  - destruct (setFuture_runs q h Hq) as (x & q' & E & H & _). by exists x, q'.
  - exists tt, q. unfold mbind. by rewrite (top_runs q lim av Hq).
  - by apply clear_runs.
Qed.

Lemma run_ops_ok l q : queue_ok q -> Forall op_pre l -> exists q', run_ops l q = (Ok tt, q') /\ queue_ok q'.
Proof.
  intros Hq Hl. revert q Hq. induction Hl as [|o l Ho Hl IH]; intros q Hq; [by exists q|].
  destruct (run_op_ok o q Hq Ho) as ([] & q1 & E & Hq1). cbn [run_ops]. rewrite (mbind_Ok _ _ _ _ _ E). by apply IH.
Qed.

(** C29: the transaction queue keeps its books. From an empty queue on, whatever
    transactions with a recoverable sender are imported, dropped, sent to the future
    and back, no operation follows a dangling iterator or throws; the multiset, its
    two indices, the future transactions and their count agree, no slot of sender and
    nonce is taken twice, every transaction in the queue is known, and current and future
    transactions together are never more than the sum of the two limits, however the
    multiset is shaped.  Neither limit holds alone: see [limits_exceeded]. *)
Theorem queue_coherent (l : list op) (_limit _futureLimit : Z) (choices : list nat) :
  0 <= _limit -> 0 <= _futureLimit -> _limit + _futureLimit + 1 < 2 ^ 32 -> Forall op_pre l ->
  exists q, run_ops l (new_queue _limit _futureLimit choices) = (Ok tt, q) /\ queue_ok q.
Proof.
  intros H1 H2 H3 Hl. apply run_ops_ok; [by apply new_ok|done].
Qed.

(** C30: what an import of a transaction with a recoverable sender does. One whose hash is known, or was dropped, is
    refused; one that bids less than the transaction in its slot, current or future, is
    refused and changes nothing. Otherwise the queue, seen as a map from sender and
    nonce to transactions, is updated at the slot of the transaction: a transaction that
    is replaced did not bid more, nothing else appears, and while there is room nothing
    else is lost, the transaction is current, and the following nonce does not wait in
    the future. *)
Theorem import_updates (q : TransactionQueue) (t : TransactionBase) (h a : bytes) (ik : IfDropped) :
  queue_ok q -> hasZeroSignature t = false -> good t h a ->
  exists ir q', import t ik q = (Ok ir, q') /\ queue_ok q' /\
    match ir with
    | Success =>
        (forall u, all q a (m_nonce t) = Some u -> m_gasPrice u <= m_gasPrice t) /\
        (forall b k u, all q' b k = Some u -> b = a /\ k = m_nonce t /\ u = t \/ all q b k = Some u) /\
        lookup2 (m_future q') a (wrap 256 (m_nonce t + 1)) = None /\
        (roomy q -> slot q' a (m_nonce t) = Some t /\
           forall b k, all q' b k = if decide (b = a /\ k = m_nonce t) then Some t else all q b k)
    | OverbidGasPrice => q' = q /\ exists u, all q a (m_nonce t) = Some u /\ m_gasPrice t < m_gasPrice u
    | AlreadyKnown => q' = q /\ h ∈ m_known q
    | AlreadyInChain => q' = q /\ h ∈ m_dropped q /\ ik = Ignore
    | _ => False
    end.
Proof.
  intros Hq Hz Hg. destruct (import_runs q t h a ik Hq Hz Hg) as (ir & q' & E & Hq' & H). exists ir, q'. split; [done|]. split; [done|].
  destruct ir; try done. destruct H as [_ [M1 M2 M3 M4 M5 M6 M7]]. split; [done|]. split; [done|]. split; [done|]. intros Hr. split; auto.
Qed.

(** C31: [topTransactions] gives the first transactions of the queue that are not to be
    avoided, in the order of the queue and up to the limit, and leaves the queue as it
    is; [setFuture] keeps every transaction and takes those of the same sender with this
    nonce and the following ones, and only those, out of what [topTransactions] may
    give. *)
Theorem top_and_future (q : TransactionQueue) (h : bytes) (_limit : Z) (_avoid : gset bytes) :
  queue_ok q ->
  topTransactions _limit _avoid q = (Ok (take (Z.to_nat _limit) (List.filter (wanted _avoid) (current_txs q))), q) /\
  exists q', setFuture h q = (Ok tt, q') /\ queue_ok q' /\ (forall b k, all q' b k = all q b k) /\
    forall id t, m_currentByHash q !! h = Some id -> m_nodes q !! id = Some t ->
      forall b k, slot q' b k = if decide (b = from t /\ m_nonce t <= k) then None else slot q b k.
Proof.
  intros Hq. split; [by apply top_runs|]. destruct (setFuture_runs q h Hq) as ([] & q' & E & Hq' & _ & Ha & Hs).
  exists q'. split; [done|]. split; [done|]. split; [done|]. intros id t Hid Ht. by apply (Hs id t (from t) Hid Ht).
Qed.

(** ** A signature without a sender *)

Lemma from_unrecoverable t e : sender_of t = Err e -> from t = ZeroAddress.
Proof. unfold sender_of, from, safeSender. by destruct (sender t) as [[]?]. Qed.

Lemma place_throws (n : nat) t e id (l : list nat) q :
  sender_of t = Err e -> (forall i, i ∈ id :: l -> is_Some (m_nodes q !! i)) ->
  place (S n) t (id :: l) q = (Err (TxExn e), set_choices (tl (m_choices q)) q).
Proof.
  intros Hs Hl. cbn [place]. set (L0 := id :: l) in *. unfold mbind at 1.
  change (choice q) with (Ok (E := tq_exn) (hd 0%nat (m_choices q)), set_choices (tl (m_choices q)) q). cbn beta iota zeta.
  set (k := (hd 0%nat (m_choices q) mod List.length L0)%nat). assert (k < List.length L0)%nat as Hk by (apply Nat.mod_upper_bound; done).
  destruct (lookup_lt_is_Some_2 L0 k Hk) as [i Hik]. rewrite Hik.
  destruct (Hl i) as [u Hu]; [by eapply list_elem_of_lookup_2|]. erewrite (mbind_Ok (deref (Some i))).
  2:{ unfold deref, mbind, mget. cbn. rewrite Hu. reflexivity. }
  apply mbind_Err, mbind_Err, mbind_Err. unfold tx. by rewrite Hs.
Qed.

(** C32: a remote peer can crash the queue. Transactions that come over the network are
    imported without recovering their sender, which for the queue is then the zero
    address. Comparing such a transaction throws after its slot was reserved, and the
    slot keeps a default-constructed iterator: a second one with the same nonce follows
    it. *)
Theorem unrecoverable_crash (q : TransactionQueue) (t1 t2 : TransactionBase) (h1 h2 : bytes) (e1 e2 : tx_exn) :
  queue_ok q -> m_current q <> [] -> hasZeroSignature t1 = false -> hasZeroSignature t2 = false ->
  hash_of t1 = Ok h1 -> hash_of t2 = Ok h2 -> sender_of t1 = Err e1 -> sender_of t2 = Err e2 -> m_nonce t1 = m_nonce t2 ->
  (h1 ∉ m_known q ∪ m_dropped q) -> (h2 ∉ m_known q ∪ m_dropped q) -> all q ZeroAddress (m_nonce t1) = None ->
  exists q', import t1 Ignore q = (Ok Malformed, q') /\ fst (import t2 Ignore q') = Err BadAccess.
Proof.
  intros Hq Hc Hz1 Hz2 Hh1 Hh2 Hs1 Hs2 Hn Hk1 Hk2 Ha. pose proof (q_inv _ Hq) as Hi.
  assert (slot q ZeroAddress (m_nonce t1) = None) as Hs by (unfold all in Ha; by destruct (slot q ZeroAddress (m_nonce t1))).
  assert (lookup2 (m_future q) ZeroAddress (m_nonce t1) = None) as Hf by (unfold all in Ha; by rewrite Hs in Ha).
  pose proof (slot_None _ _ _ _ _ _ _ Hi Hs) as Hb.
  set (q1 := set_byAddress (reserved (m_currentByAddressAndNonce q) ZeroAddress (m_nonce t1)) q).
  assert (exists c, emplace t1 q1 = (Err (TxExn e1), set_choices c q1)) as [c Ee].
  { exists (tl (m_choices q1)). unfold emplace. unfold mbind at 1, mget. change (m_current q1) with (m_current q).
    destruct (m_current q) as [|id l] eqn:El; [done|]. apply mbind_Err. apply place_throws; [done|].
    intros i Hin. apply (i_dom _ _ _ _ _ Hi). by rewrite El. }
  exists (set_choices c q1). split.
  - unfold import. rewrite Hz1. unfold mbind at 1, tx. rewrite Hh1. cbn [mlift]. unfold mbind at 1, mget, check_WITH_LOCK.
    rewrite (bool_decide_false (h1 ∈ m_known q)), (bool_decide_false (h1 ∈ m_dropped q)) by set_solver. cbn [andb].
    rewrite bool_decide_true by done. unfold manageImport_WITH_LOCK, manage_try. unfold mbind at 1, replace_current, replace_future, insertCurrent_WITH_LOCK.
    rewrite (from_unrecoverable _ _ Hs1). unfold mbind at 1, mget. rewrite Hb. cbn [mret]. unfold mbind at 1 2, mget. rewrite Hf. cbn [mret].
    unfold mbind at 1 2, mget. destruct (m_currentByHash q !! h1) as [id|] eqn:Eh; [pose proof (i_known _ _ _ _ _ Hi _ _ Eh); set_solver|].
    unfold mbind at 1, reserve, mput. fold (reserved (m_currentByAddressAndNonce q) ZeroAddress (m_nonce t1)). fold q1. unfold mbind at 1. by rewrite Ee.
  - unfold import. rewrite Hz2. unfold mbind at 1, tx. rewrite Hh2. cbn [mlift]. unfold mbind at 1, mget, check_WITH_LOCK.
    cbn [m_known m_dropped set_choices q1 set_byAddress].
    rewrite (bool_decide_false (h2 ∈ m_known q)), (bool_decide_false (h2 ∈ m_dropped q)) by set_solver. cbn [andb].
    rewrite bool_decide_true by done. unfold manageImport_WITH_LOCK, manage_try. unfold mbind at 1, replace_current.
    rewrite (from_unrecoverable _ _ Hs2), <- Hn. unfold mbind at 1, mget. cbn [m_currentByAddressAndNonce set_choices q1 set_byAddress].
    unfold reserved. rewrite lookup2_insert, decide_True by done. rewrite lookup_sub, Hb, lookup_insert_eq. reflexivity.
Qed.

End Queue.

(** ** Examples *)

Definition alice : bytes := replicate 20 1.
Definition bob : bytes := replicate 20 2.
Definition signed : option Crypto.SignatureStruct := Some {| Crypto.r := toy_number; Crypto.s := toy_number; Crypto.v := 0 |}.
(** A transaction that has memoised its hash and sender. *)
Definition pending (a : bytes) (n price : Z) (h : bytes) : TransactionBase :=
  set_hashWith h (set_sender a (set_vrs signed (fresh MessageCall 0 price 21000 bob [] n))).
Definition hash (i : Z) : bytes := FixedHash.of_arith 32 i.
Definition sample_queue : TransactionQueue :=
  snd (run_ops (L := Toy) [OpImport (pending alice 0 1 (hash 1)) Ignore; OpImport (pending bob 0 5 (hash 2)) Ignore;
                           OpImport (pending alice 1 9 (hash 3)) Ignore] (new_queue 1024 1024 [])).

Lemma pending_good {L : Crypto.Secp256k1} a n price h : FixedHash.to_bool a = true -> FixedHash.to_bool h = true -> good (pending a n price h) h a.
Proof.
  intros Ha Hh. split.
  - unfold hash_of, tx_sha3. cbn [m_hashWith pending set_hashWith andb]. by rewrite Hh.
  - unfold sender_of, sender, mbind, mget, mret. cbn [m_sender pending set_hashWith set_sender]. by rewrite Ha.
Qed.

Lemma queue_coherent_witness : exists q,
  run_ops (L := Toy) [OpImport (pending alice 1 5 (hash 1)) Ignore; OpSetFuture (hash 1); OpImport (pending alice 0 5 (hash 2)) Ignore; OpDrop (hash 2)]
    (new_queue 1024 1024 []) = (Ok tt, q) /\ queue_ok (L := Toy) q.
Proof.
  apply (queue_coherent (L := Toy)); [lia|lia|lia|]. repeat constructor; eexists _, _; by apply pending_good.
Defined.

(** [setFuture] takes the future transactions above their limit, and [dropGood] the
    current ones above theirs. *)
Example limits_exceeded :
  let q := snd (run_ops (L := Toy) [OpImport (pending alice 0 1 (hash 1)) Ignore; OpSetFuture (hash 1)] (new_queue 1 0 [])) in
  let q' := snd (run_ops (L := Toy) [OpImport (pending alice 1 1 (hash 1)) Ignore; OpSetFuture (hash 1); OpImport (pending bob 0 1 (hash 2)) Ignore;
                                     OpDropGood (pending alice 0 1 (hash 3))] (new_queue 1 1 [])) in
  m_futureLimit q = 0 /\ m_futureSize q = 1 /\ m_limit q' = 1 /\ zlen (current_txs q') = 2.
Proof. vm_compute. done. Qed.

Lemma sample_queue_ok : queue_ok (L := Toy) sample_queue.
Proof.
  unfold sample_queue. destruct (run_ops_ok (L := Toy) [OpImport (pending alice 0 1 (hash 1)) Ignore; OpImport (pending bob 0 5 (hash 2)) Ignore;
    OpImport (pending alice 1 9 (hash 3)) Ignore] (new_queue 1024 1024 [])) as (q & -> & Hq); [apply new_ok; lia| |done].
  repeat constructor; eexists _, _; by apply pending_good.
Qed.

Lemma import_updates_witness :
  let q' := snd (import (L := Toy) (pending alice 0 2 (hash 4)) Ignore sample_queue) in
  queue_ok (L := Toy) q' /\ slot q' alice 0 = Some (pending alice 0 2 (hash 4)) /\ all q' bob 0 = all sample_queue bob 0.
Proof.
  destruct (import_updates (L := Toy) sample_queue (pending alice 0 2 (hash 4)) (hash 4) alice Ignore sample_queue_ok ltac:(vm_compute; reflexivity)
    ltac:(by apply pending_good)) as (ir & q' & E & Hq & H). rewrite E. cbn [snd]. split; [exact Hq|].
  assert (ir = Success) as -> by (apply (f_equal fst) in E; vm_compute in E; congruence).
  destruct H as (_ & _ & _ & H). destruct H as [H1 H2]; [split; vm_compute; congruence|]. split; [exact H1|]. rewrite H2. reflexivity.
Defined.

Lemma top_and_future_witness :
  topTransactions 2 ∅ sample_queue = (Ok [pending bob 0 5 (hash 2); pending alice 0 1 (hash 1)], sample_queue) /\
  exists q', setFuture (L := Toy) (hash 1) sample_queue = (Ok tt, q') /\ slot q' alice 1 = None /\ all q' alice 1 = Some (pending alice 1 9 (hash 3)).
Proof.
  destruct (top_and_future (L := Toy) sample_queue (hash 1) 2 ∅ sample_queue_ok) as [Ht (q' & E & _ & Ha & Hs)]. split; [rewrite Ht; f_equal; vm_compute; reflexivity|].
  exists q'. split; [exact E|]. split; [|rewrite Ha; vm_compute; reflexivity].
  rewrite (Hs 0%nat (pending alice 0 1 (hash 1))) by (vm_compute; reflexivity). rewrite decide_True; [reflexivity|]. vm_compute. split; [reflexivity|discriminate].
Defined.

(** A library that recovers no key. *)
Definition Deaf : Crypto.Secp256k1 :=
  {| Crypto.recoverable_signature := unit; Crypto.pubkey := unit;
     Crypto.secp256k1_ec_pubkey_create := fun _ => Some tt;
     Crypto.secp256k1_ec_pubkey_serialize := fun _ => 4 :: replicate 64 1;
     Crypto.secp256k1_ecdsa_sign_recoverable := fun _ _ => Some tt;
     Crypto.secp256k1_ecdsa_recoverable_signature_serialize_compact := fun _ => (toy_number ++ toy_number, 0);
     Crypto.secp256k1_ecdsa_recoverable_signature_parse_compact := fun _ _ => Some tt;
     Crypto.secp256k1_ecdsa_recover := fun _ _ => None |}.
Definition one_queue : TransactionQueue :=
  snd (run_ops (L := Deaf) [OpImport (pending alice 0 1 (hash 1)) Ignore] (new_queue 1024 1024 [])).
Lemma one_ok : queue_ok (L := Deaf) one_queue.
Proof.
  unfold one_queue. destruct (run_ops_ok (L := Deaf) [OpImport (pending alice 0 1 (hash 1)) Ignore] (new_queue 1024 1024 [])) as (q & -> & Hq);
    [apply new_ok; lia| |done]. repeat constructor; eexists _, _; by apply pending_good.
Qed.
Lemma unrecoverable_crash_witness :
  let bad price := set_vrs signed (fresh MessageCall 0 price 21000 bob [] 7) in
  exists q', import (L := Deaf) (bad 1) Ignore one_queue = (Ok Malformed, q') /\ fst (import (L := Deaf) (bad 2) Ignore q') = Err BadAccess.
Proof.
  intros bad. destruct (hash_of (bad 1)) as [h1|] eqn:E1; [|vm_compute in E1; discriminate]. destruct (hash_of (bad 2)) as [h2|] eqn:E2; [|vm_compute in E2; discriminate].
  apply (unrecoverable_crash (L := Deaf) one_queue (bad 1) (bad 2) h1 h2 InvalidSignature InvalidSignature one_ok);
    [vm_compute; discriminate|vm_compute; reflexivity|vm_compute; reflexivity|exact E1|exact E2|vm_compute; reflexivity|vm_compute; reflexivity|
     reflexivity| | |vm_compute; reflexivity].
  - vm_compute in E1. injection E1 as <-. apply (bool_decide_eq_false_1 _). vm_compute. reflexivity.
  - vm_compute in E2. injection E2 as <-. apply (bool_decide_eq_false_1 _). vm_compute. reflexivity.
Defined.

(** Dropping Alice's first transaction leaves Bob's before her second one, which the
    comparison puts first: the order of the multiset is stale. *)
Example priority_stale :
  let q := snd (drop_ (L := Toy) (hash 1) sample_queue) in
  fst (topTransactions 2 ∅ q) = Ok [pending bob 0 5 (hash 2); pending alice 1 9 (hash 3)] /\
  fst (before (L := Toy) (pending alice 1 9 (hash 3)) (pending bob 0 5 (hash 2)) q) = Ok true.
Proof. vm_compute. done. Qed.

(** A future transaction that is replaced stays known: it can not be imported again. *)
Example replaced_stays_known :
  let q := snd (run_ops (L := Toy) [OpSetFuture (hash 3); OpImport (pending alice 1 10 (hash 5)) Ignore; OpDrop (hash 5)] sample_queue) in
  all q alice 1 = None /\ fst (import (L := Toy) (pending alice 1 9 (hash 3)) Ignore q) = Ok AlreadyKnown.
Proof. vm_compute. done. Qed.

End TxQueueProps.
