(* ===== verification/BlockChain.v ===== *)
(** * BlockChain: the chain of blocks (libvapory/BlockChain, BlockDetails)

    - [BlockDetails]: what the chain stores beside the blocks, and its encodings.
    - [BlockChain]: the two databases and the caches in front of them, the queries,
      the route between two blocks, the search by bloom filters, verification of a
      block and its insertion, which may switch to another branch.

    LevelDB is the parameter of [OverlayDB]; a write that fails ends the process
    ([Exit]).  The clock and the memory an allocation may find are parameters.  A loop
    over the items of a list first takes the items, so that of two exceptions the code
    may throw another one.  Locks, log messages, performance figures, callbacks and
    files are left out. *)

From stdpp Require Import base list numbers option gmap.
From Stdlib Require Import ZArith Lia.
From S2P Require Import Prelude Bytes Rlp RlpStream RlpFields Keccak OverlayDB TrieDB TrieHash Crypto Transaction BlockHeader.
From S2P Require Import Seal Receipt.
Import CommonData RLP RLPStream RlpFields Keccak.

#[local] Opaque sha3.

(** ** What is stored *)
Module BlockDetails.
Import Bloom LogEntry Receipt.

Definition c_bloomIndexSize : Z := 16.
Definition c_bloomIndexLevels : Z := 2.
Definition c_invalidNumber : Z := 2 ^ 32 - 1.

Record BlockDetails := { number : Z; totalDifficulty : Z; parent : bytes; children : list bytes }.
#[export] Instance BlockDetails_eq_dec : EqDecision BlockDetails.
Proof. solve_decision. Defined.
(** [BlockDetails()], [NullBlockDetails]. *)
Definition NullBlockDetails : BlockDetails :=
  {| number := c_invalidNumber; totalDifficulty := 2 ^ 256 - 1; parent := FixedHash.zero 32; children := [] |}.
Definition isNull (d : BlockDetails) : bool := number d =? c_invalidNumber.
Definition add_child (h : bytes) (d : BlockDetails) : BlockDetails :=
  {| number := number d; totalDifficulty := totalDifficulty d; parent := parent d; children := children d ++ [h] |}.

Record TransactionAddress := { blockHash : bytes; index : Z }.
Definition NullTransactionAddress : TransactionAddress := {| blockHash := FixedHash.zero 32; index := 0 |}.
Definition NullBlocksBlooms : list LogBloom := replicate 16 empty_bloom.

(** *** Encoding *)

Definition streamed (op : Str_M unit) : result stream_exn bytes :=
  match op empty with (Ok _, s) => out s | (Err e, _) => Err e end.
Abbreviation hash_op x := (append_hash x false false).

Definition details_rlp (d : BlockDetails) : result stream_exn bytes :=
  streamed (exec! appendList 4 in
            exec! append_bigint (number d) in
            exec! append_bigint (totalDifficulty d) in
            exec! hash_op (parent d) in
            appendVector (fun h => hash_op h) (children d)).
Definition blooms_rlp (blooms : list LogBloom) : result stream_exn bytes := streamed (appendVector (fun h => hash_op h) blooms).
Definition receipts_rlp (receipts : list TransactionReceipt) : result stream_exn bytes :=
  streamed (exec! appendList (zlen receipts) in append_each stream_receipt receipts).
Definition hash_rlp (value : bytes) : result stream_exn bytes := streamed (hash_op value).
Definition address_rlp (ta : TransactionAddress) : result stream_exn bytes :=
  streamed (exec! appendList 2 in exec! hash_op (blockHash ta) in append_bigint (index ta)).

(** *** Decoding, from data that was read with [RLP(s)] *)

Definition read_details (s : bytes) : result exn BlockDetails :=
  let! r := make s VeryStrict in
  fst ((do! i0 := item (fun e => e) r 0 in
        do! n := conv (fun e => e) (toInt 32 i0 Strict) in
        do! i1 := item (fun e => e) r 1 in
        do! td := conv (fun e => e) (toInt 256 i1 Strict) in
        do! i2 := item (fun e => e) r 2 in
        do! p := conv (fun e => e) (toHash 32 i2 Strict) in
        do! i3 := item (fun e => e) r 3 in
        do! c := conv (fun e => e) (toVector (toHash 32) i3 LaissezFaire) in
        mret {| number := n; totalDifficulty := td; parent := p; children := c |}) cache_init).
Definition read_logBlooms (s : bytes) : result exn (list LogBloom) :=
  let! r := make s VeryStrict in toVector (toHash 256) r LaissezFaire.
(** [toArray<LogBloom, c_bloomIndexSize>]. *)
Fixpoint read_array (n : nat) (i : Z) (r : bytes) : M cache exn (list LogBloom) :=
  match n with
  | O => mret []
  | S n' =>
      do! x := item (fun e => e) r i in
      do! h := conv (fun e => e) (toHash 256 x LaissezFaire) in
      do! l := read_array n' (i + 1) r in
      mret (h :: l)
  end.
Definition read_blocksBlooms (s : bytes) : result exn (list LogBloom) :=
  let! r := make s VeryStrict in
  let! n := itemCountStrict r in
  if negb (n =? c_bloomIndexSize) then Ok NullBlocksBlooms else fst (read_array 16 0 r cache_init).
(** Which exception a receipt throws is not kept. *)
Definition read_receipts (s : bytes) : result exn (list TransactionReceipt) :=
  let! r := make s VeryStrict in
  for_each (List.length r) r (fun i => match parse_receipt i with Ok x => Ok x | Err (Receipt.Rlp e) => Err e | Err _ => Err BadCast end).
Definition read_hash (s : bytes) : result exn bytes :=
  let! r := make s VeryStrict in toHash 32 r Strict.
Definition read_address (s : bytes) : result exn TransactionAddress :=
  let! r := make s VeryStrict in
  fst ((do! i0 := item (fun e => e) r 0 in
        do! h := conv (fun e => e) (toHash 32 i0 Strict) in
        do! i1 := item (fun e => e) r 1 in
        do! n := conv (fun e => e) (toInt 32 i1 Strict) in
        mret {| blockHash := h; index := n |}) cache_init).

End BlockDetails.

(** ** The chain *)
Module BlockChain.
Import Bloom LogEntry Receipt BlockDetails ChainOperationParams.
Import VapashAux (VapashAux).
Import BlockHeader (BlockHeader, hdr_exn, m_parentHash, m_number, m_gasUsed, m_logBloom, m_author, m_timestamp, m_difficulty,
  m_receiptsRoot, make_header, extractHeader, HeaderData, BlockData, WithSeal, CheckEverything, QuickNonce, IgnoreSeal).

Inductive bc_exn :=
| RlpExn (e : exn) | HeaderExn (e : hdr_exn) | StreamExn (e : stream_exn) | TrieExn (e : TrieDB.trie_exn)
| SealExn (e : SealEngine.seal_exn) | TxExn (e : Transaction.tx_exn)
| UnknownParent | AlreadyHaveBlock | FutureTime | UnknownBlockNumber | FailedToWriteChainStart
| InvalidParentHash | InvalidUncleParentHash | InvalidReceiptsStateRoot
| AssertFailed | Undefined | Exit | NoFuel.

(** The extras, and the keys of the databases. *)
Definition ExtraDetails : Z := 0.
Definition ExtraBlockHash : Z := 1.
Definition ExtraTransactionAddress : Z := 2.
Definition ExtraLogBlooms : Z := 3.
Definition ExtraReceipts : Z := 4.
Definition ExtraBlocksBlooms : Z := 5.
Definition toSlice (_h : bytes) (_sub : Z) : bytes := _h ++ [wrap 8 _sub].
Definition toSlice_n (_n : Z) (_sub : Z) : bytes := replicate 24 0 ++ toBigEndian 8 _n ++ [wrap 8 _sub].
Definition best : bytes := [98; 101; 115; 116].
Definition c_sliceChainStart : bytes := [99; 104; 97; 105; 110; 83; 116; 97; 114; 116].

(** [CacheID] of a block; the length of death row. *)
Definition block_id : Z := 2 ^ 32 - 1.
Definition c_collectionQueueSize : nat := 20.
Definition c_maxCacheSize : Z := 1024 * 1024 * 64.
Definition c_minCacheSize : Z := 1024 * 1024 * 32.

(** [VerifiedBlockRef], [ImportRoute]. *)
Record VerifiedBlockRef := { vb_block : bytes; vb_info : BlockHeader; vb_transactions : list Transaction.TransactionBase }.
Record ImportRoute := { deadBlocks : list bytes; liveBlocks : list bytes; goodTranactions : list Transaction.TransactionBase }.

(** The parameters of the chain; [genesis]. *)
Record ChainParams := {
  operation : ChainOperationParams;
  genesisBlock : bytes;
  tieBreakingGas : bool;
  allowFutureBlocks : bool
}.
Record Genesis := { m_genesis : BlockHeader; m_genesisHeaderBytes : bytes; m_genesisHash : bytes }.
Definition genesis (p : ChainParams) : result hdr_exn Genesis :=
  let! h := make_header (genesisBlock p) BlockData (FixedHash.zero 32) in
  let! d := extractHeader (genesisBlock p) in
  let! x := fst (BlockHeader.hash WithSeal h) in
  Ok {| m_genesis := h; m_genesisHeaderBytes := d; m_genesisHash := x |}.

Section Chain.
Context {L : Type} `{LevelDB L} {C : Crypto.Secp256k1}.
Variable params : ChainParams.
Variable G : Genesis.
(** Whether allocations succeed, and [utcTime()]. *)
Variable allocated : bool.
Variable utcTime : Z.

(** [m_lastHashes] is the member of [LastBlockHashes], [m_vapash] the singleton of the
    seal engine. *)
Record BlockChain := {
  m_blocks : gmap bytes bytes;
  m_details : gmap bytes BlockDetails;
  m_logBlooms : gmap bytes (list LogBloom);
  m_receipts : gmap bytes (list TransactionReceipt);
  m_transactionAddresses : gmap bytes TransactionAddress;
  m_blockHashes : gmap Z bytes;
  m_blocksBlooms : gmap bytes (list LogBloom);
  m_cacheUsage : list (gset (bytes * Z));
  m_inUse : gset (bytes * Z);
  m_lastHashes : list bytes;
  m_blocksDB : L;
  m_extrasDB : L;
  m_lastBlockHash : bytes;
  m_lastBlockNumber : Z;
  m_vapash : VapashAux
}.
Definition set_blocks (v : gmap bytes bytes) (b : BlockChain) : BlockChain :=
  {| m_blocks := v; m_details := m_details b; m_logBlooms := m_logBlooms b; m_receipts := m_receipts b;
     m_transactionAddresses := m_transactionAddresses b; m_blockHashes := m_blockHashes b; m_blocksBlooms :=
     m_blocksBlooms b; m_cacheUsage := m_cacheUsage b; m_inUse := m_inUse b; m_lastHashes := m_lastHashes b;
     m_blocksDB := m_blocksDB b; m_extrasDB := m_extrasDB b; m_lastBlockHash := m_lastBlockHash b; m_lastBlockNumber
     := m_lastBlockNumber b; m_vapash := m_vapash b |}.
Definition set_details (v : gmap bytes BlockDetails) (b : BlockChain) : BlockChain :=
  {| m_blocks := m_blocks b; m_details := v; m_logBlooms := m_logBlooms b; m_receipts := m_receipts b;
     m_transactionAddresses := m_transactionAddresses b; m_blockHashes := m_blockHashes b; m_blocksBlooms :=
     m_blocksBlooms b; m_cacheUsage := m_cacheUsage b; m_inUse := m_inUse b; m_lastHashes := m_lastHashes b;
     m_blocksDB := m_blocksDB b; m_extrasDB := m_extrasDB b; m_lastBlockHash := m_lastBlockHash b; m_lastBlockNumber
     := m_lastBlockNumber b; m_vapash := m_vapash b |}.
Definition set_logBlooms (v : gmap bytes (list LogBloom)) (b : BlockChain) : BlockChain :=
  {| m_blocks := m_blocks b; m_details := m_details b; m_logBlooms := v; m_receipts := m_receipts b;
     m_transactionAddresses := m_transactionAddresses b; m_blockHashes := m_blockHashes b; m_blocksBlooms :=
     m_blocksBlooms b; m_cacheUsage := m_cacheUsage b; m_inUse := m_inUse b; m_lastHashes := m_lastHashes b;
     m_blocksDB := m_blocksDB b; m_extrasDB := m_extrasDB b; m_lastBlockHash := m_lastBlockHash b; m_lastBlockNumber
     := m_lastBlockNumber b; m_vapash := m_vapash b |}.
Definition set_receipts (v : gmap bytes (list TransactionReceipt)) (b : BlockChain) : BlockChain :=
  {| m_blocks := m_blocks b; m_details := m_details b; m_logBlooms := m_logBlooms b; m_receipts := v;
     m_transactionAddresses := m_transactionAddresses b; m_blockHashes := m_blockHashes b; m_blocksBlooms :=
     m_blocksBlooms b; m_cacheUsage := m_cacheUsage b; m_inUse := m_inUse b; m_lastHashes := m_lastHashes b;
     m_blocksDB := m_blocksDB b; m_extrasDB := m_extrasDB b; m_lastBlockHash := m_lastBlockHash b; m_lastBlockNumber
     := m_lastBlockNumber b; m_vapash := m_vapash b |}.
Definition set_transactionAddresses (v : gmap bytes TransactionAddress) (b : BlockChain) : BlockChain :=
  {| m_blocks := m_blocks b; m_details := m_details b; m_logBlooms := m_logBlooms b; m_receipts := m_receipts b;
     m_transactionAddresses := v; m_blockHashes := m_blockHashes b; m_blocksBlooms := m_blocksBlooms b; m_cacheUsage
     := m_cacheUsage b; m_inUse := m_inUse b; m_lastHashes := m_lastHashes b; m_blocksDB := m_blocksDB b; m_extrasDB
     := m_extrasDB b; m_lastBlockHash := m_lastBlockHash b; m_lastBlockNumber := m_lastBlockNumber b; m_vapash :=
     m_vapash b |}.
Definition set_blockHashes (v : gmap Z bytes) (b : BlockChain) : BlockChain :=
  {| m_blocks := m_blocks b; m_details := m_details b; m_logBlooms := m_logBlooms b; m_receipts := m_receipts b;
     m_transactionAddresses := m_transactionAddresses b; m_blockHashes := v; m_blocksBlooms := m_blocksBlooms b;
     m_cacheUsage := m_cacheUsage b; m_inUse := m_inUse b; m_lastHashes := m_lastHashes b; m_blocksDB := m_blocksDB b;
     m_extrasDB := m_extrasDB b; m_lastBlockHash := m_lastBlockHash b; m_lastBlockNumber := m_lastBlockNumber b;
     m_vapash := m_vapash b |}.
Definition set_blocksBlooms (v : gmap bytes (list LogBloom)) (b : BlockChain) : BlockChain :=
  {| m_blocks := m_blocks b; m_details := m_details b; m_logBlooms := m_logBlooms b; m_receipts := m_receipts b;
     m_transactionAddresses := m_transactionAddresses b; m_blockHashes := m_blockHashes b; m_blocksBlooms := v;
     m_cacheUsage := m_cacheUsage b; m_inUse := m_inUse b; m_lastHashes := m_lastHashes b; m_blocksDB := m_blocksDB b;
     m_extrasDB := m_extrasDB b; m_lastBlockHash := m_lastBlockHash b; m_lastBlockNumber := m_lastBlockNumber b;
     m_vapash := m_vapash b |}.
Definition set_cacheUsage (v : list (gset (bytes * Z))) (b : BlockChain) : BlockChain :=
  {| m_blocks := m_blocks b; m_details := m_details b; m_logBlooms := m_logBlooms b; m_receipts := m_receipts b;
     m_transactionAddresses := m_transactionAddresses b; m_blockHashes := m_blockHashes b; m_blocksBlooms :=
     m_blocksBlooms b; m_cacheUsage := v; m_inUse := m_inUse b; m_lastHashes := m_lastHashes b; m_blocksDB :=
     m_blocksDB b; m_extrasDB := m_extrasDB b; m_lastBlockHash := m_lastBlockHash b; m_lastBlockNumber :=
     m_lastBlockNumber b; m_vapash := m_vapash b |}.
Definition set_inUse (v : gset (bytes * Z)) (b : BlockChain) : BlockChain :=
  {| m_blocks := m_blocks b; m_details := m_details b; m_logBlooms := m_logBlooms b; m_receipts := m_receipts b;
     m_transactionAddresses := m_transactionAddresses b; m_blockHashes := m_blockHashes b; m_blocksBlooms :=
     m_blocksBlooms b; m_cacheUsage := m_cacheUsage b; m_inUse := v; m_lastHashes := m_lastHashes b; m_blocksDB :=
     m_blocksDB b; m_extrasDB := m_extrasDB b; m_lastBlockHash := m_lastBlockHash b; m_lastBlockNumber :=
     m_lastBlockNumber b; m_vapash := m_vapash b |}.
Definition set_lastHashes (v : list bytes) (b : BlockChain) : BlockChain :=
  {| m_blocks := m_blocks b; m_details := m_details b; m_logBlooms := m_logBlooms b; m_receipts := m_receipts b;
     m_transactionAddresses := m_transactionAddresses b; m_blockHashes := m_blockHashes b; m_blocksBlooms :=
     m_blocksBlooms b; m_cacheUsage := m_cacheUsage b; m_inUse := m_inUse b; m_lastHashes := v; m_blocksDB :=
     m_blocksDB b; m_extrasDB := m_extrasDB b; m_lastBlockHash := m_lastBlockHash b; m_lastBlockNumber :=
     m_lastBlockNumber b; m_vapash := m_vapash b |}.
Definition set_blocksDB (v : L) (b : BlockChain) : BlockChain :=
  {| m_blocks := m_blocks b; m_details := m_details b; m_logBlooms := m_logBlooms b; m_receipts := m_receipts b;
     m_transactionAddresses := m_transactionAddresses b; m_blockHashes := m_blockHashes b; m_blocksBlooms :=
     m_blocksBlooms b; m_cacheUsage := m_cacheUsage b; m_inUse := m_inUse b; m_lastHashes := m_lastHashes b;
     m_blocksDB := v; m_extrasDB := m_extrasDB b; m_lastBlockHash := m_lastBlockHash b; m_lastBlockNumber :=
     m_lastBlockNumber b; m_vapash := m_vapash b |}.
Definition set_extrasDB (v : L) (b : BlockChain) : BlockChain :=
  {| m_blocks := m_blocks b; m_details := m_details b; m_logBlooms := m_logBlooms b; m_receipts := m_receipts b;
     m_transactionAddresses := m_transactionAddresses b; m_blockHashes := m_blockHashes b; m_blocksBlooms :=
     m_blocksBlooms b; m_cacheUsage := m_cacheUsage b; m_inUse := m_inUse b; m_lastHashes := m_lastHashes b;
     m_blocksDB := m_blocksDB b; m_extrasDB := v; m_lastBlockHash := m_lastBlockHash b; m_lastBlockNumber :=
     m_lastBlockNumber b; m_vapash := m_vapash b |}.
Definition set_lastBlockHash (v : bytes) (b : BlockChain) : BlockChain :=
  {| m_blocks := m_blocks b; m_details := m_details b; m_logBlooms := m_logBlooms b; m_receipts := m_receipts b;
     m_transactionAddresses := m_transactionAddresses b; m_blockHashes := m_blockHashes b; m_blocksBlooms :=
     m_blocksBlooms b; m_cacheUsage := m_cacheUsage b; m_inUse := m_inUse b; m_lastHashes := m_lastHashes b;
     m_blocksDB := m_blocksDB b; m_extrasDB := m_extrasDB b; m_lastBlockHash := v; m_lastBlockNumber :=
     m_lastBlockNumber b; m_vapash := m_vapash b |}.
Definition set_lastBlockNumber (v : Z) (b : BlockChain) : BlockChain :=
  {| m_blocks := m_blocks b; m_details := m_details b; m_logBlooms := m_logBlooms b; m_receipts := m_receipts b;
     m_transactionAddresses := m_transactionAddresses b; m_blockHashes := m_blockHashes b; m_blocksBlooms :=
     m_blocksBlooms b; m_cacheUsage := m_cacheUsage b; m_inUse := m_inUse b; m_lastHashes := m_lastHashes b;
     m_blocksDB := m_blocksDB b; m_extrasDB := m_extrasDB b; m_lastBlockHash := m_lastBlockHash b; m_lastBlockNumber
     := v; m_vapash := m_vapash b |}.
Definition set_vapash (v : VapashAux) (b : BlockChain) : BlockChain :=
  {| m_blocks := m_blocks b; m_details := m_details b; m_logBlooms := m_logBlooms b; m_receipts := m_receipts b;
     m_transactionAddresses := m_transactionAddresses b; m_blockHashes := m_blockHashes b; m_blocksBlooms :=
     m_blocksBlooms b; m_cacheUsage := m_cacheUsage b; m_inUse := m_inUse b; m_lastHashes := m_lastHashes b;
     m_blocksDB := m_blocksDB b; m_extrasDB := m_extrasDB b; m_lastBlockHash := m_lastBlockHash b; m_lastBlockNumber
     := m_lastBlockNumber b; m_vapash := v |}.

Abbreviation BM A := (M BlockChain bc_exn A).
Definition rlp {A} (r : result exn A) : BM A := mlift (match r with Ok a => Ok a | Err e => Err (RlpExn e) end).
Definition hdr {A} (r : result hdr_exn A) : BM A := mlift (match r with Ok a => Ok a | Err e => Err (HeaderExn e) end).
Definition str {A} (r : result stream_exn A) : BM A := mlift (match r with Ok a => Ok a | Err e => Err (StreamExn e) end).
Definition tri {A} (r : result TrieDB.trie_exn A) : BM A := mlift (match r with Ok a => Ok a | Err e => Err (TrieExn e) end).

(** [_h.hash()]. *)
Definition hash_of (_h : BlockHeader) : BM bytes := hdr (fst (BlockHeader.hash WithSeal _h)).

(** *** Queries *)

Definition noteUsed (_h : bytes) (_extra : Z) : BM unit := mput (fun b =>
  let id := (_h, _extra) in
  let u := alter (fun s => {[id]} ∪ s) 0%nat (m_cacheUsage b) in
  if bool_decide (id ∈ default ∅ (u !! 1%nat)) then set_cacheUsage (alter (fun s => s ∖ {[id]}) 1%nat u) b
  else set_inUse ({[id]} ∪ m_inUse b) (set_cacheUsage u b)).

Definition queryExtras {K T : Type} `{Countable K} (cache : BlockChain -> gmap K T) (store : gmap K T -> BlockChain -> BlockChain)
    (slice : K -> bytes) (note : K -> BM unit) (read : bytes -> result exn T) (_n : T) (_h : K) : BM T :=
  do! m := mget cache in
  match m !! _h with
  | Some v => mret v
  | None =>
      do! s := mget (fun b => Get (m_extrasDB b) (slice _h)) in
      match s with
      | [] => mret _n
      | _ =>
          exec! note _h in
          do! v := rlp (read s) in
          exec! mput (fun b => store (<[_h := v]> (cache b)) b) in
          mret v
      end
  end.
Definition query {T : Type} (cache : BlockChain -> gmap bytes T) (store : gmap bytes T -> BlockChain -> BlockChain)
    (N : Z) (read : bytes -> result exn T) (_n : T) (_h : bytes) : BM T :=
  queryExtras cache store (fun h => toSlice h N) (fun h => noteUsed h N) read _n _h.

Definition details : bytes -> BM BlockDetails := query m_details set_details ExtraDetails read_details NullBlockDetails.
Definition logBlooms : bytes -> BM (list LogBloom) := query m_logBlooms set_logBlooms ExtraLogBlooms read_logBlooms [].
Definition receipts : bytes -> BM (list TransactionReceipt) := query m_receipts set_receipts ExtraReceipts read_receipts [].
Definition transactionAddress : bytes -> BM TransactionAddress :=
  query m_transactionAddresses set_transactionAddresses ExtraTransactionAddress read_address NullTransactionAddress.
Definition blocksBlooms : bytes -> BM (list LogBloom) :=
  query m_blocksBlooms set_blocksBlooms ExtraBlocksBlooms read_blocksBlooms NullBlocksBlooms.
Definition numberHash (_i : Z) : BM bytes :=
  if _i =? 0 then mret (m_genesisHash G) else
  queryExtras m_blockHashes set_blockHashes (fun n => toSlice_n n ExtraBlockHash) (fun _ => mret tt) read_hash (FixedHash.zero 32) _i.

Definition currentHash : BM bytes := mget m_lastBlockHash.
Definition number_of (_hash : bytes) : BM Z := do! d := details _hash in mret (number d).

Definition isKnown (_hash : bytes) (_isCurrent : bool) : BM bool :=
  if bool_decide (_hash = m_genesisHash G) then mret true else
  do! b := mget (fun b => b) in
  if match m_blocks b !! _hash with Some _ => false | None => bool_decide (Get (m_blocksDB b) (toSlice _hash 0) = []) end then mret false else
  if match m_details b !! _hash with Some _ => false | None => bool_decide (Get (m_extrasDB b) (toSlice _hash ExtraDetails) = []) end
  then mret false else
  if negb _isCurrent then mret true else
  do! d := details _hash in mret (number d <=? m_lastBlockNumber b).

Definition block (_hash : bytes) : BM bytes :=
  if bool_decide (_hash = m_genesisHash G) then mret (genesisBlock params) else
  do! b := mget (fun b => b) in
  match m_blocks b !! _hash with
  | Some d => mret d
  | None =>
      match Get (m_blocksDB b) (toSlice _hash 0) with
      | [] => mret []
      | d =>
          exec! noteUsed _hash block_id in
          exec! mput (fun b => set_blocks (<[_hash := d]> (m_blocks b)) b) in
          mret d
      end
  end.
Definition headerData (_hash : bytes) : BM bytes :=
  if bool_decide (_hash = m_genesisHash G) then mret (m_genesisHeaderBytes G) else
  do! d := block _hash in
  match d with [] => mret [] | _ => hdr (extractHeader d) end.
Definition info (_hash : bytes) : BM BlockHeader :=
  do! d := headerData _hash in hdr (make_header d HeaderData (FixedHash.zero 32)).

(** The items of [RLP(_b)[_i]]. *)
Definition items_of_block (_b : bytes) (_i : Z) : BM (list bytes) :=
  do! r := rlp (make _b VeryStrict) in
  do! x := rlp (nth r _i) in
  rlp (for_each (List.length x) x (fun i => Ok i)).

Definition transactionHashes (_hash : bytes) : BM (list bytes) :=
  do! b := block _hash in do! l := items_of_block b 1 in mret (map sha3 l).
Definition uncleHashes (_hash : bytes) : BM (list bytes) :=
  do! b := block _hash in do! l := items_of_block b 2 in mret (map sha3 l).
Definition transactions (_blockHash : bytes) : BM (list bytes) := do! b := block _blockHash in items_of_block b 1.
Definition transaction_at (_blockHash : bytes) (_i : Z) : BM bytes :=
  do! b := block _blockHash in
  do! r := rlp (make b VeryStrict) in
  do! x := rlp (nth r 1) in
  rlp (nth x _i).
Definition isKnownTransaction (_transactionHash : bytes) : BM bool :=
  do! ta := transactionAddress _transactionHash in mret (FixedHash.to_bool (blockHash ta)).
Definition transaction (_transactionHash : bytes) : BM bytes :=
  do! ta := transactionAddress _transactionHash in
  if negb (FixedHash.to_bool (blockHash ta)) then mret [] else transaction_at (blockHash ta) (index ta).
Definition transactionLocation (_transactionHash : bytes) : BM (bytes * Z) :=
  do! ta := transactionAddress _transactionHash in
  if negb (FixedHash.to_bool (blockHash ta)) then mret (FixedHash.zero 32, 0) else mret (blockHash ta, index ta).
Definition transactionReceipt_at (_blockHash : bytes) (_i : Z) : BM TransactionReceipt :=
  do! l := receipts _blockHash in
  match l !! Z.to_nat _i with Some r => mret r | None => mthrow Undefined end.

Fixpoint allKin_loop (n : nat) (p : bytes) (ret : gset bytes) : BM (gset bytes) :=
  match n with
  | O => mret ret
  | S n' =>
      if bool_decide (p = m_genesisHash G) then mret ret else
      do! d := details p in
      do! us := uncleHashes p in
      do! d' := details p in
      allKin_loop n' (parent d') (list_to_set us ∪ ({[parent d]} ∪ ret))
  end.
Definition allKinFrom (_parent : bytes) (_generations : Z) : BM (gset bytes) :=
  allKin_loop (Z.to_nat _generations) _parent {[_parent]}.

(** [LastBlockHashes::precedingHashes]; an exception leaves the vector as far as it was
    filled. *)
Fixpoint hashes_loop (n i : nat) : BM unit :=
  match n with
  | O => mret tt
  | S n' =>
      do! h := mget (fun b => default (FixedHash.zero 32) (m_lastHashes b !! i)) in
      do! p := (if FixedHash.to_bool h then do! bi := info h in mret (m_parentHash bi) else mret (FixedHash.zero 32)) in
      exec! mput (fun b => set_lastHashes (<[S i := p]> (m_lastHashes b)) b) in
      hashes_loop n' (S i)
  end.
Definition precedingHashes (_mostRecentHash : bytes) : BM (list bytes) :=
  do! l := mget m_lastHashes in
  exec! (if match l with [] => true | h :: _ => negb (bool_decide (h = _mostRecentHash)) end then
           exec! mput (set_lastHashes (<[0%nat := _mostRecentHash]> (resize 256 (FixedHash.zero 32) l))) in
           hashes_loop 255 0
         else mret tt) in
  mget m_lastHashes.
Definition noteCanonChanged : BM unit := mput (set_lastHashes []).

(** *** Routes *)

(** [while (n > ...) { if (keep) ret.push_back(from); from = details(from).parent; }],
    [k] times. *)
Fixpoint climb (k : nat) (keep : bool) (from : bytes) (ret : list bytes) : BM (bytes * list bytes) :=
  match k with
  | O => mret (from, ret)
  | S k' =>
      let ret := if keep then ret ++ [from] else ret in
      do! d := details from in
      climb k' keep (parent d) ret
  end.
Fixpoint meet (fuel : nat) (_common _pre _post : bool) (from to : bytes) (ret back : list bytes) : BM (bytes * list bytes * list bytes) :=
  let ne := negb (bool_decide (from = to)) in
  let ret := if _pre && (ne || _common) then ret ++ [from] else ret in
  let back := if _post && (ne || (negb _pre && _common)) then back ++ [to] else back in
  if negb ne then mret (from, ret, back) else
  if negb (FixedHash.to_bool from) || negb (FixedHash.to_bool to) then mthrow AssertFailed else
  match fuel with
  | O => mthrow NoFuel
  | S f =>
      do! df := details from in
      do! dt := details to in
      meet f _common _pre _post (parent df) (parent dt) ret back
  end.
Definition treeRoute (_from _to : bytes) (_common _pre _post : bool) : BM (list bytes * bytes * Z) :=
  let h256 := FixedHash.zero 32 in
  if negb (FixedHash.to_bool _from) || negb (FixedHash.to_bool _to) then mret ([], h256, 0) else
  do! fromDetails := details _from in
  do! toDetails := details _to in
  if isNull fromDetails || isNull toDetails then mret ([], h256, 0) else
  let fn := number fromDetails in
  let tn := number toDetails in
  do! (from, ret) := climb (Z.to_nat (fn - tn)) _pre _from [] in
  do! (to, back) := climb (Z.to_nat (tn - fn)) _post _to [] in
  do! (r, back) := meet (Z.to_nat fn) _common _pre _post from to ret back in
  let '(common, ret) := r in
  let i := wrap 32 (zlen ret - if _common && negb (bool_decide (ret = [])) && negb (bool_decide (back = [])) then 1 else 0) in
  mret (ret ++ rev back, common, i).

(** *** Blooms *)

Definition chunkId (_level _index : Z) : bytes := FixedHash.of_arith 32 (wrap 32 (_index * 0xff + _level)).
Definition blockBloom (_number : Z) : BM LogBloom :=
  do! b := blocksBlooms (chunkId 0 (_number / c_bloomIndexSize)) in
  mret (default empty_bloom (b !! Z.to_nat (_number mod c_bloomIndexSize))).
(** [m_blocksBlooms[id].blooms[o]], changed by [f]. *)
Definition in_memo (id : bytes) (o : Z) (f : LogBloom -> LogBloom) : BM unit := mput (fun b =>
  set_blocksBlooms (<[id := alter f (Z.to_nat o) (default NullBlocksBlooms (m_blocksBlooms b !! id))]> (m_blocksBlooms b)) b).

Definition clear_item (level item : Z) : BM unit :=
  let bunch := item / c_bloomIndexSize in
  let offset := item mod c_bloomIndexSize in
  let id := chunkId level bunch in
  do! acc := (if negb (level =? 0) then
                do! bb := blocksBlooms (chunkId (level - 1) item) in
                mret (fold_left FixedHash.or_eq bb empty_bloom)
              else mret empty_bloom) in
  exec! blocksBlooms id in
  in_memo id offset (fun _ => acc).
Fixpoint clear_items (n : nat) (level item : Z) : BM unit :=
  match n with
  | O => mret tt
  | S n' => exec! clear_item level item in clear_items n' level (wrap 32 (item + 1))
  end.
Fixpoint clear_levels (n : nat) (level beginDirty endDirty : Z) : BM unit :=
  match n with
  | O => mret tt
  | S n' =>
      exec! clear_items (Z.to_nat (wrap 32 (endDirty - beginDirty))) level beginDirty in
      clear_levels n' (level + 1) (beginDirty / c_bloomIndexSize) (wrap 32 (wrap 32 (endDirty - 1) / c_bloomIndexSize + 1))
  end.
Definition clearBlockBlooms (_begin _end : Z) : BM unit := clear_levels (Z.to_nat c_bloomIndexLevels) 0 _begin _end.

Definition clearCachesDuringChainReversion (_firstInvalid : Z) : BM unit :=
  do! n := mget m_lastBlockNumber in
  let end_ := wrap 32 (n + 1) in
  exec! mput (fun b => set_blockHashes (filter (fun e => ~ (_firstInvalid <= e.1 < end_)) (m_blockHashes b)) b) in
  exec! mput (set_transactionAddresses ∅) in
  clearBlockBlooms _firstInvalid end_.

(** [upow], [ceilDiv]. *)
Fixpoint upow_loop (n : nat) (a : Z) : Z := match n with O => a | S n' => upow_loop n' (wrap 32 (a * a)) end.
Definition upow (a b : Z) : Z := if b =? 0 then 1 else upow_loop (Z.to_nat (b - 1)) a.
Definition ceilDiv (n d : Z) : Z := wrap 32 (wrap 32 (n + d) - 1) / d.

(** [withBlockBloom(_b, _earliest, _latest, _level, _index)], for [_level] a natural
    number; the loop from [o] on, [n] times. *)
Section Search.
Variables (_b : LogBloom) (_earliest _latest : Z).
Fixpoint search_loop (rec : Z -> BM (list Z)) (n : nat) (o _index : Z) (bb : list LogBloom) : BM (list Z) :=
  match n with
  | O => mret []
  | S n' =>
      do! r := (if FixedHash.contains (default empty_bloom (bb !! Z.to_nat o)) _b
                then rec (wrap 32 (o + wrap 32 (_index * c_bloomIndexSize))) else mret []) in
      do! rs := search_loop rec n' (o + 1) _index bb in
      mret (r ++ rs)
  end.
Fixpoint withBlockBloom_at (_level : nat) (_index : Z) : BM (list Z) :=
  let uCourse := upow c_bloomIndexSize (Z.of_nat _level + 1) in
  let uFine := upow c_bloomIndexSize (Z.of_nat _level) in
  let obegin := if _index =? _earliest / uCourse then (_earliest / uFine) mod c_bloomIndexSize else 0 in
  let oend := if _index =? _latest / uCourse then (_latest / uFine) mod c_bloomIndexSize + 1 else c_bloomIndexSize in
  do! bb := blocksBlooms (chunkId (Z.of_nat _level) _index) in
  search_loop (match _level with O => fun n => mret [n] | S l => withBlockBloom_at l end) (Z.to_nat (oend - obegin)) obegin _index bb.
Fixpoint top_loop (n : nat) (index : Z) : BM (list Z) :=
  match n with
  | O => mret []
  | S n' =>
      do! r := withBlockBloom_at (Z.to_nat (c_bloomIndexLevels - 1)) index in
      do! rs := top_loop n' (index + 1) in
      mret (r ++ rs)
  end.
Definition withBlockBloom : BM (list Z) :=
  let u := upow c_bloomIndexSize c_bloomIndexLevels in
  top_loop (Z.to_nat (ceilDiv _latest u + 1 - _earliest / u)) (_earliest / u).
End Search.

(** *** Verifying a block *)

Definition ValidSeal : Z := 1.
Definition UncleBasic : Z := 4.
Definition UncleSeals : Z := 16.
Definition Parent : Z := 64.
Definition UncleParent : Z := 128.
Definition PostGenesis : Z := 256.
Definition CheckTransactions : Z := Z.lor SealEngine.TransactionBasic SealEngine.TransactionSignatures.
Definition OutOfOrderChecks : Z := Z.lor ValidSeal (Z.lor (Z.lor UncleBasic UncleSeals) CheckTransactions).
Definition InOrderChecks : Z := Z.lor Parent UncleParent.

Definition seal_verify (_s : BlockHeader.Strictness) (_bi _parent : BlockHeader) (_block : bytes) : BM unit := fun b =>
  let '(r, a) := SealEngine.engine_verify (operation params) allocated _s _bi _parent _block (m_vapash b) in
  (match r with Ok _ => Ok tt | Err e => Err (SealExn e) end, set_vapash a b).

(** The header of the parent, when it is asked for. *)
Definition parent_header (wanted : bool) (h : BlockHeader) (missing : bc_exn) : BM BlockHeader :=
  if wanted then
    do! parentHeader := headerData (m_parentHash h) in
    match parentHeader with
    | [] => mthrow missing
    | _ => hdr (make_header parentHeader HeaderData (m_parentHash h))
    end
  else mret BlockHeader.empty_header.

Fixpoint verify_uncles (_ir : Z) (l : list bytes) : BM unit :=
  match l with
  | [] => mret tt
  | u :: l' =>
      do! uh := hdr (make_header u HeaderData (FixedHash.zero 32)) in
      do! p := parent_header (SealEngine.requires _ir UncleParent) uh InvalidUncleParentHash in
      exec! seal_verify (if SealEngine.requires _ir UncleSeals then CheckEverything else IgnoreSeal) uh p [] in
      verify_uncles _ir l'
  end.
Fixpoint verify_transactions (_ir : Z) (h : BlockHeader) (l : list bytes) : BM (list Transaction.TransactionBase) :=
  match l with
  | [] => mret []
  | d :: l' =>
      do! t := mlift (match Transaction.parse d (if SealEngine.requires _ir SealEngine.TransactionSignatures then Transaction.Everything
                                                   else Transaction.CheckNone) with Ok t => Ok t | Err e => Err (TxExn e) end) in
      exec! mlift (match SealEngine.verifyTransaction (operation params) _ir t h 0 with Ok _ => Ok tt | Err e => Err (SealExn e) end) in
      do! ts := verify_transactions _ir h l' in
      mret (t :: ts)
  end.

Definition verifyBlock (_block : bytes) (_ir : Z) : BM VerifiedBlockRef :=
  do! h := hdr (make_header _block BlockData (FixedHash.zero 32)) in
  if SealEngine.requires _ir PostGenesis && (negb (FixedHash.to_bool (m_parentHash h)) || (m_number h =? 0))
  then mthrow InvalidParentHash else
  do! p := parent_header (SealEngine.requires _ir Parent) h InvalidParentHash in
  exec! seal_verify (if SealEngine.requires _ir ValidSeal then CheckEverything else QuickNonce) h p _block in
  exec! (if SealEngine.requires _ir (Z.lor UncleBasic (Z.lor UncleParent UncleSeals)) then
           do! l := items_of_block _block 2 in verify_uncles _ir l
         else mret tt) in
  do! ts := (if SealEngine.requires _ir CheckTransactions then
               do! l := items_of_block _block 1 in verify_transactions _ir h l
             else mret []) in
  mret {| vb_block := _block; vb_info := h; vb_transactions := ts |}.

Definition checkBlockIsNew (_block : VerifiedBlockRef) : BM unit :=
  do! h := hash_of (vb_info _block) in
  do! k := isKnown h true in
  if k then mthrow AlreadyHaveBlock else mret tt.
Definition checkBlockTimestamp (_header : BlockHeader) : BM unit :=
  if (m_timestamp _header >? utcTime) && negb (allowFutureBlocks params) then mthrow FutureTime else mret tt.

(** *** Inserting *)

(** [m_details[_h]], changed by [f]. *)
Definition in_details (_h : bytes) (f : BlockDetails -> BlockDetails) : BM unit := mput (fun b =>
  set_details (<[_h := f (default NullBlockDetails (m_details b !! _h))]> (m_details b)) b).
Definition cached_details (_h : bytes) (b : BlockChain) : BlockDetails := default NullBlockDetails (m_details b !! _h).

Definition write_blocks (batch : list (bytes * bytes)) : BM unit := fun b =>
  let '(ok, l) := Write (m_blocksDB b) batch in
  (if ok then Ok tt else Err Exit, set_blocksDB l b).
Definition write_extras (batch : list (bytes * bytes)) : BM unit := fun b =>
  let '(ok, l) := Write (m_extrasDB b) batch in
  (if ok then Ok tt else Err Exit, set_extrasDB l b).

(** The blooms of the levels from [level] on: loading them, and adding to them. *)
Fixpoint memoize (n : nat) (level index : Z) : BM unit :=
  match n with
  | O => mret tt
  | S n' =>
      exec! blocksBlooms (chunkId level (index / c_bloomIndexSize)) in
      memoize n' (level + 1) (index / c_bloomIndexSize)
  end.
Fixpoint alter_blooms (n : nat) (level index : Z) (blockBloom : LogBloom) : BM (list bytes) :=
  match n with
  | O => mret []
  | S n' =>
      let id := chunkId level (index / c_bloomIndexSize) in
      exec! in_memo id (index mod c_bloomIndexSize) (fun x => FixedHash.or_eq x blockBloom) in
      do! l := alter_blooms n' (level + 1) (index / c_bloomIndexSize) blockBloom in
      mret (id :: l)
  end.
(** The addresses of the transactions of [txs], from the index [i] on. *)
Fixpoint address_loop (n : nat) (txs : bytes) (i : Z) (hash : bytes) : BM (list (bytes * bytes)) :=
  match n with
  | O => mret []
  | S n' =>
      do! d := rlp (nth txs i) in
      do! a := str (address_rlp {| blockHash := hash; index := i |}) in
      do! l := address_loop n' txs (wrap 32 (i + 1)) hash in
      mret ((toSlice (sha3 d) ExtraTransactionAddress, a) :: l)
  end.
Fixpoint blooms_loop (l : list bytes) : BM (list (bytes * bytes)) :=
  match l with
  | [] => mret []
  | h :: l' =>
      do! b := mget (fun b => default NullBlocksBlooms (m_blocksBlooms b !! h)) in
      do! s := str (blooms_rlp b) in
      do! r := blooms_loop l' in
      mret ((toSlice h ExtraBlocksBlooms, s) :: r)
  end.

(** What the loop of [insertBlockAndExtras] does for the hash [i] of the route, [h]
    being the hash of the new block: what it adds to the batch. *)
Definition collate (_block : VerifiedBlockRef) (h i : bytes) : BM (list (bytes * bytes)) :=
  let is_new := bool_decide (i = h) in
  do! tbi := (if is_new then mret (vb_info _block)
              else do! b := block i in hdr (make_header b BlockData (FixedHash.zero 32))) in
  let blockBloom := shiftBloom 3 (m_logBloom tbi) (sha3 (m_author tbi)) in
  let index := wrap 32 (m_number tbi) in
  exec! memoize (Z.to_nat c_bloomIndexLevels) 0 index in
  do! alteredBlooms := alter_blooms (Z.to_nat c_bloomIndexLevels) 0 index blockBloom in
  do! blockBytes := (if is_new then mret (vb_block _block) else block i) in
  do! blockRLP := rlp (make blockBytes VeryStrict) in
  do! hash := hash_of tbi in
  do! txs := rlp (nth blockRLP 1) in
  do! n := rlp (itemCount txs) in
  do! addresses := address_loop (Z.to_nat n) txs 0 hash in
  do! blooms := blooms_loop alteredBlooms in
  do! bh := str (hash_rlp hash) in
  mret (addresses ++ blooms ++ [(toSlice (FixedHash.of_arith 32 (m_number tbi)) ExtraBlockHash, bh)]).
(** The route backwards, until [common]. *)
Fixpoint collate_loop (_block : VerifiedBlockRef) (h common : bytes) (l : list bytes) : BM (list (bytes * bytes)) :=
  match l with
  | [] => mret []
  | i :: l' =>
      if bool_decide (i = common) then mret [] else
      do! a := collate _block h i in
      do! r := collate_loop _block h common l' in
      mret (a ++ r)
  end.

(** The blocks of a route before and after [common]. *)
Fixpoint split_route (common : bytes) (isOld : bool) (route : list bytes) : list bytes * list bytes :=
  match route with
  | [] => ([], [])
  | h :: route' =>
      if bool_decide (h = common) then split_route common false route'
      else let '(dead, fresh) := split_route common isOld route' in
           if isOld then (h :: dead, fresh) else (dead, h :: fresh)
  end.

(** Whether the new block becomes the head. *)
Definition is_best (_block : VerifiedBlockRef) (_totalDifficulty : Z) (last : bytes) : BM bool :=
  do! d := details last in
  if _totalDifficulty >? totalDifficulty d then mret true
  else if tieBreakingGas params && (_totalDifficulty =? totalDifficulty d) then
    do! i := info last in mret (m_gasUsed (vb_info _block) >? m_gasUsed i)
  else mret false.

Definition reroute (_block : VerifiedBlockRef) (h last : bytes) : BM (list bytes * bytes * list (bytes * bytes)) :=
  do! (r, _) := treeRoute last (m_parentHash (vb_info _block)) true true true in
  let '(route, common) := r in
  let route := route ++ [h] in
  exec! (if negb (bool_decide (common = last)) then
           do! n := number_of common in clearCachesDuringChainReversion (wrap 32 (n + 1))
         else mret tt) in
  do! batch := collate_loop _block h common (rev route) in
  mret (route, common, batch).

Definition insertBlockAndExtras (_block : VerifiedBlockRef) (_receipts : bytes) (_totalDifficulty : Z) : BM ImportRoute :=
  let bi := vb_info _block in
  let p := m_parentHash bi in
  exec! details p in
  do! h := hash_of bi in
  exec! in_details p (add_child h) in
  do! pd := mget (cached_details p) in
  do! pd_rlp := str (details_rlp pd) in
  do! d_rlp := str (details_rlp {| number := wrap 32 (m_number bi); totalDifficulty := _totalDifficulty; parent := p; children := [] |}) in
  do! rs := rlp (read_receipts _receipts) in
  do! blb := str (blooms_rlp (map m_bloom rs)) in
  let extras := [(toSlice p ExtraDetails, pd_rlp); (toSlice h ExtraDetails, d_rlp); (toSlice h ExtraLogBlooms, blb);
                 (toSlice h ExtraReceipts, _receipts)] in
  do! last := currentHash in
  do! best_ := is_best _block _totalDifficulty last in
  do! (r, batch) := (if best_ then reroute _block h last else mret ([], FixedHash.zero 32, [])) in
  let '(route, common) := r in
  exec! write_blocks [(toSlice h 0, vb_block _block)] in
  exec! write_extras (extras ++ batch) in
  exec! (if best_ && negb (bool_decide (last = h)) then
           exec! mput (fun b => set_lastBlockNumber (wrap 32 (m_number bi)) (set_lastBlockHash h b)) in
           write_extras [(best, h)]
         else mret tt) in
  exec! (match route with [] => mret tt | _ => noteCanonChanged end) in
  let '(dead, fresh) := split_route common true route in
  mret {| deadBlocks := dead; liveBlocks := fresh; goodTranactions := vb_transactions _block |}.

Definition insertWithoutParent (_block _receipts : bytes) (_totalDifficulty : Z) : BM ImportRoute :=
  do! block := verifyBlock _block OutOfOrderChecks in
  exec! checkBlockIsNew block in
  exec! checkBlockTimestamp (vb_info block) in
  insertBlockAndExtras block _receipts _totalDifficulty.

(** [insert(VerifiedBlockRef, _receipts, _mustBeNew)]: a block with its receipts, without
    executing it; the head stays. *)
Definition insert_verified (_block : VerifiedBlockRef) (_receipts : bytes) (_mustBeNew : bool) : BM unit :=
  exec! (if _mustBeNew then checkBlockIsNew _block else mret tt) in
  let bi := vb_info _block in
  let p := m_parentHash bi in
  do! k := isKnown p false in
  if negb k then mthrow UnknownParent else
  do! r := rlp (make _receipts VeryStrict) in
  do! rs := rlp (for_each (List.length r) r (fun i => Ok i)) in
  do! receiptsRoot := tri (TrieHash.orderedTrieRoot rs) in
  if negb (bool_decide (m_receiptsRoot bi = receiptsRoot)) then mthrow InvalidReceiptsStateRoot else
  do! pd := details p in
  if isNull pd then mthrow Exit else
  exec! checkBlockTimestamp bi in
  exec! verifyBlock (vb_block _block) InOrderChecks in
  do! rs := rlp (read_receipts _receipts) in
  exec! details p in
  do! h := hash_of bi in
  exec! in_details p (fun d => if bool_decide (h ∈ children d) then d else add_child h d) in
  do! d := mget (cached_details p) in
  do! p_rlp := str (details_rlp d) in
  do! d_rlp := str (details_rlp {| number := wrap 32 (number pd + 1); totalDifficulty := wrap 256 (totalDifficulty pd + m_difficulty bi);
                                   parent := p; children := [] |}) in
  do! blb := str (blooms_rlp (map m_bloom rs)) in
  exec! write_blocks [(toSlice h 0, vb_block _block)] in
  write_extras [(toSlice p ExtraDetails, p_rlp); (toSlice h ExtraDetails, d_rlp); (toSlice h ExtraLogBlooms, blb);
                (toSlice h ExtraReceipts, _receipts)].
Definition insert (_block _receipts : bytes) (_mustBeNew : bool) : BM unit :=
  do! block := verifyBlock _block OutOfOrderChecks in
  insert_verified block _receipts _mustBeNew.

(** *** Maintenance *)

Definition rewind (_newHead : Z) : BM unit :=
  do! n := mget m_lastBlockNumber in
  if n <=? _newHead then mret tt else
  exec! clearCachesDuringChainReversion (wrap 32 (_newHead + 1)) in
  do! h := numberHash _newHead in
  exec! mput (fun b => set_lastBlockNumber _newHead (set_lastBlockHash h b)) in
  exec! write_extras [(best, h)] in
  noteCanonChanged.

(** Finding the last block that is likely to be known, and then one whose state is
    there; [exists_] is [_db.exists]. *)
Definition guess (u : Z) : BM bool := do! h := numberHash u in isKnown h true.
Fixpoint rescue_up (fuel : nat) (u : Z) : BM Z :=
  fun b => match guess u b with
           | (Ok true, b') => match fuel with O => (Err NoFuel, b') | S f => rescue_up f (wrap 32 (u * 2)) b' end
           | (_, b') => (Ok u, b')
           end.
Fixpoint rescue_bisect (fuel : nat) (l u : Z) : BM Z :=
  if u - l >? 1 then
    match fuel with
    | O => mthrow NoFuel
    | S f =>
        let m := (u + l) / 2 in
        do! k := guess m in
        if k then rescue_bisect f m u else rescue_bisect f l m
    end
  else mret l.
Section Rescue.
Variable exists_ : bytes -> bool.
Definition rescue_check (l : Z) : BM bool := fun b =>
  match (do! h := numberHash l in mret h) b with
  | (Err e, b') => (Err e, b')
  | (Ok h, b') =>
      match (do! d := block h in
             do! bi := hdr (make_header d BlockData (FixedHash.zero 32)) in
             exec! details h in
             mret (exists_ (BlockHeader.m_stateRoot bi))) b' with
      | (Ok k, b'') => (Ok k, b'')
      | (Err _, b'') => (Ok false, b'')
      end
  end.
Fixpoint rescue_down (n : nat) : BM Z :=
  match n with
  | O => mret 0
  | S n' =>
      do! k := rescue_check (Z.of_nat n) in
      if k then mret (Z.of_nat n) else rescue_down n'
  end.
Definition rescue : BM unit :=
  do! u := rescue_up 32 1 in
  do! l := rescue_bisect 32 (u / 2) u in
  do! l := rescue_down (Z.to_nat l) in
  rewind l.
End Rescue.

(** [garbageCollect]; the loop over what is on death row. *)
Definition evict (id : bytes * Z) (b : BlockChain) : result bc_exn BlockChain :=
  let '(h, n) := id in
  let b := set_inUse (m_inUse b ∖ {[id]}) b in
  if n =? block_id then Ok (set_blocks (delete h (m_blocks b)) b)
  else if n =? ExtraDetails then Ok (set_details (delete h (m_details b)) b)
  else if n =? ExtraBlockHash then Err AssertFailed
  else if n =? ExtraReceipts then Ok (set_receipts (delete h (m_receipts b)) b)
  else if n =? ExtraLogBlooms then Ok (set_logBlooms (delete h (m_logBlooms b)) b)
  else if n =? ExtraTransactionAddress then Ok (set_transactionAddresses (delete h (m_transactionAddresses b)) b)
  else if n =? ExtraBlocksBlooms then Ok (set_blocksBlooms (delete h (m_blocksBlooms b)) b)
  else Ok b.
Fixpoint evict_all (l : list (bytes * Z)) : BM unit := fun b =>
  match l with
  | [] => (Ok tt, b)
  | id :: l' => match evict id b with Ok b' => evict_all l' b' | Err e => (Err e, b) end
  end.
Definition collect : BM unit :=
  do! u := mget m_cacheUsage in
  match last u with
  | None => mthrow Undefined
  | Some ids =>
      exec! evict_all (elements ids) in
      mput (fun b => set_cacheUsage (∅ :: removelast (m_cacheUsage b)) b)
  end.
(** [early]: less than [c_collectionDuration] since the last time; [memTotal]: the size
    that [updateStats] adds up. *)
Definition garbageCollect (_force early : bool) (memTotal : Z) : BM unit :=
  if negb _force && early && (memTotal <? c_maxCacheSize) then mret tt else
  if memTotal <? c_minCacheSize then mret tt else collect.

Definition setChainStartBlockNumber (_number : Z) : BM unit :=
  do! h := numberHash _number in
  if negb (FixedHash.to_bool h) then mthrow UnknownBlockNumber else
  fun b => let '(ok, l) := Write (m_extrasDB b) [(c_sliceChainStart, h)] in
           (if ok then Ok tt else Err FailedToWriteChainStart, set_extrasDB l b).
Definition chainStartBlockNumber : BM Z :=
  do! value := mget (fun b => Get (m_extrasDB b) c_sliceChainStart) in
  match value with [] => mret 0 | _ => number_of (FixedHash.of_bytes 32 value FixedHash.FailIfDifferent) end.

(** [open], once the databases are open, for blocks that are trusted. *)
Definition open : BM unit :=
  do! d := details (m_genesisHash G) in
  exec! (if isNull d then
           let d := {| number := 0; totalDifficulty := m_difficulty (m_genesis G); parent := FixedHash.zero 32; children := [] |} in
           exec! in_details (m_genesisHash G) (fun _ => d) in
           do! r := str (details_rlp d) in
           fun b => (Ok tt, set_extrasDB (snd (Write (m_extrasDB b) [(toSlice (m_genesisHash G) ExtraDetails, r)])) b)
         else mret tt) in
  do! l := mget (fun b => Get (m_extrasDB b) best) in
  let h := match l with [] => m_genesisHash G | _ => take 32 l end in
  exec! mput (set_lastBlockHash h) in
  do! n := number_of h in
  mput (set_lastBlockNumber n).

End Chain.

(** The state before [open]: two databases, empty caches. *)
Definition closed {L : Type} (blocks extras : L) (a : VapashAux) : BlockChain (L := L) :=
  {| m_blocks := ∅; m_details := ∅; m_logBlooms := ∅; m_receipts := ∅; m_transactionAddresses := ∅; m_blockHashes := ∅;
     m_blocksBlooms := ∅; m_cacheUsage := replicate c_collectionQueueSize ∅; m_inUse := ∅; m_lastHashes := [];
     m_blocksDB := blocks; m_extrasDB := extras; m_lastBlockHash := []; m_lastBlockNumber := 0; m_vapash := a |}.

End BlockChain.
