(* ===== verification/ChainStore.v ===== *)
(** * ChainStore: what the chain writes it reads back

    The encodings of [BlockDetails] and the keys of the databases: each record that the
    chain stores is read as it was written, and no two records share a key. *)

From stdpp Require Import base list numbers option gmap.
From Stdlib Require Import ZArith Lia.
From S2P Require Import Prelude Bytes Rlp RlpStream RlpFields Keccak OverlayDB Receipt BlockChain.
Import CommonData RLP RLPStream RlpFields Keccak.

#[local] Opaque sha3.

Module ChainStore.
Import Bloom LogEntry Receipt ReceiptProps BlockDetails BlockChain.

(** ** Writing *)

Lemma streamed_run (op : Str_M unit) (sc : script) (t : Item) :
  (forall s, op s = run sc s) -> script_ok sc -> items_of sc = [t] -> encodable t -> streamed op = Ok (encode t).
Proof.
  intros Hop Hok Hi Ht. unfold streamed. rewrite Hop, run_spec by (rewrite ?Hi; auto). rewrite Hi. cbn [map concat].
  rewrite app_nil_r. done.
Qed.

Lemma script_int w v : uint_ok w v -> 0 <= w <= 256 -> script_ok (SInt v).
Proof.
  intros [Hv Hw] Hr. split; [done|]. assert (2 ^ w <= 2 ^ 256) by (apply Z.pow_le_mono_r; lia).
  pose proof (bytesRequired_le v 32 ltac:(change (256 ^ 32) with (2 ^ 256); lia) ltac:(lia)). lia.
Qed.

Definition hashes_script (l : list bytes) : script := SList (map (fun t => SHash t false false) l).
Definition hashes_item (l : list bytes) : Item := Lst (map Str l).

Lemma hashes_items l : items_of (hashes_script l) = [hashes_item l].
Proof. unfold hashes_script, hashes_item. cbn [items_of]. rewrite map_map. by rewrite (concat_singles _ Str). Qed.
Lemma hashes_run l s : appendVector (fun h => append_hash h false false) l s = run (hashes_script l) s.
Proof.
  unfold appendVector, hashes_script. rewrite run_SList, map_map, (concat_singles _ Str) by done. rewrite length_map.
  apply mbind_ext; [done|]. intros _ s2. symmetry. by apply append_each_map.
Qed.
Lemma hashes_ok l : encodable (hashes_item l) -> script_ok (hashes_script l).
Proof.
  intros He. unfold hashes_script. apply script_ok_SList, List.Forall_map. apply encodable_Lst in He as [He _].
  rewrite List.Forall_map in He. eapply List.Forall_impl; [|exact He]. intros t Ht. cbn [script_ok].
  by apply encodable_Str_length.
Qed.

(** ** Hashes and lists of blooms *)

Lemma h256_encodable v : List.length v = 32%nat -> bytes_ok v -> encodable (Str v).
Proof. intros Hl Hv. split; [done|]. destruct (encode_str_length v) as [E|E]; cbn [encode]; unfold maxLength; lia. Qed.

Lemma hash_store v : List.length v = 32%nat -> bytes_ok v ->
  hash_rlp v = Ok (encode (Str v)) /\ read_hash (encode (Str v)) = Ok v.
Proof.
  intros Hl Hv. pose proof (h256_encodable v Hl Hv) as He. split.
  - apply (streamed_run _ (SHash v false false)); [done|cbn; lia|done|done].
  - unfold read_hash. rewrite encode_make by done. cbn [result_bind]. by apply toHash_full.
Qed.

Lemma read_vector N l fl : encodable (hashes_item l) -> Forall (fun t => List.length t = N) l ->
  toVector (toHash N) (encode (hashes_item l)) fl = Ok l.
Proof.
  intros He Hl. unfold toVector, hashes_item in *. rewrite encode_isList, itemCount_encode, for_each_encode by done.
  cbn [is_lst result_bind]. rewrite (collect_map _ Str (fun t => t)); [by rewrite map_id|].
  apply encodable_Lst in He as [He _]. rewrite List.Forall_map in He. apply Forall_lookup. intros i t Hi.
  apply toHash_full; [by apply (Forall_lookup_1 _ _ _ _ He Hi)|by apply (Forall_lookup_1 _ _ _ _ Hl Hi)].
Qed.

(** ** Details *)

Definition details_item (d : BlockDetails) : Item :=
  Lst [int_item (number d); int_item (totalDifficulty d); Str (parent d); hashes_item (children d)].
Record details_ok (d : BlockDetails) : Prop := {
  do_number : uint_ok 32 (number d);
  do_td : uint_ok 256 (totalDifficulty d);
  do_parent : List.length (parent d) = 32%nat;
  do_children : Forall (fun c => List.length c = 32%nat) (children d);
  do_fits : encodable (details_item d)
}.

Lemma details_write d : details_ok d -> details_rlp d = Ok (encode (details_item d)).
Proof.
  intros [Hn Ht Hp Hc He]. destruct (encodable_Lst _ He) as [HF _].
  inversion HF as [|? ? _ HF1]; subst. inversion HF1 as [|? ? _ HF2]; subst. inversion HF2 as [|? ? _ HF3]; subst.
  inversion HF3 as [|? ? H3 _]; subst.
  apply (streamed_run _ (SList [SInt (number d); SInt (totalDifficulty d); SHash (parent d) false false; hashes_script (children d)])).
  - intros s. rewrite run_SList. cbn [append_each map items_of concat app List.length]. rewrite hashes_items. cbn [app List.length].
    apply mbind_ext; [done|]. intros _. apply mbind_ext; [done|]. intros _. apply mbind_ext; [done|]. intros _.
    apply mbind_ext; [done|]. intros _ s1. rewrite bind_tt. apply hashes_run.
  - apply script_ok_SList. repeat constructor; [by apply (script_int 32)|by apply (script_int 32)|by apply (script_int 256)|by apply (script_int 256)| |by apply hashes_ok].
    cbn [script_ok]. lia.
  - cbn [items_of map concat app andb]. by rewrite hashes_items.
  - done.
Qed.

Lemma details_read d : details_ok d -> read_details (encode (details_item d)) = Ok d.
Proof.
  intros [Hn Ht Hp Hc He]. destruct (encodable_Lst _ He) as [HF _].
  inversion HF as [|? ? _ HF1]; subst. inversion HF1 as [|? ? _ HF2]; subst. inversion HF2 as [|? ? H2 HF3]; subst.
  inversion HF3 as [|? ? H3 _]; subst.
  unfold read_details. rewrite encode_make by done. cbn [result_bind]. unfold details_item in *.
  match goal with |- fst (?m _) = _ => eapply (reads_fresh _ m (fun r => r = Ok d)) end.
  pose proof (has_items_encode _ He) as Hd.
  eapply reads_field; [done|lia|reflexivity|by apply (toInt_item 32)|].
  eapply reads_field; [done|lia|reflexivity|by apply (toInt_item 256)|].
  eapply reads_field; [done|lia|reflexivity|by apply toHash_full|].
  eapply reads_field; [done|lia|reflexivity|by apply read_vector|].
  apply reads_lift. by destruct d.
Qed.

Lemma stored_not_nil t : encodable t -> encode t <> [].
Proof. intros Ht E. pose proof (encode_nonempty t Ht) as H. rewrite E in H. cbn in H. lia. Qed.

(** ** Chunks of blooms *)

Record chunk_ok (l : list LogBloom) : Prop := {
  ch_length : List.length l = 16%nat;
  ch_blooms : Forall (fun x => List.length x = 256%nat /\ bytes_ok x) l
}.

Lemma chunk_encodable l : chunk_ok l -> encodable (hashes_item l).
Proof.
  intros [Hl Hb]. split.
  - apply item_ok_Lst, List.Forall_map. eapply List.Forall_impl; [|exact Hb]. by intros x [_ H].
  - assert (Forall (fun x => zlen (encode (Str x)) <= 265) l) as HF.
    { eapply List.Forall_impl; [|exact Hb]. intros x [Hx _]. cbn [encode].
      destruct (encode_str_length x) as [E|E]; lia. }
    assert (zlen (concat (map encode (map Str l))) <= 265 * zlen l) as Hc.
    { clear -HF. induction HF as [|x l Hx _ IH]; [done|]. cbn [map concat]. rewrite zlen_app, zlen_cons. lia. }
    unfold hashes_item. cbn [encode]. rewrite zlen_app. pose proof (header_ok 0xc0 0xf7 (zlen (concat (map encode (map Str l))))) as _.
    unfold header. destruct (_ <? _); [cbn [List.length]; unfold maxLength; lia|].
    rewrite zlen_cons, toCompactBigEndian_length by lia.
    pose proof (bytesRequired_64 (zlen (concat (map encode (map Str l)))) ltac:(lia)). unfold maxLength. lia.
Qed.

Lemma chunk_write l : chunk_ok l -> blooms_rlp l = Ok (encode (hashes_item l)).
Proof.
  intros H. pose proof (chunk_encodable l H) as He. apply (streamed_run _ (hashes_script l)); [apply hashes_run|by apply hashes_ok|apply hashes_items|done].
Qed.

Lemma read_array_reads (l pre : list LogBloom) : encodable (hashes_item (pre ++ l)) -> Forall (fun x => List.length x = 256%nat) l ->
  reads (map encode (map Str (pre ++ l))) (read_array (List.length l) (zlen pre) (encode (hashes_item (pre ++ l)))) (fun r => r = Ok l).
Proof.
  revert pre. induction l as [|x l IH]; intros pre He Hl; [by apply reads_lift|]. cbn [read_array List.length].
  inversion Hl as [|? ? Hx Hl']; subst. pose proof (has_items_encode _ He) as Hd. fold (hashes_item (pre ++ x :: l)) in Hd.
  assert (zlen (pre ++ x :: l) < maxLength) as Hlen.
  { apply encodable_Lst in He as [HF Hs]. pose proof (concat_encode_length _ HF) as Hc. rewrite length_map in Hc. lia. }
  assert (encodable (Str x)) as Hex.
  { apply encodable_Lst in He as [HF _]. rewrite List.Forall_map in HF. apply Forall_app in HF as [_ HF]. by inversion HF. }
  eapply reads_field; [done|rewrite zlen_app, zlen_cons in Hlen; unfold maxLength in Hlen; lia| |by apply (toHash_full 256 x)|].
  { unfold seg_at. rewrite Nat2Z.id, <- list_fmap_compose. change (_ <$> pre ++ x :: l) with (map (fun y => encode (Str y)) (pre ++ x :: l)) || idtac.
    unfold default. rewrite list_lookup_fmap, list_lookup_middle by done. done. }
  apply reads_bind. specialize (IH (pre ++ [x])). rewrite <- app_assoc in IH. cbn [app] in IH.
  replace (zlen (pre ++ [x])) with (zlen pre + 1) in IH by (rewrite zlen_app; cbn; lia).
  eapply reads_mono; [by apply IH|]. intros r ->. by apply reads_lift.
Qed.

Lemma chunk_read l : chunk_ok l -> read_blocksBlooms (encode (hashes_item l)) = Ok l.
Proof.
  intros H. pose proof (chunk_encodable l H) as He. destruct H as [Hl Hb]. unfold read_blocksBlooms. rewrite encode_make by done.
  cbn [result_bind]. unfold itemCountStrict. rewrite encode_isList by done. change (is_lst (hashes_item l)) with true. cbn iota.
  pose proof (encode_items (map Str l) He) as Hi. fold (hashes_item l) in Hi. rewrite Hi. cbn [result_bind]. rewrite length_map, Hl. change (negb (Z.of_nat 16 =? c_bloomIndexSize)) with false. cbn iota.
  pose proof (read_array_reads l [] He) as Hr. rewrite Hl in Hr. cbn [app] in Hr. change (zlen (@nil LogBloom)) with 0 in Hr.
  eapply (reads_fresh _ _ (fun r => r = Ok l)). apply Hr. eapply List.Forall_impl; [|exact Hb]. by intros x [].
Qed.

(** ** Addresses of transactions *)

Lemma address_store h i : List.length h = 32%nat -> bytes_ok h -> uint_ok 32 i ->
  let ta := {| blockHash := h; index := i |} in
  let t := Lst [Str h; int_item i] in
  address_rlp ta = Ok (encode t) /\ read_address (encode t) = Ok ta.
Proof.
  intros Hl Hh Hi ta t. pose proof (h256_encodable h Hl Hh) as H0. pose proof (int_item_length 32 i Hi ltac:(lia)) as H1.
  assert (encodable t) as He.
  { split; [apply item_ok_Lst; repeat constructor; [done|apply toCompactBigEndian_ok]|]. unfold t. cbn [encode map concat] in *.
    rewrite app_nil_r, zlen_app. destruct (encode_str_length h) as [E|E]; [|lia].
    assert (zlen (encode_str h ++ encode_str (toCompactBigEndian i 0)) <= 90) as Hb by (rewrite zlen_app; lia).
    unfold header. destruct (_ <? _); [cbn [List.length]; unfold maxLength; lia|].
    rewrite zlen_cons, toCompactBigEndian_length by lia.
    pose proof (bytesRequired_64 (zlen (encode_str h ++ encode_str (toCompactBigEndian i 0))) ltac:(lia)). unfold maxLength. lia. }
  split.
  - apply (streamed_run _ (SList [SHash h false false; SInt i])).
    + intros s. rewrite run_SList. cbn [append_each map items_of concat app List.length].
      apply mbind_ext; [done|]. intros _. apply mbind_ext; [done|]. intros _ s1. by rewrite bind_tt.
    + apply script_ok_SList. repeat constructor; [cbn; lia|by apply (script_int 32)..].
    + done.
    + done.
  - unfold read_address. rewrite encode_make by done. cbn [result_bind]. unfold t in *.
    match goal with |- fst (?m _) = _ => eapply (reads_fresh _ m (fun r => r = Ok ta)) end.
    pose proof (has_items_encode _ He) as Hd.
    eapply reads_field; [done|lia|reflexivity|by apply toHash_full|].
    eapply reads_field; [done|lia|reflexivity|by apply (toInt_item 32)|]. by apply reads_lift.
Qed.

(** ** Keys *)

Lemma toSlice_inj h k h' k' : 0 <= k < 256 -> 0 <= k' < 256 -> toSlice h k = toSlice h' k' -> h = h' /\ k = k'.
Proof.
  intros Hk Hk' E. unfold toSlice in E. rewrite !wrap_small in E by (unfold uint_ok; lia). by apply app_inj_tail in E.
Qed.
Lemma toSlice_best h k : 0 <= k < 6 -> toSlice h k <> best.
Proof.
  intros Hk E. unfold toSlice, best in E. rewrite wrap_small in E by (unfold uint_ok; lia).
  apply (app_inj_tail h [98; 101; 115] k 116) in E as [_ E]. lia.
Qed.

Lemma be_val_pad n bs : be_val (replicate n 0 ++ bs) = be_val bs.
Proof. induction n as [|n IH]; [done|]. cbn [replicate app be_val]. rewrite IH. lia. Qed.
Lemma toBigEndian_pad n m k : 0 <= k < 256 ^ Z.of_nat m -> toBigEndian (n + m) k = replicate n 0 ++ toBigEndian m k.
Proof.
  intros Hk. assert (bytes_ok (replicate n 0 ++ toBigEndian m k)) as Hok.
  { apply Forall_app. split; [|apply toBigEndian_ok]. apply Forall_replicate. unfold is_byte. lia. }
  rewrite <- (toBigEndian_be_val _ Hok), be_val_pad, be_val_toBigEndian, Z.mod_small by lia.
  by rewrite length_app, length_replicate, toBigEndian_length.
Qed.

(** The key under which a block's number is written is the one it is looked up with. *)
Lemma number_key k s : 0 <= k < 2 ^ 64 -> toSlice (FixedHash.of_arith 32 k) s = toSlice_n k s.
Proof.
  intros Hk. unfold toSlice, toSlice_n, FixedHash.of_arith. rewrite (toBigEndian_pad 24 8) by (change (256 ^ Z.of_nat 8) with (2 ^ 64); lia).
  by rewrite <- app_assoc.
Qed.
Lemma of_arith_inj n a b : 0 <= a < 256 ^ Z.of_nat n -> 0 <= b < 256 ^ Z.of_nat n ->
  FixedHash.of_arith n a = FixedHash.of_arith n b -> a = b.
Proof.
  intros Ha Hb E. apply (f_equal be_val) in E. unfold FixedHash.of_arith in E. by rewrite !be_val_toBigEndian, !Z.mod_small in E by lia.
Qed.

(** The chunks of two levels have different names as long as the products fit. *)
Lemma chunkId_inj l i l' i' : 0 <= l < 255 -> 0 <= l' < 255 -> 0 <= i < 2 ^ 24 -> 0 <= i' < 2 ^ 24 ->
  chunkId l i = chunkId l' i' -> l = l' /\ i = i'.
Proof.
  intros Hl Hl' Hi Hi' E. unfold chunkId in E. rewrite !wrap_small in E by (unfold uint_ok; lia).
  apply of_arith_inj in E; [lia|change (256 ^ Z.of_nat 32) with (2 ^ 256); lia..].
Qed.

End ChainStore.
