(* ===== verification/ChainTree.v ===== *)
(** * ChainTree: the tree of blocks behind the databases

    The abstract state of the chain is a tree of blocks.  The databases and the caches
    in front of them represent it; the queries answer what the tree says, and
    [treeRoute] finds the nearest common ancestor of two blocks and the way between
    them. *)

From stdpp Require Import base list numbers option gmap.
From Stdlib Require Import ZArith Lia.
From S2P Require Import Prelude Bytes Rlp RlpStream RlpFields Keccak OverlayDB Crypto Transaction BlockHeader Seal Receipt BlockChain ChainStore.
Import CommonData RLP RLPStream RlpFields Keccak.

#[local] Opaque sha3.

Module ChainTree.
Import Bloom LogEntry Receipt BlockDetails BlockChain ChainStore.
Import BlockHeader (BlockHeader, m_parentHash, m_number, m_gasUsed, m_logBloom, m_author, m_difficulty, m_hash, make_header, extractHeader,
  HeaderData, BlockData, WithSeal).

(** ** Trees *)

Record node := { n_bytes : bytes; n_header : BlockHeader; n_td : Z; n_children : list bytes }.
Abbreviation tree := (gmap bytes node).

Definition details_of (n : node) : BlockDetails :=
  {| number := m_number (n_header n); totalDifficulty := n_td n; parent := m_parentHash (n_header n); children := n_children n |}.

(** The [k]-th ancestor of a block, and the blocks on the way to it. *)
Definition parent_of (T : tree) (h : bytes) : bytes := match T !! h with Some n => m_parentHash (n_header n) | None => h end.
Fixpoint up (T : tree) (k : nat) (h : bytes) : bytes := match k with O => h | S k' => up T k' (parent_of T h) end.
Definition ups (T : tree) (k : nat) (h : bytes) : list bytes := map (fun i => up T i h) (seq 0 k).

(** The transactions of a block can be read one by one. *)
Definition txs_ok (b : bytes) : Prop :=
  exists r txs n, make b VeryStrict = Ok r /\ nth r 1 = Ok txs /\ itemCount txs = Ok n /\ 0 <= n < 2 ^ 32 /\
    forall i, 0 <= i < n -> exists d, nth txs i = Ok d.

(** A block that can be in the tree: it is named by its hash, its header can be read
    alone and with the block, and its numbers fit. *)
Record node_ok (h : bytes) (n : node) : Prop := {
  n_length : List.length h = 32%nat;
  n_ok : bytes_ok h;
  n_nonzero : FixedHash.to_bool h = true;
  n_hash : m_hash (n_header n) = h;
  n_make : make_header (n_bytes n) BlockData (FixedHash.zero 32) = Ok (n_header n);
  n_alone : exists d, extractHeader (n_bytes n) = Ok d /\ make_header d HeaderData (FixedHash.zero 32) = Ok (n_header n);
  n_txs : txs_ok (n_bytes n);
  n_number : 0 <= m_number (n_header n) < 2 ^ 28;
  n_bloom : List.length (m_logBloom (n_header n)) = 256%nat /\ bytes_ok (m_logBloom (n_header n));
  n_details : details_ok (details_of n)
}.

Section Tree.
Variables (params : ChainParams) (G : Genesis).

Record tree_core (T : tree) : Prop := {
  t_genesis : exists n, T !! m_genesisHash G = Some n /\ n_bytes n = genesisBlock params /\ n_header n = m_genesis G /\
    m_number (n_header n) = 0 /\ extractHeader (genesisBlock params) = Ok (m_genesisHeaderBytes G);
  t_node : forall h n, T !! h = Some n -> node_ok h n;
  t_parent : forall h n, T !! h = Some n -> h <> m_genesisHash G ->
    exists p, T !! m_parentHash (n_header n) = Some p /\ m_number (n_header n) = m_number (n_header p) + 1 /\
      n_td n = n_td p + m_difficulty (n_header n)
}.
Record tree_ok (T : tree) : Prop := {
  t_core : tree_core T;
  t_child : forall h n p, T !! h = Some n -> h <> m_genesisHash G -> T !! m_parentHash (n_header n) = Some p -> h ∈ n_children p;
  t_children : forall h n c, T !! h = Some n -> c ∈ n_children n ->
    exists m, T !! c = Some m /\ c <> m_genesisHash G /\ m_parentHash (n_header m) = h;
  t_nodup : forall h n, T !! h = Some n -> NoDup (n_children n)
}.

Section Climbing.
Variable T : tree.
Hypothesis HT : tree_core T.

Lemma parent_of_Some h n : T !! h = Some n -> parent_of T h = m_parentHash (n_header n).
Proof. unfold parent_of. by intros ->. Qed.

Lemma number_0 h n : T !! h = Some n -> m_number (n_header n) = 0 <-> h = m_genesisHash G.
Proof.
  intros Hn. split.
  - intros E. destruct (decide (h = m_genesisHash G)) as [|Hg]; [done|].
    destruct (t_parent T HT h n Hn Hg) as (p & Hp & Hk & _). destruct (n_number _ _ (t_node T HT _ _ Hp)). lia.
  - intros ->. destruct (t_genesis T HT) as (g & Hg & _ & _ & E & _). congruence.
Qed.

Lemma up_S k h : up T (S k) h = parent_of T (up T k h).
Proof. revert h. induction k as [|k IH]; intros h; [done|]. cbn [up] in *. by rewrite IH. Qed.
Lemma up_add i j h : up T (i + j) h = up T j (up T i h).
Proof. revert h. induction i as [|i IH]; intros h; [done|]. cbn [Nat.add up]. apply IH. Qed.

(** Ancestors are in the tree, with the numbers one expects. *)
Lemma up_node k h n : T !! h = Some n -> Z.of_nat k <= m_number (n_header n) ->
  exists a, T !! up T k h = Some a /\ m_number (n_header a) = m_number (n_header n) - Z.of_nat k.
Proof.
  revert h n. induction k as [|k IH]; intros h n Hn Hk; [exists n; split; [done|lia]|].
  assert (h <> m_genesisHash G) as Hg by (intros E; apply (number_0 h n Hn) in E; lia).
  destruct (t_parent T HT h n Hn Hg) as (p & Hp & Hnum & _). cbn [up]. rewrite (parent_of_Some h n Hn).
  destruct (IH _ p Hp ltac:(lia)) as (a & Ha & E). exists a. split; [done|lia].
Qed.
Lemma up_genesis h n : T !! h = Some n -> up T (Z.to_nat (m_number (n_header n))) h = m_genesisHash G.
Proof.
  intros Hn. destruct (n_number _ _ (t_node T HT _ _ Hn)). destruct (up_node (Z.to_nat (m_number (n_header n))) h n Hn ltac:(lia)) as (a & Ha & E).
  apply (number_0 _ a Ha). lia.
Qed.

Lemma ups_S k h : ups T (S k) h = h :: ups T k (parent_of T h).
Proof. unfold ups. cbn [seq map up]. f_equal. by rewrite <- seq_shift, map_map. Qed.
Lemma ups_snoc k h : ups T (S k) h = ups T k h ++ [up T k h].
Proof. unfold ups. rewrite seq_S, map_app. done. Qed.
Lemma ups_add i j h : ups T (i + j) h = ups T i h ++ ups T j (up T i h).
Proof. revert h. induction i as [|i IH]; intros h; [done|]. rewrite Nat.add_succ_l, !ups_S, IH. done. Qed.
Lemma elem_of_ups k h x : x ∈ ups T k h <-> exists i, (i < k)%nat /\ x = up T i h.
Proof.
  unfold ups. rewrite list_elem_of_In, in_map_iff. split.
  - intros (i & <- & Hi). apply in_seq in Hi. exists i. split; [lia|done].
  - intros (i & Hi & ->). exists i. split; [done|]. apply in_seq. lia.
Qed.

(** The first ancestor that two blocks of the same height share. *)
Lemma first_meeting m : forall x y a c, T !! x = Some a -> T !! y = Some c -> m_number (n_header a) = Z.of_nat m ->
  m_number (n_header c) = Z.of_nat m -> exists j, (j <= m)%nat /\ up T j x = up T j y /\ forall i, (i < j)%nat -> up T i x <> up T i y.
Proof.
  induction m as [|m IH]; intros x y a c Ha Hc Hx Hy.
  - exists 0%nat. split; [lia|]. split; [|lia]. cbn. apply (number_0 x a Ha) in Hx. apply (number_0 y c Hc) in Hy. congruence.
  - destruct (decide (x = y)) as [->|Hne]; [exists 0%nat; split; [lia|]; split; [done|lia]|].
    assert (x <> m_genesisHash G) as Hxg by (intros E; apply (number_0 x a Ha) in E; lia).
    assert (y <> m_genesisHash G) as Hyg by (intros E; apply (number_0 y c Hc) in E; lia).
    destruct (t_parent T HT x a Ha Hxg) as (p & Hp & Hpn & _). destruct (t_parent T HT y c Hc Hyg) as (q & Hq & Hqn & _).
    destruct (IH _ _ p q Hp Hq ltac:(lia) ltac:(lia)) as (j & Hj & E & Hmin). exists (S j). split; [lia|].
    cbn [up]. rewrite (parent_of_Some x a Ha), (parent_of_Some y c Hc). split; [done|]. intros [|i] Hi; [done|].
    cbn [up]. rewrite (parent_of_Some x a Ha), (parent_of_Some y c Hc). apply Hmin. lia.
Qed.

(** Equal ancestors of two blocks are equally high. *)
Lemma up_eq_number i j x y a c : T !! x = Some a -> T !! y = Some c -> Z.of_nat i <= m_number (n_header a) ->
  Z.of_nat j <= m_number (n_header c) -> up T i x = up T j y -> m_number (n_header a) - Z.of_nat i = m_number (n_header c) - Z.of_nat j.
Proof.
  intros Ha Hc Hi Hj E. destruct (up_node i x a Ha Hi) as (u & Hu & <-). destruct (up_node j y c Hc Hj) as (v & Hv & <-).
  rewrite E in Hu. congruence.
Qed.

End Climbing.
End Tree.

(** ** Running the operations *)

Section Chain.
Context {L : Type} `{LevelDB L} {C : Crypto.Secp256k1}.
Variables (params : ChainParams) (G : Genesis).
Abbreviation BC := (BlockChain (L := L)).
Abbreviation BM A := (M BC bc_exn A).
Implicit Types b : BC.

Definition runs {A} (m : BM A) b (Q : A -> BC -> Prop) : Prop := exists a b', m b = (Ok a, b') /\ Q a b'.
Lemma bc_bind {A B} (m : BM A) (f : A -> BM B) b Q R : runs m b Q -> (forall a b', Q a b' -> runs (f a) b' R) -> runs (mbind m f) b R.
Proof. intros (a & b' & E & HQ) Hf. unfold runs. rewrite (mbind_Ok _ _ _ _ _ E). by apply Hf. Qed.
Lemma bc_ret {A} (a : A) b (Q : A -> BC -> Prop) : Q a b -> runs (mret a) b Q.
Proof. intros HQ. by exists a, b. Qed.
Lemma bc_get {A B} (f : BC -> A) (k : A -> BM B) b R : runs (k (f b)) b R -> runs (mbind (mget f) k) b R.
Proof. done. Qed.
Lemma bc_put {B} (f : BC -> BC) (k : unit -> BM B) b R : runs (k tt) (f b) R -> runs (mbind (mput f) k) b R.
Proof. done. Qed.
Lemma runs_mono {A} (m : BM A) b (Q R : A -> BC -> Prop) : runs m b Q -> (forall a b', Q a b' -> R a b') -> runs m b R.
Proof. intros (a & b' & E & HQ) HR. exists a, b'. auto. Qed.
Lemma runs_rlp {A B} (r : result exn A) x (k : A -> BM B) b R : r = Ok x -> runs (k x) b R -> runs (mbind (rlp r) k) b R.
Proof. by intros ->. Qed.
Lemma runs_hdr {A B} (r : result BlockHeader.hdr_exn A) x (k : A -> BM B) b R : r = Ok x -> runs (k x) b R -> runs (mbind (hdr r) k) b R.
Proof. by intros ->. Qed.
Lemma runs_str {A B} (r : result stream_exn A) x (k : A -> BM B) b R : r = Ok x -> runs (k x) b R -> runs (mbind (str r) k) b R.
Proof. by intros ->. Qed.

(** What [garbageCollect] relies on: no record of a block's number is ever noted. *)
Definition usage_ok (u : list (gset (bytes * Z))) : Prop :=
  List.length u = c_collectionQueueSize /\ Forall (fun s => forall id, id ∈ s -> id.2 <> ExtraBlockHash) u.
Lemma usage_alter f i u : usage_ok u -> (forall s, (forall id, id ∈ s -> id.2 <> ExtraBlockHash) -> forall id, id ∈ f s -> id.2 <> ExtraBlockHash) ->
  usage_ok (alter f i u).
Proof. intros [Hl Hu] Hf. split; [by rewrite length_alter|]. apply Forall_alter; [done|]. intros s _ Hs. by apply Hf. Qed.

(** What the queries of blocks and details leave alone. *)
Record frame b b' : Prop := {
  f_blocksDB : m_blocksDB b' = m_blocksDB b;
  f_extrasDB : m_extrasDB b' = m_extrasDB b;
  f_last : m_lastBlockHash b' = m_lastBlockHash b;
  f_number : m_lastBlockNumber b' = m_lastBlockNumber b;
  f_hashes : m_blockHashes b' = m_blockHashes b;
  f_blooms : m_blocksBlooms b' = m_blocksBlooms b;
  f_details : forall x, is_Some (m_details b !! x) -> m_details b' !! x = m_details b !! x;
  f_usage : usage_ok (m_cacheUsage b) -> usage_ok (m_cacheUsage b')
}.
#[export] Instance frame_pre : PreOrder frame.
Proof.
  split; [by intros b|]. intros x y z [? ? ? ? ? ? Hx ?] [? ? ? ? ? ? Hy ?]. split; [congruence..| |auto]. intros h Hh. rewrite Hy; [by apply Hx|]. by rewrite Hx.
Qed.

(** The databases hold the tree [Td]; the details in memory are those of [Tm], which
    may be ahead of the database. *)
Record store_ok (Td Tm : tree) b : Prop := {
  s_blocks : forall h, h <> m_genesisHash G ->
    Get (m_blocksDB b) (toSlice h 0) = match Td !! h with Some n => n_bytes n | None => [] end;
  s_mblocks : forall h d, m_blocks b !! h = Some d -> h <> m_genesisHash G /\ exists n, Td !! h = Some n /\ n_bytes n = d;
  s_details : forall h, Get (m_extrasDB b) (toSlice h ExtraDetails) =
    match Td !! h with Some n => encode (details_item (details_of n)) | None => [] end;
  s_mdetails : forall h d, m_details b !! h = Some d -> exists n, Tm !! h = Some n /\ d = details_of n;
  s_agree : forall h, m_details b !! h = None -> Td !! h = Tm !! h;
  s_bytes : forall h n, Tm !! h = Some n -> exists n', Td !! h = Some n' /\ n_bytes n' = n_bytes n /\ n_header n' = n_header n
}.

Section Reading.
Variables (Td Tm : tree).
Hypothesis Hd : tree_core params G Td.
Hypothesis Hm : tree_core params G Tm.

Lemma runs_noteUsed {B} h x b (k : unit -> BM B) R : x <> ExtraBlockHash ->
  (forall u i, (usage_ok (m_cacheUsage b) -> usage_ok u) -> runs (k tt) (set_inUse i (set_cacheUsage u b)) R) -> runs (mbind (noteUsed h x) k) b R.
Proof.
  intros Hx HQ. unfold noteUsed. apply bc_put. cbv zeta. set (u := alter (fun s => {[(h, x)]} ∪ s) 0%nat (m_cacheUsage b)).
  assert (usage_ok (m_cacheUsage b) -> usage_ok u) as Hu.
  { intros Hu. apply usage_alter; [done|]. intros s Hs id [->%elem_of_singleton|Hi]%elem_of_union; [done|by apply Hs]. }
  destruct (bool_decide _); [|by apply HQ]. specialize (HQ (alter (fun s => s ∖ {[(h, x)]}) 1%nat u) (m_inUse b)).
  destruct b; apply HQ. intros Hok. apply usage_alter; [auto|]. intros s Hs id Hi. apply Hs. by apply elem_of_difference in Hi as [Hi _].
Qed.

Lemma details_runs h b : store_ok Td Tm b ->
  runs (details h) b (fun d b' => d = default NullBlockDetails (details_of <$> Tm !! h) /\ store_ok Td Tm b' /\ frame b b' /\
    (is_Some (Tm !! h) -> is_Some (m_details b' !! h))).
Proof.
  intros Hs. unfold details, query, queryExtras. apply bc_get. destruct (m_details b !! h) as [d|] eqn:Ed.
  - apply bc_ret. destruct (s_mdetails _ _ _ Hs _ _ Ed) as (n & -> & ->). cbn. split; [done|]. split; [done|]. split; [done|]. by rewrite Ed.
  - apply bc_get. rewrite (s_details _ _ _ Hs h), <- (s_agree _ _ _ Hs h Ed). destruct (Td !! h) as [n|] eqn:En.
    + pose proof (n_details _ _ (t_node _ _ _ Hd _ _ En)) as Hok. destruct (encode (details_item (details_of n))) as [|z l] eqn:Ee;
        [by apply stored_not_nil in Ee; [|apply do_fits]|]. rewrite <- Ee. clear Ee.
      apply runs_noteUsed; [done|]. intros u i Hu. eapply runs_rlp; [by apply details_read|]. apply bc_put. apply bc_ret.
      split; [done|]. split; [|split].
      * destruct Hs as [H1 H2 H3 H4 H5 H6]. split; cbn; [done..| | |done].
        -- intros x d. destruct (decide (x = h)) as [->|Hx]; [|by rewrite lookup_insert_ne by done; apply H4].
           rewrite lookup_insert_eq. intros [= <-]. exists n. split; [|done]. by rewrite <- (H5 h Ed).
        -- intros x. destruct (decide (x = h)) as [->|Hx]; [by rewrite lookup_insert_eq|rewrite lookup_insert_ne by done; apply H5].
      * split; cbn; [done..| |done]. intros x [d Hx]. destruct (decide (x = h)) as [->|Hn]; [congruence|by rewrite lookup_insert_ne].
      * intros _. cbn. by rewrite lookup_insert_eq.
    + apply bc_ret. split; [done|]. split; [done|]. split; [done|]. by intros [].
Qed.

(** The details of a block of the tree. *)
Lemma runs_details {B} h n b (k : BlockDetails -> BM B) R : store_ok Td Tm b -> Tm !! h = Some n ->
  (forall b', store_ok Td Tm b' -> frame b b' -> is_Some (m_details b' !! h) -> runs (k (details_of n)) b' R) ->
  runs (mbind (details h) k) b R.
Proof.
  intros Hs Hn Hk. eapply bc_bind; [by apply details_runs|]. intros d b' (-> & Hs' & Hf & Hi). rewrite Hn in *. cbn. apply Hk; auto.
Qed.

Lemma block_runs h n b : store_ok Td Tm b -> Tm !! h = Some n ->
  runs (block params G h) b (fun d b' => d = n_bytes n /\ store_ok Td Tm b' /\ frame b b').
Proof.
  intros Hs Hn. unfold block. case_bool_decide as Hg.
  - apply bc_ret. destruct (t_genesis _ _ _ Hm) as (g & Hg' & E & _). split; [congruence|done].
  - apply bc_get. destruct (m_blocks b !! h) as [d|] eqn:Ed.
    + apply bc_ret. destruct (s_mblocks _ _ _ Hs _ _ Ed) as (_ & n' & Hn' & <-).
      destruct (s_bytes _ _ _ Hs _ _ Hn) as (n2 & Hn2 & E & _). split; [congruence|done].
    + destruct (s_bytes _ _ _ Hs _ _ Hn) as (n2 & Hn2 & E & _). rewrite (s_blocks _ _ _ Hs h Hg), Hn2, <- E.
      destruct (n_bytes n2) as [|z l] eqn:Ee; [by apply bc_ret|]. rewrite <- Ee in *. clear Ee.
      apply runs_noteUsed; [done|]. intros u i Hu. apply bc_put, bc_ret. split; [done|]. split; [|by split].
      destruct Hs as [H1 H2 H3 H4 H5 H6]. split; cbn; [done| |done..]. intros x d.
      destruct (decide (x = h)) as [->|Hx]; [|by rewrite lookup_insert_ne by done; apply H2].
      rewrite lookup_insert_eq. intros [= <-]. eauto.
Qed.

Lemma info_runs h n b : store_ok Td Tm b -> Tm !! h = Some n ->
  runs (info params G h) b (fun i b' => i = n_header n /\ store_ok Td Tm b' /\ frame b b').
Proof.
  intros Hs Hn. destruct (n_alone _ _ (t_node _ _ _ Hm _ _ Hn)) as (d & Hx & Hmk). unfold info.
  eapply (bc_bind _ _ _ (fun x b' => x = d /\ store_ok Td Tm b' /\ frame b b')).
  - unfold headerData. case_bool_decide as Hg.
    + apply bc_ret. destruct (t_genesis _ _ _ Hm) as (g & Hg' & E & _ & _ & Ex). split; [congruence|done].
    + eapply bc_bind; [by apply block_runs|]. intros x b' (-> & Hs' & Hf).
      destruct (n_bytes n) as [|z l] eqn:Ee; [done|]. rewrite <- Ee in *. exists d, b'. unfold hdr. by rewrite Hx.
  - intros x b' (-> & Hs' & Hf). exists (n_header n), b'. unfold hdr. by rewrite Hmk.
Qed.

(** ** Routes *)

Lemma climb_runs keep k : forall from n ret b, store_ok Td Tm b -> Tm !! from = Some n -> Z.of_nat k <= m_number (n_header n) ->
  runs (climb k keep from ret) b (fun r b' =>
    r = (up Tm k from, ret ++ if keep then ups Tm k from else []) /\ store_ok Td Tm b' /\ frame b b').
Proof.
  induction k as [|k IH]; intros from n ret b Hs Hn Hk; cbn [climb up].
  - apply bc_ret. split; [|done]. destruct keep; cbn; by rewrite app_nil_r.
  - eapply runs_details; [done|done|]. intros b' Hs' Hf _.
    assert (from <> m_genesisHash G) as Hg by (intros E; apply (number_0 _ _ _ Hm from n Hn) in E; lia).
    destruct (t_parent _ _ _ Hm from n Hn Hg) as (p & Hp & Hnum & _). cbn [details_of parent].
    eapply runs_mono; [apply (IH _ p); [done|done|lia]|]. intros r b'' (-> & Hs'' & Hf'). rewrite (parent_of_Some Tm from n Hn).
    split; [|split; [done|by etrans]]. f_equal. destruct keep; [|done]. rewrite ups_S, (parent_of_Some Tm from n Hn), <- app_assoc. done.
Qed.

Lemma meet_runs c pre post m : forall fuel from to a z ret back b, store_ok Td Tm b -> Tm !! from = Some a -> Tm !! to = Some z ->
  m_number (n_header a) = Z.of_nat m -> m_number (n_header z) = Z.of_nat m -> (m <= fuel)%nat ->
  runs (meet fuel c pre post from to ret back) b (fun r b' =>
    exists j, (j <= m)%nat /\ up Tm j from = up Tm j to /\ (forall i, (i < j)%nat -> up Tm i from <> up Tm i to) /\
      r = (up Tm j from, ret ++ (if pre then ups Tm j from ++ if c then [up Tm j from] else [] else []),
           back ++ (if post then ups Tm j to ++ if negb pre && c then [up Tm j to] else [] else [])) /\
      store_ok Td Tm b' /\ frame b b').
Proof.
  induction m as [|m IH]; intros fuel from to a z ret back b Hs Ha Hz Hna Hnz Hf; destruct fuel as [|fuel]; try lia; cbn [meet].
  all: destruct (bool_decide_reflect (from = to)) as [->|Hne]; cbn [negb orb andb].
  1, 3, 5: apply bc_ret; exists 0%nat; split; [lia|]; split; [done|]; split; [lia|]; split; [|done]; cbn [up ups map seq app];
    destruct pre, post, c; cbn [andb orb negb]; by rewrite ?app_nil_r.
  1, 2: apply (number_0 _ _ _ Hm from a Ha) in Hna; apply (number_0 _ _ _ Hm to z Hz) in Hnz; congruence.
  rewrite (n_nonzero _ _ (t_node _ _ _ Hm _ _ Ha)), (n_nonzero _ _ (t_node _ _ _ Hm _ _ Hz)). cbn [negb orb].
  eapply runs_details; [done|done|]. intros b1 Hs1 Hf1 _. eapply runs_details; [done|done|]. intros b2 Hs2 Hf2 _. cbn [details_of parent].
  assert (from <> m_genesisHash G) as Hxg by (intros E; apply (number_0 _ _ _ Hm from a Ha) in E; lia).
  assert (to <> m_genesisHash G) as Hyg by (intros E; apply (number_0 _ _ _ Hm to z Hz) in E; lia).
  destruct (t_parent _ _ _ Hm from a Ha Hxg) as (p & Hp & Hpn & _). destruct (t_parent _ _ _ Hm to z Hz Hyg) as (q & Hq & Hqn & _).
  eapply runs_mono; [apply (IH fuel _ _ p q); [done|done|done|lia|lia|lia]|].
  intros r b3 (j & Hj & E & Hmin & -> & Hs3 & Hf3). exists (S j). cbn [up].
  rewrite (parent_of_Some Tm from a Ha), (parent_of_Some Tm to z Hz). split; [lia|]. split; [done|].
  split. { intros [|i] Hi; [done|]. cbn [up]. rewrite (parent_of_Some Tm from a Ha), (parent_of_Some Tm to z Hz). apply Hmin. lia. }
  split; [|split; [done|by etrans; [|etrans]]].
  rewrite !ups_S, (parent_of_Some Tm from a Ha), (parent_of_Some Tm to z Hz).
  destruct pre, post, c; cbn [andb orb negb app]; rewrite <- ?app_assoc; done.
Qed.

(** [treeRoute]: with [i] generations up from one block and [j] up from the other. *)
Definition route_of (T : tree) (c pre post : bool) (from to : bytes) (i j : nat) : list bytes :=
  (if pre then ups T i from ++ if c then [up T i from] else [] else [])
  ++ rev (if post then ups T j to ++ if negb pre && c then [up T j to] else [] else []).

Lemma treeRoute_runs from to a z c pre post b : store_ok Td Tm b -> Tm !! from = Some a -> Tm !! to = Some z ->
  runs (treeRoute from to c pre post) b (fun r b' =>
    exists (i j : nat), Z.of_nat i <= m_number (n_header a) /\ Z.of_nat j <= m_number (n_header z) /\ up Tm i from = up Tm j to /\
      (forall i' j', Z.of_nat i' <= m_number (n_header a) -> Z.of_nat j' <= m_number (n_header z) -> up Tm i' from = up Tm j' to ->
         (i <= i')%nat /\ (j <= j')%nat) /\
      (exists k, r = (route_of Tm c pre post from to i j, up Tm i from, k)) /\ store_ok Td Tm b' /\ frame b b').
Proof.
  intros Hs Ha Hz. pose proof (t_node _ _ _ Hm _ _ Ha) as Na. pose proof (t_node _ _ _ Hm _ _ Hz) as Nz.
  destruct (n_number _ _ Na) as [Ha0 Ha1]. destruct (n_number _ _ Nz) as [Hz0 Hz1].
  unfold treeRoute. rewrite (n_nonzero _ _ Na), (n_nonzero _ _ Nz). cbn [negb orb].
  eapply runs_details; [done|done|]. intros b1 Hs1 Hf1 _. eapply runs_details; [done|done|]. intros b2 Hs2 Hf2 _.
  unfold isNull, c_invalidNumber. cbn [details_of number].
  destruct (Z.eqb_spec (m_number (n_header a)) (2 ^ 32 - 1)); [lia|]. destruct (Z.eqb_spec (m_number (n_header z)) (2 ^ 32 - 1)); [lia|]. cbn [orb].
  set (fn := m_number (n_header a)) in *. set (tn := m_number (n_header z)) in *.
  eapply bc_bind; [apply (climb_runs pre _ from a); [done|done|fold fn; lia]|]. intros [x ret] b3 (E3 & Hs3 & Hf3). injection E3 as -> ->.
  eapply bc_bind; [apply (climb_runs post _ to z); [done|done|fold tn; lia]|]. intros [y back] b4 (E4 & Hs4 & Hf4). injection E4 as -> ->.
  destruct (up_node _ _ _ Hm (Z.to_nat (fn - tn)) from a Ha ltac:(fold fn; lia)) as (a' & Ha' & Na').
  destruct (up_node _ _ _ Hm (Z.to_nat (tn - fn)) to z Hz ltac:(fold tn; lia)) as (z' & Hz' & Nz').
  fold fn in Na'. fold tn in Nz'.
  eapply bc_bind; [apply (meet_runs c pre post (Z.to_nat (Z.min fn tn)) (Z.to_nat fn) _ _ a' z'); [done|done|done|lia|lia|lia]|].
  intros [[cm ret] back] b5 (j & Hj & E & Hmin & E5 & Hs5 & Hf5). injection E5 as -> -> ->. apply bc_ret.
  exists (Z.to_nat (fn - tn) + j)%nat, (Z.to_nat (tn - fn) + j)%nat. split; [lia|]. split; [lia|].
  split; [by rewrite !up_add|]. split; [|split; [|split; [done|by etrans; [|etrans; [|etrans; [|etrans]]]]]].
  - intros i' j' Hi' Hj' E'. pose proof (up_eq_number _ _ _ Hm i' j' from to a z Ha Hz Hi' Hj' E') as Hn. fold fn tn in Hn.
    assert (exists k, i' = (Z.to_nat (fn - tn) + k)%nat /\ j' = (Z.to_nat (tn - fn) + k)%nat) as (k & -> & ->).
    { exists (i' - Z.to_nat (fn - tn))%nat. fold fn in Hi'. fold tn in Hj'. lia. }
    rewrite !up_add in E'. destruct (decide (k < j)%nat) as [Hk|]; [by apply Hmin in Hk|lia].
  - eexists. f_equal. f_equal; [|by rewrite up_add]. unfold route_of. rewrite !ups_add, !up_add.
    destruct pre, post; cbn [app]; rewrite <- ?app_assoc; done.
Qed.

End Reading.
End Chain.
End ChainTree.
