(* ===== verification/ChainBlooms.v ===== *)
(** * ChainBlooms: the index of bloom filters

    The chain keeps the blooms of its blocks in chunks of 16, and the blooms of 16
    blocks in chunks of a second level.  A chunk is read from the database unless it is
    in memory; reversions only change the chunks in memory.  What is proved of them is
    therefore that every chunk, in memory or not, has at least the bits it should. *)

From stdpp Require Import base list numbers option gmap.
From Stdlib Require Import ZArith Lia.
From S2P Require Import Prelude Bytes Rlp RlpStream RlpFields Keccak OverlayDB Crypto Receipt BlockChain ChainStore ChainTree.
Import CommonData RLP RLPStream RlpFields Keccak.

#[local] Opaque sha3.

Module ChainBlooms.
Import Bloom LogEntry Receipt BlockDetails BlockChain ChainStore ChainTree.

(** ** Blooms as sets of bits *)

Abbreviation bloom_ok x := (List.length x = 256%nat /\ bytes_ok x).

Lemma lor_byte a b : is_byte a -> is_byte b -> is_byte (Z.lor a b).
Proof.
  unfold is_byte. intros Ha Hb. split; [apply Z.lor_nonneg; lia|].
  destruct (Z.eq_dec (Z.lor a b) 0) as [->|Hne]; [lia|].
  apply Z.log2_lt_pow2 with (b := 8); [pose proof (proj2 (Z.lor_nonneg a b)); lia|].
  rewrite Z.log2_lor by lia.
  assert (Z.log2 a < 8) by (destruct (Z.eq_dec a 0) as [->|]; [cbn; lia|apply Z.log2_lt_pow2; lia]).
  assert (Z.log2 b < 8) by (destruct (Z.eq_dec b 0) as [->|]; [cbn; lia|apply Z.log2_lt_pow2; lia]). lia.
Qed.
Lemma or_eq_ok a b : bytes_ok a -> bytes_ok b -> bytes_ok (FixedHash.or_eq a b).
Proof.
  intros Ha. revert b. induction Ha as [|x a Hx Ha IH]; intros [|y b] Hb; [constructor..|]. inversion Hb; subst.
  constructor; [by apply lor_byte|by apply IH].
Qed.
Lemma bloom_or a b : bloom_ok a -> bloom_ok b -> bloom_ok (FixedHash.or_eq a b).
Proof. intros [Ha1 Ha2] [Hb1 Hb2]. split; [unfold FixedHash.or_eq; rewrite length_zip_with; lia|by apply or_eq_ok]. Qed.

Lemma zero_ok n : bytes_ok (FixedHash.zero n).
Proof. apply Forall_replicate. unfold is_byte. lia. Qed.
Lemma empty_ok : bloom_ok empty_bloom.
Proof. split; [done|apply zero_ok]. Qed.
Lemma set_bit_ok M i x : bytes_ok x -> bytes_ok (set_bit M i x).
Proof.
  intros Hx. unfold set_bit. destruct (x !! _) as [z|] eqn:E; [|done]. apply Forall_insert; [done|].
  pose proof (wrap_range 8 (Z.lor z (Z.shiftl 1 (i mod 8))) ltac:(lia)) as Hw. exact Hw.
Qed.
Lemma bloomPart_ok P M h : bytes_ok (bloomPart P M h).
Proof.
  unfold bloomPart. set (ret := FixedHash.zero M). assert (bytes_ok ret) as Hr by apply zero_ok. clearbody ret. revert h ret Hr.
  generalize (Z.to_nat ((Z.log2 (8 * Z.of_nat M) + 7) / 8)). generalize (8 * Z.of_nat M - 1).
  induction P as [|P IH]; intros m n h ret Hr; [done|]. cbn [bloom_parts]. apply IH, set_bit_ok, Hr.
Qed.
Lemma shift_ok P b h : bloom_ok b -> bloom_ok (shiftBloom P b h).
Proof.
  intros [Hl Hb]. split; [by rewrite shiftBloom_length|]. unfold shiftBloom. apply or_eq_ok; [done|apply bloomPart_ok].
Qed.

Lemma within_or_r a b c : within a c -> List.length b = List.length c -> within a (FixedHash.or_eq b c).
Proof. intros H Hl. rewrite or_eq_comm. by apply within_or_l. Qed.

(** The union of a list of blooms. *)
Lemma fold_or_within a l : forall acc, bloom_ok acc -> Forall (fun x => bloom_ok x) l -> within a acc \/ Exists (within a) l ->
  bloom_ok (fold_left FixedHash.or_eq l acc) /\ within a (fold_left FixedHash.or_eq l acc).
Proof.
  induction l as [|x l IH]; intros acc Hacc Hl H; cbn [fold_left].
  - destruct H as [H|H]; [done|by inversion H].
  - inversion Hl as [|? ? Hx Hl']; subst. destruct Hacc as [A1 A2], Hx as [X1 X2]. apply IH; [by apply bloom_or|done|].
    destruct H as [H|H]; [left; apply within_or_l; [done|congruence]|]. inversion H; subst; [|by right]. left. apply within_or_r; [done|congruence].
Qed.
Lemma fold_or_ok l : forall acc, bloom_ok acc -> Forall (fun x => bloom_ok x) l -> bloom_ok (fold_left FixedHash.or_eq l acc).
Proof.
  induction l as [|x l IH]; intros acc Hacc Hl; [done|]. inversion Hl as [|? ? Hx Hl']; subst. cbn [fold_left]. apply IH; [by apply bloom_or|done].
Qed.

(** ** Chunks *)

Definition slot (bb : list LogBloom) (o : Z) : LogBloom := default empty_bloom (bb !! Z.to_nat o).
Lemma null_ok : chunk_ok NullBlocksBlooms.
Proof. split; [done|]. apply Forall_replicate. apply empty_ok. Qed.
Lemma slot_ok bb o : chunk_ok bb -> bloom_ok (slot bb o).
Proof.
  intros [_ Hb]. unfold slot. destruct (bb !! Z.to_nat o) as [x|] eqn:E; [|apply empty_ok]. by apply (Forall_lookup_1 _ _ _ _ Hb E).
Qed.
Lemma alter_ok f o bb : chunk_ok bb -> (forall x, bloom_ok x -> bloom_ok (f x)) -> chunk_ok (alter f o bb).
Proof.
  intros [Hl Hb] Hf. split; [by rewrite length_alter|]. apply Forall_alter; [done|]. intros x _ Hx. by apply Hf.
Qed.
Lemma slot_alter f o o' bb : chunk_ok bb -> 0 <= o < 16 -> 0 <= o' ->
  slot (alter f (Z.to_nat o) bb) o' = if decide (o = o') then f (slot bb o) else slot bb o'.
Proof.
  intros [Hl Hb] Ho Ho'. unfold slot. destruct (decide (o = o')) as [->|Hne].
  - rewrite list_lookup_alter_eq. destruct (bb !! Z.to_nat o') as [x|] eqn:E; [done|]. apply lookup_ge_None in E. lia.
  - by rewrite list_lookup_alter_ne by lia.
Qed.

(** Both levels have the bits of [x] for the block number [k]. *)
Definition cover (V : bytes -> list LogBloom) (k : Z) (x : LogBloom) : Prop :=
  within x (slot (V (chunkId 0 (k / 16))) (k mod 16)) /\ within x (slot (V (chunkId 1 (k / 16 / 16))) ((k / 16) mod 16)).

Section Chain.
Context {L : Type} `{LevelDB L} {C : Crypto.Secp256k1}.
Variables (params : ChainParams) (G : Genesis).
Abbreviation BC := (BlockChain (L := L)).
Abbreviation BM A := (M BC bc_exn A).
Implicit Types b : BC.

(** What the database holds, and what a query gives. *)
Definition stored b (id : bytes) : list LogBloom :=
  match Get (m_extrasDB b) (toSlice id ExtraBlocksBlooms) with
  | [] => NullBlocksBlooms
  | s => match read_blocksBlooms s with Ok bb => bb | Err _ => NullBlocksBlooms end
  end.
Definition seen b (id : bytes) : list LogBloom := default (stored b id) (m_blocksBlooms b !! id).

Record blooms_wf b : Prop := {
  w_memo : forall id bb, m_blocksBlooms b !! id = Some bb -> chunk_ok bb;
  w_db : forall id, Get (m_extrasDB b) (toSlice id ExtraBlocksBlooms) = [] \/
    exists bb, chunk_ok bb /\ Get (m_extrasDB b) (toSlice id ExtraBlocksBlooms) = encode (hashes_item bb)
}.
Lemma stored_ok b id : blooms_wf b -> chunk_ok (stored b id).
Proof.
  intros [_ Hd]. unfold stored. destruct (Hd id) as [->|(bb & Hbb & ->)]; [apply null_ok|].
  destruct (encode (hashes_item bb)) as [|z s] eqn:E; [apply null_ok|]. rewrite <- E. by rewrite chunk_read.
Qed.
Lemma seen_ok b id : blooms_wf b -> chunk_ok (seen b id).
Proof. intros Hw. unfold seen. destruct (m_blocksBlooms b !! id) as [bb|] eqn:E; [by apply (w_memo _ Hw id)|by apply stored_ok]. Qed.

(** What operations on blooms leave alone. *)
Record bframe b b' : Prop := {
  bf_blocksDB : m_blocksDB b' = m_blocksDB b;
  bf_extrasDB : m_extrasDB b' = m_extrasDB b;
  bf_last : m_lastBlockHash b' = m_lastBlockHash b;
  bf_number : m_lastBlockNumber b' = m_lastBlockNumber b;
  bf_hashes : m_blockHashes b' = m_blockHashes b;
  bf_blocks : m_blocks b' = m_blocks b;
  bf_details : m_details b' = m_details b;
  bf_memo : forall id, is_Some (m_blocksBlooms b !! id) -> is_Some (m_blocksBlooms b' !! id);
  bf_usage : usage_ok (m_cacheUsage b) -> usage_ok (m_cacheUsage b')
}.
#[export] Instance bframe_pre : PreOrder bframe.
Proof. split; [by intros b|]. intros x y z [? ? ? ? ? ? ? ? ?] [? ? ? ? ? ? ? ? ?]. split; [congruence..| |]; auto. Qed.
Lemma insert_bframe b u i id bb : (usage_ok (m_cacheUsage b) -> usage_ok u) -> bframe b (set_blocksBlooms (<[id := bb]> (m_blocksBlooms b)) (set_inUse i (set_cacheUsage u b))).
Proof. intros Hu. split; cbn; [done..| |done]. intros x Hx. by apply lookup_insert_is_Some'; right. Qed.

(** Loading a chunk changes nothing that can be seen. *)
Lemma blocksBlooms_runs id b : blooms_wf b ->
  runs (blocksBlooms id) b (fun bb b' => bb = seen b id /\ blooms_wf b' /\ bframe b b' /\ (forall x, seen b' x = seen b x) /\
    (m_blocksBlooms b' !! id = None -> stored b' id = NullBlocksBlooms) /\
    forall x, is_Some (m_blocksBlooms b !! x) -> is_Some (m_blocksBlooms b' !! x)).
Proof.
  intros Hw. unfold blocksBlooms, query, queryExtras. apply bc_get. unfold seen. destruct (m_blocksBlooms b !! id) as [bb|] eqn:Em.
  - apply bc_ret. rewrite Em. repeat (split; [done|]). done.
  - apply bc_get. destruct (w_db _ Hw id) as [E|(bb & Hbb & E)].
    + assert (stored b id = NullBlocksBlooms) as Est by (unfold stored; by rewrite E). rewrite E.
      apply bc_ret. repeat (split; [done|]). done.
    + pose proof (stored_not_nil _ (chunk_encodable bb Hbb)) as Hne. pose proof (chunk_read bb Hbb) as Hr. remember (encode (hashes_item bb)) as s eqn:Es.
      assert (stored b id = bb) as Est by (unfold stored; rewrite E; destruct s; [done|by rewrite Hr]).
      rewrite E. destruct s as [|z s]; [done|]. apply runs_noteUsed; [done|]. intros u i Hu. eapply runs_rlp; [done|]. apply bc_put, bc_ret. cbn.
      split; [done|]. split; [|split; [by apply insert_bframe|split; [|split]]].
      * destruct Hw as [H1 H2]. split; cbn; [|done]. intros x y. destruct (decide (x = id)) as [->|Hx];
          [rewrite lookup_insert_eq; by intros [= <-]|rewrite lookup_insert_ne by done; apply H1].
      * intros x. destruct (decide (x = id)) as [->|Hx]; [|by rewrite lookup_insert_ne].
        rewrite lookup_insert_eq, Em. done.
      * by rewrite lookup_insert_eq.
      * intros x Hx. destruct (decide (x = id)) as [->|Hn]; [by rewrite lookup_insert_eq|by rewrite lookup_insert_ne].
Qed.

(** Changing a slot of a chunk that was loaded. *)
Lemma in_memo_seen id o f b : blooms_wf b -> (m_blocksBlooms b !! id = None -> stored b id = NullBlocksBlooms) ->
  (forall x, bloom_ok x -> bloom_ok (f x)) ->
  runs (in_memo id o f) b (fun _ b' => blooms_wf b' /\ bframe b b' /\ m_blocksBlooms b' !! id = Some (alter f (Z.to_nat o) (seen b id)) /\
    (forall x, x <> id -> seen b' x = seen b x /\ m_blocksBlooms b' !! x = m_blocksBlooms b !! x)).
Proof.
  intros Hw Hl Hf. eexists tt, _. split; [reflexivity|].
  assert (default NullBlocksBlooms (m_blocksBlooms b !! id) = seen b id) as Es.
  { unfold seen. destruct (m_blocksBlooms b !! id) eqn:E; [done|]. cbn. by rewrite Hl. }
  rewrite Es. split; [|split; [split; cbn; [done..| |done]; intros x Hx; by apply lookup_insert_is_Some'; right|split]].
  - pose proof (seen_ok b id Hw) as Hs. destruct Hw as [H1 H2]. split; cbn; [|done]. intros x y.
    destruct (decide (x = id)) as [->|Hx]; [rewrite lookup_insert_eq; intros [= <-]; by apply alter_ok|rewrite lookup_insert_ne by done; apply H1].
  - cbn. by rewrite lookup_insert_eq.
  - intros x Hx. unfold seen. cbn. by rewrite lookup_insert_ne by done.
Qed.

(** More bits in every slot. *)
Definition more (V W : bytes -> list LogBloom) : Prop := forall id o, 0 <= o -> within (slot (V id) o) (slot (W id) o).
Lemma more_eq V W : (forall id, W id = V id) -> more V W.
Proof. intros E id o _. rewrite E. apply within_refl. Qed.
Lemma more_trans U V W : more U V -> more V W -> more U W.
Proof. intros H1 H2 id o Ho. by eapply within_trans; [apply H1|apply H2]. Qed.
Lemma cover_more V W k x : 0 <= k -> more V W -> cover V k x -> cover W k x.
Proof.
  intros Hk Hm [H1 H2]. split; [eapply within_trans; [exact H1|]|eapply within_trans; [exact H2|]]; apply Hm; apply Z.mod_pos_bound; lia.
Qed.

Lemma places k : 0 <= k < 2 ^ 28 -> 0 <= k / 16 < 2 ^ 24 /\ 0 <= k / 16 / 16 < 2 ^ 24 /\ 0 <= k mod 16 < 16 /\ 0 <= (k / 16) mod 16 < 16.
Proof. intros Hk. Z.to_euclidean_division_equations. lia. Qed.
Lemma levels_apart i j : 0 <= i < 2 ^ 24 -> 0 <= j < 2 ^ 24 -> chunkId 0 i <> chunkId 1 j.
Proof. intros Hi Hj E. apply chunkId_inj in E as [E _]; lia. Qed.

(** What changing one slot by [f] does. *)
Definition changed b b' (id : bytes) (o : Z) (f : LogBloom -> LogBloom) : Prop :=
  blooms_wf b' /\ bframe b b' /\ m_blocksBlooms b' !! id = Some (alter f (Z.to_nat o) (seen b id)) /\
  forall x, x <> id -> seen b' x = seen b x.

(** Loading the chunk [id] and changing it. *)
Lemma load_change_runs id o f b : blooms_wf b -> (forall x, bloom_ok x -> bloom_ok (f x)) ->
  runs (exec! blocksBlooms id in in_memo id o f) b (fun _ b' => changed b b' id o f).
Proof.
  intros Hw Hf. eapply bc_bind; [by apply blocksBlooms_runs|]. intros bb b1 (-> & Hw1 & Hf1 & Hs1 & Hl1 & _).
  eapply runs_mono; [by apply in_memo_seen|]. intros [] b2 (Hw2 & Hf2 & Hm2 & Hs2). rewrite Hs1 in Hm2.
  split; [done|]. split; [by etrans|]. split; [done|]. intros x Hx. destruct (Hs2 x Hx) as [-> _]. apply Hs1.
Qed.
Lemma changed_seen b b' id o f : changed b b' id o f -> seen b' id = alter f (Z.to_nat o) (seen b id).
Proof. intros (_ & _ & Hm & _). unfold seen at 1. by rewrite Hm. Qed.

Lemma or_more b b' id o x : blooms_wf b -> bloom_ok x -> 0 <= o < 16 -> changed b b' id o (fun y => FixedHash.or_eq y x) ->
  more (seen b) (seen b') /\ within x (slot (seen b' id) o).
Proof.
  intros Hw [Hx1 Hx2] Ho Hc. pose proof (seen_ok b id Hw) as Hok. pose proof (changed_seen _ _ _ _ _ Hc) as Es. destruct Hc as (_ & _ & _ & Hs). split.
  - intros y o' Ho'. destruct (decide (y = id)) as [->|Hy]; [|rewrite Hs by done; apply within_refl].
    rewrite Es, slot_alter by done. destruct (decide (o = o')) as [->|]; [|apply within_refl].
    apply within_or_l; [apply within_refl|]. destruct (slot_ok _ o' Hok). congruence.
  - rewrite Es, slot_alter, decide_True by (done || lia). apply within_or_r; [by split; [|apply within_refl]|]. destruct (slot_ok _ o Hok). congruence.
Qed.

(** Adding the bloom of a block. *)
Definition loaded b id : Prop := m_blocksBlooms b !! id = None -> stored b id = NullBlocksBlooms.
Lemma bframe_stored b b' id : bframe b b' -> stored b' id = stored b id.
Proof. intros Hf. unfold stored. by rewrite (bf_extrasDB _ _ Hf). Qed.

Lemma memoize_runs k b : blooms_wf b ->
  runs (memoize 2 0 k) b (fun _ b' => blooms_wf b' /\ bframe b b' /\ (forall x, seen b' x = seen b x) /\
    loaded b' (chunkId 0 (k / 16)) /\ loaded b' (chunkId 1 (k / 16 / 16))).
Proof.
  intros Hw. cbn [memoize]. change c_bloomIndexSize with 16. change (0 + 1) with 1.
  eapply bc_bind; [by apply blocksBlooms_runs|]. intros ? b1 (_ & Hw1 & Hf1 & Hs1 & Hl1 & _).
  eapply bc_bind; [by apply blocksBlooms_runs|]. intros ? b2 (_ & Hw2 & Hf2 & Hs2 & Hl2 & Hi2). apply bc_ret.
  split; [done|]. split; [by etrans|]. split; [intros x; by rewrite Hs2|]. split; [|done]. intros E.
  rewrite (bframe_stored _ _ _ Hf2). apply Hl1. destruct (m_blocksBlooms b1 !! _) eqn:E1; [|done].
  destruct (Hi2 (chunkId 0 (k / 16))) as [? ?]; [by rewrite E1|congruence].
Qed.

Lemma in_memo_changed id o f b : blooms_wf b -> loaded b id -> (forall x, bloom_ok x -> bloom_ok (f x)) ->
  runs (in_memo id o f) b (fun _ b' => changed b b' id o f /\ forall x, x <> id -> m_blocksBlooms b' !! x = m_blocksBlooms b !! x).
Proof.
  intros Hw Hl Hf. eapply runs_mono; [by apply in_memo_seen|]. intros [] b' (H1 & H2 & H3 & H4).
  split; [|intros x Hx; by apply H4]. split; [done|]. split; [done|]. split; [done|]. intros x Hx. by apply H4.
Qed.

Lemma add_bloom_runs k x b : blooms_wf b -> 0 <= k < 2 ^ 28 -> bloom_ok x ->
  runs (exec! memoize (Z.to_nat c_bloomIndexLevels) 0 k in alter_blooms (Z.to_nat c_bloomIndexLevels) 0 k x) b (fun ids b' =>
    ids = [chunkId 0 (k / 16); chunkId 1 (k / 16 / 16)] /\ blooms_wf b' /\ bframe b b' /\ more (seen b) (seen b') /\ cover (seen b') k x /\
    (forall id, id ∈ ids -> m_blocksBlooms b' !! id = Some (seen b' id)) /\ forall id, id ∉ ids -> seen b' id = seen b id).
Proof.
  intros Hw Hk Hx. change (Z.to_nat c_bloomIndexLevels) with 2%nat. eapply bc_bind; [by apply memoize_runs|].
  intros [] b0 (Hw0 & Hf0 & Hs0 & Hl0 & Hl1). cbn [alter_blooms]. change c_bloomIndexSize with 16. change (0 + 1) with 1.
  destruct (places k Hk) as (P0 & P1 & P2 & P3). pose proof (levels_apart _ _ P0 P1) as Hne.
  set (i0 := chunkId 0 (k / 16)) in *. set (i1 := chunkId 1 (k / 16 / 16)) in *.
  assert (forall y, bloom_ok y -> bloom_ok (FixedHash.or_eq y x)) as Hf by (intros y Hy; by apply bloom_or).
  eapply bc_bind; [by apply in_memo_changed|]. intros [] b1 [C1 M1]. pose proof C1 as (Hw1 & Hf1 & Hm1 & Hs1).
  assert (loaded b1 i1) as Hl1'. { intros E. rewrite (bframe_stored _ _ _ Hf1). apply Hl1. by rewrite <- M1. }
  eapply (bc_bind _ _ _ (fun l b2 => l = [i1] /\ changed b1 b2 i1 ((k / 16) mod 16) (fun y => FixedHash.or_eq y x) /\
    forall y, y <> i1 -> m_blocksBlooms b2 !! y = m_blocksBlooms b1 !! y)).
  { eapply bc_bind; [by apply in_memo_changed|]. intros [] b2 [C2 M2]. by apply bc_ret. }
  intros l b2 (-> & C2 & M2). apply bc_ret. pose proof C2 as (Hw2 & Hf2 & Hm2 & Hs2).
  destruct (or_more _ _ _ _ _ Hw0 Hx P2 C1) as [Hmore1 Hc1]. destruct (or_more _ _ _ _ _ Hw1 Hx P3 C2) as [Hmore2 Hc2].
  split; [done|]. split; [done|]. split; [by etrans; [|etrans]|]. split.
  { eapply more_trans; [by apply more_eq|]. by eapply more_trans. }
  split. { split; [|done]. rewrite Hs2 by done. done. }
  split.
  - intros id Hid. apply elem_of_cons in Hid as [->|Hid].
    + rewrite M2 by done. unfold seen. by rewrite M2, Hm1 by done.
    + apply list_elem_of_singleton in Hid as ->. unfold seen. by rewrite Hm2.
  - intros id Hid. apply not_elem_of_cons in Hid as [Hid0 Hid1]. apply not_elem_of_cons in Hid1 as [Hid1 _]. by rewrite Hs2, Hs1, Hs0.
Qed.

(** ** Clearing *)

Lemma clear_item_runs level item b : blooms_wf b -> level = 0 \/ level = 1 ->
  runs (clear_item level item) b (fun _ b' => exists acc, bloom_ok acc /\
    (level = 1 -> forall o, 0 <= o < 16 -> within (slot (seen b (chunkId 0 item)) o) acc) /\
    changed b b' (chunkId level (item / 16)) (item mod 16) (fun _ => acc)).
Proof.
  intros Hw Hlev. unfold clear_item. change c_bloomIndexSize with 16.
  eapply (bc_bind _ _ _ (fun acc b1 => bloom_ok acc /\ (level = 1 -> forall o, 0 <= o < 16 -> within (slot (seen b (chunkId 0 item)) o) acc) /\
    blooms_wf b1 /\ bframe b b1 /\ forall x, seen b1 x = seen b x)).
  - destruct Hlev as [-> | ->]; cbn [Z.eqb negb].
    + apply bc_ret. split; [apply empty_ok|]. split; [lia|]. done.
    + change (negb (1 =? 0)) with true. cbn iota. change (1 - 1) with 0.
      eapply bc_bind; [by apply blocksBlooms_runs|]. intros bb b1 (-> & Hw1 & Hf1 & Hs1 & _). apply bc_ret.
      pose proof (seen_ok b (chunkId 0 item) Hw) as [Hl Hb]. split; [by apply fold_or_ok; [apply empty_ok|]|]. split; [|done].
      intros _ o Ho. apply fold_or_within; [apply empty_ok|done|]. right. apply Exists_exists.
      destruct (lookup_lt_is_Some_2 (seen b (chunkId 0 item)) (Z.to_nat o) ltac:(lia)) as [x Hx]. exists x.
      split; [by eapply list_elem_of_lookup_2|]. unfold slot. rewrite Hx. apply within_refl.
  - intros acc b1 (Ha & Hacc & Hw1 & Hf1 & Hs1). eapply runs_mono; [by apply load_change_runs|].
    intros [] b2 (Hw2 & Hf2 & Hm2 & Hs2). exists acc. split; [done|]. split; [done|]. split; [done|]. split; [by etrans|].
    split; [by rewrite <- Hs1|]. intros x Hx. rewrite Hs2 by done. apply Hs1.
Qed.

(** The first level: the slots below the first item stay. *)
Lemma clear_items_0 n : forall item b, blooms_wf b -> 0 <= item -> item + Z.of_nat n <= 2 ^ 28 ->
  runs (clear_items n 0 item) b (fun _ b' => blooms_wf b' /\ bframe b b' /\
    (forall i, 0 <= i < 2 ^ 24 -> seen b' (chunkId 1 i) = seen b (chunkId 1 i)) /\
    forall k, 0 <= k < item -> slot (seen b' (chunkId 0 (k / 16))) (k mod 16) = slot (seen b (chunkId 0 (k / 16))) (k mod 16)).
Proof.
  induction n as [|n IH]; intros item b Hw Hi Hn; cbn [clear_items]; [by apply bc_ret|].
  eapply bc_bind; [by apply clear_item_runs; [|left]|]. intros [] b1 (acc & Hacc & _ & C1). pose proof C1 as (Hw1 & Hf1 & _ & Hs1).
  rewrite wrap_small by (unfold uint_ok; lia). eapply runs_mono; [apply IH; [done|lia|lia]|]. intros [] b2 (Hw2 & Hf2 & H1 & H0).
  destruct (places item ltac:(lia)) as (P0 & _ & P2 & _).
  split; [done|]. split; [by etrans|]. split.
  - intros i Hi'. rewrite H1 by done. apply Hs1. apply not_eq_sym, levels_apart; [done|done].
  - intros k Hk. rewrite H0 by lia. destruct (places k ltac:(lia)) as (Q0 & _ & Q2 & _).
    destruct (decide (chunkId 0 (k / 16) = chunkId 0 (item / 16))) as [E|E]; [|by rewrite Hs1].
    apply chunkId_inj in E as [_ E]; [|lia..]. rewrite E, (changed_seen _ _ _ _ _ C1).
    rewrite slot_alter by (apply seen_ok || lia; done). rewrite decide_False; [done|]. intros E'.
    pose proof (Z.div_mod k 16 ltac:(lia)). pose proof (Z.div_mod item 16 ltac:(lia)). lia.
Qed.

(** The second level: a slot stays, or is computed anew. *)
Lemma clear_items_1 n : forall item b, blooms_wf b -> 0 <= item -> item + Z.of_nat n <= 2 ^ 24 ->
  runs (clear_items n 1 item) b (fun _ b' => blooms_wf b' /\ bframe b b' /\
    (forall i, 0 <= i < 2 ^ 24 -> seen b' (chunkId 0 i) = seen b (chunkId 0 i)) /\
    forall j, 0 <= j < 2 ^ 24 -> slot (seen b' (chunkId 1 (j / 16))) (j mod 16) = slot (seen b (chunkId 1 (j / 16))) (j mod 16) \/
      forall o, 0 <= o < 16 -> within (slot (seen b (chunkId 0 j)) o) (slot (seen b' (chunkId 1 (j / 16))) (j mod 16))).
Proof.
  induction n as [|n IH]; intros item b Hw Hi Hn; cbn [clear_items]; [apply bc_ret; repeat (split; [done|]); by left|].
  eapply bc_bind; [by apply clear_item_runs; [|right]|]. intros [] b1 (acc & Hacc & Hin & C1). pose proof C1 as (Hw1 & Hf1 & _ & Hs1).
  rewrite wrap_small by (unfold uint_ok; lia). eapply runs_mono; [apply IH; [done|lia|lia]|]. intros [] b2 (Hw2 & Hf2 & H0 & H1).
  destruct (places item ltac:(lia)) as (P0 & _ & P2 & _).
  assert (forall i, 0 <= i < 2 ^ 24 -> seen b1 (chunkId 0 i) = seen b (chunkId 0 i)) as Hb1.
  { intros i Hi'. apply Hs1. by apply levels_apart. }
  split; [done|]. split; [by etrans|]. split; [intros i Hi'; by rewrite H0, Hb1|].
  intros j Hj. destruct (places j ltac:(lia)) as (Q0 & _ & Q2 & _). destruct (H1 j Hj) as [E|E].
  - rewrite E. destruct (decide (j = item)) as [->|Hne].
    + right. intros o Ho. rewrite (changed_seen _ _ _ _ _ C1), slot_alter, decide_True by (apply seen_ok || lia; done). by apply Hin.
    + left. destruct (decide (chunkId 1 (j / 16) = chunkId 1 (item / 16))) as [E'|E']; [|by rewrite Hs1].
      apply chunkId_inj in E' as [_ E']; [|lia..]. rewrite E', (changed_seen _ _ _ _ _ C1).
      rewrite slot_alter by (apply seen_ok || lia; done). rewrite decide_False; [done|]. intros E''.
      pose proof (Z.div_mod j 16 ltac:(lia)). pose proof (Z.div_mod item 16 ltac:(lia)). lia.
  - right. intros o Ho. rewrite <- Hb1 by done. by apply E.
Qed.

Lemma clearBlockBlooms_runs first end_ b : blooms_wf b -> 0 <= first < end_ -> end_ <= 2 ^ 28 ->
  runs (clearBlockBlooms first end_) b (fun _ b' => blooms_wf b' /\ bframe b b' /\
    forall k x, 0 <= k < first -> cover (seen b) k x -> cover (seen b') k x).
Proof.
  intros Hw Hfe He. unfold clearBlockBlooms. change (Z.to_nat c_bloomIndexLevels) with 2%nat. cbn [clear_levels]. change c_bloomIndexSize with 16.
  rewrite (wrap_small 32 (end_ - first)) by (unfold uint_ok; lia). rewrite (wrap_small 32 (end_ - 1)) by (unfold uint_ok; lia).
  assert (first / 16 <= (end_ - 1) / 16) by (apply Z.div_le_mono; lia).
  destruct (places (end_ - 1) ltac:(lia)) as (P0 & _). destruct (places first ltac:(lia)) as (F0 & _).
  rewrite (wrap_small 32 ((end_ - 1) / 16 + 1)) by (unfold uint_ok; lia).
  rewrite (wrap_small 32 ((end_ - 1) / 16 + 1 - first / 16)) by (unfold uint_ok; lia).
  eapply bc_bind; [apply clear_items_0; [done|lia|lia]|]. intros [] b1 (Hw1 & Hf1 & H11 & H10). change (0 + 1) with 1.
  eapply bc_bind; [apply clear_items_1; [done|lia|lia]|]. intros [] b2 (Hw2 & Hf2 & H20 & H21). apply bc_ret.
  split; [done|]. split; [by etrans|]. intros k x Hk [C0 C1]. destruct (places k ltac:(lia)) as (K0 & K1 & K2 & K3).
  assert (within x (slot (seen b2 (chunkId 0 (k / 16))) (k mod 16))) as D0 by (by rewrite H20, H10).
  split; [done|]. destruct (H21 (k / 16) K0) as [E|E]; [by rewrite E, H11|].
  eapply within_trans; [|by apply (E (k mod 16))]. by rewrite <- H20.
Qed.

(** ** Searching *)

(** The search, as a function of what the queries give. *)
Section Search.
Variables (V : bytes -> list LogBloom) (_b : LogBloom) (_earliest _latest : Z).
Fixpoint find_loop (rec : Z -> list Z) (n : nat) (o _index : Z) (bb : list LogBloom) : list Z :=
  match n with
  | O => []
  | S n' => (if FixedHash.contains (slot bb o) _b then rec (o + _index * 16) else []) ++ find_loop rec n' (o + 1) _index bb
  end.
Definition first_slot (uCourse uFine _index : Z) : Z := if _index =? _earliest / uCourse then (_earliest / uFine) mod 16 else 0.
Definition slots (uCourse uFine _index : Z) : nat :=
  Z.to_nat ((if _index =? _latest / uCourse then (_latest / uFine) mod 16 + 1 else 16) - first_slot uCourse uFine _index).
Definition find_0 (_index : Z) : list Z :=
  find_loop (fun n => [n]) (slots 16 1 _index) (first_slot 16 1 _index) _index (V (chunkId 0 _index)).
Definition find_1 (_index : Z) : list Z :=
  find_loop find_0 (slots 256 16 _index) (first_slot 256 16 _index) _index (V (chunkId 1 _index)).
Fixpoint find_top (n : nat) (index : Z) : list Z := match n with O => [] | S n' => find_1 index ++ find_top n' (index + 1) end.

Lemma elem_of_find_loop rec n : forall o _index bb z,
  z ∈ find_loop rec n o _index bb <-> exists o', o <= o' < o + Z.of_nat n /\ FixedHash.contains (slot bb o') _b = true /\ z ∈ rec (o' + _index * 16).
Proof.
  induction n as [|n IH]; intros o i bb z; cbn [find_loop].
  - split; [by intros ?%not_elem_of_nil|intros (o' & Ho & _); lia].
  - rewrite elem_of_app, IH. split.
    + intros [H1|(o' & Ho & H2)]; [|exists o'; split; [lia|done]]. destruct (FixedHash.contains (slot bb o) _b) eqn:E; [|by apply not_elem_of_nil in H1].
      exists o. split; [lia|done].
    + intros (o' & Ho & Hc & Hz). destruct (decide (o' = o)) as [->|Hne]; [left; by rewrite Hc|right; exists o'; split; [lia|done]].
Qed.
Lemma elem_of_find_top n : forall i z, z ∈ find_top n i <-> exists j, i <= j < i + Z.of_nat n /\ z ∈ find_1 j.
Proof.
  induction n as [|n IH]; intros i z; cbn [find_top].
  - split; [by intros ?%not_elem_of_nil|intros (j & Hj & _); lia].
  - rewrite elem_of_app, IH. split.
    + intros [H1|(j & Hj & H2)]; [exists i; split; [lia|done]|exists j; split; [lia|done]].
    + intros (j & Hj & Hz). destruct (decide (j = i)) as [->|Hne]; [by left|right; exists j; split; [lia|done]].
Qed.

Lemma first_slot_le uCourse uFine k : 0 < uFine -> uCourse = 16 * uFine -> 0 <= _earliest <= k -> first_slot uCourse uFine (k / uCourse) <= (k / uFine) mod 16.
Proof.
  intros Hu -> Hk. unfold first_slot. assert (0 <= (k / uFine) mod 16) by (apply Z.mod_pos_bound; lia).
  rewrite (Z.mul_comm 16), <- !Z.div_div by lia. destruct (Z.eqb_spec (k / uFine / 16) (_earliest / uFine / 16)) as [E|]; [|done].
  assert (_earliest / uFine <= k / uFine) by (apply Z.div_le_mono; lia).
  pose proof (Z.div_mod (k / uFine) 16 ltac:(lia)). pose proof (Z.div_mod (_earliest / uFine) 16 ltac:(lia)). lia.
Qed.
Lemma slots_gt uCourse uFine k : 0 < uFine -> uCourse = 16 * uFine -> 0 <= _earliest <= k -> k <= _latest \/ k / uCourse <> _latest / uCourse ->
  (k / uFine) mod 16 < first_slot uCourse uFine (k / uCourse) + Z.of_nat (slots uCourse uFine (k / uCourse)).
Proof.
  intros Hu Hc Hk Hl. pose proof (first_slot_le uCourse uFine k Hu Hc Hk) as Hf. unfold slots.
  assert ((k / uFine) mod 16 < (if k / uCourse =? _latest / uCourse then (_latest / uFine) mod 16 + 1 else 16)) as Hg; [|lia].
  pose proof (Z.mod_pos_bound (k / uFine) 16 ltac:(lia)). subst uCourse. rewrite (Z.mul_comm 16), <- !Z.div_div in * by lia.
  destruct (Z.eqb_spec (k / uFine / 16) (_latest / uFine / 16)) as [E|]; [|lia].
  destruct Hl as [Hl|Hl]; [|done]. assert (k / uFine <= _latest / uFine) by (apply Z.div_le_mono; lia).
  pose proof (Z.div_mod (k / uFine) 16 ltac:(lia)). pose proof (Z.div_mod (_latest / uFine) 16 ltac:(lia)). lia.
Qed.

(** Every number of the range whose slots have the bits is found. *)
Lemma find_complete k n : 0 <= _earliest <= k -> k <= _latest \/ k / 256 <> _latest / 256 -> cover V k _b -> k / 256 < _earliest / 256 + Z.of_nat n ->
  k ∈ find_top n (_earliest / 256).
Proof.
  intros He Hl [[_ C0] [_ C1]] Hn. apply elem_of_find_top. exists (k / 256).
  assert (_earliest / 256 <= k / 256) by (apply Z.div_le_mono; lia). split; [lia|].
  assert (forall z, z / 16 / 16 = z / 256) as E by (intros z; rewrite Z.div_div by lia; done). rewrite (E k) in C1.
  assert (k <= _latest \/ k / 16 <> _latest / 16) as Hl' by (rewrite <- !E in Hl; destruct Hl as [Hl|Hl]; [by left|right; congruence]).
  unfold find_1. apply elem_of_find_loop. exists ((k / 16) mod 16).
  pose proof (first_slot_le 256 16 k ltac:(lia) ltac:(lia) He). pose proof (slots_gt 256 16 k ltac:(lia) ltac:(lia) He Hl).
  split; [lia|]. split; [done|].
  replace ((k / 16) mod 16 + k / 256 * 16) with (k / 16) by (rewrite <- (E k); pose proof (Z.div_mod (k / 16) 16 ltac:(lia)); lia).
  unfold find_0. apply elem_of_find_loop. exists (k mod 16).
  pose proof (first_slot_le 16 1 k ltac:(lia) ltac:(lia) He) as Q1. pose proof (slots_gt 16 1 k ltac:(lia) ltac:(lia) He Hl') as Q2.
  rewrite Z.div_1_r in Q1, Q2. split; [lia|]. split; [done|].
  replace (k mod 16 + k / 16 * 16) with k by (pose proof (Z.div_mod k 16 ltac:(lia)); lia). by apply list_elem_of_singleton.
Qed.

(** What is found has the bits in its own slot, and is not below the range. *)
Lemma find_sound k n : 0 <= _earliest -> k ∈ find_top n (_earliest / 256) ->
  _earliest <= k /\ FixedHash.contains (slot (V (chunkId 0 (k / 16))) (k mod 16)) _b = true.
Proof.
  intros He Hk. apply elem_of_find_top in Hk as (j & Hj & Hk). unfold find_1 in Hk. apply elem_of_find_loop in Hk as (o1 & Ho1 & _ & Hk).
  unfold find_0 in Hk. apply elem_of_find_loop in Hk as (o0 & Ho0 & Hc & Hk). apply list_elem_of_singleton in Hk as ->.
  assert (forall u w i, 0 <= first_slot u w i /\ first_slot u w i + Z.of_nat (slots u w i) <= Z.max (first_slot u w i) 16) as Hb.
  { intros u w i. unfold slots. assert (0 <= first_slot u w i < 16) as Hf.
    { unfold first_slot. destruct (_ =? _); [apply Z.mod_pos_bound|]; lia. }
    split; [lia|]. destruct (_ =? _); [|lia]. pose proof (Z.mod_pos_bound (_latest / w) 16 ltac:(lia)). lia. }
  assert (0 <= o1 < 16) as B1. { pose proof (Hb 256 16 j). lia. }
  assert (0 <= o0 < 16) as B0. { pose proof (Hb 16 1 (o1 + j * 16)). lia. }
  assert ((o0 + (o1 + j * 16) * 16) / 16 = o1 + j * 16) as -> by (rewrite Z.div_add, Z.div_small by lia; lia).
  assert ((o0 + (o1 + j * 16) * 16) mod 16 = o0) as -> by (rewrite Z.mod_add, Z.mod_small by lia; lia). split; [|done].
  assert (first_slot 256 16 j <= o1) as F1 by lia. assert (first_slot 16 1 (o1 + j * 16) <= o0) as F0 by lia.
  unfold first_slot in F1, F0. rewrite Z.div_1_r in F0. revert F1 F0. clear Hb Hc Ho1 Ho0.
  destruct (Z.eqb_spec j (_earliest / 256)), (Z.eqb_spec (o1 + j * 16) (_earliest / 16)); intros F1 F0; Z.to_euclidean_division_equations; lia.
Qed.
End Search.

Lemma find_loop_ext q r1 r2 n : (forall z, r1 z = r2 z) -> forall o i bb, find_loop q r1 n o i bb = find_loop q r2 n o i bb.
Proof. intros E. induction n as [|n IH]; intros o i bb; [done|]. cbn [find_loop]. by rewrite E, IH. Qed.
Lemma find_1_ext V W q e l i : (forall x, V x = W x) -> find_1 V q e l i = find_1 W q e l i.
Proof. intros E. unfold find_1. rewrite E. apply find_loop_ext. intros z. unfold find_0. by rewrite E. Qed.

(** A query: nothing that can be seen changes. *)
Definition quiet b b' : Prop := blooms_wf b' /\ bframe b b' /\ forall x, seen b' x = seen b x.
Lemma quiet_same b : blooms_wf b -> quiet b b.
Proof. done. Qed.
Lemma quiet_trans b1 b2 b3 : quiet b1 b2 -> quiet b2 b3 -> quiet b1 b3.
Proof. intros (W1 & F1 & S1) (W2 & F2 & S2). split; [done|]. split; [by etrans|]. intros x. by rewrite S2. Qed.

Lemma search_loop_runs q rec pure V bb (n : nat) : forall o i b,
  (forall b' z, quiet b b' -> i * 16 <= z < i * 16 + 16 -> runs (rec z) b' (fun r b'' => r = pure z /\ quiet b' b'')) ->
  blooms_wf b -> (forall x, seen b x = V x) -> 0 <= o -> 0 <= i -> o + Z.of_nat n <= 16 -> i < 2 ^ 27 ->
  runs (search_loop q rec n o i bb) b (fun r b' => r = find_loop q pure n o i bb /\ quiet b b').
Proof.
  induction n as [|n IH]; intros o i b Hr Hw HV Ho Hi Hn Hi'; cbn [search_loop find_loop]; [by apply bc_ret|].
  change c_bloomIndexSize with 16. rewrite (wrap_small 32 (i * 16)) by (unfold uint_ok; lia).
  rewrite (wrap_small 32 (o + i * 16)) by (unfold uint_ok; lia). fold (slot bb o).
  eapply (bc_bind _ _ _ (fun r b1 => r = (if FixedHash.contains (slot bb o) q then pure (o + i * 16) else []) /\ quiet b b1)).
  { destruct (FixedHash.contains (slot bb o) q); [|by apply bc_ret]. apply Hr; [done|lia]. }
  intros r b1 [-> Q1]. pose proof Q1 as (W1 & F1 & S1).
  eapply bc_bind; [apply IH; [|done|by intros x; rewrite S1|lia|lia|lia|lia]|].
  { intros b' z Q Hz. apply Hr; [by eapply quiet_trans|done]. }
  intros rs b2 [-> Q2]. apply bc_ret. split; [done|by eapply quiet_trans].
Qed.

Lemma find_0_runs q e l i b : blooms_wf b -> 0 <= i < 2 ^ 27 -> 0 <= e -> 0 <= l ->
  runs (withBlockBloom_at q e l 0 i) b (fun r b' => r = find_0 (seen b) q e l i /\ quiet b b').
Proof.
  intros Hw Hi He Hl. cbn [withBlockBloom_at]. change (upow c_bloomIndexSize (Z.of_nat 0 + 1)) with 16. change (upow c_bloomIndexSize (Z.of_nat 0)) with 1.
  change (Z.of_nat 0) with 0. change c_bloomIndexSize with 16. eapply bc_bind; [by apply blocksBlooms_runs|]. intros bb b1 (-> & W1 & F1 & S1 & _).
  assert (quiet b b1) as Q1 by done. fold (first_slot e 16 1 i). unfold find_0. fold (slots e l 16 1 i).
  eapply runs_mono; [apply (search_loop_runs q _ (fun n => [n]) (seen b)); [|done|done| |lia| |lia]|].
  - intros b' z (W' & _) _. by apply bc_ret.
  - unfold first_slot. destruct (_ =? _); [apply Z.mod_pos_bound|]; lia.
  - unfold slots. assert (0 <= first_slot e 16 1 i < 16) by (unfold first_slot; destruct (_ =? _); [apply Z.mod_pos_bound|]; lia).
    pose proof (Z.mod_pos_bound (l / 1) 16 ltac:(lia)). destruct (i =? l / 16); lia.
  - intros r b' [-> Q]. split; [done|by eapply quiet_trans].
Qed.
Lemma find_1_runs q e l i b : blooms_wf b -> 0 <= i < 2 ^ 22 -> 0 <= e -> 0 <= l ->
  runs (withBlockBloom_at q e l 1 i) b (fun r b' => r = find_1 (seen b) q e l i /\ quiet b b').
Proof.
  intros Hw Hi He Hl. cbn [withBlockBloom_at]. change (upow c_bloomIndexSize (Z.of_nat 1 + 1)) with 256. change (upow c_bloomIndexSize (Z.of_nat 1)) with 16.
  change (Z.of_nat 1) with 1. change c_bloomIndexSize with 16. eapply bc_bind; [by apply blocksBlooms_runs|]. intros bb b1 (-> & W1 & F1 & S1 & _).
  assert (quiet b b1) as Q1 by done. fold (first_slot e 256 16 i). unfold find_1. fold (slots e l 256 16 i).
  assert (0 <= first_slot e 256 16 i < 16) as Hf by (unfold first_slot; destruct (_ =? _); [apply Z.mod_pos_bound|]; lia).
  assert (first_slot e 256 16 i + Z.of_nat (slots e l 256 16 i) <= 16) as Hs.
  { unfold slots. pose proof (Z.mod_pos_bound (l / 16) 16 ltac:(lia)). destruct (i =? l / 256); lia. }
  eapply runs_mono; [apply (search_loop_runs q _ (find_0 (seen b) q e l) (seen b)); [|done|done|lia|lia|lia|lia]|].
  - intros b' z Q Hz. pose proof (quiet_trans _ _ _ Q1 Q) as (W' & F' & S').
    eapply runs_mono; [apply find_0_runs; [done|lia|done|done]|]. intros r b'' [-> Q']. split; [|done]. unfold find_0. by rewrite S'.
  - intros r b' [-> Q]. split; [done|by eapply quiet_trans].
Qed.

Lemma withBlockBloom_runs q e l b : blooms_wf b -> 0 <= e <= l -> l < 2 ^ 28 ->
  runs (withBlockBloom q e l) b (fun r b' => quiet b b' /\ (forall k, e <= k -> k <= l \/ l / 256 < k / 256 <= (l + 255) / 256 -> cover (seen b) k q -> k ∈ r) /\
    forall k, k ∈ r -> e <= k /\ FixedHash.contains (slot (seen b (chunkId 0 (k / 16))) (k mod 16)) q = true).
Proof.
  intros Hw He Hl. unfold withBlockBloom. change (upow c_bloomIndexSize c_bloomIndexLevels) with 256. unfold ceilDiv.
  rewrite (wrap_small 32 (l + 256)) by (unfold uint_ok; lia). rewrite (wrap_small 32 (l + 256 - 1)) by (unfold uint_ok; lia).
  replace (l + 256 - 1) with (l + 255) by lia.
  assert (0 <= e / 256) by (apply Z.div_pos; lia). assert (e / 256 <= l / 256) by (apply Z.div_le_mono; lia).
  assert (l / 256 <= (l + 255) / 256) by (apply Z.div_le_mono; lia).
  assert ((l + 255) / 256 < 2 ^ 21) as Hc by (apply Z.div_lt_upper_bound; lia).
  set (n := Z.to_nat ((l + 255) / 256 + 1 - e / 256)).
  assert (forall n i b', quiet b b' -> 0 <= i -> i + Z.of_nat n <= 2 ^ 22 ->
    runs (top_loop q e l n i) b' (fun r b'' => r = find_top (seen b) q e l n i /\ quiet b' b'')) as Ht.
  { clear n. induction n as [|n IH]; intros i b' Q Hi Hn; cbn [top_loop find_top]; [apply bc_ret; split; [done|]; by destruct Q|].
    change (Z.to_nat (c_bloomIndexLevels - 1)) with 1%nat. pose proof Q as (W & F & S).
    eapply bc_bind; [apply find_1_runs; [done|lia|lia|lia]|]. intros r b1 [-> Q1].
    eapply bc_bind; [apply IH; [by eapply quiet_trans|lia|lia]|]. intros rs b2 [-> Q2]. apply bc_ret.
    split; [|by eapply quiet_trans]. f_equal. by apply find_1_ext. }
  eapply runs_mono; [apply Ht; [done|lia|unfold n; lia]|]. intros r b' [-> Q]. split; [done|]. split.
  - intros k Hk Hor Hcov. apply find_complete; [lia|lia|done|]. unfold n.
    destruct Hor as [Hor|Hor]; [assert (k / 256 <= l / 256) by (apply Z.div_le_mono; lia)|]; lia.
  - intros k Hk. apply (find_sound _ _ _ _ k) in Hk; [done|lia].
Qed.

End Chain.
End ChainBlooms.
