(* ===== verification/ChainIndex.v ===== *)
(** * ChainIndex: what is written for the blocks of a new route

    When a block becomes the head, the numbers, the addresses of the transactions and
    the blooms of the blocks on the way to it are collated into the batch.  The batch is
    shown to have each of them, and the caches to be cut back to the blocks that stay. *)

From stdpp Require Import base list numbers option gmap.
From Stdlib Require Import ZArith Lia.
From S2P Require Import Prelude Bytes Rlp RlpStream RlpFields Keccak OverlayDB Crypto Transaction BlockHeader Seal Receipt BlockChain ChainStore.
From S2P Require Import ChainTree ChainBlooms.
Import CommonData RLP RLPStream RlpFields Keccak.

#[local] Opaque sha3.

Module ChainIndex.
Import Bloom LogEntry Receipt BlockDetails BlockChain ChainStore ChainTree ChainBlooms.
Import BlockHeader (BlockHeader, m_parentHash, m_number, m_gasUsed, m_logBloom, m_author, m_difficulty, m_hash, make_header, extractHeader,
  HeaderData, BlockData, WithSeal).

(** The bloom that the chain keeps for a block. *)
Definition indexed (h : BlockHeader) : LogBloom := shiftBloom 3 (m_logBloom h) (sha3 (m_author h)).

(** Goals about the kinds of records. *)
Ltac kind := first [done | unfold ExtraDetails, ExtraBlockHash, ExtraTransactionAddress, ExtraLogBlooms, ExtraReceipts, ExtraBlocksBlooms in *; lia
  | refine (bool_decide_eq_true_1 _ _); vm_compute; reflexivity].

(** Keys of one of the given kinds. *)
Definition kinds (S : list Z) (batch : list (bytes * bytes)) : Prop := Forall (fun kv => exists y s, kv.1 = toSlice y s /\ s ∈ S) batch.
Lemma kinds_None S batch y s : kinds S batch -> Forall (fun s => 0 <= s < 6) S -> 0 <= s < 6 -> s ∉ S -> batch_value batch (toSlice y s) = None.
Proof.
  intros Hk HS Hs Hn. apply OverlayDB.batch_value_notin. intros ([k v] & E & Hin)%list_elem_of_fmap. cbn in E. symmetry in E. unfold kinds in Hk. rewrite Forall_forall in Hk. destruct (Hk _ Hin) as (y' & s' & E' & Hs').
  cbn in E'. rewrite E' in E. rewrite Forall_forall in HS. specialize (HS _ Hs'). apply toSlice_inj in E as [_ ->]; [done|lia|lia].
Qed.
Lemma kinds_best S batch : kinds S batch -> Forall (fun s => 0 <= s < 6) S -> batch_value batch best = None.
Proof.
  intros Hk HS. apply OverlayDB.batch_value_notin. intros ([k v] & E & Hin)%list_elem_of_fmap. cbn in E. symmetry in E. unfold kinds in Hk. rewrite Forall_forall in Hk. destruct (Hk _ Hin) as (y' & s' & E' & Hs').
  cbn in E'. rewrite Forall_forall in HS. specialize (HS _ Hs'). subst k. by apply (toSlice_best y' s').
Qed.
Lemma kinds_app S a c : kinds S a -> kinds S c -> kinds S (a ++ c).
Proof. intros Ha Hc. by apply Forall_app. Qed.

Lemma kinds_mono S S' a : kinds S a -> S ⊆ S' -> kinds S' a.
Proof. intros Ha HS. eapply List.Forall_impl; [|exact Ha]. intros kv (y & s & E & Hs). exists y, s. auto. Qed.

Section Chain.
Context {L : Type} `{LevelDB L, !LevelDBLaws L} {C : Crypto.Secp256k1}.
Variables (params : ChainParams) (G : Genesis).
Abbreviation BC := (BlockChain (L := L)).
Abbreviation BM A := (M BC bc_exn A).
Implicit Types b : BC.

(** ** What is added for one block of the route *)

(** What the insertion leaves alone until it writes. *)
Record pframe b b' : Prop := {
  pf_blocksDB : m_blocksDB b' = m_blocksDB b;
  pf_extrasDB : m_extrasDB b' = m_extrasDB b;
  pf_last : m_lastBlockHash b' = m_lastBlockHash b;
  pf_number : m_lastBlockNumber b' = m_lastBlockNumber b;
  pf_hashes : m_blockHashes b' = m_blockHashes b;
  pf_details : forall x, is_Some (m_details b !! x) -> m_details b' !! x = m_details b !! x;
  pf_memo : forall id, is_Some (m_blocksBlooms b !! id) -> is_Some (m_blocksBlooms b' !! id);
  pf_usage : usage_ok (m_cacheUsage b) -> usage_ok (m_cacheUsage b')
}.
#[export] Instance pframe_pre : PreOrder pframe.
Proof.
  split; [by intros b|]. intros x y z [? ? ? ? ? Hx ? ?] [? ? ? ? ? Hy ? ?]. split; [congruence..| |auto|auto]. intros h Hh. rewrite Hy; [by apply Hx|]. by rewrite Hx.
Qed.
Lemma frame_pframe b b' : frame b b' -> pframe b b'.
Proof. intros [? ? ? ? ? E ? ?]. split; [done..| |done]. by rewrite E. Qed.
Lemma bframe_pframe b b' : bframe b b' -> pframe b b'.
Proof. intros [? ? ? ? ? ? E ? ?]. split; [done..| |done|done]. intros x _. by rewrite E. Qed.

(** Blooms and blocks are in different fields. *)
Lemma frame_wf b b' : frame b b' -> blooms_wf b -> blooms_wf b' /\ forall id, seen b' id = seen b id.
Proof.
  intros [E1 E2 E3 E4 E5 E6 _ _] [W1 W2]. split; [split; [by rewrite E6|by rewrite E2]|]. intros id. unfold seen, stored. by rewrite E6, E2.
Qed.
Lemma bframe_store Td Tm b b' : bframe b b' -> store_ok G Td Tm b -> store_ok G Td Tm b'.
Proof. intros [E1 E2 E3 E4 E5 E6 E7 _ _] [H1 H2 H3 H4 H5 H6]. split; rewrite ?E1, ?E2, ?E6, ?E7; done. Qed.

Lemma address_loop_runs txs n : forall i hash b, List.length hash = 32%nat -> bytes_ok hash -> 0 <= i -> i + Z.of_nat n < 2 ^ 32 ->
  (forall j, i <= j < i + Z.of_nat n -> exists d, nth txs j = Ok d) ->
  runs (address_loop n txs i hash) b (fun a b' => b' = b /\ kinds [2] a).
Proof.
  induction n as [|n IH]; intros i hash b Hl Hok Hi Hn Hd; cbn [address_loop]; [apply bc_ret; split; [done|constructor]|].
  destruct (Hd i ltac:(lia)) as [d E]. eapply runs_rlp; [done|]. eapply runs_str; [apply address_store; [done|done|unfold uint_ok; lia]|].
  rewrite wrap_small by (unfold uint_ok; lia). eapply bc_bind; [apply IH; [done|done|lia|lia|]|].
  { intros j Hj. apply Hd. lia. }
  intros l b' [-> Hk]. apply bc_ret. split; [done|]. constructor; [|done]. exists (sha3 d), 2. split; [done|by left].
Qed.

Lemma blooms_loop_runs l : forall b, blooms_wf b -> (forall id, id ∈ l -> m_blocksBlooms b !! id = Some (seen b id)) ->
  runs (blooms_loop l) b (fun a b' => b' = b /\ a = map (fun id => (toSlice id ExtraBlocksBlooms, encode (hashes_item (seen b id)))) l).
Proof.
  induction l as [|id l IH]; intros b Hw Hl; cbn [blooms_loop]; [by apply bc_ret|]. apply bc_get. rewrite Hl by (by left). cbn [default].
  eapply runs_str; [by apply chunk_write, seen_ok|]. eapply bc_bind; [apply IH; [done|intros x Hx; apply Hl; by right]|].
  intros r b' [-> ->]. by apply bc_ret.
Qed.

(** The ids of the chunks of a number. *)
Definition ids (k : Z) : list bytes := [chunkId 0 (k / 16); chunkId 1 (k / 16 / 16)].

(** The batch [a] that brings the index from [b] to [b'], for blocks with the given
    hashes and numbers. *)
Record collated (l : list (bytes * Z)) (a : list (bytes * bytes)) b b' : Prop := {
  co_kinds : kinds [1; 2; 5] a;
  co_number : forall x k, (x, k) ∈ l -> batch_value a (toSlice_n k ExtraBlockHash) = Some (encode (Str x));
  co_other : forall k, 0 <= k < 2 ^ 64 -> (forall x, (x, k) ∉ l) -> batch_value a (toSlice_n k ExtraBlockHash) = None;
  co_chunk : forall id, match batch_value a (toSlice id ExtraBlocksBlooms) with
             | Some s => s = encode (hashes_item (seen b' id)) /\ is_Some (m_blocksBlooms b' !! id)
             | None => seen b' id = seen b id
             end;
  co_ids : forall x k id, (x, k) ∈ l -> id ∈ ids k -> is_Some (batch_value a (toSlice id ExtraBlocksBlooms))
}.

Lemma hash_of_runs {B} x n b (k : bytes -> BM B) R : node_ok x n -> runs (k x) b R -> runs (mbind (hash_of (n_header n)) k) b R.
Proof.
  intros Hn Hk. unfold hash_of. eapply runs_hdr; [|exact Hk]. unfold BlockHeader.hash. cbn [BlockHeader.memo].
  rewrite (n_hash _ _ Hn), (n_nonzero _ _ Hn). done.
Qed.

Lemma runs_assoc {A B D} (m : BM A) (f : A -> BM B) (g : B -> BM D) b R :
  runs (mbind (mbind m f) g) b R -> runs (mbind m (fun x => mbind (f x) g)) b R.
Proof. unfold runs, mbind. by destruct (m b) as [[]]. Qed.

Lemma collated_nil b : collated [] [] b b.
Proof. split; [constructor|intros x k Hin; by apply elem_of_nil in Hin|done|done|intros x k id Hin; by apply elem_of_nil in Hin]. Qed.
Lemma collated_app l1 l2 a1 a2 b b1 b2 : collated l1 a1 b b1 -> collated l2 a2 b1 b2 -> pframe b1 b2 ->
  (forall x k, (x, k) ∈ l1 -> 0 <= k < 2 ^ 64 /\ forall y, (y, k) ∉ l2) -> collated (l1 ++ l2) (a1 ++ a2) b b2.
Proof.
  intros [K1 N1 O1 C1 I1] [K2 N2 O2 C2 I2] Hf Hne. split.
  - by apply kinds_app.
  - intros x k [Hin|Hin]%elem_of_app; rewrite OverlayDB.batch_value_app; [|by rewrite (N2 x)]. destruct (Hne x k Hin) as [Hk Hno]. rewrite O2 by done. by apply N1.
  - intros k Hk Hno. rewrite OverlayDB.batch_value_app, O2, O1; [done|done| |done|]; intros x Hin; apply (Hno x), elem_of_app; auto.
  - intros id. rewrite OverlayDB.batch_value_app. specialize (C2 id). specialize (C1 id). destruct (batch_value a2 (toSlice id ExtraBlocksBlooms)); [done|].
    rewrite C2. destruct (batch_value a1 (toSlice id ExtraBlocksBlooms)); [|done]. destruct C1 as [-> Hm]. split; [done|]. by apply (pf_memo _ _ Hf).
  - intros x k id Hin Hid. rewrite OverlayDB.batch_value_app. apply elem_of_app in Hin as [Hin|Hin].
    + destruct (batch_value a2 (toSlice id ExtraBlocksBlooms)) eqn:E2; [by eexists|]. by eapply I1.
    + destruct (I2 x k id Hin Hid) as [s ->]. by eexists.
Qed.

Lemma runs_assoc' {A B D} (m : BM A) (f : A -> BM B) (g : B -> BM D) b R :
  runs (mbind m (fun x => mbind (f x) g)) b R -> runs (mbind (mbind m f) g) b R.
Proof. unfold runs, mbind. by destruct (m b) as [[]]. Qed.

Section Collating.
Variables (Td Tm : tree) (vb : VerifiedBlockRef) (h : bytes).
Hypothesis Hd : tree_core params G Td.
Hypothesis Hm : tree_core params G Tm.

(** [n] is the block that the route calls [x]. *)
Definition on_route (x : bytes) (n : node) : Prop :=
  node_ok x n /\ (x = h /\ n_header n = vb_info vb /\ n_bytes n = vb_block vb \/ x <> h /\ Tm !! x = Some n).

Lemma collate_runs x n b : store_ok G Td Tm b -> blooms_wf b -> on_route x n ->
  runs (collate params G vb h x) b (fun a b' => store_ok G Td Tm b' /\ blooms_wf b' /\ pframe b b' /\ more (seen b) (seen b') /\
    cover (seen b') (m_number (n_header n)) (indexed (n_header n)) /\ collated [(x, m_number (n_header n))] a b b').
Proof.
  intros Hs Hw [Hn Hx]. unfold collate. destruct (n_number _ _ Hn) as [Hk0 Hk1]. set (k := m_number (n_header n)) in *.
  assert (forall b0 : BC, store_ok G Td Tm b0 -> runs (if bool_decide (x = h) then mret (vb_block vb) else block params G x) b0
    (fun d b' => d = n_bytes n /\ store_ok G Td Tm b' /\ frame b0 b')) as Hblock.
  { intros b0 Hs0. destruct Hx as [(-> & _ & E)|(Hx & E)]; [rewrite bool_decide_true by done; apply bc_ret; done|].
    rewrite bool_decide_false by done. by apply (block_runs params G Td). }
  eapply (bc_bind _ _ _ (fun t b' => t = n_header n /\ store_ok G Td Tm b' /\ frame b b')).
  { destruct Hx as [(-> & E & _)|(Hx & E)]; [rewrite bool_decide_true by done; by apply bc_ret|]. rewrite bool_decide_false by done.
    eapply bc_bind; [by apply (block_runs params G Td)|]. intros d b' (-> & Hs' & Hf'). exists (n_header n), b'. unfold hdr. by rewrite (n_make _ _ Hn). }
  intros t b1 (-> & Hs1 & Hf1). destruct (frame_wf _ _ Hf1 Hw) as [Hw1 Hsee1]. fold (indexed (n_header n)). fold k.
  rewrite (wrap_small 32 k) by (unfold uint_ok; lia). apply runs_assoc.
  eapply bc_bind; [apply add_bloom_runs; [done|lia|apply shift_ok, (n_bloom _ _ Hn)]|].
  intros l b2 (-> & Hw2 & Hf2 & Hmore & Hcov & Hids & Hoth). pose proof (bframe_store _ _ _ _ Hf2 Hs1) as Hs2.
  eapply bc_bind; [by apply Hblock|]. intros d b3 (-> & Hs3 & Hf3). destruct (frame_wf _ _ Hf3 Hw2) as [Hw3 Hsee3].
  destruct (n_txs _ _ Hn) as (r & txs & cnt & Er & Et & Ec & Hcnt & Hread).
  eapply runs_rlp; [done|]. eapply hash_of_runs; [done|]. eapply runs_rlp; [done|]. eapply runs_rlp; [done|].
  eapply bc_bind.
  { apply address_loop_runs; [apply (n_length _ _ Hn)|apply (n_ok _ _ Hn)|lia|rewrite Z2Nat.id by lia; lia|].
    intros j Hj. apply Hread. rewrite Z2Nat.id in Hj by lia. lia. }
  intros a1 b' [-> Ha1]. assert (forall id, id ∈ ids k -> m_blocksBlooms b3 !! id = Some (seen b3 id)) as Hids3.
  { intros id Hid. rewrite (f_blooms _ _ Hf3), Hsee3. by apply Hids. }
  eapply bc_bind; [by apply blooms_loop_runs|]. intros a2 b' [-> ->].
  eapply runs_str; [by apply hash_store; [apply (n_length _ _ Hn)|apply (n_ok _ _ Hn)]|]. apply bc_ret.
  assert (pframe b b3) as Hp by (etrans; [by apply frame_pframe|etrans; [by apply bframe_pframe|by apply frame_pframe]]).
  assert (more (seen b) (seen b3)) as Hmore3.
  { eapply more_trans; [by apply more_eq|]. eapply more_trans; [done|]. by apply more_eq. }
  split; [done|]. split; [done|]. split; [done|]. split; [done|].
  split; [by apply (cover_more (seen b2)); [lia|apply more_eq|]|].
  set (key := toSlice (FixedHash.of_arith 32 k) ExtraBlockHash). set (a2 := map (fun id => (toSlice id ExtraBlocksBlooms, encode (hashes_item (seen b3 id)))) (ids k)).
  assert (key = toSlice_n k ExtraBlockHash) as Ekey by (apply number_key; lia).
  assert (kinds [5] a2) as Ha2. { unfold a2, kinds. rewrite List.Forall_map. apply Forall_forall. intros id _. exists id, 5. split; [done|by left]. }
  assert (forall id, batch_value (a1 ++ a2 ++ [(key, encode (Str x))]) (toSlice id ExtraBlocksBlooms) =
    if decide (id ∈ ids k) then Some (encode (hashes_item (seen b3 id))) else None) as Hchunk.
  { intros id. rewrite !OverlayDB.batch_value_app. cbn [batch_value].
    rewrite decide_False by (unfold key; intros E; apply toSlice_inj in E as [_ E]; [kind|kind|kind]).
    rewrite (kinds_None [2] a1) by kind.
    unfold a2, ids. cbn [map batch_value]. destruct (places k ltac:(lia)) as (P0 & P1 & _ & _). pose proof (levels_apart _ _ P0 P1) as Hne.
    destruct (decide (toSlice (chunkId 1 (k / 16 / 16)) ExtraBlocksBlooms = toSlice id ExtraBlocksBlooms)) as [E|E].
    { apply toSlice_inj in E as [<- _]; [|kind..]. rewrite decide_True by (right; by left). done. }
    destruct (decide (toSlice (chunkId 0 (k / 16)) ExtraBlocksBlooms = toSlice id ExtraBlocksBlooms)) as [E'|E'].
    { apply toSlice_inj in E' as [<- _]; [|kind..]. rewrite decide_True by (by left). done. }
    rewrite decide_False; [done|]. intros Hin. apply elem_of_cons in Hin as [->|Hin]; [done|]. apply list_elem_of_singleton in Hin as ->. done. }
  assert (forall j, 0 <= j < 2 ^ 64 -> batch_value (a1 ++ a2 ++ [(key, encode (Str x))]) (toSlice_n j ExtraBlockHash) =
    if decide (j = k) then Some (encode (Str x)) else None) as Hnum.
  { intros j Hj. rewrite !OverlayDB.batch_value_app. cbn [batch_value]. rewrite Ekey, <- (number_key k), <- (number_key j) by lia.
    destruct (decide (j = k)) as [->|Hne]; [by rewrite decide_True|]. rewrite decide_False.
    - by rewrite (kinds_None [5] a2), (kinds_None [2] a1) by kind.
    - intros E. apply toSlice_inj in E as [E _]; [|kind..]. apply of_arith_inj in E; [lia|change (256 ^ Z.of_nat 32) with (2 ^ 256); lia..]. }
  split.
  - apply kinds_app; [by apply (kinds_mono [2]); [|kind]|apply kinds_app; [by apply (kinds_mono [5]); [|kind]|]].
    constructor; [|constructor]. exists (FixedHash.of_arith 32 k), 1. split; [done|kind].
  - intros y j Hin. apply list_elem_of_singleton in Hin. injection Hin as -> ->. rewrite Hnum by lia. by rewrite decide_True.
  - intros j Hj Hno. rewrite Hnum by done. rewrite decide_False; [done|]. intros ->. apply (Hno x). by left.
  - intros id. rewrite Hchunk. destruct (decide (id ∈ ids k)) as [Hin|Hin]; [split; [done|]; by rewrite Hids3|].
    rewrite Hsee3, Hoth, Hsee1; done.
  - intros y j id Hin Hid. apply list_elem_of_singleton in Hin. injection Hin as -> ->. rewrite Hchunk, decide_True; done.
Qed.

(** The loop, over the blocks [l] of the route after [common]. *)
Definition numbered (l : list (bytes * node)) : list (bytes * Z) := map (fun e => (e.1, m_number (n_header e.2))) l.
Lemma elem_of_numbered l x k : (x, k) ∈ numbered l <-> exists n, (x, n) ∈ l /\ k = m_number (n_header n).
Proof.
  unfold numbered. rewrite list_elem_of_fmap. split.
  - intros ([y n] & E & Hin). cbn in E. injection E as -> ->. by exists n.
  - intros (n & Hin & ->). by exists (x, n).
Qed.

Lemma collate_loop_runs common rest l : forall b, store_ok G Td Tm b -> blooms_wf b ->
  (forall x n, (x, n) ∈ l -> on_route x n /\ x <> common) -> NoDup (map (fun e => m_number (n_header e.2)) l) ->
  runs (collate_loop params G vb h common (map fst l ++ common :: rest)) b (fun a b' =>
    store_ok G Td Tm b' /\ blooms_wf b' /\ pframe b b' /\ more (seen b) (seen b') /\
    (forall x n, (x, n) ∈ l -> cover (seen b') (m_number (n_header n)) (indexed (n_header n))) /\ collated (numbered l) a b b').
Proof.
  induction l as [|[x n] l IH]; intros b Hs Hw Hl Hnd; cbn [map app collate_loop fst].
  - rewrite bool_decide_true by done. apply bc_ret. repeat (split; [done|]). split; [|split; [|apply collated_nil]]; [by apply more_eq|].
    intros x n Hin. by apply elem_of_nil in Hin.
  - cbn [map snd] in Hnd. apply NoDup_cons in Hnd as [Hnew Hnd]. destruct (Hl x n) as [Hx Hxc]; [by left|]. rewrite bool_decide_false by done.
    eapply bc_bind; [by apply collate_runs|]. intros a b1 (Hs1 & Hw1 & Hf1 & Hm1 & Hc1 & Hco1).
    eapply bc_bind; [apply IH; [done|done|intros y m Hin; apply Hl; by right|done]|].
    intros r b2 (Hs2 & Hw2 & Hf2 & Hm2 & Hc2 & Hco2). apply bc_ret.
    pose proof (n_number _ _ (proj1 Hx)) as Hk.
    split; [done|]. split; [done|]. split; [by etrans|]. split; [by eapply more_trans|]. split.
    + intros y m Hin. apply elem_of_cons in Hin as [Hin|Hin]; [|by apply (Hc2 y)]. injection Hin as -> ->. by apply (cover_more (seen b1)); [lia|..].
    + change (numbered ((x, n) :: l)) with ([(x, m_number (n_header n))] ++ numbered l). apply (collated_app _ _ _ _ _ b1); [done..|].
      intros y k Hin. apply list_elem_of_singleton in Hin. injection Hin as -> ->. split; [lia|]. intros z Hz.
      apply elem_of_numbered in Hz as (m & Hin & E). apply Hnew. rewrite list_elem_of_fmap. by exists (z, m).
Qed.

(** The blocks above an ancestor, with their nodes. *)
Lemma ups_nodes j : forall x n, Tm !! x = Some n -> Z.of_nat j <= m_number (n_header n) ->
  exists l, map fst l = ups Tm j x /\ (forall y m, (y, m) ∈ l -> Tm !! y = Some m) /\
    map (fun e => m_number (n_header e.2)) l = map (fun i => m_number (n_header n) - Z.of_nat i) (seq 0 j).
Proof.
  induction j as [|j IH]; intros x n Hx Hj; [exists []; repeat split; intros y m Hin; by apply elem_of_nil in Hin|].
  destruct (up_node params G Tm Hm 1 x n Hx ltac:(lia)) as (a & Ha & Hn). cbn [up] in Ha.
  destruct (IH _ _ Ha ltac:(lia)) as (l & El & Hl & En). exists ((x, n) :: l). rewrite ups_S. cbn [map fst snd seq]. rewrite El, En. split; [done|]. split.
  - intros y m Hin. apply elem_of_cons in Hin as [Hin|Hin]; [by injection Hin as -> ->|by apply Hl].
  - f_equal; [lia|]. rewrite <- seq_shift, !map_map. apply map_ext. intros i. lia.
Qed.

(** *** Switching to the new branch *)
Variable last p : bytes.
Variables ln pn nd : node.
Hypothesis Hlast : Tm !! last = Some ln.
Hypothesis Hp : Tm !! p = Some pn.
Hypothesis Hnew : Tm !! h = None.
Hypothesis Hnd : node_ok h nd.
Hypothesis Hvb : n_header nd = vb_info vb /\ n_bytes nd = vb_block vb.
Hypothesis Hparent : m_parentHash (vb_info vb) = p.
Hypothesis Hnumber : m_number (n_header nd) = m_number (n_header pn) + 1.

(** What stays of the caches. *)
Definition cut (c : Z) b b' : Prop :=
  (forall k y, m_blockHashes b' !! k = Some y -> m_blockHashes b !! k = Some y /\ (k <= c \/ m_lastBlockNumber b < k \/ c = m_lastBlockNumber b)) /\
  (forall k x, 0 <= k <= c -> cover (seen b) k x -> cover (seen b') k x) /\
  (usage_ok (m_cacheUsage b) -> usage_ok (m_cacheUsage b')).

Lemma cut_refl b : cut (m_lastBlockNumber b) b b.
Proof. split; [auto|done]. Qed.

Lemma cut_after c b b1 b2 : frame b b1 -> blooms_wf b -> cut c b1 b2 -> cut c b b2.
Proof.
  intros Hf Hw (H1 & H2 & H3). destruct (frame_wf _ _ Hf Hw) as [_ E]. split; [|split].
  - intros k y Hk. rewrite <- (f_hashes _ _ Hf), <- (f_number _ _ Hf). by apply H1.
  - intros k x Hk Hc. apply H2; [done|]. apply (cover_more (seen b)); [lia|by apply more_eq|done].
  - intros Hu. by apply H3, (f_usage _ _ Hf).
Qed.
Lemma cut_before c b b1 b2 : cut c b b1 -> pframe b1 b2 -> more (seen b1) (seen b2) -> cut c b b2.
Proof.
  intros (H1 & H2 & H3) Hf Hm'. split; [|split].
  - intros k y. rewrite (pf_hashes _ _ Hf). apply H1.
  - intros k x Hk Hc. apply (cover_more (seen b1)); [lia|done|by apply H2].
  - intros Hu. by apply (pf_usage _ _ Hf), H3.
Qed.

Lemma clearCaches_runs c b : blooms_wf b -> 0 <= c < m_lastBlockNumber b -> m_lastBlockNumber b < 2 ^ 28 ->
  runs (clearCachesDuringChainReversion (wrap 32 (c + 1))) b (fun _ b' => blooms_wf b' /\ cut c b b' /\
    m_blocksDB b' = m_blocksDB b /\ m_extrasDB b' = m_extrasDB b /\ m_lastBlockHash b' = m_lastBlockHash b /\
    m_lastBlockNumber b' = m_lastBlockNumber b /\ m_blocks b' = m_blocks b /\ m_details b' = m_details b).
Proof.
  intros Hw Hc Hn. unfold clearCachesDuringChainReversion. rewrite wrap_small by (unfold uint_ok; lia). apply bc_get.
  rewrite wrap_small by (unfold uint_ok; lia). apply bc_put, bc_put.
  eapply runs_mono; [apply clearBlockBlooms_runs; [split; apply Hw|lia|lia]|].
  intros _ b' (Hw' & [E1 E2 E3 E4 E5 E6 E7 _ Hu] & Hk). split; [done|]. split; [|done]. split; [|split; [|done]].
  - intros k y. rewrite E5. cbn. rewrite map_lookup_filter_Some. intros [E Hr]. split; [done|]. cbn in Hr. lia.
  - intros k x Hk' Hcov. apply Hk; [lia|done].
Qed.

(** The caches are cut back to the common ancestor. *)
Lemma cut_back_runs i b : store_ok G Td Tm b -> blooms_wf b -> m_lastBlockNumber b = m_number (n_header ln) -> Z.of_nat i <= m_number (n_header ln) ->
  runs (if negb (bool_decide (up Tm i last = last)) then
          do! n := number_of (up Tm i last) in clearCachesDuringChainReversion (wrap 32 (n + 1))
        else mret tt) b (fun _ b' => store_ok G Td Tm b' /\ blooms_wf b' /\ cut (m_number (n_header ln) - Z.of_nat i) b b' /\
    m_blocksDB b' = m_blocksDB b /\ m_extrasDB b' = m_extrasDB b /\
    (forall x, is_Some (m_details b !! x) -> m_details b' !! x = m_details b !! x)).
Proof.
  intros Hs Hw Hl Hi. pose proof (n_number _ _ (t_node _ _ _ Hm _ _ Hlast)) as Hln.
  destruct (up_node params G Tm Hm i last ln Hlast Hi) as (cn & Hc & Hcn).
  destruct (bool_decide_reflect (up Tm i last = last)) as [E|E]; cbn [negb].
  - pose proof (up_eq_number params G Tm Hm i 0 last last ln ln Hlast Hlast Hi ltac:(lia) E) as Ei. apply bc_ret.
    replace (m_number (n_header ln) - Z.of_nat i) with (m_lastBlockNumber b) by lia. split; [done|]. split; [done|]. split; [apply cut_refl|done].
  - assert (i <> 0%nat) as Hi0 by (intros ->; done). unfold number_of. apply runs_assoc'. eapply (runs_details params G Td Tm Hd); [done|done|].
    intros b1 Hs1 Hf1 _. unfold mret, mbind. destruct (frame_wf _ _ Hf1 Hw) as [Hw1 _]. cbn [number details_of].
    rewrite Hcn. eapply runs_mono; [apply clearCaches_runs; [done|rewrite (f_number _ _ Hf1), Hl; lia..]|].
    intros _ b2 (Hw2 & Hcut & E1 & E2 & E3 & E4 & E5 & E6). rewrite E1, E2, (f_blocksDB _ _ Hf1), (f_extrasDB _ _ Hf1).
    split; [destruct Hs1 as [S1 S2 S3 S4 S5 S6]; split; rewrite ?E1, ?E2, ?E5, ?E6; done|]. split; [done|]. split; [by eapply cut_after|].
    split; [done|]. split; [done|]. intros x Hx. rewrite E6. by apply (f_details _ _ Hf1).
Qed.

Lemma reroute_runs b : store_ok G Td Tm b -> blooms_wf b -> m_lastBlockNumber b = m_number (n_header ln) ->
  runs (reroute params G vb h last) b (fun r b' => exists (i j : nat) l a,
    r = (route_of Tm true true true last p i j ++ [h], up Tm i last, a) /\
    Z.of_nat i <= m_number (n_header ln) /\ Z.of_nat j <= m_number (n_header pn) /\ up Tm i last = up Tm j p /\
    up Tm i last ∉ ups Tm i last /\ up Tm i last ∉ ups Tm j p /\
    map fst l = h :: ups Tm j p /\ (forall x n, (x, n) ∈ l -> x = h /\ n = nd \/ Tm !! x = Some n) /\
    store_ok G Td Tm b' /\ blooms_wf b' /\ cut (m_number (n_header ln) - Z.of_nat i) b b' /\
    m_blocksDB b' = m_blocksDB b /\ m_extrasDB b' = m_extrasDB b /\
    (forall x, is_Some (m_details b !! x) -> m_details b' !! x = m_details b !! x) /\
    (forall x n, (x, n) ∈ l -> cover (seen b') (m_number (n_header n)) (indexed (n_header n))) /\
    exists b1, collated (numbered l) a b1 b').
Proof.
  intros Hs Hw Hl. unfold reroute. rewrite Hparent.
  eapply bc_bind; [by apply (treeRoute_runs params G Td Tm Hd Hm last p ln pn)|].
  intros [[r cm] k0] b1 (i & j & Hi & Hj & Hij & Hmin & (k & E) & Hs1 & Hf1). injection E as -> -> ->.
  destruct (frame_wf _ _ Hf1 Hw) as [Hw1 Hsee1].
  eapply bc_bind; [apply cut_back_runs; [done|done|by rewrite (f_number _ _ Hf1)|done]|].
  intros [] b2 (Hs2 & Hw2 & Hcut & E1 & E2 & Hdet). destruct (ups_nodes j p pn Hp Hj) as (l & El & Hin & En).
  assert (up Tm i last ∉ ups Tm i last) as Hni.
  { intros (i' & Hi' & E)%elem_of_ups. symmetry in E. rewrite Hij in E. specialize (Hmin i' j ltac:(lia) Hj E). lia. }
  assert (up Tm i last ∉ ups Tm j p) as Hnj.
  { intros (j' & Hj' & E)%elem_of_ups. specialize (Hmin i j' Hi ltac:(lia) E). lia. }
  assert (forall x n, (x, n) ∈ (h, nd) :: l -> x = h /\ n = nd \/ Tm !! x = Some n) as Hall.
  { intros x n [E|E]%elem_of_cons; [left; by injection E|right; by apply Hin]. }
  assert (rev (route_of Tm true true true last p i j ++ [h]) = map fst ((h, nd) :: l) ++ up Tm i last :: rev (ups Tm i last)) as ->.
  { unfold route_of. cbn [negb andb map fst]. rewrite app_nil_r, !rev_app_distr, rev_involutive, El. done. }
  eapply bc_bind; [apply collate_loop_runs; [done|done| |]|].
  - intros x n Hx. destruct (Hall x n Hx) as [[-> ->]|E].
    + split; [split; [done|left; by destruct Hvb]|]. intros E. destruct (up_node params G Tm Hm i last ln Hlast Hi) as (cn & Hc & _). congruence.
    + split; [split; [by apply (t_node _ _ _ Hm)|right; split; [congruence|done]]|]. intros ->.
      apply elem_of_cons in Hx as [Hx|Hx]; [injection Hx; congruence|].
      apply Hnj. rewrite <- El. apply list_elem_of_fmap. by exists (up Tm i last, n).
  - cbn [map snd]. rewrite En. apply NoDup_cons. split.
    + intros (i' & E & _)%list_elem_of_fmap. lia.
    + apply NoDup_fmap_2; [intros x y E; lia|apply NoDup_seq].
  - intros a b3 (Hs3 & Hw3 & Hf3 & Hmore & Hcov & Hco). apply bc_ret. exists i, j, ((h, nd) :: l), a.
    split; [done|]. split; [done|]. split; [done|]. split; [done|]. split; [done|]. split; [done|]. split; [cbn [map fst]; by rewrite El|]. split; [done|].
    split; [done|]. split; [done|]. split; [apply (cut_before _ _ b2); [by apply (cut_after _ _ b1)|done|done]|].
    split; [rewrite (pf_blocksDB _ _ Hf3), E1; apply (f_blocksDB _ _ Hf1)|]. split; [rewrite (pf_extrasDB _ _ Hf3), E2; apply (f_extrasDB _ _ Hf1)|].
    split; [|split; [done|by exists b2]]. intros x Hx. pose proof (f_details _ _ Hf1 x Hx) as Ex. rewrite <- Ex in Hx. specialize (Hdet x Hx).
    rewrite <- Hdet in Hx. by rewrite (pf_details _ _ Hf3 x Hx), Hdet.
Qed.
End Collating.
End Chain.
End ChainIndex.
