(* ===== verification/ChainProps.v ===== *)
(** * ChainProps: the chain and its head

    The abstract chain is a tree of blocks with a head.  Inserting a block extends the
    tree and may move the head; every other operation leaves both alone.  Through all of
    them the databases and the caches answer what the tree says, numbers name the
    ancestors of the head, and the index of blooms has the bits of these. *)

From stdpp Require Import base list numbers option gmap.
From Stdlib Require Import ZArith Lia.
From S2P Require Import Prelude Bytes Rlp RlpStream RlpFields Keccak OverlayDB Crypto Transaction BlockHeader Seal Receipt BlockChain ChainStore.
From S2P Require Import ChainTree ChainBlooms ChainIndex.
Import CommonData RLP RLPStream RlpFields Keccak.

#[local] Opaque sha3.

Module ChainProps.
Import Bloom LogEntry Receipt BlockDetails BlockChain ChainStore ChainTree ChainBlooms ChainIndex.
Import BlockHeader (BlockHeader, m_parentHash, m_number, m_gasUsed, m_logBloom, m_author, m_difficulty, m_hash, make_header, extractHeader,
  HeaderData, BlockData, WithSeal).

(** ** Extending the tree *)

Definition addc (h : bytes) (n : node) : node :=
  {| n_bytes := n_bytes n; n_header := n_header n; n_td := n_td n; n_children := n_children n ++ [h] |}.
Definition with_child (h p : bytes) (T : tree) : tree := alter (addc h) p T.
(** The new block [h], with the header and the bytes of [vb]. *)
Definition fresh_node (vb : VerifiedBlockRef) (td : Z) : node :=
  {| n_bytes := vb_block vb; n_header := vb_info vb; n_td := td; n_children := [] |}.
Definition extend (T : tree) (vb : VerifiedBlockRef) (td : Z) : tree :=
  let h := m_hash (vb_info vb) in
  <[h := fresh_node vb td]> (with_child h (m_parentHash (vb_info vb)) T).

Section Chain.
Context {L : Type} `{LevelDB L, !LevelDBLaws L} {C : Crypto.Secp256k1}.
Variables (params : ChainParams) (G : Genesis).
Abbreviation BC := (BlockChain (L := L)).
Abbreviation BM A := (M BC bc_exn A).
Implicit Types b : BC.

(** ** The chain *)

(** The block that has the number [k]: the ancestor of the head. *)
Definition canon (T : tree) b (k : Z) : bytes := up T (Z.to_nat (m_lastBlockNumber b - k)) (m_lastBlockHash b).

(** The numbers that may be asked for while they are above the head's: what is cached for
    them may be a block that was left. *)
Variable A : Z -> Prop.

Record chain_ok (T : tree) b : Prop := {
  c_tree : tree_ok params G T;
  c_store : store_ok G T T b;
  c_head : exists n, T !! m_lastBlockHash b = Some n /\ m_lastBlockNumber b = m_number (n_header n) /\
    forall x m, T !! x = Some m -> n_td m <= n_td n;
  c_best : Get (m_extrasDB b) best = m_lastBlockHash b \/ Get (m_extrasDB b) best = [] /\ m_lastBlockHash b = m_genesisHash G;
  c_numbers : forall k, 1 <= k <= m_lastBlockNumber b -> Get (m_extrasDB b) (toSlice_n k ExtraBlockHash) = encode (Str (canon T b k));
  c_mnumbers : forall k x, m_blockHashes b !! k = Some x -> A k \/ 1 <= k <= m_lastBlockNumber b /\ x = canon T b k;
  c_wf : blooms_wf b;
  c_cover : forall k n, 1 <= k <= m_lastBlockNumber b -> T !! canon T b k = Some n ->
    cover (seen b) k (indexed (n_header n)) /\ cover (stored b) k (indexed (n_header n));
  c_usage : usage_ok (m_cacheUsage b)
}.

(** A block that the tree can be extended with: new, with a known parent, and with
    records that fit. *)
Record insertable (T : tree) (vb : VerifiedBlockRef) (receipts : bytes) (td : Z) : Prop := {
  i_new : T !! m_hash (vb_info vb) = None;
  i_parent : exists pn, T !! m_parentHash (vb_info vb) = Some pn /\ m_number (vb_info vb) = m_number (n_header pn) + 1 /\
    td = n_td pn + m_difficulty (vb_info vb) /\ details_ok (details_of (addc (m_hash (vb_info vb)) pn));
  i_node : node_ok (m_hash (vb_info vb)) (fresh_node vb td);
  i_receipts : exists rs s, read_receipts receipts = Ok rs /\ blooms_rlp (map m_bloom rs) = Ok s
}.

Section Extending.
Variables (T : tree) (h p : bytes) (pn : node).
Hypothesis HT : tree_ok params G T.
Hypothesis Hp : T !! p = Some pn.
Hypothesis Hfits : details_ok (details_of (addc h pn)).

Lemma with_child_lookup x : with_child h p T !! x = if decide (x = p) then Some (addc h pn) else T !! x.
Proof. unfold with_child. destruct (decide (x = p)) as [->|Hx]; [by rewrite lookup_alter_eq, Hp|by rewrite lookup_alter_ne]. Qed.

(** The same blocks, whose children alone differ. *)
Lemma with_child_Some x n : with_child h p T !! x = Some n -> exists n', T !! x = Some n' /\ n_bytes n = n_bytes n' /\ n_header n = n_header n' /\
  n_td n = n_td n' /\ (n = n' \/ x = p /\ n = addc h n').
Proof.
  rewrite with_child_lookup. destruct (decide (x = p)) as [->|Hx]; [intros [= <-]; exists pn; auto 10|intros E; exists n; auto 10].
Qed.
Lemma with_child_is x n : T !! x = Some n -> exists n', with_child h p T !! x = Some n' /\ n_bytes n' = n_bytes n /\ n_header n' = n_header n /\ n_td n' = n_td n.
Proof.
  rewrite with_child_lookup. destruct (decide (x = p)) as [->|Hx]; [|by eauto 10]. intros E. rewrite Hp in E. injection E as <-. by exists (addc h pn).
Qed.

Lemma with_child_core : tree_core params G (with_child h p T).
Proof.
  destruct (t_core _ _ _ HT) as [H1 H2 H3]. split.
  - destruct H1 as (n & Hn & E1 & E2 & E3 & E4). destruct (with_child_is _ _ Hn) as (n' & Hn' & F1 & F2 & F3). exists n'. rewrite F1, F2. auto.
  - intros x n Hx. rewrite with_child_lookup in Hx. destruct (decide (x = p)) as [->|Hne]; [|by apply H2]. injection Hx as <-.
    destruct (H2 _ _ Hp). by split.
  - intros x n Hx Hg. apply with_child_Some in Hx as (n' & Hn' & _ & E2 & E3 & _). destruct (H3 _ _ Hn' Hg) as (q & Hq & F1 & F2).
    destruct (with_child_is _ _ Hq) as (q' & Hq' & _ & G2 & G3). exists q'. rewrite E2, E3, G2, G3. auto.
Qed.

Lemma with_child_up k : forall x, up (with_child h p T) k x = up T k x.
Proof.
  induction k as [|k IH]; intros x; [done|]. cbn [up]. rewrite IH. f_equal. unfold parent_of. rewrite with_child_lookup.
  destruct (decide (x = p)) as [->|]; [by rewrite Hp|done].
Qed.
Lemma with_child_ups k x : ups (with_child h p T) k x = ups T k x.
Proof. unfold ups. apply map_ext. intros i. apply with_child_up. Qed.

Variable nd : node.
Hypothesis Hnew : T !! h = None.
Hypothesis Hnd : node_ok h nd.
Hypothesis Hparent : m_parentHash (n_header nd) = p.
Hypothesis Hnumber : m_number (n_header nd) = m_number (n_header pn) + 1.
Hypothesis Htd : n_td nd = n_td pn + m_difficulty (n_header nd).
Hypothesis Hnone : n_children nd = [].
Abbreviation T' := (<[h := nd]> (with_child h p T)).

Lemma h_not_p : h <> p.
Proof. congruence. Qed.
Lemma h_not_genesis : h <> m_genesisHash G.
Proof. destruct (t_genesis _ _ _ (t_core _ _ _ HT)) as (n & Hn & _). congruence. Qed.
Lemma with_child_new : with_child h p T !! h = None.
Proof. rewrite with_child_lookup, decide_False; [done|apply h_not_p]. Qed.
Lemma extended_Some x n : T' !! x = Some n <-> x = h /\ n = nd \/ with_child h p T !! x = Some n.
Proof.
  rewrite lookup_insert_Some. split; [intros [[<- <-]|[_ Hx]]; auto|]. intros [[-> ->]|Hx]; [by left|]. right. split; [|done]. intros <-. by rewrite with_child_new in Hx.
Qed.

Lemma extended_core : tree_core params G T'.
Proof.
  destruct with_child_core as [H1 H2 H3]. split.
  - destruct H1 as (n & Hn & E). exists n. split; [|done]. apply extended_Some. by right.
  - intros x n [[-> ->]|Hx]%extended_Some; [done|by apply H2].
  - intros x n [[-> ->]|Hx]%extended_Some Hg.
    + exists (addc h pn). rewrite Hparent. split; [|done]. apply extended_Some. right. by rewrite with_child_lookup, decide_True.
    + destruct (H3 _ _ Hx Hg) as (q & Hq & E). exists q. split; [|done]. apply extended_Some. by right.
Qed.

Lemma extended_ok : tree_ok params G T'.
Proof.
  pose proof HT as [_ C1 C2 C3]. split; [apply extended_core|..].
  - intros x n q [[-> ->]|Hx]%extended_Some Hg [[E ->]|Hq]%extended_Some.
    + by destruct h_not_p; rewrite <- E.
    + rewrite Hparent, with_child_lookup, decide_True in Hq by done. injection Hq as <-. apply elem_of_app. right. by left.
    + apply with_child_Some in Hx as (n' & Hn' & _ & E2 & _). rewrite E2 in E. destruct (t_parent _ _ _ (t_core _ _ _ HT) _ _ Hn' Hg) as (q & Hq & _). congruence.
    + apply with_child_Some in Hx as (n' & Hn' & _ & E2 & _). rewrite E2 in Hq. apply with_child_Some in Hq as (q' & Hq' & _ & _ & _ & Eq).
      pose proof (C1 _ _ _ Hn' Hg Hq') as Hin. destruct Eq as [->|[_ ->]]; [done|]. apply elem_of_app. by left.
  - intros x n c [[-> ->]|Hx]%extended_Some Hc; [rewrite Hnone in Hc; by apply elem_of_nil in Hc|].
    apply with_child_Some in Hx as (n' & Hn' & _ & _ & _ & Eq). assert (c ∈ n_children n' \/ c = h /\ x = p) as [Hin|[-> ->]].
    { destruct Eq as [->|[-> ->]]; [by left|]. apply elem_of_app in Hc as [Hc|Hc]; [by left|]. right. by apply list_elem_of_singleton in Hc as ->. }
    + destruct (C2 _ _ _ Hn' Hin) as (m & Hm & Hg & E). destruct (with_child_is _ _ Hm) as (m' & Hm' & _ & E' & _). exists m'.
      split; [apply extended_Some; by right|]. by rewrite E'.
    + exists nd. split; [by apply lookup_insert_eq|]. split; [apply h_not_genesis|done].
  - intros x n [[-> ->]|Hx]%extended_Some; [rewrite Hnone; constructor|]. apply with_child_Some in Hx as (n' & Hn' & _ & _ & _ & Eq).
    pose proof (C3 _ _ Hn') as Hnd'. destruct Eq as [->|[-> ->]]; [done|]. cbn. apply NoDup_app. split; [done|]. split; [|apply NoDup_singleton].
    intros y Hy ->%list_elem_of_singleton. destruct (C2 _ _ _ Hn' Hy) as (m & Hm & _). congruence.
Qed.

(** Ancestors stay what they were. *)
Lemma extended_up k : forall x n, T !! x = Some n -> Z.of_nat k <= m_number (n_header n) -> up T' k x = up T k x.
Proof.
  induction k as [|k IH]; intros x n Hx Hk; [done|]. cbn [up].
  destruct (up_node params G T (t_core _ _ _ HT) 1 x n Hx ltac:(lia)) as (a & Ha & Hn). cbn [up] in Ha.
  assert (parent_of T' x = parent_of T x) as ->; [|apply (IH _ a); [done|lia]]. unfold parent_of. rewrite lookup_insert_ne by congruence.
  rewrite with_child_lookup, Hx. destruct (decide (x = p)) as [->|]; [|done]. rewrite Hp in Hx. by injection Hx as ->.
Qed.
Lemma extended_up_new k : Z.of_nat k <= m_number (n_header pn) -> up T' (S k) h = up T k p.
Proof.
  intros Hk. cbn [up]. unfold parent_of at 1. rewrite lookup_insert_eq, Hparent. by apply (extended_up _ _ pn).
Qed.

(** *** Writing the records of the new block *)
Variables (blb rcp : bytes).
Definition extras_of : list (bytes * bytes) :=
  [(toSlice p ExtraDetails, encode (details_item (details_of (addc h pn)))); (toSlice h ExtraDetails, encode (details_item (details_of nd)));
   (toSlice h ExtraLogBlooms, blb); (toSlice h ExtraReceipts, rcp)].

Lemma extras_kinds : kinds [0; 3; 4] extras_of.
Proof.
  repeat constructor; cbn; [exists p, 0|exists h, 0|exists h, 3|exists h, 4]; (split; [done|kind]).
Qed.
Lemma extras_details y : batch_value extras_of (toSlice y ExtraDetails) =
  if decide (y = h) then Some (encode (details_item (details_of nd))) else
  if decide (y = p) then Some (encode (details_item (details_of (addc h pn)))) else None.
Proof.
  pose proof h_not_p as Hne. unfold extras_of. cbn [batch_value].
  rewrite (decide_False (P := toSlice h ExtraReceipts = _)) by (intros [_ E]%toSlice_inj; [done|kind..]).
  rewrite (decide_False (P := toSlice h ExtraLogBlooms = _)) by (intros [_ E]%toSlice_inj; [done|kind..]).
  destruct (decide (y = h)) as [->|Hh]; [by rewrite decide_True|]. rewrite decide_False by (intros [E _]%toSlice_inj; [done|kind..]).
  destruct (decide (y = p)) as [->|Hp']; [by rewrite decide_True|]. by rewrite decide_False by (intros [E _]%toSlice_inj; [done|kind..]).
Qed.

Lemma store_written b b' a : store_ok G T (with_child h p T) b -> kinds [1; 2; 5] a -> m_blocks b' = m_blocks b -> m_details b' = m_details b ->
  (forall k, Get (m_blocksDB b') k = default (Get (m_blocksDB b) k) (batch_value [(toSlice h 0, n_bytes nd)] k)) ->
  (forall y, Get (m_extrasDB b') (toSlice y ExtraDetails) =
     default (Get (m_extrasDB b) (toSlice y ExtraDetails)) (batch_value (extras_of ++ a) (toSlice y ExtraDetails))) ->
  store_ok G T' T' b'.
Proof.
  intros [H1 H2 H3 H4 H5 H6] Ha Eb Ed Hblocks Hextras. split.
  - intros x Hx. rewrite Hblocks. cbn [batch_value]. destruct (decide (x = h)) as [->|Hne]; [by rewrite decide_True, lookup_insert_eq|].
    rewrite decide_False by (intros [E _]%toSlice_inj; [done|lia..]). cbn. rewrite H1, lookup_insert_ne, with_child_lookup by done.
    destruct (decide (x = p)) as [->|]; [by rewrite Hp|done].
  - rewrite Eb. intros x d Hd. destruct (H2 x d Hd) as (Hg & n & Hn & E). split; [done|]. destruct (with_child_is _ _ Hn) as (n' & Hn' & E' & _).
    exists n'. split; [apply extended_Some; by right|congruence].
  - intros x. rewrite Hextras, OverlayDB.batch_value_app, (kinds_None [1; 2; 5] a), extras_details by kind.
    destruct (decide (x = h)) as [->|Hne]; [by rewrite lookup_insert_eq|]. rewrite lookup_insert_ne, with_child_lookup by done.
    destruct (decide (x = p)) as [->|]; [done|]. cbn. apply H3.
  - rewrite Ed. intros x d Hd. destruct (H4 x d Hd) as (n & Hn & E). exists n. split; [apply extended_Some; by right|done].
  - done.
  - eauto.
Qed.

(** In memory, the child is noted first. *)
Lemma child_noted b : store_ok G T T b -> m_details b !! p = Some (details_of pn) ->
  store_ok G T (with_child h p T) (set_details (<[p := details_of (addc h pn)]> (m_details b)) b).
Proof.
  intros [H1 H2 H3 H4 H5 H6] Hd. split; cbn; [done..| | |].
  - intros x d. destruct (decide (x = p)) as [->|Hx].
    + rewrite lookup_insert_eq. intros [= <-]. exists (addc h pn). by rewrite with_child_lookup, decide_True.
    + rewrite lookup_insert_ne by done. intros E. destruct (H4 x d E) as (n & Hn & E'). exists n. by rewrite with_child_lookup, decide_False.
  - intros x. destruct (decide (x = p)) as [->|Hx]; [by rewrite lookup_insert_eq|]. intros _. by rewrite with_child_lookup, decide_False.
  - intros x n Hx. apply with_child_Some in Hx as (n' & Hn' & E1 & E2 & _). eauto.
Qed.

(** *** After the writing *)
Section Written.
Variables (b b1 b4 b5 : BC) (l : list (bytes * node)) (a : list (bytes * bytes)).
Hypothesis Hok : chain_ok T b.
Hypothesis Hs4 : store_ok G T (with_child h p T) b4.
Hypothesis Hw4 : blooms_wf b4.
Hypothesis Hco : collated (numbered l) a b1 b4.
Hypothesis Hx4 : m_extrasDB b4 = m_extrasDB b.
(** [b5] has the caches of [b4], and the databases with the batches. *)
Hypothesis Hblocks : m_blocks b5 = m_blocks b4.
Hypothesis Hdetails : m_details b5 = m_details b4.
Hypothesis Hhashes : m_blockHashes b5 = m_blockHashes b4.
Hypothesis Hblooms : m_blocksBlooms b5 = m_blocksBlooms b4.
Hypothesis Hdb : forall k, Get (m_blocksDB b5) k = default (Get (m_blocksDB b4) k) (batch_value [(toSlice h 0, n_bytes nd)] k).
Hypothesis Hextras : forall y s, 0 <= s < 6 ->
  Get (m_extrasDB b5) (toSlice y s) = default (Get (m_extrasDB b4) (toSlice y s)) (batch_value (extras_of ++ a) (toSlice y s)).

Lemma written_index y s : s ∈ [1; 2; 5] -> Get (m_extrasDB b5) (toSlice y s) = default (Get (m_extrasDB b) (toSlice y s)) (batch_value a (toSlice y s)).
Proof.
  intros Hs. assert (0 <= s < 6 /\ s ∉ [0; 3; 4]) as [Hs1 Hs2].
  { rewrite !elem_of_cons, elem_of_nil in Hs. destruct Hs as [->|[->|[->|[]]]]; (split; [lia|kind]). }
  rewrite Hextras, Hx4, OverlayDB.batch_value_app, (kinds_None [0; 3; 4] extras_of) by (done || apply extras_kinds || kind).
  by destruct (batch_value a (toSlice y s)).
Qed.
Lemma written_store : store_ok G T' T' b5.
Proof. apply (store_written b4 b5 a); [done|apply (co_kinds _ _ _ _ Hco)|done|done|done|]. intros y. apply Hextras. kind. Qed.

Lemma written_chunk id : Get (m_extrasDB b5) (toSlice id ExtraBlocksBlooms) =
  if batch_value a (toSlice id ExtraBlocksBlooms) is Some _ then encode (hashes_item (seen b4 id)) else Get (m_extrasDB b) (toSlice id ExtraBlocksBlooms).
Proof.
  rewrite written_index by kind. pose proof (co_chunk _ _ _ _ Hco id) as Hc. destruct (batch_value a _); [by destruct Hc as [-> _]|done].
Qed.
Lemma written_stored id : stored b5 id = if batch_value a (toSlice id ExtraBlocksBlooms) is Some _ then seen b4 id else stored b id.
Proof.
  unfold stored at 1. rewrite written_chunk. destruct (batch_value a _); [|done].
  pose proof (seen_ok b4 id Hw4) as Hk. pose proof (stored_not_nil _ (chunk_encodable _ Hk)) as Hne.
  pose proof (chunk_read _ Hk) as Hr. destruct (encode (hashes_item (seen b4 id))) as [|z s]; [done|]. by rewrite Hr.
Qed.
Lemma written_seen id : seen b5 id = seen b4 id.
Proof.
  unfold seen. rewrite Hblooms. destruct (m_blocksBlooms b4 !! id) eqn:E; [done|]. cbn. rewrite written_stored.
  pose proof (co_chunk _ _ _ _ Hco id) as Hc. destruct (batch_value a _); [destruct Hc as [_ [x Hx]]; congruence|]. unfold stored. by rewrite Hx4.
Qed.
Lemma written_wf : blooms_wf b5.
Proof.
  split; [rewrite Hblooms; apply Hw4|]. intros id. rewrite written_chunk. destruct (batch_value a _); [|apply (c_wf _ _ Hok)].
  right. exists (seen b4 id). split; [by apply seen_ok|done].
Qed.
Lemma written_cover k x : cover (seen b4) k x -> cover (stored b) k x \/ (exists y, (y, k) ∈ numbered l) -> cover (seen b5) k x /\ cover (stored b5) k x.
Proof.
  intros [Hc1 Hc2] Hor. split; [split; by rewrite written_seen|].
  assert (forall id, id ∈ ids k -> stored b5 id = seen b4 id \/ cover (stored b) k x /\ stored b5 id = stored b id) as Hid.
  { intros id Hid. rewrite written_stored. destruct (batch_value a _) eqn:E; [by left|]. destruct Hor as [Hor|[y Hy]]; [by right|].
    destruct (co_ids _ _ _ _ Hco y k id Hy Hid) as [v Hv]. congruence. }
  split.
  - destruct (Hid (chunkId 0 (k / 16))) as [->|[[Hs _] ->]]; [by left|done|done].
  - destruct (Hid (chunkId 1 (k / 16 / 16))) as [->|[[_ Hs] ->]]; [right; by left|done|done].
Qed.
Lemma written_number k : 0 <= k < 2 ^ 64 ->
  Get (m_extrasDB b5) (toSlice_n k ExtraBlockHash) = default (Get (m_extrasDB b) (toSlice_n k ExtraBlockHash)) (batch_value a (toSlice_n k ExtraBlockHash)).
Proof. intros Hk. rewrite <- !number_key by done. apply written_index. kind. Qed.

Lemma head_number : exists ln, T !! m_lastBlockHash b = Some ln /\ m_lastBlockNumber b = m_number (n_header ln) /\ 0 <= m_number (n_header ln) < 2 ^ 28 /\
  forall x m, T !! x = Some m -> n_td m <= n_td ln.
Proof.
  destruct (c_head _ _ Hok) as (ln & Hl & E & Hmax). exists ln. split; [done|]. split; [done|]. split; [|done].
  apply (n_number _ _ (t_node _ _ _ (t_core _ _ _ HT) _ _ Hl)).
Qed.
(** The nodes of the new tree have the headers of the old one. *)
Lemma extended_header x n : T !! x = Some n -> forall n', T' !! x = Some n' -> n_header n' = n_header n.
Proof.
  intros Hx n' [[-> _]|Hx']%extended_Some; [congruence|]. apply with_child_Some in Hx' as (m & Hm & _ & E & _). congruence.
Qed.

(** The head stays. *)
Lemma stays_ok : a = [] -> (forall id, seen b4 id = seen b id) -> m_blockHashes b4 = m_blockHashes b ->
  m_lastBlockHash b5 = m_lastBlockHash b -> m_lastBlockNumber b5 = m_lastBlockNumber b -> Get (m_extrasDB b5) best = Get (m_extrasDB b) best ->
  (forall ln, T !! m_lastBlockHash b = Some ln -> n_td nd <= n_td ln) -> usage_ok (m_cacheUsage b5) -> chain_ok T' b5.
Proof.
  intros Ea Hsame Hhs El En Ebest Hlow Hu. destruct head_number as (ln & Hln & Eln & Hrange & Hmax).
  assert (forall k, 1 <= k <= m_lastBlockNumber b -> canon T' b5 k = canon T b k) as Hcanon.
  { intros k Hk. unfold canon. rewrite El, En. apply (extended_up _ _ ln); [done|lia]. }
  split.
  - apply extended_ok.
  - apply written_store.
  - destruct (with_child_is _ _ Hln) as (ln' & Hln' & _ & Eh & Et). exists ln'. rewrite El, En, Eln, Eh. split; [apply extended_Some; by right|]. split; [done|].
    rewrite Et. intros x m [[-> ->]|Hx]%extended_Some; [by apply Hlow|]. apply with_child_Some in Hx as (m' & Hm' & _ & _ & -> & _). by apply (Hmax x).
  - rewrite Ebest, El. apply (c_best _ _ Hok).
  - rewrite En. intros k Hk. rewrite Hcanon, written_number, Ea by lia. by apply (c_numbers _ _ Hok).
  - rewrite En, Hhashes, Hhs. intros k x Hx. destruct (c_mnumbers _ _ Hok k x Hx) as [Ha|[Hk ->]]; [by left|]. right. by rewrite Hcanon.
  - apply written_wf.
  - rewrite En. intros k n Hk Hn. rewrite Hcanon in Hn by done.
    destruct (up_node params G T (t_core _ _ _ HT) (Z.to_nat (m_lastBlockNumber b - k)) _ ln Hln ltac:(lia)) as (n0 & Hn0 & _). fold (canon T b k) in Hn0.
    rewrite (extended_header _ _ Hn0 _ Hn). destruct (c_cover _ _ Hok k n0 Hk Hn0) as [Hc1 Hc2]. apply written_cover; [|by left].
    apply (cover_more (seen b)); [lia|by apply more_eq|done].
  - done.
Qed.

(** The new block becomes the head. *)
Section Moving.
Variables (ln : node) (i j : nat).
Hypothesis Hln : T !! m_lastBlockHash b = Some ln.
Hypothesis Hi : Z.of_nat i <= m_number (n_header ln).
Hypothesis Hj : Z.of_nat j <= m_number (n_header pn).
Hypothesis Hij : up T i (m_lastBlockHash b) = up T j p.
Hypothesis Hl : map fst l = h :: ups T j p.
Hypothesis Hnodes : forall x n, (x, n) ∈ l -> x = h /\ n = nd \/ with_child h p T !! x = Some n.
Abbreviation cnum := (m_number (n_header ln) - Z.of_nat i).
Hypothesis Hcut : cut cnum b b4.
Hypothesis Hcov : forall x n, (x, n) ∈ l -> cover (seen b4) (m_number (n_header n)) (indexed (n_header n)).
Hypothesis Hhead : m_lastBlockHash b5 = h /\ m_lastBlockNumber b5 = m_number (n_header nd).

Lemma cnum_eq : cnum = m_number (n_header pn) - Z.of_nat j.
Proof. apply (up_eq_number params G T (t_core _ _ _ HT) _ _ _ _ _ _ Hln Hp Hi Hj Hij). Qed.

Lemma canon_old k : 0 <= k <= cnum -> canon T' b5 k = canon T b k.
Proof.
  intros Hk. pose proof cnum_eq as Hc. destruct Hhead as [E1 E2]. destruct head_number as (ln' & Hln' & Eln & _). unfold canon. rewrite E1, E2, Hnumber, Eln.
  rewrite Hln in Hln'. injection Hln' as <-.
  replace (Z.to_nat (m_number (n_header pn) + 1 - k)) with (S (j + Z.to_nat (cnum - k))) by lia. rewrite extended_up_new, up_add, <- Hij, <- up_add by lia.
  f_equal. lia.
Qed.
Lemma canon_route k : cnum < k <= m_number (n_header nd) -> exists n, (canon T' b5 k, n) ∈ l /\ m_number (n_header n) = k.
Proof.
  intros Hk. pose proof cnum_eq as Hc. destruct Hhead as [E1 E2].
  assert (canon T' b5 k ∈ map fst l) as Hin.
  { rewrite Hl. unfold canon. rewrite E1, E2, Hnumber. destruct (decide (k = m_number (n_header nd))) as [->|Hne].
    - rewrite <- Hnumber, Z.sub_diag. by left.
    - right. apply elem_of_ups. exists (Z.to_nat (m_number (n_header pn) - k)). split; [lia|].
      replace (Z.to_nat (m_number (n_header pn) + 1 - k)) with (S (Z.to_nat (m_number (n_header pn) - k))) by lia. apply extended_up_new. lia. }
  apply list_elem_of_fmap in Hin as ([x n] & E & Hin). cbn in E. rewrite E. exists n. split; [done|]. 
  assert (T' !! x = Some n) as Hx by (apply extended_Some; by apply Hnodes).
  assert (T' !! h = Some nd) as Hh by apply lookup_insert_eq.
  destruct (up_node params G T' extended_core (Z.to_nat (m_number (n_header nd) - k)) h nd Hh) as (n' & Hn' & En'). 
  { pose proof (n_number _ _ (t_node _ _ _ (t_core _ _ _ HT) _ _ Hln)). lia. }
  unfold canon in E. rewrite E1, E2 in E. rewrite E in Hn'. assert (n' = n) as -> by congruence. lia.
Qed.
Lemma route_range x k : (x, k) ∈ numbered l -> cnum < k <= m_number (n_header nd).
Proof.
  intros (n & Hin & ->)%elem_of_numbered. pose proof cnum_eq as Hc. assert (x ∈ map fst l) as Hx by (apply list_elem_of_fmap; by exists (x, n)).
  destruct (Hnodes x n Hin) as [[-> ->]|Hn]; [lia|]. rewrite Hl in Hx. apply elem_of_cons in Hx as [->|Hx]; [by rewrite with_child_new in Hn|].
  apply elem_of_ups in Hx as (j' & Hj' & ->). destruct (up_node params G T (t_core _ _ _ HT) j' p pn Hp ltac:(lia)) as (n' & Hn' & En').
  apply with_child_Some in Hn as (n0 & Hn0 & _ & -> & _). rewrite Hn' in Hn0. injection Hn0 as <-. lia.
Qed.

Lemma moves_numbers k : 1 <= k <= m_number (n_header nd) -> Get (m_extrasDB b5) (toSlice_n k ExtraBlockHash) = encode (Str (canon T' b5 k)).
Proof.
  intros Hk. pose proof cnum_eq as Hc. pose proof (n_number _ _ Hnd) as Hnn. destruct head_number as (ln' & Hln' & Eln & _). rewrite Hln in Hln'. injection Hln' as <-.
  rewrite written_number by lia. destruct (decide (k <= cnum)) as [Hle|Hgt].
  - rewrite (co_other _ _ _ _ Hco k); [|lia|intros x Hx; apply route_range in Hx; lia]. rewrite canon_old by lia. cbn. apply (c_numbers _ _ Hok). lia.
  - destruct (canon_route k ltac:(lia)) as (n & Hin & En). rewrite (co_number _ _ _ _ Hco (canon T' b5 k) k); [done|]. apply elem_of_numbered. eauto.
Qed.

Lemma moves_ok : Get (m_extrasDB b5) best = h -> n_td ln <= n_td nd -> usage_ok (m_cacheUsage b5) -> chain_ok T' b5.
Proof.
  intros Ebest Hhigh Hu. pose proof cnum_eq as Hc. destruct Hhead as [E1 E2]. destruct head_number as (ln' & Hln' & Eln & Hrange & Hmax).
  rewrite Hln in Hln'. injection Hln' as <-. pose proof (n_number _ _ Hnd) as Hnn.
  assert (forall k n, cnum < k -> 1 <= k <= m_number (n_header nd) -> T' !! canon T' b5 k = Some n -> (canon T' b5 k, n) ∈ l /\ m_number (n_header n) = k) as Hroute.
  { intros k n Hk1 Hk2 Hn. destruct (canon_route k) as (n' & Hin & En); [lia|]. assert (T' !! canon T' b5 k = Some n') as Hn' by (apply extended_Some; by apply Hnodes).
    rewrite Hn in Hn'. by injection Hn' as <-. }
  split.
  - apply extended_ok.
  - apply written_store.
  - exists nd. rewrite E1, E2, lookup_insert_eq. split; [done|]. split; [done|]. intros x m [[-> ->]|Hx]%extended_Some; [lia|].
    apply with_child_Some in Hx as (m' & Hm' & _ & _ & -> & _). specialize (Hmax _ _ Hm'). lia.
  - left. by rewrite E1.
  - rewrite E2. exact moves_numbers.
  - rewrite E2, Hhashes. intros k x Hx. destruct Hcut as (Hh & _). destruct (Hh k x Hx) as [Hx' Hor]. destruct (c_mnumbers _ _ Hok k x Hx') as [Ha|[Hk ->]]; [by left|].
    right. split; [lia|]. rewrite canon_old by lia. done.
  - apply written_wf.
  - rewrite E2. intros k n Hk Hn. destruct (decide (k <= cnum)) as [Hle|Hgt].
    + rewrite canon_old in Hn by lia.
      destruct (up_node params G T (t_core _ _ _ HT) (Z.to_nat (m_lastBlockNumber b - k)) _ ln Hln ltac:(lia)) as (n0 & Hn0 & _). fold (canon T b k) in Hn0.
      rewrite (extended_header _ _ Hn0 _ Hn). destruct (c_cover _ _ Hok k n0 ltac:(lia) Hn0) as [Hc1 Hc2].
      apply written_cover; [|by left]. destruct Hcut as (_ & Hcv & _). apply Hcv; [lia|done].
    + destruct (Hroute k n ltac:(lia) Hk Hn) as [Hin En]. apply written_cover; [|right; exists (canon T' b5 k); apply elem_of_numbered; eauto].
      rewrite <- En. by apply (Hcov (canon T' b5 k)).
  - done.
Qed.

(** Numbers above the new head keep what they had in the database. *)
Lemma moves_stale k : m_number (n_header nd) < k <= m_lastBlockNumber b ->
  Get (m_extrasDB b5) (toSlice_n k ExtraBlockHash) = encode (Str (canon T b k)) /\ m_blockHashes b5 !! k = None.
Proof.
  intros Hk. pose proof cnum_eq as Hc. destruct head_number as (ln' & Hln' & Eln & Hrange & _). rewrite Hln in Hln'. injection Hln' as <-.
  pose proof (n_number _ _ Hnd) as Hnn. split.
  - rewrite written_number, (co_other _ _ _ _ Hco k); [|lia|intros x Hx; apply route_range in Hx; lia|lia]. apply (c_numbers _ _ Hok). lia.
  - rewrite Hhashes. destruct (m_blockHashes b4 !! k) as [x|] eqn:E; [|done]. destruct Hcut as (Hh & _). destruct (Hh k x E). lia.
Qed.
End Moving.
End Written.
End Extending.
(** ** Inserting *)

(** Whether the new block becomes the head: more difficulty, or as much and more gas. *)
Definition takes_over (vb : VerifiedBlockRef) (td : Z) (ln : node) : bool :=
  (td >? n_td ln) || tieBreakingGas params && (td =? n_td ln) && (m_gasUsed (vb_info vb) >? m_gasUsed (n_header ln)).

Lemma is_best_runs Td Tm vb td last ln b : tree_core params G Td -> tree_core params G Tm -> store_ok G Td Tm b -> Tm !! last = Some ln ->
  runs (is_best params G vb td last) b (fun r b' => r = takes_over vb td ln /\ store_ok G Td Tm b' /\ frame b b').
Proof.
  intros Hd Hm Hs Hl. unfold is_best, takes_over. eapply (runs_details params G Td Tm Hd); [done|done|]. intros b1 Hs1 Hf1 _. cbn [totalDifficulty details_of].
  destruct (td >? n_td ln); [by apply bc_ret|]. destruct (tieBreakingGas params && (td =? n_td ln)); [|by apply bc_ret].
  eapply bc_bind; [by apply (info_runs params G Td Tm Hm)|]. intros i b2 (-> & Hs2 & Hf2). apply bc_ret. split; [done|]. split; [done|]. by etrans.
Qed.

(** *** Writing *)

(** What an operation that writes leaves: its result, or, when a write is refused, the
    state in which the process ends. *)
Definition lands {B} (m : BM B) b (Q : B -> BC -> Prop) (F : BC -> Prop) : Prop := runs m b Q \/ exists b', m b = (Err Exit, b') /\ F b'.
Lemma lands_bind {B D} (m : BM B) (f : B -> BM D) b Q R F : runs m b Q -> (forall x b', Q x b' -> lands (f x) b' R F) -> lands (mbind m f) b R F.
Proof.
  intros (x & b' & E & HQ) Hf. unfold lands, runs. rewrite !(mbind_Ok _ _ _ _ _ E). by apply Hf.
Qed.
Lemma lands_get {B D} (f : BC -> B) (k : B -> BM D) b R F : lands (k (f b)) b R F -> lands (mbind (mget f) k) b R F.
Proof. done. Qed.
Lemma lands_put {D} (f : BC -> BC) (k : unit -> BM D) b R F : lands (k tt) (f b) R F -> lands (mbind (mput f) k) b R F.
Proof. done. Qed.
Lemma lands_assoc {B B' D} (m : BM B) (f : B -> BM B') (g : B' -> BM D) b R F :
  lands (mbind m (fun x => mbind (f x) g)) b R F -> lands (mbind (mbind m f) g) b R F.
Proof. unfold lands, runs, mbind. by destruct (m b) as [[x|e] b']. Qed.
Lemma lands_ret {B} (x : B) b (Q : B -> BC -> Prop) F : Q x b -> lands (mret x) b Q F.
Proof. left. by apply bc_ret. Qed.
Lemma lands_str {B D} (r : result stream_exn B) x (k : B -> BM D) b R F : r = Ok x -> lands (k x) b R F -> lands (mbind (str r) k) b R F.
Proof. by intros ->. Qed.
Lemma lands_rlp {B D} (r : result exn B) x (k : B -> BM D) b R F : r = Ok x -> lands (k x) b R F -> lands (mbind (rlp r) k) b R F.
Proof. by intros ->. Qed.
Lemma hash_read x n b : node_ok x n -> runs (hash_of (n_header n)) b (fun y b' => y = x /\ b' = b).
Proof.
  intros Hn. unfold runs, hash_of, hdr, mlift, BlockHeader.hash. cbn [BlockHeader.memo]. rewrite (n_hash _ _ Hn), (n_nonzero _ _ Hn). eauto.
Qed.
Lemma Get_written (d : L) batch k : fst (Write d batch) = true -> Get (snd (Write d batch)) k = default (Get d k) (batch_value batch k).
Proof. intros E. by rewrite Get_Write, E. Qed.
Lemma Get_refused (d : L) batch k : fst (Write d batch) = false -> Get (snd (Write d batch)) k = Get d k.
Proof. intros E. by rewrite Get_Write, E. Qed.
Lemma lands_write_blocks {D} batch (k : unit -> BM D) b R F :
  (fst (Write (m_blocksDB b) batch) = false -> F (set_blocksDB (snd (Write (m_blocksDB b) batch)) b)) ->
  (fst (Write (m_blocksDB b) batch) = true -> lands (k tt) (set_blocksDB (snd (Write (m_blocksDB b) batch)) b) R F) ->
  lands (mbind (write_blocks batch) k) b R F.
Proof.
  unfold lands, runs, mbind, write_blocks. destruct (Write (m_blocksDB b) batch) as [[] d]; cbn; intros Hf Ht; [by apply Ht|]. right. eexists. split; [reflexivity|]. by apply Hf.
Qed.
Lemma lands_write_extras {D} batch (k : unit -> BM D) b R F :
  (fst (Write (m_extrasDB b) batch) = false -> F (set_extrasDB (snd (Write (m_extrasDB b) batch)) b)) ->
  (fst (Write (m_extrasDB b) batch) = true -> lands (k tt) (set_extrasDB (snd (Write (m_extrasDB b) batch)) b) R F) ->
  lands (mbind (write_extras batch) k) b R F.
Proof.
  unfold lands, runs, mbind, write_extras. destruct (Write (m_extrasDB b) batch) as [[] d]; cbn; intros Hf Ht; [by apply Ht|]. right. eexists. split; [reflexivity|]. by apply Hf.
Qed.

Lemma split_route_app common dead fresh : common ∉ dead -> common ∉ fresh -> split_route common true (dead ++ common :: fresh) = (dead, fresh).
Proof.
  intros Hd Hf. assert (split_route common false fresh = ([], fresh)) as E.
  { clear Hd. induction fresh as [|x l IH]; [done|]. apply not_elem_of_cons in Hf as [Hx Hf]. cbn. rewrite bool_decide_false by done. by rewrite IH. }
  induction dead as [|x l IH]; cbn; [by rewrite bool_decide_true|]. apply not_elem_of_cons in Hd as [Hx Hd]. rewrite bool_decide_false by done. by rewrite IH.
Qed.

(** What [insertBlockAndExtras] tells: nothing, or the blocks that were left and those
    that were reached, through the nearest common ancestor. *)
Definition told (T : tree) b (vb : VerifiedBlockRef) (moved : bool) (r : ImportRoute) : Prop :=
  goodTranactions r = vb_transactions vb /\
  match moved with
  | true => exists i j, up T i (m_lastBlockHash b) = up T j (m_parentHash (vb_info vb)) /\
      (up T i (m_lastBlockHash b) ∉ ups T i (m_lastBlockHash b)) /\ (up T i (m_lastBlockHash b) ∉ ups T j (m_parentHash (vb_info vb))) /\
      deadBlocks r = ups T i (m_lastBlockHash b) /\ liveBlocks r = rev (ups T j (m_parentHash (vb_info vb))) ++ [m_hash (vb_info vb)]
  | false => deadBlocks r = [] /\ liveBlocks r = []
  end.

(** Queries around a change of the details. *)
Lemma frames_around b b1 b3 d : frame b b1 -> frame (set_details d b1) b3 -> blooms_wf b ->
  m_extrasDB b3 = m_extrasDB b /\ m_lastBlockHash b3 = m_lastBlockHash b /\ m_lastBlockNumber b3 = m_lastBlockNumber b /\
  m_blockHashes b3 = m_blockHashes b /\ (forall id, seen b3 id = seen b id) /\ blooms_wf b3 /\ (usage_ok (m_cacheUsage b) -> usage_ok (m_cacheUsage b3)).
Proof.
  intros Hf Hf' Hw. destruct (frame_wf _ _ Hf Hw) as [Hw1 E1]. destruct (frame_wf _ _ Hf') as [Hw3 E3]; [split; apply Hw1|].
  destruct Hf as [A1 A2 A3 A4 A5 A6 A7 A8], Hf' as [B1 B2 B3 B4 B5 B6 B7 B8]. cbn in *. repeat (split; [congruence|]). split; [|auto].
  intros id. rewrite E3, <- E1. done.
Qed.

Lemma cut_from c b b3 b4 : m_blockHashes b3 = m_blockHashes b -> m_lastBlockNumber b3 = m_lastBlockNumber b -> (forall id, seen b3 id = seen b id) ->
  (usage_ok (m_cacheUsage b) -> usage_ok (m_cacheUsage b3)) -> cut c b3 b4 -> cut c b b4.
Proof.
  intros E1 E2 E3 Hu (H1 & H2 & H3). split; [by rewrite <- E1, <- E2|]. split; [|auto]. intros k x Hk Hc. apply H2; [done|].
  apply (cover_more (seen b)); [lia|by apply more_eq|done].
Qed.
Lemma canon_changed (l l' : list bytes) x : match l ++ x :: l' with [] => mret tt | _ => noteCanonChanged end = noteCanonChanged (L := L).
Proof. by destruct l. Qed.

Section Inserting.
Variables (T : tree) (vb : VerifiedBlockRef) (receipts : bytes) (td : Z) (ln pn : node) (b : BC) (blb : bytes).
Abbreviation h := (m_hash (vb_info vb)).
Abbreviation p := (m_parentHash (vb_info vb)).
Abbreviation nd := (fresh_node vb td).
Abbreviation last := (m_lastBlockHash b).
Hypothesis Hok : chain_ok T b.
Hypothesis Hln : T !! last = Some ln.
Hypothesis Hnew : T !! h = None.
Hypothesis Hp : T !! p = Some pn.
Hypothesis Hnum : m_number (vb_info vb) = m_number (n_header pn) + 1.
Hypothesis Htd : td = n_td pn + m_difficulty (vb_info vb).
Hypothesis Hfits : details_ok (details_of (addc h pn)).
Hypothesis Hnd : node_ok h nd.

Definition inserted (r : ImportRoute) (b' : BC) : Prop :=
  chain_ok (extend T vb td) b' /\ m_lastBlockHash b' = (if takes_over vb td ln then h else last) /\ told T b vb (takes_over vb td ln) r /\
  (takes_over vb td ln = true -> (exists d : L, fst (Write d [(best, h)]) = true) /\ forall k, m_number (vb_info vb) < k <= m_lastBlockNumber b ->
     Get (m_extrasDB b') (toSlice_n k ExtraBlockHash) = encode (Str (canon T b k)) /\ m_blockHashes b' !! k = None).

(** Where a refused write ends the process: before anything of the block is in the
    extras, or before the new head is noted, with the block and the numbers of its branch
    in the databases already. *)
Definition refused (b' : BC) : Prop :=
  fst (Write (m_blocksDB b) [(toSlice h 0, vb_block vb)]) = false \/
  (exists v batch, fst (Write (m_extrasDB b) ((toSlice p ExtraDetails, v) :: batch)) = false) \/
  takes_over vb td ln = true /\ (exists d : L, fst (Write d [(best, h)]) = false) /\ Get (m_extrasDB b') best = Get (m_extrasDB b) best /\
  tree_ok params G (extend T vb td) /\ store_ok G (extend T vb td) (extend T vb td) b' /\
  forall k, 1 <= k <= m_number (vb_info vb) ->
    Get (m_extrasDB b') (toSlice_n k ExtraBlockHash) = encode (Str (up (extend T vb td) (Z.to_nat (m_number (vb_info vb) - k)) h)).

(** The end of [insertBlockAndExtras]. *)
Definition finish (best_ : bool) (x : list bytes * bytes * list (bytes * bytes)) : BM ImportRoute :=
  let '(r, batch) := x in
  let '(route, common) := r in
  exec! write_blocks [(toSlice h 0, vb_block vb)] in
  exec! write_extras (extras_of h p pn nd blb receipts ++ batch) in
  exec! (if best_ && negb (bool_decide (last = h)) then
           exec! mput (fun b => set_lastBlockNumber (m_number (vb_info vb)) (set_lastBlockHash h b)) in
           write_extras [(best, h)]
         else mret tt) in
  exec! (match route with [] => mret tt | _ => noteCanonChanged end) in
  let '(dead, fresh) := split_route common true route in
  mret {| deadBlocks := dead; liveBlocks := fresh; goodTranactions := vb_transactions vb |}.

Lemma head_is : m_lastBlockNumber b = m_number (n_header ln).
Proof. destruct (c_head _ _ Hok) as (ln0 & Hln0 & E & _). congruence. Qed.

Lemma finish_stays b3 : takes_over vb td ln = false -> store_ok G T (with_child h p T) b3 -> blooms_wf b3 -> m_extrasDB b3 = m_extrasDB b ->
  m_lastBlockHash b3 = last -> m_lastBlockNumber b3 = m_lastBlockNumber b -> m_blockHashes b3 = m_blockHashes b -> (forall id, seen b3 id = seen b id) ->
  m_blocksDB b3 = m_blocksDB b -> usage_ok (m_cacheUsage b3) -> lands (finish false ([], FixedHash.zero 32, [])) b3 inserted refused.
Proof.
  intros Etake Hs3 Hw3 Ex Elast Enum Ehs Eseen Ebl Hu3. pose proof (c_tree _ _ Hok) as HT. unfold finish.
  apply lands_write_blocks; [rewrite Ebl; by left|]. intros W1. apply lands_write_extras; [right; left; cbn in *; rewrite Ex in *; eauto|]. intros W2. cbn [andb].
  left. eexists _, _. split; [reflexivity|]. unfold inserted. rewrite Etake.
  split; [|split; [cbn; by rewrite Elast|split; [done|by intros [=]]]].
  apply stays_ok with (b := b) (b4 := b3) (b1 := b3) (a := []) (l := []) (pn := pn) (blb := blb) (rcp := receipts); try done.
  - apply collated_nil.
  - intros k. cbn [m_blocksDB set_extrasDB set_blocksDB]. by apply Get_written.
  - intros y s _. cbn [m_extrasDB set_extrasDB set_blocksDB]. by apply Get_written.
  - cbn [m_extrasDB set_extrasDB set_blocksDB] in *. rewrite Get_written, app_nil_r, (kinds_best [0; 3; 4]); [by rewrite Ex|apply extras_kinds|kind|done].
  - intros n Hn. rewrite Hln in Hn. injection Hn as <-. unfold takes_over in Etake. apply orb_false_iff in Etake as [Et _]. cbn. lia.
Qed.

Lemma takes_over_td : takes_over vb td ln = true -> n_td ln <= td.
Proof.
  unfold takes_over. intros [Et|Et]%orb_true_iff; [lia|]. apply andb_true_iff in Et as [Et _]. apply andb_true_iff in Et as [_ Et]. lia.
Qed.

Lemma finish_moves b0 b4 i j l a : takes_over vb td ln = true -> store_ok G T (with_child h p T) b4 -> blooms_wf b4 -> m_extrasDB b4 = m_extrasDB b ->
  Z.of_nat i <= m_number (n_header ln) -> Z.of_nat j <= m_number (n_header pn) -> up T i last = up T j p -> up T i last ∉ ups T i last ->
  up T i last ∉ ups T j p -> map fst l = h :: ups T j p -> (forall x n, (x, n) ∈ l -> x = h /\ n = nd \/ with_child h p T !! x = Some n) ->
  cut (m_number (n_header ln) - Z.of_nat i) b b4 -> (forall x n, (x, n) ∈ l -> cover (seen b4) (m_number (n_header n)) (indexed (n_header n))) ->
  m_blocksDB b4 = m_blocksDB b -> collated (numbered l) a b0 b4 ->
  lands (finish true (route_of T true true true last p i j ++ [h], up T i last, a)) b4 inserted refused.
Proof.
  intros Etake Hs4 Hw4 Ex Hi Hj Hij Hni Hnj Hl Hnodes Hcut Hcov Ebl Hco. pose proof (c_tree _ _ Hok) as HT. pose proof (takes_over_td Etake) as Hle.
  unfold finish, route_of. cbn [negb andb].
  apply lands_write_blocks; [rewrite Ebl; by left|]. intros W1. apply lands_write_extras; [right; left; cbn in *; rewrite Ex in *; eauto|]. intros W2.
  rewrite bool_decide_false by congruence. cbn [andb negb]. apply lands_assoc, lands_put. set (b3 := set_lastBlockNumber _ _).
  assert (forall y s, 0 <= s < 6 -> Get (m_extrasDB b3) (toSlice y s) =
    default (Get (m_extrasDB b4) (toSlice y s)) (batch_value (extras_of h p pn nd blb receipts ++ a) (toSlice y s))) as Hget3.
  { intros y s Hs. by apply Get_written. }
  assert (forall k, Get (m_blocksDB b3) k = default (Get (m_blocksDB b4) k) (batch_value [(toSlice h 0, n_bytes nd)] k)) as Hdb3 by (intros k; by apply Get_written).
  apply lands_write_extras; intros W3.
  - right. right. split; [done|]. split; [eauto|]. set (b5 := set_extrasDB _ _).
    assert (forall y, Get (m_extrasDB b5) y = Get (m_extrasDB b3) y) as Hsame by (intros y; by apply Get_refused).
    assert (forall y s, 0 <= s < 6 -> Get (m_extrasDB b5) (toSlice y s) =
      default (Get (m_extrasDB b4) (toSlice y s)) (batch_value (extras_of h p pn nd blb receipts ++ a) (toSlice y s))) as Hget5 by (intros y s Hs; rewrite Hsame; by apply Hget3).
    split; [|split; [|split]].
    + rewrite Hsame. unfold b3. cbn [m_extrasDB set_extrasDB set_blocksDB set_lastBlockNumber set_lastBlockHash] in *. rewrite Get_written by done.
      rewrite OverlayDB.batch_value_app, (kinds_best [1; 2; 5] a), (kinds_best [0; 3; 4] (extras_of _ _ _ _ _ _)); [by rewrite Ex|apply extras_kinds|kind|apply (co_kinds _ _ _ _ Hco)|kind].
    + by apply (extended_ok T h p pn).
    + apply (written_store T h p pn) with (b4 := b4) (b1 := b0) (a := a) (l := l) (blb := blb) (rcp := receipts); done.
    + intros k Hk. change (up (extend T vb td) (Z.to_nat (m_number (vb_info vb) - k)) h) with (canon (extend T vb td) b5 k).
      apply (moves_numbers T h p pn) with (b := b) (b4 := b4) (b1 := b0) (a := a) (l := l) (nd := nd) (blb := blb) (rcp := receipts) (ln := ln) (i := i) (j := j); done.
  - replace (((ups T i last ++ [up T i last]) ++ rev (ups T j p ++ [])) ++ [h]) with (ups T i last ++ up T i last :: (rev (ups T j p) ++ [h]))
      by (by rewrite app_nil_r, <- !app_assoc).
    rewrite split_route_app; [|done|].
    2: { intros [Hin|Hin]%elem_of_app; [by rewrite list_elem_of_In, <- in_rev, <- list_elem_of_In in Hin|]. apply list_elem_of_singleton in Hin.
         destruct (up_node params G T (t_core _ _ _ HT) i last ln Hln Hi) as (cn & Hcn & _). congruence. }
    rewrite canon_changed. apply lands_put. apply lands_ret. unfold inserted. rewrite Etake. match goal with |- chain_ok _ ?x /\ _ => set (b5 := x) end.
    assert (forall y s, 0 <= s < 6 -> Get (m_extrasDB b5) (toSlice y s) =
      default (Get (m_extrasDB b4) (toSlice y s)) (batch_value (extras_of h p pn nd blb receipts ++ a) (toSlice y s))) as Hget.
    { intros y s Hs. rewrite <- Hget3 by done. unfold b5. cbn [m_extrasDB set_extrasDB set_lastHashes]. rewrite Get_written by done.
      cbn [batch_value]. by rewrite decide_False by (intros E; by apply (toSlice_best y s)). }
    split; [|split; [done|split; [split; [done|]; exists i, j; auto|intros _; split; [eauto|intros k Hk]]]].
    + unfold extend. apply (moves_ok T h p pn) with (b := b) (b4 := b4) (b1 := b0) (a := a) (l := l) (blb := blb) (rcp := receipts) (ln := ln) (i := i) (j := j); try done.
      * unfold b5. cbn [m_extrasDB set_extrasDB set_lastHashes]. rewrite Get_written by done. cbn [batch_value]. by rewrite decide_True.
      * apply Hcut, (c_usage _ _ Hok).
    + apply (moves_stale T h p pn) with (b4 := b4) (b1 := b0) (a := a) (l := l) (nd := nd) (blb := blb) (rcp := receipts) (ln := ln) (i := i) (j := j); done.
Qed.
End Inserting.

Lemma insert_runs T vb receipts td ln b : chain_ok T b -> insertable T vb receipts td -> T !! m_lastBlockHash b = Some ln ->
  lands (insertBlockAndExtras params G vb receipts td) b (inserted T vb td ln b) (refused T vb td ln b).
Proof.
  intros Hok [Hnew (pn & Hp & Hnum & Htd & Hfits) Hnd (rs & blb & Hrs & Hblb)] Hln. pose proof (c_tree _ _ Hok) as HT. pose proof (t_core _ _ _ HT) as Hcore.
  set (h := m_hash (vb_info vb)) in *. set (p := m_parentHash (vb_info vb)) in *. set (nd := fresh_node vb td) in *. set (last := m_lastBlockHash b) in *.
  unfold insertBlockAndExtras. fold p.
  eapply lands_bind; [apply (details_runs params G T T Hcore), Hok|]. intros d0 b1 (-> & Hs1 & Hf1 & Hmemo). destruct (Hmemo ltac:(by exists pn)) as [d Hd]. clear Hmemo.
  destruct (s_mdetails _ _ _ _ Hs1 _ _ Hd) as (pn' & Hpn' & ->). rewrite Hp in Hpn'. injection Hpn' as <-.
  eapply lands_bind; [apply (hash_read h nd); done|]. intros ? b1' [-> ->]. apply lands_put. apply lands_get. rewrite Hd. cbn [default].
  set (b2 := set_details _ b1). assert (cached_details p b2 = details_of (addc h pn)) as ->.
  { unfold cached_details, b2. cbn. by rewrite lookup_insert_eq. }
  assert (store_ok G T (with_child h p T) b2) as Hs2 by (by apply (child_noted T h p pn)).
  eapply lands_str; [by apply details_write|]. pose proof (n_number _ _ Hnd : 0 <= m_number (vb_info vb) < 2 ^ 28) as Hrange.
  rewrite (wrap_small 32 (m_number (vb_info vb))) by (unfold uint_ok; lia).
  eapply lands_str; [apply (details_write (details_of nd)), Hnd|]. eapply lands_rlp; [done|]. eapply lands_str; [done|]. apply lands_get.
  change (m_lastBlockHash b2) with (m_lastBlockHash b1). rewrite (f_last _ _ Hf1). fold last.
  pose proof (with_child_core T h p pn HT Hp Hfits) as Hcm. destruct (with_child_is T h p pn Hp _ _ Hln) as (ln' & Hln' & _ & Eh & Etd).
  destruct (with_child_is T h p pn Hp _ _ Hp) as (pn' & Hpn' & _ & Ehp & _).
  eapply lands_bind; [by apply (is_best_runs T (with_child h p T) vb td last ln')|]. intros best_ b3 (Ebest & Hs3 & Hf3).
  assert (takes_over vb td ln = best_) as Etake by (rewrite Ebest; unfold takes_over; by rewrite Eh, Etd). clear Ebest.
  destruct (frames_around _ _ _ _ Hf1 Hf3 (c_wf _ _ Hok)) as (Ex & Elast & Enum & Ehs & Eseen & Hw3 & Hu3). pose proof (head_is T ln b Hok Hln) as Enum0.
  assert (m_blocksDB b3 = m_blocksDB b) as Ebl by (rewrite (f_blocksDB _ _ Hf3); apply (f_blocksDB _ _ Hf1)). destruct best_.
  - eapply (lands_bind _ (finish vb receipts td pn b blb true)); [apply (reroute_runs params G T (with_child h p T) vb h Hcore Hcm last p ln' pn' nd); try done|].
    { apply (with_child_new T h p pn Hp Hnew). }
    { by rewrite Ehp. }
    { by rewrite Eh, Enum. }
    intros r b4 (i & j & l & a & -> & Hi & Hj & Hij & Hni & Hnj & Hl & Hnodes & Hs4 & Hw4 & Hcut & E1 & E2 & _ & Hcov & b0 & Hco).
    rewrite Eh in Hi, Hcut. rewrite Ehp in Hj. unfold route_of. rewrite !(with_child_ups T h p pn Hp), !(with_child_up T h p pn Hp) in *.
    apply (finish_moves T vb receipts td ln pn b blb) with (b0 := b0) (l := l); try done; [congruence|by apply (cut_from _ b b3 b4)|congruence].
  - eapply (lands_bind _ (finish vb receipts td pn b blb false) _ (fun x b' => x = ([], FixedHash.zero 32, []) /\ b' = b3)); [by apply bc_ret|]. intros x b' [-> ->].
    apply (finish_stays T vb receipts td ln pn b blb); try done. apply Hu3, (c_usage _ _ Hok).
Qed.

(** ** The other operations *)

(** What only changes the caches. *)
Lemma same_chain T b b' : chain_ok T b -> store_ok G T T b' -> m_extrasDB b' = m_extrasDB b -> m_lastBlockHash b' = m_lastBlockHash b ->
  m_lastBlockNumber b' = m_lastBlockNumber b ->
  (forall k x, m_blockHashes b' !! k = Some x -> A k \/ 1 <= k <= m_lastBlockNumber b /\ x = canon T b k) ->
  (forall id bb, m_blocksBlooms b' !! id = Some bb -> bb = seen b id) -> usage_ok (m_cacheUsage b') -> chain_ok T b'.
Proof.
  intros Hok Hs Ex El En Hhs Hblooms Hu. destruct Hok as [C1 C2 C3 C4 C5 C6 C7 C8 C9].
  assert (forall id, stored b' id = stored b id) as Est by (intros id; unfold stored; by rewrite Ex).
  assert (forall id, seen b' id = seen b id \/ seen b' id = stored b id) as Ese.
  { intros id. unfold seen at 1 3. destruct (m_blocksBlooms b' !! id) as [bb|] eqn:E; [left; by apply Hblooms|right; apply Est]. }
  split; unfold canon in *; rewrite ?Ex, ?El, ?En; try done.
  - split; [|rewrite Ex; apply C7]. intros id bb E. rewrite (Hblooms id bb E). by apply seen_ok.
  - intros k n Hk Hn. destruct (C8 k n Hk Hn) as [[A1 A2] [B1 B2]]. split; split; rewrite ?Est; [| |done|done].
    + by destruct (Ese (chunkId 0 (k / 16))) as [->| ->].
    + by destruct (Ese (chunkId 1 (k / 16 / 16))) as [->| ->].
Qed.
Lemma memo_seen b id bb : m_blocksBlooms b !! id = Some bb -> bb = seen b id.
Proof. unfold seen. by intros ->. Qed.
Lemma frame_chain T b b' : chain_ok T b -> store_ok G T T b' -> frame b b' -> chain_ok T b'.
Proof.
  intros Hok Hs [E1 E2 E3 E4 E5 E6 E7 E8]. apply (same_chain T b); [done..| | |].
  - rewrite E5. apply (c_mnumbers _ _ Hok).
  - rewrite E6. apply memo_seen.
  - apply E8, (c_usage _ _ Hok).
Qed.
Lemma quiet_chain T b b' : chain_ok T b -> quiet b b' -> chain_ok T b'.
Proof.
  intros Hok (Hw & Hf & Hseen). destruct Hf as [E1 E2 E3 E4 E5 E6 E7 E8 E9] eqn:Ef. apply (same_chain T b); [done| |done..| | |].
  - eapply bframe_store; [exact Hf|apply Hok].
  - rewrite E5. apply (c_mnumbers _ _ Hok).
  - intros id bb E. rewrite <- Hseen. by apply memo_seen.
  - apply E9, (c_usage _ _ Hok).
Qed.

(** What is cached for a number. *)
Lemma number_cached T b k x : chain_ok T b -> A k \/ 1 <= k <= m_lastBlockNumber b /\ x = canon T b k ->
  chain_ok T (set_blockHashes (<[k := x]> (m_blockHashes b)) b).
Proof.
  intros Hok Hk. apply (same_chain T b); cbn; [done|by destruct (c_store _ _ Hok); split|done|done|done| |apply memo_seen|apply (c_usage _ _ Hok)].
  intros j y. destruct (decide (j = k)) as [->|Hne']; [by rewrite lookup_insert_eq; intros [= <-]|].
  rewrite lookup_insert_ne by done. apply (c_mnumbers _ _ Hok).
Qed.
(** A number up to the head's names the ancestor of the head, unless it is one of those. *)
Lemma number_read T b k : chain_ok T b -> 1 <= k <= m_lastBlockNumber b ->
  exists z s, Get (m_extrasDB b) (toSlice_n k ExtraBlockHash) = z :: s /\ read_hash (z :: s) = Ok (canon T b k).
Proof.
  intros Hok Hk. pose proof (t_core _ _ _ (c_tree _ _ Hok)) as Hcore. destruct (c_head _ _ Hok) as (ln & Hln & Eln & _). rewrite (c_numbers _ _ Hok) by lia.
  destruct (up_node params G T Hcore (Z.to_nat (m_lastBlockNumber b - k)) _ ln Hln ltac:(lia)) as (n & Hn & _). fold (canon T b k) in Hn.
  destruct (t_node _ _ _ Hcore _ _ Hn) as [N1 N2 _ _ _ _ _ _ _ _]. destruct (hash_store (canon T b k) N1 N2) as [_ Hr].
  pose proof (stored_not_nil _ (h256_encodable _ N1 N2)) as Hne. destruct (encode (Str (canon T b k))) as [|z s]; [done|]. eauto.
Qed.
Lemma numberHash_keeps T b k : chain_ok T b -> 0 <= k <= m_lastBlockNumber b \/ A k -> chain_ok T (snd (numberHash G k b)).
Proof.
  intros Hok Hk. unfold numberHash. destruct (Z.eqb_spec k 0) as [->|Ek]; [done|]. unfold queryExtras, mbind, mget. cbn [snd].
  destruct (m_blockHashes b !! k) as [x|]; [done|]. destruct (decide (1 <= k <= m_lastBlockNumber b)) as [Hin|Hout].
  - destruct (number_read T b k Hok Hin) as (z & s & -> & Hr). unfold mret, rlp, mlift. rewrite Hr. cbn. apply number_cached; [done|]. by right.
  - destruct (Get (m_extrasDB b) _) as [|z s]; [done|]. unfold mret, rlp, mlift. destruct (read_hash (z :: s)) as [x|e]; cbn; [|done].
    apply number_cached; [done|]. left. destruct Hk as [Hk|Hk]; [lia|done].
Qed.
Lemma numberHash_runs T b k : chain_ok T b -> 0 <= k <= m_lastBlockNumber b -> ~ A k ->
  runs (numberHash G k) b (fun x b' => x = canon T b k /\ chain_ok T b').
Proof.
  intros Hok Hk Ha. pose proof (t_core _ _ _ (c_tree _ _ Hok)) as Hcore. destruct (c_head _ _ Hok) as (ln & Hln & Eln & _).
  assert (exists b', numberHash G k b = (Ok (canon T b k), b')) as [b' E].
  { unfold numberHash. destruct (Z.eqb_spec k 0) as [->|Ek].
    - exists b. unfold canon, mret. do 2 f_equal. rewrite Z.sub_0_r, Eln. symmetry. by apply (up_genesis params G).
    - unfold queryExtras, mbind, mget. destruct (m_blockHashes b !! k) as [x|] eqn:E; [destruct (c_mnumbers _ _ Hok k x E) as [Hx|[_ ->]]; [done|eauto]|].
      destruct (number_read T b k Hok ltac:(lia)) as (z & s & -> & Hr). unfold mret, rlp, mlift. rewrite Hr. eauto. }
  exists (canon T b k), b'. split; [done|]. split; [done|]. pose proof (numberHash_keeps T b k Hok ltac:(by left)) as Hk'. by rewrite E in Hk'.
Qed.

Lemma block_unknown_runs T b h : chain_ok T b -> T !! h = None -> runs (block params G h) b (fun d b' => d = [] /\ b' = b).
Proof.
  intros Hok Hh. assert (h <> m_genesisHash G) as Hg.
  { destruct (t_genesis _ _ _ (t_core _ _ _ (c_tree _ _ Hok))) as (n & Hn & _). congruence. }
  unfold block. rewrite bool_decide_false by done. apply bc_get. destruct (m_blocks b !! h) as [d|] eqn:E.
  - destruct (s_mblocks _ _ _ _ (c_store _ _ Hok) _ _ E) as (_ & n & Hn & _). congruence.
  - rewrite (s_blocks _ _ _ _ (c_store _ _ Hok) h Hg), Hh. by apply bc_ret.
Qed.

(** *** Collecting garbage *)
Lemma evict_chain T b id : chain_ok T b -> id.2 <> ExtraBlockHash -> exists b', evict id b = Ok b' /\ chain_ok T b' /\ m_cacheUsage b' = m_cacheUsage b.
Proof.
  intros Hok Hid. destruct id as [x n]. cbn in Hid. unfold evict. pose proof (c_store _ _ Hok) as [S1 S2 S3 S4 S5 S6].
  pose proof (c_mnumbers _ _ Hok) as Hn. pose proof (c_usage _ _ Hok) as Hu. pose proof (memo_seen b) as Hm.
  rewrite (proj2 (Z.eqb_neq n ExtraBlockHash) Hid). repeat case_match; eexists; (split; [reflexivity|]); (split; [|done]); try (apply (same_chain T b); cbn; try done; split; cbn; done).
  - apply (same_chain T b); cbn; try done. split; cbn; try done. intros y d [_ E]%lookup_delete_Some. by apply S2.
  - apply (same_chain T b); cbn; try done. split; cbn; try done. intros y d [_ E]%lookup_delete_Some. by apply S4.
  - apply (same_chain T b); cbn; try done. intros y d [_ E]%lookup_delete_Some. by apply Hm.
Qed.
Lemma evict_all_chain T l : forall b, chain_ok T b -> Forall (fun id => id.2 <> ExtraBlockHash) l ->
  runs (evict_all l) b (fun _ b' => chain_ok T b' /\ m_cacheUsage b' = m_cacheUsage b).
Proof.
  induction l as [|id l IH]; intros b Hok Hl; [by exists tt, b|]. apply Forall_cons in Hl as [Hid Hl]. destruct (evict_chain T b id Hok Hid) as (b1 & E & Hok1 & Eu).
  destruct (IH b1 Hok1 Hl) as (u & b2 & E2 & Hok2 & Eu2). exists u, b2. cbn [evict_all]. rewrite E. split; [done|]. split; [done|congruence].
Qed.
Lemma collect_runs T b : chain_ok T b -> runs collect b (fun _ b' => chain_ok T b').
Proof.
  intros Hok. pose proof (c_usage _ _ Hok) as [Hlen Hu]. unfold collect. apply bc_get. destruct (last (m_cacheUsage b)) as [s|] eqn:E.
  - eapply bc_bind; [apply (evict_all_chain T); [done|]|].
    { apply Forall_forall. intros id Hid%elem_of_elements. rewrite Forall_forall in Hu. apply last_Some_elem_of in E. by apply (Hu s). }
    intros _ b1 [Hok1 Eu]. eexists tt, _. split; [reflexivity|]. apply (same_chain T b1); cbn; try done.
    + by destruct (c_store _ _ Hok1); split.
    + apply (c_mnumbers _ _ Hok1).
    + apply memo_seen.
    + rewrite Eu. apply last_Some in E as [l' E]. rewrite E in *. rewrite removelast_last. rewrite length_app in Hlen. cbn in Hlen. apply Forall_app in Hu as [Hu _].
      split; [cbn; lia|]. constructor; [|done]. intros id Hid. by apply elem_of_empty in Hid.
  - apply last_None in E. rewrite E in Hlen. done.
Qed.
Lemma garbageCollect_runs T b force early mem : chain_ok T b -> runs (garbageCollect force early mem) b (fun _ b' => chain_ok T b').
Proof.
  intros Hok. unfold garbageCollect. destruct (_ && _ && _); [by apply bc_ret|]. destruct (mem <? c_minCacheSize); [by apply bc_ret|]. by apply collect_runs.
Qed.

(** *** Opening *)
Lemma closed_usage (x y : L) a : usage_ok (m_cacheUsage (closed x y a)).
Proof. split; [done|]. cbn [m_cacheUsage closed]. apply Forall_replicate. intros id Hid. by apply elem_of_empty in Hid. Qed.
Lemma closed_store T b a : store_ok G T T b -> store_ok G T T (closed (m_blocksDB b) (m_extrasDB b) a).
Proof. intros [S1 S2 S3 S4 S5 S6]. by split. Qed.

(** Opening databases that hold a tree finds the head that is noted in them. *)
Lemma open_runs T b a last ln : tree_core params G T -> store_ok G T T b -> T !! last = Some ln ->
  Get (m_extrasDB b) best = last \/ Get (m_extrasDB b) best = [] /\ last = m_genesisHash G ->
  runs (open G) (closed (m_blocksDB b) (m_extrasDB b) a) (fun _ b' => store_ok G T T b' /\ m_extrasDB b' = m_extrasDB b /\
    m_lastBlockHash b' = last /\ m_lastBlockNumber b' = m_number (n_header ln) /\ m_blockHashes b' = ∅ /\ m_blocksBlooms b' = ∅ /\ usage_ok (m_cacheUsage b')).
Proof.
  intros Hcore Hs Hln Hbest. destruct (t_genesis _ _ _ Hcore) as (g & Hg & _ & _ & E0 & _). set (c := closed _ _ a). unfold open.
  eapply (runs_details params G T T Hcore); [by apply closed_store|done|]. intros b1 Hs1 Hf1 _. unfold isNull. cbn [number details_of]. rewrite E0. cbn [Z.eqb c_invalidNumber].
  unfold mret at 1, mbind at 1. apply bc_get.
  assert (match Get (m_extrasDB b1) best with [] => m_genesisHash G | _ => take 32 (Get (m_extrasDB b1) best) end = last) as ->.
  { rewrite (f_extrasDB _ _ Hf1). change (m_extrasDB c) with (m_extrasDB b). pose proof (n_length _ _ (t_node _ _ _ Hcore _ _ Hln)) as Hlen.
    destruct Hbest as [E|[-> ->]]; [|done]. rewrite E. destruct last as [|z l]; [done|]. rewrite <- Hlen. apply take_ge. lia. }
  apply bc_put. unfold number_of. apply runs_assoc'. eapply (runs_details params G T T Hcore); [destruct Hs1; by split|done|].
  intros b2 Hs2 Hf2 _. unfold mret at 1, mbind at 1. eexists tt, _. split; [reflexivity|]. cbn [m_lastBlockHash set_lastBlockNumber m_lastBlockNumber m_extrasDB m_blockHashes m_blocksBlooms m_cacheUsage].
  split; [destruct Hs2; by split|]. split; [rewrite (f_extrasDB _ _ Hf2); cbn; by rewrite (f_extrasDB _ _ Hf1)|]. split; [apply (f_last _ _ Hf2)|]. split; [done|].
  split; [rewrite (f_hashes _ _ Hf2); cbn; by rewrite (f_hashes _ _ Hf1)|]. split; [rewrite (f_blooms _ _ Hf2); cbn; by rewrite (f_blooms _ _ Hf1)|].
  apply (f_usage _ _ Hf2), (f_usage _ _ Hf1), closed_usage.
Qed.
Lemma reopen_runs T b a : chain_ok T b -> runs (open G) (closed (m_blocksDB b) (m_extrasDB b) a) (fun _ b' => chain_ok T b' /\
  m_lastBlockHash b' = m_lastBlockHash b /\ m_lastBlockNumber b' = m_lastBlockNumber b).
Proof.
  intros Hok. destruct (c_head _ _ Hok) as (ln & Hln & Eln & _).
  eapply runs_mono; [apply (open_runs T b a (m_lastBlockHash b) ln); [apply (t_core _ _ _ (c_tree _ _ Hok))|apply Hok|done|apply Hok]|].
  intros _ b' (Hs & Ex & El & En & Eh & Eb & Hu). split; [|by rewrite El, En].
  apply (same_chain T b); [done|done|done|done|by rewrite En| | |done]; [rewrite Eh|rewrite Eb]; done.
Qed.

(** Opening empty databases makes the tree of the genesis block. *)
Definition genesis_node : node :=
  {| n_bytes := genesisBlock params; n_header := m_genesis G; n_td := m_difficulty (m_genesis G); n_children := [] |}.
Definition genesis_tree : tree := {[ m_genesisHash G := genesis_node ]}.
Record genesis_ok : Prop := {
  g_node : node_ok (m_genesisHash G) genesis_node;
  g_number : m_number (m_genesis G) = 0;
  g_parent : m_parentHash (m_genesis G) = FixedHash.zero 32;
  g_header : extractHeader (genesisBlock params) = Ok (m_genesisHeaderBytes G)
}.
Hypothesis Hgenesis : genesis_ok.

Lemma genesis_tree_ok : tree_ok params G genesis_tree.
Proof.
  destruct Hgenesis as [G1 G2 G3 G4]. assert (forall x n, genesis_tree !! x = Some n -> x = m_genesisHash G /\ n = genesis_node) as Hone.
  { unfold genesis_tree. intros x n Hx. by apply lookup_singleton_Some in Hx as [<- <-]. }
  split; [split|..].
  - exists genesis_node. split; [apply lookup_singleton_eq|]. done.
  - by intros x n [-> ->]%Hone.
  - by intros x n [-> ->]%Hone Hx.
  - by intros x n q [-> ->]%Hone Hx.
  - intros x n c [-> ->]%Hone Hc. by apply elem_of_nil in Hc.
  - intros x n [-> ->]%Hone. constructor.
Qed.

(** The status of the first write is not looked at. *)
Lemma create_runs (blocks extras : L) a : (forall k, Get blocks k = []) -> (forall k, Get extras k = []) -> (forall v, fst (Write extras [(toSlice (m_genesisHash G) ExtraDetails, v)]) = true) ->
  runs (open G) (closed blocks extras a) (fun _ b' => chain_ok genesis_tree b').
Proof.
  intros Hb Hx Hw. pose proof genesis_tree_ok as HT. destruct Hgenesis as [G1 G2 G3 G4]. set (h := m_genesisHash G) in *. unfold open. fold h.
  eapply (bc_bind _ _ _ (fun d b' => d = NullBlockDetails /\ b' = closed blocks extras a)).
  { unfold details, query, queryExtras. apply bc_get. cbn [m_details closed]. rewrite lookup_empty. apply bc_get. cbn [m_extrasDB closed]. rewrite Hx.
    by apply bc_ret. }
  intros d b' [-> ->]. unfold isNull. cbn [number NullBlockDetails]. rewrite Z.eqb_refl.
  assert ({| number := 0; totalDifficulty := m_difficulty (m_genesis G); parent := FixedHash.zero 32; children := [] |} = details_of genesis_node) as ->.
  { unfold details_of. cbn [n_header genesis_node n_td n_children]. by rewrite G2, G3. }
  apply runs_assoc', bc_put. apply runs_assoc'. eapply runs_str; [apply details_write, G1|].
  set (rec := encode (details_item (details_of genesis_node))).
  apply (bc_put (fun b => set_extrasDB (snd (Write (m_extrasDB b) [(toSlice h ExtraDetails, rec)])) b)). apply bc_get. cbn [m_extrasDB set_extrasDB set_details closed].
  assert (forall y, Get (snd (Write extras [(toSlice h ExtraDetails, rec)])) y = if decide (toSlice h ExtraDetails = y) then rec else []) as Hget.
  { intros y. rewrite Get_written by apply Hw. cbn [batch_value]. case_decide; [done|apply Hx]. }
  rewrite Hget, decide_False by (apply toSlice_best; kind). apply bc_put. unfold number_of, details, query, queryExtras. apply runs_assoc', runs_assoc', bc_get.
  cbn [m_details set_lastBlockHash set_extrasDB set_details closed]. rewrite lookup_insert_eq. eexists tt, _. split; [reflexivity|].
  assert (forall id, toSlice h ExtraDetails <> toSlice id ExtraBlocksBlooms) as Hne by (intros id [_ E]%toSlice_inj; [done|kind..]).
  split; cbn [m_lastBlockHash m_lastBlockNumber set_lastBlockNumber set_lastBlockHash set_extrasDB set_details m_extrasDB m_blockHashes closed number details_of n_header genesis_node
    m_cacheUsage].
  - done.
  - split; cbn.
    + intros x Hxh. rewrite Hb. unfold genesis_tree. by rewrite lookup_singleton_ne.
    + intros x d E. by apply lookup_empty_Some in E.
    + intros x. rewrite Hget. unfold genesis_tree. fold h. destruct (decide (x = h)) as [->|Hxh]; [by rewrite decide_True, lookup_singleton_eq|].
      rewrite decide_False by (intros [E _]%toSlice_inj; [done|kind..]). by rewrite lookup_singleton_ne.
    + intros x d. rewrite insert_empty. intros [<- <-]%lookup_singleton_Some. exists genesis_node. split; [apply lookup_singleton_eq|done].
    + done.
    + eauto.
  - exists genesis_node. split; [apply lookup_singleton_eq|]. split; [done|]. unfold genesis_tree. intros x m [_ <-]%lookup_singleton_Some. lia.
  - right. rewrite Hget, decide_False by (apply toSlice_best; kind). done.
  - rewrite G2. lia.
  - intros k x E. by apply lookup_empty_Some in E.
  - split; cbn; [intros id bb E; by apply lookup_empty_Some in E|]. intros id. left. rewrite Hget. by rewrite decide_False.
  - rewrite G2. lia.
  - apply (closed_usage blocks extras a).
Qed.
End Chain.
End ChainProps.
