(* ===== verification/ChainSamples.v ===== *)
(** * ChainSamples: a small tree of blocks

    A database that never fails, and four blocks: the genesis block, two easy blocks on
    top of each other, and a harder one beside them. *)

From stdpp Require Import base list numbers option gmap.
From Stdlib Require Import ZArith Lia.
From S2P Require Import Prelude Bytes Rlp RlpStream RlpFields Keccak OverlayDB Crypto Transaction BlockHeader Seal Receipt BlockChain ChainStore.
From S2P Require Import ChainTree ChainBlooms ChainIndex ChainProps.
Import CommonData RLP RLPStream RlpFields Keccak.

Module ChainSamples.
Import Bloom LogEntry Receipt BlockDetails BlockChain ChainStore ChainTree ChainBlooms ChainIndex ChainProps.
Import BlockHeader (BlockHeader, m_parentHash, m_number, m_gasUsed, m_logBloom, m_author, m_difficulty, m_hash, make_header, extractHeader,
  HeaderData, BlockData, WithSeal).

(** ** A database *)
#[export] Instance map_db : LevelDB (gmap bytes bytes) := {
  Get l k := default [] (l !! k);
  Write l b := (true, foldl (fun m kv => <[fst kv := snd kv]> m) l b);
}.
#[export] Instance map_db_laws : LevelDBLaws (gmap bytes bytes).
Proof.
  constructor. intros l b k. cbn [Get Write map_db fst snd]. revert l. induction b as [|[k' v] b IH]; intros l; cbn; [done|]. rewrite IH.
  destruct (batch_value b k); [done|]. destruct (decide (k' = k)) as [->|]; cbn; [by rewrite lookup_insert_eq|by rewrite lookup_insert_ne].
Qed.

(** ** Blocks *)

(** A block without transactions and uncles, ten seconds after its parent. *)
Definition block_of (parent : bytes) (number difficulty : Z) : bytes :=
  encode (Lst [Lst [Str parent; Str (FixedHash.zero 32); Str (FixedHash.zero 20); Str (FixedHash.zero 32); Str (FixedHash.zero 32);
                    Str (FixedHash.zero 32); Str (FixedHash.zero 256); int_item difficulty; int_item number; Str []; Str []; int_item (10 * number); Str []];
               Lst []; Lst []]).
Definition header_of (b : bytes) : BlockHeader :=
  match make_header b BlockData (FixedHash.zero 32) with Ok h => h | Err _ => BlockHeader.empty_header end.

Definition genesis_bytes : bytes := Eval vm_compute in block_of (FixedHash.zero 32) 0 5.
Definition genesis_header : BlockHeader := Eval vm_compute in header_of genesis_bytes.
Definition first_bytes : bytes := Eval vm_compute in block_of (m_hash genesis_header) 1 10.
Definition first_header : BlockHeader := Eval vm_compute in header_of first_bytes.
Definition second_bytes : bytes := Eval vm_compute in block_of (m_hash first_header) 2 10.
Definition second_header : BlockHeader := Eval vm_compute in header_of second_bytes.
Definition heavy_bytes : bytes := Eval vm_compute in block_of (m_hash genesis_header) 1 100.
Definition heavy_header : BlockHeader := Eval vm_compute in header_of heavy_bytes.

Definition sample_params : ChainParams :=
  {| operation := ChainOperationParams.defaults; genesisBlock := genesis_bytes; tieBreakingGas := true; allowFutureBlocks := false |}.
Definition sample_genesis : Genesis :=
  {| m_genesis := genesis_header;
     m_genesisHeaderBytes := match extractHeader genesis_bytes with Ok d => d | Err _ => [] end;
     m_genesisHash := m_hash genesis_header |}.
Definition block_ref (b : bytes) (h : BlockHeader) : VerifiedBlockRef := {| vb_block := b; vb_info := h; vb_transactions := [] |}.
Definition first := block_ref first_bytes first_header.
Definition second := block_ref second_bytes second_header.
Definition heavy := block_ref heavy_bytes heavy_header.
(** No receipts. *)
Definition no_receipts : bytes := [0xc0].

Lemma bytes_check l : forallb (fun b => (0 <=? b) && (b <? 256)) l = true -> bytes_ok l.
Proof. intros E. apply Forall_forall. intros x Hx%list_elem_of_In. rewrite forallb_forall in E. specialize (E x Hx). unfold is_byte. lia. Qed.

(** The encoding of the details fits. *)
Fixpoint item_check (t : Item) : bool :=
  match t with
  | Str s => forallb (fun b => (0 <=? b) && (b <? 256)) s
  | Lst l => forallb item_check l
  end.
Lemma item_check_ok t : item_check t = true -> item_ok t.
Proof.
  induction t as [s|l IH] using Item_rect'; cbn [item_check]; [apply bytes_check|]. intros E. apply item_ok_Lst, Forall_forall. intros t Ht.
  rewrite Forall_forall in IH. apply (IH t Ht). rewrite forallb_forall in E. by apply E, list_elem_of_In.
Qed.
Definition details_check (d : BlockDetails) : bool :=
  (0 <=? number d) && (number d <? 2 ^ 32) && (0 <=? totalDifficulty d) && (totalDifficulty d <? 2 ^ 256) && (zlen (parent d) =? 32)
  && forallb (fun c => zlen c =? 32) (children d) && item_check (details_item d) && (zlen (encode (details_item d)) <? maxLength).
Lemma details_check_ok d : details_check d = true -> details_ok d.
Proof.
  unfold details_check. rewrite !andb_true_iff. intros (((((((H1 & H2) & H3) & H4) & H5) & H6) & H7) & H8). split.
  - unfold uint_ok. lia.
  - unfold uint_ok. lia.
  - lia.
  - apply Forall_forall. intros c Hc%list_elem_of_In. rewrite forallb_forall in H6. specialize (H6 c Hc). lia.
  - split; [by apply item_check_ok|lia].
Qed.

(** A header that is read from a block is read alone too. *)
Lemma header_both b d n : extractHeader b = Ok d -> make d VeryStrict = Ok d -> BlockHeader.populate d (sha3 d) = Ok n ->
  make_header b BlockData (FixedHash.zero 32) = Ok n /\ make_header d HeaderData (FixedHash.zero 32) = Ok n.
Proof. intros Hd Hm Hp. unfold make_header. rewrite Hd, Hm. done. Qed.
Lemma node_check (h : bytes) (n : node) (d txs : bytes) :
  forallb (fun b => (0 <=? b) && (b <? 256)) h && (zlen h =? 32) && FixedHash.to_bool h && (0 <=? m_number (n_header n)) && (m_number (n_header n) <? 2 ^ 28)
    && (zlen (m_logBloom (n_header n)) =? 256) && forallb (fun b => (0 <=? b) && (b <? 256)) (m_logBloom (n_header n)) && details_check (details_of n) = true ->
  m_hash (n_header n) = h -> extractHeader (n_bytes n) = Ok d -> make d VeryStrict = Ok d -> BlockHeader.populate d (sha3 d) = Ok (n_header n) ->
  make (n_bytes n) VeryStrict = Ok (n_bytes n) -> nth (n_bytes n) 1 = Ok txs -> itemCount txs = Ok 0 -> node_ok h n.
Proof.
  rewrite !andb_true_iff. intros (((((((H1 & H2) & H3) & H4) & H5) & H6) & H7) & H8) Hh Hd Hmd Hpop Hr Ht Hc.
  destruct (header_both _ _ _ Hd Hmd Hpop) as [Hm Hm']. split; [lia|by apply bytes_check|done|done|done|by eauto| |lia| |].
  - exists (n_bytes n), txs, 0. split; [done|]. split; [done|]. split; [done|]. split; [lia|]. lia.
  - split; [lia|by apply bytes_check].
  - by apply details_check_ok.
Qed.
Definition got {E} (r : result E bytes) : bytes := match r with Ok d => d | Err _ => [] end.
Ltac sample_node n :=
  let d := eval vm_compute in (got (extractHeader (n_bytes n))) in
  let t := eval vm_compute in (got (nth (n_bytes n) 1)) in
  apply (node_check _ n d t); vm_compute; reflexivity.

Lemma sample_genesis_ok : genesis_ok sample_params sample_genesis.
Proof.
  split.
  - sample_node (genesis_node sample_params sample_genesis).
  - vm_compute. reflexivity.
  - vm_compute. reflexivity.
  - vm_compute. reflexivity.
Qed.

Lemma sample_insertable (T : tree) vb (pn : node) :
  T !! m_hash (vb_info vb) = None -> T !! m_parentHash (vb_info vb) = Some pn ->
  (m_number (vb_info vb) =? m_number (n_header pn) + 1) && details_check (details_of (addc (m_hash (vb_info vb)) pn)) = true ->
  node_ok (m_hash (vb_info vb)) (fresh_node vb (n_td pn + m_difficulty (vb_info vb))) ->
  insertable T vb no_receipts (n_td pn + m_difficulty (vb_info vb)).
Proof.
  intros Hn Hp [H1 H2]%andb_true_iff Hnode. split; [done| |done|].
  - exists pn. split; [done|]. split; [lia|]. split; [done|]. by apply details_check_ok.
  - exists []. eexists. split; vm_compute; reflexivity.
Qed.

(** ** The tree *)
Definition genesis_tree0 : tree := genesis_tree sample_params sample_genesis.
Definition tree1 : tree := extend genesis_tree0 first 15.
Definition tree2 : tree := extend tree1 second 25.

Definition node0 : node := genesis_node sample_params sample_genesis.
Definition node1 : node := fresh_node first 15.
Lemma first_insertable : insertable genesis_tree0 first no_receipts 15.
Proof.
  apply (sample_insertable genesis_tree0 first node0); [vm_compute; reflexivity..|]. sample_node node1.
Qed.
Lemma second_insertable : insertable tree1 second no_receipts 25.
Proof.
  apply (sample_insertable tree1 second node1); [vm_compute; reflexivity..|]. sample_node (fresh_node second 25).
Qed.
Lemma heavy_node : node_ok (m_hash heavy_header) (fresh_node heavy 105).
Proof. sample_node (fresh_node heavy 105). Qed.
Lemma heavy_insertable : insertable tree2 heavy no_receipts 105.
Proof.
  apply (sample_insertable tree2 heavy (addc (m_hash first_header) node0)); [vm_compute; reflexivity..|]. exact heavy_node.
Qed.

(** ** The states *)
Definition no_aux : VapashAux.VapashAux :=
  {| VapashAux.m_lights := ∅; VapashAux.m_fulls := ∅; VapashAux.m_epochs := ∅; VapashAux.m_seedHashes := [] |}.
Definition state0 : BlockChain (L := gmap bytes bytes) := snd (open sample_genesis (closed ∅ ∅ no_aux)).
Definition state1 := snd (insertBlockAndExtras sample_params sample_genesis first no_receipts 15 state0).
Definition state2 := snd (insertBlockAndExtras sample_params sample_genesis second no_receipts 25 state1).
Example heads : (m_lastBlockHash state0, m_lastBlockHash state1, m_lastBlockHash state2, m_lastBlockNumber state2) =
  (m_hash genesis_header, m_hash first_header, m_hash second_header, 2).
Proof. vm_compute. reflexivity. Qed.

(** A route without the common block. *)
Example route_without_common :
  fst (treeRoute (m_hash second_header) (m_hash first_header) false true true state2) = Ok ([m_hash second_header], m_hash first_header, 1).
Proof. vm_compute. reflexivity. Qed.

(** A switch to a shorter branch, a question about the number above its head, and a
    block with that number: the chain keeps naming the block that was left. *)
Definition third_bytes : bytes := Eval vm_compute in block_of (m_hash heavy_header) 2 10.
Definition third_header : BlockHeader := Eval vm_compute in header_of third_bytes.
Definition stale : result bc_exn bytes * BlockChain (L := gmap bytes bytes) :=
  (exec! insertBlockAndExtras sample_params sample_genesis heavy no_receipts 105 in
   exec! numberHash sample_genesis 2 in
   exec! insertBlockAndExtras sample_params sample_genesis (block_ref third_bytes third_header) no_receipts 115 in
   numberHash sample_genesis 2) state2.
Example dead_block_in_chain :
  fst stale = Ok (m_hash second_header) /\ m_lastBlockHash (snd stale) = m_hash third_header /\ m_lastBlockNumber (snd stale) = 2.
Proof. vm_compute. auto. Qed.

End ChainSamples.
