(* ===== verification/ChainHistory.v ===== *)
(** * ChainHistory: what can be relied on of the chain

    Any sequence of insertions that return, queries, collections of garbage and restarts,
    from empty databases on.  The head has the greatest total difficulty, numbers name its
    ancestors, the queries answer what was inserted, routes go through the nearest common
    ancestor, and the search by blooms misses no block.  A switch to a shorter branch does
    not reset the numbers above the new head: a number that is asked for while it is above
    the head may name a block that was left from then on, so the histories carry the set
    of the numbers that this may happen to.  A refused write ends the process; when it is
    the write of the new head, the databases are left with the numbers of a branch that
    is not the head's. *)

From stdpp Require Import base list numbers option gmap.
From Stdlib Require Import ZArith Lia.
From S2P Require Import Prelude Bytes Rlp RlpStream RlpFields Keccak OverlayDB Crypto Transaction BlockHeader Seal Receipt BlockChain ChainStore.
From S2P Require Import ChainTree ChainBlooms ChainIndex ChainProps ChainSamples.
Import CommonData RLP RLPStream RlpFields Keccak.

#[local] Opaque sha3.

Module ChainHistory.
Import Bloom LogEntry Receipt BlockDetails BlockChain ChainStore ChainTree ChainBlooms ChainIndex ChainProps.
Import BlockHeader (BlockHeader, m_parentHash, m_number, m_gasUsed, m_logBloom, m_author, m_difficulty, m_hash, make_header, extractHeader,
  HeaderData, BlockData, WithSeal).

Section Chain.
Context {L : Type} `{LevelDB L, !LevelDBLaws L} {C : Crypto.Secp256k1}.
Variables (params : ChainParams) (G : Genesis).
(** The numbers that may be asked for while they are above the head's. *)
Variable A : Z -> Prop.
Abbreviation BC := (BlockChain (L := L)).
Abbreviation BM A := (M BC bc_exn A).
Implicit Types b : BC.

(** The operations that leave the tree and the head alone: what comes after them. *)
Inductive consulted (T : tree) b : BC -> Prop :=
| on_details h r b' : details h b = (r, b') -> consulted T b b'
| on_block h r b' : block params G h b = (r, b') -> consulted T b b'
| on_info h n r b' : T !! h = Some n -> info params G h b = (r, b') -> consulted T b b'
| on_number k r b' : 0 <= k <= m_lastBlockNumber b \/ A k -> numberHash G k b = (r, b') -> consulted T b b'
| on_route from to a z c pre post r b' : T !! from = Some a -> T !! to = Some z -> treeRoute from to c pre post b = (r, b') -> consulted T b b'
| on_search q e l r b' : 0 <= e <= l -> l < 2 ^ 28 -> withBlockBloom q e l b = (r, b') -> consulted T b b'
| on_garbage force early mem r b' : garbageCollect force early mem b = (r, b') -> consulted T b b'
| on_restart a r b' : open G (closed (m_blocksDB b) (m_extrasDB b) a) = (r, b') -> consulted T b b'.

(** The states that can be reached while no write is refused, each with the tree of the
    blocks inserted.  The write of the genesis record is the only one whose status the
    code does not look at. *)
Inductive history : tree -> BC -> Prop :=
| created blocks extras a r b : (forall k, Get blocks k = []) -> (forall k, Get extras k = []) -> (forall v, fst (Write extras [(toSlice (m_genesisHash G) ExtraDetails, v)]) = true) ->
    open G (closed blocks extras a) = (r, b) -> history (genesis_tree params G) b
| inserting T b vb receipts td r b' : history T b -> insertable T vb receipts td ->
    insertBlockAndExtras params G vb receipts td b = (Ok r, b') -> history (extend T vb td) b'
| consulting T b b' : history T b -> consulted T b b' -> history T b'.

Hypothesis Hgenesis : genesis_ok params G.

(** What an operation that is known to return leaves. *)
Lemma runs_state {B} (m : BM B) b Q r b' : runs m b Q -> m b = (r, b') -> exists a, r = Ok a /\ Q a b'.
Proof. intros (a & b1 & E & HQ) E'. rewrite E in E'. injection E' as <- <-. eauto. Qed.
Lemma details_chain T b h : chain_ok params G A T b ->
  runs (details h) b (fun d b' => d = default NullBlockDetails (details_of <$> T !! h) /\ chain_ok params G A T b').
Proof.
  intros Hok. pose proof (t_core _ _ _ (c_tree _ _ _ _ _ Hok)) as Hcore. eapply runs_mono; [apply (details_runs params G T T Hcore), Hok|].
  intros d b' (-> & Hs & Hf & _). split; [done|]. by apply (frame_chain params G A T b).
Qed.
Lemma block_chain T b h : chain_ok params G A T b ->
  runs (block params G h) b (fun d b' => d = default [] (n_bytes <$> T !! h) /\ chain_ok params G A T b').
Proof.
  intros Hok. pose proof (t_core _ _ _ (c_tree _ _ _ _ _ Hok)) as Hcore. destruct (T !! h) as [n|] eqn:Hn.
  - eapply runs_mono; [apply (block_runs params G T T Hcore); [apply Hok|done]|]. intros d b' (-> & Hs & Hf). split; [done|]. by apply (frame_chain params G A T b).
  - eapply runs_mono; [by apply (block_unknown_runs params G A T)|]. by intros d b' [-> ->].
Qed.

Lemma consulted_ok T b b' : chain_ok params G A T b -> consulted T b b' -> chain_ok params G A T b'.
Proof.
  intros Hok Hc. pose proof (t_core _ _ _ (c_tree _ _ _ _ _ Hok)) as Hcore.
  destruct Hc as [h r b' E|h r b' E|h n r b' Hn E|k r b' Hk E|from to x z c pre post r b' Hx Hz E|q e l r b' He Hl E|force early mem r b' E|a r b' E].
  - by destruct (runs_state _ _ _ _ _ (details_chain T b h Hok) E) as (d & _ & _ & Hok').
  - by destruct (runs_state _ _ _ _ _ (block_chain T b h Hok) E) as (d & _ & _ & Hok').
  - destruct (runs_state _ _ _ _ _ (info_runs params G T T Hcore h n b (c_store _ _ _ _ _ Hok) Hn) E) as (i & _ & _ & Hs & Hf). by apply (frame_chain params G A T b).
  - pose proof (numberHash_keeps params G A T b k Hok Hk) as Hok'. by rewrite E in Hok'.
  - destruct (runs_state _ _ _ _ _ (treeRoute_runs params G T T Hcore Hcore from to x z c pre post b (c_store _ _ _ _ _ Hok) Hx Hz) E)
      as (y & _ & i & j & _ & _ & _ & _ & _ & Hs & Hf). by apply (frame_chain params G A T b).
  - destruct (runs_state _ _ _ _ _ (withBlockBloom_runs q e l b (c_wf _ _ _ _ _ Hok) He Hl) E) as (y & _ & Hq & _). by apply (quiet_chain params G A T b).
  - by destruct (runs_state _ _ _ _ _ (garbageCollect_runs params G A T b force early mem Hok) E) as (y & _ & Hok').
  - by destruct (runs_state _ _ _ _ _ (reopen_runs params G A T b a Hok) E) as (y & _ & Hok' & _).
Qed.

Lemma history_ok T b : history T b -> chain_ok params G A T b.
Proof.
  induction 1 as [blocks extras a r b Hb Hx Hw E|T b vb receipts td r b' _ IH Hi E|T b b' _ IH Hc].
  - by destruct (runs_state _ _ _ _ _ (create_runs params G A Hgenesis blocks extras a Hb Hx Hw) E) as (y & _ & Hok).
  - destruct (c_head _ _ _ _ _ IH) as (ln & Hln & _).
    destruct (insert_runs params G A T vb receipts td ln b IH Hi Hln) as [Hr|(b1 & E1 & _)]; [|congruence].
    by destruct (runs_state _ _ _ _ _ Hr E) as (y & _ & Hok & _).
  - by apply (consulted_ok T b).
Qed.

(** ** What follows *)

(** C21: whatever blocks were inserted by insertions that returned, and whatever was asked
    in between, across restarts and collections of garbage: the head has the greatest
    total difficulty of all the blocks; the number [k] up to the head's names the head's
    ancestor at that height, unless it is among the numbers [A] that may be asked for
    while above the head; and the details and the bytes of every block are those that
    were inserted, with parents and children linked both ways. *)
Theorem chain_coherent T b : history T b ->
  tree_ok params G T /\
  (exists n, T !! m_lastBlockHash b = Some n /\ m_lastBlockNumber b = m_number (n_header n) /\ forall h m, T !! h = Some m -> n_td m <= n_td n) /\
  (forall k, 0 <= k <= m_lastBlockNumber b -> ~ A k -> runs (numberHash G k) b (fun x _ => x = canon T b k)) /\
  (forall h, runs (details h) b (fun d _ => d = default NullBlockDetails (details_of <$> T !! h))) /\
  (forall h, runs (block params G h) b (fun d _ => d = default [] (n_bytes <$> T !! h))).
Proof.
  intros Hh. pose proof (history_ok T b Hh) as Hok. split; [apply Hok|]. split; [apply Hok|]. split; [|split].
  - intros k Hk Ha. eapply runs_mono; [by apply (numberHash_runs params G A T)|]. by intros x b' [-> _].
  - intros h. eapply runs_mono; [by apply (details_chain T)|]. by intros d b' [-> _].
  - intros h. eapply runs_mono; [by apply (block_chain T)|]. by intros d b' [-> _].
Qed.


(** The route between two known blocks goes up from both to their nearest common
    ancestor, which no block of the route below it equals; it has the blocks on the way up
    from the first and, in reverse, those on the way up from the second, as far as they
    are asked for.  With [_common] false the common block is left out, also when it is one
    of the two, where the examples in the header of the class have it in the route. *)
Theorem treeRoute_nearest T b from to a z c pre post : history T b -> T !! from = Some a -> T !! to = Some z ->
  runs (treeRoute from to c pre post) b (fun r _ => exists i j,
    Z.of_nat i <= m_number (n_header a) /\ Z.of_nat j <= m_number (n_header z) /\ up T i from = up T j to /\
    (forall i' j', Z.of_nat i' <= m_number (n_header a) -> Z.of_nat j' <= m_number (n_header z) -> up T i' from = up T j' to -> (i <= i')%nat /\ (j <= j')%nat) /\
    exists k, r = (route_of T c pre post from to i j, up T i from, k)).
Proof.
  intros Hh Hf Ht. pose proof (history_ok T b Hh) as Hok. pose proof (t_core _ _ _ (c_tree _ _ _ _ _ Hok)) as Hcore.
  eapply runs_mono; [by apply (treeRoute_runs params G T T Hcore Hcore from to a z); [apply Hok|..]|].
  intros r b' (i & j & Hi & Hj & Hij & Hmin & Hr & _). by exists i, j.
Qed.

(** C23: the search by blooms misses nothing above the genesis block: a block of the chain
    with a number from 1 on and of the range, whose bloom or author has all the bits asked
    for, is among the results, for ranges that end below 2^28. *)
Theorem search_complete T b q e l : history T b -> 0 <= e <= l -> l < 2 ^ 28 ->
  runs (withBlockBloom q e l) b (fun r _ => forall k n, e <= k <= l -> 1 <= k <= m_lastBlockNumber b -> T !! canon T b k = Some n ->
    within q (indexed (n_header n)) -> k ∈ r).
Proof.
  intros Hh He Hl. pose proof (history_ok T b Hh) as Hok. eapply runs_mono; [apply withBlockBloom_runs; [apply Hok|done|done]|].
  intros r b' (_ & Hcomp & _) k n Hk Hkn Hn Hq. apply Hcomp; [lia|lia|]. destruct (c_cover _ _ _ _ _ Hok k n Hkn Hn) as [[C1 C2] _].
  split; by eapply within_trans.
Qed.

(** It also finds blocks above the range: with an end that is not a multiple of 256,
    all matching blocks of the next 256 after the end's 256 are results too. *)
Theorem search_overshoots T b q e l : history T b -> 0 <= e <= l -> l < 2 ^ 28 -> l mod 256 <> 0 ->
  runs (withBlockBloom q e l) b (fun r _ => forall k n, k / 256 = l / 256 + 1 -> 1 <= k <= m_lastBlockNumber b -> T !! canon T b k = Some n ->
    within q (indexed (n_header n)) -> l < k /\ k ∈ r).
Proof.
  intros Hh He Hl Hm. pose proof (history_ok T b Hh) as Hok. eapply runs_mono; [apply withBlockBloom_runs; [apply Hok|done|done]|].
  intros r b' (_ & Hcomp & _) k n Hk Hkn Hn Hq. assert (l < k) as Hlk by (Z.to_euclidean_division_equations; lia). split; [done|]. apply Hcomp; [lia| |].
  - right. Z.to_euclidean_division_equations; lia.
  - destruct (c_cover _ _ _ _ _ Hok k n Hkn Hn) as [[C1 C2] _]. split; by eapply within_trans.
Qed.

(** C24: after any history in which no write was refused, closing and opening the databases
    succeeds and finds the same head, and the same chain. *)
Theorem restart_finds_head T b a : history T b ->
  runs (open G) (closed (m_blocksDB b) (m_extrasDB b) a) (fun _ b' => history T b' /\
    m_lastBlockHash b' = m_lastBlockHash b /\ m_lastBlockNumber b' = m_lastBlockNumber b).
Proof.
  intros Hh. destruct (reopen_runs params G A T b a (history_ok T b Hh)) as (u & b' & E & _ & H1 & H2). exists u, b'. split; [done|]. split; [|done].
  apply (consulting T b); [done|]. by apply (on_restart T b a (Ok u)).
Qed.

(** Reading a number from the database. *)
Lemma number_from T b k n x : tree_core params G T -> T !! x = Some n -> k <> 0 -> m_blockHashes b !! k = None ->
  Get (m_extrasDB b) (toSlice_n k ExtraBlockHash) = encode (Str x) -> runs (numberHash G k) b (fun y b' => y = x /\ m_lastBlockHash b' = m_lastBlockHash b).
Proof.
  intros Hcore Hn Hk Hm Hget. destruct (t_node _ _ _ Hcore _ _ Hn) as [N1 N2 _ _ _ _ _ _ _ _]. destruct (hash_store x N1 N2) as [_ Hr].
  pose proof (stored_not_nil _ (h256_encodable _ N1 N2)) as Hne.
  unfold numberHash. rewrite (proj2 (Z.eqb_neq k 0)) by done. unfold queryExtras. apply bc_get. rewrite Hm. apply bc_get. rewrite Hget.
  destruct (encode (Str x)) as [|y s]; [done|]. unfold mret at 1, mbind at 1. eapply runs_rlp; [done|]. by apply bc_put, bc_ret.
Qed.

(** C25: a switch to a shorter branch with more difficulty leaves the numbers above its
    head: asked for one, the chain names the block of the branch that was left.  (Or a
    write is refused, and the process ends.) *)
Theorem stale_number T b vb receipts td ln k : history T b -> insertable T vb receipts td -> T !! m_lastBlockHash b = Some ln ->
  takes_over params vb td ln = true -> m_number (vb_info vb) < k <= m_lastBlockNumber b ->
  lands (exec! insertBlockAndExtras params G vb receipts td in numberHash G k) b (fun x b' =>
    m_lastBlockHash b' = m_hash (vb_info vb) /\ x = canon T b k) (refused params G T vb td ln b).
Proof.
  intros Hh Hi Hln Ht Hk. pose proof (history_ok T b Hh) as Hok. pose proof (t_core _ _ _ (c_tree _ _ _ _ _ Hok)) as Hcore.
  pose proof (n_number _ _ (i_node _ _ _ _ Hi)) as Hn. destruct (c_head _ _ _ _ _ Hok) as (ln' & Hln' & Eln & _).
  destruct (insert_runs params G A T vb receipts td ln b Hok Hi Hln) as [(r & b1 & E & Hok1 & Hhead & _ & Hst)|(b1 & E & HF)];
    [left|right; exists b1; unfold mbind; by rewrite E].
  unfold runs. rewrite (mbind_Ok _ _ _ _ _ E). rewrite Ht in Hhead. destruct (Hst Ht) as [_ Hst']. destruct (Hst' k Hk) as [Eget Enone]. cbn in Hn.
  destruct (up_node params G T Hcore (Z.to_nat (m_lastBlockNumber b - k)) _ ln' Hln' ltac:(lia)) as (n & Hc & _). fold (canon T b k) in Hc.
  destruct (number_from T b1 k n (canon T b k) Hcore Hc ltac:(lia) Enone Eget) as (x & b2 & E2 & -> & El). exists (canon T b k), b2. by rewrite El, Hhead.
Qed.

(** C26: a switch of the head is not atomic.  When the database refuses the write of the new
    head, which comes after the batch with the numbers of the new branch, the process
    ends; opened again, the chain has the old head, and the numbers up to the block that
    was inserted name the blocks of its branch. *)
Theorem torn_switch T b vb receipts td ln a : history T b -> insertable T vb receipts td -> T !! m_lastBlockHash b = Some ln ->
  takes_over params vb td ln = true ->
  (forall (d : L) batch, fst (Write d batch) = negb (bool_decide (batch = [(best, m_hash (vb_info vb))]))) ->
  exists b', insertBlockAndExtras params G vb receipts td b = (Err Exit, b') /\
    runs (open G) (closed (m_blocksDB b') (m_extrasDB b') a) (fun _ b2 =>
      m_lastBlockHash b2 = m_lastBlockHash b /\ m_lastBlockNumber b2 = m_lastBlockNumber b /\
      forall k, 1 <= k <= m_number (vb_info vb) ->
        runs (numberHash G k) b2 (fun x _ => x = up (extend T vb td) (Z.to_nat (m_number (vb_info vb) - k)) (m_hash (vb_info vb)))).
Proof.
  intros Hh Hi Hln Ht Hw. pose proof (history_ok T b Hh) as Hok. destruct (c_head _ _ _ _ _ Hok) as (ln' & Hln' & Eln & _).
  rewrite Hln in Hln'. injection Hln' as <-.
  assert (forall (d : L) x v s batch, 0 <= s < 6 -> fst (Write d ((toSlice x s, v) :: batch)) = true) as Hfine.
  { intros d x v s batch Hs. rewrite Hw, bool_decide_false; [done|]. intros [= E _]. by apply (toSlice_best x s Hs). }
  destruct (insert_runs params G A T vb receipts td ln b Hok Hi Hln) as [(r & b1 & E & _ & _ & _ & Hst)|(b1 & E & [F|[(v & batch & F)|F]])].
  - destruct (Hst Ht) as [[d Hd] _]. rewrite Hw, bool_decide_true in Hd; done.
  - rewrite Hfine in F; [done|kind].
  - rewrite Hfine in F; [done|kind].
  - destruct F as (_ & _ & Ebest & HT & Hs & Hnum). exists b1. split; [done|]. pose proof (t_core _ _ _ HT) as Hcore.
    destruct Hi as [Hnew (pn & Hp & Hno & Htd & Hfits) Hnd _].
    destruct (with_child_is T (m_hash (vb_info vb)) _ pn Hp _ _ Hln) as (ln2 & Hln2 & _ & Eh & _).
    assert (extend T vb td !! m_lastBlockHash b = Some ln2) as Hl2 by (unfold extend; rewrite lookup_insert_ne; [done|congruence]).
    eapply runs_mono; [apply (open_runs params G (extend T vb td) b1 a (m_lastBlockHash b) ln2); [done|done|done|]|].
    { rewrite Ebest. apply (c_best _ _ _ _ _ Hok). }
    intros _ b2 (Hs2 & Ex & El & En & Ehs & _). split; [done|]. split; [by rewrite En, Eh, Eln|]. intros k Hk.
    assert (extend T vb td !! m_hash (vb_info vb) = Some (fresh_node vb td)) as Hnew' by apply lookup_insert_eq.
    destruct (up_node params G _ Hcore (Z.to_nat (m_number (vb_info vb) - k)) _ _ Hnew') as (n & Hn & _); [cbn; pose proof (n_number _ _ Hnd); cbn in *; lia|].
    eapply runs_mono; [apply (number_from (extend T vb td) b2 k n); [done|exact Hn|lia|by rewrite Ehs|rewrite Ex; by apply Hnum]|]. by intros x b' [-> _].
Qed.

(** Insertions return when no write is refused. *)
Lemma insert_returns T b vb receipts td : (forall (d : L) batch, fst (Write d batch) = true) -> history T b -> insertable T vb receipts td ->
  history (extend T vb td) (snd (insertBlockAndExtras params G vb receipts td b)).
Proof.
  intros Hw Hh Hi. pose proof (history_ok T b Hh) as Hok. destruct (c_head _ _ _ _ _ Hok) as (ln & Hln & _).
  destruct (insert_runs params G A T vb receipts td ln b Hok Hi Hln) as [(r & b' & E & _)|(b' & _ & F)]; [rewrite E; by eapply inserting|].
  destruct F as [F|[(v & batch & F)|(_ & [d F] & _)]]; by rewrite Hw in F.
Qed.
End Chain.

(** ** The sample chain *)
Import ChainSamples.
(** No number is asked for above the head. *)
Definition within_head : Z -> Prop := fun _ => False.
Abbreviation sample := (history sample_params sample_genesis within_head).

Lemma map_reliable (d : gmap bytes bytes) batch : fst (Write d batch) = true.
Proof. reflexivity. Qed.
Lemma history0 : sample genesis_tree0 state0.
Proof. apply (created _ _ _ ∅ ∅ no_aux (fst (open sample_genesis (closed ∅ ∅ no_aux)))); [done|done|done|apply surjective_pairing]. Qed.
Lemma history1 : sample tree1 state1.
Proof. apply (insert_returns _ _ _ sample_genesis_ok _ _ _ _ _ map_reliable); [apply history0|apply first_insertable]. Qed.
Lemma history2 : sample tree2 state2.
Proof. apply (insert_returns _ _ _ sample_genesis_ok _ _ _ _ _ map_reliable); [apply history1|apply second_insertable]. Qed.

Lemma chain_coherent_witness : runs (numberHash sample_genesis 1) state2 (fun x _ => x = canon tree2 state2 1).
Proof.
  destruct (chain_coherent sample_params sample_genesis within_head sample_genesis_ok tree2 state2 history2) as (_ & _ & Hn & _).
  apply (Hn 1); [vm_compute; split; discriminate|intros []].
Defined.


Lemma treeRoute_nearest_witness : exists r b', treeRoute (m_hash second_header) (m_hash genesis_header) true true true state2 = (Ok r, b').
Proof.
  destruct (treeRoute_nearest sample_params sample_genesis within_head sample_genesis_ok tree2 state2 (m_hash second_header) (m_hash genesis_header)
    (fresh_node second 25) (addc (m_hash first_header) node0) true true true history2 ltac:(vm_compute; reflexivity) ltac:(vm_compute; reflexivity))
    as (r & b' & E & _).
  exists r, b'. exact E.
Defined.

Lemma search_complete_witness : exists r b', withBlockBloom empty_bloom 0 2 state2 = (Ok r, b') /\ 1 ∈ r.
Proof.
  destruct (search_complete sample_params sample_genesis within_head sample_genesis_ok tree2 state2 empty_bloom 0 2 history2 ltac:(lia) ltac:(lia))
    as (r & b' & E & Hr).
  exists r, b'. split; [exact E|]. apply (Hr 1 (addc (m_hash second_header) node1)); [lia|vm_compute; split; discriminate|vm_compute; reflexivity|vm_compute; auto].
Defined.

Lemma search_overshoots_witness : exists r b', withBlockBloom empty_bloom 0 2 state2 = (Ok r, b').
Proof.
  destruct (search_overshoots sample_params sample_genesis within_head sample_genesis_ok tree2 state2 empty_bloom 0 2 history2 ltac:(lia) ltac:(lia)
    ltac:(vm_compute; discriminate)) as (r & b' & E & _).
  exists r, b'. exact E.
Defined.

Lemma restart_finds_head_witness : exists u b', open sample_genesis (closed (m_blocksDB state2) (m_extrasDB state2) no_aux) = (Ok u, b') /\
  m_lastBlockHash b' = m_lastBlockHash state2.
Proof.
  destruct (restart_finds_head sample_params sample_genesis within_head sample_genesis_ok tree2 state2 no_aux history2) as (u & b' & E & _ & Hh & _).
  exists u, b'. split; [exact E|exact Hh].
Defined.

Lemma stale_number_witness : exists b',
  (exec! insertBlockAndExtras sample_params sample_genesis heavy no_receipts 105 in numberHash sample_genesis 2) state2 = (Ok (m_hash second_header), b') /\
  m_lastBlockHash b' = m_hash heavy_header.
Proof.
  destruct (stale_number sample_params sample_genesis within_head sample_genesis_ok tree2 state2 heavy no_receipts 105 (fresh_node second 25) 2
    history2 heavy_insertable ltac:(vm_compute; reflexivity) ltac:(vm_compute; reflexivity) ltac:(vm_compute; split; [reflexivity|discriminate]))
    as [(x & b' & E & Hh & Hx)|(b' & _ & F)].
  - exists b'. rewrite E. split; [|exact Hh]. rewrite Hx. vm_compute. reflexivity.
  - destruct F as [F|[(v & batch & F)|(_ & [d F] & _)]]; discriminate F.
Defined.

(** A database that refuses one batch: that the heavy block is the head. *)
Record Torn := { torn : gmap bytes bytes }.
#[local] Instance torn_db : LevelDB Torn := {
  Get l k := Get (torn l) k;
  Write l b := if decide (b = [(best, m_hash heavy_header)]) then (false, l) else (true, {| torn := snd (Write (torn l) b) |});
}.
#[local] Instance torn_laws : LevelDBLaws Torn.
Proof. constructor. intros l b k. cbn [Get Write torn_db]. case_decide; [done|]. cbn [fst snd torn]. by rewrite Get_Write. Qed.
Lemma torn_refuses (d : Torn) batch : fst (Write d batch) = negb (bool_decide (batch = [(best, m_hash heavy_header)])).
Proof. cbn [Write torn_db]. case_decide as E; [by rewrite bool_decide_true|by rewrite bool_decide_false]. Qed.
Abbreviation torn_sample := (history (L := Torn) sample_params sample_genesis within_head).
Definition torn0 : BlockChain (L := Torn) := snd (open sample_genesis (closed {| torn := ∅ |} {| torn := ∅ |} no_aux)).
Lemma torn_kinds (d : Torn) x v s batch : 0 <= s < 6 -> fst (Write d ((toSlice x s, v) :: batch)) = true.
Proof. intros Hs. rewrite torn_refuses, bool_decide_false; [done|]. intros [= E _]. by apply (toSlice_best x s Hs). Qed.
Lemma torn_history0 : torn_sample genesis_tree0 torn0.
Proof.
  apply (created _ _ _ {| torn := ∅ |} {| torn := ∅ |} no_aux (fst (open sample_genesis (closed {| torn := ∅ |} {| torn := ∅ |} no_aux)))); [done|done| |apply surjective_pairing].
  intros v. apply torn_kinds. kind.
Qed.
Definition torn1 : BlockChain (L := Torn) := snd (insertBlockAndExtras sample_params sample_genesis first no_receipts 15 torn0).
Lemma torn_history1 : torn_sample tree1 torn1 /\ m_lastBlockHash torn1 = m_hash first_header.
Proof.
  pose proof (history_ok _ _ _ sample_genesis_ok _ _ torn_history0) as Hok. destruct (c_head _ _ _ _ _ Hok) as (n & Hn & _).
  assert (m_lastBlockHash torn0 = m_hash genesis_header /\ n = node0) as [El ->] by (unfold genesis_tree0, genesis_tree in Hn; by apply lookup_singleton_Some in Hn as [<- <-]).
  destruct (insert_runs _ _ within_head genesis_tree0 first no_receipts 15 node0 torn0 Hok first_insertable Hn) as [(r & b & E & _ & Eh & _)|(b & _ & F)].
  - unfold torn1. rewrite E. split; [by apply (inserting _ _ _ _ torn0 first no_receipts 15 r); [apply torn_history0|apply first_insertable|]|]. cbn [snd]. rewrite Eh. reflexivity.
  - destruct F as [F|[(v & batch & F)|(_ & [d F] & _)]]; [rewrite torn_kinds in F; [done|kind]|rewrite torn_kinds in F; [done|kind]|].
    rewrite torn_refuses, bool_decide_false in F; [done|]. intros [= Eb].
Qed.
Lemma heavy_after_first : insertable tree1 heavy no_receipts 105.
Proof.
  apply (sample_insertable tree1 heavy (addc (m_hash first_header) node0)); [vm_compute; reflexivity..|]. exact heavy_node.
Qed.

Lemma torn_switch_witness : exists b', insertBlockAndExtras sample_params sample_genesis heavy no_receipts 105 torn1 = (Err Exit, b') /\
  runs (open sample_genesis) (closed (m_blocksDB b') (m_extrasDB b') no_aux) (fun _ b2 =>
    m_lastBlockHash b2 = m_hash first_header /\ runs (numberHash sample_genesis 1) b2 (fun x _ => x = m_hash heavy_header)).
Proof.
  destruct torn_history1 as [Hh Hl].
  destruct (torn_switch sample_params sample_genesis within_head sample_genesis_ok tree1 torn1 heavy no_receipts 105 node1 no_aux Hh heavy_after_first) as (b' & E & Ho).
  - rewrite Hl. vm_compute. reflexivity.
  - vm_compute. reflexivity.
  - apply torn_refuses.
  - exists b'. split; [exact E|]. eapply runs_mono; [exact Ho|]. intros _ b2 (H1 & _ & H3). split; [by rewrite H1|]. apply (H3 1). vm_compute. split; discriminate.
Defined.
End ChainHistory.
