(* ===== verification/Block.v ===== *)
(** * Block: a block being made or enacted (libvapory/Block, BlockChain::import)

    A block has a state, the transactions executed in it and their receipts, the header
    of the block before it and its own.  It can be synchronised to a block of the chain,
    execute transactions, enact a given block, and be committed to and sealed.

    The state is the block, the chain and the cache of code sizes.  What BLOCKHASH loads
    into the caches of the chain is left out, as are traces and performance figures.
    [State] values share the database below their overlays; only [cleanup] writes to
    it. *)

From stdpp Require Import base list numbers option gmap.
From Stdlib Require Import ZArith Lia.
From S2P Require Import Prelude Bytes Rlp RlpStream RlpFields Keccak MemoryDB OverlayDB TrieCommon TrieDB TrieHash Account State Crypto Transaction BlockHeader.
From S2P Require Import Seal Receipt Precompiled Executive BlockChain.
Import CommonData RLP RLPStream RlpFields Keccak.

#[local] Opaque sha3.

Module Block.
Import Bloom LogEntry Receipt BlockDetails ChainOperationParams.
Import Transaction (TransactionBase).
Import BlockHeader (BlockHeader, hdr_exn, make_header, HeaderData, BlockData, WithSeal, WithoutSeal, CheckNothingNew).
Import Executive (exec_exn, World, EnvInfo, ExecutionResult, Permanence, Committed, w_s, w_sizes).
Import CodeSizeCache (CodeSizeCache).
Import BlockChain (bc_exn, ChainParams, Genesis, VerifiedBlockRef, vb_block, vb_info, vb_transactions, ImportRoute, operation).

(** [childDaos]: the addresses and the extra accounts, in the order of the list. *)
Definition childDaos : list bytes := map (FixedHash.of_arith 20)
  [0xd4fe7bc31cedb7bfb8a345f31e668033056b2728; 0xb3fb0e5aba0e20e5c49d252dfd30e102b171a425; 0x2c19c7f9ae8b751e37aeb2d93a699722395ae18f;
   0xecd135fa4f61a655311e86238c92adcd779555d2; 0x1975bd06d486162d5dc297798dfc41edd5d160a7; 0xa3acf3a1e16b1d7c315e23510fdd7847b48234f6;
   0x319f70bab6845585f412ec7724b744fec6095c85; 0x06706dd3f2c9abf0a21ddcc6941d9b86f0596936; 0x5c8536898fbb74fc7445814902fd08422eac56d0;
   0x6966ab0d485353095148a2155858910e0965b6f9; 0x779543a0491a837ca36ce8c635d6154e3c4911a6; 0x2a5ed960395e2a49b1c758cef4aa15213cfd874c;
   0x5c6e67ccd5849c0d29219c4f95f1a7a93b3f5dc5; 0x9c50426be05db97f5d64fc54bf89eff947f0a321; 0x200450f06520bdd6c527622a273333384d870efb;
   0xbe8539bfe837b67d1282b2b1d61c3f723966f049; 0x6b0c4d41ba9ab8d8cfb5d379c69a612f2ced8ecb; 0xf1385fb24aad0cd7432824085e42aff90886fef5;
   0xd1ac8b1ef1b69ff51d1d401a476e7e612414f091; 0x8163e7fb499e90f8544ea62bbf80d21cd26d9efd; 0x51e0ddd9998364a2eb38588679f0d2c42653e4a6;
   0x627a0a960c079c21c34f7612d5d230e01b4ad4c7; 0xf0b1aa0eb660754448a7937c022e30aa692fe0c5; 0x24c4d950dfd4dd1902bbed3508144a54542bba94;
   0x9f27daea7aca0aa0446220b98d028715e3bc803d; 0xa5dc5acd6a7968a4554d89d65e59b7fd3bff0f90; 0xd9aef3a1e38a39c16b31d1ace71bca8ef58d315b;
   0x63ed5a272de2f6d968408b4acb9024f4cc208ebf; 0x6f6704e5a10332af6672e50b3d9754dc460dfa4d; 0x77ca7b50b6cd7e2f3fa008e24ab793fd56cb15f6;
   0x492ea3bb0f3315521c31f273e565b868fc090f17; 0x0ff30d6de14a8224aa97b78aea5388d1c51c1f00; 0x9ea779f907f0b315b364b0cfc39a0fde5b02a416;
   0xceaeb481747ca6c540a000c1f3641f8cef161fa7; 0xcc34673c6c40e791051898567a1222daf90be287; 0x579a80d909f346fbfb1189493f521d7f48d52238;
   0xe308bd1ac5fda103967359b2712dd89deffb7973; 0x4cb31628079fb14e4bc3cd5e30c2f7489b00960c; 0xac1ecab32727358dba8962a0f3b261731aad9723;
   0x4fd6ace747f06ece9c49699c7cabc62d02211f75; 0x440c59b325d2997a134c2c7c60a8c61611212bad; 0x4486a3d68fac6967006d7a517b889fd3f98c102b;
   0x9c15b54878ba618f494b38f0ae7443db6af648ba; 0x27b137a85656544b1ccb5a0f2e561a5703c6a68f; 0x21c7fdb9ed8d291d79ffd82eb2c4356ec0d81241;
   0x23b75c2f6791eef49c69684db4c6c1f93bf49a50; 0x1ca6abd14d30affe533b24d7a21bff4c2d5e1f3b; 0xb9637156d330c0d605a791f1c31ba5890582fe1c;
   0x6131c42fa982e56929107413a9d526fd99405560; 0x1591fc0f688c81fbeb17f5426a162a7024d430c2; 0x542a9515200d14b68e934e9830d91645a980dd7a;
   0xc4bbd073882dd2add2424cf47d35213405b01324; 0x782495b7b3355efb2833d56ecb34dc22ad7dfcc4; 0x58b95c9a9d5d26825e70a82b6adb139d3fd829eb;
   0x3ba4d81db016dc2890c81f3acec2454bff5aada5; 0xb52042c8ca3f8aa246fa79c3feaa3d959347c0ab; 0xe4ae1efdfc53b73893af49113d8694a057b9c0d1;
   0x3c02a7bc0391e86d91b7d144e61c2c01a25a79c5; 0x0737a6b837f97f46ebade41b9bc3e1c509c85c53; 0x97f43a37f595ab5dd318fb46e7a155eae057317a;
   0x52c5317c848ba20c7504cb2c8052abd1fde29d03; 0x4863226780fe7c0356454236d3b1c8792785748d; 0x5d2b2e6fcbe3b11d26b525e085ff818dae332479;
   0x5f9f3392e9f62f63b8eac0beb55541fc8627f42c; 0x057b56736d32b86616a10f619859c6cd6f59092a; 0x9aa008f65de0b923a2a4f02012ad034a5e2e2192;
   0x304a554a310c7e546dfe434669c62820b7d83490; 0x914d1b8b43e92723e64fd0a06f5bdb8dd9b10c79; 0x4deb0033bb26bc534b197e61d19e0733e5679784;
   0x07f5c1e1bc2c93e0402f23341973a0e043f7bf8a; 0x35a051a0010aba705c9008d7a7eff6fb88f6ea7b; 0x4fa802324e929786dbda3b8820dc7834e9134a2a;
   0x9da397b9e80755301a3b32173283a91c0ef6c87e; 0x8d9edb3054ce5c5774a420ac37ebae0ac02343c6; 0x0101f3be8ebb4bbd39a2e3b9a3639d4259832fd9;
   0x5dc28b15dffed94048d73806ce4b7a4612a1d48f; 0xbcf899e6c7d9d5a215ab1e3444c86806fa854c76; 0x12e626b0eebfe86a56d633b9864e389b45dcb260;
   0xa2f1ccba9395d7fcb155bba8bc92db9bafaeade7; 0xec8e57756626fdc07c63ad2eafbd28d08e7b0ca5; 0xd164b088bd9108b60d0ca3751da4bceb207b0782;
   0x6231b6d0d5e77fe001c2a460bd9584fee60d409b; 0x1cba23d343a983e9b5cfd19496b9a9701ada385f; 0xa82f360a8d3455c5c41366975bde739c37bfeb8a;
   0x9fcd2deaff372a39cc679d5c5e4de7bafb0b1339; 0x005f5cee7a43331d5a3d3eec71305925a62f34b6; 0x0e0da70933f4c7849fc0d203f5d1d43b9ae4532d;
   0xd131637d5275fd1a68a3200f4ad25c71a2a9522e; 0xbc07118b9ac290e4622f5e77a0853539789effbe; 0x47e7aa56d6bdf3f36be34619660de61275420af8;
   0xacd87e28b0c9d1254e868b81cba4cc20d9a32225; 0xadf80daec7ba8dcf15392f1ac611fff65d94f880; 0x5524c55fb03cf21f549444ccbecb664d0acad706;
   0x40b803a9abce16f50f36a77ba41180eb90023925; 0xfe24cdd8648121a43a7c86d289be4dd2951ed49f; 0x17802f43a0137c506ba92291391a8a8f207f487d;
   0x253488078a4edf4d6f42f113d1e62836a942cf1a; 0x86af3e9626fce1957c82e88cbf04ddf3a2ed7915; 0xb136707642a4ea12fb4bae820f03d2562ebff487;
   0xdbe9b615a3ae8709af8b93336ce9b477e4ac0940; 0xf14c14075d6c4ed84b86798af0956deef67365b5; 0xca544e5c4687d109611d0f8f928b53a25af72448;
   0xaeeb8ff27288bdabc0fa5ebb731b6f409507516c; 0xcbb9d3703e651b0d496cdefb8b92c25aeb2171f7; 0x6d87578288b6cb5549d5076a207456a1f6a63dc0;
   0xb2c6f0dfbb716ac562e2d85d6cb2f8d5ee87603e; 0xaccc230e8a6e5be9160b8cdf2864dd2a001c28b6; 0x2b3455ec7fedf16e646268bf88846bd7a2319bb2;
   0x4613f3bca5c44ea06337a9e439fbc6d42e501d0a; 0xd343b217de44030afaa275f54d31a9317c7f441e; 0x84ef4b2357079cd7a7c69fd7a37cd0609a679106;
   0xda2fef9e4a3230988ff17df2165440f37e8b1708; 0xf4c64518ea10f995918a454158c6b61407ea345c; 0x7602b46df5390e432ef1c307d4f2c9ff6d65cc97;
   0xbb9bc244d798123fde783fcc1c72d3bb8c189413; 0x807640a13483f8ac783c557fcdf27be11ea4ac7a].
Definition c_blockhashContractCode : bytes :=
  [96; 0; 115; 255; 255; 255; 255; 255; 255; 255; 255; 255; 255; 255; 255; 255; 255; 255; 255; 255; 255; 255; 254; 51; 20; 21; 97; 0; 89;
   87; 96; 1; 67; 3; 91; 96; 1; 21; 97; 0; 83; 87; 96; 0; 53; 97; 1; 0; 130; 6; 131; 1; 85; 97; 1; 0; 129; 6; 21; 97; 0; 64; 87; 0; 91; 97;
   1; 0; 129; 4; 144; 80; 97; 1; 0; 130; 1; 145; 80; 97; 0; 34; 86; 91; 80; 97; 0; 224; 86; 91; 67; 96; 0; 53; 18; 21; 97; 0; 212; 87; 96;
   0; 53; 96; 1; 129; 67; 3; 3; 91; 97; 1; 0; 129; 18; 21; 21; 97; 0; 133; 87; 96; 0; 97; 1; 0; 131; 6; 20; 97; 0; 136; 86; 91; 96; 0; 91;
   21; 97; 0; 167; 87; 97; 1; 0; 131; 1; 146; 80; 97; 1; 0; 130; 4; 145; 80; 97; 1; 0; 129; 4; 144; 80; 97; 0; 109; 86; 91; 97; 1; 0; 129;
   18; 21; 21; 97; 0; 189; 87; 96; 0; 96; 160; 82; 96; 32; 96; 160; 243; 91; 97; 1; 0; 130; 6; 131; 1; 84; 96; 192; 82; 96; 32; 96; 192;
   243; 80; 80; 97; 0; 223; 86; 91; 96; 0; 96; 224; 82; 96; 32; 96; 224; 243; 91; 91; 80].

Definition SystemAddress : bytes := FixedHash.of_arith 20 0xfffffffffffffffffffffffffffffffffffffffe.
Definition dao_recipient : bytes := FixedHash.of_arith 20 0xbf4ed7b27f1d666546e30d74d50d173d20bca754.

Inductive block_exn :=
| ChainExn (e : bc_exn) | ExecExn (e : exec_exn) | HdrExn (e : hdr_exn) | SealExn (e : SealEngine.seal_exn) | RlpExn (e : exn)
| StreamExn (e : stream_exn) | TrieExn (e : TrieDB.trie_exn) | ReceiptExn (e : receipt_exn)
| ChainOperationWithUnknownBlockChain | InvalidOperationOnSealedBlock | BlockNotFound | InvalidStateRoot | InvalidParentHash
| InvalidReceiptsStateRoot | InvalidLogBloom | TooManyUncles | UncleInChain | UnknownParent | UncleTooOld | UncleIsBrother
| UncleParentNotInChain | InvalidGasUsed | TransientError
| OutOfRange | AssertFailed | Undefined | Exit.

Section Blocks.
Context {L : Type} `{LevelDB L} {C : Crypto.Secp256k1}.
Abbreviation DB := (OverlayDB.OverlayDB L).
Variable params : ChainParams.
Variable G : Genesis.
Variable precompiled : gmap bytes Precompiled.PrecompiledContract.
Variable allocated : bool.
Variable utcTime : Z.

Record Block := {
  m_state : State.State DB;
  m_transactions : list TransactionBase;
  m_receipts : list TransactionReceipt;
  m_transactionSet : gset bytes;
  m_precommit : State.State DB;
  m_previousBlock : BlockHeader;
  m_currentBlock : BlockHeader;
  m_currentBytes : bytes;
  m_committedToSeal : bool;
  m_currentTxs : bytes;
  m_currentUncles : bytes;
  m_author : bytes;
  m_sealEngine : bool
}.
Definition set_state (v : State.State DB) (b : Block) : Block :=
  {| m_state := v; m_transactions := m_transactions b; m_receipts := m_receipts b; m_transactionSet := m_transactionSet b; m_precommit :=
     m_precommit b; m_previousBlock := m_previousBlock b; m_currentBlock := m_currentBlock b; m_currentBytes := m_currentBytes b;
     m_committedToSeal := m_committedToSeal b; m_currentTxs := m_currentTxs b; m_currentUncles := m_currentUncles b; m_author := m_author b;
     m_sealEngine := m_sealEngine b |}.
Definition set_transactions (v : list TransactionBase) (b : Block) : Block :=
  {| m_state := m_state b; m_transactions := v; m_receipts := m_receipts b; m_transactionSet := m_transactionSet b; m_precommit :=
     m_precommit b; m_previousBlock := m_previousBlock b; m_currentBlock := m_currentBlock b; m_currentBytes := m_currentBytes b;
     m_committedToSeal := m_committedToSeal b; m_currentTxs := m_currentTxs b; m_currentUncles := m_currentUncles b; m_author := m_author b;
     m_sealEngine := m_sealEngine b |}.
Definition set_receipts (v : list TransactionReceipt) (b : Block) : Block :=
  {| m_state := m_state b; m_transactions := m_transactions b; m_receipts := v; m_transactionSet := m_transactionSet b; m_precommit :=
     m_precommit b; m_previousBlock := m_previousBlock b; m_currentBlock := m_currentBlock b; m_currentBytes := m_currentBytes b;
     m_committedToSeal := m_committedToSeal b; m_currentTxs := m_currentTxs b; m_currentUncles := m_currentUncles b; m_author := m_author b;
     m_sealEngine := m_sealEngine b |}.
Definition set_transactionSet (v : gset bytes) (b : Block) : Block :=
  {| m_state := m_state b; m_transactions := m_transactions b; m_receipts := m_receipts b; m_transactionSet := v; m_precommit := m_precommit
     b; m_previousBlock := m_previousBlock b; m_currentBlock := m_currentBlock b; m_currentBytes := m_currentBytes b; m_committedToSeal :=
     m_committedToSeal b; m_currentTxs := m_currentTxs b; m_currentUncles := m_currentUncles b; m_author := m_author b; m_sealEngine :=
     m_sealEngine b |}.
Definition set_precommit (v : State.State DB) (b : Block) : Block :=
  {| m_state := m_state b; m_transactions := m_transactions b; m_receipts := m_receipts b; m_transactionSet := m_transactionSet b;
     m_precommit := v; m_previousBlock := m_previousBlock b; m_currentBlock := m_currentBlock b; m_currentBytes := m_currentBytes b;
     m_committedToSeal := m_committedToSeal b; m_currentTxs := m_currentTxs b; m_currentUncles := m_currentUncles b; m_author := m_author b;
     m_sealEngine := m_sealEngine b |}.
Definition set_previous (v : BlockHeader) (b : Block) : Block :=
  {| m_state := m_state b; m_transactions := m_transactions b; m_receipts := m_receipts b; m_transactionSet := m_transactionSet b;
     m_precommit := m_precommit b; m_previousBlock := v; m_currentBlock := m_currentBlock b; m_currentBytes := m_currentBytes b;
     m_committedToSeal := m_committedToSeal b; m_currentTxs := m_currentTxs b; m_currentUncles := m_currentUncles b; m_author := m_author b;
     m_sealEngine := m_sealEngine b |}.
Definition set_current (v : BlockHeader) (b : Block) : Block :=
  {| m_state := m_state b; m_transactions := m_transactions b; m_receipts := m_receipts b; m_transactionSet := m_transactionSet b;
     m_precommit := m_precommit b; m_previousBlock := m_previousBlock b; m_currentBlock := v; m_currentBytes := m_currentBytes b;
     m_committedToSeal := m_committedToSeal b; m_currentTxs := m_currentTxs b; m_currentUncles := m_currentUncles b; m_author := m_author b;
     m_sealEngine := m_sealEngine b |}.
Definition set_currentBytes (v : bytes) (b : Block) : Block :=
  {| m_state := m_state b; m_transactions := m_transactions b; m_receipts := m_receipts b; m_transactionSet := m_transactionSet b;
     m_precommit := m_precommit b; m_previousBlock := m_previousBlock b; m_currentBlock := m_currentBlock b; m_currentBytes := v;
     m_committedToSeal := m_committedToSeal b; m_currentTxs := m_currentTxs b; m_currentUncles := m_currentUncles b; m_author := m_author b;
     m_sealEngine := m_sealEngine b |}.
Definition set_committed (v : bool) (b : Block) : Block :=
  {| m_state := m_state b; m_transactions := m_transactions b; m_receipts := m_receipts b; m_transactionSet := m_transactionSet b;
     m_precommit := m_precommit b; m_previousBlock := m_previousBlock b; m_currentBlock := m_currentBlock b; m_currentBytes :=
     m_currentBytes b; m_committedToSeal := v; m_currentTxs := m_currentTxs b; m_currentUncles := m_currentUncles b; m_author := m_author b;
     m_sealEngine := m_sealEngine b |}.
Definition set_currentTxs (v : bytes) (b : Block) : Block :=
  {| m_state := m_state b; m_transactions := m_transactions b; m_receipts := m_receipts b; m_transactionSet := m_transactionSet b;
     m_precommit := m_precommit b; m_previousBlock := m_previousBlock b; m_currentBlock := m_currentBlock b; m_currentBytes :=
     m_currentBytes b; m_committedToSeal := m_committedToSeal b; m_currentTxs := v; m_currentUncles := m_currentUncles b; m_author :=
     m_author b; m_sealEngine := m_sealEngine b |}.
Definition set_currentUncles (v : bytes) (b : Block) : Block :=
  {| m_state := m_state b; m_transactions := m_transactions b; m_receipts := m_receipts b; m_transactionSet := m_transactionSet b;
     m_precommit := m_precommit b; m_previousBlock := m_previousBlock b; m_currentBlock := m_currentBlock b; m_currentBytes :=
     m_currentBytes b; m_committedToSeal := m_committedToSeal b; m_currentTxs := m_currentTxs b; m_currentUncles := v; m_author := m_author
     b; m_sealEngine := m_sealEngine b |}.
Definition set_author (v : bytes) (b : Block) : Block :=
  {| m_state := m_state b; m_transactions := m_transactions b; m_receipts := m_receipts b; m_transactionSet := m_transactionSet b;
     m_precommit := m_precommit b; m_previousBlock := m_previousBlock b; m_currentBlock := m_currentBlock b; m_currentBytes :=
     m_currentBytes b; m_committedToSeal := m_committedToSeal b; m_currentTxs := m_currentTxs b; m_currentUncles := m_currentUncles b;
     m_author := v; m_sealEngine := m_sealEngine b |}.
Definition set_sealEngine (v : bool) (b : Block) : Block :=
  {| m_state := m_state b; m_transactions := m_transactions b; m_receipts := m_receipts b; m_transactionSet := m_transactionSet b;
     m_precommit := m_precommit b; m_previousBlock := m_previousBlock b; m_currentBlock := m_currentBlock b; m_currentBytes :=
     m_currentBytes b; m_committedToSeal := m_committedToSeal b; m_currentTxs := m_currentTxs b; m_currentUncles := m_currentUncles b;
     m_author := m_author b; m_sealEngine := v |}.


(** What the operations work on. *)
Record Site := { s_block : Block; s_bc : BlockChain.BlockChain (L := L); s_sizes : CodeSizeCache }.
Definition with_block (b : Block) (s : Site) : Site := {| s_block := b; s_bc := s_bc s; s_sizes := s_sizes s |}.
Abbreviation KM A := (M Site block_exn A).
Definition get {A} (f : Block -> A) : KM A := mget (fun s => f (s_block s)).
Definition put (f : Block -> Block) : KM unit := mput (fun s => with_block (f (s_block s)) s).
Definition lift {E A} (wrap_ : E -> block_exn) (r : result E A) : KM A := mlift (match r with Ok a => Ok a | Err e => Err (wrap_ e) end).

(** Operations of the chain, of the state, and of both state and code sizes. *)
Definition ch {A} (m : M (BlockChain.BlockChain (L := L)) bc_exn A) : KM A := fun s =>
  let '(r, bc) := m (s_bc s) in
  (match r with Ok a => Ok a | Err e => Err (ChainExn e) end, {| s_block := s_block s; s_bc := bc; s_sizes := s_sizes s |}).
Definition st {A} (p : State.ST A) : KM A := fun s =>
  let '(r, x) := p (m_state (s_block s)) in
  (match r with Ok a => Ok a | Err e => Err (ExecExn (Executive.StateExn e)) end, with_block (set_state x (s_block s)) s).
Definition on_world {A} (p : World -> result exec_exn A * World) : KM A := fun s =>
  let '(r, w) := p {| w_s := m_state (s_block s); w_sizes := s_sizes s |} in
  (match r with Ok a => Ok a | Err e => Err (ExecExn e) end,
   {| s_block := set_state (w_s w) (s_block s); s_bc := s_bc s; s_sizes := w_sizes w |}).

(** [hash()] of the header before this one and of the header of this one, with their memos. *)
Definition previous_hash : KM bytes := fun s =>
  let '(r, x) := BlockHeader.hash WithSeal (m_previousBlock (s_block s)) in
  (match r with Ok a => Ok a | Err e => Err (HdrExn e) end, with_block (set_previous x (s_block s)) s).
Definition current_hash (i : BlockHeader.IncludeSeal) : KM bytes := fun s =>
  let '(r, x) := BlockHeader.hash i (m_currentBlock (s_block s)) in
  (match r with Ok a => Ok a | Err e => Err (HdrExn e) end, with_block (set_current x (s_block s)) s).

(** [State::operator=]: the change log of the target stays. *)
Definition copy_state (_s : State.State DB) (log : list State.Change) (random : list nat) : State.State DB :=
  {| State.m_state := State.m_state _s; State.m_cache := State.m_cache _s;
     State.m_unchangedCacheEntries := State.m_unchangedCacheEntries _s;
     State.m_nonExistingAccountsCache := State.m_nonExistingAccountsCache _s; State.m_touched := State.m_touched _s;
     State.m_accountStartNonce := State.m_accountStartNonce _s; State.m_changeLog := log; State.m_random := random |}.
Definition assign_state (_s target : State.State DB) : result State.state_exn unit * State.State DB :=
  match TrieDB.root (State.m_state _s) with
  | Err e => (Err (State.Trie e), State.set_state {| TrieDB.m_root := TrieDB.m_root (State.m_state target);
                                                    TrieDB.m_db := TrieDB.m_db (State.m_state _s) |} target)
  | Ok r => (Ok tt, copy_state _s (State.m_changeLog target) (State.m_random target))
  end.
Definition to_precommit : KM unit := fun s =>
  let '(r, x) := assign_state (m_state (s_block s)) (m_precommit (s_block s)) in
  (match r with Ok a => Ok a | Err e => Err (ExecExn (Executive.StateExn e)) end, with_block (set_precommit x (s_block s)) s).
Definition from_precommit : KM unit := fun s =>
  let '(r, x) := assign_state (m_precommit (s_block s)) (m_state (s_block s)) in
  (match r with Ok a => Ok a | Err e => Err (ExecExn (Executive.StateExn e)) end, with_block (set_state x (s_block s)) s).

Definition to_state (_s : State.State DB) : KM unit := fun s =>
  let '(r, x) := assign_state _s (m_state (s_block s)) in
  (match r with Ok a => Ok a | Err e => Err (ExecExn (Executive.StateExn e)) end, with_block (set_state x (s_block s)) s).
Definition new_state (nonce : Z) (_db : DB) (_bs : State.BaseState) (random : list nat) : result block_exn (State.State DB) :=
  let '(r, s) := State.make_state nonce _db _bs random in
  match r with Ok _ => Ok s | Err e => Err (ExecExn (Executive.StateExn e)) end.

Definition rootHash : KM bytes := st Executive.rootHash.
(** [m_state.db()]. *)
Definition db_of (s : State.State DB) : DB := TrieDB.m_db (State.m_state s).
Definition with_db (d : DB) (s : State.State DB) : State.State DB :=
  State.set_state {| TrieDB.m_root := TrieDB.m_root (State.m_state s); TrieDB.m_db := d |} s.

(** ** The current block *)

Definition isSealed (b : Block) : bool := match m_currentBytes b with [] => false | _ => true end.
Definition gasUsed (b : Block) : Z := match last (m_receipts b) with Some r => m_gasUsed r | None => 0 end.
Definition logBloom (b : Block) : LogBloom := fold_left FixedHash.or_eq (map m_bloom (m_receipts b)) empty_bloom.
Definition require_engine : KM unit :=
  do! e := get m_sealEngine in if e then mret tt else mthrow ChainOperationWithUnknownBlockChain.

(** [noteChain]; constructors call it too. *)
Definition note_chain (b : Block) : result block_exn unit * Block :=
  if m_sealEngine b then (Ok tt, b) else
  let '(r, x) := State.noteAccountStartNonce (accountStartNonce (operation params)) (m_state b) in
  match r with
  | Err e => (Err (ExecExn (Executive.StateExn e)), set_state x b)
  | Ok _ =>
      let '(r, y) := State.noteAccountStartNonce (accountStartNonce (operation params)) (m_precommit b) in
      match r with
      | Err e => (Err (ExecExn (Executive.StateExn e)), set_precommit y (set_state x b))
      | Ok _ => (Ok tt, set_sealEngine true (set_precommit y (set_state x b)))
      end
  end.
Definition noteChain : KM unit := fun s => let '(r, b) := note_chain (s_block s) in (r, with_block b s).

Fixpoint dao_loop (l : list bytes) : KM unit :=
  match l with
  | [] => mret tt
  | dao :: l' =>
      do! v := st (State.balance dao) in
      exec! st (State.transferBalance dao dao_recipient v) in
      dao_loop l'
  end.
Definition performIrregularModifications : KM unit :=
  let daoHardfork := daoHardforkBlock (operation params) in
  do! n := get (fun b => BlockHeader.m_number (m_currentBlock b)) in
  if negb (daoHardfork =? 0) && (n =? daoHardfork) then
    exec! dao_loop childDaos in
    st (State.commit State.KeepEmptyAccounts)
  else mret tt.

(** The call of the blockhash contract: an [Executive] over this block. *)
Definition call_blockhash (parentHash : bytes) (info : BlockHeader) : KM unit := on_world (fun w =>
  let EI := {| Executive.m_headerInfo := info; Executive.m_lastHashes := fun _ => []; Executive.env_gasUsed := 0 |} in
  let '(r, e) :=
    (do! done := Executive.call_message (operation params) precompiled EI Executive.c_blockhashContractAddress SystemAddress 0 0 parentHash 1000000 in
     exec! (if negb done then Executive.go (Executive.vm_at (operation params) precompiled EI Executive.levels) else mret true) in
     Executive.finalize EI) (Executive.new_executive w 0) in
  (match r with Ok _ => Ok tt | Err x => Err x end, Executive.m_w e)).
Definition updateBlockhashContract : KM unit :=
  do! info := get m_currentBlock in
  let blockNumber := BlockHeader.m_number info in
  let fork := constantinopleForkBlock (operation params) in
  exec! (if blockNumber =? fork then
           exec! st (State.createContract Executive.c_blockhashContractAddress) in
           exec! st (State.setCode Executive.c_blockhashContractAddress c_blockhashContractCode) in
           st (State.commit State.KeepEmptyAccounts)
         else mret tt) in
  if fork <=? blockNumber then
    do! parentHash := previous_hash in
    exec! call_blockhash parentHash info in
    st (State.commit State.RemoveEmptyAccounts)
  else mret tt.

Definition populate_current : KM unit :=
  exec! require_engine in
  do! c := get m_currentBlock in
  do! p := get m_previousBlock in
  do! c := lift SealExn (SealEngine.engine_populateFromParent (operation params) c p) in
  put (set_current c).

Definition resetCurrent (_timestamp : Z) : KM unit :=
  exec! put (fun b => set_transactionSet ∅ (set_receipts [] (set_transactions [] b))) in
  exec! put (fun b => set_current (BlockHeader.setTimestamp (Z.max (wrap 256 (BlockHeader.m_timestamp (m_previousBlock b) + 1)) _timestamp)
                                     (BlockHeader.setAuthor (m_author b) BlockHeader.empty_header)) b) in
  exec! put (set_currentBytes []) in
  exec! populate_current in
  do! r := get (fun b => BlockHeader.m_stateRoot (m_previousBlock b)) in
  exec! st (State.setRoot r) in
  exec! to_precommit in
  exec! put (set_committed false) in
  exec! performIrregularModifications in
  updateBlockhashContract.

(** [sync(_bc, _block, _bi)]. *)
Definition sync (_block : bytes) (_bi : BlockHeader) : KM bool :=
  exec! noteChain in
  do! bi := (if BlockHeader.to_bool _bi then mret _bi else ch (BlockChain.info params G _block)) in
  do! b := get (fun b => b) in
  if BlockHeader.hdr_eqb bi (m_currentBlock b) then
    exec! put (fun b => set_previous (m_currentBlock b) b) in
    exec! resetCurrent utcTime in
    mret true
  else if BlockHeader.hdr_eqb bi (m_previousBlock b) then mret false
  else if bool_decide (OverlayDB.lookup (db_of (m_state b)) (BlockHeader.m_stateRoot bi) = []) then mthrow InvalidStateRoot
  else
    exec! put (set_previous bi) in
    exec! resetCurrent utcTime in
    mret true.

(** [sync(_bc)]. *)
Definition sync_head : KM bool :=
  do! h := ch BlockChain.currentHash in
  sync h BlockHeader.empty_header.

(** ** Executing *)

(** [m_state = m_precommit], when it was committed to sealing. *)
Definition uncommitToSeal : KM unit :=
  do! c := get m_committedToSeal in
  if c then exec! from_precommit in put (set_committed false) else mret tt.

(** [_bc.lastBlockHashes()]. *)
Definition last_hashes (s : Site) : bytes -> list bytes := fun h =>
  match fst (BlockChain.precedingHashes params G h (s_bc s)) with Ok l => l | Err _ => [] end.

(** [execute]; without an engine, a null pointer is followed. *)
Definition execute (_t : TransactionBase) (_p : Permanence) : KM ExecutionResult :=
  do! sealed := get isSealed in
  if sealed then mthrow InvalidOperationOnSealedBlock else
  exec! uncommitToSeal in
  do! s := mget (fun s => s) in
  if negb (m_sealEngine (s_block s)) then mthrow Undefined else
  let EI := {| Executive.m_headerInfo := m_currentBlock (s_block s); Executive.m_lastHashes := last_hashes s;
               Executive.env_gasUsed := gasUsed (s_block s) |} in
  do! (result_, receipt) := on_world (Executive.State_execute (operation params) precompiled EI _t _p) in
  exec! (match _p with
         | Committed =>
             exec! put (fun b => set_receipts (m_receipts b ++ [receipt]) (set_transactions (m_transactions b ++ [_t]) b)) in
             do! h := lift (fun e => ExecExn (Executive.TxExn e)) (fst (Transaction.tx_sha3 true _t)) in
             put (fun b => set_transactionSet ({[h]} ∪ m_transactionSet b) b)
         | _ => mret tt
         end) in
  mret result_.

(** The uncles' rewards; what the author gets in the end. *)
Fixpoint reward_loop (_blockReward number : Z) (l : list BlockHeader) (r : Z) : KM Z :=
  match l with
  | [] => mret r
  | i :: l' =>
      exec! st (State.addBalance (BlockHeader.m_author i)
                  (wrap 256 (_blockReward * wrap 256 (wrap 256 (8 + BlockHeader.m_number i) - number)) / 8)) in
      reward_loop _blockReward number l' (wrap 256 (r + _blockReward / 32))
  end.
Definition applyRewards (_uncleBlockHeaders : list BlockHeader) (_blockReward : Z) : KM unit :=
  do! current := get m_currentBlock in
  do! r := reward_loop _blockReward (BlockHeader.m_number current) _uncleBlockHeaders _blockReward in
  st (State.addBalance (BlockHeader.m_author current) r).

(** ** Enacting *)

(** The transactions, one after the other; the serialised receipts. *)
Fixpoint enact_transactions (l : list TransactionBase) : KM (list bytes) :=
  match l with
  | [] => mret []
  | tr :: l' =>
      exec! execute tr Committed in
      do! r := get (fun b => last (m_receipts b)) in
      do! out_ := lift StreamExn (match r with Some r => streamed (stream_receipt r) | None => Ok [] end) in
      do! rs := enact_transactions l' in
      mret (out_ :: rs)
  end.

(** [depth - 1] steps up from the parent of the parent. *)
Fixpoint uncle_parent (n : nat) (h : bytes) : KM bytes :=
  match n with
  | O => mret h
  | S n' => do! d := ch (BlockChain.details h) in uncle_parent n' (parent d)
  end.
Definition check_uncle (i : bytes) (excluded : gset bytes) : KM (BlockHeader * bytes) :=
  let h := sha3 i in
  if bool_decide (h ∈ excluded) then mthrow UncleInChain else
  do! uncle := lift HdrExn (make_header i HeaderData h) in
  do! known := ch (BlockChain.isKnown G (BlockHeader.m_parentHash uncle) true) in
  if negb known then mthrow UnknownParent else
  do! pb := ch (BlockChain.block params G (BlockHeader.m_parentHash uncle)) in
  do! uncleParent := lift HdrExn (make_header pb BlockData (FixedHash.zero 32)) in
  do! current := get m_currentBlock in
  let depth := BlockHeader.m_number current - BlockHeader.m_number uncle in
  if depth >? 6 then mthrow UncleTooOld else
  if depth <? 1 then mthrow UncleIsBrother else
  do! d := ch (BlockChain.details (BlockHeader.m_parentHash current)) in
  do! expectedUncleParent := uncle_parent (Z.to_nat (depth - 1)) (parent d) in
  do! ph := lift HdrExn (fst (BlockHeader.hash WithSeal uncleParent)) in
  if negb (bool_decide (expectedUncleParent = ph)) then mthrow UncleParentNotInChain else
  exec! lift HdrExn (BlockHeader.verify CheckNothingNew uncleParent [] uncle) in
  mret (uncle, h).
Fixpoint check_uncles (l : list bytes) (excluded : gset bytes) : KM (list BlockHeader) :=
  match l with
  | [] => mret []
  | i :: l' =>
      do! (uncle, h) := check_uncle i excluded in
      do! rest := check_uncles l' ({[h]} ∪ excluded) in
      mret (uncle :: rest)
  end.

(** The uncles are checked against the kin of the block and against each other.  They are
    given as a list, which [enact] reads at once: [itemCount] has walked over all of it. *)
Definition enact_uncles (uncles : list bytes) : KM (list BlockHeader) :=
  do! p := get (fun b => BlockHeader.m_parentHash (m_currentBlock b)) in
  do! excluded := ch (BlockChain.allKinFrom params G p 6) in
  do! h := current_hash WithSeal in
  check_uncles uncles ({[h]} ∪ excluded).

Definition commit_all : KM unit :=
  do! n := get (fun b => BlockHeader.m_number (m_currentBlock b)) in
  st (State.commit (if EIP158ForkBlock (operation params) <=? n then State.RemoveEmptyAccounts else State.KeepEmptyAccounts)).
Definition rollback_db : KM unit := put (fun b => set_state (with_db (OverlayDB.rollback (db_of (m_state b))) (m_state b)) b).

Definition enact (_block : VerifiedBlockRef) : KM Z :=
  exec! noteChain in
  do! ph := previous_hash in
  do! cp := get (fun b => BlockHeader.m_parentHash (m_currentBlock b)) in
  if negb (bool_decide (ph = BlockHeader.m_parentHash (vb_info _block))) then mthrow AssertFailed else
  if negb (bool_decide (cp = BlockHeader.m_parentHash (vb_info _block))) then mthrow AssertFailed else
  if negb (bool_decide (cp = ph)) then mthrow InvalidParentHash else
  exec! put (set_current (vb_info _block)) in
  do! rlp := lift RlpExn (make (vb_block _block) VeryStrict) in
  do! receipts := enact_transactions (vb_transactions _block) in
  do! receiptsRoot := lift TrieExn (TrieHash.orderedTrieRoot receipts) in
  do! current := get m_currentBlock in
  if negb (bool_decide (receiptsRoot = BlockHeader.m_receiptsRoot current)) then mthrow InvalidReceiptsStateRoot else
  do! bloom := get logBloom in
  if negb (bool_decide (BlockHeader.m_logBloom current = bloom)) then mthrow InvalidLogBloom else
  let tdIncrease := BlockHeader.m_difficulty current in
  do! r2 := lift RlpExn (nth rlp 2) in
  do! n := lift RlpExn (itemCount r2) in
  if n >? 2 then mthrow TooManyUncles else
  do! uncles := lift RlpExn (for_each (List.length r2) r2 (fun i => Ok i)) in
  do! rewarded := enact_uncles uncles in
  exec! applyRewards rewarded (SealEngine.engine_blockReward (operation params) (BlockHeader.m_number current)) in
  exec! commit_all in
  do! b := get (fun b => b) in
  do! r := (if bool_decide (BlockHeader.m_stateRoot (m_currentBlock b) = BlockHeader.m_stateRoot (m_previousBlock b)) then mret false
            else do! root := rootHash in mret (negb (bool_decide (BlockHeader.m_stateRoot (m_currentBlock b) = root)))) in
  if r then exec! rootHash in exec! rollback_db in mthrow InvalidStateRoot else
  if negb (BlockHeader.m_gasUsed (m_currentBlock b) =? gasUsed b) then exec! rollback_db in mthrow InvalidGasUsed else
  mret tdIncrease.

Definition enactOn (_block : VerifiedBlockRef) : KM Z :=
  exec! noteChain in
  let p := BlockHeader.m_parentHash (vb_info _block) in
  do! biParent := ch (BlockChain.info params G p) in
  exec! lift HdrExn (BlockHeader.verify CheckNothingNew biParent [] (vb_info _block)) in
  exec! (if negb (BlockHeader.m_number biParent =? 0) then
           do! biGrandParent := ch (BlockChain.info params G (BlockHeader.m_parentHash biParent)) in mret tt
         else mret tt) in
  exec! sync p BlockHeader.empty_header in
  exec! resetCurrent utcTime in
  exec! put (set_previous biParent) in
  enact _block.

(** [populateFromChain]. *)
Definition populateFromChain (_h : bytes) (_ir : Z) : KM unit :=
  exec! noteChain in
  do! known := ch (BlockChain.isKnown G _h true) in
  if negb known then mthrow BlockNotFound else
  do! b := ch (BlockChain.block params G _h) in
  do! bi := lift HdrExn (make_header b BlockData (FixedHash.zero 32)) in
  if negb (BlockHeader.m_number bi =? 0) then
    do! pb := ch (BlockChain.block params G (BlockHeader.m_parentHash bi)) in
    do! bip := lift HdrExn (make_header pb BlockData (FixedHash.zero 32)) in
    exec! sync (BlockHeader.m_parentHash bi) bip in
    exec! put (set_author (BlockHeader.m_author bi)) in
    do! vb := ch (BlockChain.verifyBlock params G allocated b (Z.lor _ir SealEngine.TransactionBasic)) in
    exec! enact vb in
    mret tt
  else
    do! x := get m_state in
    do! fresh := mlift (new_state (State.m_accountStartNonce x) (db_of x) State.Empty (State.m_random x)) in
    exec! to_state fresh in
    exec! sync _h bi in
    mret tt.

(** [EnforceRefs]. *)
Definition enforcing (m : MemoryDB.MemoryDB) : MemoryDB.MemoryDB :=
  {| MemoryDB.m_main := MemoryDB.m_main m; MemoryDB.m_aux := MemoryDB.m_aux m; MemoryDB.m_enforceRefs := true |}.
(** The database that [m_precommit] shares with [d]. *)
Definition share (d : DB) (b : Block) : Block :=
  let x := db_of (m_precommit b) in
  set_precommit (with_db {| OverlayDB.memory := OverlayDB.memory x;
                            OverlayDB.m_db := match OverlayDB.m_db x with Some _ => OverlayDB.m_db d | None => None end |} (m_precommit b)) b.
(** [cleanup]; the first check is made with [m_enforceRefs] set. *)
Definition cleanup : KM unit :=
  exec! (fun s =>
           let t := State.m_state (m_state (s_block s)) in
           let d := OverlayDB.with_memory (enforcing (OverlayDB.memory (TrieDB.m_db t))) (TrieDB.m_db t) in
           (match TrieDB.root {| TrieDB.m_root := TrieDB.m_root t; TrieDB.m_db := d |} with
            | Ok _ => Ok tt | Err e => Err (ExecExn (Executive.StateExn (State.Trie e))) end, s)) in
  exec! (fun s =>
           match OverlayDB.commit (db_of (m_state (s_block s))) with
           | None => (Err Exit, s)
           | Some d => (Ok tt, with_block (share d (set_state (with_db d (m_state (s_block s))) (s_block s))) s)
           end) in
  exec! put (fun b => set_previous (m_currentBlock b) b) in
  exec! populate_current in
  resetCurrent utcTime.

(** ** Sealing *)

(** The uncles of one generation. *)
Fixpoint gather_uncles (us : list bytes) (excluded : gset bytes) (found : list (BlockHeader * bytes)) : KM (gset bytes * list (BlockHeader * bytes)) :=
  match us with
  | [] => mret (excluded, found)
  | u :: us' =>
      if bool_decide (u ∈ excluded) then gather_uncles us' excluded found else
      do! i := ch (BlockChain.info params G u) in
      do! d := ch (BlockChain.headerData params G u) in
      let found := found ++ [(i, d)] in
      if zlen found =? 2 then mret (excluded, found) else gather_uncles us' ({[u]} ∪ excluded) found
  end.
(** The generations, with the [n] that are left. *)
Fixpoint generations (n : nat) (p : bytes) (excluded : gset bytes) (found : list (BlockHeader * bytes)) : KM (list (BlockHeader * bytes)) :=
  match n with
  | O => mret found
  | S n' =>
      if bool_decide (p = BlockChain.m_genesisHash G) || negb (zlen found <? 2) then mret found else
      do! d := ch (BlockChain.details p) in
      match children d with [] => mthrow AssertFailed | _ =>
        do! (excluded, found) := gather_uncles (children d) excluded found in
        do! d := ch (BlockChain.details p) in
        generations n' (parent d) excluded found
      end
  end.
Definition find_uncles : KM (list (BlockHeader * bytes)) :=
  do! b := get (fun b => b) in
  if BlockHeader.m_number (m_previousBlock b) =? 0 then mret [] else
  do! excluded := ch (BlockChain.allKinFrom params G (BlockHeader.m_parentHash (m_currentBlock b)) 6) in
  generations 6 (BlockHeader.m_parentHash (m_previousBlock b)) excluded [].

(** [insert] of a [std::map] keeps what is there. *)
Definition emplace (k v : bytes) (m : TrieHash.BytesMap) : TrieHash.BytesMap :=
  match TrieHash.bm_find k m with Some _ => m | None => TrieHash.bm_insert k v m end.
(** The loop over the transactions: the serialised ones, and both maps. *)
Fixpoint compile_loop (i : Z) (txs : list TransactionBase) (rs : list TransactionReceipt) (transactionsMap receiptsMap : TrieHash.BytesMap) :
    KM (list bytes * TrieHash.BytesMap * TrieHash.BytesMap) :=
  match txs with
  | [] => mret ([], transactionsMap, receiptsMap)
  | t :: txs' =>
      do! k := lift TrieExn (TrieHash.rlp_unsigned i) in
      match rs with
      | [] => mthrow OutOfRange
      | r :: rs' =>
          do! receiptrlp := lift StreamExn (streamed (stream_receipt r)) in
          do! txrlp := lift (fun e => ExecExn (Executive.TxExn e)) (Transaction.rlp true t) in
          do! (l, tm, rm) := compile_loop (wrap 32 (i + 1)) txs' rs' (emplace k txrlp transactionsMap) (emplace k receiptrlp receiptsMap) in
          mret (txrlp :: l, tm, rm)
      end
  end.

Definition commitToSeal (_extraData : bytes) : KM unit :=
  do! sealed := get isSealed in
  if sealed then mthrow InvalidOperationOnSealedBlock else
  exec! noteChain in
  do! c := get m_committedToSeal in
  exec! (if c then uncommitToSeal else to_precommit) in
  do! uncles := find_uncles in
  do! unclesData := lift StreamExn (streamed (append_each (fun u => appendRaw (snd u) 1) uncles)) in
  do! b := get (fun b => b) in
  do! (txs, transactionsMap, receiptsMap) := compile_loop 0 (m_transactions b) (m_receipts b) [] [] in
  do! txs := lift StreamExn (streamed (exec! appendList (zlen txs) in append_each (fun t => appendRaw t 1) txs)) in
  exec! put (set_currentTxs txs) in
  do! us := lift StreamExn (streamed (exec! appendList (zlen uncles) in appendRaw unclesData (zlen uncles))) in
  exec! put (set_currentUncles us) in
  exec! applyRewards (map fst uncles) (SealEngine.engine_blockReward (operation params) (BlockHeader.m_number (m_currentBlock b))) in
  exec! commit_all in
  exec! put (fun b => set_current (BlockHeader.setGasUsed (gasUsed b) (BlockHeader.setLogBloom (logBloom b) (m_currentBlock b))) b) in
  do! t := lift TrieExn (TrieHash.hash256 transactionsMap) in
  do! r := lift TrieExn (TrieHash.hash256 receiptsMap) in
  do! root := rootHash in
  exec! put (fun b => set_current (BlockHeader.setRoots t r (sha3 (m_currentUncles b)) root (m_currentBlock b)) b) in
  do! ph := previous_hash in
  exec! put (fun b => set_current (BlockHeader.setParentHash ph (m_currentBlock b)) b) in
  exec! put (fun b => set_current (BlockHeader.setExtraData _extraData (m_currentBlock b)) b) in
  exec! put (fun b => if zlen (BlockHeader.m_extraData (m_currentBlock b)) >? 32
                      then set_current (BlockHeader.setExtraData (take 32 (BlockHeader.m_extraData (m_currentBlock b))) (m_currentBlock b)) b else b) in
  put (set_committed true).

Definition sealBlock (_header : bytes) : KM bool :=
  do! c := get m_committedToSeal in
  if negb c then mret false else
  do! h := lift HdrExn (make_header _header HeaderData (FixedHash.zero 32)) in
  do! x := lift HdrExn (fst (BlockHeader.hash WithoutSeal h)) in
  do! y := current_hash WithoutSeal in
  if negb (bool_decide (x = y)) then mret false else
  do! b := get (fun b => b) in
  do! ret := lift StreamExn (streamed (exec! appendList 3 in exec! appendRaw _header 1 in
                                       exec! appendRaw (m_currentTxs b) 1 in appendRaw (m_currentUncles b) 1)) in
  exec! put (set_currentBytes ret) in
  do! h := lift HdrExn (make_header _header HeaderData (FixedHash.zero 32)) in
  exec! put (set_current h) in
  exec! from_precommit in
  mret true.

(** ** Making blocks *)

Definition no_db : DB := {| OverlayDB.memory := MemoryDB.empty; OverlayDB.m_db := None |}.
(** A block with its members as they are initialised, but for the states and the author. *)
Definition blank (s p : State.State DB) (_author : bytes) : Block :=
  {| m_state := s; m_transactions := []; m_receipts := []; m_transactionSet := ∅; m_precommit := p;
     m_previousBlock := BlockHeader.empty_header; m_currentBlock := BlockHeader.empty_header; m_currentBytes := [];
     m_committedToSeal := false; m_currentTxs := []; m_currentUncles := []; m_author := _author; m_sealEngine := false |}.
Definition cleared (b : Block) : Block :=
  set_current (BlockHeader.clear (m_currentBlock b)) (set_previous (BlockHeader.clear (m_previousBlock b)) b).
(** [Block(_accountStartNonce)], which is [Block(Null)] for zero, and [Block(_bc)]. *)
Definition empty_block (_accountStartNonce : Z) (random : list nat) : result block_exn Block :=
  let! s := new_state _accountStartNonce no_db State.Empty random in
  let! p := new_state _accountStartNonce no_db State.Empty random in
  Ok (blank s p (FixedHash.zero 20)).
Definition chain_block (random : list nat) : result block_exn Block :=
  let! b := empty_block 0 random in
  let '(r, b) := note_chain b in
  let! _ := r in
  Ok b.
(** [Block(_bc, _db, _bs, _author)] and [Block(_bc, _db, _root, _author)]. *)
Definition make_block (_db : DB) (_bs : State.BaseState) (_author : bytes) (random : list nat) : result block_exn Block :=
  let! s := new_state BlockHeader.Invalid256 _db _bs random in
  let! p := new_state BlockHeader.Invalid256 no_db State.Empty random in
  let '(r, b) := note_chain (blank s p _author) in
  let! _ := r in
  Ok (cleared b).
Definition make_block_at (_db : DB) (_root _author : bytes) (random : list nat) : result block_exn Block :=
  let! s := new_state BlockHeader.Invalid256 _db State.PreExisting random in
  let! p := new_state BlockHeader.Invalid256 no_db State.Empty random in
  let '(r, b) := note_chain (blank s p _author) in
  let! _ := r in
  let '(r, x) := State.setRoot _root (m_state b) in
  match r with Err e => Err (ExecExn (Executive.StateExn e)) | Ok _ => Ok (cleared (set_state x b)) end.
(** [Block(Block const&)]. *)
Definition copy_block (_s : Block) (random : list nat) : result block_exn Block :=
  match TrieDB.root (State.m_state (m_state _s)) with
  | Err e => Err (ExecExn (Executive.StateExn (State.Trie e)))
  | Ok _ => Ok {| m_state := copy_state (m_state _s) [] random; m_transactions := m_transactions _s; m_receipts := m_receipts _s;
                  m_transactionSet := m_transactionSet _s; m_precommit := copy_state (m_state _s) [] random;
                  m_previousBlock := m_previousBlock _s; m_currentBlock := m_currentBlock _s; m_currentBytes := m_currentBytes _s;
                  m_committedToSeal := false; m_currentTxs := []; m_currentUncles := []; m_author := m_author _s;
                  m_sealEngine := m_sealEngine _s |}
  end.
(** [operator=]; the compiled transactions and uncles stay. *)
Definition assign_block (_s : Block) : KM unit :=
  exec! to_state (m_state _s) in
  exec! put (fun b => set_sealEngine (m_sealEngine _s) (set_author (m_author _s) (set_currentBytes (m_currentBytes _s)
               (set_current (m_currentBlock _s) (set_previous (m_previousBlock _s) (set_transactionSet (m_transactionSet _s)
                 (set_receipts (m_receipts _s) (set_transactions (m_transactions _s) b)))))))) in
  exec! to_precommit in
  put (set_committed false).
Definition setAuthor (_id : bytes) : KM unit := exec! put (set_author _id) in resetCurrent utcTime.

(** ** States before a transaction *)

Definition stateRootBeforeTx (_i : Z) (b : Block) : result block_exn bytes :=
  let _i := Z.min _i (zlen (m_transactions b)) in
  if _i >? 0 then
    match m_receipts b !! Z.to_nat (_i - 1) with
    | None => Err OutOfRange
    | Some r => match stateRoot r with
                | Ok h => Ok h
                | Err TransactionReceiptVersionError => Ok (FixedHash.zero 32)
                | Err e => Err (ReceiptExn e)
                end
    end
  else Ok (BlockHeader.m_stateRoot (m_previousBlock b)).
(** [createIntermediateState], on the state of the world; past the last transaction
    [pending()\[i\]] is not there. *)
Definition createIntermediateState (_block : Block) (_txIndex : Z) (s : Site) (o_s : World) : result block_exn unit * World :=
  let on {A} (p : State.ST A) (w : World) := let '(r, x) := p (w_s w) in
    (match r with Ok a => Ok a | Err e => Err (ExecExn (Executive.StateExn e)) end, {| w_s := x; w_sizes := w_sizes w |}) in
  (exec! (fun w => let '(r, x) := assign_state (m_state _block) (w_s w) in
                   (match r with Ok a => Ok a | Err e => Err (ExecExn (Executive.StateExn e)) end, {| w_s := x; w_sizes := w_sizes w |})) in
   do! rootHash := mlift (stateRootBeforeTx _txIndex _block) in
   if FixedHash.to_bool rootHash then on (State.setRoot rootHash) else
   do! r0 := mlift (stateRootBeforeTx 0 _block) in
   exec! on (State.setRoot r0) in
   if zlen (m_transactions _block) <? _txIndex then mthrow Undefined else
   fun w => let '(r, w') := Executive.executeBlockTransactions (operation params) precompiled (m_currentBlock _block) (last_hashes s)
                              (take (Z.to_nat _txIndex) (m_transactions _block)) 0 w in
            (match r with Ok a => Ok a | Err e => Err (ExecExn e) end, w')) o_s.

End Blocks.
End Block.
