(* ===== verification/BlockImport.v ===== *)
(** * BlockImport: importing blocks and filling them from the queue

    [BlockChain::import] and [attemptImport], which enact a block in a [Block] of their
    own and insert it in the chain, and [Block::sync] with a [TransactionQueue], which
    executes what the queue offers.  The callbacks for bad blocks and the figures of
    performance are left out. *)

From stdpp Require Import base list numbers option gmap.
From Stdlib Require Import ZArith Lia.
From S2P Require Import Prelude Bytes Rlp RlpStream RlpFields Keccak MemoryDB OverlayDB TrieCommon TrieDB TrieHash Account State Crypto Transaction BlockHeader.
From S2P Require Import Seal Receipt Precompiled Executive TxQueue BlockChain Block.
Import CommonData RLP RLPStream RlpFields Keccak.

#[local] Opaque sha3.

(** ** GasPricer.h *)

(** What a block being filled asks for, and the pricer with fixed prices. *)
Class GasPricer (B P : Type) := { ask : P -> B -> Z }.
Record TrivialGasPricer := { m_ask : Z; m_bid : Z }.
#[export] Instance TrivialGasPricer_pricer {B} : GasPricer B TrivialGasPricer := {| ask := fun p _ => m_ask p |}.
Definition DefaultGasPrice : Z := 20 * 10 ^ 9.
Definition default_pricer : TrivialGasPricer := {| m_ask := DefaultGasPrice; m_bid := DefaultGasPrice |}.

Module BlockImport.
Import Bloom LogEntry Receipt BlockDetails ChainOperationParams Block.
Import Transaction (TransactionBase).
Import BlockHeader (BlockHeader).
Import Executive (Committed, exec_exn).
Import CodeSizeCache (CodeSizeCache).
Import BlockChain (bc_exn, ChainParams, Genesis, VerifiedBlockRef, vb_block, vb_info, vb_transactions, ImportRoute, operation).
Import TransactionQueue (TransactionQueue, tq_exn, ImportResult, Success, UnknownParent, AlreadyKnown, FutureTimeKnown, Malformed).

Section Importing.
Context {L : Type} `{LevelDB L} {C : Crypto.Secp256k1}.
Abbreviation DB := (OverlayDB.OverlayDB L).
Variable params : ChainParams.
Variable G : Genesis.
Variable precompiled : gmap bytes Precompiled.PrecompiledContract.
Variable allocated : bool.
Variable utcTime : Z.

(** ** Importing *)

(** The chain, the code sizes, and the caller's [OverlayDB], whose database the block
    being enacted writes to. *)
Record Importer := { i_bc : BlockChain.BlockChain (L := L); i_sizes : CodeSizeCache; i_db : DB }.
Abbreviation IM A := (M Importer block_exn A).

Definition of_chain {A} (m : M (BlockChain.BlockChain (L := L)) bc_exn A) : IM A := fun s =>
  let '(r, bc) := m (i_bc s) in
  (match r with Ok a => Ok a | Err e => Err (ChainExn e) end, {| i_bc := bc; i_sizes := i_sizes s; i_db := i_db s |}).
(** A block of one's own, over the [OverlayDB]. *)
Definition in_block {A} (random : list nat) (m : M (Site (L := L)) block_exn A) : IM A :=
  do! d := mget i_db in
  do! b := mlift (make_block params d State.PreExisting (FixedHash.zero 20) random) in
  fun s =>
    let '(r, s') := m {| s_block := b; s_bc := i_bc s; s_sizes := i_sizes s |} in
    (r, {| i_bc := s_bc s'; i_sizes := s_sizes s';
           i_db := {| OverlayDB.memory := OverlayDB.memory (i_db s); OverlayDB.m_db := OverlayDB.m_db (db_of (m_state (s_block s'))) |} |}).

(** What [catch (BadRoot&)] catches, and what is thrown instead. *)
Definition is_bad_root (e : block_exn) : bool :=
  match e with
  | TrieExn TrieDB.BadRoot | ExecExn (Executive.StateExn (State.Trie TrieDB.BadRoot)) | ChainExn (BlockChain.TrieExn TrieDB.BadRoot) => true
  | _ => false
  end.
Definition transient {A} (m : IM A) : IM A := fun s =>
  match m s with
  | (Err e, s') => (Err (if is_bad_root e then TransientError else e), s')
  | r => r
  end.

(** The receipts of the transactions executed. *)
Definition pending_receipts (b : Block (L := L)) : result block_exn (list TransactionReceipt) :=
  if (List.length (m_receipts b) <? List.length (m_transactions b))%nat then Err OutOfRange
  else Ok (take (List.length (m_transactions b)) (m_receipts b)).

(** [import(VerifiedBlockRef const&, _db, _mustBeNew)], up to the insertion: the receipts
    and the total difficulty. *)
Definition import_checked (_block : VerifiedBlockRef) (_mustBeNew : bool) (random : list nat) : IM (list TransactionReceipt * Z) :=
  exec! (if _mustBeNew then of_chain (BlockChain.checkBlockIsNew G _block) else mret tt) in
  let bi := vb_info _block in
  let p := BlockHeader.m_parentHash bi in
  do! k := of_chain (BlockChain.isKnown G p false) in
  if negb k then mthrow Block.UnknownParent else
  do! pd := of_chain (BlockChain.details p) in
  if isNull pd then mthrow Exit else
  exec! of_chain (BlockChain.checkBlockTimestamp params utcTime bi) in
  exec! of_chain (BlockChain.verifyBlock params G allocated (vb_block _block) BlockChain.InOrderChecks) in
  do! (br, tdIncrease) := transient (in_block random
        (do! tdIncrease := enactOn params G precompiled utcTime _block in
         do! s := get (fun b => b) in
         do! br := mlift (pending_receipts s) in
         exec! cleanup params precompiled utcTime in
         mret (br, tdIncrease))) in
  mret (br, wrap 256 (totalDifficulty pd + tdIncrease)).
Definition import (_block : VerifiedBlockRef) (_mustBeNew : bool) (random : list nat) : IM ImportRoute :=
  do! (br, td) := import_checked _block _mustBeNew random in
  do! receipts := of_chain (BlockChain.str (receipts_rlp br)) in
  of_chain (BlockChain.insertBlockAndExtras params G _block receipts td).
(** [import(bytes const&, _db, _mustBeNew)]. *)
Definition import_bytes (_block : bytes) (_mustBeNew : bool) (random : list nat) : IM ImportRoute :=
  do! block := of_chain (BlockChain.verifyBlock params G allocated _block BlockChain.OutOfOrderChecks) in
  import block _mustBeNew random.

(** What is no [dev::Exception]: it ends the process where nothing else may pass. *)
Definition rlp_ends (e : exn) : bool := match e with AssertFailure | BadRead | NoFuel => true | _ => false end.
Definition trie_ends (e : TrieDB.trie_exn) : bool := match e with TrieDB.Rlp e => rlp_ends e | _ => false end.
Definition hdr_ends (e : BlockHeader.hdr_exn) : bool :=
  match e with BlockHeader.Rlp e => rlp_ends e | BlockHeader.Trie e => trie_ends e | _ => false end.
Definition tx_ends (e : Transaction.tx_exn) : bool := match e with Transaction.Rlp e => rlp_ends e | _ => false end.
Definition seal_ends (e : SealEngine.seal_exn) : bool :=
  match e with
  | SealEngine.Header e => hdr_ends e
  | SealEngine.Tx e => tx_ends e
  | SealEngine.Rlp e => rlp_ends e
  | SealEngine.Aux VapashAux.DAGCreationFailure => false
  | SealEngine.Aux _ => true
  | _ => false
  end.
Definition exec_ends (e : exec_exn) : bool :=
  match e with
  | Executive.StateExn (State.Trie e) => trie_ends e
  | Executive.SealExn e => seal_ends e
  | Executive.TxExn e => tx_ends e
  | Executive.Abort | Executive.Halted _ => true
  | _ => false
  end.
Definition chain_ends (e : bc_exn) : bool :=
  match e with
  | BlockChain.RlpExn e => rlp_ends e
  | BlockChain.HeaderExn e => hdr_ends e
  | BlockChain.TrieExn e => trie_ends e
  | BlockChain.SealExn e => seal_ends e
  | BlockChain.TxExn e => tx_ends e
  | BlockChain.AssertFailed | BlockChain.Undefined | BlockChain.Exit | BlockChain.NoFuel => true
  | _ => false
  end.
Definition ends (e : block_exn) : bool :=
  match e with
  | ChainExn e => chain_ends e
  | ExecExn e => exec_ends e
  | HdrExn e => hdr_ends e
  | SealExn e => seal_ends e
  | RlpExn e => rlp_ends e
  | TrieExn e => trie_ends e
  | ReceiptExn (Receipt.Rlp e) => rlp_ends e
  | OutOfRange | AssertFailed | Block.Undefined | Exit => true
  | _ => false
  end.

(** Among them the exceptions of the standard library. *)
Definition is_std (e : block_exn) : bool :=
  match e with
  | OutOfRange | SealExn (SealEngine.Aux VapashAux.InvalidArgument) | ChainExn (BlockChain.SealExn (SealEngine.Aux VapashAux.InvalidArgument)) => true
  | _ => false
  end.

Definition no_route : ImportRoute :=
  {| BlockChain.deadBlocks := []; BlockChain.liveBlocks := []; BlockChain.goodTranactions := [] |}.
(** [attemptImport], which is [noexcept]: what it does not catch ends the process. *)
Definition attemptImport (_block : bytes) (_mustBeNew : bool) (random : list nat) : IM (ImportResult * ImportRoute) := fun s =>
  match import_bytes _block _mustBeNew random s with
  | (Ok r, s') => (Ok (Success, r), s')
  | (Err e, s') =>
      match e with
      | Block.UnknownParent | ChainExn BlockChain.UnknownParent => (Ok (UnknownParent, no_route), s')
      | ChainExn BlockChain.AlreadyHaveBlock => (Ok (AlreadyKnown, no_route), s')
      | ChainExn BlockChain.FutureTime => (Ok (FutureTimeKnown, no_route), s')
      | e => if ends e then (Err e, s') else (Ok (Malformed, no_route), s')
      end
  end.

(** ** Filling a block from the queue *)

Record Mining := { g_site : Site (L := L); g_queue : TransactionQueue }.
Inductive sync_exn := BlockExn (e : block_exn) | QueueExn (e : tq_exn) | SyncFuel.
Abbreviation SM A := (M Mining sync_exn A).
Definition on_site {A} (m : M (Site (L := L)) block_exn A) : SM A := fun g =>
  let '(r, s) := m (g_site g) in
  (match r with Ok a => Ok a | Err e => Err (BlockExn e) end, {| g_site := s; g_queue := g_queue g |}).
Definition on_queue {A} (m : M TransactionQueue tq_exn A) : SM A := fun g =>
  let '(r, q) := m (g_queue g) in
  (match r with Ok a => Ok a | Err e => Err (QueueExn e) end, {| g_site := g_site g; g_queue := q |}).

Definition c_maxSyncTransactions : Z := 1024.

Section Queue.
Context {P : Type} `{GasPricer (Block (L := L)) P}.
Variable _gp : P.

Definition asked (g : Mining) : Z := ask _gp (s_block (g_site g)).
(** The [try] block: the receipt, when the transaction was executed. *)
Definition try_transaction (t : TransactionBase) (h : bytes) : SM (option TransactionReceipt) :=
  do! a := mget asked in
  if a <=? Transaction.m_gasPrice t then
    exec! on_site (execute params G precompiled t Committed) in
    do! r := on_site (get (fun b => last (m_receipts b))) in
    mret r
  else if Transaction.m_gasPrice t <? wrap 256 (a * 9) / 10 then
    exec! on_queue (TransactionQueue.drop_ h) in mret None
  else mret None.
(** The handlers. The gas of the transaction is what [BlockGasLimitReached] reports as
    [errinfo_got]. *)
Definition handle (t : TransactionBase) (h : bytes) (e : sync_exn) : SM unit :=
  match e with
  | BlockExn (ExecExn (Executive.NonceExn req got)) =>
      if req >? got then on_queue (TransactionQueue.drop_ h) else
      do! a := on_queue (TransactionQueue.tx (TransactionQueue.sender_of t)) in
      do! w := on_queue (mget (TransactionQueue.waiting a)) in
      if got >? req + w then on_queue (TransactionQueue.drop_ h)
      else on_queue (TransactionQueue.setFuture h)
  | BlockExn (ExecExn (Executive.SealExn SealEngine.BlockGasLimitReached)) =>
      do! limit := on_site (get (fun b => BlockHeader.m_gasLimit (m_currentBlock b))) in
      if Transaction.m_gas t >? limit then on_queue (TransactionQueue.drop_ h) else mret tt
  | BlockExn e => if ends e && negb (is_std e) then mthrow (BlockExn e) else on_queue (TransactionQueue.drop_ h)
  | QueueExn TransactionQueue.BadAccess | SyncFuel => mthrow e
  | _ => on_queue (TransactionQueue.drop_ h)
  end.
Definition attempt (t : TransactionBase) (h : bytes) : SM (option TransactionReceipt) := fun g =>
  match try_transaction t h g with
  | (Ok r, g') => (Ok r, g')
  | (Err e, g') => (exec! handle t h e in mret None) g'
  end.
(** One pass over the transactions: how many were executed, and their receipts. *)
Fixpoint pass (ts : list TransactionBase) : SM (Z * list TransactionReceipt) :=
  match ts with
  | [] => mret (0, [])
  | t :: ts' =>
      do! h := on_queue (TransactionQueue.tx (TransactionQueue.hash_of t)) in
      do! done := on_site (get m_transactionSet) in
      if bool_decide (h ∈ done) then pass ts' else
      do! r := attempt t h in
      do! (n, rs) := pass ts' in
      mret (match r with Some r => (n + 1, r :: rs) | None => (n, rs) end)
  end.
(** The passes; [late k] says that the clock is past the deadline at the end of the pass
    [k]. *)
Fixpoint passes (fuel : nat) (late : nat -> bool) (k : nat) (ts : list TransactionBase) (goodTxs : Z) : SM (list TransactionReceipt * bool) :=
  if goodTxs <? zlen ts then
    match fuel with
    | O => mthrow SyncFuel
    | S f =>
        do! (goodTxs, rs) := pass ts in
        if late k then mret (rs, true) else
        do! (rs', more) := passes f late (S k) ts goodTxs in
        mret (rs ++ rs', more)
    end
  else mret ([], zlen ts =? c_maxSyncTransactions).
(** [sync(_bc, _tq, _gp, msTimeout)]. *)
Definition sync_queue (fuel : nat) (late : nat -> bool) : SM (list TransactionReceipt * bool) :=
  do! sealed := on_site (get isSealed) in
  if sealed then mthrow (BlockExn InvalidOperationOnSealedBlock) else
  exec! on_site (noteChain params) in
  do! avoid := on_site (get m_transactionSet) in
  do! ts := on_queue (TransactionQueue.topTransactions c_maxSyncTransactions avoid) in
  do! head := on_site (ch BlockChain.currentHash) in
  do! p := on_site (get (fun b => BlockHeader.m_parentHash (m_currentBlock b))) in
  if negb (bool_decide (head = p)) then mthrow (BlockExn AssertFailed) else
  passes fuel late 0 ts (Z.max 0 (zlen ts - 1)).
End Queue.

End Importing.
End BlockImport.
