(* ===== verification/BlockReads.v ===== *)
(** * BlockReads: what enacting a block does to the chain

    The operations of a block read the chain and leave its tree, its head and its
    databases alone, whether they return or throw.  So an import changes the chain only
    by the insertion at its end. *)

From stdpp Require Import base list numbers option gmap.
From Stdlib Require Import ZArith Lia.
From S2P Require Import Prelude Bytes Rlp RlpStream RlpFields Keccak MemoryDB OverlayDB TrieDB TrieHash Account State Crypto Transaction BlockHeader.
From S2P Require Import Seal Receipt Precompiled Executive TxQueue BlockChain ChainStore ChainTree ChainBlooms ChainIndex ChainProps ChainHistory Block BlockImport.
Import CommonData RLP RLPStream RlpFields Keccak.

#[local] Opaque sha3.

Module BlockReads.
Import BlockDetails ChainTree ChainProps ChainHistory Block BlockImport.
Import BlockChain (BlockChain, bc_exn, ChainParams, Genesis, VerifiedBlockRef, vb_block, vb_info, m_blocksDB, m_extrasDB, m_lastBlockHash, m_lastBlockNumber).
Import BlockHeader (BlockHeader, m_parentHash, m_number, m_difficulty, m_hash).

(** ** Invariants of programs *)

Definition preserves {S E A} (I : S -> Prop) (m : M S E A) : Prop := forall s, I s -> I (snd (m s)).

Create HintDb preserves discriminated.
#[export] Hint Constants Opaque : preserves.
Section Generic.
Context {S E : Type} (I : S -> Prop).
Lemma preserves_bind {A B} (m : M S E A) (k : A -> M S E B) : preserves I m -> (forall a, preserves I (k a)) -> preserves I (mbind m k).
Proof. intros Hm Hk s Hs. unfold mbind. specialize (Hm s Hs). destruct (m s) as [[a|e] s']; [by apply Hk|done]. Qed.
Lemma preserves_ret {A} (a : A) : preserves I (mret a : M S E A).
Proof. by intros s. Qed.
Lemma preserves_throw {A} (e : E) : preserves I (mthrow e : M S E A).
Proof. by intros s. Qed.
Lemma preserves_get {A} (f : S -> A) : preserves I (mget f : M S E A).
Proof. by intros s. Qed.
Lemma preserves_lift {A} (r : result E A) : preserves I (mlift r : M S E A).
Proof. by intros s. Qed.
Lemma preserves_put (f : S -> S) : (forall s, I s -> I (f s)) -> preserves I (mput f : M S E unit).
Proof. intros Hf s. apply Hf. Qed.
End Generic.

(** Decomposes a program and leaves what the hints do not know. *)
Ltac preserved :=
  repeat (intros; cbn beta zeta iota; lazymatch goal with
  | |- preserves _ (mbind _ _) => apply preserves_bind
  | |- preserves _ (mret _) => apply preserves_ret
  | |- preserves _ (mthrow _) => apply preserves_throw
  | |- preserves _ (mget _) => apply preserves_get
  | |- preserves _ (mlift _) => apply preserves_lift
  | |- preserves _ (if ?b then _ else _) => destruct b
  | |- preserves _ (match ?x with _ => _ end) => destruct x
  | |- preserves _ _ => solve [eauto with preserves]
  end).

Section Chain.
Context {L : Type} `{LevelDB L, !LevelDBLaws L} {C : Crypto.Secp256k1}.
Variables (params : ChainParams) (G : Genesis).
Variable precompiled : gmap bytes Precompiled.PrecompiledContract.
Variable allocated : bool.
Variable utcTime : Z.
Abbreviation BC := (BlockChain (L := L)).
Abbreviation BM A := (M BC bc_exn A).
Implicit Types b : BC.
Variable Above : Z -> Prop.
Variable T : tree.
Variable b0 : BC.

(** Still the tree [T], with the head and the databases of [b0]. *)
Record unmoved b : Prop := {
  u_ok : chain_ok params G Above T b;
  u_blocks : m_blocksDB b = m_blocksDB b0;
  u_extras : m_extrasDB b = m_extrasDB b0;
  u_last : m_lastBlockHash b = m_lastBlockHash b0;
  u_number : m_lastBlockNumber b = m_lastBlockNumber b0
}.
Lemma unmoved_frame b b' : unmoved b -> store_ok G T T b' -> frame b b' -> unmoved b'.
Proof.
  intros [U1 U2 U3 U4 U5] Hs Hf. split; [by apply (frame_chain params G Above T b)|..]; destruct Hf; congruence.
Qed.

Lemma details_reads h : preserves unmoved (BlockChain.details (L := L) h).
Proof.
  intros b Hb. pose proof (t_core _ _ _ (c_tree _ _ _ _ _ (u_ok b Hb))) as Hcore.
  destruct (details_runs params G T T Hcore h b (c_store _ _ _ _ _ (u_ok b Hb))) as (d & b' & -> & _ & Hs & Hf & _). by apply (unmoved_frame b).
Qed.
Lemma block_reads h : preserves unmoved (BlockChain.block params G h).
Proof.
  intros b Hb. pose proof (t_core _ _ _ (c_tree _ _ _ _ _ (u_ok b Hb))) as Hcore. destruct (T !! h) as [n|] eqn:Hn.
  - destruct (block_runs params G T T Hcore h n b (c_store _ _ _ _ _ (u_ok b Hb)) Hn) as (d & b' & -> & _ & Hs & Hf). by apply (unmoved_frame b).
  - destruct (block_unknown_runs params G Above T b h (u_ok b Hb) Hn) as (d & b' & -> & _ & ->). done.
Qed.
Lemma vapash_reads a : forall b, unmoved b -> unmoved (BlockChain.set_vapash a b).
Proof.
  intros b [U1 U2 U3 U4 U5]. split; [|done..]. apply (same_chain params G Above T b); cbn; [done|by destruct (c_store _ _ _ _ _ U1); split|done..| |apply memo_seen|apply U1].
  apply U1.
Qed.
Lemma rlp_reads {A} (r : result exn A) : preserves unmoved (BlockChain.rlp (L := L) r).
Proof. by intros b. Qed.
Lemma hdr_reads {A} (r : result BlockHeader.hdr_exn A) : preserves unmoved (BlockChain.hdr (L := L) r).
Proof. by intros b. Qed.
Lemma str_reads {A} (r : result stream_exn A) : preserves unmoved (BlockChain.str (L := L) r).
Proof. by intros b. Qed.
#[local] Hint Resolve details_reads block_reads rlp_reads hdr_reads str_reads : preserves.

Lemma headerData_reads h : preserves unmoved (BlockChain.headerData params G h).
Proof. unfold BlockChain.headerData. preserved. Qed.
#[local] Hint Resolve headerData_reads : preserves.
Lemma info_reads h : preserves unmoved (BlockChain.info params G h).
Proof. unfold BlockChain.info. preserved. Qed.
Lemma isKnown_reads h c : preserves unmoved (BlockChain.isKnown (L := L) G h c).
Proof. unfold BlockChain.isKnown. preserved. Qed.
Lemma items_reads d i : preserves unmoved (BlockChain.items_of_block (L := L) d i).
Proof. unfold BlockChain.items_of_block. preserved. Qed.
#[local] Hint Resolve info_reads isKnown_reads items_reads : preserves.
Lemma uncleHashes_reads h : preserves unmoved (BlockChain.uncleHashes params G h).
Proof. unfold BlockChain.uncleHashes. preserved. Qed.
#[local] Hint Resolve uncleHashes_reads : preserves.
Lemma allKin_reads n : forall p ret, preserves unmoved (BlockChain.allKin_loop params G n p ret).
Proof. induction n as [|n IH]; intros p ret; cbn [BlockChain.allKin_loop]; preserved. Qed.
Lemma allKinFrom_reads p n : preserves unmoved (BlockChain.allKinFrom params G p n).
Proof. apply allKin_reads. Qed.
Lemma seal_verify_reads s i p d : preserves unmoved (BlockChain.seal_verify (L := L) params allocated s i p d).
Proof.
  intros b Hb. unfold BlockChain.seal_verify. destruct (SealEngine.engine_verify _ _ _ _ _ _ _) as [r a]. by apply vapash_reads.
Qed.
Lemma parent_header_reads w h e : preserves unmoved (BlockChain.parent_header params G w h e).
Proof. unfold BlockChain.parent_header. preserved. Qed.
#[local] Hint Resolve allKinFrom_reads seal_verify_reads parent_header_reads : preserves.
Lemma verify_uncles_reads ir l : preserves unmoved (BlockChain.verify_uncles params G allocated ir l).
Proof. induction l as [|u l IH]; cbn [BlockChain.verify_uncles]; preserved. Qed.
Lemma verify_transactions_reads ir h l : preserves unmoved (BlockChain.verify_transactions (L := L) params ir h l).
Proof. induction l as [|u l IH]; cbn [BlockChain.verify_transactions]; preserved. Qed.
#[local] Hint Resolve verify_uncles_reads verify_transactions_reads : preserves.
Lemma verifyBlock_reads d ir : preserves unmoved (BlockChain.verifyBlock params G allocated d ir).
Proof. unfold BlockChain.verifyBlock. preserved. Qed.
Lemma checkBlockIsNew_reads vb : preserves unmoved (BlockChain.checkBlockIsNew (L := L) G vb).
Proof. unfold BlockChain.checkBlockIsNew, BlockChain.hash_of. preserved. Qed.
Lemma checkBlockTimestamp_reads h : preserves unmoved (BlockChain.checkBlockTimestamp (L := L) params utcTime h).
Proof. unfold BlockChain.checkBlockTimestamp. preserved. Qed.
#[local] Hint Resolve verifyBlock_reads checkBlockIsNew_reads checkBlockTimestamp_reads : preserves.

(** ** The operations of a block *)

Abbreviation KM A := (M (Site (L := L)) block_exn A).
Definition steady (s : Site (L := L)) : Prop := unmoved (s_bc s).
Definition local {A} (m : KM A) : Prop := forall s, s_bc (snd (m s)) = s_bc s.
Lemma local_steady {A} (m : KM A) : local m -> preserves steady m.
Proof. intros Hm s Hs. unfold steady. by rewrite Hm. Qed.
Lemma ch_steady {A} (m : BM A) : preserves unmoved m -> preserves steady (ch m).
Proof. intros Hm s Hs. unfold ch. specialize (Hm (s_bc s) Hs). destruct (m (s_bc s)) as [[a|e] b]; exact Hm. Qed.
Lemma get_steady {A} (f : Block (L := L) -> A) : preserves steady (get f).
Proof. by intros s. Qed.
Lemma lift_steady {E A} (w : E -> block_exn) (r : result E A) : preserves steady (lift (L := L) w r).
Proof. by intros s. Qed.
Lemma put_steady f : preserves steady (put (L := L) f).
Proof. by intros s. Qed.
Lemma st_steady {A} (p : State.ST A) : preserves steady (st (L := L) p).
Proof. apply local_steady. intros s. unfold st. by destruct (p _) as [[a|e] x]. Qed.
Lemma world_steady {A} (p : Executive.World -> result Executive.exec_exn A * Executive.World) : preserves steady (on_world (L := L) p).
Proof. apply local_steady. intros s. unfold on_world. by destruct (p _) as [[a|e] x]. Qed.
Lemma noteChain_steady : preserves steady (noteChain (L := L) params).
Proof. apply local_steady. intros s. unfold noteChain. by destruct (note_chain params (s_block s)). Qed.
Lemma previous_steady : preserves steady (previous_hash (L := L)).
Proof. apply local_steady. intros s. unfold previous_hash. by destruct (BlockHeader.hash _ _) as [[a|e] x]. Qed.
Lemma current_steady i : preserves steady (current_hash (L := L) i).
Proof. apply local_steady. intros s. unfold current_hash. by destruct (BlockHeader.hash _ _) as [[a|e] x]. Qed.
Lemma to_precommit_steady : preserves steady (to_precommit (L := L)).
Proof. apply local_steady. intros s. unfold to_precommit. by destruct (assign_state _ _) as [[a|e] x]. Qed.
Lemma from_precommit_steady : preserves steady (from_precommit (L := L)).
Proof. apply local_steady. intros s. unfold from_precommit. by destruct (assign_state _ _) as [[a|e] x]. Qed.
#[local] Hint Resolve ch_steady get_steady lift_steady put_steady st_steady world_steady noteChain_steady previous_steady current_steady
  to_precommit_steady from_precommit_steady details_reads block_reads info_reads isKnown_reads allKinFrom_reads headerData_reads : preserves.

Lemma rootHash_steady : preserves steady (rootHash (L := L)).
Proof. apply st_steady. Qed.
Lemma dao_steady l : preserves steady (dao_loop (L := L) l).
Proof. induction l as [|a l IH]; cbn [dao_loop]; preserved. Qed.
#[local] Hint Resolve rootHash_steady dao_steady : preserves.
Lemma irregular_steady : preserves steady (performIrregularModifications (L := L) params).
Proof. unfold performIrregularModifications. preserved. Qed.
Lemma blockhash_steady : preserves steady (updateBlockhashContract (L := L) params precompiled).
Proof. unfold updateBlockhashContract, call_blockhash. preserved. Qed.
Lemma populate_steady : preserves steady (populate_current (L := L) params).
Proof. unfold populate_current, require_engine. preserved. Qed.
#[local] Hint Resolve irregular_steady blockhash_steady populate_steady : preserves.
Lemma resetCurrent_steady t : preserves steady (resetCurrent (L := L) params precompiled t).
Proof. unfold resetCurrent. preserved. Qed.
#[local] Hint Resolve resetCurrent_steady : preserves.
Lemma sync_steady h bi : preserves steady (sync params G precompiled utcTime h bi).
Proof. unfold sync. preserved. Qed.
Lemma uncommit_steady : preserves steady (uncommitToSeal (L := L)).
Proof. unfold uncommitToSeal. preserved. Qed.
#[local] Hint Resolve sync_steady uncommit_steady : preserves.
Lemma execute_steady t p : preserves steady (execute params G precompiled t p).
Proof. unfold execute. preserved. Qed.
Lemma reward_loop_steady x n l : forall r, preserves steady (reward_loop (L := L) x n l r).
Proof. induction l as [|i l IH]; intros r; cbn [reward_loop]; preserved. Qed.
#[local] Hint Resolve reward_loop_steady : preserves.
Lemma rewards_steady l r : preserves steady (applyRewards (L := L) l r).
Proof. unfold applyRewards. preserved. Qed.
Lemma commit_all_steady : preserves steady (commit_all (L := L) params).
Proof. unfold commit_all. preserved. Qed.
#[local] Hint Resolve execute_steady rewards_steady commit_all_steady : preserves.
Lemma enact_transactions_steady l : preserves steady (enact_transactions params G precompiled l).
Proof. induction l as [|t l IH]; cbn [enact_transactions]; preserved. Qed.
Lemma uncle_parent_steady n : forall h, preserves steady (uncle_parent (L := L) n h).
Proof. induction n as [|n IH]; intros h; cbn [uncle_parent]; preserved. Qed.
#[local] Hint Resolve enact_transactions_steady uncle_parent_steady : preserves.
Lemma check_uncle_steady i x : preserves steady (check_uncle params G i x).
Proof. unfold check_uncle. preserved. Qed.
#[local] Hint Resolve check_uncle_steady : preserves.
Lemma check_uncles_steady l : forall x, preserves steady (check_uncles params G l x).
Proof. induction l as [|i l IH]; intros x; cbn [check_uncles]; preserved. Qed.
#[local] Hint Resolve check_uncles_steady : preserves.
Lemma enact_uncles_steady l : preserves steady (enact_uncles params G l).
Proof. unfold enact_uncles. preserved. Qed.
#[local] Hint Resolve enact_uncles_steady : preserves.
Lemma enact_steady vb : preserves steady (enact params G precompiled vb).
Proof. unfold enact, rollback_db. preserved. Qed.
#[local] Hint Resolve enact_steady : preserves.
Lemma enactOn_steady vb : preserves steady (enactOn params G precompiled utcTime vb).
Proof. unfold enactOn. preserved. Qed.
Lemma cleanup_steady : preserves steady (cleanup (L := L) params precompiled utcTime).
Proof.
  unfold cleanup. preserved.
  - by intros s.
  - intros s Hs. by destruct (OverlayDB.commit _).
Qed.

End Chain.
End BlockReads.
