(* ===== verification/BlockUncles.v ===== *)
(** * BlockUncles: the uncles of a block

    What [enact] accepts as uncles are headers of children of the block's ancestors, from
    the second to the seventh, that are no ancestors and no uncles of them and are not
    mentioned twice; and the uncles that [commitToSeal] picks are accepted. *)

From stdpp Require Import base list numbers option gmap.
From Stdlib Require Import ZArith Lia.
From S2P Require Import Prelude Bytes Rlp RlpStream RlpFields Keccak MemoryDB OverlayDB TrieDB TrieHash Account State Crypto Transaction BlockHeader.
From S2P Require Import Seal Receipt Precompiled Executive TxQueue BlockChain ChainStore ChainTree ChainBlooms ChainIndex ChainProps ChainHistory Block BlockImport BlockReads.
Import CommonData RLP RLPStream RlpFields Keccak.

#[local] Opaque sha3.

Module BlockUncles.
Import BlockDetails ChainTree ChainProps ChainHistory Block BlockImport BlockReads.
Import BlockChain (BlockChain, bc_exn, ChainParams, Genesis, VerifiedBlockRef, vb_block, vb_info, m_blocksDB, m_extrasDB, m_lastBlockHash, m_lastBlockNumber, m_genesisHash).
Import BlockHeader (BlockHeader, m_parentHash, m_number, m_difficulty, m_hash, make_header, HeaderData, BlockData, CheckNothingNew, WithSeal).

(** ** Headers *)

Lemma bind_inv {S E A B} (m : M S E A) (k : A -> M S E B) s x s' : mbind m k s = (Ok x, s') ->
  exists a s1, m s = (Ok a, s1) /\ k a s1 = (Ok x, s').
Proof. unfold mbind. destruct (m s) as [[a|e] s1]; [eauto|done]. Qed.
Lemma mlift_inv {S E A} (r : result E A) (s : S) a s' : mlift r s = (Ok a, s') -> r = Ok a /\ s' = s.
Proof. by intros [= -> ->]. Qed.
Lemma make_whole d r : make d VeryStrict = Ok r -> r = d.
Proof. rewrite make_strict. intros (a & _ & H)%result_bind_Ok. repeat case_match; congruence. Qed.
Lemma populate_hash d x h : BlockHeader.populate d x = Ok h -> m_hash h = x.
Proof.
  unfold BlockHeader.populate. destruct (BlockHeader.populate_body d x cache_init) as [[h'|[e f]] c] eqn:E; [|by destruct (fst _)].
  intros [= ->]. unfold BlockHeader.populate_body in E. do 15 (apply bind_inv in E as (? & ? & _ & E)). by injection E as <- _.
Qed.
(** The header of a block, alone, has the hash of its bytes. *)
Lemma alone_hash d h : make_header d HeaderData (FixedHash.zero 32) = Ok h -> m_hash h = sha3 d /\ make_header d HeaderData (sha3 d) = Ok h.
Proof.
  unfold make_header. intros (r & Hm & Hp)%result_bind_Ok. destruct (make d VeryStrict) as [r'|e] eqn:E; [|done]. injection Hm as <-.
  apply make_whole in E as ->. change (FixedHash.to_bool (FixedHash.zero 32)) with false in Hp. cbn iota in Hp.
  split; [by apply populate_hash in Hp|]. cbn [relabel result_bind]. by destruct (FixedHash.to_bool (sha3 d)).
Qed.

Section Uncles.
Context {L : Type} `{LevelDB L, !LevelDBLaws L} {C : Crypto.Secp256k1}.
Variables (params : ChainParams) (G : Genesis).
Variable precompiled : gmap bytes Precompiled.PrecompiledContract.
Abbreviation BC := (BlockChain (L := L)).
Abbreviation BM A := (M BC bc_exn A).
Abbreviation KM A := (M (Site (L := L)) block_exn A).
Implicit Types (b : BC) (s : Site (L := L)).
Variable Above : Z -> Prop.
Variable T : tree.
Variable b0 : BC.
Abbreviation unmoved := (unmoved params G Above T b0).
Abbreviation steady := (steady params G Above T b0).

(** ** The chain *)

Lemma core b : unmoved b -> tree_core params G T.
Proof. intros U. apply (t_core _ _ _ (c_tree _ _ _ _ _ (u_ok _ _ _ _ _ _ U))). Qed.
Lemma details_known h n b : unmoved b -> T !! h = Some n -> runs (BlockChain.details h) b (fun d b' => d = details_of n /\ unmoved b').
Proof.
  intros U Hn. eapply runs_mono; [apply (details_runs params G T T (core b U)), (u_ok _ _ _ _ _ _ U)|].
  intros d b' (-> & Hs & Hf & _). rewrite Hn. split; [done|]. by apply (unmoved_frame params G Above T b0 b).
Qed.
Lemma block_known h n b : unmoved b -> T !! h = Some n -> runs (BlockChain.block params G h) b (fun d b' => d = n_bytes n /\ unmoved b').
Proof.
  intros U Hn. eapply runs_mono; [apply (block_runs params G T T (core b U)); [apply (u_ok _ _ _ _ _ _ U)|done]|].
  intros d b' (-> & Hs & Hf). split; [done|]. by apply (unmoved_frame params G Above T b0 b).
Qed.
Lemma info_known h n b : unmoved b -> T !! h = Some n -> runs (BlockChain.info params G h) b (fun i b' => i = n_header n /\ unmoved b').
Proof.
  intros U Hn. eapply runs_mono; [apply (info_runs params G T T (core b U)); [apply (u_ok _ _ _ _ _ _ U)|done]|].
  intros i b' (-> & Hs & Hf). split; [done|]. by apply (unmoved_frame params G Above T b0 b).
Qed.
Lemma headerData_known h n b : unmoved b -> T !! h = Some n -> runs (BlockChain.headerData params G h) b (fun d b' =>
  make_header d HeaderData (FixedHash.zero 32) = Ok (n_header n) /\ sha3 d = h /\ unmoved b').
Proof.
  intros U Hn. destruct (t_node _ _ _ (core b U) _ _ Hn) as [_ _ _ Hh _ (d & Hx & Hmk) _ _ _ _]. destruct (alone_hash _ _ Hmk) as [Hd _].
  unfold BlockChain.headerData. case_bool_decide as Hg.
  - destruct (t_genesis _ _ _ (core b U)) as (g & Hg' & E & _ & _ & Ex). apply bc_ret. split; [|split; [congruence|done]]. congruence.
  - eapply bc_bind; [by apply block_known|]. intros x b' (-> & U'). destruct (n_bytes n) as [|z l] eqn:Ee; [done|]. rewrite <- Ee in *.
    exists d, b'. unfold BlockChain.hdr. rewrite Hx. split; [done|]. split; [done|]. split; [congruence|done].
Qed.

(** What [isKnown] says of a hash. *)
Definition known (current : bool) (h : bytes) : bool :=
  match T !! h with
  | Some n => bool_decide (h = m_genesisHash G) || negb current || (m_number (n_header n) <=? m_lastBlockNumber b0)
  | None => false
  end.
Lemma isKnown_runs h c b : unmoved b -> runs (BlockChain.isKnown G h c) b (fun k b' => k = known c h /\ unmoved b').
Proof.
  intros U. pose proof (core b U) as Hc. pose proof (c_store _ _ _ _ _ (u_ok _ _ _ _ _ _ U)) as [S1 S2 S3 S4 S5 S6].
  unfold BlockChain.isKnown, known. case_bool_decide as Hg.
  { destruct (t_genesis _ _ _ Hc) as (g & Hg' & _). rewrite Hg, Hg'. by apply bc_ret. }
  apply bc_get. destruct (T !! h) as [n|] eqn:Hn.
  - assert (n_bytes n <> []) as Hne.
    { destruct (n_alone _ _ (t_node _ _ _ Hc _ _ Hn)) as (d & Hx & _). by intros E; rewrite E in Hx. }
    assert (match BlockChain.m_blocks b !! h with Some _ => false | None => bool_decide (Get (m_blocksDB b) (BlockChain.toSlice h 0) = []) end = false) as ->.
    { destruct (BlockChain.m_blocks b !! h); [done|]. rewrite S1, Hn by done. by apply bool_decide_false. }
    assert (match BlockChain.m_details b !! h with Some _ => false
            | None => bool_decide (Get (m_extrasDB b) (BlockChain.toSlice h BlockChain.ExtraDetails) = []) end = false) as ->.
    { destruct (BlockChain.m_details b !! h); [done|]. rewrite S3, Hn. apply bool_decide_false, ChainStore.stored_not_nil.
      apply ChainStore.do_fits, (n_details _ _ (t_node _ _ _ Hc _ _ Hn)). }
    destruct c; cbn [negb orb]; [|by apply bc_ret]. eapply bc_bind; [by apply details_known|]. intros d b' [-> U']. apply bc_ret.
    split; [|done]. cbn [details_of number]. by rewrite (u_number _ _ _ _ _ _ U).
  - destruct (BlockChain.m_blocks b !! h) as [d|] eqn:Ed; [destruct (S2 _ _ Ed) as (_ & n & Hn' & _); congruence|].
    rewrite S1, Hn by done. by apply bc_ret.
Qed.

(** ** Kin *)

(** The hashes of the uncles of a block. *)
Definition uncles_in (d : bytes) : result exn (list bytes) :=
  let! r := make d VeryStrict in
  let! x := nth r 2 in
  for_each (List.length x) x (fun i => Ok i).
Definition uncles_of (h : bytes) : list bytes :=
  match T !! h with Some n => match uncles_in (n_bytes n) with Ok l => map sha3 l | Err _ => [] end | None => [] end.
(** The uncles of every block can be read. *)
Definition readable : Prop := forall h n, T !! h = Some n -> exists l, uncles_in (n_bytes n) = Ok l.

(** The ancestors of a block for [k] generations, and the uncles below each of them; the
    block [n] itself. *)
Definition relatives (k : nat) (p : bytes) (n : node) (x : bytes) : Prop :=
  exists i, (i < k)%nat /\ Z.of_nat i < m_number (n_header n) /\ (x = up T (S i) p \/ x ∈ uncles_of (up T i p)).

Hypothesis Hreadable : readable.

Lemma uncleHashes_known h n b : unmoved b -> T !! h = Some n ->
  runs (BlockChain.uncleHashes params G h) b (fun l b' => l = uncles_of h /\ unmoved b').
Proof.
  intros U Hn. unfold BlockChain.uncleHashes. eapply bc_bind; [by apply block_known|]. intros d b' [-> U'].
  unfold uncles_of. rewrite Hn. destruct (Hreadable h n Hn) as [l Hl]. rewrite Hl. unfold BlockChain.items_of_block.
  unfold uncles_in in Hl. apply result_bind_Ok in Hl as (r & Hr & Hl). apply result_bind_Ok in Hl as (x & Hx & Hl).
  exists (map sha3 l), b'. unfold mbind, BlockChain.rlp, mlift. by rewrite Hr, Hx, Hl.
Qed.
Lemma relatives_S k p n q x : T !! p = Some n -> T !! m_parentHash (n_header n) = Some q -> m_number (n_header n) = m_number (n_header q) + 1 ->
  0 <= m_number (n_header q) ->
  relatives (S k) p n x <-> x ∈ uncles_of p \/ x = m_parentHash (n_header n) \/ relatives k (m_parentHash (n_header n)) q x.
Proof.
  intros Hn Hq Hnum H0. assert (forall i, up T (S i) p = up T i (m_parentHash (n_header n))) as Hup by (intros i; cbn [up]; by rewrite (parent_of_Some T p n Hn)).
  split.
  - intros ([|i] & Hi & Hlt & Hx); [destruct Hx as [->|Hx]; [right; left; apply (Hup 0%nat)|by left]|].
    right. right. exists i. split; [lia|]. split; [lia|]. by rewrite <- !Hup.
  - intros [Hx|[->|(i & Hi & Hlt & Hx)]].
    + exists 0%nat. split; [lia|]. split; [lia|]. by right.
    + exists 0%nat. split; [lia|]. split; [lia|]. left. symmetry. apply (Hup 0%nat).
    + exists (S i). split; [lia|]. split; [lia|]. by rewrite !Hup.
Qed.
Lemma allKin_runs k : forall p n ret b, unmoved b -> T !! p = Some n ->
  runs (BlockChain.allKin_loop params G k p ret) b (fun r b' => (forall x, x ∈ r <-> x ∈ ret \/ relatives k p n x) /\ unmoved b').
Proof.
  induction k as [|k IH]; intros p n ret b U Hn; cbn [BlockChain.allKin_loop].
  { apply bc_ret. split; [|done]. intros x. split; [auto|]. intros [|(i & Hi & _)]; [done|lia]. }
  pose proof (core b U) as Hc. case_bool_decide as Hg.
  - apply bc_ret. split; [|done]. apply (number_0 params G T Hc p n Hn) in Hg. intros x. split; [auto|]. intros [|(i & Hi & Hlt & _)]; [done|lia].
  - eapply bc_bind; [by apply details_known|]. intros d b1 [-> U1]. eapply bc_bind; [by apply (uncleHashes_known p n)|]. intros us b2 [-> U2].
    eapply bc_bind; [by apply details_known|]. intros d b3 [-> U3]. cbn [details_of parent].
    destruct (t_parent _ _ _ Hc p n Hn Hg) as (q & Hq & Hnum & _). eapply runs_mono; [by apply (IH _ q)|].
    intros r b' [Hr U']. split; [|done]. intros x. rewrite Hr, !elem_of_union, elem_of_list_to_set, elem_of_singleton.
    rewrite (relatives_S k p n q) by (try done; apply (t_node _ _ _ Hc _ _ Hq)). tauto.
Qed.
(** [allKinFrom]: a block with its relatives. *)
Definition kin (k : nat) (p : bytes) (n : node) (x : bytes) : Prop := x = p \/ relatives k p n x.
Lemma allKinFrom_runs g p n b : unmoved b -> T !! p = Some n ->
  runs (BlockChain.allKinFrom params G p g) b (fun r b' => (forall x, x ∈ r <-> kin (Z.to_nat g) p n x) /\ unmoved b').
Proof.
  intros U Hn. eapply runs_mono; [by apply (allKin_runs _ p n)|]. intros r b' [Hr U']. split; [|done]. intros x. by rewrite Hr, elem_of_singleton.
Qed.

(** ** Programs that only read *)

(** The site is as it was but for the caches of the chain. *)
Record alike s s' : Prop := { a_block : s_block s' = s_block s; a_sizes : s_sizes s' = s_sizes s; a_steady : steady s' }.
Definition quietly {A} (m : KM A) s (Q : A -> Prop) : Prop := exists a s', m s = (Ok a, s') /\ Q a /\ alike s s'.
Lemma quietly_bind {A B} (m : KM A) (k : A -> KM B) s Q R : quietly m s Q ->
  (forall a s', Q a -> alike s s' -> quietly (k a) s' R) -> quietly (mbind m k) s R.
Proof.
  intros (a & s1 & E & HQ & [A1 A2 A3]) Hk. destruct (Hk a s1 HQ ltac:(by split)) as (x & s2 & E2 & HR & [B1 B2 B3]).
  exists x, s2. unfold mbind. rewrite E. split; [done|]. split; [done|]. split; [congruence|congruence|done].
Qed.
Lemma quietly_ret {A} (a : A) s (Q : A -> Prop) : steady s -> Q a -> quietly (mret a) s Q.
Proof. intros Hs HQ. by exists a, s. Qed.
Lemma quietly_get {A B} (f : Block (L := L) -> A) (k : A -> KM B) s R : quietly (k (f (s_block s))) s R -> quietly (mbind (get f) k) s R.
Proof. done. Qed.
Lemma quietly_lift {E A B} (w : E -> block_exn) (r : result E A) x (k : A -> KM B) s R : r = Ok x -> quietly (k x) s R -> quietly (mbind (lift w r) k) s R.
Proof. by intros ->. Qed.
Lemma quietly_ch {A B} (m : BM A) (k : A -> KM B) s (Q : A -> Prop) R : runs m (s_bc s) (fun a b' => Q a /\ unmoved b') ->
  (forall a s', Q a -> alike s s' -> quietly (k a) s' R) -> quietly (mbind (ch m) k) s R.
Proof.
  intros (a & b' & E & HQ & U) Hk. eapply quietly_bind; [|exact Hk]. exists a, {| s_block := s_block s; s_bc := b'; s_sizes := s_sizes s |}.
  unfold ch. by rewrite E.
Qed.
(** A program that reads has one outcome. *)
Lemma quietly_Ok {A} (m : KM A) s Q a s' : quietly m s Q -> m s = (Ok a, s') -> Q a /\ alike s s'.
Proof. intros (x & s1 & E & HQ & Ha) E'. rewrite E in E'. by injection E' as -> ->. Qed.
Lemma runs_Ok {A} (m : BM A) s Q a s' : runs m (s_bc s) (fun x b' => Q x /\ unmoved b') -> ch m s = (Ok a, s') -> Q a /\ alike s s'.
Proof. intros (x & b' & E & HQ & U). unfold ch. rewrite E. intros [= -> <-]. done. Qed.
Lemma lift_Ok {E A} (w : E -> block_exn) (r : result E A) s a s' : lift (L := L) w r s = (Ok a, s') -> r = Ok a /\ s' = s.
Proof. unfold lift, mlift. destruct r; [intros [= -> ->]; done|done]. Qed.

Lemma alike_trans s1 s2 s3 : alike s1 s2 -> alike s2 s3 -> alike s1 s3.
Proof. intros [A1 A2 A3] [B1 B2 B3]. split; [congruence|congruence|done]. Qed.

Lemma uncle_parent_runs k : forall h n s, steady s -> T !! h = Some n -> Z.of_nat k <= m_number (n_header n) ->
  quietly (uncle_parent k h) s (fun x => x = up T k h).
Proof.
  induction k as [|k IH]; intros h n s Hs Hn Hk; cbn [uncle_parent]; [by apply quietly_ret|].
  pose proof (core _ Hs) as Hc. assert (h <> m_genesisHash G) as Hg by (intros E; apply (number_0 params G T Hc h n Hn) in E; lia).
  destruct (t_parent _ _ _ Hc h n Hn Hg) as (q & Hq & Hnum & _).
  eapply quietly_ch; [by apply details_known|]. intros d s' -> [_ _ Hs']. cbn [details_of parent up]. rewrite (parent_of_Some T h n Hn).
  apply (IH _ q); [done|done|lia].
Qed.

(** ** Valid uncles *)

(** A header [u] with the bytes [i]: its parent is the ancestor of the block [bi], at most
    six generations above its parent. *)
Definition valid_uncle (bi : BlockHeader) (excluded : bytes -> Prop) (i : bytes) (u : BlockHeader) : Prop :=
  ~ excluded (sha3 i) /\ make_header i HeaderData (sha3 i) = Ok u /\
  exists k p, 1 <= Z.of_nat k <= 6 /\ m_number bi - m_number u = Z.of_nat k /\ m_parentHash u = up T k (m_parentHash bi) /\
    T !! m_parentHash u = Some p /\ BlockHeader.m_timestamp (n_header p) < BlockHeader.m_timestamp u.
(** A list of them, each named once. *)
Fixpoint valid_uncles (bi : BlockHeader) (excluded : bytes -> Prop) (l : list bytes) (us : list BlockHeader) : Prop :=
  match l, us with
  | [], [] => True
  | i :: l', u :: us' => valid_uncle bi excluded i u /\ valid_uncles bi (fun x => x = sha3 i \/ excluded x) l' us'
  | _, _ => False
  end.

(** The blocks have times. *)
Definition timed : Prop := forall h n, T !! h = Some n -> BlockHeader.to_bool (n_header n) = true.
Hypothesis Htimed : timed.

Lemma verify_child u h p : node_ok h p -> BlockHeader.to_bool (n_header p) = true -> m_parentHash u = h ->
  BlockHeader.verify CheckNothingNew (n_header p) [] u = Ok tt <->
  m_number u = m_number (n_header p) + 1 /\ BlockHeader.m_timestamp (n_header p) < BlockHeader.m_timestamp u.
Proof.
  intros [_ _ Hz Hh _ _ _ Hnum _ _] Ht Hp. unfold BlockHeader.verify. rewrite (bool_decide_true (CheckNothingNew = CheckNothingNew)) by done. cbn [negb andb].
  rewrite Ht, Hp, Hz. unfold BlockHeader.hash. cbn [BlockHeader.memo]. rewrite Hh, Hz. cbn [fst result_bind]. rewrite bool_decide_true by done. cbn [result_bind].
  rewrite (wrap_small 256) by (unfold uint_ok; lia).
  destruct (m_number u >? 2 ^ 32 - 1) eqn:E1; [apply Z.gtb_lt in E1; split; [done|lia]|].
  destruct (BlockHeader.m_timestamp u <=? BlockHeader.m_timestamp (n_header p)) eqn:E2; [apply Z.leb_le in E2; split; [done|lia]|].
  apply Z.leb_gt in E2. destruct (Z.eqb_spec (m_number u) (m_number (n_header p) + 1)) as [E3|E3]; cbn; [done|]. split; [done|lia].
Qed.

Section Checking.
Variables (bi : BlockHeader) (pn : node).
Hypothesis Hpn : T !! m_parentHash bi = Some pn.
Hypothesis Hbi : m_number bi = m_number (n_header pn) + 1.

Lemma known_true h : known true h = true -> exists n, T !! h = Some n.
Proof. unfold known. destruct (T !! h); [eauto|done]. Qed.
Lemma made h n : tree_core params G T -> T !! h = Some n ->
  make_header (n_bytes n) BlockData (FixedHash.zero 32) = Ok (n_header n) /\ fst (BlockHeader.hash WithSeal (n_header n)) = Ok h.
Proof.
  intros Hc Hn. destruct (t_node _ _ _ Hc _ _ Hn) as [_ _ Hz Hh Hm _ _ _ _ _]. split; [done|].
  unfold BlockHeader.hash. cbn [BlockHeader.memo]. by rewrite Hh, Hz.
Qed.
(** The ancestor that must be the parent of an uncle. *)
Lemma grandparent_up k : tree_core params G T -> 1 <= Z.of_nat k <= m_number (n_header pn) ->
  exists g, T !! m_parentHash (n_header pn) = Some g /\ Z.of_nat (k - 1) <= m_number (n_header g) /\ up T (k - 1) (m_parentHash (n_header pn)) = up T k (m_parentHash bi).
Proof.
  intros Hc Hk. assert (m_parentHash bi <> m_genesisHash G) as Hg by (intros E; apply (number_0 params G T Hc _ pn Hpn) in E; lia).
  destruct (t_parent _ _ _ Hc _ pn Hpn Hg) as (g & Hq & Hnum & _). exists g. split; [done|]. split; [lia|].
  destruct k as [|k]; [lia|]. cbn [up]. rewrite (parent_of_Some T _ pn Hpn). by rewrite Nat.sub_succ, Nat.sub_0_r.
Qed.

Lemma check_uncle_sound i ex u h s s' : steady s -> m_currentBlock (s_block s) = bi -> check_uncle params G i ex s = (Ok (u, h), s') ->
  h = sha3 i /\ valid_uncle bi (fun x => x ∈ ex) i u /\ alike s s'.
Proof.
  intros Hs Hcur E. pose proof (core _ Hs) as Hc. unfold check_uncle in E. case_bool_decide as Hex; [done|].
  apply bind_inv in E as (u' & s1 & E1 & E). apply lift_Ok in E1 as [Hmk ->].
  apply bind_inv in E as (k & s1 & E1 & E). apply runs_Ok with (Q := fun k => k = known true (m_parentHash u')) in E1 as [-> A1]; [|by apply isKnown_runs].
  destruct (known true (m_parentHash u')) eqn:Hk; [|done]. cbn [negb] in E. destruct (known_true _ Hk) as (p & Hp). destruct (made _ p Hc Hp) as [Hmade Hhash].
  apply bind_inv in E as (d & s2 & E2 & E). apply runs_Ok with (Q := fun d => d = n_bytes p) in E2 as [-> A2]; [|apply block_known; [apply (a_steady _ _ A1)|done]].
  apply bind_inv in E as (p' & s3 & E3 & E). apply lift_Ok in E3 as [Hp' ->]. rewrite Hmade in Hp'. injection Hp' as <-.
  apply bind_inv in E as (c & s3 & E3 & E). injection E3 as <- <-.
  rewrite (a_block _ _ A2), (a_block _ _ A1), Hcur in E.
  destruct (m_number bi - m_number u' >? 6) eqn:H6; [done|]. destruct (m_number bi - m_number u' <? 1) eqn:H1; [done|].
  apply bind_inv in E as (d & s3 & E3 & E). apply runs_Ok with (Q := fun d => d = details_of pn) in E3 as [-> A3];
    [|apply details_known; [apply (a_steady _ _ A2)|done]].
  apply bind_inv in E as (e & s4 & E4 & E). apply bind_inv in E as (ph & s5 & E5 & E). apply lift_Ok in E5 as [Eph ->]. rewrite Hhash in Eph. injection Eph as <-.
  case_bool_decide as Hexp; [|done]. cbn [negb] in E. apply bind_inv in E as ([] & s5 & E5 & E). apply lift_Ok in E5 as [Hv ->].
  injection E as <- <- <-. apply (verify_child u' (m_parentHash u') p (t_node _ _ _ Hc _ _ Hp) (Htimed _ _ Hp) eq_refl) in Hv as [Hnum Hts].
  pose proof (n_number _ _ (t_node _ _ _ Hc _ _ Hp)) as Hpos. set (k := Z.to_nat (m_number bi - m_number u')) in *.
  destruct (grandparent_up k Hc ltac:(lia)) as (g & Hg & Hkg & Hup).
  destruct (quietly_Ok _ _ _ _ _ (uncle_parent_runs (Z.to_nat (m_number bi - m_number u' - 1)) (parent (details_of pn)) g s3 (a_steady _ _ A3) Hg ltac:(lia)) E4) as [He A4].
  split; [done|]. split; [|eauto using alike_trans]. split; [done|]. split; [done|]. exists k, p. split; [lia|]. split; [lia|]. split; [|done].
  rewrite <- Hup, <- Hexp, He. cbn [details_of parent]. f_equal. lia.
Qed.

Lemma check_uncle_complete i ex u s : steady s -> m_currentBlock (s_block s) = bi -> valid_uncle bi (fun x => x ∈ ex) i u ->
  m_number bi - m_number u < m_number bi -> m_number u - 1 <= m_lastBlockNumber b0 ->
  quietly (check_uncle params G i ex) s (fun r => r = (u, sha3 i)).
Proof.
  intros Hs Hcur (Hex & Hmk & k & p & Hk & Hd & Hpar & Hp & Hts) Hpos Hhead. pose proof (core _ Hs) as Hc. unfold check_uncle.
  rewrite bool_decide_false by done. eapply quietly_lift; [done|]. cbn beta.
  destruct (grandparent_up k Hc ltac:(lia)) as (g & Hg & Hkg & Hup). destruct (made _ p Hc Hp) as [Hmade Hhash].
  destruct (up_node params G T Hc k (m_parentHash bi) pn Hpn ltac:(lia)) as (p' & Hp' & Hnum). rewrite <- Hpar, Hp in Hp'. injection Hp' as <-.
  eapply quietly_ch; [by apply isKnown_runs|]. intros x s1 -> A1. unfold known. rewrite Hp. replace (m_number (n_header p) <=? m_lastBlockNumber b0) with true by lia.
  rewrite !orb_true_r. cbn [negb]. eapply quietly_ch; [apply block_known; [apply A1|done]|]. intros x s2 -> A2. eapply quietly_lift; [done|]. apply quietly_get.
  rewrite (a_block _ _ A2), (a_block _ _ A1), Hcur, Hd. destruct (Z.of_nat k >? 6) eqn:E6; [lia|]. destruct (Z.of_nat k <? 1) eqn:E1; [lia|].
  eapply quietly_ch; [apply details_known; [apply A2|done]|]. intros x s3 -> A3.
  eapply quietly_bind; [apply (uncle_parent_runs _ _ g); [apply A3|done|lia]|]. intros x s4 -> A4. eapply quietly_lift; [done|].
  rewrite bool_decide_true; [|rewrite Hpar, <- Hup; cbn [details_of parent]; f_equal; lia]. cbn [negb].
  eapply quietly_lift; [apply (verify_child u _ p (t_node _ _ _ Hc _ _ Hp) (Htimed _ _ Hp) eq_refl); split; [lia|done]|].
  apply quietly_ret; [apply A4|done].
Qed.

(** *** Lists of uncles *)

Lemma valid_uncle_ext (P Q : bytes -> Prop) i u : (forall x, P x <-> Q x) -> valid_uncle bi P i u -> valid_uncle bi Q i u.
Proof. intros HPQ (Hn & Hrest). split; [by intros Hq%HPQ|done]. Qed.
Lemma valid_uncles_ext l : forall (P Q : bytes -> Prop) us, (forall x, P x <-> Q x) -> valid_uncles bi P l us -> valid_uncles bi Q l us.
Proof.
  induction l as [|i l IH]; intros P Q [|u us] HPQ; cbn; [done..|]. intros [Hu Hl]. split; [by eapply valid_uncle_ext|].
  eapply IH; [|exact Hl]. intros x. specialize (HPQ x). tauto.
Qed.
Lemma valid_uncles_snoc l : forall (P : bytes -> Prop) us i u, valid_uncles bi P l us ->
  valid_uncle bi (fun x => x ∈ map sha3 l \/ P x) i u -> valid_uncles bi P (l ++ [i]) (us ++ [u]).
Proof.
  induction l as [|j l IH]; intros P [|v us] i u; cbn; [|done..|].
  - intros _ Hu. split; [|done]. eapply valid_uncle_ext; [|exact Hu]. intros x. split; [intros [Hx|]; [by apply not_elem_of_nil in Hx|done]|by right].
  - intros [Hv Hl] Hu. split; [done|]. apply IH; [done|]. eapply valid_uncle_ext; [|exact Hu]. intros x. cbn [map]. rewrite elem_of_cons. tauto.
Qed.
(** What else must not be an uncle. *)
Lemma valid_uncles_more l : forall (P Q : bytes -> Prop) us, valid_uncles bi P l us -> Forall (fun i => ~ Q (sha3 i)) l -> valid_uncles bi (fun x => Q x \/ P x) l us.
Proof.
  induction l as [|i l IH]; intros P Q [|u us]; cbn; [done..|]. intros [(Hn & Hu) Hl] [Hq HF]%Forall_cons. split; [split; [tauto|done]|].
  eapply valid_uncles_ext; [|apply (IH _ Q _ Hl HF)]. intros x. cbn. tauto.
Qed.

Lemma check_uncles_sound l : forall ex us s s', steady s -> m_currentBlock (s_block s) = bi -> check_uncles params G l ex s = (Ok us, s') ->
  valid_uncles bi (fun x => x ∈ ex) l us /\ alike s s'.
Proof.
  induction l as [|i l IH]; intros ex us s s' Hs Hcur E; cbn [check_uncles] in E; [by injection E as <- <-|].
  apply bind_inv in E as ([u h] & s1 & E1 & E). destruct (check_uncle_sound i ex u h s s1 Hs Hcur E1) as (-> & Hu & A1).
  apply bind_inv in E as (us' & s2 & E2 & E). injection E as <- <-.
  destruct (IH _ _ _ _ (a_steady _ _ A1) ltac:(by rewrite (a_block _ _ A1)) E2) as [Hl A2]. split; [|by eapply alike_trans].
  split; [done|]. eapply valid_uncles_ext; [|exact Hl]. intros x. rewrite elem_of_union, elem_of_singleton. done.
Qed.
Lemma check_uncles_complete l : forall ex us s, steady s -> m_currentBlock (s_block s) = bi -> valid_uncles bi (fun x => x ∈ ex) l us ->
  Forall (fun u => 1 <= m_number u <= m_lastBlockNumber b0 + 1) us -> quietly (check_uncles params G l ex) s (fun r => r = us).
Proof.
  induction l as [|i l IH]; intros ex [|u us] s Hs Hcur; cbn [check_uncles valid_uncles]; [by intros; apply quietly_ret|done..|].
  intros [Hu Hl] [Hn HF]%Forall_cons. eapply quietly_bind; [apply (check_uncle_complete i ex u); [done..|lia|lia]|].
  intros r s1 -> A1. eapply quietly_bind; [apply (IH _ us); [apply A1|by rewrite (a_block _ _ A1)| |done]|].
  - eapply valid_uncles_ext; [|exact Hl]. intros x. rewrite elem_of_union, elem_of_singleton. done.
  - intros r s2 -> A2. apply quietly_ret; [apply A2|done].
Qed.

(** An uncle whose parent has a number above the head's is refused as if its parent
    were missing. *)
Lemma check_uncle_above i ex u s p : steady s -> bool_decide (sha3 i ∈ ex) = false -> make_header i HeaderData (sha3 i) = Ok u ->
  T !! m_parentHash u = Some p -> m_lastBlockNumber b0 < m_number (n_header p) ->
  exists s', check_uncle params G i ex s = (Err UnknownParent, s') /\ alike s s'.
Proof.
  intros Hs Hex Hmk Hp Hhead. pose proof (core _ Hs) as Hc. unfold check_uncle. rewrite Hex. unfold lift at 1, mlift at 1, mbind at 1. rewrite Hmk.
  destruct (isKnown_runs (m_parentHash u) true _ Hs) as (k & b' & E & -> & U). unfold mbind at 1, ch at 1. rewrite E. unfold known. rewrite Hp.
  assert (m_parentHash u <> m_genesisHash G) as Hg.
  { intros Eg. apply (number_0 params G T Hc _ p Hp) in Eg. destruct (c_head _ _ _ _ _ (u_ok _ _ _ _ _ _ Hs)) as (n & Hn & En & _).
    rewrite (u_number _ _ _ _ _ _ Hs) in En. pose proof (n_number _ _ (t_node _ _ _ Hc _ _ Hn)). lia. }
  rewrite bool_decide_false by done. replace (m_number (n_header p) <=? m_lastBlockNumber b0) with false by lia. cbn [orb negb].
  eexists. split; [reflexivity|]. done.
Qed.

(** *** Finding uncles *)

(** Blocks are younger than their parents. *)
Definition aged : Prop := forall h n p, T !! h = Some n -> h <> m_genesisHash G -> T !! m_parentHash (n_header n) = Some p ->
  BlockHeader.m_timestamp (n_header p) < BlockHeader.m_timestamp (n_header n).
Hypothesis Haged : aged.

Record finding (ex : gset bytes) (found : list (BlockHeader * bytes)) : Prop := {
  g_length : (List.length found <= 2)%nat;
  g_valid : valid_uncles bi (kin 6 (m_parentHash bi) pn) (map snd found) (map fst found);
  g_excluded : (List.length found < 2)%nat -> forall x, x ∈ ex <-> x ∈ map sha3 (map snd found) \/ kin 6 (m_parentHash bi) pn x;
  g_numbers : Forall (fun u => 1 <= m_number u <= m_number (n_header pn)) (map fst found);
  g_known : Forall (fun d => is_Some (T !! sha3 d)) (map snd found)
}.

Lemma gather_runs k q us : (1 <= k <= 6)%nat -> Z.of_nat k <= m_number (n_header pn) -> T !! up T k (m_parentHash bi) = Some q ->
  (forall u, u ∈ us -> u ∈ n_children q) -> tree_ok params G T ->
  forall ex found s, steady s -> (List.length found < 2)%nat -> finding ex found ->
  quietly (gather_uncles params G us ex found) s (fun r => finding r.1 r.2).
Proof.
  intros Hk Hkn Hq Hus HT. pose proof (t_core _ _ _ HT) as Hc. induction us as [|u us IH]; intros ex found s Hs Hlen Hf; cbn [gather_uncles]; [by apply quietly_ret|].
  assert (forall v, v ∈ us -> v ∈ n_children q) as Hus' by (intros v Hv; apply Hus; by right). case_bool_decide as Hex; [by apply IH|].
  destruct (t_children _ _ _ HT _ _ u Hq (Hus u (list_elem_of_here _ _))) as (m & Hm & Hg & Hpar).
  eapply quietly_ch; [by apply info_known|]. intros i s1 -> A1. eapply quietly_ch.
  { eapply runs_mono; [apply headerData_known; [apply A1|exact Hm]|]. intros d b' (H1 & H2 & H3). exact (conj (conj H1 H2) H3). }
  intros d s2 [Hmk Hd] A2. cbn beta zeta. destruct (alone_hash _ _ Hmk) as [_ Hmk'].
  destruct (up_node params G T Hc k _ pn Hpn Hkn) as (q' & Hq' & Hnum). rewrite Hq in Hq'. injection Hq' as <-.
  destruct (t_parent _ _ _ Hc u m Hm Hg) as (q' & Hq' & Hmn & _). rewrite Hpar, Hq in Hq'. injection Hq' as <-.
  assert (finding ({[u]} ∪ ex) (found ++ [(n_header m, d)])) as Hf'.
  { destruct Hf as [F1 F2 F3 F4 F5]. split.
    - rewrite length_app. cbn. lia.
    - rewrite !map_app. apply valid_uncles_snoc; [done|]. cbn [map fst snd]. split; [rewrite <- (F3 Hlen), Hd; done|]. split; [done|].
      exists k, q. split; [lia|]. split; [lia|]. rewrite Hpar. split; [done|]. split; [done|]. apply (Haged u m q); [done|done|by rewrite Hpar].
    - intros _ x. rewrite !map_app, elem_of_union, elem_of_singleton, (F3 Hlen), elem_of_app. cbn [map snd]. rewrite list_elem_of_singleton, Hd. tauto.
    - rewrite map_app. apply Forall_app. split; [done|]. cbn. constructor; [|done]. pose proof (n_number _ _ (t_node _ _ _ Hc _ _ Hq)). lia.
    - rewrite map_app. apply Forall_app. split; [done|]. cbn. constructor; [|done]. rewrite Hd. eauto. }
  destruct (zlen (found ++ [(n_header m, d)]) =? 2) eqn:E2.
  - apply quietly_ret; [apply A2|]. destruct Hf' as [F1 F2 F3 F4 F5]. split; [done..| |done|done]. intros Hl. apply Z.eqb_eq in E2. cbn [fst snd] in Hl. lia.
  - apply IH; [done|apply A2| |done]. apply Z.eqb_neq in E2. pose proof (g_length _ _ Hf') as Hl. lia.
Qed.

Lemma generations_runs n : forall j ex found s, steady s -> (j + n = 6)%nat -> Z.of_nat (S j) <= m_number (n_header pn) -> finding ex found ->
  quietly (generations params G n (up T (S j) (m_parentHash bi)) ex found) s (fun r => exists ex', finding ex' r).
Proof.
  induction n as [|n IH]; intros j ex found s Hs Hj Hjn Hf; cbn [generations]; [apply quietly_ret; eauto|].
  destruct (bool_decide (up T (S j) (m_parentHash bi) = m_genesisHash G) || negb (zlen found <? 2)) eqn:E; [apply quietly_ret; eauto|].
  apply orb_false_iff in E as [Eg El]. apply bool_decide_eq_false in Eg. apply negb_false_iff, Z.ltb_lt in El.
  pose proof (c_tree _ _ _ _ _ (u_ok _ _ _ _ _ _ Hs)) as HT. pose proof (core _ Hs) as Hc.
  destruct (up_node params G T Hc (S j) _ pn Hpn Hjn) as (q & Hq & Hnum).
  destruct (up_node params G T Hc j _ pn Hpn ltac:(lia)) as (c & Hcn & Hcnum).
  eapply quietly_ch; [by apply details_known|]. intros d s1 -> A1. cbn [details_of children].
  assert (up T j (m_parentHash bi) ∈ n_children q) as Hchild.
  { apply (t_child _ _ _ HT _ c); [done| |].
    - intros E. apply (number_0 params G T Hc _ c Hcn) in E. lia.
    - rewrite <- (parent_of_Some T _ c Hcn). by rewrite <- (up_S T). }
  destruct (n_children q) as [|u us] eqn:Eq; [by apply not_elem_of_nil in Hchild|]. rewrite <- Eq in *.
  eapply quietly_bind; [apply (gather_runs (S j) q); [lia|done|done|done|done|apply A1|lia|done]|].
  intros [ex' found'] s2 Hf' A2. cbn [fst snd] in Hf'. eapply quietly_ch; [apply details_known; [apply A2|done]|]. intros d s3 -> A3.
  cbn [details_of parent]. rewrite <- (parent_of_Some T _ q Hq), <- (up_S T).
  destruct n as [|n']; [cbn [generations]; apply quietly_ret; [apply A3|eauto]|].
  apply IH; [apply A3|lia| |done]. rewrite <- (number_0 params G T Hc _ q Hq) in Eg.
  pose proof (n_number _ _ (t_node _ _ _ Hc _ _ Hq)). lia.
Qed.

Lemma find_uncles_runs s : steady s -> m_currentBlock (s_block s) = bi -> m_number (m_previousBlock (s_block s)) = m_number (n_header pn) ->
  m_parentHash (m_previousBlock (s_block s)) = m_parentHash (n_header pn) ->
  quietly (find_uncles params G) s (fun found => (List.length found <= 2)%nat /\
    valid_uncles bi (kin 6 (m_parentHash bi) pn) (map snd found) (map fst found) /\
    Forall (fun u => 1 <= m_number u <= m_number (n_header pn)) (map fst found) /\ Forall (fun d => is_Some (T !! sha3 d)) (map snd found)).
Proof.
  intros Hs Hcur Hnum Hpar. pose proof (core _ Hs) as Hc. unfold find_uncles. apply quietly_get. rewrite Hnum, Hpar, Hcur.
  destruct (m_number (n_header pn) =? 0) eqn:E0.
  { apply quietly_ret; [done|]. split; [cbn; lia|]. split; [done|]. split; by constructor. }
  apply Z.eqb_neq in E0.
  pose proof (n_number _ _ (t_node _ _ _ Hc _ _ Hpn)). eapply quietly_ch; [by apply (allKinFrom_runs 6 _ pn)|]. intros ex s1 Hex A1.
  rewrite <- (parent_of_Some T _ pn Hpn). change (parent_of T (m_parentHash bi)) with (up T 1 (m_parentHash bi)).
  destruct (generations_runs 6 0 ex [] s1) as (found & s2 & E & (ex' & [F1 F2 F3 F4 F5]) & A2); [apply A1|done|lia| |by exists found, s2].
  split; [cbn; lia|done| |by constructor|by constructor]. intros _ x. cbn beta in Hex. split; [intros Hx%Hex; by right|]. intros [Hx|Hx]; [by apply not_elem_of_nil in Hx|by apply Hex].
Qed.

End Checking.

(** Validity does not depend on the rest of the header. *)
Lemma valid_uncles_same (bi bi' : BlockHeader) l : m_parentHash bi' = m_parentHash bi -> m_number bi' = m_number bi ->
  forall (P : bytes -> Prop) us, valid_uncles bi P l us -> valid_uncles bi' P l us.
Proof.
  intros Ep En. induction l as [|i l IH]; intros P [|u us]; cbn; [done..|]. intros [Hu Hl]. split; [|by apply IH].
  unfold valid_uncle in *. by rewrite Ep, En.
Qed.

(** Valid uncles are accepted. *)
Lemma enact_uncles_complete bi pn l us s h x : steady s -> m_currentBlock (s_block s) = bi -> BlockHeader.hash WithSeal bi = (Ok h, x) ->
  T !! m_parentHash bi = Some pn -> m_number bi = m_number (n_header pn) + 1 ->
  valid_uncles bi (fun y => y = h \/ kin 6 (m_parentHash bi) pn y) l us -> Forall (fun u => 1 <= m_number u <= m_lastBlockNumber b0 + 1) us ->
  exists s', enact_uncles params G l s = (Ok us, s').
Proof.
  intros Hs Hcur Hh Hpn Hnum Hv HF. unfold enact_uncles.
  destruct (allKinFrom_runs 6 (m_parentHash bi) pn (s_bc s) Hs Hpn) as (ex & b' & E & Hex & U).
  unfold mbind, get, mget, ch, current_hash. rewrite Hcur, E. cbn [s_block]. rewrite Hcur, Hh.
  set (s1 := with_block _ _). assert (exists w wo, x = BlockHeader.set_hashes w wo bi) as (w & wo & ->).
  { unfold BlockHeader.hash in Hh. destruct (FixedHash.to_bool _); [injection Hh as _ <-; exists (m_hash bi), (BlockHeader.m_hashWithout bi); by destruct bi|].
    destruct (BlockHeader.streamed _); [injection Hh as _ <-; cbn; eauto|done]. }
  destruct (check_uncles_complete (BlockHeader.set_hashes w wo bi) pn Hpn Hnum l ({[h]} ∪ ex) us s1) as (r & s2 & E2 & -> & _); [done|done| |done|by exists s2].
  apply (valid_uncles_same bi); [done|done|]. eapply valid_uncles_ext; [|exact Hv]. intros y. rewrite elem_of_union, elem_of_singleton. cbn beta in Hex. by rewrite Hex.
Qed.

End Uncles.
End BlockUncles.
