(* ===== verification/BlockEnact.v ===== *)
(** * BlockEnact: what a block that was enacted has been checked for

    The steps of [enact] touch little of the block beside its state; a block that it
    accepts has the receipts, the bloom, the gas and the uncles that its header claims.
    A block that was imported is in the chain, and its state in the database. *)

From stdpp Require Import base list numbers option gmap.
From Stdlib Require Import ZArith Lia.
From S2P Require Import Prelude Bytes Rlp RlpStream RlpFields Keccak MemoryDB OverlayDB TrieDB TrieHash Account State Crypto Transaction BlockHeader.
From S2P Require Import Seal Receipt Precompiled Executive TxQueue BlockChain ChainStore ChainTree ChainBlooms ChainIndex ChainProps ChainHistory.
From S2P Require Import Block BlockImport BlockReads BlockUncles.
Import CommonData RLP RLPStream RlpFields Keccak.

#[local] Opaque sha3.

Module BlockEnact.
Import BlockDetails Receipt ChainTree ChainProps ChainHistory Block BlockImport BlockReads BlockUncles.
Import BlockChain (BlockChain, bc_exn, ChainParams, Genesis, VerifiedBlockRef, vb_block, vb_info, vb_transactions, m_blocksDB, m_extrasDB, m_lastBlockHash, m_lastBlockNumber, m_genesisHash).
Import BlockHeader (BlockHeader, m_parentHash, m_number, m_difficulty, m_hash, make_header, HeaderData, BlockData, CheckNothingNew, WithSeal, set_hashes).

Section Enacting.
Context {L : Type} `{LevelDB L, !LevelDBLaws L} {C : Crypto.Secp256k1}.
Variables (params : ChainParams) (G : Genesis).
Variable precompiled : gmap bytes Precompiled.PrecompiledContract.
Variable allocated : bool.
Variable utcTime : Z.
Variable Above : Z -> Prop.
Abbreviation BC := (BlockChain (L := L)).
Abbreviation BM A := (M BC bc_exn A).
Abbreviation KM A := (M (Site (L := L)) block_exn A).
Implicit Types (b : BC) (s : Site (L := L)).

(** ** What the steps leave alone *)

(** All of the block but its state and the memos of its header. *)
Definition rest s s' : Prop := exists x w wo,
  s_block s' = set_state x (set_current (set_hashes w wo (m_currentBlock (s_block s))) (s_block s)).
Lemma header_eta h : set_hashes (m_hash h) (BlockHeader.m_hashWithout h) h = h.
Proof. by destruct h. Qed.
Lemma rest_refl s : rest s s.
Proof. exists (m_state (s_block s)), (m_hash (m_currentBlock (s_block s))), (BlockHeader.m_hashWithout (m_currentBlock (s_block s))). rewrite header_eta. by destruct (s_block s). Qed.
Lemma rest_trans s1 s2 s3 : rest s1 s2 -> rest s2 s3 -> rest s1 s3.
Proof. intros (x & w & wo & E) (x' & w' & wo' & E'). exists x', w', wo'. rewrite E', E. done. Qed.

Lemma rest_state s0 s x bc z : rest s0 s -> rest s0 {| s_block := set_state x (s_block s); s_bc := bc; s_sizes := z |}.
Proof. intros (x' & w & wo & E). exists x, w, wo. cbn [s_block]. by rewrite E. Qed.
Lemma rest_bc s0 s bc z : rest s0 s -> rest s0 {| s_block := s_block s; s_bc := bc; s_sizes := z |}.
Proof. done. Qed.

Section From.
Variable s0 : Site (L := L).
Abbreviation kept m := (preserves (rest s0) m).
Lemma ch_rest {A} (m : BM A) : kept (ch m).
Proof. intros s Hs. unfold ch. by destruct (m (s_bc s)) as [[a|e] b]; apply rest_bc. Qed.
Lemma get_rest {A} (f : Block (L := L) -> A) : kept (get f).
Proof. by intros s. Qed.
Lemma lift_rest {E A} (w : E -> block_exn) (r : result E A) : kept (lift (L := L) w r).
Proof. by intros s. Qed.
Lemma st_rest {A} (p : State.ST A) : kept (st (L := L) p).
Proof. intros s Hs. unfold st. by destruct (p _) as [[a|e] x]; apply rest_state. Qed.
Lemma world_rest {A} (p : Executive.World -> result Executive.exec_exn A * Executive.World) : kept (on_world (L := L) p).
Proof. intros s Hs. unfold on_world. by destruct (p _) as [[a|e] x]; apply rest_state. Qed.
Lemma current_rest i : kept (current_hash (L := L) i).
Proof.
  intros s Hs. unfold current_hash. destruct (BlockHeader.hash i (m_currentBlock (s_block s))) as [r x] eqn:E. cbn [snd].
  assert (exists w wo, x = set_hashes w wo (m_currentBlock (s_block s))) as (w & wo & ->).
  { unfold BlockHeader.hash in E. destruct (FixedHash.to_bool _); [injection E as _ <-; eauto using header_eta|].
    destruct (BlockHeader.streamed _); injection E as _ <-; [|eauto using header_eta]. destruct i; cbn; eauto using header_eta. }
  destruct Hs as (y & w' & wo' & Es). exists y, w, wo. cbn. rewrite Es. done.
Qed.
Lemma rootHash_rest : kept (rootHash (L := L)).
Proof. apply st_rest. Qed.
#[local] Hint Resolve ch_rest get_rest lift_rest st_rest world_rest current_rest rootHash_rest : preserves.
Lemma reward_loop_rest x n l : forall r, kept (reward_loop (L := L) x n l r).
Proof. induction l as [|i l IH]; intros r; cbn [reward_loop]; preserved. Qed.
#[local] Hint Resolve reward_loop_rest : preserves.
Lemma rewards_rest l r : kept (applyRewards (L := L) l r).
Proof. unfold applyRewards. preserved. Qed.
Lemma commit_all_rest : kept (commit_all (L := L) params).
Proof. unfold commit_all. preserved. Qed.
Lemma uncle_parent_rest n : forall h, kept (uncle_parent (L := L) n h).
Proof. induction n as [|n IH]; intros h; cbn [uncle_parent]; preserved. Qed.
#[local] Hint Resolve uncle_parent_rest : preserves.
Lemma check_uncle_rest i x : kept (check_uncle params G i x).
Proof. unfold check_uncle. preserved. Qed.
#[local] Hint Resolve check_uncle_rest : preserves.
Lemma check_uncles_rest l : forall x, kept (check_uncles params G l x).
Proof. induction l as [|i l IH]; intros x; cbn [check_uncles]; preserved. Qed.
#[local] Hint Resolve check_uncles_rest : preserves.
Lemma enact_uncles_rest l : kept (enact_uncles params G l).
Proof. unfold enact_uncles. preserved. Qed.
End From.

Lemma kept_rest {A} (m : KM A) s r s' : (forall s0, preserves (rest s0) m) -> m s = (r, s') -> rest s s'.
Proof. intros Hm E. specialize (Hm s s (rest_refl s)). by rewrite E in Hm. Qed.

(** ** Executing the transactions *)

(** [t] was executed: it is the last transaction, and [rc] the last receipt. *)
Record pushed s s' (t : list Transaction.TransactionBase) (rc : list TransactionReceipt) : Prop := {
  p_receipts : m_receipts (s_block s') = m_receipts (s_block s) ++ rc;
  p_transactions : m_transactions (s_block s') = m_transactions (s_block s) ++ t;
  p_current : m_currentBlock (s_block s') = m_currentBlock (s_block s);
  p_previous : m_previousBlock (s_block s') = m_previousBlock (s_block s)
}.
Lemma pushed_nil s s' : m_receipts (s_block s') = m_receipts (s_block s) -> m_transactions (s_block s') = m_transactions (s_block s) ->
  m_currentBlock (s_block s') = m_currentBlock (s_block s) -> m_previousBlock (s_block s') = m_previousBlock (s_block s) -> pushed s s' [] [].
Proof. intros. by split; rewrite ?app_nil_r. Qed.
Lemma pushed_trans s1 s2 s3 t1 t2 r1 r2 : pushed s1 s2 t1 r1 -> pushed s2 s3 t2 r2 -> pushed s1 s3 (t1 ++ t2) (r1 ++ r2).
Proof. intros [A1 A2 A3 A4] [B1 B2 B3 B4]. split; [rewrite B1, A1; by rewrite app_assoc|rewrite B2, A2; by rewrite app_assoc|congruence|congruence]. Qed.

Lemma uncommit_pushed s r s' : uncommitToSeal (L := L) s = (r, s') -> pushed s s' [] [].
Proof.
  unfold uncommitToSeal, get, mget. unfold mbind at 1. destruct (m_committedToSeal (s_block s)); [|intros [= <- <-]; by apply pushed_nil].
  unfold mbind, from_precommit. destruct (assign_state _ _) as [[[]|e] x]; intros [= <- <-]; by apply pushed_nil.
Qed.
Lemma world_pushed {A} (p : Executive.World -> result Executive.exec_exn A * Executive.World) s r s' : on_world (L := L) p s = (r, s') -> pushed s s' [] [].
Proof. unfold on_world. destruct (p _) as [[a|e] x]; intros [= <- <-]; by apply pushed_nil. Qed.

Lemma execute_inv t s r s' : execute params G precompiled t Executive.Committed s = (Ok r, s') -> exists rc, pushed s s' [t] [rc].
Proof.
  unfold execute. intros E. apply bind_inv in E as (d & s1 & E1 & E). injection E1 as <- <-. destruct (isSealed _); [done|].
  apply bind_inv in E as (u & s1 & E1 & E). apply uncommit_pushed in E1.
  apply bind_inv in E as (s2 & s3 & E2 & E). injection E2 as <- <-. destruct (negb _); [done|].
  apply bind_inv in E as ([res rc] & s3 & E3 & E). apply world_pushed in E3.
  apply bind_inv in E as ([] & s4 & E4 & E). injection E as _ <-. exists rc.
  apply bind_inv in E4 as ([] & s5 & E5 & E4). injection E5 as <-. apply bind_inv in E4 as (h & s6 & E6 & E4). apply lift_Ok in E6 as [_ ->].
  injection E4 as <-. pose proof (pushed_trans _ _ _ _ _ _ _ E1 E3) as [A1 A2 A3 A4]. cbn [app] in *. rewrite app_nil_r in A1, A2.
  split; cbn; by rewrite ?A1, ?A2.
Qed.
Lemma enact_transactions_inv l : forall s ds s', enact_transactions params G precompiled l s = (Ok ds, s') ->
  exists rcs, pushed s s' l rcs /\ Forall2 (fun rc d => receipt_rlp rc = Ok d) rcs ds /\ List.length rcs = List.length l.
Proof.
  induction l as [|t l IH]; intros s ds s' E; cbn [enact_transactions] in E; [injection E as <- <-; exists []; split; [by apply pushed_nil|by split]|].
  apply bind_inv in E as (r & s1 & E1 & E). apply execute_inv in E1 as (rc & P1).
  apply bind_inv in E as (o & s2 & E2 & E). injection E2 as <- <-. rewrite (p_receipts _ _ _ _ P1), last_snoc in E.
  apply bind_inv in E as (d & s2 & E2 & E). apply lift_Ok in E2 as [Hd ->].
  apply bind_inv in E as (ds' & s2 & E2 & E). injection E as <- <-. destruct (IH _ _ _ E2) as (rcs & P2 & HF & Hlen).
  exists (rc :: rcs). split; [exact (pushed_trans _ _ _ [t] l [rc] rcs P1 P2)|]. split; [by constructor|cbn; by rewrite Hlen].
Qed.

(** ** Enacting *)

Lemma after {A} (I : Site (L := L) -> Prop) (m : KM A) s r s' : preserves I m -> I s -> m s = (r, s') -> I s'.
Proof. intros Hm Hs E. specialize (Hm s Hs). by rewrite E in Hm. Qed.

Lemma enact_uncles_sound T b0 l us bi pn s s' : steady params G Above T b0 s -> readable T -> timed T -> m_currentBlock (s_block s) = bi ->
  T !! m_parentHash bi = Some pn -> m_number bi = m_number (n_header pn) + 1 -> enact_uncles params G l s = (Ok us, s') ->
  valid_uncles T bi (fun x => Ok x = fst (BlockHeader.hash WithSeal bi) \/ kin T 6 (m_parentHash bi) pn x) l us.
Proof.
  intros Hs HR HT Hcur Hpn Hnum E. unfold enact_uncles in E. apply bind_inv in E as (p & s1 & E1 & E). injection E1 as <- <-. rewrite Hcur in E.
  apply bind_inv in E as (ex & s1 & E1 & E).
  apply (runs_Ok params G Above T b0) with (Q := fun ex => forall x, x ∈ ex <-> kin T 6 (m_parentHash bi) pn x) in E1 as [Hex A1];
    [|by apply (allKinFrom_runs params G Above T b0 HR 6 _ pn)].
  apply bind_inv in E as (h & s2 & E2 & E).
  pose proof (kept_rest _ _ _ _ (fun s0 => current_rest s0 WithSeal) E2) as (x & w & wo & E3).
  pose proof (after _ _ _ _ _ (current_steady params G Above T b0 WithSeal) (a_steady _ _ _ _ _ _ _ A1) E2) as Hs2.
  assert (Ok h = fst (BlockHeader.hash WithSeal bi)) as Hh.
  { unfold current_hash in E2. rewrite (a_block _ _ _ _ _ _ _ A1), Hcur in E2. destruct (BlockHeader.hash WithSeal bi) as [[y|e] z]; [by injection E2 as <- _|done]. }
  assert (m_currentBlock (s_block s2) = set_hashes w wo bi) as Hc2.
  { rewrite E3. cbn. by rewrite (a_block _ _ _ _ _ _ _ A1), Hcur. }
  destruct (check_uncles_sound params G Above T b0 HT (set_hashes w wo bi) pn Hpn Hnum l _ us s2 s' Hs2 Hc2 E) as [Hv _].
  assert (valid_uncles T bi (fun x => x ∈ {[h]} ∪ ex) l us) as Hv'.
  { clear - Hv. revert us Hv. generalize (fun x => x ∈ ({[h]} ∪ ex : gset bytes)). induction l as [|i l IH]; intros P [|u us]; cbn; [done..|].
    intros [Hu Hl]. split; [exact Hu|by apply IH]. }
  eapply valid_uncles_ext; [|exact Hv']. intros y. rewrite elem_of_union, elem_of_singleton, Hex, <- Hh. split; intros [Hy|Hy]; auto; left; congruence.
Qed.

Lemma rootHash_inv s r s' : rootHash (L := L) s = (Ok r, s') -> TrieDB.root (State.m_state (m_state (s_block s))) = Ok r /\ s_block s' = s_block s.
Proof.
  unfold rootHash, st, Executive.rootHash, State.bind, State.get, State.of_trie. destruct (TrieDB.root _) as [x|e]; [|done].
  intros [= -> <-]. split; [done|]. cbn. by destruct (s_block s).
Qed.

(** The number of uncles of a block, as its list says. *)
Definition uncle_count (d : bytes) : result exn Z :=
  let! r := make d VeryStrict in
  let! x := nth r 2 in
  itemCount x.

(** What holds of a block that was enacted, with the parent [pn] in the tree. *)
Record enacted (T : tree) (pn : node) (vb : VerifiedBlockRef) (td : Z) s s' : Prop := {
  e_td : td = m_difficulty (vb_info vb);
  e_gas : BlockHeader.m_gasUsed (vb_info vb) = gasUsed (s_block s');
  e_bloom : BlockHeader.m_logBloom (vb_info vb) = logBloom (s_block s');
  e_transactions : m_transactions (s_block s') = m_transactions (s_block s) ++ vb_transactions vb;
  e_receipts : exists rcs ds, m_receipts (s_block s') = m_receipts (s_block s) ++ rcs /\ List.length rcs = List.length (vb_transactions vb) /\
    Forall2 (fun rc d => receipt_rlp rc = Ok d) rcs ds /\ TrieHash.orderedTrieRoot ds = Ok (BlockHeader.m_receiptsRoot (vb_info vb));
  e_uncles : exists l us n, uncles_in (vb_block vb) = Ok l /\ uncle_count (vb_block vb) = Ok n /\ n <= 2 /\
    valid_uncles T (vb_info vb) (fun x => Ok x = fst (BlockHeader.hash WithSeal (vb_info vb)) \/ kin T 6 (m_parentHash (vb_info vb)) pn x) l us;
  e_root : BlockHeader.m_stateRoot (vb_info vb) = BlockHeader.m_stateRoot (m_previousBlock (s_block s)) \/
    TrieDB.root (State.m_state (m_state (s_block s'))) = Ok (BlockHeader.m_stateRoot (vb_info vb))
}.

Lemma note_pushed s r s' : noteChain (L := L) params s = (r, s') -> pushed s s' [] [].
Proof.
  unfold noteChain, note_chain. destruct (m_sealEngine (s_block s)); [intros [= <- <-]; by apply pushed_nil|].
  destruct (State.noteAccountStartNonce _ _) as [[a|e] x]; [|intros [= <- <-]; by apply pushed_nil].
  destruct (State.noteAccountStartNonce _ _) as [[a'|e] y]; intros [= <- <-]; by apply pushed_nil.
Qed.
Lemma previous_pushed s r s' : previous_hash (L := L) s = (r, s') -> m_receipts (s_block s') = m_receipts (s_block s) /\
  m_transactions (s_block s') = m_transactions (s_block s) /\ m_currentBlock (s_block s') = m_currentBlock (s_block s) /\
  BlockHeader.m_stateRoot (m_previousBlock (s_block s')) = BlockHeader.m_stateRoot (m_previousBlock (s_block s)).
Proof.
  unfold previous_hash, BlockHeader.hash. destruct (FixedHash.to_bool _); [by intros [= <- <-]|]. destruct (BlockHeader.streamed _); by intros [= <- <-].
Qed.

Lemma enact_inv T b0 pn vb td s s' : steady params G Above T b0 s -> readable T -> timed T -> T !! m_parentHash (vb_info vb) = Some pn ->
  m_number (vb_info vb) = m_number (n_header pn) + 1 -> enact params G precompiled vb s = (Ok td, s') -> enacted T pn vb td s s'.
Proof.
  intros Hs HR HT Hpn Hnum E. unfold enact in E.
  apply bind_inv in E as ([] & s1 & E1 & E). pose proof (after _ _ _ _ _ (noteChain_steady params G Above T b0) Hs E1) as Hs1. apply note_pushed in E1 as [N1 N2 N3 N4].
  apply bind_inv in E as (ph & s2 & E2 & E). pose proof (after _ _ _ _ _ (previous_steady params G Above T b0) Hs1 E2) as Hs2. apply previous_pushed in E2 as (Q1 & Q2 & Q3 & Q4).
  apply bind_inv in E as (cp & s3 & E3 & E). injection E3 as <- <-.
  do 3 (case_bool_decide; [|done]). cbn [negb] in E.
  apply bind_inv in E as ([] & s3 & E3 & E). injection E3 as <-. set (s3 := with_block _ _) in E.
  apply bind_inv in E as (rlp & s4 & E4 & E). apply lift_Ok in E4 as [Hrlp ->].
  apply bind_inv in E as (ds & s4 & E4 & E). assert (steady params G Above T b0 s3) as Hs3 by exact Hs2.
  pose proof (after _ _ _ _ _ (enact_transactions_steady params G precompiled Above T b0 _) Hs3 E4) as Hs4.
  apply enact_transactions_inv in E4 as (rcs & [P1 P2 P3 P4] & HF & Hlen).
  apply bind_inv in E as (rr & s5 & E5 & E). apply lift_Ok in E5 as [Hrr ->].
  apply bind_inv in E as (cur & s5 & E5 & E). injection E5 as <- <-. rewrite P3 in E. change (m_currentBlock (s_block s3)) with (vb_info vb) in *.
  case_bool_decide as Hroot; [|done]. cbn [negb] in E. apply bind_inv in E as (bl & s5 & E5 & E). injection E5 as <- <-.
  case_bool_decide as Hbloom; [|done]. cbn [negb] in E.
  apply bind_inv in E as (r2 & s5 & E5 & E). apply lift_Ok in E5 as [Hr2 ->]. apply bind_inv in E as (n & s5 & E5 & E). apply lift_Ok in E5 as [Hn ->].
  destruct (n >? 2) eqn:En; [done|]. apply bind_inv in E as (l & s5 & E5 & E). apply lift_Ok in E5 as [Hl ->].
  apply bind_inv in E as (us & s5 & E5 & E).
  pose proof (enact_uncles_sound T b0 l us (vb_info vb) pn s4 s5 Hs4 HR HT P3 Hpn Hnum E5) as Hv. apply kept_rest in E5 as R5; [|intros; apply enact_uncles_rest].
  apply bind_inv in E as ([] & s6 & E6 & E). apply kept_rest in E6 as R6; [|intros; apply rewards_rest].
  apply bind_inv in E as ([] & s7 & E7 & E). apply kept_rest in E7 as R7; [|intros; apply commit_all_rest].
  pose proof (rest_trans _ _ _ R5 (rest_trans _ _ _ R6 R7)) as (x & w & wo & R). clear R5 R6 R7.
  apply bind_inv in E as (bb & s8 & E8 & E). injection E8 as <- <-.
  apply bind_inv in E as (bad & s8 & E8 & E).
  assert (s_block s8 = s_block s7 /\ (bad = false -> BlockHeader.m_stateRoot (m_currentBlock (s_block s7)) = BlockHeader.m_stateRoot (m_previousBlock (s_block s7)) \/
    TrieDB.root (State.m_state (m_state (s_block s8))) = Ok (BlockHeader.m_stateRoot (m_currentBlock (s_block s7))))) as [Hb8 Hok8].
  { case_bool_decide as Hsr; [injection E8 as <- <-; auto|]. apply bind_inv in E8 as (root & s9 & E9 & E8). injection E8 as <- <-.
    apply rootHash_inv in E9 as [Hr9 ->]. split; [done|]. intros Hbad. right. rewrite Hr9. case_bool_decide; [congruence|done]. }
  destruct bad; [by apply bind_inv in E as (? & ? & _ & E); apply bind_inv in E as (? & ? & _ & E)|].
  destruct (BlockHeader.m_gasUsed (m_currentBlock (s_block s7)) =? gasUsed (s_block s7)) eqn:Eg; cbn [negb] in E;
    [|by apply bind_inv in E as (? & ? & _ & E)]. injection E as <- <-. apply Z.eqb_eq in Eg. specialize (Hok8 eq_refl).
  assert (m_receipts (s_block s8) = m_receipts (s_block s) ++ rcs) as Hrec.
  { rewrite Hb8, R. change (m_receipts (s_block s4) = m_receipts (s_block s) ++ rcs). rewrite P1. change (m_receipts (s_block s3)) with (m_receipts (s_block s2)). by rewrite Q1, N1, app_nil_r. }
  assert (m_receipts (s_block s8) = m_receipts (s_block s4)) as Hsame by (rewrite Hb8, R; done).
  split.
  - done.
  - rewrite Hb8, <- Eg, R. change (BlockHeader.m_gasUsed (vb_info vb) = BlockHeader.m_gasUsed (m_currentBlock (s_block s4))). by rewrite P3.
  - unfold logBloom. by rewrite Hsame.
  - rewrite Hb8, R. change (m_transactions (s_block s4) = m_transactions (s_block s) ++ vb_transactions vb). rewrite P2.
    change (m_transactions (s_block s3)) with (m_transactions (s_block s2)). by rewrite Q2, N2, app_nil_r.
  - exists rcs, ds. split; [done|]. split; [done|]. split; [done|congruence].
  - exists l, us, n. unfold uncles_in, uncle_count. rewrite Hrlp. cbn [result_bind]. rewrite Hr2. cbn [result_bind]. split; [done|]. split; [done|]. split; [lia|done].
  - rewrite R in Hok8. cbn in Hok8.
    change (BlockHeader.m_stateRoot (m_currentBlock (s_block s4)) = BlockHeader.m_stateRoot (m_previousBlock (s_block s4)) \/
      TrieDB.root (State.m_state (m_state (s_block s8))) = Ok (BlockHeader.m_stateRoot (m_currentBlock (s_block s4)))) in Hok8.
    rewrite P3, P4 in Hok8. change (m_previousBlock (s_block s3)) with (m_previousBlock (s_block s2)) in Hok8. rewrite Q4, N4 in Hok8. exact Hok8.
Qed.

(** ** Importing *)

(** No transaction was executed yet. *)
Definition pristine s : Prop := m_receipts (s_block s) = [] /\ m_transactions (s_block s) = [].
Abbreviation fresh m := (preserves pristine m).
Lemma ch_fresh {A} (m : BM A) : fresh (ch m).
Proof. intros s Hs. unfold ch. by destruct (m (s_bc s)) as [[a|e] b]. Qed.
Lemma get_fresh {A} (f : Block (L := L) -> A) : fresh (get f).
Proof. by intros s. Qed.
Lemma lift_fresh {E A} (w : E -> block_exn) (r : result E A) : fresh (lift (L := L) w r).
Proof. by intros s. Qed.
Lemma st_fresh {A} (p : State.ST A) : fresh (st (L := L) p).
Proof. intros s Hs. unfold st. by destruct (p _) as [[a|e] x]. Qed.
Lemma world_fresh {A} (p : Executive.World -> result Executive.exec_exn A * Executive.World) : fresh (on_world (L := L) p).
Proof. intros s Hs. unfold on_world. by destruct (p _) as [[a|e] x]. Qed.
Lemma put_fresh f : (forall b : Block (L := L), m_receipts (f b) = m_receipts b /\ m_transactions (f b) = m_transactions b) -> fresh (put (L := L) f).
Proof. intros Hf s [H1 H2]. destruct (Hf (s_block s)) as [F1 F2]. split; cbn; congruence. Qed.
Lemma previous_fresh : fresh (previous_hash (L := L)).
Proof. intros s Hs. unfold previous_hash. by destruct (BlockHeader.hash _ _) as [[a|e] x]. Qed.
Lemma to_precommit_fresh : fresh (to_precommit (L := L)).
Proof. intros s Hs. unfold to_precommit. by destruct (assign_state _ _) as [[a|e] x]. Qed.
#[local] Hint Resolve ch_fresh get_fresh lift_fresh st_fresh world_fresh previous_fresh to_precommit_fresh : preserves.
#[local] Hint Extern 1 (preserves pristine (put _)) => (apply put_fresh; done) : preserves.
Lemma dao_fresh l : fresh (dao_loop (L := L) l).
Proof. induction l as [|a l IH]; cbn [dao_loop]; preserved. Qed.
#[local] Hint Resolve dao_fresh : preserves.
Lemma irregular_fresh : fresh (performIrregularModifications (L := L) params).
Proof. unfold performIrregularModifications. preserved. Qed.
Lemma blockhash_fresh : fresh (updateBlockhashContract (L := L) params precompiled).
Proof. unfold updateBlockhashContract, call_blockhash. preserved. Qed.
Lemma populate_fresh : fresh (populate_current (L := L) params).
Proof. unfold populate_current, require_engine. preserved. Qed.
#[local] Hint Resolve irregular_fresh blockhash_fresh populate_fresh : preserves.
Lemma resetCurrent_fresh t s r s' : resetCurrent (L := L) params precompiled t s = (r, s') -> pristine s'.
Proof.
  unfold resetCurrent. intros E. unfold mbind at 1 in E. cbn [put mput] in E.
  refine (after pristine _ _ _ _ _ _ E); [|done]. preserved.
Qed.

Lemma enactOn_inv T b0 pn vb td s s' : steady params G Above T b0 s -> timed T -> T !! m_parentHash (vb_info vb) = Some pn ->
  enactOn params G precompiled utcTime vb s = (Ok td, s') ->
  m_number (vb_info vb) = m_number (n_header pn) + 1 /\ BlockHeader.m_timestamp (n_header pn) < BlockHeader.m_timestamp (vb_info vb) /\
  exists s1, steady params G Above T b0 s1 /\ pristine s1 /\ m_previousBlock (s_block s1) = n_header pn /\ enact params G precompiled vb s1 = (Ok td, s').
Proof.
  intros Hs HT Hpn E. pose proof (core params G Above T b0 _ Hs) as Hc. unfold enactOn in E.
  apply bind_inv in E as ([] & s1 & E1 & E). pose proof (after _ _ _ _ _ (noteChain_steady params G Above T b0) Hs E1) as Hs1.
  apply bind_inv in E as (bp & s2 & E2 & E). apply (runs_Ok params G Above T b0) with (Q := fun x => x = n_header pn) in E2 as [-> A2]; [|by apply info_known].
  apply bind_inv in E as ([] & s3 & E3 & E). apply lift_Ok in E3 as [Hv ->].
  apply (verify_child (vb_info vb) _ pn (t_node _ _ _ Hc _ _ Hpn) (HT _ _ Hpn) eq_refl) in Hv as [Hnum Hts]. split; [done|]. split; [done|].
  apply bind_inv in E as ([] & s3 & E3 & E). assert (steady params G Above T b0 s3) as Hs3.
  { destruct (negb _); [|injection E3 as <-; apply A2]. apply bind_inv in E3 as (gp & s4 & E4 & E3). injection E3 as <-.
    refine (after _ _ _ _ _ (ch_steady params G Above T b0 _ (info_reads params G Above T b0 _)) _ E4). apply A2. }
  apply bind_inv in E as (y & s4 & E4 & E). pose proof (after _ _ _ _ _ (sync_steady params G precompiled utcTime Above T b0 _ _) Hs3 E4) as Hs4.
  apply bind_inv in E as ([] & s5 & E5 & E). pose proof (after _ _ _ _ _ (resetCurrent_steady params G precompiled Above T b0 _) Hs4 E5) as Hs5.
  apply resetCurrent_fresh in E5. apply bind_inv in E as ([] & s6 & E6 & E). injection E6 as <-. eexists. split; [|split; [|split; [|exact E]]]; done.
Qed.

Definition still T b0 (s : Importer (L := L)) : Prop := unmoved params G Above T b0 (i_bc s).
Lemma chain_still T b0 {A} (m : BM A) : preserves (unmoved params G Above T b0) m -> preserves (still T b0) (of_chain m).
Proof. intros Hm s Hs. unfold of_chain. specialize (Hm (i_bc s) Hs). destruct (m (i_bc s)) as [[a|e] b]; exact Hm. Qed.
Lemma block_still T b0 {A} random (m : KM A) : preserves (steady params G Above T b0) m -> preserves (still T b0) (in_block params random m).
Proof.
  intros Hm s Hs. unfold in_block. revert s Hs. apply preserves_bind; [apply preserves_get|]. intros d. apply preserves_bind; [apply preserves_lift|].
  intros x s Hs. specialize (Hm {| s_block := x; s_bc := i_bc s; s_sizes := i_sizes s |} Hs). by destruct (m _) as [r s'].
Qed.
Lemma transient_still T b0 {A} (m : M (Importer (L := L)) block_exn A) : preserves (still T b0) m -> preserves (still T b0) (transient m).
Proof. intros Hm s Hs. unfold transient. specialize (Hm s Hs). by destruct (m s) as [[a|e] s']. Qed.

Lemma checked_still T b0 vb n random : preserves (still T b0) (import_checked params G precompiled allocated utcTime vb n random).
Proof.
  unfold import_checked. preserved.
  all: lazymatch goal with |- preserves _ (of_chain _) => apply chain_still | _ => idtac end.
  1: apply checkBlockIsNew_reads. 1: apply isKnown_reads. 1: apply details_reads. 1: apply checkBlockTimestamp_reads. 1: apply verifyBlock_reads.
  apply transient_still, block_still. preserved; [apply enactOn_steady|apply get_steady|apply cleanup_steady].
Qed.

Lemma transient_Ok {A} (m : M (Importer (L := L)) block_exn A) (s s' : Importer (L := L)) a : transient m s = (Ok a, s') -> m s = (Ok a, s').
Proof. unfold transient. by destruct (m s) as [[x|e] s1]. Qed.

Lemma chain_Ok T b0 {A} (m : BM A) Q (s s' : Importer (L := L)) a : runs m (i_bc s) (fun x b' => Q x /\ unmoved params G Above T b0 b') -> of_chain m s = (Ok a, s') -> Q a /\ still T b0 s'.
Proof. intros (x & b' & E & HQ & U). unfold of_chain. rewrite E. by intros [= -> <-]. Qed.
Lemma iafter {A} (I : Importer (L := L) -> Prop) (m : M (Importer (L := L)) block_exn A) (s s' : Importer (L := L)) r : preserves I m -> I s -> m s = (r, s') -> I s'.
Proof. intros Hm Hs E. specialize (Hm s Hs). by rewrite E in Hm. Qed.

(** What was checked of a block that is about to be inserted. *)
Lemma checked_inv T vb n random (s s' : Importer (L := L)) br td : chain_ok params G Above T (i_bc s) -> readable T -> timed T ->
  import_checked params G precompiled allocated utcTime vb n random s = (Ok (br, td), s') ->
  exists pn s1 s2 tdi, T !! m_parentHash (vb_info vb) = Some pn /\ m_number (vb_info vb) = m_number (n_header pn) + 1 /\
    BlockHeader.m_timestamp (n_header pn) < BlockHeader.m_timestamp (vb_info vb) /\ pristine s1 /\ m_previousBlock (s_block s1) = n_header pn /\
    enacted T pn vb tdi s1 s2 /\ br = m_receipts (s_block s2) /\ td = wrap 256 (n_td pn + tdi).
Proof.
  intros Hok HR HT E. assert (still T (i_bc s) s) as Hs by by split.
  unfold import_checked in E. apply bind_inv in E as ([] & s1 & E1 & E). assert (still T (i_bc s) s1) as Hs1.
  { destruct n; [|by injection E1 as <-]. pose proof (chain_still T (i_bc s) _ (checkBlockIsNew_reads params G Above T (i_bc s) vb) s Hs) as K. by rewrite E1 in K. }
  apply bind_inv in E as (k & s2 & E2 & E). apply (chain_Ok T (i_bc s)) with (Q := fun k => k = known G T (i_bc s) false (m_parentHash (vb_info vb))) in E2 as [-> Hs2];
    [|by apply isKnown_runs]. unfold known in E. destruct (T !! m_parentHash (vb_info vb)) as [pn|] eqn:Hpn; [|done].
  rewrite orb_true_r in E. cbn [negb orb] in E.
  apply bind_inv in E as (d & s3 & E3 & E). apply (chain_Ok T (i_bc s)) with (Q := fun d => d = details_of pn) in E3 as [-> Hs3]; [|by apply details_known].
  destruct (isNull _); [done|]. apply bind_inv in E as ([] & s4 & E4 & E).
  pose proof (iafter _ _ _ _ _ (chain_still T (i_bc s) _ (checkBlockTimestamp_reads params G utcTime Above T (i_bc s) (vb_info vb))) Hs3 E4) as Hs4.
  apply bind_inv in E as (v & s5 & E5 & E).
  pose proof (iafter _ _ _ _ _ (chain_still T (i_bc s) _ (verifyBlock_reads params G allocated Above T (i_bc s) _ _)) Hs4 E5) as Hs5.
  apply bind_inv in E as ([br' tdi] & s6 & E6 & E). injection E as -> <- <-. apply transient_Ok in E6.
  unfold in_block in E6. apply bind_inv in E6 as (d0 & s60 & E60 & E6). injection E60 as <- <-. apply bind_inv in E6 as (x & s60 & E60 & E6). apply mlift_inv in E60 as [_ ->].
  set (s7 := {| s_block := x; s_bc := i_bc s5; s_sizes := i_sizes s5 |}) in *. destruct (mbind _ _ s7) as [r8 s8] eqn:E8.
  injection E6 as -> _. apply bind_inv in E8 as (tdi' & s9 & E9 & E8).
  destruct (enactOn_inv T (i_bc s) pn vb tdi' s7 s9 Hs5 HT Hpn E9) as (Hnum & Hts & s10 & Hs10 & Hpr & Hprev & Ee).
  pose proof (enact_inv T (i_bc s) pn vb tdi' s10 s9 Hs10 HR HT Hpn Hnum Ee) as Hen.
  apply bind_inv in E8 as (b & s11 & E11 & E8). injection E11 as <- <-. apply bind_inv in E8 as (br' & s11 & E11 & E8). injection E11 as Hbr <-.
  apply bind_inv in E8 as ([] & s12 & E12 & E8). injection E8 as <- <- _.
  exists pn, s10, s9, tdi'. split; [done|]. split; [done|]. split; [done|]. split; [done|]. split; [done|]. split; [done|]. split; [|done].
  destruct Hpr as [Hp1 Hp2]. destruct (e_receipts _ _ _ _ _ _ Hen) as (rcs & ds & Hrc & Hlen & _). pose proof (e_transactions _ _ _ _ _ _ Hen) as Htx.
  rewrite Hp1 in Hrc. rewrite Hp2 in Htx. cbn [app] in *. unfold pending_receipts in Hbr. rewrite Hrc, Htx, <- Hlen, Nat.ltb_irrefl, firstn_all in Hbr.
  rewrite Hrc. congruence.
Qed.

End Enacting.
End BlockEnact.
