(* ===== verification/BlockSamples.v ===== *)
(** * BlockSamples: a tree with uncles, and a small chain with its state

    The tree has a branch of two blocks, the second of which is the head, and a light block
    beside it.  The block of the small chain is made and sealed by the model itself, with
    little difficulty. *)

From stdpp Require Import base list numbers option gmap.
From Stdlib Require Import ZArith Lia.
From S2P Require Import Prelude Bytes Rlp RlpStream RlpFields Keccak MemoryDB OverlayDB TrieCommon TrieDB TrieHash Account State Crypto Transaction BlockHeader.
From S2P Require Import Seal Receipt Precompiled Executive TxQueue BlockChain ChainStore ChainTree ChainProps ChainSamples ChainHistory Block BlockImport BlockReads BlockUncles.
Import CommonData RLP RLPStream RlpFields Keccak.

Module UncleSamples.
Import ChainTree ChainProps ChainSamples ChainHistory BlockUncles.
Import BlockHeader (BlockHeader, m_hash, m_parentHash, m_number, make_header, extractHeader, HeaderData).
Import BlockChain (BlockChain, VerifiedBlockRef, vb_info, insertBlockAndExtras, m_lastBlockHash, m_lastBlockNumber).

(** ** The tree *)

(** A block on the first one, and one on the second one, which is not in the tree. *)
Definition aunt_bytes : bytes := Eval vm_compute in block_of (m_hash first_header) 2 3.
Definition aunt_header : BlockHeader := Eval vm_compute in header_of aunt_bytes.
Definition aunt : VerifiedBlockRef := block_ref aunt_bytes aunt_header.
Definition tip_bytes : bytes := Eval vm_compute in block_of (m_hash second_header) 3 10.
Definition tip_header : BlockHeader := Eval vm_compute in header_of tip_bytes.

Definition wide : tree := extend tree2 aunt 18.
Definition state3 := snd (insertBlockAndExtras sample_params sample_genesis aunt no_receipts 18 state2).
Lemma aunt_insertable : insertable tree2 aunt no_receipts 18.
Proof.
  apply (sample_insertable tree2 aunt (addc (m_hash second_header) node1)); [vm_compute; reflexivity..|]. sample_node (fresh_node aunt 18).
Qed.
Lemma chain3 : chain_ok sample_params sample_genesis within_head wide state3.
Proof.
  apply (history_ok _ _ _ sample_genesis_ok), (insert_returns _ _ _ sample_genesis_ok _ _ _ _ _ map_reliable); [apply history2|apply aunt_insertable].
Qed.

(** ** Its blocks *)

(** Checks all blocks of a finite tree. *)
Lemma tree_check (T : tree) (f : bytes -> node -> bool) : forallb (fun x => f (fst x) (snd x)) (map_to_list T) = true ->
  forall h n, T !! h = Some n -> f h n = true.
Proof. intros E h n Hn%elem_of_map_to_list%list_elem_of_In. rewrite forallb_forall in E. exact (E (h, n) Hn). Qed.
Definition readable_check (h : bytes) (n : node) : bool := match uncles_in (n_bytes n) with Ok _ => true | Err _ => false end.
Definition aged_check (T : tree) (h : bytes) (n : node) : bool :=
  match T !! m_parentHash (n_header n) with
  | Some p => BlockHeader.m_timestamp (n_header p) <? BlockHeader.m_timestamp (n_header n)
  | None => true
  end.
Lemma check_readable T : forallb (fun x => readable_check (fst x) (snd x)) (map_to_list T) = true -> readable T.
Proof. intros E h n Hn. pose proof (tree_check T readable_check E h n Hn) as Hc. unfold readable_check in Hc. destruct (uncles_in (n_bytes n)); [eauto|done]. Qed.
Lemma check_timed T : forallb (fun x => BlockHeader.to_bool (n_header (snd x))) (map_to_list T) = true -> timed T.
Proof. intros E h n Hn. exact (tree_check T (fun _ n => BlockHeader.to_bool (n_header n)) E h n Hn). Qed.
Lemma check_aged G T : forallb (fun x => aged_check T (fst x) (snd x)) (map_to_list T) = true -> aged G T.
Proof. intros E h n p Hn _ Hp. pose proof (tree_check T (aged_check T) E h n Hn) as Hc. unfold aged_check in Hc. rewrite Hp in Hc. lia. Qed.

Lemma readable3 : readable wide.
Proof. apply check_readable. vm_compute. reflexivity. Qed.
Lemma timed3 : timed wide.
Proof. apply check_timed. vm_compute. reflexivity. Qed.
Lemma aged3 : aged sample_genesis wide.
Proof. apply check_aged. vm_compute. reflexivity. Qed.

End UncleSamples.

Module BlockSamples.
Import ChainOperationParams Block BlockImport.
Import ChainTree (tree).
Import ChainProps (genesis_ok, genesis_node, genesis_tree, insertable, fresh_node, chain_ok).
Import ChainHistory (history_ok, created, within_head).
Import BlockUncles (readable, timed).
Import Transaction (Toy).
Import BlockHeader (BlockHeader, m_hash, m_stateRoot, m_seal, m_number, EmptyListSHA3, HeaderData, WithSeal, WithoutSeal, make_header).
Import BlockChain (VerifiedBlockRef, vb_block, vb_info, vb_transactions, BlockChain, ChainParams, Genesis, m_genesisHash, operation, genesisBlock, tieBreakingGas, allowFutureBlocks).
Import ChainSamples (map_db, map_db_laws, no_aux, block_ref, header_of).

#[local] Existing Instance map_db.
#[local] Existing Instance map_db_laws.

Definition easy : ChainOperationParams :=
  {| m_blockReward := 3200; maximumExtraDataSize := 1024; accountStartNonce := 0; minGasLimit := 5000;
     maxGasLimit := 2 ^ 63 - 1; gasLimitBoundDivisor := 1024; homesteadForkBlock := 0; EIP150ForkBlock := 0; EIP158ForkBlock := 0;
     byzantiumForkBlock := 0; eWASMForkBlock := 2 ^ 64; constantinopleForkBlock := 2 ^ 64; daoHardforkBlock := 0; chainID := 0;
     minimumDifficulty := 2; difficultyBoundDivisor := 2048; durationLimit := 13 |}.

Definition got {E A} (d : A) (r : result E A) : A := match r with Ok a => a | Err _ => d end.
Definition encode_block (parent uncles author stateRoot : bytes) (number timestamp : Z) (seal : list Item) : bytes :=
  encode (Lst [Lst ([Str parent; Str uncles; Str author; Str stateRoot; Str TrieDB.EmptyTrie; Str TrieDB.EmptyTrie; Str (FixedHash.zero 256); int_item 2;
                     int_item number; int_item 4000000; Str []; int_item timestamp; Str []] ++ seal); Lst []; Lst []]).
Definition genesis_bytes : bytes := Eval vm_compute in
  encode_block (FixedHash.zero 32) EmptyListSHA3 (FixedHash.zero 20) TrieDB.EmptyTrie 0 0 [Str (FixedHash.zero 32); Str (FixedHash.zero 8)].
Definition genesis_header : BlockHeader := Eval vm_compute in header_of genesis_bytes.
Definition easy_params : ChainParams := {| operation := easy; genesisBlock := genesis_bytes; tieBreakingGas := true; allowFutureBlocks := false |}.
Definition easy_genesis : Genesis := Eval vm_compute in got ChainSamples.sample_genesis (BlockChain.genesis easy_params).
Definition start : BlockChain (L := gmap bytes bytes) := snd (BlockChain.open easy_genesis (BlockChain.closed ∅ ∅ no_aux)).
(** The state of the genesis block. *)
Definition state_db : OverlayDB.OverlayDB (gmap bytes bytes) :=
  {| OverlayDB.memory := MemoryDB.empty; OverlayDB.m_db := Some {[ TrieDB.EmptyTrie := [0x80] ]} |}.
Definition author : bytes := replicate 20 7.

Definition no_state : State.State (OverlayDB.OverlayDB (gmap bytes bytes)) := snd (State.make_state 0 state_db State.PreExisting []).
Definition workshop : Block (L := gmap bytes bytes) := got (blank no_state no_state author) (make_block easy_params state_db State.PreExisting author []).
Definition site0 : Site (L := gmap bytes bytes) := {| s_block := workshop; s_bc := start; s_sizes := {| CodeSizeCache.m_cache := ∅; CodeSizeCache.m_random := [] |} |}.
Definition committed := (exec! sync (C := Toy) easy_params easy_genesis ∅ 1000 (m_genesisHash easy_genesis) BlockHeader.empty_header in
                         commitToSeal easy_params easy_genesis [1; 2; 3]) site0.

(** ** Sealing *)

(** A header with the seal of a nonce; the nonces that pass the quick check. *)
Definition sealed_with (n : Z) (h : BlockHeader) : BlockHeader :=
  BlockHeader.setSeal 1 (encode (Str (toBigEndian 8 n))) (BlockHeader.setSeal 0 (encode (Str (FixedHash.zero 32))) h).
Fixpoint nonce_of (fuel : nat) (n : Z) (h : BlockHeader) : Z :=
  match fuel with
  | O => n
  | S f => if got false (SealEngine.quickVerifySeal (sealed_with n h)) then n else nonce_of f (n + 1) h
  end.
Definition seal_header (h : BlockHeader) : bytes := got [] (BlockHeader.streamed (BlockHeader.streamRLP (sealed_with (nonce_of 40 0 h) h) WithSeal)).

(** The first block, made by [commitToSeal] and [sealBlock]. *)
Definition first_head : bytes := Eval vm_compute in seal_header (m_currentBlock (s_block (snd committed))).
Definition sealed := sealBlock first_head (snd committed).
Definition first_bytes : bytes := Eval vm_compute in m_currentBytes (s_block (snd sealed)).
Definition first_header : BlockHeader := Eval vm_compute in header_of first_bytes.

Definition importer0 : Importer (L := gmap bytes bytes) :=
  {| i_bc := start; i_sizes := {| CodeSizeCache.m_cache := ∅; CodeSizeCache.m_random := [] |}; i_db := state_db |}.
Definition importing (b : bytes) (h : BlockHeader) := import (C := Toy) easy_params easy_genesis ∅ true 2000 (block_ref b h) true [] importer0.

(** What the theorems ask of the chain it is imported to. *)
Lemma easy_genesis_ok : genesis_ok easy_params easy_genesis.
Proof.
  split.
  - ChainSamples.sample_node (genesis_node easy_params easy_genesis).
  - vm_compute. reflexivity.
  - vm_compute. reflexivity.
  - vm_compute. reflexivity.
Qed.
Definition easy_tree : tree := genesis_tree easy_params easy_genesis.
Lemma start_ok : chain_ok easy_params easy_genesis within_head easy_tree start.
Proof.
  apply (history_ok _ _ _ easy_genesis_ok).
  apply (created _ _ _ ∅ ∅ no_aux (fst (BlockChain.open easy_genesis (BlockChain.closed ∅ ∅ no_aux)))); [done|done|done|apply surjective_pairing].
Qed.
Lemma easy_readable : readable easy_tree.
Proof. apply UncleSamples.check_readable. vm_compute. reflexivity. Qed.
Lemma easy_timed : timed easy_tree.
Proof. apply UncleSamples.check_timed. vm_compute. reflexivity. Qed.
Definition easy_first : VerifiedBlockRef := block_ref first_bytes first_header.
Lemma easy_insertable : insertable easy_tree easy_first ChainSamples.no_receipts 4.
Proof.
  apply (ChainSamples.sample_insertable easy_tree easy_first (genesis_node easy_params easy_genesis)); [vm_compute; reflexivity..|].
  ChainSamples.sample_node (fresh_node easy_first 4).
Qed.

(** ** A block that repeats the root of its parent *)

Definition forged : BlockHeader := Eval vm_compute in
  BlockHeader.noteDirty (BlockHeader.assign (BlockHeader.StateRoot TrieDB.EmptyTrie) (m_currentBlock (s_block (snd committed)))).
Definition forged_bytes : bytes := Eval vm_compute in
  got [] (BlockDetails.streamed (exec! appendList 3 in exec! appendRaw (seal_header forged) 1 in exec! appendRaw [0xc0] 1 in appendRaw [0xc0] 1)).
Definition forged_header : BlockHeader := Eval vm_compute in header_of forged_bytes.
(** Ready to enact a block on the genesis block. *)
Definition ready : Site (L := gmap bytes bytes) := Eval vm_compute in
  snd (sync (C := Toy) easy_params easy_genesis ∅ 1000 (m_genesisHash easy_genesis) BlockHeader.empty_header site0).
End BlockSamples.
