(* ===== verification/BlockProps.v ===== *)
(** * BlockProps: what making and importing blocks guarantees

    The theorems about [Block] and [BlockChain::import], each with its witness on the
    samples. *)

From stdpp Require Import base list numbers option gmap.
From Stdlib Require Import ZArith Lia.
From S2P Require Import Prelude Bytes Rlp RlpStream RlpFields Keccak MemoryDB OverlayDB TrieDB TrieHash Account State StateProps Crypto Transaction BlockHeader.
From S2P Require Import Seal Receipt Precompiled Executive TxQueue BlockChain ChainStore ChainTree ChainBlooms ChainIndex ChainProps ChainSamples ChainHistory.
From S2P Require Import Block BlockImport BlockReads BlockUncles BlockEnact BlockSamples.
Import CommonData RLP RLPStream RlpFields Keccak.

#[local] Opaque sha3.

Module BlockProps.
Import BlockDetails Receipt ChainTree ChainProps ChainHistory Block BlockImport BlockReads BlockUncles BlockEnact.
Import BlockChain (BlockChain, bc_exn, ChainParams, Genesis, VerifiedBlockRef, vb_block, vb_info, vb_transactions, m_blocksDB, m_extrasDB, m_lastBlockHash, m_lastBlockNumber, m_genesisHash).
Import BlockHeader (BlockHeader, m_parentHash, m_number, m_difficulty, m_hash, m_timestamp, m_stateRoot, make_header, HeaderData, BlockData, CheckNothingNew, WithSeal, set_hashes).

Section Chain.
Context {L : Type} `{LevelDB L, !LevelDBLaws L} {C : Crypto.Secp256k1}.
Variables (params : ChainParams) (G : Genesis).
Variable precompiled : gmap bytes Precompiled.PrecompiledContract.
Variable allocated : bool.
Variable utcTime : Z.
Abbreviation BC := (BlockChain (L := L)).
Implicit Types (b : BC) (s : Site (L := L)).
Variable Above : Z -> Prop.

Lemma unmoved_refl T b : chain_ok params G Above T b -> unmoved params G Above T b b.
Proof. by split. Qed.

(** ** Uncles *)

(** C28: the uncles that [commitToSeal] looks up for a block on a block [pn] are accepted
    when a block with the same parent and number is enacted on the same chain: the
    search ends with at most two of them, and [enact] takes all of them. *)
Theorem uncles_accepted T s pn : chain_ok params G Above T (s_bc s) -> readable T -> timed T -> aged G T ->
  T !! m_parentHash (m_currentBlock (s_block s)) = Some pn -> m_number (m_currentBlock (s_block s)) = m_number (n_header pn) + 1 ->
  m_number (m_previousBlock (s_block s)) = m_number (n_header pn) -> m_parentHash (m_previousBlock (s_block s)) = m_parentHash (n_header pn) ->
  m_number (n_header pn) <= m_lastBlockNumber (s_bc s) ->
  exists found s1, find_uncles params G s = (Ok found, s1) /\ (List.length found <= 2)%nat /\
    forall (b' : Block (L := L)) h x, m_parentHash (m_currentBlock b') = m_parentHash (m_currentBlock (s_block s)) ->
      m_number (m_currentBlock b') = m_number (m_currentBlock (s_block s)) -> BlockHeader.hash WithSeal (m_currentBlock b') = (Ok h, x) -> T !! h = None ->
      exists s2, enact_uncles params G (map snd found) (with_block b' s1) = (Ok (map fst found), s2).
Proof.
  intros Hh HR HT HA Hpn Hnum Hp1 Hp2 Hhead. pose proof (unmoved_refl T (s_bc s) Hh) as U.
  destruct (find_uncles_runs params G Above T (s_bc s) HR (m_currentBlock (s_block s)) pn Hpn Hnum HA s U eq_refl Hp1 Hp2)
    as (found & s1 & E & (Hlen & Hv & Hn & Hk) & A1). exists found, s1. split; [done|]. split; [done|].
  intros b' h x Ep En Eh Hnew. apply (enact_uncles_complete params G Above T (s_bc s) HR HT (m_currentBlock b') pn _ _ _ h x); [apply A1|done|done|by rewrite Ep|by rewrite En| |].
  - rewrite Ep. apply (valid_uncles_same T (m_currentBlock (s_block s))); [done|done|]. apply valid_uncles_more; [done|].
    eapply Forall_impl; [exact Hk|]. intros d [n Hd] E'. congruence.
  - eapply Forall_impl; [exact Hn|]. intros u Hu. cbn beta in *. lia.
Qed.

(** An uncle of a block on a branch that is longer than the chain of the head is
    refused: when its parent has a number above the head's, [enact] throws
    [UnknownParent], whatever else holds of the uncle. *)
Theorem uncle_above_head T s i excluded u p : chain_ok params G Above T (s_bc s) -> sha3 i ∉ excluded -> make_header i HeaderData (sha3 i) = Ok u ->
  T !! m_parentHash u = Some p -> m_lastBlockNumber (s_bc s) < m_number (n_header p) ->
  fst (check_uncle params G i excluded s) = Err UnknownParent.
Proof.
  intros Hh Hex Hmk Hp Hhead. pose proof (unmoved_refl T (s_bc s) Hh) as U.
  destruct (check_uncle_above params G Above T (s_bc s) i excluded u s p U) as (s' & -> & _); [by apply bool_decide_false|done..].
Qed.

(** ** Importing *)


Lemma known_passes T b vb n : chain_ok params G Above T b -> T !! m_hash (vb_info vb) = Some n -> node_ok (m_hash (vb_info vb)) (fresh_node vb (n_td n)) ->
  m_lastBlockNumber b < m_number (n_header n) -> m_hash (vb_info vb) <> m_genesisHash G ->
  runs (BlockChain.checkBlockIsNew G vb) b (fun _ b' => unmoved params G Above T b b').
Proof.
  intros Hok Hn Hnd Habove Hg. eapply (ChainIndex.hash_of_runs _ (fresh_node vb (n_td n))); [done|].
  eapply bc_bind; [by apply (isKnown_runs params G Above T b _ true b), unmoved_refl|]. intros k b1 [-> U1]. unfold known. rewrite Hn, bool_decide_false by done.
  replace (m_number (n_header n) <=? m_lastBlockNumber b) with false by lia. cbn [negb orb]. apply bc_ret. exact U1.
Qed.

(** A block that is already in the chain, on a branch whose end is higher than the head,
    passes the check for new blocks; inserting it again overwrites its record with one
    that has no children, and makes it a child of its parent twice.  (Or the database
    refuses one of the two writes, which ends the process.) *)
Theorem reimport_forgets T b vb receipts n pn ln : chain_ok params G Above T b -> T !! m_hash (vb_info vb) = Some n -> vb_info vb = n_header n ->
  node_ok (m_hash (vb_info vb)) (fresh_node vb (n_td n)) -> m_lastBlockNumber b < m_number (n_header n) ->
  T !! m_parentHash (vb_info vb) = Some pn -> ChainStore.details_ok (details_of (addc (m_hash (vb_info vb)) pn)) ->
  T !! m_lastBlockHash b = Some ln -> takes_over params vb (n_td n) ln = false ->
  (exists rs d, read_receipts receipts = Ok rs /\ blooms_rlp (map m_bloom rs) = Ok d) ->
  lands (exec! BlockChain.checkBlockIsNew G vb in BlockChain.insertBlockAndExtras params G vb receipts (n_td n)) b (fun _ b' =>
    Get (m_extrasDB b') (BlockChain.toSlice (m_hash (vb_info vb)) BlockChain.ExtraDetails) = encode (ChainStore.details_item (details_of (fresh_node vb (n_td n)))) /\
    Get (m_extrasDB b') (BlockChain.toSlice (m_parentHash (vb_info vb)) BlockChain.ExtraDetails) =
      encode (ChainStore.details_item (details_of (addc (m_hash (vb_info vb)) pn))))
    (fun _ => exists batch, fst (Write (m_blocksDB b) batch) = false \/ fst (Write (m_extrasDB b) batch) = false).
Proof.
  intros Hok Hn Hhd Hnd Habove Hp Hfits Hln Etake (rs & blb & Hrs & Hblb). pose proof (c_tree _ _ _ _ _ Hok) as HT. pose proof (t_core _ _ _ HT) as Hcore.
  set (h := m_hash (vb_info vb)) in *. set (p := m_parentHash (vb_info vb)) in *. set (nd := fresh_node vb (n_td n)) in *.
  assert (h <> m_genesisHash G) as Hg.
  { intros E. apply (number_0 params G T Hcore h n Hn) in E. destruct (c_head _ _ _ _ _ Hok) as (l0 & Hl0 & El0 & _).
    pose proof (n_number _ _ (t_node _ _ _ Hcore _ _ Hl0)). lia. }
  assert (h <> p) as Hne.
  { destruct (t_parent _ _ _ Hcore h n Hn Hg) as (q & Hq & Hnum & _). rewrite <- Hhd in Hq, Hnum. fold p in Hq. intros E. rewrite <- E, Hn in Hq. injection Hq as <-.
    rewrite Hhd in Hnum. lia. }
  eapply lands_bind; [by apply (known_passes T b vb n)|]. intros [] b0 U0. pose proof (u_ok _ _ _ _ _ _ U0) as Hok0. unfold BlockChain.insertBlockAndExtras. fold p.
  eapply lands_bind; [apply (details_runs params G T T Hcore), Hok0|]. intros d0 b1 (-> & Hs1 & Hf1 & Hmemo). destruct (Hmemo ltac:(by exists pn)) as [d Hd]. clear Hmemo.
  destruct (s_mdetails _ _ _ _ Hs1 _ _ Hd) as (pn' & Hpn' & ->). rewrite Hp in Hpn'. injection Hpn' as <-.
  eapply lands_bind; [apply (hash_read h nd); done|]. intros ? b1' [-> ->]. apply lands_put, lands_get. rewrite Hd. cbn [default].
  set (b2 := BlockChain.set_details _ b1). assert (BlockChain.cached_details p b2 = details_of (addc h pn)) as -> by (unfold BlockChain.cached_details, b2; cbn; by rewrite lookup_insert_eq).
  assert (store_ok G T (with_child h p T) b2) as Hs2 by (by apply (child_noted G T h p pn)).
  eapply lands_str; [by apply ChainStore.details_write|]. pose proof (n_number _ _ Hnd : 0 <= m_number (vb_info vb) < 2 ^ 28) as Hrange.
  rewrite (wrap_small 32 (m_number (vb_info vb))) by (unfold uint_ok; lia).
  eapply lands_str; [apply (ChainStore.details_write (details_of nd)), Hnd|]. eapply lands_rlp; [done|]. eapply lands_str; [done|]. apply lands_get.
  change (m_lastBlockHash b2) with (m_lastBlockHash b1). rewrite (f_last _ _ Hf1), (u_last _ _ _ _ _ _ U0).
  pose proof (with_child_core params G T h p pn HT Hp Hfits) as Hcm. destruct (with_child_is T h p pn Hp _ _ Hln) as (ln' & Hln' & _ & Eh & Etd).
  eapply lands_bind; [by apply (is_best_runs params G T (with_child h p T) vb (n_td n) (m_lastBlockHash b) ln')|]. intros best_ b3 (-> & Hs3 & Hf3).
  assert (takes_over params vb (n_td n) ln' = false) as -> by (unfold takes_over in *; by rewrite Eh, Etd). cbn iota.
  eapply lands_bind with (Q := fun x b' => x = ([], FixedHash.zero 32, []) /\ b' = b3); [by apply bc_ret|]. intros x b4 [-> ->].
  assert (m_blocksDB b3 = m_blocksDB b) as Eb by (rewrite (f_blocksDB _ _ Hf3); cbn; by rewrite (f_blocksDB _ _ Hf1), (u_blocks _ _ _ _ _ _ U0)).
  assert (m_extrasDB b3 = m_extrasDB b) as Ex by (rewrite (f_extrasDB _ _ Hf3); cbn; by rewrite (f_extrasDB _ _ Hf1), (u_extras _ _ _ _ _ _ U0)).
  apply lands_write_blocks; [intros F; eexists; left; by rewrite <- Eb|intros _].
  apply lands_write_extras; [intros F; eexists; right; by rewrite <- Ex|intros Hw]. cbn [andb]. left. eexists _, _. split; [reflexivity|].
  cbn [m_extrasDB BlockChain.set_extrasDB BlockChain.set_blocksDB BlockChain.m_extrasDB]. rewrite !(Get_written _ _ _ Hw), !app_nil_r. cbn [batch_value].
  split.
  - rewrite (decide_False (P := BlockChain.toSlice h BlockChain.ExtraReceipts = _)) by (intros [_ E]%ChainStore.toSlice_inj; [done|ChainIndex.kind..]).
    rewrite (decide_False (P := BlockChain.toSlice h BlockChain.ExtraLogBlooms = _)) by (intros [_ E]%ChainStore.toSlice_inj; [done|ChainIndex.kind..]).
    by rewrite decide_True.
  - rewrite !(decide_False (P := BlockChain.toSlice h _ = _)) by (intros [E _]%ChainStore.toSlice_inj; [done|ChainIndex.kind..]). by rewrite decide_True.
Qed.

End Chain.

(** ** Rewards *)

Section Rewards.
Context {L : Type} `{LevelDB L}.
Implicit Types s : Site (L := L).

Definition balance_in s (a : bytes) : result State.state_exn Z := fst (State.balance a (m_state (s_block s))).
(** What the uncles of a block with the number [n] bring to [a], and what the block does. *)
Definition uncle_share (R n : Z) (us : list BlockHeader) (a : bytes) : Z :=
  foldr (fun u x => (if bool_decide (BlockHeader.m_author u = a) then R * (8 - (n - m_number u)) / 8 else 0) + x) 0 us.
Definition earned (R : Z) (bi : BlockHeader) (us : list BlockHeader) (a : bytes) : Z :=
  uncle_share R (m_number bi) us a + if bool_decide (BlockHeader.m_author bi = a) then R + zlen us * (R / 32) else 0.
(** A state that is coherent and knows its account nonce. *)
Definition sound s : Prop := StateProps.st_ok (m_state (s_block s)) /\ State.m_accountStartNonce (m_state (s_block s)) <> State.Invalid256.

Lemma wrap_wrap_add a c : wrap 256 (wrap 256 a + c) = wrap 256 (a + c).
Proof. unfold wrap. by rewrite Zplus_mod_idemp_l. Qed.

(** One payment. *)
Lemma pay a v w s : sound s -> 0 <= v < 2 ^ 256 -> balance_in s a = Ok w ->
  exists s', st (State.addBalance a v) s = (Ok tt, s') /\ sound s' /\ m_currentBlock (s_block s') = m_currentBlock (s_block s) /\
    forall c u, balance_in s c = Ok u -> balance_in s' c = Ok (wrap 256 (u + if bool_decide (a = c) then v else 0)).
Proof.
  intros [Hok Hn] Hv Hw. destruct (StateProps.addBalance_pays (m_state (s_block s)) a v w Hok Hv Hn Hw) as (x & E & [P1 P2 P3 P4 _ _]).
  unfold st. rewrite E. eexists. split; [reflexivity|]. split; [split; [done|]; cbn; by rewrite P2|]. split; [done|]. intros c u Hu.
  unfold balance_in. cbn [s_block with_block m_state set_state]. case_bool_decide as Hac.
  - subst c. rewrite P3. unfold balance_in in *. congruence.
  - rewrite Z.add_0_r. pose proof (StateProps.balance_range _ _ _ Hok Hu) as Hr. rewrite wrap_small by exact Hr. by apply P4.
Qed.

Lemma reward_loop_pays R n us : 0 <= R < 2 ^ 250 -> 0 <= n < 2 ^ 250 -> forall r s, sound s -> 0 <= r < 2 ^ 256 ->
  Forall (fun u => 1 <= n - m_number u <= 6 /\ 0 <= m_number u /\ exists w, balance_in s (BlockHeader.m_author u) = Ok w) us ->
  exists s', reward_loop R n us r s = (Ok (wrap 256 (r + zlen us * (R / 32))), s') /\ sound s' /\ m_currentBlock (s_block s') = m_currentBlock (s_block s) /\
    forall c u, balance_in s c = Ok u -> balance_in s' c = Ok (wrap 256 (u + uncle_share R n us c)).
Proof.
  intros HR Hn. induction us as [|i us IH]; intros r s Hs Hr HF; cbn [reward_loop].
  { exists s. cbn. rewrite Z.add_0_r, (wrap_small 256 r) by done. split; [done|]. split; [done|]. split; [done|]. intros c u Hu.
    rewrite Z.add_0_r, wrap_small; [done|]. destruct Hs as [Hok _]. exact (StateProps.balance_range _ _ _ Hok Hu). }
  apply Forall_cons in HF as [(Hd & Hi & w & Hw) HF].
  rewrite (wrap_small 256 (8 + m_number i)) by (unfold uint_ok; lia). rewrite (wrap_small 256 (8 + m_number i - n)) by (unfold uint_ok; lia).
  rewrite (wrap_small 256 (R * _)) by (unfold uint_ok; nia).
  assert (0 <= R * (8 + m_number i - n) / 8 < 2 ^ 256) as Hv.
  { split; [apply Z.div_pos; nia|]. apply Z.div_lt_upper_bound; [lia|nia]. }
  destruct (pay _ _ w s Hs Hv Hw) as (s1 & E & Hs1 & Hc1 & Hb1). unfold mbind at 1. rewrite E.
  destruct (IH (wrap 256 (r + R / 32)) s1 Hs1) as (s2 & E2 & Hs2 & Hc2 & Hb2).
  { apply (wrap_range 256). lia. }
  { eapply Forall_impl; [exact HF|]. intros u (H1 & H2 & w' & H3). split; [done|]. split; [done|]. eexists. by apply Hb1. }
  exists s2. split; [rewrite E2, wrap_wrap_add; do 3 f_equal; cbn [List.length]; lia|]. split; [done|]. split; [congruence|].
  intros c u Hu. rewrite (Hb2 c _ (Hb1 c u Hu)), wrap_wrap_add. do 2 f_equal. cbn [uncle_share foldr].
  replace (8 + m_number i - n) with (8 - (n - m_number i)) by lia. fold (uncle_share R n us c). lia.
Qed.

(** The rewards of a block: an uncle's author gets as many eighths of the block reward
    as the uncle is less than eight generations old, the author of the block gets the
    reward and a thirty-second of it for each uncle, and nobody else gets anything. *)
Theorem rewards_paid R us s : sound s -> 0 <= R < 2 ^ 250 -> 0 <= m_number (m_currentBlock (s_block s)) < 2 ^ 250 -> (List.length us <= 2)%nat ->
  Forall (fun u => 1 <= m_number (m_currentBlock (s_block s)) - m_number u <= 6 /\ 0 <= m_number u /\ exists w, balance_in s (BlockHeader.m_author u) = Ok w) us ->
  (exists w, balance_in s (BlockHeader.m_author (m_currentBlock (s_block s))) = Ok w) ->
  exists s', applyRewards us R s = (Ok tt, s') /\ sound s' /\
    forall a w, balance_in s a = Ok w -> balance_in s' a = Ok (wrap 256 (w + earned R (m_currentBlock (s_block s)) us a)).
Proof.
  intros Hs HR Hn Hlen HF [w Hw]. unfold applyRewards, mbind, get, mget.
  destruct (reward_loop_pays R (m_number (m_currentBlock (s_block s))) us HR Hn R s Hs ltac:(lia) HF) as (s1 & E & Hs1 & Hc1 & Hb1). rewrite E.
  assert (0 <= R + zlen us * (R / 32) < 2 ^ 256) as Hr.
  { assert (R / 32 <= R) by (apply Z.div_le_upper_bound; lia). assert (0 <= R / 32) by (apply Z.div_pos; lia). nia. }
  rewrite (wrap_small 256 (R + _)) by exact Hr.
  destruct (pay (BlockHeader.m_author (m_currentBlock (s_block s))) _ _ s1 Hs1 Hr (Hb1 _ w Hw)) as (s2 & E2 & Hs2 & _ & Hb2).
  exists s2. split; [done|]. split; [done|]. intros a u Hu. rewrite (Hb2 a _ (Hb1 a u Hu)), wrap_wrap_add. unfold earned. do 2 f_equal. lia.
Qed.

End Rewards.

(** ** Sealing *)

Section Sealing.
Context {L : Type} `{LevelDB L}.
Variables (params : ChainParams) (G : Genesis).
Implicit Types s : Site (L := L).
Abbreviation KM A := (M (Site (L := L)) block_exn A).

(** What sealing leaves alone: the saved state, the transactions and the receipts. *)
Definition holding (p : State.State (OverlayDB.OverlayDB L)) (b0 : Block (L := L)) s : Prop :=
  m_precommit (s_block s) = p /\ m_transactions (s_block s) = m_transactions b0 /\ m_receipts (s_block s) = m_receipts b0 /\
  m_transactionSet (s_block s) = m_transactionSet b0.
Section Holding.
Variables (p : State.State (OverlayDB.OverlayDB L)) (b0 : Block (L := L)).
Abbreviation holds m := (preserves (holding p b0) m).
Lemma ch_holds {A} (m : M (BlockChain (L := L)) bc_exn A) : holds (ch m).
Proof. intros s Hs. unfold ch. by destruct (m (s_bc s)) as [[a|e] b]. Qed.
Lemma get_holds {A} (f : Block (L := L) -> A) : holds (get f).
Proof. by intros s. Qed.
Lemma lift_holds {E A} (w : E -> block_exn) (r : result E A) : holds (lift (L := L) w r).
Proof. by intros s. Qed.
Lemma st_holds {A} (q : State.ST A) : holds (st (L := L) q).
Proof. intros s Hs. unfold st. by destruct (q _) as [[a|e] x]. Qed.
Lemma previous_holds : holds (previous_hash (L := L)).
Proof. intros s Hs. unfold previous_hash. by destruct (BlockHeader.hash _ _) as [[a|e] x]. Qed.
Lemma put_holds f : (forall b, m_precommit (f b) = m_precommit b /\ m_transactions (f b) = m_transactions b /\ m_receipts (f b) = m_receipts b /\
  m_transactionSet (f b) = m_transactionSet b) -> holds (put (L := L) f).
Proof. intros Hf s (H1 & H2 & H3 & H4). destruct (Hf (s_block s)) as (F1 & F2 & F3 & F4). unfold holding. cbn. rewrite F1, F2, F3, F4. done. Qed.
#[local] Hint Resolve ch_holds get_holds lift_holds st_holds previous_holds : preserves.
#[local] Hint Extern 1 (preserves (holding _ _) (put _)) => (apply put_holds; intros; repeat case_match; done) : preserves.
Lemma gather_holds us : forall ex found, holds (gather_uncles params G us ex found).
Proof. induction us as [|u us IH]; intros ex found; cbn [gather_uncles]; preserved. Qed.
#[local] Hint Resolve gather_holds : preserves.
Lemma generations_holds n : forall q ex found, holds (generations params G n q ex found).
Proof. induction n as [|n IH]; intros q ex found; cbn [generations]; preserved. Qed.
#[local] Hint Resolve generations_holds : preserves.
Lemma find_uncles_holds : holds (find_uncles params G).
Proof. unfold find_uncles. preserved. Qed.
Lemma compile_holds txs : forall i rs tm rm, holds (compile_loop (L := L) i txs rs tm rm).
Proof. induction txs as [|t txs IH]; intros i rs tm rm; cbn [compile_loop]; preserved. Qed.
Lemma reward_loop_holds x n l : forall r, holds (reward_loop (L := L) x n l r).
Proof. induction l as [|i l IH]; intros r; cbn [reward_loop]; preserved. Qed.
#[local] Hint Resolve find_uncles_holds compile_holds reward_loop_holds : preserves.
Lemma rewards_holds l r : holds (applyRewards (L := L) l r).
Proof. unfold applyRewards. preserved. Qed.
Lemma commit_all_holds : holds (commit_all (L := L) params).
Proof. unfold commit_all. preserved. Qed.
Lemma rootHash_holds : holds (rootHash (L := L)).
Proof. apply st_holds. Qed.
End Holding.

#[local] Hint Resolve get_holds lift_holds previous_holds find_uncles_holds compile_holds rewards_holds commit_all_holds rootHash_holds : preserves.
#[local] Hint Extern 1 (preserves (holding _ _) (put _)) => (apply put_holds; intros; repeat case_match; done) : preserves.

(** Equal but for the change log and the random numbers to come. *)
Definition same_state (x y : State.State (OverlayDB.OverlayDB L)) : Prop := copy_state x [] [] = copy_state y [] [].

(** [commitToSeal] can be taken back: uncommitting always succeeds after it, and leaves
    the state, the transactions and the receipts that were there before, so that the
    next transaction, or the next [commitToSeal], starts from the state without the
    rewards. *)
Theorem sealing_undone x s s1 : m_sealEngine (s_block s) = true -> m_committedToSeal (s_block s) = false ->
  commitToSeal params G x s = (Ok tt, s1) ->
  exists s2, uncommitToSeal s1 = (Ok tt, s2) /\ same_state (m_state (s_block s2)) (m_state (s_block s)) /\ m_committedToSeal (s_block s2) = false /\
    m_transactions (s_block s2) = m_transactions (s_block s) /\ m_receipts (s_block s2) = m_receipts (s_block s) /\
    m_transactionSet (s_block s2) = m_transactionSet (s_block s).
Proof.
  intros He Hc E. unfold commitToSeal in E. apply bind_inv in E as (d & sa & E1 & E). injection E1 as <- <-. destruct (isSealed _); [done|].
  apply bind_inv in E as ([] & sa & E1 & E). unfold noteChain, note_chain in E1. rewrite He in E1. injection E1 as <-.
  apply bind_inv in E as (c & sb & E1 & E). injection E1 as <- <-. cbn [s_block with_block] in E. rewrite Hc in E.
  apply bind_inv in E as ([] & sb & E1 & E). unfold to_precommit, assign_state in E1. cbn [s_block with_block] in E1.
  destruct (TrieDB.root (State.m_state (m_state (s_block s)))) as [r|e] eqn:Hroot; [|done]. injection E1 as <-.
  set (p := copy_state _ _ _) in E. set (s0 := with_block _ _) in E.
  assert (holding p (s_block s) s1) as (H1 & H2 & H3 & H4).
  { refine (after (holding p (s_block s)) _ _ _ _ _ _ E); [|done]. clear.
    preserved. }
  assert (m_committedToSeal (s_block s1) = true) as Hc1.
  { clear - E. repeat match goal with
      | E : mbind _ _ _ = _ |- _ => apply bind_inv in E as (? & ? & _ & E)
      | E : (let '(_, _) := ?x in _) _ = _ |- _ => destruct x
      end. by injection E as <-. }
  unfold uncommitToSeal, mbind, get, mget. rewrite Hc1. unfold from_precommit, assign_state. rewrite H1. change (State.m_state p) with (State.m_state (m_state (s_block s))).
  rewrite Hroot. eexists. split; [reflexivity|]. cbn. by rewrite H2, H3, H4.
Qed.

End Sealing.

(** ** Filling a block *)

Section Filling.
Context {L : Type} `{LevelDB L} {C : Crypto.Secp256k1}.
Variables (params : ChainParams) (G : Genesis).
Variable precompiled : gmap bytes Precompiled.PrecompiledContract.
Context {P : Type} `{GasPricer (Block (L := L)) P}.
Variable _gp : P.
Abbreviation SM A := (M (Mining (L := L)) sync_exn A).
Implicit Types g : Mining (L := L).

Definition done_in g : gset bytes := m_transactionSet (s_block (g_site g)).
Section Growing.
Variable X : gset bytes.
Definition has (s : Site (L := L)) : Prop := X ⊆ m_transactionSet (s_block s).
Definition ghas g : Prop := X ⊆ done_in g.
Lemma world_has {A} (p : Executive.World -> result Executive.exec_exn A * Executive.World) : preserves has (on_world (L := L) p).
Proof. intros s Hs. unfold on_world. by destruct (p _) as [[a|e] x]. Qed.
Lemma uncommit_has : preserves has (uncommitToSeal (L := L)).
Proof.
  intros s Hs. unfold uncommitToSeal, mbind, get, mget, from_precommit. destruct (m_committedToSeal _); [|done]. by destruct (assign_state _ _) as [[[]|e] x].
Qed.
Lemma execute_has t p : preserves has (execute params G precompiled t p).
Proof.
  unfold execute. preserved; [by intros s|apply uncommit_has|apply world_has|by intros s|by intros s|].
  intros s Hs. unfold has. cbn. unfold has in Hs. set_solver.
Qed.
Lemma on_site_has {A} (m : M (Site (L := L)) block_exn A) : preserves has m -> preserves ghas (on_site m).
Proof. intros Hm g Hg. unfold on_site. specialize (Hm (g_site g) Hg). destruct (m (g_site g)) as [[a|e] s]; exact Hm. Qed.
Lemma on_queue_has {A} (m : M TransactionQueue.TransactionQueue TransactionQueue.tq_exn A) : preserves ghas (on_queue (L := L) m).
Proof. intros g Hg. unfold on_queue. by destruct (m (g_queue g)) as [[a|e] q]. Qed.
Lemma try_has t h : preserves ghas (try_transaction params G precompiled _gp t h).
Proof.
  unfold try_transaction. preserved; first [apply on_queue_has|apply on_site_has; first [apply execute_has|by intros s]].
Qed.
Lemma handle_has t h e : preserves ghas (handle (L := L) t h e).
Proof. unfold handle. preserved; first [apply on_queue_has|apply on_site_has; by intros s]. Qed.
Lemma attempt_has t h : preserves ghas (attempt params G precompiled _gp t h).
Proof.
  intros g Hg. unfold attempt. pose proof (try_has t h g Hg) as Ht. destruct (try_transaction _ _ _ _ _ _ _) as [[r|e] g']; [done|].
  refine (preserves_bind ghas _ _ (handle_has t h e) _ g' Ht). intros []. by intros g2.
Qed.
Lemma pass_has ts : preserves ghas (pass params G precompiled _gp ts).
Proof. induction ts as [|t ts IH]; cbn [pass]; preserved; first [apply on_queue_has|apply attempt_has|exact IH|apply on_site_has; by intros s]. Qed.
End Growing.

(** A transaction that was executed is in the set. *)
Lemma on_site_Ok {A} (m : M (Site (L := L)) block_exn A) g a g' : on_site m g = (Ok a, g') -> m (g_site g) = (Ok a, g_site g').
Proof. unfold on_site. destruct (m (g_site g)) as [[x|e] s]; [by intros [= -> <-]|done]. Qed.
Lemma execute_inserts t h s r s' : execute params G precompiled t Executive.Committed s = (Ok r, s') -> TransactionQueue.hash_of t = Ok h ->
  h ∈ m_transactionSet (s_block s').
Proof.
  unfold execute. intros E Hh. apply bind_inv in E as (d & s1 & _ & E). destruct d; [done|].
  apply bind_inv in E as (u & s2 & _ & E). apply bind_inv in E as (s3 & s4 & _ & E). destruct (negb _); [done|]. apply bind_inv in E as ([res rc] & s5 & _ & E).
  apply bind_inv in E as ([] & s6 & E4 & E). injection E as _ <-. apply bind_inv in E4 as ([] & s7 & _ & E4). apply bind_inv in E4 as (h' & s8 & E6 & E4).
  apply lift_Ok in E6 as [Eh ->]. unfold TransactionQueue.hash_of in Hh. rewrite Eh in Hh. injection Hh as ->. injection E4 as <-. cbn. set_solver.
Qed.
Lemma attempt_inserts t h g r g' : attempt params G precompiled _gp t h g = (Ok (Some r), g') -> TransactionQueue.hash_of t = Ok h -> h ∈ done_in g'.
Proof.
  unfold attempt. destruct (try_transaction params G precompiled _gp t h g) as [[o|e] g1] eqn:E.
  - intros [= -> ->] Hh. unfold try_transaction in E. apply bind_inv in E as (a & g2 & E2 & E). injection E2 as <- <-. destruct (_ <=? _).
    + apply bind_inv in E as (x & g2 & E2 & E). apply on_site_Ok in E2. apply bind_inv in E as (o & g3 & E3 & E). injection E as -> <-.
      apply on_site_Ok in E3. injection E3 as _ E3. unfold done_in. rewrite <- E3. by apply (execute_inserts t h _ _ _ E2).
    + destruct (_ <? _); [apply bind_inv in E as (x & g2 & _ & E)|]; done.
  - intros E2. apply bind_inv in E2 as (x & g2 & _ & E2). done.
Qed.
Lemma queue_same {A} (m : M TransactionQueue.TransactionQueue TransactionQueue.tq_exn A) g a g' : on_queue (L := L) m g = (Ok a, g') -> g_site g' = g_site g.
Proof. unfold on_queue. destruct (m (g_queue g)) as [[x|e] q]; [by intros [= _ <-]|done]. Qed.
Lemma queue_hash t g h g' : on_queue (L := L) (TransactionQueue.tx (TransactionQueue.hash_of t)) g = (Ok h, g') -> TransactionQueue.hash_of t = Ok h.
Proof. unfold on_queue, TransactionQueue.tx, mlift. by destruct (TransactionQueue.hash_of t) as [x|e]; [intros [= -> _]|]. Qed.

(** Some transaction of the list is in the set. *)
Definition some_done (ts : list Transaction.TransactionBase) (X : gset bytes) : Prop := exists t h, t ∈ ts /\ TransactionQueue.hash_of t = Ok h /\ h ∈ X.
Lemma some_done_mono ts ts' X Y : (forall t, t ∈ ts -> t ∈ ts') -> X ⊆ Y -> some_done ts X -> some_done ts' Y.
Proof. intros Ht HX (t & h & H1 & H2 & H3). exists t, h. split; [by apply Ht|]. split; [done|]. by apply HX. Qed.

(** What a pass counts. *)
Lemma pass_counts ts : forall g n rs g', pass params G precompiled _gp ts g = (Ok (n, rs), g') ->
  0 <= n <= zlen ts /\ (0 < n -> some_done ts (done_in g')) /\ (some_done ts (done_in g) -> n < zlen ts).
Proof.
  induction ts as [|t ts IH]; intros g n rs g' E; cbn [pass] in E.
  { injection E as <- <- <-. cbn. split; [lia|]. split; [lia|]. intros (t & h & Ht & _). by apply not_elem_of_nil in Ht. }
  apply bind_inv in E as (h & g1 & E1 & E). pose proof (queue_hash _ _ _ _ E1) as Hh. apply queue_same in E1.
  apply bind_inv in E as (d & g2 & E2 & E). assert (done_in g1 = done_in g) as Ed by (unfold done_in; by rewrite E1).
  assert (d = done_in g1 /\ g2 = g1) as [-> ->] by (destruct g1; by injection E2 as <- <-). clear E2. cbn [List.length]. case_bool_decide as Hin.
  - destruct (IH _ _ _ _ E) as (Hn & Hs & _). split; [lia|]. split; [|lia]. intros Hpos. eapply some_done_mono; [|reflexivity|by apply Hs]. intros u Hu. by right.
  - apply bind_inv in E as (o & g2 & E2 & E). apply bind_inv in E as ([n' rs'] & g3 & E3 & E). destruct (IH _ _ _ _ E3) as (Hn & Hs & Hlt).
    pose proof (attempt_has (done_in g1) t h g1 ltac:(unfold ghas; reflexivity)) as Hgrow. rewrite E2 in Hgrow. cbn [snd] in Hgrow.
    assert (some_done (t :: ts) (done_in g) -> some_done ts (done_in g2)) as Hnext.
    { intros (u & hu & Hu & Ehu & Hx). apply elem_of_cons in Hu as [->|Hu]; [exfalso; congruence|]. exists u, hu. split; [done|]. split; [done|]. apply Hgrow. by rewrite Ed. }
    destruct o as [r|]; injection E as <- <- <-.
    + split; [lia|]. split; [|intros Hd; specialize (Hlt (Hnext Hd)); lia]. intros _. exists t, h. split; [by left|]. split; [done|].
      pose proof (attempt_inserts t h g1 r g2 E2 Hh) as Hins. pose proof (pass_has (done_in g2) ts g2 ltac:(unfold ghas; reflexivity)) as Hg3. rewrite E3 in Hg3. by apply Hg3.
    + split; [lia|]. split; [|intros Hd; specialize (Hlt (Hnext Hd)); lia]. intros Hpos. eapply some_done_mono; [|reflexivity|by apply Hs]. intros u Hu. by right.
Qed.

Lemma passes_never ts late : forall fuel k good g r, good < zlen ts -> some_done ts (done_in g) -> (forall j, (j < fuel)%nat -> late (k + j)%nat = false) ->
  fst (passes params G precompiled _gp fuel late k ts good g) <> Ok r.
Proof.
  induction fuel as [|fuel IH]; intros k good g r Hgood Hd Hlate; cbn [passes]; rewrite (proj2 (Z.ltb_lt _ _) Hgood); [done|].
  unfold mbind at 1. destruct (pass params G precompiled _gp ts g) as [[[n rs]|e] g1] eqn:E; [|done].
  destruct (pass_counts ts g n rs g1 E) as (Hn & _ & Hlt). pose proof (Hlate 0%nat ltac:(lia)) as Hl. rewrite Nat.add_0_r in Hl. rewrite Hl.
  assert (some_done ts (done_in g1)) as Hd1.
  { pose proof (pass_has (done_in g) ts g ltac:(unfold ghas; reflexivity)) as Hg. rewrite E in Hg. eapply some_done_mono; [|exact Hg|exact Hd]. done. }
  unfold mbind at 1. destruct (passes params G precompiled _gp fuel late (S k) ts n g1) as [[[rs' m]|e] g2] eqn:E2; [|done]. exfalso.
  apply (IH (S k) n g1 (rs', m) (Hlt Hd) Hd1); [|by rewrite E2]. intros j Hj. specialize (Hlate (S j) ltac:(lia)). by rewrite Nat.add_succ_r in Hlate.
Qed.

(** When the first pass over the queue's transactions executes some of them but not all,
    the loop of [sync] does not end before the deadline, however many passes it makes:
    what was executed is skipped from then on, and no pass can count all again. *)
Theorem sync_spins ts g n rs g1 late fuel r : pass params G precompiled _gp ts g = (Ok (n, rs), g1) -> 0 < n < zlen ts ->
  (forall j, (j < fuel)%nat -> late j = false) ->
  fst (passes params G precompiled _gp fuel late 0 ts (Z.max 0 (zlen ts - 1)) g) <> Ok r.
Proof.
  intros E Hn Hlate. destruct fuel as [|fuel]; cbn [passes]; rewrite (proj2 (Z.ltb_lt (Z.max 0 (zlen ts - 1)) (zlen ts)) ltac:(lia)); [done|]. unfold mbind at 1. rewrite E.
  rewrite (Hlate 0%nat ltac:(lia)). destruct (pass_counts ts g n rs g1 E) as (_ & Hs & _).
  unfold mbind at 1. destruct (passes params G precompiled _gp fuel late 1 ts n g1) as [[[rs' m]|e] g2] eqn:E2; [|done]. exfalso.
  apply (passes_never ts late fuel 1 n g1 (rs', m) ltac:(lia) (Hs ltac:(lia))); [|by rewrite E2]. intros j Hj. apply (Hlate (S j)). lia.
Qed.

End Filling.
(** ** Witnesses *)

Module Witnesses.
Import UncleSamples BlockSamples.
Import ChainSamples (map_db, map_db_laws, sample_params, sample_genesis, second_header).
#[local] Existing Instance map_db.
#[local] Existing Instance map_db_laws.

Definition branch_site : Site (L := gmap bytes bytes) :=
  {| s_block := set_current tip_header (set_previous second_header workshop); s_bc := state3; s_sizes := s_sizes site0 |}.
Lemma aunt_found : match fst (find_uncles sample_params sample_genesis branch_site) with Ok found => map fst found = [aunt_header] | Err _ => False end.
Proof. vm_compute. reflexivity. Qed.
Lemma uncles_accepted_witness : exists found s1 s2, find_uncles sample_params sample_genesis branch_site = (Ok found, s1) /\
  map fst found = [aunt_header] /\ enact_uncles sample_params sample_genesis (map snd found) (with_block (set_current tip_header workshop) s1) = (Ok [aunt_header], s2).
Proof.
  destruct (uncles_accepted sample_params sample_genesis within_head wide branch_site (ChainProps.fresh_node ChainSamples.second 25)
    chain3 readable3 timed3 aged3) as (found & s1 & E & _ & Hall); [vm_compute; try reflexivity; try discriminate..|].
  pose proof aunt_found as Ha. rewrite E in Ha. cbn [fst] in Ha.
  destruct (Hall (set_current tip_header workshop) (m_hash tip_header) tip_header) as (s2 & E2); [vm_compute; reflexivity..|].
  exists found, s1, s2. split; [exact E|]. split; [exact Ha|]. rewrite Ha in E2. exact E2.
Defined.


(** A block that claims the state root of its parent is enacted, though the rewards have
    changed the state. *)
Example forged_accepted : match enact (C := Transaction.Toy) easy_params easy_genesis ∅ (ChainSamples.block_ref forged_bytes forged_header) ready with
  | (Ok _, s') => match TrieDB.root (State.m_state (m_state (s_block s'))) with Ok r => bool_decide (r = m_stateRoot forged_header) = false | Err _ => False end
  | _ => False
  end.
Proof. vm_compute. reflexivity. Qed.
End Witnesses.
End BlockProps.
